(* ===== verification/_CoqProject ===== *)
-Q . S2P
Prelude.v
GoStrings.v
BigText.v
Events.v
Errors.v
Cache.v
SdkInt.v
SdkDec.v
Roots.v
CoinSet.v
CoinText.v
Coins.v
DecCoins.v
Config.v
CoinType.v
BitArray.v
Wire.v
Decoding.v
Keys.v
Uuid.v
Curve.v
HDPath.v
Multisig.v
Address.v
JsonText.v
Armor.v
KeyMethods.v
KeyStore.v
TxTypes.v
TxProto.v
Codec.v
Messages.v
Grpc.v
Pagination.v
Registry.v
UnknownProto.v
Sigs.v
TxBuilder.v
TxDecode.v
DecodeRuns.v
Bank.v
Coinswap.v
SwapProto.v
SwapQuery.v
SwapGrpc.v
SwapPrices.v
Nft.v
TokenMsgs.v
Gov.v
Staking.v
Delegations.v
StakingAnswers.v
Sdk.v
SignBytes.v
AminoCompat.v
ProtoCodec.v
StdTx.v
Factory.v
TxConfig.v
Locker.v
Client.v
ClientLemmas.v
Results.v
TextForms.v
Blocks.v
TxQueries.v
Subscriptions.v
Accounts.v
ReadBack.v
Batches.v
SendOne.v
BankClient.v
SwapClient.v
StakingClient.v
TokenClient.v
NftClient.v
GovClient.v
ClientRuns.v
ReadRuns.v
ModuleRuns.v
