(* ===== verification/Prelude.v ===== *)
(** * Verification of the plugchain Go SDK

    The SDK builds, signs, encodes and broadcasts transactions for the plugchain
    blockchain.  Its core is layered: number types ([types/int.go],
    [types/dec.go]), coins ([types/coin.go], [types/dec_coin.go]) and unit
    conversion, keys and threshold signatures ([crypto]), the transaction
    messages and their protobuf encodings ([types/tx], [codec/types]), the
    builder and the factory that turns messages into signed bytes
    ([client/tx]), and a client that caches accounts and tokens and sends
    batches ([modules]).

    ** Files

    - [Prelude] (this file): outcomes of Go code ([Ok] a value, [Err] a non-nil
      error, [Panic]), machine integers as [Z] with their wrap-around, [big.Int]
      operations as [Z], slices' [copy]; tactics [res_inv], [int_inv].
    - [GoStrings], [BigText]: Go strings and the library functions the code
      uses on them; the text forms of [big.Int].
    - [SdkInt], [SdkDec]: [types/int.go] and [types/dec.go].  The value behind
      a nil pointer is [None]; a [Dec] is its integer scaled by [10^18].
    - [JsonText]: JSON strings and UTF-8 as [encoding/json] reads and writes them,
      and the JSON forms of integers, decimals and addresses.
    - [CoinSet]: the algorithms that [types/coin.go] and [types/dec_coin.go]
      write out twice, once, over the interface [AmountOps] with the laws
      [AmountLaws]; [CoinText]: the regular expressions of the coin parsers;
      [Coins], [DecCoins]: the two instances and their own operations.
    - [CoinType]: [types/coin_type.go], [types/token.go], helpers of
      [types/utils.go] and [utils/commom.go].
    - [BitArray]: [crypto/types/compact_bit_array.go].
    - [Wire]: the protobuf wire format and the messages [MultiSignature],
      [CompactBitArray], [Coin], [TxRaw], [SignDoc].
    - [Keys]: [crypto/keys/secp256k1] and [crypto/keys/ed25519] over the
      interface [CryptoLib] of the curve and hash libraries, whose documented
      behaviour is [CryptoLaws]; signatures are only said to verify for private
      keys that are numbers of the group ([valid_scalar]), so the properties about
      signatures of stored keys are about such keys ([KeyStore.secp_usable]).
    - [Multisig]: [crypto/types/multisig], [crypto/keys/multisig],
      [types/tx/signing/signature_data.go].
    - [Address]: [types/address.go], [types/env.go], [utils/bech32] over the
      interface [Bech32Lib] with [Bech32Laws].
    - [TxTypes]: [Any], public keys, [TxBody], [AuthInfo] and their parts, with
      their encoders; [Decoding]: how generated decoders read what encoders
      write, that they end and never panic; [TxProto]: the decoders and sizes of
      the messages of a transaction.
    - [Registry]: [codec/types/interface_registry.go] over the class
      [ProtoMessages] of what reflection and gogo protobuf say of messages.
    - [AminoCompat]: [codec/types/compat.go], [codec/amino.go] and
      [codec/amino_codec.go], over the class [AminoMessages] of amino and its
      messages with the laws [amino_laws]; [ProtoCodec]: [codec/proto_codec.go]
      and [codec/json.go].
    - [UnknownProto]: [codec/unknownproto] over [ProtoWire] (protowire) and
      [Descriptors] (the descriptors of the message types); [TxDecode]:
      [types/tx/decoder.go] over it and the laws [wire_laws] and [tx_types];
      [DecodeRuns]: a wire reader, descriptors and a message to evaluate them on.
    - [Sigs]: [types/tx/sigs.go], [types/tx/signing/signature.go].
    - [TxBuilder]: [types/tx/builder.go], [types.go], [encoder.go],
      [direct.go], [mode_handler.go] and [types/handler_map.go].
    - [Factory]: [client/tx/factory.go]; [TxConfig]: [types/tx/config.go], the
      encoders on every type that is a transaction, the ways to pack a value of
      [codec/types/any.go] and the builder's getters.
    - [Roots]: [ApproxSqrt] of [types/dec.go], whose loop ends by its condition.
    - [Events], [Errors], [Config]: [types/events.go], [types/event.go],
      [types/errors.go], [types/config.go].
    - [HDPath]: [crypto/hd]; [Armor]: [crypto/armor.go], [crypto/codec];
      [KeyMethods]: comparison, printing and the amino forms of keys, and the
      binding of [secp256k1_cgo.go] to the C library, which is an interface;
      [KeyStore]: [types/store], [crypto/key_manager.go], [modules/keys.go].
      HMAC, mnemonics, amino, the armor format, ciphers, the database and JSON
      are interfaces ([HDLib], [AminoLib], [ArmorLib], [TmDB], [KeyInfoJSON])
      with their laws; a key store promises [KeyDAOLaws], which both stores
      fulfil.
    - [Cache]: [utils/cache/cache.go] over gcache, the interface [GCache] with
      the laws of a lossy map; [Locker]: the sharded lock of
      [modules/base_client.go] and its interleavings.
    - [Client]: the client, [modules/base_client.go], [account.go],
      [token.go] and the sending part of [tx.go], over the interface [Node];
      [ClientLemmas]: what its operations leave alone; [Accounts], [Batches]:
      its properties; [ClientRuns]: a node to evaluate it on, with the runs that
      instantiate them.
    - [StdTx]: the legacy transactions of [types/stdtx.go]; [Blocks]:
      [types/block.go] over [Tendermint], what its library says of blocks and
      keys; [TxQueries]: the queries of [modules/tx.go] for transactions and
      blocks, over [TxNode]; [Subscriptions]: [modules/rpc_client.go] and
      [SubscribeSendTx] of [modules/bank/bank.go], the goroutines that handle
      events as a step relation in which the steps of handlers interleave;
      [ReadBack]: sending and querying together; [ReadRuns]: runs
      that instantiate their properties.
    - [Results]: [types/result.go] and the raw store queries of
      [modules/base_client.go]; [TextForms]: hexadecimal
      ([types/tm_types.go]), the texts of events and delegations, and how
      delegations are stored.
    - [Uuid]: [utils/uuid], over the class [Host] of clock, random source and
      network interfaces; [Curve]: the curve arithmetic of
      [crypto/keys/secp256k1/internal/secp256k1].

    - [Codec]: what a generated codec promises, the class [Codec] with
      [CodecLaws], and how a message's laws follow from its fields;
      [Messages]: what the messages of the modules promise and the checks their
      validations share; [Grpc]: calls, stubs and handlers, and what is relied on
      of the gRPC library and the network ([connected]); [Pagination]: [types/query/pagination.pb.go].
    - [Bank], [Coinswap], [Nft], [TokenMsgs], [Gov], [Staking]: the messages of
      the modules ([tx.pb.go], [types.go]), their codecs, validation and
      signers, and what their answers are converted to; [Delegations],
      [StakingAnswers]: [modules/staking/delegation.go] and the conversions of
      [modules/staking/types.go]; [SignBytes]: names, routes and the bytes to sign
      of every message, and the methods of accounts, [modules/auth/types.go].
    - [SwapProto], [SwapQuery], [SwapGrpc]: [modules/coinswap/coinswap.pb.go] and
      [query.pd.go], the query service with both of its ends; [SwapPrices]: the
      price functions of [modules/coinswap/coinswap.go].
    - [Sdk]: [client.go] and the [codec.go] of the modules: which types are
      registered, and the messages of the application as one type.
    - [SendOne]: operations that send one message, once for all modules;
      [BankClient], [SwapClient], [StakingClient], [TokenClient], [NftClient],
      [GovClient]: the clients of the modules, over an interface for the queries
      of the node; [ModuleRuns]: runs that instantiate their properties.

    ** How Go is modelled

    Methods are functions named after the method, with the receiver's type as a
    prefix where a name is used twice.  Pointers that may be nil are options and
    dereferencing nil is a [Panic].  Functions that change their receiver return
    its new value; where a slice shares its array with the caller ([Coins.Add]),
    the arrays afterwards are results too.  Error values keep the constant part
    of their message.  Code that changes a state (a store, the cache and the
    world behind the client) is a function [ST S A] from the state to an outcome
    and a state, in a monad; the deferred calls of Go, such as closing a
    connection or releasing a lock, are written out on every path.  Concurrent
    callers, and the goroutines that handle events, are step relations.  Loops over slices are structural; the other loops carry
    fuel that is proved sufficient where it is introduced: the digits of a
    number in its bit length, the compaction and merging of coin lists in the
    lengths of the lists, binary search in the length of the list, the varint
    reader in ten bytes, and the decoders and the walk over unknown fields,
    their nested messages included, in the length of the buffer.  [UnpackAny]
    takes a depth, and any depth at which it ends gives the same answer.  The
    retries of a batch count down from the number of tries; the halving of
    batches has more fuel than halvings until zero.

    ** What the theorems show

    - Numbers: exactness or panic of the arithmetic, the range invariant,
      rounding (bankers' for products, bounded error for quotients, ceilings and
      integers), round trips of the text and wire forms, the order of sortable
      keys.
    - Coins: addition is the sum of each denomination, commutative and
      associative on canonical lists; constructors normalise; lookup agrees with
      a linear search; printing and parsing are inverse; validity is
      characterised; decimal lists can be subtracted, scaled, intersected and
      split.
    - Bit arrays and wire format: get/set laws, ranks, round trips, exact sizes,
      and injectivity of the signed document.
    - Keys and threshold signatures: signatures verify, malleated ones are
      refused, generated keys are in range; collecting signatures refines a
      finite map, and verification refines an inductive specification of what a
      valid threshold signature is.
    - Transactions: the cached encodings of the builder are current in every
      reachable state; signatures stored are signatures read; signers are
      distinct and complete; a transaction from the factory decodes to a body,
      an auth info and one signature that verifies over exactly those bytes.
    - Decoding: what the encoder wrote for an accepted transaction is decoded to
      the same body, auth info, signatures and bytes, with the caches of the
      public keys gone; a buffer is accepted by the check of unknown fields only
      if every field on every level of nesting is known or may be skipped; the
      check ends, and its answers do not depend on what its caches hold; a value
      unpacked as an interface implements it.  A transaction cut off inside a
      field makes the decoder panic.
    - Keys at rest: derivation along a path is BIP 32's wherever BIP 32 has a key
      (its check for invalid children is missing from the code); a recovered key
      is found and signs under its own public key; armored keys come back; what the
      stub encryption of the database store loses.
    - The client: a transaction it builds is signed by the stored key it names;
      sequence numbers are handed out in order, from the cache while it has the
      account; the values in its cache have the types its assertions expect, if
      the node answers accounts at addresses and no key is named like an address; batches go out in order with a bounded number
      of retries, and the lock of an account, which excludes other callers, is
      released on every path.  Its defects are theorems as well: panics reported
      as success, batches that share a sequence number, dry runs that consume
      one.

    - The modules: validation accepts exactly the messages described and names
      the signers; a transfer is balanced; a transfer, and every sending
      operation of the other modules, that reports success has handed one
      transaction to the node, with the message that was asked for and one
      signature that verifies; pages of validators fit together;
      swaps do not decrease the product of the reserves.
    - Reading the chain: a transaction that was sent and committed is answered by
      a query for its hash, with the messages it was built from, if these can be
      unpacked; a search asks for
      each block once and answers what the node found; the legacy form of a
      transaction agrees with the current one.  Every event of a subscription is
      handled once, however the goroutines interleave, two handlers can interfere,
      and an event that cannot be decoded can end the program; subscribers have distinct names.
    - Identifiers: exactly the texts of four forms are accepted; identifiers made
      in a row are distinct.  Curve: addition and doubling in projective
      coordinates are the chord and the tangent of the curve, whatever the
      coordinates, and panic where these have no affine result.
    - Codecs: messages with a length before them can be told apart; what the
      amino codec writes it reads, with the values that are packed on every level
      of nesting; numbers, addresses, keys and hexadecimal texts survive; the ways
      to pack a value agree.
    - The query service of coinswap: messages are decoded to themselves, and a
      call of a stub that gets through is a call of the server's method of the
      same name.
    - The application: its client is created with its modules, and its registry
      unpacks every message of theirs, except proposals, whose contents are not
      registered; validators with threshold keys are left open.

    ** What is not modelled

    Amino itself is a parameter, so the bytes in which messages are signed in the
    legacy mode ([GetSignBytes]) are known only in terms of it; YAML texts, logging, gRPC and
    Tendermint RPC are libraries or input and output.  The generated query code of
    the modules other than coinswap is an interface of their clients: it is the
    code of [SwapGrpc] with other messages.  The wrapper around the gRPC connection
    ([modules/grpc_clitent.go]) and the logger only call libraries; of
    [secp256k1/internal] the C library is a parameter. *)
From stdpp Require Export base decidable tactics option list numbers strings gmap sorting.
From Stdlib Require Export ZArith Lia.

#[global] Open Scope Z_scope.

(* ------------------------------------------------------------------ *)
(** * Outcomes of Go code

    A Go function either returns a value, returns a non-nil [error], or
    panics.  [Err] and [Panic] carry the constant part of the message of the
    source (its format string); rendered arguments are not kept. *)

Inductive res (A : Type) : Type :=
| Ok (a : A)
| Err (e : string)
| Panic (p : string).
Arguments Ok {_} _.
Arguments Err {_} _.
Arguments Panic {_} _.

#[global] Instance res_ret : MRet res := fun A a => Ok a.
#[global] Instance res_bind : MBind res := fun A B f m =>
  match m with Ok a => f a | Err e => Err e | Panic p => Panic p end.
#[global] Instance res_fmap : FMap res := fun A B f m =>
  match m with Ok a => Ok (f a) | Err e => Err e | Panic p => Panic p end.

#[global] Instance res_eq_dec {A} `{EqDecision A} : EqDecision (res A).
Proof. solve_decision. Defined.

Definition index_out_of_range : string := "runtime error: index out of range".
(** The message of dereferencing a nil pointer. *)
Definition nil_deref : string := "invalid memory address or nil pointer dereference".

(** Reading through a pointer modelled as an [option]. *)
Definition deref {A} (p : option A) : res A :=
  match p with Some a => Ok a | None => Panic nil_deref end.

(** [if err := f(); err != nil { ... }]: the error of a computation. *)
Definition err_of {A} (m : res A) : option string :=
  match m with Err e => Some e | _ => None end.

(** Replace the error of a failing computation (Go code that ignores the
    callee's error and returns one of its own). *)
Definition or_err {A} (m : res A) (e : string) : res A :=
  match m with Err _ => Err e | _ => m end.

Definition is_ok {A} (m : res A) : bool :=
  match m with Ok _ => true | _ => false end.

Definition panics {A} (m : res A) : bool :=
  match m with Panic _ => true | _ => false end.

(** [if err != nil { panic(err) }]: a call whose error is turned into a panic. *)
Definition must {A} (m : res A) : res A := match m with Err e => Panic e | r => r end.

(** [if !cond { return errors.New(e) }] and [if bad { panic(p) }]. *)
Definition check (b : bool) (e : string) : res unit := if b then Ok tt else Err e.
Definition panic_if (b : bool) (p : string) : res unit := if b then Panic p else Ok tt.

(** A [for ... range] loop whose body may return early. *)
Fixpoint for_each {A S} (body : S -> A -> res S) (s : S) (l : list A) : res S :=
  match l with
  | [] => Ok s
  | x :: l => s' ← body s x; for_each body s' l
  end.

Lemma for_each_app {A S} (body : S -> A -> res S) s l1 l2 :
  for_each body s (l1 ++ l2) = s' ← for_each body s l1; for_each body s' l2.
Proof. revert s. induction l1 as [|x l1 IH]; intros s; [done|]. cbn [app for_each]. destruct (body s x); [apply IH|done..]. Qed.

Section ResLemmas.
Context {A B : Type}.

Lemma bind_Ok (m : res A) (f : A -> res B) b :
  (m ≫= f) = Ok b <-> exists a, m = Ok a /\ f a = Ok b.
Proof.
  split.
  - destruct m; simpl; [eauto|done|done].
  - intros (a & -> & H). exact H.
Qed.

Lemma bind_Err (m : res A) (f : A -> res B) e :
  (m ≫= f) = Err e <-> m = Err e \/ exists a, m = Ok a /\ f a = Err e.
Proof.
  destruct m; simpl; split; try (intros [H|(x & Hx & H)]); intros;
    simplify_eq; eauto.
Qed.

Lemma bind_Panic (m : res A) (f : A -> res B) p :
  (m ≫= f) = Panic p <-> m = Panic p \/ exists a, m = Ok a /\ f a = Panic p.
Proof.
  destruct m; simpl; split; try (intros [H|(x & Hx & H)]); intros;
    simplify_eq; eauto.
Qed.

Lemma bind_assoc {C} (m : res A) (f : A -> res B) (g : B -> res C) :
  ((m ≫= f) ≫= g) = (m ≫= fun a => f a ≫= g).
Proof. by destruct m. Qed.
End ResLemmas.

Lemma check_Ok b e : check b e = Ok tt <-> b = true.
Proof. by destruct b. Qed.

Lemma panic_if_Ok b p : panic_if b p = Ok tt <-> b = false.
Proof. by destruct b. Qed.

(** [res_inv] splits every hypothesis [m ≫= f = Ok b] (and the [check] and
    [panic_if] guards) into its successful parts. *)
Ltac res_inv :=
  repeat match goal with
  | H : (_ ≫= _) = Ok _ |- _ =>
      let a := fresh "a" in let Ha := fresh "Hr" in
      apply bind_Ok in H as (a & Ha & H)
  | H : check _ _ = Ok _ |- _ =>
      let u := fresh in
      match type of H with _ = Ok ?t => destruct t; apply check_Ok in H end
  | H : panic_if _ _ = Ok _ |- _ =>
      match type of H with _ = Ok ?t => destruct t; apply panic_if_Ok in H end
  | H : Ok _ = Ok _ |- _ => injection H as H
  | H : mret _ = Ok _ |- _ => injection H as H
  end; simplify_eq.

(* ------------------------------------------------------------------ *)
(** * State

    Code that changes a state [S], such as a store or a cache: the state remains
    as it was changed when the code returns an error or panics. *)

Definition ST (S A : Type) : Type := S -> res A * S.

Section State.
Context {S : Type}.

#[global] Instance st_ret : MRet (ST S) := fun A a s => (Ok a, s).
#[global] Instance st_bind : MBind (ST S) := fun A B f m s =>
  match m s with
  | (Ok a, s) => f a s
  | (Err e, s) => (Err e, s)
  | (Panic p, s) => (Panic p, s)
  end.

(** A computation that does not depend on the state, and one that reads it. *)
Definition lift {A} (m : res A) : ST S A := fun s => (m, s).
Definition query {A} (f : S -> res A) : ST S A := fun s => (f s, s).

(** [a, err := f()]: the error becomes a value, panics go on. *)
Definition attempt {A} (m : ST S A) : ST S (res A) := fun s =>
  match m s with
  | (Panic p, s) => (Panic p, s)
  | (r, s) => (Ok r, s)
  end.

Lemma st_bind_Ok {A B} (m : ST S A) (f : A -> ST S B) s b s' :
  (m ≫= f) s = (Ok b, s') <-> exists a s1, m s = (Ok a, s1) /\ f a s1 = (Ok b, s').
Proof. unfold mbind, st_bind. destruct (m s) as [[a|e|p] s1]; naive_solver. Qed.

Lemma attempt_Ok {A} (m : ST S A) s r s' :
  attempt m s = (Ok r, s') <-> m s = (r, s') /\ panics r = false.
Proof. unfold attempt. destruct (m s) as [[a|e|p] s1]; cbn; naive_solver. Qed.

Lemma lift_Ok {A} (m : res A) s a s' : lift m s = (Ok a, s') <-> m = Ok a /\ s' = s.
Proof. unfold lift. naive_solver. Qed.
Lemma query_Ok {A} (f : S -> res A) s a s' : query f s = (Ok a, s') <-> f s = Ok a /\ s' = s.
Proof. unfold query. split; [by intros [= -> ->]|by intros [-> ->]]. Qed.
End State.

(** [st_inv] splits the successful parts of a state computation. *)
Ltac st_inv :=
  repeat match goal with
  | H : (_ ≫= _) _ = (Ok _, _) |- _ =>
      let a := fresh "a" in let s := fresh "s" in let H1 := fresh "Hs" in
      apply st_bind_Ok in H as (a & s & H1 & H)
  | H : attempt _ _ = (Ok _, _) |- _ => apply attempt_Ok in H as [H ?]
  | H : lift _ _ = (Ok _, _) |- _ => apply lift_Ok in H as [H ->]
  | H : query _ _ = (Ok _, _) |- _ => apply query_Ok in H as [H ->]
  | H : (Ok _, _) = (Ok _, _) |- _ => injection H as H; subst
  | H : mret _ _ = (Ok _, _) |- _ => injection H as H; subst
  end; simplify_eq.

(* ------------------------------------------------------------------ *)
(** * Machine integers *)

Definition is_uint8 (z : Z) : Prop := 0 <= z < 2^8.
Definition is_uint32 (z : Z) : Prop := 0 <= z < 2^32.
Definition is_uint64 (z : Z) : Prop := 0 <= z < 2^64.
Definition is_int64 (z : Z) : Prop := -2^63 <= z < 2^63.

Definition wrap_u8 (z : Z) : Z := z mod 2^8.
Definition wrap_u16 (z : Z) : Z := z mod 2^16.
Definition wrap_u32 (z : Z) : Z := z mod 2^32.
Definition wrap_u64 (z : Z) : Z := z mod 2^64.
(** Conversion to a signed 64-bit integer (two's complement). *)
Definition wrap_i64 (z : Z) : Z := (z + 2^63) mod 2^64 - 2^63.

Lemma wrap_u64_id z : is_uint64 z -> wrap_u64 z = z.
Proof. intros H. by apply Z.mod_small. Qed.
Lemma wrap_i64_id z : is_int64 z -> wrap_i64 z = z.
Proof. unfold is_int64, wrap_i64. intros H. rewrite Z.mod_small; lia. Qed.
Lemma wrap_u8_range z : is_uint8 (wrap_u8 z).
Proof. apply Z.mod_pos_bound. lia. Qed.

(** [big.Int.BitLen]: the length of the absolute value in bits. *)
Definition BitLen (z : Z) : Z := if z =? 0 then 0 else Z.log2 (Z.abs z) + 1.

Lemma BitLen_le n z : 0 <= n -> BitLen z <= n <-> Z.abs z < 2^n.
Proof.
  intros Hn. unfold BitLen. destruct (Z.eqb_spec z 0) as [->|Hz].
  - split; intros; [apply Z.pow_pos_nonneg; lia|lia].
  - assert (0 < Z.abs z) by lia.
    rewrite (Z.log2_lt_pow2 (Z.abs z) n) by lia. lia.
Qed.

Lemma BitLen_gt n z : 0 <= n -> n < BitLen z <-> 2^n <= Z.abs z.
Proof. intros Hn. pose proof (BitLen_le n z Hn). lia. Qed.

Lemma BitLen_nonneg z : 0 <= BitLen z.
Proof. unfold BitLen. destruct (z =? 0); [lia|]. pose proof (Z.log2_nonneg (Z.abs z)). lia. Qed.

Lemma BitLen_opp z : BitLen (- z) = BitLen z.
Proof.
  unfold BitLen. rewrite Z.abs_opp.
  destruct (Z.eqb_spec z 0), (Z.eqb_spec (-z) 0); lia.
Qed.

(** [big.Int.Sign] *)
Definition Sign (z : Z) : Z := Z.sgn z.

(** [big.Int.Cmp]: -1, 0 or 1. *)
Definition Cmp (x y : Z) : Z := match Z.compare x y with Lt => -1 | Eq => 0 | Gt => 1 end.

Lemma Cmp_spec x y :
  (Cmp x y = -1 /\ x < y) \/ (Cmp x y = 0 /\ x = y) \/ (Cmp x y = 1 /\ x > y).
Proof. unfold Cmp. destruct (Z.compare_spec x y); lia. Qed.

Ltac cmp_case x y :=
  let H := fresh in let E := fresh in
  destruct (Cmp_spec x y) as [[E H]|[[E H]|[E H]]]; rewrite E in *.

(** Bounds on a product from the bit lengths of its factors. *)
Lemma BitLen_mul_lower a b n :
  0 <= n -> a <> 0 -> b <> 0 -> n < BitLen a + BitLen b - 1 -> 2^n <= Z.abs (a * b).
Proof.
  intros Hn Ha Hb H. rewrite Z.abs_mul.
  assert (0 < BitLen a) by (unfold BitLen; destruct (Z.eqb_spec a 0); [done|];
    pose proof (Z.log2_nonneg (Z.abs a)); lia).
  assert (0 < BitLen b) by (unfold BitLen; destruct (Z.eqb_spec b 0); [done|];
    pose proof (Z.log2_nonneg (Z.abs b)); lia).
  pose proof (proj1 (BitLen_gt (BitLen a - 1) a ltac:(lia)) ltac:(lia)) as HA.
  pose proof (proj1 (BitLen_gt (BitLen b - 1) b ltac:(lia)) ltac:(lia)) as HB.
  transitivity (2 ^ ((BitLen a - 1) + (BitLen b - 1))).
  - apply Z.pow_le_mono_r; lia.
  - rewrite Z.pow_add_r by lia. apply Z.mul_le_mono_nonneg; try apply Z.pow_nonneg; lia.
Qed.

(** Pointers to [big.Int]: [nil] is [None].  [Cmp] compares the pointers
    first, so comparing two nils does not panic. *)
Definition ptr_Cmp (p q : option Z) : res Z :=
  match p, q with
  | None, None => Ok 0
  | _, _ => x ← deref p; y ← deref q; Ok (Cmp x y)
  end.

(** [big.Int.Quo] (truncated) and [big.Int.Mod] (Euclidean); both panic on a
    zero divisor. *)
Definition big_Quo (x y : Z) : res Z :=
  if y =? 0 then Panic "division by zero" else Ok (Z.quot x y).
Definition big_Mod (x y : Z) : res Z :=
  if y =? 0 then Panic "division by zero" else Ok (x mod Z.abs y).

(** [copy(dst, src)]: the new contents of [dst]. *)
Definition go_copy {A} (dst src : list A) : list A :=
  take (length dst) src ++ drop (length src) dst.

Lemma go_copy_length {A} (dst src : list A) : length (go_copy dst src) = length dst.
Proof. unfold go_copy. rewrite length_app, length_take, length_drop. lia. Qed.

Lemma deref_Ok {A} (p : option A) a : deref p = Ok a <-> p = Some a.
Proof. destruct p; cbn; naive_solver. Qed.

(** [res_inv] that also splits conditionals and dereferences. *)
Ltac int_inv :=
  repeat (res_inv; match goal with
  | H : deref _ = Ok _ |- _ => apply deref_Ok in H
  | H : (if ?b then _ else _) = Ok _ |- _ => destruct b eqn:?; try discriminate H
  end); res_inv.
