(* ===== verification/GoStrings.v ===== *)
(** Go strings and byte slices, and the parts of the Go standard library the
    SDK uses on them: [strings.TrimSpace], [strings.Split], [strings.ToLower],
    [strings.Join] and the ordering of strings.  The text forms of [big.Int] are
    in [BigText].

    A Go string is a [string] (a sequence of 8-bit characters, as in Go); a
    [[]byte] is a [list Z] of values in 0..255. *)
From S2P Require Import Prelude.
From Stdlib Require Import Ascii.

(* ------------------------------------------------------------------ *)
(** * Characters *)

Definition code (c : ascii) : Z := Z.of_N (N_of_ascii c).
Definition chr (z : Z) : ascii := ascii_of_N (Z.to_N z).

Definition in_range (lo hi : ascii) (c : ascii) : bool :=
  (code lo <=? code c) && (code c <=? code hi).

Definition is_digit : ascii -> bool := in_range "0" "9".
Definition is_lower : ascii -> bool := in_range "a" "z".
Definition is_upper : ascii -> bool := in_range "A" "Z".
Definition is_alpha (c : ascii) : bool := is_lower c || is_upper c.

(** [[[:space:]]] of Go regular expressions: tab, newline, vertical tab, form
    feed, carriage return, space. *)
Definition is_space (c : ascii) : bool :=
  in_range (chr 9) (chr 13) c || (code c =? 32).

Lemma code_range c : 0 <= code c < 256.
Proof.
  unfold code. pose proof (N_ascii_bounded c). lia.
Qed.

Lemma chr_code c : chr (code c) = c.
Proof. unfold chr, code. by rewrite N2Z.id, ascii_N_embedding. Qed.

Lemma code_chr z : 0 <= z < 256 -> code (chr z) = z.
Proof. intros H. unfold chr, code. rewrite N_ascii_embedding by lia. lia. Qed.

#[global] Instance code_inj : Inj (=) (=) code.
Proof. intros x y H. by rewrite <-(chr_code x), <-(chr_code y), H. Qed.

(* ------------------------------------------------------------------ *)
(** * Strings as sequences *)

Fixpoint str_forall (p : ascii -> bool) (s : string) : bool :=
  match s with
  | EmptyString => true
  | String c s => p c && str_forall p s
  end.

(** The longest prefix of characters satisfying [p], and the rest. *)
Fixpoint span (p : ascii -> bool) (s : string) : string * string :=
  match s with
  | EmptyString => ("", "")
  | String c s' =>
      if p c then let '(a, b) := span p s' in (String c a, b) else ("", s)
  end.

Fixpoint str_rev_app (s acc : string) : string :=
  match s with
  | EmptyString => acc
  | String c s => str_rev_app s (String c acc)
  end.

Fixpoint replicate_chr (n : nat) (c : ascii) : string :=
  match n with O => "" | S n => String c (replicate_chr n c) end.

(** [s[n:]] and [s[:n]] for [n <= len(s)]. *)
Fixpoint str_drop (n : nat) (s : string) : string :=
  match n, s with
  | S n, String _ s => str_drop n s
  | _, _ => s
  end.
Fixpoint str_take (n : nat) (s : string) : string :=
  match n, s with
  | S n, String c s => String c (str_take n s)
  | _, _ => ""
  end.

Lemma str_app_nil_r s : s +:+ "" = s.
Proof. induction s; [done|]. simpl. unfold String.app. simpl. by f_equal. Qed.

Lemma str_app_cons c s t : String c s +:+ t = String c (s +:+ t).
Proof. done. Qed.

Lemma str_app_assoc s t u : s +:+ (t +:+ u) = (s +:+ t) +:+ u.
Proof. induction s; [done|]. by rewrite !str_app_cons, IHs. Qed.

Lemma str_length_app s t : String.length (s +:+ t) = (String.length s + String.length t)%nat.
Proof. induction s; [done|]. rewrite str_app_cons. simpl. by rewrite IHs. Qed.

Lemma str_take_drop n s : str_take n s +:+ str_drop n s = s.
Proof.
  revert s. induction n; intros [|c s]; try done. simpl.
  by rewrite str_app_cons, IHn.
Qed.

Lemma str_length_take n s : (n <= String.length s)%nat -> String.length (str_take n s) = n.
Proof. revert s. induction n; intros [|c s] H; simpl in *; try lia; f_equal; apply IHn; lia. Qed.

Lemma str_length_drop n s : String.length (str_drop n s) = (String.length s - n)%nat.
Proof. revert s. induction n; intros [|c s]; simpl; try lia. apply IHn. Qed.

Lemma str_length_replicate n c : String.length (replicate_chr n c) = n.
Proof. induction n; simpl; congruence. Qed.

Lemma str_forall_app p s t : str_forall p (s +:+ t) = str_forall p s && str_forall p t.
Proof. induction s; [done|]. rewrite str_app_cons. simpl. by rewrite IHs, andb_assoc. Qed.

Lemma str_forall_take p n s : str_forall p s = true -> str_forall p (str_take n s) = true.
Proof.
  intros H. rewrite <-(str_take_drop n s), str_forall_app in H. by apply andb_true_iff in H as [??].
Qed.

Lemma str_forall_drop p n s : str_forall p s = true -> str_forall p (str_drop n s) = true.
Proof.
  intros H. rewrite <-(str_take_drop n s), str_forall_app in H. by apply andb_true_iff in H as [??].
Qed.

Lemma str_forall_replicate p n c : p c = true -> str_forall p (replicate_chr n c) = true.
Proof. intros H. induction n; simpl; [done|]. by rewrite H. Qed.

Lemma str_forall_impl (p q : ascii -> bool) s :
  (forall c, p c = true -> q c = true) -> str_forall p s = true -> str_forall q s = true.
Proof.
  intros Hpq. induction s as [|c s IH]; simpl; [done|]. rewrite !andb_true_iff.
  intros [Hc Hs]. auto.
Qed.

Lemma span_app p s : fst (span p s) +:+ snd (span p s) = s.
Proof.
  induction s as [|c s IH]; [done|]. simpl. destruct (p c); [|done].
  destruct (span p s) as [a b]. simpl in *. by rewrite str_app_cons, IH.
Qed.

Lemma span_forall p s : str_forall p (fst (span p s)) = true.
Proof.
  induction s as [|c s IH]; [done|]. simpl. destruct (p c) eqn:E; [|done].
  destruct (span p s). simpl in *. by rewrite E, IH.
Qed.

(** [head_not p s]: [s] does not start with a [p]-character. *)
Definition head_not (p : ascii -> bool) (s : string) : bool :=
  match s with EmptyString => true | String c _ => negb (p c) end.

Lemma span_unique p a b :
  str_forall p a = true -> head_not p b = true -> span p (a +:+ b) = (a, b).
Proof.
  intros Ha Hb. induction a as [|c a IH]; simpl in Ha.
  - change ("" +:+ b) with b. destruct b as [|c b]; [done|]. simpl in *.
    by rewrite (proj1 (negb_true_iff _) Hb).
  - apply andb_true_iff in Ha as [Hc Ha]. rewrite str_app_cons. simpl.
    by rewrite Hc, IH.
Qed.

Lemma span_head_not p s : head_not p (snd (span p s)) = true.
Proof.
  induction s as [|c s IH]; [done|]. simpl. destruct (p c) eqn:E.
  - by destruct (span p s).
  - simpl. by rewrite E.
Qed.

(* ------------------------------------------------------------------ *)
(** * String order ([<], [<=], [==] on Go strings: bytewise lexicographic) *)

Definition slt (s t : string) : Prop := String.compare s t = Lt.
Definition sltb (s t : string) : bool :=
  match String.compare s t with Lt => true | _ => false end.

Lemma ascii_compare_code c d : Ascii.compare c d = Z.compare (code c) (code d).
Proof. unfold Ascii.compare, code. by rewrite N2Z.inj_compare. Qed.

Lemma str_compare_cons c s d t :
  String.compare (String c s) (String d t) =
  match Z.compare (code c) (code d) with Eq => String.compare s t | r => r end.
Proof. simpl. rewrite ascii_compare_code. by destruct (Z.compare _ _). Qed.

Lemma str_compare_refl s : String.compare s s = Eq.
Proof. induction s as [|c s IH]; [done|]. by rewrite str_compare_cons, Z.compare_refl. Qed.

Lemma sltb_slt s t : sltb s t = true <-> slt s t.
Proof. unfold sltb, slt. by destruct (String.compare s t). Qed.

Lemma sltb_irrefl s : sltb s s = false.
Proof. unfold sltb. by rewrite str_compare_refl. Qed.

Lemma slt_irrefl s : ~ slt s s.
Proof. unfold slt. by rewrite str_compare_refl. Qed.

Lemma slt_ne s t : slt s t -> s <> t.
Proof. intros H ->. by apply slt_irrefl in H. Qed.

#[global] Instance slt_trans : Transitive slt.
Proof.
  unfold slt. intros s. induction s as [|c s IH]; intros [|d t] [|e u]; try done.
  rewrite !str_compare_cons. intros H1 H2.
  destruct (Z.compare_spec (code c) (code d)); try done;
    destruct (Z.compare_spec (code d) (code e)); try done;
    destruct (Z.compare_spec (code c) (code e)); try lia; eauto.
Qed.

Lemma slt_compare_gt s t : String.compare s t = Gt <-> slt t s.
Proof. unfold slt. rewrite String.compare_antisym. by destruct (String.compare t s). Qed.

#[global] Instance slt_trichotomy : Trichotomy slt.
Proof.
  intros s t. destruct (String.compare s t) eqn:E.
  - right; left. by apply String.compare_eq_iff.
  - left. exact E.
  - right; right. by apply slt_compare_gt.
Qed.

#[global] Instance slt_dec s t : Decision (slt s t).
Proof. unfold slt. apply _. Defined.

Lemma slt_asym s t : slt s t -> ~ slt t s.
Proof. intros H1 H2. apply (slt_irrefl s). by trans t. Qed.

(** Go's [s <= t] *)
Definition sleb (s t : string) : bool := negb (sltb t s).

Lemma sleb_false s t : sleb s t = false <-> slt t s.
Proof. unfold sleb. rewrite negb_false_iff. apply sltb_slt. Qed.

(** Comparing concatenations with fronts of equal length. *)
Lemma str_compare_app a b u v :
  String.length a = String.length b ->
  String.compare (a +:+ u) (b +:+ v) =
  match String.compare a b with Eq => String.compare u v | r => r end.
Proof.
  revert b. induction a as [|c a IH]; intros [|d b] H; try done.
  injection H as H. rewrite !str_app_cons, !str_compare_cons, IH by done.
  by destruct (Z.compare _ _).
Qed.

(* ------------------------------------------------------------------ *)
(** * [strings.TrimSpace], [strings.Split], [strings.ToLower] *)

(** [strip_prefix p s] is the rest of [s] after the prefix [p], if it has it. *)
Fixpoint strip_prefix (p s : string) : option string :=
  match p, s with
  | EmptyString, _ => Some s
  | String c p, String d s => if decide (c = d) then strip_prefix p s else None
  | _, _ => None
  end.

Definition bytes_str (l : list Z) : string :=
  foldr (fun z s => String (chr z) s) "" l.

(** The UTF-8 encodings of the code points [unicode.IsSpace] accepts. *)
Definition unicode_spaces : list string :=
  bytes_str <$>
  ([[9]; [10]; [11]; [12]; [13]; [32]; [194; 133]; [194; 160]; [225; 154; 128];
    [226; 128; 168]; [226; 128; 169]; [226; 128; 175]; [226; 129; 159]; [227; 128; 128]]
   ++ ((fun k => [226; 128; 128 + k]) <$> [0; 1; 2; 3; 4; 5; 6; 7; 8; 9; 10])).

Fixpoint strip_any (ps : list string) (s : string) : option string :=
  match ps with
  | [] => None
  | p :: ps => match strip_prefix p s with Some r => Some r | None => strip_any ps s end
  end.

(** Strip leading occurrences of the given (non-empty) strings; [fuel] bounds
    their number by the length of the string. *)
Fixpoint trim_left (ps : list string) (fuel : nat) (s : string) : string :=
  match fuel with
  | O => s
  | S f => match strip_any ps s with Some r => trim_left ps f r | None => s end
  end.

Definition str_rev (s : string) : string := str_rev_app s "".

(** Trailing spaces are leading spaces of the reversed string. *)
Definition TrimSpace (s : string) : string :=
  let t := trim_left unicode_spaces (String.length s) s in
  str_rev (trim_left (str_rev <$> unicode_spaces) (String.length t) (str_rev t)).

(** [strings.Split(s, sep)] for a one-character separator. *)
Fixpoint split_on (sep : ascii) (s : string) : list string :=
  match s with
  | EmptyString => [""]
  | String c s' =>
      if decide (c = sep) then "" :: split_on sep s'
      else match split_on sep s' with
           | [] => [String c ""]
           | w :: ws => String c w :: ws
           end
  end.

(** [strings.ToLower] on ASCII text (bytes above 127 are left unchanged). *)
Definition lower_chr (c : ascii) : ascii := if is_upper c then chr (code c + 32) else c.
Fixpoint ToLower (s : string) : string :=
  match s with EmptyString => "" | String c s => String (lower_chr c) (ToLower s) end.

(** [strings.Join] *)
Fixpoint Join (l : list string) (sep : string) : string :=
  match l with
  | [] => ""
  | [s] => s
  | s :: l => s +:+ sep +:+ Join l sep
  end.

Lemma split_on_none sep s :
  str_forall (fun c => negb (bool_decide (c = sep))) s = true -> split_on sep s = [s].
Proof.
  induction s as [|c s IH]; [done|]. cbn [str_forall split_on].
  intros [Hc Hs]%andb_true_iff. rewrite IH by done.
  apply negb_true_iff, bool_decide_eq_false in Hc. by rewrite decide_False.
Qed.

Lemma split_on_app sep s t :
  str_forall (fun c => negb (bool_decide (c = sep))) s = true ->
  split_on sep (s +:+ String sep t) = s :: split_on sep t.
Proof.
  induction s as [|c s IH]; intros Hs.
  - change ("" +:+ String sep t) with (String sep t). simpl. by rewrite decide_True.
  - rewrite str_app_cons. cbn [str_forall split_on] in *.
    apply andb_true_iff in Hs as [Hc Hs]. rewrite IH by done.
    apply negb_true_iff, bool_decide_eq_false in Hc. by rewrite decide_False.
Qed.

Lemma split_on_Join sep l :
  l <> [] ->
  Forall (fun s => str_forall (fun c => negb (bool_decide (c = sep))) s = true) l ->
  split_on sep (Join l (String sep "")) = l.
Proof.
  intros Hne H. induction H as [|s l Hs Hl IH]; [done|].
  destruct l as [|s2 l]; [by apply split_on_none|].
  change (Join (s :: s2 :: l) (String sep "")) with
    (s +:+ String sep (Join (s2 :: l) (String sep ""))).
  by rewrite split_on_app, IH.
Qed.

(** A string whose first and last characters start no space sequence is left
    unchanged by [TrimSpace]; [plain_chr] characters occur in none of them. *)
Definition plain_chr (c : ascii) : bool := (33 <=? code c) && (code c <=? 126).

Lemma strip_any_plain c s :
  plain_chr c = true ->
  strip_any unicode_spaces (String c s) = None /\
  strip_any (str_rev <$> unicode_spaces) (String c s) = None.
Proof.
  destruct c as [b0 b1 b2 b3 b4 b5 b6 b7]. intros H.
  destruct b0, b1, b2, b3, b4, b5, b6, b7; first [discriminate H | split; vm_compute; reflexivity].
Qed.

Lemma str_rev_app_app s t u : str_rev_app (s +:+ t) u = str_rev_app t (str_rev_app s u).
Proof. revert u. induction s; intros u; [done|]. rewrite str_app_cons. simpl. apply IHs. Qed.

Lemma str_rev_app_acc s acc : str_rev_app s acc = str_rev s +:+ acc.
Proof.
  unfold str_rev. revert acc. induction s as [|c s IH]; intros acc; [done|].
  simpl. rewrite IH, (IH (String c "")), <-str_app_assoc. done.
Qed.

Lemma str_rev_involutive s : str_rev (str_rev s) = s.
Proof.
  enough (forall acc, str_rev (str_rev_app s acc) = str_rev acc +:+ s) as H.
  { unfold str_rev at 2. by rewrite H. }
  induction s as [|c s IH]; intros acc; simpl; [by rewrite str_app_nil_r|].
  rewrite IH. unfold str_rev at 1. simpl. rewrite str_rev_app_acc, <-str_app_assoc. done.
Qed.

Lemma TrimSpace_plain c s d :
  plain_chr c = true -> plain_chr d = true ->
  TrimSpace (String c s +:+ String d "") = String c s +:+ String d "".
Proof.
  intros Hc Hd. unfold TrimSpace.
  assert (forall n t, trim_left unicode_spaces n (String c t) = String c t) as Hl.
  { intros [|n] t; [done|]. cbn [trim_left]. by rewrite (proj1 (strip_any_plain c t Hc)). }
  rewrite str_app_cons. cbv zeta. rewrite Hl.
  assert (str_rev (String c (s +:+ String d "")) = String d (str_rev (String c s))) as E.
  { rewrite <-str_app_cons. unfold str_rev at 1. by rewrite str_rev_app_app. }
  rewrite E.
  assert (forall n t, trim_left (str_rev <$> unicode_spaces) n (String d t) = String d t) as Hr.
  { intros [|n] t; [done|]. cbn [trim_left]. by rewrite (proj2 (strip_any_plain d t Hd)). }
  rewrite Hr, <-E. by rewrite str_rev_involutive.
Qed.

Lemma str_forall_rev p s : str_forall p s = true -> str_forall p (str_rev s) = true.
Proof.
  assert (forall acc, str_forall p s = true -> str_forall p acc = true ->
    str_forall p (str_rev_app s acc) = true) as Hg.
  { induction s as [|c s IH]; intros acc; cbn; [done|].
    intros [Hc Hs]%andb_true_iff Ha. apply IH; [done|]. cbn. by rewrite Hc. }
  intros Hs. by apply Hg.
Qed.

(** A string of plain characters has nothing to trim. *)
Lemma TrimSpace_all_plain s : str_forall plain_chr s = true -> TrimSpace s = s.
Proof.
  intros Hs. unfold TrimSpace.
  assert (forall n t, str_forall plain_chr t = true ->
    trim_left unicode_spaces n t = t /\ trim_left (str_rev <$> unicode_spaces) n t = t) as Ht.
  { intros [|n] [|c t] Hct; try done. cbn in Hct. apply andb_true_iff in Hct as [Hc _].
    cbn [trim_left]. by rewrite (proj1 (strip_any_plain c t Hc)), (proj2 (strip_any_plain c t Hc)). }
  cbv zeta. rewrite (proj1 (Ht _ s Hs)), (proj2 (Ht _ _ (str_forall_rev _ _ Hs))).
  apply str_rev_involutive.
Qed.

(* ------------------------------------------------------------------ *)
(** * Byte slices *)

Fixpoint to_bytes (s : string) : list Z :=
  match s with EmptyString => [] | String c s => code c :: to_bytes s end.

Lemma bytes_str_to_bytes s : bytes_str (to_bytes s) = s.
Proof. induction s; [done|]. simpl. by rewrite chr_code, IHs. Qed.

Lemma to_bytes_bytes_str l : Forall is_uint8 l -> to_bytes (bytes_str l) = l.
Proof.
  unfold is_uint8. induction 1 as [|z l Hz Hl IH]; [done|]. simpl.
  rewrite IH, code_chr; [done|lia].
Qed.

Lemma to_bytes_uint8 s : Forall is_uint8 (to_bytes s).
Proof. induction s as [|c s IH]; constructor; [apply code_range|done]. Qed.

Lemma to_bytes_length s : length (to_bytes s) = String.length s.
Proof. induction s; simpl; congruence. Qed.

Lemma to_bytes_app s t : to_bytes (s +:+ t) = to_bytes s ++ to_bytes t.
Proof. induction s; [done|]. rewrite str_app_cons. simpl. by rewrite IHs. Qed.
