(* ===== verification/BigText.v ===== *)
(** The text form of [math/big.Int]: [MarshalText]/[String] (decimal),
    [SetString(s, 10)] and the base-0 scanner behind [SetString(s, 0)] and
    [UnmarshalText], which also reads binary, octal and hexadecimal literals
    and underscores. *)
From S2P Require Import Prelude GoStrings.
From Stdlib Require Import Ascii.

(* ------------------------------------------------------------------ *)
(** * Printing *)

Definition digit_chr (d : Z) : ascii := chr (48 + d).

Fixpoint dec_digits (fuel : nat) (n : Z) (acc : string) : string :=
  match fuel with
  | O => acc
  | S f =>
      let acc' := String (digit_chr (n mod 10)) acc in
      if n / 10 =? 0 then acc' else dec_digits f (n / 10) acc'
  end.

(** Decimal text of a natural number; [log2 n + 1] digits always suffice. *)
Definition nat_text (n : Z) : string := dec_digits (S (Z.to_nat (Z.log2 n))) n "".

(** [big.Int.String], [big.Int.MarshalText] *)
Definition big_text (z : Z) : string :=
  if z <? 0 then String "-" (nat_text (- z)) else nat_text z.

(** [String] and [MarshalText] of a nil pointer. *)
Definition nil_text : string := "<nil>".
Definition ptr_text (p : option Z) : string :=
  match p with Some z => big_text z | None => nil_text end.

(* ------------------------------------------------------------------ *)
(** * Scanning *)

(** Value of a digit character in bases up to 36. *)
Definition digit_val (c : ascii) : Z :=
  if is_digit c then code c - 48
  else if is_lower c then code c - 97 + 10
  else if is_upper c then code c - 65 + 10
  else 63.

Record scan_state := ScanState {
  sc_val : Z; sc_count : Z; sc_prev : ascii; sc_inval : bool; sc_rest : string }.

(** The conversion loop of [nat.scan]: stops at the first character that is
    not a digit of base [b]; [us] says whether underscores separate digits. *)
Fixpoint scan_loop (b : Z) (us : bool) (s : string)
    (val count : Z) (prev : ascii) (inval : bool) : scan_state :=
  match s with
  | EmptyString => ScanState val count prev inval ""
  | String ch s' =>
      if us && bool_decide (ch = "_"%char) then
        scan_loop b us s' val count "_" (inval || negb (bool_decide (prev = "0"%char)))
      else if b <=? digit_val ch then ScanState val count prev inval s
      else scan_loop b us s' (val * b + digit_val ch) (count + 1) "0" inval
  end.

(** The result of [nat.scan]: [None] on an invalid separator or when no digit
    was found; otherwise the value and the unread rest. *)
Definition scan_finish (octal_prefix : bool) (st : scan_state) : option (Z * string) :=
  if sc_inval st || bool_decide (sc_prev st = "_"%char) then None
  else if sc_count st =? 0 then
    if octal_prefix then Some (0, sc_rest st) else None
  else Some (sc_val st, sc_rest st).

Definition nat_scan (base0 : bool) (s : string) : option (Z * string) :=
  if base0 then
    match s with
    | String "0" EmptyString => Some (0, "")
    | String "0" (String ch s2) =>
        if bool_decide (ch = "b"%char) || bool_decide (ch = "B"%char)
        then scan_finish false (scan_loop 2 true s2 0 0 "0" false)
        else if bool_decide (ch = "o"%char) || bool_decide (ch = "O"%char)
        then scan_finish false (scan_loop 8 true s2 0 0 "0" false)
        else if bool_decide (ch = "x"%char) || bool_decide (ch = "X"%char)
        then scan_finish false (scan_loop 16 true s2 0 0 "0" false)
        else scan_finish true (scan_loop 8 true (String ch s2) 0 0 "0" false)
    | _ => scan_finish false (scan_loop 10 true s 0 0 "." false)
    end
  else scan_finish false (scan_loop 10 false s 0 0 "." false).

(** [Int.setFromScanner]: sign, digits, nothing else. *)
Definition set_from_text (base0 : bool) (s : string) : option Z :=
  let '(neg, body) :=
    match s with
    | String "-" s' => (true, s')
    | String "+" s' => (false, s')
    | _ => (false, s)
    end in
  match nat_scan base0 body with
  | Some (v, EmptyString) => Some (if neg : bool then - v else v)
  | _ => None
  end.

(** [new(big.Int).SetString(s, 10)], [new(big.Int).SetString(s, 0)] and
    [big.Int.UnmarshalText]. *)
Definition SetString10 (s : string) : option Z := set_from_text false s.
Definition SetString0 (s : string) : option Z := set_from_text true s.
Definition UnmarshalText (s : string) : option Z := set_from_text true s.

(* ------------------------------------------------------------------ *)
(** * Digit strings and their value *)

Fixpoint digits_value (acc : Z) (s : string) : Z :=
  match s with EmptyString => acc | String c s => digits_value (acc * 10 + (code c - 48)) s end.

Definition str_digits : string -> bool := str_forall is_digit.

Lemma is_digit_code c : is_digit c = true <-> 48 <= code c <= 57.
Proof.
  unfold is_digit, in_range. rewrite andb_true_iff, !Z.leb_le.
  change (code "0") with 48. change (code "9") with 57. done.
Qed.

Lemma digit_chr_code d : 0 <= d < 10 -> code (digit_chr d) = 48 + d.
Proof. intros. apply code_chr. lia. Qed.

Lemma digit_chr_is_digit d : 0 <= d < 10 -> is_digit (digit_chr d) = true.
Proof. intros. apply is_digit_code. rewrite digit_chr_code; lia. Qed.

Lemma digits_value_app acc s t :
  digits_value acc (s +:+ t) = digits_value (digits_value acc s) t.
Proof. revert acc. induction s; intros acc; [done|]. rewrite str_app_cons. simpl. apply IHs. Qed.

Lemma digits_value_shift acc s :
  digits_value acc s = acc * 10 ^ Z.of_nat (String.length s) + digits_value 0 s.
Proof.
  revert acc. induction s as [|c s IH]; intros acc; cbn [digits_value String.length].
  - change (10 ^ Z.of_nat 0) with 1. lia.
  - rewrite (IH (acc * 10 + _)), (IH (0 * 10 + _)), Nat2Z.inj_succ, Z.pow_succ_r by lia. lia.
Qed.

Lemma digits_value_zeros acc n s :
  digits_value acc (replicate_chr n "0" +:+ s) = digits_value (acc * 10 ^ Z.of_nat n) s.
Proof.
  revert acc. induction n as [|n IH]; intros acc.
  - cbn. f_equal. lia.
  - cbn [replicate_chr]. rewrite str_app_cons. cbn [digits_value]. rewrite IH. f_equal.
    change (code "0") with 48. rewrite Nat2Z.inj_succ, Z.pow_succ_r by lia. lia.
Qed.

Lemma digits_value_bound s :
  str_digits s = true -> 0 <= digits_value 0 s < 10 ^ Z.of_nat (String.length s).
Proof.
  unfold str_digits. induction s as [|c s IH]; cbn [str_forall digits_value String.length].
  - change (10 ^ Z.of_nat 0) with 1. lia.
  - intros [Hc Hs]%andb_true_iff. apply is_digit_code in Hc. specialize (IH Hs).
    rewrite digits_value_shift, Nat2Z.inj_succ, Z.pow_succ_r by lia. nia.
Qed.

(** Digit strings of equal length are ordered like their values. *)
Lemma digits_compare s t :
  str_digits s = true -> str_digits t = true -> String.length s = String.length t ->
  String.compare s t = Z.compare (digits_value 0 s) (digits_value 0 t).
Proof.
  unfold str_digits. revert t.
  induction s as [|c s IH]; intros [|d t]; cbn [str_forall]; try done.
  intros [Hc Hs]%andb_true_iff [Hd Ht]%andb_true_iff [= Hlen].
  rewrite str_compare_cons. cbn [digits_value].
  rewrite (digits_value_shift (_ + (code c - 48))), (digits_value_shift (_ + (code d - 48))), Hlen.
  pose proof (digits_value_bound s Hs) as Bs. pose proof (digits_value_bound t Ht) as Bt.
  rewrite Hlen in Bs. set (P := 10 ^ Z.of_nat (String.length t)) in *.
  destruct (Z.compare_spec (code c) (code d)) as [E|L|G].
  - rewrite (IH t Hs Ht Hlen), E, Z.add_compare_mono_l. done.
  - symmetry. apply Z.compare_lt_iff. nia.
  - symmetry. apply Z.compare_gt_iff. nia.
Qed.

(* ------------------------------------------------------------------ *)
(** * Correctness of printing *)

Lemma dec_digits_acc fuel n acc : dec_digits fuel n acc = dec_digits fuel n "" +:+ acc.
Proof.
  revert n acc. induction fuel as [|f IH]; intros n acc; [done|]. cbn [dec_digits].
  destruct (n / 10 =? 0); [done|].
  rewrite IH, (IH _ (String _ "")), <-str_app_assoc. done.
Qed.

Lemma dec_digits_digits fuel n : str_digits (dec_digits fuel n "") = true.
Proof.
  unfold str_digits. revert n. induction fuel as [|f IH]; intros n; [done|]. cbn [dec_digits].
  assert (is_digit (digit_chr (n mod 10)) = true).
  { apply digit_chr_is_digit. apply Z.mod_pos_bound. lia. }
  destruct (n / 10 =? 0).
  - cbn. by rewrite andb_true_r.
  - rewrite dec_digits_acc, str_forall_app, IH. cbn. by rewrite andb_true_r.
Qed.

Lemma div10_fuel f n : 0 < n -> n < 2 ^ Z.of_nat (S f) -> n / 10 < 2 ^ Z.of_nat f.
Proof.
  intros Hn. rewrite Nat2Z.inj_succ, Z.pow_succ_r by lia. intros H.
  apply Z.div_lt_upper_bound; lia.
Qed.

Lemma dec_digits_value fuel n :
  0 <= n < 2 ^ Z.of_nat fuel -> digits_value 0 (dec_digits fuel n "") = n.
Proof.
  revert n. induction fuel as [|f IH]; intros n Hn.
  - change (2 ^ Z.of_nat 0) with 1 in Hn. cbn. lia.
  - cbn [dec_digits]. pose proof (Z.mod_pos_bound n 10 ltac:(lia)).
    pose proof (Z.div_mod n 10 ltac:(lia)).
    destruct (Z.eqb_spec (n / 10) 0) as [E|E].
    + cbn. rewrite digit_chr_code by lia. lia.
    + rewrite dec_digits_acc, digits_value_app, IH.
      * cbn. rewrite digit_chr_code by lia. lia.
      * split; [apply Z.div_pos; lia|]. apply div10_fuel; [|lia].
        assert (n <> 0) by (intros ->; done). lia.
Qed.

Lemma nat_text_fuel n : 0 <= n -> n < 2 ^ Z.of_nat (S (Z.to_nat (Z.log2 n))).
Proof.
  intros Hn. rewrite Nat2Z.inj_succ, Z2Nat.id by apply Z.log2_nonneg.
  destruct (Z.eq_dec n 0) as [->|]; [done|]. apply Z.log2_spec. lia.
Qed.

Lemma nat_text_value n : 0 <= n -> digits_value 0 (nat_text n) = n.
Proof. intros Hn. apply dec_digits_value. split; [done|]. by apply nat_text_fuel. Qed.

Lemma nat_text_digits n : str_digits (nat_text n) = true.
Proof. apply dec_digits_digits. Qed.

Lemma nat_text_nonempty n : exists c s, nat_text n = String c s.
Proof.
  unfold nat_text. cbn [dec_digits]. destruct (n / 10 =? 0); [eauto|].
  rewrite dec_digits_acc. destruct (dec_digits _ _ ""); [eauto|].
  rewrite str_app_cons. eauto.
Qed.

(** No leading zero, except for the number zero. *)
Lemma dec_digits_head fuel n :
  0 < n < 2 ^ Z.of_nat fuel ->
  exists c s, dec_digits fuel n "" = String c s /\ 49 <= code c <= 57.
Proof.
  revert n. induction fuel as [|f IH]; intros n Hn.
  - change (2 ^ Z.of_nat 0) with 1 in Hn. lia.
  - cbn [dec_digits]. pose proof (Z.mod_pos_bound n 10 ltac:(lia)).
    pose proof (Z.div_mod n 10 ltac:(lia)).
    destruct (Z.eqb_spec (n / 10) 0) as [E|E].
    + do 2 eexists. split; [done|]. rewrite digit_chr_code; lia.
    + destruct (IH (n / 10)) as (c & s & Hc & Hr).
      { split; [|apply div10_fuel; lia]. pose proof (Z.div_pos n 10). lia. }
      rewrite dec_digits_acc, Hc, str_app_cons. eauto.
Qed.

Lemma nat_text_head n :
  0 < n -> exists c s, nat_text n = String c s /\ 49 <= code c <= 57.
Proof.
  intros Hn. apply dec_digits_head. split; [done|]. apply nat_text_fuel. lia.
Qed.

Lemma nat_text_0 : nat_text 0 = "0".
Proof. done. Qed.

(** The number of digits: [n] has at most [k] of them iff [n < 10^k]. *)
Lemma nat_text_length n k :
  0 <= n -> (1 <= k)%nat -> (String.length (nat_text n) <= k)%nat <-> n < 10 ^ Z.of_nat k.
Proof.
  intros Hn Hk. pose proof (digits_value_bound _ (nat_text_digits n)) as Hb.
  rewrite nat_text_value in Hb by done. split; intros H.
  - eapply Z.lt_le_trans; [apply Hb|]. apply Z.pow_le_mono_r; lia.
  - destruct (Z.eq_dec n 0) as [->|Hz]; [rewrite nat_text_0; cbn; lia|].
    destruct (nat_text_head n ltac:(lia)) as (c & s & E & Hc).
    pose proof (nat_text_value n Hn) as Hv. pose proof (nat_text_digits n) as Hd.
    unfold str_digits in Hd. rewrite E in *.
    cbn [digits_value String.length str_forall] in *. apply andb_true_iff in Hd as [_ Hd].
    rewrite digits_value_shift in Hv.
    pose proof (digits_value_bound s Hd) as Hs.
    assert (10 ^ Z.of_nat (String.length s) < 10 ^ Z.of_nat k) as Hp by nia.
    apply Z.pow_lt_mono_r_iff in Hp; lia.
Qed.

(* ------------------------------------------------------------------ *)
(** * Correctness of scanning *)

Lemma digit_val_digit c : is_digit c = true -> digit_val c = code c - 48.
Proof. unfold digit_val. by intros ->. Qed.

Lemma digit_not (c d : ascii) : is_digit c = true -> is_digit d = false -> c <> d.
Proof. intros H1 H2 ->. congruence. Qed.

Lemma scan_loop_digits us s val count prev inval :
  str_digits s = true -> s <> "" ->
  scan_loop 10 us s val count prev inval =
  ScanState (digits_value val s) (count + Z.of_nat (String.length s)) "0" inval "".
Proof.
  unfold str_digits. revert val count prev.
  induction s as [|c s IH]; intros val count prev Hs Hne; [done|].
  cbn [str_forall scan_loop digits_value String.length] in *.
  apply andb_true_iff in Hs as [Hc Hs].
  rewrite bool_decide_false by (by apply digit_not). rewrite andb_false_r.
  rewrite digit_val_digit by done. apply is_digit_code in Hc.
  rewrite (proj2 (Z.leb_gt _ _)) by lia.
  destruct s as [|c2 s].
  - done.
  - rewrite IH by done. f_equal. lia.
Qed.

(** A digit string does not begin with a sign or a letter. *)
Lemma set_from_text_digits base0 s :
  str_digits s = true -> s <> "" -> (base0 = true -> s = "0" \/ (exists c r, s = String c r /\ c <> "0"%char)) ->
  set_from_text base0 s = Some (digits_value 0 s).
Proof.
  intros Hs Hne Hz. unfold set_from_text.
  destruct s as [|c s]; [done|].
  assert (is_digit c = true) as Hc by (unfold str_digits in Hs; cbn in Hs; by apply andb_true_iff in Hs as [??]).
  assert (match String c s with
          | String "-" s' => (true, s') | String "+" s' => (false, s') | _ => (false, String c s)
          end = (false, String c s)) as ->.
  { destruct c as [[] [] [] [] [] [] [] []]; try done; by vm_compute in Hc. }
  assert (nat_scan base0 (String c s) = Some (digits_value 0 (String c s), "")) as ->; [|done].
  assert (scan_finish false (scan_loop 10 base0 (String c s) 0 0 "." false) =
          Some (digits_value 0 (String c s), "")) as Hloop.
  { rewrite scan_loop_digits by done. unfold scan_finish. cbn [sc_inval sc_prev sc_count sc_rest sc_val].
    rewrite bool_decide_false by done. cbn [orb String.length].
    by rewrite (proj2 (Z.eqb_neq _ _)) by lia. }
  destruct base0; [|exact Hloop]. unfold nat_scan.
  destruct (Hz eq_refl) as [[= -> ->]|(c' & r & [= <- <-] & Hc')]; [done|].
  destruct c as [[] [] [] [] [] [] [] []]; solve [exact Hloop | by destruct Hc'].
Qed.

Lemma set_from_text_neg base0 s :
  str_digits s = true -> s <> "" -> (base0 = true -> s = "0" \/ (exists c r, s = String c r /\ c <> "0"%char)) ->
  set_from_text base0 (String "-" s) = Some (- digits_value 0 s).
Proof.
  intros Hs Hne Hz. pose proof (set_from_text_digits base0 s Hs Hne Hz) as H.
  unfold set_from_text in *.
  destruct s as [|c s]; [done|].
  assert (is_digit c = true) as Hc by (unfold str_digits in Hs; cbn in Hs; by apply andb_true_iff in Hs as [??]).
  assert (match String c s with
          | String "-" s' => (true, s') | String "+" s' => (false, s') | _ => (false, String c s)
          end = (false, String c s)) as E.
  { destruct c as [[] [] [] [] [] [] [] []]; try done; by vm_compute in Hc. }
  rewrite E in H.
  destruct (nat_scan base0 (String c s)) as [[v [|??]]|]; try done. by injection H as ->.
Qed.

Lemma SetString10_digits s : str_digits s = true -> s <> "" -> SetString10 s = Some (digits_value 0 s).
Proof. intros. by apply set_from_text_digits. Qed.

Lemma nat_text_ne n : nat_text n <> "".
Proof. destruct (nat_text_nonempty n) as (?&?&->). done. Qed.

Lemma nat_text_no_octal n : 0 <= n -> nat_text n = "0" \/ exists c r, nat_text n = String c r /\ c <> "0"%char.
Proof.
  intros Hn. destruct (Z.eq_dec n 0) as [->|]; [by left|]. right.
  destruct (nat_text_head n ltac:(lia)) as (c & s & -> & Hc). do 2 eexists. split; [done|].
  intros ->. change (code "0") with 48 in Hc. lia.
Qed.

(** Printing then scanning, in base 10 or with base detection, is the
    identity on every integer. *)
Lemma set_from_text_big_text base0 z : set_from_text base0 (big_text z) = Some z.
Proof.
  unfold big_text. destruct (Z.ltb_spec z 0).
  - rewrite set_from_text_neg; [|apply nat_text_digits|apply nat_text_ne|intros _; apply nat_text_no_octal; lia].
    rewrite nat_text_value by lia. f_equal. lia.
  - rewrite set_from_text_digits; [|apply nat_text_digits|apply nat_text_ne|intros _; by apply nat_text_no_octal].
    by rewrite nat_text_value.
Qed.

Lemma UnmarshalText_big_text z : UnmarshalText (big_text z) = Some z.
Proof. apply set_from_text_big_text. Qed.

Lemma SetString0_big_text z : SetString0 (big_text z) = Some z.
Proof. apply set_from_text_big_text. Qed.

(** Base detection at work: leading zeros select octal, [0x] hexadecimal. *)
Example SetString0_octal : SetString0 "010" = Some 8.
Proof. reflexivity. Qed.
Example SetString0_bad_octal : SetString0 "09" = None.
Proof. reflexivity. Qed.
Example SetString0_hex : SetString0 "-0x1_F" = Some (-31).
Proof. reflexivity. Qed.
Example SetString10_underscore : SetString10 "1_0" = None.
Proof. reflexivity. Qed.
