(* ===== verification/Events.v ===== *)
(** Events of transactions and the queries for them: [types/events.go] and
    [types/event.go].

    A Go map is a [gmap]; the code sorts its keys before it uses them, so the
    order of its iteration does not matter. *)
From S2P Require Import Prelude GoStrings BigText.
From Stdlib Require Import Ascii.

(** [abci.EventAttribute] and [abci.Event] (and [Event], a type with the same
    fields); [Attribute] and [StringEvent]. *)
Record EventAttribute := MkEventAttribute { ea_Key : list Z; ea_Value : list Z; ea_Index : bool }.
Record Event := MkEvent { ev_Type : string; ev_Attributes : list EventAttribute }.
Record Attribute := NewAttribute { attr_Key : string; attr_Value : string }.
Record StringEvent := MkStringEvent { se_Type : string; se_Attributes : list Attribute }.

#[global] Instance Attribute_eq_dec : EqDecision Attribute.
Proof. solve_decision. Defined.

(** [sort.Strings] *)
Definition sle (s t : string) : Prop := sleb s t = true.
#[global] Instance sle_dec : RelDecision sle.
Proof. intros s t. unfold sle. apply _. Defined.
Definition sort_Strings (l : list string) : list string := merge_sort sle l.

(* ------------------------------------------------------------------ *)
(** * [types/events.go] *)

(** The branch of [toBytes] for strings. *)
Definition attr_ToKVPair (a : Attribute) : EventAttribute :=
  MkEventAttribute (to_bytes (attr_Key a)) (to_bytes (attr_Value a)) false.
Definition attr_String (a : Attribute) : string := attr_Key a +:+ ": " +:+ attr_Value a.

Definition AppendAttributes (attrs : list Attribute) (e : Event) : Event :=
  MkEvent (ev_Type e) (foldl (fun l a => l ++ [attr_ToKVPair a]) (ev_Attributes e) attrs).
Definition NewEvent (ty : string) (attrs : list Attribute) : Event :=
  MkEvent ty (foldl (fun l a => l ++ [attr_ToKVPair a]) [] attrs).

Definition EmptyEvents : list Event := [].
Definition AppendEvent (e : list Event) (event : Event) : list Event := e ++ [event].
Definition AppendEvents (e events : list Event) : list Event := e ++ events.
Definition ToABCIEvents (e : list Event) : list Event := map (fun ev => MkEvent (ev_Type ev) (ev_Attributes ev)) e.

(** [EventManager] *)
Record EventManager := MkEventManager { em_events : list Event }.
Definition NewEventManager : EventManager := MkEventManager EmptyEvents.
Definition EmitEvent (event : Event) (em : EventManager) : EventManager := MkEventManager (AppendEvent (em_events em) event).
Definition EmitEvents (events : list Event) (em : EventManager) : EventManager := MkEventManager (AppendEvents (em_events em) events).
Definition ABCIEvents (em : EventManager) : list Event := ToABCIEvents (em_events em).

(** The map that [Flatten] fills, and the list made of it. *)
Definition flat_step (flatEvents : gmap string (list Attribute)) (e : StringEvent) : gmap string (list Attribute) :=
  <[se_Type e := default [] (flatEvents !! se_Type e) ++ se_Attributes e]> flatEvents.
Definition Flatten (se : list StringEvent) : list StringEvent :=
  let flatEvents := foldl flat_step ∅ se in
  let keys := sort_Strings (map fst (map_to_list flatEvents)) in
  map (fun ty => MkStringEvent ty (default [] (flatEvents !! ty))) keys.

Definition StringifyEvent (e : Event) : StringEvent :=
  MkStringEvent (ev_Type e) (map (fun attr => NewAttribute (bytes_str (ea_Key attr)) (bytes_str (ea_Value attr))) (ev_Attributes e)).
Definition StringifyEvents (events : list Event) : list StringEvent := Flatten (map StringifyEvent events).

(** [indexSet] is the set of names to index. *)
Definition MarkEventsToIndex (events : list Event) (indexSet : gset string) : list Event :=
  let indexAll := bool_decide (indexSet = ∅) in
  map (fun e =>
    MkEvent (ev_Type e)
      (map (fun attr =>
        let index := bool_decide (ev_Type e +:+ "." +:+ bytes_str (ea_Key attr) ∈ indexSet) in
        MkEventAttribute (ea_Key attr) (ea_Value attr) (index || indexAll)) (ev_Attributes e))) events.

Fixpoint find_attr (attrs : list Attribute) (key : string) : option string :=
  match attrs with
  | [] => None
  | a :: attrs => if bool_decide (attr_Key a = key) then Some (attr_Value a) else find_attr attrs key
  end.
Fixpoint GetValue (se : list StringEvent) (typ key : string) : res string :=
  match se with
  | [] => Err "not found type:%s key:%s"
  | e :: se =>
      if bool_decide (se_Type e = typ) then
        match find_attr (se_Attributes e) key with
        | Some v => Ok v
        | None => GetValue se typ key
        end
      else GetValue se typ key
  end.

(** [Attributes.GetValues], which is also the inner loop of
    [StringEvents.GetValues]. *)
Definition attrs_GetValues (a : list Attribute) (key : string) : list string :=
  map attr_Value (List.filter (fun attr => bool_decide (attr_Key attr = key)) a).
Fixpoint GetValues (se : list StringEvent) (typ key : string) : list string :=
  match se with
  | [] => []
  | e :: se =>
      (if bool_decide (se_Type e = typ) then attrs_GetValues (se_Attributes e) key else []) ++ GetValues se typ key
  end.

(* ------------------------------------------------------------------ *)
(** * [types/event.go] *)

Definition attrs_GetValue (a : list Attribute) (key : string) : string := default "" (find_attr a key).
Definition attrs_String (a : list Attribute) : string :=
  Join (map (fun attr => attr_Key attr +:+ "=" +:+ attr_Value attr) a) ",".

(** The values the SDK uses: [int64] or [uint64], and strings. *)
Inductive EventValue := IntValue (z : Z) | StringValue (s : string).
Record condition := MkCondition { cond_key : string; cond_value : EventValue; cond_op : string }.

(** [nil] is the value of a new condition; it is not written before an operator
    is set. *)
Definition Cond (key : string) : condition := MkCondition key (StringValue "") "".
Definition NewCond (typ attrKey : string) : condition := Cond (typ +:+ "." +:+ attrKey).
Definition fill (v : EventValue) (op : string) (c : condition) : condition := MkCondition (cond_key c) v op.
Definition cond_LTE (v : EventValue) : condition -> condition := fill v "<=".
Definition cond_GTE (v : EventValue) : condition -> condition := fill v ">=".
Definition cond_LE (v : EventValue) : condition -> condition := fill v "<".
Definition cond_GE (v : EventValue) : condition -> condition := fill v ">".
Definition cond_EQ (v : EventValue) : condition -> condition := fill v "=".

Definition cond_String (c : condition) : string :=
  if bool_decide (cond_key c = "") || bool_decide (cond_op c = "") then ""
  else match cond_value c with
       | IntValue z => cond_key c +:+ cond_op c +:+ big_text z
       | StringValue s => cond_key c +:+ cond_op c +:+ "'" +:+ s +:+ "'"
       end.

(** [EventQueryBuilder] *)
Record EventQueryBuilder := MkBuilder { conditions : list string }.
Definition NewEventQueryBuilder : EventQueryBuilder := MkBuilder [].
(** A nil condition makes the result nil. *)
Definition AddCondition (c : option condition) (eqb : EventQueryBuilder) : option EventQueryBuilder :=
  match c with
  | None => None
  | Some c => Some (MkBuilder (conditions eqb ++ [cond_String c]))
  end.
Definition Build (eqb : EventQueryBuilder) : string :=
  foldl (fun buf condition => (if 0 <? Z.of_nat (String.length buf) then buf +:+ " AND " else buf) +:+ condition)
    "" (conditions eqb).

(* ------------------------------------------------------------------ *)
(** * Lemmas *)

#[global] Instance sle_total : Total sle.
Proof.
  intros s t. unfold sle, sleb. destruct (sltb t s) eqn:E; [right|by left].
  apply sltb_slt, slt_asym in E. rewrite <-sltb_slt in E. by destruct (sltb s t).
Qed.
#[global] Instance sle_trans : Transitive sle.
Proof.
  intros s t u H1 H2. unfold sle, sleb in *. apply negb_true_iff. apply negb_true_iff in H1, H2.
  destruct (sltb u s) eqn:E; [|done]. apply sltb_slt in E. destruct (trichotomy slt t s) as [H|[->|H]].
  - apply sltb_slt in H. congruence.
  - apply sltb_slt in E. congruence.
  - assert (slt u t) as Hut by by trans s. apply sltb_slt in Hut. congruence.
Qed.

Lemma sle_slt s t : sle s t -> s <> t -> slt s t.
Proof.
  unfold sle, sleb. intros H Hne. apply negb_true_iff in H. destruct (trichotomy slt s t) as [|[|Hts]]; [done|done|].
  apply sltb_slt in Hts. congruence.
Qed.

(** Distinct strings are sorted strictly. *)
Lemma sort_Strings_spec l : NoDup l ->
  StronglySorted slt (sort_Strings l) /\ sort_Strings l ≡ₚ l /\ NoDup (sort_Strings l).
Proof.
  intros Hn. pose proof (merge_sort_Permutation sle l) as Hp. pose proof (StronglySorted_merge_sort sle l) as Hs.
  fold (sort_Strings l) in *. assert (NoDup (sort_Strings l)) as Hn' by by rewrite Hp. split; [|done].
  clear Hp Hn. induction Hs as [|x l' Hs IH Hx]; [constructor|]. apply NoDup_cons in Hn' as [Hni Hn'].
  constructor; [by apply IH|]. rewrite Forall_forall in *. intros y Hy. apply sle_slt; [by apply Hx|]. by intros ->.
Qed.

Lemma sorted_strings_unique (l1 l2 : list string) :
  StronglySorted slt l1 -> StronglySorted slt l2 -> l1 ≡ₚ l2 -> l1 = l2.
Proof. apply StronglySorted_unique. intros s t H1 H2. by destruct (slt_asym s t). Qed.

(** The attributes of a type, in order. *)
Definition attrs_of (ty : string) (se : list StringEvent) : list Attribute :=
  concat (map se_Attributes (List.filter (fun e => bool_decide (se_Type e = ty)) se)).
Definition types_of (se : list StringEvent) : list string := map se_Type se.

Lemma attrs_of_cons ty e se :
  attrs_of ty (e :: se) = (if bool_decide (se_Type e = ty) then se_Attributes e else []) ++ attrs_of ty se.
Proof. unfold attrs_of. cbn [List.filter]. by destruct (bool_decide _). Qed.

Lemma flat_map_spec se m ty :
  foldl flat_step m se !! ty =
  if bool_decide (ty ∈ types_of se) then Some (default [] (m !! ty) ++ attrs_of ty se) else m !! ty.
Proof.
  revert m. induction se as [|e se IH]; intros m; [by rewrite bool_decide_false by apply not_elem_of_nil|].
  cbn [foldl]. rewrite IH, attrs_of_cons. unfold flat_step, types_of. cbn [map].
  destruct (decide (se_Type e = ty)) as [<-|Hne].
  - rewrite lookup_insert_eq. cbn [from_option id]. rewrite (bool_decide_true (se_Type e = se_Type e)) by done.
    rewrite (bool_decide_true (se_Type e ∈ se_Type e :: _)) by by left. destruct (bool_decide_reflect (se_Type e ∈ map se_Type se)) as [|Hni].
    + by rewrite <-app_assoc.
    + assert (attrs_of (se_Type e) se = []) as ->; [|by rewrite app_nil_r].
      clear IH m. induction se as [|e' se IH]; [done|]. rewrite attrs_of_cons. cbn in Hni.
      rewrite bool_decide_false by (intros E; apply Hni; rewrite E; by left). apply IH. intros H. apply Hni. by right.
  - rewrite lookup_insert_ne by done. rewrite (bool_decide_false (se_Type e = ty)) by done.
    assert (bool_decide (ty ∈ se_Type e :: map se_Type se) = bool_decide (ty ∈ map se_Type se)) as ->; [|done].
    apply bool_decide_ext. rewrite elem_of_cons. naive_solver.
Qed.

Lemma attrs_of_absent ty se : ty ∉ types_of se -> attrs_of ty se = [].
Proof.
  induction se as [|e se IH]; [done|]. intros Hni. cbn in Hni. rewrite attrs_of_cons, bool_decide_false.
  - apply IH. intros H. apply Hni. by right.
  - intros E. apply Hni. rewrite E. by left.
Qed.

(** The sorted types of a list of events. *)
Lemma Flatten_eq se : exists keys, StronglySorted slt keys /\ NoDup keys /\ (forall ty, ty ∈ keys <-> ty ∈ types_of se) /\
  Flatten se = map (fun ty => MkStringEvent ty (attrs_of ty se)) keys.
Proof.
  unfold Flatten. set (m := foldl flat_step ∅ se).
  assert (forall ty, m !! ty = if bool_decide (ty ∈ types_of se) then Some (attrs_of ty se) else None) as Hm.
  { intros ty. unfold m. rewrite flat_map_spec, lookup_empty. done. }
  pose proof (NoDup_fst_map_to_list m) as Hn. destruct (sort_Strings_spec _ Hn) as (Hs & Hp & Hn').
  exists (sort_Strings (map fst (map_to_list m))). split_and!; [done|done| |].
  - intros ty. rewrite Hp. change (map fst) with (fmap (M := list) (@fst string (list Attribute))).
    rewrite list_elem_of_fmap. split.
    + intros ([ty' a] & -> & Ha%elem_of_map_to_list). rewrite Hm in Ha. by case_bool_decide.
    + intros Hty. exists (ty, attrs_of ty se). split; [done|]. apply elem_of_map_to_list. by rewrite Hm, bool_decide_true.
  - apply map_ext_in. intros ty Hty%list_elem_of_In. f_equal. rewrite Hm. case_bool_decide; [done|].
    cbn. by rewrite attrs_of_absent.
Qed.

Lemma attrs_of_keys ty se keys : NoDup keys ->
  attrs_of ty (map (fun k => MkStringEvent k (attrs_of k se)) keys) = if bool_decide (ty ∈ keys) then attrs_of ty se else [].
Proof.
  induction keys as [|k keys IH]; intros Hn; [by rewrite bool_decide_false by apply not_elem_of_nil|].
  apply NoDup_cons in Hn as [Hk Hn]. cbn [map]. rewrite attrs_of_cons, IH by done. cbn [se_Type se_Attributes].
  destruct (decide (k = ty)) as [->|Hne].
  - rewrite (bool_decide_true (ty = ty)), (bool_decide_false (ty ∈ keys)), bool_decide_true by (done || by left). apply app_nil_r.
  - rewrite (bool_decide_false (k = ty)) by done.
    assert (bool_decide (ty ∈ k :: keys) = bool_decide (ty ∈ keys)) as ->; [|done].
    apply bool_decide_ext. rewrite elem_of_cons. naive_solver.
Qed.

Lemma attrs_of_Flatten ty se : attrs_of ty (Flatten se) = attrs_of ty se.
Proof.
  destruct (Flatten_eq se) as (keys & _ & Hn & Hk & ->). rewrite attrs_of_keys by done.
  case_bool_decide as Hin; [done|]. rewrite attrs_of_absent; [done|]. by rewrite <-Hk.
Qed.

Lemma types_of_Flatten se : exists keys, StronglySorted slt keys /\ NoDup keys /\
  (forall ty, ty ∈ keys <-> ty ∈ types_of se) /\ types_of (Flatten se) = keys.
Proof.
  destruct (Flatten_eq se) as (keys & Hs & Hn & Hk & ->). exists keys. split_and!; try done.
  unfold types_of. rewrite map_map. cbn. apply map_id.
Qed.

Lemma GetValues_attrs se ty key : GetValues se ty key = attrs_GetValues (attrs_of ty se) key.
Proof.
  induction se as [|e se IH]; [done|]. cbn [GetValues]. rewrite attrs_of_cons, IH. unfold attrs_GetValues.
  case_bool_decide; [|done]. by rewrite List.filter_app, map_app.
Qed.

Lemma find_attr_app a b key :
  find_attr (a ++ b) key = match find_attr a key with Some v => Some v | None => find_attr b key end.
Proof. induction a as [|x a IH]; [done|]. cbn. by case_bool_decide. Qed.

Lemma GetValue_attrs se ty key : GetValue se ty key =
  match find_attr (attrs_of ty se) key with Some v => Ok v | None => Err "not found type:%s key:%s" end.
Proof.
  induction se as [|e se IH]; [done|]. cbn [GetValue]. rewrite attrs_of_cons, IH. case_bool_decide; [|done].
  rewrite find_attr_app. by destruct (find_attr (se_Attributes e) key).
Qed.

Lemma find_attr_values a key : find_attr a key = head (attrs_GetValues a key).
Proof. unfold attrs_GetValues. induction a as [|x a IH]; [done|]. cbn. by case_bool_decide. Qed.

Lemma foldl_append {A B} (f : A -> B) l acc : foldl (fun l a => l ++ [f a]) acc l = acc ++ map f l.
Proof.
  revert acc. induction l as [|x l IH]; intros acc; cbn; [by rewrite app_nil_r|]. rewrite IH. by rewrite <-app_assoc.
Qed.

(* ------------------------------------------------------------------ *)
(** * Properties *)

(** Flattening groups without losing or reordering attributes.  The result
    has each event type of the input once, in increasing order; what [GetValue]
    and [GetValues] answer for any type and key is the same before and after;
    flattening again changes nothing; and an event made of attributes is read
    back as those attributes. *)
Theorem Flatten_spec se :
  StronglySorted slt (types_of (Flatten se)) /\ (forall ty, ty ∈ types_of (Flatten se) <-> ty ∈ types_of se) /\
  (forall ty key, GetValues (Flatten se) ty key = GetValues se ty key /\ GetValue (Flatten se) ty key = GetValue se ty key) /\
  Flatten (Flatten se) = Flatten se /\
  (forall ty attrs, StringifyEvent (NewEvent ty attrs) = MkStringEvent ty attrs).
Proof.
  destruct (types_of_Flatten se) as (keys & Hs & Hn & Hk & E). split_and!.
  - by rewrite E.
  - intros ty. by rewrite E.
  - intros ty key. by rewrite !GetValues_attrs, !GetValue_attrs, attrs_of_Flatten.
  - destruct (Flatten_eq (Flatten se)) as (keys2 & Hs2 & Hn2 & Hk2 & E2). rewrite E2.
    destruct (Flatten_eq se) as (keys1 & Hs1 & Hn1 & Hk1 & E1). etransitivity; [|symmetry; exact E1].
    assert (keys2 = keys1) as ->.
    { apply sorted_strings_unique; [done..|]. apply NoDup_Permutation; [done..|]. intros ty. rewrite Hk1, Hk2, E. by rewrite Hk. }
    apply map_ext. intros ty. by rewrite attrs_of_Flatten.
  - intros ty attrs. unfold StringifyEvent, NewEvent. cbn. rewrite foldl_append. cbn. rewrite map_map.
    f_equal. rewrite <-(map_id attrs) at 2. apply map_ext. intros [k v]. cbn. by rewrite !bytes_str_to_bytes.
Qed.

(** The text of a query: the conditions after the leading empty ones, joined
    with [AND].  A condition without a key or an operator has the empty text, so
    at the end of a query it leaves a dangling [AND]. *)
Theorem Build_spec conds :
  (Forall (fun c => c <> "") conds -> Build (MkBuilder conds) = Join conds " AND ") /\
  (conds <> [] -> Forall (fun c => c <> "") conds -> Build (MkBuilder (conds ++ [cond_String (Cond "tm.event")])) = Join conds " AND " +:+ " AND ").
Proof.
  assert (forall l buf, buf <> "" -> foldl (fun buf condition =>
    (if 0 <? Z.of_nat (String.length buf) then buf +:+ " AND " else buf) +:+ condition) buf l = Join (buf :: l) " AND ") as Hf.
  { induction l as [|c l IH]; intros buf Hne; [done|]. cbn [foldl].
    assert ((0 <? Z.of_nat (String.length buf)) = true) as -> by (apply Z.ltb_lt; destruct buf; [done|cbn; lia]).
    rewrite IH by (by destruct buf). destruct l as [|d l]; cbn [Join]; by rewrite <-!str_app_assoc. }
  split.
  - intros [|c l Hc Hl]; [done|]. unfold Build. cbn [conditions foldl]. change ((if 0 <? Z.of_nat (String.length "") then _ else "") +:+ c) with c.
    by apply Hf.
  - intros Hne Hall. destruct Hall as [|c l Hc Hl]; [done|]. unfold Build. cbn [conditions app foldl].
    change ((if 0 <? Z.of_nat (String.length "") then _ else "") +:+ c) with c. rewrite Hf by done.
    change (cond_String (Cond "tm.event")) with "". clear. revert c. induction l as [|d l IH]; intros c; [done|].
    cbn [app Join]. cbn [app Join] in IH. rewrite IH. by rewrite <-!str_app_assoc.
Qed.
