(* ===== verification/Errors.v ===== *)
(** Errors of the SDK: [types/errors.go].

    In the other files an error is its text; here it is the whole [sdkError]. *)
From S2P Require Import Prelude GoStrings BigText.

Record sdkError := MkSdkError { codespace : string; err_code : Z; desc : string }.
#[global] Instance sdkError_eq_dec : EqDecision sdkError.
Proof. solve_decision. Defined.

Definition RootCodespace : string := "sdk".

(** [type Code uint32] and its constants. *)
Definition OK : Z := 0.
Definition Internal : Z := 1.
Definition TxDecode : Z := 2.
Definition InvalidSequence : Z := 3.
Definition Unauthorized : Z := 4.
Definition InsufficientFunds : Z := 5.
Definition UnknownRequest : Z := 6.
Definition InvalidAddress : Z := 7.
Definition InvalidPubkey : Z := 8.
Definition UnknownAddress : Z := 9.
Definition InvalidCoins : Z := 10.
Definition OutOfGas : Z := 11.
Definition MemoTooLarge : Z := 12.
Definition InsufficientFee : Z := 13.
Definition TooManySignatures : Z := 14.
Definition NoSignatures : Z := 15.
Definition ErrJsonMarshal : Z := 16.
Definition ErrJsonUnmarshal : Z := 17.
Definition InvalidRequest : Z := 18.
Definition TxInMempoolCache : Z := 19.
Definition MempoolIsFull : Z := 20.
Definition TxTooLarge : Z := 21.

(** The registry of used codes, by "codespace:code". *)
Definition errorID (codespace : string) (code : Z) : string := codespace +:+ ":" +:+ nat_text code.
Definition setUsed (err : sdkError) (usedCodes : gmap string sdkError) : gmap string sdkError :=
  <[errorID (codespace err) (err_code err) := err]> usedCodes.
Definition register (codespace : string) (code : Z) (description : string) (usedCodes : gmap string sdkError)
    : sdkError * gmap string sdkError :=
  let err := MkSdkError codespace (wrap_u32 code) description in
  (err, setUsed err usedCodes).

(** The errors that [init] registers, and [errInvalid] before them. *)
Definition root_errors : list (Z * string) :=
  [(OK, "success"); (Internal, "internal"); (TxDecode, "tx parse error"); (InvalidSequence, "invalid sequence");
   (Unauthorized, "unauthorized"); (InsufficientFunds, "insufficient funds"); (UnknownRequest, "unknown request");
   (InvalidAddress, "invalid address"); (InvalidPubkey, "invalid pubkey"); (UnknownAddress, "unknown address");
   (InvalidCoins, "invalid coins"); (OutOfGas, "out of gas"); (MemoTooLarge, "memo too large");
   (InsufficientFee, "insufficient fee"); (TooManySignatures, "maximum number of signatures exceeded");
   (NoSignatures, "no signatures supplied"); (ErrJsonMarshal, "failed to marshal JSON bytes");
   (ErrJsonUnmarshal, "failed to unmarshal JSON bytes"); (InvalidRequest, "invalid request");
   (TxInMempoolCache, "tx already in mempool"); (MempoolIsFull, "mempool is full"); (TxTooLarge, "tx too large")].
Definition errInvalid : sdkError := MkSdkError RootCodespace 999999 "sdk check error".
Definition usedCodes_init : gmap string sdkError :=
  foldl (fun used '(code, description) => snd (register RootCodespace code description used))
    (snd (register RootCodespace 999999 "sdk check error" ∅)) root_errors.

(** [v17CodeMap] *)
Definition v17CodeMap : gmap Z Z := list_to_map
  [(0, OK); (1, Internal); (2, TxDecode); (3, InvalidSequence); (4, Unauthorized); (5, InsufficientFunds);
   (6, UnknownRequest); (7, InvalidAddress); (8, InvalidPubkey); (9, UnknownAddress); (10, InvalidCoins);
   (11, InvalidCoins); (12, OutOfGas); (13, MemoTooLarge); (14, InsufficientFee); (15, UnknownRequest);
   (16, TooManySignatures); (17, OutOfGas); (18, InvalidRequest); (19, InvalidRequest); (20, InvalidRequest);
   (21, TxTooLarge); (22, InvalidRequest); (23, InvalidRequest)].

(** The optional arguments are a list. *)
Definition GetError (codespace : string) (code : Z) (log : list string) : res sdkError :=
  let codeV1 := default InvalidRequest (v17CodeMap !! code) in
  match log with
  | [] => Panic "index out of range"
  | l :: _ => Ok (MkSdkError codespace codeV1 l)
  end.

(** A nil error stays nil. *)
Definition Wrap (err : option string) : option sdkError :=
  match err with
  | None => None
  | Some e => Some (MkSdkError (codespace errInvalid) (err_code errInvalid) e)
  end.
(** [errors.WithMessage(err, desc)] puts the description before the error. *)
Definition WrapWithMessage (err : option string) (desc : string) : option sdkError :=
  Wrap (e ← err; Some (desc +:+ ": " +:+ e)).
Definition Wrapf (desc : string) : option sdkError := Wrap (Some desc).

(** [CatchPanic]: the message that the handler receives. *)
Definition CatchPanic {A} (m : res A) : option string := match m with Panic p => Some p | _ => None end.

(* ------------------------------------------------------------------ *)
(** * Properties *)

(** Errors of the node.  Every code of the chain maps to a registered code
    of the SDK, an unknown one to [InvalidRequest]; [OK] is the image of [0]
    only; the text of the error is the first log, without which [GetError]
    panics; and [Wrap] keeps nil and otherwise keeps the text under the code of
    [errInvalid]. *)
Theorem GetError_spec :
  (forall cs code l ls, exists c, GetError cs code (l :: ls) = Ok (MkSdkError cs c l) /\
     is_Some (usedCodes_init !! errorID RootCodespace c) /\ (c = OK <-> code = 0) /\
     (v17CodeMap !! code = None -> c = InvalidRequest)) /\
  (forall cs code, panics (GetError cs code []) = true) /\
  (forall e, Wrap e = None <-> e = None) /\
  (forall e x, Wrap (Some e) = Some x -> desc x = e /\ err_code x = 999999).
Proof.
  split_and!; [|done|by intros [e|]|by intros e x [= <-]].
  intros cs code l ls. eexists. split; [reflexivity|].
  assert (map_Forall (fun k c => bool_decide (is_Some (usedCodes_init !! errorID RootCodespace c)) &&
    Bool.eqb (c =? OK) (k =? 0) = true) v17CodeMap) as Hall.
  { apply (bool_decide_unpack _). vm_compute. exact I. }
  destruct (v17CodeMap !! code) as [c|] eqn:E; cbn [from_option id].
  - apply Hall in E as Hc. apply andb_true_iff in Hc as [Hc1 Hc2]. apply bool_decide_eq_true in Hc1. split; [done|].
    split; [|done]. apply eqb_prop in Hc2. rewrite <-(Z.eqb_eq c), <-(Z.eqb_eq code). by rewrite Hc2.
  - split; [by vm_compute; eexists|]. split; [|done]. split; [done|]. intros ->. by vm_compute in E.
Qed.

(** Registering the same code again replaces the error that was registered,
    where the comment of [register] promises a panic. *)
Theorem register_overwrites cs code d1 d2 used :
  is_uint32 code ->
  let used := snd (register cs code d2 (snd (register cs code d1 used))) in
  used !! errorID cs code = Some (MkSdkError cs code d2).
Proof.
  intros Hc. unfold register, setUsed, wrap_u32. cbn. unfold is_uint32 in Hc. rewrite Z.mod_small by lia.
  apply lookup_insert_eq.
Qed.
