(* ===== verification/Cache.v ===== *)
(** The cache of accounts and tokens: [utils/cache/cache.go], an LRU cache of
    the library gcache behind a switch.

    gcache evicts entries when it is full and expires them with time, so what a
    client may rely on is that it never answers anything but the last value set:
    the class [GCacheLaws] states this of a cache as a lossy map, and
    [LRU_refines] carries it over to the switch. *)
From S2P Require Import Prelude GoStrings.

(** [gcache.Cache] with keys that are strings; the state [C] holds the clock.
    A failing [Get] is an error. *)
Class GCache (V C : Type) := {
  gc_New : Z -> C;
  gc_Set : string -> V -> C -> C;
  gc_SetWithExpire : string -> V -> Z -> C -> C;
  gc_Get : string -> C -> option V * C;
  gc_Remove : string -> C -> bool * C;
}.

(** Without loader and serializer functions, setting does not fail; a [Get]
    answers what is held; entries may disappear at any call. *)
Class GCacheLaws {V C : Type} `{GCache V C} (contents : C -> gmap string V) : Prop := {
  new_law n : contents (gc_New n) = ∅;
  set_law k v c : contents (gc_Set k v c) ⊆ <[k := v]> (contents c);
  set_expire_law k v t c : contents (gc_SetWithExpire k v t c) ⊆ <[k := v]> (contents c);
  get_law k c r c' : gc_Get k c = (r, c') ->
    contents c' ⊆ contents c /\ forall v, r = Some v -> contents c !! k = Some v;
  remove_law k c b c' : gc_Remove k c = (b, c') -> contents c' ⊆ delete k (contents c);
}.

(** A cache that keeps its entries, as between two evictions. *)
Class KeepsEntries {V C : Type} `{GCache V C} (contents : C -> gmap string V) : Prop := {
  keeps_set k v c : contents (gc_Set k v c) = <[k := v]> (contents c);
  keeps_set_expire k v t c : contents (gc_SetWithExpire k v t c) = <[k := v]> (contents c);
  keeps_get k c : fst (gc_Get k c) = contents c !! k;
  keeps_get_contents k c : contents (snd (gc_Get k c)) = contents c;
  keeps_remove k c : contents (snd (gc_Remove k c)) = delete k (contents c);
}.

Record LRU (C : Type) := MkLRU { lru_cache : C; enabled : bool }.
Arguments MkLRU {_} _ _.
Arguments lru_cache {_} _.
Arguments enabled {_} _.

Section LRU.
Context {V C : Type} `{GCache V C}.

Definition NewCache (capacity : Z) (enable : bool) : LRU C := MkLRU (gc_New capacity) enable.

Definition lru_Set (key : string) (value : V) (l : LRU C) : LRU C :=
  if negb (enabled l) then l else MkLRU (gc_Set key value (lru_cache l)) (enabled l).
Definition lru_SetWithExpire (key : string) (value : V) (expiration : Z) (l : LRU C) : LRU C :=
  if negb (enabled l) then l else MkLRU (gc_SetWithExpire key value expiration (lru_cache l)) (enabled l).
Definition lru_Get (key : string) (l : LRU C) : option V * LRU C :=
  if negb (enabled l) then (None, l)
  else let '(r, c) := gc_Get key (lru_cache l) in (r, MkLRU c (enabled l)).
Definition lru_Remove (key : string) (l : LRU C) : bool * LRU C :=
  if negb (enabled l) then (false, l)
  else let '(b, c) := gc_Remove key (lru_cache l) in (b, MkLRU c (enabled l)).
Definition lru_Expire (key : string) (l : LRU C) : bool * LRU C :=
  if negb (enabled l) then (true, l) else lru_Remove key l.
Definition lru_Enable (l : LRU C) : LRU C := MkLRU (lru_cache l) true.
Definition lru_Disable (l : LRU C) : LRU C := MkLRU (lru_cache l) false.
End LRU.

(* ------------------------------------------------------------------ *)
(** * The switch keeps the laws *)
Section Laws.
Context {V C : Type} `{GCacheLaws V C contents}.

(** What a cache may answer: nothing while it is disabled. *)
Definition visible (l : LRU C) : gmap string V := if enabled l then contents (lru_cache l) else ∅.

Lemma lru_new_visible n b : visible (NewCache n b) = ∅.
Proof. unfold visible, NewCache. cbn. destruct b; [apply new_law|done]. Qed.

Lemma lru_set_visible k v t l :
  visible (lru_Set k v l) ⊆ <[k := v]> (visible l) /\ visible (lru_SetWithExpire k v t l) ⊆ <[k := v]> (visible l) /\
  enabled (lru_Set k v l) = enabled l /\ enabled (lru_SetWithExpire k v t l) = enabled l.
Proof.
  unfold visible, lru_Set, lru_SetWithExpire. destruct (enabled l) eqn:E; cbn; rewrite ?E.
  - split_and!; [apply set_law|apply set_expire_law|done..].
  - split_and!; [apply map_empty_subseteq..|done|done].
Qed.

Lemma lru_get_visible k l r l' : lru_Get k l = (r, l') ->
  visible l' ⊆ visible l /\ (forall v, r = Some v -> visible l !! k = Some v) /\ enabled l' = enabled l.
Proof.
  unfold visible, lru_Get. destruct (enabled l) eqn:E; cbn.
  - destruct (gc_Get k (lru_cache l)) as [r0 c] eqn:Eg. intros [= <- <-]. cbn. rewrite ?E.
    destruct (get_law _ _ _ _ Eg). done.
  - intros [= <- <-]. rewrite E. done.
Qed.

Lemma lru_remove_visible k l b l' : lru_Remove k l = (b, l') -> visible l' ⊆ delete k (visible l) /\ enabled l' = enabled l.
Proof.
  unfold visible, lru_Remove. destruct (enabled l) eqn:E; cbn.
  - destruct (gc_Remove k (lru_cache l)) as [b0 c] eqn:Eg. intros [= <- <-]. cbn. split; [by eapply remove_law|done].
  - intros [= <- <-]. rewrite E. split; [apply map_empty_subseteq|done].
Qed.
End Laws.

(* ------------------------------------------------------------------ *)
(** * Properties *)

(** The operations of the cache, as a client may interleave them. *)
Inductive cache_op (V : Type) :=
| OpSet (k : string) (v : V)
| OpSetWithExpire (k : string) (v : V) (t : Z)
| OpGet (k : string)
| OpRemove (k : string).
Arguments OpSet {_} _ _.
Arguments OpSetWithExpire {_} _ _ _.
Arguments OpGet {_} _.
Arguments OpRemove {_} _.

Definition run_op {V C} `{GCache V C} (l : LRU C) (o : cache_op V) : LRU C :=
  match o with
  | OpSet k v => lru_Set k v l
  | OpSetWithExpire k v t => lru_SetWithExpire k v t l
  | OpGet k => snd (lru_Get k l)
  | OpRemove k => snd (lru_Remove k l)
  end.

(** The last value set for a key and not removed since. *)
Definition last_op {V} (k : string) (last : option V) (o : cache_op V) : option V :=
  match o with
  | OpSet k' v | OpSetWithExpire k' v _ => if bool_decide (k' = k) then Some v else last
  | OpGet _ => last
  | OpRemove k' => if bool_decide (k' = k) then None else last
  end.

(** While it is not switched, the cache never answers a stale value.  After any
    sequence of [Set], [SetWithExpire], [Get] and [Remove] on a new cache, of any
    capacity and with any eviction and expiry, what [Get] answers for a key is the
    last value that was set for it and not removed since; a disabled cache answers
    nothing.  What switching does is [Disable_keeps]. *)
Theorem LRU_refines {V C} `{GCacheLaws V C contents} capacity enable ops k v l' :
  lru_Get k (foldl run_op (NewCache capacity enable) ops) = (Some v, l') ->
  enable = true /\ foldl (last_op k) None ops = Some v.
Proof.
  set (P := fun (l : LRU C) (last : option V) => enabled l = enable /\ forall v, visible (contents := contents) l !! k = Some v -> last = Some v).
  assert (forall l last o, P l last -> P (run_op l o) (last_op k last o)) as Hstep.
  { intros l last o [He Hl]. destruct o as [k' w|k' w t|k'|k']; cbn.
    - destruct (lru_set_visible k' w 0 l) as (Hv & _ & Ee & _). split; [congruence|]. intros u Hu. apply (lookup_weaken _ _ _ _ Hu) in Hv.
      apply lookup_insert_Some in Hv. destruct Hv as [[-> ->]|[Hne Hv]]; [by rewrite bool_decide_true|].
      rewrite bool_decide_false by done. by apply Hl.
    - destruct (lru_set_visible k' w t l) as (_ & Hv & _ & Ee). split; [congruence|]. intros u Hu. apply (lookup_weaken _ _ _ _ Hu) in Hv.
      apply lookup_insert_Some in Hv. destruct Hv as [[-> ->]|[Hne Hv]]; [by rewrite bool_decide_true|].
      rewrite bool_decide_false by done. by apply Hl.
    - destruct (lru_Get k' l) as [r l1] eqn:E. destruct (lru_get_visible _ _ _ _ E) as (Hv & _ & Ee). cbn.
      split; [congruence|]. intros u Hu. by apply Hl, (lookup_weaken _ _ _ _ Hu).
    - destruct (lru_Remove k' l) as [b l1] eqn:E. destruct (lru_remove_visible _ _ _ _ E) as (Hv & Ee). cbn.
      split; [congruence|]. intros u Hu. apply (lookup_weaken _ _ _ _ Hu) in Hv. apply lookup_delete_Some in Hv as [Hne Hv].
      rewrite bool_decide_false by done. by apply Hl. }
  assert (forall l last, P l last -> P (foldl run_op l ops) (foldl (last_op k) last ops)) as Hrun.
  { induction ops as [|o ops IH]; intros l last HP; [done|]. apply IH, Hstep, HP. }
  intros Hg. destruct (Hrun (NewCache capacity enable) None) as [He Hl].
  { split; [done|]. intros u. by rewrite lru_new_visible. }
  destruct (lru_get_visible _ _ _ _ Hg) as (_ & Hv & _). specialize (Hv v eq_refl). split; [|by apply Hl].
  unfold visible in Hv. rewrite He in Hv. by destruct enable.
Qed.

(** Disabling a cache does not empty it: a value set while it is disabled is
    dropped, and the older value is answered again once it is enabled. *)
Theorem Disable_keeps {V C} `{GCache V C} (l l' : LRU C) k (old new : V) :
  lru_Get k l = (Some old, l') -> lru_Get k (lru_Enable (lru_Set k new (lru_Disable l))) = (Some old, l').
Proof.
  unfold lru_Get, lru_Enable, lru_Set, lru_Disable. cbn. by destruct (enabled l).
Qed.

(* ------------------------------------------------------------------ *)
(** * Witness *)

(** A cache that never evicts. *)
#[export] Instance map_cache {V} : GCache V (gmap string V) := {|
  gc_New _ := ∅; gc_Set k v c := <[k := v]> c; gc_SetWithExpire k v _ c := <[k := v]> c;
  gc_Get k c := (c !! k, c); gc_Remove k c := (bool_decide (is_Some (c !! k)), delete k c);
|}.
Lemma map_cache_laws {V} : GCacheLaws (V := V) (C := gmap string V) id.
Proof. split; cbn; try done. - by intros k c r c' [= <- <-]. - by intros k c b c' [= <- <-]. Qed.

Lemma map_cache_keeps {V} : KeepsEntries (V := V) (C := gmap string V) id.
Proof. by split. Qed.

Lemma LRU_refines_witness :
  foldl (last_op "a") None [OpSet "a" 1; OpSetWithExpire "b" 2 60; OpSet "a" 3; OpGet "b"] = Some 3.
Proof.
  eapply (@LRU_refines Z (gmap string Z) map_cache id map_cache_laws 100 true
    [OpSet "a" 1; OpSetWithExpire "b" 2 60; OpSet "a" 3; OpGet "b"] "a" 3).
  vm_compute. reflexivity.
Defined.
