(* ===== verification/SdkInt.v ===== *)
(** [types/int.go]: the 256-bit bounded integer [Int].

    An [Int] wraps a pointer to a [big.Int]; the zero value holds [nil].
    Every method that dereferences the pointer panics on it, except the
    methods that check for it first. *)
From S2P Require Import Prelude GoStrings BigText.

(** [const maxBitLen] *)
Definition maxBitLen : Z := 255.

(** [newIntegerFromString] *)
Definition newIntegerFromString (s : string) : option Z := SetString0 s.

(** The unexported helpers on [*big.Int]. *)
Definition int_equal (i i2 : option Z) : res bool := c ← ptr_Cmp i i2; Ok (c =? 0).
Definition int_gt (i i2 : option Z) : res bool := c ← ptr_Cmp i i2; Ok (c =? 1).
Definition int_gte (i i2 : option Z) : res bool := c ← ptr_Cmp i i2; Ok (0 <=? c).
Definition int_lt (i i2 : option Z) : res bool := c ← ptr_Cmp i i2; Ok (c =? -1).
Definition int_lte (i i2 : option Z) : res bool := c ← ptr_Cmp i i2; Ok (c <=? 0).
Definition int_add (i i2 : option Z) : res Z := x ← deref i; y ← deref i2; Ok (x + y).
Definition int_sub (i i2 : option Z) : res Z := x ← deref i; y ← deref i2; Ok (x - y).
Definition int_mul (i i2 : option Z) : res Z := x ← deref i; y ← deref i2; Ok (x * y).
Definition int_div (i i2 : option Z) : res Z := x ← deref i; y ← deref i2; big_Quo x y.
Definition int_mod (i i2 : option Z) : res Z := x ← deref i; y ← deref i2; big_Mod x y.
Definition int_neg (i : option Z) : res Z := x ← deref i; Ok (- x).

Definition int_min (i i2 : option Z) : res Z :=
  c ← ptr_Cmp i i2; if c =? 1 then deref i2 else deref i.
Definition int_max (i i2 : option Z) : res Z :=
  c ← ptr_Cmp i i2; if c =? -1 then deref i2 else deref i.

(** [unmarshalText]: the new value of the target. *)
Definition int_unmarshalText (text : string) : res Z :=
  match UnmarshalText text with
  | None => Err "math/big: cannot unmarshal %q into a *big.Int"
  | Some z => if maxBitLen <? BitLen z then Err "integer out of range: %s" else Ok z
  end.

(** [type Int struct] *)
Record Int := MkInt { Int_i : option Z }.

#[global] Instance Int_eq_dec : EqDecision Int.
Proof. solve_decision. Defined.

(** An initialised [Int]. *)
Abbreviation IntV z := (MkInt (Some z)).

Definition Int_IsNil (i : Int) : bool := match Int_i i with None => true | Some _ => false end.
Definition Int_BigInt (i : Int) : option Z := if Int_IsNil i then None else Int_i i.

Definition NewInt (n : Z) : Int := IntV n.
Definition NewIntFromUint64 (n : Z) : Int := IntV n.

Definition NewIntFromBigInt (i : option Z) : res Int :=
  z ← deref i;
  if maxBitLen <? BitLen z then Panic "NewIntFromBigInt() out of bound" else Ok (MkInt i).

(** [NewIntFromString]: the [ok] result is the [option]. *)
Definition NewIntFromString (s : string) : option Int :=
  match newIntegerFromString s with
  | None => None
  | Some i => if maxBitLen <? BitLen i then None else Some (IntV i)
  end.

Definition NewIntWithDecimal (n dec : Z) : res Int :=
  if dec <? 0 then Panic "NewIntWithDecimal() decimal is negative"
  else
    let i := n * 10 ^ dec in
    if maxBitLen <? BitLen i then Panic "NewIntWithDecimal() out of bound" else Ok (IntV i).

Definition ZeroInt : Int := IntV 0.
Definition OneInt : Int := IntV 1.

Definition big_IsInt64 (z : Z) : bool := (-2^63 <=? z) && (z <? 2^63).
Definition big_IsUint64 (z : Z) : bool := (0 <=? z) && (z <? 2^64).

Definition Int_Int64 (i : Int) : res Z :=
  z ← deref (Int_i i); if negb (big_IsInt64 z) then Panic "Int64() out of bound" else Ok z.
Definition Int_IsInt64 (i : Int) : res bool := z ← deref (Int_i i); Ok (big_IsInt64 z).
Definition Int_Uint64 (i : Int) : res Z :=
  z ← deref (Int_i i); if negb (big_IsUint64 z) then Panic "Uint64() out of bounds" else Ok z.
Definition Int_IsUint64 (i : Int) : res bool := z ← deref (Int_i i); Ok (big_IsUint64 z).

Definition Int_Sign (i : Int) : res Z := z ← deref (Int_i i); Ok (Sign z).
Definition Int_IsZero (i : Int) : res bool := z ← deref (Int_i i); Ok (Sign z =? 0).
Definition Int_IsNegative (i : Int) : res bool := z ← deref (Int_i i); Ok (Sign z =? -1).
Definition Int_IsPositive (i : Int) : res bool := z ← deref (Int_i i); Ok (Sign z =? 1).

Definition Int_Equal (i i2 : Int) : res bool := int_equal (Int_i i) (Int_i i2).
Definition Int_GT (i i2 : Int) : res bool := int_gt (Int_i i) (Int_i i2).
Definition Int_GTE (i i2 : Int) : res bool := int_gte (Int_i i) (Int_i i2).
Definition Int_LT (i i2 : Int) : res bool := int_lt (Int_i i) (Int_i i2).
Definition Int_LTE (i i2 : Int) : res bool := int_lte (Int_i i) (Int_i i2).

Definition Int_Add (i i2 : Int) : res Int :=
  r ← int_add (Int_i i) (Int_i i2);
  if maxBitLen <? BitLen r then Panic "Int overflow" else Ok (IntV r).
Definition Int_AddRaw (i : Int) (i2 : Z) : res Int := Int_Add i (NewInt i2).

Definition Int_Sub (i i2 : Int) : res Int :=
  r ← int_sub (Int_i i) (Int_i i2);
  if maxBitLen <? BitLen r then Panic "Int overflow" else Ok (IntV r).
Definition Int_SubRaw (i : Int) (i2 : Z) : res Int := Int_Sub i (NewInt i2).

Definition Int_Mul (i i2 : Int) : res Int :=
  x ← deref (Int_i i); y ← deref (Int_i i2);
  if maxBitLen <? BitLen x + BitLen y - 1 then Panic "Int overflow"
  else
    r ← int_mul (Int_i i) (Int_i i2);
    if maxBitLen <? BitLen r then Panic "Int overflow" else Ok (IntV r).
Definition Int_MulRaw (i : Int) (i2 : Z) : res Int := Int_Mul i (NewInt i2).

Definition Int_Quo (i i2 : Int) : res Int :=
  y ← deref (Int_i i2);
  if Sign y =? 0 then Panic "Division by zero"
  else r ← int_div (Int_i i) (Int_i i2); Ok (IntV r).
Definition Int_QuoRaw (i : Int) (i2 : Z) : res Int := Int_Quo i (NewInt i2).

Definition Int_Mod (i i2 : Int) : res Int :=
  s ← Int_Sign i2;
  if s =? 0 then Panic "division-by-zero"
  else r ← int_mod (Int_i i) (Int_i i2); Ok (IntV r).
Definition Int_ModRaw (i : Int) (i2 : Z) : res Int := Int_Mod i (NewInt i2).

Definition Int_Neg (i : Int) : res Int := r ← int_neg (Int_i i); Ok (IntV r).
Definition MinInt (i1 i2 : Int) : res Int := r ← int_min (Int_BigInt i1) (Int_BigInt i2); Ok (IntV r).
Definition MaxInt (i i2 : Int) : res Int := r ← int_max (Int_BigInt i) (Int_BigInt i2); Ok (IntV r).

Definition Int_String (i : Int) : string := ptr_text (Int_i i).

(** [if i.i == nil { i.i = new(big.Int) }] *)
Definition Int_init (i : Int) : Z := default 0 (Int_i i).

(** [Marshal] (value receiver: the caller's [Int] is not changed). *)
Definition Int_Marshal (i : Int) : list Z := to_bytes (big_text (Int_init i)).

(** [MarshalTo] (pointer receiver): the receiver afterwards, the buffer
    afterwards and the number of bytes reported. *)
Definition Int_MarshalTo (i : Int) (data : list Z) : Int * list Z * Z :=
  let i' := IntV (Int_init i) in
  if Int_init i =? 0 then (i', go_copy data [48], 1)
  else let bz := Int_Marshal i' in (i', go_copy data bz, Z.of_nat (length bz)).

(** [Unmarshal] (pointer receiver): the receiver afterwards.  An empty input
    leaves it unchanged. *)
Definition Int_Unmarshal (i : Int) (data : list Z) : res Int :=
  match data with
  | [] => Ok i
  | _ =>
      match UnmarshalText (bytes_str data) with
      | None => Err "math/big: cannot unmarshal %q into a *big.Int"
      | Some z =>
          if maxBitLen <? BitLen z then Err "integer out of range; got: %d, max: %d"
          else Ok (IntV z)
      end
  end.

Definition Int_Size (i : Int) : Z := Z.of_nat (length (Int_Marshal i)).
Definition Int_MarshalAmino (i : Int) : list Z := Int_Marshal i.
Definition Int_UnmarshalAmino (i : Int) (bz : list Z) : res Int := Int_Unmarshal i bz.

(* ------------------------------------------------------------------ *)
(** * Properties *)

(** The range documented for [Int]: [-(2^255 - 1) .. 2^255 - 1]. *)
Definition int_range (z : Z) : Prop := Z.abs z < 2 ^ maxBitLen.

#[global] Instance int_range_dec z : Decision (int_range z).
Proof. unfold int_range. apply _. Defined.

(** The type invariant: a non-nil [Int] is in range. *)
Definition Int_wf (i : Int) : Prop := match Int_i i with None => True | Some z => int_range z end.

Lemma maxBitLen_gtb z : (maxBitLen <? BitLen z) = bool_decide (~ int_range z).
Proof.
  unfold int_range. pose proof (BitLen_le maxBitLen z ltac:(done)) as H.
  destruct (Z.ltb_spec maxBitLen (BitLen z)); symmetry; case_bool_decide; try done; lia.
Qed.

Lemma overflow_if {A} z (x y : A) :
  (if maxBitLen <? BitLen z then x else y) = (if bool_decide (int_range z) then y else x).
Proof.
  rewrite maxBitLen_gtb. destruct (decide (int_range z)).
  - rewrite bool_decide_false, bool_decide_true; naive_solver.
  - rewrite bool_decide_true, bool_decide_false; naive_solver.
Qed.

Lemma mul_guard a b :
  int_range a -> int_range b -> int_range (a * b) -> (maxBitLen <? BitLen a + BitLen b - 1) = false.
Proof.
  unfold int_range. intros Ha Hb Hab. apply Z.ltb_ge.
  apply (BitLen_le maxBitLen) in Ha, Hb; [|done..].
  destruct (Z.eq_dec a 0) as [->|Ha0]; [cbn; lia|].
  destruct (Z.eq_dec b 0) as [->|Hb0]; [cbn; lia|].
  destruct (Z_lt_ge_dec maxBitLen (BitLen a + BitLen b - 1)) as [H|H]; [|lia].
  apply BitLen_mul_lower in H; [lia|done..].
Qed.

Lemma Int_Mul_exact a b :
  int_range a -> int_range b ->
  Int_Mul (IntV a) (IntV b) =
    if bool_decide (int_range (a * b)) then Ok (IntV (a * b)) else Panic "Int overflow".
Proof.
  intros Ha Hb. unfold Int_Mul. cbn. case_bool_decide as H.
  - rewrite mul_guard by done. cbn. by rewrite overflow_if, bool_decide_true.
  - destruct (maxBitLen <? _); [done|]. cbn. by rewrite overflow_if, bool_decide_false.
Qed.

(** [Int.Add], [Int.Sub] and [Int.Mul] are exact: on initialised in-range
    operands they return the mathematical sum, difference or product when it
    is in range and panic with "Int overflow" otherwise.  In particular the
    early bit-length test of [Mul] rejects no representable product. *)
Theorem Int_arith_exact a b (Ha : int_range a) (Hb : int_range b) :
  Int_Add (IntV a) (IntV b) =
    (if bool_decide (int_range (a + b)) then Ok (IntV (a + b)) else Panic "Int overflow") /\
  Int_Sub (IntV a) (IntV b) =
    (if bool_decide (int_range (a - b)) then Ok (IntV (a - b)) else Panic "Int overflow") /\
  Int_Mul (IntV a) (IntV b) =
    (if bool_decide (int_range (a * b)) then Ok (IntV (a * b)) else Panic "Int overflow").
Proof.
  split_and!; [by apply overflow_if..|]. by apply Int_Mul_exact.
Qed.

Lemma Int_arith_exact_witness :
  int_range (2 ^ 200) /\ int_range (- 3) /\
  Int_Mul (IntV (2 ^ 200)) (IntV (- 3)) = Ok (IntV (- 3 * 2 ^ 200)).
Proof.
  assert (int_range (2 ^ 200)) as H1 by (by vm_compute).
  assert (int_range (-3)) as H2 by (by vm_compute).
  split; [exact H1|]. split; [exact H2|].
  destruct (Int_arith_exact (2 ^ 200) (-3) H1 H2) as (_ & _ & E). rewrite E.
  vm_compute. reflexivity.
Defined.

Lemma quot_abs_le a b : Z.abs (Z.quot a b) <= Z.abs a.
Proof.
  destruct (Z.eq_dec b 0) as [->|Hb]; [rewrite Z.quot_0_r_ext by done; lia|].
  rewrite <-Z.quot_abs by done. apply Z.quot_le_upper_bound; nia.
Qed.

Lemma quo_range a b : int_range a -> int_range (Z.quot a b).
Proof. unfold int_range. pose proof (quot_abs_le a b). lia. Qed.

Lemma mod_range a b : b <> 0 -> int_range b -> int_range (a mod Z.abs b).
Proof. unfold int_range. intros Hb. pose proof (Z.mod_pos_bound a (Z.abs b)). lia. Qed.

(** The operations that return a new [Int]. *)
Definition Int_binops (i j : Int) : list (res Int) :=
  [Int_Add i j; Int_Sub i j; Int_Mul i j; Int_Quo i j; Int_Mod i j; Int_Neg i;
   MinInt i j; MaxInt i j].

Lemma checked_wf z r :
  (if maxBitLen <? BitLen z then Panic "Int overflow" else Ok (IntV z)) = Ok r -> Int_wf r.
Proof. rewrite overflow_if. case_bool_decide; [|done]. intros [= <-]. done. Qed.

Lemma BigInt_wf i z : Int_wf i -> Int_BigInt i = Some z -> Int_wf (IntV z).
Proof. destruct i as [[i|]]; cbn; intros; simplify_eq; done. Qed.

(** The range invariant of [Int] is preserved: every arithmetic operation
    that returns on well-formed operands returns a well-formed [Int], and every
    constructor and decoder that succeeds produces one. *)
Theorem Int_ops_wf :
  (forall i j r, Int_wf i -> Int_wf j -> Ok r ∈ Int_binops i j -> Int_wf r) /\
  (forall p r, NewIntFromBigInt p = Ok r -> Int_wf r) /\
  (forall s r, NewIntFromString s = Some r -> Int_wf r) /\
  (forall n d r, NewIntWithDecimal n d = Ok r -> Int_wf r) /\
  (forall i bz r, Int_wf i -> Int_Unmarshal i bz = Ok r -> Int_wf r).
Proof.
  split_and!.
  - intros [i] [j] r Hi Hj Hin. unfold Int_binops in Hin.
    repeat (apply elem_of_cons in Hin as [Hin|Hin]; [symmetry in Hin|]); [..|by apply elem_of_nil in Hin].
    all: unfold Int_Add, Int_Sub, Int_Mul, Int_Quo, Int_Mod, Int_Neg, MinInt, MaxInt,
      int_add, int_sub, int_mul, int_div, int_mod, int_neg, int_min, int_max, Int_Sign,
      big_Quo, big_Mod in Hin; cbn in Hin.
    + res_inv. by eapply checked_wf.
    + res_inv. by eapply checked_wf.
    + res_inv. destruct (_ <? _) in Hin; [done|]. res_inv. by eapply checked_wf.
    + int_inv. by apply quo_range.
    + int_inv. apply mod_range; [|done]. by apply Z.eqb_neq.
    + int_inv. unfold Int_wf, int_range in *. cbn in *. by rewrite Z.abs_opp.
    + int_inv; eauto using BigInt_wf.
    + int_inv; eauto using BigInt_wf.
  - intros p r H. unfold NewIntFromBigInt in H. int_inv.
    unfold Int_wf. cbn. apply (BitLen_le maxBitLen); [done|]. by apply Z.ltb_ge.
  - intros s r. unfold NewIntFromString. destruct (newIntegerFromString s); [|done].
    rewrite overflow_if. case_bool_decide; naive_solver.
  - intros n d r. unfold NewIntWithDecimal. destruct (d <? 0); [done|]. cbv zeta.
    rewrite overflow_if. case_bool_decide; naive_solver.
  - intros i bz r Hi. unfold Int_Unmarshal. destruct bz; [naive_solver|].
    destruct (UnmarshalText _); [|done]. rewrite overflow_if. case_bool_decide; naive_solver.
Qed.

Lemma Int_Marshal_text z : bytes_str (Int_Marshal (IntV z)) = big_text z.
Proof. apply bytes_str_to_bytes. Qed.

Lemma big_text_ne z : big_text z <> "".
Proof. unfold big_text. destruct (z <? 0); [done|]. apply nat_text_ne. Qed.

Lemma Int_Marshal_ne z : exists b bz, Int_Marshal (IntV z) = b :: bz.
Proof.
  unfold Int_Marshal. cbn. pose proof (big_text_ne z).
  destruct (big_text z); [done|]. cbn. eauto.
Qed.

Lemma Int_Unmarshal_Marshal i z : Int_Unmarshal i (Int_Marshal (IntV z)) =
  if bool_decide (int_range z) then Ok (IntV z) else Err "integer out of range; got: %d, max: %d".
Proof.
  unfold Int_Unmarshal. destruct (Int_Marshal_ne z) as (b & bz & E). rewrite E, <-E.
  rewrite Int_Marshal_text, UnmarshalText_big_text. by rewrite overflow_if.
Qed.

(** The text encodings of [Int] round-trip.  For every in-range value,
    parsing the printed string gives the value back; [Unmarshal] of [Marshal]
    gives it back whatever the receiver held; and [MarshalTo] into a buffer of
    [Size] bytes reports [Size] and fills the buffer with exactly the bytes of
    [Marshal].  A value out of range is refused by both parsers. *)
Theorem Int_text_roundtrip z :
  (int_range z ->
   NewIntFromString (Int_String (IntV z)) = Some (IntV z) /\
   (forall i, Int_Unmarshal i (Int_Marshal (IntV z)) = Ok (IntV z))) /\
  (~ int_range z ->
   NewIntFromString (Int_String (IntV z)) = None /\
   (forall i, exists e, Int_Unmarshal i (Int_Marshal (IntV z)) = Err e)) /\
  (forall data, Z.of_nat (length data) = Int_Size (IntV z) ->
   Int_MarshalTo (IntV z) data = (IntV z, Int_Marshal (IntV z), Int_Size (IntV z))).
Proof.
  assert (NewIntFromString (Int_String (IntV z)) =
    if bool_decide (int_range z) then Some (IntV z) else None) as HN.
  { unfold NewIntFromString, newIntegerFromString, Int_String. cbn.
    rewrite SetString0_big_text. by rewrite overflow_if. }
  split_and!.
  - intros H. rewrite HN. setoid_rewrite Int_Unmarshal_Marshal. by rewrite bool_decide_true.
  - intros H. rewrite HN. setoid_rewrite Int_Unmarshal_Marshal. rewrite bool_decide_false by done. eauto.
  - intros data Hlen. unfold Int_MarshalTo. cbn [Int_init default Int_i from_option id].
    unfold Int_Size in *. apply Nat2Z.inj in Hlen.
    assert (go_copy data (Int_Marshal (IntV z)) = Int_Marshal (IntV z)) as Hc.
    { unfold go_copy. rewrite Hlen, firstn_all, <-Hlen, drop_all, app_nil_r. done. }
    destruct (Z.eqb_spec z 0) as [->|].
    + change (Int_Marshal (IntV 0)) with [48] in *. by rewrite Hc.
    + by rewrite Hc.
Qed.

Lemma Int_text_roundtrip_witness :
  int_range (-12345) /\ Int_Unmarshal (MkInt None) (Int_Marshal (IntV (-12345))) = Ok (IntV (-12345)).
Proof.
  assert (int_range (-12345)) as H by (by vm_compute). split; [exact H|].
  apply (proj1 (Int_text_roundtrip (-12345)) H).
Defined.
