(* ===== verification/SdkDec.v ===== *)
(** [types/dec.go]: the fixed-point decimal [Dec], an integer scaled by
    [10^18].

    As for [Int], the pointer to the underlying [big.Int] may be [nil].
    Functions documented as mutating their [big.Int] argument are modelled by
    the value they leave in it; every caller passes a fresh integer. *)
From S2P Require Import Prelude GoStrings BigText SdkInt.
From Stdlib Require Import Ascii.

(** [type Dec struct] *)
Record Dec := MkDec { Dec_i : option Z }.
Abbreviation DecV z := (MkDec (Some z)).

#[global] Instance Dec_eq_dec : EqDecision Dec.
Proof. solve_decision. Defined.

Definition Precision : Z := 18.
Definition DecimalPrecisionBits : Z := 60.
Definition maxApproxRootIterations : nat := 100.

Definition precisionReuse : Z := 10 ^ Precision.
Definition fivePrecision : Z := Z.quot precisionReuse 2.

(** Errors of [NewDecFromStr]. *)
Definition ErrEmptyDecimalStr : string := "decimal string cannot be empty".
Definition ErrInvalidDecimalLength : string := "invalid decimal length".
Definition ErrInvalidDecimalStr : string := "invalid decimal string".

Definition calcPrecisionMultiplier (prec : Z) : res Z :=
  if Precision <? prec then Panic "too much precision, maximum %v, provided %v"
  else Ok (10 ^ (Precision - prec)).

(** The table filled by [init]: entries 0 to [Precision]. *)
Definition precisionMultipliers : list Z :=
  (fun i => match calcPrecisionMultiplier (Z.of_nat i) with Ok m => m | _ => 0 end)
    <$> seq 0 (S (Z.to_nat Precision)).

Definition precisionMultiplier (prec : Z) : res Z :=
  if Precision <? prec then Panic "too much precision, maximum %v, provided %v"
  else if prec <? 0 then Panic "index out of range"
  else match precisionMultipliers !! Z.to_nat prec with
       | Some m => Ok m
       | None => Panic "index out of range"
       end.

Definition precisionInt : Z := precisionReuse.
Definition ZeroDec : Dec := DecV 0.
Definition OneDec : Dec := DecV precisionInt.
Definition SmallestDec : Dec := DecV 1.

Definition NewDecWithPrec (i prec : Z) : res Dec := m ← precisionMultiplier prec; Ok (DecV (i * m)).
Definition NewDec (i : Z) : res Dec := NewDecWithPrec i 0.
Definition NewDecFromBigIntWithPrec (i : option Z) (prec : Z) : res Dec :=
  z ← deref i; m ← precisionMultiplier prec; Ok (DecV (z * m)).
Definition NewDecFromBigInt (i : option Z) : res Dec := NewDecFromBigIntWithPrec i 0.
Definition NewDecFromIntWithPrec (i : Int) (prec : Z) : res Dec :=
  z ← deref (Int_BigInt i); m ← precisionMultiplier prec; Ok (DecV (z * m)).
Definition NewDecFromInt (i : Int) : res Dec := NewDecFromIntWithPrec i 0.
(** [Int.ToDec] *)
Definition Int_ToDec (i : Int) : res Dec := NewDecFromInt i.

(** [NewDecFromStr] *)
Definition NewDecFromStr (str : string) : res Dec :=
  if decide (str = "") then Err ErrEmptyDecimalStr else
  let '(neg, str) := match str with String "-" r => (true, r) | _ => (false, str) end in
  if decide (str = "") then Err ErrEmptyDecimalStr else
  let strs := split_on "." str in
  '(lenDecs, combinedStr) ←
    match strs with
    | [s0] => Ok (0%nat, s0)
    | [s0; s1] =>
        let lenDecs := String.length s1 in
        if (Nat.eqb lenDecs 0) || (Nat.eqb (String.length s0) 0)
        then Err ErrInvalidDecimalLength else Ok (lenDecs, s0 +:+ s1)
    | _ => Err ErrInvalidDecimalStr
    end;
  if Precision <? Z.of_nat lenDecs then Err "invalid precision; max: %d, got: %d" else
  let zerosToAdd := (Z.to_nat Precision - lenDecs)%nat in
  let combinedStr := combinedStr +:+ replicate_chr zerosToAdd "0" in
  match SetString10 combinedStr with
  | None => Err "failed to set decimal string: %s"
  | Some combined => Ok (DecV (if neg : bool then - combined else combined))
  end.

Definition MustNewDecFromStr (s : string) : res Dec :=
  match NewDecFromStr s with Err e => Panic e | r => r end.

Definition Dec_IsNil (d : Dec) : bool := match Dec_i d with None => true | _ => false end.
Definition Dec_IsZero (d : Dec) : res bool := z ← deref (Dec_i d); Ok (Sign z =? 0).
Definition Dec_IsNegative (d : Dec) : res bool := z ← deref (Dec_i d); Ok (Sign z =? -1).
Definition Dec_IsPositive (d : Dec) : res bool := z ← deref (Dec_i d); Ok (Sign z =? 1).
Definition Dec_Equal (d d2 : Dec) : res bool := c ← ptr_Cmp (Dec_i d) (Dec_i d2); Ok (c =? 0).
Definition Dec_GT (d d2 : Dec) : res bool := c ← ptr_Cmp (Dec_i d) (Dec_i d2); Ok (0 <? c).
Definition Dec_GTE (d d2 : Dec) : res bool := c ← ptr_Cmp (Dec_i d) (Dec_i d2); Ok (0 <=? c).
Definition Dec_LT (d d2 : Dec) : res bool := c ← ptr_Cmp (Dec_i d) (Dec_i d2); Ok (c <? 0).
Definition Dec_LTE (d d2 : Dec) : res bool := c ← ptr_Cmp (Dec_i d) (Dec_i d2); Ok (c <=? 0).
Definition Dec_Neg (d : Dec) : res Dec := z ← deref (Dec_i d); Ok (DecV (- z)).
Definition Dec_Abs (d : Dec) : res Dec := z ← deref (Dec_i d); Ok (DecV (Z.abs z)).
Definition Dec_BigInt (d : Dec) : option Z := if Dec_IsNil d then None else Dec_i d.

(** The overflow test shared by the arithmetic: 255 bits for the integer part
    plus the bits of the precision. *)
Definition Dec_checked (z : Z) : res Dec :=
  if 255 + DecimalPrecisionBits <? BitLen z then Panic "Int overflow" else Ok (DecV z).

Definition Dec_Add (d d2 : Dec) : res Dec :=
  x ← deref (Dec_i d); y ← deref (Dec_i d2); Dec_checked (x + y).
Definition Dec_Sub (d d2 : Dec) : res Dec :=
  x ← deref (Dec_i d); y ← deref (Dec_i d2); Dec_checked (x - y).

(** Bankers' rounding of [d / 10^18]; the recursive call on a negative
    argument is on a non-negative one. *)
Definition chop_round_nonneg (d : Z) : Z :=
  let quo := Z.quot d precisionReuse in
  let rem := Z.rem d precisionReuse in
  if Sign rem =? 0 then quo
  else
    let c := Cmp rem fivePrecision in
    if c =? -1 then quo
    else if c =? 1 then quo + 1
    else if negb (Z.testbit quo 0) then quo else quo + 1.
Definition chopPrecisionAndRound (d : Z) : Z :=
  if Sign d =? -1 then - chop_round_nonneg (- d) else chop_round_nonneg d.

Definition chopPrecisionAndTruncate (d : Z) : Z := Z.quot d precisionReuse.

Definition chopPrecisionAndRoundUp (d : Z) : Z :=
  if Sign d =? -1 then - chopPrecisionAndTruncate (- d)
  else
    let quo := Z.quot d precisionReuse in
    let rem := Z.rem d precisionReuse in
    if Sign rem =? 0 then quo else quo + 1.

Definition chopPrecisionAndRoundNonMutative (d : Z) : Z := chopPrecisionAndRound d.
Definition chopPrecisionAndTruncateNonMutative (d : Z) : Z := chopPrecisionAndTruncate d.

Definition Dec_Mul (d d2 : Dec) : res Dec :=
  x ← deref (Dec_i d); y ← deref (Dec_i d2); Dec_checked (chopPrecisionAndRound (x * y)).
Definition Dec_MulTruncate (d d2 : Dec) : res Dec :=
  x ← deref (Dec_i d); y ← deref (Dec_i d2); Dec_checked (chopPrecisionAndTruncate (x * y)).
Definition Dec_MulInt (d : Dec) (i : Int) : res Dec :=
  x ← deref (Dec_i d); y ← deref (Int_i i); Dec_checked (x * y).
Definition Dec_MulInt64 (d : Dec) (i : Z) : res Dec :=
  x ← deref (Dec_i d); Dec_checked (x * i).

(** The dividend is scaled by [10^36] before the truncated division. *)
Definition Dec_quo_with (chop : Z -> Z) (d d2 : Dec) : res Dec :=
  x ← deref (Dec_i d);
  let mul := x * precisionReuse * precisionReuse in
  y ← deref (Dec_i d2);
  quo ← big_Quo mul y;
  Dec_checked (chop quo).
Definition Dec_Quo : Dec -> Dec -> res Dec := Dec_quo_with chopPrecisionAndRound.
Definition Dec_QuoTruncate : Dec -> Dec -> res Dec := Dec_quo_with chopPrecisionAndTruncate.
Definition Dec_QuoRoundUp : Dec -> Dec -> res Dec := Dec_quo_with chopPrecisionAndRoundUp.

Definition Dec_QuoInt (d : Dec) (i : Int) : res Dec :=
  x ← deref (Dec_i d); y ← deref (Int_i i); q ← big_Quo x y; Ok (DecV q).
Definition Dec_QuoInt64 (d : Dec) (i : Z) : res Dec :=
  x ← deref (Dec_i d); q ← big_Quo x i; Ok (DecV q).

(** The square-and-multiply loop of [Power], on the binary digits of the
    exponent: [i%2 == 0] is [xO], otherwise [xI]; it stops at 1. *)
Fixpoint power_loop (i : positive) (tmp d : Dec) : res (Dec * Dec) :=
  match i with
  | xH => Ok (tmp, d)
  | xO i => d' ← Dec_Mul d d; power_loop i tmp d'
  | xI i => tmp' ← Dec_Mul tmp d; d' ← Dec_Mul d d; power_loop i tmp' d'
  end.
Definition Dec_Power (d : Dec) (power : Z) : res Dec :=
  match power with
  | Zpos p => '(tmp, d) ← power_loop p OneDec d; Dec_Mul d tmp
  | _ => Ok OneDec
  end.

(** [recover()]: a panic with an [error] value keeps it (only runtime errors
    do here), any other becomes "out of bounds". *)
Definition recovered (p : string) : string :=
  if decide (p = nil_deref) then p else "out of bounds".

(** One iteration of Newton's method in [ApproxRoot]. *)
Definition approx_step (d : Dec) (root : Z) (guess delta : Dec) : res (Dec * Dec) :=
  prev ← Dec_Power guess (root - 1);
  z ← Dec_IsZero prev;
  let prev := if z : bool then SmallestDec else prev in
  delta ← Dec_Quo d prev;
  delta ← Dec_Sub delta guess;
  delta ← Dec_QuoInt delta (NewIntFromUint64 root);
  guess ← Dec_Add guess delta;
  Ok (guess, delta).

(** The loop condition [delta.Abs().GT(SmallestDec())]. *)
Definition approx_continue (delta : Dec) : res bool := a ← Dec_Abs delta; Dec_GT a SmallestDec.

(** The loop, with the iterations left.  The result is the value of [guess]
    and the error of the deferred recovery. *)
Fixpoint approx_loop (d : Dec) (root : Z) (iters : nat) (guess delta : Dec) : Dec * option string :=
  match approx_continue delta with
  | Ok true =>
      match iters with
      | O => (guess, None)
      | S k =>
          match approx_step d root guess delta with
          | Ok (guess', delta') => approx_loop d root k guess' delta'
          | Err e => (guess, Some e)
          | Panic p => (guess, Some (recovered p))
          end
      end
  | Ok false => (guess, None)
  | Err e => (guess, Some e)
  | Panic p => (guess, Some (recovered p))
  end.

(** The body of [ApproxRoot] after the sign test. *)
Definition approx_root_nonneg (d : Dec) (root : Z) : Dec * option string :=
  match (z ← Dec_IsZero d; o ← Dec_Equal d OneDec; Ok ((root =? 1) || z || o)) with
  | Ok true => (d, None)
  | Ok false =>
      if root =? 0 then (OneDec, None)
      else approx_loop d root maxApproxRootIterations OneDec OneDec
  | Err e => (MkDec None, Some e)
  | Panic p => (MkDec None, Some (recovered p))
  end.

(** [ApproxRoot]: the named results [guess] and [err].  The recursive call on
    a negative argument is on a non-negative one. *)
Definition Dec_ApproxRoot (d : Dec) (root : Z) : Dec * option string :=
  match Dec_IsNegative d with
  | Ok true =>
      match Dec_MulInt64 d (-1) with
      | Ok d' =>
          let '(absRoot, err) := approx_root_nonneg d' root in
          match Dec_MulInt64 absRoot (-1) with
          | Ok r => (r, err)
          | Err e => (MkDec None, Some e)
          | Panic p => (MkDec None, Some (recovered p))
          end
      | Err e => (MkDec None, Some e)
      | Panic p => (MkDec None, Some (recovered p))
      end
  | Ok false => approx_root_nonneg d root
  | Err e => (MkDec None, Some e)
  | Panic p => (MkDec None, Some (recovered p))
  end.
Definition Dec_ApproxSqrt (d : Dec) : Dec * option string := Dec_ApproxRoot d 2.

Definition Dec_IsInteger (d : Dec) : res bool :=
  z ← deref (Dec_i d); Ok (Sign (Z.rem z precisionReuse) =? 0).

(** [String] *)
Definition dec_point_text (n : Z) : string :=
  let bzInt := nat_text n in
  let inputSize := String.length bzInt in
  let prec := Z.to_nat Precision in
  if (inputSize <=? prec)%nat
  then "0." +:+ replicate_chr (prec - inputSize) "0" +:+ bzInt
  else
    let decPointPlace := (inputSize - prec)%nat in
    str_take decPointPlace bzInt +:+ String "." (str_drop decPointPlace bzInt).
Definition Dec_String (d : Dec) : string :=
  match Dec_i d with
  | None => nil_text
  | Some z => if z <? 0 then String "-" (dec_point_text (- z)) else dec_point_text z
  end.

Definition Dec_RoundInt64 (d : Dec) : res Z :=
  z ← deref (Dec_i d);
  let chopped := chopPrecisionAndRoundNonMutative z in
  if negb (big_IsInt64 chopped) then Panic "Int64() out of bound" else Ok chopped.
Definition Dec_RoundInt (d : Dec) : res Int :=
  z ← deref (Dec_i d); NewIntFromBigInt (Some (chopPrecisionAndRoundNonMutative z)).
Definition Dec_TruncateInt64 (d : Dec) : res Z :=
  z ← deref (Dec_i d);
  let chopped := chopPrecisionAndTruncateNonMutative z in
  if negb (big_IsInt64 chopped) then Panic "Int64() out of bound" else Ok chopped.
Definition Dec_TruncateInt (d : Dec) : res Int :=
  z ← deref (Dec_i d); NewIntFromBigInt (Some (chopPrecisionAndTruncateNonMutative z)).
Definition Dec_TruncateDec (d : Dec) : res Dec :=
  z ← deref (Dec_i d); NewDecFromBigInt (Some (chopPrecisionAndTruncateNonMutative z)).

Definition Dec_Ceil (d : Dec) : res Dec :=
  tmp ← deref (Dec_i d);
  let quo := Z.quot tmp precisionReuse in
  let rem := Z.rem tmp precisionReuse in
  if Cmp rem 0 =? 0 then NewDecFromBigInt (Some quo)
  else if Sign rem =? -1 then NewDecFromBigInt (Some quo)
  else NewDecFromBigInt (Some (quo + 1)).

(** [MaxSortableDec = OneDec().Quo(SmallestDec())] *)
Definition MaxSortableDec : Dec :=
  match Dec_Quo OneDec SmallestDec with Ok d => d | _ => MkDec None end.
Definition ValidSortableDec (dec : Dec) : res bool := a ← Dec_Abs dec; Dec_LTE a MaxSortableDec.

(** [fmt.Sprintf("%0<w>s", s)] *)
Definition pad_zeros (w : nat) (s : string) : string := replicate_chr (w - String.length s) "0" +:+ s.

Definition SortableDecBytes (dec : Dec) : res string :=
  v ← ValidSortableDec dec;
  if negb v then Panic "dec must be within bounds" else
  m ← Dec_Equal dec MaxSortableDec;
  if m : bool then Ok "max" else
  mn ← Dec_Neg MaxSortableDec;
  m ← Dec_Equal dec mn;
  if m : bool then Ok "--" else
  n ← Dec_IsNegative dec;
  let w := Z.to_nat (Precision * 2 + 1) in
  if n : bool then a ← Dec_Abs dec; Ok ("-" +:+ pad_zeros w (Dec_String a))
  else Ok (pad_zeros w (Dec_String dec)).

Definition Dec_init (d : Dec) : Z := default 0 (Dec_i d).
Definition Dec_Marshal (d : Dec) : list Z := to_bytes (big_text (Dec_init d)).
Definition Dec_MarshalTo (d : Dec) (data : list Z) : Dec * list Z * Z :=
  let d' := DecV (Dec_init d) in
  if Cmp (Dec_init d) 0 =? 0 then (d', go_copy data [48], 1)
  else let bz := Dec_Marshal d' in (d', go_copy data bz, Z.of_nat (length bz)).
Definition Dec_Unmarshal (d : Dec) (data : list Z) : res Dec :=
  match data with
  | [] => Ok d
  | _ =>
      match UnmarshalText (bytes_str data) with
      | None => Err "math/big: cannot unmarshal %q into a *big.Int"
      | Some z =>
          if maxBitLen <? BitLen z then Err "decimal out of range; got: %d, max: %d"
          else Ok (DecV z)
      end
  end.
Definition Dec_Size (d : Dec) : Z := Z.of_nat (length (Dec_Marshal d)).
Definition Dec_MarshalAmino (d : Dec) : list Z := Dec_Marshal d.
Definition Dec_UnmarshalAmino (d : Dec) (bz : list Z) : res Dec := Dec_Unmarshal d bz.

(** [DecsEqual]: equal lengths are checked first. *)
Fixpoint decs_equal_loop (d1s d2s : list Dec) : res bool :=
  match d1s, d2s with
  | [], _ => Ok true
  | d1 :: d1s, d2 :: d2s => e ← Dec_Equal d1 d2; if negb e then Ok false else decs_equal_loop d1s d2s
  | _ :: _, [] => Panic "index out of range"
  end.
Definition DecsEqual (d1s d2s : list Dec) : res bool :=
  if negb (Nat.eqb (length d1s) (length d2s)) then Ok false else decs_equal_loop d1s d2s.

Definition MinDec (d1 d2 : Dec) : res Dec := l ← Dec_LT d1 d2; Ok (if l : bool then d1 else d2).
Definition MaxDec (d1 d2 : Dec) : res Dec := l ← Dec_LT d1 d2; Ok (if l : bool then d2 else d1).

(* ------------------------------------------------------------------ *)
(** * Properties *)

Lemma precisionReuse_val : precisionReuse = 1000000000000000000.
Proof. reflexivity. Qed.
Lemma fivePrecision_val : fivePrecision = 500000000000000000.
Proof. reflexivity. Qed.

(** The bound enforced by the arithmetic: 315 bits. *)
Definition dec_range (z : Z) : Prop := Z.abs z < 2 ^ (255 + DecimalPrecisionBits).

#[global] Instance dec_range_dec z : Decision (dec_range z).
Proof. unfold dec_range. apply _. Defined.

Definition Dec_wf (d : Dec) : Prop := match Dec_i d with None => True | Some z => dec_range z end.

Lemma Dec_checked_if z :
  Dec_checked z = if bool_decide (dec_range z) then Ok (DecV z) else Panic "Int overflow".
Proof.
  unfold Dec_checked, dec_range.
  pose proof (BitLen_le (255 + DecimalPrecisionBits) z ltac:(done)) as H.
  destruct (Z.ltb_spec (255 + DecimalPrecisionBits) (BitLen z)); case_bool_decide; try done; lia.
Qed.

Lemma Dec_checked_range z : dec_range z -> Dec_checked z = Ok (DecV z).
Proof. intros. rewrite Dec_checked_if. by rewrite bool_decide_true. Qed.

(** [r] is [n / m] rounded to the nearest integer, ties to even. *)
Definition bankers (n m r : Z) : Prop :=
  2 * Z.abs (n - r * m) <= m /\ (2 * Z.abs (n - r * m) = m -> Z.Even r).

Lemma bankers_unique n m r r' : 0 < m -> bankers n m r -> bankers n m r' -> r = r'.
Proof.
  intros Hm [H1 E1] [H2 E2].
  assert (Z.abs (r - r') <= 1) as Hd by nia.
  destruct (Z.eq_dec r r') as [|Hne]; [done|]. exfalso.
  assert (2 * Z.abs (n - r * m) = m /\ 2 * Z.abs (n - r' * m) = m) as [T1 T2] by nia.
  destruct (E1 T1) as [a ->], (E2 T2) as [b ->]. lia.
Qed.

Lemma bankers_opp n m r : bankers n m r -> bankers (- n) m (- r).
Proof.
  unfold bankers. replace (- n - - r * m) with (- (n - r * m)) by lia. rewrite Z.abs_opp.
  intros [H1 H2]. split; [done|]. intros E. destruct (H2 E) as [k ->]. exists (- k). lia.
Qed.

Lemma quot_rem_P d :
  0 <= d -> d = precisionReuse * Z.quot d precisionReuse + Z.rem d precisionReuse /\
            0 <= Z.rem d precisionReuse < precisionReuse.
Proof.
  intros Hd. split; [apply Z.quot_rem; done|]. apply Z.rem_bound_pos; [done|].
  rewrite precisionReuse_val. lia.
Qed.

Lemma chop_round_nonneg_bankers d : 0 <= d -> bankers d precisionReuse (chop_round_nonneg d).
Proof.
  intros Hd. destruct (quot_rem_P d Hd) as [E B]. unfold chop_round_nonneg, bankers.
  set (q := Z.quot d precisionReuse) in *. set (r := Z.rem d precisionReuse) in *.
  clearbody q r. rewrite precisionReuse_val, fivePrecision_val in *. unfold Sign.
  destruct (Z.eqb_spec (Z.sgn r) 0) as [H0|H0]; [lia|].
  cmp_case r 500000000000000000; cbn [Z.eqb Pos.eqb]; [lia| |lia].
  rewrite Z.bit0_odd. destruct (Z.odd q) eqn:Ho; cbn [negb].
  - split; [lia|]. intros _. apply Z.even_spec. by rewrite Z.even_add, <-Z.negb_odd, Ho.
  - split; [lia|]. intros _. apply Z.even_spec. by rewrite <-Z.negb_odd, Ho.
Qed.

Lemma chop_round_bankers d : bankers d precisionReuse (chopPrecisionAndRound d).
Proof.
  unfold chopPrecisionAndRound, Sign. destruct (Z.eqb_spec (Z.sgn d) (-1)) as [H|H].
  - rewrite <-(Z.opp_involutive d) at 1. apply bankers_opp, chop_round_nonneg_bankers. lia.
  - apply chop_round_nonneg_bankers. lia.
Qed.

(** A decimal times an integer is exact. *)
Lemma chop_round_multiple k : chopPrecisionAndRound (k * precisionReuse) = k.
Proof.
  apply (bankers_unique (k * precisionReuse) precisionReuse); [done|apply chop_round_bankers|].
  unfold bankers. replace (k * precisionReuse - k * precisionReuse) with 0 by lia. rewrite precisionReuse_val. lia.
Qed.

(** [Dec.Mul] is multiplication of scaled integers with bankers' rounding:
    the result is the nearest multiple of [10^-18] to the exact product, ties
    going to the even one, which determines it uniquely; it panics exactly
    when that result needs more than 315 bits.  [MulTruncate] instead drops
    the digits beyond the precision. *)
Theorem Dec_Mul_rounds x y :
  exists r, bankers (x * y) precisionReuse r /\
    (forall r', bankers (x * y) precisionReuse r' -> r' = r) /\
    Dec_Mul (DecV x) (DecV y) =
      (if bool_decide (dec_range r) then Ok (DecV r) else Panic "Int overflow") /\
    Dec_MulTruncate (DecV x) (DecV y) =
      (if bool_decide (dec_range (Z.quot (x * y) precisionReuse))
       then Ok (DecV (Z.quot (x * y) precisionReuse)) else Panic "Int overflow").
Proof.
  exists (chopPrecisionAndRound (x * y)). split_and!.
  - apply chop_round_bankers.
  - intros r' Hr'. eapply bankers_unique; [|done|apply chop_round_bankers]. done.
  - apply Dec_checked_if.
  - apply Dec_checked_if.
Qed.

Lemma quot_bound a b : b <> 0 -> Z.abs (Z.quot a b * b - a) < Z.abs b.
Proof.
  intros Hb. pose proof (Z.quot_rem a b Hb) as E. pose proof (Z.rem_bound_abs a b Hb). lia.
Qed.

Lemma quo_round_error x y q r :
  y <> 0 -> q = Z.quot (x * precisionReuse * precisionReuse) y -> bankers q precisionReuse r ->
  2 * precisionReuse * Z.abs (r * y - x * precisionReuse) < (precisionReuse + 2) * Z.abs y.
Proof.
  intros Hy -> [Hr _].
  pose proof (quot_bound (x * precisionReuse * precisionReuse) y Hy) as Hq.
  set (q := Z.quot _ y) in *. clearbody q. rewrite precisionReuse_val in *.
  set (P := 1000000000000000000) in *.
  assert (Z.abs ((q - r * P) * y) = Z.abs (q - r * P) * Z.abs y) as E by apply Z.abs_mul.
  assert (2 * Z.abs ((q - r * P) * y) <= P * Z.abs y) by (rewrite E; nia).
  assert (P * Z.abs (r * y - x * P) = Z.abs ((r * P * y - x * P * P))) as E2.
  { rewrite <-(Z.abs_eq P) at 1 by done. rewrite <-Z.abs_mul. f_equal. lia. }
  rewrite <-Z.mul_assoc, E2. lia.
Qed.

Lemma quot_chop x y :
  y <> 0 ->
  Z.quot (Z.quot (x * precisionReuse * precisionReuse) y) precisionReuse = Z.quot (x * precisionReuse) y.
Proof.
  intros Hy. assert (precisionReuse <> 0) by done.
  rewrite Z.quot_quot, Z.quot_mul_cancel_r by done. done.
Qed.

(** C39: division.  For a non-zero divisor [Dec.Quo] returns a value within
    [1/2 + 10^-18] units in the last place of the exact quotient (it truncates
    at 36 digits and then rounds), [QuoTruncate] the exact quotient truncated,
    and each panics only on overflow; dividing by zero panics. *)
Theorem Dec_Quo_bounds x y :
  (y <> 0 ->
   (exists r, 2 * precisionReuse * Z.abs (r * y - x * precisionReuse) < (precisionReuse + 2) * Z.abs y /\
     Dec_Quo (DecV x) (DecV y) =
       (if bool_decide (dec_range r) then Ok (DecV r) else Panic "Int overflow")) /\
   Dec_QuoTruncate (DecV x) (DecV y) =
     (let t := Z.quot (x * precisionReuse) y in
      if bool_decide (dec_range t) then Ok (DecV t) else Panic "Int overflow")) /\
  Dec_Quo (DecV x) (DecV 0) = Panic "division by zero" /\
  Dec_QuoTruncate (DecV x) (DecV 0) = Panic "division by zero".
Proof.
  split; [|done]. intros Hy.
  unfold Dec_Quo, Dec_QuoTruncate, Dec_quo_with, big_Quo.
  cbn [Dec_i deref mbind res_bind]. apply Z.eqb_neq in Hy as Hyb. rewrite Hyb. cbn [mbind res_bind].
  split.
  - eexists. split; [|apply Dec_checked_if]. eapply quo_round_error; [done|done|]. apply chop_round_bankers.
  - unfold chopPrecisionAndTruncate. rewrite quot_chop by done. apply Dec_checked_if.
Qed.

Lemma Dec_Quo_bounds_witness :
  3 <> 0 /\ Dec_QuoTruncate (DecV (10 ^ 18)) (DecV (3 * 10 ^ 18)) = Ok (DecV 333333333333333333).
Proof.
  split; [lia|].
  destruct (proj1 (Dec_Quo_bounds (10 ^ 18) (3 * 10 ^ 18)) ltac:(lia)) as [_ E].
  rewrite E. vm_compute. reflexivity.
Defined.

Lemma ceil_div q : 0 <= q -> chopPrecisionAndRoundUp q = (q + precisionReuse - 1) / precisionReuse.
Proof.
  intros Hq. destruct (quot_rem_P q Hq) as [E B]. unfold chopPrecisionAndRoundUp, Sign.
  rewrite (proj2 (Z.eqb_neq (Z.sgn q) (-1))) by lia.
  set (a := Z.quot q precisionReuse) in *. set (r := Z.rem q precisionReuse) in *. clearbody a r.
  rewrite precisionReuse_val in *.
  destruct (Z.eqb_spec (Z.sgn r) 0) as [H|H]; apply Z.div_unique_pos with (if r =? 0 then 999999999999999999 else r - 1);
    destruct (Z.eqb_spec r 0); lia.
Qed.

(** [QuoRoundUp] is the ceiling of the exact quotient whenever the
    division is exact at 36 digits, but not in general: the digits beyond the
    36th are lost before rounding, so [10^-18 / (10^18 + 10^-18)] is rounded
    "up" to zero although it is positive. *)
Theorem Dec_QuoRoundUp_ceiling :
  (forall x y, 0 <= x -> 0 < y -> (y | x * precisionReuse * precisionReuse) ->
     let r := (x * precisionReuse + y - 1) / y in
     Dec_QuoRoundUp (DecV x) (DecV y) =
       (if bool_decide (dec_range r) then Ok (DecV r) else Panic "Int overflow")) /\
  Dec_QuoRoundUp (DecV 1) (DecV (10 ^ 36 + 1)) = Ok (DecV 0).
Proof.
  split; [|vm_compute; reflexivity]. intros x y Hx Hy [q Hq] r.
  unfold Dec_QuoRoundUp, Dec_quo_with, big_Quo. cbn [Dec_i deref mbind res_bind].
  rewrite (proj2 (Z.eqb_neq y 0)), Hq, Z.quot_mul by lia. cbn [mbind res_bind].
  assert (0 <= q) by nia. rewrite ceil_div by done.
  enough (r = (q + precisionReuse - 1) / precisionReuse) as -> by apply Dec_checked_if.
  unfold r. pose proof (Z.div_mod (q + precisionReuse - 1) precisionReuse ltac:(done)) as E.
  pose proof (Z.mod_pos_bound (q + precisionReuse - 1) precisionReuse ltac:(done)) as B.
  set (c := (q + precisionReuse - 1) / precisionReuse) in *. clearbody c.
  symmetry. apply Z.div_unique_pos with (x * precisionReuse + y - 1 - y * c); [|lia].
  set (m := (q + precisionReuse - 1) mod precisionReuse) in *. clearbody m.
  rewrite precisionReuse_val in *. nia.
Qed.

(** ** Text *)

Lemma digits_no_dot s :
  str_digits s = true -> str_forall (fun c => negb (bool_decide (c = "."%char))) s = true.
Proof.
  apply str_forall_impl. intros c Hc. rewrite bool_decide_false; [done|].
  by apply digit_not.
Qed.

(** The two halves of the printed form: digits before and after the point. *)
Lemma dec_point_text_split n :
  0 <= n -> exists a b,
    dec_point_text n = a +:+ String "." b /\ str_digits a = true /\ str_digits b = true /\
    a <> "" /\ String.length b = Z.to_nat Precision /\ digits_value 0 (a +:+ b) = n.
Proof.
  intros Hn. unfold dec_point_text. pose proof (nat_text_digits n) as Hd.
  pose proof (nat_text_value n Hn) as Hv.
  destruct (Nat.leb_spec (String.length (nat_text n)) (Z.to_nat Precision)) as [Hl|Hl].
  - exists "0", (replicate_chr (Z.to_nat Precision - String.length (nat_text n)) "0" +:+ nat_text n).
    split_and!; try done.
    + unfold str_digits in *. by rewrite str_forall_app, str_forall_replicate, Hd.
    + rewrite str_length_app, str_length_replicate. lia.
    + change "0" with (replicate_chr 1 "0") at 1. by rewrite !digits_value_zeros.
  - exists (str_take (String.length (nat_text n) - Z.to_nat Precision) (nat_text n)),
      (str_drop (String.length (nat_text n) - Z.to_nat Precision) (nat_text n)).
    split_and!; try done.
    + by apply str_forall_take.
    + by apply str_forall_drop.
    + intros E. apply (f_equal String.length) in E. rewrite str_length_take in E by lia.
      change (String.length "") with 0%nat in E. lia.
    + rewrite str_length_drop. lia.
    + by rewrite str_take_drop.
Qed.

(** Parsing an unsigned decimal with a full 18-digit fraction. *)
Lemma parse_point_text (neg : bool) a b :
  str_digits a = true -> str_digits b = true -> a <> "" -> String.length b = Z.to_nat Precision ->
  let v := digits_value 0 (a +:+ b) in
  NewDecFromStr ((if neg then "-" else "") +:+ a +:+ String "." b) = Ok (DecV (if neg then - v else v)).
Proof.
  intros Ha Hb Hne Hlen v.
  destruct a as [|c a]; [done|].
  assert (is_digit c = true) as Hc by (unfold str_digits in Ha; cbn in Ha; by apply andb_true_iff in Ha as [??]).
  assert (SetString10 ((String c a +:+ b) +:+ replicate_chr 0 "0") = Some v) as Hset.
  { cbn [replicate_chr]. rewrite str_app_nil_r. apply SetString10_digits; [|done].
    unfold str_digits in *. rewrite str_forall_app, Ha, Hb. done. }
  unfold NewDecFromStr.
  rewrite decide_False by (by destruct neg).
  assert (match (if neg then "-" else "") +:+ String c a +:+ String "." b with
          | String "-" r => (true, r) | _ => (false, (if neg then "-" else "") +:+ String c a +:+ String "." b) end
          = (neg, String c a +:+ String "." b)) as ->.
  { destruct neg; [done|]. rewrite str_app_cons. change ("" +:+ ?x) with x.
    destruct c as [[] [] [] [] [] [] [] []]; try done; by vm_compute in Hc. }
  rewrite decide_False by done.
  rewrite split_on_app by (by apply digits_no_dot).
  rewrite split_on_none by (by apply digits_no_dot). cbv zeta.
  rewrite Hlen. change (Z.to_nat Precision) with 18%nat.
  change (SetString10 ((String c a +:+ b) +:+ replicate_chr 0 "0") = Some v) in Hset.
  cbv beta iota zeta delta [Nat.eqb orb String.length mbind res_bind].
  change (Precision <? Z.of_nat 18) with false.
  change (18 - 18)%nat with 0%nat. by rewrite Hset.
Qed.

Lemma NewDecFromStr_Dec_String z : NewDecFromStr (Dec_String (DecV z)) = Ok (DecV z).
Proof.
  unfold Dec_String. cbn [Dec_i].
  destruct (Z.ltb_spec z 0) as [H|H].
  - destruct (dec_point_text_split (- z) ltac:(lia)) as (a & b & -> & Ha & Hb & Hne & Hl & Hv).
    change (String "-" (a +:+ String "." b)) with ((if true then "-" else "") +:+ a +:+ String "." b).
    rewrite parse_point_text by done. rewrite Hv. do 3 f_equal. lia.
  - destruct (dec_point_text_split z ltac:(lia)) as (a & b & -> & Ha & Hb & Hne & Hl & Hv).
    change (a +:+ String "." b) with ((if false then "-" else "") +:+ a +:+ String "." b).
    rewrite parse_point_text by done. by rewrite Hv.
Qed.

(** Printing a [Dec] and parsing the text gives the same [Dec], for every
    value, negative ones included; so [String] is injective on values, and the
    text of a nil [Dec] is the one that does not parse. *)
Theorem Dec_String_roundtrip d :
  match Dec_i d with
  | Some _ => NewDecFromStr (Dec_String d) = Ok d /\ MustNewDecFromStr (Dec_String d) = Ok d
  | None => NewDecFromStr (Dec_String d) = Err "failed to set decimal string: %s"
  end.
Proof.
  destruct d as [[z|]]; cbn [Dec_i]; [|vm_compute; reflexivity].
  unfold MustNewDecFromStr. by rewrite NewDecFromStr_Dec_String.
Qed.

(** [NewDecFromStr] accepts inputs outside its documented grammar and
    range: a second sign after the stripped minus is accepted ("--5" is 5),
    so is a plus sign, and no bound is enforced, so a decimal that no
    arithmetic result could hold is returned and the next addition panics. *)
Theorem NewDecFromStr_lenient :
  NewDecFromStr "--5" = NewDecFromStr "5" /\
  NewDecFromStr "+5" = NewDecFromStr "5" /\
  (let big := String "1" (replicate_chr 100 "0") in
   exists d, NewDecFromStr big = Ok d /\ ~ Dec_wf d /\ Dec_Add d ZeroDec = Panic "Int overflow").
Proof.
  split; [reflexivity|]. split; [reflexivity|].
  exists (DecV (10 ^ 118)). split; [vm_compute; reflexivity|].
  split; [|vm_compute; reflexivity]. intros H. vm_compute in H. discriminate H.
Qed.

(** ** Rounding to integers *)

Lemma NewDecFromBigInt_some q : NewDecFromBigInt (Some q) = Ok (DecV (q * precisionReuse)).
Proof. reflexivity. Qed.

(** The least integer not below the value. *)
Definition dec_ceil (z : Z) : Z := - (- z / precisionReuse).

Lemma Dec_Ceil_val z : Dec_Ceil (DecV z) = Ok (DecV (dec_ceil z * precisionReuse)).
Proof.
  unfold Dec_Ceil, dec_ceil. cbn [Dec_i deref mbind res_bind]. rewrite !NewDecFromBigInt_some.
  assert (precisionReuse <> 0) as HP by done.
  pose proof (Z.quot_rem z precisionReuse HP) as E.
  pose proof (Z.rem_bound_abs z precisionReuse HP) as B.
  assert (forall a b : Z, a = b -> Ok (DecV (a * precisionReuse)) = Ok (DecV (b * precisionReuse)))
    as Hcong by (by intros ? ? ->).
  set (q := Z.quot z precisionReuse) in *. set (r := Z.rem z precisionReuse) in *.
  clearbody q r. rewrite precisionReuse_val in *. unfold Sign.
  cmp_case r 0; cbn [Z.eqb Pos.eqb].
  - rewrite (proj2 (Z.eqb_eq (Z.sgn r) (-1))) by lia. apply Hcong.
    rewrite <-(Z.div_unique_pos (- z) 1000000000000000000 (- q) (- r)); lia.
  - apply Hcong. rewrite <-(Z.div_unique_pos (- z) 1000000000000000000 (- q) 0); lia.
  - rewrite (proj2 (Z.eqb_neq (Z.sgn r) (-1))) by lia. apply Hcong.
    rewrite <-(Z.div_unique_pos (- z) 1000000000000000000 (- q - 1) (1000000000000000000 - r)); lia.
Qed.

(** Conversion to integers.  [Ceil] gives the least integer not below the
    value and never fails; [RoundInt] and [RoundInt64] round to the nearest
    integer with ties to even, [TruncateInt] and [TruncateInt64] drop the
    fraction, and each panics exactly when the integer does not fit its
    target (255 bits, or [int64]). *)
Theorem Dec_to_integer z :
  (exists c, Dec_Ceil (DecV z) = Ok (DecV (c * precisionReuse)) /\
     z <= c * precisionReuse < z + precisionReuse) /\
  (exists r, bankers z precisionReuse r /\
     Dec_RoundInt (DecV z) =
       (if bool_decide (int_range r) then Ok (IntV r) else Panic "NewIntFromBigInt() out of bound") /\
     Dec_RoundInt64 (DecV z) = (if big_IsInt64 r then Ok r else Panic "Int64() out of bound")) /\
  (let t := Z.quot z precisionReuse in
   Dec_TruncateInt (DecV z) =
     (if bool_decide (int_range t) then Ok (IntV t) else Panic "NewIntFromBigInt() out of bound") /\
   Dec_TruncateInt64 (DecV z) = (if big_IsInt64 t then Ok t else Panic "Int64() out of bound") /\
   Dec_TruncateDec (DecV z) = Ok (DecV (t * precisionReuse))).
Proof.
  split_and!.
  - exists (dec_ceil z). split; [apply Dec_Ceil_val|]. unfold dec_ceil.
    pose proof (Z.div_mod (- z) precisionReuse ltac:(done)) as E.
    pose proof (Z.mod_pos_bound (- z) precisionReuse ltac:(done)) as B. lia.
  - exists (chopPrecisionAndRound z). split; [apply chop_round_bankers|]. split.
    + unfold Dec_RoundInt, NewIntFromBigInt. cbn [Dec_i deref mbind res_bind]. apply overflow_if.
    + unfold Dec_RoundInt64. cbn [Dec_i deref mbind res_bind]. unfold chopPrecisionAndRoundNonMutative.
      by destruct (big_IsInt64 _).
  - split_and!.
    + unfold Dec_TruncateInt, NewIntFromBigInt. cbn [Dec_i deref mbind res_bind]. apply overflow_if.
    + unfold Dec_TruncateInt64, chopPrecisionAndTruncateNonMutative, chopPrecisionAndTruncate.
      cbn [Dec_i deref mbind res_bind]. by destruct (big_IsInt64 _).
    + done.
Qed.

(** ** Powers *)

Lemma Dec_Mul_integers a b :
  dec_range (a * b * precisionReuse) ->
  Dec_Mul (DecV (a * precisionReuse)) (DecV (b * precisionReuse)) = Ok (DecV (a * b * precisionReuse)).
Proof.
  intros H. unfold Dec_Mul. cbn [Dec_i deref mbind res_bind].
  enough (chopPrecisionAndRound (a * precisionReuse * (b * precisionReuse)) = a * b * precisionReuse)
    as -> by by apply Dec_checked_range.
  eapply (bankers_unique _ precisionReuse); [done|apply chop_round_bankers|].
  unfold bankers. rewrite precisionReuse_val.
  replace (a * 1000000000000000000 * (b * 1000000000000000000) -
    a * b * 1000000000000000000 * 1000000000000000000) with 0 by ring. lia.
Qed.

Lemma pow_dec_range b m n :
  0 <= m <= n -> dec_range (b ^ n * precisionReuse) -> dec_range (b ^ m * precisionReuse).
Proof.
  intros Hm H. destruct (Z.eq_dec b 0) as [->|Hb].
  - destruct (Z.eq_dec m 0) as [->|]; [done|]. by rewrite Z.pow_0_l by lia.
  - unfold dec_range in *. eapply Z.le_lt_trans; [|exact H].
    rewrite !Z.abs_mul, !Z.abs_pow. apply Z.mul_le_mono_nonneg_r; [lia|].
    apply Z.pow_le_mono_r; lia.
Qed.

(** The loop invariant of [Power]: the product [tmp * d^i] is the wanted
    power. *)
Lemma power_loop_integers b n i t e :
  0 <= t -> 0 < e -> t + e * Zpos i = n -> dec_range (b ^ n * precisionReuse) ->
  exists t' e', 0 <= t' /\ 0 <= e' /\ t' + e' = n /\
    power_loop i (DecV (b ^ t * precisionReuse)) (DecV (b ^ e * precisionReuse)) =
      Ok (DecV (b ^ t' * precisionReuse), DecV (b ^ e' * precisionReuse)).
Proof.
  intros Ht He Hn Hr. revert t e Ht He Hn. induction i as [i IH|i IH|]; intros t e Ht He Hn.
  - destruct (IH (t + e) (e + e)) as (t' & e' & ? & ? & ? & E); [nia..|].
    exists t', e'. split_and!; try done. cbn [power_loop].
    rewrite !Dec_Mul_integers by (rewrite <-Z.pow_add_r by lia; eapply pow_dec_range, Hr; nia).
    cbn [mbind res_bind]. rewrite <-!Z.pow_add_r by lia. exact E.
  - destruct (IH t (e + e)) as (t' & e' & ? & ? & ? & E); [nia..|].
    exists t', e'. split_and!; try done. cbn [power_loop].
    rewrite !Dec_Mul_integers by (rewrite <-Z.pow_add_r by lia; eapply pow_dec_range, Hr; nia).
    cbn [mbind res_bind]. rewrite <-!Z.pow_add_r by lia. exact E.
  - exists t, e. split_and!; [lia..|done].
Qed.

(** [Power] is exact on integers: when [b^n] fits, the square-and-multiply
    loop returns it, no intermediate product overflowing. *)
Theorem Dec_Power_integers b n :
  0 <= n -> dec_range (b ^ n * precisionReuse) ->
  Dec_Power (DecV (b * precisionReuse)) n = Ok (DecV (b ^ n * precisionReuse)).
Proof.
  intros Hn Hr. destruct n as [|p|p]; [done| |lia]. unfold Dec_Power.
  destruct (power_loop_integers b (Zpos p) p 0 1) as (t' & e' & ? & ? & Hs & E); [lia..|done|].
  rewrite Z.pow_1_r in E. change (DecV (b ^ 0 * precisionReuse)) with OneDec in E. rewrite E. cbn [mbind res_bind].
  rewrite Dec_Mul_integers; rewrite <-Z.pow_add_r by lia; rewrite Z.add_comm, Hs; done.
Qed.

Lemma Dec_Power_integers_witness :
  Dec_Power (DecV (3 * precisionReuse)) 5 = Ok (DecV (243 * precisionReuse)).
Proof. apply (Dec_Power_integers 3 5); [lia|]. vm_compute. reflexivity. Defined.

(** ** The sortable and the wire form *)

(** The key [SortableDecBytes] computes for a value in bounds. *)
Definition max_sortable : Z := 10 ^ 36.
Definition sort_key (z : Z) : string :=
  if z =? max_sortable then "max"
  else if z =? - max_sortable then "--"
  else if z <? 0 then "-" +:+ pad_zeros 37 (dec_point_text (- z))
  else pad_zeros 37 (dec_point_text z).

Lemma MaxSortableDec_val : MaxSortableDec = DecV max_sortable.
Proof. vm_compute. reflexivity. Qed.

Lemma ptr_Cmp_some x y : ptr_Cmp (Some x) (Some y) = Ok (Cmp x y).
Proof. done. Qed.

Lemma SortableDecBytes_key z :
  SortableDecBytes (DecV z) =
  if Z.abs z <=? max_sortable then Ok (sort_key z) else Panic "dec must be within bounds".
Proof.
  unfold SortableDecBytes, ValidSortableDec, Dec_Abs, Dec_LTE, Dec_Equal, Dec_Neg, Dec_IsNegative.
  rewrite MaxSortableDec_val. cbn [Dec_i deref mbind res_bind]. rewrite !ptr_Cmp_some. cbn [mbind res_bind].
  assert (0 < max_sortable) as HM by done. unfold sort_key.
  destruct (Z.leb_spec (Z.abs z) max_sortable) as [Hl|Hl].
  - assert ((Cmp (Z.abs z) max_sortable <=? 0) = true) as -> by (cmp_case (Z.abs z) max_sortable; lia).
    cbn [negb]. assert ((Cmp z max_sortable =? 0) = (z =? max_sortable)) as ->
      by (cmp_case z max_sortable; lia).
    destruct (z =? max_sortable); [done|].
    assert ((Cmp z (- max_sortable) =? 0) = (z =? - max_sortable)) as ->
      by (cmp_case z (- max_sortable); lia).
    destruct (z =? - max_sortable); [done|]. unfold Sign, Dec_String. cbn [Dec_i].
    destruct (Z.ltb_spec z 0) as [Hz|Hz].
    + rewrite (proj2 (Z.eqb_eq (Z.sgn z) (-1))) by lia.
      rewrite Z.abs_neq by lia. by rewrite (proj2 (Z.ltb_ge (- z) 0)) by lia.
    + by rewrite (proj2 (Z.eqb_neq (Z.sgn z) (-1))) by lia.
  - assert ((Cmp (Z.abs z) max_sortable <=? 0) = false) as -> by (cmp_case (Z.abs z) max_sortable; lia).
    done.
Qed.

(** A padded key is 18 digits, the point and 18 digits. *)
Lemma pad_point_text n :
  0 <= n < max_sortable -> exists a b,
    pad_zeros 37 (dec_point_text n) = a +:+ String "." b /\ str_digits a = true /\ str_digits b = true /\
    String.length a = 18%nat /\ String.length b = 18%nat /\ digits_value 0 (a +:+ b) = n.
Proof.
  intros Hn. destruct (dec_point_text_split n ltac:(lia)) as (a & b & E & Ha & Hb & Hne & Hl & Hv).
  change (Z.to_nat Precision) with 18%nat in Hl.
  assert (String.length a <= 18)%nat as Hal.
  { revert E. unfold dec_point_text. change (Z.to_nat Precision) with 18%nat.
    assert (String.length (nat_text n) <= 36)%nat by (apply nat_text_length; unfold max_sortable in *; lia).
    destruct (Nat.leb_spec (String.length (nat_text n)) 18); intros E; apply (f_equal String.length) in E;
      rewrite !str_length_app in E; cbn [String.length] in E;
      rewrite ?str_length_app, ?str_length_replicate, ?str_length_take, ?str_length_drop in E by lia; cbn [String.length] in *; try lia. }
  exists (replicate_chr (18 - String.length a) "0" +:+ a), b. split_and!; try done.
  - unfold pad_zeros. rewrite E, str_length_app. cbn [String.length]. rewrite Hl, <-str_app_assoc.
    do 2 f_equal. lia.
  - unfold str_digits in *. by rewrite str_forall_app, str_forall_replicate, Ha.
  - rewrite str_length_app, str_length_replicate. lia.
  - by rewrite <-str_app_assoc, digits_value_zeros.
Qed.

Lemma pad_compare m n :
  0 <= m < max_sortable -> 0 <= n < max_sortable ->
  String.compare (pad_zeros 37 (dec_point_text m)) (pad_zeros 37 (dec_point_text n)) = Z.compare m n.
Proof.
  intros Hm Hn.
  destruct (pad_point_text m Hm) as (a & b & -> & Ha & Hb & Hla & Hlb & Hv).
  destruct (pad_point_text n Hn) as (c & d & -> & Hc & Hd & Hlc & Hld & Hw).
  rewrite <-Hv, <-Hw, <-digits_compare.
  - rewrite !str_compare_app by congruence. by rewrite str_compare_cons, Z.compare_refl.
  - unfold str_digits in *. by rewrite str_forall_app, Ha.
  - unfold str_digits in *. by rewrite str_forall_app, Hc.
  - rewrite !str_length_app. congruence.
Qed.

Lemma pad_head n : 0 <= n < max_sortable ->
  exists c s, pad_zeros 37 (dec_point_text n) = String c s /\ 48 <= code c <= 57.
Proof.
  intros Hn. destruct (pad_point_text n Hn) as (a & b & -> & Ha & _ & Hl & _).
  destruct a as [|c a]; [done|]. exists c, (a +:+ String "." b). split; [done|].
  apply is_digit_code. unfold str_digits in Ha. cbn in Ha. by apply andb_true_iff in Ha as [??].
Qed.

Lemma sort_key_nonneg z : 0 <= z < max_sortable -> sort_key z = pad_zeros 37 (dec_point_text z).
Proof.
  intros H. unfold sort_key. rewrite (proj2 (Z.eqb_neq _ _)), (proj2 (Z.eqb_neq _ _)) by lia.
  by rewrite (proj2 (Z.ltb_ge _ _)) by lia.
Qed.

Lemma sort_key_neg z :
  - max_sortable < z < 0 -> sort_key z = String "-" (pad_zeros 37 (dec_point_text (- z))).
Proof.
  intros H. unfold sort_key. rewrite (proj2 (Z.eqb_neq _ _)), (proj2 (Z.eqb_neq _ _)) by lia.
  by rewrite (proj2 (Z.ltb_lt _ _)) by lia.
Qed.

Lemma sort_key_max : sort_key max_sortable = "max".
Proof. vm_compute. reflexivity. Qed.

Lemma sort_key_compare_nonneg x y :
  0 <= x <= max_sortable -> 0 <= y <= max_sortable ->
  String.compare (sort_key x) (sort_key y) = Z.compare x y.
Proof.
  intros Hx Hy.
  destruct (Z.eq_dec x max_sortable) as [->|Hxm], (Z.eq_dec y max_sortable) as [->|Hym].
  - by rewrite str_compare_refl, Z.compare_refl.
  - rewrite (sort_key_nonneg y) by lia. destruct (pad_head y) as (c & s & -> & Hc); [lia|].
    rewrite sort_key_max. rewrite str_compare_cons.
    change (code "m") with 109.
    rewrite (proj2 (Z.compare_gt_iff 109 (code c))), (proj2 (Z.compare_gt_iff max_sortable y)); [done|lia..].
  - rewrite (sort_key_nonneg x) by lia. destruct (pad_head x) as (c & s & -> & Hc); [lia|].
    rewrite sort_key_max. rewrite str_compare_cons.
    change (code "m") with 109.
    rewrite (proj2 (Z.compare_lt_iff (code c) 109)), (proj2 (Z.compare_lt_iff x max_sortable)); [done|lia..].
  - rewrite !sort_key_nonneg by lia. apply pad_compare; lia.
Qed.

(** Negative keys start with the minus sign, the others with a digit or "m". *)
Lemma sort_key_sign x y :
  - max_sortable <= x < 0 -> 0 <= y <= max_sortable -> slt (sort_key x) (sort_key y).
Proof.
  intros Hx Hy. unfold slt.
  assert (exists s, sort_key x = String "-" s) as [s ->].
  { destruct (Z.eq_dec x (- max_sortable)) as [->|].
    - exists "-". vm_compute. reflexivity.
    - rewrite sort_key_neg by lia. eexists. reflexivity. }
  assert (exists c t, sort_key y = String c t /\ 45 < code c) as (c & t & -> & Hc).
  { destruct (Z.eq_dec y max_sortable) as [->|].
    { exists "m"%char, "ax". split; [vm_compute; reflexivity|by vm_compute]. }
    rewrite sort_key_nonneg by lia. destruct (pad_head y) as (c & t & -> & Hc); [lia|].
    do 2 eexists. split; [done|lia]. }
  rewrite str_compare_cons. change (code "-") with 45. by rewrite (proj2 (Z.compare_lt_iff 45 (code c))).
Qed.

(** The byte keys of [SortableDecBytes] sort like the values only on
    non-negative decimals.  For non-negative values in bounds the key order is
    the numeric order, and every negative key precedes every non-negative one;
    between two negative values (other than the minimum, "--") the order of
    the keys is the reverse of the order of the values. *)
Theorem SortableDecBytes_order x y :
  Z.abs x <= max_sortable -> Z.abs y <= max_sortable ->
  exists kx ky, SortableDecBytes (DecV x) = Ok kx /\ SortableDecBytes (DecV y) = Ok ky /\
    (0 <= x -> 0 <= y -> String.compare kx ky = Z.compare x y) /\
    (x < 0 -> 0 <= y -> slt kx ky) /\
    (- max_sortable < x < 0 -> - max_sortable < y < 0 -> String.compare kx ky = Z.compare y x).
Proof.
  intros Hx Hy. exists (sort_key x), (sort_key y).
  rewrite !SortableDecBytes_key, !(proj2 (Z.leb_le _ _)) by done. split_and!; try done.
  - intros. apply sort_key_compare_nonneg; lia.
  - intros. apply sort_key_sign; lia.
  - intros. rewrite !sort_key_neg, str_compare_cons, Z.compare_refl, pad_compare by lia.
    by rewrite Z.compare_opp.
Qed.

Lemma SortableDecBytes_order_witness :
  exists kx ky, SortableDecBytes (DecV (-2)) = Ok kx /\ SortableDecBytes (DecV (-1)) = Ok ky /\
    String.compare kx ky = Gt.
Proof.
  destruct (SortableDecBytes_order (-2) (-1)) as (kx & ky & Ex & Ey & _ & _ & H);
    [by vm_compute|by vm_compute|].
  exists kx, ky. split; [exact Ex|]. split; [exact Ey|]. apply H; split; by vm_compute.
Defined.

Lemma Dec_Unmarshal_Marshal d z :
  Dec_Unmarshal d (Dec_Marshal (DecV z)) =
  if bool_decide (int_range z) then Ok (DecV z) else Err "decimal out of range; got: %d, max: %d".
Proof.
  change (Dec_Marshal (DecV z)) with (Int_Marshal (IntV z)). unfold Dec_Unmarshal.
  destruct (Int_Marshal_ne z) as (b & l & E). rewrite E, <-E.
  rewrite Int_Marshal_text, UnmarshalText_big_text. apply overflow_if.
Qed.

(** The proto encoding of a [Dec] is its scaled integer in decimal text.
    It decodes to itself when the scaled integer fits 255 bits; but the
    arithmetic allows 315 bits, and every value beyond 255 bits encodes to
    bytes that the decoder rejects. *)
Theorem Dec_wire_roundtrip d z :
  Dec_Unmarshal d (Dec_Marshal (DecV z)) =
  if bool_decide (int_range z) then Ok (DecV z) else Err "decimal out of range; got: %d, max: %d".
Proof. apply Dec_Unmarshal_Marshal. Qed.
