(* ===== verification/Roots.v ===== *)
(** [ApproxSqrt] of [types/dec.go]: Newton's loop ends by its condition, at the root. *)
From S2P Require Import Prelude GoStrings BigText SdkInt SdkDec.

(* ------------------------------------------------------------------ *)
(** * One step, on integers

    For the decimal [x / P], with [P] the precision, the loop looks for the
    square root [s] of [n = x * P].  It holds a guess [g], divides with the
    rounding error that [quo_round_error] bounds, and moves by half of the
    difference, truncated. *)
Section Step.
Variables (n s g q : Z).
Hypothesis Hs : s * s <= n <= s * s + 2 * s.
Hypothesis Hbig : 1000 <= s.
Hypothesis Hg : 0 < g.
Hypothesis Hq : 2 * precisionReuse * Z.abs (q * g - n) < (precisionReuse + 2) * g.

Let d : Z := Z.quot (q - g) 2.

Lemma half_error : - 1 <= 2 * d - (q - g) <= 1.
Proof using Type. clear. unfold d. pose proof (Z.quot_rem (q - g) 2 ltac:(done)). pose proof (Z.rem_bound_abs (q - g) 2 ltac:(done)). lia. Qed.

(** The error of the division, in tenths. *)
Lemma quo_tenths : - 6 * g < 10 * (q * g - n) < 6 * g.
Proof using Hq. clear - Hq. rewrite precisionReuse_val in Hq. lia. Qed.

Lemma step_eq : 10 * (g * g + n) - 16 * g < 20 * (g * (g + d)) < 10 * (g * g + n) + 16 * g.
Proof using All.
  pose proof half_error as Hr. pose proof quo_tenths as Ht. set (r := 2 * d - (q - g)) in *.
  assert (20 * (g * (g + d)) = 10 * (g * g) + 10 * (q * g) + 10 * (g * r)) as -> by (unfold r; ring).
  assert (- g <= g * r <= g) by nia. lia.
Qed.

Lemma step_lower : s <= g + d.
Proof using All.
  pose proof step_eq. destruct (Z.le_gt_cases s (g + d)) as [|Hlt]; [done|].
  assert (g * (g + d) <= g * (s - 1)) by nia. pose proof (Z.square_nonneg (g - s)). nia.
Qed.

Lemma step_excess : 20 * (g * (g + d - s)) < 10 * ((g - s) * (g - s)) + 20 * s + 16 * g.
Proof. pose proof step_eq. nia. Qed.

Lemma step_upper : s <= g -> 2 * (g + d - s) < (g - s) + 4.
Proof using All.
  intros Hsg. pose proof step_excess. destruct (Z.lt_ge_cases (2 * (g + d - s)) ((g - s) + 4)) as [|Hge]; [done|].
  assert ((g - s) * (g - s) <= g * (g - s)) by nia. assert (g * ((g - s) + 4) <= g * (2 * (g + d - s))) by nia. nia.
Qed.

Lemma step_close : s <= g <= s + 4 -> g + d <= s + 2.
Proof using All.
  intros Hsg. pose proof step_excess. destruct (Z.le_gt_cases (g + d) (s + 2)) as [|Hgt]; [done|].
  assert (g * 3 <= g * (g + d - s)) by nia. assert ((g - s) * (g - s) <= 16) by nia. lia.
Qed.

(** Near the root the step is small, or goes to the root. *)
Lemma step_near : s <= g <= s + 2 -> (Z.abs d <= 1 /\ s <= g + d <= s + 1) \/ g + d = s.
Proof using All.
  intros Hsg. pose proof half_error. pose proof quo_tenths.
  assert (g = s \/ g = s + 1 \/ g = s + 2) as [E|[E|E]] by lia.
  - left. assert (0 <= q - g <= 2) by nia. unfold d in *. split; [|lia]. lia.
  - left. assert (- 2 <= q - g <= 0) by nia. lia.
  - assert (- 4 <= q - g <= - 2) by nia. lia.
Qed.

(** Where the loop stops. *)
Lemma step_stops : Z.abs d <= 1 -> s <= g + d <= s + 1.
Proof using All.
  intros Hd. pose proof half_error. pose proof quo_tenths. pose proof step_lower. split; [done|].
  destruct (Z.le_gt_cases g (s - 1)); [lia|].
  assert (g <= s + 2) by nia.
  assert (g = s \/ g = s + 1 \/ g = s + 2) as [E|[E|E]] by lia.
  - lia.
  - assert (- 2 <= q - g <= 0) by nia. lia.
  - assert (- 4 <= q - g <= - 2) by nia. lia.
Qed.
End Step.

(* ------------------------------------------------------------------ *)
(** * The loop *)

(** The loop without its limit: from a guess and a step, [n] iterations with the
    condition true lead to a state where the condition is false. *)
Inductive reaches (d : Dec) (root : Z) : nat -> Dec -> Dec -> Dec -> Prop :=
| reaches_exit g dl : approx_continue dl = Ok false -> reaches d root 0 g dl g
| reaches_step n g dl g1 dl1 r : approx_continue dl = Ok true -> approx_step d root g dl = Ok (g1, dl1) ->
    reaches d root n g1 dl1 r -> reaches d root (S n) g dl r.

(** The limit does not matter if it is not below that number. *)
Lemma reaches_loop d root n g dl r k : reaches d root n g dl r -> (n <= k)%nat -> approx_loop d root k g dl = (r, None).
Proof.
  intros Hr. revert k. induction Hr as [g dl E|n g dl g1 dl1 r E Es _ IH]; intros k Hk.
  - destruct k; cbn [approx_loop]; by rewrite E.
  - destruct k as [|k]; [lia|]. cbn [approx_loop]. rewrite E, Es. apply IH. lia.
Qed.

Lemma chop_round_precision g : chopPrecisionAndRound (g * precisionInt) = g.
Proof. apply chop_round_multiple. Qed.

Lemma dec_range_small z : Z.abs z < 2 ^ 200 -> dec_range z.
Proof. intros H. unfold dec_range. eapply Z.lt_trans; [exact H|]. by apply Z.pow_lt_mono_r. Qed.

(** One iteration on small numbers. *)
Lemma approx_step_sqrt x g dl : 0 <= x < 2 ^ 96 -> 0 < g < 2 ^ 97 ->
  exists q, 2 * precisionReuse * Z.abs (q * g - x * precisionReuse) < (precisionReuse + 2) * g /\
    approx_step (DecV x) 2 (DecV g) dl = Ok (DecV (g + Z.quot (q - g) 2), DecV (Z.quot (q - g) 2)).
Proof.
  intros Hx Hg. unfold approx_step, Dec_Power. change (2 - 1) with (Zpos 1). cbn [power_loop mbind res_bind].
  unfold Dec_Mul, OneDec. cbn [Dec_i deref mbind res_bind]. rewrite chop_round_precision.
  rewrite Dec_checked_range by (apply dec_range_small; lia). cbn [mbind res_bind].
  unfold Dec_IsZero. cbn [Dec_i deref mbind res_bind].
  assert (Sign g =? 0 = false) as -> by (apply Z.eqb_neq; unfold Prelude.Sign; lia).
  unfold Dec_Quo, Dec_quo_with, big_Quo. cbn [Dec_i deref mbind res_bind].
  rewrite (proj2 (Z.eqb_neq g 0)) by lia. cbn [mbind res_bind].
  set (q := chopPrecisionAndRound (Z.quot (x * precisionReuse * precisionReuse) g)).
  assert (2 * precisionReuse * Z.abs (q * g - x * precisionReuse) < (precisionReuse + 2) * g) as Hq.
  { pose proof (quo_round_error x g _ q ltac:(lia) eq_refl (chop_round_bankers _)) as E. rewrite (Z.abs_eq g) in E by lia. exact E. }
  exists q. split; [exact Hq|]. clearbody q.
  assert (Z.abs q < 2 ^ 160) as Hb.
  { rewrite precisionReuse_val in Hq. assert (Z.abs (q * g) < 2 ^ 160) as Hqg.
    { assert (x * 1000000000000000000 < 2 ^ 96 * 2 ^ 60) by nia.
      assert ((1000000000000000000 + 2) * g < 2 ^ 61 * 2 ^ 97) by nia. change (2 ^ 96 * 2 ^ 60) with (2 ^ 156) in *.
      change (2 ^ 61 * 2 ^ 97) with (2 ^ 158) in *. lia. }
    rewrite Z.abs_mul in Hqg. nia. }
  rewrite Dec_checked_range by (apply dec_range_small; lia). cbn [mbind res_bind].
  unfold Dec_Sub. cbn [Dec_i deref mbind res_bind]. rewrite Dec_checked_range by (apply dec_range_small; lia). cbn [mbind res_bind].
  unfold Dec_QuoInt. cbn. assert (Z.abs (Z.quot (q - g) 2) <= Z.abs (q - g)) as Hh.
  { pose proof (Z.quot_rem (q - g) 2 ltac:(done)). pose proof (Z.rem_bound_abs (q - g) 2 ltac:(done)). lia. }
  unfold Dec_Add. cbn [Dec_i deref mbind res_bind]. rewrite Dec_checked_range by (apply dec_range_small; lia). done.
Qed.

Lemma approx_continue_val d : approx_continue (DecV d) = Ok (1 <? Z.abs d).
Proof.
  unfold approx_continue, Dec_Abs, Dec_GT, SmallestDec. cbn [Dec_i deref mbind res_bind]. rewrite ptr_Cmp_some. cbn [mbind res_bind].
  f_equal. unfold Cmp. destruct (Z.compare_spec (Z.abs d) 1), (Z.ltb_spec 1 (Z.abs d)); try done; lia.
Qed.

Section Loop.
Variables x s : Z.
Hypothesis Hx : 1 <= x < 2 ^ 96.
Hypothesis Hs : s * s <= x * precisionReuse <= s * s + 2 * s.
Hypothesis Hbig : 1000 <= s.

(** The root is reached within [k] iterations. *)
Definition found (k : nat) (g dl : Z) : Prop :=
  exists n r, (n <= k)%nat /\ reaches (DecV x) 2 n (DecV g) (DecV dl) (DecV r) /\ s <= r <= s + 1.

Lemma found_exit k g dl : Z.abs dl <= 1 -> s <= g <= s + 1 -> found k g dl.
Proof using Type.
  intros Hd Hg. exists 0%nat, g. split; [lia|]. split; [|done]. constructor. rewrite approx_continue_val. by rewrite (proj2 (Z.ltb_ge _ _)).
Qed.
Lemma found_step k g dl g1 dl1 : 1 < Z.abs dl -> approx_step (DecV x) 2 (DecV g) (DecV dl) = Ok (DecV g1, DecV dl1) ->
  found k g1 dl1 -> found (S k) g dl.
Proof using Type.
  intros Hd E (n & r & Hn & Hr & Hs'). exists (S n), r. split; [lia|]. split; [|done].
  eapply reaches_step; [|exact E|exact Hr]. rewrite approx_continue_val. by rewrite (proj2 (Z.ltb_lt _ _)).
Qed.

(** An iteration either ends at the root, or goes on with a guess that is not
    below it. *)
Lemma loop_step k g dl : 0 < g < 2 ^ 97 -> 1 < Z.abs dl ->
  found (S k) g dl \/
  exists g' dl', (found k g' dl' -> found (S k) g dl) /\
    1 < Z.abs dl' /\ s <= g' /\ (g = precisionReuse -> 2 * g' <= g + x + 3) /\ (s <= g -> 2 * (g' - s) < (g - s) + 4) /\
    (s <= g <= s + 4 -> g' <= s + 2) /\ (s <= g <= s + 2 -> g' = s).
Proof.
  intros Hg Hdl. destruct (approx_step_sqrt x g (DecV dl) ltac:(lia) Hg) as (q & Hq & E). destruct Hg as [Hg _].
  set (g' := g + Z.quot (q - g) 2) in E. set (d := Z.quot (q - g) 2) in *.
  destruct (Z.le_gt_cases (Z.abs d) 1) as [Hd|Hd].
  - left. eapply found_step; [done|exact E|]. apply found_exit; [done|by apply (step_stops (x * precisionReuse) s g q)].
  - right. exists g', d. split; [by apply found_step|]. split; [done|].
    split; [by apply (step_lower (x * precisionReuse) s g q)|].
    split; [|split; [by apply (step_upper (x * precisionReuse) s g q)|
      split; [by apply (step_close (x * precisionReuse) s g q)|]]].
    + intros ->. pose proof (half_error precisionReuse q). pose proof (quo_tenths (x * precisionReuse) precisionReuse q Hq) as Ht.
      assert (q <= x) by (rewrite precisionReuse_val in Ht; lia). unfold g'. lia.
    + intros Hsg. destruct (step_near (x * precisionReuse) s g q Hs Hbig Hg Hq Hsg) as [[Hd1 _]|Hn]; [|done]. fold d in Hd1. lia.
Qed.

Lemma loop_at k dl : 1 < Z.abs dl -> s < 2 ^ 97 -> found (S k) s dl.
Proof.
  intros Hdl Hs'. destruct (approx_step_sqrt x s (DecV dl) ltac:(lia) ltac:(lia)) as (q & Hq & E).
  assert (0 < s) as H0 by lia.
  assert (Z.abs (Z.quot (q - s) 2) <= 1) as Hd.
  { pose proof (half_error s q). pose proof (quo_tenths (x * precisionReuse) s q Hq). assert (0 <= q - s <= 2) by nia. lia. }
  eapply found_step; [done|exact E|]. apply found_exit; [done|by apply (step_stops (x * precisionReuse) s s q)].
Qed.

(** The excess halves, up to three units. *)
Lemma loop_above k g dl : 1 < Z.abs dl -> s <= g <= s + 2 ^ Z.of_nat k + 3 -> s + 2 ^ Z.of_nat k + 3 < 2 ^ 97 ->
  found (k + 3) g dl.
Proof.
  intros Hdl. revert g dl Hdl. induction k as [|k IH]; intros g dl Hdl Hg Hb.
  - change (0 + 3)%nat with 3%nat. change (2 ^ Z.of_nat 0) with 1 in *.
    destruct (loop_step 2 g dl ltac:(lia) Hdl) as [|(g1 & d1 & Hgo & Hd1 & Hl1 & _ & _ & Hc1 & _)]; [done|].
    apply Hgo. specialize (Hc1 ltac:(lia)).
    destruct (loop_step 1 g1 d1 ltac:(lia) Hd1) as [|(g2 & d2 & Hgo2 & Hd2 & _ & _ & _ & _ & Hn)]; [done|].
    apply Hgo2. rewrite (Hn ltac:(lia)). apply loop_at; [done|lia].
  - change (S k + 3)%nat with (S (k + 3)). rewrite Nat2Z.inj_succ, Z.pow_succ_r in * by lia.
    pose proof (Z.pow_pos_nonneg 2 (Z.of_nat k)).
    destruct (loop_step (k + 3) g dl ltac:(lia) Hdl) as [|(g1 & d1 & Hgo & Hd1 & Hl1 & _ & Hu & _ & _)]; [done|].
    apply Hgo. specialize (Hu ltac:(lia)). apply IH; [done|lia|lia].
Qed.

(** The run from the first guess, the number one. *)
Lemma loop_from_one : x < 2 ^ 95 -> s < 2 ^ 80 -> found maxApproxRootIterations precisionReuse precisionReuse.
Proof.
  intros Hx' Hs'. change maxApproxRootIterations with (S (96 + 3)).
  assert (0 < precisionReuse < 2 ^ 97) as HP by by split.
  assert (1 < Z.abs precisionReuse) as H1 by done.
  destruct (loop_step (96 + 3) precisionReuse precisionReuse HP H1) as [|(g & d & Hgo & Hd & Hl & Hf & _)]; [done|].
  apply Hgo. specialize (Hf eq_refl). pose proof (loop_above 96 g d Hd) as La. change (2 ^ Z.of_nat 96) with (2 ^ 96) in La.
  rewrite precisionReuse_val in Hf. apply La; lia.
Qed.
End Loop.

(* ------------------------------------------------------------------ *)
(** * Properties *)

Lemma sqrt_bounds y : 1 <= y < 2 ^ 95 ->
  let s := Z.sqrt (y * precisionReuse) in
  s * s <= y * precisionReuse <= s * s + 2 * s /\ 1000 <= s /\ s < 2 ^ 80.
Proof.
  intros Hy. cbn zeta. rewrite precisionReuse_val. set (s := Z.sqrt _).
  pose proof (Z.sqrt_spec (y * 1000000000000000000) ltac:(lia)) as Hq. fold s in Hq.
  pose proof (Z.sqrt_nonneg (y * 1000000000000000000)) as H0. fold s in H0. cbn zeta in Hq. clearbody s.
  split; [nia|]. split.
  - destruct (Z.le_gt_cases 1000 s); [done|]. nia.
  - destruct (Z.lt_ge_cases s (2 ^ 80)) as [|Hge]; [done|]. assert (2 ^ 80 * 2 ^ 80 <= s * s) by nia.
    change (2 ^ 80 * 2 ^ 80) with (2 ^ 100 * 2 ^ 60) in *. nia.
Qed.

(** The root of a non-negative decimal: nothing to do for zero and one, and for
    the others the loop ends by its condition. *)
Definition ends_by_condition (y g : Z) : Prop :=
  exists n, (n <= maxApproxRootIterations)%nat /\ reaches (DecV y) 2 n OneDec OneDec (DecV g) /\
    forall k, (n <= k)%nat -> approx_loop (DecV y) 2 k OneDec OneDec = (DecV g, None).
Lemma root_nonneg_exact y : 0 <= y < 2 ^ 95 -> exists g, approx_root_nonneg (DecV y) 2 = (DecV g, None) /\
  Z.sqrt (y * precisionReuse) <= g <= Z.sqrt (y * precisionReuse) + 1 /\ (y = 0 -> g = 0) /\
  (y <> 0 -> y <> precisionReuse -> ends_by_condition y g).
Proof.
  intros Hy. unfold approx_root_nonneg, Dec_IsZero, Dec_Equal, OneDec. cbn [Dec_i deref mbind res_bind].
  rewrite ptr_Cmp_some. cbn [mbind res_bind].
  destruct (Z.eq_dec y 0) as [->|H0]; [exists 0; split_and!; done|].
  destruct (Z.eq_dec y precisionReuse) as [->|H1].
  { exists precisionReuse. rewrite Z.sqrt_square by done. split_and!; [done|lia|lia|done..]. }
  replace (Cmp y precisionInt =? 0) with false by (symmetry; apply Z.eqb_neq; unfold Cmp; change precisionInt with precisionReuse;
    destruct (Z.compare_spec y precisionReuse); lia).
  replace (Sign y =? 0) with false by (symmetry; apply Z.eqb_neq; unfold Prelude.Sign; lia). cbn [orb Z.eqb].
  destruct (sqrt_bounds y ltac:(lia)) as (Hq & Hbig & Hs). set (s := Z.sqrt (y * precisionReuse)) in *.
  destruct (loop_from_one y s ltac:(lia) Hq Hbig ltac:(lia) Hs) as (n & g & Hn & Hr & Hg). exists g. clearbody s.
  split; [cbn [Pos.eqb]; by apply (reaches_loop _ _ n)|]. split; [exact Hg|]. split; [intros Hy0; lia|].
  intros _ _. exists n. split; [done|]. split; [exact Hr|]. intros k Hk. by apply (reaches_loop _ _ n).
Qed.

(** C38: The square root ends by its condition and is exact to the last place.
    For a decimal [d] with [|d| < 2^95 * 10^-18] (about [3.9 * 10^10]),
    [ApproxSqrt] returns, without an error, the square root of [|d|] rounded down
    to 18 places or the next value, with the sign of [d].  Unless [|d|] is zero or
    one, for which there is no loop, Newton's loop reaches a state where its
    condition is false after at most the limit of 100 iterations, with no overflow
    and no division by zero on the way; the result is the guess in that state, and
    a larger limit does not change it. *)
Theorem ApproxSqrt_exact x : Z.abs x < 2 ^ 95 ->
  exists g, Dec_ApproxSqrt (DecV x) = (DecV (Z.sgn x * g), None) /\
    Z.sqrt (Z.abs x * precisionReuse) <= g <= Z.sqrt (Z.abs x * precisionReuse) + 1 /\
    (x <> 0 -> Z.abs x <> precisionReuse ->
     exists n, (n <= maxApproxRootIterations)%nat /\ reaches (DecV (Z.abs x)) 2 n OneDec OneDec (DecV g) /\
       forall k, (n <= k)%nat -> approx_loop (DecV (Z.abs x)) 2 k OneDec OneDec = (DecV g, None)).
Proof.
  intros Hx. destruct (root_nonneg_exact (Z.abs x) ltac:(lia)) as (g & E & Hg & Hz & Hend). exists g.
  split; [|split; [done|intros H0 H1; apply Hend; lia]]. revert E.
  unfold Dec_ApproxSqrt, Dec_ApproxRoot, Dec_IsNegative. cbn [Dec_i deref mbind res_bind].
  destruct (Z.lt_ge_cases x 0) as [Hneg|Hnn].
  - replace (Sign x =? -1) with true by (symmetry; apply Z.eqb_eq; unfold Prelude.Sign; lia).
    unfold Dec_MulInt64 at 1. cbn [Dec_i deref mbind res_bind]. rewrite Dec_checked_range by (apply dec_range_small; lia).
    replace (x * -1) with (Z.abs x) by lia. intros ->.
    unfold Dec_MulInt64. cbn [Dec_i deref mbind res_bind].
    destruct (sqrt_bounds (Z.abs x) ltac:(lia)) as (_ & _ & Hs). pose proof (Z.sqrt_nonneg (Z.abs x * precisionReuse)).
    rewrite Dec_checked_range by (apply dec_range_small; lia). rewrite Z.sgn_neg by done. do 3 f_equal. lia.
  - replace (Sign x =? -1) with false by (symmetry; apply Z.eqb_neq; unfold Prelude.Sign; lia).
    rewrite Z.abs_eq in * by done. intros ->. do 2 f_equal.
    destruct (Z.eq_dec x 0) as [->|]; [by rewrite Hz|]. rewrite Z.sgn_pos by lia. f_equal. lia.
Qed.

(** Above the limit the loop gives up silently: for [2^240] the 100 iterations
    only halve the guess, and [ApproxSqrt] returns more than [2^18] times the
    root [2^120], without an error. *)
Theorem ApproxSqrt_gives_up :
  match Dec_ApproxSqrt (DecV (2 ^ 240 * precisionReuse)) with
  | (MkDec (Some g), None) => 2 ^ 18 * (2 ^ 120 * precisionReuse) <? g
  | _ => false
  end = true.
Proof. vm_compute. reflexivity. Qed.

Lemma ApproxSqrt_exact_witness : exists g n, Dec_ApproxSqrt (DecV (2 * precisionReuse)) = (DecV g, None) /\
  1414213562373095048 <= g <= 1414213562373095049 /\ reaches (DecV (2 * precisionReuse)) 2 n OneDec OneDec (DecV g).
Proof.
  destruct (ApproxSqrt_exact (2 * precisionReuse)) as (g & E & Hg & Hend); [reflexivity|].
  destruct Hend as (n & _ & Hr & _); [discriminate..|]. exists g, n. split; [|split].
  - rewrite E. change (Z.sgn (2 * precisionReuse)) with 1. destruct g; reflexivity.
  - exact Hg.
  - exact Hr.
Defined.
