(* ===== verification/CoinSet.v ===== *)
(** The algorithms on coin lists that [types/coin.go] (amounts of type [Int])
    and [types/dec_coin.go] (amounts of type [Dec]) both contain, written once
    over an interface of amounts.

    A Go slice shares its backing array with the slices it was cut from, and
    [removeZeroCoins], [Sort] and [append] write to it.  The operations
    therefore return, next to their result, the contents they leave in the
    arrays of their arguments. *)
From S2P Require Import Prelude GoStrings.
From Stdlib Require Import Ascii.

Record coin (A : Type) := MkCoin { Denom : string; Amount : A }.
Arguments MkCoin {_} _ _.
Arguments Denom {_} _.
Arguments Amount {_} _.

#[global] Instance coin_eq_dec {A} `{EqDecision A} : EqDecision (coin A).
Proof. solve_decision. Defined.

(* ------------------------------------------------------------------ *)
(** * The interface of amounts *)

(** The operations of [Int] and [Dec] that coin lists use. *)
Class AmountOps (A : Type) := {
  am_IsZero : A -> res bool;
  am_IsNegative : A -> res bool;
  am_IsPositive : A -> res bool;
  am_Equal : A -> A -> res bool;
  am_Add : A -> A -> res A;
  am_Zero : A;
  am_String : A -> string;
}.

(** What they promise: an amount is a possibly nil pointer to an integer, the
    tests are those of the integer, and addition is exact below [2^am_bits]
    and panics above. *)
Class AmountLaws (A : Type) `{AmountOps A} := {
  am_mk : option Z -> A;
  am_ptr : A -> option Z;
  am_bits : Z;
  am_mk_ptr a : am_mk (am_ptr a) = a;
  am_ptr_mk p : am_ptr (am_mk p) = p;
  am_Zero_mk : am_Zero = am_mk (Some 0);
  am_IsZero_mk p : am_IsZero (am_mk p) = (z ← deref p; Ok (z =? 0));
  am_IsNegative_mk p : am_IsNegative (am_mk p) = (z ← deref p; Ok (z <? 0));
  am_IsPositive_mk p : am_IsPositive (am_mk p) = (z ← deref p; Ok (0 <? z));
  am_Equal_mk x y : am_Equal (am_mk (Some x)) (am_mk (Some y)) = Ok (x =? y);
  am_Add_mk x y :
    am_Add (am_mk (Some x)) (am_mk (Some y)) =
    if bool_decide (Z.abs (x + y) < 2 ^ am_bits)
    then Ok (am_mk (Some (x + y))) else Panic "Int overflow";
}.

(* ------------------------------------------------------------------ *)
(** * Denominations *)

(** [reDnmString]: a letter followed by 2 to 127 characters of
    [[a-zA-Z0-9/:-]]. *)
Definition is_denom_char (c : ascii) : bool :=
  is_alpha c || is_digit c || bool_decide (c = "/"%char) || bool_decide (c = ":"%char)
  || bool_decide (c = "-"%char).

Definition is_denom (s : string) : bool :=
  match s with
  | EmptyString => false
  | String c t =>
      is_alpha c && (2 <=? String.length t)%nat && (String.length t <=? 127)%nat
      && str_forall is_denom_char t
  end.

(** [ValidateDenom], [mustValidateDenom] *)
Definition ValidateDenom (denom : string) : res unit := check (is_denom denom) "invalid denom: %s".
Definition mustValidateDenom (denom : string) : res unit :=
  match ValidateDenom denom with Err e => Panic e | r => r end.

(* ------------------------------------------------------------------ *)
(** * Operations *)

Section Operations.
Context {A : Type} `{AmountOps A}.

Definition c_IsZero (c : coin A) : res bool := am_IsZero (Amount c).
Definition c_IsNegative (c : coin A) : res bool := am_IsNegative (Amount c).
Definition c_IsPositive (c : coin A) : res bool := am_IsPositive (Amount c).
Definition c_String (c : coin A) : string := am_String (Amount c) +:+ Denom c.

(** [Add] on two coins; [msg] is the panic message for different names. *)
Definition c_Add (msg : string) (c d : coin A) : res (coin A) :=
  if decide (Denom c = Denom d) then m ← am_Add (Amount c) (Amount d); Ok (MkCoin (Denom c) m)
  else Panic msg.

(** [append(s[:i], s[i+1:]...)] on a slice of length [l] of the array [arr]:
    the array afterwards. *)
Definition slice_remove {B} (arr : list B) (i l : nat) : list B :=
  take i arr ++ take (l - S i) (drop (S i) arr) ++ drop (l - 1) arr.

(** [removeZeroCoins], [removeZeroDecCoins]: the loop, on the backing array;
    [fuel] is the number of coins left to look at. *)
Fixpoint removeZero_loop (fuel : nat) (arr : list (coin A)) (i l : nat) : res (list (coin A) * nat) :=
  match fuel with
  | O => Ok (arr, i)
  | S fuel =>
      if (i <? l)%nat then
        match arr !! i with
        | None => Panic "index out of range"
        | Some c =>
            z ← c_IsZero c;
            if z : bool then removeZero_loop fuel (slice_remove arr i l) i (l - 1)
            else removeZero_loop fuel arr (S i) l
        end
      else Ok (arr, i)
  end.

(** The returned slice and the backing array afterwards. *)
Definition removeZero (coins : list (coin A)) : res (list (coin A) * list (coin A)) :=
  '(arr, i) ← removeZero_loop (length coins) coins 0 (length coins);
  Ok (take i arr, arr).

(** [sort.Sort] by denomination.  It is the insertion sort [sort.Sort] runs
    on short slices; a list with distinct denominations has only one sorted
    permutation, so the algorithm does not matter for it. *)
Fixpoint insert_coin (c : coin A) (l : list (coin A)) : list (coin A) :=
  match l with
  | [] => [c]
  | d :: l => if sltb (Denom c) (Denom d) then c :: d :: l else d :: insert_coin c l
  end.
Definition Sort (coins : list (coin A)) : list (coin A) :=
  foldl (fun sorted c => insert_coin c sorted) [] coins.

(** [findDup]: the index of the first coin equal in name to the previous one,
    or [-1]. *)
Fixpoint findDup_loop (prev : string) (i : Z) (coins : list (coin A)) : Z :=
  match coins with
  | [] => -1
  | c :: coins => if decide (Denom c = prev) then i else findDup_loop (Denom c) (i + 1) coins
  end.
Definition findDup (coins : list (coin A)) : Z :=
  match coins with
  | [] | [_] => -1
  | c :: rest => findDup_loop (Denom c) 1 rest
  end.

(** [IsValid] *)
Fixpoint IsValid_loop (lowDenom : string) (coins : list (coin A)) : res bool :=
  match coins with
  | [] => Ok true
  | c :: coins =>
      if negb (bool_decide (ToLower (Denom c) = Denom c)) then Ok false
      else if sleb (Denom c) lowDenom then Ok false
      else
        p ← c_IsPositive c;
        if negb p then Ok false else IsValid_loop (Denom c) coins
  end.
Definition IsValid (coins : list (coin A)) : res bool :=
  match coins with
  | [] => Ok true
  | c :: rest =>
      first ← (if is_denom (Denom c) then c_IsPositive c else Ok false);
      match rest with
      | [] => Ok first
      | _ => if negb first then Ok false else IsValid_loop (Denom c) rest
      end
  end.

(** [NewCoins], [NewDecCoins]: the result and the array of the arguments
    afterwards. *)
Definition new_coins (coins : list (coin A)) : res (list (coin A) * list (coin A)) :=
  '(newCoins, arr) ← removeZero coins;
  match newCoins with
  | [] => Ok ([], arr)
  | _ =>
      let sorted := Sort newCoins in
      if negb (findDup sorted =? -1) then Panic "find duplicate denom: %s"
      else
        v ← IsValid sorted;
        if negb v then Panic "invalid coin set: %s"
        else Ok (sorted, sorted ++ drop (length sorted) arr)
  end.

(** [IsAnyNegative], [IsZero], [IsAllPositive], [Empty]: loops with an early
    return. *)
Fixpoint IsAnyNegative (coins : list (coin A)) : res bool :=
  match coins with
  | [] => Ok false
  | c :: coins => n ← c_IsNegative c; if n : bool then Ok true else IsAnyNegative coins
  end.
Fixpoint IsZero (coins : list (coin A)) : res bool :=
  match coins with
  | [] => Ok true
  | c :: coins => z ← c_IsZero c; if negb z then Ok false else IsZero coins
  end.
Fixpoint allPositive_loop (coins : list (coin A)) : res bool :=
  match coins with
  | [] => Ok true
  | c :: coins => p ← c_IsPositive c; if negb p then Ok false else allPositive_loop coins
  end.
Definition IsAllPositive (coins : list (coin A)) : res bool :=
  match coins with [] => Ok false | _ => allPositive_loop coins end.
Definition Empty (coins : list (coin A)) : bool := match coins with [] => true | _ => false end.

(** [AmountOf]: binary search; each recursive call is on a shorter slice. *)
Fixpoint amount_of (fuel : nat) (coins : list (coin A)) (denom : string) : res A :=
  match fuel with
  | O => Panic "out of fuel"
  | S fuel =>
      _ ← mustValidateDenom denom;
      match coins with
      | [] => Ok am_Zero
      | [c] => if decide (Denom c = denom) then Ok (Amount c) else Ok am_Zero
      | _ =>
          let midIdx := (length coins / 2)%nat in
          match coins !! midIdx with
          | None => Panic "index out of range"
          | Some c =>
              if sltb denom (Denom c) then amount_of fuel (take midIdx coins) denom
              else if decide (denom = Denom c) then Ok (Amount c)
              else amount_of fuel (drop (S midIdx) coins) denom
          end
      end
  end.
Definition AmountOf (coins : list (coin A)) (denom : string) : res A :=
  amount_of (S (length coins)) coins denom.

(** [String] on a list: every coin is followed by a comma, the last comma is
    cut off. *)
Definition coins_text (coins : list (coin A)) : string :=
  match coins with
  | [] => ""
  | _ =>
      let out := foldl (fun out c => out +:+ c_String c +:+ ",") "" coins in
      str_take (String.length out - 1) out
  end.

(** [IsEqual] on one coin and on lists.  Both lists are sorted in place, but
    only when their lengths agree. *)
Definition coin_eq (c d : coin A) : res bool :=
  if decide (Denom c = Denom d) then am_Equal (Amount c) (Amount d)
  else Panic "invalid coin denominations; %s, %s".
Fixpoint coins_eq_loop (coins coinsB : list (coin A)) : res bool :=
  match coins, coinsB with
  | [], _ => Ok true
  | c :: coins, d :: coinsB => e ← coin_eq c d; if negb e then Ok false else coins_eq_loop coins coinsB
  | _ :: _, [] => Panic "index out of range"
  end.
Definition coins_eq (coins coinsB : list (coin A)) : list (coin A) * list (coin A) * res bool :=
  if negb (Nat.eqb (length coins) (length coinsB)) then (coins, coinsB, Ok false)
  else (Sort coins, Sort coinsB, coins_eq_loop (Sort coins) (Sort coinsB)).

(** [safeAdd]: merge of two lists, [pa] and [pb] being the parts already
    consumed.  The result is the sum and the arrays of both arguments
    afterwards: the zero coins of the list that is not exhausted are removed
    in place, in the tail of its array.  [fuel] is the number of coins left. *)
Fixpoint safeAdd_loop (add_msg : string) (fuel : nat)
    (sum pa pb coins coinsB : list (coin A)) : res (list (coin A) * list (coin A) * list (coin A)) :=
  match fuel with
  | O => Panic "out of fuel"
  | S fuel =>
      match coins, coinsB with
      | [], [] => Ok (sum, pa, pb)
      | [], _ => '(s, arr) ← removeZero coinsB; Ok (sum ++ s, pa, pb ++ arr)
      | _, [] => '(s, arr) ← removeZero coins; Ok (sum ++ s, pa ++ arr, pb)
      | a :: ra, b :: rb =>
          match String.compare (Denom a) (Denom b) with
          | Lt =>
              z ← c_IsZero a;
              safeAdd_loop add_msg fuel (if z : bool then sum else sum ++ [a]) (pa ++ [a]) pb ra coinsB
          | Eq =>
              r ← c_Add add_msg a b;
              z ← c_IsZero r;
              safeAdd_loop add_msg fuel (if z : bool then sum else sum ++ [r]) (pa ++ [a]) (pb ++ [b]) ra rb
          | Gt =>
              z ← c_IsZero b;
              safeAdd_loop add_msg fuel (if z : bool then sum else sum ++ [b]) pa (pb ++ [b]) coins rb
          end
      end
  end.
Definition safe_add (add_msg : string) (coins coinsB : list (coin A))
    : res (list (coin A) * list (coin A) * list (coin A)) :=
  safeAdd_loop add_msg (S (length coins + length coinsB)) [] [] [] coins coinsB.

End Operations.

(* ------------------------------------------------------------------ *)
(** * Theory *)

(** The order of coin lists: strictly increasing names. *)
Definition denom_lt {A} (c d : coin A) : Prop := slt (Denom c) (Denom d).
Definition denom_le {A} (c d : coin A) : Prop := ~ slt (Denom d) (Denom c).
Definition sorted_coins {A} : list (coin A) -> Prop := StronglySorted denom_lt.

#[global] Instance denom_le_dec {A} (c d : coin A) : Decision (denom_le c d).
Proof. unfold denom_le. apply _. Defined.

#[global] Instance denom_lt_trans {A} : Transitive (@denom_lt A).
Proof. intros x y z. apply slt_trans. Qed.

#[global] Instance denom_le_trans {A} : Transitive (@denom_le A).
Proof.
  intros x y z Hxy Hyz Hzx. destruct (trichotomy slt (Denom x) (Denom y)) as [H|[H|H]].
  - apply Hyz. by trans (Denom x).
  - apply Hyz. by rewrite <-H.
  - by apply Hxy.
Qed.

Section Theory.
Context {A : Type} `{AmountLaws A}.
Implicit Types c d : coin A.
Implicit Types l : list (coin A).

(** The value of a coin; [has_val] says its pointer is not nil. *)
Definition has_val c : Prop := is_Some (am_ptr (Amount c)).
Definition coin_val c : Z := default 0 (am_ptr (Amount c)).
Definition nonzero c : Prop := coin_val c <> 0.

#[global] Instance nonzero_dec c : Decision (nonzero c).
Proof. unfold nonzero. apply _. Defined.

(** The total of a denomination in a list. *)
Fixpoint total l (denom : string) : Z :=
  match l with
  | [] => 0
  | c :: l => (if decide (Denom c = denom) then coin_val c else 0) + total l denom
  end.

Lemma total_app l k denom : total (l ++ k) denom = total l denom + total k denom.
Proof. induction l as [|c l IH]; simpl; [done|]. rewrite IH. lia. Qed.

#[global] Instance total_Permutation : Proper ((≡ₚ) ==> (=) ==> (=)) total.
Proof. intros l k Hp ? denom ->. induction Hp; simpl; lia. Qed.

Lemma total_nonzero l denom : total (filter nonzero l) denom = total l denom.
Proof.
  induction l as [|c l IH]; [done|]. rewrite filter_cons. unfold nonzero at 1.
  destruct (decide (coin_val c <> 0)) as [Hz|Hz]; simpl; rewrite IH; [done|].
  destruct (decide (Denom c = denom)); lia.
Qed.

Lemma am_cases c : Amount c = am_mk (am_ptr (Amount c)).
Proof. by rewrite am_mk_ptr. Qed.

Lemma c_IsZero_val c : has_val c -> c_IsZero c = Ok (coin_val c =? 0).
Proof.
  unfold c_IsZero, has_val, coin_val. rewrite (am_cases c), am_ptr_mk. intros [z ->].
  by rewrite am_IsZero_mk.
Qed.
Lemma c_IsPositive_val c : has_val c -> c_IsPositive c = Ok (0 <? coin_val c).
Proof.
  unfold c_IsPositive, has_val, coin_val. rewrite (am_cases c), am_ptr_mk. intros [z ->].
  by rewrite am_IsPositive_mk.
Qed.
Lemma c_IsNegative_val c : has_val c -> c_IsNegative c = Ok (coin_val c <? 0).
Proof.
  unfold c_IsNegative, has_val, coin_val. rewrite (am_cases c), am_ptr_mk. intros [z ->].
  by rewrite am_IsNegative_mk.
Qed.

Lemma c_Add_val msg c d :
  has_val c -> has_val d -> Denom c = Denom d ->
  c_Add msg c d =
  if bool_decide (Z.abs (coin_val c + coin_val d) < 2 ^ am_bits)
  then Ok (MkCoin (Denom c) (am_mk (Some (coin_val c + coin_val d)))) else Panic "Int overflow".
Proof.
  unfold c_Add, has_val, coin_val. intros [x Hx] [y Hy] Hd. rewrite decide_True by done.
  rewrite (am_cases c), (am_cases d), Hx, Hy, am_Add_mk, !am_ptr_mk. simpl.
  by case_bool_decide.
Qed.

Lemma coin_val_mk denom z : coin_val (MkCoin denom (am_mk (Some z))) = z.
Proof. unfold coin_val. simpl. by rewrite am_ptr_mk. Qed.
Lemma has_val_mk denom z : has_val (MkCoin denom (am_mk (Some z))).
Proof. unfold has_val. simpl. rewrite am_ptr_mk. by eexists. Qed.

(** ** Removing zero coins *)

Lemma slice_remove_mid {B} (pre : list B) (c : B) (w rest : list B) :
  slice_remove (pre ++ c :: w ++ rest) (length pre) (length pre + S (length w)) =
  pre ++ w ++ drop (length w) (c :: w ++ rest).
Proof.
  unfold slice_remove. rewrite take_app_length.
  replace (length pre + S (length w) - S (length pre))%nat with (length w) by lia.
  replace (length pre + S (length w) - 1)%nat with (length pre + length w)%nat by lia.
  rewrite <-Nat.add_1_r, !drop_app_add. simpl. by rewrite drop_0, take_app_length.
Qed.

Lemma drop_last_rest {B} (c : B) (w rest : list B) (x : B) :
  last (c :: w) = Some x -> drop (length w) (c :: w ++ rest) = x :: rest.
Proof.
  revert c. induction w as [|d w IH]; intros c Hl; simpl in *; [congruence|]. by apply IH.
Qed.

(** The loop keeps the coins [pre] already inspected and the copies of the
    last coin that the removals left behind. *)
Lemma removeZero_loop_spec pre w m x :
  Forall has_val w -> (w <> [] -> last w = Some x) ->
  removeZero_loop (length w) (pre ++ w ++ replicate m x) (length pre) (length pre + length w) =
  Ok (pre ++ filter nonzero w ++ replicate (m + (length w - length (filter nonzero w))) x,
      (length pre + length (filter nonzero w))%nat).
Proof.
  revert pre m. induction w as [|c w IH]; intros pre m Hv Hlast.
  - simpl. by rewrite !Nat.add_0_r.
  - apply Forall_cons in Hv as [Hc Hv]. cbn [length removeZero_loop].
    rewrite (proj2 (Nat.ltb_lt _ _)) by lia.
    rewrite <-app_comm_cons. rewrite list_lookup_middle by done. rewrite c_IsZero_val by done. cbn [mbind res_bind].
    assert (w <> [] -> last w = Some x) as Hlast'.
    { intros Hne. rewrite <-Hlast by done. by destruct w. }
    rewrite filter_cons. pose proof (length_filter nonzero w) as Hlen.
    destruct (Z.eqb_spec (coin_val c) 0) as [Hz|Hz].
    + rewrite decide_False by (unfold nonzero; lia).
      rewrite slice_remove_mid.
      rewrite (drop_last_rest c w _ x) by (by apply Hlast).
      replace (length pre + S (length w) - 1)%nat with (length pre + length w)%nat by lia.
      change (x :: replicate m x) with (replicate (S m) x). rewrite IH by done.
      do 5 f_equal. lia.
    + rewrite decide_True by done.
      specialize (IH (pre ++ [c]) m Hv Hlast'). rewrite length_app in IH. cbn [length] in IH.
      rewrite <-!app_assoc in IH. cbn [app] in IH.
      replace (length pre + 1)%nat with (S (length pre)) in IH by lia.
      replace (length pre + S (length w))%nat with (S (length pre) + length w)%nat by lia.
      rewrite IH. cbn [length].
      do 2 f_equal. lia.
Qed.

(** [removeZero] returns the non-zero coins in order and leaves in the array
    the same coins followed by copies of the last one. *)
Lemma removeZero_spec l :
  Forall has_val l ->
  exists x : coin A, removeZero l =
    Ok (filter nonzero l, filter nonzero l ++ replicate (length l - length (filter nonzero l))  x) /\
    (l <> [] -> last l = Some x).
Proof.
  intros Hv. destruct (decide (l = [])) as [->|Hne].
  - exists (MkCoin "" am_Zero). done.
  - destruct (last l) as [x|] eqn:Hl; [|by apply last_None in Hl].
    exists x. split; [|done]. unfold removeZero.
    pose proof (removeZero_loop_spec [] l 0 x Hv (fun _ => Hl)) as E. cbn [length app replicate Nat.add] in E.
    rewrite app_nil_r in E. rewrite E. cbn [mbind res_bind]. by rewrite take_app_length.
Qed.

(** ** Sorting *)

Lemma insert_coin_perm c l : insert_coin c l ≡ₚ c :: l.
Proof.
  induction l as [|d l IH]; simpl; [done|]. destruct (sltb _ _); [done|]. rewrite IH. constructor.
Qed.

Lemma Sort_acc_perm l acc : foldl (fun sorted c => insert_coin c sorted) acc l ≡ₚ l ++ acc.
Proof.
  revert acc. induction l as [|c l IH]; intros acc; simpl; [done|].
  rewrite IH, insert_coin_perm. by rewrite Permutation_middle.
Qed.

Lemma Sort_perm l : Sort l ≡ₚ l.
Proof. unfold Sort. rewrite Sort_acc_perm. by rewrite app_nil_r. Qed.

Lemma denom_lt_le c d : denom_lt c d -> denom_le c d.
Proof. unfold denom_lt, denom_le. apply slt_asym. Qed.

Lemma insert_coin_sorted c l :
  StronglySorted denom_le l -> StronglySorted denom_le (insert_coin c l).
Proof.
  induction 1 as [|d l Hl IH Hd]; simpl; [by repeat constructor|].
  destruct (sltb (Denom c) (Denom d)) eqn:E.
  - apply sltb_slt in E. constructor; [by constructor|]. constructor.
    + by apply denom_lt_le.
    + eapply Forall_impl; [exact Hd|]. intros e He. simpl in *.
      trans d; [|done]. by apply denom_lt_le.
  - constructor; [done|]. rewrite insert_coin_perm. constructor; [|done].
    unfold denom_le. by rewrite <-sltb_slt, E.
Qed.

Lemma Sort_sorted l : StronglySorted denom_le (Sort l).
Proof.
  unfold Sort. assert (forall acc, StronglySorted denom_le acc ->
    StronglySorted denom_le (foldl (fun sorted c => insert_coin c sorted) acc l)) as Hg.
  { induction l as [|c l IH]; intros acc Hacc; simpl; [done|]. by apply IH, insert_coin_sorted. }
  apply Hg. constructor.
Qed.

#[local] Instance denom_lt_antisymm : AntiSymm (=) (@denom_lt A).
Proof. intros c d H1 H2. by apply slt_asym in H1. Qed.

(** Lists with distinct names have one sorted permutation. *)
Lemma sorted_coins_unique l k : sorted_coins l -> sorted_coins k -> l ≡ₚ k -> l = k.
Proof. apply StronglySorted_unique. apply _. Qed.

Lemma sorted_coins_le l : sorted_coins l -> StronglySorted denom_le l.
Proof.
  induction 1 as [|c l Hl IH Hc]; constructor; [done|].
  eapply Forall_impl; [exact Hc|]. apply denom_lt_le.
Qed.

Lemma sorted_coins_NoDup l : sorted_coins l -> NoDup (Denom <$> l).
Proof.
  induction 1 as [|c l Hl IH Hc]; simpl; constructor; [|done].
  intros (d & E & Hd)%list_elem_of_fmap. rewrite Forall_forall in Hc.
  specialize (Hc d Hd). unfold denom_lt in Hc. rewrite E in Hc. by apply slt_irrefl in Hc.
Qed.

Lemma NoDup_sorted_coins l : StronglySorted denom_le l -> NoDup (Denom <$> l) -> sorted_coins l.
Proof.
  induction 1 as [|c l Hl IH Hc]; simpl; intros Hn; [constructor|].
  apply NoDup_cons in Hn as [Hc' Hn]. constructor; [by apply IH|].
  rewrite Forall_forall in Hc |- *. intros d Hd. specialize (Hc d Hd). unfold denom_le, denom_lt in *.
  destruct (trichotomy slt (Denom c) (Denom d)) as [?|[E|?]]; [done| |done].
  exfalso. apply Hc'. rewrite E. by apply list_elem_of_fmap_2.
Qed.

Lemma Sort_id l : sorted_coins l -> Sort l = l.
Proof.
  intros Hl. apply sorted_coins_unique; [|done|apply Sort_perm].
  apply NoDup_sorted_coins; [apply Sort_sorted|]. rewrite Sort_perm. by apply sorted_coins_NoDup.
Qed.

(** [findDup] on a sorted list finds a duplicate exactly when there is one. *)
Lemma findDup_loop_spec c i l :
  0 <= i -> StronglySorted denom_le (c :: l) ->
  findDup_loop (Denom c) i l = -1 <-> sorted_coins (c :: l).
Proof.
  intros Hi Hs. revert c i Hi Hs. induction l as [|d l IH]; intros c i Hi Hs; simpl.
  - split; [|done]. intros _. by repeat constructor.
  - apply StronglySorted_inv in Hs as [Hs Hc]. destruct (decide (Denom d = Denom c)) as [E|E].
    + split; [lia|]. intros [_ Hlt]%StronglySorted_inv. apply Forall_cons in Hlt as [Hlt _].
      unfold denom_lt in Hlt. rewrite E in Hlt. by apply slt_irrefl in Hlt.
    + rewrite IH by (lia || done). split.
      * intros Hdl. constructor; [done|].
        assert (denom_lt c d) as Hcd.
        { apply Forall_cons in Hc as [Hcd _]. unfold denom_le, denom_lt in *.
          destruct (trichotomy slt (Denom c) (Denom d)) as [?|[?|?]]; [done| |done]. by destruct E. }
        constructor; [done|]. apply StronglySorted_inv in Hdl as [_ Hd].
        eapply Forall_impl; [exact Hd|]. intros e He. simpl in *. by trans d.
      * by intros [? _]%StronglySorted_inv.
Qed.

Lemma findDup_spec l : StronglySorted denom_le l -> findDup l = -1 <-> sorted_coins l.
Proof.
  intros Hs. destruct l as [|c [|d l]].
  - split; [constructor|done].
  - split; [by repeat constructor|done].
  - exact (findDup_loop_spec c 1 (d :: l) ltac:(lia) Hs).
Qed.

(** ** Validity *)

Definition positive c : Prop := 0 < coin_val c.
Definition lower c : Prop := ToLower (Denom c) = Denom c.

#[global] Instance positive_dec c : Decision (positive c).
Proof. unfold positive. apply _. Defined.

(** What [IsValid] tests: the denomination pattern on the first coin only, and
    lower case on the others. *)
Definition valid_coins l : Prop :=
  sorted_coins l /\ Forall positive l /\
  match l with [] => True | c :: rest => is_denom (Denom c) = true /\ Forall lower rest end.

Lemma IsValid_loop_spec c l :
  Forall has_val l -> exists b, IsValid_loop (Denom c) l = Ok b /\
    (b = true <-> sorted_coins (c :: l) /\ Forall positive l /\ Forall lower l).
Proof.
  revert c. induction l as [|d l IH]; intros c Hv.
  - exists true. split; [done|]. split; [|done]. intros _. split_and!; by repeat constructor.
  - apply Forall_cons in Hv as [Hd Hv]. cbn [IsValid_loop].
    destruct (decide (lower d)) as [Hl|Hl]; unfold lower in Hl.
    2: { rewrite bool_decide_false by done. exists false. split; [done|]. split; [done|].
         by intros (_ & _ & [? _]%Forall_cons). }
    rewrite bool_decide_true by done. cbn [negb].
    destruct (sleb (Denom d) (Denom c)) eqn:E.
    { exists false. split; [done|]. split; [done|].
      intros (Hs & _ & _). apply StronglySorted_inv in Hs as [_ [Hcd _]%Forall_cons].
      unfold sleb in E. apply negb_true_iff in E. unfold denom_lt in Hcd.
      apply sltb_slt in Hcd. congruence. }
    apply sleb_false in E. rewrite c_IsPositive_val by done. cbn [mbind res_bind].
    destruct (Z.ltb_spec 0 (coin_val d)) as [Hp|Hp]; cbn [negb].
    2: { exists false. split; [done|]. split; [done|].
         intros (_ & [Hp' _]%Forall_cons & _). unfold positive in Hp'. lia. }
    destruct (IH d Hv) as (b & -> & Hb). exists b. split; [done|]. rewrite Hb. split.
    + intros (Hs & Hpos & Hlow). split_and!; [|by constructor|by constructor].
      constructor; [done|]. constructor; [exact E|].
      apply StronglySorted_inv in Hs as [_ Hs]. eapply Forall_impl; [exact Hs|].
      intros e He. simpl in *. unfold denom_lt in *. by trans (Denom d).
    + intros ([Hs _]%StronglySorted_inv & [_ ?]%Forall_cons & [_ ?]%Forall_cons). done.
Qed.

Lemma IsValid_spec l :
  Forall has_val l -> exists b, IsValid l = Ok b /\ (b = true <-> valid_coins l).
Proof.
  intros Hv. unfold IsValid, valid_coins. destruct l as [|c rest].
  { exists true. split; [done|]. split; [|done]. intros _. split_and!; by repeat constructor. }
  apply Forall_cons in Hv as [Hc Hv]. rewrite c_IsPositive_val by done.
  assert ((if is_denom (Denom c) then Ok (0 <? coin_val c) else Ok false)
    = Ok (is_denom (Denom c) && (0 <? coin_val c))) as -> by (by destruct (is_denom _)).
  cbn [mbind res_bind]. setoid_rewrite Forall_cons. unfold positive at 1.
  destruct (IsValid_loop_spec c rest Hv) as (b & Hb & Hbs).
  destruct rest as [|d rest].
  - eexists. split; [done|]. rewrite andb_true_iff, Z.ltb_lt. split.
    + intros [??]. split_and!; try done; by repeat constructor.
    + by intros (_ & [? _] & ? & _).
  - destruct (is_denom (Denom c)) eqn:Ed, (Z.ltb_spec 0 (coin_val c)) as [Hp|Hp]; cbn [negb andb];
      try (exists false; split; [done|]; split; [done|]; intros (_ & [? _] & ? & _); first [done|lia]).
    exists b. split; [done|]. rewrite Hbs. split; [intros (?&?&?)|intros (?&[??]&?&?)]; by split_and!.
Qed.

(** ** Building a coin list *)

Lemma has_val_filter l : Forall has_val l -> Forall has_val (filter nonzero l).
Proof. intros Hv. rewrite Forall_forall in *. intros c [_ Hc]%list_elem_of_filter. auto. Qed.

(** [new_coins] on non-nil amounts: it panics unless the non-zero coins have
    distinct names and form a valid list; then it returns them sorted. *)
Lemma new_coins_spec msg l :
  msg = "invalid coin set: %s" -> Forall has_val l ->
  let nz := Sort (filter nonzero l) in
  (nz = [] /\ exists arr, new_coins l = Ok ([], arr)) \/
  (nz <> [] /\ valid_coins nz /\ exists x, new_coins l = Ok (nz, nz ++ replicate (length l - length nz) x)) \/
  (~ valid_coins nz /\ (new_coins l = Panic msg \/ new_coins l = Panic "find duplicate denom: %s")).
Proof.
  intros -> Hv nz. assert (Sort (filter nonzero l) = nz) as Enz by done. clearbody nz.
  unfold new_coins. destruct (removeZero_spec l Hv) as (x & -> & _).
  cbn [mbind res_bind]. pose proof (Sort_perm (filter nonzero l)) as Hp.
  rewrite Enz in Hp. destruct (IsValid_spec nz) as (b & Hb & Hbs).
  { rewrite Hp. by apply has_val_filter. }
  pose proof (has_val_filter l Hv) as Hvf.
  assert (StronglySorted denom_le nz) as Hsorted by (rewrite <-Enz; apply Sort_sorted).
  destruct (filter nonzero l) as [|c0 l0].
  { left. split; [by subst nz|]. by eexists. }
  assert (nz <> []) as Hnz by (by intros ->; apply Permutation_nil_l in Hp).
  right. rewrite Enz.
  destruct (Z.eqb_spec (findDup nz) (-1)) as [Hd|Hd]; cbn [negb].
  - rewrite Hb. cbn [mbind res_bind]. destruct b; cbn [negb].
    + left. split; [done|]. split; [by apply Hbs|]. exists x.
      pose proof (Permutation_length Hp) as Hlen. rewrite Hlen, drop_app_length. done.
    + right. split; [|by left]. intros Hval. apply Hbs in Hval. done.
  - right. split; [|by right]. intros (Hs & _). by apply Hd, findDup_spec.
Qed.

(** ** Totals of sorted lists *)

Lemma total_absent l denom : denom ∉ (Denom <$> l) -> total l denom = 0.
Proof.
  induction l as [|c l IH]; simpl; intros Hn; [done|].
  apply not_elem_of_cons in Hn as [Hc Hl]. rewrite decide_False by done. rewrite IH; done.
Qed.

Lemma total_NoDup l c : NoDup (Denom <$> l) -> c ∈ l -> total l (Denom c) = coin_val c.
Proof.
  induction l as [|d l IH]; simpl; intros Hn Hc; [by apply elem_of_nil in Hc|].
  apply NoDup_cons in Hn as [Hd Hn]. apply elem_of_cons in Hc as [->|Hc].
  - rewrite decide_True, total_absent by done. lia.
  - rewrite decide_False; [by apply IH|]. intros E. apply Hd. rewrite E.
    by apply list_elem_of_fmap_2.
Qed.

Lemma total_sorted l c : sorted_coins l -> c ∈ l -> total l (Denom c) = coin_val c.
Proof. intros Hs. by apply total_NoDup, sorted_coins_NoDup. Qed.

Lemma total_nonneg l denom : Forall positive l -> 0 <= total l denom.
Proof.
  unfold positive. induction 1; simpl; [lia|]. destruct (decide _); lia.
Qed.

Lemma total_nonzero_elem l denom : total l denom <> 0 -> exists c, c ∈ l /\ Denom c = denom.
Proof.
  intros Hz. destruct (decide (denom ∈ Denom <$> l)) as [Hin|Hn].
  - apply list_elem_of_fmap in Hin as (c & -> & Hc). eauto.
  - by rewrite total_absent in Hz.
Qed.

(** [canonical] lists: sorted, without nil or zero amounts.  They are
    determined by their totals. *)
Definition canonical l : Prop := sorted_coins l /\ Forall has_val l /\ Forall nonzero l.

Lemma coin_ext c d :
  has_val c -> has_val d -> Denom c = Denom d -> coin_val c = coin_val d -> c = d.
Proof.
  unfold has_val, coin_val. destruct c as [n a], d as [m b]; simpl. intros [x Hx] [y Hy] -> E.
  rewrite Hx, Hy in E. simpl in E. subst. f_equal.
  by rewrite <-(am_mk_ptr a), <-(am_mk_ptr b), Hx, Hy.
Qed.

Lemma canonical_incl l k c :
  canonical l -> canonical k -> (forall denom, total l denom = total k denom) -> c ∈ l -> c ∈ k.
Proof.
  intros (Hl & Hvl & Hnl) (Hk & Hvk & Hnk) Ht Hc.
  assert (total l (Denom c) <> 0) as Hz.
  { rewrite total_sorted by done. rewrite Forall_forall in Hnl. by apply Hnl. }
  rewrite Ht in Hz. apply total_nonzero_elem in Hz as (d & Hd & E).
  rewrite Forall_forall in Hvl, Hvk.
  replace c with d; [done|]. apply coin_ext; [by apply Hvk|by apply Hvl|done|].
  rewrite <-(total_sorted k d), <-(total_sorted l c), Ht by done. by rewrite E.
Qed.

Lemma canonical_ext l k :
  canonical l -> canonical k -> (forall denom, total l denom = total k denom) -> l = k.
Proof.
  intros Hl Hk Ht. apply sorted_coins_unique; [apply Hl|apply Hk|].
  apply NoDup_Permutation.
  - eapply NoDup_fmap_1, sorted_coins_NoDup, Hl.
  - eapply NoDup_fmap_1, sorted_coins_NoDup, Hk.
  - intros c. split; by eapply canonical_incl.
Qed.

(** ** [safeAdd] *)

(** What a sum [s] of [a] and [b] is: it has the totals of both, no zero
    coins, is sorted if both are, and stays above any common lower bound. *)
Record sum_of (a b s : list (coin A)) : Prop := {
  sum_val : Forall has_val s;
  sum_nonzero : Forall nonzero s;
  sum_total denom : total s denom = total a denom + total b denom;
  sum_lower c : Forall (denom_lt c) a -> Forall (denom_lt c) b -> Forall (denom_lt c) s;
  sum_sorted : sorted_coins a -> sorted_coins b -> sorted_coins s;
}.

(** Two coins whose addition overflows. *)
Definition overflow_pair (a b : list (coin A)) : Prop :=
  exists c d, c ∈ a /\ d ∈ b /\ Denom c = Denom d /\ 2 ^ am_bits <= Z.abs (coin_val c + coin_val d).

Lemma sorted_filter l : sorted_coins l -> sorted_coins (filter nonzero l).
Proof.
  induction 1 as [|c l Hl IH Hc]; [constructor|]. rewrite filter_cons.
  destruct (decide (nonzero c)); [|done]. constructor; [done|].
  rewrite Forall_forall in *. intros d [_ Hd]%list_elem_of_filter. auto.
Qed.

Lemma Forall_filter_nonzero P l : Forall P l -> Forall P (filter nonzero l).
Proof. rewrite !Forall_forall. intros HP c [_ Hc]%list_elem_of_filter. auto. Qed.

Lemma sum_of_nil_l b : Forall has_val b -> sum_of [] b (filter nonzero b).
Proof.
  intros Hv. split.
  - by apply has_val_filter.
  - rewrite Forall_forall. by intros c [Hc _]%list_elem_of_filter.
  - intros denom. by rewrite total_nonzero.
  - intros c _ Hb. by apply Forall_filter_nonzero.
  - intros _. apply sorted_filter.
Qed.

Lemma sum_of_comm a b s : sum_of a b s -> sum_of b a s.
Proof.
  intros [H1 H2 H3 H4 H5]. split; [done..| | |].
  - intros denom. rewrite H3. lia.
  - auto.
  - auto.
Qed.

(** Adding a coin in front of one list, smaller than everything in the other. *)
Lemma sum_of_cons_lt c a b s :
  has_val c -> sum_of a b s -> (sorted_coins b -> Forall (denom_lt c) b) ->
  sum_of (c :: a) b (if coin_val c =? 0 then s else c :: s).
Proof.
  intros Hv [H1 H2 H3 H4 H5] Hlt. destruct (Z.eqb_spec (coin_val c) 0) as [Hz|Hz]; split; try done.
  - intros denom. rewrite H3. simpl. destruct (decide _); lia.
  - intros d [_ ?]%Forall_cons ?. auto.
  - intros [? _]%StronglySorted_inv ?. auto.
  - by constructor.
  - by constructor.
  - intros denom. simpl. rewrite H3. lia.
  - intros d [? ?]%Forall_cons ?. constructor; auto.
  - intros [? ?]%StronglySorted_inv ?. constructor; [by apply H5|auto].
Qed.

(** Adding the sum of two coins of one name. *)
Lemma sum_of_cons_eq c d r a b s :
  has_val r -> Denom r = Denom c -> Denom d = Denom c -> coin_val r = coin_val c + coin_val d ->
  sum_of a b s -> sum_of (c :: a) (d :: b) (if coin_val r =? 0 then s else r :: s).
Proof.
  intros Hv Hr Hd Hval [H1 H2 H3 H4 H5].
  assert (forall e, denom_lt e c -> denom_lt e r) as Her by (intros e; unfold denom_lt; by rewrite Hr).
  assert (forall e, denom_lt c e -> denom_lt r e) as Hre by (intros e; unfold denom_lt; by rewrite Hr).
  assert (Forall (denom_lt c) a -> Forall (denom_lt r) a) as Ha by (intros; eapply Forall_impl; eauto).
  assert (Forall (denom_lt d) b -> Forall (denom_lt r) b) as Hb.
  { intros; eapply Forall_impl; [done|]. intros e. unfold denom_lt. by rewrite Hr, Hd. }
  destruct (Z.eqb_spec (coin_val r) 0) as [Hz|Hz]; split; try done.
  - intros denom. rewrite H3. simpl. rewrite Hd. destruct (decide _); lia.
  - intros e [_ ?]%Forall_cons [_ ?]%Forall_cons. auto.
  - intros [? _]%StronglySorted_inv [? _]%StronglySorted_inv. auto.
  - by constructor.
  - by constructor.
  - intros denom. simpl. rewrite H3, Hd, Hr. destruct (decide _); lia.
  - intros e [? ?]%Forall_cons [_ ?]%Forall_cons. constructor; auto.
  - intros [? ?]%StronglySorted_inv [? ?]%StronglySorted_inv. constructor; [by apply H5|auto].
Qed.

Lemma head_lt c d b : denom_lt c d -> sorted_coins (d :: b) -> Forall (denom_lt c) (d :: b).
Proof.
  intros Hcd [_ Hd]%StronglySorted_inv. constructor; [done|].
  eapply Forall_impl; [exact Hd|]. intros e He. simpl in *. by trans d.
Qed.

Lemma app_if_zero (b : bool) (sum s : list (coin A)) c :
  (if b then sum else sum ++ [c]) ++ s = sum ++ (if b then s else c :: s).
Proof. destruct b; [done|]. by rewrite <-app_assoc. Qed.

Lemma overflow_pair_mono a b a' b' :
  a ⊆ a' -> b ⊆ b' -> overflow_pair a b -> overflow_pair a' b'.
Proof. intros Ha Hb (c & d & Hc & Hd & E). exists c, d. auto. Qed.

(** The outcome of the merge.  The arrays are unchanged when they hold no
    zero coin. *)
Definition add_outcome (a b : list (coin A)) (sum pa pb : list (coin A))
    (r : res (list (coin A) * list (coin A) * list (coin A))) : Prop :=
  (exists s arrA arrB, r = Ok (sum ++ s, pa ++ arrA, pb ++ arrB) /\ sum_of a b s /\
     (Forall nonzero a -> arrA = a) /\ (Forall nonzero b -> arrB = b)) \/
  (r = Panic "Int overflow" /\ overflow_pair a b).

Lemma filter_nonzero_all l : Forall nonzero l -> filter nonzero l = l.
Proof. induction 1 as [|c l Hc Hl IH]; [done|]. rewrite filter_cons_True by done. by f_equal. Qed.

Lemma removeZero_nonzero l x :
  Forall nonzero l ->
  filter nonzero l ++ replicate (length l - length (filter nonzero l)) x = l.
Proof. intros Hn. rewrite filter_nonzero_all by done. by rewrite Nat.sub_diag, app_nil_r. Qed.

Lemma safeAdd_loop_spec msg fuel sum pa pb a b :
  (length a + length b < fuel)%nat -> Forall has_val a -> Forall has_val b ->
  add_outcome a b sum pa pb (safeAdd_loop msg fuel sum pa pb a b).
Proof.
  revert sum pa pb a b. induction fuel as [|fuel IH]; intros sum pa pb a b Hf Ha Hb; [lia|].
  cbn [safeAdd_loop]. destruct a as [|c a], b as [|d b].
  - left. exists [], [], []. rewrite !app_nil_r. split_and!; done.
  - destruct (removeZero_spec (d :: b) Hb) as (x & -> & _). cbn [mbind res_bind].
    left. do 3 eexists. rewrite <-(app_nil_r pa) at 1.
    split; [reflexivity|]. split; [by apply sum_of_nil_l|]. split; [done|by apply removeZero_nonzero].
  - destruct (removeZero_spec (c :: a) Ha) as (x & -> & _). cbn [mbind res_bind].
    left. do 3 eexists. rewrite <-(app_nil_r pb) at 1. split; [reflexivity|].
    split; [by apply sum_of_comm, sum_of_nil_l|]. split; [by apply removeZero_nonzero|done].
  - apply Forall_cons in Ha as [Hc Ha], Hb as [Hd Hb]. cbn [length] in Hf.
    destruct (String.compare (Denom c) (Denom d)) eqn:E.
    + apply String.compare_eq_iff in E. rewrite c_Add_val by done.
      case_bool_decide as Hov; cbn [mbind res_bind].
      2: { right. split; [done|]. exists c, d. split_and!; [constructor..|done|lia]. }
      rewrite c_IsZero_val by apply has_val_mk. cbn [mbind res_bind].
      set (r := MkCoin (Denom c) _).
      destruct (IH (if coin_val r =? 0 then sum else sum ++ [r]) (pa ++ [c]) (pb ++ [d]) a b)
        as [(s & arrA & arrB & -> & Hs & HA & HB)|[-> Ho]]; [lia|done..| |].
      * left. eexists _, (c :: arrA), (d :: arrB). rewrite app_if_zero, <-!app_assoc.
        split_and!; [done| | |].
        -- apply sum_of_cons_eq; try done; [apply has_val_mk|apply coin_val_mk].
        -- intros [_ ?]%Forall_cons. f_equal. auto.
        -- intros [_ ?]%Forall_cons. f_equal. auto.
      * right. split; [done|]. eapply overflow_pair_mono; [..|exact Ho]; set_solver.
    + rewrite c_IsZero_val by done. cbn [mbind res_bind].
      destruct (IH (if coin_val c =? 0 then sum else sum ++ [c]) (pa ++ [c]) pb a (d :: b))
        as [(s & arrA & arrB & -> & Hs & HA & HB)|[-> Ho]]; [cbn [length]; lia|done|by constructor| |].
      * left. eexists _, (c :: arrA), arrB. rewrite app_if_zero, <-!app_assoc.
        split_and!; [done| | |done].
        -- apply sum_of_cons_lt; [done..|]. by apply head_lt.
        -- intros [_ ?]%Forall_cons. f_equal. auto.
      * right. split; [done|]. eapply overflow_pair_mono; [..|exact Ho]; set_solver.
    + rewrite c_IsZero_val by done. cbn [mbind res_bind]. apply slt_compare_gt in E.
      destruct (IH (if coin_val d =? 0 then sum else sum ++ [d]) pa (pb ++ [d]) (c :: a) b)
        as [(s & arrA & arrB & -> & Hs & HA & HB)|[-> Ho]]; [cbn [length]; lia|by constructor|done| |].
      * left. eexists _, arrA, (d :: arrB). rewrite app_if_zero, <-!app_assoc.
        split_and!; [done| |done|].
        -- apply sum_of_comm, sum_of_cons_lt; [done|by apply sum_of_comm|]. by apply head_lt.
        -- intros [_ ?]%Forall_cons. f_equal. auto.
      * right. split; [done|]. eapply overflow_pair_mono; [..|exact Ho]; set_solver.
Qed.

Lemma safe_add_spec msg a b :
  Forall has_val a -> Forall has_val b -> add_outcome a b [] [] [] (safe_add msg a b).
Proof. intros Ha Hb. apply safeAdd_loop_spec; [lia|done..]. Qed.

(** What is added stays in range. *)
Definition bounded c : Prop := Z.abs (coin_val c) < 2 ^ am_bits.
Lemma c_Add_bounded msg c d r : has_val c -> has_val d -> c_Add msg c d = Ok r -> bounded r.
Proof.
  intros Hc Hd E. assert (Denom c = Denom d) as Ed by (unfold c_Add in E; by destruct (decide _)).
  rewrite c_Add_val in E by done. case_bool_decide; [|done]. injection E as <-. unfold bounded. by rewrite coin_val_mk.
Qed.
Lemma safeAdd_loop_bounded msg fuel sum pa pb a b s arrA arrB :
  Forall has_val a -> Forall has_val b -> Forall bounded sum -> Forall bounded a -> Forall bounded b ->
  safeAdd_loop msg fuel sum pa pb a b = Ok (s, arrA, arrB) -> Forall bounded s.
Proof.
  assert (forall (z : bool) sum c, Forall bounded sum -> bounded c -> Forall bounded (if z then sum else sum ++ [c])) as Happ.
  { intros [] k c Hk Hc; [done|]. apply Forall_app. by split; [|constructor]. }
  revert sum pa pb a b. induction fuel as [|fuel IH]; intros sum pa pb a b Va Vb Hs Ha Hb E; [done|].
  cbn [safeAdd_loop] in E. destruct a as [|c a], b as [|d b].
  - by injection E as <- _ _.
  - destruct (removeZero_spec (d :: b) Vb) as (x & Ex & _). rewrite Ex in E. injection E as <- _ _.
    apply Forall_app. split; [done|by apply Forall_filter_nonzero].
  - destruct (removeZero_spec (c :: a) Va) as (x & Ex & _). rewrite Ex in E. injection E as <- _ _.
    apply Forall_app. split; [done|by apply Forall_filter_nonzero].
  - apply Forall_cons in Va as [Vc Va'], Vb as [Vd Vb'], Ha as [Hc Ha'], Hb as [Hd Hb'].
    destruct (String.compare _ _); res_inv; (eapply IH; [..|exact E]); try done; try (by constructor); apply Happ; try done.
    by eapply c_Add_bounded; [exact Vc|exact Vd|eassumption].
Qed.

(** On sorted lists the sum panics only if some total overflows. *)
Lemma overflow_pair_total a b :
  sorted_coins a -> sorted_coins b -> overflow_pair a b ->
  exists denom, 2 ^ am_bits <= Z.abs (total a denom + total b denom).
Proof.
  intros Ha Hb (c & d & Hc & Hd & E & Ho). exists (Denom c).
  rewrite total_sorted by done. by rewrite E, total_sorted.
Qed.

(** [valid] arguments give a [canonical] sum. *)
Lemma sum_of_canonical a b s : sorted_coins a -> sorted_coins b -> sum_of a b s -> canonical s.
Proof. intros Ha Hb []. split_and!; auto. Qed.

Lemma canonical_positive s :
  canonical s -> (forall denom, 0 <= total s denom) -> Forall positive s.
Proof.
  intros (Hs & _ & Hn) Ht. rewrite Forall_forall in *. intros c Hc. specialize (Ht (Denom c)).
  rewrite total_sorted in Ht by done. specialize (Hn c Hc). unfold nonzero, positive in *. lia.
Qed.

(** Appending a coin with a greater name. *)
Lemma safe_add_snoc msg l c :
  canonical (l ++ [c]) -> safe_add msg l [c] = Ok (l ++ [c], l, [c]).
Proof.
  intros Hc. destruct Hc as (Hs & Hv & Hn) eqn:E. clear E.
  apply Forall_app in Hv as [Hvl Hvc], Hn as [Hnl Hnc].
  apply StronglySorted_app in Hs as (Hlt & Hsl & Hsc).
  destruct (safe_add_spec msg l [c] Hvl Hvc) as [(s & arrA & arrB & -> & Hsum & HA & HB)|[_ Ho]].
  - rewrite HA, HB by done. cbn [app]. do 3 f_equal.
    apply canonical_ext; [by apply (sum_of_canonical l [c])|done|].
    intros denom. by rewrite (sum_total _ _ _ Hsum), total_app.
  - destruct Ho as (d & e & Hd & He%list_elem_of_singleton & Hde & _). subst e.
    specialize (Hlt d c Hd (list_elem_of_here _ _)). unfold denom_lt in Hlt.
    rewrite Hde in Hlt. by apply slt_irrefl in Hlt.
Qed.

(** A list relabelled with other amounts keeps its order. *)
Lemma sorted_relabel {B} (f : coin A -> coin B) l :
  (forall c, Denom (f c) = Denom c) -> sorted_coins l -> sorted_coins (f <$> l).
Proof.
  intros Hf. induction 1 as [|c l Hl IH Hc]; [constructor|]. rewrite fmap_cons. constructor; [done|].
  rewrite Forall_forall in Hc. rewrite Forall_forall. intros ? (d & -> & Hd)%list_elem_of_fmap. unfold denom_lt.
  rewrite !Hf. by apply Hc.
Qed.

(** ** [AmountOf] *)

Lemma StronglySorted_mid (l : list (coin A)) i c :
  sorted_coins l -> l !! i = Some c ->
  sorted_coins (take i l) /\ sorted_coins (drop (S i) l) /\
  (forall d, d ∈ take i l -> denom_lt d c) /\ (forall d, d ∈ drop (S i) l -> denom_lt c d).
Proof.
  intros Hs Hi. rewrite <-(take_drop_middle l i c Hi) in Hs.
  apply StronglySorted_app in Hs as (H1 & H2 & H3).
  apply StronglySorted_inv in H3 as [H3 H4]. rewrite Forall_forall in H4.
  split_and!; [done..| |done]. intros d Hd. apply H1; [done|constructor].
Qed.

(** The linear search the binary search stands for. *)
Fixpoint find_amount l (denom : string) : A :=
  match l with
  | [] => am_Zero
  | c :: l => if decide (Denom c = denom) then Amount c else find_amount l denom
  end.

Lemma find_amount_absent l denom :
  (forall c, c ∈ l -> Denom c <> denom) -> find_amount l denom = am_Zero.
Proof.
  induction l as [|c l IH]; simpl; intros Hn; [done|].
  rewrite decide_False by (apply Hn; constructor). apply IH. intros d Hd. apply Hn. by constructor.
Qed.

Lemma find_amount_app l k denom :
  find_amount (l ++ k) denom =
  if decide (denom ∈ Denom <$> l) then find_amount l denom else find_amount k denom.
Proof.
  induction l as [|c l IH]; [done|]. rewrite fmap_cons. simpl.
  destruct (decide (Denom c = denom)) as [E|E].
  - rewrite decide_True; [done|]. rewrite E. by constructor.
  - rewrite IH. destruct (decide (denom ∈ Denom <$> l)).
    + rewrite decide_True; [done|]. by constructor.
    + rewrite decide_False; [done|]. by apply not_elem_of_cons.
Qed.

(** The three positions of a name relative to an element of a sorted list. *)
Lemma find_amount_mid l i c denom :
  sorted_coins l -> l !! i = Some c ->
  find_amount l denom =
  if sltb denom (Denom c) then find_amount (take i l) denom
  else if decide (denom = Denom c) then Amount c else find_amount (drop (S i) l) denom.
Proof.
  intros Hs Hc. destruct (StronglySorted_mid l i c Hs Hc) as (_ & _ & L1 & L2).
  rewrite <-(take_drop_middle l i c Hc) at 1. rewrite find_amount_app. cbn [find_amount].
  assert (slt denom (Denom c) -> forall d, d ∈ drop (S i) l -> Denom d <> denom) as Hlo.
  { intros Hlt d Hd E. apply L2 in Hd. unfold denom_lt in Hd. rewrite E in Hd.
    by apply slt_asym in Hd. }
  assert (denom ∈ Denom <$> take i l -> slt denom (Denom c)) as Hhi.
  { intros (d & -> & Hd)%list_elem_of_fmap. by apply L1. }
  destruct (sltb denom (Denom c)) eqn:E.
  - apply sltb_slt in E. destruct (decide (denom ∈ _)) as [Hin|Hin]; [done|].
    rewrite decide_False by (intros E'; rewrite E' in E; by apply slt_irrefl in E).
    rewrite find_amount_absent by auto. symmetry. apply find_amount_absent.
    intros d Hd E'. apply Hin. rewrite <-E'. by apply list_elem_of_fmap_2.
  - rewrite (decide_False (P := denom ∈ _)).
    + destruct (decide (denom = Denom c)) as [->|]; [by rewrite decide_True|]. by rewrite decide_False.
    + intros Hin%Hhi. apply sltb_slt in Hin. congruence.
Qed.

Lemma amount_of_spec fuel l denom :
  sorted_coins l -> (length l < fuel)%nat ->
  amount_of fuel l denom = if is_denom denom then Ok (find_amount l denom) else Panic "invalid denom: %s".
Proof.
  revert l. induction fuel as [|fuel IH]; intros l Hs Hf; [lia|]. cbn [amount_of].
  unfold mustValidateDenom, ValidateDenom, check in *. destruct (is_denom denom) eqn:Ed; [|done].
  cbn [mbind res_bind].
  destruct l as [|c0 [|c1 l]]; [done|simpl; by destruct (decide _)|].
  remember (c0 :: c1 :: l) as k eqn:Ek.
  assert (length k / 2 < length k)%nat as Hm by (apply Nat.div_lt; subst; simpl; lia).
  destruct (lookup_lt_is_Some_2 k (length k / 2) Hm) as [c Hc]. rewrite Hc.
  destruct (StronglySorted_mid k _ c Hs Hc) as (S1 & S2 & _).
  rewrite (find_amount_mid k _ c denom Hs Hc).
  rewrite !IH by (rewrite ?length_take, ?length_drop; (done || lia)).
  destruct (sltb denom (Denom c)); [done|]. by destruct (decide _).
Qed.

Lemma AmountOf_find l denom :
  sorted_coins l ->
  AmountOf l denom = if is_denom denom then Ok (find_amount l denom) else Panic "invalid denom: %s".
Proof. intros Hs. apply amount_of_spec; [done|lia]. Qed.

Lemma find_amount_total l denom :
  sorted_coins l -> Forall has_val l -> find_amount l denom = am_mk (Some (total l denom)).
Proof.
  intros Hs Hv. induction l as [|c l IH]; simpl; [apply am_Zero_mk|].
  apply Forall_cons in Hv as [Hc Hv]. apply sorted_coins_NoDup in Hs as Hn. simpl in Hn.
  apply NoDup_cons in Hn as [Hn _]. apply StronglySorted_inv in Hs as [Hs _].
  destruct (decide (Denom c = denom)) as [<-|]; [|by rewrite IH].
  rewrite total_absent, Z.add_0_r by done. rewrite (am_cases c). unfold coin_val.
  by destruct Hc as [z ->].
Qed.

End Theory.
