(* ===== verification/CoinText.v ===== *)
(** The text form of coins: the regular expressions of [types/coin.go], the
    deterministic matchers that implement them, and the comma-separated lists
    that [ParseCoins] and [ParseDecCoins] read and [String] writes.

    Every expression of the source is a sequence of repeated character
    classes, so an expression is a list of [item]s. *)
From S2P Require Import Prelude GoStrings CoinSet.
From Stdlib Require Import Ascii.

(* ------------------------------------------------------------------ *)
(** * Regular expressions *)

(** [cls{lo,hi}]; [hi = None] is no upper bound. *)
Record item := Item { cls : ascii -> bool; lo : nat; hi : option nat }.

Definition item_match (i : item) (s : string) : Prop :=
  str_forall (cls i) s = true /\ (lo i <= String.length s)%nat /\
  match hi i with Some h => (String.length s <= h)%nat | None => True end.

(** [^e1 e2 ...$] *)
Inductive matches : list item -> string -> Prop :=
| matches_nil : matches [] ""
| matches_cons i e s t : item_match i s -> matches e t -> matches (i :: e) (s +:+ t).

Definition is_dot (c : ascii) : bool := bool_decide (c = "."%char).

Definition reDnm : list item := [Item is_alpha 1 (Some 1%nat); Item is_denom_char 2 (Some 127%nat)].
Definition reDecAmt : list item := [Item is_digit 0 None; Item is_dot 0 None; Item is_digit 1 None].
Definition reSpc : list item := [Item is_space 0 None].
Definition reAmt : list item := [Item is_digit 1 None].

(** [reCoin] and [reDecCoin]: group 1, spaces, group 2. *)
Definition grouped (amt : list item) (s a d : string) : Prop :=
  exists sp, s = a +:+ sp +:+ d /\ matches amt a /\ matches reSpc sp /\ matches reDnm d.

(* ------------------------------------------------------------------ *)
(** * Matchers *)

(** [reCoin.FindStringSubmatch]: groups 1 and 2. *)
Definition match_coin (s : string) : option (string * string) :=
  let '(a, r) := span is_digit s in
  let '(_, d) := span is_space r in
  if negb (bool_decide (a = "")) && is_denom d then Some (a, d) else None.

(** [reDecCoin.FindStringSubmatch]: without dots the digits are all in the
    first run. *)
Definition is_empty (s : string) : bool := match s with EmptyString => true | _ => false end.
Definition match_dec_coin (s : string) : option (string * string) :=
  let '(a1, r) := span is_digit s in
  let '(dots, r) := span is_dot r in
  let '(a2, r) := span is_digit r in
  let '(_, d) := span is_space r in
  if negb (is_empty (if is_empty dots then a1 else a2)) && is_denom d
  then Some (a1 +:+ dots +:+ a2, d) else None.

Section Lists.
Context {A : Type} `{AmountOps A}.

Fixpoint parse_all (parse_one : string -> res (coin A)) (strs : list string) : res (list (coin A)) :=
  match strs with
  | [] => Ok []
  | s :: strs => c ← parse_one s; cs ← parse_all parse_one strs; Ok (c :: cs)
  end.

(** [ParseCoins], [ParseDecCoins] *)
Definition parse_list (parse_one : string -> res (coin A)) (invalid : string) (coinsStr : string)
    : res (list (coin A)) :=
  let coinsStr := TrimSpace coinsStr in
  if decide (coinsStr = "") then Ok [] else
  coins ← parse_all parse_one (split_on "," coinsStr);
  let coins := Sort coins in
  v ← IsValid coins;
  if negb v then Err invalid else Ok coins.
End Lists.

(* ------------------------------------------------------------------ *)
(** * The matchers implement the expressions *)

Lemma matches_cons_inv i e s :
  matches (i :: e) s <-> exists a b, s = a +:+ b /\ item_match i a /\ matches e b.
Proof.
  split.
  - inversion 1; subst; eauto.
  - intros (a & b & -> & Ha & Hb). by constructor.
Qed.

Lemma matches_nil_inv s : matches [] s <-> s = "".
Proof. split; [by inversion 1|intros ->; constructor]. Qed.

Lemma matches_one i s : matches [i] s <-> item_match i s.
Proof.
  rewrite matches_cons_inv. setoid_rewrite matches_nil_inv. split.
  - intros (a & b & -> & Ha & ->). by rewrite str_app_nil_r.
  - intros Hs. exists s, "". by rewrite str_app_nil_r.
Qed.

Lemma is_denom_re s : is_denom s = true <-> matches reDnm s.
Proof.
  unfold reDnm. rewrite matches_cons_inv. setoid_rewrite matches_one.
  unfold item_match; cbn [cls lo hi]. split.
  - destruct s as [|c t]; [done|]. cbn [is_denom]. rewrite !andb_true_iff, !Nat.leb_le.
    intros (((Hc & Hl) & Hh) & Ht). exists (String c ""), t. cbn. rewrite Hc. by split_and!.
  - intros (a & b & -> & (Ha & Hl & Hh) & Hb & Hlb & Hhb).
    destruct a as [|c [|? ?]]; cbn [String.length] in *; [lia| |lia].
    rewrite str_app_cons. change ("" +:+ b) with b. cbn [is_denom str_forall] in *.
    rewrite andb_true_r in Ha. rewrite Ha, Hb, (proj2 (Nat.leb_le _ _)), (proj2 (Nat.leb_le _ _)); done.
Qed.

Lemma is_denom_head s : is_denom s = true -> exists c t, s = String c t /\ is_alpha c = true.
Proof.
  destruct s as [|c t]; [done|]. cbn [is_denom]. rewrite !andb_true_iff. intros (((? & _) & _) & _). eauto.
Qed.

(** Letters, digits, spaces and the dot are pairwise distinct. *)
Lemma alpha_not c : is_alpha c = true -> is_digit c = false /\ is_space c = false /\ is_dot c = false.
Proof. destruct c as [[] [] [] [] [] [] [] []]; vm_compute; first [discriminate|done]. Qed.
Lemma space_not c : is_space c = true -> is_digit c = false /\ is_dot c = false.
Proof. destruct c as [[] [] [] [] [] [] [] []]; vm_compute; first [discriminate|done]. Qed.
Lemma dot_not c : is_dot c = true -> is_digit c = false /\ is_space c = false.
Proof. destruct c as [[] [] [] [] [] [] [] []]; vm_compute; first [discriminate|done]. Qed.

Lemma head_not_denom p d :
  (forall c, is_alpha c = true -> p c = false) -> is_denom d = true -> head_not p d = true.
Proof. intros Hp (c & t & -> & Hc)%is_denom_head. cbn. by rewrite Hp. Qed.

(** [head_not] of a concatenation whose front is made of other characters. *)
Lemma head_not_app p q s t :
  (forall c, q c = true -> p c = false) -> str_forall q s = true -> head_not p t = true ->
  head_not p (s +:+ t) = true.
Proof.
  intros Hpq Hs Ht. destruct s as [|c s]; [done|]. rewrite str_app_cons. cbn in *.
  apply andb_true_iff in Hs as [Hc _]. by rewrite Hpq.
Qed.

Lemma span_eq p s a b : span p s = (a, b) -> s = a +:+ b /\ str_forall p a = true /\ head_not p b = true.
Proof.
  intros E. pose proof (span_app p s) as H1. pose proof (span_forall p s) as H2.
  pose proof (span_head_not p s) as H3. rewrite E in H1, H2, H3. by split_and!.
Qed.

Lemma item_any p s : item_match (Item p 0 None) s <-> str_forall p s = true.
Proof. unfold item_match; cbn. split; [by intros (? & _)|]. intros ?. split_and!; [done|lia|done]. Qed.

Lemma item_some p s : item_match (Item p 1 None) s <-> str_forall p s = true /\ s <> "".
Proof.
  unfold item_match; cbn. split.
  - intros (? & ? & _). split; [done|]. by intros ->; cbn in *; lia.
  - intros (? & Hs). split_and!; [done| |done]. destruct s; [done|cbn; lia].
Qed.

(** [match_coin] returns the groups of [reCoin], which are unique. *)
Lemma match_coin_spec s a d : match_coin s = Some (a, d) <-> grouped reAmt s a d.
Proof.
  unfold grouped, reAmt, reSpc. setoid_rewrite matches_one. setoid_rewrite item_any.
  setoid_rewrite item_some. setoid_rewrite <-is_denom_re. unfold match_coin. split.
  - destruct (span is_digit s) as [a' r] eqn:E1, (span is_space r) as [sp d'] eqn:E2.
    apply span_eq in E1 as (-> & Ha & _), E2 as (-> & Hsp & _).
    destruct (negb _ && _) eqn:Eb; [|done]. intros [= -> ->].
    apply andb_true_iff in Eb as [Hne Hd]. apply negb_true_iff, bool_decide_eq_false in Hne.
    exists sp. by split_and!.
  - intros (sp & -> & [Ha Hne] & Hsp & Hd).
    rewrite (span_unique is_digit a (sp +:+ d)), (span_unique is_space sp d); try done.
    + by rewrite bool_decide_false, Hd.
    + apply head_not_denom; [apply alpha_not|done].
    + apply (head_not_app _ is_space); [apply space_not|done|].
      apply head_not_denom; [apply alpha_not|done].
Qed.

Lemma matches_dec_amt a :
  matches reDecAmt a <-> exists a1 dots a2, a = a1 +:+ dots +:+ a2 /\
    str_forall is_digit a1 = true /\ str_forall is_dot dots = true /\
    str_forall is_digit a2 = true /\ a2 <> "".
Proof.
  unfold reDecAmt. rewrite matches_cons_inv. setoid_rewrite matches_cons_inv.
  setoid_rewrite matches_one. setoid_rewrite item_any. setoid_rewrite item_some.
  split.
  - intros (a1 & ? & -> & H1 & dots & a2 & -> & H2 & H3 & H4). eauto 10.
  - intros (a1 & dots & a2 & -> & H1 & H2 & H3 & H4). eauto 10.
Qed.

Lemma head_not_ne p q s t :
  (forall c, q c = true -> p c = false) -> str_forall q s = true -> s <> "" ->
  head_not p (s +:+ t) = true.
Proof.
  intros Hpq Hs Hne. destruct s as [|c s]; [done|]. rewrite str_app_cons. cbn in *.
  apply andb_true_iff in Hs as [Hc _]. by rewrite Hpq.
Qed.

Lemma head_not_spc_denom p sp d :
  (forall c, is_alpha c = true -> p c = false) -> (forall c, is_space c = true -> p c = false) ->
  str_forall is_space sp = true -> is_denom d = true -> head_not p (sp +:+ d) = true.
Proof. intros H1 H2 Hsp Hd. apply (head_not_app _ is_space); [done..|]. by apply head_not_denom. Qed.

Lemma span_nil p s : head_not p s = true -> span p s = ("", s).
Proof. intros H. by apply (span_unique p "" s). Qed.

Lemma match_dec_coin_plain a sp d :
  str_forall is_digit a = true -> a <> "" -> str_forall is_space sp = true -> is_denom d = true ->
  match_dec_coin (a +:+ sp +:+ d) = Some (a, d).
Proof.
  intros Ha Hne Hsp Hd. unfold match_dec_coin.
  assert (head_not is_digit (sp +:+ d) = true) as Hg
    by (apply head_not_spc_denom; try done; [apply alpha_not|apply space_not]).
  rewrite (span_unique is_digit a (sp +:+ d)) by done.
  rewrite (span_nil is_dot) by (apply head_not_spc_denom; try done; [apply alpha_not|apply space_not]).
  rewrite (span_nil is_digit) by done.
  rewrite (span_unique is_space sp d) by (done || (apply head_not_denom; [apply alpha_not|done])).
  cbn [is_empty]. rewrite Hd, str_app_nil_r. by destruct a.
Qed.

Lemma match_dec_coin_dots a1 dots a2 sp d :
  str_forall is_digit a1 = true -> str_forall is_dot dots = true -> dots <> "" ->
  str_forall is_digit a2 = true -> a2 <> "" -> str_forall is_space sp = true -> is_denom d = true ->
  match_dec_coin ((a1 +:+ dots +:+ a2) +:+ sp +:+ d) = Some (a1 +:+ dots +:+ a2, d).
Proof.
  intros H1 H2 Hn2 H3 Hn3 Hsp Hd. unfold match_dec_coin. rewrite <-!str_app_assoc.
  rewrite (span_unique is_digit a1) by (done || (apply (head_not_ne _ is_dot); [apply dot_not|done..])).
  rewrite (span_unique is_dot dots).
  2: done.
  2: { apply (head_not_ne _ is_digit); [|done..]. intros c Hc.
       destruct (is_dot c) eqn:E; [|done]. apply dot_not in E as [E _]. congruence. }
  rewrite (span_unique is_digit a2)
    by (done || (apply head_not_spc_denom; try done; [apply alpha_not|apply space_not])).
  rewrite (span_unique is_space sp d) by (done || (apply head_not_denom; [apply alpha_not|done])).
  rewrite Hd. by destruct dots, a2.
Qed.

(** [match_dec_coin] returns the groups of [reDecCoin], which are unique. *)
Lemma match_dec_coin_spec s a d : match_dec_coin s = Some (a, d) <-> grouped reDecAmt s a d.
Proof.
  unfold grouped, reSpc. setoid_rewrite matches_one. setoid_rewrite item_any.
  setoid_rewrite <-is_denom_re. setoid_rewrite matches_dec_amt. split.
  - unfold match_dec_coin.
    destruct (span is_digit s) as [a1 r1] eqn:E1, (span is_dot r1) as [dots r2] eqn:E2,
      (span is_digit r2) as [a2 r3] eqn:E3, (span is_space r3) as [sp d'] eqn:E4.
    apply span_eq in E1 as (-> & H1 & Hh1), E2 as (-> & H2 & _), E3 as (-> & H3 & _), E4 as (-> & H4 & _).
    destruct (negb _ && _) eqn:Eb; [|done]. intros [= <- ->].
    apply andb_true_iff in Eb as [Hne Hd]. exists sp. rewrite <-!str_app_assoc. split; [done|].
    split_and!; [|done..].
    destruct dots as [|x dots]; cbn [is_empty] in Hne.
    + exists "", "", a1. change ("" +:+ ?x) with x in *.
      destruct a2 as [|y a2]; [|rewrite str_app_cons in Hh1; cbn in Hh1, H3;
        apply andb_true_iff in H3 as [Hy _]; by rewrite Hy in Hh1].
      rewrite str_app_nil_r. split_and!; try done. by destruct a1.
    + exists a1, (String x dots), a2. split_and!; try done. by destruct a2.
  - intros (sp & -> & (a1 & dots & a2 & -> & H1 & H2 & H3 & Hne) & Hsp & Hd).
    destruct (decide (dots = "")) as [->|Hdots].
    + change ("" +:+ ?x) with x. apply match_dec_coin_plain; try done.
      * by rewrite str_forall_app, H1, H3.
      * destruct a1; [by destruct a2|done].
    + by apply match_dec_coin_dots.
Qed.

(* ------------------------------------------------------------------ *)
(** * Lists *)

Section ListTheory.
Context {A : Type} `{AmountLaws A}.

Lemma coins_fold_text (l : list (coin A)) out :
  foldl (fun out c => out +:+ c_String c +:+ ",") out l =
  out +:+ (match l with [] => "" | _ => Join (c_String <$> l) "," +:+ "," end).
Proof.
  revert out. induction l as [|c l IH]; intros out; simpl; [by rewrite str_app_nil_r|].
  rewrite IH. destruct l as [|d l]; simpl.
  - by rewrite str_app_nil_r.
  - by rewrite <-!str_app_assoc.
Qed.

Lemma str_take_app s t : str_take (String.length s) (s +:+ t) = s.
Proof. induction s; [by destruct t|]. rewrite str_app_cons. simpl. by rewrite IHs. Qed.

(** [String] joins the coins with commas. *)
Lemma coins_text_Join (l : list (coin A)) : coins_text l = Join (c_String <$> l) ",".
Proof.
  unfold coins_text. destruct l as [|c l]; [done|]. rewrite coins_fold_text.
  change ("" +:+ ?x) with x. rewrite str_length_app. cbn [String.length].
  rewrite Nat.add_sub. apply str_take_app.
Qed.

Lemma parse_all_map parse_one (l : list (coin A)) :
  (forall c, c ∈ l -> parse_one (c_String c) = Ok c) -> parse_all parse_one (c_String <$> l) = Ok l.
Proof.
  induction l as [|c l IH]; intros Hp; [done|]. rewrite fmap_cons. cbn [parse_all].
  rewrite Hp by constructor. cbn [mbind res_bind]. rewrite IH; [done|]. intros d Hd. apply Hp. by constructor.
Qed.

Definition plain_text (s : string) : Prop :=
  s <> "" /\ str_forall plain_chr s = true /\
  str_forall (fun c => negb (bool_decide (c = ","%char))) s = true.

Lemma Join_plain (l : list string) :
  l <> [] -> Forall plain_text l -> str_forall plain_chr (Join l ",") = true /\ Join l "," <> "".
Proof.
  intros Hne Hl. induction Hl as [|s l (Hs & Hp & _) Hl IH]; [done|].
  destruct l as [|t l]; [done|]. destruct IH as [IH1 IH2]; [done|].
  change (Join (s :: t :: l) ",") with (s +:+ "," +:+ Join (t :: l) ",").
  rewrite !str_forall_app, Hp, IH1. split; [done|]. by destruct s.
Qed.

(** Lists in the normal form of [IsValid] are read back unchanged. *)
Lemma parse_list_roundtrip parse_one invalid (l : list (coin A)) :
  Forall has_val l -> valid_coins l ->
  (forall c, c ∈ l -> parse_one (c_String c) = Ok c) ->
  (forall c, c ∈ l -> plain_text (c_String c)) ->
  parse_list parse_one invalid (coins_text l) = Ok l.
Proof.
  intros Hv Hval Hp Ht. rewrite coins_text_Join. unfold parse_list.
  destruct (decide (l = [])) as [->|Hne]; [done|].
  assert (Forall plain_text (c_String <$> l)) as Hpl.
  { rewrite Forall_forall. intros ? (c & -> & Hc)%list_elem_of_fmap. by apply Ht. }
  assert (c_String <$> l <> []) as Hne' by (by destruct l).
  destruct (Join_plain _ Hne' Hpl) as [Hj1 Hj2].
  rewrite TrimSpace_all_plain, decide_False, split_on_Join; [|done| |done..].
  2: { eapply Forall_impl; [exact Hpl|]. intros s (_ & _ & Hs). exact Hs. }
  rewrite parse_all_map by done. cbn [mbind res_bind]. cbv zeta.
  rewrite Sort_id by apply Hval. destruct (IsValid_spec l Hv) as (b & -> & Hb).
  cbn [mbind res_bind]. by rewrite (proj2 Hb Hval).
Qed.

(** What a successful parse guarantees. *)
Lemma parse_list_sound parse_one invalid s (l : list (coin A)) :
  (forall t c, parse_one t = Ok c -> has_val c) ->
  parse_list parse_one invalid s = Ok l -> Forall has_val l /\ valid_coins l.
Proof.
  intros Hone. unfold parse_list. destruct (decide _).
  { intros [= <-]. split; [done|]. split_and!; [constructor|done|done]. }
  intros Hl. res_inv. destruct (negb a0) eqn:Eb; [done|]. injection Hl as <-.
  assert (Forall has_val a) as Hv.
  { clear -Hone Hr. revert a Hr. induction (split_on _ _) as [|t ts IH]; cbn [parse_all]; intros a Hr.
    - by injection Hr as <-.
    - res_inv. constructor; eauto. }
  assert (Forall has_val (Sort a)) as Hvs by (by rewrite Sort_perm).
  split; [done|]. destruct (IsValid_spec (Sort a) Hvs) as (b & Hb & Hbs).
  rewrite Hb in Hr0. injection Hr0 as ->. apply Hbs. by apply negb_false_iff in Eb.
Qed.

Lemma denom_plain d : is_denom d = true -> plain_text d.
Proof.
  intros Hd. destruct (is_denom_head d Hd) as (c & t & -> & Hc).
  cbn [is_denom] in Hd. rewrite !andb_true_iff in Hd. destruct Hd as (_ & Ht).
  assert (forall x, is_denom_char x = true -> plain_chr x = true /\ negb (bool_decide (x = ","%char)) = true) as Hx.
  { intros [[] [] [] [] [] [] [] []]; vm_compute; first [discriminate|done]. }
  assert (is_denom_char c = true) as Hc' by (unfold is_denom_char; by rewrite Hc).
  assert (str_forall is_denom_char (String c t) = true) as Hall by (cbn; by rewrite Hc').
  split_and!; [done| |]; eapply str_forall_impl; [|exact Hall| |exact Hall]; apply Hx.
Qed.

Lemma plain_text_app s t :
  str_forall plain_chr s = true -> str_forall (fun c => negb (bool_decide (c = ","%char))) s = true ->
  plain_text t -> plain_text (s +:+ t).
Proof.
  intros H1 H2 (Hn & H3 & H4). split_and!.
  - destruct s; [done|by rewrite str_app_cons].
  - by rewrite str_forall_app, H1.
  - by rewrite str_forall_app, H2.
Qed.
End ListTheory.
