(* ===== verification/Coins.v ===== *)
(** [types/coin.go]: [Coin] and [Coins], coins with [Int] amounts. *)
From S2P Require Import Prelude GoStrings BigText SdkInt CoinSet CoinText.
From Stdlib Require Import Ascii.

(** [const BaseDenom] *)
Definition BaseDenom : string := "plug".

(** [type Coin struct], [type Coins []Coin] *)
Abbreviation Coin := (coin Int).
Abbreviation Coins := (list (coin Int)).

(** The tests of [Coin] compare [Amount.Sign()]. *)
Definition Coin_amount_sign (s : Z) (i : Int) : res bool := z ← Int_Sign i; Ok (z =? s).

#[export] Instance Int_amount : AmountOps Int := {|
  am_IsZero := Int_IsZero;
  am_IsNegative := Coin_amount_sign (-1);
  am_IsPositive := Coin_amount_sign 1;
  am_Equal := Int_Equal;
  am_Add := Int_Add;
  am_Zero := ZeroInt;
  am_String := Int_String;
|}.

Definition validate (denom : string) (amount : Int) : res unit :=
  _ ← ValidateDenom denom;
  n ← Int_IsNegative amount;
  if n : bool then Err "negative coin amount: %v" else Ok tt.

Definition NewCoin (denom : string) (amount : Int) : res Coin :=
  match validate denom amount with
  | Err e => Panic e
  | Panic p => Panic p
  | Ok _ => Ok (MkCoin denom amount)
  end.

(** Methods of [Coin]. *)
Definition Coin_IsValid (c : Coin) : res bool :=
  match validate (Denom c) (Amount c) with Ok _ => Ok true | Err _ => Ok false | Panic p => Panic p end.
Definition Coin_IsZero (c : Coin) : res bool := c_IsZero c.
Definition Coin_IsPositive (c : Coin) : res bool := c_IsPositive c.
Definition Coin_IsNegative (c : Coin) : res bool := c_IsNegative c.
Definition denom_mismatch : string := "invalid coin denominations; %s, %s".
Definition Coin_Add : Coin -> Coin -> res Coin := c_Add denom_mismatch.
Definition Coin_Sub (c d : Coin) : res Coin :=
  if negb (bool_decide (Denom c = Denom d)) then Panic denom_mismatch
  else
    m ← Int_Sub (Amount c) (Amount d);
    let r := MkCoin (Denom c) m in
    n ← Coin_IsNegative r;
    if n : bool then Panic "negative coin amount" else Ok r.
Definition Coin_String (c : Coin) : string := c_String c.
Definition Coin_IsEqual (c d : Coin) : res bool := coin_eq c d.

(** Methods of [Coins]. *)
Definition removeZeroCoins (coins : Coins) : res (Coins * Coins) := removeZero coins.
Definition Coins_Sort (coins : Coins) : Coins := Sort coins.
Definition Coins_findDup (coins : Coins) : Z := findDup coins.
Definition Coins_IsValid (coins : Coins) : res bool := IsValid coins.
Definition NewCoins (coins : Coins) : res (Coins * Coins) := new_coins coins.
Definition Coins_IsAnyNegative (coins : Coins) : res bool := IsAnyNegative coins.
Definition Coins_IsZero (coins : Coins) : res bool := IsZero coins.
Definition Coins_IsAllPositive (coins : Coins) : res bool := IsAllPositive coins.
Definition Coins_Empty (coins : Coins) : bool := Empty coins.
Definition Coins_AmountOf (coins : Coins) (denom : string) : res Int := AmountOf coins denom.
Definition Coins_String (coins : Coins) : string := coins_text coins.
Definition Coins_IsEqual (coins coinsB : Coins) : Coins * Coins * res bool := coins_eq coins coinsB.
(** Both arguments lose their zero coins in place, so their arrays are results
    too.  They are different arrays: two slices of one array are not modelled. *)
Definition Coins_safeAdd (coins coinsB : Coins) : res (Coins * Coins * Coins) :=
  safe_add denom_mismatch coins coinsB.
Definition Coins_Add (coins coinsB : Coins) : res (Coins * Coins * Coins) := Coins_safeAdd coins coinsB.

(** [Validate]: like [IsValid], but with the denomination pattern on every
    coin, a map of the names seen, and an error for each failure. *)
Fixpoint Validate_loop (lowDenom : string) (seenDenoms : gset string) (coins : Coins) : res unit :=
  match coins with
  | [] => Ok tt
  | c :: coins =>
      if bool_decide (Denom c ∈ seenDenoms) then Err "duplicate denomination %s"
      else
        _ ← ValidateDenom (Denom c);
        if sleb (Denom c) lowDenom then Err "denomination %s is not sorted"
        else
          p ← Coin_IsPositive c;
          if negb p then Err "coin %s amount is not positive"
          else Validate_loop (Denom c) ({[ Denom c ]} ∪ seenDenoms) coins
  end.
Definition Coins_Validate (coins : Coins) : res unit :=
  match coins with
  | [] => Ok tt
  | c :: rest =>
      _ ← ValidateDenom (Denom c);
      p ← Coin_IsPositive c;
      _ ← check p "coin %s amount is not positive";
      match rest with [] => Ok tt | _ => Validate_loop (Denom c) {[ Denom c ]} rest end
  end.

Definition ParseCoin (coinStr : string) : res Coin :=
  let coinStr := TrimSpace coinStr in
  match match_coin coinStr with
  | None => Err "invalid coin expression: %s"
  | Some (amountStr, denomStr) =>
      match NewIntFromString amountStr with
      | None => Err "failed to parse coin amount: %s"
      | Some amount =>
          match ValidateDenom denomStr with
          | Err _ => Err "invalid denom cannot contain upper case characters or spaces: %s"
          | _ => NewCoin denomStr amount
          end
      end
  end.
Definition ParseCoins : string -> res Coins := parse_list ParseCoin "parseCoins invalid: %#v".

(* ------------------------------------------------------------------ *)
(** * [Int] is an amount *)

Lemma sgn_tests z :
  (Z.sgn z =? 0) = (z =? 0) /\ (Z.sgn z =? -1) = (z <? 0) /\ (Z.sgn z =? 1) = (0 <? z).
Proof. destruct z; done. Qed.

Lemma Cmp_eq0 x y : (Cmp x y =? 0) = (x =? y).
Proof. cmp_case x y; lia. Qed.

#[export] Program Instance Int_amount_laws : AmountLaws Int := {|
  am_mk := MkInt; am_ptr := Int_i; am_bits := maxBitLen
|}.
Next Obligation. by intros []. Qed.
Next Obligation. done. Qed.
Next Obligation. done. Qed.
Next Obligation.
  intros [z|]; [|done]. cbn. unfold Int_IsZero, Sign. cbn. by rewrite (proj1 (sgn_tests z)).
Qed.
Next Obligation.
  intros [z|]; [|done]. cbn. unfold Coin_amount_sign, Int_Sign, Sign. cbn.
  by rewrite (proj1 (proj2 (sgn_tests z))).
Qed.
Next Obligation.
  intros [z|]; [|done]. cbn. unfold Coin_amount_sign, Int_Sign, Sign. cbn.
  by rewrite (proj2 (proj2 (sgn_tests z))).
Qed.
Next Obligation.
  intros x y. cbn. unfold Int_Equal, int_equal. cbn. by rewrite Cmp_eq0.
Qed.
Next Obligation.
  intros x y. cbn. unfold Int_Add, int_add. cbn. rewrite overflow_if. done.
Qed.

(** A coin with the given value. *)
Abbreviation coinV d z := (MkCoin d (IntV z)).

(** Lists whose amounts are all present and in range: what the constructors
    produce. *)
Definition Coins_wf (coins : Coins) : Prop :=
  Forall (fun c => exists z, Amount c = IntV z /\ int_range z) coins.

Lemma Coins_wf_has_val coins : Coins_wf coins -> Forall has_val coins.
Proof.
  intros Hw. eapply Forall_impl; [exact Hw|]. intros c (z & E & _). unfold has_val. rewrite E. by eexists.
Qed.

(* ------------------------------------------------------------------ *)
(** * Properties *)

(** C34: [Coins.Add] on sorted lists.  When no total leaves the range of [Int]
    the sum is a list sorted by name, without zero or nil amounts, whose total
    in every denomination is the sum of the totals of the arguments; it
    contains only positive coins if the arguments do, and arguments without
    zero coins keep their contents.  Otherwise the addition panics with an
    overflow.  The arguments are slices of different arrays. *)
Theorem Coins_Add_spec (a b : Coins) :
  Coins_wf a -> Coins_wf b -> sorted_coins a -> sorted_coins b ->
  (exists s arrA arrB, Coins_Add a b = Ok (s, arrA, arrB) /\
     canonical s /\ (forall denom, total s denom = total a denom + total b denom) /\
     (Forall positive a -> Forall positive b -> Forall positive s /\ arrA = a /\ arrB = b)) \/
  (Coins_Add a b = Panic "Int overflow" /\
   exists denom, ~ int_range (total a denom + total b denom)).
Proof.
  intros Hwa Hwb Ha Hb.
  destruct (safe_add_spec denom_mismatch a b (Coins_wf_has_val a Hwa) (Coins_wf_has_val b Hwb))
    as [(s & arrA & arrB & E & Hs & HA & HB)|[E Ho]].
  - left. exists s, arrA, arrB. pose proof (sum_of_canonical a b s Ha Hb Hs) as Hc.
    split; [exact E|]. split; [done|]. split; [apply Hs|]. intros Hpa Hpb.
    assert (forall l : Coins, Forall positive l -> Forall nonzero l) as Hpn.
    { intros l Hl. eapply Forall_impl; [exact Hl|]. unfold positive, nonzero. lia. }
    split; [|by auto]. apply canonical_positive; [done|]. intros denom.
    rewrite (sum_total _ _ _ Hs). pose proof (total_nonneg a denom Hpa).
    pose proof (total_nonneg b denom Hpb). lia.
  - right. split; [exact E|]. destruct (overflow_pair_total a b Ha Hb Ho) as (denom & Hd).
    exists denom. unfold int_range. cbn [am_bits Int_amount_laws] in Hd. lia.
Qed.

Lemma sorted_pair (c d : Coin) : slt (Denom c) (Denom d) -> sorted_coins [c; d].
Proof. intros H. repeat constructor. exact H. Qed.

Ltac wf_coins :=
  unfold Coins_wf; repeat (apply Forall_cons; split); try (by apply Forall_nil);
  eexists; (split; [reflexivity|by vm_compute]).

Lemma Coins_Add_spec_witness :
  exists s, fst <$> (fst <$> Coins_Add [coinV "abc" 3; coinV "bcd" 5] [coinV "bcd" 7]) = Ok s /\
    total s "bcd" = 12.
Proof.
  assert (Coins_wf [coinV "abc" 3; coinV "bcd" 5]) as Hwa
    by wf_coins.
  assert (Coins_wf [coinV "bcd" 7]) as Hwb
    by wf_coins.
  destruct (Coins_Add_spec [coinV "abc" 3; coinV "bcd" 5] [coinV "bcd" 7] Hwa Hwb
    ltac:(by apply sorted_pair) ltac:(repeat constructor))
    as [(s & arrA & arrB & E & _ & Ht & _)|[E _]].
  - exists s. rewrite E. split; [reflexivity|]. rewrite Ht. vm_compute. reflexivity.
  - vm_compute in E. discriminate E.
Defined.

(** The sum alone. *)
Definition add_result (a b : Coins) : res Coins := fst <$> (fst <$> Coins_Add a b).

Lemma add_result_canonical a b s :
  canonical a -> canonical b -> add_result a b = Ok s ->
  canonical s /\ (forall denom, total s denom = total a denom + total b denom).
Proof.
  intros (Ha & Hva & _) (Hb & Hvb & _) E. unfold add_result, Coins_Add, Coins_safeAdd in E.
  destruct (safe_add_spec denom_mismatch a b Hva Hvb) as [(s' & ? & ? & E' & Hs & _)|[E' _]];
    rewrite E' in E; [|done].
  injection E as <-. split; [exact (sum_of_canonical a b _ Ha Hb Hs)|apply Hs].
Qed.

(** Addition of canonical coin lists is commutative and associative, and
    the empty list is neutral: a canonical list is determined by its totals,
    so equal totals give equal lists, not merely equivalent ones. *)
Theorem Coins_Add_algebra (a b c : Coins) :
  canonical a -> canonical b -> canonical c ->
  (forall ab ba, add_result a b = Ok ab -> add_result b a = Ok ba -> ab = ba) /\
  (forall ab bc x y, add_result a b = Ok ab -> add_result ab c = Ok x ->
     add_result b c = Ok bc -> add_result a bc = Ok y -> x = y) /\
  add_result a [] = Ok a /\ add_result [] a = Ok a.
Proof.
  intros Ha Hb Hc. split_and!.
  - intros ab ba E1 E2.
    destruct (add_result_canonical a b ab Ha Hb E1) as [C1 T1].
    destruct (add_result_canonical b a ba Hb Ha E2) as [C2 T2].
    apply canonical_ext; [done..|]. intros denom. rewrite T1, T2. lia.
  - intros ab bc x y E1 E2 E3 E4.
    destruct (add_result_canonical a b ab Ha Hb E1) as [C1 T1].
    destruct (add_result_canonical ab c x C1 Hc E2) as [C2 T2].
    destruct (add_result_canonical b c bc Hb Hc E3) as [C3 T3].
    destruct (add_result_canonical a bc y Ha C3 E4) as [C4 T4].
    apply canonical_ext; [done..|]. intros denom. rewrite T2, T4, T1, T3. lia.
  - destruct Ha as (_ & Hv & Hn). unfold add_result, Coins_Add, Coins_safeAdd, safe_add.
    destruct a as [|d a]; [done|]. cbn [length Nat.add safeAdd_loop].
    destruct (removeZero_spec (d :: a) Hv) as (x & -> & _).
    by rewrite filter_nonzero_all by done.
  - destruct Ha as (_ & Hv & Hn). unfold add_result, Coins_Add, Coins_safeAdd, safe_add.
    destruct a as [|d a]; [done|]. cbn [length Nat.add safeAdd_loop].
    destruct (removeZero_spec (d :: a) Hv) as (x & -> & _).
    by rewrite filter_nonzero_all by done.
Qed.

Lemma canonical_one d z : z <> 0 -> canonical [coinV d z].
Proof. intros Hz. split_and!; repeat constructor; [by eexists|exact Hz]. Qed.

Lemma Coins_Add_algebra_witness :
  [coinV "abc" 5; coinV "bcd" 6] = [coinV "abc" 5; coinV "bcd" 6].
Proof.
  apply (proj1 (Coins_Add_algebra [coinV "abc" 5] [coinV "bcd" 6] []
    (canonical_one _ 5 ltac:(lia)) (canonical_one _ 6 ltac:(lia)) ltac:(split_and!; constructor)));
    vm_compute; reflexivity.
Defined.

(** [AmountOf] is a binary search, and on sorted lists it finds what a
    linear search finds: the total of the denomination, zero if it is absent.
    A name outside the denomination pattern panics. *)
Theorem Coins_AmountOf_search (coins : Coins) denom :
  sorted_coins coins -> Coins_wf coins ->
  Coins_AmountOf coins denom = Ok (find_amount coins denom) /\
  find_amount coins denom = IntV (total coins denom) \/
  is_denom denom = false /\ Coins_AmountOf coins denom = Panic "invalid denom: %s".
Proof.
  intros Hs Hw. unfold Coins_AmountOf. rewrite AmountOf_find by done.
  destruct (is_denom denom); [left|by right]. split; [done|].
  apply (find_amount_total coins denom Hs (Coins_wf_has_val _ Hw)).
Qed.

Lemma Coins_AmountOf_search_witness :
  Coins_AmountOf [coinV "abc" 3; coinV "bcd" 5] "bcd" = Ok (IntV 5).
Proof.
  assert (Coins_wf [coinV "abc" 3; coinV "bcd" 5]) as Hw
    by wf_coins.
  destruct (Coins_AmountOf_search [coinV "abc" 3; coinV "bcd" 5] "bcd" ltac:(by apply sorted_pair) Hw)
    as [[E1 E2]|[E _]].
  - rewrite E1, E2. reflexivity.
  - vm_compute in E. discriminate E.
Defined.

(** [NewCoins] keeps the non-zero coins of its arguments: it returns them
    sorted by name when they have distinct names and pass [IsValid], and
    panics otherwise; it returns the empty list when all are zero.  It works
    in the array of its arguments, which afterwards starts with the result. *)
Theorem NewCoins_spec (coins : Coins) :
  Coins_wf coins ->
  (exists out arr, NewCoins coins = Ok (out, arr) /\
     out ≡ₚ filter nonzero coins /\ canonical out /\ Forall positive out /\
     (forall denom, total out denom = total coins denom) /\ take (length out) arr = out) \/
  ((NewCoins coins = Panic "invalid coin set: %s" \/
    NewCoins coins = Panic "find duplicate denom: %s") /\
   ~ valid_coins (Sort (filter nonzero coins))).
Proof.
  intros Hw. pose proof (Coins_wf_has_val coins Hw) as Hv.
  pose proof (Sort_perm (filter nonzero coins)) as Hp.
  assert (forall denom, total (Sort (filter nonzero coins)) denom = total coins denom) as Ht.
  { intros denom. rewrite Hp. apply total_nonzero. }
  destruct (new_coins_spec _ coins eq_refl Hv) as [(E & arr & HE)|[(Hne & Hval & x & HE)|(Hval & HE)]].
  - left. exists [], arr. rewrite E in Hp, Ht.
    split_and!; try done. split_and!; constructor.
  - left. eexists _, _. split; [exact HE|]. destruct Hval as (Hs & Hpos & _). split_and!; try done.
    + split_and!; [done| |].
      * rewrite Hp. by apply has_val_filter.
      * eapply Forall_impl; [exact Hpos|]. unfold positive, nonzero. lia.
    + by rewrite take_app_length.
  - right. done.
Qed.

Lemma NewCoins_spec_witness :
  exists out arr, NewCoins [coinV "bcd" 5; coinV "abc" 0; coinV "aaa" 2] = Ok (out, arr) /\
    take (length out) arr = out.
Proof.
  assert (Coins_wf [coinV "bcd" 5; coinV "abc" 0; coinV "aaa" 2]) as Hw
    by wf_coins.
  destruct (NewCoins_spec _ Hw) as [(out & arr & E & _ & _ & _ & _ & H)|[[E|E] _]].
  - exists out, arr. split; [exact E|exact H].
  - vm_compute in E. discriminate E.
  - vm_compute in E. discriminate E.
Defined.

(** Adding writes to its arguments.  [removeZeroCoins] compacts the tail
    it is given in place, so when one list runs out, the zero coins of the
    other disappear from its own array: after [c.Add()] with
    [c = [0abc, 5bcd]], the receiver [c] holds [5bcd] twice and its total has
    doubled, although the returned sum is right. *)
Theorem Coins_Add_writes_receiver :
  let c := [coinV "abc" 0; coinV "bcd" 5] in
  Coins_Add c [] = Ok ([coinV "bcd" 5], [coinV "bcd" 5; coinV "bcd" 5], []) /\
  (forall arr, (snd <$> (fst <$> Coins_Add c [])) = Ok arr -> total arr "bcd" = 2 * total c "bcd").
Proof.
  split; [vm_compute; reflexivity|]. intros arr E. vm_compute in E. injection E as <-.
  vm_compute. reflexivity.
Qed.

Lemma allPositive_spec (l : Coins) : Forall has_val l ->
  exists b, allPositive_loop l = Ok b /\ (b = true <-> Forall positive l).
Proof.
  induction 1 as [|c l Hc _ (b & E & Hb)]; [exists true; split; [done|by split; [constructor|]]|].
  cbn [allPositive_loop]. rewrite c_IsPositive_val by done. cbn [mbind res_bind].
  destruct (Z.ltb_spec 0 (coin_val c)) as [Hp|Hp]; cbn [negb].
  - exists b. split; [done|]. rewrite Hb, Forall_cons. unfold positive at 2. naive_solver.
  - exists false. split; [done|]. split; [done|]. intros [Hpc _]%Forall_cons. unfold positive in Hpc. lia.
Qed.

(** ** [IsValid] and [Validate] *)

Definition denom_ok (c : Coin) : Prop := is_denom (Denom c) = true.

Lemma Validate_loop_spec c seen (l : Coins) :
  (forall d, d ∈ seen -> d = Denom c \/ slt d (Denom c)) -> Forall has_val l ->
  (forall p, Validate_loop (Denom c) seen l <> Panic p) /\
  (Validate_loop (Denom c) seen l = Ok tt <->
   sorted_coins (c :: l) /\ Forall positive l /\ Forall denom_ok l).
Proof.
  revert c seen. induction l as [|d l IH]; intros c seen Hseen Hv.
  - split; [done|]. split; [|done]. intros _. split_and!; by repeat constructor.
  - apply Forall_cons in Hv as [Hd Hv]. cbn [Validate_loop].
    assert (sorted_coins (c :: d :: l) -> slt (Denom c) (Denom d)) as Hlt.
    { intros [_ [Hcd _]%Forall_cons]%StronglySorted_inv. exact Hcd. }
    rewrite !Forall_cons. unfold denom_ok at 1, positive at 1.
    case_bool_decide as Hin.
    { split; [done|]. split; [done|]. intros (Hs & _). exfalso. apply Hlt in Hs.
      destruct (Hseen _ Hin) as [E|E].
      - rewrite E in Hs. by apply slt_irrefl in Hs.
      - by apply slt_asym in Hs. }
    unfold ValidateDenom, check. destruct (is_denom (Denom d)) eqn:Edn; cbn [mbind res_bind].
    2: { split; [done|]. split; [done|]. by intros (_ & _ & [? _]). }
    destruct (sleb (Denom d) (Denom c)) eqn:E.
    { split; [done|]. split; [done|]. intros (Hs & _). exfalso. apply Hlt in Hs.
      apply sltb_slt in Hs. unfold sleb in E. by rewrite Hs in E. }
    apply sleb_false in E. unfold Coin_IsPositive. rewrite c_IsPositive_val by done. cbn [mbind res_bind].
    destruct (Z.ltb_spec 0 (coin_val d)) as [Hp|Hp]; cbn [negb].
    2: { split; [done|]. split; [done|]. intros (_ & [? _] & _). lia. }
    destruct (IH d ({[Denom d]} ∪ seen)) as [IH1 IH2]; [|done|].
    { intros x [Hx%elem_of_singleton|Hx]%elem_of_union; [by left|right].
      destruct (Hseen x Hx) as [->|Hxc]; [done|by trans (Denom c)]. }
    split; [done|]. rewrite IH2. split.
    + intros (Hs & ? & ?). split_and!; try done. constructor; [done|]. by apply head_lt.
    + intros ([Hs _]%StronglySorted_inv & [_ ?] & [_ ?]). done.
Qed.

Lemma Coins_Validate_spec coins : Forall has_val coins ->
  (forall p, Coins_Validate coins <> Panic p) /\
  (Coins_Validate coins = Ok tt <-> sorted_coins coins /\ Forall positive coins /\ Forall denom_ok coins).
Proof.
  intros Hv. destruct coins as [|c rest].
  - split; [done|]. split; [|done]. intros _. split_and!; by constructor.
  - apply Forall_cons in Hv as [Hc Hv]. unfold Coins_Validate, ValidateDenom, check.
    rewrite !Forall_cons. unfold denom_ok at 1, positive at 1.
    destruct (is_denom (Denom c)) eqn:Ed; cbn [mbind res_bind];
      [|split; [done|]; split; [done|by intros (_ & _ & [? _])]].
    unfold Coin_IsPositive. rewrite c_IsPositive_val by done. cbn [mbind res_bind].
    destruct (Z.ltb_spec 0 (coin_val c)) as [Hp|Hp]; cbn [mbind res_bind].
    2: { split; [done|]. split; [done|]. intros (_ & [? _] & _). lia. }
    destruct (Validate_loop_spec c {[Denom c]} rest) as [Hnp Hl]; [|done|].
    { intros d ->%elem_of_singleton. by left. }
    destruct rest as [|d rest];
      [|split; [done|]; rewrite Hl; split; [intros (?&?&?)|intros (?&[??]&[??])]; by split_and!].
    split; [done|]. split; [|done]. intros _. split_and!; by repeat constructor.
Qed.

(** The two validity checks.  [Validate] accepts exactly the sorted lists
    of positive coins whose names all match the denomination pattern.
    [IsValid] applies the pattern to the first name only and requires the
    others to be lower case, so neither check implies the other: [IsValid]
    accepts a name with a space, and rejects upper-case names that [Validate]
    accepts. *)
Theorem Coins_IsValid_Validate :
  (forall coins, Coins_wf coins ->
     (Coins_Validate coins = Ok tt <-> sorted_coins coins /\ Forall positive coins /\ Forall denom_ok coins) /\
     (exists b, Coins_IsValid coins = Ok b /\ (b = true <-> valid_coins coins))) /\
  (let c := [coinV "abc" 1; coinV "b c" 1] in
   Coins_IsValid c = Ok true /\ Coins_Validate c = Err "invalid denom: %s") /\
  (let c := [coinV "ABC" 1; coinV "ABD" 1] in
   Coins_IsValid c = Ok false /\ Coins_Validate c = Ok tt).
Proof.
  split; [|split; vm_compute; split; reflexivity]. intros coins Hw.
  pose proof (Coins_wf_has_val coins Hw) as Hv. split; [by apply Coins_Validate_spec|by apply IsValid_spec].
Qed.

Lemma Coins_IsValid_Validate_witness :
  Coins_wf [coinV "abc" 1] /\ Coins_Validate [coinV "abc" 1] = Ok tt.
Proof.
  assert (Coins_wf [coinV "abc" 1]) as Hw by wf_coins. split; [exact Hw|].
  apply (proj1 (proj1 Coins_IsValid_Validate [coinV "abc" 1] Hw)).
  split_and!; repeat constructor.
Defined.

(** ** Text *)

Lemma ParseCoin_String d z :
  is_denom d = true -> 0 <= z -> int_range z -> ParseCoin (Coin_String (coinV d z)) = Ok (coinV d z).
Proof.
  intros Hd Hz Hr. unfold Coin_String, c_String. cbn [am_String Int_amount Amount Denom].
  unfold Int_String. cbn [ptr_text Int_i].
  assert (big_text z = nat_text z) as Et by (unfold big_text; by rewrite (proj2 (Z.ltb_ge z 0))).
  pose proof (nat_text_digits z) as Hdig. unfold str_digits in Hdig.
  assert (str_forall plain_chr (nat_text z) = true) as Hpl.
  { eapply str_forall_impl; [|exact Hdig]. intros c Hc. apply is_digit_code in Hc.
    unfold plain_chr. rewrite (proj2 (Z.leb_le _ _)), (proj2 (Z.leb_le _ _)); [done|lia..]. }
  rewrite Et. unfold ParseCoin. cbv zeta.
  rewrite TrimSpace_all_plain by (rewrite str_forall_app, Hpl; by apply (denom_plain d Hd)).
  assert (match_coin (nat_text z +:+ d) = Some (nat_text z, d)) as ->.
  { apply match_coin_spec. exists "". change ("" +:+ d) with d. split; [done|].
    unfold reAmt, reSpc. rewrite !matches_one, item_some, item_any, <-is_denom_re.
    split_and!; [done|apply nat_text_ne|done|done]. }
  assert (NewIntFromString (nat_text z) = Some (IntV z)) as ->.
  { unfold NewIntFromString, newIntegerFromString. rewrite <-Et, SetString0_big_text.
    by rewrite overflow_if, bool_decide_true. }
  unfold NewCoin, validate, ValidateDenom, check. rewrite Hd. cbn.
  unfold Int_IsNegative, Sign. cbn. rewrite (proj1 (proj2 (sgn_tests z))).
  by rewrite (proj2 (Z.ltb_ge z 0)).
Qed.

Lemma Coin_String_plain d z : is_denom d = true -> 0 <= z -> plain_text (Coin_String (coinV d z)).
Proof.
  intros Hd Hz. unfold Coin_String, c_String. cbn [am_String Int_amount Amount Denom].
  unfold Int_String. cbn [ptr_text Int_i]. unfold big_text. rewrite (proj2 (Z.ltb_ge z 0)) by done.
  pose proof (nat_text_digits z) as Hdig. unfold str_digits in Hdig.
  apply plain_text_app; [| |by apply denom_plain];
    (eapply str_forall_impl; [|exact Hdig]; intros [[] [] [] [] [] [] [] []]; vm_compute; done).
Qed.

(** Printing and parsing.  Every list in the normal form of [IsValid]
    whose names match the denomination pattern is read back by [ParseCoins]
    from its [String]; and whatever [ParseCoins] accepts is in that form. *)
Theorem ParseCoins_String_roundtrip :
  (forall coins, Coins_wf coins -> valid_coins coins -> Forall denom_ok coins ->
     ParseCoins (Coins_String coins) = Ok coins) /\
  (forall s coins, ParseCoins s = Ok coins -> valid_coins coins).
Proof.
  split.
  - intros coins Hw Hval Hok. apply parse_list_roundtrip; [by apply Coins_wf_has_val|done| |].
    + intros [d a] Hc. unfold Coins_wf, denom_ok in *. rewrite Forall_forall in Hw, Hok.
      destruct Hval as (_ & Hpos & _). rewrite Forall_forall in Hpos.
      destruct (Hw _ Hc) as (z & E & Hr). cbn in E. subst a. apply ParseCoin_String; [by apply Hok in Hc| |done].
      apply Hpos in Hc. unfold positive in Hc. change (coin_val (coinV d z)) with z in Hc. lia.
    + intros [d a] Hc. unfold Coins_wf, denom_ok in *. rewrite Forall_forall in Hw, Hok.
      destruct Hval as (_ & Hpos & _). rewrite Forall_forall in Hpos.
      destruct (Hw _ Hc) as (z & E & Hr). cbn in E. subst a. apply Coin_String_plain; [by apply Hok in Hc|].
      apply Hpos in Hc. unfold positive in Hc. change (coin_val (coinV d z)) with z in Hc. lia.
  - intros s coins E. eapply parse_list_sound in E as [_ H]; [exact H|].
    intros t c Hc. unfold ParseCoin in Hc. destruct (match_coin _) as [[a d]|]; [|done].
    unfold NewIntFromString in Hc. destruct (newIntegerFromString a) as [z|]; [|done].
    rewrite overflow_if in Hc. case_bool_decide; [|done]. destruct (ValidateDenom d); try done;
    (unfold NewCoin in Hc; destruct (validate _ _); [|done..]; injection Hc as <-; by eexists).
Qed.

Lemma ParseCoins_String_roundtrip_witness :
  ParseCoins "3abc,12bcd" = Ok [coinV "abc" 3; coinV "bcd" 12].
Proof.
  apply (proj1 ParseCoins_String_roundtrip [coinV "abc" 3; coinV "bcd" 12] ltac:(wf_coins)).
  - split_and!; repeat constructor.
  - repeat constructor.
Defined.

(** The amount is scanned with base detection: a leading zero makes it octal. *)
Lemma ParseCoin_octal :
  ParseCoin "010plug" = Ok (coinV "plug" 8) /\
  ParseCoin "09plug" = Err "failed to parse coin amount: %s".
Proof. split; vm_compute; reflexivity. Qed.

(** ** Single coins and equality *)

(** [Coin.Add] and [Coin.Sub] are exact on coins of one name; [Sub] panics
    instead of going below zero, so non-negative coins stay non-negative. *)
Theorem Coin_arith d x y :
  Coin_Add (coinV d x) (coinV d y) =
    (if bool_decide (int_range (x + y)) then Ok (coinV d (x + y)) else Panic "Int overflow") /\
  Coin_Sub (coinV d x) (coinV d y) =
    (if bool_decide (int_range (x - y))
     then (if x <? y then Panic "negative coin amount" else Ok (coinV d (x - y)))
     else Panic "Int overflow") /\
  (forall e, e <> d -> Coin_Add (coinV d x) (coinV e y) = Panic denom_mismatch /\
     Coin_Sub (coinV d x) (coinV e y) = Panic denom_mismatch).
Proof.
  split_and!.
  - unfold Coin_Add. rewrite (c_Add_val _ (coinV d x) (coinV d y)) by (done || by eexists). done.
  - unfold Coin_Sub. cbn [Denom Amount]. rewrite bool_decide_true by done. cbn [negb].
    unfold Int_Sub, int_sub. cbn [Int_i deref mbind res_bind]. rewrite overflow_if.
    case_bool_decide; [|done]. cbn [mbind res_bind]. unfold Coin_IsNegative.
    rewrite c_IsNegative_val by by eexists. cbn [mbind res_bind].
    change (coin_val (coinV d (x - y))) with (x - y).
    destruct (Z.ltb_spec (x - y) 0), (Z.ltb_spec x y); done || lia.
  - intros e He. unfold Coin_Add, c_Add, Coin_Sub. cbn [Denom].
    rewrite decide_False, bool_decide_false by congruence. done.
Qed.

Lemma Coin_arith_witness :
  Coin_Add (coinV "abc" 1) (coinV "abd" 2) = Panic denom_mismatch.
Proof. apply (proj2 (proj2 (Coin_arith "abc" 1 2)) "abd"). intros E. discriminate E. Defined.

Lemma coins_eq_loop_spec (a b : Coins) :
  Coins_wf a -> Coins_wf b -> (Denom <$> a) = (Denom <$> b) -> coins_eq_loop a b = Ok (bool_decide (a = b)).
Proof.
  revert b. induction a as [|[n x] a IH]; intros [|[m y] b] Ha Hb Hd; try done.
  apply Forall_cons in Ha as [(u & E & _) Ha], Hb as [(v & E' & _) Hb]. cbn in E, E'. subst x y.
  rewrite !fmap_cons in Hd. injection Hd as En Hd. cbn in En. subst m. cbn [coins_eq_loop]. unfold coin_eq. cbn [Denom Amount].
  rewrite decide_True by done. 
  assert (am_Equal (IntV u) (IntV v) = Ok (u =? v)) as -> by exact (am_Equal_mk (A:=Int) u v).
  cbn [mbind res_bind]. destruct (Z.eqb_spec u v) as [->|Hne]; cbn [negb].
  - rewrite IH by done. f_equal. apply bool_decide_ext. split; [by intros ->|]. by injection 1.
  - rewrite bool_decide_false; [done|]. intros [=]. done.
Qed.

(** Two sorted lists that compare as equal are the same list. *)
Lemma coins_eq_loop_true (a b : Coins) :
  Coins_wf a -> Coins_wf b -> length a = length b -> coins_eq_loop a b = Ok true -> a = b.
Proof.
  revert b. induction a as [|c a IH]; intros [|d b] Ha Hb Hl E; try done.
  apply Forall_cons in Ha as [(u & Ec & _) Ha], Hb as [(v & Ed & _) Hb]. destruct c as [n x], d as [m y]. cbn in Ec, Ed. subst x y.
  cbn [coins_eq_loop] in E. unfold coin_eq in E. cbn [Denom Amount] in E. destruct (decide (n = m)) as [->|]; [|done].
  assert (am_Equal (IntV u) (IntV v) = Ok (u =? v)) as Eq by exact (am_Equal_mk (A:=Int) u v). rewrite Eq in E.
  cbn [mbind res_bind] in E. destruct (Z.eqb_spec u v) as [->|]; [|done]. f_equal. injection Hl as Hl. by apply IH.
Qed.
Lemma Coins_IsEqual_true (a b : Coins) :
  Coins_wf a -> Coins_wf b -> sorted_coins a -> sorted_coins b ->
  snd (Coins_IsEqual a b) = Ok true <-> a = b.
Proof.
  intros Ha Hb Sa Sb. unfold Coins_IsEqual, coins_eq. split.
  - destruct (Nat.eqb_spec (length a) (length b)) as [Hl|]; [|done]. cbn [negb snd]. rewrite !Sort_id by done.
    by apply coins_eq_loop_true.
  - intros ->. rewrite Nat.eqb_refl. cbn [negb snd]. rewrite Sort_id by done. rewrite coins_eq_loop_spec by done.
    by rewrite bool_decide_true.
Qed.

(** Sums of well-formed lists are well formed. *)
Lemma Coins_Add_wf (a b s arrA arrB : Coins) :
  Coins_wf a -> Coins_wf b -> sorted_coins a -> sorted_coins b -> Coins_Add a b = Ok (s, arrA, arrB) -> Coins_wf s.
Proof.
  intros Ha Hb Sa Sb E.
  assert (forall l, Coins_wf l -> Forall bounded l) as Hw.
  { intros l Hl. eapply Forall_impl; [exact Hl|]. intros c (z & Ez & Hz). unfold bounded, coin_val. rewrite Ez. exact Hz. }
  assert (Forall bounded s) as Hs.
  { exact (safeAdd_loop_bounded _ _ [] [] [] a b s _ _ (Coins_wf_has_val a Ha) (Coins_wf_has_val b Hb) (Forall_nil_2 _)
      (Hw a Ha) (Hw b Hb) E). }
  destruct (safe_add_spec denom_mismatch a b (Coins_wf_has_val a Ha) (Coins_wf_has_val b Hb))
    as [(s' & ? & ? & E' & Hsum & _)|[E' _]]; unfold Coins_Add, Coins_safeAdd in E; rewrite E' in E; [|done].
  injection E as <- _ _. pose proof (sum_val _ _ _ Hsum) as Hv. clear -Hs Hv. unfold Coins_wf.
  induction Hv as [|c l [z Hz] _ IH]; [constructor|]. apply Forall_cons in Hs as [Hc Hs]. constructor; [|by apply IH].
  exists z. unfold bounded, coin_val in Hc. rewrite Hz in Hc. split; [|exact Hc]. by rewrite (am_cases c), Hz.
Qed.

(** [Coins.IsEqual].  Lists of different lengths are unequal; sorted lists
    with the same names are compared exactly; but two lists of the same length
    whose first names differ make it panic instead of returning false. *)
Theorem Coins_IsEqual_spec (a b : Coins) :
  Coins_wf a -> Coins_wf b -> sorted_coins a -> sorted_coins b ->
  (length a <> length b -> Coins_IsEqual a b = (a, b, Ok false)) /\
  ((Denom <$> a) = (Denom <$> b) -> Coins_IsEqual a b = (a, b, Ok (bool_decide (a = b)))) /\
  (forall c d a' b', a = c :: a' -> b = d :: b' -> length a = length b -> Denom c <> Denom d ->
     Coins_IsEqual a b = (a, b, Panic denom_mismatch)).
Proof.
  intros Hwa Hwb Ha Hb. unfold Coins_IsEqual, coins_eq. split_and!.
  - intros Hl. by rewrite (proj2 (Nat.eqb_neq _ _)).
  - intros Hd. pose proof (f_equal length Hd) as Hl. rewrite !length_fmap in Hl.
    rewrite Hl, Nat.eqb_refl. cbn [negb]. rewrite !Sort_id by done. by rewrite coins_eq_loop_spec.
  - intros c d a' b' Ea Eb Hl Hne. rewrite Hl, Nat.eqb_refl. cbn [negb].
    rewrite !Sort_id by done. rewrite Ea, Eb. cbn [coins_eq_loop]. unfold coin_eq.
    by rewrite decide_False.
Qed.

Lemma Coins_IsEqual_spec_witness :
  Coins_IsEqual [coinV "abc" 1] [coinV "abd" 1] = ([coinV "abc" 1], [coinV "abd" 1], Panic denom_mismatch).
Proof.
  eapply (proj2 (proj2 (Coins_IsEqual_spec [coinV "abc" 1] [coinV "abd" 1] ltac:(wf_coins) ltac:(wf_coins)
    ltac:(repeat constructor) ltac:(repeat constructor)))); [reflexivity..|]. intros E. discriminate E.
Defined.
