(* ===== verification/DecCoins.v ===== *)
(** [types/dec_coin.go]: [DecCoin] and [DecCoins], coins with [Dec] amounts. *)
From S2P Require Import Prelude GoStrings BigText SdkInt SdkDec CoinSet CoinText Coins.
From Stdlib Require Import Ascii.

Abbreviation DecCoin := (coin Dec).
Abbreviation DecCoins := (list (coin Dec)).

#[export] Instance Dec_amount : AmountOps Dec := {|
  am_IsZero := Dec_IsZero;
  am_IsNegative := Dec_IsNegative;
  am_IsPositive := Dec_IsPositive;
  am_Equal := Dec_Equal;
  am_Add := Dec_Add;
  am_Zero := ZeroDec;
  am_String := Dec_String;
|}.

(** Constructors. *)
Definition NewDecCoin (denom : string) (amount : Int) : res DecCoin :=
  _ ← must (validate denom amount); a ← Int_ToDec amount; Ok (MkCoin denom a).
Definition NewDecCoinFromDec (denom : string) (amount : Dec) : res DecCoin :=
  _ ← mustValidateDenom denom;
  n ← Dec_IsNegative amount;
  if n : bool then Panic "negative decimal coin amount: %v" else Ok (MkCoin denom amount).
Definition NewDecCoinFromCoin (c : Coin) : res DecCoin :=
  _ ← must (validate (Denom c) (Amount c)); a ← Int_ToDec (Amount c); Ok (MkCoin (Denom c) a).
Definition NewInt64DecCoin (denom : string) (amount : Z) : res DecCoin := NewDecCoin denom (NewInt amount).

(** Methods of [DecCoin]. *)
Definition DecCoin_IsZero (c : DecCoin) : res bool := c_IsZero c.
Definition DecCoin_IsPositive (c : DecCoin) : res bool := c_IsPositive c.
Definition DecCoin_IsNegative (c : DecCoin) : res bool := c_IsNegative c.
Definition DecCoin_String (c : DecCoin) : string := c_String c.
Definition same_denom (c d : DecCoin) : res unit :=
  panic_if (negb (bool_decide (Denom c = Denom d))) denom_mismatch.
Definition DecCoin_IsGTE (c d : DecCoin) : res bool :=
  _ ← same_denom c d; l ← Dec_LT (Amount c) (Amount d); Ok (negb l).
Definition DecCoin_IsLT (c d : DecCoin) : res bool := _ ← same_denom c d; Dec_LT (Amount c) (Amount d).
Definition DecCoin_IsEqual (c d : DecCoin) : res bool := coin_eq c d.
Definition dec_denom_mismatch : string := "coin denom different: %v %v".
Definition DecCoin_Add : DecCoin -> DecCoin -> res DecCoin := c_Add dec_denom_mismatch.
Definition DecCoin_Sub (c d : DecCoin) : res DecCoin :=
  if negb (bool_decide (Denom c = Denom d)) then Panic dec_denom_mismatch
  else
    m ← Dec_Sub (Amount c) (Amount d);
    let r := MkCoin (Denom c) m in
    n ← DecCoin_IsNegative r;
    if n : bool then Panic "negative decimal coin amount" else Ok r.
Definition DecCoin_TruncateDecimal (c : DecCoin) : res (Coin * DecCoin) :=
  truncated ← Dec_TruncateInt (Amount c);
  td ← Int_ToDec truncated;
  change ← Dec_Sub (Amount c) td;
  t ← NewCoin (Denom c) truncated;
  ch ← NewDecCoinFromDec (Denom c) change;
  Ok (t, ch).
Definition DecCoin_IsValid (c : DecCoin) : res bool :=
  if negb (is_denom (Denom c)) then Ok false else n ← DecCoin_IsNegative c; Ok (negb n).

(** Methods of [DecCoins]. *)
Definition removeZeroDecCoins (coins : DecCoins) : res (DecCoins * DecCoins) := removeZero coins.
Definition DecCoins_Sort (coins : DecCoins) : DecCoins := Sort coins.
Definition DecCoins_IsValid (coins : DecCoins) : res bool := IsValid coins.
Definition NewDecCoins (coins : DecCoins) : res (DecCoins * DecCoins) := new_coins coins.
Definition DecCoins_IsAnyNegative (coins : DecCoins) : res bool := IsAnyNegative coins.
Definition DecCoins_IsZero (coins : DecCoins) : res bool := IsZero coins.
Definition DecCoins_IsAllPositive (coins : DecCoins) : res bool := IsAllPositive coins.
Definition DecCoins_Empty (coins : DecCoins) : bool := Empty coins.
Definition DecCoins_AmountOf (coins : DecCoins) (denom : string) : res Dec := AmountOf coins denom.
Definition DecCoins_String (coins : DecCoins) : string := coins_text coins.
Definition DecCoins_IsEqual (coins coinsB : DecCoins) : DecCoins * DecCoins * res bool := coins_eq coins coinsB.
Definition DecCoins_safeAdd (coins coinsB : DecCoins) : res (DecCoins * DecCoins * DecCoins) :=
  safe_add dec_denom_mismatch coins coinsB.
Definition DecCoins_Add (coins coinsB : DecCoins) : res (DecCoins * DecCoins * DecCoins) :=
  DecCoins_safeAdd coins coinsB.

(** The sum alone, where the argument arrays are not used afterwards. *)
Definition dec_add (coins coinsB : DecCoins) : res DecCoins := '(s, _, _) ← DecCoins_Add coins coinsB; Ok s.

(** [NewDecCoinsFromCoins]: the result has the length of the arguments, and
    the zero value where [NewCoins] dropped a coin. *)
Fixpoint to_dec_coins (coins : Coins) : res DecCoins :=
  match coins with
  | [] => Ok []
  | c :: coins => d ← NewDecCoinFromCoin c; ds ← to_dec_coins coins; Ok (d :: ds)
  end.
Definition NewDecCoinsFromCoins (coins : Coins) : res DecCoins :=
  '(newCoins, _) ← NewCoins coins;
  decs ← to_dec_coins newCoins;
  Ok (decs ++ replicate (length coins - length newCoins) (MkCoin "" (MkDec None))).

(** [TruncateDecimal] on a list: the loop with its two accumulators. *)
Fixpoint truncate_loop (truncatedCoins : Coins) (changeCoins : DecCoins) (coins : DecCoins)
    : res (Coins * DecCoins) :=
  match coins with
  | [] => Ok (truncatedCoins, changeCoins)
  | c :: coins =>
      '(truncated, change) ← DecCoin_TruncateDecimal c;
      tz ← Coin_IsZero truncated;
      ts ← (if negb tz then '(s, _, _) ← Coins_Add truncatedCoins [truncated]; Ok s else Ok truncatedCoins);
      cz ← DecCoin_IsZero change;
      cs ← (if negb cz then dec_add changeCoins [change] else Ok changeCoins);
      truncate_loop ts cs coins
  end.
Definition DecCoins_TruncateDecimal (coins : DecCoins) : res (Coins * DecCoins) := truncate_loop [] [] coins.

Fixpoint negative (coins : DecCoins) : res DecCoins :=
  match coins with
  | [] => Ok []
  | c :: coins => a ← Dec_Neg (Amount c); r ← negative coins; Ok (MkCoin (Denom c) a :: r)
  end.
Definition DecCoins_SafeSub (coins coinsB : DecCoins) : res (DecCoins * bool) :=
  neg ← negative coinsB;
  diff ← dec_add coins neg;
  n ← DecCoins_IsAnyNegative diff;
  Ok (diff, n).
Definition DecCoins_Sub (coins coinsB : DecCoins) : res DecCoins :=
  '(diff, hasNeg) ← DecCoins_SafeSub coins coinsB;
  if hasNeg : bool then Panic "negative coin amount" else Ok diff.

Fixpoint intersect_loop (coinsB coins : DecCoins) : res DecCoins :=
  match coins with
  | [] => Ok []
  | c :: coins =>
      b ← DecCoins_AmountOf coinsB (Denom c);
      m ← MinDec (Amount c) b;
      r ← intersect_loop coinsB coins; Ok (MkCoin (Denom c) m :: r)
  end.
Definition Intersect (coins coinsB : DecCoins) : res DecCoins :=
  r ← intersect_loop coinsB coins; '(s, _) ← removeZeroDecCoins r; Ok s.

(** The loop shared by [MulDec], [MulDecTruncate], [QuoDec] and
    [QuoDecTruncate]: the non-zero products are added one by one. *)
Fixpoint scale_loop (f : Dec -> res Dec) (res0 : DecCoins) (coins : DecCoins) : res DecCoins :=
  match coins with
  | [] => Ok res0
  | c :: coins =>
      p ← f (Amount c);
      let product := MkCoin (Denom c) p in
      z ← DecCoin_IsZero product;
      res1 ← (if negb z then dec_add res0 [product] else Ok res0);
      scale_loop f res1 coins
  end.
Definition MulDec (coins : DecCoins) (d : Dec) : res DecCoins := scale_loop (fun a => Dec_Mul a d) [] coins.
Definition MulDecTruncate (coins : DecCoins) (d : Dec) : res DecCoins :=
  scale_loop (fun a => Dec_MulTruncate a d) [] coins.
Definition QuoDec (coins : DecCoins) (d : Dec) : res DecCoins :=
  z ← Dec_IsZero d;
  if z : bool then Panic "invalid zero decimal" else scale_loop (fun a => Dec_Quo a d) [] coins.
Definition QuoDecTruncate (coins : DecCoins) (d : Dec) : res DecCoins :=
  z ← Dec_IsZero d;
  if z : bool then Panic "invalid zero decimal" else scale_loop (fun a => Dec_QuoTruncate a d) [] coins.

Definition ParseDecCoin (coinStr : string) : res DecCoin :=
  let coinStr := TrimSpace coinStr in
  match match_dec_coin coinStr with
  | None => Err "invalid decimal coin expression: %s"
  | Some (amountStr, denomStr) =>
      match NewDecFromStr amountStr with
      | Err e => Err e
      | Panic p => Panic p
      | Ok amount =>
          match ValidateDenom denomStr with
          | Err _ => Err "invalid denom cannot contain upper case characters or spaces: %s"
          | _ => NewDecCoinFromDec denomStr amount
          end
      end
  end.
Definition ParseDecCoins : string -> res DecCoins :=
  parse_list ParseDecCoin "parsed decimal coins are invalid: %#v".

(* ------------------------------------------------------------------ *)
(** * [Dec] is an amount *)

#[export] Program Instance Dec_amount_laws : AmountLaws Dec := {|
  am_mk := MkDec; am_ptr := Dec_i; am_bits := 255 + DecimalPrecisionBits
|}.
Next Obligation. by intros []. Qed.
Next Obligation. done. Qed.
Next Obligation. done. Qed.
Next Obligation.
  intros [z|]; [|done]. cbn. unfold Dec_IsZero, Sign. cbn. by rewrite (proj1 (sgn_tests z)).
Qed.
Next Obligation.
  intros [z|]; [|done]. cbn. unfold Dec_IsNegative, Sign. cbn. by rewrite (proj1 (proj2 (sgn_tests z))).
Qed.
Next Obligation.
  intros [z|]; [|done]. cbn. unfold Dec_IsPositive, Sign. cbn. by rewrite (proj2 (proj2 (sgn_tests z))).
Qed.
Next Obligation. intros x y. cbn. unfold Dec_Equal. cbn. by rewrite Cmp_eq0. Qed.
Next Obligation. intros x y. cbn. unfold Dec_Add. cbn. by rewrite Dec_checked_if. Qed.

Abbreviation decV d z := (MkCoin d (DecV z)).

Definition DecCoins_wf (coins : DecCoins) : Prop :=
  Forall (fun c => exists z, Amount c = DecV z /\ dec_range z) coins.

Lemma DecCoins_wf_has_val coins : DecCoins_wf coins -> Forall has_val coins.
Proof.
  intros Hw. eapply Forall_impl; [exact Hw|]. intros c (z & E & _). unfold has_val. rewrite E. by eexists.
Qed.

(* ------------------------------------------------------------------ *)
(** * Properties *)

Ltac wf_dec_coins :=
  unfold DecCoins_wf; repeat (apply Forall_cons; split); try (by apply Forall_nil);
  eexists; (split; [reflexivity|by vm_compute]).

Lemma dec_add_spec a b :
  Forall has_val a -> Forall has_val b -> sorted_coins a -> sorted_coins b ->
  (exists s, dec_add a b = Ok s /\ canonical s /\
     forall denom, total s denom = total a denom + total b denom) \/
  (dec_add a b = Panic "Int overflow" /\ exists denom, ~ dec_range (total a denom + total b denom)).
Proof.
  intros Hva Hvb Ha Hb. unfold dec_add, DecCoins_Add, DecCoins_safeAdd.
  destruct (safe_add_spec dec_denom_mismatch a b Hva Hvb) as [(s & ? & ? & -> & Hs & _)|[-> Ho]].
  - left. exists s. split; [done|]. split; [exact (sum_of_canonical a b _ Ha Hb Hs)|apply Hs].
  - right. split; [done|]. destruct (overflow_pair_total a b Ha Hb Ho) as (denom & Hd).
    exists denom. unfold dec_range. cbn [am_bits Dec_amount_laws] in Hd. lia.
Qed.

Definition neg_coin (c : DecCoin) : DecCoin := decV (Denom c) (- coin_val c).

Lemma dec_val_cases (c : DecCoin) : has_val c -> Amount c = DecV (coin_val c).
Proof.
  destruct c as [d [[z|]]]; [done|]. intros [? H]. discriminate H.
Qed.

Lemma negative_map b : Forall has_val b -> negative b = Ok (neg_coin <$> b).
Proof.
  induction 1 as [|c b Hc Hb IH]; [done|]. cbn [negative].
  rewrite (dec_val_cases c Hc). cbn. rewrite IH. done.
Qed.

Lemma total_neg b denom : total (neg_coin <$> b) denom = - total b denom.
Proof.
  induction b as [|c b IH]; [done|]. rewrite fmap_cons. cbn [total]. rewrite IH.
  change (Denom (neg_coin c)) with (Denom c). change (coin_val (neg_coin c)) with (- coin_val c).
  destruct (decide _); lia.
Qed.

Lemma IsAnyNegative_spec {A} `{AmountLaws A} (l : list (coin A)) :
  Forall has_val l -> IsAnyNegative l = Ok (bool_decide (Exists (fun c => coin_val c < 0) l)).
Proof.
  induction 1 as [|c l Hc Hl IH].
  - rewrite bool_decide_false; [done|]. by inversion 1.
  - cbn [IsAnyNegative]. rewrite c_IsNegative_val by done. cbn [mbind res_bind].
    destruct (Z.ltb_spec (coin_val c) 0) as [Hn|Hn].
    + rewrite bool_decide_true; [done|]. by constructor.
    + rewrite IH. f_equal. apply bool_decide_ext. rewrite Exists_cons. split; [by right|].
      intros [?|?]; [lia|done].
Qed.

(** A canonical list has a negative coin iff some total is negative. *)
Lemma canonical_negative {A} `{AmountLaws A} (s : list (coin A)) :
  canonical s -> Exists (fun c => coin_val c < 0) s <-> exists denom, total s denom < 0.
Proof.
  intros (Hs & _ & _). rewrite Exists_exists. split.
  - intros (c & Hc & Hn). exists (Denom c). by rewrite total_sorted.
  - intros (denom & Hn). assert (total s denom <> 0) as Hz by lia.
    destruct (total_nonzero_elem s denom Hz) as (c & Hc & <-).
    exists c. by rewrite total_sorted in Hn.
Qed.

(** Subtraction of decimal coin lists.  On sorted lists whose differences
    fit, [SafeSub] returns the canonical list of the differences, its flag
    tells whether some denomination went below zero, and [Sub] panics exactly
    in that case. *)
Theorem DecCoins_Sub_spec (a b : DecCoins) :
  DecCoins_wf a -> DecCoins_wf b -> sorted_coins a -> sorted_coins b ->
  (forall denom, dec_range (total a denom - total b denom)) ->
  exists s hasNeg, DecCoins_SafeSub a b = Ok (s, hasNeg) /\ canonical s /\
    (forall denom, total s denom = total a denom - total b denom) /\
    (hasNeg = true <-> exists denom, total a denom < total b denom) /\
    DecCoins_Sub a b = (if hasNeg then Panic "negative coin amount" else Ok s).
Proof.
  intros Hwa Hwb Ha Hb Hr. pose proof (DecCoins_wf_has_val a Hwa) as Hva.
  pose proof (DecCoins_wf_has_val b Hwb) as Hvb.
  assert (Forall has_val (neg_coin <$> b)) as Hvn.
  { rewrite Forall_forall. intros ? (c & -> & Hc)%list_elem_of_fmap. by eexists. }
  destruct (dec_add_spec a (neg_coin <$> b) Hva Hvn Ha (sorted_relabel neg_coin b (fun _ => eq_refl) Hb))
    as [(s & E & Hc & Ht)|[_ (denom & Hd)]].
  2: { exfalso. apply Hd. rewrite total_neg. apply Hr. }
  exists s, (bool_decide (Exists (fun c => coin_val c < 0) s)).
  assert (forall denom, total s denom = total a denom - total b denom) as Ht'.
  { intros denom. rewrite Ht, total_neg. lia. }
  assert (DecCoins_SafeSub a b = Ok (s, bool_decide (Exists (fun c => coin_val c < 0) s))) as ES.
  { unfold DecCoins_SafeSub, DecCoins_IsAnyNegative. rewrite negative_map by done. cbn [mbind res_bind]. rewrite E. cbn [mbind res_bind].
    by rewrite IsAnyNegative_spec by apply Hc. }
  split; [done|]. split; [done|]. split; [done|]. split.
  - rewrite bool_decide_eq_true, canonical_negative by done. setoid_rewrite Ht'.
    split; intros [denom ?]; exists denom; lia.
  - unfold DecCoins_Sub. by rewrite ES.
Qed.

Lemma DecCoins_Sub_spec_witness :
  DecCoins_Sub [decV "abc" 5] [decV "abc" 7] = Panic "negative coin amount".
Proof.
  destruct (DecCoins_Sub_spec [decV "abc" 5] [decV "abc" 7] ltac:(wf_dec_coins) ltac:(wf_dec_coins)
    ltac:(repeat constructor) ltac:(repeat constructor)) as (s & n & _ & _ & _ & Hn & E).
  { intros denom. cbn [total Denom]. destruct (decide _); by vm_compute. }
  rewrite E. rewrite (proj2 Hn); [reflexivity|]. exists "abc". vm_compute. reflexivity.
Defined.

(** ** Scaling *)

Definition map_val (g : Z -> Z) (c : DecCoin) : DecCoin := decV (Denom c) (g (coin_val c)).

(** Relabelling a sorted list acts on its totals. *)
Lemma total_relabel {A B} `{AmountLaws A} `{AmountLaws B} (h : coin A -> coin B) g l denom :
  (forall c, Denom (h c) = Denom c) -> (forall c, coin_val (h c) = g (coin_val c)) ->
  g 0 = 0 -> sorted_coins l -> total (h <$> l) denom = g (total l denom).
Proof.
  intros Hd Hv Hg0 Hs. destruct (decide (denom ∈ Denom <$> l)) as [(c & -> & Hc)%list_elem_of_fmap|Hn].
  - rewrite (total_sorted l c) by done.
    assert (sorted_coins (h <$> l)) as Hs' by by apply sorted_relabel.
    rewrite <-(Hd c), (total_sorted (h <$> l)); [apply Hv|done|]. by apply list_elem_of_fmap_2.
  - rewrite (total_absent l) by done. rewrite total_absent; [done|].
    intros (c & -> & Hc)%list_elem_of_fmap. apply list_elem_of_fmap in Hc as (d & -> & Hdl).
    apply Hn. rewrite Hd. by apply (list_elem_of_fmap_2 Denom l d).
Qed.

Lemma total_map_val g (l : DecCoins) denom :
  g 0 = 0 -> sorted_coins l -> total (map_val g <$> l) denom = g (total l denom).
Proof. by apply total_relabel. Qed.

Lemma canonical_filter {A} `{AmountLaws A} (l : list (coin A)) :
  sorted_coins l -> Forall has_val l -> canonical (filter nonzero l).
Proof.
  intros Hs Hv. split_and!.
  - by apply sorted_filter.
  - by apply has_val_filter.
  - rewrite Forall_forall. by intros c [Hc _]%list_elem_of_filter.
Qed.

Lemma dec_add_snoc l c : canonical (l ++ [c]) -> dec_add l [c] = Ok (l ++ [c]).
Proof.
  intros Hc. unfold dec_add, DecCoins_Add, DecCoins_safeAdd. by rewrite safe_add_snoc.
Qed.

(** One step of an accumulating loop: a non-zero coin with a name above all
    those collected is appended. *)
Lemma filter_snoc_canonical {A} `{AmountLaws A} (pre : list (coin A)) c :
  sorted_coins (pre ++ [c]) -> Forall has_val (pre ++ [c]) -> nonzero c ->
  canonical (filter nonzero pre ++ [c]).
Proof.
  intros Hs Hv Hn. replace (filter nonzero pre ++ [c]) with (filter nonzero (pre ++ [c])).
  - by apply canonical_filter.
  - rewrite filter_app. f_equal. by rewrite filter_cons_True.
Qed.

(** The accumulation step of the loops: add the coin unless it is zero. *)
Lemma accumulate {A} `{AmountLaws A} (add : list (coin A) -> list (coin A) -> res (list (coin A))) pre c :
  (forall l, canonical (l ++ [c]) -> add l [c] = Ok (l ++ [c])) ->
  sorted_coins (pre ++ [c]) -> Forall has_val (pre ++ [c]) ->
  (if negb (coin_val c =? 0) then add (filter nonzero pre) [c] else Ok (filter nonzero pre)) =
  Ok (filter nonzero pre ++ filter nonzero [c]).
Proof.
  intros Hadd Hs Hv. destruct (Z.eqb_spec (coin_val c) 0) as [Hz|Hz]; cbn [negb].
  - rewrite (filter_cons_False nonzero c []) by (unfold nonzero; lia). by rewrite filter_nil, app_nil_r.
  - rewrite (filter_cons_True nonzero c []), filter_nil by done. by apply Hadd, filter_snoc_canonical.
Qed.

Lemma map_val_has_val g (l : DecCoins) : Forall has_val (map_val g <$> l).
Proof. rewrite Forall_forall. intros ? (c & -> & _)%list_elem_of_fmap. by eexists. Qed.

Lemma scale_loop_spec f g (pre coins : DecCoins) :
  (forall c, c ∈ coins -> f (Amount c) = Ok (DecV (g (coin_val c)))) ->
  sorted_coins (pre ++ coins) ->
  scale_loop f (filter nonzero (map_val g <$> pre)) coins =
  Ok (filter nonzero (map_val g <$> (pre ++ coins))).
Proof.
  revert pre. induction coins as [|c coins IH]; intros pre Hf Hs.
  - by rewrite app_nil_r.
  - cbn [scale_loop]. rewrite (Hf c) by constructor. cbn [mbind res_bind].
    unfold DecCoin_IsZero. change (MkCoin (Denom c) (DecV (g (coin_val c)))) with (map_val g c).
    rewrite c_IsZero_val by by eexists. cbn [mbind res_bind].
    replace (pre ++ c :: coins) with ((pre ++ [c]) ++ coins) in Hs |- * by by rewrite <-app_assoc.
    specialize (IH (pre ++ [c]) (fun d Hd => Hf d (list_elem_of_further _ _ _ Hd)) Hs).
    assert (sorted_coins (map_val g <$> (pre ++ [c]))) as Hsm.
    { apply sorted_relabel; [done|]. by apply StronglySorted_app in Hs as (_ & ? & _). }
    pose proof (map_val_has_val g (pre ++ [c])) as Hvm.
    rewrite fmap_app in Hsm, Hvm. rewrite (fmap_app _ pre [c]), filter_app in IH.
    cbn [fmap list_fmap] in *.
    rewrite (accumulate dec_add) by (done || (intros; by apply dec_add_snoc)). exact IH.
Qed.

(** The truncated product and quotient of scaled integers. *)
Definition mul_trunc (d x : Z) : Z := Z.quot (x * d) precisionReuse.
Definition quo_trunc (d x : Z) : Z := Z.quot (x * precisionReuse) d.

(** Scaling a sorted list by a decimal works denomination by denomination:
    when the results fit, [MulDec], [MulDecTruncate] and [QuoDecTruncate]
    return the canonical list whose totals are the rounded (to even),
    truncated product and truncated quotient of the totals; dividing by zero
    panics. *)
Theorem DecCoins_scale (coins : DecCoins) d :
  DecCoins_wf coins -> sorted_coins coins ->
  (forall g op, (g = (fun x => chopPrecisionAndRound (x * d)) /\ op = MulDec \/
                 g = mul_trunc d /\ op = MulDecTruncate \/
                 g = quo_trunc d /\ op = QuoDecTruncate /\ d <> 0) ->
     (forall denom, dec_range (g (total coins denom))) ->
     exists s, op coins (DecV d) = Ok s /\ canonical s /\ forall denom, total s denom = g (total coins denom)) /\
  QuoDec coins (DecV 0) = Panic "invalid zero decimal" /\
  QuoDecTruncate coins (DecV 0) = Panic "invalid zero decimal".
Proof.
  intros Hw Hs. split; [|done]. intros g op Hop Hg.
  assert (forall f, g 0 = 0 -> (forall x, f (DecV x) = Dec_checked (g x)) ->
    exists s, scale_loop f [] coins = Ok s /\ canonical s /\ forall denom, total s denom = g (total coins denom)) as Hloop.
  { intros f Hg0 Hf. pose proof (scale_loop_spec f g [] coins) as E. cbn [fmap list_fmap app] in E.
    rewrite filter_nil in E. eexists. split; [apply E; [|done]|].
    - unfold DecCoins_wf in Hw. rewrite Forall_forall in Hw. intros c Hc.
      destruct (Hw c Hc) as (z & Ez & Hz). rewrite (dec_val_cases c) by (unfold has_val; rewrite Ez; by eexists).
      rewrite Hf. specialize (Hg (Denom c)). rewrite total_sorted in Hg by done. by apply Dec_checked_range.
    - split; [apply canonical_filter; [by apply sorted_relabel|apply map_val_has_val]|].
      intros denom. rewrite total_nonzero. by apply total_map_val. }
  destruct Hop as [[-> ->]|[[-> ->]|(-> & -> & Hd)]].
  - apply Hloop; done.
  - apply Hloop; [unfold mul_trunc; by rewrite Z.mul_0_l|]. done.
  - unfold QuoDecTruncate, Dec_IsZero, Sign. cbn [Dec_i deref mbind res_bind].
    rewrite (proj2 (Z.eqb_neq (Z.sgn d) 0)) by lia. apply Hloop.
    + unfold quo_trunc. rewrite Z.mul_0_l. by apply Z.quot_0_l.
    + intros x. unfold Dec_QuoTruncate, Dec_quo_with, big_Quo. cbn [Dec_i deref mbind res_bind].
      rewrite (proj2 (Z.eqb_neq d 0)) by done. cbn [mbind res_bind].
      unfold chopPrecisionAndTruncate. by rewrite quot_chop.
Qed.

Lemma DecCoins_scale_witness :
  exists s, MulDecTruncate [decV "abc" 7] (DecV (precisionReuse / 2)) = Ok s /\ total s "abc" = 3.
Proof.
  destruct (proj1 (DecCoins_scale [decV "abc" 7] (precisionReuse / 2) ltac:(wf_dec_coins) ltac:(repeat constructor))
    (mul_trunc (precisionReuse / 2)) MulDecTruncate (or_intror (or_introl (conj eq_refl eq_refl))))
    as (s & E & _ & Ht).
  - intros denom. cbn [total Denom]. destruct (decide _); by vm_compute.
  - exists s. split; [exact E|]. rewrite Ht. vm_compute. reflexivity.
Defined.

(** ** Intersection *)

Lemma MinDec_val x y : MinDec (DecV x) (DecV y) = Ok (DecV (Z.min x y)).
Proof.
  unfold MinDec, Dec_LT. cbn [Dec_i]. rewrite ptr_Cmp_some. cbn [mbind res_bind].
  destruct (Z.ltb_spec (Cmp x y) 0); cmp_case x y; do 3 f_equal; lia.
Qed.

Definition min_coin (b : DecCoins) (c : DecCoin) : DecCoin :=
  decV (Denom c) (Z.min (coin_val c) (total b (Denom c))).

Lemma intersect_loop_spec a b :
  Forall has_val a -> Forall has_val b -> sorted_coins b ->
  Forall (fun c => is_denom (Denom c) = true) a ->
  intersect_loop b a = Ok (min_coin b <$> a).
Proof.
  intros Ha Hb Hs Hd. induction a as [|c a IH]; [done|].
  apply Forall_cons in Ha as [Hc Ha], Hd as [Hdc Hd]. cbn [intersect_loop].
  unfold DecCoins_AmountOf. rewrite AmountOf_find, Hdc, find_amount_total by done. cbn [mbind res_bind].
  rewrite (dec_val_cases c Hc). change (am_mk (Some ?z)) with (DecV z). rewrite MinDec_val.
  cbn [mbind res_bind]. by rewrite IH.
Qed.

(** [Intersect] is the pointwise minimum: for sorted lists of positive
    coins, in every denomination the result holds the lesser of the two
    totals, hence nothing outside either list. *)
Theorem DecCoins_Intersect_min (a b : DecCoins) :
  DecCoins_wf a -> DecCoins_wf b -> sorted_coins a -> sorted_coins b ->
  Forall positive a -> Forall positive b -> Forall (fun c => is_denom (Denom c) = true) a ->
  exists s, Intersect a b = Ok s /\ canonical s /\
    forall denom, total s denom = Z.min (total a denom) (total b denom).
Proof.
  intros Hwa Hwb Ha Hb Hpa Hpb Hd. unfold Intersect, removeZeroDecCoins.
  rewrite intersect_loop_spec by (done || by apply DecCoins_wf_has_val). cbn [mbind res_bind].
  assert (Forall has_val (min_coin b <$> a)) as Hv.
  { rewrite Forall_forall. intros ? (c & -> & _)%list_elem_of_fmap. by eexists. }
  destruct (removeZero_spec _ Hv) as (x & -> & _). cbn [mbind res_bind]. eexists. split; [done|].
  assert (sorted_coins (min_coin b <$> a)) as Hs by by apply sorted_relabel.
  split; [by apply canonical_filter|]. intros denom. rewrite total_nonzero.
  pose proof (total_nonneg b denom Hpb) as Hnb.
  destruct (decide (denom ∈ Denom <$> a)) as [(c & -> & Hc)%list_elem_of_fmap|Hn].
  - rewrite (total_sorted a c) by done. change (Denom c) with (Denom (min_coin b c)) at 1.
    rewrite (total_sorted (min_coin b <$> a)); [done|done|]. by apply list_elem_of_fmap_2.
  - rewrite (total_absent a), total_absent by
      (done || (intros (c & -> & Hc)%list_elem_of_fmap; apply list_elem_of_fmap in Hc as (d & -> & Hdl);
                apply Hn; by apply (list_elem_of_fmap_2 Denom a d))). lia.
Qed.

Lemma DecCoins_Intersect_min_witness :
  exists s, Intersect [decV "abc" 5; decV "bcd" 2] [decV "abc" 3] = Ok s /\ total s "abc" = 3.
Proof.
  destruct (DecCoins_Intersect_min [decV "abc" 5; decV "bcd" 2] [decV "abc" 3]) as (s & E & _ & Ht);
    [wf_dec_coins|wf_dec_coins|repeat constructor..|].
  exists s. split; [exact E|]. rewrite Ht. reflexivity.
Defined.

(** ** Truncation to whole coins *)

Definition whole (z : Z) : Z := Z.quot z precisionReuse.
Definition fraction (z : Z) : Z := Z.rem z precisionReuse.
Definition whole_coin (c : DecCoin) : Coin := coinV (Denom c) (whole (coin_val c)).

(** The coins [TruncateDecimal] handles without panicking. *)
Definition truncatable (c : DecCoin) : Prop :=
  is_denom (Denom c) = true /\ 0 <= coin_val c /\ has_val c /\
  dec_range (coin_val c) /\ int_range (whole (coin_val c)).

Lemma fraction_bounds z : 0 <= z -> 0 <= fraction z < precisionReuse /\ z = whole z * precisionReuse + fraction z.
Proof.
  intros Hz. destruct (quot_rem_P z Hz) as [E B]. unfold whole, fraction. split; [done|]. lia.
Qed.

Lemma TruncateDecimal_val c :
  truncatable c -> DecCoin_TruncateDecimal c = Ok (whole_coin c, map_val fraction c).
Proof.
  intros (Hd & Hz & Hv & Hr & Hi). pose proof (fraction_bounds _ Hz) as [Hf E].
  unfold DecCoin_TruncateDecimal. rewrite (dec_val_cases c Hv).
  set (z := coin_val c) in *. unfold Dec_TruncateInt, NewIntFromBigInt. cbn [Dec_i deref mbind res_bind].
  unfold chopPrecisionAndTruncateNonMutative, chopPrecisionAndTruncate. fold (whole z).
  rewrite overflow_if, bool_decide_true by done. cbn [mbind res_bind].
  unfold Int_ToDec, NewDecFromInt, NewDecFromIntWithPrec, Int_BigInt. cbn [Int_IsNil Int_i deref mbind res_bind].
  change (precisionMultiplier 0) with (Ok precisionReuse). cbn [mbind res_bind].
  unfold Dec_Sub. cbn [Dec_i deref mbind res_bind].
  replace (z - whole z * precisionReuse) with (fraction z) by lia.
  rewrite Dec_checked_range.
  2: { unfold dec_range. apply Z.lt_trans with precisionReuse; [lia|by vm_compute]. }
  cbn [mbind res_bind].
  assert (0 <= whole z) as Hw by (rewrite precisionReuse_val in *; nia).
  unfold NewCoin, validate, NewDecCoinFromDec, mustValidateDenom, ValidateDenom, check. rewrite Hd.
  unfold Int_IsNegative, Dec_IsNegative, Sign. cbn [mbind res_bind Int_i Dec_i deref].
  rewrite !(proj1 (proj2 (sgn_tests _))), (proj2 (Z.ltb_ge (whole z) 0)), (proj2 (Z.ltb_ge (fraction z) 0)) by lia.
  done.
Qed.

Lemma coins_add_snoc l c : canonical (l ++ [c]) -> Coins_Add l [c] = Ok (l ++ [c], l, [c]).
Proof. apply safe_add_snoc. Qed.

Lemma truncate_loop_spec (pre coins : DecCoins) :
  Forall truncatable coins -> sorted_coins (pre ++ coins) ->
  truncate_loop (filter nonzero (whole_coin <$> pre)) (filter nonzero (map_val fraction <$> pre)) coins =
  Ok (filter nonzero (whole_coin <$> (pre ++ coins)), filter nonzero (map_val fraction <$> (pre ++ coins))).
Proof.
  intros Ht. revert pre. induction Ht as [|c coins Hc Ht IH]; intros pre Hs.
  - by rewrite app_nil_r.
  - cbn [truncate_loop]. rewrite TruncateDecimal_val by done. cbn [mbind res_bind].
    unfold Coin_IsZero, DecCoin_IsZero. rewrite !c_IsZero_val by by eexists. cbn [mbind res_bind].
    replace (pre ++ c :: coins) with ((pre ++ [c]) ++ coins) in Hs |- * by by rewrite <-app_assoc.
    specialize (IH (pre ++ [c]) Hs). apply StronglySorted_app in Hs as (_ & Hs & _).
    pose proof (sorted_relabel whole_coin _ (fun _ => eq_refl) Hs) as Hs1.
    pose proof (sorted_relabel (map_val fraction) _ (fun _ => eq_refl) Hs) as Hs2.
    assert (Forall has_val (whole_coin <$> (pre ++ [c]))) as Hv1.
    { rewrite Forall_forall. intros ? (d & -> & _)%list_elem_of_fmap. by eexists. }
    pose proof (map_val_has_val fraction (pre ++ [c])) as Hv2.
    rewrite (fmap_app whole_coin pre [c]) in Hs1, Hv1, IH.
    rewrite (fmap_app (map_val fraction) pre [c]) in Hs2, Hv2, IH. rewrite !filter_app in IH.
    cbn [fmap list_fmap] in *. rewrite <-IH. clear IH.
    rewrite (accumulate (fun l k => '(s, _, _) ← Coins_Add l k; Ok s));
      [|intros l Hl; by rewrite coins_add_snoc|done|done].
    cbn [mbind res_bind]. by rewrite (accumulate dec_add) by (done || (intros; by apply dec_add_snoc)).
Qed.

Lemma sum_of_whole (l : DecCoins) : Forall has_val (whole_coin <$> l).
Proof. rewrite Forall_forall. intros ? (d & -> & _)%list_elem_of_fmap. by eexists. Qed.

(** [TruncateDecimal] splits a list of non-negative decimal coins into
    whole coins and change without losing anything: both lists are canonical
    (in particular free of zero coins), the change of every denomination is
    below one, and whole coins plus change are the original total. *)
Theorem DecCoins_TruncateDecimal_split (coins : DecCoins) :
  sorted_coins coins -> Forall truncatable coins ->
  exists t ch, DecCoins_TruncateDecimal coins = Ok (t, ch) /\ canonical t /\ canonical ch /\
    forall denom, 0 <= total ch denom < precisionReuse /\
      total coins denom = total t denom * precisionReuse + total ch denom.
Proof.
  intros Hs Ht. pose proof (truncate_loop_spec [] coins Ht Hs) as E.
  cbn [fmap list_fmap app] in E. rewrite !filter_nil in E.
  do 2 eexists. split; [exact E|].
  split; [apply canonical_filter; [by apply sorted_relabel|apply sum_of_whole]|].
  split; [apply canonical_filter; [by apply sorted_relabel|apply map_val_has_val]|].
  intros denom. rewrite !total_nonzero, total_map_val, (total_relabel whole_coin whole) by done.
  apply fraction_bounds.
  destruct (decide (denom ∈ Denom <$> coins)) as [(c & -> & Hc)%list_elem_of_fmap|Hn].
  - rewrite total_sorted by done. rewrite Forall_forall in Ht. by apply Ht.
  - by rewrite total_absent.
Qed.

Lemma DecCoins_TruncateDecimal_split_witness :
  exists t ch, DecCoins_TruncateDecimal [decV "abc" (7 * precisionReuse + 5)] = Ok (t, ch) /\
    total ch "abc" < precisionReuse.
Proof.
  destruct (DecCoins_TruncateDecimal_split [decV "abc" (7 * precisionReuse + 5)]) as (t & ch & E & _ & _ & H).
  - repeat constructor.
  - constructor; [|constructor]. split_and!; try by vm_compute. by eexists.
  - exists t, ch. split; [exact E|]. apply H.
Defined.

(** ** Conversion from [Coins] *)

Lemma NewDecCoinFromCoin_val c :
  is_denom (Denom c) = true -> has_val c -> 0 <= coin_val c ->
  NewDecCoinFromCoin c = Ok (decV (Denom c) (coin_val c * precisionReuse)).
Proof.
  destruct c as [d [[z|]]]; intros Hd Hv Hz; [|destruct Hv; discriminate].
  unfold NewDecCoinFromCoin, validate, ValidateDenom, check. cbn [Denom Amount] in *. rewrite Hd.
  change (coin_val (coinV d z)) with z in *. unfold Int_IsNegative, Sign. cbn [mbind res_bind Int_i deref].
  rewrite (proj1 (proj2 (sgn_tests z))), (proj2 (Z.ltb_ge z 0)) by done. done.
Qed.

(** [NewDecCoinsFromCoins] sizes its result by its arguments but fills it
    from [NewCoins], which drops zero coins.  With [k] zero coins among
    otherwise valid arguments the result ends with [k] coins without name and
    amount, on which the tests of the type panic; it is right only when there
    are none. *)
Theorem NewDecCoinsFromCoins_trailing (coins : Coins) :
  Coins_wf coins -> sorted_coins (filter nonzero coins) -> Forall positive (filter nonzero coins) ->
  Forall denom_ok coins -> Forall lower coins ->
  let k := (length coins - length (filter nonzero coins))%nat in
  let decs := (fun c => decV (Denom c) (coin_val c * precisionReuse)) <$> filter nonzero coins in
  NewDecCoinsFromCoins coins = Ok (decs ++ replicate k (MkCoin "" (MkDec None))) /\
  ((0 < k)%nat -> DecCoins_IsAnyNegative (decs ++ replicate k (MkCoin "" (MkDec None))) = Panic nil_deref).
Proof.
  intros Hw Hs Hp Hd Hl k decs. pose proof (Coins_wf_has_val coins Hw) as Hv.
  assert (exists arr, NewCoins coins = Ok (filter nonzero coins, arr)) as [arr E].
  { unfold NewCoins. destruct (new_coins_spec _ coins eq_refl Hv)
      as [(En & arr & HE)|[(Hne & Hval & x & HE)|(Hval & HE)]]; rewrite ?Sort_id in * by done.
    - rewrite En. eauto.
    - eauto.
    - exfalso. apply Hval. split_and!; [done..|].
      pose proof (Forall_filter_nonzero _ _ Hd) as Hd'. pose proof (Forall_filter_nonzero _ _ Hl) as Hl'.
      destruct (filter nonzero coins); [done|]. apply Forall_cons in Hd' as [? _], Hl' as [_ ?]. done. }
  assert (to_dec_coins (filter nonzero coins) = Ok decs) as Et.
  { clear E Hs. unfold decs. pose proof (Forall_filter_nonzero _ _ Hd) as Hd'.
    pose proof (has_val_filter _ Hv) as Hv'. clear -Hp Hd' Hv'.
    induction (filter nonzero coins) as [|c l IH]; [done|].
    apply Forall_cons in Hp as [Hc Hp], Hd' as [Hdc Hd'], Hv' as [Hvc Hv']. cbn [to_dec_coins].
    rewrite NewDecCoinFromCoin_val by (done || (unfold positive in Hc; lia)).
    cbn [mbind res_bind]. by rewrite IH. }
  split.
  - unfold NewDecCoinsFromCoins. rewrite E. cbn [mbind res_bind]. rewrite Et. done.
  - intros Hk. unfold DecCoins_IsAnyNegative. unfold decs. clearbody k. clear -Hk Hp.
    induction Hp as [|c l Hc Hp IH].
    + destruct k; [lia|]. done.
    + rewrite fmap_cons. cbn [app IsAnyNegative]. rewrite c_IsNegative_val by by eexists.
      change (coin_val (decV (Denom c) (coin_val c * precisionReuse))) with (coin_val c * precisionReuse).
      cbn [mbind res_bind]. rewrite (proj2 (Z.ltb_ge _ 0)); [exact IH|].
      unfold positive in Hc. rewrite precisionReuse_val. lia.
Qed.

Lemma NewDecCoinsFromCoins_trailing_witness :
  NewDecCoinsFromCoins [coinV "abc" 0; coinV "bcd" 2] =
  Ok [decV "bcd" (2 * precisionReuse); MkCoin "" (MkDec None)].
Proof.
  apply (NewDecCoinsFromCoins_trailing [coinV "abc" 0; coinV "bcd" 2]);
    [wf_coins|vm_compute; repeat constructor|vm_compute; repeat constructor|repeat constructor|repeat constructor].
Defined.

(** ** Text *)

Lemma Dec_String_nonneg z :
  0 <= z -> exists a b, Dec_String (DecV z) = a +:+ String "." b /\
    str_digits a = true /\ str_digits b = true /\ b <> "".
Proof.
  intros Hz. unfold Dec_String. cbn [Dec_i]. rewrite (proj2 (Z.ltb_ge z 0)) by done.
  destruct (dec_point_text_split z Hz) as (a & b & -> & Ha & Hb & _ & Hl & _).
  exists a, b. split_and!; try done. by intros ->.
Qed.

Lemma digits_plain s :
  str_digits s = true ->
  str_forall plain_chr s = true /\ str_forall (fun c => negb (bool_decide (c = ","%char))) s = true.
Proof.
  intros Hs. split; (eapply str_forall_impl; [|exact Hs]; intros [[] [] [] [] [] [] [] []]; vm_compute; done).
Qed.

Lemma dec_text_plain z :
  0 <= z -> str_forall plain_chr (Dec_String (DecV z)) = true /\
    str_forall (fun c => negb (bool_decide (c = ","%char))) (Dec_String (DecV z)) = true.
Proof.
  intros Hz. destruct (Dec_String_nonneg z Hz) as (a & b & -> & Ha & Hb & _).
  destruct (digits_plain a Ha) as [A1 A2], (digits_plain b Hb) as [B1 B2].
  rewrite !str_forall_app, A1, A2. cbn. by rewrite B1, B2.
Qed.

Lemma ParseDecCoin_String d z :
  is_denom d = true -> 0 <= z -> ParseDecCoin (DecCoin_String (decV d z)) = Ok (decV d z).
Proof.
  intros Hd Hz. unfold DecCoin_String, c_String. cbn [am_String Dec_amount Amount Denom].
  unfold ParseDecCoin. cbv zeta.
  rewrite TrimSpace_all_plain
    by (rewrite str_forall_app, (proj1 (dec_text_plain z Hz)); by apply (denom_plain d Hd)).
  assert (match_dec_coin (Dec_String (DecV z) +:+ d) = Some (Dec_String (DecV z), d)) as ->.
  { apply match_dec_coin_spec. exists "". change ("" +:+ d) with d. split; [done|].
    destruct (Dec_String_nonneg z Hz) as (a & b & -> & Ha & Hb & Hne).
    rewrite matches_dec_amt. unfold reSpc. rewrite matches_one, item_any, <-is_denom_re.
    split_and!; [|done|done]. exists a, ".", b. by split_and!. }
  rewrite NewDecFromStr_Dec_String.
  unfold NewDecCoinFromDec, mustValidateDenom, ValidateDenom, check. rewrite Hd. cbn.
  unfold Dec_IsNegative, Sign. cbn. rewrite (proj1 (proj2 (sgn_tests z))).
  by rewrite (proj2 (Z.ltb_ge z 0)).
Qed.

Lemma NewDecCoinFromDec_has_val d x c : NewDecCoinFromDec d x = Ok c -> has_val c.
Proof.
  unfold NewDecCoinFromDec, Dec_IsNegative. intros Hc. int_inv. by eexists.
Qed.

(** The printed form of a valid list of decimal coins is read back by
    [ParseDecCoins], every digit of the amounts included, and whatever
    [ParseDecCoins] accepts is valid. *)
Theorem ParseDecCoins_String_roundtrip :
  (forall coins, DecCoins_wf coins -> valid_coins coins ->
     Forall (fun c => is_denom (Denom c) = true) coins ->
     ParseDecCoins (DecCoins_String coins) = Ok coins) /\
  (forall s coins, ParseDecCoins s = Ok coins -> valid_coins coins).
Proof.
  split.
  - intros coins Hw Hval Hok. pose proof Hw as Hw'. unfold DecCoins_wf in Hw. rewrite Forall_forall in Hw, Hok.
    destruct Hval as (Hs & Hpos & Hrest). pose proof Hpos as Hpos'. rewrite Forall_forall in Hpos.
    apply parse_list_roundtrip; [by apply DecCoins_wf_has_val|by split_and!| |];
      intros [d a] Hc; destruct (Hw _ Hc) as (z & E & _); cbn in E; subst a;
      pose proof (Hok _ Hc) as Hd; specialize (Hpos _ Hc);
      unfold positive in Hpos; change (coin_val (decV d z)) with z in Hpos; cbn [Denom] in Hd.
    + apply ParseDecCoin_String; [done|lia].
    + unfold c_String. cbn [am_String Dec_amount Amount Denom].
      apply plain_text_app; [apply dec_text_plain; lia..|by apply denom_plain].
  - intros s coins E. eapply parse_list_sound in E as [_ H]; [exact H|].
    intros t c Hc. unfold ParseDecCoin in Hc. destruct (match_dec_coin _) as [[a d]|]; [|done].
    destruct (NewDecFromStr a) as [x|e|e]; [|done..].
    destruct (ValidateDenom d); try done; by eapply NewDecCoinFromDec_has_val.
Qed.

Lemma ParseDecCoins_String_roundtrip_witness :
  ParseDecCoins "0.000000000000000003abc" = Ok [decV "abc" 3].
Proof.
  apply (proj1 ParseDecCoins_String_roundtrip [decV "abc" 3] ltac:(wf_dec_coins)).
  - split_and!; repeat constructor.
  - repeat constructor.
Defined.
