(* ===== verification/Config.v ===== *)
(** The configuration of the client: [types/config.go].

    [float64] values are the [spec_float]s of the Standard Library (sign,
    mantissa and exponent, infinities and not-a-number).  The type [D] of key
    stores is a parameter, and so is the result of opening the default store. *)
From Stdlib Require Import SpecFloat.
From S2P Require Import Prelude GoStrings SdkInt SdkDec CoinSet CoinText Coins DecCoins.

Definition Sync : string := "sync".
Definition Async : string := "async".
Definition Commit : string := "commit".

Definition defaultGas : Z := 200000.
Definition defaultTimeout : Z := 5.
Definition defaultLogLevel : string := "info".
Definition cfg_defaultAlgo : string := "secp256k1".
Definition defaultFees : string := "200plug".
Definition defaultMode : string := Sync.
(** [1.0] *)
Definition defaultGasAdjustment : spec_float := S754_finite false (2 ^ 52) (-52).

Record ClientConfig (D : Type) := MkConfig {
  NodeURL : string; GRPCAddr : string; ChainId : string; Gas : Z; cfg_Fee : DecCoins; cfg_KeyDAO : option D;
  cfg_Algo : string; cfg_Mode : string; Timeout : Z; LogLevel : string; GasAdjustment : spec_float; Cached : bool }.
Arguments MkConfig {_}.
Arguments NodeURL {_} _.
Arguments GRPCAddr {_} _.
Arguments ChainId {_} _.
Arguments Gas {_} _.
Arguments cfg_Fee {_} _.
Arguments cfg_KeyDAO {_} _.
Arguments cfg_Algo {_} _.
Arguments cfg_Mode {_} _.
Arguments Timeout {_} _.
Arguments LogLevel {_} _.
Arguments GasAdjustment {_} _.
Arguments Cached {_} _.

Section Config.
Context {D : Type}.
(** [store.NewLevelDB(os.ExpandEnv(defaultPath), nil)] *)
Variable default_dao : res D.

(** An [Option] changes the configuration or fails. *)
Definition Option : Type := ClientConfig D -> res (ClientConfig D).

Definition GasOption (gas : Z) : Option := fun c =>
  let gas := if gas <=? 0 then defaultGas else gas in
  Ok (MkConfig (NodeURL c) (GRPCAddr c) (ChainId c) gas (cfg_Fee c) (cfg_KeyDAO c) (cfg_Algo c) (cfg_Mode c)
        (Timeout c) (LogLevel c) (GasAdjustment c) (Cached c)).

Definition FeeOption (fee : DecCoins) : Option := fun c =>
  valid ← (if DecCoins_Empty fee then Ok false else DecCoins_IsValid fee);
  fee ← (if negb valid then
           match ParseDecCoins defaultFees with Ok fees => Ok fees | Err _ => Ok [] | Panic p => Panic p end
         else Ok fee);
  Ok (MkConfig (NodeURL c) (GRPCAddr c) (ChainId c) (Gas c) fee (cfg_KeyDAO c) (cfg_Algo c) (cfg_Mode c)
        (Timeout c) (LogLevel c) (GasAdjustment c) (Cached c)).

Definition AlgoOption (algo : string) : Option := fun c =>
  let algo := if bool_decide (algo = "") then cfg_defaultAlgo else algo in
  Ok (MkConfig (NodeURL c) (GRPCAddr c) (ChainId c) (Gas c) (cfg_Fee c) (cfg_KeyDAO c) algo (cfg_Mode c)
        (Timeout c) (LogLevel c) (GasAdjustment c) (Cached c)).

Definition KeyDAOOption (dao : option D) : Option := fun c =>
  dao ← match dao with None => default_dao | Some d => Ok d end;
  Ok (MkConfig (NodeURL c) (GRPCAddr c) (ChainId c) (Gas c) (cfg_Fee c) (Some dao) (cfg_Algo c) (cfg_Mode c)
        (Timeout c) (LogLevel c) (GasAdjustment c) (Cached c)).

Definition ModeOption (mode : string) : Option := fun c =>
  let mode := if bool_decide (mode = "") then defaultMode else mode in
  Ok (MkConfig (NodeURL c) (GRPCAddr c) (ChainId c) (Gas c) (cfg_Fee c) (cfg_KeyDAO c) (cfg_Algo c) mode
        (Timeout c) (LogLevel c) (GasAdjustment c) (Cached c)).

Definition TimeoutOption (timeout : Z) : Option := fun c =>
  let timeout := if timeout <=? 0 then defaultTimeout else timeout in
  Ok (MkConfig (NodeURL c) (GRPCAddr c) (ChainId c) (Gas c) (cfg_Fee c) (cfg_KeyDAO c) (cfg_Algo c) (cfg_Mode c)
        timeout (LogLevel c) (GasAdjustment c) (Cached c)).

Definition LogLevelOption (level : string) : Option := fun c =>
  let level := if bool_decide (level = "") then defaultLogLevel else level in
  Ok (MkConfig (NodeURL c) (GRPCAddr c) (ChainId c) (Gas c) (cfg_Fee c) (cfg_KeyDAO c) (cfg_Algo c) (cfg_Mode c)
        (Timeout c) level (GasAdjustment c) (Cached c)).

Definition GasAdjustmentOption (gasAdjustment : spec_float) : Option := fun c =>
  let gasAdjustment := if SFleb gasAdjustment (S754_zero false) then defaultGasAdjustment else gasAdjustment in
  Ok (MkConfig (NodeURL c) (GRPCAddr c) (ChainId c) (Gas c) (cfg_Fee c) (cfg_KeyDAO c) (cfg_Algo c) (cfg_Mode c)
        (Timeout c) (LogLevel c) gasAdjustment (Cached c)).

Definition CachedOption (enabled : bool) : Option := fun c =>
  Ok (MkConfig (NodeURL c) (GRPCAddr c) (ChainId c) (Gas c) (cfg_Fee c) (cfg_KeyDAO c) (cfg_Algo c) (cfg_Mode c)
        (Timeout c) (LogLevel c) (GasAdjustment c) enabled).

Definition checkAndSetDefault (cfg : ClientConfig D) : res (ClientConfig D) :=
  if bool_decide (NodeURL cfg = "") then Err "nodeURI is required"
  else if bool_decide (ChainId cfg = "") then Err "chainID is required"
  else
    cfg ← GasOption (Gas cfg) cfg;
    cfg ← FeeOption (cfg_Fee cfg) cfg;
    cfg ← AlgoOption (cfg_Algo cfg) cfg;
    cfg ← KeyDAOOption (cfg_KeyDAO cfg) cfg;
    cfg ← ModeOption (cfg_Mode cfg) cfg;
    cfg ← TimeoutOption (Timeout cfg) cfg;
    cfg ← LogLevelOption (LogLevel cfg) cfg;
    GasAdjustmentOption (GasAdjustment cfg) cfg.

Definition NewClientConfig (url grpcAddr chainId : string) (options : list Option) : res (ClientConfig D) :=
  let cfg := MkConfig url grpcAddr chainId 0 [] None "" "" 0 "" (S754_zero false) false in
  cfg ← for_each (fun cfg optionFn => optionFn cfg) cfg options;
  checkAndSetDefault cfg.

(* ------------------------------------------------------------------ *)
(** * What a configuration must satisfy *)

(** [gas] and [timeout] are unsigned. *)
Definition config_raw (c : ClientConfig D) : Prop := 0 <= Gas c /\ 0 <= Timeout c.

Record config_ok (c : ClientConfig D) : Prop := {
  ok_url : NodeURL c <> ""; ok_chain : ChainId c <> ""; ok_gas : 0 < Gas c;
  ok_fee : cfg_Fee c <> [] /\ DecCoins_IsValid (cfg_Fee c) = Ok true;
  ok_dao : is_Some (cfg_KeyDAO c); ok_algo : cfg_Algo c <> ""; ok_mode : cfg_Mode c <> "";
  ok_timeout : 0 < Timeout c; ok_level : LogLevel c <> "";
  ok_adjustment : SFleb (GasAdjustment c) (S754_zero false) = false;
}.

(** The fee that is used when none is given: 200plug. *)
Definition default_fee : DecCoins := [decV "plug" (200 * precisionReuse)].
Lemma default_fee_parsed : ParseDecCoins defaultFees = Ok default_fee.
Proof. vm_compute. reflexivity. Qed.

Lemma FeeOption_ok fee c c' : FeeOption fee c = Ok c' ->
  c' = MkConfig (NodeURL c) (GRPCAddr c) (ChainId c) (Gas c) (cfg_Fee c') (cfg_KeyDAO c) (cfg_Algo c) (cfg_Mode c)
        (Timeout c) (LogLevel c) (GasAdjustment c) (Cached c) /\
  cfg_Fee c' <> [] /\ DecCoins_IsValid (cfg_Fee c') = Ok true /\
  (fee <> [] -> DecCoins_IsValid fee = Ok true -> cfg_Fee c' = fee).
Proof.
  unfold FeeOption. rewrite default_fee_parsed. intros E. destruct fee as [|f fee].
  - injection E as <-. split_and!; [done|done|vm_compute; reflexivity|done].
  - change (DecCoins_Empty (f :: fee)) with false in E. destruct (DecCoins_IsValid (f :: fee)) as [[]|e|e] eqn:Ev; try done.
    + injection E as <-. split_and!; done.
    + injection E as <-. split_and!; [done|done|vm_compute; reflexivity|]. done.
Qed.

Lemma options_raw options :
  (forall o c0 c1, In o options -> config_raw c0 -> o c0 = Ok c1 -> config_raw c1) ->
  forall c0 c1, for_each (fun cfg (optionFn : Option) => optionFn cfg) c0 options = Ok c1 -> config_raw c0 -> config_raw c1.
Proof.
  induction options as [|o os IH]; intros Hopt c0 c1 E H0; cbn [for_each] in E; [by injection E as <-|]. res_inv.
  eapply IH; [|done|by eapply Hopt; [by left|..]]. intros o' c2 c3 Ho. apply Hopt. by right.
Qed.

(** A configuration is complete.  Whatever the options, a configuration that
    [NewClientConfig] returns has a node, a chain, positive gas and timeout, a
    valid non-empty fee, a key store, an algorithm, a mode, a log level and a gas
    adjustment that is not below or equal to zero; without options it has the
    given addresses, the documented defaults and no cache; and a missing node or
    chain is an error, whatever the options, unless an option fails first. *)
Theorem NewClientConfig_ok url grpcAddr chainId options :
  (forall c, NewClientConfig url grpcAddr chainId options = Ok c ->
     (forall o c0 c1, In o options -> config_raw c0 -> o c0 = Ok c1 -> config_raw c1) -> config_ok c) /\
  (url <> "" -> chainId <> "" -> NewClientConfig url grpcAddr chainId [] =
     d ← default_dao;
     Ok (MkConfig url grpcAddr chainId 200000 default_fee (Some d) "secp256k1" "sync" 5 "info" defaultGasAdjustment false)) /\
  NewClientConfig "" grpcAddr chainId [] = Err "nodeURI is required" /\
  (url <> "" -> NewClientConfig url grpcAddr "" [] = Err "chainID is required").
Proof.
  split_and!.
  - intros c E Hopt. unfold NewClientConfig in E. res_inv.
    match goal with X : for_each _ _ options = Ok ?c1 |- _ => rename X into Ho, c1 into c0 end.
    apply (options_raw _ Hopt) in Ho as [Hg Ht]; [|done]. unfold checkAndSetDefault in E.
    destruct (bool_decide_reflect (NodeURL c0 = "")); [done|]. destruct (bool_decide_reflect (ChainId c0 = "")); [done|].
    cbn [mbind res_bind GasOption] in E. apply bind_Ok in E as (c1 & Ef & E). apply FeeOption_ok in Ef as (Ec1 & Hf1 & Hf2 & _).
    rewrite Ec1 in E. cbn in E. apply bind_Ok in E as (d & Ed & E). apply bind_Ok in Ed as (d' & Ed & Ed'). injection Ed' as <-.
    cbn in E. injection E as <-. split; cbn; try done.
    + destruct (Z.leb_spec (Gas c0) 0); [done|lia].
    + by case_bool_decide.
    + by case_bool_decide.
    + destruct (Z.leb_spec (Timeout c0) 0); [done|lia].
    + by case_bool_decide.
    + destruct (SFleb (GasAdjustment c0) (S754_zero false)) eqn:E1; [vm_compute; reflexivity|done].
  - intros Hu Hc. unfold NewClientConfig, checkAndSetDefault. cbn [for_each mbind res_bind NodeURL ChainId].
    rewrite !bool_decide_false by done. cbn [GasOption mbind res_bind FeeOption Gas cfg_Fee]. unfold FeeOption.
    change (DecCoins_Empty []) with true. cbn [mbind res_bind negb]. rewrite default_fee_parsed. cbn. unfold KeyDAOOption. cbn. by destruct default_dao.
  - done.
  - intros Hu. unfold NewClientConfig, checkAndSetDefault. cbn [for_each mbind res_bind NodeURL ChainId].
    by rewrite bool_decide_false.
Qed.
End Config.
