(* ===== verification/CoinType.v ===== *)
(** Units of a token and the conversions between them: [types/coin_type.go],
    [types/token.go], and the small helpers of [types/utils.go] and
    [utils/commom.go]. *)
From S2P Require Import Prelude GoStrings BigText SdkInt SdkDec CoinSet CoinText Coins DecCoins.
From Stdlib Require Import Ascii.

(** [type Unit struct]; [Scale] is a [uint8]. *)
Record Unit := NewUnit { Unit_Denom : string; Unit_Scale : Z }.

(** [type CoinType struct] *)
Record CoinType := MkCoinType { Name : string; MinUnit : Unit; MainUnit : Unit; Desc : string }.

Definition GetScaleFactor (u : Unit) : res Int := NewIntWithDecimal 1 (Unit_Scale u).

Definition isMainUnit (ct : CoinType) (name : string) : bool :=
  bool_decide (Unit_Denom (MainUnit ct) = TrimSpace name).
Definition isMinUnit (ct : CoinType) (name : string) : bool :=
  bool_decide (Unit_Denom (MinUnit ct) = TrimSpace name).
Definition hasUnit (ct : CoinType) (name : string) : bool := isMainUnit ct name || isMinUnit ct name.

(** The zero value [DecCoin{}]. *)
Definition DecCoin_zero : DecCoin := MkCoin "" (MkDec None).

Definition ConvertToMainCoin (ct : CoinType) (c : Coin) : res DecCoin :=
  if negb (hasUnit ct (Denom c)) then a ← NewDecFromInt (Amount c); Ok (MkCoin (Denom c) a)
  else if isMainUnit ct (Denom c) then Ok DecCoin_zero
  else
    dst ← GetScaleFactor (MainUnit ct); dstScale ← NewDecFromInt dst;
    src ← GetScaleFactor (MinUnit ct); srcScale ← NewDecFromInt src;
    amount ← NewDecFromInt (Amount c);
    m ← Dec_Mul amount dstScale;
    amt ← Dec_Quo m srcScale;
    NewDecCoinFromDec (Unit_Denom (MainUnit ct)) amt.

Definition ConvertToMinCoin (ct : CoinType) (c : DecCoin) : res Coin :=
  if negb (hasUnit ct (Denom c)) then a ← Dec_TruncateInt (Amount c); Ok (MkCoin (Denom c) a)
  else if isMinUnit ct (Denom c) then '(newCoin, _) ← DecCoin_TruncateDecimal c; Ok newCoin
  else
    src ← GetScaleFactor (MainUnit ct); srcScale ← NewDecFromInt src;
    dst ← GetScaleFactor (MinUnit ct); dstScale ← NewDecFromInt dst;
    m ← Dec_Mul (Amount c) dstScale;
    amt ← Dec_Quo m srcScale;
    r ← Dec_RoundInt amt;
    NewCoin (Unit_Denom (MinUnit ct)) r.

(** [type Token struct]; [Scale] is a [uint32]. *)
Record Token := MkToken {
  Token_Symbol : string; Token_Name : string; Token_Scale : Z; Token_MinUnit : string;
  InitialSupply : Z; MaxSupply : Z; Mintable : bool; Token_Owner : string
}.
Definition GetCoinType (t : Token) : CoinType :=
  MkCoinType (Token_Name t) (NewUnit (Token_MinUnit t) (wrap_u8 (Token_Scale t)))
    (NewUnit (Token_Symbol t) 0) (Token_Name t).

(** [GetOfferCoinFee] *)
Definition GetOfferCoinFee (offerCoin : Coin) (swapFeeRate : Dec) : res Coin :=
  a ← Int_ToDec (Amount offerCoin);
  q ← Dec_QuoInt64 swapFeeRate 2;
  m ← Dec_Mul a q;
  t ← Dec_TruncateInt m;
  NewCoin (Denom offerCoin) t.

(** [Uint64ToBigEndian], [BigEndianToUint64]: the latter reads the first eight
    bytes and panics on one to seven. *)
Definition Uint64ToBigEndian (i : Z) : list Z :=
  (fun k => (i / 256 ^ Z.of_nat k) mod 256) <$> [7; 6; 5; 4; 3; 2; 1; 0]%nat.
Definition BigEndianToUint64 (bz : list Z) : res Z :=
  match bz with
  | [] => Ok 0
  | b0 :: b1 :: b2 :: b3 :: b4 :: b5 :: b6 :: b7 :: _ =>
      Ok (foldl (fun acc b => acc * 256 + b) 0 [b0; b1; b2; b3; b4; b5; b6; b7])
  | _ => Panic "index out of range"
  end.

(** [CopyBytes] ([nil] is the [None]) *)
Definition CopyBytes (bz : option (list Z)) : option (list Z) :=
  match bz with None => None | Some l => Some (go_copy (replicate (length l) 0) l) end.

(** [SubArray]: consecutive segments of [subLen] elements. *)
Fixpoint sub_segments {A} (i batch subLen : nat) (array : list A) (fuel : nat) : list (list A) :=
  match fuel with
  | O => []
  | S fuel =>
      let start := ((i - 1) * subLen)%nat in
      let stop := if Nat.eqb i batch then length array else (i * subLen)%nat in
      take (stop - start) (drop start array) :: sub_segments (S i) batch subLen array fuel
  end.
Definition SubArray {A} (subLen : Z) (array : list A) : res (list (list A)) :=
  let maxLen := Z.of_nat (length array) in
  if maxLen <=? subLen then Ok [array]
  else if subLen =? 0 then Panic "integer divide by zero"
  else
    let batch := if 0 <? Z.rem maxLen subLen then Z.quot maxLen subLen + 1 else Z.quot maxLen subLen in
    Ok (sub_segments 1 (Z.to_nat batch) (Z.to_nat subLen) array (Z.to_nat batch)).

(** [ParsePage], on wrapping 64-bit arithmetic. *)
Definition ParsePage (page size : Z) : Z * Z :=
  let page := if page =? 0 then 1 else page in
  let size := if size =? 0 then 10 else size in
  (wrap_u64 (wrap_u64 (page - 1) * size), size).

(* ------------------------------------------------------------------ *)
(** * Properties *)

(** ** Unit conversion *)

Lemma GetScaleFactor_val d s : 0 <= s <= 76 -> GetScaleFactor (NewUnit d s) = Ok (IntV (10 ^ s)).
Proof.
  intros Hs. unfold GetScaleFactor, NewIntWithDecimal. cbn [Unit_Scale].
  rewrite (proj2 (Z.ltb_ge s 0)), Z.mul_1_l by lia. rewrite overflow_if, bool_decide_true; [done|].
  unfold int_range. rewrite Z.abs_eq by (apply Z.pow_nonneg; lia).
  apply Z.le_lt_trans with (10 ^ 76); [apply Z.pow_le_mono_r; lia|by vm_compute].
Qed.

Lemma NewDecFromInt_val z : NewDecFromInt (IntV z) = Ok (DecV (z * precisionReuse)).
Proof. reflexivity. Qed.

(** Multiplying and dividing by a power of ten that divides exactly. *)
Lemma Dec_Mul_int x k : dec_range (x * k) -> Dec_Mul (DecV x) (DecV (k * precisionReuse)) = Ok (DecV (x * k)).
Proof.
  intros H. unfold Dec_Mul. cbn [Dec_i deref mbind res_bind].
  enough (chopPrecisionAndRound (x * (k * precisionReuse)) = x * k) as -> by by apply Dec_checked_range.
  eapply (bankers_unique _ precisionReuse); [done|apply chop_round_bankers|].
  unfold bankers. rewrite precisionReuse_val.
  replace (x * (k * 1000000000000000000) - x * k * 1000000000000000000) with 0 by ring. lia.
Qed.

Lemma Dec_Quo_exact x k : 0 < k -> dec_range x -> Dec_Quo (DecV (x * k)) (DecV (k * precisionReuse)) = Ok (DecV x).
Proof.
  intros Hk Hx. unfold Dec_Quo, Dec_quo_with, big_Quo. cbn [Dec_i deref mbind res_bind].
  rewrite (proj2 (Z.eqb_neq _ 0)) by (rewrite precisionReuse_val; lia). cbn [mbind res_bind].
  replace (x * k * precisionReuse * precisionReuse) with (x * precisionReuse * (k * precisionReuse)) by ring.
  rewrite Z.quot_mul by (rewrite precisionReuse_val; lia).
  enough (chopPrecisionAndRound (x * precisionReuse) = x) as -> by by apply Dec_checked_range.
  eapply (bankers_unique _ precisionReuse); [done|apply chop_round_bankers|].
  unfold bankers. rewrite Z.sub_diag, precisionReuse_val. lia.
Qed.

Lemma scale_split s : 0 <= s <= 18 -> precisionReuse = 10 ^ (18 - s) * 10 ^ s.
Proof. intros Hs. rewrite <-Z.pow_add_r by lia. unfold precisionReuse. f_equal. unfold Precision. lia. Qed.

Lemma dec_range_mono x y : Z.abs x <= Z.abs y -> dec_range y -> dec_range x.
Proof. unfold dec_range. lia. Qed.

Lemma int_range_dec z : int_range z -> dec_range (z * precisionReuse).
Proof.
  unfold int_range, dec_range. intros Hz. rewrite Z.abs_mul, precisionReuse_val.
  change (255 + DecimalPrecisionBits) with (255 + 60). rewrite Z.pow_add_r by lia.
  unfold maxBitLen in Hz. apply Z.lt_le_trans with (2 ^ 255 * Z.abs 1000000000000000000).
  - apply Z.mul_lt_mono_pos_r; [lia|exact Hz].
  - apply Z.mul_le_mono_nonneg_l; [lia|]. by vm_compute.
Qed.

(** A token of at most 18 decimals, with distinct, untrimmed unit names. *)
Record coin_type_ok (ct : CoinType) (s : Z) : Prop := {
  ok_scale : 0 <= s <= 18;
  ok_min : MinUnit ct = NewUnit (Unit_Denom (MinUnit ct)) s;
  ok_main : MainUnit ct = NewUnit (Unit_Denom (MainUnit ct)) 0;
  ok_ne : Unit_Denom (MainUnit ct) <> Unit_Denom (MinUnit ct);
  ok_dmin : is_denom (Unit_Denom (MinUnit ct)) = true;
  ok_dmain : is_denom (Unit_Denom (MainUnit ct)) = true;
}.

Lemma TrimSpace_denom d : is_denom d = true -> TrimSpace d = d.
Proof. intros Hd. apply TrimSpace_all_plain, (denom_plain d Hd). Qed.

Lemma NewDecCoinFromDec_nonneg d z : is_denom d = true -> 0 <= z -> NewDecCoinFromDec d (DecV z) = Ok (decV d z).
Proof.
  intros Hd Hz. unfold NewDecCoinFromDec, mustValidateDenom, ValidateDenom, check. rewrite Hd.
  cbn [mbind res_bind]. unfold Dec_IsNegative, Sign. cbn [Dec_i deref mbind res_bind].
  by rewrite (proj1 (proj2 (sgn_tests z))), (proj2 (Z.ltb_ge z 0)).
Qed.

Lemma NewCoin_nonneg d z : is_denom d = true -> 0 <= z -> NewCoin d (IntV z) = Ok (coinV d z).
Proof.
  intros Hd Hz. unfold NewCoin, validate, ValidateDenom, check. rewrite Hd. cbn [mbind res_bind].
  unfold Int_IsNegative, Sign. cbn [Int_i deref mbind res_bind].
  by rewrite (proj1 (proj2 (sgn_tests z))), (proj2 (Z.ltb_ge z 0)).
Qed.

Lemma RoundInt_whole z : int_range z -> Dec_RoundInt (DecV (z * precisionReuse)) = Ok (IntV z).
Proof.
  intros Hz. unfold Dec_RoundInt, NewIntFromBigInt. cbn [Dec_i deref mbind res_bind].
  unfold chopPrecisionAndRoundNonMutative.
  replace (chopPrecisionAndRound (z * precisionReuse)) with z.
  - by rewrite overflow_if, bool_decide_true.
  - eapply (bankers_unique _ precisionReuse); [done| |apply chop_round_bankers].
    unfold bankers. rewrite Z.sub_diag, precisionReuse_val. lia.
Qed.

(** Converting between the units of a token.  With at most 18 decimals an
    amount in the minimal unit becomes exactly [amount / 10^scale] of the main
    unit, and converting back returns the original coin; a coin of another
    token keeps its name and amount.  But a coin that already is in the main
    unit is converted to the zero value, without name and amount. *)
Theorem CoinType_roundtrip ct s z :
  coin_type_ok ct s -> 0 <= z -> int_range z ->
  let min := Unit_Denom (MinUnit ct) in
  let main := Unit_Denom (MainUnit ct) in
  ConvertToMainCoin ct (coinV min z) = Ok (decV main (z * 10 ^ (18 - s))) /\
  ConvertToMinCoin ct (decV main (z * 10 ^ (18 - s))) = Ok (coinV min z) /\
  (forall d, hasUnit ct d = false -> ConvertToMainCoin ct (coinV d z) = Ok (decV d (z * precisionReuse))) /\
  ConvertToMainCoin ct (coinV main z) = Ok (MkCoin "" (MkDec None)).
Proof.
  intros [Hs Emin Emain Hne Hdmin Hdmain] Hz Hr min main. fold min in Hne, Hdmin, Emin. fold main in Hne, Hdmain, Emain.
  assert (isMainUnit ct main = true) as M1 by (unfold isMainUnit; rewrite TrimSpace_denom by done; by apply bool_decide_eq_true).
  assert (isMainUnit ct min = false) as M2 by (unfold isMainUnit; rewrite TrimSpace_denom by done; by apply bool_decide_eq_false).
  assert (isMinUnit ct min = true) as M3 by (unfold isMinUnit; rewrite TrimSpace_denom by done; by apply bool_decide_eq_true).
  assert (isMinUnit ct main = false) as M4
    by (unfold isMinUnit; rewrite TrimSpace_denom by done; apply bool_decide_eq_false; intros E; apply Hne; symmetry; exact E).
  pose proof (scale_split s Hs) as Hsp. pose proof (int_range_dec z Hr) as Hd.
  assert (0 < 10 ^ s) as Hp1 by (apply Z.pow_pos_nonneg; lia).
  assert (0 < 10 ^ (18 - s)) as Hp2 by (apply Z.pow_pos_nonneg; lia).
  assert (z * precisionReuse = z * 10 ^ (18 - s) * 10 ^ s) as Ez by (rewrite Hsp; ring).
  assert (dec_range (z * 10 ^ (18 - s))) as Hd2.
  { eapply dec_range_mono; [|exact Hd]. rewrite Ez, !Z.abs_eq; nia. }
  split_and!.
  - unfold ConvertToMainCoin, hasUnit. cbn [Denom Amount]. rewrite M2, M3. cbn [negb orb].
    rewrite Emain, Emin, !GetScaleFactor_val by lia. cbn [mbind res_bind]. rewrite !NewDecFromInt_val.
    cbn [mbind res_bind]. rewrite Z.pow_0_r, Dec_Mul_int by (by rewrite Z.mul_1_r). cbn [mbind res_bind].
    rewrite Z.mul_1_r, Ez, Dec_Quo_exact by done. cbn [mbind res_bind].
    rewrite NewDecCoinFromDec_nonneg by (done || nia). done.
  - unfold ConvertToMinCoin, hasUnit. cbn [Denom Amount]. rewrite M1, M4. cbn [negb orb].
    rewrite Emain, Emin, !GetScaleFactor_val by lia. cbn [mbind res_bind]. rewrite !NewDecFromInt_val.
    cbn [mbind res_bind]. rewrite Dec_Mul_int by (by rewrite <-Ez). cbn [mbind res_bind].
    rewrite Z.pow_0_r, <-Ez. rewrite <-(Z.mul_1_r (z * precisionReuse)) at 1.
    rewrite Dec_Quo_exact by (done || lia). cbn [mbind res_bind].
    rewrite RoundInt_whole by done. cbn [mbind res_bind]. by rewrite NewCoin_nonneg.
  - intros d Hd'. unfold ConvertToMainCoin. cbn [Denom Amount]. rewrite Hd'. cbn [negb].
    rewrite NewDecFromInt_val. done.
  - unfold ConvertToMainCoin, hasUnit. cbn [Denom Amount]. by rewrite M1.
Qed.

Definition plug_type : CoinType := MkCoinType "plugcn" (NewUnit "uplug" 6) (NewUnit "plug" 0) "plugcn".

Lemma CoinType_roundtrip_witness :
  ConvertToMinCoin plug_type (decV "plug" (5 * 10 ^ 12)) = Ok (coinV "uplug" 5).
Proof.
  apply (CoinType_roundtrip plug_type 6 5); [|lia|by vm_compute].
  split; try reflexivity; try (by vm_compute); lia.
Defined.

(** ** Big-endian keys *)

Lemma be_step i n : 0 <= i < 256 ^ (n + 1) -> 0 <= n ->
  0 <= i / 256 ^ n < 256 /\ (i / 256 ^ n) mod 256 = i / 256 ^ n.
Proof.
  intros Hi Hn. rewrite Z.pow_add_r, Z.pow_1_r in Hi by lia.
  assert (0 < 256 ^ n) by (apply Z.pow_pos_nonneg; lia).
  assert (0 <= i / 256 ^ n < 256) as Hb.
  { split; [apply Z.div_pos; lia|]. apply Z.div_lt_upper_bound; lia. }
  split; [done|]. by apply Z.mod_small.
Qed.

(** The value of a byte list read from the left. *)
Definition be_value (l : list Z) : Z := foldl (fun acc b => acc * 256 + b) 0 l.

Lemma be_value_acc l acc :
  foldl (fun acc b => acc * 256 + b) acc l = acc * 256 ^ Z.of_nat (length l) + be_value l.
Proof.
  unfold be_value. revert acc. induction l as [|b l IH]; intros acc; cbn [foldl length].
  - change (256 ^ Z.of_nat 0) with 1. lia.
  - rewrite IH, (IH (0 * 256 + b)), Nat2Z.inj_succ, Z.pow_succ_r by lia. lia.
Qed.

Lemma be_value_bound l : Forall is_uint8 l -> 0 <= be_value l < 256 ^ Z.of_nat (length l).
Proof.
  unfold is_uint8. induction 1 as [|b l Hb Hl IH]; [done|].
  unfold be_value. cbn [foldl length]. rewrite be_value_acc, Nat2Z.inj_succ, Z.pow_succ_r by lia. nia.
Qed.

(** Bytewise order of keys: Go's [bytes.Compare]. *)
Fixpoint bytes_compare (a b : list Z) : comparison :=
  match a, b with
  | x :: a, y :: b => match Z.compare x y with Eq => bytes_compare a b | r => r end
  | [], _ :: _ => Lt
  | _ :: _, [] => Gt
  | [], [] => Eq
  end.

Lemma bytes_compare_value a b :
  Forall is_uint8 a -> Forall is_uint8 b -> length a = length b ->
  bytes_compare a b = Z.compare (be_value a) (be_value b).
Proof.
  intros Ha. revert b. induction Ha as [|x a Hx Ha IH]; intros [|y b] Hb Hl; try done.
  apply Forall_cons in Hb as [Hy Hb]. injection Hl as Hl. cbn [bytes_compare].
  unfold be_value. cbn [foldl]. rewrite !be_value_acc, Hl, (IH b) by done.
  pose proof (be_value_bound a Ha) as Ba. pose proof (be_value_bound b Hb) as Bb. rewrite Hl in Ba.
  set (P := 256 ^ Z.of_nat (length b)) in *. set (u := be_value a) in *. set (v := be_value b) in *.
  destruct (Z.compare_spec x y) as [->|Hlt|Hgt].
  - destruct (Z.compare_spec u v), (Z.compare_spec ((0 * 256 + y) * P + u) ((0 * 256 + y) * P + v)); lia || done.
  - symmetry. apply Z.compare_lt_iff. nia.
  - symmetry. apply Z.compare_gt_iff. nia.
Qed.

Lemma Uint64ToBigEndian_bytes i : Forall is_uint8 (Uint64ToBigEndian i) /\ length (Uint64ToBigEndian i) = 8%nat.
Proof.
  split; [|done]. unfold Uint64ToBigEndian. rewrite Forall_forall.
  intros ? (k & -> & _)%list_elem_of_fmap. apply Z.mod_pos_bound. lia.
Qed.

Lemma be_value_Uint64 i : is_uint64 i -> be_value (Uint64ToBigEndian i) = i.
Proof.
  intros Hi. unfold is_uint64 in Hi. unfold be_value, Uint64ToBigEndian. cbn [fmap list_fmap foldl].
  change (Z.of_nat 7) with 7; change (Z.of_nat 6) with 6; change (Z.of_nat 5) with 5;
  change (Z.of_nat 4) with 4; change (Z.of_nat 3) with 3; change (Z.of_nat 2) with 2;
  change (Z.of_nat 1) with 1; change (Z.of_nat 0) with 0.
  change (256 ^ 7) with (256 * 256 * 256 * 256 * 256 * 256 * 256).
  change (256 ^ 6) with (256 * 256 * 256 * 256 * 256 * 256).
  change (256 ^ 5) with (256 * 256 * 256 * 256 * 256).
  change (256 ^ 4) with (256 * 256 * 256 * 256).
  change (256 ^ 3) with (256 * 256 * 256).
  change (256 ^ 2) with (256 * 256). change (256 ^ 1) with 256. change (256 ^ 0) with 1.
  change (2 ^ 64) with 18446744073709551616 in Hi.
  Z.to_euclidean_division_equations. lia.
Qed.

(** Big-endian keys.  [BigEndianToUint64] inverts [Uint64ToBigEndian] on
    every [uint64], and the bytewise order of the keys is the numeric order,
    which is what the keys are for; a key of one to seven bytes panics. *)
Theorem BigEndian_roundtrip_sorted i j :
  is_uint64 i -> is_uint64 j ->
  BigEndianToUint64 (Uint64ToBigEndian i) = Ok i /\
  bytes_compare (Uint64ToBigEndian i) (Uint64ToBigEndian j) = Z.compare i j /\
  (forall bz, (0 < length bz < 8)%nat -> BigEndianToUint64 bz = Panic "index out of range").
Proof.
  intros Hi Hj. split_and!.
  - transitivity (Ok (be_value (Uint64ToBigEndian i))); [reflexivity|]. by rewrite be_value_Uint64.
  - destruct (Uint64ToBigEndian_bytes i), (Uint64ToBigEndian_bytes j).
    rewrite bytes_compare_value by done. by rewrite !be_value_Uint64.
  - intros bz Hl. do 8 (destruct bz as [|? bz]; [done || (cbn in Hl; lia)|]). cbn in Hl. lia.
Qed.

Lemma BigEndian_roundtrip_sorted_witness :
  BigEndianToUint64 (Uint64ToBigEndian 258) = Ok 258.
Proof.
  assert (is_uint64 258) as H by (split; by vm_compute).
  apply (BigEndian_roundtrip_sorted 258 258 H H).
Defined.

(** ** Batches *)

Lemma sub_segments_spec {A} (array : list A) n batch fuel i :
  (1 <= i)%nat -> (i + fuel = S batch)%nat ->
  (0 < fuel)%nat -> ((batch - 1) * n <= length array <= batch * n)%nat ->
  let segs := sub_segments i batch n array fuel in
  concat segs = drop ((i - 1) * n) array /\ Forall (fun s => (length s <= n)%nat) segs /\ length segs = fuel.
Proof.
  intros Hi Hf Hpos Hlen. revert i Hi Hf. induction fuel as [|fuel IH]; intros i Hi Hf; [lia|].
  cbn [sub_segments concat length]. destruct (decide (i = batch)) as [->|Hne].
  - rewrite Nat.eqb_refl. assert (fuel = 0)%nat as -> by lia. cbn [sub_segments concat length].
    rewrite app_nil_r. split_and!; [|constructor; [|constructor]|done].
    + apply take_ge. rewrite length_drop. lia.
    + rewrite length_take, length_drop.
      assert (batch * n = (batch - 1) * n + n)%nat by (destruct batch; [lia|]; cbn; rewrite Nat.sub_0_r; lia). lia.
  - rewrite (proj2 (Nat.eqb_neq _ _)) by done.
    destruct (IH ltac:(lia) (S i) ltac:(lia) ltac:(lia)) as (E & Hall & Hl).
    replace (S i - 1)%nat with i in E by lia.
    assert (i * n = (i - 1) * n + n)%nat as En by (destruct i; [lia|]; cbn; rewrite Nat.sub_0_r; lia).
    assert (i * n <= (batch - 1) * n)%nat by (apply Nat.mul_le_mono_r; lia).
    split_and!; [|constructor; [|done]|by rewrite Hl].
    + rewrite E, En. replace ((i - 1) * n + n - (i - 1) * n)%nat with n by lia.
      rewrite <-drop_drop. apply take_drop.
    + rewrite length_take. lia.
Qed.

(** The segments of a positive length. *)
Lemma SubArray_segments {A} (subLen : Z) (array : list A) :
  0 < subLen -> exists segs, SubArray subLen array = Ok segs /\ concat segs = array /\
     Forall (fun s => Z.of_nat (length s) <= subLen) segs /\
     Z.of_nat (length segs) = Z.max 1 ((Z.of_nat (length array) + subLen - 1) / subLen).
Proof.
  intros Hs. unfold SubArray. destruct (Z.leb_spec (Z.of_nat (length array)) subLen) as [Hl|Hl].
  - exists [array]. split_and!; [done|cbn; by rewrite app_nil_r|by repeat constructor|]. cbn [length].
    assert ((Z.of_nat (length array) + subLen - 1) / subLen < 2) by (apply Z.div_lt_upper_bound; lia). lia.
  - rewrite (proj2 (Z.eqb_neq subLen 0)) by lia.
    set (len := Z.of_nat (length array)) in *.
    pose proof (Z.quot_rem len subLen ltac:(lia)) as E.
    pose proof (Z.rem_bound_pos len subLen ltac:(lia) Hs) as B.
    set (q := Z.quot len subLen) in *. set (r := Z.rem len subLen) in *.
    set (batch := if 0 <? r then q + 1 else q).
    assert (0 <= q) as Hq by (apply Z.quot_pos; lia).
    assert (1 <= batch /\ (batch - 1) * subLen <= len <= batch * subLen /\
            (len + subLen - 1) / subLen = batch) as (Hb & Hlen & Hceil).
    { unfold batch. destruct (Z.ltb_spec 0 r).
      - split_and!; [lia|nia|nia|]. symmetry. apply Z.div_unique_pos with (r - 1); lia.
      - assert (r = 0) by lia. split_and!; [nia|nia|nia|]. symmetry. apply Z.div_unique_pos with (subLen - 1); lia. }
    assert (Z.of_nat (Z.to_nat batch) = batch) as Hbn by lia.
    assert (Z.of_nat (Z.to_nat subLen) = subLen) as Hsn by lia.
    destruct (sub_segments_spec array (Z.to_nat subLen) (Z.to_nat batch) (Z.to_nat batch) 1) as (Ec & Hall & Hlen2);
      [lia|lia|lia|unfold len in Hlen; nia|].
    eexists. split; [done|]. split; [exact Ec|]. split; [|rewrite Hlen2, Hceil; lia].
    eapply Forall_impl; [exact Hall|]. intros s Hs'. simpl in *. lia.
Qed.

(** [SubArray] cuts a list into consecutive segments of at most [subLen]
    elements that together are the list, [ceil(len / subLen)] of them (one for
    the empty list); a zero length panics on a non-empty list. *)
Theorem SubArray_partition {A} (subLen : Z) (array : list A) :
  (0 < subLen -> exists segs, SubArray subLen array = Ok segs /\ concat segs = array /\
     Forall (fun s => Z.of_nat (length s) <= subLen) segs /\
     Z.of_nat (length segs) = Z.max 1 ((Z.of_nat (length array) + subLen - 1) / subLen)) /\
  (array <> [] -> SubArray 0 array = Panic "integer divide by zero").
Proof.
  split; [apply SubArray_segments|].
  intros Hne. unfold SubArray. rewrite (proj2 (Z.leb_gt _ 0)); [done|]. destruct array; [done|cbn; lia].
Qed.

Lemma SubArray_partition_witness :
  exists segs, SubArray 2 [1; 2; 3; 4; 5] = Ok segs /\ concat segs = [1; 2; 3; 4; 5] /\ length segs = 3%nat.
Proof.
  destruct (proj1 (SubArray_partition 2 [1; 2; 3; 4; 5]) ltac:(lia)) as (segs & E & Ec & _ & Hl).
  exists segs. split; [exact E|]. split; [exact Ec|]. apply Nat2Z.inj. rewrite Hl. vm_compute. reflexivity.
Defined.
