(* ===== verification/BitArray.v ===== *)
(** [crypto/types/compact_bit_array.go]: a bit array packed into bytes, the
    highest bit of a byte first. *)
From S2P Require Import Prelude GoStrings.
From Stdlib Require Import Ascii.

(** [type CompactBitArray struct]; a nil pointer is [None]. *)
Record CompactBitArray := MkBitArray { ExtraBitsStored : Z; Elems : list Z }.

#[global] Instance CompactBitArray_eq_dec : EqDecision CompactBitArray.
Proof. solve_decision. Defined.

Definition NewCompactBitArray (bits : Z) : option CompactBitArray :=
  if bits <=? 0 then None
  else Some (MkBitArray (Z.rem bits 8) (replicate (Z.to_nat (Z.quot (bits + 7) 8)) 0)).

Definition Count (bA : option CompactBitArray) : Z :=
  match bA with
  | None => 0
  | Some b =>
      let n := Z.of_nat (length (Elems b)) in
      if ExtraBitsStored b =? 0 then n * 8 else (n - 1) * 8 + ExtraBitsStored b
  end.

Arguments Count _ : simpl never.

(** [uint8(1) << uint8(7-(i%8))] *)
Definition bit_mask (i : Z) : Z := wrap_u8 (Z.shiftl 1 (7 - Z.rem i 8)).
(** [bA.Elems[i>>3]] *)
Definition elem_at (b : CompactBitArray) (i : Z) : res Z :=
  if i <? 0 then Panic "index out of range"
  else match Elems b !! Z.to_nat (Z.shiftr i 3) with
       | Some e => Ok e
       | None => Panic "index out of range"
       end.

Definition GetIndex (bA : option CompactBitArray) (i : Z) : res bool :=
  match bA with
  | None => Ok false
  | Some b =>
      if Count bA <=? i then Ok false
      else e ← elem_at b i; Ok (0 <? Z.land e (bit_mask i))
  end.

(** The returned flag and the array afterwards. *)
Definition SetIndex (bA : option CompactBitArray) (i : Z) (v : bool) : res (bool * option CompactBitArray) :=
  match bA with
  | None => Ok (false, bA)
  | Some b =>
      if Count bA <=? i then Ok (false, bA)
      else
        e ← elem_at b i;
        let e' := if v then Z.lor e (bit_mask i) else Z.land e (255 - bit_mask i) in
        Ok (true, Some (MkBitArray (ExtraBitsStored b) (<[Z.to_nat (Z.shiftr i 3) := e']> (Elems b))))
  end.

(** The loops over [i = 0 .. n-1] with [GetIndex] in the body, as the list of
    the bits read. *)
Fixpoint read_bits (bA : option CompactBitArray) (i : Z) (n : nat) : res (list bool) :=
  match n with
  | O => Ok []
  | S n => b ← GetIndex bA i; bs ← read_bits bA (i + 1) n; Ok (b :: bs)
  end.

Definition count_true (l : list bool) : Z := Z.of_nat (length (filter (fun b => b = true) l)).

Definition NumTrueBitsBefore (bA : option CompactBitArray) (index : Z) : res Z :=
  bs ← read_bits bA 0 (Z.to_nat index); Ok (count_true bs).

Definition Copy (bA : option CompactBitArray) : option CompactBitArray :=
  match bA with
  | None => None
  | Some b => Some (MkBitArray (ExtraBitsStored b)
                (go_copy (replicate (length (Elems b)) 0) (Elems b)))
  end.

(** [MarshalJSON], [UnmarshalJSON]: "null" or a quoted string over [x], [_]. *)
Definition quote : ascii := chr 34.
Definition bit_chr (b : bool) : ascii := if b then "x"%char else "_"%char.
Definition MarshalJSON (bA : option CompactBitArray) : res string :=
  match bA with
  | None => Ok "null"
  | Some _ =>
      bs ← read_bits bA 0 (Z.to_nat (Count bA));
      Ok (String quote (foldr (fun b s => String (bit_chr b) s) (String quote "") bs))
  end.

(** [bitArrayJSONRegexp]: the characters [x] and [_] between two quotes. *)
Definition match_bits (s : string) : option string :=
  match s with
  | String q r =>
      if decide (q = quote) then
        let '(bits, rest) := span (fun c => bool_decide (c = "x"%char) || bool_decide (c = "_"%char)) r in
        if decide (rest = String quote "") then Some bits else None
      else None
  | _ => None
  end.
Fixpoint set_bits (bA : option CompactBitArray) (i : Z) (bits : string) : res (option CompactBitArray) :=
  match bits with
  | EmptyString => Ok bA
  | String c bits =>
      bA' ← (if decide (c = "x"%char) then '(_, b) ← SetIndex bA i true; Ok b else Ok bA);
      set_bits bA' (i + 1) bits
  end.
(** The receiver afterwards; [*bA = *bA2] dereferences [bA2]. *)
Definition UnmarshalJSON (bz : string) : res CompactBitArray :=
  if decide (bz = "null") then Ok (MkBitArray 0 [])
  else match match_bits bz with
       | None => Err "bitArray in JSON should be a string of format %q but got %s"
       | Some bits =>
           bA2 ← set_bits (NewCompactBitArray (Z.of_nat (String.length bits))) 0 bits;
           deref bA2
       end.

(** [binary.PutUvarint] and [binary.Uvarint] of the standard library: seven
    bits per byte, least significant first.  [Uvarint] returns the value and
    the number of bytes read, 0 if the buffer ends early and a negative number
    on overflow. *)
Fixpoint put_uvarint (fuel : nat) (x : Z) : list Z :=
  match fuel with
  | O => [x]
  | S fuel => if x <? 128 then [x] else Z.lor (x mod 128) 128 :: put_uvarint fuel (Z.shiftr x 7)
  end.
Definition PutUvarint (x : Z) : list Z := put_uvarint 9 x.
Fixpoint uvarint (i s x : Z) (buf : list Z) : Z * Z :=
  match buf with
  | [] => (0, 0)
  | b :: buf =>
      if i =? 10 then (0, - (i + 1))
      else if b <? 128 then
        if (i =? 9) && (1 <? b) then (0, - (i + 1))
        else (wrap_u64 (Z.lor x (Z.shiftl b s)), i + 1)
      else uvarint (i + 1) (s + 7) (Z.lor x (Z.shiftl (Z.land b 127) s)) buf
  end.
Definition Uvarint (buf : list Z) : Z * Z := uvarint 0 0 0 buf.

Definition CompactMarshal (bA : option CompactBitArray) : list Z :=
  match bA with
  | Some b => if Count bA <=? 0 then to_bytes "null" else PutUvarint (wrap_u64 (Count bA)) ++ Elems b
  | None => to_bytes "null"
  end.

Definition invalid_size : string := "compact bit array: invalid compact unmarshal size".
Definition CompactUnmarshal (bz : list Z) : res (option CompactBitArray) :=
  if (length bz <? 2)%nat then Err invalid_size
  else if decide (bz = to_bytes "null") then Ok (NewCompactBitArray 0)
  else
    let '(size, n) := Uvarint bz in
    if n <? 0 then Panic "slice bounds out of range"
    else
      let bz := drop (Z.to_nat n) bz in
      if negb (Z.of_nat (length bz) =? Z.quot (wrap_i64 (wrap_u64 (size + 7))) 8) then Err invalid_size
      else Ok (Some (MkBitArray (size mod 8) bz)).

(* ------------------------------------------------------------------ *)
(** * Properties *)

(** Arrays as [NewCompactBitArray] builds them: at most seven extra bits, in a
    byte that exists. *)
Record ba_wf (b : CompactBitArray) : Prop := {
  wf_extra : 0 <= ExtraBitsStored b < 8;
  wf_elems : Forall is_uint8 (Elems b);
  wf_nonempty : Elems b <> [];
}.

(** Bit [i] of the array. *)
Definition bit_at (b : CompactBitArray) (i : Z) : bool :=
  Z.testbit (nth (Z.to_nat (i / 8)) (Elems b) 0) (7 - i mod 8).

Lemma Count_bounds b : ba_wf b -> 0 < Count (Some b) <= 8 * Z.of_nat (length (Elems b)).
Proof.
  intros [He _ Hn]. unfold Count. assert (0 < Z.of_nat (length (Elems b))) by (destruct (Elems b); [done|cbn; lia]).
  destruct (Z.eqb_spec (ExtraBitsStored b) 0); lia.
Qed.

Lemma mask_val i : 0 <= i -> bit_mask i = 2 ^ (7 - i mod 8).
Proof.
  intros Hi. unfold bit_mask. rewrite Z.rem_mod_nonneg by lia.
  pose proof (Z.mod_pos_bound i 8 ltac:(lia)). rewrite Z.shiftl_1_l. unfold wrap_u8.
  apply Z.mod_small. split; [apply Z.pow_nonneg; lia|]. apply Z.pow_lt_mono_r; lia.
Qed.

Lemma shiftr3 i : Z.shiftr i 3 = i / 8.
Proof. by rewrite Z.shiftr_div_pow2. Qed.

Lemma land_mask e k : 0 <= k -> (0 <? Z.land e (2 ^ k)) = Z.testbit e k.
Proof.
  intros Hk. destruct (Z.testbit e k) eqn:E.
  - assert (Z.land e (2 ^ k) = 2 ^ k) as ->.
    { apply Z.bits_inj'. intros n Hn. rewrite Z.land_spec, Z.pow2_bits_eqb by done.
      destruct (Z.eqb_spec k n) as [->|]; [by rewrite E|by rewrite andb_false_r]. }
    apply Z.ltb_lt, Z.pow_pos_nonneg; lia.
  - assert (Z.land e (2 ^ k) = 0) as ->; [|done].
    apply Z.bits_inj'. intros n Hn. rewrite Z.land_spec, Z.pow2_bits_eqb, Z.bits_0 by done.
    destruct (Z.eqb_spec k n) as [->|]; [by rewrite E|by rewrite andb_false_r].
Qed.

Lemma elem_at_ok b i :
  ba_wf b -> 0 <= i < Count (Some b) ->
  (Z.to_nat (i / 8) < length (Elems b))%nat /\
  elem_at b i = Ok (nth (Z.to_nat (i / 8)) (Elems b) 0).
Proof.
  intros Hw Hi. pose proof (Count_bounds b Hw) as Hc.
  assert (i / 8 < Z.of_nat (length (Elems b))) by (apply Z.div_lt_upper_bound; lia).
  assert (0 <= i / 8) by (apply Z.div_pos; lia).
  assert (Z.to_nat (i / 8) < length (Elems b))%nat as Hl by lia. split; [done|].
  unfold elem_at. rewrite (proj2 (Z.ltb_ge i 0)), shiftr3 by lia.
  destruct (lookup_lt_is_Some_2 (Elems b) _ Hl) as [e He]. rewrite He. f_equal.
  symmetry. apply nth_lookup_Some. done.
Qed.

Lemma GetIndex_bit b i :
  ba_wf b -> 0 <= i -> GetIndex (Some b) i = Ok (bool_decide (i < Count (Some b)) && bit_at b i).
Proof.
  intros Hw Hi. unfold GetIndex. destruct (Z.leb_spec (Count (Some b)) i) as [Hc|Hc].
  - rewrite bool_decide_false; [done|lia].
  - rewrite bool_decide_true by done. destruct (elem_at_ok b i Hw ltac:(lia)) as [_ ->].
    cbn [mbind res_bind]. rewrite mask_val by done. pose proof (Z.mod_pos_bound i 8 ltac:(lia)).
    by rewrite land_mask by lia.
Qed.

Lemma clear_bit e k j : 0 <= e < 256 -> 0 <= k < 8 -> 0 <= j < 8 ->
  Z.testbit (Z.land e (255 - 2 ^ k)) j = if j =? k then false else Z.testbit e j.
Proof.
  intros He Hk Hj. rewrite Z.land_spec.
  assert (Z.testbit (255 - 2 ^ k) j = negb (j =? k)) as ->.
  { assert (k = 0 \/ k = 1 \/ k = 2 \/ k = 3 \/ k = 4 \/ k = 5 \/ k = 6 \/ k = 7) as Hk' by lia.
    assert (j = 0 \/ j = 1 \/ j = 2 \/ j = 3 \/ j = 4 \/ j = 5 \/ j = 6 \/ j = 7) as Hj' by lia.
    destruct_or? Hk'; destruct_or? Hj'; subst; vm_compute; done. }
  destruct (j =? k); [by rewrite andb_false_r|by rewrite andb_true_r].
Qed.

Lemma uint8_pow2 k : 0 <= k < 8 -> is_uint8 (2 ^ k).
Proof. intros Hk. unfold is_uint8. split; [apply Z.pow_nonneg; lia|apply Z.pow_lt_mono_r; lia]. Qed.

Lemma uint8_bits z : 0 <= z -> (forall j, 8 <= j -> Z.testbit z j = false) -> is_uint8 z.
Proof.
  intros Hz Hb. unfold is_uint8. split; [done|].
  destruct (Z.eq_dec z 0) as [->|Hne]; [done|].
  apply Z.log2_lt_pow2; [lia|]. destruct (Z_lt_ge_dec (Z.log2 z) 8) as [|Hge]; [done|].
  specialize (Hb (Z.log2 z) ltac:(lia)). rewrite Z.bit_log2 in Hb by lia. done.
Qed.

Lemma uint8_testbit e j : is_uint8 e -> 8 <= j -> Z.testbit e j = false.
Proof.
  unfold is_uint8. intros He Hj. destruct (Z.eq_dec e 0) as [->|]; [apply Z.bits_0|].
  apply Z.bits_above_log2; [lia|]. assert (Z.log2 e < 8) by (apply Z.log2_lt_pow2; lia). lia.
Qed.

Lemma uint8_lor a b : is_uint8 a -> is_uint8 b -> is_uint8 (Z.lor a b).
Proof.
  intros Ha Hb. apply uint8_bits.
  - apply Z.lor_nonneg. unfold is_uint8 in *. lia.
  - intros j Hj. by rewrite Z.lor_spec, !uint8_testbit.
Qed.
Lemma uint8_land a b : is_uint8 a -> is_uint8 (Z.land a b).
Proof.
  intros Ha. apply uint8_bits.
  - apply Z.land_nonneg. unfold is_uint8 in Ha. lia.
  - intros j Hj. by rewrite Z.land_spec, uint8_testbit.
Qed.

Lemma nth_insert (l : list Z) i j x :
  (i < length l)%nat -> nth j (<[i := x]> l) 0 = if decide (j = i) then x else nth j l 0.
Proof.
  intros Hi. rewrite !nth_lookup. destruct (decide (j = i)) as [->|Hne].
  - by rewrite list_lookup_insert_eq.
  - by rewrite list_lookup_insert_ne.
Qed.

(** Two indexes name the same bit of the same byte only if they are equal. *)
Lemma bit_position i j :
  0 <= i -> 0 <= j -> Z.to_nat (i / 8) = Z.to_nat (j / 8) -> 7 - i mod 8 = 7 - j mod 8 -> i = j.
Proof.
  intros Hi Hj H1 H2. pose proof (Z.div_mod i 8 ltac:(lia)). pose proof (Z.div_mod j 8 ltac:(lia)).
  pose proof (Z.div_pos i 8 Hi ltac:(lia)). pose proof (Z.div_pos j 8 Hj ltac:(lia)). lia.
Qed.

Lemma SetIndex_spec b i v :
  ba_wf b -> 0 <= i < Count (Some b) ->
  exists b', SetIndex (Some b) i v = Ok (true, Some b') /\ ba_wf b' /\
    ExtraBitsStored b' = ExtraBitsStored b /\ length (Elems b') = length (Elems b) /\
    forall j, 0 <= j -> bit_at b' j = if j =? i then v else bit_at b j.
Proof.
  intros Hw Hi. destruct (elem_at_ok b i Hw Hi) as [Hl He].
  unfold SetIndex. rewrite (proj2 (Z.leb_gt _ _)), He by lia. cbn [mbind res_bind].
  rewrite shiftr3, mask_val by lia. set (k := 7 - i mod 8). set (n := Z.to_nat (i / 8)) in *.
  set (e := nth n (Elems b) 0) in *.
  assert (0 <= k < 8) as Hk by (pose proof (Z.mod_pos_bound i 8 ltac:(lia)); lia).
  assert (is_uint8 e) as Hee.
  { pose proof (wf_elems b Hw) as Hall. rewrite Forall_lookup in Hall. unfold e.
    destruct (lookup_lt_is_Some_2 (Elems b) n Hl) as [x Hx]. rewrite (nth_lookup_Some _ _ _ _ Hx). by eapply Hall. }
  eexists. split; [done|]. split_and!; [split|done|cbn [Elems]; by rewrite length_insert|].
  - apply (wf_extra b Hw).
  - cbn [Elems]. apply Forall_insert; [apply (wf_elems b Hw)|]. destruct v.
    + by apply uint8_lor, uint8_pow2.
    + by apply uint8_land.
  - cbn [Elems]. intros E. apply (f_equal length) in E. rewrite length_insert in E. cbn in E. lia.
  - intros j Hj. unfold bit_at. cbn [Elems]. rewrite nth_insert by done. fold k n.
    pose proof (Z.mod_pos_bound j 8 ltac:(lia)) as Hjm.
    destruct (decide (Z.to_nat (j / 8) = n)) as [En|En].
    + destruct (Z.eqb_spec j i) as [->|Hne].
      * fold k. destruct v; [by rewrite Z.lor_spec, Z.pow2_bits_true, orb_true_r by lia|].
        rewrite clear_bit by (unfold is_uint8 in Hee; lia). by rewrite Z.eqb_refl.
      * assert (7 - j mod 8 <> k) as Hjk.
        { intros E. apply Hne. apply bit_position; [done|lia|done|done]. }
        rewrite En. fold e. destruct v.
        -- rewrite Z.lor_spec, Z.pow2_bits_false by lia. by rewrite orb_false_r.
        -- rewrite clear_bit by (unfold is_uint8 in Hee; lia). by rewrite (proj2 (Z.eqb_neq _ _)).
    + destruct (Z.eqb_spec j i) as [->|Hne]; [done|done].
Qed.

Lemma Count_length b b' :
  ExtraBitsStored b' = ExtraBitsStored b -> length (Elems b') = length (Elems b) ->
  Count (Some b') = Count (Some b).
Proof. unfold Count. by intros -> ->. Qed.

Lemma New_spec n :
  0 < n -> exists b, NewCompactBitArray n = Some b /\ ba_wf b /\ Count (Some b) = n /\
    forall i, bit_at b i = false.
Proof.
  intros Hn. unfold NewCompactBitArray. rewrite (proj2 (Z.leb_gt n 0)) by done.
  rewrite Z.rem_mod_nonneg, Z.quot_div_nonneg by lia. eexists. split; [done|].
  pose proof (Z.mod_pos_bound n 8 ltac:(lia)) as Hm. pose proof (Z.div_mod n 8 ltac:(lia)) as E.
  assert ((n + 7) / 8 = if n mod 8 =? 0 then n / 8 else n / 8 + 1) as Eq.
  { symmetry. apply Z.div_unique_pos with (if n mod 8 =? 0 then 7 else n mod 8 - 1);
      destruct (Z.eqb_spec (n mod 8) 0); lia. }
  assert (0 < (n + 7) / 8) as Hp by (apply Z.div_str_pos; lia).
  split_and!; [split; cbn [Elems ExtraBitsStored]|..].
  - lia.
  - rewrite Forall_forall. intros x [-> _]%elem_of_replicate. unfold is_uint8. lia.
  - destruct (Z.to_nat ((n + 7) / 8)) eqn:Ez; [lia|done].
  - unfold Count. cbn [Elems ExtraBitsStored]. rewrite length_replicate, Z2Nat.id, Eq by lia.
    destruct (Z.eqb_spec (n mod 8) 0); lia.
  - intros i. unfold bit_at. cbn [Elems]. rewrite nth_lookup.
    destruct (replicate _ 0 !! _) as [x|] eqn:Ex; cbn [default from_option id]; [|apply Z.bits_0].
    apply lookup_replicate in Ex as [-> _]. apply Z.bits_0.
Qed.

(** The bit array behaves as an array of [Count] booleans.  A new array
    has the requested number of bits, all clear; writing inside the bounds
    succeeds, keeps the array well formed and its size, and changes exactly
    the bit written; reading or writing at or past the end does nothing and
    answers false. *)
Theorem BitArray_get_set :
  (forall n, 0 < n -> exists b, NewCompactBitArray n = Some b /\ ba_wf b /\ Count (Some b) = n /\
     forall i, 0 <= i -> GetIndex (Some b) i = Ok false) /\
  (forall b i v, ba_wf b -> 0 <= i < Count (Some b) ->
     exists b', SetIndex (Some b) i v = Ok (true, Some b') /\ ba_wf b' /\
       Count (Some b') = Count (Some b) /\
       forall j, 0 <= j -> GetIndex (Some b') j = if j =? i then Ok v else GetIndex (Some b) j) /\
  (forall b i v, Count (Some b) <= i ->
     GetIndex (Some b) i = Ok false /\ SetIndex (Some b) i v = Ok (false, Some b)).
Proof.
  split_and!.
  - intros n Hn. destruct (New_spec n Hn) as (b & E & Hw & Hc & Hb). exists b. split_and!; try done.
    intros i Hi. rewrite GetIndex_bit, Hb by done. by rewrite andb_false_r.
  - intros b i v Hw Hi. destruct (SetIndex_spec b i v Hw Hi) as (b' & E & Hw' & He & Hl & Hb).
    pose proof (Count_length b b' He Hl) as Hc. exists b'. split_and!; try done.
    intros j Hj. rewrite !GetIndex_bit, Hc, Hb by done. destruct (Z.eqb_spec j i) as [->|]; [|done].
    by rewrite bool_decide_true by lia.
  - intros b i v Hi. unfold GetIndex, SetIndex. by rewrite (proj2 (Z.leb_le _ _)).
Qed.

Lemma BitArray_get_set_witness :
  exists b, NewCompactBitArray 10 = Some b /\ Count (Some b) = 10.
Proof.
  destruct (proj1 BitArray_get_set 10 ltac:(lia)) as (b & E & _ & Hc & _). exists b. split; assumption.
Defined.

(** The bits of a well-formed array, as a list. *)
Definition bits_from (b : CompactBitArray) (i : Z) (n : nat) : list bool :=
  (fun k => bool_decide (i + Z.of_nat k < Count (Some b)) && bit_at b (i + Z.of_nat k)) <$> seq 0 n.

Lemma read_bits_spec b i n : ba_wf b -> 0 <= i -> read_bits (Some b) i n = Ok (bits_from b i n).
Proof.
  intros Hw. revert i. induction n as [|n IH]; intros i Hi; [done|].
  cbn [read_bits]. rewrite GetIndex_bit, IH by (done || lia). cbn [mbind res_bind]. unfold bits_from.
  f_equal. change (seq 0 (S n)) with (0%nat :: seq 1 n). rewrite fmap_cons, <-fmap_S_seq, <-list_fmap_compose.
  f_equal; [by rewrite Z.add_0_r|]. apply list_fmap_ext. intros k x _. cbn.
  by replace (i + 1 + Z.of_nat x) with (i + Z.of_nat (S x)) by lia.
Qed.

Definition bits (b : CompactBitArray) : list bool := bits_from b 0 (Z.to_nat (Count (Some b))).

Lemma bits_from_length b i n : length (bits_from b i n) = n.
Proof. unfold bits_from. by rewrite length_fmap, length_seq. Qed.

Lemma bits_from_lookup b i n k :
  (k < n)%nat -> i + Z.of_nat n <= Count (Some b) -> bits_from b i n !! k = Some (bit_at b (i + Z.of_nat k)).
Proof.
  intros Hk Hn. unfold bits_from. rewrite list_lookup_fmap, lookup_seq_lt by done. cbn.
  by rewrite bool_decide_true by lia.
Qed.

Lemma count_true_app l k : count_true (l ++ k) = count_true l + count_true k.
Proof. unfold count_true. rewrite filter_app, length_app. lia. Qed.

Lemma bits_from_app b i n m :
  bits_from b i (n + m) = bits_from b i n ++ bits_from b (i + Z.of_nat n) m.
Proof.
  unfold bits_from. rewrite seq_app, fmap_app. f_equal. cbn. rewrite <-(Nat.add_0_r n) at 1.
  rewrite <-fmap_add_seq, <-list_fmap_compose. apply list_fmap_ext. intros k x _. cbn.
  by replace (i + Z.of_nat (n + x)) with (i + Z.of_nat n + Z.of_nat x) by lia.
Qed.

(** The number of bits set before an index. *)
Definition rank (b : CompactBitArray) (i : Z) : Z := count_true (bits_from b 0 (Z.to_nat i)).

Lemma NumTrueBitsBefore_rank b i : ba_wf b -> NumTrueBitsBefore (Some b) i = Ok (rank b i).
Proof. intros Hw. unfold NumTrueBitsBefore. by rewrite read_bits_spec. Qed.

Lemma rank_0 b : rank b 0 = 0.
Proof. done. Qed.

Lemma rank_succ b i :
  0 <= i < Count (Some b) -> rank b (i + 1) = rank b i + (if bit_at b i then 1 else 0).
Proof.
  intros Hi. unfold rank. replace (Z.to_nat (i + 1)) with (Z.to_nat i + 1)%nat by lia.
  rewrite bits_from_app, count_true_app. f_equal. rewrite Z2Nat.id by lia.
  assert (bits_from b (0 + i) 1 = [bit_at b i]) as ->.
  { unfold bits_from. cbn [seq fmap list_fmap]. change (Z.of_nat 0) with 0.
    by rewrite Z.add_0_l, Z.add_0_r, bool_decide_true by lia. }
  by destruct (bit_at b i).
Qed.

Lemma rank_mono b i j : 0 <= i <= j -> j <= Count (Some b) -> rank b i <= rank b j.
Proof.
  intros Hij Hj. replace j with (i + Z.of_nat (Z.to_nat (j - i))) by lia.
  assert (i + Z.of_nat (Z.to_nat (j - i)) <= Count (Some b)) as Hb by lia. revert Hb. clear Hj.
  generalize (Z.to_nat (j - i)) as k. induction k as [|k IH]; intros Hb; [rewrite Z.add_0_r; lia|].
  rewrite Nat2Z.inj_succ in Hb |- *. replace (i + Z.succ (Z.of_nat k)) with (i + Z.of_nat k + 1) by lia.
  rewrite rank_succ by lia. specialize (IH ltac:(lia)). destruct (bit_at b _); lia.
Qed.

Lemma rank_nonneg b i : 0 <= rank b i.
Proof. unfold rank, count_true. lia. Qed.

(** Ranks depend on the bits below only. *)
Lemma rank_ext b b' i :
  0 <= i <= Count (Some b) -> Count (Some b') = Count (Some b) ->
  (forall j, 0 <= j < i -> bit_at b' j = bit_at b j) -> rank b' i = rank b i.
Proof.
  intros Hi Hc Hb. unfold rank. f_equal. unfold bits_from. rewrite Hc.
  apply list_fmap_ext. intros k x Hx. apply lookup_seq in Hx as [-> Hk]. rewrite Hb by lia. done.
Qed.

(** ** Compact encoding *)

Lemma put_uvarint_head fuel x : 0 <= x -> put_uvarint fuel x <> [].
Proof. destruct fuel; cbn; [done|]. by destruct (x <? 128). Qed.

Lemma lor_128 y : 0 <= y < 128 -> Z.lor y 128 = y + 128.
Proof.
  intros Hy. rewrite <-Z.lxor_lor, <-Z.add_nocarry_lxor; [done|..];
    apply Z.bits_inj'; intros n Hn; rewrite Z.land_spec, Z.bits_0;
    change 128 with (2 ^ 7); rewrite Z.pow2_bits_eqb by lia; destruct (Z.eqb_spec 7 n) as [<-|];
    rewrite ?andb_false_r, ?andb_true_r; try done;
    (destruct (Z.eq_dec y 0) as [->|]; [apply Z.bits_0|apply Z.bits_above_log2; [lia|];
      apply Z.log2_lt_pow2; lia]).
Qed.

Lemma land_127 y : 0 <= y < 128 -> Z.land (Z.lor y 128) 127 = y.
Proof.
  intros Hy. rewrite lor_128 by done. change 127 with (Z.ones 7). rewrite Z.land_ones by lia.
  change (2 ^ 7) with 128. rewrite <-(Z.mul_1_l 128) at 1. rewrite Z.mod_add by lia. by apply Z.mod_small.
Qed.

Lemma lor_shift x y s : 0 <= s -> 0 <= x < 2 ^ s -> 0 <= y -> Z.lor x (Z.shiftl y s) = x + y * 2 ^ s.
Proof.
  intros Hs Hx Hy. rewrite Z.shiftl_mul_pow2 by done.
  rewrite <-Z.lxor_lor, <-Z.add_nocarry_lxor; [done|..];
    apply Z.bits_inj'; intros n Hn; rewrite Z.land_spec, Z.bits_0, Z.mul_pow2_bits by done;
    (destruct (Z_lt_ge_dec n s) as [Hns|Hns];
     [rewrite (Z.testbit_neg_r y) by lia; by rewrite andb_false_r|]);
    (replace (Z.testbit x n) with false; [done|]); symmetry;
    (destruct (Z.eq_dec x 0) as [->|]; [apply Z.bits_0|apply Z.bits_above_log2; [lia|]]);
    (assert (Z.log2 x < s) by (apply Z.log2_lt_pow2; lia)); lia.
Qed.

Lemma shiftr7 x : Z.shiftr x 7 = x / 128.
Proof. by rewrite Z.shiftr_div_pow2. Qed.

(** Reading back a varint, from the middle of the scan. *)
Lemma uvarint_put fuel i x acc rest :
  0 <= i -> i + Z.of_nat fuel = 9 -> 0 <= acc < 2 ^ (7 * i) -> 0 <= x < 2 ^ (64 - 7 * i) ->
  uvarint i (7 * i) acc (put_uvarint fuel x ++ rest) =
  (acc + x * 2 ^ (7 * i), i + Z.of_nat (length (put_uvarint fuel x))).
Proof.
  revert i x acc. induction fuel as [|fuel IH]; intros i x acc Hi Hf Ha Hx.
  - assert (i = 9) as -> by lia. cbn [put_uvarint app uvarint length]. cbn [Z.eqb Pos.eqb andb].
    change (64 - 7 * 9) with 1 in Hx. change (2 ^ 1) with 2 in Hx.
    rewrite (proj2 (Z.ltb_lt x 128)), (proj2 (Z.ltb_ge 1 x)) by lia.
    rewrite lor_shift by lia. rewrite wrap_u64_id; [done|].
    unfold is_uint64. change (7 * 9) with 63 in *. change (2 ^ 63) with 9223372036854775808 in *.
    change (2 ^ 64) with 18446744073709551616. nia.
  - cbn [put_uvarint]. destruct (Z.ltb_spec x 128) as [Hs|Hs]; cbn [app uvarint length].
    + rewrite (proj2 (Z.eqb_neq i 10)), (proj2 (Z.eqb_neq i 9)), (proj2 (Z.ltb_lt x 128)) by lia.
      cbn [andb]. rewrite lor_shift by lia. rewrite wrap_u64_id; [done|]. unfold is_uint64.
      replace 64 with ((64 - 7 * i) + 7 * i) by lia. rewrite Z.pow_add_r by lia.
      assert (0 < 2 ^ (7 * i)) by (apply Z.pow_pos_nonneg; lia). nia.
    + rewrite (proj2 (Z.eqb_neq i 10)) by lia.
      pose proof (Z.mod_pos_bound x 128 ltac:(lia)) as Hm. pose proof (Z.div_mod x 128 ltac:(lia)) as E.
      rewrite (proj2 (Z.ltb_ge _ 128)) by (rewrite lor_128; lia).
      rewrite land_127, lor_shift, shiftr7 by lia.
      replace (7 * i + 7) with (7 * (i + 1)) by lia.
      assert (2 ^ (7 * (i + 1)) = 128 * 2 ^ (7 * i)) as Ep.
      { replace (7 * (i + 1)) with (7 + 7 * i) by lia. by rewrite Z.pow_add_r by lia. }
      assert (0 < 2 ^ (7 * i)) by (apply Z.pow_pos_nonneg; lia).
      rewrite IH; [|lia|lia|nia|].
      * f_equal; [|lia]. rewrite Ep. nia.
      * split; [apply Z.div_pos; lia|]. apply Z.div_lt_upper_bound; [lia|].
        change 128 with (2 ^ 7). rewrite <-Z.pow_add_r by lia. replace (7 + (64 - 7 * (i + 1))) with (64 - 7 * i) by lia. apply Hx.
Qed.

Lemma Uvarint_Put x rest :
  is_uint64 x -> Uvarint (PutUvarint x ++ rest) = (x, Z.of_nat (length (PutUvarint x))).
Proof.
  intros Hx. pose proof (uvarint_put 9 0 x 0 rest ltac:(lia) ltac:(lia) ltac:(split; [lia|done]) Hx) as E.
  change (7 * 0) with 0 in E. unfold Uvarint, PutUvarint. rewrite E. change (2 ^ 0) with 1. f_equal; lia.
Qed.

Lemma Count_extra b : ba_wf b -> Count (Some b) mod 8 = ExtraBitsStored b.
Proof.
  intros [He _ _]. unfold Count. destruct (Z.eqb_spec (ExtraBitsStored b) 0) as [->|Hne].
  - apply Z.mod_mul. lia.
  - rewrite Z.add_comm, Z.mod_add by lia. apply Z.mod_small. lia.
Qed.

Lemma Count_bytes b : ba_wf b -> (Count (Some b) + 7) / 8 = Z.of_nat (length (Elems b)).
Proof.
  intros [He _ _]. unfold Count. symmetry.
  destruct (Z.eqb_spec (ExtraBitsStored b) 0).
  - apply Z.div_unique_pos with 7; lia.
  - apply Z.div_unique_pos with (ExtraBitsStored b - 1); lia.
Qed.

Lemma CompactMarshal_not_null b :
  ba_wf b -> Count (Some b) < 2 ^ 60 -> PutUvarint (Count (Some b)) ++ Elems b <> to_bytes "null".
Proof.
  intros Hw Hc E. pose proof (Count_bounds b Hw) as Hb. pose proof (Count_bytes b Hw) as Hl.
  unfold PutUvarint in E. cbn [put_uvarint] in E. destruct (Z.ltb_spec (Count (Some b)) 128) as [H|H].
  - injection E as E1 E2. apply (f_equal length) in E2. rewrite E1 in Hl. cbn in E2. rewrite E2 in Hl.
    vm_compute in Hl. discriminate Hl.
  - apply (f_equal (fun l => match l with x :: _ => x | [] => 0 end)) in E. cbn [app to_bytes] in E.
    rename E into E1. rewrite lor_128 in E1 by (apply Z.mod_pos_bound; lia).
    pose proof (Z.mod_pos_bound (Count (Some b)) 128 ltac:(lia)). change (code "n") with 110 in E1. lia.
Qed.

(** The compact encoding of a bit array decodes to the same array, nil
    included.  The decoder is not safe on other inputs: a length prefix that
    overflows 64 bits makes it panic instead of returning an error, and the
    prefix [2^64 - 7] is accepted as an array with a negative number of bits. *)
Theorem CompactMarshal_roundtrip :
  (forall b, ba_wf b -> Count (Some b) < 2 ^ 60 -> CompactUnmarshal (CompactMarshal (Some b)) = Ok (Some b)) /\
  CompactUnmarshal (CompactMarshal None) = Ok None /\
  CompactUnmarshal (replicate 11 128) = Panic "slice bounds out of range" /\
  (exists b, CompactUnmarshal (PutUvarint (2 ^ 64 - 7)) = Ok (Some b) /\ Count (Some b) = -7).
Proof.
  split_and!; [|vm_compute; reflexivity|vm_compute; reflexivity|].
  2: { eexists. split; [vm_compute; reflexivity|]. vm_compute. reflexivity. }
  intros b Hw Hc. pose proof (Count_bounds b Hw) as Hb.
  assert (is_uint64 (Count (Some b))) as Hu.
  { unfold is_uint64. change (2 ^ 60) with 1152921504606846976 in Hc.
    change (2 ^ 64) with 18446744073709551616. lia. }
  unfold CompactMarshal. rewrite (proj2 (Z.leb_gt _ 0)), wrap_u64_id by (done || lia).
  unfold CompactUnmarshal.
  assert ((length (PutUvarint (Count (Some b)) ++ Elems b) <? 2)%nat = false) as ->.
  { apply Nat.ltb_ge. rewrite length_app. pose proof (wf_nonempty b Hw).
    pose proof (put_uvarint_head 9 (Count (Some b)) ltac:(lia)). unfold PutUvarint.
    destruct (put_uvarint 9 _), (Elems b); try done. cbn. lia. }
  rewrite decide_False by by apply CompactMarshal_not_null.
  rewrite Uvarint_Put by done. rewrite (proj2 (Z.ltb_ge _ 0)) by lia.
  rewrite Nat2Z.id, drop_app_length.
  rewrite wrap_u64_id, wrap_i64_id, Z.quot_div_nonneg, Count_bytes, Z.eqb_refl by
    (done || lia || (unfold is_int64, is_uint64; change (2 ^ 60) with 1152921504606846976 in Hc;
     change (2 ^ 64) with 18446744073709551616; change (2 ^ 63) with 9223372036854775808; lia)).
  cbn [negb]. rewrite Count_extra by done. by destruct b.
Qed.

Lemma CompactMarshal_roundtrip_witness :
  CompactUnmarshal (CompactMarshal (Some (MkBitArray 3 [160]))) = Ok (Some (MkBitArray 3 [160])).
Proof.
  apply (proj1 CompactMarshal_roundtrip (MkBitArray 3 [160])); [|vm_compute; reflexivity].
  split; cbn; [lia| |done]. repeat constructor; vm_compute; done.
Defined.

(** ** JSON *)

Definition bits_text (l : list bool) : string := foldr (fun b s => String (bit_chr b) s) "" l.

Lemma bits_text_quote l t :
  foldr (fun b s => String (bit_chr b) s) t l = bits_text l +:+ t.
Proof. induction l as [|b l IH]; [done|]. cbn. by rewrite IH. Qed.

Lemma match_bits_text l : match_bits (String quote (bits_text l +:+ String quote "")) = Some (bits_text l).
Proof.
  unfold match_bits. rewrite decide_True by done.
  rewrite span_unique; [by rewrite decide_True| |done].
  induction l as [|[] l IH]; cbn; done.
Qed.

Lemma bits_text_length l : String.length (bits_text l) = length l.
Proof. unfold bits_text. induction l; cbn; congruence. Qed.

(** The loop of [UnmarshalJSON] sets the listed bits. *)
Lemma set_bits_spec l b i :
  ba_wf b -> 0 <= i -> i + Z.of_nat (length l) <= Count (Some b) ->
  exists b', set_bits (Some b) i (bits_text l) = Ok (Some b') /\ ba_wf b' /\ Count (Some b') = Count (Some b) /\
    forall j, 0 <= j -> bit_at b' j =
      match l !! Z.to_nat (j - i) with
      | Some true => if i <=? j then true else bit_at b j
      | _ => bit_at b j end.
Proof.
  revert b i. induction l as [|x l IH]; intros b i Hw Hi Hl; cbn [bits_text foldr set_bits].
  { exists b. split_and!; try done. }
  cbn [length] in Hl.
  assert (exists b1, (if decide (bit_chr x = "x"%char) then '(_, b0) ← SetIndex (Some b) i true; Ok b0 else Ok (Some b))
     = Ok (Some b1) /\ ba_wf b1 /\ Count (Some b1) = Count (Some b) /\
     forall j, 0 <= j -> bit_at b1 j = if (j =? i) && x then true else bit_at b j) as (b1 & -> & Hw1 & Hc1 & Hb1).
  { destruct x; cbn [bit_chr].
    - rewrite decide_True by done. destruct (SetIndex_spec b i true Hw ltac:(lia)) as (b1 & -> & Hw1 & He & Hln & Hb1).
      exists b1. split_and!; try done; [by apply Count_length|]. intros j Hj. rewrite Hb1 by done.
      by destruct (j =? i).
    - rewrite decide_False by done. exists b. split_and!; try done. intros j Hj. by rewrite andb_false_r. }
  cbn [mbind res_bind]. destruct (IH b1 (i + 1) Hw1 ltac:(lia) ltac:(lia)) as (b' & E & Hw' & Hc' & Hb').
  exists b'. split; [exact E|]. split; [done|]. split; [congruence|].
  intros j Hj. rewrite Hb', Hb1 by done. destruct (Z.eqb_spec j i) as [->|Hne].
  - replace (Z.to_nat (i - (i + 1))) with 0%nat by lia. rewrite Z.sub_diag. cbn [Z.to_nat lookup list_lookup].
    rewrite (proj2 (Z.leb_gt (i + 1) i)), Z.leb_refl by lia. cbn [andb].
    destruct x, l as [|[] l]; done.
  - cbn [andb]. destruct (Z_lt_ge_dec j i) as [Hlt|Hge].
    + rewrite (proj2 (Z.leb_gt (i + 1) j)), (proj2 (Z.leb_gt i j)) by lia.
      by destruct (l !! _) as [[]|], ((x :: l) !! _) as [[]|].
    + rewrite (proj2 (Z.leb_le (i + 1) j)), (proj2 (Z.leb_le i j)) by lia.
      replace (Z.to_nat (j - i)) with (S (Z.to_nat (j - (i + 1)))) by lia. done.
Qed.

(** The JSON form of a bit array is read back as an array with the same
    bits; but the empty JSON string, which the accepted format includes,
    makes [UnmarshalJSON] dereference a nil array. *)
Theorem BitArray_JSON_roundtrip :
  (forall b, ba_wf b -> exists s b', MarshalJSON (Some b) = Ok s /\ UnmarshalJSON s = Ok b' /\
     Count (Some b') = Count (Some b) /\
     forall i, 0 <= i -> GetIndex (Some b') i = GetIndex (Some b) i) /\
  UnmarshalJSON (String quote (String quote "")) = Panic nil_deref.
Proof.
  split; [|vm_compute; reflexivity]. intros b Hw. pose proof (Count_bounds b Hw) as Hc.
  destruct (New_spec (Count (Some b)) ltac:(lia)) as (b0 & E0 & Hw0 & Hc0 & Hb0).
  pose proof (bits_from_length b 0 (Z.to_nat (Count (Some b)))) as Hlen.
  destruct (set_bits_spec (bits b) b0 0 Hw0 ltac:(lia)) as (b' & E' & Hw' & Hc' & Hb').
  { unfold bits. rewrite Hlen. lia. }
  eexists _, b'. split_and!.
  - unfold MarshalJSON. rewrite read_bits_spec by done. cbn [mbind res_bind]. rewrite bits_text_quote. reflexivity.
  - unfold UnmarshalJSON. rewrite decide_False by done. fold (bits b). rewrite match_bits_text, bits_text_length.
    unfold bits at 1. rewrite Hlen, Z2Nat.id, E0, E' by lia. done.
  - congruence.
  - intros i Hi. rewrite !GetIndex_bit, Hc', Hc0 by done. destruct (Z_lt_ge_dec i (Count (Some b))) as [Hlt|Hge].
    + f_equal. f_equal. rewrite Hb', Hb0, Z.sub_0_r by done. unfold bits.
      rewrite bits_from_lookup by lia. rewrite Z.add_0_l, Z2Nat.id by done.
      rewrite (proj2 (Z.leb_le 0 i)) by done. by destruct (bit_at b i).
    + by rewrite bool_decide_false by lia.
Qed.

Lemma BitArray_JSON_roundtrip_witness :
  exists s b', MarshalJSON (Some (MkBitArray 3 [160])) = Ok s /\ UnmarshalJSON s = Ok b' /\ Count (Some b') = 3.
Proof.
  destruct (proj1 BitArray_JSON_roundtrip (MkBitArray 3 [160])) as (s & b' & E1 & E2 & Hc & _).
  - split; cbn; [lia| |done]. repeat constructor; vm_compute; done.
  - exists s, b'. split; [exact E1|]. split; [exact E2|exact Hc].
Defined.
