(* ===== verification/Wire.v ===== *)
(** The protobuf wire format of the generated marshalling code, for the
    messages the transaction pipeline writes and reads by hand:
    [MultiSignature] and [CompactBitArray] ([crypto/types/multisig.pb.go]),
    [Coin] ([types/coin.pb.go]), [TxRaw] and [SignDoc] ([types/tx/tx.pb.go]).

    The generated [MarshalToSizedBuffer] fills a buffer of [Size] bytes from
    the end; here every step prepends to what is already written.  The
    generated decoders walk an index over the buffer; here the rest of the
    buffer is threaded, [l] being the length of the whole. *)
From S2P Require Import Prelude GoStrings BigText SdkInt CoinSet Coins BitArray.
From Stdlib Require Import Ascii.

Definition err_overflow : string := "proto: integer overflow".
Definition err_eof : string := "unexpected EOF".
Definition err_length : string := "proto: negative length found during unmarshaling".
Definition err_end_group : string := "proto: unexpected end of group".

(* ------------------------------------------------------------------ *)
(** * Writing *)

(** [encodeVarint...] writes what [binary.PutUvarint] writes. *)
Definition encodeVarint (v : Z) : list Z := PutUvarint v.
(** [sov...]: [(bits.Len64(x|1) + 6) / 7]. *)
Definition sov (x : Z) : Z := Z.quot (BitLen (Z.lor x 1) + 6) 7.

(** A length-delimited field and a varint field, in front of [acc]. *)
Definition put_bytes (tag : Z) (bs acc : list Z) : list Z :=
  tag :: encodeVarint (Z.of_nat (length bs)) ++ bs ++ acc.
Definition put_varint (tag v : Z) (acc : list Z) : list Z := tag :: encodeVarint v ++ acc.
(** Fields that are omitted when empty or zero. *)
Definition opt_bytes (tag : Z) (bs acc : list Z) : list Z :=
  match bs with [] => acc | _ => put_bytes tag bs acc end.
Definition opt_varint (tag v : Z) (acc : list Z) : list Z :=
  if v =? 0 then acc else put_varint tag v acc.
(** A repeated field, written from the last element to the first. *)
Definition rep_bytes (tag : Z) (l : list (list Z)) (acc : list Z) : list Z :=
  foldr (fun bs acc => put_bytes tag bs acc) acc l.

Definition bytes_size (bs : list Z) : Z :=
  1 + Z.of_nat (length bs) + sov (Z.of_nat (length bs)).
Definition opt_bytes_size (bs : list Z) : Z := match bs with [] => 0 | _ => bytes_size bs end.
Definition opt_varint_size (v : Z) : Z := if v =? 0 then 0 else 1 + sov v.
Definition rep_bytes_size (l : list (list Z)) : Z := foldr (fun bs n => bytes_size bs + n) 0 l.

(* ------------------------------------------------------------------ *)
(** * Reading *)

(** The varint loops: seven bits per byte, an error after ten bytes. *)
Fixpoint read_varint_from (fuel : nat) (shift acc : Z) (buf : list Z) : res (Z * list Z) :=
  match fuel with
  | O => Err err_overflow
  | S fuel =>
      match buf with
      | [] => Err err_eof
      | b :: buf =>
          let acc := Z.lor acc (wrap_u64 (Z.shiftl (Z.land b 127) shift)) in
          if b <? 128 then Ok (acc, buf) else read_varint_from fuel (shift + 7) acc buf
      end
  end.
Definition read_varint (buf : list Z) : res (Z * list Z) := read_varint_from 10 0 0 buf.

(** The body of a length-delimited field. *)
Definition read_bytes (l : Z) (buf : list Z) : res (list Z * list Z) :=
  '(n, rest) ← read_varint buf;
  let byteLen := wrap_i64 n in
  if byteLen <? 0 then Err err_length else
  let iNdEx := l - Z.of_nat (length rest) in
  let postIndex := wrap_i64 (iNdEx + byteLen) in
  if postIndex <? 0 then Err err_length
  else if l <? postIndex then Err err_eof
  else Ok (take (Z.to_nat byteLen) rest, drop (Z.to_nat byteLen) rest).

(** [skip...]: the length of the next field, groups included; [n] is the index
    and [depth] the number of open groups. *)
Fixpoint skip_loop (fuel : nat) (dAtA : list Z) (n depth : Z) : res Z :=
  let l := Z.of_nat (length dAtA) in
  match fuel with
  | O => Err err_eof
  | S fuel =>
      if l <=? n then Err err_eof else
      '(wire, rest) ← read_varint (drop (Z.to_nat n) dAtA);
      let n := l - Z.of_nat (length rest) in
      let wireType := Z.land wire 7 in
      '(n, depth) ←
        (if wireType =? 0 then '(_, rest) ← read_varint rest; Ok (l - Z.of_nat (length rest), depth)
         else if wireType =? 1 then Ok (n + 8, depth)
         else if wireType =? 2 then
           '(len, rest) ← read_varint rest;
           if wrap_i64 len <? 0 then Err err_length
           else Ok (wrap_i64 (l - Z.of_nat (length rest) + wrap_i64 len), depth)
         else if wireType =? 3 then Ok (n, depth + 1)
         else if wireType =? 4 then if depth =? 0 then Err err_end_group else Ok (n, depth - 1)
         else if wireType =? 5 then Ok (n + 4, depth)
         else Err "proto: illegal wireType %d");
      if n <? 0 then Err err_length
      else if depth =? 0 then Ok n
      else skip_loop fuel dAtA n depth
  end.
Definition skip (dAtA : list Z) : res Z := skip_loop (length dAtA) dAtA 0 0.

(** Conversion to [int32]. *)
Definition wrap_i32 (z : Z) : Z := (z + 2^31) mod 2^32 - 2^31.

Section Message.
Context {M : Type}.
(** What the message does with a field it knows ([None] for the [default]
    case of the generated switch), and with the bytes of one it does not. *)
Variable field : M -> Z -> Z -> Z -> list Z -> option (res (M * list Z)).
Variable unknown : M -> list Z -> M.

Fixpoint unmarshal_loop (fuel : nat) (l : Z) (m : M) (buf : list Z) : res M :=
  match buf with
  | [] => Ok m
  | _ =>
      match fuel with
      | O => Err err_eof
      | S fuel =>
          '(wire, rest) ← read_varint buf;
          let fieldNum := wrap_i32 (Z.shiftr wire 3) in
          let wireType := Z.land wire 7 in
          if wireType =? 4 then Err "proto: wiretype end group for non-group"
          else if fieldNum <=? 0 then Err "proto: illegal tag %d (wire type %d)"
          else match field m fieldNum wireType l rest with
               | Some r => '(m, rest) ← r; unmarshal_loop fuel l m rest
               | None =>
                   skippy ← skip buf;
                   let iNdEx := l - Z.of_nat (length buf) in
                   if (skippy <? 0) || (wrap_i64 (iNdEx + skippy) <? 0) then Err err_length
                   else if l <? wrap_i64 (iNdEx + skippy) then Err err_eof
                   else unmarshal_loop fuel l (unknown m (take (Z.to_nat skippy) buf))
                          (drop (Z.to_nat skippy) buf)
               end
      end
  end.
Definition unmarshal (m : M) (dAtA : list Z) : res M :=
  unmarshal_loop (length dAtA) (Z.of_nat (length dAtA)) m dAtA.
End Message.

Definition wrong_type : string := "proto: wrong wireType = %d for field".
(** A known length-delimited field stored by [set], and a varint field. *)
Definition get_bytes {M} (set : list Z -> M) (wt l : Z) (buf : list Z) : option (res (M * list Z)) :=
  Some (if negb (wt =? 2) then Err wrong_type else '(bs, rest) ← read_bytes l buf; Ok (set bs, rest)).
Definition get_varint {M} (set : Z -> M) (wt : Z) (buf : list Z) : option (res (M * list Z)) :=
  Some (if negb (wt =? 0) then Err wrong_type else '(v, rest) ← read_varint buf; Ok (set v, rest)).

(* ------------------------------------------------------------------ *)
(** * Messages *)

(** [MultiSignature] *)
Record MultiSignature := MkMultiSignature { ms_Signatures : list (list Z); XXX_unrecognized : list Z }.
Definition MultiSignature_Marshal (m : MultiSignature) : list Z :=
  rep_bytes 10 (ms_Signatures m) (XXX_unrecognized m).
Definition MultiSignature_Size (m : MultiSignature) : Z :=
  rep_bytes_size (ms_Signatures m) + Z.of_nat (length (XXX_unrecognized m)).
Definition MultiSignature_field (m : MultiSignature) (num wt l : Z) (buf : list Z) :=
  if num =? 1 then get_bytes (fun bs => MkMultiSignature (ms_Signatures m ++ [bs]) (XXX_unrecognized m)) wt l buf
  else None.
Definition MultiSignature_Unmarshal (m : MultiSignature) (dAtA : list Z) : res MultiSignature :=
  unmarshal MultiSignature_field
    (fun m bs => MkMultiSignature (ms_Signatures m) (XXX_unrecognized m ++ bs)) m dAtA.

(** [CompactBitArray]; [ExtraBitsStored] is a [uint32]. *)
Definition CompactBitArray_Marshal (b : CompactBitArray) : list Z :=
  opt_varint 8 (ExtraBitsStored b) (opt_bytes 18 (Elems b) []).
Definition CompactBitArray_Size (b : CompactBitArray) : Z :=
  opt_varint_size (ExtraBitsStored b) + opt_bytes_size (Elems b).
Definition CompactBitArray_field (b : CompactBitArray) (num wt l : Z) (buf : list Z) :=
  if num =? 1 then get_varint (fun v => MkBitArray (wrap_u32 v) (Elems b)) wt buf
  else if num =? 2 then get_bytes (fun bs => MkBitArray (ExtraBitsStored b) bs) wt l buf
  else None.
Definition CompactBitArray_Unmarshal (b : CompactBitArray) (dAtA : list Z) : res CompactBitArray :=
  unmarshal CompactBitArray_field (fun b _ => b) b dAtA.

(** [TxRaw] *)
Record TxRaw := MkTxRaw { raw_BodyBytes : list Z; raw_AuthInfoBytes : list Z; raw_Signatures : list (list Z) }.
Definition TxRaw_Marshal (m : TxRaw) : list Z :=
  opt_bytes 10 (raw_BodyBytes m) (opt_bytes 18 (raw_AuthInfoBytes m) (rep_bytes 26 (raw_Signatures m) [])).
Definition TxRaw_Size (m : TxRaw) : Z :=
  opt_bytes_size (raw_BodyBytes m) + opt_bytes_size (raw_AuthInfoBytes m) + rep_bytes_size (raw_Signatures m).
Definition TxRaw_field (m : TxRaw) (num wt l : Z) (buf : list Z) :=
  if num =? 1 then get_bytes (fun bs => MkTxRaw bs (raw_AuthInfoBytes m) (raw_Signatures m)) wt l buf
  else if num =? 2 then get_bytes (fun bs => MkTxRaw (raw_BodyBytes m) bs (raw_Signatures m)) wt l buf
  else if num =? 3 then
    get_bytes (fun bs => MkTxRaw (raw_BodyBytes m) (raw_AuthInfoBytes m) (raw_Signatures m ++ [bs])) wt l buf
  else None.
Definition TxRaw_Unmarshal (m : TxRaw) (dAtA : list Z) : res TxRaw :=
  unmarshal TxRaw_field (fun m _ => m) m dAtA.

(** [SignDoc] *)
Record SignDoc := MkSignDoc {
  doc_BodyBytes : list Z; doc_AuthInfoBytes : list Z; doc_ChainId : string; doc_AccountNumber : Z
}.
Definition SignDoc_Marshal (m : SignDoc) : list Z :=
  opt_bytes 10 (doc_BodyBytes m) (opt_bytes 18 (doc_AuthInfoBytes m)
    (opt_bytes 26 (to_bytes (doc_ChainId m)) (opt_varint 32 (doc_AccountNumber m) []))).
Definition SignDoc_Size (m : SignDoc) : Z :=
  opt_bytes_size (doc_BodyBytes m) + opt_bytes_size (doc_AuthInfoBytes m) +
  opt_bytes_size (to_bytes (doc_ChainId m)) + opt_varint_size (doc_AccountNumber m).
Definition SignDoc_field (m : SignDoc) (num wt l : Z) (buf : list Z) :=
  let '(MkSignDoc body auth chain acc) := m in
  if num =? 1 then get_bytes (fun bs => MkSignDoc bs auth chain acc) wt l buf
  else if num =? 2 then get_bytes (fun bs => MkSignDoc body bs chain acc) wt l buf
  else if num =? 3 then get_bytes (fun bs => MkSignDoc body auth (bytes_str bs) acc) wt l buf
  else if num =? 4 then get_varint (fun v => MkSignDoc body auth chain v) wt buf
  else None.
Definition SignDoc_Unmarshal (m : SignDoc) (dAtA : list Z) : res SignDoc :=
  unmarshal SignDoc_field (fun m _ => m) m dAtA.

(** [Coin]: the amount is a custom type with its own codec, always written. *)
Definition Coin_Marshal (c : Coin) : list Z :=
  opt_bytes 10 (to_bytes (Denom c)) (put_bytes 18 (Int_Marshal (Amount c)) []).
Definition Coin_Size (c : Coin) : Z :=
  opt_bytes_size (to_bytes (Denom c)) + bytes_size (Int_Marshal (Amount c)).
Definition Coin_field (c : Coin) (num wt l : Z) (buf : list Z) : option (res (Coin * list Z)) :=
  if num =? 1 then get_bytes (fun bs => MkCoin (bytes_str bs) (Amount c)) wt l buf
  else if num =? 2 then
    Some (if negb (wt =? 2) then Err wrong_type
          else '(bs, rest) ← read_bytes l buf; a ← Int_Unmarshal (Amount c) bs; Ok (MkCoin (Denom c) a, rest))
  else None.
Definition Coin_Unmarshal (c : Coin) (dAtA : list Z) : res Coin := unmarshal Coin_field (fun c _ => c) c dAtA.

(* ------------------------------------------------------------------ *)
(** * Varints *)

Lemma wrap_shift y s : 0 <= s -> 0 <= y -> y * 2 ^ s < 2 ^ 64 -> wrap_u64 (Z.shiftl y s) = Z.shiftl y s.
Proof.
  intros Hs Hy H. rewrite Z.shiftl_mul_pow2 by done. apply wrap_u64_id. unfold is_uint64.
  assert (0 < 2 ^ s) by (apply Z.pow_pos_nonneg; lia). nia.
Qed.

Lemma land_127_small b : 0 <= b < 128 -> Z.land b 127 = b.
Proof. intros Hb. change 127 with (Z.ones 7). rewrite Z.land_ones by lia. by apply Z.mod_small. Qed.

Lemma read_varint_from_cons fuel shift acc b buf :
  read_varint_from (S fuel) shift acc (b :: buf) =
  let acc := Z.lor acc (wrap_u64 (Z.shiftl (Z.land b 127) shift)) in
  if b <? 128 then Ok (acc, buf) else read_varint_from fuel (shift + 7) acc buf.
Proof. done. Qed.

Lemma read_varint_put_from fuel i x acc rest :
  0 <= i -> i + Z.of_nat fuel = 9 -> 0 <= acc < 2 ^ (7 * i) -> 0 <= x < 2 ^ (64 - 7 * i) ->
  read_varint_from (S fuel) (7 * i) acc (put_uvarint fuel x ++ rest) = Ok (acc + x * 2 ^ (7 * i), rest).
Proof.
  revert i x acc. induction fuel as [|fuel IH]; intros i x acc Hi Hf Ha Hx;
    assert (0 < 2 ^ (7 * i)) as Hp by (apply Z.pow_pos_nonneg; lia);
    assert (2 ^ 64 = 2 ^ (64 - 7 * i) * 2 ^ (7 * i)) as E64
      by (rewrite <-Z.pow_add_r by lia; f_equal; lia).
  - assert (x < 2) as Hx2 by (assert (i = 9) as -> by lia; exact (proj2 Hx)).
    cbn [put_uvarint app]. rewrite read_varint_from_cons. cbv zeta.
    rewrite (proj2 (Z.ltb_lt x 128)), land_127_small, wrap_shift, lor_shift by (lia || nia). done.
  - cbn [put_uvarint]. destruct (Z.ltb_spec x 128) as [Hs|Hs]; cbn [app]; rewrite read_varint_from_cons; cbv zeta.
    + rewrite (proj2 (Z.ltb_lt x 128)), land_127_small, wrap_shift, lor_shift by (lia || nia). done.
    + pose proof (Z.mod_pos_bound x 128 ltac:(lia)) as Hm. pose proof (Z.div_mod x 128 ltac:(lia)) as E.
      rewrite (proj2 (Z.ltb_ge _ 128)) by (rewrite lor_128; lia).
      rewrite land_127, wrap_shift, lor_shift, shiftr7 by (lia || nia).
      replace (7 * i + 7) with (7 * (i + 1)) by lia.
      assert (2 ^ (7 * (i + 1)) = 128 * 2 ^ (7 * i)) as Ep.
      { replace (7 * (i + 1)) with (7 + 7 * i) by lia. by rewrite Z.pow_add_r by lia. }
      rewrite IH; [|lia|lia|nia|].
      * do 2 f_equal. rewrite Ep. nia.
      * split; [apply Z.div_pos; lia|]. apply Z.div_lt_upper_bound; [lia|].
        change 128 with (2 ^ 7). rewrite <-Z.pow_add_r by lia.
        replace (7 + (64 - 7 * (i + 1))) with (64 - 7 * i) by lia. apply Hx.
Qed.

Lemma read_varint_encode x rest : is_uint64 x -> read_varint (encodeVarint x ++ rest) = Ok (x, rest).
Proof.
  intros Hx. pose proof (read_varint_put_from 9 0 x 0 rest ltac:(lia) ltac:(lia) ltac:(split; [lia|done]) Hx) as E.
  change (7 * 0) with 0 in E. change (2 ^ 0) with 1 in E. rewrite Z.add_0_l, Z.mul_1_r in E. exact E.
Qed.

(** A one-byte tag. *)
Lemma read_varint_tag tag rest : 0 <= tag < 128 -> read_varint (tag :: rest) = Ok (tag, rest).
Proof.
  intros Ht. assert (encodeVarint tag = [tag]) as E.
  { unfold encodeVarint, PutUvarint. cbn [put_uvarint]. by rewrite (proj2 (Z.ltb_lt tag 128)) by lia. }
  change (tag :: rest) with ([tag] ++ rest). rewrite <-E. apply read_varint_encode. unfold is_uint64.
  change (2 ^ 64) with 18446744073709551616. lia.
Qed.

(** [sov] is the number of bytes written. *)
Lemma sov_step x : 128 <= x -> sov x = 1 + sov (x / 128).
Proof.
  intros Hx. unfold sov.
  assert (forall y, 0 < y -> BitLen (Z.lor y 1) = Z.log2 y + 1) as HB.
  { intros y Hy. unfold BitLen.
    assert (Z.log2 (Z.lor y 1) = Z.log2 y) as El.
    { rewrite Z.log2_lor by lia. change (Z.log2 1) with 0. pose proof (Z.log2_nonneg y). lia. }
    assert (0 < Z.lor y 1) as Hp.
    { assert (0 <= Z.lor y 1) by (apply Z.lor_nonneg; lia).
      assert (Z.lor y 1 <> 0) by (intros E; apply Z.lor_eq_0_iff in E as [_ ?]; done). lia. }
    rewrite (proj2 (Z.eqb_neq _ 0)), Z.abs_eq by lia. by rewrite El. }
  assert (1 <= x / 128) by (apply Z.div_le_lower_bound; lia).
  rewrite !HB by lia. rewrite <-shiftr7, Z.log2_shiftr by lia.
  assert (7 <= Z.log2 x) as Hl by (apply Z.log2_le_pow2; lia).
  rewrite Z.max_r by lia. rewrite !Z.quot_div_nonneg by lia.
  replace (Z.log2 x + 1 + 6) with (Z.log2 x - 7 + 1 + 6 + 1 * 7) by lia. rewrite Z.div_add by lia. lia.
Qed.

Lemma sov_small x : 0 <= x < 128 -> sov x = 1.
Proof.
  intros Hx. unfold sov. assert (0 < Z.lor x 1 < 128) as Hl.
  { assert (is_uint8 (Z.lor x 1)) by (apply uint8_lor; unfold is_uint8; change (2 ^ 8) with 256; lia).
    assert (0 <= Z.lor x 1) by (apply Z.lor_nonneg; lia).
    assert (Z.lor x 1 <> 0) by (intros E; apply Z.lor_eq_0_iff in E as [_ ?]; done).
    split; [lia|]. change 128 with (2 ^ 7). apply Z.log2_lt_pow2; [lia|]. rewrite Z.log2_lor by lia.
    change (Z.log2 1) with 0. destruct (Z.eq_dec x 0) as [->|]; [done|].
    assert (Z.log2 x < 7) by (apply Z.log2_lt_pow2; lia). lia. }
  assert (0 < BitLen (Z.lor x 1) <= 7) as Hb.
  { split; [|apply BitLen_le; [lia|]; rewrite Z.abs_eq; [exact (proj2 Hl)|lia]].
    apply (BitLen_gt 0); [lia|]. change (2 ^ 0) with 1. lia. }
  rewrite Z.quot_div_nonneg by lia. symmetry. apply Z.div_unique_pos with (BitLen (Z.lor x 1) - 1); lia.
Qed.

Lemma put_uvarint_length fuel x :
  0 <= x < 2 ^ (7 * (Z.of_nat fuel + 1)) -> Z.of_nat (length (put_uvarint fuel x)) = sov x.
Proof.
  revert x. induction fuel as [|fuel IH]; intros x Hx.
  - change (2 ^ (7 * (Z.of_nat 0 + 1))) with 128 in Hx. by rewrite sov_small.
  - cbn [put_uvarint]. destruct (Z.ltb_spec x 128); [by rewrite sov_small by lia|].
    cbn [length]. rewrite Nat2Z.inj_succ, shiftr7, IH, (sov_step x) by (lia || (
      split; [apply Z.div_pos; lia|]; apply Z.div_lt_upper_bound; [lia|];
      change 128 with (2 ^ 7); rewrite <-Z.pow_add_r by lia;
      replace (7 + 7 * (Z.of_nat fuel + 1)) with (7 * (Z.of_nat (S fuel) + 1)) by lia; lia)). lia.
Qed.

Lemma encodeVarint_length x : is_uint64 x -> Z.of_nat (length (encodeVarint x)) = sov x.
Proof.
  intros Hx. apply put_uvarint_length. unfold is_uint64 in Hx. split; [lia|].
  apply Z.lt_trans with (2 ^ 64); [lia|]. by vm_compute.
Qed.

(* ------------------------------------------------------------------ *)
(** * Sizes *)

(** Lengths that fit: buffers below [2^62] bytes. *)
Definition fits (n : Z) : Prop := 0 <= n < 2 ^ 62.

Lemma fits_uint64 n : fits n -> is_uint64 n.
Proof. unfold fits, is_uint64. change (2 ^ 62) with 4611686018427387904. change (2 ^ 64) with 18446744073709551616. lia. Qed.

Lemma put_bytes_length tag bs acc :
  fits (Z.of_nat (length bs)) ->
  Z.of_nat (length (put_bytes tag bs acc)) = bytes_size bs + Z.of_nat (length acc).
Proof.
  intros Hf. unfold put_bytes, bytes_size. cbn [length]. rewrite !length_app, Nat2Z.inj_succ, !Nat2Z.inj_add.
  rewrite encodeVarint_length by by apply fits_uint64. lia.
Qed.

Lemma opt_bytes_length tag bs acc :
  fits (Z.of_nat (length bs)) ->
  Z.of_nat (length (opt_bytes tag bs acc)) = opt_bytes_size bs + Z.of_nat (length acc).
Proof. destruct bs; [intros _; cbn; lia|]. apply put_bytes_length. Qed.

Lemma opt_varint_length tag v acc :
  is_uint64 v -> Z.of_nat (length (opt_varint tag v acc)) = opt_varint_size v + Z.of_nat (length acc).
Proof.
  intros Hv. unfold opt_varint, opt_varint_size. destruct (v =? 0); [lia|].
  unfold put_varint. cbn [length]. rewrite length_app, Nat2Z.inj_succ, Nat2Z.inj_add, encodeVarint_length by done. lia.
Qed.

Lemma rep_bytes_length tag l acc :
  Forall (fun bs => fits (Z.of_nat (length bs))) l ->
  Z.of_nat (length (rep_bytes tag l acc)) = rep_bytes_size l + Z.of_nat (length acc).
Proof.
  induction 1 as [|bs l Hb Hl IH]; cbn [rep_bytes rep_bytes_size foldr]; [lia|].
  rewrite put_bytes_length by done. unfold rep_bytes in IH. rewrite IH. unfold rep_bytes_size. lia.
Qed.

(* ------------------------------------------------------------------ *)
(** * Decoding what was encoded *)

Lemma read_bytes_put l bs rest :
  Z.of_nat (length (encodeVarint (Z.of_nat (length bs)) ++ bs ++ rest)) <= l -> l < 2 ^ 62 ->
  read_bytes l (encodeVarint (Z.of_nat (length bs)) ++ bs ++ rest) = Ok (bs, rest).
Proof.
  rewrite !length_app, !Nat2Z.inj_add. intros Hl H62.
  assert (fits (Z.of_nat (length bs))) as Hf by (unfold fits; lia).
  unfold read_bytes. rewrite read_varint_encode by by apply fits_uint64. cbn [mbind res_bind].
  assert (forall n, fits n -> wrap_i64 n = n) as Hw.
  { intros n Hn. apply wrap_i64_id. unfold fits in Hn. unfold is_int64.
    change (2 ^ 62) with 4611686018427387904 in Hn. change (2 ^ 63) with 9223372036854775808. lia. }
  rewrite (Hw (Z.of_nat (length bs))) by done. rewrite (proj2 (Z.ltb_ge _ 0)) by lia.
  rewrite length_app, Nat2Z.inj_add, Hw by (unfold fits; lia).
  rewrite (proj2 (Z.ltb_ge _ 0)), (proj2 (Z.ltb_ge l _)), Nat2Z.id by lia.
  by rewrite take_app_length, drop_app_length.
Qed.

Section Decode.
Context {M : Type} (field : M -> Z -> Z -> Z -> list Z -> option (res (M * list Z))) (unknown : M -> list Z -> M).

(** One step of the decoder over a known length-delimited field. *)
Lemma unmarshal_put_bytes fuel l m m' tag bs rest :
  0 < Z.shiftr tag 3 -> tag < 128 -> Z.land tag 7 = 2 ->
  Z.of_nat (length (put_bytes tag bs rest)) <= l -> l < 2 ^ 62 ->
  (forall buf, read_bytes l buf = Ok (bs, rest) -> field m (Z.shiftr tag 3) 2 l buf = Some (Ok (m', rest))) ->
  unmarshal_loop field unknown (S fuel) l m (put_bytes tag bs rest) = unmarshal_loop field unknown fuel l m' rest.
Proof.
  intros H0 H1 Hw Hl H62 Hf. unfold put_bytes in *. cbn [unmarshal_loop].
  assert (0 <= tag) by (apply (Z.shiftr_nonneg tag 3); lia).
  rewrite read_varint_tag by lia. cbn [mbind res_bind].
  rewrite Hw. change (2 =? 4) with false. cbn match.
  assert (wrap_i32 (Z.shiftr tag 3) = Z.shiftr tag 3) as ->.
  { unfold wrap_i32. rewrite Z.shiftr_div_pow2 in * by lia. change (2 ^ 3) with 8 in *.
    assert (tag / 8 < 16) by (apply Z.div_lt_upper_bound; lia).
    rewrite Z.mod_small; [lia|]. change (2 ^ 31) with 2147483648. change (2 ^ 32) with 4294967296. lia. }
  rewrite (proj2 (Z.leb_gt _ 0)) by done.
  rewrite Hf; [done|]. apply read_bytes_put; [|done]. cbn [length] in Hl. lia.
Qed.

Lemma unmarshal_put_varint fuel l m m' tag v rest :
  0 < Z.shiftr tag 3 -> tag < 128 -> Z.land tag 7 = 0 -> is_uint64 v ->
  (forall buf, read_varint buf = Ok (v, rest) -> field m (Z.shiftr tag 3) 0 l buf = Some (Ok (m', rest))) ->
  unmarshal_loop field unknown (S fuel) l m (put_varint tag v rest) = unmarshal_loop field unknown fuel l m' rest.
Proof.
  intros H0 H1 Hw Hv Hf. unfold put_varint in *. cbn [unmarshal_loop].
  assert (0 <= tag) by (apply (Z.shiftr_nonneg tag 3); lia).
  rewrite read_varint_tag by lia. cbn [mbind res_bind].
  rewrite Hw. change (0 =? 4) with false. cbn match.
  assert (wrap_i32 (Z.shiftr tag 3) = Z.shiftr tag 3) as ->.
  { unfold wrap_i32. rewrite Z.shiftr_div_pow2 in * by lia. change (2 ^ 3) with 8 in *.
    assert (tag / 8 < 16) by (apply Z.div_lt_upper_bound; lia).
    rewrite Z.mod_small; [lia|]. change (2 ^ 31) with 2147483648. change (2 ^ 32) with 4294967296. lia. }
  rewrite (proj2 (Z.leb_gt _ 0)) by done.
  rewrite Hf; [done|]. by apply read_varint_encode.
Qed.

(** The decoder reads [buf] from state [m] to [r], with fuel for every byte. *)
Definition Decodes (l : Z) (m : M) (buf : list Z) (r : M) : Prop :=
  forall fuel, (length buf <= fuel)%nat -> unmarshal_loop field unknown fuel l m buf = Ok r.

Lemma Decodes_nil l m : Decodes l m [] m.
Proof. intros [|fuel] _; done. Qed.

Lemma Decodes_bytes l m m' tag bs rest r :
  0 < Z.shiftr tag 3 -> tag < 128 -> Z.land tag 7 = 2 ->
  Z.of_nat (length (put_bytes tag bs rest)) <= l -> l < 2 ^ 62 ->
  (forall buf, read_bytes l buf = Ok (bs, rest) -> field m (Z.shiftr tag 3) 2 l buf = Some (Ok (m', rest))) ->
  Decodes l m' rest r -> Decodes l m (put_bytes tag bs rest) r.
Proof.
  intros H0 H1 Hw Hl H62 Hf HD [|fuel] Hfu; [cbn in Hfu; lia|].
  rewrite (unmarshal_put_bytes fuel l m m') by done. apply HD.
  unfold put_bytes in Hfu. cbn [length] in Hfu. rewrite !length_app in Hfu. lia.
Qed.

Lemma Decodes_varint l m m' tag v rest r :
  0 < Z.shiftr tag 3 -> tag < 128 -> Z.land tag 7 = 0 -> is_uint64 v ->
  (forall buf, read_varint buf = Ok (v, rest) -> field m (Z.shiftr tag 3) 0 l buf = Some (Ok (m', rest))) ->
  Decodes l m' rest r -> Decodes l m (put_varint tag v rest) r.
Proof.
  intros H0 H1 Hw Hv Hf HD [|fuel] Hfu; [cbn in Hfu; lia|].
  rewrite (unmarshal_put_varint fuel l m m') by done. apply HD.
  unfold put_varint in Hfu. cbn [length] in Hfu. rewrite length_app in Hfu. lia.
Qed.

Lemma Decodes_opt_bytes l m m' tag bs rest r :
  0 < Z.shiftr tag 3 -> tag < 128 -> Z.land tag 7 = 2 ->
  Z.of_nat (length (opt_bytes tag bs rest)) <= l -> l < 2 ^ 62 ->
  (bs = [] -> m' = m) ->
  (forall buf, read_bytes l buf = Ok (bs, rest) -> field m (Z.shiftr tag 3) 2 l buf = Some (Ok (m', rest))) ->
  Decodes l m' rest r -> Decodes l m (opt_bytes tag bs rest) r.
Proof.
  intros H0 H1 Hw Hl H62 He Hf HD. destruct bs as [|b bs]; [by rewrite <-He|].
  by apply (Decodes_bytes l m m').
Qed.

Lemma Decodes_opt_varint l m m' tag v rest r :
  0 < Z.shiftr tag 3 -> tag < 128 -> Z.land tag 7 = 0 -> is_uint64 v ->
  (v = 0 -> m' = m) ->
  (forall buf, read_varint buf = Ok (v, rest) -> field m (Z.shiftr tag 3) 0 l buf = Some (Ok (m', rest))) ->
  Decodes l m' rest r -> Decodes l m (opt_varint tag v rest) r.
Proof.
  intros H0 H1 Hw Hv He Hf HD. unfold opt_varint. destruct (Z.eqb_spec v 0) as [->|]; [by rewrite <-He|].
  by apply (Decodes_varint l m m').
Qed.

(** A repeated field appends its elements one by one. *)
Lemma Decodes_rep_bytes l (push : M -> list Z -> M) m tag bss rest r :
  0 < Z.shiftr tag 3 -> tag < 128 -> Z.land tag 7 = 2 ->
  Z.of_nat (length (rep_bytes tag bss rest)) <= l -> l < 2 ^ 62 ->
  (forall m bs rest buf, read_bytes l buf = Ok (bs, rest) ->
     field m (Z.shiftr tag 3) 2 l buf = Some (Ok (push m bs, rest))) ->
  Decodes l (foldl push m bss) rest r -> Decodes l m (rep_bytes tag bss rest) r.
Proof.
  intros H0 H1 Hw Hl H62 Hf HD. revert m Hl HD. induction bss as [|bs bss IH]; intros m Hl HD; [done|].
  cbn [rep_bytes foldr] in *. apply (Decodes_bytes l m (push m bs)); try done.
  - intros buf Hb. by apply Hf.
  - apply IH; [|done]. unfold put_bytes in Hl. cbn [length] in Hl. rewrite !length_app in Hl.
    unfold rep_bytes, put_bytes. lia.
Qed.

Lemma Decodes_unmarshal m buf r :
  Decodes (Z.of_nat (length buf)) m buf r -> unmarshal field unknown m buf = Ok r.
Proof. intros HD. by apply HD. Qed.

End Decode.

(** What follows a field is no longer than the whole. *)
Lemma opt_bytes_tail l tag bs rest : Z.of_nat (length (opt_bytes tag bs rest)) <= l -> Z.of_nat (length rest) <= l.
Proof.
  destruct bs; [done|]. unfold opt_bytes, put_bytes. cbn [length]. rewrite !length_app. lia.
Qed.

#[local] Arguments read_bytes : simpl never.
#[local] Arguments read_varint : simpl never.

(** Name the total length [l], keeping that the buffer is no longer. *)
Ltac total_length :=
  match goal with
  | H : ?e < 2 ^ 62 |- _ =>
      pose proof (Z.le_refl e) as Hl; set (l := e) in *; change (e <= l) in Hl; clearbody l
  end.

(** Compute the field number of a tag. *)
Ltac field_number :=
  match goal with
  | |- context [Z.shiftr ?t 3] => let v := eval vm_compute in (Z.shiftr t 3) in change (Z.shiftr t 3) with v
  end.
Ltac known_field :=
  intros ? Hbuf; field_number; unfold TxRaw_field, SignDoc_field, MultiSignature_field, CompactBitArray_field, get_bytes, get_varint; cbn; rewrite Hbuf; reflexivity.

(* ------------------------------------------------------------------ *)
(** * Properties *)

Lemma TxRaw_decodes m :
  Z.of_nat (length (TxRaw_Marshal m)) < 2 ^ 62 ->
  TxRaw_Unmarshal (MkTxRaw [] [] []) (TxRaw_Marshal m) = Ok m.
Proof.
  intros H62. destruct m as [body auth sigs]. apply Decodes_unmarshal. unfold TxRaw_Marshal in *.
  cbn [raw_BodyBytes raw_AuthInfoBytes raw_Signatures] in *. total_length.
  assert (Z.of_nat (length (opt_bytes 18 auth (rep_bytes 26 sigs []))) <= l) as Hl2
    by (apply (opt_bytes_tail l 10 body); lia).
  assert (Z.of_nat (length (rep_bytes 26 sigs [])) <= l) as Hl3
    by (apply (opt_bytes_tail l 18 auth); lia).
  apply (Decodes_opt_bytes _ _ l _ (MkTxRaw body [] [])); [done|done|done|lia|done|by intros ->|known_field|].
  apply (Decodes_opt_bytes _ _ l _ (MkTxRaw body auth [])); [done|done|done|lia|done|by intros ->|known_field|].
  apply (Decodes_rep_bytes _ _ l (fun m bs => MkTxRaw (raw_BodyBytes m) (raw_AuthInfoBytes m) (raw_Signatures m ++ [bs])));
    [done|done|done|lia|done| |].
  - intros m bs rest. known_field.
  - assert (forall pre, foldl (fun m bs => MkTxRaw (raw_BodyBytes m) (raw_AuthInfoBytes m) (raw_Signatures m ++ [bs]))
      (MkTxRaw body auth pre) sigs = MkTxRaw body auth (pre ++ sigs)) as Hfold.
    { clear. induction sigs as [|x sigs IH]; intros pre; cbn; [by rewrite app_nil_r|].
      rewrite IH. by rewrite <-app_assoc. }
    rewrite Hfold. apply Decodes_nil.
Qed.

(** A raw transaction survives the wire: decoding the encoding of any
    [TxRaw] of less than [2^62] bytes returns it, empty fields and repeated
    signatures included. *)
Theorem TxRaw_roundtrip m :
  Z.of_nat (length (TxRaw_Marshal m)) < 2 ^ 62 ->
  TxRaw_Unmarshal (MkTxRaw [] [] []) (TxRaw_Marshal m) = Ok m.
Proof. apply TxRaw_decodes. Qed.

Lemma TxRaw_roundtrip_witness :
  TxRaw_Unmarshal (MkTxRaw [] [] []) (TxRaw_Marshal (MkTxRaw [1; 2] [] [[7]; []])) = Ok (MkTxRaw [1; 2] [] [[7]; []]).
Proof. apply TxRaw_roundtrip. vm_compute. reflexivity. Defined.

(** Sign documents with their fields in range. *)
Definition SignDoc_ok (m : SignDoc) : Prop :=
  is_uint64 (doc_AccountNumber m) /\ Z.of_nat (length (SignDoc_Marshal m)) < 2 ^ 62.

Lemma SignDoc_decodes m : SignDoc_ok m -> SignDoc_Unmarshal (MkSignDoc [] [] "" 0) (SignDoc_Marshal m) = Ok m.
Proof.
  intros [Hacc H62]. destruct m as [body auth chain acc]. apply Decodes_unmarshal. unfold SignDoc_Marshal in *.
  cbn [doc_BodyBytes doc_AuthInfoBytes doc_ChainId doc_AccountNumber] in *. total_length.
  assert (Z.of_nat (length (opt_bytes 18 auth (opt_bytes 26 (to_bytes chain) (opt_varint 32 acc [])))) <= l) as Hl2
    by (apply (opt_bytes_tail l 10 body); lia).
  assert (Z.of_nat (length (opt_bytes 26 (to_bytes chain) (opt_varint 32 acc []))) <= l) as Hl3
    by (apply (opt_bytes_tail l 18 auth); lia).
  apply (Decodes_opt_bytes _ _ l _ (MkSignDoc body [] "" 0)); [done|done|done|lia|done|by intros ->|known_field|].
  apply (Decodes_opt_bytes _ _ l _ (MkSignDoc body auth "" 0)); [done|done|done|lia|done|by intros ->|known_field|].
  apply (Decodes_opt_bytes _ _ l _ (MkSignDoc body auth chain 0)); [done|done|done|lia|done| | |].
  - destruct chain; [done|discriminate].
  - intros ? Hbuf. field_number. unfold SignDoc_field, get_bytes. cbn. rewrite Hbuf. cbn. by rewrite bytes_str_to_bytes.
  - apply (Decodes_opt_varint _ _ l _ (MkSignDoc body auth chain acc)); [done|done|done|done|by intros ->|known_field|].
    apply Decodes_nil.
Qed.

(** C40: The bytes that are signed determine everything that is signed.  Two
    sign documents, with an account number of 64 bits and an encoding shorter than
    [2^62] bytes, that have the same encoding have the same body, auth info, chain
    id and account number, so a signature cannot be moved to another chain or
    account. *)
Theorem SignDoc_injective m m' :
  SignDoc_ok m -> SignDoc_ok m' -> SignDoc_Marshal m = SignDoc_Marshal m' -> m = m'.
Proof.
  intros Hm Hm' E. apply SignDoc_decodes in Hm, Hm'. rewrite E, Hm' in Hm. by injection Hm as ->.
Qed.

Lemma SignDoc_injective_witness :
  SignDoc_Marshal (MkSignDoc [1] [2] "plug-1" 7) <> SignDoc_Marshal (MkSignDoc [1] [2] "plug-2" 7).
Proof.
  assert (forall c, c = "plug-1" \/ c = "plug-2" -> SignDoc_ok (MkSignDoc [1] [2] c 7)) as Hok.
  { intros c [-> | ->]; (split; [split; by vm_compute|vm_compute; reflexivity]). }
  intros E. assert (MkSignDoc [1] [2] "plug-1" 7 = MkSignDoc [1] [2] "plug-2" 7) as H.
  { apply SignDoc_injective; [apply Hok; by left|apply Hok; by right|exact E]. }
  discriminate H.
Defined.

Lemma MultiSignature_fold sigs pre :
  foldl (fun m bs => MkMultiSignature (ms_Signatures m ++ [bs]) (XXX_unrecognized m))
    (MkMultiSignature pre []) sigs = MkMultiSignature (pre ++ sigs) [].
Proof.
  revert pre. induction sigs as [|x sigs IH]; intros pre; cbn; [by rewrite app_nil_r|].
  rewrite IH. by rewrite <-app_assoc.
Qed.

Lemma MultiSignature_decodes sigs :
  Z.of_nat (length (MultiSignature_Marshal (MkMultiSignature sigs []))) < 2 ^ 62 ->
  MultiSignature_Unmarshal (MkMultiSignature [] []) (MultiSignature_Marshal (MkMultiSignature sigs [])) =
  Ok (MkMultiSignature sigs []).
Proof.
  intros H62. apply Decodes_unmarshal. unfold MultiSignature_Marshal in *. cbn [ms_Signatures XXX_unrecognized] in *.
  total_length.
  apply (Decodes_rep_bytes _ _ l (fun m bs => MkMultiSignature (ms_Signatures m ++ [bs]) (XXX_unrecognized m)));
    [done|done|done|lia|done| |].
  - intros m bs rest. known_field.
  - rewrite MultiSignature_fold. apply Decodes_nil.
Qed.

Lemma Coin_Unmarshal_step (d : string) z bs l buf rest :
  int_range z -> bs = Int_Marshal (IntV z) -> read_bytes l buf = Ok (bs, rest) ->
  Coin_field (MkCoin d (MkInt None)) 2 2 l buf = Some (Ok (coinV d z, rest)).
Proof.
  intros Hz -> Hb. unfold Coin_field. cbn [negb Z.eqb Pos.eqb Denom Amount]. rewrite Hb. cbn [mbind res_bind].
  by rewrite Int_Unmarshal_Marshal, bool_decide_true.
Qed.

Lemma Coin_decodes d z :
  int_range z -> Z.of_nat (length (Coin_Marshal (coinV d z))) < 2 ^ 62 ->
  Coin_Unmarshal (MkCoin "" (MkInt None)) (Coin_Marshal (coinV d z)) = Ok (coinV d z).
Proof.
  intros Hz H62. apply Decodes_unmarshal. unfold Coin_Marshal in *. cbn [Denom Amount] in *.
  total_length.
  assert (Z.of_nat (length (put_bytes 18 (Int_Marshal (IntV z)) [])) <= l) as Hl2
    by (apply (opt_bytes_tail l 10 (to_bytes d)); lia).
  apply (Decodes_opt_bytes _ _ l _ (MkCoin d (MkInt None))); [done|done|done|lia|done| | |].
  + destruct d; [done|discriminate].
  + intros ? Hbuf. field_number. unfold Coin_field, get_bytes. cbn. rewrite Hbuf. cbn. by rewrite bytes_str_to_bytes.
  + apply (Decodes_bytes _ _ l _ (coinV d z)); [done|done|done|lia|done| |apply Decodes_nil].
    intros buf Hb. by eapply Coin_Unmarshal_step.
Qed.

Lemma CompactBitArray_decodes b :
  is_uint32 (ExtraBitsStored b) -> Z.of_nat (length (CompactBitArray_Marshal b)) < 2 ^ 62 ->
  CompactBitArray_Unmarshal (MkBitArray 0 []) (CompactBitArray_Marshal b) = Ok b.
Proof.
  intros He H62. destruct b as [e els]. apply Decodes_unmarshal. unfold CompactBitArray_Marshal in *.
  cbn [ExtraBitsStored Elems] in *. total_length.
  assert (is_uint64 e) as He64 by (unfold is_uint32, is_uint64 in *; change (2 ^ 32) with 4294967296 in He;
    change (2 ^ 64) with 18446744073709551616; lia).
  assert (Z.of_nat (length (opt_bytes 18 els [])) <= l) as Hl2.
  { unfold opt_varint, put_varint in Hl. destruct (e =? 0); [done|]. cbn [length] in Hl. rewrite length_app in Hl. lia. }
  apply (Decodes_opt_varint _ _ l _ (MkBitArray e [])); [done|done|done|done|by intros ->| |].
  + intros ? Hbuf. field_number. unfold CompactBitArray_field, get_varint. cbn. rewrite Hbuf. cbn.
    unfold wrap_u32. by rewrite Z.mod_small by (unfold is_uint32 in He; lia).
  + apply (Decodes_opt_bytes _ _ l _ (MkBitArray e els)); [done|done|done|lia|done|by intros ->|known_field|].
    apply Decodes_nil.
Qed.

(** Coins and bit arrays on the wire: decoding the encoding returns the
    value, and the encodings of all four message types fill exactly the buffer
    that [Size] allocates. *)
Theorem proto_messages_roundtrip :
  (forall d z, int_range z -> Z.of_nat (length (Coin_Marshal (coinV d z))) < 2 ^ 62 ->
     Coin_Unmarshal (MkCoin "" (MkInt None)) (Coin_Marshal (coinV d z)) = Ok (coinV d z)) /\
  (forall b, is_uint32 (ExtraBitsStored b) -> Z.of_nat (length (CompactBitArray_Marshal b)) < 2 ^ 62 ->
     CompactBitArray_Unmarshal (MkBitArray 0 []) (CompactBitArray_Marshal b) = Ok b) /\
  (forall m, Forall (fun bs => fits (Z.of_nat (length bs))) (raw_BodyBytes m :: raw_AuthInfoBytes m :: raw_Signatures m) ->
     Z.of_nat (length (TxRaw_Marshal m)) = TxRaw_Size m) /\
  (forall m, is_uint64 (doc_AccountNumber m) ->
     Forall (fun bs => fits (Z.of_nat (length bs))) [doc_BodyBytes m; doc_AuthInfoBytes m; to_bytes (doc_ChainId m)] ->
     Z.of_nat (length (SignDoc_Marshal m)) = SignDoc_Size m) /\
  (forall m, Forall (fun bs => fits (Z.of_nat (length bs))) (ms_Signatures m) ->
     Z.of_nat (length (MultiSignature_Marshal m)) = MultiSignature_Size m).
Proof.
  split_and!; [apply Coin_decodes | apply CompactBitArray_decodes | ..].
  - intros m [H1 [H2 H3]%Forall_cons]%Forall_cons. unfold TxRaw_Marshal, TxRaw_Size.
    rewrite !opt_bytes_length, rep_bytes_length by done. cbn [length]. lia.
  - intros m Ha [H1 [H2 [H3 _]%Forall_cons]%Forall_cons]%Forall_cons. unfold SignDoc_Marshal, SignDoc_Size.
    rewrite !opt_bytes_length, opt_varint_length by done. cbn [length]. lia.
  - intros m H. unfold MultiSignature_Marshal, MultiSignature_Size. by rewrite rep_bytes_length.
Qed.

Lemma proto_messages_roundtrip_witness :
  Coin_Unmarshal (MkCoin "" (MkInt None)) (Coin_Marshal (coinV "plug" 12)) = Ok (coinV "plug" 12).
Proof. apply (proj1 proto_messages_roundtrip); vm_compute; reflexivity. Defined.
