(* ===== verification/Decoding.v ===== *)
(** Lemmas about the generated decoders of [Wire.v] that the message types of
    the transaction share: how a decoder reads what the encoder wrote, that
    the walk over the buffer ends, and that it never panics. *)
From S2P Require Import Prelude GoStrings SdkInt CoinSet Coins BitArray Wire.

#[local] Arguments read_bytes : simpl never.
#[local] Arguments read_varint : simpl never.
#[local] Arguments wrap_i32 : simpl never.

(** A nested message: the body of the field is decoded by [dec]. *)
Definition get_msg {M A} (set : A -> M) (dec : list Z -> res A) (wt l : Z) (buf : list Z) : option (res (M * list Z)) :=
  Some (if negb (wt =? 2) then Err wrong_type
        else '(bs, rest) ← read_bytes l buf; v ← dec bs; Ok (set v, rest)).

(* ------------------------------------------------------------------ *)
(** * Reading what was written *)

(** The key bytes [ks] of field [num] with wire type [wt]. *)
Definition is_key (ks : list Z) (num wt : Z) : Prop :=
  ks <> [] /\ 0 < num /\ wt <> 4 /\
  forall rest, exists w, read_varint (ks ++ rest) = Ok (w, rest) /\ wrap_i32 (Z.shiftr w 3) = num /\ Z.land w 7 = wt.

(** Every key is a constant of the generated code. *)
Ltac key :=
  split_and!; [discriminate | done | done |
    let rest := fresh in intros rest; eexists; split_and!; [vm_compute; reflexivity | vm_compute; reflexivity | vm_compute; reflexivity]].

Section Reads.
Context {M : Type} (field : M -> Z -> Z -> Z -> list Z -> option (res (M * list Z))) (unknown : M -> list Z -> M).

(** The decoder reads [buf], at the end of a buffer of [l] bytes, from state
    [m] to state [r]. *)
Definition Reads (m : M) (buf : list Z) (r : M) : Prop :=
  forall l fuel, Z.of_nat (length buf) <= l -> l < 2 ^ 62 -> (length buf <= fuel)%nat ->
    unmarshal_loop field unknown fuel l m buf = Ok r.

Lemma Reads_nil m : Reads m [] m.
Proof. by intros l [|fuel] _ _ _. Qed.

Lemma Reads_unmarshal m buf r :
  Reads m buf r -> Z.of_nat (length buf) < 2 ^ 62 -> unmarshal field unknown m buf = Ok r.
Proof. intros HR Hl. by apply HR. Qed.

Lemma Reads_field ks num wt m m' payload rest r :
  is_key ks num wt ->
  (forall l, Z.of_nat (length (payload ++ rest)) <= l -> l < 2 ^ 62 ->
     field m num wt l (payload ++ rest) = Some (Ok (m', rest))) ->
  Reads m' rest r -> Reads m (ks ++ payload ++ rest) r.
Proof.
  intros (Hne & Hnum & Hwt & Hk) Hf HR l fuel Hl H62 Hfu.
  destruct (Hk (payload ++ rest)) as (w & Hw & En & Ew).
  destruct ks as [|k ks]; [done|]. rewrite !length_app in *. cbn [length] in *.
  destruct fuel as [|fuel]; [lia|]. cbn [app unmarshal_loop]. change (k :: ks ++ payload ++ rest) with ((k :: ks) ++ payload ++ rest).
  rewrite Hw. cbn [mbind res_bind]. rewrite En, Ew, (proj2 (Z.eqb_neq wt 4)), (proj2 (Z.leb_gt num 0)) by done.
  rewrite Hf by (rewrite ?length_app; lia). cbn [mbind res_bind]. apply HR; lia.
Qed.

(** A length-delimited field; a [bytes] field is one whose decoder is [Ok]. *)
Lemma Reads_msg {A} ks num m (set : A -> M) dec bs v rest r :
  is_key ks num 2 -> (forall l buf, field m num 2 l buf = get_msg set dec 2 l buf) ->
  (Z.of_nat (length bs) < 2 ^ 62 -> dec bs = Ok v) ->
  Reads (set v) rest r -> Reads m (ks ++ encodeVarint (Z.of_nat (length bs)) ++ bs ++ rest) r.
Proof.
  intros Hk Hf Hd HR. rewrite (app_assoc (encodeVarint _)). apply (Reads_field ks num 2 m (set v)); [done| |done].
  intros l Hl H62. rewrite <-app_assoc in *. rewrite Hf. unfold get_msg. cbn [negb Z.eqb Pos.eqb].
  rewrite read_bytes_put by done. cbn [mbind res_bind]. rewrite Hd; [done|]. rewrite !length_app in Hl. lia.
Qed.

Lemma Reads_varint ks num m (set : Z -> M) v rest r :
  is_key ks num 0 -> (forall l buf, field m num 0 l buf = get_varint set 0 buf) -> is_uint64 v ->
  Reads (set v) rest r -> Reads m (ks ++ encodeVarint v ++ rest) r.
Proof.
  intros Hk Hf Hv HR. apply (Reads_field ks num 0 m (set v)); [done| |done].
  intros l Hl H62. rewrite Hf. unfold get_varint. cbn [negb Z.eqb]. by rewrite read_varint_encode.
Qed.

(** The writers of [Wire.v]. *)
Lemma Reads_put_bytes {A} tag num m (set : A -> M) dec bs v rest r :
  is_key [tag] num 2 -> (forall l buf, field m num 2 l buf = get_msg set dec 2 l buf) ->
  (Z.of_nat (length bs) < 2 ^ 62 -> dec bs = Ok v) ->
  Reads (set v) rest r -> Reads m (put_bytes tag bs rest) r.
Proof. apply (Reads_msg [tag]). Qed.

Lemma Reads_opt_bytes {A} tag num m (set : A -> M) dec bs v rest r :
  is_key [tag] num 2 -> (forall l buf, field m num 2 l buf = get_msg set dec 2 l buf) ->
  dec bs = Ok v -> (bs = [] -> set v = m) ->
  Reads (set v) rest r -> Reads m (opt_bytes tag bs rest) r.
Proof.
  intros Hk Hf Hd He HR. destruct bs; [by rewrite <-He|]. by eapply Reads_put_bytes.
Qed.

Lemma Reads_opt_varint tag num m (set : Z -> M) v rest r :
  is_key [tag] num 0 -> (forall l buf, field m num 0 l buf = get_varint set 0 buf) -> is_uint64 v ->
  set 0 = m -> Reads (set v) rest r -> Reads m (opt_varint tag v rest) r.
Proof.
  intros Hk Hf Hv He HR. unfold opt_varint. destruct (Z.eqb_spec v 0) as [->|]; [by rewrite <-He|].
  by apply (Reads_varint [tag] num m set).
Qed.

(** A repeated field: [push] appends the decoded element. *)
Definition rep_keyed (ks : list Z) (bss : list (list Z)) (rest : list Z) : list Z :=
  foldr (fun bs acc => ks ++ encodeVarint (Z.of_nat (length bs)) ++ bs ++ acc) rest bss.

Lemma Reads_rep {A} ks num (mk : list A -> M) pre dec bss vs rest r :
  is_key ks num 2 ->
  (forall vs l buf, field (mk vs) num 2 l buf = get_msg (fun v => mk (vs ++ [v])) dec 2 l buf) ->
  Forall2 (fun bs v => Z.of_nat (length bs) < 2 ^ 62 -> dec bs = Ok v) bss vs ->
  Reads (mk (pre ++ vs)) rest r -> Reads (mk pre) (rep_keyed ks bss rest) r.
Proof.
  intros Hk Hf Hd. revert pre. induction Hd as [|bs v bss vs Hb Hd IH]; intros pre HR; [by rewrite app_nil_r in HR|].
  cbn [rep_keyed foldr]. apply (Reads_msg ks num (mk pre) (fun v => mk (pre ++ [v])) dec bs v); [done|done|done|].
  apply IH. by rewrite <-app_assoc.
Qed.
Lemma Reads_rep_bytes {A} tag num (mk : list A -> M) pre dec bss vs rest r :
  is_key [tag] num 2 ->
  (forall vs l buf, field (mk vs) num 2 l buf = get_msg (fun v => mk (vs ++ [v])) dec 2 l buf) ->
  Forall2 (fun bs v => Z.of_nat (length bs) < 2 ^ 62 -> dec bs = Ok v) bss vs ->
  Reads (mk (pre ++ vs)) rest r -> Reads (mk pre) (rep_bytes tag bss rest) r.
Proof. apply (Reads_rep [tag]). Qed.

(** A string that is omitted when it is empty. *)
Lemma Reads_opt_string tag num m (set : string -> M) s rest r :
  is_key [tag] num 2 -> (forall l buf, field m num 2 l buf = get_bytes (fun bs => set (bytes_str bs)) 2 l buf) ->
  set "" = m -> Reads (set s) rest r -> Reads m (opt_bytes tag (to_bytes s) rest) r.
Proof.
  intros Hk Hf He HR.
  apply (Reads_opt_bytes tag num m (fun bs => set (bytes_str bs)) Ok _ (to_bytes s)); [done|done|done| |].
  - destruct s; [done|discriminate].
  - by rewrite bytes_str_to_bytes.
Qed.
End Reads.

(** What a repeated field holds is what its elements decode to. *)
Lemma Forall2_map_dec {A B} (enc : A -> list Z) (dec : list Z -> res B) (f : A -> B) l :
  Forall (fun x => Z.of_nat (length (enc x)) < 2 ^ 62 -> dec (enc x) = Ok (f x)) l ->
  Forall2 (fun bs v => Z.of_nat (length bs) < 2 ^ 62 -> dec bs = Ok v) (map enc l) (map f l).
Proof. induction 1; cbn; by constructor. Qed.
Lemma Forall2_bytes (bss : list (list Z)) :
  Forall2 (fun bs v => Z.of_nat (length bs) < 2 ^ 62 -> Ok bs = Ok v) bss bss.
Proof. induction bss; by constructor. Qed.

(* ------------------------------------------------------------------ *)
(** * Ending and not panicking *)

Definition never_panics {A} (m : res A) : Prop := forall p, m <> Panic p.
Create HintDb total.

Lemma never_panics_bind {A B} (m : res A) (f : A -> res B) :
  never_panics m -> (forall a, m = Ok a -> never_panics (f a)) -> never_panics (m ≫= f).
Proof. intros Hm Hf p Hp. apply bind_Panic in Hp as [Hp|(a & E & Hp)]; [by eapply Hm|by eapply Hf]. Qed.
Lemma never_panics_Ok {A} (a : A) : never_panics (Ok a).
Proof. intros p; discriminate. Qed.
Lemma never_panics_Err {A} e : never_panics (Err e : res A).
Proof. intros p; discriminate. Qed.
#[export] Hint Resolve never_panics_Ok never_panics_Err : total.

(** Splits a computation without panics into its steps. *)
Ltac no_panic :=
  repeat first
    [ progress (eauto with total)
    | apply never_panics_bind; [|intros ? ?]
    | match goal with
      | |- context [match ?p with pair _ _ => _ end] => destruct p
      | |- never_panics (if ?b then _ else _) => destruct b
      | |- never_panics (match ?x with _ => _ end) => destruct x
      end ].

Lemma read_varint_from_total fuel shift acc buf : never_panics (read_varint_from fuel shift acc buf).
Proof. revert shift acc buf. induction fuel as [|fuel IH]; intros shift acc buf; cbn; no_panic. Qed.
Lemma read_varint_total buf : never_panics (read_varint buf).
Proof. apply read_varint_from_total. Qed.
#[export] Hint Resolve read_varint_total : total.

Lemma read_varint_shorter buf v rest : read_varint buf = Ok (v, rest) -> (length rest < length buf)%nat.
Proof.
  unfold read_varint. generalize 10%nat, 0 at 1, 0 at 1. intros fuel. revert buf.
  induction fuel as [|fuel IH]; intros [|b buf] shift acc; cbn; try discriminate.
  destruct (b <? 128); [intros [= _ ->]; lia|]. intros H%IH. lia.
Qed.

Lemma read_bytes_total l buf : never_panics (read_bytes l buf).
Proof. unfold read_bytes. no_panic. Qed.
#[export] Hint Resolve read_bytes_total : total.

Lemma read_bytes_split l buf bs rest :
  read_bytes l buf = Ok (bs, rest) -> (length bs + length rest < length buf)%nat.
Proof.
  unfold read_bytes. intros H. apply bind_Ok in H as ([n r] & Hv%read_varint_shorter & H).
  repeat case_match; try discriminate. injection H as <- <-. rewrite length_take, length_drop. lia.
Qed.

Lemma skip_loop_total fuel dAtA n depth : never_panics (skip_loop fuel dAtA n depth).
Proof. revert n depth. induction fuel as [|fuel IH]; intros n depth; cbn [skip_loop]; no_panic. Qed.
Lemma skip_total dAtA : never_panics (skip dAtA).
Proof. apply skip_loop_total. Qed.
#[export] Hint Resolve skip_total : total.

(** Wrapping keeps small non-negative lengths away from zero. *)
Lemma wrap_i64_nonzero z : 0 < z < 2 ^ 64 -> wrap_i64 z <> 0.
Proof.
  unfold wrap_i64. change (2 ^ 64) with 18446744073709551616. change (2 ^ 63) with 9223372036854775808.
  intros Hz E. destruct (Z.lt_ge_cases z 9223372036854775808).
  - rewrite Z.mod_small in E; lia.
  - rewrite <-(Z.mod_unique_pos _ 18446744073709551616 1 (z + 9223372036854775808 - 18446744073709551616)) in E; lia.
Qed.
Lemma wrap_i64_lt z : wrap_i64 z < 2 ^ 63.
Proof. unfold wrap_i64. pose proof (Z.mod_pos_bound (z + 2 ^ 63) (2 ^ 64) ltac:(lia)). lia. Qed.

(** A skipped field has at least its key. *)
Lemma skip_loop_positive fuel dAtA n depth r :
  Z.of_nat (length dAtA) < 2 ^ 62 -> skip_loop fuel dAtA n depth = Ok r -> 0 <= n -> 0 < r.
Proof.
  intros H62. revert n depth. induction fuel as [|fuel IH]; intros n depth; [discriminate|]. cbn [skip_loop].
  destruct (Z.leb_spec (Z.of_nat (length dAtA)) n) as [|Hn]; [discriminate|]. intros H Hn0.
  apply bind_Ok in H as ([wire rest] & Hw%read_varint_shorter & H).
  apply bind_Ok in H as ([n' depth'] & Hstep & H). rewrite length_drop in Hw.
  assert (n' <> 0) as Hpos.
  { destruct (Z.land wire 7 =? 0).
    { apply bind_Ok in Hstep as ([? rest'] & Hr%read_varint_shorter & [= <- <-]). lia. }
    destruct (Z.land wire 7 =? 1); [injection Hstep as <- <-; lia|].
    destruct (Z.land wire 7 =? 2).
    { apply bind_Ok in Hstep as ([len rest'] & Hr%read_varint_shorter & Hs).
      destruct (Z.ltb_spec (wrap_i64 len) 0) as [|Hlen]; [discriminate|]. injection Hs as <- <-.
      pose proof (wrap_i64_lt len). apply wrap_i64_nonzero.
      change (2 ^ 64) with (2 ^ 63 + 4 * 2 ^ 61). change (2 ^ 62) with (2 * 2 ^ 61) in H62. lia. }
    destruct (Z.land wire 7 =? 3); [injection Hstep as <- <-; lia|].
    destruct (Z.land wire 7 =? 4).
    { destruct (depth =? 0); [discriminate|]. injection Hstep as <- <-. lia. }
    destruct (Z.land wire 7 =? 5); [injection Hstep as <- <-; lia|discriminate]. }
  destruct (Z.ltb_spec n' 0); [discriminate|].
  destruct (depth' =? 0); [injection H as <-; lia|]. by apply IH in H; [|lia].
Qed.

(** What a handler of fields leaves is a shorter rest of the buffer. *)
Definition consumes {M} (field : M -> Z -> Z -> Z -> list Z -> option (res (M * list Z))) : Prop :=
  forall m num wt l buf m' rest, field m num wt l buf = Some (Ok (m', rest)) -> (length rest <= length buf)%nat.
Definition field_total {M} (field : M -> Z -> Z -> Z -> list Z -> option (res (M * list Z))) : Prop :=
  forall m num wt l buf r, field m num wt l buf = Some r -> never_panics r.

Lemma get_msg_shorter {M A} (set : A -> M) dec wt l buf m' rest :
  get_msg set dec wt l buf = Some (Ok (m', rest)) -> (length rest <= length buf)%nat.
Proof.
  unfold get_msg. destruct (negb (wt =? 2)); [discriminate|]. intros [= H].
  apply bind_Ok in H as ([bs r] & Hb%read_bytes_split & H). apply bind_Ok in H as (v & _ & [= _ <-]). lia.
Qed.
Lemma get_bytes_shorter {M} (set : list Z -> M) wt l buf m' rest :
  get_bytes set wt l buf = Some (Ok (m', rest)) -> (length rest <= length buf)%nat.
Proof. apply (get_msg_shorter set Ok). Qed.
Lemma get_varint_shorter {M} (set : Z -> M) wt buf m' rest :
  get_varint set wt buf = Some (Ok (m', rest)) -> (length rest <= length buf)%nat.
Proof.
  unfold get_varint. destruct (negb (wt =? 0)); [discriminate|]. intros [= H].
  apply bind_Ok in H as ([bs r] & Hb%read_varint_shorter & [= _ <-]). lia.
Qed.
#[export] Hint Resolve get_msg_shorter get_bytes_shorter get_varint_shorter : total.

Lemma get_msg_total {M A} (set : A -> M) dec wt l buf r :
  (forall bs, never_panics (dec bs)) -> get_msg set dec wt l buf = Some r -> never_panics r.
Proof. intros Hd [= <-]. no_panic. Qed.
Lemma get_bytes_total {M} (set : list Z -> M) wt l buf r : get_bytes set wt l buf = Some r -> never_panics r.
Proof. intros [= <-]. no_panic. Qed.
Lemma get_varint_total {M} (set : Z -> M) wt buf r : get_varint set wt buf = Some r -> never_panics r.
Proof. intros [= <-]. no_panic. Qed.
#[export] Hint Resolve get_bytes_total get_varint_total : total.

Section Walk.
Context {M : Type} (unknown : M -> list Z -> M).
Implicit Types field : M -> Z -> Z -> Z -> list Z -> option (res (M * list Z)).

(** Decoding arbitrary bytes does not panic. *)
Lemma unmarshal_loop_total field fuel l m buf : field_total field -> never_panics (unmarshal_loop field unknown fuel l m buf).
Proof.
  intros Hf. revert m buf. induction fuel as [|fuel IH]; intros m [|b buf]; cbn [unmarshal_loop]; [no_panic..|].
  apply never_panics_bind; [no_panic|]. intros [wire rest] _.
  destruct (_ =? 4); [no_panic|]. destruct (_ <=? 0); [no_panic|].
  destruct (field _ _ _ _ _) eqn:E.
  - apply never_panics_bind; [by eapply Hf|]. intros [m' rest'] _. apply IH.
  - apply never_panics_bind; [no_panic|]. intros n _. repeat destruct (_ || _) || destruct (_ <? _); no_panic.
Qed.
Lemma unmarshal_total field m buf : field_total field -> never_panics (unmarshal field unknown m buf).
Proof. apply unmarshal_loop_total. Qed.

(** The walk ends: fuel for every byte of the buffer is enough, more does not
    change the result, and two handlers that agree on what follows a key give
    the same result. *)
Lemma unmarshal_loop_fuel field field' f1 f2 l m buf :
  consumes field -> Z.of_nat (length buf) < 2 ^ 62 ->
  (length buf <= f1)%nat -> (length buf <= f2)%nat ->
  (forall m num wt rest, (length rest < length buf)%nat -> field m num wt l rest = field' m num wt l rest) ->
  unmarshal_loop field unknown f1 l m buf = unmarshal_loop field' unknown f2 l m buf.
Proof.
  intros Hc. revert f2 m buf. induction f1 as [|f1 IH]; intros f2 m [|b buf] H62 H1 H2 Hext; cbn [length] in *;
    try (by destruct f2); try lia.
  destruct f2 as [|f2]; [lia|]. cbn [unmarshal_loop].
  destruct (read_varint (b :: buf)) as [[wire rest]|e|p] eqn:Ew; [|done..]. cbn [mbind res_bind].
  apply read_varint_shorter in Ew. cbn [length] in Ew.
  destruct (_ =? 4); [done|]. destruct (_ <=? 0); [done|]. rewrite <-Hext by lia.
  destruct (field _ _ _ _ _) as [[[m' rest']|e|p]|] eqn:E; [|done..|]; cbn [mbind res_bind].
  - apply Hc in E. apply IH; [lia..|]. intros. apply Hext. lia.
  - destruct (skip (b :: buf)) as [n|e|p] eqn:Es; [|done..]. cbn [mbind res_bind].
    destruct (_ || _); [done|]. destruct (_ <? _); [done|].
    assert (0 < n) by (eapply skip_loop_positive; [|exact Es|done]; cbn [length]; lia).
    assert (length (drop (Z.to_nat n) (b :: buf)) <= length buf)%nat as Hd by (rewrite length_drop; cbn [length]; lia).
    apply IH; [lia..|]. intros. apply Hext. lia.
Qed.
Lemma unmarshal_ext field field' m buf :
  consumes field -> Z.of_nat (length buf) < 2 ^ 62 ->
  (forall m num wt rest, (length rest < length buf)%nat ->
     field m num wt (Z.of_nat (length buf)) rest = field' m num wt (Z.of_nat (length buf)) rest) ->
  unmarshal field unknown m buf = unmarshal field' unknown m buf.
Proof. intros Hc H62 Hext. by apply unmarshal_loop_fuel. Qed.

(** A property that every field and every unknown field keeps. *)
Lemma unmarshal_loop_invariant field (P : M -> Prop) fuel l m buf r :
  consumes field ->
  (forall m num wt rest m' rest', (length rest < length buf)%nat ->
     P m -> field m num wt l rest = Some (Ok (m', rest')) -> P m') ->
  (forall m bs, (length bs <= length buf)%nat -> P m -> P (unknown m bs)) ->
  P m -> unmarshal_loop field unknown fuel l m buf = Ok r -> P r.
Proof.
  intros Hc. revert m buf. induction fuel as [|fuel IH]; intros m [|b buf] Hf Hu Hm; cbn [unmarshal_loop];
    try (by intros [= <-]); try discriminate.
  intros H. apply bind_Ok in H as ([wire rest] & Ew%read_varint_shorter & H). cbn [length] in *.
  destruct (_ =? 4); [discriminate|]. destruct (_ <=? 0); [discriminate|].
  destruct (field _ _ _ _ _) as [x|] eqn:E.
  - apply bind_Ok in H as ([m' rest'] & -> & H). pose proof (Hc _ _ _ _ _ _ _ E).
    revert H. apply IH; [| |eapply Hf; [|exact Hm|exact E]; lia].
    + intros. eapply Hf; [|done..]. lia.
    + intros. apply Hu; [lia|done].
  - apply bind_Ok in H as (n & _ & H). destruct (_ || _); [discriminate|]. destruct (_ <? _); [discriminate|].
    revert H. apply IH.
    + intros ? ? ? ? ? ? Hl. eapply Hf. rewrite length_drop in Hl. cbn [length] in Hl. lia.
    + intros ? ? Hl. apply Hu. rewrite length_drop in Hl. cbn [length] in Hl. lia.
    + apply Hu; [|done]. rewrite length_take. cbn [length]. lia.
Qed.
End Walk.

(** Two decoders that agree on shorter buffers agree as fields. *)
Lemma get_msg_ext {M A} (set : A -> M) dec dec' wt l buf :
  (forall bs, (length bs < length buf)%nat -> dec bs = dec' bs) -> get_msg set dec wt l buf = get_msg set dec' wt l buf.
Proof.
  intros Hd. unfold get_msg. destruct (negb (wt =? 2)); [done|].
  destruct (read_bytes l buf) as [[bs rest]|e|p] eqn:E; [|done..]. cbn [mbind res_bind].
  apply read_bytes_split in E. rewrite Hd by lia. done.
Qed.
Lemma get_msg_inv {M A} (set : A -> M) dec wt l buf m' rest :
  get_msg set dec wt l buf = Some (Ok (m', rest)) -> exists bs v, dec bs = Ok v /\ m' = set v.
Proof.
  unfold get_msg. destruct (negb (wt =? 2)); [discriminate|]. intros [= H].
  apply bind_Ok in H as ([bs r] & _ & H). apply bind_Ok in H as (v & Hv & [= <- _]). by exists bs, v.
Qed.
Lemma get_varint_inv {M} (set : Z -> M) wt buf m' rest :
  get_varint set wt buf = Some (Ok (m', rest)) -> exists v, m' = set v.
Proof.
  unfold get_varint. destruct (negb (wt =? 0)); [discriminate|]. intros [= H].
  apply bind_Ok in H as ([v r] & _ & [= <- _]). by exists v.
Qed.
