(* ===== verification/Keys.v ===== *)
(** The key types of [crypto/keys/secp256k1] (the pure Go build,
    [secp256k1_nocgo.go]) and [crypto/keys/ed25519].

    Curve arithmetic and hash functions come from btcec, x/crypto and
    tendermint; they are the operations of the class [CryptoLib], and the
    documented behaviour the code relies on is the class [CryptoLaws].  What
    is modelled is what the repository adds: key generation, the fixed-width
    serialisation of signatures, the rejection of malleable signatures, and
    the size checks. *)
From S2P Require Import Prelude.

Abbreviation bytes := (list Z).

(** [big.Int.SetBytes] *)
Definition big_SetBytes (bs : bytes) : Z := foldl (fun acc b => acc * 256 + b) 0 bs.

Class CryptoLib := {
  Sha256 : bytes -> bytes;
  Ripemd160 : bytes -> bytes;
  tmhash_SumTruncated : bytes -> bytes;
  (** btcec: the group order, [ParsePubKey], [PrivKeyFromBytes] followed by
      [SerializeCompressed], [PrivateKey.Sign] and [Signature.Verify]. *)
  curve_N : Z;
  Point : Type;
  ParsePubKey : bytes -> option Point;
  SerializeCompressed : bytes -> bytes;
  ecdsa_Sign : bytes -> bytes -> res (Z * Z);
  ecdsa_Verify : Z * Z -> bytes -> Point -> bool;
  (** x/crypto/ed25519, which panics on keys of the wrong length. *)
  ed25519_Sign : bytes -> bytes -> res bytes;
  ed25519_Verify : bytes -> bytes -> bytes -> res bool;
  ed25519_NewKeyFromSeed : bytes -> bytes;
}.

(** A private key of the group: a number between 1 and the order minus 1. *)
Definition valid_scalar `{L : CryptoLib} (priv : bytes) : Prop := 0 < big_SetBytes priv < curve_N.

(** btcec documents that [Sign] returns a signature in canonical (lower-S)
    form and that [Verify] accepts it under the signer's key, if that is a key of
    the group; RFC 8032 keys are the seed followed by the public key. *)
Class CryptoLaws `{L : CryptoLib} : Prop := {
  Sha256_size m : length (Sha256 m) = 32%nat;
  Sha256_bytes m : Forall is_uint8 (Sha256 m);
  curve_N_range : 2 < curve_N < 2 ^ 256;
  curve_N_odd : Z.odd curve_N = true;
  ecdsa_Sign_range priv h r s :
    ecdsa_Sign priv h = Ok (r, s) -> 0 < r < curve_N /\ 0 < s <= curve_N / 2;
  ecdsa_Sign_verifies priv h rs :
    valid_scalar priv -> ecdsa_Sign priv h = Ok rs ->
    exists P, ParsePubKey (SerializeCompressed priv) = Some P /\ ecdsa_Verify rs h P = true;
  ed25519_key_size seed : length seed = 32%nat -> length (ed25519_NewKeyFromSeed seed) = 64%nat;
  ed25519_Sign_verifies seed msg :
    length seed = 32%nat ->
    exists sig, ed25519_Sign (ed25519_NewKeyFromSeed seed) msg = Ok sig /\ length sig = 64%nat /\
      ed25519_Verify (drop 32 (ed25519_NewKeyFromSeed seed)) msg sig = Ok true;
}.

(* ------------------------------------------------------------------ *)
(** * Big-endian integers and slices of the Go standard library *)

(** [big.Int.Bytes]: the absolute value, most significant byte first, without
    leading zeros. *)
Fixpoint bytes_be (fuel : nat) (z : Z) (acc : bytes) : bytes :=
  match fuel with
  | O => acc
  | S fuel => if z =? 0 then acc else bytes_be fuel (z / 256) (z mod 256 :: acc)
  end.
Definition big_Bytes (z : Z) : bytes := bytes_be (Z.to_nat (BitLen z)) (Z.abs z) [].

(** The big-endian form of a number in [n] bytes. *)
Fixpoint ser (n : nat) (k : Z) : bytes :=
  match n with O => [] | S m => (k / 256 ^ Z.of_nat m) mod 256 :: ser m k end.

(** [copy(dst[lo:hi], src)] *)
Definition slice_copy (dst : bytes) (lo hi : Z) (src : bytes) : res bytes :=
  if (lo <? 0) || (hi <? lo) || (Z.of_nat (length dst) <? hi) then Panic "slice bounds out of range"
  else Ok (take (Z.to_nat lo) dst ++
           go_copy (take (Z.to_nat (hi - lo)) (drop (Z.to_nat lo) dst)) src ++
           drop (Z.to_nat hi) dst).

Definition len (bs : bytes) : Z := Z.of_nat (length bs).
Definition zeros (n : nat) : bytes := replicate n 0.

(** [bytes.Equal], and [subtle.ConstantTimeCompare(x, y) == 1]. *)
Definition bytes_Equal (x y : bytes) : bool := bool_decide (x = y).

(* ------------------------------------------------------------------ *)
(** * secp256k1 *)
Section Secp256k1.
Context `{L : CryptoLib}.

Definition secp_PrivKeySize : Z := 32.
Definition secp_PubKeySize : Z := 33.

(** [PrivKey.PubKey]: the key bytes of the public key. *)
Definition secp_PubKey (privKey : bytes) : bytes := SerializeCompressed privKey.

(** The loop of [genPrivKey]: read blocks until one is a field element.  The
    reader is the list of the blocks it delivers; when it ends, [ReadFull]
    fails. *)
Fixpoint secp_genPrivKey (rand : list bytes) : res bytes :=
  match rand with
  | [] => Panic "EOF"
  | block :: rand =>
      let d := big_SetBytes block in
      if (0 <? Sign d) && (Cmp d curve_N <? 0) then Ok block else secp_genPrivKey rand
  end.

Definition secp_GenPrivKeyFromSecret (secret : bytes) : res bytes :=
  let fe := big_SetBytes (Sha256 secret) in
  let n := curve_N - 1 in
  fe ← big_Mod fe n;
  let feB := big_Bytes (fe + 1) in
  slice_copy (zeros 32) (32 - len feB) 32 feB.

(** RIPEMD160(SHA256(pubkey)) *)
Definition secp_Address (pubKey : bytes) : res bytes :=
  if negb (len pubKey =? secp_PubKeySize) then Panic "length of pubkey is incorrect"
  else Ok (Ripemd160 (Sha256 pubKey)).

Definition secp_UnmarshalAmino (bz : bytes) : res bytes :=
  if negb (len bz =? secp_PubKeySize) then Err "invalid pubkey size" else Ok bz.
Definition secp_priv_UnmarshalAmino (bz : bytes) : res bytes :=
  if negb (len bz =? secp_PrivKeySize) then Err "invalid privkey size" else Ok bz.

Definition secp256k1halfN : Z := Z.shiftr curve_N 1.

Definition serializeSig (sig : Z * Z) : res bytes :=
  let rBytes := big_Bytes (fst sig) in
  let sBytes := big_Bytes (snd sig) in
  sigBytes ← slice_copy (zeros 64) (32 - len rBytes) 32 rBytes;
  slice_copy sigBytes (64 - len sBytes) 64 sBytes.

Definition signatureFromBytes (sigStr : bytes) : Z * Z :=
  (big_SetBytes (take 32 sigStr), big_SetBytes (take 32 (drop 32 sigStr))).

Definition secp_Sign (privKey msg : bytes) : res bytes :=
  sig ← ecdsa_Sign privKey (Sha256 msg);
  serializeSig sig.

Definition secp_VerifySignature (pubKey msg sigStr : bytes) : bool :=
  if negb (len sigStr =? 64) then false
  else match ParsePubKey pubKey with
       | None => false
       | Some pub =>
           let signature := signatureFromBytes sigStr in
           if 0 <? Cmp (snd signature) secp256k1halfN then false
           else ecdsa_Verify signature (Sha256 msg) pub
       end.
End Secp256k1.

(* ------------------------------------------------------------------ *)
(** * ed25519 *)
Section Ed25519.
Context `{L : CryptoLib}.

Definition ed_PubKeySize : Z := 32.
Definition ed_PrivKeySize : Z := 64.
Definition ed_SignatureSize : Z := 64.

Definition ed_Sign (privKey msg : bytes) : res bytes := ed25519_Sign privKey msg.

Definition ed_PubKey (privKey : bytes) : res bytes :=
  if len privKey <? 32 then Panic "slice bounds out of range"
  else if negb (existsb (fun v => negb (v =? 0)) (drop 32 privKey))
  then Panic "Expected ed25519 PrivKey to include concatenated pubkey bytes"
  else Ok (go_copy (zeros 32) (drop 32 privKey)).

(** [genPrivKey] with the seed the reader delivers, and from a secret. *)
Definition ed_genPrivKey (seed : bytes) : bytes := ed25519_NewKeyFromSeed seed.
Definition ed_GenPrivKeyFromSecret (secret : bytes) : bytes := ed25519_NewKeyFromSeed (Sha256 secret).

Definition ed_Address (pubKey : bytes) : res bytes :=
  if negb (len pubKey =? ed_PubKeySize) then Panic "pubkey is incorrect size"
  else Ok (tmhash_SumTruncated pubKey).

Definition ed_VerifySignature (pubKey msg sig : bytes) : res bool :=
  if negb (len sig =? ed_SignatureSize) then Ok false else ed25519_Verify pubKey msg sig.

Definition ed_UnmarshalAmino (bz : bytes) : res bytes :=
  if negb (len bz =? ed_PubKeySize) then Err "invalid pubkey size" else Ok bz.
Definition ed_priv_UnmarshalAmino (bz : bytes) : res bytes :=
  if negb (len bz =? ed_PrivKeySize) then Err "invalid privkey size" else Ok bz.
End Ed25519.

(* ------------------------------------------------------------------ *)
(** * Integers and bytes *)

Lemma big_SetBytes_app a b : big_SetBytes (a ++ b) = big_SetBytes a * 256 ^ Z.of_nat (length b) + big_SetBytes b.
Proof.
  unfold big_SetBytes. rewrite foldl_app. generalize (foldl (fun acc b => acc * 256 + b) 0 a) as x.
  induction b as [|c b IH] using rev_ind; intros x; [cbn; lia|].
  rewrite !foldl_app, length_app. cbn [foldl length]. rewrite IH.
  rewrite Nat2Z.inj_add, Z.pow_add_r by lia. change (Z.of_nat 1) with 1. rewrite Z.pow_1_r. nia.
Qed.

Lemma big_SetBytes_zeros n : big_SetBytes (zeros n) = 0.
Proof. unfold big_SetBytes, zeros. induction n; [done|exact IHn]. Qed.

Lemma big_SetBytes_range bs : Forall is_uint8 bs -> 0 <= big_SetBytes bs < 256 ^ Z.of_nat (length bs).
Proof.
  induction bs as [|b bs IH] using rev_ind; [done|].
  intros [H1 H2]%Forall_app. apply Forall_inv in H2. specialize (IH H1).
  rewrite big_SetBytes_app, length_app, Nat2Z.inj_add, Z.pow_add_r by lia.
  cbn [length]. change (Z.of_nat 1) with 1. rewrite Z.pow_1_r. change (big_SetBytes [b]) with b.
  unfold is_uint8 in H2. change (2 ^ 8) with 256 in H2. nia.
Qed.

Lemma ser_bytes n k : Forall is_uint8 (ser n k) /\ length (ser n k) = n.
Proof.
  induction n as [|n [IH1 IH2]]; [done|]. cbn [ser length]. rewrite IH2. split; [|done].
  constructor; [|done]. apply Z.mod_pos_bound. lia.
Qed.

Lemma ser_value n k : big_SetBytes (ser n k) = k mod 256 ^ Z.of_nat n.
Proof.
  induction n as [|n IH]; [by rewrite Z.mod_1_r|]. cbn [ser].
  change (_ :: ser n k) with ([(k / 256 ^ Z.of_nat n) mod 256] ++ ser n k).
  rewrite big_SetBytes_app, IH, (proj2 (ser_bytes n k)).
  change (big_SetBytes [(k / 256 ^ Z.of_nat n) mod 256]) with ((k / 256 ^ Z.of_nat n) mod 256).
  rewrite Nat2Z.inj_succ, Z.pow_succ_r by lia. rewrite (Z.mul_comm 256), Z.rem_mul_r by lia. lia.
Qed.

(** Big-endian forms of the same length are determined by their value. *)
Lemma big_endian_unique a b :
  Forall is_uint8 a -> Forall is_uint8 b -> length a = length b -> big_SetBytes a = big_SetBytes b -> a = b.
Proof.
  intros Ha. revert b. induction Ha as [|x a Hx Ha IH]; intros [|y b] Hb Hl E; try done.
  apply Forall_cons in Hb as [Hy Hb]. injection Hl as Hl.
  change (x :: a) with ([x] ++ a) in E. change (y :: b) with ([y] ++ b) in E.
  rewrite !big_SetBytes_app, Hl in E. change (big_SetBytes [x]) with x in E. change (big_SetBytes [y]) with y in E.
  pose proof (big_SetBytes_range a Ha) as Ra. pose proof (big_SetBytes_range b Hb) as Rb. rewrite Hl in Ra.
  assert (x = y) as -> by (unfold is_uint8 in *; nia). f_equal. apply IH; [done|done|lia].
Qed.

Lemma bytes_be_app fuel z acc : bytes_be fuel z acc = bytes_be fuel z [] ++ acc.
Proof.
  revert z acc. induction fuel as [|fuel IH]; intros z acc; cbn [bytes_be]; [done|].
  destruct (z =? 0); [done|]. rewrite IH, (IH _ [_]). by rewrite <-app_assoc.
Qed.

Lemma bytes_be_value fuel z :
  0 <= z < 2 ^ Z.of_nat fuel -> big_SetBytes (bytes_be fuel z []) = z.
Proof.
  revert z. induction fuel as [|fuel IH]; intros z Hz; cbn [bytes_be].
  - change (2 ^ Z.of_nat 0) with 1 in Hz. assert (z = 0) as -> by lia. done.
  - destruct (Z.eqb_spec z 0) as [->|]; [done|]. rewrite bytes_be_app, big_SetBytes_app, IH.
    + cbn [length]. change (big_SetBytes [z mod 256]) with (z mod 256).
      change (256 ^ Z.of_nat 1) with 256. pose proof (Z.div_mod z 256 ltac:(lia)). lia.
    + split; [apply Z.div_pos; lia|]. apply Z.div_lt_upper_bound; [lia|].
      rewrite Nat2Z.inj_succ, Z.pow_succ_r in Hz by lia. lia.
Qed.

Lemma bytes_be_length fuel z n :
  0 <= z < 256 ^ Z.of_nat n -> (length (bytes_be fuel z []) <= n)%nat.
Proof.
  revert z n. induction fuel as [|fuel IH]; intros z n Hz; cbn [bytes_be]; [cbn; lia|].
  destruct (Z.eqb_spec z 0) as [->|]; [cbn; lia|]. rewrite bytes_be_app, length_app. cbn [length].
  destruct n as [|n]; [change (256 ^ Z.of_nat 0) with 1 in Hz; lia|].
  assert (length (bytes_be fuel (z / 256) []) <= n)%nat; [|lia].
  apply IH. split; [apply Z.div_pos; lia|]. apply Z.div_lt_upper_bound; [lia|].
  rewrite Nat2Z.inj_succ, Z.pow_succ_r in Hz by lia. lia.
Qed.

Lemma big_Bytes_value z : 0 <= z -> big_SetBytes (big_Bytes z) = z.
Proof.
  intros Hz. unfold big_Bytes. rewrite Z.abs_eq by done. apply bytes_be_value. split; [done|].
  rewrite Z2Nat.id by apply BitLen_nonneg. pose proof (proj1 (BitLen_le (BitLen z) z (BitLen_nonneg z))).
  lia.
Qed.

Lemma big_Bytes_length z n : 0 <= z < 256 ^ n -> 0 <= n -> 0 <= len (big_Bytes z) <= n.
Proof.
  intros Hz Hn. unfold big_Bytes, len. rewrite Z.abs_eq by lia.
  assert (length (bytes_be (Z.to_nat (BitLen z)) z []) <= Z.to_nat n)%nat; [|lia].
  apply bytes_be_length. by rewrite Z2Nat.id.
Qed.

(** Right-aligning bytes in a zeroed window. *)
Lemma slice_copy_right pre (w hi : Z) src post :
  len pre = hi - w -> 0 <= len src <= w -> 
  slice_copy (pre ++ zeros (Z.to_nat w) ++ post) (hi - len src) hi src =
  Ok (pre ++ zeros (Z.to_nat (w - len src)) ++ src ++ post).
Proof.
  intros Hp Hs. unfold slice_copy, len in *. unfold zeros.
  rewrite !length_app, length_replicate, !Nat2Z.inj_add, Z2Nat.id by lia.
  rewrite (proj2 (Z.ltb_ge _ _)), (proj2 (Z.ltb_ge _ _)), (proj2 (Z.ltb_ge _ _)) by lia. cbn [orb]. f_equal.
  replace (hi - (hi - Z.of_nat (length src))) with (Z.of_nat (length src)) by lia.
  replace (Z.to_nat w) with (Z.to_nat (w - Z.of_nat (length src)) + length src)%nat by lia.
  rewrite replicate_add. set (k := Z.to_nat (w - Z.of_nat (length src))).
  replace (Z.to_nat (hi - Z.of_nat (length src))) with (length pre + k)%nat by lia.
  replace (Z.to_nat hi) with (length pre + (k + length src))%nat by lia.
  rewrite take_app_add, <-!app_assoc, !drop_app_add.
  rewrite take_app_length', !drop_app_length' by (by rewrite length_replicate).
  rewrite drop_app_add', drop_app_length' by (by rewrite length_replicate).
  f_equal. f_equal. rewrite Nat2Z.id, take_app_length' by (by rewrite length_replicate).
  unfold go_copy. rewrite length_replicate, firstn_all, drop_ge by (by rewrite length_replicate).
  by rewrite app_nil_r.
Qed.

(** Signatures as 64 bytes: [R] and [S] in 32 bytes each. *)
Lemma serializeSig_bytes r s :
  0 <= r < 2 ^ 256 -> 0 <= s < 2 ^ 256 ->
  exists sig, serializeSig (r, s) = Ok sig /\ length sig = 64%nat /\ signatureFromBytes sig = (r, s).
Proof.
  intros Hr Hs. unfold serializeSig. cbn [fst snd].
  assert (2 ^ 256 = 256 ^ 32) as E256 by done. rewrite E256 in Hr, Hs.
  pose proof (big_Bytes_length r 32 Hr ltac:(lia)) as Lr. pose proof (big_Bytes_length s 32 Hs ltac:(lia)) as Ls.
  pose proof (big_Bytes_value r ltac:(lia)) as Vr. pose proof (big_Bytes_value s ltac:(lia)) as Vs.
  set (rb := big_Bytes r) in *. set (sb := big_Bytes s) in *.
  pose proof (slice_copy_right [] 32 32 rb (zeros 32) ltac:(done) Lr) as E1.
  cbn [app] in E1. change (zeros (Z.to_nat 32) ++ zeros 32) with (zeros 64) in E1. rewrite E1. cbn [mbind res_bind].
  set (pr := zeros (Z.to_nat (32 - len rb)) ++ rb).
  assert (length pr = 32%nat) as Hpr.
  { unfold pr, zeros, len in *. rewrite length_app, length_replicate. lia. }
  pose proof (slice_copy_right pr 32 64 sb [] ltac:(unfold len; rewrite Hpr; done) Ls) as E2.
  rewrite !app_nil_r in E2. change (zeros (Z.to_nat 32)) with (zeros 32) in E2.
  rewrite app_assoc. fold pr. rewrite E2. eexists. split; [done|].
  assert (length (zeros (Z.to_nat (32 - len sb)) ++ sb) = 32%nat) as Hps.
  { unfold zeros, len in *. rewrite length_app, length_replicate. lia. }
  split; [rewrite length_app, Hpr, Hps; done|]. unfold signatureFromBytes.
  rewrite take_app_length', drop_app_length' by done. rewrite firstn_all2 by (rewrite Hps; done).
  unfold pr. by rewrite !big_SetBytes_app, !big_SetBytes_zeros, Vr, Vs.
Qed.

Lemma halfN_spec `{CryptoLaws} : 2 * secp256k1halfN + 1 = curve_N.
Proof.
  unfold secp256k1halfN. pose proof curve_N_odd as Ho. rewrite <-Z.div2_spec.
  pose proof (Z.div2_odd curve_N) as E. rewrite Ho in E. cbn in E. lia.
Qed.

Lemma secp_Sign_verifies `{CryptoLaws} priv msg sig : valid_scalar priv -> secp_Sign priv msg = Ok sig ->
  length sig = 64%nat /\ secp_VerifySignature (secp_PubKey priv) msg sig = true.
Proof.
  intros Hk Hs. pose proof curve_N_range as HR. unfold secp_Sign in Hs. res_inv. destruct a as [r s].
  destruct (ecdsa_Sign_range _ _ _ _ ltac:(eassumption)) as [Hr0 Hlow].
  destruct (ecdsa_Sign_verifies _ _ _ Hk ltac:(eassumption)) as (P & HP & HV).
  destruct (serializeSig_bytes r s ltac:(lia)) as (sig' & E & Hlen & Hfrom).
  { split; [lia|]. assert (curve_N / 2 <= curve_N) by (apply Z.div_le_upper_bound; lia). lia. }
  rewrite E in Hs. injection Hs as ->. split; [done|].
  unfold secp_VerifySignature, secp_PubKey, len. rewrite Hlen, HP, Hfrom. cbn [negb snd].
  change (Z.of_nat 64 =? 64) with true. cbn [negb].
  assert (curve_N / 2 = secp256k1halfN) as E2 by (unfold secp256k1halfN; by rewrite Z.shiftr_div_pow2 by lia).
  rewrite (proj2 (Z.ltb_ge 0 _)); [done|]. cmp_case s secp256k1halfN; lia.
Qed.

(** Secp256k1 signatures.  A signature made with a private key of the group is 64 bytes
    long and verifies under the key's public key for the same message; the
    malleated signature [(R, N - S)] of any accepted signature is rejected, and
    so is every byte string that is not 64 bytes long. *)
Theorem secp_sign_verify `{CryptoLaws} :
  (forall priv msg sig, valid_scalar priv -> secp_Sign priv msg = Ok sig ->
     length sig = 64%nat /\ secp_VerifySignature (secp_PubKey priv) msg sig = true) /\
  (forall pub msg sig r s sig', secp_VerifySignature pub msg sig = true ->
     signatureFromBytes sig = (r, s) -> serializeSig (r, curve_N - s) = Ok sig' ->
     0 <= r < 2 ^ 256 -> 0 <= s -> secp_VerifySignature pub msg sig' = false) /\
  (forall pub msg sig, length sig <> 64%nat -> secp_VerifySignature pub msg sig = false).
Proof.
  pose proof halfN_spec as HN. pose proof curve_N_range as HR. split_and!.
  - apply secp_Sign_verifies.
  - intros pub msg sig r s sig' Hv Hfrom Hser Hr Hs0. unfold secp_VerifySignature in Hv.
    destruct (negb _); [done|]. destruct (ParsePubKey pub) as [P|] eqn:HP; [|done]. rewrite Hfrom in Hv. cbn [snd] in Hv.
    destruct (Z.ltb_spec 0 (Cmp s secp256k1halfN)) as [|Hc]; [done|].
    assert (s <= secp256k1halfN) as Hs by (cmp_case s secp256k1halfN; lia).
    assert (0 <= curve_N - s < 2 ^ 256) as Hns.
    { split; [lia|]. apply Z.le_lt_trans with curve_N; [lia|apply HR]. }
    destruct (serializeSig_bytes r (curve_N - s) Hr Hns) as (sig'' & E & Hlen & Hfrom').
    rewrite E in Hser. injection Hser as <-. unfold secp_VerifySignature, len. rewrite Hlen, HP, Hfrom'. cbn [snd].
    change (Z.of_nat 64 =? 64) with true. cbn [negb].
    rewrite (proj2 (Z.ltb_lt 0 _)); [done|]. cmp_case (curve_N - s) secp256k1halfN; lia.
  - intros pub msg sig Hl. unfold secp_VerifySignature, len.
    rewrite (proj2 (Z.eqb_neq _ _)) by lia. done.
Qed.

(** Generated secp256k1 keys are valid: a key derived from a secret, or
    drawn from the random source, has 32 bytes and encodes a number between [1]
    and [N - 1]; from a secret this never panics, and from the random source the
    first suitable block is taken. *)
Theorem secp_keys_valid `{CryptoLaws} :
  (forall secret, exists k, secp_GenPrivKeyFromSecret secret = Ok k /\ length k = 32%nat /\
     0 < big_SetBytes k < curve_N) /\
  (forall rand k, secp_genPrivKey rand = Ok k -> k ∈ rand /\ 0 < big_SetBytes k < curve_N) /\
  (forall pre k post, Forall (fun b => ~ 0 < big_SetBytes b < curve_N) pre ->
     0 < big_SetBytes k < curve_N -> secp_genPrivKey (pre ++ k :: post) = Ok k).
Proof.
  pose proof curve_N_range as HR.
  assert (forall b, (0 <? Sign (big_SetBytes b)) && (Cmp (big_SetBytes b) curve_N <? 0) =
    bool_decide (0 < big_SetBytes b < curve_N)) as Hguard.
  { intros b. unfold Sign. cmp_case (big_SetBytes b) curve_N;
      destruct (Z.ltb_spec 0 (Z.sgn (big_SetBytes b))); symmetry;
      first [apply bool_decide_eq_true_2; lia|apply bool_decide_eq_false_2; lia]. }
  split_and!.
  - intros secret. unfold secp_GenPrivKeyFromSecret, big_Mod.
    rewrite (proj2 (Z.eqb_neq _ 0)) by lia. cbn [mbind res_bind].
    rewrite Z.abs_eq by lia. set (v := _ mod _ + 1).
    assert (0 < v < curve_N) as Hv by (unfold v; pose proof (Z.mod_pos_bound (big_SetBytes (Sha256 secret)) (curve_N - 1)); lia).
    assert (2 ^ 256 = 256 ^ 32) as E256 by done. rewrite E256 in HR.
    pose proof (big_Bytes_length v 32 ltac:(lia) ltac:(lia)) as Lv.
    pose proof (slice_copy_right [] 32 32 (big_Bytes v) [] ltac:(done) Lv) as E1.
    rewrite !app_nil_r in E1. cbn [app] in E1. change (zeros (Z.to_nat 32)) with (zeros 32) in E1.
    rewrite E1. eexists. split; [done|].
    rewrite big_SetBytes_app, big_SetBytes_zeros, big_Bytes_value by lia.
    split; [|lia]. unfold zeros, len in *. rewrite length_app, length_replicate. lia.
  - intros rand k. induction rand as [|b rand IH]; [done|]. cbn [secp_genPrivKey]. rewrite Hguard.
    destruct (bool_decide_reflect (0 < big_SetBytes b < curve_N)).
    + intros [= ->]. split; [apply list_elem_of_here|done].
    + intros Hk. destruct (IH Hk). split; [by apply list_elem_of_further|done].
  - intros pre k post Hpre Hk. induction Hpre as [|b pre Hb Hpre IH]; cbn [app secp_genPrivKey]; rewrite Hguard.
    + by rewrite bool_decide_true.
    + by rewrite bool_decide_false.
Qed.

(** Ed25519 keys: the public key of a private key made from a 32-byte seed
    is its second half, of 32 bytes, unless that half is all zero, and
    signatures made with the key verify under it. *)
Theorem ed_sign_verify `{CryptoLaws} seed msg pub :
  length seed = 32%nat ->
  (ed_PubKey (ed_genPrivKey seed) = Ok pub ->
     length pub = 32%nat /\ pub = drop 32 (ed_genPrivKey seed) /\
     exists sig, ed_Sign (ed_genPrivKey seed) msg = Ok sig /\ ed_VerifySignature pub msg sig = Ok true) /\
  (panics (ed_PubKey (ed_genPrivKey seed)) = true <-> drop 32 (ed_genPrivKey seed) = zeros 32).
Proof.
  intros Hseed. unfold ed_genPrivKey in *. pose proof (ed25519_key_size seed Hseed) as Hk.
  destruct (ed25519_Sign_verifies seed msg Hseed) as (sig & Hs & Hls & Hv).
  set (k := ed25519_NewKeyFromSeed seed) in *.
  assert (length (drop 32 k) = 32%nat) as Hd by (rewrite length_drop; lia).
  unfold ed_PubKey. assert ((len k <? 32) = false) as -> by (apply Z.ltb_ge; unfold len; lia).
  assert (go_copy (zeros 32) (drop 32 k) = drop 32 k) as ->.
  { unfold go_copy. rewrite Hd. unfold zeros. rewrite length_replicate.
    rewrite (firstn_all2 (drop 32 k)) by (rewrite Hd; done).
    rewrite (drop_ge (replicate 32 0)) by done. by rewrite app_nil_r. }
  destruct (existsb _ _) eqn:Hz; cbn [negb]; split.
  - intros [= <-]. split; [done|]. split; [done|]. exists sig. split; [done|].
    unfold ed_VerifySignature, len. rewrite Hls. exact Hv.
  - split; [done|]. intros E. rewrite E in Hz. discriminate Hz.
  - done.
  - split; [intros _|done]. assert (Forall (fun v => v = 0) (drop 32 k)) as HF.
    { apply Forall_forall. intros v Hin. destruct (Z.eqb_spec v 0) as [|Hne]; [done|].
      assert (existsb (fun v => negb (v =? 0)) (drop 32 k) = true) as Hx; [|congruence].
      apply existsb_exists. exists v. split; [by apply list_elem_of_In|]. by rewrite (proj2 (Z.eqb_neq _ _)). }
    unfold zeros. symmetry. apply replicate_as_Forall. split; [done|].
    eapply Forall_impl; [exact HF|]. by intros v ->.
Qed.

(** A library instance over a tiny group, to evaluate the definitions: hashes
    are constant and a signature is accepted when its [R] is the first byte of
    the public key plus one. *)
Definition toy_byte (k : bytes) : Z := Z.min 4 (Z.max 0 (nth 0 k 0)) + 1.
#[local] Instance toy_lib : CryptoLib := {|
  Sha256 _ := zeros 32; Ripemd160 _ := zeros 20; tmhash_SumTruncated _ := zeros 20;
  curve_N := 7; Point := Z; ParsePubKey k := Some (toy_byte k); SerializeCompressed k := k;
  ecdsa_Sign k _ := Ok (toy_byte k, 1); ecdsa_Verify rs _ P := fst rs =? P;
  ed25519_Sign _ _ := Ok (zeros 64); ed25519_Verify _ _ _ := Ok true;
  ed25519_NewKeyFromSeed seed := seed ++ replicate 32 1;
|}.
Lemma toy_laws : CryptoLaws (L := toy_lib).
Proof.
  split; cbn; try done.
  - intros _. by repeat constructor.
  - intros priv _ r s [= <- <-]. unfold toy_byte. split; [|split; done].
    generalize (nth 0 priv 0). intros z. lia.
  - intros priv _ rs _ [= <-]. eexists. split; [done|]. cbn. apply Z.eqb_refl.
  - intros seed Hs. rewrite length_app, Hs. done.
  - intros seed _ _. by eexists.
Qed.

Lemma secp_sign_verify_witness :
  secp_VerifySignature (L := toy_lib) (secp_PubKey [3]) [1; 2] (zeros 31 ++ [4] ++ zeros 31 ++ [1]) = true.
Proof. apply (proj1 (@secp_sign_verify toy_lib toy_laws) [3] [1; 2]); [split; vm_compute; reflexivity|vm_compute; reflexivity]. Defined.

Lemma secp_keys_valid_witness :
  secp_genPrivKey (L := toy_lib) [zeros 32; [1; 0]; zeros 31 ++ [5]; [3]] = Ok (zeros 31 ++ [5]).
Proof.
  apply (proj2 (proj2 (@secp_keys_valid toy_lib toy_laws)) [zeros 32; [1; 0]]).
  - repeat constructor; vm_compute; intros [? ?]; discriminate.
  - split; vm_compute; reflexivity.
Defined.

Lemma ed_sign_verify_witness :
  exists sig, ed_Sign (L := toy_lib) (ed_genPrivKey (zeros 32)) [5] = Ok sig.
Proof.
  destruct (proj1 (@ed_sign_verify toy_lib toy_laws (zeros 32) [5] (replicate 32 1) eq_refl) eq_refl)
    as (_ & _ & sig & E & _).
  exists sig. exact E.
Defined.
