(* ===== verification/Uuid.v ===== *)
(** Identifiers: [utils/uuid].

    A [UUID] is a list of 16 bytes, a [[]byte] text a list of bytes.  Random
    bytes, the clock, the network interfaces and the hash functions are the class
    [Host]; a generator keeps the state of the world of its host. *)
From S2P Require Import Prelude GoStrings BitArray Keys.

Definition Size : nat := 16.
Abbreviation UUID := bytes.
Definition Nil_UUID : UUID := zeros Size.

Definition V1 : Z := 1.
Definition V2 : Z := 2.
Definition V3 : Z := 3.
Definition V4 : Z := 4.
Definition V5 : Z := 5.

Definition VariantNCS : Z := 0.
Definition VariantRFC4122 : Z := 1.
Definition VariantMicrosoft : Z := 2.
Definition VariantFuture : Z := 3.

Definition DomainPerson : Z := 0.
Definition DomainGroup : Z := 1.
Definition DomainOrg : Z := 2.

Definition urnPrefix : bytes := to_bytes "urn:uuid:".
Definition byteGroups : list nat := [8; 4; 4; 4; 12]%nat.

(* ------------------------------------------------------------------ *)
(** * [encoding/hex] *)

Definition hexchar (n : Z) : Z := if n <? 10 then 48 + n else 87 + n.
Definition hex_Encode (src : bytes) : bytes := flat_map (fun b => [hexchar (Z.shiftr b 4); hexchar (Z.land b 15)]) src.
Definition fromHexChar (c : Z) : option Z :=
  if (48 <=? c) && (c <=? 57) then Some (c - 48)
  else if (97 <=? c) && (c <=? 102) then Some (c - 87)
  else if (65 <=? c) && (c <=? 70) then Some (c - 55)
  else None.
Definition InvalidByteError : string := "encoding/hex: invalid byte: %#U".
(** The bytes that were decoded, and the error. *)
Fixpoint hex_Decode (src : bytes) : bytes * option string :=
  match src with
  | [] => ([], None)
  | [a] => ([], Some (if fromHexChar a then "encoding/hex: odd length hex string" else InvalidByteError))
  | a :: b :: src =>
      match fromHexChar a, fromHexChar b with
      | Some x, Some y => let '(d, e) := hex_Decode src in (Z.lor (Z.shiftl x 4) y :: d, e)
      | _, _ => ([], Some InvalidByteError)
      end
  end.
(** [hex.Decode(dst, src)]: the contents of [dst] afterwards. *)
Definition hex_into (dst src : bytes) : bytes * option string := let '(d, e) := hex_Decode src in (go_copy dst d, e).

(* ------------------------------------------------------------------ *)
(** * [uuid.go] *)

Definition byte_at (u : bytes) (i : nat) : Z := nth i u 0.

Definition UUID_Equal (u1 u2 : UUID) : bool := bool_decide (u1 = u2).
Definition UUID_Version (u : UUID) : Z := Z.shiftr (byte_at u 6) 4.
Definition UUID_Variant (u : UUID) : Z :=
  if Z.shiftr (byte_at u 8) 7 =? 0 then VariantNCS
  else if Z.shiftr (byte_at u 8) 6 =? 2 then VariantRFC4122
  else if Z.shiftr (byte_at u 8) 5 =? 6 then VariantMicrosoft
  else VariantFuture.
Definition UUID_Bytes (u : UUID) : bytes := u.
(** The buffer of 36 bytes, piece by piece. *)
Definition UUID_text (u : UUID) : bytes :=
  hex_Encode (take 4 u) ++ [45] ++ hex_Encode (take 2 (drop 4 u)) ++ [45] ++ hex_Encode (take 2 (drop 6 u)) ++ [45] ++
  hex_Encode (take 2 (drop 8 u)) ++ [45] ++ hex_Encode (drop 10 u).
Definition UUID_String (u : UUID) : string := bytes_str (UUID_text u).
Definition SetVersion (v : Z) (u : UUID) : UUID := <[6%nat := Z.lor (Z.land (byte_at u 6) 0x0f) (wrap_u8 (Z.shiftl v 4))]> u.
Definition SetVariant (v : Z) (u : UUID) : UUID :=
  let u8 := byte_at u 8 in
  <[8%nat :=
    if v =? VariantNCS then Z.lor (Z.land u8 (Z.shiftr 0xff 1)) (Z.shiftl 0 7)
    else if v =? VariantRFC4122 then Z.lor (Z.land u8 (Z.shiftr 0xff 2)) (Z.shiftl 2 6)
    else if v =? VariantMicrosoft then Z.lor (Z.land u8 (Z.shiftr 0xff 3)) (Z.shiftl 6 5)
    else Z.lor (Z.land u8 (Z.shiftr 0xff 3)) (Z.shiftl 7 5)]> u.
(** [Must(u, err)] *)
Definition Must (r : UUID * option string) : res UUID :=
  let '(u, err) := r in match err with Some e => Panic e | None => Ok u end.

(* ------------------------------------------------------------------ *)
(** * [codec.go]

    The methods write into their receiver: the results are its contents
    afterwards, also after an error, and the error. *)

Definition incorrect_length : string := "uuid: incorrect UUID length: %s".
Definition incorrect_format : string := "uuid: incorrect UUID format %s".

(** The loop over the groups: [dst] is the rest of the receiver. *)
Fixpoint decode_groups (first : bool) (groups : list nat) (dst src : bytes) : bytes * option string :=
  match groups with
  | [] => (dst, None)
  | byteGroup :: groups =>
      let src := if first then src else drop 1 src in
      let half := Nat.div2 byteGroup in
      let '(d, e) := hex_into (take half dst) (take byteGroup src) in
      match e with
      | Some e => (d ++ drop half dst, Some e)
      | None => let '(r, e) := decode_groups false groups (drop half dst) (drop byteGroup src) in (d ++ r, e)
      end
  end.
Definition decodeCanonical (u : UUID) (t : bytes) : UUID * option string :=
  if negb (byte_at t 8 =? 45) || negb (byte_at t 13 =? 45) || negb (byte_at t 18 =? 45) || negb (byte_at t 23 =? 45)
  then (u, Some incorrect_format)
  else decode_groups true byteGroups u t.
Definition decodeHashLike (u : UUID) (t : bytes) : UUID * option string := hex_into u t.
Definition decodePlain (u : UUID) (t : bytes) : UUID * option string :=
  match length t with
  | 32%nat => decodeHashLike u t
  | 36%nat => decodeCanonical u t
  | _ => (u, Some "uuid: incorrrect UUID length: %s")
  end.
Definition decodeBraced (u : UUID) (t : bytes) : UUID * option string :=
  let l := length t in
  if negb (byte_at t 0 =? 123) || negb (byte_at t (l - 1) =? 125) then (u, Some incorrect_format)
  else decodePlain u (drop 1 (take (l - 1) t)).
Definition decodeURN (u : UUID) (t : bytes) : UUID * option string :=
  if negb (bool_decide (take 9 t = urnPrefix)) then (u, Some "uuid: incorrect UUID format: %s")
  else decodePlain u (drop 9 t).
Definition UnmarshalText (u : UUID) (text : bytes) : UUID * option string :=
  match length text with
  | 32%nat => decodeHashLike u text
  | 36%nat => decodeCanonical u text
  | 38%nat => decodeBraced u text
  | 41%nat | 45%nat => decodeURN u text
  | _ => (u, Some incorrect_length)
  end.
Definition MarshalText (u : UUID) : bytes * option string := (to_bytes (UUID_String u), None).
Definition UnmarshalBinary (u : UUID) (data : bytes) : UUID * option string :=
  if negb (bool_decide (length data = Size)) then (u, Some "uuid: UUID must be exactly 16 bytes long, got %d bytes")
  else (go_copy u data, None).
Definition MarshalBinary (u : UUID) : bytes * option string := (UUID_Bytes u, None).

Definition FromBytes (input : bytes) : UUID * option string := UnmarshalBinary Nil_UUID input.
Definition FromBytesOrNil (input : bytes) : UUID := let '(uuid, err) := FromBytes input in if err then Nil_UUID else uuid.
Definition FromString (input : string) : UUID * option string := UnmarshalText Nil_UUID (to_bytes input).
Definition FromStringOrNil (input : string) : UUID := let '(uuid, err) := FromString input in if err then Nil_UUID else uuid.

Definition NamespaceDNS : res UUID := Must (FromString "6ba7b810-9dad-11d1-80b4-00c04fd430c8").
Definition NamespaceURL : res UUID := Must (FromString "6ba7b811-9dad-11d1-80b4-00c04fd430c8").
Definition NamespaceOID : res UUID := Must (FromString "6ba7b812-9dad-11d1-80b4-00c04fd430c8").
Definition NamespaceX500 : res UUID := Must (FromString "6ba7b814-9dad-11d1-80b4-00c04fd430c8").

(* ------------------------------------------------------------------ *)
(** * [generator.go] *)

(** What a generator uses of its host, with the world [W] behind it:
    [io.ReadFull] of the random reader into [n] bytes (the bytes that were read,
    and the error), the clock's [UnixNano], the first address of a network
    interface that has six bytes, and the hash functions. *)
Class Host (W : Type) := {
  ReadFull : nat -> W -> bytes * option string * W;
  UnixNano : W -> Z * W;
  HWAddr : W -> res bytes * W;
  md5_Sum : bytes -> bytes;
  sha1_Sum : bytes -> bytes;
  posixUID : Z;
  posixGID : Z;
}.

Section Generator.
Context {W : Type} `{Host W}.

(** [rfc4122Generator]; whether each [sync.Once] is done comes first. *)
Record rfc4122Generator := MkGenerator {
  clockSequenceOnce : bool; hardwareAddrOnce : bool; lastTime : Z; clockSequence : Z; hardwareAddr : bytes; gen_world : W }.
Definition newRFC4122Generator (w : W) : rfc4122Generator := MkGenerator false false 0 0 (zeros 6) w.
Abbreviation M := (ST rfc4122Generator).

Definition epochStart : Z := 122192928000000000.
Definition getEpoch : M Z := fun '(MkGenerator c h t s a w) =>
  let '(now, w) := UnixNano w in (Ok (wrap_u64 (epochStart + wrap_u64 (Z.quot now 100))), MkGenerator c h t s a w).

(** The closure of [clockSequenceOnce.Do]; its error is only seen by the call
    that runs it. *)
Definition init_clock : M unit := fun '(MkGenerator c h t s a w) =>
  if c then (Ok tt, MkGenerator c h t s a w) else
  let '(buf, err, w) := ReadFull 2 w in
  match err with
  | Some e => (Err e, MkGenerator true h t s a w)
  | None => (Ok tt, MkGenerator true h t (big_SetBytes buf) a w)
  end.
(** The time and the clock sequence, which is increased when the clock has not
    advanced. *)
Definition next_clock (timeNow : Z) : M (Z * Z) := fun '(MkGenerator c h t s a w) =>
  let s := if timeNow <=? t then wrap_u16 (s + 1) else s in
  (Ok (timeNow, s), MkGenerator c h timeNow s a w).
Definition getClockSequence : M (Z * Z) := _ ← init_clock; timeNow ← getEpoch; next_clock timeNow.
Definition getHardwareAddr : M bytes := fun '(MkGenerator c h t s a w) =>
  if h then (Ok a, MkGenerator c h t s a w) else
  match HWAddr w with
  | (Ok hwAddr, w) => let a := go_copy a hwAddr in (Ok a, MkGenerator c true t s a w)
  | (Panic p, w) => (Panic p, MkGenerator c true t s a w)
  | (Err _, w) =>
      let '(bs, err, w) := ReadFull 6 w in
      let a := go_copy a bs in
      match err with
      | Some e => (Err e, MkGenerator c true t s a w)
      | None => let a := <[0%nat := Z.lor (byte_at a 0) 1]> a in (Ok a, MkGenerator c true t s a w)
      end
  end.

Definition NewV1 : M UUID :=
  '(timeNow, clockSeq) ← getClockSequence;
  let u := ser 4 (wrap_u32 timeNow) ++ ser 2 (wrap_u16 (Z.shiftr timeNow 32)) ++ ser 2 (wrap_u16 (Z.shiftr timeNow 48)) ++
           ser 2 clockSeq ++ zeros 6 in
  hardwareAddr ← getHardwareAddr;
  let u := take 10 u ++ go_copy (drop 10 u) hardwareAddr in
  mret (SetVariant VariantRFC4122 (SetVersion V1 u)).
Definition NewV2 (domain : Z) : M UUID :=
  u ← NewV1;
  let u := if domain =? DomainPerson then ser 4 posixUID ++ drop 4 u
           else if domain =? DomainGroup then ser 4 posixGID ++ drop 4 u else u in
  let u := <[9%nat := domain]> u in
  mret (SetVariant VariantRFC4122 (SetVersion V2 u)).
Definition newFromHash (sum : bytes -> bytes) (ns : UUID) (name : string) : UUID :=
  go_copy (zeros Size) (sum (ns ++ to_bytes name)).
Definition NewV3 (ns : UUID) (name : string) : UUID :=
  SetVariant VariantRFC4122 (SetVersion V3 (newFromHash md5_Sum ns name)).
Definition NewV4 : M UUID := fun '(MkGenerator c h t s a w) =>
  let '(bs, err, w) := ReadFull Size w in
  match err with
  | Some e => (Err e, MkGenerator c h t s a w)
  | None => (Ok (SetVariant VariantRFC4122 (SetVersion V4 (go_copy (zeros Size) bs))), MkGenerator c h t s a w)
  end.
Definition NewV5 (ns : UUID) (name : string) : UUID :=
  SetVariant VariantRFC4122 (SetVersion V5 (newFromHash sha1_Sum ns name)).
End Generator.
Arguments rfc4122Generator W : clear implicits.

(* ------------------------------------------------------------------ *)
(** * Texts *)

(** The text with its hexadecimal digits in lower case. *)
Definition hex_lower (c : Z) : Z := if (65 <=? c) && (c <=? 70) then c + 32 else c.
Definition lower : bytes -> bytes := map hex_lower.
(** The texts that denote [u]: plain, in braces, or as an URN, the last two
    around a plain text, of which braces only admit the canonical one. *)
Definition denotes (t : bytes) (u : UUID) : Prop :=
  lower t = hex_Encode u \/ lower t = UUID_text u \/ lower t = [123] ++ UUID_text u ++ [125] \/
  exists p, t = urnPrefix ++ p /\ (lower p = hex_Encode u \/ lower p = UUID_text u).

Lemma fromHexChar_spec c v : fromHexChar c = Some v <-> 0 <= v < 16 /\ hex_lower c = hexchar v.
Proof.
  unfold fromHexChar, hex_lower, hexchar.
  destruct (Z.leb_spec 48 c), (Z.leb_spec c 57), (Z.leb_spec 97 c), (Z.leb_spec c 102), (Z.leb_spec 65 c), (Z.leb_spec c 70),
    (Z.ltb_spec v 10); cbn [andb]; (split; [intros [= <-]|intros [? ?]]); try lia; f_equal; lia.
Qed.
Lemma hexchar_inj x y : 0 <= x < 16 -> 0 <= y < 16 -> hexchar x = hexchar y -> x = y.
Proof. unfold hexchar. intros ? ?. destruct (Z.ltb_spec x 10), (Z.ltb_spec y 10); lia. Qed.

Lemma nibbles_join x y : 0 <= x < 16 -> 0 <= y < 16 -> Z.lor (Z.shiftl x 4) y = 16 * x + y.
Proof. intros ? ?. rewrite Z.lor_comm, lor_shift by lia. lia. Qed.
Lemma nibbles_split b : is_uint8 b ->
  0 <= Z.shiftr b 4 < 16 /\ 0 <= Z.land b 15 < 16 /\ b = 16 * Z.shiftr b 4 + Z.land b 15.
Proof.
  intros Hb. unfold is_uint8 in Hb. change 15 with (Z.ones 4). rewrite Z.land_ones, Z.shiftr_div_pow2 by lia.
  change (2 ^ 4) with 16. pose proof (Z.div_mod b 16 ltac:(lia)). pose proof (Z.mod_pos_bound b 16 ltac:(lia)).
  lia.
Qed.

Lemma hex_Encode_length u : length (hex_Encode u) = (2 * length u)%nat.
Proof. induction u as [|b u IH]; [done|]. cbn. unfold hex_Encode in IH. rewrite IH. lia. Qed.
Lemma hex_Encode_app u v : hex_Encode (u ++ v) = hex_Encode u ++ hex_Encode v.
Proof. apply flat_map_app. Qed.

Lemma pairs_ind (P : bytes -> Prop) : P [] -> (forall a, P [a]) -> (forall a b l, P l -> P (a :: b :: l)) -> forall l, P l.
Proof. intros H0 H1 H2. fix IH 1. intros [|a [|b l]]; [exact H0|apply H1|apply H2, IH]. Qed.
Lemma hex_Decode_spec src d : hex_Decode src = (d, None) <-> Forall is_uint8 d /\ lower src = hex_Encode d.
Proof.
  revert d. induction src as [|a|a b src IH] using pairs_ind; intros d.
  - cbn. split; [by intros [= <-]|]. intros [_ E]. destruct d as [|? d]; [done|]. discriminate E.
  - split; [done|]. intros [_ E]. apply (f_equal length) in E. rewrite hex_Encode_length in E. cbn in E. lia.
  - cbn [hex_Decode]. split.
    + destruct (fromHexChar a) as [x|] eqn:Ea; [|done]. destruct (fromHexChar b) as [y|] eqn:Eb; [|done].
      apply fromHexChar_spec in Ea as [Hx Ea], Eb as [Hy Eb].
      destruct (hex_Decode src) as [d' e]. intros [= <- ->]. destruct (proj1 (IH d') eq_refl) as [Hd E].
      rewrite nibbles_join by done. assert (is_uint8 (16 * x + y)) as H8 by (unfold is_uint8; lia).
      split; [by constructor|]. destruct (nibbles_split _ H8) as (H1 & H2 & H3).
      cbn. rewrite Ea, Eb, E. replace (Z.shiftr (16 * x + y) 4) with x by lia. by replace (Z.land (16 * x + y) 15) with y by lia.
    + intros [Hd E]. destruct d as [|c d]; [discriminate E|]. apply Forall_cons in Hd as [Hc Hd].
      injection E as Ea Eb E. destruct (nibbles_split c Hc) as (H1 & H2 & H3).
      rewrite (proj2 (fromHexChar_spec a _) (conj H1 Ea)), (proj2 (fromHexChar_spec b _) (conj H2 Eb)).
      rewrite (proj2 (IH d) (conj Hd E)), nibbles_join, <-H3 by done. done.
Qed.
Lemma hex_into_spec dst src d : length src = (2 * length dst)%nat ->
  hex_into dst src = (d, None) <-> Forall is_uint8 d /\ lower src = hex_Encode d.
Proof.
  intros Hl. rewrite <-hex_Decode_spec. unfold hex_into. destruct (hex_Decode src) as [d' e] eqn:E.
  assert (e = None -> go_copy dst d' = d') as Hc.
  { intros ->. apply hex_Decode_spec in E as [_ E]. apply (f_equal length) in E.
    rewrite hex_Encode_length in E. unfold lower in E. rewrite length_map in E.
    unfold go_copy. rewrite take_ge, drop_ge by lia. apply app_nil_r. }
  split; intros [= <- ->]; f_equal; by rewrite Hc.
Qed.

Lemma lower_app a b : lower (a ++ b) = lower a ++ lower b.
Proof. apply map_app. Qed.
Lemma decode_groups_step first c half groups dst1 dst p src d : length dst1 = half -> length p = (2 * half)%nat ->
  decode_groups first (2 * half :: groups)%nat (dst1 ++ dst) ((if first then [] else [c]) ++ p ++ src) = (d, None) <->
  exists d1 d2, d = d1 ++ d2 /\ Forall is_uint8 d1 /\ lower p = hex_Encode d1 /\ decode_groups false groups dst src = (d2, None).
Proof.
  intros Hd Hp. cbn [decode_groups].
  assert ((if first then (if first then [] else [c]) ++ p ++ src else drop 1 ((if first then [] else [c]) ++ p ++ src)) = p ++ src)
    as -> by (by destruct first).
  rewrite Nat.div2_double, !take_app_length', !drop_app_length' by done.
  destruct (hex_into dst1 p) as [d1 [e|]] eqn:E.
  - split; [done|]. intros (d1' & d2 & _ & H8 & Hl & _). exfalso.
    assert (hex_into dst1 p = (d1', None)) as E' by (apply hex_into_spec; [lia|done]). by rewrite E' in E.
  - pose proof E as E'. apply hex_into_spec in E as [H8 Hl]; [|lia].
    destruct (decode_groups false groups dst src) as [d2 e]. split.
    + intros [= <- ->]. by exists d1, d2.
    + intros (d1' & d2' & -> & H8' & Hl' & [= <- ->]).
      assert (hex_into dst1 p = (d1', None)) as E1 by (apply hex_into_spec; [lia|done]).
      rewrite E1 in E'. by injection E' as ->.
Qed.

Lemma canonical_parts t : length t = 36%nat -> byte_at t 8 = 45 -> byte_at t 13 = 45 -> byte_at t 18 = 45 -> byte_at t 23 = 45 ->
  exists p1 p2 p3 p4 p5, t = p1 ++ [45] ++ p2 ++ [45] ++ p3 ++ [45] ++ p4 ++ [45] ++ p5 /\
    length p1 = 8%nat /\ length p2 = 4%nat /\ length p3 = 4%nat /\ length p4 = 4%nat /\ length p5 = 12%nat.
Proof.
  intros Hl H1 H2 H3 H4. exists (take 8 t), (take 4 (drop 9 t)), (take 4 (drop 14 t)), (take 4 (drop 19 t)), (drop 24 t).
  split; [|rewrite !length_take, !length_drop; lia].
  do 36 (destruct t as [|? t]; [discriminate Hl|]). destruct t; [|discriminate Hl]. cbn in *. by subst.
Qed.

Ltac explicit l H := repeat (destruct l as [|? l]; [discriminate H|]); destruct l; [|discriminate H].
Lemma UUID_text_parts d1 d2 d3 d4 d5 :
  length d1 = 4%nat -> length d2 = 2%nat -> length d3 = 2%nat -> length d4 = 2%nat -> length d5 = 6%nat ->
  UUID_text (d1 ++ d2 ++ d3 ++ d4 ++ d5) =
    hex_Encode d1 ++ [45] ++ hex_Encode d2 ++ [45] ++ hex_Encode d3 ++ [45] ++ hex_Encode d4 ++ [45] ++ hex_Encode d5.
Proof.
  intros H1 H2 H3 H4 H5. do 4 (destruct d1 as [|? d1]; [done|]). destruct d1; [|done]. do 2 (destruct d2 as [|? d2]; [done|]).
  destruct d2; [|done]. do 2 (destruct d3 as [|? d3]; [done|]). destruct d3; [|done].
  do 2 (destruct d4 as [|? d4]; [done|]). by destruct d4.
Qed.
Lemma UUID_text_length u : length (UUID_text u) = (2 * length u + 4)%nat.
Proof. unfold UUID_text. rewrite !length_app, !hex_Encode_length, !length_take, !length_drop. cbn [length]. lia. Qed.
Lemma uuid_parts (u : UUID) : length u = 16%nat -> exists d1 d2 d3 d4 d5, u = d1 ++ d2 ++ d3 ++ d4 ++ d5 /\
  length d1 = 4%nat /\ length d2 = 2%nat /\ length d3 = 2%nat /\ length d4 = 2%nat /\ length d5 = 6%nat.
Proof.
  intros Hl. exists (take 4 u), (take 2 (drop 4 u)), (take 2 (drop 6 u)), (take 2 (drop 8 u)), (drop 10 u).
  split; [|rewrite !length_take, !length_drop; lia].
  do 16 (destruct u as [|? u]; [discriminate Hl|]). by destruct u.
Qed.
Lemma text_dashes u : length u = 16%nat ->
  byte_at (UUID_text u) 8 = 45 /\ byte_at (UUID_text u) 13 = 45 /\ byte_at (UUID_text u) 18 = 45 /\ byte_at (UUID_text u) 23 = 45.
Proof. intros Hl. do 16 (destruct u as [|? u]; [discriminate Hl|]). by destruct u. Qed.
Lemma lower_at t i : byte_at (lower t) i = 45 -> byte_at t i = 45.
Proof.
  unfold byte_at, lower. change 0 with (hex_lower 0) at 1. rewrite map_nth. unfold hex_lower.
  destruct (Z.leb_spec 65 (nth i t 0)), (Z.leb_spec (nth i t 0) 70); cbn [andb]; lia.
Qed.
Lemma lower_length t : length (lower t) = length t.
Proof. apply length_map. Qed.

Lemma decode_groups_spec e1 e2 e3 e4 e5 v :
  length e1 = 4%nat -> length e2 = 2%nat -> length e3 = 2%nat -> length e4 = 2%nat -> length e5 = 6%nat ->
  forall p1 p2 p3 p4 p5, length p1 = 8%nat -> length p2 = 4%nat -> length p3 = 4%nat -> length p4 = 4%nat -> length p5 = 12%nat ->
  decode_groups true byteGroups (e1 ++ e2 ++ e3 ++ e4 ++ e5) (p1 ++ [45] ++ p2 ++ [45] ++ p3 ++ [45] ++ p4 ++ [45] ++ p5) = (v, None) <->
    exists d1 d2 d3 d4 d5, v = d1 ++ d2 ++ d3 ++ d4 ++ d5 /\ (Forall is_uint8 d1 /\ lower p1 = hex_Encode d1) /\
      (Forall is_uint8 d2 /\ lower p2 = hex_Encode d2) /\ (Forall is_uint8 d3 /\ lower p3 = hex_Encode d3) /\
      (Forall is_uint8 d4 /\ lower p4 = hex_Encode d4) /\ (Forall is_uint8 d5 /\ lower p5 = hex_Encode d5).
Proof.
  intros He1 He2 He3 He4 He5 p1 p2 p3 p4 p5 H1 H2 H3 H4 H5.
  rewrite <-(app_nil_r e5), <-(app_nil_r p5). unfold byteGroups. cbn [app].
  pose proof (fun src d => decode_groups_step true 0 4 [4; 4; 4; 12]%nat e1 (e2 ++ e3 ++ e4 ++ e5 ++ []) p1 src d He1 H1) as S1.
  pose proof (fun src d => decode_groups_step false 45 2 [4; 4; 12]%nat e2 (e3 ++ e4 ++ e5 ++ []) p2 src d He2 H2) as S2.
  pose proof (fun src d => decode_groups_step false 45 2 [4; 12]%nat e3 (e4 ++ e5 ++ []) p3 src d He3 H3) as S3.
  pose proof (fun src d => decode_groups_step false 45 2 [12]%nat e4 (e5 ++ []) p4 src d He4 H4) as S4.
  pose proof (fun src d => decode_groups_step false 45 6 [] e5 [] p5 src d He5 H5) as S5.
  cbn [Nat.mul Nat.add app] in S1, S2, S3, S4, S5. rewrite S1. setoid_rewrite S2. setoid_rewrite S3. setoid_rewrite S4. setoid_rewrite S5.
  rewrite (app_nil_r p5).
  split.
  - intros (d1 & ? & -> & ? & ? & d2 & ? & -> & ? & ? & d3 & ? & -> & ? & ? & d4 & ? & -> & ? & ? & d5 & ? & -> & ? & ? & [= <-]).
    rewrite app_nil_r. exists d1, d2, d3, d4, d5. split_and!; done.
  - intros (d1 & d2 & d3 & d4 & d5 & -> & [] & [] & [] & [] & []).
    do 4 (eexists _, _; split; [reflexivity|]; split; [eassumption|]; split; [eassumption|]).
    exists d5, []. by rewrite app_nil_r.
Qed.
Lemma decodeCanonical_spec u t v : length u = 16%nat -> length t = 36%nat ->
  decodeCanonical u t = (v, None) <-> Forall is_uint8 v /\ lower t = UUID_text v.
Proof.
  intros Hu Ht. unfold decodeCanonical.
  assert (forall v, lower t = UUID_text v -> length v = 16%nat) as Hv.
  { intros v' E. apply (f_equal length) in E. rewrite UUID_text_length, lower_length in E. lia. }
  destruct (uuid_parts u Hu) as (e1 & e2 & e3 & e4 & e5 & -> & He1 & He2 & He3 & He4 & He5).
  pose proof (decode_groups_spec e1 e2 e3 e4 e5 v He1 He2 He3 He4 He5) as Hg.
  split.
  - destruct (byte_at t 8 =? 45) eqn:B1; [|done]. destruct (byte_at t 13 =? 45) eqn:B2; [|done].
    destruct (byte_at t 18 =? 45) eqn:B3; [|done]. destruct (byte_at t 23 =? 45) eqn:B4; [|done]. cbn [negb orb].
    apply Z.eqb_eq in B1, B2, B3, B4.
    destruct (canonical_parts t Ht B1 B2 B3 B4) as (p1 & p2 & p3 & p4 & p5 & -> & Hp1 & Hp2 & Hp3 & Hp4 & Hp5).
    rewrite Hg by done. intros (d1 & d2 & d3 & d4 & d5 & -> & [F1 E1] & [F2 E2] & [F3 E3] & [F4 E4] & [F5 E5]).
    split; [by repeat apply Forall_app_2|].
    rewrite !lower_app, E1, E2, E3, E4, E5.
    apply (f_equal length) in E1, E2, E3, E4, E5. rewrite lower_length, hex_Encode_length in E1, E2, E3, E4, E5.
    rewrite UUID_text_parts by lia. done.
  - intros [H8 E]. pose proof (Hv v E) as Hl. destruct (text_dashes v Hl) as (T1 & T2 & T3 & T4). rewrite <-E in T1, T2, T3, T4.
    apply lower_at in T1, T2, T3, T4. rewrite T1, T2, T3, T4. cbn [negb orb Z.eqb Pos.eqb].
    destruct (canonical_parts t Ht T1 T2 T3 T4) as (p1 & p2 & p3 & p4 & p5 & -> & Hp1 & Hp2 & Hp3 & Hp4 & Hp5).
    rewrite Hg by done. destruct (uuid_parts v Hl) as (d1 & d2 & d3 & d4 & d5 & -> & Hd1 & Hd2 & Hd3 & Hd4 & Hd5).
    exists d1, d2, d3, d4, d5. rewrite !lower_app, UUID_text_parts in E by done.
    rewrite !Forall_app in H8. destruct H8 as (F1 & F2 & F3 & F4 & F5).
    repeat match type of E with
    | lower ?p ++ _ = hex_Encode ?d ++ _ => let E' := fresh "E" in
        apply app_inj_1 in E as [E' E]; [|rewrite lower_length, hex_Encode_length; lia]; apply (app_inv_head [45]) in E
    end. done.
Qed.

Definition uuid_ok (u : UUID) : Prop := Forall is_uint8 u /\ length u = 16%nat.
Lemma decodePlain_spec u t v : length u = 16%nat ->
  decodePlain u t = (v, None) <-> uuid_ok v /\ (lower t = hex_Encode v \/ lower t = UUID_text v).
Proof.
  intros Hu. unfold decodePlain, uuid_ok.
  assert (lower t = hex_Encode v -> length t = (2 * length v)%nat) as Hh by (intros E; by rewrite <-lower_length, E, hex_Encode_length).
  assert (lower t = UUID_text v -> length t = (2 * length v + 4)%nat) as Hc by (intros E; by rewrite <-lower_length, E, UUID_text_length).
  destruct (decide (length t = 32%nat)) as [E|N]; [rewrite E in *|destruct (decide (length t = 36%nat)) as [E|N']; [rewrite E in *|]].
  - unfold decodeHashLike. rewrite hex_into_spec by lia. split; [|by intros [[? ?] [?|?%Hc]]; [|lia]].
    intros [? E']. pose proof (Hh E'). split_and!; [done|lia|by left].
  - rewrite decodeCanonical_spec by done. split; [|by intros [[? ?] [?%Hh|?]]; [lia|]].
    intros [? E']. pose proof (Hc E'). split_and!; [done|lia|by right].
  - assert (forall r : UUID * option string, match length t with 32%nat => decodeHashLike u t | 36%nat => decodeCanonical u t | _ => r end = r)
      as -> by (intros r; do 37 (destruct t as [|? t]; try done)).
    split; [done|]. intros [[_ ?] [?%Hh|?%Hc]]; lia.
Qed.
Lemma denotes_length t u : uuid_ok u -> denotes t u -> In (length t) [32; 36; 38; 41; 45]%nat.
Proof.
  intros [_ Hu]. pose proof (hex_Encode_length u) as Hh. pose proof (UUID_text_length u) as Hc. rewrite Hu in Hh, Hc.
  intros [E|[E|[E|(p & -> & [E|E])]]]; apply (f_equal length) in E; rewrite lower_length in E; rewrite ?length_app in *; cbn [length] in *;
    rewrite E, ?Hh, ?Hc; cbn; tauto.
Qed.
Lemma hex_lower_braces c : (hex_lower c = 123 <-> c = 123) /\ (hex_lower c = 125 <-> c = 125).
Proof. unfold hex_lower. destruct (Z.leb_spec 65 c), (Z.leb_spec c 70); cbn [andb]; lia. Qed.
Lemma decodeBraced_spec u t v : length u = 16%nat -> length t = 38%nat ->
  decodeBraced u t = (v, None) <-> uuid_ok v /\ lower t = [123] ++ UUID_text v ++ [125].
Proof.
  intros Hu Ht. destruct t as [|a t]; [discriminate Ht|]. destruct t as [|b p _] using rev_ind; [discriminate Ht|].
  cbn [length] in Ht. rewrite length_app in Ht. cbn [length] in Ht. assert (length p = 36%nat) as Hp by lia.
  unfold decodeBraced. change (length (a :: p ++ [b]))%nat with (S (length (p ++ [b]))). rewrite length_app, Hp.
  change (S (36 + length [b]) - 1)%nat with 37%nat. change (byte_at (a :: p ++ [b]) 0) with a.
  assert (byte_at (a :: p ++ [b]) 37 = b) as ->.
  { unfold byte_at. change (a :: p ++ [b]) with ((a :: p) ++ [b]). rewrite app_nth2; cbn [length]; rewrite Hp; [done|lia]. }
  assert (drop 1 (take 37 (a :: p ++ [b])) = p) as ->.
  { cbn. by rewrite take_app_length' by done. }
  assert (lower (a :: p ++ [b]) = [123] ++ UUID_text v ++ [125] <-> a = 123 /\ b = 125 /\ lower p = UUID_text v) as ->.
  { change (a :: p ++ [b]) with ([a] ++ p ++ [b]). rewrite !lower_app. cbn. split.
    - intros [= Ea E]. apply app_inj_tail in E as [E Eb].
      by apply (proj1 (hex_lower_braces a)) in Ea; apply (proj2 (hex_lower_braces b)) in Eb.
    - by intros (-> & -> & ->). }
  destruct (Z.eqb_spec a 123), (Z.eqb_spec b 125); cbn [negb orb]; [|naive_solver..].
  rewrite decodePlain_spec by done. split; [|naive_solver]. intros [Hv [E|E]]; [|done].
  apply (f_equal length) in E. rewrite lower_length, hex_Encode_length in E. destruct Hv as [_ Hv]. lia.
Qed.
Lemma decodeURN_spec u t v : length u = 16%nat ->
  decodeURN u t = (v, None) <-> uuid_ok v /\ exists p, t = urnPrefix ++ p /\ (lower p = hex_Encode v \/ lower p = UUID_text v).
Proof.
  intros Hu. unfold decodeURN. case_bool_decide as E; cbn [negb].
  - rewrite decodePlain_spec by done. split; intros [Hv Hp]; (split; [done|]).
    + exists (drop 9 t). by rewrite <-E, take_drop.
    + destruct Hp as (p & -> & Hp). exact Hp.
  - split; [done|]. intros [_ (p & -> & _)]. by destruct E.
Qed.
Ltac form :=
  match goal with Hd : uuid_ok ?v -> denotes ?t ?v -> _, Hv : uuid_ok ?v, Hn : denotes ?t ?v |- _ =>
    destruct (Hd Hv Hn) as [[? ?]|[[? ?]|[[? ?]|[[?|?] ?]]]]; try lia end.
Lemma UnmarshalText_spec u t v : length u = 16%nat -> UnmarshalText u t = (v, None) <-> uuid_ok v /\ denotes t v.
Proof.
  intros Hu. unfold UnmarshalText.
  destruct (decide (In (length t) [32; 36; 38; 41; 45]%nat)) as [Hl|Hl].
  2: { split; [|intros [Hv Hd]; by destruct Hl; eapply denotes_length].
       destruct (decide (46 <= length t)%nat) as [Hlt|Hlt].
       - do 46 (destruct t as [|? t]; [cbn in Hlt; lia|]). done.
       - do 46 (destruct t as [|? t]; [cbn in Hl; solve [done|by destruct Hl; tauto]|]). cbn in Hlt. lia. }
  assert (uuid_ok v -> length (hex_Encode v) = 32%nat /\ length (UUID_text v) = 36%nat) as Hlen
    by (intros [_ Hv]; by rewrite hex_Encode_length, UUID_text_length, Hv).
  assert (uuid_ok v -> denotes t v -> (length t = 32%nat /\ lower t = hex_Encode v) \/ (length t = 36%nat /\ lower t = UUID_text v) \/
    (length t = 38%nat /\ lower t = [123] ++ UUID_text v ++ [125]) \/
    ((length t = 41%nat \/ length t = 45%nat) /\ exists p, t = urnPrefix ++ p /\ (lower p = hex_Encode v \/ lower p = UUID_text v))) as Hd.
  { intros Hv Hd. destruct (Hlen Hv) as [L1 L2].
    destruct Hd as [E|[E|[E|(p & E & E')]]]; pose proof (f_equal length E) as L; rewrite ?lower_length, ?length_app in L;
      cbn [length] in L.
    1: left; split; [lia|done]. 1: right; left; split; [lia|done]. 1: right; right; left; split; [lia|done].
    do 3 right. split; [|by exists p]. change (length urnPrefix) with 9%nat in L.
    destruct E' as [E'|E']; apply (f_equal length) in E'; rewrite lower_length in E'; lia. }
  destruct Hl as [E|[E|[E|[E|[E|[]]]]]]; rewrite <-E; symmetry in E.
  - unfold decodeHashLike. rewrite hex_into_spec by lia. split; [|intros [Hv Hn]; form; by split; [apply Hv|]]. intros [H8 El].
    assert (uuid_ok v) by (split; [done|]; apply (f_equal length) in El; rewrite lower_length, hex_Encode_length in El; lia).
    split; [done|by left].
  - rewrite decodeCanonical_spec by done. split; [|intros [Hv Hn]; form; by split; [apply Hv|]]. intros [H8 El].
    assert (uuid_ok v) by (split; [done|]; apply (f_equal length) in El; rewrite lower_length, UUID_text_length in El; lia).
    split; [done|by right; left].
  - rewrite decodeBraced_spec by done. split; [intros [Hv Hp]; split; [done|]|intros [Hv Hn]; form; done]. by right; right; left.
  - rewrite decodeURN_spec by done. split; [intros [Hv Hp]; split; [done|]|intros [Hv Hn]; form; done]. by do 3 right.
  - rewrite decodeURN_spec by done. split; [intros [Hv Hp]; split; [done|]|intros [Hv Hn]; form; done]. by do 3 right.
Qed.

Lemma hexchar_plain n : 0 <= n < 16 -> is_uint8 (hexchar n) /\ hex_lower (hexchar n) = hexchar n.
Proof.
  intros Hn. unfold is_uint8, hex_lower, hexchar. destruct (Z.ltb_spec n 10).
  - rewrite (proj2 (Z.leb_gt 65 (48 + n))) by lia. cbn [andb]. lia.
  - rewrite (proj2 (Z.leb_gt (87 + n) 70)) by lia. rewrite andb_false_r. lia.
Qed.
Lemma hex_Encode_lower d : Forall is_uint8 d -> Forall is_uint8 (hex_Encode d) /\ lower (hex_Encode d) = hex_Encode d.
Proof.
  induction 1 as [|b d Hb _ [IH1 IH2]]; [by split; [constructor|]|]. destruct (nibbles_split b Hb) as (H1 & H2 & _).
  destruct (hexchar_plain _ H1) as [? E1], (hexchar_plain _ H2) as [? E2]. split; [constructor; [done|]; constructor; done|].
  cbn. rewrite E1, E2. do 2 f_equal. exact IH2.
Qed.
Lemma FromString_String u : uuid_ok u -> FromString (UUID_String u) = (u, None).
Proof.
  intros Hu. apply UnmarshalText_spec; [done|]. split; [done|]. right; left. unfold UUID_String.
  assert (Forall is_uint8 (UUID_text u) /\ lower (UUID_text u) = UUID_text u) as [H8 Hl]; [|by rewrite to_bytes_bytes_str].
  destruct (uuid_parts u (proj2 Hu)) as (d1 & d2 & d3 & d4 & d5 & -> & H1 & H2 & H3 & H4 & H5). rewrite UUID_text_parts by done.
  destruct Hu as [Hu _]. rewrite !Forall_app in Hu. destruct Hu as (F1 & F2 & F3 & F4 & F5).
  rewrite !lower_app. pose proof hex_Encode_lower as Hh.
  rewrite (proj2 (Hh d1 F1)), (proj2 (Hh d2 F2)), (proj2 (Hh d3 F3)), (proj2 (Hh d4 F4)), (proj2 (Hh d5 F5)). split; [|done].
  repeat apply Forall_app_2; try (by apply Hh); by repeat constructor.
Qed.
Lemma UUID_String_inj u v : uuid_ok u -> uuid_ok v -> UUID_String u = UUID_String v -> u = v.
Proof. intros Hu Hv E. apply FromString_String in Hu, Hv. rewrite E, Hv in Hu. by injection Hu. Qed.

(** C37: A text is accepted exactly when it denotes an identifier in one of the forms,
    with digits of either case, and that identifier is the result; printing an
    identifier gives such a text, and its bytes are accepted too. *)
Theorem FromString_spec :
  (forall s u, FromString s = (u, None) <-> uuid_ok u /\ denotes (to_bytes s) u) /\
  (forall u, uuid_ok u -> FromString (UUID_String u) = (u, None) /\ FromBytes (UUID_Bytes u) = (u, None)).
Proof.
  split; [intros; by apply UnmarshalText_spec|]. intros u Hu. split; [by apply FromString_String|].
  destruct Hu as [_ Hl]. unfold FromBytes, UnmarshalBinary, UUID_Bytes. rewrite Hl, bool_decide_true by done. cbn [negb].
  unfold go_copy. change (length Nil_UUID) with 16%nat. by rewrite take_ge, drop_ge, app_nil_r by (cbn; lia).
Qed.

(* ------------------------------------------------------------------ *)
(** * Layout *)

Definition layout (version : Z) (u : UUID) : Prop :=
  length u = Size /\ UUID_Version u = version /\ UUID_Variant u = VariantRFC4122.

Lemma low_bits x k : 0 <= k -> 0 <= Z.land x (Z.ones k) < 2 ^ k.
Proof. intros Hk. rewrite Z.land_ones by done. apply Z.mod_pos_bound. lia. Qed.
Lemma byte_at_insert u i x : (i < length u)%nat -> byte_at (<[i := x]> u) i = x.
Proof. intros Hi. unfold byte_at. rewrite nth_lookup, list_lookup_insert_eq by done. done. Qed.
Lemma byte_at_insert_ne u i j x : i <> j -> byte_at (<[i := x]> u) j = byte_at u j.
Proof. intros Hi. unfold byte_at. rewrite !nth_lookup, list_lookup_insert_ne by done. done. Qed.
Lemma SetVersion_byte v u : 0 <= v < 16 -> (6 < length u)%nat -> byte_at (SetVersion v u) 6 = byte_at u 6 mod 16 + 16 * v.
Proof.
  intros Hv Hl. unfold SetVersion. rewrite byte_at_insert by done.
  unfold wrap_u8. rewrite Z.mod_small by (rewrite Z.shiftl_mul_pow2 by lia; lia).
  change 0x0f with (Z.ones 4). rewrite lor_shift; [|lia|by apply low_bits|lia]. rewrite Z.land_ones by lia. change (2 ^ 4) with 16. lia.
Qed.
Lemma SetVariant_byte u : (8 < length u)%nat -> byte_at (SetVariant VariantRFC4122 u) 8 = byte_at u 8 mod 64 + 128.
Proof.
  intros Hl. unfold SetVariant. rewrite byte_at_insert by done. cbn [Z.eqb VariantRFC4122 VariantNCS Pos.eqb].
  change (Z.shiftr 0xff 2) with (Z.ones 6). rewrite lor_shift; [|lia|by apply low_bits|lia]. rewrite Z.land_ones by lia. change (2 ^ 6) with 64. lia.
Qed.
Lemma set_layout v u : 0 <= v < 16 -> length u = Size -> layout v (SetVariant VariantRFC4122 (SetVersion v u)).
Proof.
  intros Hv Hl. assert (length (SetVersion v u) = Size) as Hl' by (unfold SetVersion; by rewrite length_insert).
  unfold Size in *. split_and!.
  - unfold SetVariant. by rewrite length_insert.
  - unfold UUID_Version, SetVariant. rewrite byte_at_insert_ne, SetVersion_byte by lia. rewrite Z.shiftr_div_pow2 by lia.
    change (2 ^ 4) with 16. pose proof (Z.mod_pos_bound (byte_at u 6) 16 eq_refl).
    rewrite (Z.mul_comm 16), Z.div_add, Z.div_small by lia. lia.
  - unfold UUID_Variant. rewrite SetVariant_byte by lia. rewrite !Z.shiftr_div_pow2 by lia. change (2 ^ 7) with 128. change (2 ^ 6) with 64.
    pose proof (Z.mod_pos_bound (byte_at (SetVersion v u) 8) 64 eq_refl) as Hb. revert Hb.
    generalize (byte_at (SetVersion v u) 8 mod 64) as x. intros x Hx.
    rewrite (Z.div_add x 1 128 ltac:(done) : (x + 128) / 128 = _), (Z.div_add x 2 64 ltac:(done) : (x + 128) / 64 = _).
    by rewrite !Z.div_small by lia.
Qed.

(* ------------------------------------------------------------------ *)
(** * Generated identifiers *)
Section Generated.
Context {W : Type} `{Host W}.
Implicit Types g : rfc4122Generator W.

Lemma NewV1_Ok g u g' : NewV1 g = (Ok u, g') -> exists t s a g1, getClockSequence g = (Ok (t, s), g1) /\
  getHardwareAddr g1 = (Ok a, g') /\
  u = SetVariant VariantRFC4122 (SetVersion V1 (ser 4 (wrap_u32 t) ++ ser 2 (wrap_u16 (Z.shiftr t 32)) ++
        ser 2 (wrap_u16 (Z.shiftr t 48)) ++ ser 2 s ++ go_copy (zeros 6) a)).
Proof.
  unfold NewV1. intros E. apply st_bind_Ok in E as ([t s] & g1 & Hc & E). apply st_bind_Ok in E as (a & g2 & Ha & [= <- <-]).
  exists t, s, a, g1. split_and!; [done|done|reflexivity].
Qed.

(** Every identifier that is generated has 16 bytes, its version and the variant
    of RFC 4122. *)
Theorem generated_layout g g' u ns name :
  (NewV1 g = (Ok u, g') -> layout V1 u) /\ (forall domain, NewV2 domain g = (Ok u, g') -> layout V2 u) /\
  layout V3 (NewV3 ns name) /\ (NewV4 g = (Ok u, g') -> layout V4 u) /\ layout V5 (NewV5 ns name).
Proof.
  assert (forall g u g', NewV1 g = (Ok u, g') -> layout V1 u) as H1.
  { intros g0 u0 g0' (t & s & a & g1 & _ & _ & ->)%NewV1_Ok. apply set_layout; [done|].
    rewrite !length_app, !(proj2 (ser_bytes _ _)), go_copy_length. done. }
  split_and!; [apply H1| | | |].
  - intros domain E. unfold NewV2 in E. st_inv. destruct (H1 _ _ _ Hs) as [Hl _].
    apply set_layout; [done|]. rewrite length_insert.
    destruct (domain =? DomainPerson), (domain =? DomainGroup); cbn [length]; by rewrite ?length_drop, Hl.
  - apply set_layout; [done|]. apply (go_copy_length (zeros Size)).
  - destruct g as [c h t s a w]. unfold NewV4. destruct (ReadFull Size w) as [[bs [e|]] w'] eqn:E; [done|]. intros [= <- _].
    apply set_layout; [done|]. by rewrite go_copy_length.
  - apply set_layout; [done|]. apply (go_copy_length (zeros Size)).
Qed.

(** Reading the time and the clock sequence of an identifier of version 1. *)
Definition time_of (u : UUID) : Z :=
  big_SetBytes (take 4 u) + big_SetBytes (take 2 (drop 4 u)) * 2 ^ 32 + (big_SetBytes (take 2 (drop 6 u)) mod 2 ^ 12) * 2 ^ 48.
Definition seq_of (u : UUID) : Z := big_SetBytes (take 2 (drop 8 u)) mod 2 ^ 14.

Lemma ser_2 k : ser 2 k = [k / 256 mod 256; k mod 256].
Proof. cbn. by rewrite Z.div_1_r. Qed.
Lemma pair_value a b : big_SetBytes [a; b] = a * 256 + b.
Proof. done. Qed.
Lemma V1_parts l4 l2 x6 x7 x8 x9 a : length l4 = 4%nat -> length l2 = 2%nat ->
  let u := SetVariant VariantRFC4122 (SetVersion V1 (l4 ++ l2 ++ [x6; x7] ++ [x8; x9] ++ a)) in
  take 4 u = l4 /\ take 2 (drop 4 u) = l2 /\ take 2 (drop 6 u) = [x6 mod 16 + 16; x7] /\ take 2 (drop 8 u) = [x8 mod 64 + 128; x9].
Proof.
  intros H4 H2. cbv zeta. set (b := l4 ++ l2 ++ [x6; x7] ++ [x8; x9] ++ a).
  assert (8 < length b)%nat as Hl by (unfold b; rewrite !length_app; cbn; lia).
  assert (byte_at b 6 = x6 /\ byte_at b 8 = x8) as [E6 E8].
  { unfold b. do 4 (destruct l4 as [|? l4]; [done|]). destruct l4; [|done]. do 2 (destruct l2 as [|? l2]; [done|]). by destruct l2. }
  assert (SetVersion V1 b = <[6%nat := x6 mod 16 + 16]> b) as ->.
  { pose proof (SetVersion_byte V1 b ltac:(done) ltac:(lia)) as Ev. unfold SetVersion in *. rewrite byte_at_insert in Ev by lia.
    rewrite Ev, E6. done. }
  set (b' := <[6%nat := x6 mod 16 + 16]> b).
  assert (8 < length b')%nat as Hl' by (unfold b'; by rewrite length_insert).
  assert (SetVariant VariantRFC4122 b' = <[8%nat := x8 mod 64 + 128]> b') as ->.
  { pose proof (SetVariant_byte b' Hl') as Ev. unfold SetVariant in *. rewrite byte_at_insert in Ev by lia.
    rewrite Ev. unfold b'. by rewrite byte_at_insert_ne, E8 by done. }
  unfold b', b. do 4 (destruct l4 as [|? l4]; [done|]). destruct l4; [|done]. do 2 (destruct l2 as [|? l2]; [done|]). by destruct l2.
Qed.
Lemma V1_reads t s a : 0 <= t < 2 ^ 60 -> 0 <= s < 2 ^ 16 ->
  let u := SetVariant VariantRFC4122 (SetVersion V1 (ser 4 (wrap_u32 t) ++ ser 2 (wrap_u16 (Z.shiftr t 32)) ++
        ser 2 (wrap_u16 (Z.shiftr t 48)) ++ ser 2 s ++ a)) in
  time_of u = t /\ seq_of u = s mod 2 ^ 14.
Proof.
  intros Ht Hs. cbv zeta. unfold time_of, seq_of. set (x := wrap_u16 (Z.shiftr t 48)). rewrite (ser_2 x), (ser_2 s).
  destruct (V1_parts (ser 4 (wrap_u32 t)) (ser 2 (wrap_u16 (Z.shiftr t 32))) (x / 256 mod 256) (x mod 256) (s / 256 mod 256) (s mod 256) a
    (proj2 (ser_bytes _ _)) (proj2 (ser_bytes _ _))) as (-> & -> & -> & ->).
  rewrite !pair_value, !ser_value. unfold x, wrap_u16, wrap_u32. rewrite !Z.shiftr_div_pow2 by lia.
  change (256 ^ Z.of_nat 4) with 4294967296. change (256 ^ Z.of_nat 2) with 65536. change (2 ^ 32) with 4294967296.
  change (2 ^ 16) with 65536 in *. change (2 ^ 48) with 281474976710656. change (2 ^ 12) with 4096. change (2 ^ 14) with 16384.
  change (2 ^ 60) with 1152921504606846976 in Ht. split; Z.to_euclidean_division_equations; lia.
Qed.

(** [n] identifiers in a row. *)
Fixpoint newV1s (n : nat) : ST (rfc4122Generator W) (list UUID) :=
  match n with O => mret [] | S n => u ← NewV1; us ← newV1s n; mret (u :: us) end.

(** The clock is read before the year 5236, when the time fits its 60 bits, and
    random bytes are bytes. *)
Definition host_ok : Prop :=
  (forall w, 0 <= wrap_u64 (epochStart + wrap_u64 (Z.quot (fst (UnixNano w)) 100)) < 2 ^ 60) /\
  (forall n w bs w', ReadFull n w = (bs, None, w') -> Forall is_uint8 bs /\ length bs = n).

Definition clock_of g : Z * Z := (lastTime g, clockSequence g).
(** The clock of a later call: its sequence is larger by at most [k], or the same
    at a later time. *)
Definition later (k : Z) (c c' : Z * Z) : Prop :=
  exists d, 0 <= d <= k /\ snd c' = (snd c + d) mod 2 ^ 16 /\ (d = 0 -> fst c < fst c').

Lemma later_trans k k' a b c : later k a b -> later k' b c -> later (k + k') a c.
Proof.
  intros (d & Hd & E & Ht) (d' & Hd' & E' & Ht'). exists (d + d'). split; [lia|]. split.
  - rewrite E', E. change (2 ^ 16) with 65536. rewrite Zplus_mod_idemp_l. f_equal. lia.
  - intros ?. specialize (Ht ltac:(lia)). specialize (Ht' ltac:(lia)). lia.
Qed.

Lemma NewV1_clock g u g' : host_ok -> 0 <= clockSequence g < 2 ^ 16 -> NewV1 g = (Ok u, g') ->
  clockSequenceOnce g' = true /\ 0 <= clockSequence g' < 2 ^ 16 /\
  time_of u = lastTime g' /\ seq_of u = clockSequence g' mod 2 ^ 14 /\
  (clockSequenceOnce g = true -> later 1 (clock_of g) (clock_of g')).
Proof.
  intros [Hclock Hread] Hg (t & s & a & g1 & Hc & Ha & ->)%NewV1_Ok.
  assert (clockSequenceOnce g' = clockSequenceOnce g1 /\ lastTime g' = lastTime g1 /\ clockSequence g' = clockSequence g1) as (-> & Et & Es).
  { destruct g1 as [c h t1 s1 a1 w1]. unfold getHardwareAddr in Ha. destruct h; [by injection Ha as <- <-|].
    destruct (HWAddr w1) as [[?|?|?] w2]; [by injection Ha as <- <-| |done].
    destruct (ReadFull 6 w2) as [[? [?|]] ?]; [done|by injection Ha as <- <-]. }
  unfold clock_of. rewrite Et, Es. clear Ha Et Es g'.
  unfold getClockSequence in Hc. apply st_bind_Ok in Hc as ([] & g2 & Hi & Hc). apply st_bind_Ok in Hc as (now & g3 & Hn & Hc).
  assert (clockSequenceOnce g2 = true /\ 0 <= clockSequence g2 < 2 ^ 16 /\ (clockSequenceOnce g = true -> g2 = g)) as (Ho & H16 & Hsame).
  { destruct g as [c h t1 s1 a1 w1]. unfold init_clock in Hi. destruct c; [by injection Hi as <-|].
    destruct (ReadFull 2 w1) as [[bs [?|]] w2] eqn:E; [done|]. injection Hi as <-. destruct (Hread _ _ _ _ E) as [H8 Hl].
    split_and!; [done|..|done]; cbn; pose proof (big_SetBytes_range bs H8) as Hb; rewrite Hl in Hb; change (256 ^ Z.of_nat 2) with (2 ^ 16) in Hb; lia. }
  destruct g2 as [c h t1 s1 a1 w1]. cbn in Ho, H16. subst c. unfold getEpoch in Hn.
  pose proof (Hclock w1) as H60. destruct (UnixNano w1) as [n w2]. injection Hn as <- <-. cbn [fst] in H60.
  set (now := wrap_u64 _) in *. unfold next_clock in Hc. injection Hc as <- <- <-. cbn [clockSequenceOnce clockSequence lastTime].
  assert (0 <= (if now <=? t1 then wrap_u16 (s1 + 1) else s1) < 2 ^ 16) as Hs
    by (destruct (now <=? t1); [apply Z.mod_pos_bound|]; lia).
  destruct (V1_reads now _ (go_copy (zeros 6) a) H60 Hs) as [-> ->]. split_and!; try done; try lia.
  intros Hg1. specialize (Hsame Hg1). subst g. cbn. destruct (Z.leb_spec now t1) as [Hle|Hlt].
  - exists 1. split; [lia|]. split; [done|lia].
  - exists 0. split; [lia|]. cbn. rewrite Z.add_0_r, Z.mod_small by done. split; [done|lia].
Qed.

Lemma later_distinct k c c' : later k c c' -> k < 2 ^ 14 -> ~ (fst c' = fst c /\ snd c' mod 2 ^ 14 = snd c mod 2 ^ 14).
Proof.
  intros (d & Hd & E & Ht) Hk [Et Es]. rewrite E in Es. change (2 ^ 16) with 65536 in *. change (2 ^ 14) with 16384 in *.
  destruct (decide (d = 0)) as [->|]; [lia|]. Z.to_euclidean_division_equations. lia.
Qed.
Lemma newV1s_later n g us g' : host_ok -> 0 <= clockSequence g < 2 ^ 16 -> clockSequenceOnce g = true -> newV1s n g = (Ok us, g') ->
  Forall (fun u => exists c, later (Z.of_nat n) (clock_of g) c /\ time_of u = fst c /\ seq_of u = snd c mod 2 ^ 14) us.
Proof.
  intros Hh. revert g us. induction n as [|n IH]; intros g us Hg Ho E; cbn [newV1s] in E; [by injection E as <- _|].
  apply st_bind_Ok in E as (u & g1 & E1 & E). apply st_bind_Ok in E as (us' & g2 & E2 & [= <- ->]).
  destruct (NewV1_clock g u g1 Hh Hg E1) as (Ho1 & Hg1 & Et & Es & Hl). specialize (Hl Ho).
  constructor.
  - exists (clock_of g1). split; [|done]. destruct Hl as (d & Hd & Hl). exists d. split; [lia|done].
  - eapply Forall_impl; [exact (IH g1 us' Hg1 Ho1 E2)|]. intros u' (c & Hc & Hu').
    exists c. split; [|done]. rewrite Nat2Z.inj_succ, <-Z.add_1_l. by eapply later_trans.
Qed.

Lemma newV1s_distinct n g us g' : host_ok -> 0 <= clockSequence g < 2 ^ 16 -> Z.of_nat n <= 2 ^ 14 ->
  newV1s n g = (Ok us, g') -> NoDup us.
Proof.
  intros Hh. revert g us. induction n as [|n IH]; intros g us Hg Hn E; cbn [newV1s] in E; [injection E as <- _; constructor|].
  apply st_bind_Ok in E as (u & g1 & E1 & E). apply st_bind_Ok in E as (us' & g2 & E2 & [= <- ->]).
  destruct (NewV1_clock g u g1 Hh Hg E1) as (Ho1 & Hg1 & Et & Es & _). constructor; [|apply (IH g1); [done|lia|done]].
  intros Hin. pose proof (newV1s_later n g1 us' g' Hh Hg1 Ho1 E2) as Hl. rewrite Forall_forall in Hl.
  destruct (Hl u Hin) as (c & Hc & Ht & Hs). apply (later_distinct _ _ _ Hc); [lia|]. unfold clock_of. cbn [fst snd].
  by rewrite <-Ht, <-Et, <-Hs, <-Es.
Qed.

(** The host's hardware addresses are bytes. *)
Definition hw_ok : Prop := forall w a w', HWAddr w = (Ok a, w') -> Forall is_uint8 a.
Lemma set_bytes v u : 0 <= v < 16 -> Forall is_uint8 u -> (8 < length u)%nat -> Forall is_uint8 (SetVariant VariantRFC4122 (SetVersion v u)).
Proof.
  intros Hv Hu Hl. pose proof (SetVersion_byte v u Hv ltac:(lia)) as E6. unfold SetVersion in E6. rewrite byte_at_insert in E6 by lia.
  assert (Forall is_uint8 (SetVersion v u) /\ (8 < length (SetVersion v u))%nat) as [Hu' Hl'].
  { unfold SetVersion. split; [|by rewrite length_insert]. apply Forall_insert; [done|]. rewrite E6. unfold is_uint8.
    pose proof (Z.mod_pos_bound (byte_at u 6) 16). lia. }
  pose proof (SetVariant_byte (SetVersion v u) Hl') as E8. unfold SetVariant in *. cbn [Z.eqb Pos.eqb VariantNCS VariantRFC4122] in *.
  apply Forall_insert; [done|]. rewrite byte_at_insert in E8 by done. rewrite E8. unfold is_uint8.
  pose proof (Z.mod_pos_bound (byte_at (SetVersion v u) 8) 64). lia.
Qed.
Lemma go_copy_bytes (d b : bytes) : Forall is_uint8 d -> Forall is_uint8 b -> Forall is_uint8 (go_copy d b).
Proof. intros. unfold go_copy. apply Forall_app_2; [by apply Forall_take|by apply Forall_drop]. Qed.
Lemma NewV1_bytes g u g' : host_ok -> hw_ok -> Forall is_uint8 (hardwareAddr g) -> NewV1 g = (Ok u, g') ->
  uuid_ok u /\ Forall is_uint8 (hardwareAddr g').
Proof.
  intros [_ Hread] Hhw Hg (t & s & a & g1 & Hc & Ha & ->)%NewV1_Ok.
  assert (hardwareAddr g1 = hardwareAddr g) as E1.
  { unfold getClockSequence in Hc. apply st_bind_Ok in Hc as ([] & g2 & H1 & Hc). apply st_bind_Ok in Hc as (now & g3 & H2 & Hc).
    destruct g as [c h t0 s0 a0 w0]. unfold init_clock in H1.
    destruct c; [|destruct (ReadFull 2 w0) as [[? [?|]] ?]; [done|]];
      (injection H1 as <-; unfold getEpoch in H2; destruct (UnixNano _); injection H2 as <- <-; by injection Hc as <- <- <-). }
  rewrite <-E1 in Hg. assert (Forall is_uint8 a /\ Forall is_uint8 (hardwareAddr g')) as [Ha8 Hg'].
  { destruct g1 as [c h t1 s1 a1 w1]. cbn in Hg. unfold getHardwareAddr in Ha. destruct h; [by injection Ha as <- <-|].
    destruct (HWAddr w1) as [[hw|?|?] w2] eqn:E; [| |done].
    - injection Ha as <- <-. cbn. split; apply go_copy_bytes; try done; by eapply Hhw.
    - destruct (ReadFull 6 w2) as [[bs [?|]] w3] eqn:E2; [done|]. destruct (Hread _ _ _ _ E2) as [H8 Hl].
      assert (Forall is_uint8 (<[0%nat:=Z.lor (byte_at (go_copy a1 bs) 0) 1]> (go_copy a1 bs))) as Hf.
      { pose proof (go_copy_bytes a1 bs Hg H8) as Hb. apply Forall_insert; [done|]. unfold byte_at.
        destruct (go_copy a1 bs) as [|x l]; [by vm_compute|]. apply Forall_cons in Hb as [Hx _]. cbn [nth]. unfold is_uint8 in *.
        split; [apply Z.lor_nonneg; lia|]. destruct (Z.eq_dec (Z.lor x 1) 0) as [->|Hne]; [lia|].
        apply Z.log2_lt_pow2; [assert (0 <= Z.lor x 1) by (apply Z.lor_nonneg; lia); lia|].
        rewrite Z.log2_lor by lia. apply Z.max_lub_lt; [|by vm_compute].
        destruct (Z.eq_dec x 0) as [->|]; [by vm_compute|]. apply Z.log2_lt_pow2; lia. }
      by injection Ha as <- <-. }
  split; [|done]. split.
  - apply set_bytes; [done| |rewrite !length_app, !(proj2 (ser_bytes _ _)), go_copy_length; cbn; lia].
    do 4 (apply Forall_app_2; [apply ser_bytes|]). apply go_copy_bytes; [apply Forall_replicate; by vm_compute|done].
  - assert (layout V1 (SetVariant VariantRFC4122 (SetVersion V1 (ser 4 (wrap_u32 t) ++ ser 2 (wrap_u16 (Z.shiftr t 32)) ++
      ser 2 (wrap_u16 (Z.shiftr t 48)) ++ ser 2 s ++ go_copy (zeros 6) a)))) as [Hl _]; [|exact Hl].
    apply set_layout; [done|]. rewrite !length_app, !(proj2 (ser_bytes _ _)), go_copy_length. done.
Qed.
Lemma newV1s_bytes n g us g' : host_ok -> hw_ok -> Forall is_uint8 (hardwareAddr g) -> newV1s n g = (Ok us, g') -> Forall uuid_ok us.
Proof.
  intros Hh Hw. revert g us. induction n as [|n IH]; intros g us Hg E; cbn [newV1s] in E; [injection E as <- _; constructor|].
  apply st_bind_Ok in E as (u & g1 & E1 & E). apply st_bind_Ok in E as (us' & g2 & E2 & [= <- ->]).
  destruct (NewV1_bytes g u g1 Hh Hw Hg E1) as [Hu Hg1]. constructor; [done|]. by eapply IH.
Qed.

(** Up to [2^14] identifiers of version 1 that a generator makes in a row are
    distinct, however its clock runs. *)
Theorem NewV1_unique n g us g' : host_ok -> 0 <= clockSequence g < 2 ^ 16 -> Z.of_nat n <= 2 ^ 14 ->
  newV1s n g = (Ok us, g') -> NoDup us.
Proof. apply newV1s_distinct. Qed.

(** The error of the random reader is only reported once: the generator then
    goes on with a clock sequence that was never chosen. *)
Theorem once_error_forgotten w e bs w' : ReadFull 2 w = (bs, Some e, w') ->
  exists g', NewV1 (newRFC4122Generator w) = (Err e, g') /\ clockSequence g' = 0 /\
    fst (getClockSequence g') = Ok (wrap_u64 (epochStart + wrap_u64 (Z.quot (fst (UnixNano w')) 100)),
      if wrap_u64 (epochStart + wrap_u64 (Z.quot (fst (UnixNano w')) 100)) <=? 0 then 1 else 0).
Proof.
  intros E. eexists. split; [|split].
  - unfold NewV1, getClockSequence, mbind, st_bind, init_clock, newRFC4122Generator. by rewrite E.
  - done.
  - unfold getClockSequence, mbind, st_bind, init_clock, getEpoch. by destruct (UnixNano w').
Qed.
End Generated.

(* ------------------------------------------------------------------ *)
(** * Runs *)

Lemma uuid_error_forms :
  snd (FromString "{6ba7b8109dad11d180b400c04fd430c8}") = Some incorrect_length /\
  NamespaceDNS = Ok (fst (FromString "6BA7B8109DAD11D180B400C04FD430C8")) /\ is_ok NamespaceURL = true /\ is_ok NamespaceOID = true /\
  is_ok NamespaceX500 = true.
Proof. vm_compute. done. Qed.

(** A host whose clock stands still. *)
#[local] Instance toy_host : Host nat := {|
  ReadFull n w := (replicate n 7, None, S w); UnixNano w := (5, w); HWAddr w := (Err "no HW address found", w);
  md5_Sum x := zeros 16; sha1_Sum x := zeros 20; posixUID := 0; posixGID := 0 |}.
Lemma toy_host_ok : host_ok (W := nat).
Proof.
  split; [intros w; by vm_compute|]. intros n w bs w' [= <- _]. rewrite length_replicate. split; [|done].
  by apply Forall_replicate.
Qed.
Lemma NewV1_unique_witness : exists us g', newV1s 3 (newRFC4122Generator 0%nat) = (Ok us, g') /\ length us = 3%nat /\ NoDup us.
Proof.
  destruct (newV1s 3 (newRFC4122Generator 0%nat)) as [[us|e|p] g'] eqn:E; [|vm_compute in E; discriminate E..].
  exists us, g'. split; [done|]. split.
  - assert (is_ok (fst (newV1s 3 (newRFC4122Generator 0%nat))) = true) by (vm_compute; reflexivity).
    vm_compute in E. by injection E as <- _.
  - apply (NewV1_unique 3 (newRFC4122Generator 0%nat) us g' toy_host_ok); [by vm_compute|by vm_compute|exact E].
Defined.
