(* ===== verification/Curve.v ===== *)
(** The curve arithmetic of [crypto/keys/secp256k1/internal/secp256k1/curve.go].

    Points are pairs of integers, which the code keeps reduced modulo the prime
    of the field; the specification uses the field of the integers modulo that
    prime.  The multiplication by scalars is done by the C library, the
    parameter [ext_scalar_mul]; words have 64 bits. *)
From S2P Require Import Prelude GoStrings Keys.
From Stdlib Require Import Zmod Zdivisibility.

Record BitCurve := MkBitCurve { bc_P : Z; bc_N : Z; bc_B : Z; bc_Gx : Z; bc_Gy : Z; bc_BitSize : Z }.

Definition wordBits : Z := 64.
Definition wordBytes : nat := 8.

(** [big.Int.Bits]: the words of the absolute value, the lowest first. *)
Fixpoint words (fuel : nat) (z : Z) : list Z :=
  match fuel with
  | O => []
  | S fuel => if z =? 0 then [] else z mod 2 ^ wordBits :: words fuel (z / 2 ^ wordBits)
  end.
Definition big_Bits (z : Z) : list Z := words (Z.to_nat (BitLen z)) (Z.abs z).

(** The inner loop writes the [j] lowest bytes of [d] below [i]. *)
Fixpoint put_word (j : nat) (d : Z) (buf : bytes) (i : nat) : bytes * nat :=
  match j, i with
  | S j, S i => put_word j (Z.shiftr d 8) (<[i := wrap_u8 d]> buf) i
  | _, _ => (buf, i)
  end.
Fixpoint put_words (ds : list Z) (buf : bytes) (i : nat) : bytes :=
  match ds with
  | [] => buf
  | d :: ds => let '(buf, i) := put_word wordBytes d buf i in put_words ds buf i
  end.
Definition readBits (bigint : Z) (buf : bytes) : bytes := put_words (big_Bits bigint) buf (length buf).

(** [big.Int.ModInverse]: nil when there is no inverse. *)
Definition ModInverse (g n : Z) : option Z := if Z.gcd g n =? 1 then Some (Z.invmod g n) else None.

Section Curve.
Variable BitCurve : BitCurve.
Abbreviation P := (bc_P BitCurve).

Definition IsOnCurve (x y : Z) : bool :=
  let y2 := y * y in
  let y2 := y2 mod P in
  let x3 := x * x in
  let x3 := x3 * x in
  let x3 := x3 + bc_B BitCurve in
  let x3 := x3 mod P in
  Cmp x3 y2 =? 0.

Definition affineFromJacobian (j : Z * Z * Z) : res (Z * Z) :=
  let '(x, y, z) := j in
  zinv ← deref (ModInverse z P);
  let zinvsq := zinv * zinv in
  let xOut := x * zinvsq in
  let xOut := xOut mod P in
  let zinvsq := zinvsq * zinv in
  let yOut := y * zinvsq in
  let yOut := yOut mod P in
  Ok (xOut, yOut).

Definition add_P_if_negative (h : Z) : Z := if Sign h =? -1 then h + P else h.
Definition addJacobian (x1 y1 z1 x2 y2 z2 : Z) : Z * Z * Z :=
  let z1z1 := (z1 * z1) mod P in
  let z2z2 := (z2 * z2) mod P in
  let u1 := (x1 * z2z2) mod P in
  let u2 := (x2 * z1z1) mod P in
  let h := add_P_if_negative (u2 - u1) in
  let i := Z.shiftl h 1 in
  let i := i * i in
  let j := h * i in
  let s1 := (y1 * z2 * z2z2) mod P in
  let s2 := (y2 * z1 * z1z1) mod P in
  let r := add_P_if_negative (s2 - s1) in
  let r := Z.shiftl r 1 in
  let v := u1 * i in
  let x3 := (r * r - j - v - v) mod P in
  let v := v - x3 in
  let s1 := Z.shiftl (s1 * j) 1 in
  let y3 := (r * v - s1) mod P in
  let z3 := z1 + z2 in
  let z3 := z3 * z3 in
  let z3 := add_P_if_negative (z3 - z1z1) in
  let z3 := add_P_if_negative (z3 - z2z2) in
  let z3 := (z3 * h) mod P in
  (x3, y3, z3).
Definition Add (x1 y1 x2 y2 : Z) : res (Z * Z) := affineFromJacobian (addJacobian x1 y1 1 x2 y2 1).

Definition doubleJacobian (x y z : Z) : Z * Z * Z :=
  let a := x * x in
  let b := y * y in
  let c := b * b in
  let d := x + b in
  let d := d * d in
  let d := d - a in
  let d := d - c in
  let d := d * 2 in
  let e := 3 * a in
  let f := e * e in
  let x3 := 2 * d in
  let x3 := f - x3 in
  let x3 := x3 mod P in
  let y3 := d - x3 in
  let y3 := e * y3 in
  let y3 := y3 - 8 * c in
  let y3 := y3 mod P in
  let z3 := y * z in
  let z3 := 2 * z3 in
  let z3 := z3 mod P in
  (x3, y3, z3).
Definition Double (x1 y1 : Z) : res (Z * Z) := affineFromJacobian (doubleJacobian x1 y1 1).

(** The C function updates the 64 bytes of the point; the nil pair is [None]. *)
Variable ext_scalar_mul : bytes -> bytes -> Z * bytes.
Definition ScalarMult (Bx By : Z) (scalar : bytes) : res (option (Z * Z)) :=
  if 32 <? len scalar then Panic "can't handle scalars > 256 bits" else
  let padded := take (32 - length scalar) (zeros 32) ++ scalar in
  let point := readBits Bx (zeros 32) ++ readBits By (zeros 32) in
  let '(r, point) := ext_scalar_mul point padded in
  let x := big_SetBytes (take 32 point) in
  let y := big_SetBytes (drop 32 point) in
  if negb (r =? 1) then Ok None else Ok (Some (x, y)).
Definition ScalarBaseMult (k : bytes) : res (option (Z * Z)) := ScalarMult (bc_Gx BitCurve) (bc_Gy BitCurve) k.

Definition byteLen : nat := Z.to_nat (Z.shiftr (bc_BitSize BitCurve + 7) 3).
Definition Marshal (x y : Z) : bytes := [4] ++ readBits x (zeros byteLen) ++ readBits y (zeros byteLen).
(** The pair of nils is [None]. *)
Definition Unmarshal (data : bytes) : option (Z * Z) :=
  if negb (bool_decide (length data = 1 + 2 * byteLen)%nat) then None else
  if negb (nth 0 data 0 =? 4) then None else
  Some (big_SetBytes (take byteLen (drop 1 data)), big_SetBytes (drop (1 + byteLen) data)).
End Curve.

Definition theCurve : BitCurve := {|
  bc_P := 0xFFFFFFFFFFFFFFFFFFFFFFFFFFFFFFFFFFFFFFFFFFFFFFFFFFFFFFFEFFFFFC2F;
  bc_N := 0xFFFFFFFFFFFFFFFFFFFFFFFFFFFFFFFEBAAEDCE6AF48A03BBFD25E8CD0364141;
  bc_B := 0x0000000000000000000000000000000000000000000000000000000000000007;
  bc_Gx := 0x79BE667EF9DCBBAC55A06295CE870B07029BFCDB2DCE28D959F2815B16F81798;
  bc_Gy := 0x483ADA7726A3C4655DA4FBFC0E1108A8FD17B448A68554199C47D08FFB10D4B8;
  bc_BitSize := 256 |}.
Definition S256 : BitCurve := theCurve.

(* ------------------------------------------------------------------ *)
(** * The curve over the field *)
Section Field.
Variable p : Z.
Hypothesis Hp : Z.prime p.
Hypothesis Hodd : 2 < p.
Abbreviation F := (Zmod p).
Local Infix "+" := Zmod.add.
Local Infix "-" := Zmod.sub.
Local Infix "*" := Zmod.mul.
Abbreviation el := (Zmod.of_Z p).

(** The curve [y^2 = x^3 + b], the chord through two points and the tangent at
    one: their third point on the curve, mirrored. *)
Definition on_curve (b : F) (q : F * F) : Prop := let '(x, y) := q in y * y = x * x * x + b.
Definition third (l x1 y1 x2 : F) : F * F := let x3 := l * l - x1 - x2 in (x3, l * (x1 - x3) - y1).
Definition chord (q1 q2 : F * F) : F * F :=
  let '(x1, y1) := q1 in let '(x2, y2) := q2 in third (Zmod.mdiv (y2 - y1) (x2 - x1)) x1 y1 x2.
Definition tangent (q : F * F) : F * F := let '(x, y) := q in third (Zmod.mdiv (el 3 * x * x) (el 2 * y)) x y x.

Add Ring field_ring : (@Zmod.ring_theory p).
Lemma two_eq : el 2 = Zmod.one + Zmod.one.
Proof. change 2%Z with (1 + 1)%Z. by rewrite Zmod.of_Z_add, Zmod.of_Z_1. Qed.
Lemma three_eq : el 3 = Zmod.one + Zmod.one + Zmod.one.
Proof. change 3%Z with (1 + 1 + 1)%Z. by rewrite !Zmod.of_Z_add, Zmod.of_Z_1. Qed.
Lemma two_nz : el 2 <> Zmod.zero.
Proof. apply Zmod.of_Z_nz. rewrite Z.mod_small; lia. Qed.
Lemma sub_nz (a b : F) : a <> b -> b - a <> Zmod.zero.
Proof. intros Hne E. apply Hne. transitivity (b - (b - a)); [ring|]. rewrite E. ring. Qed.
Lemma mdiv_eq (a b : F) : b <> Zmod.zero -> Zmod.mdiv a b * b = a.
Proof.
  intros Hb. rewrite <-Zmod.mul_inv_r. transitivity (a * (Zmod.inv b * b)); [ring|].
  rewrite (Zmod.mul_inv_same_l_prime b Hp Hb). ring.
Qed.

Lemma third_chord b l x1 y1 x2 y2 : on_curve b (x1, y1) -> on_curve b (x2, y2) -> x1 <> x2 -> l * (x2 - x1) = y2 - y1 ->
  on_curve b (third l x1 y1 x2).
Proof.
  intros H1 H2 Hne Hl. cbn in *. apply (Zmod.mul_cancel_l_prime (x2 - x1) _ _ Hp (sub_nz _ _ Hne)).
  set (x3 := l * l - x1 - x2).
  assert ((x2 - x1) * (x3 * x3 * x3 + b - (l * (x1 - x3) - y1) * (l * (x1 - x3) - y1)) =
    (x1 * x1 * x1 + b - y1 * y1) * (x2 - x3) +
    (x2 * x2 * x2 + b - (l * (x2 - x1) + y1) * (l * (x2 - x1) + y1)) * (x3 - x1)) as E by (unfold x3; ring).
  assert (x2 * x2 * x2 + b = y2 * y2) as H2' by done. rewrite Hl, H1, H2' in E.
  revert E. generalize (x3 * x3 * x3 + b). intros v. generalize ((l * (x1 - x3) - y1) * (l * (x1 - x3) - y1)). intros w E.
  transitivity ((x2 - x1) * v - (x2 - x1) * (v - w)); [ring|]. rewrite E. ring.
Qed.
Lemma chord_on_curve b q1 q2 : on_curve b q1 -> on_curve b q2 -> fst q1 <> fst q2 -> on_curve b (chord q1 q2).
Proof.
  destruct q1 as [x1 y1], q2 as [x2 y2]. cbn [fst]. intros H1 H2 Hne. eapply third_chord; [done|exact H2|done|].
  apply mdiv_eq, sub_nz, Hne.
Qed.
Lemma tangent_on_curve b q : on_curve b q -> snd q <> Zmod.zero -> on_curve b (tangent q).
Proof.
  destruct q as [x y]. cbn [snd]. intros H1 Hne. unfold tangent.
  assert (el 2 * y <> Zmod.zero) as Hy by (intros [E|E]%(Zmod.mul_0_iff_prime Hp); [by apply two_nz|done]).
  pose proof (mdiv_eq (el 3 * x * x) _ Hy) as Hl. revert Hl. generalize (Zmod.mdiv (el 3 * x * x) (el 2 * y)) as l. intros l Hl.
  cbn in *. set (x3 := l * l - x - x).
  assert (x3 * x3 * x3 + b - (l * (x - x3) - y) * (l * (x - x3) - y) = (x * x * x + b - y * y) + (x3 - x) * (el 3 * x * x - l * (el 2 * y))) as E
    by (unfold x3; rewrite two_eq, three_eq; ring).
  rewrite Hl, H1 in E. revert E. generalize (x3 * x3 * x3 + b). intros v.
  generalize ((l * (x - x3) - y) * (l * (x - x3) - y)). intros w E. transitivity (v - (v - w)); [ring|]. rewrite E. ring.
Qed.
End Field.

(* ------------------------------------------------------------------ *)
(** * Jacobian coordinates *)
Section Jacobian.
Variable c : BitCurve.
Abbreviation p := (bc_P c).
Hypothesis Hp : Z.prime p.
Hypothesis Hodd : 2 < p.
Abbreviation F := (Zmod p).
Abbreviation el := (Zmod.of_Z p).
Local Infix "+" := Zmod.add.
Local Infix "-" := Zmod.sub.
Local Infix "*" := Zmod.mul.
Add Ring field_ring' : (@Zmod.ring_theory p).

(** The point that Jacobian coordinates stand for. *)
Definition represents (j : Z * Z * Z) (q : F * F) : Prop :=
  let '(x, y, z) := j in el z <> Zmod.zero /\ el x = fst q * el z * el z /\ el y = snd q * el z * el z * el z.

Lemma el_shift h : el (Z.shiftl h 1) = el 2 * el h.
Proof. rewrite Z.shiftl_mul_pow2 by done. rewrite Zmod.of_Z_mul. change (2 ^ 1)%Z with 2%Z. ring. Qed.
Lemma el_add_P h : el (add_P_if_negative c h) = el h.
Proof.
  unfold add_P_if_negative. destruct (Sign h =? -1)%Z; [|done].
  apply Zmod.of_Z_inj. rewrite <-(Z.mul_1_l p) at 1. by rewrite Z.mod_add by lia.
Qed.
Ltac push := rewrite ?Zmod.of_Z_mod, ?el_shift, ?el_add_P, ?Zmod.of_Z_mod, ?Zmod.of_Z_mul, ?Zmod.of_Z_add, ?Zmod.of_Z_sub.
Lemma prime_nz (a b : F) : a <> Zmod.zero -> b <> Zmod.zero -> a * b <> Zmod.zero.
Proof. intros Ha Hb [E|E]%(Zmod.mul_0_iff_prime Hp); done. Qed.

Lemma addJacobian_chord x1 y1 z1 x2 y2 z2 q1 q2 : represents (x1, y1, z1) q1 -> represents (x2, y2, z2) q2 -> fst q1 <> fst q2 ->
  represents (addJacobian c x1 y1 z1 x2 y2 z2) (chord p q1 q2).
Proof.
  destruct q1 as [X1 Y1], q2 as [X2 Y2]. intros (Hz1 & Ex1 & Ey1) (Hz2 & Ex2 & Ey2) Hne. cbn [fst snd] in *.
  pose proof (sub_nz p _ _ Hne) as Hd. pose proof (mdiv_eq p Hp (Y2 - Y1) (X2 - X1) Hd) as Hl.
  unfold chord. revert Hl. generalize (Zmod.mdiv (Y2 - Y1) (X2 - X1)). intros l Hl.
  assert (Y2 = Y1 + l * (X2 - X1)) as EY by (rewrite Hl; ring).
  unfold represents, addJacobian, third. cbn [fst snd]. repeat push. rewrite Ex1, Ey1, Ex2, Ey2, EY.
  rewrite !two_eq.
  generalize dependent (el z1). intros w1 Hz1 _ _. generalize dependent (el z2). intros w2 Hz2 _ _.
  assert (forall a b : F, a = b -> b <> Zmod.zero -> a <> Zmod.zero) as Hnz by (by intros ? ? ->).
  split_and!.
  - eapply (Hnz _ (el 2 * w1 * w2 * (w1 * w1 * w2 * w2 * (X2 - X1)))); [rewrite two_eq; ring|].
    repeat apply prime_nz; try done. by apply two_nz.
  - ring.
  - ring.
Qed.

Lemma doubleJacobian_tangent x y z q : represents (x, y, z) q -> snd q <> Zmod.zero -> represents (doubleJacobian c x y z) (tangent p q).
Proof.
  destruct q as [X Y]. intros (Hz & Ex & Ey) Hne. cbn [fst snd] in *.
  pose proof (two_nz p Hodd) as H2. pose proof (mdiv_eq p Hp (el 3 * X * X) (el 2 * Y) (prime_nz _ _ H2 Hne)) as Hl.
  unfold tangent. revert Hl. generalize (Zmod.mdiv (el 3 * X * X) (el 2 * Y)). intros l Hl.
  unfold represents, doubleJacobian, third. cbn [fst snd]. repeat push. rewrite Ex, Ey.
  change (el 8) with (el (2 * 2 * 2)). rewrite !Zmod.of_Z_mul.
  generalize dependent (el z). intros w Hz _ _.
  assert (el 3 * (X * w * w * (X * w * w)) = l * (el 2 * Y) * (w * w * w * w)) as E3 by (rewrite Hl; ring).
  rewrite E3, !two_eq. split_and!.
  - intros E. apply (prime_nz (el 2 * Y) (w * w * w * w)); [by apply prime_nz|by repeat apply prime_nz|].
    rewrite <-E, two_eq. ring.
  - ring.
  - ring.
Qed.
Lemma affineFromJacobian_represents j q : represents j q -> affineFromJacobian c j = Ok (Zmod.to_Z (fst q), Zmod.to_Z (snd q)).
Proof.
  destruct j as [[x y] z], q as [X Y]. intros (Hz & Ex & Ey). cbn [fst snd] in *.
  assert (z mod p <> 0)%Z as Hz0 by (intros E; apply Hz; rewrite <-Zmod.of_Z_mod, E; apply Zmod.of_Z_0).
  pose proof (Z.invmod_prime z p Hp Hz0) as Hi.
  assert (Z.gcd z p = 1)%Z as Hg.
  { rewrite Z.gcd_comm. apply Z.coprime_prime_l; [done|]. intros Hdiv. by apply Hz0, Z.mod_divide; [lia|]. }
  unfold affineFromJacobian, ModInverse. rewrite Hg. cbn [Z.eqb Pos.eqb deref mbind res_bind].
  assert (el (Z.invmod z p) * el z = Zmod.one) as Ei.
  { rewrite <-Zmod.of_Z_mul, <-Zmod.of_Z_1. apply Zmod.of_Z_inj. rewrite Hi. symmetry. apply Z.mod_small. lia. }
  do 2 f_equal.
  - rewrite <-Zmod.unsigned_of_Z. f_equal. push. rewrite Ex.
    transitivity (X * (el (Z.invmod z p) * el z) * (el (Z.invmod z p) * el z)); [ring|]. rewrite Ei. ring.
  - rewrite <-Zmod.unsigned_of_Z. f_equal. push. rewrite Ey.
    transitivity (Y * (el (Z.invmod z p) * el z) * (el (Z.invmod z p) * el z) * (el (Z.invmod z p) * el z)); [ring|]. rewrite Ei. ring.
Qed.

Lemma IsOnCurve_spec x y : IsOnCurve c x y = true <-> on_curve p (el (bc_B c)) (el x, el y).
Proof.
  unfold IsOnCurve, on_curve, Cmp. rewrite Z.eqb_eq, <-!Zmod.of_Z_mul, <-Zmod.of_Z_add, Zmod.of_Z_inj.
  cbv zeta.
  match goal with |- context [Z.compare ?a ?b] => destruct (Z.compare_spec a b) as [E|E|E] end; (split; [try discriminate|]).
  - intros _. by symmetry.
  - done.
  - intros E'. rewrite E' in E. by apply Z.lt_irrefl in E.
  - intros E'. rewrite E' in E. by apply Z.lt_irrefl in E.
Qed.
Lemma represents_affine x y : represents (x, y, 1%Z) (el x, el y).
Proof.
  unfold represents. cbn [fst snd]. rewrite Zmod.of_Z_1. split_and!; [|ring..]. rewrite <-Zmod.of_Z_1.
  apply Zmod.of_Z_nz. rewrite Z.mod_small; lia.
Qed.
(** Coordinates whose third one vanishes stand for no point: the inverse is nil. *)
Lemma affineFromJacobian_zero x y z : el z = Zmod.zero -> (0 <= z < p)%Z -> affineFromJacobian c (x, y, z) = Panic nil_deref.
Proof.
  intros E Hz. rewrite <-Zmod.of_Z_0 in E. apply Zmod.of_Z_inj in E. rewrite Z.mod_small, Z.mod_0_l in E by lia. subst z.
  unfold affineFromJacobian, ModInverse. rewrite Z.gcd_0_l, Z.abs_eq by lia. by destruct (Z.eqb_spec p 1); [lia|].
Qed.
Lemma addJacobian_z x1 y1 x2 y2 : exists x3 y3 z3, addJacobian c x1 y1 1 x2 y2 1 = (x3, y3, z3) /\ (0 <= z3 < p)%Z /\
  el z3 = el 2 * (el x2 - el x1).
Proof.
  eexists _, _, _. split; [reflexivity|]. split; [apply Z.mod_pos_bound; lia|].
  repeat push. rewrite Zmod.of_Z_1, two_eq. ring.
Qed.
Lemma doubleJacobian_z x y : exists x3 y3 z3, doubleJacobian c x y 1 = (x3, y3, z3) /\ (0 <= z3 < p)%Z /\ el z3 = el 2 * el y.
Proof.
  eexists _, _, _. split; [reflexivity|]. split; [apply Z.mod_pos_bound; lia|]. repeat push. rewrite Zmod.of_Z_1. ring.
Qed.
Lemma affine_answer j q b : represents j q -> on_curve p (el (bc_B c)) q -> b = affineFromJacobian c j ->
  exists x y, b = Ok (x, y) /\ (el x, el y) = q /\ (0 <= x < p)%Z /\ (0 <= y < p)%Z /\ IsOnCurve c x y = true.
Proof.
  intros Hr Hq ->. rewrite (affineFromJacobian_represents j q Hr). destruct q as [X Y]. eexists _, _. split; [reflexivity|].
  cbn [fst snd]. rewrite IsOnCurve_spec, !Zmod.of_Z_unsigned. pose proof (Zmod.unsigned_pos_bound X). pose proof (Zmod.unsigned_pos_bound Y).
  split_and!; try done; lia.
Qed.

(** C19: Adding two points of the curve with different first coordinates gives the
    mirrored third point of their chord, reduced and on the curve; doubling one
    that is not its own mirror image gives that of its tangent.  Otherwise, also
    when a point is added to itself or to its mirror image, the code panics.
    The sum does not depend on how the coordinates were reduced. *)
Theorem curve_addition x1 y1 x2 y2 :
  (IsOnCurve c x1 y1 = true -> IsOnCurve c x2 y2 = true -> el x1 <> el x2 ->
   exists x y, Add c x1 y1 x2 y2 = Ok (x, y) /\ (el x, el y) = chord p (el x1, el y1) (el x2, el y2) /\
     (0 <= x < p)%Z /\ (0 <= y < p)%Z /\ IsOnCurve c x y = true) /\
  (el x1 = el x2 -> Add c x1 y1 x2 y2 = Panic nil_deref) /\
  (IsOnCurve c x1 y1 = true -> el y1 <> Zmod.zero ->
   exists x y, Double c x1 y1 = Ok (x, y) /\ (el x, el y) = tangent p (el x1, el y1) /\
     (0 <= x < p)%Z /\ (0 <= y < p)%Z /\ IsOnCurve c x y = true) /\
  (el y1 = Zmod.zero -> Double c x1 y1 = Panic nil_deref).
Proof.
  unfold Add, Double. split_and!.
  - intros H1%IsOnCurve_spec H2%IsOnCurve_spec Hne. eapply affine_answer; [|by eapply chord_on_curve|reflexivity].
    by apply addJacobian_chord; [apply represents_affine..|].
  - intros E. destruct (addJacobian_z x1 y1 x2 y2) as (x & y & z & -> & Hz & Ez). apply affineFromJacobian_zero; [|done].
    rewrite Ez, E. ring.
  - intros H1%IsOnCurve_spec Hne. eapply affine_answer; [|by eapply tangent_on_curve|reflexivity].
    by apply doubleJacobian_tangent; [apply represents_affine|].
  - intros E. destruct (doubleJacobian_z x1 y1) as (x & y & z & -> & Hz & Ez). apply affineFromJacobian_zero; [|done].
    rewrite Ez, E. ring.
Qed.

(** The sum of points in Jacobian coordinates stands for the sum of the points,
    whatever their third coordinates. *)
Theorem addJacobian_independent x1 y1 z1 x2 y2 z2 x1' y1' z1' x2' y2' z2' q1 q2 :
  represents (x1, y1, z1) q1 -> represents (x1', y1', z1') q1 -> represents (x2, y2, z2) q2 -> represents (x2', y2', z2') q2 ->
  fst q1 <> fst q2 ->
  affineFromJacobian c (addJacobian c x1 y1 z1 x2 y2 z2) = affineFromJacobian c (addJacobian c x1' y1' z1' x2' y2' z2').
Proof.
  intros H1 H1' H2 H2' Hne.
  rewrite (affineFromJacobian_represents _ _ (addJacobian_chord _ _ _ _ _ _ q1 q2 H1 H2 Hne)).
  by rewrite (affineFromJacobian_represents _ _ (addJacobian_chord _ _ _ _ _ _ q1 q2 H1' H2' Hne)).
Qed.
End Jacobian.

(* ------------------------------------------------------------------ *)
(** * Encodings *)

Lemma ser_app n m k : ser (n + m) k = ser n (k / 256 ^ Z.of_nat m) ++ ser m k.
Proof.
  induction n as [|n IH]; [done|]. cbn [Nat.add ser app]. rewrite IH. f_equal. f_equal.
  rewrite Z.div_div by lia. f_equal. rewrite <-Z.pow_add_r by lia. f_equal. lia.
Qed.
Lemma ser_mod n k k' : k mod 256 ^ Z.of_nat n = k' mod 256 ^ Z.of_nat n -> ser n k = ser n k'.
Proof.
  intros E. destruct (ser_bytes n k) as [H8 Hl], (ser_bytes n k') as [H8' Hl']. apply big_endian_unique; [done|done|congruence|].
  by rewrite !ser_value.
Qed.
Lemma ser_0 n : ser n 0 = zeros n.
Proof. induction n as [|n IH]; [done|]. cbn [ser]. rewrite IH. by rewrite Z.div_0_l by lia. Qed.

Lemma put_word_spec j d i tl : put_word j d (zeros i ++ tl) i = (zeros (i - j) ++ ser (Nat.min i j) d ++ tl, (i - j)%nat).
Proof.
  revert d i tl. induction j as [|j IH]; intros d i tl.
  - rewrite Nat.sub_0_r, Nat.min_0_r. by destruct i.
  - destruct i as [|i]; [done|]. cbn [put_word Nat.sub Nat.min].
    assert (<[i := wrap_u8 d]> (zeros (S i) ++ tl) = zeros i ++ wrap_u8 d :: tl) as ->.
    { unfold zeros. rewrite replicate_S_end, <-app_assoc. cbn [app].
      rewrite <-(Nat.add_0_r i) at 1. rewrite <-(length_replicate i 0) at 1. by rewrite insert_app_r. }
    rewrite IH. f_equal. f_equal. rewrite <-Nat.add_1_r, ser_app, <-app_assoc. rewrite Z.shiftr_div_pow2 by lia.
    f_equal. cbn. by rewrite Z.div_1_r.
Qed.
Lemma put_words_full ds buf : put_words ds buf 0 = buf.
Proof. induction ds as [|d ds IH]; [done|]. exact IH. Qed.
Definition words_value (ds : list Z) : Z := foldr (fun d v => d + 2 ^ wordBits * v) 0 ds.
Lemma put_words_spec ds i tl : Forall (fun d => 0 <= d < 2 ^ wordBits) ds ->
  put_words ds (zeros i ++ tl) i = ser i (words_value ds) ++ tl.
Proof.
  intros Hds. revert i tl. induction Hds as [|d ds Hd _ IH]; intros i tl; [cbn; by rewrite ser_0|].
  cbn [put_words]. rewrite put_word_spec. cbn [words_value foldr]. fold (words_value ds). unfold wordBytes.
  rewrite (Z.mul_comm (2 ^ wordBits)).
  destruct (le_lt_dec 8 i) as [Hi|Hi].
  - rewrite (Nat.min_r i 8) by lia. rewrite IH. replace i with ((i - 8) + 8)%nat at 2 by lia. rewrite ser_app, <-app_assoc.
    change (256 ^ Z.of_nat 8) with (2 ^ wordBits).
    rewrite Z.div_add by done. rewrite Z.div_small, Z.add_0_l by done. do 2 f_equal.
    apply ser_mod. change (256 ^ Z.of_nat 8) with (2 ^ wordBits). by rewrite Z.mod_add by done.
  - rewrite (Nat.min_l i 8) by lia. replace (i - 8)%nat with 0%nat by lia. rewrite put_words_full. cbn [zeros replicate app]. f_equal.
    apply ser_mod. replace (2 ^ wordBits) with (256 ^ Z.of_nat (8 - i) * 256 ^ Z.of_nat i)
      by (rewrite <-Z.pow_add_r by lia; replace (Z.of_nat (8 - i) + Z.of_nat i) with 8 by lia; done).
    rewrite Z.mul_assoc, Z.mod_add by lia. done.
Qed.
Lemma words_range fuel z : Forall (fun d => 0 <= d < 2 ^ wordBits) (words fuel z).
Proof.
  revert z. induction fuel as [|fuel IH]; intros z; [constructor|]. cbn [words]. destruct (z =? 0); constructor; [|done].
  by apply Z.mod_pos_bound.
Qed.
Lemma words_of fuel z : 0 <= z < 2 ^ Z.of_nat fuel -> words_value (words fuel z) = z.
Proof.
  revert z. induction fuel as [|fuel IH]; intros z Hz; [cbn in *; lia|]. cbn [words].
  destruct (Z.eqb_spec z 0) as [->|Hne]; [done|]. cbn [words_value foldr]. fold (words_value (words fuel (z / 2 ^ wordBits))).
  rewrite IH; [pose proof (Z.div_mod z (2 ^ wordBits) ltac:(done)); lia|].
  rewrite Nat2Z.inj_succ, Z.pow_succ_r in Hz by lia. unfold wordBits.
  split; [apply Z.div_pos; lia|]. apply Z.div_lt_upper_bound; lia.
Qed.
Lemma readBits_spec z n : readBits z (zeros n) = ser n (Z.abs z).
Proof.
  unfold readBits, zeros at 2. rewrite length_replicate. rewrite <-(app_nil_r (zeros n)), put_words_spec, app_nil_r by apply words_range.
  unfold big_Bits. rewrite words_of; [done|]. rewrite Z2Nat.id by apply BitLen_nonneg.
  pose proof (proj1 (BitLen_le (BitLen z) z (BitLen_nonneg z))). lia.
Qed.

(** A point comes back from its encoding as far as its coordinates fit; a signed
    or a larger coordinate is cut to the bytes of its absolute value. *)
Theorem Marshal_roundtrip c x y :
  let m := 256 ^ Z.of_nat (byteLen c) in
  Unmarshal c (Marshal c x y) = Some (Z.abs x mod m, Z.abs y mod m) /\
  (0 <= x < m -> 0 <= y < m -> Unmarshal c (Marshal c x y) = Some (x, y)).
Proof.
  cbv zeta. match goal with |- ?A /\ _ => assert A as E end.
  { unfold Unmarshal, Marshal. rewrite !readBits_spec.
    destruct (ser_bytes (byteLen c) (Z.abs x)) as [_ Lx], (ser_bytes (byteLen c) (Z.abs y)) as [_ Ly].
    rewrite bool_decide_true by (rewrite !length_app, Lx, Ly; cbn; lia). cbn [negb app nth Z.eqb Pos.eqb drop Nat.add].
    rewrite drop_0, take_app_length', drop_app_length' by done. by rewrite !ser_value. }
  split; [exact E|]. intros Hx Hy. rewrite E. by rewrite !Z.abs_eq, !Z.mod_small by lia.
Qed.

(** The C library is given the point and the scalar in 32 bytes each, the highest
    first, for every scalar of up to 32 bytes; longer ones are refused. *)
Theorem ScalarMult_value mul Bx By scalar : Forall is_uint8 scalar ->
  ScalarMult mul Bx By scalar =
    if 32 <? len scalar then Panic "can't handle scalars > 256 bits" else
    let '(r, point) := mul (ser 32 (Z.abs Bx) ++ ser 32 (Z.abs By)) (ser 32 (big_SetBytes scalar)) in
    Ok (if r =? 1 then Some (big_SetBytes (take 32 point), big_SetBytes (drop 32 point)) else None).
Proof.
  intros H8. unfold ScalarMult. destruct (Z.ltb_spec 32 (len scalar)) as [|Hl]; [done|]. rewrite !readBits_spec.
  assert (take (32 - length scalar) (zeros 32) ++ scalar = ser 32 (big_SetBytes scalar)) as ->.
  { unfold len in Hl. destruct (ser_bytes 32 (big_SetBytes scalar)) as [Hb Hn]. apply big_endian_unique; [|done|..].
    - apply Forall_app. split; [|done]. apply Forall_take. by repeat constructor.
    - rewrite Hn, length_app, length_take. unfold zeros. rewrite length_replicate. lia.
    - unfold zeros. rewrite take_replicate, big_SetBytes_app. fold (zeros (Nat.min (32 - length scalar) 32)).
      rewrite big_SetBytes_zeros, ser_value. symmetry. apply Z.mod_small.
      pose proof (big_SetBytes_range scalar H8). split; [lia|]. eapply Z.lt_le_trans; [apply H|]. apply Z.pow_le_mono_r; lia. }
  destruct (mul _ _) as [r point]. by destruct (r =? 1).
Qed.

(* ------------------------------------------------------------------ *)
(** * Runs *)

Lemma theCurve_base : IsOnCurve theCurve (bc_Gx theCurve) (bc_Gy theCurve) = true /\
  Add theCurve (bc_Gx theCurve) (bc_Gy theCurve) (bc_Gx theCurve) (bc_Gy theCurve) = Panic nil_deref /\
  (exists x y, Double theCurve (bc_Gx theCurve) (bc_Gy theCurve) = Ok (x, y) /\ IsOnCurve theCurve x y = true).
Proof.
  split_and!; [vm_compute; reflexivity|vm_compute; reflexivity|].
  assert ((if Double theCurve (bc_Gx theCurve) (bc_Gy theCurve) is Ok (x, y) then IsOnCurve theCurve x y else false) = true) as H
    by (vm_compute; reflexivity).
  destruct (Double theCurve (bc_Gx theCurve) (bc_Gy theCurve)) as [[x y]|e|e]; [by exists x, y|discriminate H..].
Qed.

Definition toy_curve : BitCurve := MkBitCurve 17 18 7 1 5 5.
Lemma prime_17 : Z.prime 17.
Proof.
  split; [done|]. intros n Hn [k Hk].
  assert (n ∈ [2; 3; 4; 5; 6; 7; 8; 9; 10; 11; 12; 13; 14; 15; 16]) as Hin by (rewrite !elem_of_cons; lia).
  rewrite !elem_of_cons, elem_of_nil in Hin. destruct_or! Hin; subst; lia.
Qed.
Lemma curve_addition_witness :
  Add toy_curve 1 5 2 7 = Ok (1, 12) /\ IsOnCurve toy_curve 1 12 = true /\
  Add toy_curve 1 5 1 5 = Panic nil_deref /\
  Zmod.of_Z 17 1 = fst (chord 17 (Zmod.of_Z 17 1, Zmod.of_Z 17 5) (Zmod.of_Z 17 2, Zmod.of_Z 17 7)).
Proof.
  destruct (curve_addition toy_curve prime_17 ltac:(reflexivity) 1 5 2 7) as (Ha & _).
  destruct (curve_addition toy_curve prime_17 ltac:(reflexivity) 1 5 1 5) as (_ & He & _).
  destruct Ha as (x & y & E & Ec & _ & _ & Hon); [by vm_compute|by vm_compute|by intros [=]%(f_equal Zmod.to_Z)|].
  assert (Add toy_curve 1 5 2 7 = Ok (1, 12)) as E' by (vm_compute; reflexivity). rewrite E' in E. injection E as <- <-.
  split; [exact E'|]. split; [exact Hon|]. split; [by apply He|]. by apply (f_equal fst) in Ec.
Defined.
Lemma addJacobian_independent_witness :
  affineFromJacobian toy_curve (addJacobian toy_curve 1 5 1 2 7 1) = affineFromJacobian toy_curve (addJacobian toy_curve 4 40 2 2 7 1).
Proof.
  apply (addJacobian_independent toy_curve prime_17 ltac:(reflexivity) 1 5 1 2 7 1 4 40 2 2 7 1
    (Zmod.of_Z 17 1, Zmod.of_Z 17 5) (Zmod.of_Z 17 2, Zmod.of_Z 17 7)).
  all: try (split; [|split]); try (by intros [=]%(f_equal Zmod.to_Z)); apply Zmod.unsigned_inj; by vm_compute.
Defined.
Lemma ScalarMult_value_witness :
  ScalarMult (fun p k => (1, take 32 p ++ k)) 5 6 [1; 2] = Ok (Some (5, 258)).
Proof. rewrite ScalarMult_value; [vm_compute; reflexivity|by repeat constructor]. Defined.
