(* ===== verification/HDPath.v ===== *)
(** Hierarchical key derivation: [crypto/hd/hdpath.go] and [crypto/hd/algo.go].

    A [[32]byte] is a list of 32 bytes.  HMAC-SHA512 and the mnemonics of
    go-bip39 are the operations of the class [HDLib]; the compressed public key
    of a scalar is [SerializeCompressed] of [CryptoLib]. *)
From S2P Require Import Prelude GoStrings BigText Keys CoinType.
From Stdlib Require Import Ascii.

Class HDLib := {
  hmac_sha512 : bytes -> bytes -> bytes;
  NewSeedWithErrorChecking : string -> string -> res bytes;
  NewMnemonic : bytes -> res string;
}.

(** RFC 2104: the tag of HMAC-SHA512 is 64 bytes long. *)
Class HDLaws `{HDLib} : Prop := {
  hmac_size key data : length (hmac_sha512 key data) = 64%nat;
  hmac_bytes key data : Forall is_uint8 (hmac_sha512 key data);
}.

(* ------------------------------------------------------------------ *)
(** * Standard library *)

(** [strconv.ParseUint(s, 10, bits)] *)
Definition ParseUint (bits : Z) (s : string) : res Z :=
  if bool_decide (s = "") || negb (str_digits s) then Err "invalid syntax"
  else if 2 ^ bits <=? digits_value 0 s then Err "value out of range"
  else Ok (digits_value 0 s).

(** [s[len(s)-1:]] and [s[:len(s)-1]]. *)
Definition last_chr (s : string) : res string :=
  if bool_decide (s = "") then Panic "slice bounds out of range"
  else Ok (str_drop (String.length s - 1) s).
Definition but_last (s : string) : string := str_take (String.length s - 1) s.

(** [strings.HasSuffix(s, "'")] and [strings.TrimSuffix(s, "'")]. *)
Definition HasSuffix_quote (s : string) : bool := bool_decide (str_drop (String.length s - 1) s = "'").
Definition TrimSuffix_quote (s : string) : string := if HasSuffix_quote s then but_last s else s.

(** [binary.BigEndian.PutUint32] into a new array. *)
Definition uint32ToBytes (i : Z) : bytes :=
  [wrap_u8 (Z.shiftr i 24); wrap_u8 (Z.shiftr i 16); wrap_u8 (Z.shiftr i 8); wrap_u8 i].

(* ------------------------------------------------------------------ *)
(** * BIP 44 paths *)

Record BIP44Params := MkBIP44Params {
  Purpose : Z; HD_CoinType : Z; Account : Z; Change : bool; AddressIndex : Z }.

Definition NewParams (purpose coinType account : Z) (change : bool) (addressIdx : Z) : BIP44Params :=
  MkBIP44Params purpose coinType account change addressIdx.

Definition hardenedInt (field : string) : res Z := ParseUint 32 (TrimSuffix_quote field).
Definition isHardened (field : string) : bool := HasSuffix_quote field.

Definition NewParamsFromPath (path : string) : res BIP44Params :=
  match split_on "/" path with
  | [s0; s1; s2; s3; s4] =>
      purpose ← hardenedInt s0;
      coinType ← hardenedInt s1;
      account ← hardenedInt s2;
      change ← hardenedInt s3;
      addressIdx ← hardenedInt s4;
      if negb (bool_decide (s0 = "44'")) then Err "first field in path must be 44', got %v"
      else if negb (isHardened s1) || negb (isHardened s2)
      then Err "second and third field in path must be hardened (ie. contain the suffix ', got %v and %v"
      else if isHardened s3 || isHardened s4
      then Err "fourth and fifth field in path must not be hardened (ie. not contain the suffix ', got %v and %v"
      else if negb ((change =? 0) || (change =? 1)) then Err "change field can only be 0 or 1"
      else Ok (MkBIP44Params purpose coinType account (0 <? change) addressIdx)
  | _ => Err "path length is wrong. Expected 5, got %d"
  end.

Definition NewFundraiserParams (account coinType addressIdx : Z) : BIP44Params :=
  NewParams 44 coinType account false addressIdx.
Definition CreateHDPath (coinType account index : Z) : BIP44Params :=
  NewFundraiserParams account coinType index.

Definition DerivationPath (p : BIP44Params) : list Z :=
  let change := if Change p then 1 else 0 in
  [Purpose p; HD_CoinType p; Account p; change; AddressIndex p].

Definition Params_String (p : BIP44Params) : string :=
  let changeStr := if Change p then "1" else "0" in
  nat_text (Purpose p) +:+ "'/" +:+ nat_text (HD_CoinType p) +:+ "'/" +:+ nat_text (Account p) +:+ "'/" +:+
  changeStr +:+ "/" +:+ nat_text (AddressIndex p).

Definition BIP44Prefix : string := "44'/118'/".
Definition PartialPath : string := "0'/0/0".
Definition FullPath : string := BIP44Prefix +:+ PartialPath.

(* ------------------------------------------------------------------ *)
(** * Derivation *)
Section HD.
Context `{CryptoLib} `{HDLib}.

Definition i64 (key data : bytes) : bytes * bytes :=
  let I := hmac_sha512 key data in
  (go_copy (zeros 32) (take 32 I), go_copy (zeros 32) (drop 32 I)).

Definition ComputeMastersFromSeed (seed : bytes) : bytes * bytes :=
  let curveIdentifier := to_bytes "Bitcoin seed" in
  i64 curveIdentifier seed.

Definition addScalars (a b : bytes) : res bytes :=
  let sInt := big_SetBytes a + big_SetBytes b in
  m ← big_Mod sInt curve_N;
  let x := big_Bytes m in
  slice_copy (zeros 32) (32 - len x) 32 x.

Definition derivePrivateKey (privKeyBytes chainCode : bytes) (index : Z) (harden : bool) : res (bytes * bytes) :=
  let index := if harden then Z.lor index 0x80000000 else index in
  let data := if harden then 0 :: privKeyBytes else SerializeCompressed privKeyBytes in
  let data := data ++ uint32ToBytes index in
  let '(data2, chainCode2) := i64 chainCode data in
  x ← addScalars privKeyBytes data2;
  Ok (x, chainCode2).

(** The body of the loop over the parts of the path. *)
Definition derive_part (st : bytes * bytes) (part : string) : res (bytes * bytes) :=
  let '(data, chainCode) := st in
  c ← last_chr part;
  let harden := bool_decide (c = "'") in
  let part := if harden then but_last part else part in
  idx ← or_err (ParseUint 32 part) "invalid BIP 32 path: %s";
  derivePrivateKey data chainCode idx harden.

Definition DerivePrivateKeyForPath (privKeyBytes chainCode : bytes) (path : string) : res bytes :=
  let parts := split_on "/" path in
  '(data, _) ← for_each derive_part (privKeyBytes, chainCode) parts;
  let derivedKey := go_copy (zeros 32) data in
  let n := Z.min 32 (len data) in
  if negb (n =? 32) || negb (len data =? 32) then Err "expected a (secp256k1) key of length 32, got length: %v"
  else Ok derivedKey.

(** [secp256k1Algo.Derive] and [Generate], and the choice of the algorithm. *)
Definition algo_Derive (mnemonic bip39Passphrase hdPath : string) : res bytes :=
  seed ← NewSeedWithErrorChecking mnemonic bip39Passphrase;
  let '(masterPriv, ch) := ComputeMastersFromSeed seed in
  if bool_decide (hdPath = "") then Ok masterPriv
  else DerivePrivateKeyForPath masterPriv ch hdPath.

Definition algo_Generate (bz : bytes) : bytes := go_copy (zeros 32) bz.

Definition NewSigningAlgoFromString (str : string) : res unit :=
  if bool_decide (str = "secp256k1") then Ok tt else Err "provided algorithm `%s` is not supported".
End HD.

(* ------------------------------------------------------------------ *)
(** * Specification: BIP 32 on numbers

    A private key is a number; [ser] is its big-endian form in a given number of
    bytes ([Keys]).  [next_child] is the key and chain code that the derivation of
    a child computes, and [CKDpriv] the derivation of BIP 32: there is no child
    when the left half of the hash is not below the group order or the key would
    be zero.  The code does not make this check. *)

Definition child_hash `{CryptoLib} `{HDLib} (key : Z * bytes) (i : Z) : bytes :=
  let '(k, c) := key in
  let data := if 2 ^ 31 <=? i then 0 :: ser 32 k else SerializeCompressed (ser 32 k) in
  hmac_sha512 c (data ++ ser 4 i).
Definition next_child `{CryptoLib} `{HDLib} (key : Z * bytes) (i : Z) : Z * bytes :=
  let I := child_hash key i in ((big_SetBytes (take 32 I) + fst key) mod curve_N, drop 32 I).
Definition CKDpriv `{CryptoLib} `{HDLib} (key : Z * bytes) (i : Z) : option (Z * bytes) :=
  let IL := big_SetBytes (take 32 (child_hash key i)) in
  let child := next_child key i in
  if (curve_N <=? IL) || (fst child =? 0) then None else Some child.

(** A path is a list of indices below [2^31] and whether they are hardened. *)
Definition part_text (p : Z * bool) : string := nat_text (fst p) +:+ (if snd p then "'" else "").
Definition path_text (ps : list (Z * bool)) : string := Join (map part_text ps) "/".
Definition child_index (p : Z * bool) : Z := if snd p then fst p + 2 ^ 31 else fst p.
Definition index_ok (p : Z * bool) : Prop := 0 <= fst p < 2 ^ 31.
(** The key at the end of a path, if every child on the way exists. *)
Fixpoint CKDpath `{CryptoLib} `{HDLib} (key : Z * bytes) (ps : list (Z * bool)) : option (Z * bytes) :=
  match ps with [] => Some key | p :: ps => child ← CKDpriv key (child_index p); CKDpath child ps end.

(* ------------------------------------------------------------------ *)
(** * Lemmas: numbers and bytes *)

Lemma bytes_be_uint8 fuel z acc : Forall is_uint8 acc -> Forall is_uint8 (bytes_be fuel z acc).
Proof.
  revert z acc. induction fuel as [|fuel IH]; intros z acc Ha; cbn [bytes_be]; [done|].
  destruct (z =? 0); [done|]. apply IH. constructor; [|done]. apply Z.mod_pos_bound. lia.
Qed.

(** Right-aligning a number below [2^256] in 32 zero bytes serialises it. *)
Lemma right_align z : 0 <= z < 2 ^ 256 ->
  slice_copy (zeros 32) (32 - len (big_Bytes z)) 32 (big_Bytes z) = Ok (ser 32 z).
Proof.
  intros Hz. assert (2 ^ 256 = 256 ^ 32) as E256 by done. rewrite E256 in Hz.
  pose proof (big_Bytes_length z 32 Hz ltac:(lia)) as Hl.
  pose proof (slice_copy_right [] 32 32 (big_Bytes z) [] ltac:(done) Hl) as E.
  rewrite !app_nil_r in E. change ([] ++ zeros (Z.to_nat 32)) with (zeros 32) in E. rewrite E. f_equal.
  destruct (ser_bytes 32 z) as [Hs1 Hs2]. apply big_endian_unique; [|done|..].
  - cbn [app]. apply Forall_app. split.
    + apply Forall_replicate. unfold is_uint8. lia.
    + apply bytes_be_uint8. constructor.
  - cbn [app]. rewrite length_app, Hs2. unfold zeros, len in *. rewrite length_replicate. lia.
  - cbn [app]. rewrite big_SetBytes_app, big_SetBytes_zeros, big_Bytes_value, ser_value by lia.
    rewrite Z.mod_small; [lia|done].
Qed.

Lemma uint32ToBytes_ser i : uint32ToBytes i = ser 4 i.
Proof.
  unfold uint32ToBytes, wrap_u8. rewrite !Z.shiftr_div_pow2 by lia. cbn [ser].
  by rewrite Z.div_1_r.
Qed.

Lemma lor_hardened i : 0 <= i < 2 ^ 31 -> Z.lor i 0x80000000 = i + 2 ^ 31.
Proof.
  intros Hi. change 0x80000000 with (2 ^ 31). symmetry. rewrite <-Z.lxor_lor, <-Z.add_nocarry_lxor; [done|..];
    apply Z.bits_inj'; intros n Hn; rewrite Z.land_spec, Z.bits_0, Z.pow2_bits_eqb by lia;
    destruct (Z.eqb_spec 31 n) as [<-|]; [|by rewrite andb_false_r| |by rewrite andb_false_r];
    rewrite (proj2 (Z.testbit_false i 31 ltac:(lia))); try done; by rewrite Z.div_small.
Qed.

(* ------------------------------------------------------------------ *)
(** * Lemmas: texts of paths *)

Lemma ParseUint_nat_text bits n : 0 <= n < 2 ^ bits -> ParseUint bits (nat_text n) = Ok n.
Proof.
  intros Hn. unfold ParseUint. rewrite bool_decide_false by apply nat_text_ne. rewrite nat_text_digits, nat_text_value by lia.
  cbn [orb negb]. by rewrite (proj2 (Z.leb_gt _ _)) by lia.
Qed.

Lemma ParseUint_range bits s n : ParseUint bits s = Ok n -> 0 <= n < 2 ^ bits.
Proof.
  unfold ParseUint. intros E. destruct (bool_decide _ || _) eqn:Eb; [done|].
  apply orb_false_iff in Eb as [_ Ed%negb_false_iff]. destruct (Z.leb_spec (2 ^ bits) (digits_value 0 s)); [done|].
  injection E as <-. pose proof (digits_value_bound s Ed). lia.
Qed.

Lemma ParseUint_fails bits s : is_ok (ParseUint bits s) = false -> exists e, ParseUint bits s = Err e.
Proof. unfold ParseUint. destruct (_ || _); [eauto|]. destruct (_ <=? _); [eauto|done]. Qed.

Lemma last_app s c : str_drop (String.length (s +:+ String c "") - 1) (s +:+ String c "") = String c "".
Proof.
  rewrite str_length_app. cbn [String.length]. replace (String.length s + 1 - 1)%nat with (String.length s) by lia.
  induction s as [|d s IH]; [done|]. exact IH.
Qed.

Lemma but_last_app s c : but_last (s +:+ String c "") = s.
Proof.
  unfold but_last. rewrite str_length_app. cbn [String.length].
  replace (String.length s + 1 - 1)%nat with (String.length s) by lia.
  induction s as [|d s IH]; [done|]. rewrite str_app_cons. cbn [String.length str_take]. by rewrite IH.
Qed.

Lemma last_of_digits s : str_digits s = true -> s <> "" ->
  exists c, is_digit c = true /\ str_drop (String.length s - 1) s = String c "".
Proof.
  intros Hd Hne. induction s as [|c s IH]; [done|]. cbn [str_digits str_forall] in Hd.
  apply andb_true_iff in Hd as [Hc Hs]. destruct s as [|d s]; [by exists c|].
  destruct (IH Hs ltac:(done)) as (e & He & E). exists e. split; [done|].
  cbn [String.length] in *. replace (S (S (String.length s)) - 1)%nat with (S (String.length s)) by lia.
  replace (S (String.length s) - 1)%nat with (String.length s) in E by lia. exact E.
Qed.

Lemma digits_not_hardened s : str_digits s = true -> s <> "" ->
  HasSuffix_quote s = false /\ exists c, last_chr s = Ok c /\ c <> "'".
Proof.
  intros Hd Hne. destruct (last_of_digits s Hd Hne) as (c & Hc & E). unfold HasSuffix_quote, last_chr.
  rewrite E. assert (String c "" <> "'") as Hq by (intros [= ->]; discriminate Hc).
  split; [by apply bool_decide_eq_false|]. rewrite bool_decide_false by done. by eexists.
Qed.

Lemma hardened_quote s : HasSuffix_quote (s +:+ "'") = true /\ TrimSuffix_quote (s +:+ "'") = s /\
  last_chr (s +:+ "'") = Ok "'" /\ but_last (s +:+ "'") = s.
Proof.
  assert (HasSuffix_quote (s +:+ "'") = true) as E by (unfold HasSuffix_quote; rewrite last_app; done).
  split; [done|]. split; [unfold TrimSuffix_quote; rewrite E; apply but_last_app|]. split; [|apply but_last_app].
  unfold last_chr. rewrite last_app, bool_decide_false; [done|]. by destruct s.
Qed.

Lemma hardenedInt_text i (h : bool) : 0 <= i < 2 ^ 32 ->
  hardenedInt (nat_text i +:+ (if h then "'" else "")) = Ok i /\ isHardened (nat_text i +:+ (if h then "'" else "")) = h.
Proof.
  intros Hi. destruct h.
  - destruct (hardened_quote (nat_text i)) as (E1 & E2 & _). unfold hardenedInt, isHardened. rewrite E1, E2.
    split; [by apply ParseUint_nat_text|done].
  - rewrite str_app_nil_r. destruct (digits_not_hardened (nat_text i) (nat_text_digits i) (nat_text_ne i)) as [E _].
    unfold hardenedInt, isHardened, TrimSuffix_quote. rewrite E. split; [by apply ParseUint_nat_text|done].
Qed.

Definition no_slash : string -> bool := str_forall (fun c => negb (bool_decide (c = "/"%char))).

Lemma part_no_slash i (h : bool) : no_slash (nat_text i +:+ (if h then "'" else "")) = true.
Proof.
  unfold no_slash. rewrite str_forall_app. apply andb_true_iff. split; [|by destruct h].
  apply (str_forall_impl is_digit); [|apply nat_text_digits]. intros c Hc. apply negb_true_iff, bool_decide_eq_false.
  by intros ->.
Qed.

Lemma split_on_ne sep s : split_on sep s <> [].
Proof. destruct s as [|c s]; [done|]. cbn [split_on]. destruct (decide _); [done|]. by destruct (split_on sep s). Qed.

Lemma path_text_split ps : ps <> [] -> split_on "/" (path_text ps) = map part_text ps.
Proof.
  intros Hne. apply split_on_Join; [by destruct ps|]. apply Forall_map, Forall_true. intros [i h]. apply part_no_slash.
Qed.

(** The text of parameters is the text of their derivation path. *)
Lemma Params_String_path p : Params_String p =
  path_text [(Purpose p, true); (HD_CoinType p, true); (Account p, true); (if Change p then 1 else 0, false); (AddressIndex p, false)].
Proof.
  unfold Params_String, path_text, part_text. cbn [map fst snd Join]. rewrite !str_app_nil_r, <-!str_app_assoc.
  by destruct (Change p).
Qed.

(* ------------------------------------------------------------------ *)
(** * Lemmas: derivation *)
Section Derivation.
Context `{CL : CryptoLaws, HL : HDLaws}.

Lemma copy_half (h : bytes) : length h = 32%nat -> go_copy (zeros 32) h = h.
Proof. intros Hl. unfold go_copy. rewrite drop_ge by (rewrite Hl; done). rewrite app_nil_r. apply firstn_all2. by rewrite Hl. Qed.

Lemma i64_halves key data : i64 key data = (take 32 (hmac_sha512 key data), drop 32 (hmac_sha512 key data)) /\
  length (drop 32 (hmac_sha512 key data)) = 32%nat /\ 0 <= big_SetBytes (take 32 (hmac_sha512 key data)).
Proof.
  pose proof (hmac_size key data) as Hs. unfold i64.
  rewrite !copy_half by (rewrite ?length_take, ?length_drop, Hs; done). split; [done|].
  rewrite length_drop, Hs. split; [done|]. apply big_SetBytes_range, Forall_take, hmac_bytes.
Qed.

Lemma addScalars_value a b : 0 <= big_SetBytes a -> 0 <= big_SetBytes b ->
  addScalars a b = Ok (ser 32 ((big_SetBytes a + big_SetBytes b) mod curve_N)).
Proof.
  intros Ha Hb. pose proof curve_N_range as HN. unfold addScalars, big_Mod. rewrite (proj2 (Z.eqb_neq _ _)) by lia.
  rewrite Z.abs_eq by lia. cbn [mbind res_bind]. apply right_align.
  set (n := curve_N) in *. pose proof (Z.mod_pos_bound (big_SetBytes a + big_SetBytes b) n ltac:(lia)). lia.
Qed.

(** One step of the code, without the check of BIP 32. *)
Lemma derivePrivateKey_child k c i (h : bool) : 0 <= k < 2 ^ 256 -> index_ok (i, h) ->
  let '(k', c') := next_child (k, c) (child_index (i, h)) in
  derivePrivateKey (ser 32 k) c i h = Ok (ser 32 k', c') /\ 0 <= k' < curve_N.
Proof.
  intros Hk Hi. cbn [index_ok fst] in Hi. pose proof curve_N_range as HN. unfold derivePrivateKey, next_child, child_hash. cbn [fst].
  assert (big_SetBytes (ser 32 k) = k) as Ek by (rewrite ser_value; by apply Z.mod_small).
  assert ((2 ^ 31 <=? child_index (i, h)) = h /\ (if h then Z.lor i 0x80000000 else i) = child_index (i, h)) as [Eh Ei].
  { unfold child_index, index_ok in *. cbn [fst snd] in *. destruct h.
    - rewrite lor_hardened by done. split; [apply Z.leb_le; lia|done].
    - split; [apply Z.leb_gt; lia|done]. }
  rewrite Eh, Ei, uint32ToBytes_ser.
  set (data := (if h then 0 :: ser 32 k else SerializeCompressed (ser 32 k)) ++ ser 4 (child_index (i, h))).
  destruct (i64_halves c data) as (-> & _ & Hl). rewrite addScalars_value by lia. rewrite Ek. cbn [mbind res_bind].
  rewrite (Z.add_comm k). split; [done|]. apply Z.mod_pos_bound. lia.
Qed.

Lemma derive_part_text st p : index_ok p -> derive_part st (part_text p) = derivePrivateKey (fst st) (snd st) (fst p) (snd p).
Proof.
  destruct st as [data c], p as [i h]. intros Hi. unfold index_ok, derive_part, part_text in *. cbn [fst snd] in *.
  assert (ParseUint 32 (nat_text i) = Ok i) as Ep by (apply ParseUint_nat_text; lia). destruct h.
  - destruct (hardened_quote (nat_text i)) as (_ & _ & -> & ->). cbn [mbind res_bind].
    rewrite bool_decide_true by done. by rewrite Ep.
  - rewrite str_app_nil_r. destruct (digits_not_hardened (nat_text i) (nat_text_digits i) (nat_text_ne i)) as (_ & c0 & -> & Hc).
    cbn [mbind res_bind]. rewrite bool_decide_false by done. by rewrite Ep.
Qed.

Lemma derive_parts_child ps k c : 0 <= k < 2 ^ 256 -> Forall index_ok ps ->
  let '(k', c') := foldl (fun key p => next_child key (child_index p)) (k, c) ps in
  for_each derive_part (ser 32 k, c) (map part_text ps) = Ok (ser 32 k', c') /\ 0 <= k' < 2 ^ 256 /\ (ps <> [] -> k' < curve_N).
Proof.
  intros Hk Hps. pose proof curve_N_range as HN. revert k c Hk.
  induction Hps as [|[i h] ps Hi Hps IH]; intros k c Hk; cbn [foldl map for_each]; [done|].
  rewrite derive_part_text by done. cbn [fst snd]. pose proof (derivePrivateKey_child k c i h Hk Hi) as Hd.
  destruct (next_child (k, c) (child_index (i, h))) as [k1 c1]. destruct Hd as [-> Hk1]. cbn [mbind res_bind].
  specialize (IH k1 c1 ltac:(lia)). destruct (foldl _ _ _) as [k2 c2] eqn:E. destruct IH as (-> & Hk2 & Hn).
  split_and!; [done|lia|lia|]. intros _. destruct ps; [|by apply Hn]. injection E as <- <-. lia.
Qed.

Lemma CKDpath_next ps key :
  match CKDpath key ps with
  | Some child => foldl (fun key p => next_child key (child_index p)) key ps = child /\ (ps <> [] -> fst child <> 0)
  | None => True
  end.
Proof.
  revert key. induction ps as [|p ps IH]; intros key; cbn [CKDpath foldl]; [done|]. unfold CKDpriv.
  destruct (Z.leb_spec curve_N (big_SetBytes (take 32 (child_hash key (child_index p))))); [done|].
  destruct (Z.eqb_spec (fst (next_child key (child_index p))) 0) as [|Hz]; [done|]. cbn [orb mbind option_bind].
  specialize (IH (next_child key (child_index p))). destruct (CKDpath _ ps) as [child|] eqn:E; [|done].
  destruct IH as [Ef Hn]. split; [done|]. intros _. destruct ps; [|by apply Hn]. cbn in E. by injection E as <-.
Qed.

(** Every derived key is 32 bytes, whatever the path, and a number below the
    group order. *)
Definition key_bytes (key : bytes) : Prop := Forall is_uint8 key /\ length key = 32%nat.

Lemma derive_part_bytes st part st' : Forall is_uint8 (fst st) -> derive_part st part = Ok st' ->
  key_bytes (fst st') /\ big_SetBytes (fst st') < curve_N.
Proof.
  destruct st as [data c]. cbn [fst]. intros Hb E. unfold derive_part, derivePrivateKey in E. res_inv.
  destruct (i64_halves c ((if bool_decide (a = "'") then 0 :: data else SerializeCompressed data) ++
    uint32ToBytes (if bool_decide (a = "'") then Z.lor a0 0x80000000 else a0))) as (Ei & _ & Hl).
  rewrite Ei in E. rewrite addScalars_value in E by (done || apply big_SetBytes_range, Hb). cbn [mbind res_bind] in E.
  set (k := _ mod curve_N) in E. pose proof (ser_bytes 32 k) as Hk. pose proof (ser_value 32 k) as Hv.
  assert (0 <= k < curve_N) as HkN by (apply Z.mod_pos_bound; pose proof curve_N_range; lia). clearbody k.
  change (256 ^ Z.of_nat 32) with (2 ^ 256) in Hv. rewrite Z.mod_small in Hv by (pose proof curve_N_range; lia).
  revert Hk Hv E. generalize (ser 32 k). intros x Hk Hv E. injection E as <-. cbn [fst]. rewrite Hv. split; [exact Hk|lia].
Qed.

Lemma derive_parts_bytes parts st st' : key_bytes (fst st) -> for_each derive_part st parts = Ok st' ->
  key_bytes (fst st') /\ (parts <> [] -> big_SetBytes (fst st') < curve_N).
Proof.
  revert st. induction parts as [|part parts IH]; intros st Hb E; cbn [for_each] in E; [by injection E as <-|].
  res_inv. match goal with X : derive_part _ _ = _ |- _ => apply derive_part_bytes in X as [Hb1 Hr1]; [|apply Hb] end.
  destruct parts as [|q parts]; [injection E as <-; done|]. destruct (IH _ Hb1 E) as [Hb2 Hr2]. split; [done|]. intros _. by apply Hr2.
Qed.

Lemma algo_Derive_bytes mnemonic pass path key : algo_Derive mnemonic pass path = Ok key ->
  key_bytes key /\ (path <> "" -> big_SetBytes key < curve_N).
Proof.
  unfold algo_Derive, ComputeMastersFromSeed. intros E. res_inv.
  destruct (i64_halves (to_bytes "Bitcoin seed") a) as (Ei & _). rewrite Ei in E.
  assert (key_bytes (take 32 (hmac_sha512 (to_bytes "Bitcoin seed") a))) as Hm.
  { split; [apply Forall_take, hmac_bytes|]. by rewrite length_take, hmac_size. }
  case_bool_decide as Hp; [by injection E as <-|]. unfold DerivePrivateKeyForPath in E. res_inv.
  destruct a0 as [data c]. destruct (_ || _); [done|]. injection E as <-.
  match goal with X : for_each _ _ _ = _ |- _ => apply derive_parts_bytes in X as [[Hb Hl] HkN]; [|exact Hm] end.
  cbn [fst] in *. rewrite copy_half by done. split; [done|]. intros _. apply HkN, split_on_ne.
Qed.
End Derivation.

(* ------------------------------------------------------------------ *)
(** * Properties *)

(** C18: Key derivation refines BIP 32, except for its check.  For a master key
    and chain code and a non-empty path of indices below [2^31], written with an
    apostrophe after the hardened ones: if every child of BIP 32's [CKDpriv],
    stated on numbers, exists along the path, then the derived key is the 32-byte
    big-endian form of the key at its end, which is between 1 and the group order.
    If a child does not exist, because the left half of its hash is not below the
    group order or its key would be zero, BIP 32 has no key for the path, but the
    code does not notice and answers one. *)
Theorem DerivePrivateKeyForPath_BIP32 `{CryptoLaws, HDLaws} k c ps :
  0 <= k < 2 ^ 256 -> ps <> [] -> Forall index_ok ps ->
  match CKDpath (k, c) ps with
  | Some (k', _) => DerivePrivateKeyForPath (ser 32 k) c (path_text ps) = Ok (ser 32 k') /\ 0 < k' < curve_N
  | None => is_ok (DerivePrivateKeyForPath (ser 32 k) c (path_text ps)) = true
  end.
Proof.
  intros Hk Hne Hps. pose proof (derive_parts_child ps k c Hk Hps) as Hd.
  pose proof (CKDpath_next ps (k, c)) as Hpath. destruct (foldl _ _ _) as [k1 c1]. destruct Hd as (E & Hr & Hn).
  assert (DerivePrivateKeyForPath (ser 32 k) c (path_text ps) = Ok (ser 32 k1)) as ->.
  { unfold DerivePrivateKeyForPath. rewrite path_text_split, E by done. cbn [mbind res_bind].
    assert (len (ser 32 k1) = 32) as El by (unfold len; by rewrite (proj2 (ser_bytes 32 k1))).
    rewrite El, copy_half by apply ser_bytes. done. }
  destruct (CKDpath (k, c) ps) as [[k' c']|]; [|done]. destruct Hpath as [[= <- <-] Hp]. specialize (Hn Hne). specialize (Hp Hne).
  cbn [fst] in Hp. split; [done|lia].
Qed.

(** BIP 44 paths are read back from their text, and only paths of that shape
    are accepted: a successful [NewParamsFromPath] returns purpose 44 and 32-bit
    fields, and for every such value the text is accepted and yields the value
    itself.  [FullPath], the default of the key manager, is the text of the
    fundraiser path of coin type 118. *)
Theorem BIP44Params_roundtrip :
  (forall p, Purpose p = 44 -> is_uint32 (HD_CoinType p) -> is_uint32 (Account p) -> is_uint32 (AddressIndex p) ->
     NewParamsFromPath (Params_String p) = Ok p) /\
  (forall path p, NewParamsFromPath path = Ok p ->
     Purpose p = 44 /\ Forall is_uint32 (DerivationPath p) /\ NewParamsFromPath (Params_String p) = Ok p) /\
  Params_String (CreateHDPath 118 0 0) = FullPath.
Proof.
  assert (forall p, Purpose p = 44 -> is_uint32 (HD_CoinType p) -> is_uint32 (Account p) -> is_uint32 (AddressIndex p) ->
     NewParamsFromPath (Params_String p) = Ok p) as Hrt.
  { intros [pu ct ac ch ai] Hp Hc Ha Hi. cbn in Hp, Hc, Ha, Hi. subst pu.
    unfold NewParamsFromPath. rewrite Params_String_path, path_text_split by done. cbn [map].
    unfold part_text. cbn [fst snd Purpose HD_CoinType Account Change AddressIndex].
    change (hardenedInt (nat_text 44 +:+ "'")) with (@Ok Z 44).
    change (bool_decide (nat_text 44 +:+ "'" = "44'")) with true.
    destruct (hardenedInt_text ct true Hc) as [-> ->], (hardenedInt_text ac true Ha) as [-> ->],
      (hardenedInt_text ai false Hi) as [-> ->], (hardenedInt_text (if ch then 1 else 0) false) as [-> ->]; [by destruct ch|].
    by destruct ch. }
  split_and!; [exact Hrt| |reflexivity]. intros path p E. unfold NewParamsFromPath in E.
  destruct (split_on "/" path) as [|s0 [|s1 [|s2 [|s3 [|s4 [|]]]]]]; try done. res_inv.
  repeat match type of E with (if ?b then _ else _) = _ => destruct b eqn:?; try done end. res_inv.
  unfold hardenedInt in *.
  repeat match goal with X : ParseUint _ _ = Ok _ |- _ => pose proof (ParseUint_range _ _ _ X); revert X end.
  intros E0 _ _ _ _. match goal with X : negb (bool_decide (s0 = _)) = _ |- _ =>
    apply negb_false_iff, bool_decide_eq_true in X as -> end.
  change (ParseUint 32 (TrimSuffix_quote "44'")) with (@Ok Z 44) in E0. injection E0 as <-. cbn.
  split; [done|]. split; [|apply Hrt; done].
  repeat constructor; cbn; unfold is_uint32 in *; try lia; case_match; lia.
Qed.

(** What derivation does with other paths.  After a valid prefix, an empty part
    (an empty path, a doubled or a trailing slash) makes the slice expression
    panic instead of returning an error; a part that is not a number below
    [2^32], with or without an apostrophe, is an error. *)
Theorem DerivePrivateKeyForPath_malformed `{CryptoLaws, HDLaws} k c ps part rest :
  0 <= k < 2 ^ 256 -> Forall index_ok ps -> Forall (fun s => no_slash s = true) (part :: rest) ->
  let path := Join (map part_text ps ++ part :: rest) "/" in
  (part = "" -> DerivePrivateKeyForPath (ser 32 k) c path = Panic "slice bounds out of range") /\
  (part <> "" -> is_ok (ParseUint 32 (TrimSuffix_quote part)) = false ->
     DerivePrivateKeyForPath (ser 32 k) c path = Err "invalid BIP 32 path: %s").
Proof.
  intros Hk Hps Hns. cbv zeta. unfold DerivePrivateKeyForPath.
  rewrite split_on_Join; [|by destruct ps|apply Forall_app; split; [|exact Hns]].
  2: { apply Forall_map, Forall_true. intros [i h]. apply part_no_slash. }
  pose proof (derive_parts_child ps k c Hk Hps) as Hd. destruct (foldl _ _ _) as [k' c']. destruct Hd as (E & _).
  rewrite for_each_app, E. cbn [mbind res_bind for_each]. split.
  - by intros ->.
  - intros Hne Hp. assert (derive_part (ser 32 k', c') part = Err "invalid BIP 32 path: %s") as ->; [|done].
    unfold derive_part, last_chr. rewrite bool_decide_false by done. cbn [mbind res_bind].
    unfold TrimSuffix_quote, HasSuffix_quote in Hp. destruct (bool_decide (_ = "'"));
      by destruct (ParseUint_fails _ _ Hp) as [e ->].
Qed.

(* ------------------------------------------------------------------ *)
(** * Witnesses *)

#[local] Instance toy_hd : HDLib := {|
  hmac_sha512 key data := zeros 31 ++ [wrap_u8 (big_SetBytes data)] ++ zeros 31 ++ [wrap_u8 (big_SetBytes key + 1)];
  NewSeedWithErrorChecking mnemonic _ := Ok (to_bytes mnemonic);
  NewMnemonic _ := Ok "a a a a a a a a a a a a";
|}.
Lemma toy_hd_laws : HDLaws (H := toy_hd).
Proof.
  split; [done|]. intros key data. cbn -[wrap_u8]. repeat constructor; unfold is_uint8; try lia; apply wrap_u8_range.
Qed.

Definition toy_path : list (Z * bool) := [(44, true); (118, true); (0, true); (0, false); (3, false)].

(** Hashes whose left half is below the order of the toy group. *)
Definition small_hd : HDLib := {|
  hmac_sha512 key data := zeros 31 ++ [big_SetBytes data mod 3 + 1] ++ zeros 31 ++ [wrap_u8 (big_SetBytes key + 1)];
  NewSeedWithErrorChecking mnemonic _ := Ok (to_bytes mnemonic);
  NewMnemonic _ := Ok "a a a a a a a a a a a a";
|}.
Lemma small_hd_laws : HDLaws (H := small_hd).
Proof.
  split; [done|]. intros key data. cbn -[wrap_u8 Z.modulo]. pose proof (Z.mod_pos_bound (big_SetBytes data) 3).
  repeat constructor; unfold is_uint8; try lia; apply wrap_u8_range.
Qed.
Lemma DerivePrivateKeyForPath_BIP32_witness :
  exists k', fst <$> CKDpath (H := toy_lib) (H0 := small_hd) (2, zeros 32) toy_path = Some k' /\
  DerivePrivateKeyForPath (H := toy_lib) (H0 := small_hd) (ser 32 2) (zeros 32) "44'/118'/0'/0/3" = Ok (ser 32 k').
Proof.
  pose proof (@DerivePrivateKeyForPath_BIP32 toy_lib toy_laws small_hd small_hd_laws 2 (zeros 32) toy_path) as Hd.
  destruct (CKDpath (H := toy_lib) (H0 := small_hd) (2, zeros 32) toy_path) as [[k' c']|] eqn:E; [|vm_compute in E; discriminate E].
  exists k'. split; [reflexivity|]. destruct Hd as [Hk _].
  - split; vm_compute; [discriminate|reflexivity].
  - discriminate.
  - repeat constructor; vm_compute; discriminate.
  - exact Hk.
Defined.

Lemma BIP44Params_roundtrip_witness : NewParamsFromPath "44'/118'/1'/1/7" = Ok (NewParams 44 118 1 true 7).
Proof. apply (proj1 BIP44Params_roundtrip (NewParams 44 118 1 true 7)); [reflexivity|split; vm_compute; (discriminate || reflexivity)..]. Defined.

Lemma DerivePrivateKeyForPath_malformed_witness :
  DerivePrivateKeyForPath (H := toy_lib) (H0 := toy_hd) (ser 32 5) (zeros 32) "44'//0" = Panic "slice bounds out of range".
Proof.
  apply (@DerivePrivateKeyForPath_malformed toy_lib toy_laws toy_hd toy_hd_laws 5 (zeros 32) [(44, true)] "" ["0"]).
  - split; vm_compute; [discriminate|reflexivity].
  - repeat constructor; vm_compute; discriminate.
  - repeat constructor.
  - reflexivity.
Defined.
