(* ===== verification/Multisig.v ===== *)
(** Threshold multisignatures: signature data
    ([types/tx/signing/signature_data.go]), collecting signatures
    ([crypto/types/multisig/multisignature.go]) and the threshold public key
    ([crypto/keys/multisig/multisig.go]). *)
From S2P Require Import Prelude BitArray Keys.

(** [SignatureData]; the nil interface is [NilData].  A [SignMode] is the
    number of the enumeration. *)
Inductive SignatureData :=
| SingleSignatureData (SignMode : Z) (Signature : bytes)
| MultiData (BitArray : option CompactBitArray) (Signatures : list SignatureData)
| NilData.

(** [*MultiSignatureData] *)
Record MultiSignatureData := MkMulti { BitArray : option CompactBitArray; Signatures : list SignatureData }.

(** Public keys.  The keys of a threshold key are the values cached in its
    [Any]s, as packing leaves them. *)
Inductive PubKey :=
| Secp256k1Key (Key : bytes)
| Ed25519Key (Key : bytes)
| LegacyAminoPubKey (Threshold : Z) (PubKeys : list PubKey).

Section PubKeyInd.
Variable P : PubKey -> Prop.
Hypothesis Hs : forall k, P (Secp256k1Key k).
Hypothesis He : forall k, P (Ed25519Key k).
Hypothesis Hl : forall t ks, Forall P ks -> P (LegacyAminoPubKey t ks).
Fixpoint PubKey_nested_ind (k : PubKey) : P k :=
  match k with
  | Secp256k1Key k => Hs k
  | Ed25519Key k => He k
  | LegacyAminoPubKey t ks =>
      Hl t ks ((fix go ks := match ks return Forall P ks with
                             | [] => Forall_nil_2 _
                             | k :: ks => Forall_cons_2 _ _ _ (PubKey_nested_ind k) (go ks)
                             end) ks)
  end.
End PubKeyInd.

(* ------------------------------------------------------------------ *)
(** * Collecting signatures *)

Definition NewMultisig (n : Z) : res MultiSignatureData :=
  if n <? 0 then Panic "makeslice: cap out of range" else Ok (MkMulti (NewCompactBitArray n) []).

Definition index_out_of_range : string := "index out of range".

(** The array and the list of [mSig] afterwards. *)
Definition AddSignature (mSig : MultiSignatureData) (sig : SignatureData) (index : Z) : res MultiSignatureData :=
  newSigIndex ← NumTrueBitsBefore (BitArray mSig) index;
  exists_already ← GetIndex (BitArray mSig) index;
  let n := Z.to_nat newSigIndex in
  let sigs := Signatures mSig in
  if (exists_already : bool) then
    if decide (n < length sigs)%nat then Ok (MkMulti (BitArray mSig) (<[n := sig]> sigs))
    else Panic index_out_of_range
  else
    '(_, ba) ← SetIndex (BitArray mSig) index true;
    if newSigIndex =? Z.of_nat (length sigs) then Ok (MkMulti ba (sigs ++ [sig]))
    else
      let sigs := sigs ++ [SingleSignatureData 0 []] in
      if decide (length sigs < n + 1)%nat then Panic "slice bounds out of range"
      else
        let sigs := take (n + 1) sigs ++ go_copy (drop (n + 1) sigs) (drop n sigs) in
        Ok (MkMulti ba (<[n := sig]> sigs)).

Definition PubKey_Type (k : PubKey) : string :=
  match k with
  | Secp256k1Key _ => "secp256k1"
  | Ed25519Key _ => "ed25519"
  | LegacyAminoPubKey _ _ => "PubKeyMultisigThreshold"
  end.

(** [Equals]: single keys compare their types and bytes, a threshold key its
    threshold and its keys in order. *)
Fixpoint PubKey_Equals (m key : PubKey) : bool :=
  match m, key with
  | Secp256k1Key k, Secp256k1Key k' | Ed25519Key k, Ed25519Key k' =>
      bool_decide (PubKey_Type m = PubKey_Type key) && bytes_Equal k k'
  | LegacyAminoPubKey t ks, LegacyAminoPubKey t' ks' =>
      if negb (t =? t') || negb (bool_decide (length ks = length ks')) then false
      else (fix go ks ks' := match ks, ks' with
                             | k :: ks, k' :: ks' => if PubKey_Equals k k' then go ks ks' else false
                             | _, _ => true
                             end) ks ks'
  | _, _ => false
  end.

Fixpoint getIndex_from (pk : PubKey) (i : Z) (keys : list PubKey) : Z :=
  match keys with
  | [] => -1
  | k :: keys => if PubKey_Equals pk k then i else getIndex_from pk (i + 1) keys
  end.
Definition getIndex (pk : PubKey) (keys : list PubKey) : Z := getIndex_from pk 0 keys.

(** A nil pointer, interface or slice is [None]. *)
Definition AddSignatureFromPubKey (mSig : option MultiSignatureData) (sig : SignatureData)
    (pubkey : option PubKey) (keys : option (list PubKey)) : res MultiSignatureData :=
  match mSig with
  | None => Err "value of mSig is nil %v"
  | Some mSig =>
      match sig with
      | NilData => Err "value of sig is nil %v"
      | _ =>
          match pubkey, keys with
          | Some pubkey, Some keys =>
              let index := getIndex pubkey keys in
              if index =? -1 then Err "provided key %X doesn't exist in pubkeys: %s"
              else AddSignature mSig sig index
          | _, _ => Err "pubkey or keys can't be nil %v %v"
          end
      end
  end.

(* ------------------------------------------------------------------ *)
(** * Threshold keys *)

(** [uint32(k)] *)
Definition NewLegacyAminoPubKey (k : Z) (pubKeys : list PubKey) : res PubKey :=
  if k <=? 0 then Panic "threshold k of n multisignature: k <= 0"
  else if Z.of_nat (length pubKeys) <? k then Panic "threshold k of n multisignature: len(pubKeys) < k"
  else Ok (LegacyAminoPubKey (wrap_u32 k) pubKeys).

Section Verify.
Context `{L : CryptoLib}.
Variable getSignBytes : Z -> res bytes.

(** The [VerifySignature] methods; a threshold key's panics. *)
Definition VerifySignature (k : PubKey) (msg sig : bytes) : res bool :=
  match k with
  | Secp256k1Key key => Ok (secp_VerifySignature key msg sig)
  | Ed25519Key key => ed_VerifySignature key msg sig
  | LegacyAminoPubKey _ _ => Panic "not implemented"
  end.

(** The loop over the keys: [i] is the position of the key and [sigIndex] the
    index in the list of signatures. *)
Definition verify_loop (nested : PubKey -> option CompactBitArray -> list SignatureData -> res unit)
    (bitarray : option CompactBitArray) (sigs : list SignatureData) :=
  fix loop (i : Z) (sigIndex : nat) (pubKeys : list PubKey) {struct pubKeys} : res unit :=
    match pubKeys with
    | [] => Ok tt
    | pk :: pubKeys =>
        b ← GetIndex bitarray i;
        if (b : bool) then
          match sigs !! sigIndex with
          | None => Panic index_out_of_range
          | Some (SingleSignatureData mode sig) =>
              msg ← getSignBytes mode;
              ok ← VerifySignature pk msg sig;
              if (ok : bool) then loop (i + 1) (S sigIndex) pubKeys
              else Err "unable to verify signature at index %d"
          | Some (MultiData ba ss) => nested pk ba ss ≫= fun _ => loop (i + 1) (S sigIndex) pubKeys
          | Some NilData => Err "improper signature data type for index %d"
          end
        else loop (i + 1) sigIndex pubKeys
    end.

(** Only a threshold key has the method: the type assertion fails on others. *)
Fixpoint VerifyMultisignature (m : PubKey) (bitarray : option CompactBitArray) (sigs : list SignatureData) : res unit :=
  match m with
  | LegacyAminoPubKey Threshold pubKeys =>
      let size := Count bitarray in
      if negb (Z.of_nat (length pubKeys) =? size) then Err "bit array size is incorrect %d"
      else if (Z.of_nat (length sigs) <? Threshold) || (size <? Z.of_nat (length sigs))
      then Err "signature size is incorrect %d"
      else
        n ← NumTrueBitsBefore bitarray size;
        if n <? Threshold then Err "minimum number of signatures not set, have %d, expected %d"
        else verify_loop VerifyMultisignature bitarray sigs 0 0 pubKeys
  | _ => Err "unable to parse pubkey of index %d"
  end.
End Verify.

(* ------------------------------------------------------------------ *)
(** * Bit arrays behind a pointer *)

Definition ba_ok (ba : option CompactBitArray) : Prop := match ba with None => True | Some b => ba_wf b end.
Definition obit (ba : option CompactBitArray) (i : Z) : bool :=
  match ba with None => false | Some b => bool_decide (0 <= i < Count ba) && bit_at b i end.
Definition orank (ba : option CompactBitArray) (i : Z) : Z :=
  match ba with None => 0 | Some b => rank b i end.

Lemma GetIndex_obit ba i : ba_ok ba -> 0 <= i -> GetIndex ba i = Ok (obit ba i).
Proof.
  destruct ba as [b|]; [|done]. intros Hw Hi. rewrite GetIndex_bit by done. cbn [obit]. do 2 f_equal.
  apply bool_decide_ext. lia.
Qed.

Lemma NumTrueBits_orank ba i : ba_ok ba -> i <= Count ba -> NumTrueBitsBefore ba i = Ok (orank ba i).
Proof.
  destruct ba as [b|]; [intros Hw _; by apply NumTrueBitsBefore_rank|].
  intros _ Hi. unfold Count in Hi. unfold NumTrueBitsBefore. by rewrite (Z2Nat.nonpos i) by lia.
Qed.

Lemma orank_0 ba : orank ba 0 = 0.
Proof. destruct ba; [apply rank_0|done]. Qed.
Lemma orank_nonneg ba i : 0 <= orank ba i.
Proof. destruct ba; [apply rank_nonneg|done]. Qed.
Lemma orank_succ ba i :
  ba_ok ba -> 0 <= i < Count ba -> orank ba (i + 1) = orank ba i + (if obit ba i then 1 else 0).
Proof.
  destruct ba as [b|]; [|unfold Count; lia]. intros Hw Hi. cbn [orank obit].
  rewrite bool_decide_true by done. by apply rank_succ.
Qed.
Lemma orank_mono ba i j : 0 <= i <= j -> j <= Count ba -> orank ba i <= orank ba j.
Proof. destruct ba as [b|]; [apply rank_mono|done]. Qed.

(** Bits and ranks identify positions. *)
Lemma orank_lt ba i j :
  ba_ok ba -> 0 <= i < j -> j <= Count ba -> obit ba i = true -> orank ba i < orank ba j.
Proof.
  intros Hw Hi Hj Hb. pose proof (orank_succ ba i Hw ltac:(lia)) as E. rewrite Hb in E.
  pose proof (orank_mono ba (i + 1) j ltac:(lia) Hj). lia.
Qed.

(** Every rank below the number of marked positions is the rank of one. *)
Lemma orank_surj ba r :
  ba_ok ba -> 0 <= r < orank ba (Count ba) -> exists i, obit ba i = true /\ orank ba i = r.
Proof.
  intros Hok. assert (0 <= Count ba) as Hc0.
  { destruct ba as [b|]; [pose proof (Count_bounds b Hok); lia|done]. }
  rewrite <-(Z2Nat.id (Count ba)) by done.
  assert (Z.of_nat (Z.to_nat (Count ba)) <= Count ba) as Hk by lia. revert Hk. generalize (Z.to_nat (Count ba)).
  intros k. induction k as [|k IH]; intros Hk Hr.
  - change (Z.of_nat 0) with 0 in Hr. rewrite orank_0 in Hr. lia.
  - rewrite Nat2Z.inj_succ, <-Z.add_1_r, orank_succ in Hr by (done || lia).
    destruct (obit ba (Z.of_nat k)) eqn:Hb; [|apply IH; lia].
    destruct (Z.eq_dec r (orank ba (Z.of_nat k))) as [->|]; [by eexists|apply IH; lia].
Qed.

(* ------------------------------------------------------------------ *)
(** * Equality and lookup of keys *)

Lemma PubKey_Equals_eq p q : PubKey_Equals p q = true <-> p = q.
Proof.
  revert q. induction p as [k|k|t ks IH] using PubKey_nested_ind; intros [k'|k'|t' ks']; cbn [PubKey_Equals PubKey_Type];
    try done; unfold bytes_Equal.
  1,2: rewrite bool_decide_true by done; cbn [andb]; rewrite bool_decide_eq_true; split; [by intros ->|by intros [= ->]].
  destruct (Z.eqb_spec t t') as [->|Ht]; cbn [negb orb]; [|split; [done|by intros [= -> _]]].
  destruct (decide (length ks = length ks')) as [Hlen|Hlen].
  2: { rewrite bool_decide_false by done. split; [done|]. by intros [= ->]. }
  rewrite bool_decide_true by done. cbn [negb].
  assert ((fix go ks ks' := match ks, ks' with
             | k :: ks, k' :: ks' => if PubKey_Equals k k' then go ks ks' else false
             | _, _ => true
             end) ks ks' = true <-> ks = ks') as ->.
  { revert ks' Hlen. induction IH as [|k ks Hk _ IH]; intros [|k' ks'] Hlen; try done.
    specialize (IH ks' ltac:(by injection Hlen)).
    destruct (PubKey_Equals k k') eqn:E.
    - apply Hk in E as ->. rewrite IH. split; [by intros ->|by intros [= ->]].
    - split; [done|]. intros [= -> _]. rewrite (proj2 (Hk k') eq_refl) in E. done. }
  split; [by intros ->|by intros [= ->]].
Qed.

Lemma getIndex_from_spec pk keys i :
  (pk ∉ keys /\ getIndex_from pk i keys = -1) \/
  (exists pre post, keys = pre ++ pk :: post /\ pk ∉ pre /\ getIndex_from pk i keys = i + Z.of_nat (length pre)).
Proof.
  revert i. induction keys as [|k keys IH]; intros i; cbn [getIndex_from].
  - left. split; [apply not_elem_of_nil|done].
  - destruct (PubKey_Equals pk k) eqn:E.
    + apply PubKey_Equals_eq in E as ->. right. exists [], keys. split; [done|]. split; [apply not_elem_of_nil|].
      cbn. lia.
    + assert (pk <> k) as Hne by (intros ->; by rewrite (proj2 (PubKey_Equals_eq k k) eq_refl) in E).
      destruct (IH (i + 1)) as [[Hn ->]|(pre & post & -> & Hn & ->)].
      * left. split; [|done]. by apply not_elem_of_cons.
      * right. exists (k :: pre), post. split; [done|]. split; [by apply not_elem_of_cons|]. cbn [length]. lia.
Qed.

(* ------------------------------------------------------------------ *)
(** * Collected signatures as a finite map *)

(** [m] holds exactly the signatures of the map [g], over [n] positions: the
    bit of a position says whether it has signed, and its signature stands at
    the number of bits set before it. *)
Record represents (m : MultiSignatureData) (n : Z) (g : gmap Z SignatureData) : Prop := {
  rep_ok : ba_ok (BitArray m);
  rep_count : Count (BitArray m) = n;
  rep_dom i : obit (BitArray m) i = true <-> is_Some (g !! i);
  rep_size : Z.of_nat (size g) = orank (BitArray m) n;
  rep_length : Z.of_nat (length (Signatures m)) = orank (BitArray m) n;
  rep_sig i s : g !! i = Some s -> Signatures m !! Z.to_nat (orank (BitArray m) i) = Some s;
}.

Lemma obit_range ba i : obit ba i = true -> 0 <= i < Count ba.
Proof. destruct ba; [|done]. intros [H _]%andb_true_iff. by apply bool_decide_eq_true in H. Qed.

Lemma NewMultisig_represents n : 0 <= n -> exists m, NewMultisig n = Ok m /\ represents m n ∅.
Proof.
  intros Hn. unfold NewMultisig. rewrite (proj2 (Z.ltb_ge _ _)) by done. eexists. split; [done|].
  destruct (Z.eq_dec n 0) as [->|].
  - split; cbn; try done.
    intros i. rewrite lookup_empty. split; [done|]. intros [x Hx]. discriminate Hx.
  - destruct (New_spec n ltac:(lia)) as (b & E & Hw & Hc & Hb).
    assert (forall i, 0 <= i <= n -> rank b i = 0) as Hr.
    { intros i Hi. replace i with (Z.of_nat (Z.to_nat i)) by lia. assert (Z.of_nat (Z.to_nat i) <= n) as Hk by lia.
      revert Hk. generalize (Z.to_nat i). clear i Hi. intros k. induction k as [|k IH]; intros Hk; [apply rank_0|].
      rewrite Nat2Z.inj_succ. rewrite <-Z.add_1_r, rank_succ, Hb, IH by lia. done. }
    split; cbn [BitArray Signatures]; rewrite E; cbn [ba_ok obit orank]; try done.
    + intros i. rewrite Hb, andb_false_r, lookup_empty. split; [done|]. intros [x Hx]. discriminate Hx.
    + rewrite Hr by lia. done.
    + rewrite Hr by lia. done.
Qed.

(** Setting a bit moves the ranks above it by one. *)
Lemma orank_set b b' i n :
  ba_wf b -> ba_wf b' -> Count (Some b) = n -> Count (Some b') = n -> 0 <= i < n -> bit_at b i = false ->
  (forall j, 0 <= j -> bit_at b' j = if j =? i then true else bit_at b j) ->
  forall j, 0 <= j <= n -> rank b' j = rank b j + (if i <? j then 1 else 0).
Proof.
  intros Hw Hw' Hc Hc' Hi Hb Hb' j Hj. replace j with (Z.of_nat (Z.to_nat j)) by lia.
  assert (Z.of_nat (Z.to_nat j) <= n) as Hk by lia. revert Hk. generalize (Z.to_nat j). clear j Hj.
  intros k. induction k as [|k IH]; intros Hk.
  - change (Z.of_nat 0) with 0. rewrite (proj2 (Z.ltb_ge i 0)), !rank_0 by lia. done.
  - rewrite Nat2Z.inj_succ, <-Z.add_1_r, !rank_succ, IH, Hb' by lia.
    destruct (Z.ltb_spec i (Z.of_nat k)), (Z.ltb_spec i (Z.of_nat k + 1)), (Z.eqb_spec (Z.of_nat k) i) as [E|E];
      try lia. rewrite E, Hb. lia.
Qed.

(** The last step of [AddSignature]: expand by one, shift, store. *)
Lemma insert_at {A} (l : list A) n x d :
  (n <= length l)%nat ->
  let l' := l ++ [d] in
  <[n := x]> (take (n + 1) l' ++ go_copy (drop (n + 1) l') (drop n l')) = take n l ++ x :: drop n l.
Proof.
  intros Hn l'. unfold l'. clear l'. unfold go_copy. rewrite length_drop, length_app. cbn [length].
  rewrite (drop_ge (drop (n + 1) _)) by (rewrite !length_drop, length_app; cbn [length]; lia). rewrite app_nil_r.
  rewrite drop_app_le, (take_app_le (drop n l)) by (rewrite ?length_drop; lia).
  rewrite (firstn_all2 (drop n l)) by (rewrite length_drop; lia).
  destruct (decide (n = length l)) as [->|].
  - rewrite firstn_all2 by (rewrite length_app; cbn; lia). rewrite firstn_all, drop_all, app_nil_r.
    rewrite insert_app_r_alt by lia. by rewrite Nat.sub_diag.
  - rewrite take_app_le by lia. destruct (lookup_lt_is_Some_2 l n ltac:(lia)) as [y Hy].
    rewrite Nat.add_1_r, (take_S_r _ _ _ Hy), <-app_assoc. cbn [app].
    rewrite insert_app_r_alt by (rewrite length_take; lia). rewrite length_take, Nat.min_l, Nat.sub_diag by lia. done.
Qed.

(** Replacing the signature at a marked position. *)
Lemma represents_replace ba sigs n g s i :
  represents (MkMulti ba sigs) n g -> obit ba i = true ->
  represents (MkMulti ba (<[Z.to_nat (orank ba i) := s]> sigs)) n (<[i := s]> g).
Proof.
  intros [Hok Hc Hdom Hsize Hlen Hsig] Hb. cbn [BitArray Signatures] in *.
  pose proof (obit_range _ _ Hb) as Hi. pose proof (orank_nonneg ba i) as Hr0.
  pose proof (orank_lt ba i n Hok ltac:(lia) ltac:(lia) Hb) as Hlt.
  destruct (proj1 (Hdom i) Hb) as [s0 Hs0].
  split; cbn [BitArray Signatures]; try done.
  + intros j. rewrite Hdom. destruct (decide (j = i)) as [->|].
    * rewrite lookup_insert_eq. split; [by eexists|by rewrite Hs0].
    * by rewrite lookup_insert_ne.
  + by rewrite map_size_insert_Some by (by rewrite Hs0).
  + by rewrite length_insert.
  + intros j t Hj. destruct (decide (j = i)) as [->|Hne].
    * rewrite lookup_insert_eq in Hj. injection Hj as ->. apply list_lookup_insert_eq. lia.
    * rewrite lookup_insert_ne in Hj by done. rewrite list_lookup_insert_ne; [by apply Hsig|].
      assert (obit ba j = true) as Hbj by (apply Hdom; by eexists). pose proof (obit_range _ _ Hbj) as Hj'.
      pose proof (orank_nonneg ba j). intros Heq. assert (orank ba i = orank ba j) by lia.
      destruct (Z.lt_ge_cases i j).
      -- pose proof (orank_lt ba i j Hok ltac:(lia) ltac:(lia) Hb). lia.
      -- pose proof (orank_lt ba j i Hok ltac:(lia) ltac:(lia) Hbj). lia.
Qed.

(** Inserting the signature of a position that was not marked. *)
Lemma represents_fresh b b' sigs n g s i :
  represents (MkMulti (Some b) sigs) n g -> 0 <= i < n -> bit_at b i = false ->
  ba_wf b' -> Count (Some b') = Count (Some b) ->
  (forall j, 0 <= j -> bit_at b' j = if j =? i then true else bit_at b j) ->
  represents (MkMulti (Some b') (take (Z.to_nat (rank b i)) sigs ++ s :: drop (Z.to_nat (rank b i)) sigs)) n (<[i := s]> g).
Proof.
  intros [Hok Hc Hdom Hsize Hlen Hsig] Hi Hb Hw' Hc' Hb'. cbn [BitArray Signatures ba_ok obit orank] in *.
  pose proof (orank_set b b' i n Hok Hw' Hc ltac:(lia) ltac:(lia) Hb Hb') as Hrank.
  assert (g !! i = None) as Hnone.
  { apply eq_None_not_Some. intros Hx. apply Hdom in Hx. rewrite bool_decide_true in Hx by lia. cbn in Hx. congruence. }
  pose proof (rank_mono b i n ltac:(lia) ltac:(lia)). pose proof (rank_nonneg b i).
  set (r := Z.to_nat (rank b i)). assert (r <= length sigs)%nat as Hr by (unfold r; lia).
  split; cbn [BitArray Signatures ba_ok obit orank]; try done; try lia.
  * intros j. destruct (decide (j = i)) as [->|Hne].
    -- rewrite Hb', Z.eqb_refl, bool_decide_true, lookup_insert_eq by lia. split; [by eexists|done].
    -- rewrite lookup_insert_ne by done. rewrite <-Hdom, Hc'.
       destruct (bool_decide_reflect (0 <= j < Count (Some b))); [|done]. cbn [andb].
       rewrite Hb' by lia. by rewrite (proj2 (Z.eqb_neq j i)).
  * rewrite map_size_insert_None by done. rewrite Hrank by lia. rewrite (proj2 (Z.ltb_lt i n)) by lia. lia.
  * rewrite length_app, length_take. cbn [length]. rewrite length_drop, Hrank by lia.
    rewrite (proj2 (Z.ltb_lt i n)) by lia. lia.
  * intros j t Hj. destruct (decide (j = i)) as [->|Hne].
    -- rewrite lookup_insert_eq in Hj. injection Hj as ->. rewrite Hrank, (proj2 (Z.ltb_ge i i)), Z.add_0_r by lia.
       fold r. rewrite lookup_app_r by (rewrite length_take; lia). rewrite length_take, Nat.min_l by lia.
       by rewrite Nat.sub_diag.
    -- rewrite lookup_insert_ne in Hj by done. pose proof (Hsig j t Hj) as Hs.
       assert (bool_decide (0 <= j < Count (Some b)) && bit_at b j = true) as Hbj by (apply Hdom; by eexists).
       assert (0 <= j < n) as Hj'.
       { apply andb_true_iff in Hbj as [Hbj _]. apply bool_decide_eq_true in Hbj. lia. }
       rewrite Hrank by lia. pose proof (rank_nonneg b j). destruct (Z.ltb_spec i j).
       ++ pose proof (rank_mono b i j ltac:(lia) ltac:(lia)).
          rewrite lookup_app_r by (rewrite length_take; lia). rewrite length_take, Nat.min_l by lia.
          replace (Z.to_nat (rank b j + 1) - r)%nat with (S (Z.to_nat (rank b j) - r)) by lia.
          change ((s :: drop r sigs) !! S (Z.to_nat (rank b j) - r)) with (drop r sigs !! (Z.to_nat (rank b j) - r)%nat).
          rewrite lookup_drop. rewrite <-Hs. f_equal. lia.
       ++ pose proof (orank_lt (Some b) j i Hok ltac:(lia) ltac:(lia) Hbj) as Hlt. cbn [orank] in Hlt.
          rewrite Z.add_0_r, lookup_app_l by (rewrite length_take; lia). by rewrite lookup_take_lt by lia.
Qed.

Lemma AddSignature_represents m n g s i :
  represents m n g -> 0 <= i < n -> exists m', AddSignature m s i = Ok m' /\ represents m' n (<[i := s]> g).
Proof.
  intros Hm Hi. pose proof Hm as [Hok Hc Hdom Hsize Hlen Hsig]. destruct m as [ba sigs]. cbn [BitArray Signatures] in *.
  pose proof (orank_mono ba i n ltac:(lia) ltac:(lia)) as Hrn. pose proof (orank_nonneg ba i) as Hr0.
  unfold AddSignature. cbn [BitArray Signatures]. rewrite NumTrueBits_orank, GetIndex_obit by (done || lia).
  cbn [mbind res_bind]. destruct (obit ba i) eqn:Hb.
  - pose proof (orank_lt ba i n Hok ltac:(lia) ltac:(lia) Hb) as Hlt.
    rewrite decide_True by lia. eexists. split; [done|]. by apply represents_replace.
  - destruct ba as [b|]; [|unfold Count in Hc; lia]. cbn [ba_ok obit orank] in *.
    rewrite bool_decide_true in Hb by lia. cbn [andb] in Hb.
    destruct (SetIndex_spec b i true Hok ltac:(lia)) as (b' & E & Hw' & He & Hl & Hb').
    rewrite E. cbn [mbind res_bind]. pose proof (Count_length b b' He Hl) as Hc'.
    eexists. split; [|by eapply (represents_fresh b b')].
    destruct (Z.eqb_spec (rank b i) (Z.of_nat (length sigs))) as [Eq|].
    + rewrite Eq, Nat2Z.id. by rewrite firstn_all, drop_all.
    + rewrite decide_False by (rewrite length_app; cbn; lia). by rewrite insert_at by lia.
Qed.

(* ------------------------------------------------------------------ *)
(** * What verification promises *)

(** Every bit array in the data is one the code can build. *)
Fixpoint sig_ok (s : SignatureData) : Prop :=
  match s with
  | MultiData ba ss => ba_ok ba /\ (fix go ss := match ss with [] => True | s :: ss => sig_ok s /\ go ss end) ss
  | _ => True
  end.

Lemma sig_ok_lookup ba ss j s : sig_ok (MultiData ba ss) -> ss !! j = Some s -> sig_ok s.
Proof.
  intros [_ H]. revert j. induction ss as [|x ss IH]; [done|]. destruct H as [Hx H].
  intros [|j] Hj; [by injection Hj as <-|]. by apply (IH H j).
Qed.

Section Spec.
Context `{L : CryptoLib}.
Variable getSignBytes : Z -> res bytes.

(** The specification: a signature is valid for a single key when it verifies
    over the bytes of its mode; it is valid for a threshold key when the bit
    array has a position per key, at least [t] positions are marked, and the
    signature of each marked position is valid for the key there. *)
Inductive Valid : PubKey -> SignatureData -> Prop :=
| Valid_single k mode sig msg :
    getSignBytes mode = Ok msg -> VerifySignature k msg sig = Ok true ->
    Valid k (SingleSignatureData mode sig)
| Valid_multi t keys ba sigs :
    Count ba = Z.of_nat (length keys) ->
    t <= Z.of_nat (length sigs) <= Z.of_nat (length keys) ->
    t <= orank ba (Count ba) ->
    (forall j k, keys !! j = Some k -> obit ba (Z.of_nat j) = true ->
       exists s, sigs !! Z.to_nat (orank ba (Z.of_nat j)) = Some s /\ Valid k s) ->
    Valid (LegacyAminoPubKey t keys) (MultiData ba sigs).

(** Acceptance of one signature by the body of the loop. *)
Definition accepts (nested : PubKey -> option CompactBitArray -> list SignatureData -> res unit)
    (k : PubKey) (s : SignatureData) : Prop :=
  match s with
  | SingleSignatureData mode sig => exists msg, getSignBytes mode = Ok msg /\ VerifySignature k msg sig = Ok true
  | MultiData ba ss => nested k ba ss = Ok tt
  | NilData => False
  end.

Lemma verify_loop_spec nested ba sigs keys i :
  ba_ok ba -> 0 <= i -> i + Z.of_nat (length keys) = Count ba ->
  verify_loop getSignBytes nested ba sigs i (Z.to_nat (orank ba i)) keys = Ok tt <->
  forall j k, keys !! j = Some k -> obit ba (i + Z.of_nat j) = true ->
    exists s, sigs !! Z.to_nat (orank ba (i + Z.of_nat j)) = Some s /\ accepts nested k s.
Proof.
  intros Hok. revert i. induction keys as [|k keys IH]; intros i Hi Hlen; [done|].
  cbn [length] in Hlen. rewrite Nat2Z.inj_succ in Hlen. cbn [verify_loop].
  pose proof (orank_succ ba i Hok ltac:(lia)) as Hs. pose proof (orank_nonneg ba i).
  specialize (IH (i + 1) ltac:(lia) ltac:(lia)).
  assert (forall P : nat -> Prop, (forall j, P j) <-> P O /\ (forall j, P (S j))) as Hcons.
  { intros P. split; [by split|]. intros [H0 HS] [|j]; auto. }
  rewrite Hcons. cbn [lookup list_lookup]. 
  assert ((forall j k', keys !! j = Some k' -> obit ba (i + Z.of_nat (S j)) = true ->
     exists s, sigs !! Z.to_nat (orank ba (i + Z.of_nat (S j))) = Some s /\ accepts nested k' s) <->
    (forall j k', keys !! j = Some k' -> obit ba (i + 1 + Z.of_nat j) = true ->
     exists s, sigs !! Z.to_nat (orank ba (i + 1 + Z.of_nat j)) = Some s /\ accepts nested k' s)) as ->.
  { split; intros Hx j; specialize (Hx j);
      by replace (i + Z.of_nat (S j)) with (i + 1 + Z.of_nat j) in * by lia. }
  change (Z.of_nat 0) with 0. rewrite Z.add_0_r. rewrite GetIndex_obit by done. cbn [mbind res_bind].
  destruct (obit ba i) eqn:Hb.
  2: { rewrite Z.add_0_r in Hs. rewrite <-Hs, IH. split; [intros Hx; by split|by intros [_ Hx]]. }
  replace (Z.to_nat (orank ba (i + 1))) with (S (Z.to_nat (orank ba i))) in IH by lia.
  rewrite <-IH. clear IH Hcons Hs. set (rest := verify_loop _ _ _ _ _ _ _).
  destruct (sigs !! Z.to_nat (orank ba i)) as [s|] eqn:Es.
  2: { split; [done|]. intros [Hx _]. by destruct (Hx k eq_refl eq_refl) as (? & ? & _). }
  assert ((forall k0, Some k = Some k0 -> true = true -> exists s0, Some s = Some s0 /\ accepts nested k0 s0) <->
    accepts nested k s) as ->.
  { split; [intros Hx; by destruct (Hx k eq_refl eq_refl) as (? & [= <-] & ?)|].
    intros Hx k0 [= <-] _. by exists s. }
  destruct s as [mode sig|ba' ss|]; cbn [accepts].
  - split.
    + intros Hx. res_inv. destruct a0; [|done]. split; [by eexists|done].
    + intros [(msg & -> & Hv) Hx]. cbn [mbind res_bind]. rewrite Hv. exact Hx.
  - destruct (nested k ba' ss) as [[]|e|p]; cbn [mbind res_bind]; (split; [|by intros []]); done || (intros Hx; by split).
  - split; [done|by intros []].
Qed.

Lemma verify_spec pk :
  forall ba sigs, sig_ok (MultiData ba sigs) ->
  VerifyMultisignature getSignBytes pk ba sigs = Ok tt <-> Valid pk (MultiData ba sigs).
Proof.
  induction pk as [key|key|t keys IH] using PubKey_nested_ind; intros ba sigs Hsig;
    [split; [done|intros Hv; by inversion Hv]..|].
  pose proof Hsig as [Hok _]. cbn [VerifyMultisignature].
  assert (forall j k s, keys !! j = Some k -> sigs !! Z.to_nat (orank ba (Z.of_nat j)) = Some s ->
    accepts (VerifyMultisignature getSignBytes) k s <-> Valid k s) as Hacc.
  { intros j k s Hk Hs. apply (sig_ok_lookup _ _ _ _ Hsig) in Hs as Hss.
    destruct s as [mode sig|ba' ss|]; cbn [accepts].
    - split; [intros (msg & H1 & H2); by eapply Valid_single|]. intros Hv. inversion Hv; subst. by eexists.
    - rewrite Forall_lookup in IH. by apply (IH j k Hk).
    - split; [done|]. intros Hv. inversion Hv. }
  destruct (Z.eqb_spec (Z.of_nat (length keys)) (Count ba)) as [Hlen|Hlen]; cbn [negb];
    [|split; [done|intros Hv; inversion Hv; lia]].
  destruct (Z.ltb_spec (Z.of_nat (length sigs)) t); cbn [orb]; [split; [done|intros Hv; inversion Hv; lia]|].
  destruct (Z.ltb_spec (Count ba) (Z.of_nat (length sigs))); [split; [done|intros Hv; inversion Hv; lia]|].
  rewrite NumTrueBits_orank by (done || lia). cbn [mbind res_bind].
  destruct (Z.ltb_spec (orank ba (Count ba)) t); [split; [done|intros Hv; inversion Hv; lia]|].
  pose proof (verify_loop_spec (VerifyMultisignature getSignBytes) ba sigs keys 0 Hok ltac:(lia) ltac:(lia)) as Hloop.
  rewrite orank_0 in Hloop. change (Z.to_nat 0) with O in Hloop. rewrite Hloop. clear Hloop. split.
  - intros Hx. apply Valid_multi; [lia|lia|done|]. intros j k Hk Hb. destruct (Hx j k Hk Hb) as (s & Hs & Ha).
    exists s. split; [done|]. by apply (Hacc j k s Hk Hs).
  - intros Hv. inversion Hv as [|? ? ? ? _ _ _ Hx]; subst. intros j k Hk Hb.
    destruct (Hx j k Hk Hb) as (s & Hs & Ha). exists s. split; [done|]. by apply (Hacc j k s Hk Hs).
Qed.
End Spec.

(** The marked positions, in order. *)
Definition signers (ba : option CompactBitArray) : list nat :=
  filter (fun j => obit ba (Z.of_nat j) = true) (seq 0 (Z.to_nat (Count ba))).

Lemma signers_length ba : ba_ok ba -> Z.of_nat (length (signers ba)) = orank ba (Count ba).
Proof.
  intros Hok. assert (0 <= Count ba) as Hc0.
  { destruct ba as [b|]; [pose proof (Count_bounds b Hok); lia|done]. }
  unfold signers. rewrite <-(Z2Nat.id (Count ba)) at 2 by done.
  assert (Z.of_nat (Z.to_nat (Count ba)) <= Count ba) as Hk by lia. revert Hk. generalize (Z.to_nat (Count ba)).
  intros k. induction k as [|k IH]; intros Hk; [by rewrite orank_0|].
  rewrite seq_S, filter_app, length_app, Nat2Z.inj_add, IH by lia. cbn [Nat.add].
  rewrite Nat2Z.inj_succ, <-Z.add_1_r, orank_succ by (done || lia).
  rewrite filter_cons, filter_nil. by destruct (decide (obit ba (Z.of_nat k) = true)) as [->| ->%not_true_is_false].
Qed.

(* ------------------------------------------------------------------ *)
(** * Properties *)

(** C8: Threshold verification.  For any nesting of threshold keys, and for data
    whose bit arrays have the shape that the code builds ([sig_ok]; one read off
    the wire can have another, see [BitArray.CompactMarshal_roundtrip]),
    [VerifyMultisignature] succeeds exactly on the signatures the specification
    [Valid] admits.  When it succeeds, at least [t] distinct positions of the list
    of keys have a valid signature of the key at that position.  The positions are
    distinct, not the keys: nothing checks that a list of keys holds no key twice,
    and a key that is listed twice counts twice. *)
Theorem VerifyMultisignature_Valid `{CryptoLib} getSignBytes t keys ba sigs :
  sig_ok (MultiData ba sigs) ->
  (VerifyMultisignature getSignBytes (LegacyAminoPubKey t keys) ba sigs = Ok tt <->
   Valid getSignBytes (LegacyAminoPubKey t keys) (MultiData ba sigs)) /\
  (VerifyMultisignature getSignBytes (LegacyAminoPubKey t keys) ba sigs = Ok tt ->
   exists js, NoDup js /\ t <= Z.of_nat (length js) /\
     forall j, j ∈ js -> exists k s, keys !! j = Some k /\ s ∈ sigs /\ Valid getSignBytes k s).
Proof.
  intros Hsig. split; [by apply verify_spec|]. intros Hv. apply verify_spec in Hv; [|done].
  inversion Hv as [|? ? ? ? Hc _ Ht Hx]; subst. destruct Hsig as [Hok _].
  exists (signers ba). split; [apply NoDup_filter, NoDup_seq|]. rewrite signers_length by done. split; [done|].
  intros j Hj. unfold signers in Hj. apply list_elem_of_filter in Hj as [Hb Hj]. apply elem_of_seq in Hj.
  destruct (lookup_lt_is_Some_2 keys j ltac:(lia)) as [k Hk]. destruct (Hx j k Hk Hb) as (s & Hs & Hval).
  exists k, s. split; [done|]. split; [by eapply list_elem_of_lookup_2|done].
Qed.

Lemma VerifyMultisignature_Valid_witness :
  Valid (L := toy_lib) (fun _ => Ok [1]) (LegacyAminoPubKey 1 [Secp256k1Key [3; 1]; Secp256k1Key [2; 2]])
    (MultiData (Some (MkBitArray 2 [64])) [SingleSignatureData 1 (zeros 31 ++ [3] ++ zeros 31 ++ [1])]).
Proof.
  apply (VerifyMultisignature_Valid (H := toy_lib) (fun _ => Ok [1]) 1
           [Secp256k1Key [3; 1]; Secp256k1Key [2; 2]] (Some (MkBitArray 2 [64]))).
  - split; [|by split]. split; [split; vm_compute; [done|reflexivity]| |done].
    repeat constructor; by vm_compute.
  - vm_compute. reflexivity.
Defined.

(** Adding a list of signatures one after the other. *)
Definition AddSignatures (m : MultiSignatureData) (entries : list (Z * SignatureData)) : res MultiSignatureData :=
  for_each (fun m '(i, s) => AddSignature m s i) m entries.

Lemma AddSignatures_represents m n g entries :
  represents m n g -> Forall (fun e => 0 <= fst e < n) entries ->
  exists m', AddSignatures m entries = Ok m' /\ represents m' n (foldl (fun g '(i, s) => <[i := s]> g) g entries).
Proof.
  intros Hm He. revert m g Hm. induction He as [|[i s] entries Hi _ IH]; intros m g Hm; [by exists m|].
  destruct (AddSignature_represents m n g s i Hm Hi) as (m1 & E & Hm1).
  unfold AddSignatures. cbn [for_each foldl]. rewrite E. by apply IH.
Qed.

Lemma entries_sig_ok n entries :
  Forall (fun e => 0 <= fst e < n /\ sig_ok (snd e)) entries ->
  forall i s, foldl (fun g '(i, s) => <[i := s]> g) (∅ : gmap Z SignatureData) entries !! i = Some s -> sig_ok s.
Proof.
  intros He. assert (forall g0 : gmap Z SignatureData, (forall i s, g0 !! i = Some s -> sig_ok s) ->
    forall i s, foldl (fun g '(i, s) => <[i := s]> g) g0 entries !! i = Some s -> sig_ok s) as Hgen.
  { induction He as [|[i s] entries [_ Hs] _ IH]; [done|]. intros g0 Hg0. cbn [foldl]. apply IH.
    intros j s' Hj. destruct (decide (j = i)) as [->|].
    - rewrite lookup_insert_eq in Hj. by injection Hj as <-.
    - rewrite lookup_insert_ne in Hj by done. by eapply Hg0. }
  apply Hgen. intros i s. by rewrite lookup_empty.
Qed.

(** A multisignature representing well-formed data is well-formed. *)
Lemma represents_sig_ok m n g :
  represents m n g -> (forall i s, g !! i = Some s -> sig_ok s) -> sig_ok (MultiData (BitArray m) (Signatures m)).
Proof.
  intros [Hok Hc Hdom Hsize Hlen Hsig] Hg. split; [done|].
  assert (forall s, s ∈ Signatures m -> sig_ok s) as Hin.
  { intros s [r Hr']%list_elem_of_lookup_1. pose proof (lookup_lt_Some _ _ _ Hr').
    destruct (orank_surj (BitArray m) (Z.of_nat r) Hok ltac:(rewrite Hc; lia)) as (i & Hb & Hi).
    destruct (proj1 (Hdom i) Hb) as [s' Hs']. pose proof (Hsig _ _ Hs') as Hx. rewrite Hi, Nat2Z.id, Hr' in Hx.
    injection Hx as ->. by eapply Hg. }
  clear -Hin. induction (Signatures m) as [|s ss IH]; [done|]. split; [apply Hin, list_elem_of_here|].
  apply IH. intros s' Hs'. by apply Hin, list_elem_of_further.
Qed.

(** C33: collecting signatures.  Signatures added to a new multisignature in any
    order, later ones replacing earlier ones at the same position, are exactly
    the finite map of the additions: the list stays sorted by position and in
    step with the bit array.  The result verifies under a threshold key over
    those positions if and only if at least [t] positions have signed and each
    of their last signatures is valid for its key. *)
Theorem Multisig_collect `{CryptoLib} getSignBytes t keys entries :
  let n := Z.of_nat (length keys) in
  let g := foldl (fun g '(i, s) => <[i := s]> g) (∅ : gmap Z SignatureData) entries in
  t <= n -> Forall (fun e => 0 <= fst e < n /\ sig_ok (snd e)) entries ->
  exists m, (NewMultisig n ≫= fun m => AddSignatures m entries) = Ok m /\ represents m n g /\
    (VerifyMultisignature getSignBytes (LegacyAminoPubKey t keys) (BitArray m) (Signatures m) = Ok tt <->
     t <= Z.of_nat (size g) /\
     forall j k s, keys !! j = Some k -> g !! Z.of_nat j = Some s -> Valid getSignBytes k s).
Proof.
  intros n g Ht He. destruct (NewMultisig_represents n ltac:(lia)) as (m0 & E0 & Hm0).
  destruct (AddSignatures_represents m0 n ∅ entries Hm0) as (m & E & Hm).
  { eapply Forall_impl; [exact He|]. by intros ? []. }
  exists m. rewrite E0. cbn [mbind res_bind]. split; [done|]. split; [done|]. fold g in Hm.
  pose proof Hm as [Hok Hc Hdom Hsize Hlen Hsig].
  assert (forall i s, g !! i = Some s -> sig_ok s) as Hg by by apply entries_sig_ok with n.
  assert (orank (BitArray m) n = Z.of_nat (length (Signatures m))) as Hr by lia.
  assert (Z.of_nat (size g) <= n) as Hsn.
  { rewrite Hsize, <-Hc, <-signers_length by done. unfold signers. rewrite Hc.
    pose proof (length_filter (fun j => obit (BitArray m) (Z.of_nat j) = true) (seq 0 (Z.to_nat n))) as Hf.
    rewrite length_seq in Hf. lia. }
  pose proof (represents_sig_ok m n g ltac:(done) Hg) as Hall.
  rewrite (verify_spec getSignBytes _ _ _ Hall). split.
  - intros Hv. inversion Hv as [|? ? ? ? _ Hl Hrt Hx]; subst. rewrite Hc in Hrt. split; [lia|].
    intros j k s Hk Hs. destruct (Hx j k Hk) as (s' & Hs' & Hval); [apply Hdom; by eexists|].
    rewrite (Hsig _ _ Hs) in Hs'. by injection Hs' as <-.
  - intros [Hts Hx]. apply Valid_multi; [done|lia|rewrite Hc; lia|]. intros j k Hk Hb.
    destruct (proj1 (Hdom _) Hb) as [s Hs]. exists s. split; [by apply Hsig|]. by eapply Hx.
Qed.

Lemma Multisig_collect_witness :
  exists m, (NewMultisig 3 ≫= fun m => AddSignatures m
      [(2, SingleSignatureData 1 [5]); (0, SingleSignatureData 1 [7]); (2, SingleSignatureData 1 [6])]) = Ok m /\
    represents m 3 {[ 2 := SingleSignatureData 1 [6]; 0 := SingleSignatureData 1 [7] ]}.
Proof.
  destruct (Multisig_collect (H := toy_lib) (fun _ => Ok [1]) 2 [Secp256k1Key [1]; Secp256k1Key [2]; Secp256k1Key [3]]
      [(2, SingleSignatureData 1 [5]); (0, SingleSignatureData 1 [7]); (2, SingleSignatureData 1 [6])])
    as (m & E & Hm & _).
  - cbn. lia.
  - repeat constructor; cbn; lia.
  - exists m. split; [exact E|]. revert Hm.
    match goal with |- represents _ _ ?a -> represents _ _ ?b => assert (a = b) as -> by (by apply map_eq_iff; vm_compute) end.
    exact (fun Hm => Hm).
Defined.

(** Signatures are attributed to keys.  [Equals] decides equality of public
    keys of any nesting, so [AddSignatureFromPubKey] stores a signature at the
    first position of the signer's key and refuses keys that are not among the
    signers, nil keys and nil signatures without changing anything. *)
Theorem AddSignatureFromPubKey_spec :
  (forall p q, PubKey_Equals p q = true <-> p = q) /\
  (forall m s pk pre post, s <> NilData -> pk ∉ pre ->
     AddSignatureFromPubKey (Some m) s (Some pk) (Some (pre ++ pk :: post)) = AddSignature m s (Z.of_nat (length pre))) /\
  (forall m s pk keys, pk ∉ keys -> exists e, AddSignatureFromPubKey (Some m) s (Some pk) (Some keys) = Err e) /\
  (forall m s pk keys, m = None \/ s = NilData \/ pk = None \/ keys = None ->
     exists e, AddSignatureFromPubKey m s pk keys = Err e).
Proof.
  assert (forall m s pk keys, s <> NilData ->
    AddSignatureFromPubKey (Some m) s (Some pk) (Some keys) =
    if getIndex pk keys =? -1 then Err "provided key %X doesn't exist in pubkeys: %s"
    else AddSignature m s (getIndex pk keys)) as E by (by intros m [] pk keys).
  split_and!.
  - exact PubKey_Equals_eq.
  - intros m s pk pre post Hs Hpre. rewrite E by done. unfold getIndex.
    destruct (getIndex_from_spec pk (pre ++ pk :: post) 0) as [[Hn _]|(pre' & post' & Heq & Hn & ->)].
    + destruct Hn. apply elem_of_app. right. apply list_elem_of_here.
    + assert (length pre' = length pre) as Hl.
      { clear -Heq Hn Hpre. revert pre' Heq Hn. induction pre as [|x pre IH]; intros [|y pre'] Heq Hn; cbn in *;
          simplify_eq; try done.
        - destruct Hn. apply list_elem_of_here.
        - destruct Hpre. apply list_elem_of_here.
        - f_equal. apply IH; [by intros ?; destruct Hpre; apply list_elem_of_further|done|].
          by intros ?; destruct Hn; apply list_elem_of_further. }
      rewrite Hl, Z.add_0_l. by rewrite (proj2 (Z.eqb_neq _ _)) by lia.
  - intros m s pk keys Hn. assert (s = NilData \/ s <> NilData) as [->|Hs] by (destruct s; auto); [by eexists|].
    rewrite E by done. unfold getIndex.
    destruct (getIndex_from_spec pk keys 0) as [[_ ->]|(pre & post & -> & _ & _)]; [by eexists|].
    destruct Hn. apply elem_of_app. right. apply list_elem_of_here.
  - intros [m|] s pk keys Hx; [|by eexists].
    destruct s; destruct pk, keys, Hx as [?|[?|[?|?]]]; try done; by eexists.
Qed.

(** Threshold keys have [0 < k <= n]: creation panics otherwise, and within
    32 bits the threshold is kept. *)
Theorem NewLegacyAminoPubKey_spec k pubKeys :
  (0 < k <= Z.of_nat (length pubKeys) /\ NewLegacyAminoPubKey k pubKeys = Ok (LegacyAminoPubKey (wrap_u32 k) pubKeys)) \/
  (~ 0 < k <= Z.of_nat (length pubKeys) /\ panics (NewLegacyAminoPubKey k pubKeys) = true).
Proof.
  unfold NewLegacyAminoPubKey. destruct (Z.leb_spec k 0); [right; split; [lia|done]|].
  destruct (Z.ltb_spec (Z.of_nat (length pubKeys)) k); [right|left]; (split; [lia|done]).
Qed.

(** Verification trusts the bit array.  A multisignature that marks more
    positions than it carries signatures passes every check before the loop, and
    the loop then panics with an index out of range. *)
Theorem VerifyMultisignature_panics `{CryptoLib} getSignBytes k mode sig msg :
  getSignBytes mode = Ok msg -> VerifySignature k msg sig = Ok true ->
  VerifyMultisignature getSignBytes (LegacyAminoPubKey 1 [k; k]) (Some (MkBitArray 2 [192]))
    [SingleSignatureData mode sig] = Panic index_out_of_range.
Proof.
  intros Hm Hv. cbn [VerifyMultisignature length]. 
  change (Count (Some (MkBitArray 2 [192]))) with 2.
  change (NumTrueBitsBefore (Some (MkBitArray 2 [192])) 2) with (Ok 2).
  cbn. by rewrite Hm; cbn [mbind res_bind]; rewrite Hv.
Qed.

Lemma VerifyMultisignature_panics_witness :
  VerifyMultisignature (L := toy_lib) (fun _ => Ok [1])
    (LegacyAminoPubKey 1 [Secp256k1Key [3; 1]; Secp256k1Key [3; 1]]) (Some (MkBitArray 2 [192]))
    [SingleSignatureData 1 (zeros 31 ++ [4] ++ zeros 31 ++ [1])] = Panic index_out_of_range.
Proof.
  apply (VerifyMultisignature_panics (H := toy_lib) _ _ _ _ [1]); vm_compute; reflexivity.
Defined.
