(* ===== verification/Address.v ===== *)
(** Addresses: [types/address.go], the wrappers of [utils/bech32/bech32.go] and
    the prefixes of [types/env.go].  The bech32 codec itself is the library
    btcutil; it is the class [Bech32Lib]. *)
From S2P Require Import Prelude GoStrings Keys.
From Stdlib Require Import Ascii.

Class Bech32Lib := {
  bech32_Encode : string -> bytes -> res string;
  bech32_Decode : string -> res (string * bytes);
  ConvertBits : bytes -> Z -> Z -> bool -> res bytes;
}.

(** Documented behaviour: regrouping bytes into 5-bit groups (with padding) is
    undone by the reverse conversion, and a string that [Encode] made from a
    lower-case prefix is decoded again unless it is longer than the 90
    characters BIP-173 allows. *)
Class Bech32Laws `{B : Bech32Lib} : Prop := {
  ConvertBits_regroup data :
    Forall is_uint8 data ->
    exists d5, ConvertBits data 8 5 true = Ok d5 /\ Forall (fun x => 0 <= x < 32) d5 /\
      ConvertBits d5 5 8 false = Ok data;
  bech32_Encode_total hrp d5 : Forall (fun x => 0 <= x < 32) d5 -> exists s, bech32_Encode hrp d5 = Ok s;
  bech32_Encode_format hrp d5 s : bech32_Encode hrp d5 = Ok s -> exists t, s = hrp +:+ String "1" t;
  bech32_Decode_Encode hrp d5 s :
    str_forall is_lower hrp = true -> hrp <> "" -> Forall (fun x => 0 <= x < 32) d5 ->
    bech32_Encode hrp d5 = Ok s -> (String.length s <= 90)%nat -> bech32_Decode s = Ok (hrp, d5);
}.

(* ------------------------------------------------------------------ *)
(** * Prefixes *)

Definition prefixChain : string := "".
Definition prefixAccount : string := "g".
Definition prefixValidator : string := "gxval".
Definition prefixConsensus : string := "e".
Definition prefixPublic : string := "conspub".
Definition prefixAddress : string := "x".

(** The one [AddrPrefixCfg]. *)
Definition prefixCfg : gmap string string :=
  list_to_map [
    ("account_addr", prefixChain +:+ prefixAccount +:+ prefixAddress);
    ("validator_addr", prefixChain +:+ prefixAccount +:+ prefixAddress);
    ("consensus_addr", prefixChain +:+ prefixConsensus +:+ prefixAddress);
    ("account_pub", prefixChain +:+ prefixAccount +:+ prefixPublic);
    ("validator_pub", prefixChain +:+ prefixValidator +:+ prefixPublic);
    ("consensus_pub", prefixChain +:+ prefixValidator +:+ prefixPublic)].
Definition prefix_of (key : string) : string := default "" (prefixCfg !! key).

Definition GetBech32AccountAddrPrefix : string := prefix_of "account_addr".
Definition GetBech32ValidatorAddrPrefix : string := prefix_of "validator_addr".
Definition GetBech32ConsensusAddrPrefix : string := prefix_of "consensus_addr".
Definition GetBech32AccountPubPrefix : string := prefix_of "account_pub".
Definition GetBech32ValidatorPubPrefix : string := prefix_of "validator_pub".
Definition GetBech32ConsensusPubPrefix : string := prefix_of "consensus_pub".

(* ------------------------------------------------------------------ *)
(** * Operations *)

(** [hex.DecodeString] *)
Definition hex_val (c : ascii) : option Z :=
  if is_digit c then Some (code c - 48)
  else if in_range "a" "f" c then Some (code c - 87)
  else if in_range "A" "F" c then Some (code c - 55)
  else None.
Fixpoint hex_DecodeString (s : string) : res bytes :=
  match s with
  | "" => Ok []
  | String a (String b s) =>
      match hex_val a, hex_val b with
      | Some x, Some y => bz ← hex_DecodeString s; Ok (x * 16 + y :: bz)
      | _, _ => Err "encoding/hex: invalid byte: %#U"
      end
  | String a "" =>
      match hex_val a with
      | Some _ => Err "encoding/hex: odd length hex string"
      | None => Err "encoding/hex: invalid byte: %#U"
      end
  end%string.

Section Address.
Context `{B : Bech32Lib}.

Definition ConvertAndEncode (hrp : string) (data : bytes) : res string :=
  converted ← ConvertBits data 8 5 true; bech32_Encode hrp converted.
Definition DecodeAndConvert (bech : string) : res (string * bytes) :=
  '(hrp, data) ← bech32_Decode bech;
  converted ← ConvertBits data 5 8 false;
  Ok (hrp, converted).

Definition GetFromBech32 (bech32str prefix : string) : res bytes :=
  if bool_decide (bech32str = "") then Err "decoding Bech32 address failed: must provide an address"
  else
    '(hrp, bz) ← DecodeAndConvert bech32str;
    if bool_decide (hrp = prefix) then Ok bz else Err "invalid Bech32 prefix; expected %s, got %s".

(** [AccAddress] *)
Definition Acc_Empty (aa : bytes) : bool := bytes_Equal aa [].
Definition Acc_String (aa : bytes) : res string :=
  if Acc_Empty aa then Ok "" else must (ConvertAndEncode GetBech32AccountAddrPrefix aa).
Definition Acc_Equals (aa aa2 : bytes) : bool :=
  if Acc_Empty aa && Acc_Empty aa2 then true else bytes_Equal aa aa2.
Definition AccAddressFromBech32 (address : string) : res bytes := GetFromBech32 address GetBech32AccountAddrPrefix.
Definition ValidateAccAddress (address : string) : res unit :=
  _ ← GetFromBech32 address GetBech32AccountAddrPrefix; Ok tt.
Definition MustAccAddressFromBech32 (address : string) : res bytes := must (AccAddressFromBech32 address).

(** [ValAddress] *)
Definition Val_Empty (va : bytes) : bool := bytes_Equal va [].
Definition Val_String (va : bytes) : res string := must (ConvertAndEncode GetBech32ValidatorAddrPrefix va).
Definition Val_Equals (va va2 : bytes) : bool :=
  if Val_Empty va && Val_Empty va2 then true else bytes_Equal va va2.
Definition ValAddressFromBech32 (address : string) : res bytes := GetFromBech32 address GetBech32ValidatorAddrPrefix.

(** [ConsAddress] *)
Definition Cons_String (ca : bytes) : res string := must (ConvertAndEncode GetBech32ConsensusAddrPrefix ca).
Definition ConsAddressFromHex (address : string) : res bytes :=
  if bool_decide (address = "") then Err "decoding Bech32 address failed: must provide an address"
  else hex_DecodeString address.

(** [Bech32PubKeyType]; an unknown type has the empty prefix. *)
Definition pub_prefix (pkt : string) : string :=
  if bool_decide (pkt = "accpub") then GetBech32AccountPubPrefix
  else if bool_decide (pkt = "valpub") then GetBech32ValidatorPubPrefix
  else if bool_decide (pkt = "conspub") then GetBech32ConsensusPubPrefix
  else "".
Definition Bech32ifyPubKey (pkt : string) (pubkey : bytes) : res string := ConvertAndEncode (pub_prefix pkt) pubkey.
(** Texts that are addresses. *)
Definition address_ok (address : string) : Prop := exists a, AccAddressFromBech32 address = Ok a.

(** [GetPubKeyFromBech32] before the amino decoding of the bytes. *)
Definition GetPubKeyFromBech32 {K} (PubKeyFromBytes : bytes -> res K) (pkt pubkeyStr : string) : res K :=
  bz ← GetFromBech32 pubkeyStr (pub_prefix pkt); PubKeyFromBytes bz.
End Address.

(* ------------------------------------------------------------------ *)
(** * Properties *)

Section Laws.
Context `{Bech32Laws}.

Lemma ConvertAndEncode_total hrp data : Forall is_uint8 data -> exists s, ConvertAndEncode hrp data = Ok s.
Proof.
  intros Hd. unfold ConvertAndEncode. destruct (ConvertBits_regroup data Hd) as (d5 & -> & H5 & _).
  by apply bech32_Encode_total.
Qed.

Lemma GetFromBech32_encode hrp data s :
  str_forall is_lower hrp = true -> hrp <> "" -> Forall is_uint8 data ->
  ConvertAndEncode hrp data = Ok s -> (String.length s <= 90)%nat ->
  s <> "" /\ forall prefix, GetFromBech32 s prefix =
    if bool_decide (hrp = prefix) then Ok data else Err "invalid Bech32 prefix; expected %s, got %s".
Proof.
  intros Hh Hne Hd E Hl. unfold ConvertAndEncode in E.
  destruct (ConvertBits_regroup data Hd) as (d5 & Ed & H5 & Eback). rewrite Ed in E. cbn [mbind res_bind] in E.
  pose proof (bech32_Decode_Encode hrp d5 s Hh Hne H5 E Hl) as Edec.
  destruct (bech32_Encode_format _ _ _ E) as [t Et].
  assert (s <> "") as Hs by (rewrite Et; by destruct hrp).
  split; [done|]. intros prefix. unfold GetFromBech32, DecodeAndConvert. rewrite bool_decide_false by done.
  by rewrite Edec; cbn [mbind res_bind]; rewrite Eback.
Qed.

Lemma Acc_String_encode aa s :
  Forall is_uint8 aa -> aa <> [] -> Acc_String aa = Ok s -> ConvertAndEncode "gx" aa = Ok s.
Proof.
  intros Ha Hne Hs. unfold Acc_String, Acc_Empty, bytes_Equal in Hs. rewrite bool_decide_false in Hs by done.
  change GetBech32AccountAddrPrefix with "gx" in Hs. destruct (ConvertAndEncode_total "gx" aa Ha) as [s' E].
  rewrite E in Hs. cbn in Hs. congruence.
Qed.

Lemma Acc_String_total aa : Forall is_uint8 aa -> exists s, Acc_String aa = Ok s.
Proof.
  intros Ha. unfold Acc_String. destruct (Acc_Empty aa); [by eexists|].
  destruct (ConvertAndEncode_total GetBech32AccountAddrPrefix aa Ha) as [s ->]. by exists s.
Qed.

Lemma Acc_String_read aa s :
  Forall is_uint8 aa -> aa <> [] -> Acc_String aa = Ok s -> (String.length s <= 90)%nat ->
  s <> "" /\ forall prefix, GetFromBech32 s prefix =
    if bool_decide ("gx" = prefix) then Ok aa else Err "invalid Bech32 prefix; expected %s, got %s".
Proof.
  intros Ha Hne Hs Hl. apply GetFromBech32_encode; [done|done|done|by apply Acc_String_encode|done].
Qed.

Lemma Acc_String_inj aa bb s :
  Forall is_uint8 aa -> Forall is_uint8 bb -> Acc_String aa = Ok s -> Acc_String bb = Ok s ->
  (String.length s <= 90)%nat -> aa = bb.
Proof.
  intros Ha Hb Hsa Hsb Hl.
  destruct (decide (aa = [])) as [->|Hna], (decide (bb = [])) as [->|Hnb]; try done.
  - injection Hsa as <-. by destruct (Acc_String_read bb "" Hb Hnb Hsb Hl).
  - injection Hsb as <-. by destruct (Acc_String_read aa "" Ha Hna Hsa Hl).
  - destruct (Acc_String_read aa s Ha Hna Hsa Hl) as [_ Ra]. destruct (Acc_String_read bb s Hb Hnb Hsb Hl) as [_ Rb].
    specialize (Ra "gx"). rewrite (Rb "gx"), !bool_decide_true in Ra by done. congruence.
Qed.
End Laws.

(** Account addresses.  The text of an address of bytes never panics; read
    back, it is the same address, as long as it fits the 90 characters of
    bech32, so different addresses have different texts.  The empty address is
    the empty text, which no parser accepts.  Texts of consensus addresses are
    refused as account addresses, but account and validator addresses share
    their prefix: the text of an account is accepted as a validator. *)
Theorem Address_roundtrip `{Bech32Laws} :
  (forall aa, Forall is_uint8 aa -> exists s, Acc_String aa = Ok s) /\
  (forall aa s, Forall is_uint8 aa -> aa <> [] -> Acc_String aa = Ok s -> (String.length s <= 90)%nat ->
     AccAddressFromBech32 s = Ok aa /\ ValidateAccAddress s = Ok tt /\ ValAddressFromBech32 s = Ok aa) /\
  (forall aa bb s, Forall is_uint8 aa -> Forall is_uint8 bb -> Acc_String aa = Ok s -> Acc_String bb = Ok s ->
     (String.length s <= 90)%nat -> aa = bb) /\
  (Acc_String [] = Ok "" /\ is_ok (AccAddressFromBech32 "") = false) /\
  (forall ca s, Forall is_uint8 ca -> Cons_String ca = Ok s -> (String.length s <= 90)%nat ->
     is_ok (AccAddressFromBech32 s) = false).
Proof.
  split_and!; try done.
  - exact Acc_String_total.
  - intros aa s Ha Hne Hs Hl. destruct (Acc_String_read aa s Ha Hne Hs Hl) as [_ Hr].
    unfold AccAddressFromBech32, ValidateAccAddress, ValAddressFromBech32. rewrite !Hr. done.
  - exact Acc_String_inj.
  - intros ca s Hc Hs Hl. destruct (ConvertAndEncode_total "ex" ca Hc) as [s' E].
    assert (s' = s) as -> by (unfold Cons_String in Hs; change GetBech32ConsensusAddrPrefix with "ex" in Hs;
      rewrite E in Hs; by injection Hs).
    destruct (GetFromBech32_encode "ex" ca s eq_refl ltac:(done) Hc E Hl) as [_ Hr].
    unfold AccAddressFromBech32. by rewrite Hr.
Qed.

(** An instance that writes every byte as two letters, without a checksum. *)
Fixpoint toy_split (l : bytes) : bytes :=
  match l with [] => [] | b :: l => b / 16 :: b mod 16 :: toy_split l end.
Fixpoint toy_join (l : bytes) : bytes :=
  match l with a :: b :: l => a * 16 + b :: toy_join l | _ => [] end.
#[local] Instance toy_bech32 : Bech32Lib := {|
  bech32_Encode hrp d := Ok (hrp +:+ String "1" (bytes_str ((fun x => wrap_u8 (x + 97)) <$> d)));
  bech32_Decode s :=
    match span is_lower s with
    | (hrp, String _ d) => Ok (hrp, (fun x => x - 97) <$> to_bytes d)
    | _ => Err "invalid bech32 string"
    end;
  ConvertBits d from _ _ := Ok (if from =? 8 then toy_split d else toy_join d);
|}.
Lemma toy_split_ok d :
  Forall is_uint8 d -> Forall (fun x => 0 <= x < 32) (toy_split d) /\ toy_join (toy_split d) = d.
Proof.
  induction 1 as [|b d Hb _ [IH1 IH2]]; [done|]. unfold is_uint8 in Hb. change (2 ^ 8) with 256 in Hb.
  cbn [toy_split toy_join]. pose proof (Z.div_mod b 16 ltac:(lia)). pose proof (Z.mod_pos_bound b 16 ltac:(lia)).
  split; [|f_equal; [lia|done]]. do 2 (constructor; [lia|]). done.
Qed.

Lemma toy_bech32_laws : Bech32Laws (B := toy_bech32).
Proof.
  split; cbn [bech32_Encode bech32_Decode ConvertBits toy_bech32].
  - intros d Hd. destruct (toy_split_ok d Hd). exists (toy_split d). split; [done|]. split; [done|]. cbn. by f_equal.
  - intros hrp d5 _. by eexists.
  - intros hrp d5 s [= <-]. by eexists.
  - intros hrp d5 s Hh _ Hd [= <-] _. rewrite span_unique by done. do 2 f_equal.
    rewrite to_bytes_bytes_str by (apply Forall_fmap, Forall_true; intros x; apply wrap_u8_range).
    rewrite <-list_fmap_compose. rewrite <-(list_fmap_id d5) at 2. apply list_fmap_ext. intros i x Hx. cbn.
    rewrite Forall_lookup in Hd. apply Hd in Hx. unfold wrap_u8. rewrite Z.mod_small; [unfold id; lia|].
    change (2 ^ 8) with 256. lia.
Qed.

Lemma Address_roundtrip_witness :
  AccAddressFromBech32 (B := toy_bech32) "gx1bcpp" = Ok [18; 255].
Proof.
  apply (proj1 (proj2 (@Address_roundtrip toy_bech32 toy_bech32_laws)) [18; 255] "gx1bcpp").
  - repeat constructor; by vm_compute.
  - discriminate.
  - vm_compute. reflexivity.
  - vm_compute. lia.
Defined.

(** An address of [toy_bech32], for the runs of the modules. *)
Definition some_address : string := "gx1bcpp".
