(* ===== verification/JsonText.v ===== *)
(** Values that are JSON strings: the texts of [encoding/json], and the JSON forms
    of [types/int.go], [types/dec.go] and [types/address.go]. *)
From Stdlib Require Import Ascii.
From S2P Require Import Prelude GoStrings BigText SdkInt SdkDec BitArray Keys Address.

(* ------------------------------------------------------------------ *)
(** * UTF-8

    [utf8.DecodeRune]: the code point and the number of its bytes; bytes that are
    no code point are [RuneError] with the length 1. *)
Definition RuneError : Z := 0xFFFD.
Definition between (lo hi b : Z) : bool := (lo <=? b) && (b <=? hi).
Definition cont (b : Z) : bool := between 0x80 0xBF b.
Definition DecodeRune (l : bytes) : Z * nat :=
  match l with
  | [] => (RuneError, 0%nat)
  | b0 :: l =>
      if b0 <? 0x80 then (b0, 1%nat)
      else if between 0xC2 0xDF b0 then
        match l with
        | b1 :: _ => if cont b1 then ((b0 - 0xC0) * 64 + (b1 - 0x80), 2%nat) else (RuneError, 1%nat)
        | _ => (RuneError, 1%nat)
        end
      else if between 0xE0 0xEF b0 then
        match l with
        | b1 :: b2 :: _ =>
            if between (if b0 =? 0xE0 then 0xA0 else 0x80) (if b0 =? 0xED then 0x9F else 0xBF) b1 && cont b2
            then ((b0 - 0xE0) * 4096 + (b1 - 0x80) * 64 + (b2 - 0x80), 3%nat) else (RuneError, 1%nat)
        | _ => (RuneError, 1%nat)
        end
      else if between 0xF0 0xF4 b0 then
        match l with
        | b1 :: b2 :: b3 :: _ =>
            if between (if b0 =? 0xF0 then 0x90 else 0x80) (if b0 =? 0xF4 then 0x8F else 0xBF) b1 && cont b2 && cont b3
            then ((b0 - 0xF0) * 262144 + (b1 - 0x80) * 4096 + (b2 - 0x80) * 64 + (b3 - 0x80), 4%nat) else (RuneError, 1%nat)
        | _ => (RuneError, 1%nat)
        end
      else (RuneError, 1%nat)
  end.
Definition is_surrogate (c : Z) : bool := between 0xD800 0xDFFF c.
Definition EncodeRune (c : Z) : bytes :=
  let c := if is_surrogate c || negb (between 0 0x10FFFF c) then RuneError else c in
  if c <? 0x80 then [c]
  else if c <? 0x800 then [0xC0 + c / 64; 0x80 + c mod 64]
  else if c <? 0x10000 then [0xE0 + c / 4096; 0x80 + c / 64 mod 64; 0x80 + c mod 64]
  else [0xF0 + c / 262144; 0x80 + c / 4096 mod 64; 0x80 + c / 64 mod 64; 0x80 + c mod 64].

(* ------------------------------------------------------------------ *)
(** * JSON strings *)

Definition hex_char (n : Z) : Z := if n <? 10 then 48 + n else 87 + n.
(** [json.Marshal] of a string escapes quotes, control characters, the characters
    of HTML, two line separators, and bytes that are not UTF-8. *)
Definition html_safe (b : Z) : bool := (0x20 <=? b) && negb (bool_decide (b ∈ [34; 92; 60; 62; 38])).
Definition escape (b : Z) : bytes :=
  if (b =? 34) || (b =? 92) then [92; b]
  else if b =? 10 then [92; 110] else if b =? 13 then [92; 114] else if b =? 9 then [92; 116]
  else [92; 117; 48; 48; hex_char (b / 16); hex_char (b mod 16)].
Fixpoint quote (fuel : nat) (l : bytes) : bytes :=
  match fuel, l with
  | S fuel, b :: l' =>
      if b <? 0x80 then (if html_safe b then [b] else escape b) ++ quote fuel l'
      else
        let '(c, size) := DecodeRune l in
        (if (c =? RuneError) && (size =? 1)%nat then to_bytes "\ufffd"
         else if (c =? 0x2028) || (c =? 0x2029) then to_bytes "\u202" ++ [hex_char (c mod 16)]
         else take size l) ++ quote fuel (drop size l)
  | _, _ => []
  end.
Definition json_Marshal_bytes (l : bytes) : bytes := 34 :: quote (length l) l ++ [34].
Definition json_Marshal_string (s : string) : bytes := json_Marshal_bytes (to_bytes s).

Definition hex_digit (b : Z) : option Z :=
  if between 48 57 b then Some (b - 48) else if between 97 102 b then Some (b - 87) else if between 65 70 b then Some (b - 55) else None.
Definition hex4 (a b c d : Z) : option Z :=
  a ← hex_digit a; b ← hex_digit b; c ← hex_digit c; d ← hex_digit d; Some (((a * 16 + b) * 16 + c) * 16 + d).
Definition simple_escape (e : Z) : option Z :=
  if (e =? 34) || (e =? 92) || (e =? 47) then Some e
  else if e =? 98 then Some 8 else if e =? 102 then Some 12 else if e =? 110 then Some 10
  else if e =? 114 then Some 13 else if e =? 116 then Some 9 else None.

(** The scanner: what is between the quotes, and what follows. *)
Fixpoint literal (l : bytes) : option (bytes * bytes) :=
  match l with
  | [] => None
  | b :: l =>
      if b =? 34 then Some ([], l)
      else if b =? 92 then
        match l with
        | e :: l =>
            if e =? 117 then
              match l with
              | h1 :: h2 :: h3 :: h4 :: l =>
                  _ ← hex4 h1 h2 h3 h4; '(raw, rest) ← literal l; Some (92 :: 117 :: h1 :: h2 :: h3 :: h4 :: raw, rest)
              | _ => None
              end
            else _ ← simple_escape e; '(raw, rest) ← literal l; Some (92 :: e :: raw, rest)
        | [] => None
        end
      else if b <? 0x20 then None
      else '(raw, rest) ← literal l; Some (b :: raw, rest)
  end.

(** [utf16.DecodeRune] *)
Definition DecodeRune16 (r1 r2 : Z) : Z :=
  if between 0xD800 0xDBFF r1 && between 0xDC00 0xDFFF r2 then (r1 - 0xD800) * 1024 + (r2 - 0xDC00) + 0x10000 else RuneError.
(** [getu4]: the code point of an escape at the beginning, or -1. *)
Definition getu4 (l : bytes) : Z :=
  match l with 92 :: 117 :: h1 :: h2 :: h3 :: h4 :: _ => default (-1) (hex4 h1 h2 h3 h4) | _ => -1 end.
Fixpoint unquote (fuel : nat) (l : bytes) : option bytes :=
  match fuel, l with
  | _, [] => Some []
  | O, _ => None
  | S fuel, b :: l' =>
      if b =? 92 then
        match l' with
        | [] => None
        | e :: l'' =>
            if e =? 117 then
              let rr := getu4 l in
              if rr <? 0 then None else
              let rest := drop 6 l in
              if is_surrogate rr then
                let dec := DecodeRune16 rr (getu4 rest) in
                if negb (dec =? RuneError) then t ← unquote fuel (drop 6 rest); Some (EncodeRune dec ++ t)
                else t ← unquote fuel rest; Some (EncodeRune RuneError ++ t)
              else t ← unquote fuel rest; Some (EncodeRune rr ++ t)
            else c ← simple_escape e; t ← unquote fuel l''; Some (c :: t)
        end
      else if (b =? 34) || (b <? 0x20) then None
      else if b <? 0x80 then t ← unquote fuel l'; Some (b :: t)
      else let '(c, size) := DecodeRune l in t ← unquote fuel (drop size l); Some (EncodeRune c ++ t)
  end.

Definition json_space (b : Z) : bool := bool_decide (b ∈ [32; 9; 10; 13]).
Fixpoint skip_spaces (l : bytes) : bytes :=
  match l with b :: l' => if json_space b then skip_spaces l' else l | [] => [] end.
(** [json.Unmarshal(bz, &text)] with a string variable that is empty; the texts of
    the errors are not kept apart.  [null] leaves the variable as it is. *)
Definition json_error : string := "json: cannot unmarshal into Go value of type string".
Definition json_Unmarshal_bytes (bz : bytes) : res bytes :=
  match skip_spaces bz with
  | 34 :: l =>
      match literal l with
      | Some (raw, rest) =>
          if forallb json_space rest then match unquote (length raw) raw with Some t => Ok t | None => Err json_error end
          else Err json_error
      | None => Err json_error
      end
  | 110 :: 117 :: 108 :: 108 :: rest => if forallb json_space rest then Ok [] else Err json_error
  | _ => Err json_error
  end.
Definition json_Unmarshal_string (bz : bytes) : res string := l ← json_Unmarshal_bytes bz; Ok (bytes_str l).

(* ------------------------------------------------------------------ *)
(** * The SDK's values

    [UnmarshalJSON] gives the receiver afterwards. *)
Definition marshalJSON (i : Z) : bytes := json_Marshal_string (big_text i).
Definition unmarshalJSON (bz : bytes) : res Z := text ← json_Unmarshal_string bz; int_unmarshalText text.
Definition Int_MarshalJSON (i : Int) : bytes := marshalJSON (Int_init i).
Definition Int_UnmarshalJSON (bz : bytes) : res Int := z ← unmarshalJSON bz; Ok (IntV z).

Definition nilJSON : bytes := json_Marshal_string (big_text 0).
Definition Dec_MarshalJSON (d : Dec) : bytes := if Dec_i d is Some _ then json_Marshal_string (Dec_String d) else nilJSON.
Definition Dec_UnmarshalJSON (bz : bytes) : res Dec := text ← json_Unmarshal_string bz; NewDecFromStr text.

Section Addresses.
Context `{Bech32Lib}.
Definition Acc_MarshalJSON (aa : bytes) : res bytes := s ← Acc_String aa; Ok (json_Marshal_string s).
Definition Acc_UnmarshalJSON (data : bytes) : res bytes := s ← json_Unmarshal_string data; AccAddressFromBech32 s.
Definition Val_MarshalJSON (va : bytes) : res bytes := s ← Val_String va; Ok (json_Marshal_string s).
(** The error of the JSON text is not returned: the receiver stays. *)
Definition Val_UnmarshalJSON (va data : bytes) : res bytes :=
  match json_Unmarshal_string data with
  | Err _ => Ok va
  | r => s ← r; ValAddressFromBech32 s
  end.
End Addresses.

(* ------------------------------------------------------------------ *)
(** * Properties: UTF-8 *)

(** The code points: what [DecodeRune] reads. *)
Definition scalar (c : Z) : Prop := 0 <= c <= 0x10FFFF /\ is_surrogate c = false.
Lemma EncodeRune_scalar c : scalar c -> EncodeRune c =
  if c <? 0x80 then [c]
  else if c <? 0x800 then [0xC0 + c / 64; 0x80 + c mod 64]
  else if c <? 0x10000 then [0xE0 + c / 4096; 0x80 + c / 64 mod 64; 0x80 + c mod 64]
  else [0xF0 + c / 262144; 0x80 + c / 4096 mod 64; 0x80 + c / 64 mod 64; 0x80 + c mod 64].
Proof. intros [Hc Hs]. unfold EncodeRune, between. rewrite Hs. destruct (Z.leb_spec 0 c), (Z.leb_spec c 0x10FFFF); cbn [andb orb negb]; lia || done. Qed.
Lemma between_spec lo hi b : between lo hi b = true <-> lo <= b <= hi.
Proof. unfold between. lia. Qed.

(** Decides the comparisons of the goal. *)
Ltac cmp :=
  repeat match goal with
  | |- context [?a <=? ?b] => first [rewrite (proj2 (Z.leb_le a b)) by lia | rewrite (proj2 (Z.leb_gt a b)) by lia]
  | |- context [?a <? ?b] => first [rewrite (proj2 (Z.ltb_lt a b)) by lia | rewrite (proj2 (Z.ltb_ge a b)) by lia]
  | |- context [?a =? ?b] => first [rewrite (proj2 (Z.eqb_eq a b)) by lia | rewrite (proj2 (Z.eqb_neq a b)) by lia]
  end; cbn [andb orb negb].

(** Reading what [EncodeRune] wrote, whatever follows. *)
Lemma DecodeRune_Encode c rest : scalar c -> DecodeRune (EncodeRune c ++ rest) = (c, length (EncodeRune c)).
Proof.
  intros Hc. rewrite (EncodeRune_scalar c Hc). destruct Hc as [Hc Hs]. unfold is_surrogate, between in Hs.
  pose proof (Z.div_mod c 64 ltac:(lia)). pose proof (Z.mod_pos_bound c 64 ltac:(lia)).
  pose proof (Z.div_mod (c / 64) 64 ltac:(lia)). pose proof (Z.mod_pos_bound (c / 64) 64 ltac:(lia)).
  pose proof (Z.div_mod (c / 4096) 64 ltac:(lia)). pose proof (Z.mod_pos_bound (c / 4096) 64 ltac:(lia)).
  assert (c / 4096 = c / 64 / 64) as E1 by by rewrite Z.div_div. assert (c / 262144 = c / 4096 / 64) as E2 by by rewrite Z.div_div.
  unfold DecodeRune, cont, between. destruct (Z.ltb_spec c 0x80) as [L1|L1]; [cbn [app length]; by cmp|].
  destruct (Z.ltb_spec c 0x800) as [L2|L2]; [cbn [app length]; cmp; f_equal; lia|].
  destruct (Z.ltb_spec c 0x10000) as [L3|L3]; cbn [app length].
  - cmp. destruct (Z.eqb_spec (0xE0 + c / 4096) 0xE0), (Z.eqb_spec (0xE0 + c / 4096) 0xED); try lia; cmp; f_equal; lia.
  - cmp. destruct (Z.eqb_spec (0xF0 + c / 262144) 0xF0), (Z.eqb_spec (0xF0 + c / 262144) 0xF4); try lia; cmp; f_equal; lia.
Qed.
(** Above ASCII all bytes are. *)
Lemma EncodeRune_high c : scalar c -> 0x80 <= c -> Forall (fun b => 0x80 <= b) (EncodeRune c) /\ (2 <= length (EncodeRune c))%nat.
Proof.
  intros Hc H1. rewrite (EncodeRune_scalar c Hc). destruct Hc as [Hc _]. cmp.
  pose proof (Z.mod_pos_bound c 64 ltac:(lia)). pose proof (Z.mod_pos_bound (c / 64) 64 ltac:(lia)).
  pose proof (Z.mod_pos_bound (c / 4096) 64 ltac:(lia)).
  assert (0 <= c / 64 /\ 0 <= c / 4096 /\ 0 <= c / 262144) as (? & ? & ?) by (split_and!; apply Z.div_pos; lia).
  destruct (c <? 0x800), (c <? 0x10000); (split; [repeat constructor; lia|cbn; lia]).
Qed.
Lemma EncodeRune_ascii c : 0 <= c < 0x80 -> EncodeRune c = [c].
Proof. intros Hc. rewrite EncodeRune_scalar by (split; [lia|unfold is_surrogate, between; by cmp]). by cmp. Qed.

(* ------------------------------------------------------------------ *)
(** * Properties: texts *)

(** The bytes of code points, and what [quote] makes of each. *)
Definition utf8 (cs : list Z) : bytes := concat (map EncodeRune cs).
Definition piece (c : Z) : bytes :=
  if c <? 0x80 then (if html_safe c then [c] else escape c)
  else if (c =? 0x2028) || (c =? 0x2029) then to_bytes "\u202" ++ [hex_char (c mod 16)]
  else EncodeRune c.
Lemma hex_digit_char n : 0 <= n < 16 -> hex_digit (hex_char n) = Some n.
Proof. intros Hn. unfold hex_char, hex_digit, between. destruct (Z.ltb_spec n 10); cmp; f_equal; lia. Qed.

Lemma quote_utf8 cs fuel : Forall scalar cs -> (length (utf8 cs) <= fuel)%nat -> quote fuel (utf8 cs) = concat (map piece cs).
Proof.
  intros Hcs. revert fuel. induction Hcs as [|c cs Hc _ IH]; intros fuel Hf; [by destruct fuel|].
  unfold utf8 in *. cbn [map concat] in *. rewrite length_app in Hf.
  destruct (Z.ltb_spec c 0x80) as [Hl|Hl].
  - destruct Hc as [Hc _]. rewrite (EncodeRune_ascii c) in * by lia. cbn in Hf. destruct fuel as [|fuel]; [lia|].
    cbn [app quote]. unfold piece. cmp. by rewrite IH by lia.
  - destruct (EncodeRune_high c Hc Hl) as [Hh Hn]. pose proof (DecodeRune_Encode c (concat (map EncodeRune cs)) Hc) as Hd.
    destruct (EncodeRune c) as [|b e] eqn:Ee; [cbn in Hn; lia|]. destruct fuel as [|fuel]; [cbn in Hf; lia|].
    cbn [app quote] in *. rewrite Hd. inversion_clear Hh as [|? ? Hb _]. cmp.
    assert ((length (b :: e) =? 1)%nat = false) as -> by (apply Nat.eqb_neq; lia). rewrite andb_false_r.
    change (b :: e ++ concat (map EncodeRune cs)) with ((b :: e) ++ concat (map EncodeRune cs)).
    rewrite drop_app_length, take_app_length, IH by (cbn in Hf; lia). f_equal. unfold piece. cmp. by rewrite Ee.
Qed.

(** The scanner passes over a piece, whatever follows. *)
Lemma literal_plain bs l raw rest : Forall (fun b => 0x20 <= b /\ b <> 34 /\ b <> 92) bs -> literal l = Some (raw, rest) ->
  literal (bs ++ l) = Some (bs ++ raw, rest).
Proof.
  intros Hb Hl. induction Hb as [|b bs (H1 & H2 & H3) _ IH]; [done|]. cbn [app literal]. cmp. by rewrite IH.
Qed.
Lemma hex4_digits n : 0 <= n < 256 -> hex4 48 48 (hex_char (n / 16)) (hex_char (n mod 16)) = Some n.
Proof.
  intros Hn. pose proof (Z.div_mod n 16 ltac:(lia)). pose proof (Z.mod_pos_bound n 16 ltac:(lia)).
  unfold hex4. rewrite !hex_digit_char by lia. change (hex_digit 48) with (Some 0). cbn. f_equal. lia.
Qed.
Lemma hex4_separator n : 0 <= n < 16 -> hex4 50 48 50 (hex_char n) = Some (0x2020 + n).
Proof. intros Hn. unfold hex4. rewrite hex_digit_char by lia. change (hex_digit 50) with (Some 2). change (hex_digit 48) with (Some 0). cbn. f_equal; lia. Qed.
Lemma html_safe_plain c : html_safe c = true -> 0x20 <= c /\ c <> 34 /\ c <> 92.
Proof.
  unfold html_safe. intros [H1 H2]%andb_true_iff. apply negb_true_iff, bool_decide_eq_false in H2.
  rewrite !elem_of_cons, elem_of_nil in H2. lia.
Qed.
(** The shapes of the pieces. *)
Inductive shape (c : Z) : bytes -> Prop :=
| shape_ascii : html_safe c = true -> 0 <= c < 0x80 -> shape c [c]
| shape_simple e : simple_escape e = Some c -> e <> 117 -> 0 <= c < 0x80 -> shape c [92; e]
| shape_u h1 h2 h3 h4 : hex4 h1 h2 h3 h4 = Some c -> scalar c -> shape c [92; 117; h1; h2; h3; h4]
| shape_utf8 : scalar c -> 0x80 <= c -> shape c (EncodeRune c).
Lemma piece_shape c : scalar c -> shape c (piece c).
Proof.
  intros Hc. pose proof Hc as [Hr _]. unfold piece. destruct (Z.ltb_spec c 0x80) as [Hl|Hl].
  - destruct (html_safe c) eqn:Eh; [constructor; [done|lia]|]. unfold escape.
    destruct (Z.eqb_spec c 34) as [->|]; [by constructor|]. destruct (Z.eqb_spec c 92) as [->|]; [by constructor|]. cbn [orb].
    destruct (Z.eqb_spec c 10) as [->|]; [by constructor|]. destruct (Z.eqb_spec c 13) as [->|]; [by constructor|].
    destruct (Z.eqb_spec c 9) as [->|]; [by constructor|]. constructor; [apply hex4_digits; lia|done].
  - destruct (Z.eqb_spec c 0x2028) as [->|]; [by constructor|]. destruct (Z.eqb_spec c 0x2029) as [->|]; [by constructor|].
    cbn [orb]. by constructor.
Qed.
Lemma literal_shape c p l raw rest : shape c p -> literal l = Some (raw, rest) -> literal (p ++ l) = Some (p ++ raw, rest).
Proof.
  intros Hp Hl. destruct Hp as [Hs Hc|e He Hu Hc|h1 h2 h3 h4 Hh Hc|Hc Hb].
  - apply literal_plain; [|done]. constructor; [by apply html_safe_plain|constructor].
  - cbn. by rewrite (proj2 (Z.eqb_neq e 117)), He, Hl by done.
  - cbn [app literal]. cmp. cbn [Z.eqb Pos.eqb]. by rewrite Hh, Hl.
  - apply literal_plain; [|done]. apply EncodeRune_high in Hc as [Hc _]; [|done]. eapply Forall_impl; [exact Hc|]. cbn. lia.
Qed.
Lemma unquote_shape c p raw t fuel : shape c p -> unquote fuel raw = Some t -> unquote (S fuel) (p ++ raw) = Some (EncodeRune c ++ t).
Proof.
  intros Hp Ht. destruct Hp as [Hs Hc|e He Hu Hc|h1 h2 h3 h4 Hh Hc|Hc Hb].
  - apply html_safe_plain in Hs. cbn [app unquote]. cmp. rewrite Ht. by rewrite EncodeRune_ascii.
  - cbn. rewrite (proj2 (Z.eqb_neq e 117)), He, Ht by done. cbn. by rewrite EncodeRune_ascii.
  - cbn [app unquote drop getu4]. rewrite Hh. cbn [default Z.eqb Pos.eqb id]. unfold id. rewrite drop_0. destruct Hc as [Hr Hs]. cmp. by rewrite Hs, Ht.
  - destruct (EncodeRune_high c Hc Hb) as [Hh Hn]. pose proof (DecodeRune_Encode c raw Hc) as Hd.
    destruct (EncodeRune c) as [|b e] eqn:Ee; [cbn in Hn; lia|]. cbn [app unquote] in *. rewrite Hd.
    inversion_clear Hh as [|? ? Hb' _]. cmp. change (b :: e ++ raw) with ((b :: e) ++ raw). rewrite drop_app_length, Ht. cbn. by rewrite Ee.
Qed.
Lemma shape_nonempty c p : shape c p -> (0 < length p)%nat.
Proof. destruct 1; cbn; try lia. pose proof (EncodeRune_high c H H0). lia. Qed.

Lemma literal_pieces cs rest : Forall scalar cs -> literal (concat (map piece cs) ++ 34 :: rest) = Some (concat (map piece cs), rest).
Proof.
  induction 1 as [|c cs Hc _ IH]; [done|]. cbn [map concat]. rewrite <-app_assoc.
  apply (literal_shape c); [by apply piece_shape|exact IH].
Qed.
Lemma unquote_pieces cs fuel : Forall scalar cs -> (length (concat (map piece cs)) <= fuel)%nat ->
  unquote fuel (concat (map piece cs)) = Some (utf8 cs).
Proof.
  intros Hcs. revert fuel. induction Hcs as [|c cs Hc _ IH]; intros fuel Hf; [by destruct fuel|].
  cbn [map concat] in *. rewrite length_app in Hf. pose proof (shape_nonempty c _ (piece_shape c Hc)).
  destruct fuel as [|fuel]; [lia|]. unfold utf8. cbn [map concat]. apply unquote_shape; [by apply piece_shape|]. apply IH. lia.
Qed.

(** A text is read as it was written, between any spaces. *)
Lemma json_bytes_roundtrip cs before after : Forall scalar cs -> forallb json_space before = true -> forallb json_space after = true ->
  json_Unmarshal_bytes (before ++ json_Marshal_bytes (utf8 cs) ++ after) = Ok (utf8 cs).
Proof.
  intros Hcs Hb Ha. unfold json_Unmarshal_bytes, json_Marshal_bytes. rewrite quote_utf8 by done.
  assert (forall l, skip_spaces (before ++ 34 :: l) = 34 :: l) as Hs.
  { intros l. induction before as [|b before IH]; [done|]. cbn in Hb |- *. apply andb_true_iff in Hb as [-> Hb]. by apply IH. }
  cbn [app]. rewrite Hs, <-app_assoc. cbn [app]. rewrite literal_pieces by done. rewrite Ha, unquote_pieces by done. done.
Qed.

(** ASCII texts. *)
Definition ascii_only (s : string) : bool := str_forall (fun c => code c <? 128) s.
Lemma ascii_utf8 s : ascii_only s = true -> utf8 (to_bytes s) = to_bytes s /\ Forall scalar (to_bytes s).
Proof.
  induction s as [|c s IH]; [done|]. cbn. intros [Hc Hs]%andb_true_iff. destruct (IH Hs) as [Hu HF]. unfold utf8 in *. cbn.
  pose proof (code_range c). rewrite EncodeRune_ascii by lia. rewrite Hu. split; [done|]. constructor; [|done].
  split; [lia|]. unfold is_surrogate, between. by cmp.
Qed.
Lemma json_ascii s before after : ascii_only s = true -> forallb json_space before = true -> forallb json_space after = true ->
  json_Unmarshal_string (before ++ json_Marshal_string s ++ after) = Ok s.
Proof.
  intros [Hu HF]%ascii_utf8 Hb Ha. unfold json_Unmarshal_string, json_Marshal_string. rewrite <-Hu at 1.
  rewrite json_bytes_roundtrip by done. cbn. by rewrite Hu, bytes_str_to_bytes.
Qed.
Lemma json_null before after : forallb json_space before = true -> forallb json_space after = true ->
  json_Unmarshal_string (before ++ to_bytes "null" ++ after) = Ok "".
Proof.
  intros Hb Ha. unfold json_Unmarshal_string, json_Unmarshal_bytes.
  assert (skip_spaces (before ++ to_bytes "null" ++ after) = to_bytes "null" ++ after) as ->.
  { induction before as [|b before IH]; [done|]. cbn in Hb |- *. apply andb_true_iff in Hb as [-> Hb]. by apply IH. }
  cbn. by rewrite Ha.
Qed.

(* ------------------------------------------------------------------ *)
(** * Properties: the SDK's values *)

Lemma digits_ascii s : str_digits s = true -> ascii_only s = true.
Proof. apply str_forall_impl. intros c. unfold is_digit, in_range. change (code "9"%char) with 57. lia. Qed.
Lemma big_text_ascii z : ascii_only (big_text z) = true.
Proof.
  unfold big_text. destruct (z <? 0); [|apply digits_ascii, nat_text_digits].
  exact (digits_ascii _ (nat_text_digits (- z))).
Qed.
Lemma point_ascii n : 0 <= n -> ascii_only (dec_point_text n) = true.
Proof.
  intros Hn. destruct (dec_point_text_split n Hn) as (a & b & -> & Ha & Hb & _). unfold ascii_only. rewrite str_forall_app. cbn.
  by rewrite (digits_ascii a Ha : str_forall _ a = true), (digits_ascii b Hb : str_forall _ b = true).
Qed.
Lemma Dec_String_ascii z : ascii_only (Dec_String (DecV z)) = true.
Proof. unfold Dec_String. cbn [Dec_i]. destruct (Z.ltb_spec z 0); [exact (point_ascii (- z) ltac:(lia))|by apply point_ascii]. Qed.

(** A text of characters that need no escape is written as it is, in quotes. *)
Definition plain_text (s : string) : bool := str_forall (fun c => html_safe (code c) && (code c <? 128)) s.
Lemma quote_plain s fuel : plain_text s = true -> (String.length s <= fuel)%nat -> quote fuel (to_bytes s) = to_bytes s.
Proof.
  revert fuel. induction s as [|c s IH]; intros fuel Hp Hf; [by destruct fuel|].
  cbn in Hp. apply andb_true_iff in Hp as [[H1 H2]%andb_true_iff Hp]. destruct fuel as [|fuel]; [cbn in Hf; lia|].
  change (to_bytes (String c s)) with (code c :: to_bytes s). cbn [quote]. rewrite H1. cmp. rewrite IH; [done|done|cbn in Hf; lia].
Qed.
Lemma json_plain s : plain_text s = true -> json_Marshal_string s = [34] ++ to_bytes s ++ [34].
Proof.
  intros Hp. unfold json_Marshal_string, json_Marshal_bytes. cbn [app]. do 2 f_equal. apply quote_plain; [done|].
  by rewrite to_bytes_length.
Qed.
Lemma digit_plain c : is_digit c = true -> html_safe (code c) && (code c <? 128) = true.
Proof.
  unfold is_digit, in_range. change (code "0"%char) with 48. change (code "9"%char) with 57. intros Hc.
  unfold html_safe. rewrite bool_decide_false by (rewrite !elem_of_cons, elem_of_nil; lia). lia.
Qed.
Lemma digits_unescaped s : str_digits s = true -> plain_text s = true.
Proof. apply str_forall_impl, digit_plain. Qed.
Lemma big_text_unescaped z : plain_text (big_text z) = true.
Proof. unfold big_text. destruct (z <? 0); [|apply digits_unescaped, nat_text_digits]. exact (digits_unescaped _ (nat_text_digits (- z))). Qed.
Lemma point_unescaped n : 0 <= n -> plain_text (dec_point_text n) = true.
Proof.
  intros Hn. destruct (dec_point_text_split n Hn) as (a & b & -> & Ha & Hb & _). unfold plain_text. rewrite str_forall_app. cbn.
  by rewrite (digits_unescaped a Ha : str_forall _ a = true), (digits_unescaped b Hb : str_forall _ b = true).
Qed.
Lemma Dec_String_unescaped z : plain_text (Dec_String (DecV z)) = true.
Proof. unfold Dec_String. cbn [Dec_i]. destruct (Z.ltb_spec z 0); [exact (point_unescaped (- z) ltac:(lia))|by apply point_unescaped]. Qed.

(** C35: Numbers as JSON.  What is written is the decimal text of the number in
    quotes, as it is: an [Int] without a leading sign if it is not negative, a
    [Dec] as [String] prints it; nil is written as zero.  Between any spaces, an
    [Int] is read as it was written if it is in range and refused otherwise, and a
    [Dec] is read as it was written whatever its size, unlike in protobuf; [null]
    is refused. *)
Theorem numbers_JSON before after : forallb json_space before = true -> forallb json_space after = true ->
  (forall z, Int_UnmarshalJSON (before ++ Int_MarshalJSON (IntV z) ++ after) =
     if bool_decide (int_range z) then Ok (IntV z) else Err "integer out of range: %s") /\
  (forall z, Dec_UnmarshalJSON (before ++ Dec_MarshalJSON (DecV z) ++ after) = Ok (DecV z)) /\
  (forall z, Int_MarshalJSON (IntV z) = [34] ++ to_bytes (big_text z) ++ [34]) /\
  (forall z, Dec_MarshalJSON (DecV z) = [34] ++ to_bytes (Dec_String (DecV z)) ++ [34]) /\
  Int_MarshalJSON (MkInt None) = Int_MarshalJSON (IntV 0) /\
  Dec_UnmarshalJSON (before ++ Dec_MarshalJSON (MkDec None) ++ after) = Ok (DecV 0) /\
  is_ok (Int_UnmarshalJSON (before ++ to_bytes "null" ++ after)) = false /\
  is_ok (Dec_UnmarshalJSON (before ++ to_bytes "null" ++ after)) = false.
Proof.
  intros Hb Ha. split_and!.
  - intros z. unfold Int_UnmarshalJSON, unmarshalJSON, Int_MarshalJSON, marshalJSON. rewrite json_ascii by (done || apply big_text_ascii).
    cbn. unfold int_unmarshalText. rewrite UnmarshalText_big_text, overflow_if. by case_bool_decide.
  - intros z. unfold Dec_UnmarshalJSON, Dec_MarshalJSON. cbn [Dec_i]. rewrite json_ascii by (done || apply Dec_String_ascii).
    apply NewDecFromStr_Dec_String.
  - intros z. apply json_plain, big_text_unescaped.
  - intros z. apply json_plain, Dec_String_unescaped.
  - done.
  - unfold Dec_UnmarshalJSON, Dec_MarshalJSON, nilJSON. cbn [Dec_i]. rewrite json_ascii by done. by vm_compute.
  - unfold Int_UnmarshalJSON, unmarshalJSON. by rewrite json_null.
  - unfold Dec_UnmarshalJSON. by rewrite json_null.
Qed.
Lemma numbers_JSON_witness :
  Int_MarshalJSON (IntV (-7)) = to_bytes (String "034" ("-7" +:+ String "034" "")) /\
  Int_UnmarshalJSON ([32] ++ Int_MarshalJSON (IntV (-7)) ++ [10]) = Ok (IntV (-7)) /\
  Dec_UnmarshalJSON ([] ++ Dec_MarshalJSON (DecV (2 ^ 300)) ++ []) = Ok (DecV (2 ^ 300)).
Proof.
  split; [reflexivity|]. split; [|by apply (numbers_JSON [] [])].
  destruct (numbers_JSON [32] [10] eq_refl eq_refl) as [H _]. etrans; [exact (H (-7))|by vm_compute].
Defined.

Section Addresses.
Context `{Bech32Laws}.
(** The alphabet of bech32 is ASCII. *)
Definition ascii_encoder : Prop := forall hrp data s, ascii_only hrp = true -> Forall is_uint8 data ->
  ConvertAndEncode hrp data = Ok s -> ascii_only s = true.

(** Addresses as JSON, between any spaces.  Account and validator addresses that
    fit the length of bech32 are read as they were written.  The empty account
    address is written as an empty text, which is refused.  A text that is not a
    JSON string is an error for an account address, but the validator address stays
    as it is and nothing is reported. *)
Theorem addresses_JSON before after : ascii_encoder -> forallb json_space before = true -> forallb json_space after = true ->
  (forall aa s, Forall is_uint8 aa -> aa <> [] -> Acc_String aa = Ok s -> (String.length s <= 90)%nat ->
     exists bz, Acc_MarshalJSON aa = Ok bz /\ Acc_UnmarshalJSON (before ++ bz ++ after) = Ok aa) /\
  (forall va va' s, Forall is_uint8 va -> Val_String va = Ok s -> (String.length s <= 90)%nat ->
     exists bz, Val_MarshalJSON va = Ok bz /\ Val_UnmarshalJSON va' (before ++ bz ++ after) = Ok va) /\
  (exists bz, Acc_MarshalJSON [] = Ok bz /\ is_ok (Acc_UnmarshalJSON (before ++ bz ++ after)) = false) /\
  (forall va bz e, json_Unmarshal_string bz = Err e -> Acc_UnmarshalJSON bz = Err e /\ Val_UnmarshalJSON va bz = Ok va).
Proof.
  intros Hasc Hb Ha.
  split_and!.
  - intros aa s Haa Hne Hs Hl. unfold Acc_MarshalJSON. rewrite Hs. eexists. split; [reflexivity|].
    unfold Acc_UnmarshalJSON. rewrite json_ascii by (done || by eapply (Hasc "gx"), Acc_String_encode).
    destruct (Acc_String_read aa s Haa Hne Hs Hl) as [_ Hr]. cbn. unfold AccAddressFromBech32. by rewrite Hr.
  - intros va va' s Hva Hs Hl. unfold Val_MarshalJSON. rewrite Hs. eexists. split; [reflexivity|].
    assert (ConvertAndEncode "gx" va = Ok s) as E.
    { unfold Val_String in Hs. change GetBech32ValidatorAddrPrefix with "gx" in Hs. destruct (ConvertAndEncode "gx" va); [exact Hs|done..]. }
    unfold Val_UnmarshalJSON. rewrite json_ascii by (done || by eapply (Hasc "gx")).
    destruct (GetFromBech32_encode "gx" va s eq_refl ltac:(done) Hva E Hl) as [_ Hr]. cbn. unfold ValAddressFromBech32. by rewrite Hr.
  - eexists. split; [reflexivity|]. unfold Acc_UnmarshalJSON. by rewrite json_ascii.
  - intros va bz e E. unfold Acc_UnmarshalJSON, Val_UnmarshalJSON. by rewrite E.
Qed.
End Addresses.

(** With the bech32 of [Address]'s example. *)
Lemma addresses_JSON_witness :
  exists bz, Acc_MarshalJSON (H := toy_bech32) [18; 255] = Ok bz /\ Acc_UnmarshalJSON (H := toy_bech32) ([32] ++ bz ++ []) = Ok [18; 255].
Proof.
  apply (addresses_JSON (B := toy_bech32) (H := toy_bech32_laws) [32] []) with (s := "gx1bcpp"); try done.
  - intros hrp data s Hh Hd [= <-]. unfold ascii_only. rewrite str_forall_app, (Hh : str_forall _ hrp = true). cbn [str_forall andb].
    change (code "1"%char <? 128) with true. cbn [andb]. induction Hd as [|b data Hb _ IH]; [done|]. cbn.
    unfold is_uint8 in Hb. change (2 ^ 8) with 256 in Hb. pose proof (Z.div_mod b 16 ltac:(lia)). pose proof (Z.mod_pos_bound b 16 ltac:(lia)).
    unfold wrap_u8. change (2 ^ 8) with 256. rewrite !Z.mod_small by lia. rewrite !code_chr by lia. cmp. exact IH.
  - by repeat constructor.
  - cbn. lia.
Defined.
