(* ===== verification/Armor.v ===== *)
(** Private keys as an interface, their amino encoding ([crypto/codec/amino.go])
    and armored, encrypted private keys ([crypto/armor.go]).

    The amino codec, the OpenPGP armor, bcrypt and the xsalsa20 cipher are
    libraries: they are the operations of the classes [AminoLib] and
    [ArmorLib].  The random salt and nonce are arguments. *)
From S2P Require Import Prelude GoStrings Keys Multisig Address.
From Stdlib Require Import Ascii.

(** [crypto.PrivKey], for the key types of the repository. *)
Inductive PrivKey :=
| Secp256k1Priv (Key : bytes)
| Ed25519Priv (Key : bytes).

Section Keys.
Context `{CryptoLib}.

Definition priv_PubKey (k : PrivKey) : res PubKey :=
  match k with
  | Secp256k1Priv key => Ok (Secp256k1Key (secp_PubKey key))
  | Ed25519Priv key => Ed25519Key <$> ed_PubKey key
  end.

Definition priv_Sign (k : PrivKey) (msg : bytes) : res bytes :=
  match k with
  | Secp256k1Priv key => secp_Sign key msg
  | Ed25519Priv key => ed_Sign key msg
  end.
End Keys.

(** The bytes of a key, and the sizes that decoding accepts. *)
Definition priv_bytes (k : PrivKey) : bytes := match k with Secp256k1Priv b | Ed25519Priv b => b end.
Definition priv_size_ok (k : PrivKey) : bool :=
  match k with Secp256k1Priv b => len b =? secp_PrivKeySize | Ed25519Priv b => len b =? ed_PrivKeySize end.

(** amino decodes a key by reading its registered prefix and the bytes, which it
    passes to the [UnmarshalAmino] method of the key; it refuses empty input. *)
Class AminoLib := {
  amino_MarshalPub : PubKey -> bytes;
  amino_UnmarshalPub : bytes -> res PubKey;
  amino_MarshalPriv : PrivKey -> bytes;
  amino_UnmarshalPriv : bytes -> res PrivKey;
}.

Class AminoLaws `{AminoLib} : Prop := {
  amino_secp_pub k : amino_UnmarshalPub (amino_MarshalPub (Secp256k1Key k)) = Secp256k1Key <$> secp_UnmarshalAmino k;
  amino_ed_pub k : amino_UnmarshalPub (amino_MarshalPub (Ed25519Key k)) = Ed25519Key <$> ed_UnmarshalAmino k;
  amino_secp_priv k :
    amino_UnmarshalPriv (amino_MarshalPriv (Secp256k1Priv k)) = Secp256k1Priv <$> secp_priv_UnmarshalAmino k;
  amino_ed_priv k : amino_UnmarshalPriv (amino_MarshalPriv (Ed25519Priv k)) = Ed25519Priv <$> ed_priv_UnmarshalAmino k;
  amino_priv_nonempty k : amino_MarshalPriv k <> [];
  amino_priv_bytes k : Forall is_uint8 (priv_bytes k) -> Forall is_uint8 (amino_MarshalPriv k);
  amino_priv_decoded bz k : amino_UnmarshalPriv bz = Ok k -> Forall is_uint8 bz ->
    priv_size_ok k = true /\ Forall is_uint8 (priv_bytes k);
  amino_priv_empty : is_ok (amino_UnmarshalPriv []) = false;
  amino_priv_no_panic bz p : amino_UnmarshalPriv bz <> Panic p;
}.

Class ArmorLib := {
  EncodeArmor : string -> gmap string string -> bytes -> string;
  DecodeArmor : string -> res (string * gmap string string * bytes);
  bcrypt_GenerateFromPassword : bytes -> bytes -> Z -> res bytes;
  EncryptSymmetric : bytes -> bytes -> bytes -> bytes;
  DecryptSymmetric : bytes -> bytes -> res bytes;
}.

(** A header value that armor keeps: visible ASCII characters. *)
Definition header_text (s : string) : bool := negb (bool_decide (s = "")) && str_forall plain_chr s.

(** Armored bytes are read back as long as the header values are visible
    characters and the type is visible characters and spaces; a non-empty
    plaintext is decrypted with the 32-byte key it was encrypted with, and the
    ciphertext is longer than the plaintext. *)
Class ArmorLaws `{ArmorLib} : Prop := {
  armor_roundtrip t h bz :
    str_forall (fun c => plain_chr c || (code c =? 32)) t = true -> map_Forall (fun _ v => header_text v = true) h ->
    bz <> [] -> DecodeArmor (EncodeArmor t h bz) = Ok (t, h, bz);
  symmetric_nonempty nonce pt key : EncryptSymmetric nonce pt key <> [];
  symmetric_roundtrip nonce pt key : length nonce = 24%nat -> length key = 32%nat -> pt <> [] ->
    DecryptSymmetric (EncryptSymmetric nonce pt key) key = Ok pt;
}.

(* ------------------------------------------------------------------ *)
(** * [crypto/codec/amino.go] *)
Section Amino.
Context `{AminoLib}.
Definition PrivKeyFromBytes (privKeyBytes : bytes) : res PrivKey := amino_UnmarshalPriv privKeyBytes.
Definition PubKeyFromBytes (pubKeyBytes : bytes) : res PubKey := amino_UnmarshalPub pubKeyBytes.
Definition MarshalPubkey (pubkey : PubKey) : bytes := amino_MarshalPub pubkey.
Definition MarshalPrivKey (privKey : PrivKey) : bytes := amino_MarshalPriv privKey.

(** The [Bytes] methods. *)
Definition PubKey_Bytes (k : PubKey) : bytes :=
  match k with
  | Secp256k1Key key | Ed25519Key key => key
  | LegacyAminoPubKey _ _ => amino_MarshalPub k
  end.

(** The [Address] methods; [crypto.AddressHash] is the truncated hash. *)
Definition PubKey_Address `{CryptoLib} (k : PubKey) : res bytes :=
  match k with
  | Secp256k1Key key => secp_Address key
  | Ed25519Key key => ed_Address key
  | LegacyAminoPubKey _ _ => Ok (tmhash_SumTruncated (amino_MarshalPub k))
  end.
End Amino.

(* ------------------------------------------------------------------ *)
(** * [crypto/armor.go] *)

Definition blockTypePrivKey : string := "TENDERMINT PRIVATE KEY".
Definition blockTypeKeyInfo : string := "TENDERMINT KEY INFO".
Definition blockTypePubKey : string := "TENDERMINT PUBLIC KEY".
Definition defaultAlgo : string := "secp256k1".
Definition headerVersion : string := "version".
Definition headerType : string := "type".
Definition BcryptSecurityParameter : Z := 12.

(** [fmt.Sprintf("%X", bz)] *)
Definition hex_digit (n : Z) : ascii := if n <? 10 then chr (48 + n) else chr (55 + n).
Fixpoint hex_upper (bz : bytes) : string :=
  match bz with
  | [] => ""
  | b :: bz => String (hex_digit (b / 16)) (String (hex_digit (b mod 16)) (hex_upper bz))
  end.

(** Reading a map: the empty string for a missing key. *)
Definition header_get (h : gmap string string) (k : string) : string := default "" (h !! k).

Section Armor.
Context `{CryptoLib, AminoLib, ArmorLib}.

Definition ArmorInfoBytes (bz : bytes) : string :=
  EncodeArmor blockTypeKeyInfo (<[headerType := "Info"]> {[ headerVersion := "0.0.0" ]}) bz.

Definition ArmorPubKeyBytes (bz : bytes) (algo : string) : string :=
  let header : gmap string string := {[ headerVersion := "0.0.1" ]} in
  let header := if bool_decide (algo = "") then header else <[headerType := algo]> header in
  EncodeArmor blockTypePubKey header bz.

Definition unarmorBytes (armorStr blockType : string) : res (bytes * gmap string string) :=
  '(bType, header, bz) ← DecodeArmor armorStr;
  if negb (bool_decide (bType = blockType)) then Err "unrecognized armor type %q, expected: %q"
  else Ok (bz, header).

Definition UnarmorInfoBytes (armorStr : string) : res bytes :=
  '(bz, header) ← unarmorBytes armorStr blockTypeKeyInfo;
  if negb (bool_decide (header_get header headerVersion = "0.0.0")) then Err "unrecognized version: %v" else Ok bz.

Definition UnarmorPubKeyBytes (armorStr : string) : res (bytes * string) :=
  '(bz, header) ← or_err (unarmorBytes armorStr blockTypePubKey) "couldn't unarmor bytes: %v";
  let version := header_get header headerVersion in
  if bool_decide (version = "0.0.0") then Ok (bz, defaultAlgo)
  else if bool_decide (version = "0.0.1") then
    let header := if bool_decide (header_get header headerType = "") then <[headerType := defaultAlgo]> header else header in
    Ok (bz, header_get header headerType)
  else if bool_decide (version = "") then Err "header's version field is empty"
  else Err "unrecognized version: %v".

(** [crypto.CRandBytes(16)] is [salt], the nonce of the cipher [nonce]. *)
Definition encryptPrivKey (salt nonce : bytes) (privKey : PrivKey) (passphrase : string) : res (bytes * bytes) :=
  key ← must (bcrypt_GenerateFromPassword salt (to_bytes passphrase) BcryptSecurityParameter);
  let key := Sha256 key in
  let privKeyBytes := amino_MarshalPriv privKey in
  Ok (salt, EncryptSymmetric nonce privKeyBytes key).

Definition EncryptArmorPrivKey (salt nonce : bytes) (privKey : PrivKey) (passphrase algo : string) : res string :=
  '(saltBytes, encBytes) ← encryptPrivKey salt nonce privKey passphrase;
  let header : gmap string string := <["salt" := hex_upper saltBytes]> {[ "kdf" := "bcrypt" ]} in
  let header := if bool_decide (algo = "") then header else <[headerType := algo]> header in
  Ok (EncodeArmor blockTypePrivKey header encBytes).

Definition decryptPrivKey (saltBytes encBytes : bytes) (passphrase : string) : res PrivKey :=
  key ← bcrypt_GenerateFromPassword saltBytes (to_bytes passphrase) BcryptSecurityParameter;
  let key := Sha256 key in
  privKeyBytes ← match DecryptSymmetric encBytes key with
                 | Err e => if bool_decide (e = "Ciphertext decryption failed") then Err "wrong password" else Err e
                 | r => r
                 end;
  PrivKeyFromBytes privKeyBytes.

Definition UnarmorDecryptPrivKey (armorStr passphrase : string) : res (PrivKey * string) :=
  '(blockType, header, encBytes) ← DecodeArmor armorStr;
  if negb (bool_decide (blockType = blockTypePrivKey)) then Err "unrecognized armor type: %v"
  else if negb (bool_decide (header_get header "kdf" = "bcrypt")) then Err "unrecognized KDF type: %v"
  else if bool_decide (header_get header "salt" = "") then Err "missing salt bytes"
  else
    saltBytes ← or_err (hex_DecodeString (header_get header "salt")) "error decoding salt: %v";
    privKey ← decryptPrivKey saltBytes encBytes passphrase;
    let header := if bool_decide (header_get header headerType = "") then <[headerType := defaultAlgo]> header else header in
    Ok (privKey, header_get header headerType).
End Armor.

(* ------------------------------------------------------------------ *)
(** * Lemmas *)

Lemma hex_digit_val n : 0 <= n < 16 -> hex_val (hex_digit n) = Some n.
Proof.
  intros Hn. assert (Forall (fun k => hex_val (hex_digit (Z.of_nat k)) = Some (Z.of_nat k)) (seq 0 16)) as H.
  { by repeat constructor. }
  rewrite Forall_forall in H. specialize (H (Z.to_nat n)). rewrite Z2Nat.id in H by lia. apply H, elem_of_seq. lia.
Qed.

Lemma hex_digit_plain n : 0 <= n < 16 -> plain_chr (hex_digit n) = true.
Proof.
  intros Hn. unfold hex_digit, plain_chr. destruct (Z.ltb_spec n 10); rewrite code_chr by lia; apply andb_true_iff; lia.
Qed.

Lemma nibbles b : is_uint8 b -> 0 <= b / 16 < 16 /\ 0 <= b mod 16 < 16.
Proof.
  intros Hb. unfold is_uint8 in Hb. split; [|apply Z.mod_pos_bound; lia].
  split; [apply Z.div_pos; lia|apply Z.div_lt_upper_bound; lia].
Qed.

Lemma hex_upper_roundtrip bz : Forall is_uint8 bz -> hex_DecodeString (hex_upper bz) = Ok bz.
Proof.
  induction 1 as [|b bz Hb _ IH]; [done|]. destruct (nibbles b Hb). cbn [hex_upper hex_DecodeString].
  rewrite !hex_digit_val, IH by done. cbn [mbind res_bind]. by rewrite Z.mul_comm, <-Z.div_mod by done.
Qed.

Lemma hex_upper_text bz : Forall is_uint8 bz -> bz <> [] -> header_text (hex_upper bz) = true.
Proof.
  intros Hbz Hne. unfold header_text. apply andb_true_iff. split; [by destruct bz|].
  clear Hne. induction Hbz as [|b bz Hb _ IH]; [done|]. destruct (nibbles b Hb). cbn [hex_upper str_forall].
  by rewrite !hex_digit_plain, IH.
Qed.

Lemma amino_priv_roundtrip `{AminoLaws} k : priv_size_ok k = true -> PrivKeyFromBytes (MarshalPrivKey k) = Ok k.
Proof.
  destruct k as [b|b]; cbn [priv_size_ok]; intros Hl; unfold PrivKeyFromBytes, MarshalPrivKey.
  - rewrite amino_secp_priv. unfold secp_priv_UnmarshalAmino. by rewrite Hl.
  - rewrite amino_ed_priv. unfold ed_priv_UnmarshalAmino. by rewrite Hl.
Qed.

Lemma UnarmorDecrypt_encrypted `{CryptoLaws, AminoLaws, ArmorLaws} salt nonce priv pass algo armor :
  Forall is_uint8 salt -> salt <> [] -> length nonce = 24%nat -> priv_size_ok priv = true ->
  (algo = "" \/ header_text algo = true) ->
  EncryptArmorPrivKey salt nonce priv pass algo = Ok armor ->
  UnarmorDecryptPrivKey armor pass = Ok (priv, if bool_decide (algo = "") then "secp256k1" else algo).
Proof.
  intros Hs Hs0 Hn Hk Ha E. unfold EncryptArmorPrivKey, encryptPrivKey in E. res_inv. unfold UnarmorDecryptPrivKey.
  assert (exists key, bcrypt_GenerateFromPassword salt (to_bytes pass) BcryptSecurityParameter = Ok key) as [key Hb].
  { destruct (bcrypt_GenerateFromPassword _ _ _) as [key|e|e]; [by eexists|done..]. }
  rewrite Hb in *. cbn [must] in *. simplify_eq.
  rewrite armor_roundtrip; [|done| |apply symmetric_nonempty].
  2: { assert (map_Forall (fun _ v => header_text v = true) (<["salt" := hex_upper salt]> {["kdf" := "bcrypt"]} : gmap string string)).
       { apply map_Forall_insert_2; [by apply hex_upper_text|]. by apply map_Forall_singleton. }
       destruct (bool_decide_reflect (algo = "")); [done|]. apply map_Forall_insert_2; [|done]. by destruct Ha. }
  cbn [mbind res_bind]. rewrite bool_decide_true by done. cbn [negb].
  set (h := if bool_decide (algo = "") then _ else _).
  assert (h !! "kdf" = Some "bcrypt" /\ h !! "salt" = Some (hex_upper salt) /\
    h !! headerType = if bool_decide (algo = "") then None else Some algo) as (Eh1 & Eh2 & Eh3).
  { unfold h. destruct (bool_decide_reflect (algo = "")); [done|]. unfold headerType.
    rewrite !lookup_insert_ne, lookup_singleton_eq by done. by rewrite !lookup_insert_eq. }
  unfold header_get. rewrite Eh1, Eh2. cbn [from_option id]. rewrite bool_decide_true by done. cbn [negb].
  rewrite bool_decide_false by (by destruct salt). rewrite hex_upper_roundtrip by done. cbn [or_err mbind res_bind].
  unfold decryptPrivKey. rewrite Hb. cbn [mbind res_bind].
  rewrite symmetric_roundtrip; [|done|apply Sha256_size|apply amino_priv_nonempty].
  change (PrivKeyFromBytes (amino_MarshalPriv priv)) with (PrivKeyFromBytes (MarshalPrivKey priv)). cbn [mbind res_bind].
  rewrite amino_priv_roundtrip by done. cbn [mbind res_bind]. rewrite Eh3.
  destruct (bool_decide_reflect (algo = "")) as [->|Hne]; cbn [from_option id].
  - rewrite bool_decide_true by done. by rewrite lookup_insert_eq.
  - rewrite bool_decide_false by done. by rewrite Eh3.
Qed.

(* ------------------------------------------------------------------ *)
(** * Properties *)

(** An exported key can be imported again: the text that
    [EncryptArmorPrivKey] makes of a key of the right size, with any password,
    is decrypted by [UnarmorDecryptPrivKey] with that password to the same key,
    together with the algorithm it was made with ([secp256k1] when none was
    given). *)
Theorem EncryptArmorPrivKey_roundtrip `{CryptoLaws, AminoLaws, ArmorLaws} salt nonce priv pass algo armor :
  Forall is_uint8 salt -> salt <> [] -> length nonce = 24%nat -> priv_size_ok priv = true ->
  (algo = "" \/ header_text algo = true) ->
  EncryptArmorPrivKey salt nonce priv pass algo = Ok armor ->
  UnarmorDecryptPrivKey armor pass = Ok (priv, if bool_decide (algo = "") then "secp256k1" else algo).
Proof. apply UnarmorDecrypt_encrypted. Qed.

(** Armored public keys and key information are read back, each only as what it
    is: the reader of one kind refuses the text of the other two. *)
Theorem Armor_kinds `{ArmorLaws} bz algo :
  bz <> [] -> (algo = "" \/ header_text algo = true) ->
  UnarmorPubKeyBytes (ArmorPubKeyBytes bz algo) = Ok (bz, if bool_decide (algo = "") then "secp256k1" else algo) /\
  UnarmorInfoBytes (ArmorInfoBytes bz) = Ok bz /\
  UnarmorInfoBytes (ArmorPubKeyBytes bz algo) = Err "unrecognized armor type %q, expected: %q" /\
  UnarmorPubKeyBytes (ArmorInfoBytes bz) = Err "couldn't unarmor bytes: %v".
Proof.
  intros Hbz Ha.
  set (h := if bool_decide (algo = "") then {[ headerVersion := "0.0.1" ]} else <[headerType := algo]> {[ headerVersion := "0.0.1" ]} : gmap string string).
  assert (DecodeArmor (ArmorPubKeyBytes bz algo) = Ok (blockTypePubKey, h, bz)) as Ep.
  { unfold ArmorPubKeyBytes. fold h. apply armor_roundtrip; [done| |done]. unfold h.
    destruct (bool_decide_reflect (algo = "")); [by apply map_Forall_singleton|].
    apply map_Forall_insert_2; [by destruct Ha|by apply map_Forall_singleton]. }
  assert (DecodeArmor (ArmorInfoBytes bz) =
    Ok (blockTypeKeyInfo, <[headerType := "Info"]> {[ headerVersion := "0.0.0" ]}, bz)) as Ei.
  { apply armor_roundtrip; [done| |done]. apply map_Forall_insert_2; [done|by apply map_Forall_singleton]. }
  unfold UnarmorPubKeyBytes, UnarmorInfoBytes, unarmorBytes. rewrite Ep, Ei. split_and!; try done.
  cbn [mbind res_bind]. rewrite bool_decide_true by done. cbn [negb or_err mbind res_bind].
  unfold header_get, h. destruct (bool_decide_reflect (algo = "")) as [->|Hne]; [done|].
  assert ((<[headerType := algo]> {[ headerVersion := "0.0.1" ]} : gmap string string) !! headerVersion = Some "0.0.1") as -> by done.
  rewrite lookup_insert_eq. cbn [from_option id]. rewrite (bool_decide_false (algo = "")) by done. by rewrite lookup_insert_eq.
Qed.

(* ------------------------------------------------------------------ *)
(** * Witnesses *)

(** Armor as the text of an encoding of its parts, and a cipher that only adds
    the nonce. *)
Fixpoint pos_text (p : positive) : string :=
  match p with xH => "" | xO p => String "0" (pos_text p) | xI p => String "1" (pos_text p) end.
Fixpoint text_pos (s : string) : positive :=
  match s with
  | EmptyString => xH
  | String c s => if decide (c = "0"%char) then xO (text_pos s) else xI (text_pos s)
  end.
Lemma text_pos_text p : text_pos (pos_text p) = p.
Proof.
  induction p as [p IH|p IH|]; [| |done]; cbn [pos_text text_pos]; rewrite IH; by destruct (decide _).
Qed.

#[local] Instance toy_armor : ArmorLib := {|
  EncodeArmor t h bz := pos_text (encode (t, h, bz));
  DecodeArmor s := match decode (text_pos s) with Some x => Ok x | None => Err "EOF" end;
  bcrypt_GenerateFromPassword salt pass _ := Ok (salt ++ pass);
  EncryptSymmetric nonce pt key := nonce ++ 0 :: pt;
  DecryptSymmetric ct key := Ok (drop 25 ct);
|}.
Lemma toy_armor_laws : ArmorLaws (H := toy_armor).
Proof.
  split; cbn.
  - intros t h bz _ _ _. by rewrite text_pos_text, decode_encode.
  - intros nonce pt key E. by destruct nonce.
  - intros nonce pt key Hn _ _. f_equal. change (nonce ++ 0 :: pt) with (nonce ++ [0] ++ pt). rewrite app_assoc.
    apply drop_app_length'. rewrite length_app, Hn. done.
Qed.

Definition toy_pub_bytes (k : PubKey) : bytes :=
  match k with Secp256k1Key b => 1 :: b | Ed25519Key b => 2 :: b | LegacyAminoPubKey _ _ => [3] end.
#[local] Instance toy_amino : AminoLib := {|
  amino_MarshalPub := toy_pub_bytes;
  amino_UnmarshalPub bz := match bz with
    | 1 :: b => Secp256k1Key <$> secp_UnmarshalAmino b
    | 2 :: b => Ed25519Key <$> ed_UnmarshalAmino b
    | _ => Err "unrecognized prefix" end;
  amino_MarshalPriv k := match k with Secp256k1Priv b => 1 :: b | Ed25519Priv b => 2 :: b end;
  amino_UnmarshalPriv bz := match bz with
    | 1 :: b => Secp256k1Priv <$> secp_priv_UnmarshalAmino b
    | 2 :: b => Ed25519Priv <$> ed_priv_UnmarshalAmino b
    | _ => Err "cannot decode empty bytes" end;
|}.
Lemma toy_amino_laws : AminoLaws (H := toy_amino).
Proof.
  split; try done.
  - by intros [b|b].
  - intros [b|b]; cbn; intros Hb; constructor; try done; unfold is_uint8; lia.
  - cbn. intros [|[|[|[]|]|] b] k E Hb; try done; inversion_clear Hb;
      unfold secp_priv_UnmarshalAmino, ed_priv_UnmarshalAmino in E;
      destruct (len b =? _) eqn:El; try done; by injection E as <-.
  - cbn. intros [|[|[|[]|]|] b] msg; try done; unfold secp_priv_UnmarshalAmino, ed_priv_UnmarshalAmino;
      by destruct (len b =? _).
Qed.

Lemma EncryptArmorPrivKey_roundtrip_witness :
  exists armor, UnarmorDecryptPrivKey (H := toy_lib) (H0 := toy_amino) (H1 := toy_armor) armor "pw" =
    Ok (Secp256k1Priv (zeros 31 ++ [5]), "secp256k1").
Proof.
  destruct (EncryptArmorPrivKey (H := toy_lib) (H0 := toy_amino) (H1 := toy_armor) [171; 9] (zeros 24) (Secp256k1Priv (zeros 31 ++ [5])) "pw" "")
    as [armor|e|e] eqn:E; [|discriminate E..].
  exists armor. apply (@EncryptArmorPrivKey_roundtrip toy_lib toy_laws toy_amino toy_amino_laws toy_armor toy_armor_laws
    [171; 9] (zeros 24) (Secp256k1Priv (zeros 31 ++ [5])) "pw" "" armor).
  - repeat constructor; discriminate.
  - discriminate.
  - reflexivity.
  - reflexivity.
  - left. reflexivity.
  - exact E.
Defined.

Lemma Armor_kinds_witness :
  UnarmorPubKeyBytes (H1 := toy_armor) (ArmorPubKeyBytes (H1 := toy_armor) [1; 2] "ed25519") = Ok ([1; 2], "ed25519").
Proof. apply (@Armor_kinds toy_armor toy_armor_laws [1; 2] "ed25519"); [discriminate|right; reflexivity]. Defined.
