(* ===== verification/KeyMethods.v ===== *)
(** The methods of the keys that compare, print and encode them
    ([crypto/keys/secp256k1/secp256k1.go], [crypto/keys/ed25519/ed25519.go]), and
    the binding of the C library
    ([crypto/keys/secp256k1/internal/secp256k1/secp256.go] and
    [crypto/keys/secp256k1/secp256k1_cgo.go]), which replaces the pure Go keys in
    the build with libsecp256k1.

    A key is its bytes; [other] is any key, given by its type and its bytes.  The C
    functions are the class [LibSecp]; a buffer that a function fills is part of its
    result. *)
From S2P Require Import Prelude GoStrings Keys Curve Multisig Armor.

(** What [Equals] sees of another key. *)
Record AnyKey := MkAnyKey { key_Type : string; key_Bytes : bytes }.

(* ------------------------------------------------------------------ *)
(** * secp256k1 *)

Definition secp_keyType : string := "secp256k1".

Definition secp_priv_Bytes (key : bytes) : bytes := key.
Definition secp_priv_Type (key : bytes) : string := secp_keyType.
Definition secp_priv_Equals (key : bytes) (other : AnyKey) : bool :=
  bool_decide (secp_priv_Type key = key_Type other) && bytes_Equal (secp_priv_Bytes key) (key_Bytes other).
Definition secp_priv_MarshalAmino (key : bytes) : bytes := key.
Definition secp_priv_MarshalAminoJSON (key : bytes) : bytes := secp_priv_MarshalAmino key.
Definition secp_priv_UnmarshalAminoJSON (bz : bytes) : res bytes := secp_priv_UnmarshalAmino bz.

Definition secp_pub_Bytes (key : bytes) : bytes := key.
Definition secp_pub_Type (key : bytes) : string := secp_keyType.
Definition secp_pub_Equals (key : bytes) (other : AnyKey) : bool :=
  bool_decide (secp_pub_Type key = key_Type other) && bytes_Equal (secp_pub_Bytes key) (key_Bytes other).
Definition secp_pub_MarshalAmino (key : bytes) : bytes := key.
Definition secp_pub_MarshalAminoJSON (key : bytes) : bytes := secp_pub_MarshalAmino key.
Definition secp_pub_UnmarshalAminoJSON (bz : bytes) : res bytes := secp_UnmarshalAmino bz.
Definition secp_pub_String (key : bytes) : string := "PubKeySecp256k1{" +:+ hex_upper key +:+ "}".

(* ------------------------------------------------------------------ *)
(** * ed25519 *)

Definition ed_keyType : string := "ed25519".

Definition ed_priv_Bytes (key : bytes) : bytes := key.
Definition ed_priv_Type (key : bytes) : string := ed_keyType.
Definition ed_priv_Equals (key : bytes) (other : AnyKey) : bool :=
  bool_decide (ed_priv_Type key = key_Type other) && bytes_Equal (ed_priv_Bytes key) (key_Bytes other).
Definition ed_priv_MarshalAmino (key : bytes) : bytes := key.
Definition ed_priv_MarshalAminoJSON (key : bytes) : bytes := ed_priv_MarshalAmino key.
Definition ed_priv_UnmarshalAminoJSON (bz : bytes) : res bytes := ed_priv_UnmarshalAmino bz.

Definition ed_pub_Bytes (key : bytes) : bytes := key.
Definition ed_pub_Type (key : bytes) : string := ed_keyType.
Definition ed_pub_Equals (key : bytes) (other : AnyKey) : bool :=
  bool_decide (ed_pub_Type key = key_Type other) && bytes_Equal (ed_pub_Bytes key) (key_Bytes other).
Definition ed_pub_MarshalAmino (key : bytes) : bytes := key.
Definition ed_pub_MarshalAminoJSON (key : bytes) : bytes := ed_pub_MarshalAmino key.
Definition ed_pub_UnmarshalAminoJSON (bz : bytes) : res bytes := ed_UnmarshalAmino bz.
Definition ed_pub_String (key : bytes) : string := "PubKeyEd25519{" +:+ hex_upper key +:+ "}".

(* ------------------------------------------------------------------ *)
(** * Properties *)

(** Decoding by size: what both steps of every [UnmarshalAmino] do. *)
Lemma sized_decode (n : Z) (e : string) (k : bytes) :
  (is_ok (if negb (len k =? n) then Err e else Ok k) = true <-> len k = n) /\
  (len k = n -> (if negb (len k =? n) then Err e else Ok k) = Ok k).
Proof. destruct (Z.eqb_spec (len k) n); cbn; naive_solver. Qed.

Lemma typed_equal (t : string) (k : bytes) (other : AnyKey) :
  bool_decide (t = key_Type other) && bytes_Equal k (key_Bytes other) = true <-> other = MkAnyKey t k.
Proof. unfold bytes_Equal. rewrite andb_true_iff, !bool_decide_eq_true. destruct other; cbn. naive_solver. Qed.

(** Keys of the right sizes survive amino, as binary and as JSON, and keys of any
    other size are refused; two keys are equal exactly when their types and bytes
    are. *)
Theorem keys_amino :
  (forall k, secp_priv_UnmarshalAmino (secp_priv_MarshalAmino k) = secp_priv_UnmarshalAminoJSON (secp_priv_MarshalAminoJSON k) /\
     (is_ok (secp_priv_UnmarshalAmino k) = true <-> len k = 32) /\ (len k = 32 -> secp_priv_UnmarshalAmino (secp_priv_MarshalAmino k) = Ok k)) /\
  (forall k, (is_ok (secp_UnmarshalAmino k) = true <-> len k = 33) /\ (len k = 33 -> secp_pub_UnmarshalAminoJSON (secp_pub_MarshalAminoJSON k) = Ok k)) /\
  (forall k, (is_ok (ed_priv_UnmarshalAmino k) = true <-> len k = 64) /\ (len k = 64 -> ed_priv_UnmarshalAminoJSON (ed_priv_MarshalAminoJSON k) = Ok k)) /\
  (forall k, (is_ok (ed_UnmarshalAmino k) = true <-> len k = 32) /\ (len k = 32 -> ed_pub_UnmarshalAminoJSON (ed_pub_MarshalAminoJSON k) = Ok k)) /\
  (forall k other, secp_priv_Equals k other = true <-> other = MkAnyKey "secp256k1" k) /\
  (forall k other, secp_pub_Equals k other = true <-> other = MkAnyKey "secp256k1" k) /\
  (forall k other, ed_priv_Equals k other = true <-> other = MkAnyKey "ed25519" k) /\
  (forall k other, ed_pub_Equals k other = true <-> other = MkAnyKey "ed25519" k).
Proof.
  split_and!; intros.
  - split; [reflexivity | apply sized_decode].
  - apply sized_decode.
  - apply sized_decode.
  - apply sized_decode.
  - apply (typed_equal "secp256k1").
  - apply (typed_equal "secp256k1").
  - apply (typed_equal "ed25519").
  - apply (typed_equal "ed25519").
Qed.

(* ------------------------------------------------------------------ *)
(** * The C library *)

Class LibSecp := {
  ec_seckey_verify : bytes -> Z;
  (** [ecdsa_sign_recoverable] of message and key with the default nonces, and
      the compact serialization of its signature: 64 bytes and the recovery id. *)
  ecdsa_sign_recoverable : bytes -> bytes -> Z * (bytes * Z);
  ext_ecdsa_recover : bytes -> bytes -> Z * bytes;
  ext_ecdsa_verify : bytes -> bytes -> bytes -> Z;
  (** [ext_reencode_pubkey] into a buffer of the given length. *)
  ext_reencode_pubkey : Z -> bytes -> Z * bytes;
}.
(** The documented behaviour of the library: compact signatures have 64 bytes and
    a recovery id below 4 and verify under the key of the signer, which can be
    recovered from them; public keys have 33 or 65 bytes. *)
Class LibSecpLaws `{L : LibSecp} (pubkey : bytes -> bytes) : Prop := {
  sign_compact msg key sig recid : ecdsa_sign_recoverable msg key = (1, (sig, recid)) ->
    length sig = 64%nat /\ 0 <= recid < 4 /\ ext_ecdsa_verify sig msg (pubkey key) = 1 /\
    fst (ext_ecdsa_recover (sig ++ [recid]) msg) = 1;
  sign_result msg key : fst (ecdsa_sign_recoverable msg key) = 0 \/ fst (ecdsa_sign_recoverable msg key) = 1;
  verify_key_size sig msg key : length key <> 33%nat -> length key <> 65%nat -> ext_ecdsa_verify sig msg key = 0;
  pubkey_size key : length (pubkey key) = 33%nat;
}.

Section Cgo.
Context `{LibSecp}.

Definition ErrInvalidMsgLen : string := "invalid message length, need 32 bytes".
Definition ErrInvalidSignatureLen : string := "invalid signature length".
Definition ErrInvalidRecoveryID : string := "invalid signature recovery id".
Definition ErrInvalidKey : string := "invalid private key".
Definition ErrSignFailed : string := "signing failed".
Definition ErrRecoverFailed : string := "recovery failed".

Definition checkSignature (sig : bytes) : res unit :=
  if negb (len sig =? 65) then Err ErrInvalidSignatureLen else
  if 4 <=? nth 64 sig 0 then Err ErrInvalidRecoveryID else Ok tt.
Definition cgo_Sign (msg seckey : bytes) : res bytes :=
  if negb (len msg =? 32) then Err ErrInvalidMsgLen else
  if negb (len seckey =? 32) then Err ErrInvalidKey else
  if negb (ec_seckey_verify seckey =? 1) then Err ErrInvalidKey else
  let '(r, (sig, recid)) := ecdsa_sign_recoverable msg seckey in
  if r =? 0 then Err ErrSignFailed else
  let sig := go_copy (zeros 65) sig in
  Ok (<[64%nat := wrap_u8 recid]> sig).
Definition RecoverPubkey (msg sig : bytes) : res bytes :=
  if negb (len msg =? 32) then Err ErrInvalidMsgLen else
  _ ← checkSignature sig;
  let '(r, pubkey) := ext_ecdsa_recover sig msg in
  if r =? 0 then Err ErrRecoverFailed else Ok pubkey.
Definition cgo_VerifySignature (pubkey msg signature : bytes) : bool :=
  if negb (len msg =? 32) || negb (len signature =? 64) || (len pubkey =? 0) then false else
  negb (ext_ecdsa_verify signature msg pubkey =? 0).
(** The pair of nils is [None]. *)
Definition DecompressPubkey (pubkey : bytes) : option (Z * Z) :=
  if negb (len pubkey =? 33) then None else
  let '(r, out) := ext_reencode_pubkey 65 pubkey in
  if r =? 0 then None else Some (big_SetBytes (take 32 (drop 1 out)), big_SetBytes (drop 33 out)).
Definition CompressPubkey (x y : Z) : res bytes :=
  let pubkey := Marshal S256 x y in
  let '(r, out) := ext_reencode_pubkey 33 pubkey in
  if r =? 0 then Panic "libsecp256k1 error" else Ok out.

(** The methods of the keys: [VerifySignature] is declared on the private key. *)
Definition cgo_PrivKey_Sign `{CryptoLib} (privKey msg : bytes) : res bytes :=
  rsv ← cgo_Sign (Sha256 msg) privKey;
  Ok (take (length rsv - 1) rsv).
Definition cgo_PrivKey_VerifySignature `{CryptoLib} (privKey msg sig : bytes) : bool := cgo_VerifySignature privKey (Sha256 msg) sig.
End Cgo.

(* ------------------------------------------------------------------ *)
(** * Properties *)
Section Properties.
Context `{LL : LibSecpLaws pubkey, CryptoLib}.

Lemma cgo_Sign_Ok msg key sig : cgo_Sign msg key = Ok sig -> exists rs v,
  length msg = 32%nat /\ length key = 32%nat /\ sig = rs ++ [v] /\ length rs = 64%nat /\ 0 <= v < 4 /\
  ext_ecdsa_verify rs msg (pubkey key) = 1 /\ fst (ext_ecdsa_recover sig msg) = 1.
Proof using LL.
  unfold cgo_Sign, len. destruct (Z.eqb_spec (Z.of_nat (length msg)) 32); [|done]. destruct (Z.eqb_spec (Z.of_nat (length key)) 32); [|done].
  cbn [negb]. destruct (negb _); [done|]. destruct (ecdsa_sign_recoverable msg key) as [r [rs v]] eqn:E.
  destruct (Z.eqb_spec r 0) as [|Hr]; [done|]. intros [= <-].
  assert (r = 1) as -> by (pose proof (sign_result msg key) as Hs; rewrite E in Hs; cbn in Hs; lia).
  destruct (sign_compact msg key rs v E) as (Hl & Hv & Hve & Hre).
  assert (<[64%nat := wrap_u8 v]> (go_copy (zeros 65) rs) = rs ++ [v]) as ->.
  { unfold go_copy. change (length (zeros 65)) with 65%nat. rewrite take_ge by lia. rewrite Hl.
    unfold zeros. rewrite drop_replicate. change (replicate (65 - 64) 0) with [0].
    replace 64%nat with (length rs + 0)%nat by lia. rewrite insert_app_r. unfold wrap_u8. by rewrite Z.mod_small by lia. }
  exists rs, v. split_and!; try done; lia.
Qed.

(** A signature of the library's [Sign] can be given to [RecoverPubkey], which
    accepts it; without its last byte it verifies under the public key.  The
    method of the keys signs so, but its [VerifySignature] belongs to the private
    key, whose 32 bytes are no public key: it refuses every signature. *)
Theorem cgo_signatures :
  (forall msg key sig, cgo_Sign msg key = Ok sig -> checkSignature sig = Ok tt /\ is_ok (RecoverPubkey msg sig) = true) /\
  (forall key msg sig, cgo_PrivKey_Sign key msg = Ok sig ->
     length sig = 64%nat /\ cgo_VerifySignature (pubkey key) (Sha256 msg) sig = true) /\
  (forall key msg sig, length key = 32%nat -> cgo_PrivKey_VerifySignature key msg sig = false).
Proof using LL.
  split_and!.
  - intros msg key sig E. destruct (cgo_Sign_Ok msg key sig E) as (rs & v & Hm & _ & -> & Hl & Hv & _ & Hr).
    assert (checkSignature (rs ++ [v]) = Ok tt) as Hc.
    { unfold checkSignature, len. rewrite length_app, Hl. cbn [length]. change (Z.of_nat (64 + 1) =? 65) with true. cbn [negb].
      rewrite app_nth2, Hl, Nat.sub_diag by lia. cbn [nth]. by rewrite (proj2 (Z.leb_gt 4 v)) by lia. }
    split; [exact Hc|]. unfold RecoverPubkey, len. rewrite Hm. change (Z.of_nat 32 =? 32) with true. cbn [negb]. rewrite Hc. cbn.
    destruct (ext_ecdsa_recover (rs ++ [v]) msg) as [r pk]. cbn in Hr. by subst r.
  - intros key msg sig E. unfold cgo_PrivKey_Sign in E. apply bind_Ok in E as (rsv & E & [= <-]).
    destruct (cgo_Sign_Ok _ _ _ E) as (rs & v & Hm & _ & -> & Hl & _ & Hve & _).
    rewrite length_app, Hl. change (64 + length [v] - 1)%nat with 64%nat. rewrite take_app_length' by done. split; [done|].
    unfold cgo_VerifySignature, len. rewrite Hm, Hl, (pubkey_size key), Hve. done.
  - intros key msg sig Hk. unfold cgo_PrivKey_VerifySignature, cgo_VerifySignature. destruct (_ || _ || _); [done|].
    by rewrite verify_key_size by lia.
Qed.
End Properties.
