(* ===== verification/KeyStore.v ===== *)
(** Keys on disk and in memory: [types/store], the key managers of
    [crypto/key_manager.go] and [modules/keys.go], and the client of
    [modules/keys/keys.go].

    [KeyDAO] is the interface of the stores and [KeyDAOLaws] what it promises;
    the key manager is proved against the interface.  The database, the JSON
    codec and the encryption that the user supplies are parameters. *)
From S2P Require Import Prelude GoStrings Keys HDPath Multisig Address Armor.
From Stdlib Require Import Ascii.

(* ------------------------------------------------------------------ *)
(** * [types/store] *)

Record KeyInfo := MkKeyInfo { Info_Name : string; Info_PubKey : bytes; PrivKeyArmor : string; Info_Algo : string }.
(** The zero value. *)
Definition KeyInfo_zero : KeyInfo := MkKeyInfo "" [] "" "".

Class KeyDAO (D : Type) := {
  dao_Write : string -> string -> KeyInfo -> ST D unit;
  dao_Read : string -> string -> D -> res KeyInfo;
  dao_Delete : string -> string -> ST D unit;
  dao_Has : string -> D -> bool;
}.

Record Crypto := MkCrypto { Encrypt : string -> string -> res string; Decrypt : string -> string -> res string }.

(** [type AES struct{}] with its methods. *)
Definition AES_Encrypt (text key : string) : res string := Ok "".
Definition AES_Decrypt (cryptoText key : string) : res string := Ok "".
Definition AES : Crypto := MkCrypto AES_Encrypt AES_Decrypt.

(** [MemoryDAO] *)
Record MemoryDAO := MkMemory { mem_store : gmap string KeyInfo; mem_Crypto : Crypto }.
Definition NewMemory (crypto : option Crypto) : MemoryDAO := MkMemory ∅ (default AES crypto).
Definition mem_Write (name password : string) (store : KeyInfo) : ST MemoryDAO unit := fun m =>
  (Ok tt, MkMemory (<[name := store]> (mem_store m)) (mem_Crypto m)).
Definition mem_Read (name password : string) (m : MemoryDAO) : res KeyInfo :=
  Ok (default KeyInfo_zero (mem_store m !! name)).
Definition mem_Delete (name password : string) : ST MemoryDAO unit := fun m =>
  (Ok tt, MkMemory (delete name (mem_store m)) (mem_Crypto m)).
Definition mem_Has (name : string) (m : MemoryDAO) : bool := bool_decide (is_Some (mem_store m !! name)).
#[global] Instance Memory_DAO : KeyDAO MemoryDAO :=
  {| dao_Write := mem_Write; dao_Read := mem_Read; dao_Delete := mem_Delete; dao_Has := mem_Has |}.

(** [tmdb.DB], with [nil] for a missing value, and the JSON codec. *)
Class TmDB (DB : Type) := {
  db_Get : bytes -> DB -> res (option bytes);
  db_Has : bytes -> DB -> res bool;
  db_SetSync : bytes -> bytes -> ST DB unit;
  db_DeleteSync : bytes -> ST DB unit;
}.
Class KeyInfoJSON := {
  json_Marshal : KeyInfo -> res bytes;
  json_Unmarshal : bytes -> res KeyInfo;
}.

(** [LevelDBDAO] *)
Record LevelDBDAO (DB : Type) := MkLevelDB { level_db : DB; level_Crypto : Crypto }.
Arguments MkLevelDB {_} _ _.
Arguments level_db {_} _.
Arguments level_Crypto {_} _.

Definition infoSuffix : string := "info".
Definition infoKey (name : string) : bytes := to_bytes (name +:+ "." +:+ infoSuffix).

Section LevelDB.
Context {DB : Type} `{TmDB DB, KeyInfoJSON}.

(** [tmdb.NewGoLevelDB] opens the database [db]. *)
Definition NewLevelDB (db : res DB) (crypto : option Crypto) : res (LevelDBDAO DB) :=
  db ← db; Ok (MkLevelDB db (default AES crypto)).

(** A call to a method of the database. *)
Definition with_db {A} (m : ST DB A) : ST (LevelDBDAO DB) A := fun k =>
  let '(r, db) := m (level_db k) in (r, MkLevelDB db (level_Crypto k)).

Definition level_Has (name : string) (k : LevelDBDAO DB) : bool :=
  match db_Has (infoKey name) (level_db k) with Ok existed => existed | _ => false end.

Definition level_Write (name password : string) (store : KeyInfo) : ST (LevelDBDAO DB) unit := fun k =>
  if level_Has name k then (Err "name %s has exist", k) else
  (privStr ← lift (Encrypt (level_Crypto k) (PrivKeyArmor store) password);
   let store := MkKeyInfo (Info_Name store) (Info_PubKey store) privStr (Info_Algo store) in
   bz ← lift (json_Marshal store);
   with_db (db_SetSync (infoKey name) bz)) k.

Definition level_Read (name password : string) (k : LevelDBDAO DB) : res KeyInfo :=
  bz ← db_Get (infoKey name) (level_db k);
  match bz with
  | None => Ok KeyInfo_zero
  | Some bz =>
      store ← json_Unmarshal bz;
      if bool_decide (password = "") then Ok store
      else
        privStr ← Decrypt (level_Crypto k) (PrivKeyArmor store) password;
        Ok (MkKeyInfo (Info_Name store) (Info_PubKey store) privStr (Info_Algo store))
  end.

Definition level_Delete (name password : string) : ST (LevelDBDAO DB) unit :=
  _ ← query (level_Read name password);
  with_db (db_DeleteSync (infoKey name)).

#[global] Instance LevelDB_DAO : KeyDAO (LevelDBDAO DB) :=
  {| dao_Write := level_Write; dao_Read := level_Read; dao_Delete := level_Delete; dao_Has := level_Has |}.
End LevelDB.

(* ------------------------------------------------------------------ *)
(** * [crypto/key_manager.go] *)

(** [keyManager]; the private key is nil until it is set. *)
Record crypto_keyManager := MkCKM { ckm_privKey : option PrivKey; ckm_mnemonic : string; ckm_algo : string }.

Section CryptoKeyManager.
Context `{CryptoLib, HDLib, AminoLib, ArmorLib}.

Definition NewKeyManager : crypto_keyManager := MkCKM None "" "".

Definition recoveryFromMnemonic (mnemonic hdPath algoStr : string) (m : crypto_keyManager) : res crypto_keyManager :=
  let words := length (split_on " " mnemonic) in
  if negb (words =? 12)%nat && negb (words =? 24)%nat then Err "mnemonic length should either be 12 or 24"
  else
    _ ← NewSigningAlgoFromString algoStr;
    derivedPriv ← algo_Derive mnemonic "" hdPath;
    let privKey := Secp256k1Priv (algo_Generate derivedPriv) in
    Ok (MkCKM (Some privKey) (ckm_mnemonic m) algoStr).

Definition NewMnemonicKeyManager (mnemonic algo : string) : res crypto_keyManager :=
  recoveryFromMnemonic mnemonic FullPath algo (MkCKM None mnemonic algo).
Definition NewMnemonicKeyManagerWithHDPath (mnemonic algo hdPath : string) : res crypto_keyManager :=
  recoveryFromMnemonic mnemonic hdPath algo (MkCKM None mnemonic algo).

(** [entropy] is the result of [bip39.NewEntropy(256)]. *)
Definition NewAlgoKeyManager (entropy : res bytes) (algo : string) : res crypto_keyManager :=
  entropy ← entropy;
  mnemonic ← NewMnemonic entropy;
  NewMnemonicKeyManager mnemonic algo.

Definition NewPrivateKeyManager (priv : bytes) (algo : string) : res crypto_keyManager :=
  privKey ← or_err (PrivKeyFromBytes priv) "failed to decrypt private key";
  Ok (MkCKM (Some privKey) "" algo).

Definition ckm_Generate (m : crypto_keyManager) : string * option PrivKey := (ckm_mnemonic m, ckm_privKey m).
Definition ckm_Sign (m : crypto_keyManager) (data : bytes) : res bytes :=
  k ← deref (ckm_privKey m); priv_Sign k data.
Definition ckm_ExportPrivKey (salt nonce : bytes) (m : crypto_keyManager) (password : string) : res string :=
  k ← deref (ckm_privKey m); EncryptArmorPrivKey salt nonce k password (ckm_algo m).
Definition ckm_ImportPrivKey (m : crypto_keyManager) (armor passphrase : string) : res (PrivKey * string * crypto_keyManager) :=
  '(privKey, algo) ← or_err (UnarmorDecryptPrivKey armor passphrase) "failed to decrypt private key";
  Ok (privKey, algo, MkCKM (Some privKey) (ckm_mnemonic m) algo).
Definition ckm_ExportPubKey (m : crypto_keyManager) : res PubKey :=
  k ← deref (ckm_privKey m); priv_PubKey k.
End CryptoKeyManager.

(* ------------------------------------------------------------------ *)
(** * [modules/keys.go] *)
Section KeyManager.
Context {D : Type} `{KeyDAO D, CryptoLib, HDLib, AminoLib, ArmorLib, Bech32Lib}.
(** The field [algo]; the store is the state. *)
Variable algo : string.

Definition ks_Sign (name password : string) (data : bytes) (d : D) : res (bytes * PubKey) :=
  info ← or_err (dao_Read name password d) "name %s not exist";
  km ← or_err (NewPrivateKeyManager (to_bytes (PrivKeyArmor info)) (Info_Algo info)) "name %s not exist";
  signByte ← ckm_Sign km data;
  pub ← ckm_ExportPubKey km;
  Ok (signByte, pub).

(** What [Insert], [Recover] and [Import] do with the key they have got. *)
Definition store_key (name password : string) (km : crypto_keyManager) (priv : option PrivKey) : ST D string :=
  pubKey ← lift (ckm_ExportPubKey km);
  addr ← lift (PubKey_Address pubKey);
  address ← lift (Acc_String addr);
  priv ← lift (deref priv);
  let info := MkKeyInfo name (MarshalPubkey pubKey) (bytes_str (MarshalPrivKey priv)) algo in
  _ ← dao_Write name password info;
  mret address.

Definition ks_Insert (entropy : res bytes) (name password : string) : ST D (string * string) := fun d =>
  if dao_Has name d then (Err "name %s has existed", d) else
  (km ← lift (NewAlgoKeyManager entropy algo);
   let '(mnemonic, priv) := ckm_Generate km in
   address ← store_key name password km priv;
   mret (address, mnemonic)) d.

Definition ks_Recover (name password mnemonic hdPath : string) : ST D string := fun d =>
  if dao_Has name d then (Err "name %s has existed", d) else
  (km ← lift (if bool_decide (hdPath = "") then NewMnemonicKeyManager mnemonic algo
              else NewMnemonicKeyManagerWithHDPath mnemonic algo hdPath);
   let '(_, priv) := ckm_Generate km in
   store_key name password km priv) d.

Definition ks_Import (name password armor : string) : ST D string := fun d =>
  if dao_Has name d then (Err "%s has existed", d) else
  ('(priv, _, km) ← lift (ckm_ImportPrivKey NewKeyManager armor password);
   store_key name password km (Some priv)) d.

Definition ks_Export (salt nonce : bytes) (name password : string) (d : D) : res string :=
  info ← or_err (dao_Read name password d) "name %s not exist";
  km ← NewPrivateKeyManager (to_bytes (PrivKeyArmor info)) (Info_Algo info);
  ckm_ExportPrivKey salt nonce km password.

Definition ks_Delete (name password : string) : ST D unit := dao_Delete name password.

Definition ks_Find (name password : string) (d : D) : res (PubKey * bytes) :=
  info ← or_err (dao_Read name password d) "name %s not exist";
  pubKey ← or_err (PubKeyFromBytes (Info_PubKey info)) "name %s not exist";
  a ← PubKey_Address pubKey;
  Ok (pubKey, a).

(* ------------------------------------------------------------------ *)
(** * [modules/keys/keys.go] *)

Definition kc_Add (entropy : res bytes) (name password : string) : ST D (string * string) := ks_Insert entropy name password.
Definition kc_Recover (name password mnemonic : string) : ST D string := ks_Recover name password mnemonic "".
Definition kc_RecoverWithHDPath (name password mnemonic hdPath : string) : ST D string :=
  ks_Recover name password mnemonic hdPath.
Definition kc_Import (name password privKeyArmor : string) : ST D string := ks_Import name password privKeyArmor.
Definition kc_Export (salt nonce : bytes) (name password : string) (d : D) : res string := ks_Export salt nonce name password d.
Definition kc_Delete (name password : string) : ST D unit := ks_Delete name password.
Definition kc_Show (name password : string) (d : D) : res string :=
  '(_, address) ← ks_Find name password d; Acc_String address.
End KeyManager.

(* ------------------------------------------------------------------ *)
(** * The contract of the stores

    [storable] says for which names, passwords and infos a store is able to
    work: what is written under a free name is read back with the same
    password, and other names are not affected. *)
Class KeyDAOLaws (D : Type) `{KeyDAO D} (storable : D -> string -> string -> KeyInfo -> Prop) : Prop := {
  law_write d name password info : storable d name password info -> dao_Has name d = false ->
    exists d', dao_Write name password info d = (Ok tt, d') /\
      dao_Read name password d' = Ok info /\ dao_Has name d' = true;
  law_write_frame d name password info d' r other pw : dao_Write name password info d = (r, d') -> other <> name ->
    dao_Read other pw d' = dao_Read other pw d /\ dao_Has other d' = dao_Has other d;
  law_delete d name password d' : dao_Delete name password d = (Ok tt, d') -> dao_Has name d' = false;
  law_delete_frame d name password d' r other pw : dao_Delete name password d = (r, d') -> other <> name ->
    dao_Read other pw d' = dao_Read other pw d /\ dao_Has other d' = dao_Has other d;
}.

Lemma MemoryDAO_laws : KeyDAOLaws MemoryDAO (fun _ _ _ _ => True).
Proof.
  split; cbn; unfold mem_Write, mem_Read, mem_Delete, mem_Has.
  - intros m name pw info _ _. eexists. split; [done|]. cbn. rewrite lookup_insert_eq. split; [done|].
    by apply bool_decide_eq_true.
  - intros m name pw info m' r other pw' [= <- <-] Hne. cbn. by rewrite lookup_insert_ne.
  - intros m name pw m' [= <-]. cbn. rewrite lookup_delete_eq. by apply bool_decide_eq_false; intros [? ?].
  - intros m name pw m' r other pw' [= <- <-] Hne. cbn. by rewrite lookup_delete_ne.
Qed.

(** A working database is a map from keys to values. *)
Class TmDBLaws (DB : Type) `{TmDB DB} (contents : DB -> gmap bytes bytes) : Prop := {
  db_get_law k db : db_Get k db = Ok (contents db !! k);
  db_has_law k db : db_Has k db = Ok (bool_decide (is_Some (contents db !! k)));
  db_set_law k v db : exists db', db_SetSync k v db = (Ok tt, db') /\ contents db' = <[k := v]> (contents db);
  db_delete_law k db : exists db', db_DeleteSync k db = (Ok tt, db') /\ contents db' = delete k (contents db);
}.

(** JSON keeps text of 7-bit characters (and all byte slices). *)
Definition ascii_text (s : string) : bool := str_forall (fun c => code c <? 128) s.
Definition ascii_info (i : KeyInfo) : Prop :=
  ascii_text (Info_Name i) = true /\ ascii_text (PrivKeyArmor i) = true /\ ascii_text (Info_Algo i) = true.
Class JSONLaws `{KeyInfoJSON} : Prop := {
  json_total i : exists bz, json_Marshal i = Ok bz;
  json_roundtrip i bz : ascii_info i -> json_Marshal i = Ok bz -> json_Unmarshal bz = Ok i;
}.

Lemma json_read `{JSONLaws} {i bz} : json_Marshal i = Ok bz -> ascii_text (Info_Name i) = true ->
  ascii_text (PrivKeyArmor i) = true -> ascii_text (Info_Algo i) = true -> json_Unmarshal bz = Ok i.
Proof. intros Hj Hn Hp Ha. by apply json_roundtrip. Qed.

(** What the user's encryption has to do. *)
Definition crypto_ok (c : Crypto) : Prop := forall text key, key <> "" ->
  exists ct, Encrypt c text key = Ok ct /\ ascii_text ct = true /\ Decrypt c ct key = Ok text.

Lemma str_app_inj_r a b t : a +:+ t = b +:+ t -> a = b.
Proof.
  revert b. induction a as [|c a IH]; intros [|d b] E; [done|..].
  - exfalso. apply (f_equal String.length) in E. rewrite !str_length_app in E. cbn in E. lia.
  - exfalso. apply (f_equal String.length) in E. rewrite !str_length_app in E. cbn in E. lia.
  - rewrite !str_app_cons in E. injection E as -> E. f_equal. by apply IH.
Qed.

Lemma infoKey_inj a b : infoKey a = infoKey b -> a = b.
Proof.
  unfold infoKey. intros E. apply (f_equal bytes_str) in E. rewrite !bytes_str_to_bytes in E. by apply str_app_inj_r in E.
Qed.

Section LevelDBLaws.
Context {DB : Type} `{TmDBLaws DB contents, JSONLaws}.

Lemma level_Has_spec name (k : LevelDBDAO DB) :
  level_Has name k = bool_decide (is_Some (contents (level_db k) !! infoKey name)).
Proof. unfold level_Has. by rewrite db_has_law. Qed.

(** Reading, in terms of the contents. *)
Lemma level_Read_eq name pw (k k' : LevelDBDAO DB) :
  contents (level_db k) !! infoKey name = contents (level_db k') !! infoKey name -> level_Crypto k = level_Crypto k' ->
  level_Read name pw k = level_Read name pw k'.
Proof. intros E Ec. unfold level_Read. by rewrite !db_get_law, E, Ec. Qed.

(** A successful write puts the JSON of the encrypted info under the name. *)
Lemma level_Write_spec name pw info (k : LevelDBDAO DB) r k' : level_Write name pw info k = (r, k') ->
  level_Crypto k' = level_Crypto k /\
  match r with
  | Ok _ => level_Has name k = false /\ exists ct bz, Encrypt (level_Crypto k) (PrivKeyArmor info) pw = Ok ct /\
      json_Marshal (MkKeyInfo (Info_Name info) (Info_PubKey info) ct (Info_Algo info)) = Ok bz /\
      contents (level_db k') = <[infoKey name := bz]> (contents (level_db k))
  | _ => k' = k
  end.
Proof.
  unfold level_Write. destruct (level_Has name k) eqn:Eh; [by intros [= <- <-]|].
  unfold mbind, st_bind, lift. destruct (Encrypt _ _ _) as [ct|e|e] eqn:Ec; [|by intros [= <- <-]..].
  destruct (json_Marshal _) as [bz|e|e] eqn:Ej; [|by intros [= <- <-]..]. unfold with_db.
  destruct (db_set_law (infoKey name) bz (level_db k)) as (db' & -> & Hc). intros [= <- <-]. cbn. eauto 8.
Qed.

Lemma level_Delete_spec name pw (k : LevelDBDAO DB) r k' : level_Delete name pw k = (r, k') ->
  level_Crypto k' = level_Crypto k /\
  match r with Ok _ => contents (level_db k') = delete (infoKey name) (contents (level_db k)) | _ => k' = k end.
Proof.
  unfold level_Delete, mbind, st_bind, query. destruct (level_Read name pw k) as [i|e|e]; [|by intros [= <- <-]..].
  unfold with_db. destruct (db_delete_law (infoKey name) (level_db k)) as (db' & -> & Hc). by intros [= <- <-].
Qed.

(** The database store keeps its promise for non-empty passwords and names
    and algorithms that JSON keeps, if the encryption works. *)
Definition level_storable (k : LevelDBDAO DB) (name pw : string) (info : KeyInfo) : Prop :=
  crypto_ok (level_Crypto k) /\ pw <> "" /\ ascii_text (Info_Name info) = true /\ ascii_text (Info_Algo info) = true.

Lemma LevelDB_write (k : LevelDBDAO DB) name pw info :
  level_storable k name pw info -> level_Has name k = false ->
  exists k', level_Write name pw info k = (Ok tt, k') /\ level_Read name pw k' = Ok info /\ level_Has name k' = true.
Proof.
  intros (Hc & Hpw & Hn & Ha) Hh. destruct (Hc (PrivKeyArmor info) pw Hpw) as (ct & Ee & Hct & Ed).
  destruct (level_Write name pw info k) as [r k'] eqn:Ew. destruct (level_Write_spec _ _ _ _ _ _ Ew) as [Ek Hr].
  set (stored := MkKeyInfo (Info_Name info) (Info_PubKey info) ct (Info_Algo info)) in *.
  destruct (json_total stored) as [bz Hj].
  assert (r = Ok tt) as ->.
  { unfold level_Write, mbind, st_bind, lift in Ew. rewrite Hh, Ee in Ew. fold stored in Ew. rewrite Hj in Ew. unfold with_db in Ew.
    destruct (db_set_law (infoKey name) bz (level_db k)) as (db' & E & _). rewrite E in Ew. by injection Ew as <- _. }
  exists k'. split; [done|]. destruct Hr as (_ & ct' & bz' & Ee' & Hj' & Ec).
  rewrite Ee in Ee'. injection Ee' as <-. fold stored in Hj'. rewrite Hj in Hj'. injection Hj' as <-.
  split; [|rewrite level_Has_spec, Ec, lookup_insert_eq; by apply bool_decide_eq_true].
  unfold level_Read. rewrite db_get_law, Ec, lookup_insert_eq, Ek. cbn [mbind res_bind].
  rewrite (json_roundtrip stored bz) by (repeat split; done). cbn [mbind res_bind]. rewrite bool_decide_false by done.
  cbn [PrivKeyArmor stored]. rewrite Ed. by destruct info.
Qed.

Lemma LevelDBDAO_laws : KeyDAOLaws (LevelDBDAO DB) level_storable.
Proof.
  split; cbn.
  - apply LevelDB_write.
  - intros k name pw info k' r other pw' Hw Hne.
    assert (infoKey name <> infoKey other) as Hk by (intros E; by apply infoKey_inj in E).
    destruct (level_Write_spec _ _ _ _ _ _ Hw) as [Ek Hr].
    assert (contents (level_db k') !! infoKey other = contents (level_db k) !! infoKey other) as E.
    { destruct r; [|by subst..]. destruct Hr as (_ & ct & bz & _ & _ & ->). by rewrite lookup_insert_ne. }
    split; [by apply level_Read_eq|]. by rewrite !level_Has_spec, E.
  - intros k name pw k' Hd. destruct (level_Delete_spec _ _ _ _ _ Hd) as [_ Hc].
    rewrite level_Has_spec, Hc, lookup_delete_eq. by apply bool_decide_eq_false; intros [? ?].
  - intros k name pw k' r other pw' Hd Hne.
    assert (infoKey name <> infoKey other) as Hk by (intros E; by apply infoKey_inj in E).
    destruct (level_Delete_spec _ _ _ _ _ Hd) as [Ek Hr].
    assert (contents (level_db k') !! infoKey other = contents (level_db k) !! infoKey other) as E.
    { destruct r; [|by subst..]. by rewrite Hr, lookup_delete_ne. }
    split; [by apply level_Read_eq|]. by rewrite !level_Has_spec, E.
Qed.
End LevelDBLaws.

(** ** One key under a name

    A name is found with the same key and address whatever password opens it,
    since the stores keep the public key as it is. *)
Definition one_key {D} `{KeyDAO D, CryptoLib, AminoLib} (d : D) (name : string) : Prop :=
  forall pw pw' k k', ks_Find name pw d = Ok k -> ks_Find name pw' d = Ok k' -> k = k'.

Lemma same_pub_one_key {D} `{KeyDAO D, CryptoLib, AminoLib} (d : D) name :
  (forall pw pw' i i', dao_Read name pw d = Ok i -> dao_Read name pw' d = Ok i' -> Info_PubKey i = Info_PubKey i') -> one_key d name.
Proof.
  intros Hr pw pw' k k' E E'. unfold ks_Find in *.
  destruct (dao_Read name pw d) as [i|e|e] eqn:Ei; [|done..]. destruct (dao_Read name pw' d) as [i'|e|e] eqn:Ei'; [|done..].
  cbn [or_err mbind res_bind] in *. rewrite (Hr _ _ _ _ Ei Ei') in E. congruence.
Qed.
Lemma memory_one_key `{CryptoLib, AminoLib} (m : MemoryDAO) name : one_key m name.
Proof. apply same_pub_one_key. cbn. unfold mem_Read. intros _ _ i i' E E'. congruence. Qed.
Lemma level_one_key {DB} `{TmDB DB, KeyInfoJSON, CryptoLib, AminoLib} (k : LevelDBDAO DB) name : one_key k name.
Proof.
  apply same_pub_one_key. cbn. unfold level_Read. intros pw pw' i i' E E'.
  destruct (db_Get _ _) as [[bz|]|e|e]; [|by simplify_eq/=|done..]. cbn [mbind res_bind] in *.
  destruct (json_Unmarshal bz) as [i0|e|e]; [|done..]. cbn [mbind res_bind] in *.
  assert (forall pw i, (if bool_decide (pw = "") then Ok i0 else
    privStr ← Decrypt (level_Crypto k) (PrivKeyArmor i0) pw;
    Ok (MkKeyInfo (Info_Name i0) (Info_PubKey i0) privStr (Info_Algo i0))) = Ok i -> Info_PubKey i = Info_PubKey i0) as Hi.
  { clear. intros pw i E. case_bool_decide; [by injection E as ->|]. by res_inv. }
  by rewrite (Hi _ _ E), (Hi _ _ E').
Qed.

(* ------------------------------------------------------------------ *)
(** * Lemmas of the key manager *)
Section Manager.
Context {D : Type} `{KeyDAOLaws D storable, CryptoLaws, HDLib, AminoLaws, ArmorLib, Bech32Lib}.
Variable algo : string.

(** A stored key: the public key and address that are found, and signatures. *)
Definition holds_key (d : D) (name pw : string) (priv : PrivKey) (address : string) : Prop :=
  exists pk a, priv_PubKey priv = Ok pk /\ ks_Find name pw d = Ok (pk, a) /\ Acc_String a = Ok address /\
    forall data, ks_Sign name pw data d = (sig ← priv_Sign priv data; Ok (sig, pk)).

Lemma PubKey_Address_size k a : PubKey_Address k = Ok a ->
  match k with LegacyAminoPubKey _ _ => True | _ => PubKeyFromBytes (MarshalPubkey k) = Ok k end.
Proof.
  unfold PubKeyFromBytes, MarshalPubkey. destruct k as [b|b|]; [| |done]; cbn; intros E.
  - rewrite amino_secp_pub. unfold secp_Address, secp_UnmarshalAmino in *. by destruct (len b =? _).
  - rewrite amino_ed_pub. unfold ed_Address, ed_UnmarshalAmino in *. by destruct (len b =? _).
Qed.

Lemma store_key_holds name pw priv m al d address d' :
  priv_size_ok priv = true -> Forall is_uint8 (priv_bytes priv) ->
  (forall info, Info_Name info = name -> Info_Algo info = algo -> storable d name pw info) ->
  dao_Has name d = false ->
  store_key algo name pw (MkCKM (Some priv) m al) (Some priv) d = (Ok address, d') ->
  holds_key d' name pw priv address /\ dao_Has name d' = true /\
  forall other pw', other <> name -> dao_Read other pw' d' = dao_Read other pw' d /\ dao_Has other d' = dao_Has other d.
Proof.
  intros Hsz Hb Hst Hh E. unfold store_key, ckm_ExportPubKey in E. cbn [ckm_privKey deref mbind res_bind] in E. st_inv.
  match goal with X : priv_PubKey ?q = Ok ?k |- _ => rename X into Hpk, k into pk; rename q into priv end.
  match goal with X : PubKey_Address pk = Ok ?k |- _ => rename X into Hpa, k into a' end.
  match goal with X : dao_Write _ _ ?i _ = _ |- _ => rename X into Hw; set (info := i) in * end.
  destruct (law_write d name pw info (Hst info eq_refl eq_refl) Hh) as (d2 & Hw2 & Hr & Hh2).
  rewrite Hw2 in Hw. simplify_eq. split; [|split; [done|]].
  2: { intros other pw' Hne. by apply (law_write_frame _ _ _ _ _ _ other pw' Hw2). }
  exists pk, a'. split; [done|]. unfold ks_Find, ks_Sign. rewrite Hr. cbn [or_err mbind res_bind info Info_PubKey PrivKeyArmor Info_Algo].
  assert (PubKeyFromBytes (MarshalPubkey pk) = Ok pk) as ->.
  { pose proof (PubKey_Address_size _ _ Hpa). destruct pk; try done. destruct priv; cbn in Hpk; [done|].
    by destruct (ed_PubKey _). }
  cbn [or_err mbind res_bind]. rewrite Hpa. split; [done|]. split; [done|]. intros data.
  rewrite to_bytes_bytes_str by by apply amino_priv_bytes. unfold NewPrivateKeyManager.
  rewrite amino_priv_roundtrip by done. cbn [or_err mbind res_bind ckm_Sign ckm_ExportPubKey ckm_privKey deref].
  unfold ckm_Sign, ckm_ExportPubKey. cbn [ckm_privKey deref mbind res_bind]. by rewrite Hpk.
Qed.

(** A secp256k1 key whose signatures verify: its number is one of the group. *)
Definition secp_usable (priv : PrivKey) : Prop := exists key, priv = Secp256k1Priv key /\ valid_scalar key.

(** Signatures of a held key verify under the key that is found. *)
Lemma holds_key_signs d name pw priv address :
  holds_key d name pw priv address -> secp_usable priv ->
  forall pk a data sig p, ks_Find name pw d = Ok (pk, a) -> ks_Sign name pw data d = Ok (sig, p) ->
    p = pk /\ VerifySignature pk data sig = Ok true.
Proof.
  intros (pk & a & Hpk & Hf & _ & Hs) (b & -> & Hb) pk' a' data sig p Hf' Hs'. rewrite Hf in Hf'. injection Hf' as <- <-.
  rewrite Hs in Hs'. res_inv. split; [done|]. cbn in Hpk. injection Hpk as <-. cbn. f_equal.
  by eapply (secp_Sign_verifies b).
Qed.
End Manager.

(* ------------------------------------------------------------------ *)
(** * Properties *)

(** The private key that [Recover] stores. *)
Definition recovered_key `{CryptoLib, HDLib} (mnemonic hdPath : string) (priv : PrivKey) : Prop :=
  exists key, algo_Derive mnemonic "" (if bool_decide (hdPath = "") then FullPath else hdPath) = Ok key /\
    priv = Secp256k1Priv key.

Lemma recovery_inv `{CryptoLaws, HDLaws} mnemonic hdPath al m m' :
  recoveryFromMnemonic mnemonic hdPath al m = Ok m' -> hdPath <> "" ->
  exists key, algo_Derive mnemonic "" hdPath = Ok key /\ m' = MkCKM (Some (Secp256k1Priv key)) (ckm_mnemonic m) al /\
    al = "secp256k1" /\ key_bytes key /\ big_SetBytes key < curve_N.
Proof.
  unfold recoveryFromMnemonic. intros E Hp. destruct (_ && _); [done|]. res_inv.
  match goal with X : algo_Derive _ _ _ = Ok ?k |- _ => destruct (algo_Derive_bytes _ _ _ _ X) as [[Hb Hl] HkN]; exists k end.
  unfold algo_Generate. rewrite copy_half by done. split_and!; try done.
  - match goal with X : NewSigningAlgoFromString _ = _ |- _ => unfold NewSigningAlgoFromString in X; by case_bool_decide end.
  - by apply HkN.
Qed.

(** The only derived key that is not one of the group is zero. *)
Lemma derived_usable `{CryptoLaws} key : key_bytes key -> big_SetBytes key < curve_N -> key <> zeros 32 -> secp_usable (Secp256k1Priv key).
Proof.
  intros [Hb Hl] Hr Hz. exists key. split; [done|]. pose proof (big_SetBytes_range key Hb) as [H0 _].
  assert (big_SetBytes key <> 0) as Hne; [|unfold valid_scalar; lia]. intros E. apply Hz, big_endian_unique; try done.
  apply Forall_replicate. unfold is_uint8. lia.
Qed.

(** C17: A recovered key can be used.  Over any store that keeps its promise,
    when [Recover] succeeds, the key stored is the one that the derivation gives
    for the mnemonic and the path (the default path when none is given): the
    name is found with its public key and an address whose text is the one
    returned, every signature made under the name and password comes with that
    public key and verifies under it (unless the
    derived key is zero, which BIP 32 excludes and the code does not), and other names are as before.  A name that exists is
    refused, as for [Insert] and [Import], and the store left as it was. *)
Theorem Recover_usable `{KeyDAOLaws D storable, CryptoLaws, HDLaws, AminoLaws, ArmorLib, Bech32Lib}
    algo name pw mnemonic hdPath (d d' : D) address :
  (forall info, Info_Name info = name -> Info_Algo info = "secp256k1" -> storable d name pw info) ->
  ks_Recover algo name pw mnemonic hdPath d = (Ok address, d') ->
  dao_Has name d = false /\ dao_Has name d' = true /\
  (exists priv pk a, recovered_key mnemonic hdPath priv /\ priv_PubKey priv = Ok pk /\
     ks_Find name pw d' = Ok (pk, a) /\ Acc_String a = Ok address /\
     forall data sig p, ks_Sign name pw data d' = Ok (sig, p) -> p = pk /\
       (priv <> Secp256k1Priv (zeros 32) -> VerifySignature pk data sig = Ok true)) /\
  (forall other pw', other <> name ->
     ks_Find other pw' d' = ks_Find other pw' d /\ forall data, ks_Sign other pw' data d' = ks_Sign other pw' data d) /\
  (forall entropy armor, ks_Insert algo entropy name pw d' = (Err "name %s has existed", d') /\
     ks_Recover algo name pw mnemonic hdPath d' = (Err "name %s has existed", d') /\
     ks_Import algo name pw armor d' = (Err "%s has existed", d')).
Proof.
  intros Hst E. unfold ks_Recover in E. destruct (dao_Has name d) eqn:Hh; [done|]. st_inv.
  match goal with X : (if _ then _ else _) = Ok ?m |- _ => rename X into Hm, m into km end.
  assert (exists key, algo_Derive mnemonic "" (if bool_decide (hdPath = "") then FullPath else hdPath) = Ok key /\
    km = MkCKM (Some (Secp256k1Priv key)) mnemonic algo /\ algo = "secp256k1" /\
    key_bytes key /\ big_SetBytes key < curve_N) as (key & Hk & -> & -> & Hb & HkN).
  { case_bool_decide; by apply recovery_inv in Hm. }
  assert (priv_size_ok (Secp256k1Priv key) = true) as Hsz by (cbn; unfold len; by rewrite (proj2 Hb)).
  cbn [ckm_Generate ckm_privKey ckm_mnemonic] in E.
  destruct (store_key_holds "secp256k1" name pw (Secp256k1Priv key) mnemonic "secp256k1" d address d' Hsz (proj1 Hb) Hst Hh E)
    as (Hold & Hh' & Hframe).
  split_and!; [done|done| | |].
  - pose proof (holds_key_signs d' name pw _ address Hold) as Hsig.
    destruct Hold as (pk & a & Hpk & Hf & Ha & Hsign). exists (Secp256k1Priv key), pk, a.
    split_and!; [by exists key|done..|]. intros data sig p Es. split; [rewrite Hsign in Es; by res_inv|].
    intros Hz. apply (Hsig (derived_usable key Hb HkN ltac:(congruence)) pk a data sig p); done.
  - intros other pw' Hne. destruct (Hframe other pw' Hne) as [Hr _]. unfold ks_Find, ks_Sign. by rewrite Hr.
  - intros entropy armor. unfold ks_Insert, ks_Recover, ks_Import. by rewrite Hh'.
Qed.

(** An exported key can be imported into another store, under another name: the
    key manager then finds the key that was exported and makes the same
    signatures with it, and the address returned is the key's. *)
Theorem Export_Import `{KeyDAOLaws D storable, CryptoLaws, HDLib, AminoLaws, ArmorLaws, Bech32Lib}
    algo salt nonce name0 name pw (d0 d d' : D) armor address :
  Forall is_uint8 salt -> salt <> [] -> length nonce = 24%nat ->
  (forall info, dao_Read name0 pw d0 = Ok info -> Info_Algo info = "" \/ header_text (Info_Algo info) = true) ->
  (forall info, Info_Name info = name -> Info_Algo info = algo -> storable d name pw info) ->
  ks_Export salt nonce name0 pw d0 = Ok armor ->
  ks_Import algo name pw armor d = (Ok address, d') ->
  (forall data, ks_Sign name pw data d' = ks_Sign name0 pw data d0) /\
  exists pk a, ks_Find name pw d' = Ok (pk, a) /\ Acc_String a = Ok address /\
    forall data sig p, ks_Sign name0 pw data d0 = Ok (sig, p) -> p = pk.
Proof.
  intros Hs1 Hs2 Hn Ha Hst Ex Im. unfold ks_Import in Im. destruct (dao_Has name d) eqn:Hh; [done|]. st_inv.
  unfold ks_Export in Ex. destruct (dao_Read name0 pw d0) as [info|e|e] eqn:Hr; [|done..]. cbn [or_err mbind res_bind] in Ex.
  specialize (Ha info eq_refl). unfold NewPrivateKeyManager in Ex.
  destruct (PrivKeyFromBytes _) as [priv|e|e] eqn:Hp; [|done..].
  cbn [or_err mbind res_bind ckm_ExportPrivKey ckm_privKey ckm_algo deref] in Ex.
  destruct (amino_priv_decoded _ _ Hp (to_bytes_uint8 _)) as [Hsz Hb].
  apply UnarmorDecrypt_encrypted in Ex; [|done..].
  match goal with X : ckm_ImportPrivKey _ _ _ = _ |- _ => unfold ckm_ImportPrivKey in X; rewrite Ex in X;
    cbn [or_err mbind res_bind] in X; injection X as <- end.
  destruct (store_key_holds algo name pw priv _ _ d address d' Hsz Hb Hst Hh Im) as ((pk & a & Hpk & Hf & Haddr & Hs) & _ & _).
  assert (forall data, ks_Sign name0 pw data d0 = (sig ← priv_Sign priv data; Ok (sig, pk))) as Hs0.
  { intros data. unfold ks_Sign, NewPrivateKeyManager. rewrite Hr. cbn [or_err mbind res_bind]. rewrite Hp.
    cbn [or_err mbind res_bind]. unfold ckm_Sign, ckm_ExportPubKey. cbn [ckm_privKey deref mbind res_bind]. by rewrite Hpk. }
  split; [intros data; by rewrite Hs, Hs0|]. exists pk, a. split_and!; [done..|]. intros data sig p E. rewrite Hs0 in E. by res_inv.
Qed.

(** The default encryption loses the private key.  A database store made
    without an encryption of the user's uses [AES], whose methods return the
    empty text: after a successful [Insert], [Recover] or [Import] (anything that
    writes), [Sign] and [Export] fail for the name, whatever the password, and
    [Sign] says that the name does not exist although [Has] finds it. *)
Theorem AES_loses_keys {DB} `{TmDBLaws DB contents, JSONLaws, CryptoLib, AminoLaws, ArmorLib}
    name pw info db (k' : LevelDBDAO DB) :
  level_Write name pw info (MkLevelDB db AES) = (Ok tt, k') ->
  ascii_text (Info_Name info) = true -> ascii_text (Info_Algo info) = true ->
  NewLevelDB (Ok db) None = Ok (MkLevelDB db AES) /\ dao_Has name k' = true /\
  forall pw', (forall data, ks_Sign name pw' data k' = Err "name %s not exist") /\
    (forall salt nonce, is_ok (ks_Export salt nonce name pw' k') = false).
Proof.
  intros Hw Hn Ha. destruct (level_Write_spec _ _ _ _ _ _ Hw) as [Ek (_ & ct & bz & Ee & Hj & Hc)].
  cbn [level_Crypto AES Encrypt] in *. injection Ee as <-. split; [done|]. split.
  { cbn. by rewrite level_Has_spec, Hc, lookup_insert_eq, bool_decide_true. }
  intros pw'. assert (exists i, dao_Read name pw' k' = Ok i /\ PrivKeyArmor i = "") as (i & Hr & Hi).
  { cbn. unfold level_Read. rewrite db_get_law, Hc, lookup_insert_eq, Ek. cbn [mbind res_bind].
    rewrite (json_read Hj Hn eq_refl Ha). cbn [mbind res_bind].
    destruct (bool_decide (pw' = "")); eexists; (split; [reflexivity|reflexivity]). }
  assert (is_ok (NewPrivateKeyManager (to_bytes (PrivKeyArmor i)) (Info_Algo i)) = false /\
    panics (NewPrivateKeyManager (to_bytes (PrivKeyArmor i)) (Info_Algo i)) = false) as [Hm Hm'].
  { rewrite Hi. unfold NewPrivateKeyManager, PrivKeyFromBytes. pose proof amino_priv_empty as He.
    destruct (amino_UnmarshalPriv (to_bytes "")) as [x|e|e] eqn:Ex; cbn in Ex; rewrite Ex in He; [done|done|].
    exfalso. by apply (amino_priv_no_panic [] e). }
  unfold ks_Sign, ks_Export. rewrite Hr. cbn [or_err mbind res_bind].
  by destruct (NewPrivateKeyManager _ _).
Qed.

(** Passwords protect less than the interface says.  [Delete] is meant to verify
    the password: the memory store deletes with any password, and the database
    store with the empty one, whatever the encryption; and what is written with
    an empty password is encrypted but read back without being decrypted. *)
Theorem passwords_not_checked {DB} `{TmDBLaws DB contents, JSONLaws} :
  (forall name pw (m : MemoryDAO), exists m', dao_Delete name pw m = (Ok tt, m') /\ dao_Has name m' = false) /\
  (forall name pw info (k k' : LevelDBDAO DB), level_Write name pw info k = (Ok tt, k') ->
     (forall ct, Encrypt (level_Crypto k) (PrivKeyArmor info) pw = Ok ct -> ascii_text ct = true) ->
     ascii_text (Info_Name info) = true -> ascii_text (Info_Algo info) = true ->
     (exists k'', dao_Delete name "" k' = (Ok tt, k'') /\ dao_Has name k'' = false) /\
     exists i, dao_Read name "" k' = Ok i /\ Encrypt (level_Crypto k) (PrivKeyArmor info) pw = Ok (PrivKeyArmor i)).
Proof.
  split.
  - intros name pw m. eexists. split; [reflexivity|]. eapply (law_delete (KeyDAOLaws := MemoryDAO_laws) m name pw). reflexivity.
  - intros name pw info k k' Hw Hct Hn Ha. destruct (level_Write_spec _ _ _ _ _ _ Hw) as [Ek (_ & ct & bz & Ee & Hj & Hc)].
    assert (dao_Read name "" k' = Ok (MkKeyInfo (Info_Name info) (Info_PubKey info) ct (Info_Algo info))) as Hr.
    { cbn. unfold level_Read. rewrite db_get_law, Hc, lookup_insert_eq. cbn [mbind res_bind].
      by rewrite (json_read Hj Hn (Hct ct Ee) Ha). }
    split; [|by eexists]. destruct (dao_Delete name "" k') as [r k''] eqn:Ed.
    assert (r = Ok tt) as ->.
    { cbn in Ed, Hr. unfold level_Delete, mbind, st_bind, query, with_db in Ed. rewrite Hr in Ed.
      destruct (db_delete_law (infoKey name) (level_db k')) as (db' & E & _). rewrite E in Ed. by injection Ed as <- _. }
    exists k''. split; [done|]. by apply (law_delete (KeyDAOLaws := LevelDBDAO_laws) k' name "").
Qed.

(* ------------------------------------------------------------------ *)
(** * Witnesses *)

(** Keys of 33 bytes over the toy curve. *)
#[local] Instance toy_lib33 : CryptoLib := {|
  Sha256 _ := zeros 32; Ripemd160 bz := drop 13 bz; tmhash_SumTruncated _ := zeros 20;
  curve_N := 7; Point := Z; ParsePubKey k := Some (toy_byte (drop 1 k)); SerializeCompressed k := 2 :: k;
  ecdsa_Sign k _ := Ok (toy_byte k, 1); ecdsa_Verify rs _ P := fst rs =? P;
  ed25519_Sign _ _ := Ok (zeros 64); ed25519_Verify _ _ _ := Ok true;
  ed25519_NewKeyFromSeed seed := seed ++ replicate 32 1;
|}.
Lemma toy_laws33 : CryptoLaws (L := toy_lib33).
Proof.
  split; cbn; try done.
  - intros _. by repeat constructor.
  - intros priv _ r s [= <- <-]. unfold toy_byte. split; [|split; done].
    generalize (nth 0 priv 0). intros z. lia.
  - intros priv _ rs _ [= <-]. eexists. split; [done|]. cbn. rewrite drop_0. apply Z.eqb_refl.
  - intros seed Hs. rewrite length_app, Hs. done.
  - intros seed _ _. by eexists.
Qed.

Definition toy_mnemonic : string := "a a a a a a a a a a a a".

Lemma Recover_usable_witness :
  exists address m', ks_Recover (H0 := toy_lib33) (H1 := toy_hd) (H2 := toy_amino) (H4 := toy_bech32)
    "secp256k1" "alice" "pw" toy_mnemonic "" (NewMemory None) = (Ok address, m') /\ dao_Has "alice" m' = true.
Proof.
  destruct (ks_Recover (H0 := toy_lib33) (H1 := toy_hd) (H2 := toy_amino) (H4 := toy_bech32)
    "secp256k1" "alice" "pw" toy_mnemonic "" (NewMemory None)) as [[address|e|e] m'] eqn:E;
    [|vm_compute in E; discriminate E..].
  exists address, m'. split; [reflexivity|].
  apply (@Recover_usable MemoryDAO _ _ MemoryDAO_laws toy_lib33 toy_laws33 toy_hd toy_hd_laws toy_amino toy_amino_laws
    toy_armor toy_bech32 "secp256k1" "alice" "pw" toy_mnemonic "" (NewMemory None) m' address).
  - intros info _ _. exact I.
  - exact E.
Defined.

(** A database held in a map, JSON as the text of an encoding, and encryption
    to hexadecimal text. *)
#[local] Instance toy_db : TmDB (gmap bytes bytes) := {|
  db_Get k m := Ok (m !! k); db_Has k m := Ok (bool_decide (is_Some (m !! k)));
  db_SetSync k v m := (Ok tt, <[k := v]> m); db_DeleteSync k m := (Ok tt, delete k m);
|}.
Lemma toy_db_laws : TmDBLaws (gmap bytes bytes) id.
Proof. split; cbn; eauto. Qed.

#[local] Instance toy_json : KeyInfoJSON := {|
  json_Marshal i := Ok (to_bytes (pos_text (encode (Info_Name i, Info_PubKey i, PrivKeyArmor i, Info_Algo i))));
  json_Unmarshal bz := match decode (A := string * bytes * string * string) (text_pos (bytes_str bz)) with
    | Some (n, p, a, g) => Ok (MkKeyInfo n p a g) | None => Err "unexpected end of JSON input" end;
|}.
Lemma toy_json_laws : JSONLaws (H := toy_json).
Proof.
  split; cbn; [eauto|]. intros [n p a g] bz _ [= <-]. rewrite bytes_str_to_bytes, text_pos_text, decode_encode. done.
Qed.

Definition hex_crypto : Crypto :=
  MkCrypto (fun text _ => Ok (hex_upper (to_bytes text))) (fun ct _ => bytes_str <$> hex_DecodeString ct).

Lemma hex_crypto_ok : crypto_ok hex_crypto.
Proof.
  intros text key _. eexists. split; [reflexivity|]. cbn. rewrite hex_upper_roundtrip by apply to_bytes_uint8. cbn.
  rewrite bytes_str_to_bytes. split; [|done]. pose proof (to_bytes_uint8 text) as Hb. revert Hb. generalize (to_bytes text). clear.
  intros bz. unfold ascii_text. induction 1 as [|b bz Hb _ IH]; [done|]. destruct (nibbles b Hb). cbn [hex_upper str_forall].
  assert (forall n, 0 <= n < 16 -> (code (hex_digit n) <? 128) = true) as Hd.
  { intros n Hn. apply Z.ltb_lt. unfold hex_digit. destruct (Z.ltb_spec n 10); rewrite code_chr; lia. }
  by rewrite !Hd, IH.
Qed.

Definition toy_info : KeyInfo := MkKeyInfo "alice" [1; 2] "secret" "secp256k1".

Definition toy_write : res unit * LevelDBDAO (gmap bytes bytes) := level_Write "alice" "pw" toy_info (MkLevelDB ∅ AES).

Lemma AES_loses_keys_witness :
  fst toy_write = Ok tt /\
  ks_Sign (H0 := toy_lib33) (H2 := toy_amino) "alice" "pw" [] (snd toy_write) = Err "name %s not exist".
Proof.
  assert (toy_write = (Ok tt, snd toy_write)) as E by reflexivity. split; [reflexivity|].
  apply (@AES_loses_keys (gmap bytes bytes) toy_db id toy_db_laws toy_json toy_json_laws toy_lib33 toy_amino toy_amino_laws
    toy_armor "alice" "pw" toy_info ∅ (snd toy_write) E); reflexivity.
Defined.
