(* ===== verification/TxTypes.v ===== *)
(** The messages a transaction is made of and their protobuf encodings:
    [Any] ([codec/types/any.go], [any.pb.go]), the encodings of the public keys
    ([crypto/keys/*/keys.pb.go]) and [TxBody], [AuthInfo], [SignerInfo],
    [ModeInfo], [Fee] ([types/tx/tx.pb.go]). *)
From S2P Require Import Prelude GoStrings SdkInt CoinSet Coins BitArray Wire Keys Multisig.

(** A nested message behind a pointer: nothing is written for nil. *)
Definition opt_ptr (tag : Z) (m : option bytes) (acc : bytes) : bytes :=
  match m with None => acc | Some bs => put_bytes tag bs acc end.
(** A repeated field whose tag takes two bytes. *)
Definition rep_bytes2 (t1 t2 : Z) (l : list bytes) (acc : bytes) : bytes :=
  foldr (fun bs acc => t1 :: put_bytes t2 bs acc) acc l.

(* ------------------------------------------------------------------ *)
(** * Any *)

(** [cachedValue] is the value last packed or unpacked, [None] when nil. *)
Record Any (V : Type) := MkAny {
  TypeUrl : string; Value : bytes; Any_unrecognized : bytes; cachedValue : option V
}.
Arguments MkAny {_} _ _ _ _.
Arguments TypeUrl {_} _.
Arguments Value {_} _.
Arguments Any_unrecognized {_} _.
Arguments cachedValue {_} _.

(** The interface [proto.Message] of the values that are packed. *)
Class ProtoMessage (V : Type) := {
  MessageName : V -> string;
  proto_Marshal : V -> res bytes;
}.

Definition NewAnyWithValue {V} `{ProtoMessage V} (value : V) : res (Any V) :=
  bz ← proto_Marshal value;
  Ok (MkAny ("/" +:+ MessageName value) bz [] (Some value)).

Definition Any_Marshal {V} (m : Any V) : bytes :=
  opt_bytes 10 (to_bytes (TypeUrl m)) (opt_bytes 18 (Value m) (Any_unrecognized m)).

(* ------------------------------------------------------------------ *)
(** * Public keys *)

(** The name and encoding of a key; a threshold key holds [Any]s of its keys. *)
Fixpoint PubKey_Marshal (k : PubKey) : bytes :=
  match k with
  | Secp256k1Key key | Ed25519Key key => opt_bytes 10 key []
  | LegacyAminoPubKey t ks =>
      opt_varint 8 t (rep_bytes 18 (map (fun k =>
        Any_Marshal (MkAny ("/" +:+ match k with
                                    | Secp256k1Key _ => "cosmos.crypto.secp256k1.PubKey"
                                    | Ed25519Key _ => "cosmos.crypto.ed25519.PubKey"
                                    | LegacyAminoPubKey _ _ => "cosmos.crypto.multisig.LegacyAminoPubKey"
                                    end) (PubKey_Marshal k) [] (Some k))) ks) [])
  end.
#[global] Instance PubKey_message : ProtoMessage PubKey := {|
  MessageName k := match k with
                   | Secp256k1Key _ => "cosmos.crypto.secp256k1.PubKey"
                   | Ed25519Key _ => "cosmos.crypto.ed25519.PubKey"
                   | LegacyAminoPubKey _ _ => "cosmos.crypto.multisig.LegacyAminoPubKey"
                   end;
  proto_Marshal k := Ok (PubKey_Marshal k);
|}.

(** [PubKeyToAny]; the nil interface is no [proto.Message]. *)
Definition PubKeyToAny (key : option PubKey) : res (Any PubKey) :=
  match key with
  | None => Err "err invalid key, can't proto encode %T"
  | Some k => NewAnyWithValue k
  end.

(* ------------------------------------------------------------------ *)
(** * Signer information *)

(** [*ModeInfo]: the nil pointer, a message whose [Sum] is nil, or one of the
    two cases of the oneof. *)
Inductive ModeInfo :=
| ModeInfo_ptr_nil
| ModeInfo_Sum_nil
| ModeInfo_Single_ (Mode : Z)
| ModeInfo_Multi_ (Bitarray : option CompactBitArray) (ModeInfos : list ModeInfo).

(** [uint64(m.Mode)] sign-extends the 32-bit enumeration. *)
Fixpoint ModeInfo_Marshal (m : ModeInfo) : res bytes :=
  match m with
  | ModeInfo_ptr_nil => Panic nil_deref
  | ModeInfo_Sum_nil => Ok []
  | ModeInfo_Single_ mode => Ok (put_bytes 10 (opt_varint 8 (wrap_u64 mode) []) [])
  | ModeInfo_Multi_ ba mis =>
      bss ← (fix go mis := match mis with
                           | [] => Ok []
                           | mi :: mis => bs ← ModeInfo_Marshal mi; bss ← go mis; Ok (bs :: bss)
                           end) mis;
      Ok (put_bytes 18 (opt_ptr 10 (CompactBitArray_Marshal <$> ba) (rep_bytes 18 bss [])) [])
  end.

(** [SignerInfo]; nil pointers are [None] and [ModeInfo_ptr_nil]. *)
Record SignerInfo := MkSignerInfo { si_PublicKey : option (Any PubKey); si_ModeInfo : ModeInfo; si_Sequence : Z }.

Definition SignerInfo_Marshal (m : SignerInfo) : res bytes :=
  mode ← match si_ModeInfo m with
         | ModeInfo_ptr_nil => Ok None
         | mi => bs ← ModeInfo_Marshal mi; Ok (Some bs)
         end;
  Ok (opt_ptr 10 (Any_Marshal <$> si_PublicKey m) (opt_ptr 18 mode (opt_varint 24 (si_Sequence m) []))).

Record Fee := MkFee { fee_Amount : list Coin; GasLimit : Z; Payer : string; Granter : string }.
Definition Fee_Marshal (m : Fee) : bytes :=
  rep_bytes 10 (map Coin_Marshal (fee_Amount m))
    (opt_varint 16 (GasLimit m) (opt_bytes 26 (to_bytes (Payer m)) (opt_bytes 34 (to_bytes (Granter m)) []))).

Record AuthInfo := MkAuthInfo { SignerInfos : list SignerInfo; AuthFee : option Fee }.

(** Marshalling the elements of a repeated field. *)
Definition marshal_all {A} (f : A -> res bytes) (l : list A) : res (list bytes) :=
  foldr (fun x acc => bs ← f x; bss ← acc; Ok (bs :: bss)) (Ok []) l.

Definition AuthInfo_Marshal (m : AuthInfo) : res bytes :=
  infos ← marshal_all SignerInfo_Marshal (SignerInfos m);
  Ok (rep_bytes 10 infos (opt_ptr 18 (Fee_Marshal <$> AuthFee m) [])).

(* ------------------------------------------------------------------ *)
(** * Bodies *)
Section Body.
Context {Msg : Type}.

Record TxBody := MkTxBody {
  Messages : list (Any Msg); Memo : string; TimeoutHeight : Z;
  ExtensionOptions : list (Any Msg); NonCriticalExtensionOptions : list (Any Msg)
}.

Definition TxBody_Marshal (m : TxBody) : bytes :=
  rep_bytes 10 (map Any_Marshal (Messages m))
    (opt_bytes 18 (to_bytes (Memo m))
       (opt_varint 24 (TimeoutHeight m)
          (rep_bytes2 250 63 (map Any_Marshal (ExtensionOptions m))
             (rep_bytes2 250 127 (map Any_Marshal (NonCriticalExtensionOptions m)) [])))).

(** [Tx]; nil pointers are [None]. *)
Record Tx := MkTx { Body : option TxBody; TxAuthInfo : option AuthInfo; TxSignatures : list bytes }.
End Body.
Arguments TxBody : clear implicits.
Arguments Tx : clear implicits.

(* ------------------------------------------------------------------ *)
(** * Lemmas *)

Fixpoint no_nil_mode (m : ModeInfo) : bool :=
  match m with
  | ModeInfo_ptr_nil => false
  | ModeInfo_Multi_ _ mis => forallb no_nil_mode mis
  | _ => true
  end.

Lemma marshal_all_total {A} (f : A -> res bytes) l :
  Forall (fun x => exists bs, f x = Ok bs) l -> exists bss, marshal_all f l = Ok bss.
Proof.
  induction 1 as [|x l [bs Hx] _ [bss IH]]; [by eexists|]. unfold marshal_all in *. cbn [foldr].
  rewrite Hx. cbn [mbind res_bind]. rewrite IH. by eexists.
Qed.
