(* ===== verification/TxProto.v ===== *)
(** Reading the messages of a transaction from the wire: the generated
    [Unmarshal] and [Size] methods of [Any] ([codec/types/any.pb.go]) and of
    [Fee], [ModeInfo], [SignerInfo], [AuthInfo], [TxBody] and [Tx]
    ([types/tx/tx.pb.go]).

    A decoder sets the fields of the message it is called on, so a message
    field that occurs twice is merged into the first one, and [cachedValue] of
    an [Any] that was read is nil. *)
From S2P Require Import Prelude GoStrings SdkInt CoinSet Coins BitArray Wire Decoding Keys Multisig TxTypes.

Definition keep {M} (m : M) (_ : bytes) : M := m.

(* ------------------------------------------------------------------ *)
(** * Decoders *)
Section AnyMessage.
Context {V : Type}.

Definition empty_Any : Any V := MkAny "" [] [] None.
(** [ClearCachedValue] *)
Definition ClearCachedValue (a : Any V) : Any V := MkAny (TypeUrl a) (Value a) (Any_unrecognized a) None.

Definition Any_field (m : Any V) (num wt l : Z) (buf : bytes) :=
  if num =? 1 then
    get_bytes (fun bs => MkAny (bytes_str bs) (Value m) (Any_unrecognized m) (cachedValue m)) wt l buf
  else if num =? 2 then
    get_bytes (fun bs => MkAny (TypeUrl m) bs (Any_unrecognized m) (cachedValue m)) wt l buf
  else None.
Definition Any_unknown (m : Any V) (bs : bytes) : Any V :=
  MkAny (TypeUrl m) (Value m) (Any_unrecognized m ++ bs) (cachedValue m).
Definition Any_Unmarshal (m : Any V) (dAtA : bytes) : res (Any V) := unmarshal Any_field Any_unknown m dAtA.
Definition Any_Size (m : Any V) : Z :=
  opt_bytes_size (to_bytes (TypeUrl m)) + opt_bytes_size (Value m) + Z.of_nat (length (Any_unrecognized m)).
End AnyMessage.

(** [Fee]; a coin that is read starts with the nil amount. *)
Definition empty_Coin : Coin := MkCoin "" (MkInt None).
Definition Fee_field (m : Fee) (num wt l : Z) (buf : bytes) :=
  let '(MkFee amount gas payer granter) := m in
  if num =? 1 then get_msg (fun c => MkFee (amount ++ [c]) gas payer granter) (Coin_Unmarshal empty_Coin) wt l buf
  else if num =? 2 then get_varint (fun v => MkFee amount v payer granter) wt buf
  else if num =? 3 then get_bytes (fun bs => MkFee amount gas (bytes_str bs) granter) wt l buf
  else if num =? 4 then get_bytes (fun bs => MkFee amount gas payer (bytes_str bs)) wt l buf
  else None.
Definition empty_Fee : Fee := MkFee [] 0 "" "".
Definition Fee_Unmarshal (m : Fee) (dAtA : bytes) : res Fee := unmarshal Fee_field keep m dAtA.

(** [ModeInfo_Single]: the mode is an [int32], and [ModeInfo_Multi]. *)
Definition Single_field (_ : Z) (num wt l : Z) (buf : bytes) :=
  if num =? 1 then get_varint wrap_i32 wt buf else None.
Definition Single_Unmarshal (mode : Z) (dAtA : bytes) : res Z := unmarshal Single_field keep mode dAtA.
Definition Multi_field (mode_info : bytes -> res ModeInfo) (m : option CompactBitArray * list ModeInfo)
    (num wt l : Z) (buf : bytes) :=
  let '(ba, mis) := m in
  if num =? 1 then
    get_msg (fun b => (Some b, mis)) (CompactBitArray_Unmarshal (default (MkBitArray 0 []) ba)) wt l buf
  else if num =? 2 then get_msg (fun mi => (ba, mis ++ [mi])) mode_info wt l buf
  else None.

(** [ModeInfo]: a case of the oneof replaces the one read before. *)
Definition ModeInfo_field (mode_info : bytes -> res ModeInfo) (m : ModeInfo) (num wt l : Z) (buf : bytes) :=
  if num =? 1 then get_msg ModeInfo_Single_ (Single_Unmarshal 0) wt l buf
  else if num =? 2 then
    get_msg (fun '(ba, mis) => ModeInfo_Multi_ ba mis) (unmarshal (Multi_field mode_info) keep (None, [])) wt l buf
  else None.
(** Every level of nesting is shorter than the one around it. *)
Fixpoint ModeInfo_decode (depth : nat) (m : ModeInfo) (dAtA : bytes) : res ModeInfo :=
  match depth with
  | O => Err err_eof
  | S depth => unmarshal (ModeInfo_field (ModeInfo_decode depth ModeInfo_Sum_nil)) keep m dAtA
  end.
Definition ModeInfo_Unmarshal (m : ModeInfo) (dAtA : bytes) : res ModeInfo := ModeInfo_decode (S (length dAtA)) m dAtA.

(** [&ModeInfo{}] and [&Any{}] are allocated when the pointer is nil. *)
Definition SignerInfo_field (m : SignerInfo) (num wt l : Z) (buf : bytes) :=
  let '(MkSignerInfo key mode sequence) := m in
  if num =? 1 then
    get_msg (fun a => MkSignerInfo (Some a) mode sequence) (Any_Unmarshal (default empty_Any key)) wt l buf
  else if num =? 2 then
    get_msg (fun mi => MkSignerInfo key mi sequence)
      (ModeInfo_Unmarshal (match mode with ModeInfo_ptr_nil => ModeInfo_Sum_nil | _ => mode end)) wt l buf
  else if num =? 3 then get_varint (fun v => MkSignerInfo key mode v) wt buf
  else None.
Definition empty_SignerInfo : SignerInfo := MkSignerInfo None ModeInfo_ptr_nil 0.
Definition SignerInfo_Unmarshal (m : SignerInfo) (dAtA : bytes) : res SignerInfo := unmarshal SignerInfo_field keep m dAtA.

Definition AuthInfo_field (m : AuthInfo) (num wt l : Z) (buf : bytes) :=
  let '(MkAuthInfo infos fee) := m in
  if num =? 1 then get_msg (fun si => MkAuthInfo (infos ++ [si]) fee) (SignerInfo_Unmarshal empty_SignerInfo) wt l buf
  else if num =? 2 then get_msg (fun f => MkAuthInfo infos (Some f)) (Fee_Unmarshal (default empty_Fee fee)) wt l buf
  else None.
Definition empty_AuthInfo : AuthInfo := MkAuthInfo [] None.
Definition AuthInfo_Unmarshal (m : AuthInfo) (dAtA : bytes) : res AuthInfo := unmarshal AuthInfo_field keep m dAtA.

Section BodyMessage.
Context {Msg : Type}.

Definition TxBody_field (m : TxBody Msg) (num wt l : Z) (buf : bytes) :=
  let '(MkTxBody msgs memo height ext nonCrit) := m in
  if num =? 1 then get_msg (fun a => MkTxBody (msgs ++ [a]) memo height ext nonCrit) (Any_Unmarshal empty_Any) wt l buf
  else if num =? 2 then get_bytes (fun bs => MkTxBody msgs (bytes_str bs) height ext nonCrit) wt l buf
  else if num =? 3 then get_varint (fun v => MkTxBody msgs memo v ext nonCrit) wt buf
  else if num =? 1023 then
    get_msg (fun a => MkTxBody msgs memo height (ext ++ [a]) nonCrit) (Any_Unmarshal empty_Any) wt l buf
  else if num =? 2047 then
    get_msg (fun a => MkTxBody msgs memo height ext (nonCrit ++ [a])) (Any_Unmarshal empty_Any) wt l buf
  else None.
Definition empty_TxBody : TxBody Msg := MkTxBody [] "" 0 [] [].
Definition TxBody_Unmarshal (m : TxBody Msg) (dAtA : bytes) : res (TxBody Msg) := unmarshal TxBody_field keep m dAtA.

(** [Tx] *)
Definition Tx_Marshal (m : Tx Msg) : res bytes :=
  auth ← match TxAuthInfo m with None => Ok None | Some a => bs ← AuthInfo_Marshal a; Ok (Some bs) end;
  Ok (opt_ptr 10 (TxBody_Marshal <$> Body m) (opt_ptr 18 auth (rep_bytes 26 (TxSignatures m) []))).
Definition Tx_field (m : Tx Msg) (num wt l : Z) (buf : bytes) :=
  let '(MkTx body auth sigs) := m in
  if num =? 1 then get_msg (fun b => MkTx (Some b) auth sigs) (TxBody_Unmarshal (default empty_TxBody body)) wt l buf
  else if num =? 2 then
    get_msg (fun a => MkTx body (Some a) sigs) (AuthInfo_Unmarshal (default empty_AuthInfo auth)) wt l buf
  else if num =? 3 then get_bytes (fun bs => MkTx body auth (sigs ++ [bs])) wt l buf
  else None.
Definition empty_Tx : Tx Msg := MkTx None None [].
Definition Tx_Unmarshal (m : Tx Msg) (dAtA : bytes) : res (Tx Msg) := unmarshal Tx_field keep m dAtA.
End BodyMessage.

(* ------------------------------------------------------------------ *)
(** * Sizes *)

(** A nested message of [n] bytes behind a key of [k] bytes. *)
Definition msg_size (k n : Z) : Z := k + n + sov n.
Definition opt_size (k : Z) (n : option Z) : Z := match n with None => 0 | Some n => msg_size k n end.
Definition sum_sizes (l : list Z) : Z := foldr Z.add 0 l.

Definition Fee_Size (m : Fee) : Z :=
  sum_sizes (map (fun c => msg_size 1 (Coin_Size c)) (fee_Amount m)) + opt_varint_size (GasLimit m) +
  opt_bytes_size (to_bytes (Payer m)) + opt_bytes_size (to_bytes (Granter m)).
Fixpoint ModeInfo_Size (m : ModeInfo) : Z :=
  match m with
  | ModeInfo_ptr_nil | ModeInfo_Sum_nil => 0
  | ModeInfo_Single_ mode => msg_size 1 (opt_varint_size (wrap_u64 mode))
  | ModeInfo_Multi_ ba mis =>
      msg_size 1 (opt_size 1 (CompactBitArray_Size <$> ba) + sum_sizes (map (fun mi => msg_size 1 (ModeInfo_Size mi)) mis))
  end.
Definition SignerInfo_Size (m : SignerInfo) : Z :=
  opt_size 1 (Any_Size <$> si_PublicKey m) +
  opt_size 1 (match si_ModeInfo m with ModeInfo_ptr_nil => None | mi => Some (ModeInfo_Size mi) end) +
  opt_varint_size (si_Sequence m).
Definition AuthInfo_Size (m : AuthInfo) : Z :=
  sum_sizes (map (fun si => msg_size 1 (SignerInfo_Size si)) (SignerInfos m)) + opt_size 1 (Fee_Size <$> AuthFee m).
Definition TxBody_Size {Msg} (m : TxBody Msg) : Z :=
  sum_sizes (map (fun a => msg_size 1 (Any_Size a)) (Messages m)) +
  opt_bytes_size (to_bytes (Memo m)) + opt_varint_size (TimeoutHeight m) +
  sum_sizes (map (fun a => msg_size 2 (Any_Size a)) (ExtensionOptions m)) +
  sum_sizes (map (fun a => msg_size 2 (Any_Size a)) (NonCriticalExtensionOptions m)).
Definition Tx_Size {Msg} (m : Tx Msg) : Z :=
  opt_size 1 (TxBody_Size <$> Body m) + opt_size 1 (AuthInfo_Size <$> TxAuthInfo m) + rep_bytes_size (TxSignatures m).

(* ------------------------------------------------------------------ *)
(** * Round trips *)

#[local] Arguments read_bytes : simpl never.
#[local] Arguments read_varint : simpl never.
#[local] Arguments unmarshal : simpl never.

(** A nested message behind a pointer. *)
Lemma Reads_opt_ptr {M A B} field unknown tag num (m : M) (set : A -> M) dec (enc : B -> bytes) f p rest r :
  is_key [tag] num 2 -> (forall l buf, field m num 2 l buf = get_msg set dec 2 l buf) ->
  (forall x, p = Some x -> Z.of_nat (length (enc x)) < 2 ^ 62 -> dec (enc x) = Ok (f x)) ->
  Reads field unknown (match p with None => m | Some x => set (f x) end) rest r ->
  Reads field unknown m (opt_ptr tag (enc <$> p) rest) r.
Proof.
  intros Hk Hf Hd HR. destruct p as [x|]; [|done]. cbn [opt_ptr fmap option_fmap option_map].
  apply (Reads_put_bytes field unknown tag num m set dec (enc x) (f x)); [done|done|by apply Hd|done].
Qed.
Lemma rep_bytes2_keyed t1 t2 bss rest : rep_bytes2 t1 t2 bss rest = rep_keyed [t1; t2] bss rest.
Proof. done. Qed.

Ltac read_field := first [key | by intros; reflexivity | done].

Lemma Any_decodes {V} (a : Any V) :
  Any_unrecognized a = [] -> Z.of_nat (length (Any_Marshal a)) < 2 ^ 62 ->
  Any_Unmarshal (@empty_Any V) (Any_Marshal a) = Ok (ClearCachedValue a).
Proof.
  destruct a as [url v u c]. cbn [Any_unrecognized]. intros -> H62. apply Reads_unmarshal; [|done].
  apply (Reads_opt_string _ _ 10 1 _ (fun s => MkAny s [] [] None)); [read_field..|].
  apply (Reads_opt_bytes _ _ 18 2 _ (fun v => MkAny url v [] None) Ok v v); [read_field..|by intros ->|].
  apply Reads_nil.
Qed.

(** Fees in range. *)
Definition coin_ok (c : Coin) : Prop := exists z, Amount c = MkInt (Some z) /\ int_range z.
Definition fee_ok (f : Fee) : Prop := Forall coin_ok (fee_Amount f) /\ is_uint64 (GasLimit f).

(** A repeated field of coins. *)
Lemma Reads_rep_coins {M} field unknown tag num (mk : list Coin -> M) coins rest r :
  is_key [tag] num 2 ->
  (forall l' l buf, field (mk l') num 2 l buf = get_msg (fun c => mk (l' ++ [c])) (Coin_Unmarshal empty_Coin) 2 l buf) ->
  Forall coin_ok coins -> Reads field unknown (mk coins) rest r ->
  Reads field unknown (mk []) (rep_bytes tag (map Coin_Marshal coins) rest) r.
Proof.
  intros Hk Hf Hc HR. apply (Reads_rep_bytes field unknown tag num mk [] (Coin_Unmarshal empty_Coin) _ coins); [done|done| |done].
  rewrite <-(map_id coins) at 2. apply Forall2_map_dec. eapply Forall_impl; [exact Hc|].
  intros [d a] (z & E & Hz). cbn [Amount] in E. subst a. by apply Coin_decodes.
Qed.

Lemma Fee_decodes f :
  fee_ok f -> Z.of_nat (length (Fee_Marshal f)) < 2 ^ 62 -> Fee_Unmarshal empty_Fee (Fee_Marshal f) = Ok f.
Proof.
  destruct f as [coins gas payer granter]. intros [Hc Hg] H62. cbn [fee_Amount GasLimit] in *.
  apply Reads_unmarshal; [|done].
  apply (Reads_rep_coins _ _ 10 1 (fun l => MkFee l 0 "" "")); [read_field..|].
  apply (Reads_opt_varint _ _ 16 2 _ (fun v => MkFee coins v "" "")); [read_field..|].
  apply (Reads_opt_string _ _ 26 3 _ (fun s => MkFee coins gas s "")); [read_field..|].
  apply (Reads_opt_string _ _ 34 4 _ (fun s => MkFee coins gas payer s)); [read_field..|].
  apply Reads_nil.
Qed.

Lemma Forall2_and_l {A B} (P : A -> Prop) (R : A -> B -> Prop) l k :
  Forall P l -> Forall2 R l k -> Forall2 (fun x y => P x /\ R x y) l k.
Proof. intros HP HR. induction HR; inversion_clear HP; constructor; auto. Qed.
Lemma Forall_In {A} (l : list A) : Forall (fun x => x ∈ l) l.
Proof. by apply Forall_forall. Qed.

(** Induction over nested mode infos. *)
Section ModeInd.
Variable P : ModeInfo -> Prop.
Hypothesis Hp : P ModeInfo_ptr_nil.
Hypothesis Hn : P ModeInfo_Sum_nil.
Hypothesis Hs : forall mode, P (ModeInfo_Single_ mode).
Hypothesis Hm : forall ba mis, Forall P mis -> P (ModeInfo_Multi_ ba mis).
Fixpoint ModeInfo_nested_ind (m : ModeInfo) : P m :=
  match m with
  | ModeInfo_ptr_nil => Hp
  | ModeInfo_Sum_nil => Hn
  | ModeInfo_Single_ mode => Hs mode
  | ModeInfo_Multi_ ba mis =>
      Hm ba mis ((fix all mis : Forall P mis :=
        match mis with [] => Forall_nil_2 _ | mi :: mis => Forall_cons_2 _ _ _ (ModeInfo_nested_ind mi) (all mis) end) mis)
  end.
End ModeInd.

(** Mode infos without nil pointers whose numbers are in range. *)
Fixpoint mode_ok (m : ModeInfo) : bool :=
  match m with
  | ModeInfo_ptr_nil => false
  | ModeInfo_Sum_nil => true
  | ModeInfo_Single_ mode => (- 2 ^ 31 <=? mode) && (mode <? 2 ^ 31)
  | ModeInfo_Multi_ ba mis =>
      match ba with None => true | Some b => (0 <=? ExtraBitsStored b) && (ExtraBitsStored b <? 2 ^ 32) end &&
      forallb mode_ok mis
  end.

Lemma wrap_i32_u64 v : - 2 ^ 31 <= v < 2 ^ 31 -> is_uint64 (wrap_u64 v) /\ wrap_i32 (wrap_u64 v) = v.
Proof.
  intros Hv. split; [by apply Z.mod_pos_bound|]. unfold wrap_i32, wrap_u64.
  replace (2 ^ 64) with (2 ^ 32 * 2 ^ 32) by done.
  rewrite <-Zplus_mod_idemp_l, Z.rem_mul_r, Z.mul_comm, Zplus_mod_idemp_l by done.
  replace ((v mod 2 ^ 32 + (v / 2 ^ 32) mod 2 ^ 32 * 2 ^ 32 + 2 ^ 31)) with
    (v mod 2 ^ 32 + 2 ^ 31 + (v / 2 ^ 32) mod 2 ^ 32 * 2 ^ 32) by lia.
  rewrite Z_mod_plus_full, Zplus_mod_idemp_l, Z.mod_small; [lia|].
  change (2 ^ 31) with 2147483648 in *. change (2 ^ 32) with 4294967296. lia.
Qed.

(** The elements of a repeated field are shorter than the field. *)
Lemma put_bytes_longer tag bs rest : (length bs + length rest < length (put_bytes tag bs rest))%nat.
Proof. unfold put_bytes. cbn [length]. rewrite !length_app. lia. Qed.
Lemma rep_bytes_elem tag bs bss rest : bs ∈ bss -> (length bs < length (rep_bytes tag bss rest))%nat.
Proof.
  induction bss as [|y bss IH]; [by intros ?%not_elem_of_nil|].
  change (rep_bytes tag (y :: bss) rest) with (put_bytes tag y (rep_bytes tag bss rest)).
  pose proof (put_bytes_longer tag y (rep_bytes tag bss rest)). intros [->|?%IH]%elem_of_cons; lia.
Qed.
Lemma opt_ptr_tail tag p rest : (length rest <= length (opt_ptr tag p rest))%nat.
Proof. destruct p as [bs|]; [|done]. cbn [opt_ptr]. pose proof (put_bytes_longer tag bs rest). lia. Qed.

(** [ModeInfo_Marshal] on the elements of a list. *)
Lemma ModeInfo_Multi_Marshal ba mis bss :
  Forall2 (fun mi bs => ModeInfo_Marshal mi = Ok bs) mis bss ->
  ModeInfo_Marshal (ModeInfo_Multi_ ba mis) =
  Ok (put_bytes 18 (opt_ptr 10 (CompactBitArray_Marshal <$> ba) (rep_bytes 18 bss [])) []).
Proof.
  intros Hall. cbn [ModeInfo_Marshal].
  match goal with |- (?go mis ≫= _) = _ => assert (go mis = Ok bss) as -> end; [|done].
  induction Hall as [|mi bs mis bss Hb _ IH]; [done|]. rewrite Hb. cbn [mbind res_bind]. by rewrite IH.
Qed.

Lemma ModeInfo_decodes m :
  mode_ok m = true ->
  exists bs, ModeInfo_Marshal m = Ok bs /\
    forall depth, (length bs < depth)%nat -> Z.of_nat (length bs) < 2 ^ 62 -> ModeInfo_decode depth ModeInfo_Sum_nil bs = Ok m.
Proof.
  induction m as [| |mode|ba mis IH] using ModeInfo_nested_ind; cbn [mode_ok].
  - discriminate.
  - intros _. exists []. split; [done|]. intros [|depth] Hd H62; [cbn in Hd; lia|done].
  - intros [H1%Z.leb_le H2%Z.ltb_lt]%andb_prop. eexists. split; [done|]. intros [|depth] Hd H62; [lia|].
    apply Reads_unmarshal; [|done]. destruct (wrap_i32_u64 mode) as [Hu Hw]; [lia|].
    apply (Reads_put_bytes _ _ 10 1 _ ModeInfo_Single_ (Single_Unmarshal 0) _ mode); [read_field..| |apply Reads_nil].
    intros H. apply Reads_unmarshal; [|done].
    apply (Reads_opt_varint _ _ 8 1 _ wrap_i32); [read_field..|]. rewrite Hw. apply Reads_nil.
  - intros [Hb Hm]%andb_prop. rewrite forallb_forall in Hm.
    assert (exists bss, Forall2 (fun mi bs => ModeInfo_Marshal mi = Ok bs) mis bss /\
      Forall2 (fun bs mi => forall depth, (length bs < depth)%nat -> Z.of_nat (length bs) < 2 ^ 62 ->
        ModeInfo_decode depth ModeInfo_Sum_nil bs = Ok mi) bss mis) as (bss & Hbss & Hdec).
    { clear Hb. induction IH as [|mi mis Hmi Hmis IH]; [by exists []|].
      destruct IH as (bss & ? & ?); [intros x Hx; apply Hm; by right|].
      destruct Hmi as (bs & ? & ?); [apply Hm; by left|]. exists (bs :: bss). by split; constructor. }
    rewrite (ModeInfo_Multi_Marshal ba mis bss Hbss). eexists. split; [done|]. intros [|depth] Hd H62; [lia|].
    apply Reads_unmarshal; [|done].
    apply (Reads_put_bytes _ _ 18 2 _ (fun '(ba, mis) => ModeInfo_Multi_ ba mis)
      (unmarshal (Multi_field (ModeInfo_decode depth ModeInfo_Sum_nil)) keep (None, [])) _ (ba, mis));
      [read_field..| |apply Reads_nil].
    intros H. apply Reads_unmarshal; [|done].
    apply (Reads_opt_ptr _ _ 10 1 _ (fun b => (Some b, [])) (CompactBitArray_Unmarshal (MkBitArray 0 [])) _ id);
      [read_field..| |].
    { intros b -> Hl. apply andb_prop in Hb as [H1%Z.leb_le H2%Z.ltb_lt]. by apply CompactBitArray_decodes. }
    replace (match ba with None => (None, []) | Some b => (Some (id b), []) end) with (ba, @nil ModeInfo) by by destruct ba.
    apply (Reads_rep_bytes _ _ 18 2 (fun l => (ba, l)) [] (ModeInfo_decode depth ModeInfo_Sum_nil) _ mis);
      [read_field..| |apply Reads_nil].
    refine (Forall2_impl _ _ _ _ (Forall2_and_l _ _ _ _ (Forall_In bss) Hdec) _). cbn. intros bs mi [Hin Hdb] Hl.
    apply Hdb; [|done]. apply (rep_bytes_elem 18 _ _ []) in Hin.
    pose proof (opt_ptr_tail 10 (CompactBitArray_Marshal <$> ba) (rep_bytes 18 bss [])).
    pose proof (put_bytes_longer 18 (opt_ptr 10 (CompactBitArray_Marshal <$> ba) (rep_bytes 18 bss [])) []). lia.
Qed.

(** Signer infos in range: a nil mode info is not written. *)
Definition signer_ok (si : SignerInfo) : Prop :=
  (forall a, si_PublicKey si = Some a -> Any_unrecognized a = []) /\
  (si_ModeInfo si = ModeInfo_ptr_nil \/ mode_ok (si_ModeInfo si) = true) /\ is_uint64 (si_Sequence si).
Definition clear_key (si : SignerInfo) : SignerInfo :=
  MkSignerInfo (ClearCachedValue <$> si_PublicKey si) (si_ModeInfo si) (si_Sequence si).
Definition auth_ok (m : AuthInfo) : Prop := Forall signer_ok (SignerInfos m) /\ (forall f, AuthFee m = Some f -> fee_ok f).
Definition clear_keys (m : AuthInfo) : AuthInfo := MkAuthInfo (map clear_key (SignerInfos m)) (AuthFee m).

Lemma SignerInfo_decodes si :
  signer_ok si ->
  exists bs, SignerInfo_Marshal si = Ok bs /\
    (Z.of_nat (length bs) < 2 ^ 62 -> SignerInfo_Unmarshal empty_SignerInfo bs = Ok (clear_key si)).
Proof.
  destruct si as [key mode seq]. intros (Hk & Hm & Hs). cbn [si_PublicKey si_ModeInfo si_Sequence] in *.
  assert (exists mbs, SignerInfo_Marshal (MkSignerInfo key mode seq) =
      Ok (opt_ptr 10 (Any_Marshal <$> key) (opt_ptr 18 mbs (opt_varint 24 seq []))) /\
    match mbs with
    | None => mode = ModeInfo_ptr_nil
    | Some bs => Z.of_nat (length bs) < 2 ^ 62 -> ModeInfo_Unmarshal ModeInfo_Sum_nil bs = Ok mode
    end) as (mbs & -> & Hmbs).
  { unfold SignerInfo_Marshal. cbn [si_PublicKey si_ModeInfo si_Sequence].
    destruct Hm as [->|Hm]; [by exists None|]. destruct (ModeInfo_decodes mode Hm) as (bs & Hbs & Hd).
    exists (Some bs). split; [by destruct mode; [done|rewrite Hbs..]|]. intros. apply Hd; [lia|done]. }
  eexists. split; [done|]. intros H62. apply Reads_unmarshal; [|done].
  apply (Reads_opt_ptr _ _ 10 1 _ (fun a => MkSignerInfo (Some a) ModeInfo_ptr_nil 0) (Any_Unmarshal empty_Any) _ ClearCachedValue);
    [read_field..| |].
  { intros a E Hl. apply Any_decodes; [by apply Hk|done]. }
  replace (match key with None => _ | Some a => _ end) with (MkSignerInfo (ClearCachedValue <$> key) ModeInfo_ptr_nil 0)
    by by destruct key.
  destruct mbs as [bs|].
  - apply (Reads_put_bytes _ _ 18 2 _ (fun mi => MkSignerInfo (ClearCachedValue <$> key) mi 0)
      (ModeInfo_Unmarshal ModeInfo_Sum_nil) bs mode); [read_field..|done|].
    apply (Reads_opt_varint _ _ 24 3 _ (fun v => MkSignerInfo (ClearCachedValue <$> key) mode v)); [read_field..|].
    apply Reads_nil.
  - subst mode.
    apply (Reads_opt_varint _ _ 24 3 _ (fun v => MkSignerInfo (ClearCachedValue <$> key) ModeInfo_ptr_nil v)); [read_field..|].
    apply Reads_nil.
Qed.

(** Marshalling every element of a list whose elements decode. *)
Lemma marshal_all_decodes {A B} (enc : A -> res bytes) (dec : bytes -> res B) (f : A -> B) l :
  Forall (fun x => exists bs, enc x = Ok bs /\ (Z.of_nat (length bs) < 2 ^ 62 -> dec bs = Ok (f x))) l ->
  exists bss, marshal_all enc l = Ok bss /\
    Forall2 (fun bs v => Z.of_nat (length bs) < 2 ^ 62 -> dec bs = Ok v) bss (map f l).
Proof.
  induction 1 as [|x l (bs & Hbs & Hd) _ (bss & Hbss & Hall)]; [by exists []; split|].
  exists (bs :: bss). unfold marshal_all in *. cbn [foldr]. rewrite Hbs. cbn [mbind res_bind]. rewrite Hbss.
  split; [done|]. by constructor.
Qed.

Lemma AuthInfo_decodes m :
  auth_ok m ->
  exists bs, AuthInfo_Marshal m = Ok bs /\
    (Z.of_nat (length bs) < 2 ^ 62 -> AuthInfo_Unmarshal empty_AuthInfo bs = Ok (clear_keys m)).
Proof.
  destruct m as [infos fee]. intros [Hi Hf]. cbn [SignerInfos AuthFee] in *.
  destruct (marshal_all_decodes SignerInfo_Marshal (SignerInfo_Unmarshal empty_SignerInfo) clear_key infos) as (bss & Hbss & Hd).
  { eapply Forall_impl; [exact Hi|]. apply SignerInfo_decodes. }
  exists (rep_bytes 10 bss (opt_ptr 18 (Fee_Marshal <$> fee) [])). unfold AuthInfo_Marshal. cbn [SignerInfos AuthFee].
  rewrite Hbss. split; [done|]. intros H62. apply Reads_unmarshal; [|done].
  apply (Reads_rep_bytes _ _ 10 1 (fun l => MkAuthInfo l None) [] (SignerInfo_Unmarshal empty_SignerInfo) _ (map clear_key infos));
    [read_field..|done|].
  apply (Reads_opt_ptr _ _ 18 2 _ (fun f => MkAuthInfo (map clear_key infos) (Some f)) (Fee_Unmarshal empty_Fee) _ id);
    [read_field..| |].
  { intros f E. apply Fee_decodes. by apply Hf. }
  unfold clear_keys. cbn [SignerInfos AuthFee]. destruct fee; apply Reads_nil.
Qed.

(** Bodies in range. *)
Section BodyTrip.
Context {Msg : Type}.
Implicit Types (m : TxBody Msg) (t : Tx Msg).

Definition anys_ok (l : list (Any Msg)) : Prop := Forall (fun a => Any_unrecognized a = []) l.
Definition body_ok m : Prop :=
  anys_ok (Messages m) /\ is_uint64 (TimeoutHeight m) /\
  anys_ok (ExtensionOptions m) /\ anys_ok (NonCriticalExtensionOptions m).
Definition clear_body m : TxBody Msg :=
  MkTxBody (map ClearCachedValue (Messages m)) (Memo m) (TimeoutHeight m)
    (map ClearCachedValue (ExtensionOptions m)) (map ClearCachedValue (NonCriticalExtensionOptions m)).

Lemma anys_decode l :
  anys_ok l ->
  Forall2 (fun bs v => Z.of_nat (length bs) < 2 ^ 62 -> Any_Unmarshal empty_Any bs = Ok v)
    (map Any_Marshal l) (map ClearCachedValue l).
Proof. intros Hl. apply Forall2_map_dec. eapply Forall_impl; [exact Hl|]. intros a. apply Any_decodes. Qed.

Lemma TxBody_decodes m :
  body_ok m -> Z.of_nat (length (TxBody_Marshal m)) < 2 ^ 62 ->
  TxBody_Unmarshal empty_TxBody (TxBody_Marshal m) = Ok (clear_body m).
Proof.
  destruct m as [msgs memo height ext nonCrit]. intros (Hm & Hh & He & Hn) H62.
  cbn [Messages TimeoutHeight ExtensionOptions NonCriticalExtensionOptions] in *.
  apply Reads_unmarshal; [|done].
  apply (Reads_rep_bytes _ _ 10 1 (fun l => MkTxBody l "" 0 [] []) [] (Any_Unmarshal empty_Any) _ (map ClearCachedValue msgs));
    [read_field..|by apply anys_decode|].
  apply (Reads_opt_string _ _ 18 2 _ (fun s => MkTxBody (map ClearCachedValue msgs) s 0 [] [])); [read_field..|].
  apply (Reads_opt_varint _ _ 24 3 _ (fun v => MkTxBody (map ClearCachedValue msgs) memo v [] [])); [read_field..|].
  cbn [ExtensionOptions NonCriticalExtensionOptions]. rewrite !rep_bytes2_keyed.
  apply (Reads_rep _ _ [250; 63] 1023 (fun l => MkTxBody (map ClearCachedValue msgs) memo height l []) []
    (Any_Unmarshal empty_Any) _ (map ClearCachedValue ext)); [read_field..|by apply anys_decode|].
  apply (Reads_rep _ _ [250; 127] 2047 (fun l => MkTxBody (map ClearCachedValue msgs) memo height (map ClearCachedValue ext) l) []
    (Any_Unmarshal empty_Any) _ (map ClearCachedValue nonCrit)); [read_field..|by apply anys_decode|].
  apply Reads_nil.
Qed.

Definition tx_ok t : Prop :=
  (forall b, Body t = Some b -> body_ok b) /\ (forall a, TxAuthInfo t = Some a -> auth_ok a).
Definition clear_tx t : Tx Msg := MkTx (clear_body <$> Body t) (clear_keys <$> TxAuthInfo t) (TxSignatures t).

Lemma Tx_decodes t :
  tx_ok t ->
  exists bs, Tx_Marshal t = Ok bs /\
    (Z.of_nat (length bs) < 2 ^ 62 -> Tx_Unmarshal empty_Tx bs = Ok (clear_tx t)).
Proof.
  destruct t as [body auth sigs]. intros [Hb Ha]. cbn [Body TxAuthInfo TxSignatures] in *.
  assert (exists abs, (match auth with None => Ok None | Some a => bs ← AuthInfo_Marshal a; Ok (Some bs) end) = Ok abs /\
    match auth, abs with
    | None, None => True
    | Some a, Some bs => Z.of_nat (length bs) < 2 ^ 62 -> AuthInfo_Unmarshal empty_AuthInfo bs = Ok (clear_keys a)
    | _, _ => False
    end) as (abs & Habs & Hd).
  { destruct auth as [a|]; [|by exists None]. destruct (AuthInfo_decodes a) as (bs & -> & Hd); [by apply Ha|]. by exists (Some bs). }
  eexists. split; [by unfold Tx_Marshal; cbn [TxAuthInfo]; rewrite Habs|].
  cbn [Body TxSignatures]. intros H62. apply Reads_unmarshal; [|done].
  apply (Reads_opt_ptr _ _ 10 1 _ (fun b => MkTx (Some b) None []) (TxBody_Unmarshal empty_TxBody) _ clear_body);
    [read_field..| |].
  { intros b E. apply TxBody_decodes. by apply Hb. }
  replace (match body with None => _ | Some b => _ end) with (MkTx (clear_body <$> body) None []) by by destruct body.
  assert (Reads Tx_field keep (MkTx (clear_body <$> body) (clear_keys <$> auth) []) (rep_bytes 26 sigs [])
    (clear_tx (MkTx body auth sigs))) as Hsigs.
  { apply (Reads_rep_bytes _ _ 26 3 (fun l => MkTx (clear_body <$> body) (clear_keys <$> auth) l) [] Ok _ sigs);
      [read_field..|apply Forall2_bytes|apply Reads_nil]. }
  destruct auth as [a|], abs as [bs|]; try done. cbn [opt_ptr].
  by apply (Reads_put_bytes _ _ 18 2 _ (fun a => MkTx (clear_body <$> body) (Some a) []) (AuthInfo_Unmarshal empty_AuthInfo) bs (clear_keys a));
    [read_field..|done|].
Qed.
End BodyTrip.

(* ------------------------------------------------------------------ *)
(** * Every buffer is decoded or refused *)

(** Splits the field switch of a message. *)
Ltac field_cases :=
  repeat match goal with
  | |- context [if ?n =? ?k then _ else _] => destruct (n =? k)
  | H : context [if ?n =? ?k then _ else _] |- _ => destruct (n =? k)
  end.
Ltac field_consumes := intros [] ? ? ? ? ? ?; cbn; field_cases; intros; first [discriminate | eauto with total].
Ltac field_never_panics :=
  intros [] ? ? ? ? ?; cbn; field_cases; intros; first [discriminate | eapply get_msg_total; [|eassumption]; eauto with total | eauto with total].

Lemma keep_total {M} field (m : M) dAtA : field_total field -> never_panics (unmarshal field keep m dAtA).
Proof. apply unmarshal_total. Qed.
#[local] Hint Resolve keep_total : total.

Lemma Any_Unmarshal_total {V} (m : Any V) bs : never_panics (Any_Unmarshal m bs).
Proof. apply unmarshal_total. intros m' num wt l buf r. unfold Any_field. field_cases; [eauto with total..|discriminate]. Qed.
Lemma Coin_Unmarshal_total c bs : never_panics (Coin_Unmarshal c bs).
Proof.
  apply unmarshal_total. intros m' num wt l buf r. unfold Coin_field. field_cases; [eauto with total| |discriminate].
  intros [= <-]. unfold Int_Unmarshal. no_panic.
Qed.
Lemma CompactBitArray_Unmarshal_total b bs : never_panics (CompactBitArray_Unmarshal b bs).
Proof.
  apply unmarshal_total. intros m' num wt l buf r. unfold CompactBitArray_field.
  field_cases; [eauto with total..|discriminate].
Qed.
#[export] Hint Resolve Any_Unmarshal_total Coin_Unmarshal_total CompactBitArray_Unmarshal_total : total.

Lemma Fee_Unmarshal_total m bs : never_panics (Fee_Unmarshal m bs).
Proof. apply keep_total. field_never_panics. Qed.
Lemma ModeInfo_decode_total depth m bs : never_panics (ModeInfo_decode depth m bs).
Proof.
  revert m bs. induction depth as [|depth IH]; intros m bs; cbn [ModeInfo_decode]; [no_panic|].
  apply keep_total. intros m' num wt l buf r. unfold ModeInfo_field. field_cases; [..|discriminate].
  - apply get_msg_total. intros bs'. apply keep_total. intros ? ? ? ? ? ?. unfold Single_field. field_cases; [eauto with total|discriminate].
  - apply get_msg_total. intros bs'. apply keep_total. intros [] ? ? ? ? ?. unfold Multi_field.
    field_cases; [..|discriminate]; apply get_msg_total; eauto with total.
Qed.
#[export] Hint Resolve Fee_Unmarshal_total ModeInfo_decode_total : total.
Lemma SignerInfo_Unmarshal_total m bs : never_panics (SignerInfo_Unmarshal m bs).
Proof. apply keep_total. unfold ModeInfo_Unmarshal. field_never_panics. Qed.
#[export] Hint Resolve SignerInfo_Unmarshal_total : total.
Lemma AuthInfo_Unmarshal_total m bs : never_panics (AuthInfo_Unmarshal m bs).
Proof. apply keep_total. field_never_panics. Qed.
Lemma TxBody_Unmarshal_total {Msg} (m : TxBody Msg) bs : never_panics (TxBody_Unmarshal m bs).
Proof. apply keep_total. field_never_panics. Qed.
#[export] Hint Resolve AuthInfo_Unmarshal_total TxBody_Unmarshal_total : total.
Lemma Tx_Unmarshal_total {Msg} (m : Tx Msg) bs : never_panics (Tx_Unmarshal m bs).
Proof. apply keep_total. field_never_panics. Qed.
Lemma TxRaw_Unmarshal_total m bs : never_panics (TxRaw_Unmarshal m bs).
Proof.
  apply unmarshal_total. intros m' num wt l buf r. unfold TxRaw_field. field_cases; [eauto with total..|discriminate].
Qed.

(** The value of an [Any] is shorter than its encoding. *)
Lemma Any_field_consumes {V} : consumes (@Any_field V).
Proof. intros m num wt l buf m' rest. unfold Any_field. field_cases; [eauto with total..|discriminate]. Qed.
Lemma Any_Unmarshal_shorter {V} (m a : Any V) dAtA :
  Any_Unmarshal m dAtA = Ok a -> Value m = [] -> Value a = [] \/ (length (Value a) < length dAtA)%nat.
Proof.
  intros H Hm. unfold Any_Unmarshal, unmarshal in H. revert H.
  apply (unmarshal_loop_invariant _ _ (fun a => Value a = [] \/ (length (Value a) < length dAtA)%nat));
    [apply Any_field_consumes| |done|by left].
  intros m' num wt rest m2 rest' Hl IH. unfold Any_field, get_bytes. field_cases; [| |discriminate]; intros [= H].
  all: destruct (negb (wt =? 2)); [discriminate|]; apply bind_Ok in H as ([bs r] & Hr%read_bytes_split & [= <- <-]).
  - exact IH.
  - right. cbn. lia.
Qed.

(** The body bytes of a raw transaction are a part of its bytes. *)
Lemma TxRaw_field_consumes : consumes TxRaw_field.
Proof. intros [body auth sigs] num wt l buf m' rest. unfold TxRaw_field. field_cases; [eauto with total..|discriminate]. Qed.
Lemma TxRaw_body_shorter dAtA raw : TxRaw_Unmarshal (MkTxRaw [] [] []) dAtA = Ok raw -> (length (raw_BodyBytes raw) <= length dAtA)%nat.
Proof.
  apply (unmarshal_loop_invariant _ _ (fun r => length (raw_BodyBytes r) <= length dAtA)%nat);
    [apply TxRaw_field_consumes| |done|cbn; lia].
  intros [body auth sigs] num wt rest m' rest' Hl IH. unfold TxRaw_field, get_bytes. field_cases; [..|discriminate]; intros [= H];
    (destruct (negb (wt =? 2)); [discriminate|]); apply bind_Ok in H as ([bs r] & Hr%read_bytes_split & [= <- <-]);
    [cbn; lia|exact IH..].
Qed.

(** Nested mode infos: any depth above the number of bytes gives the result. *)
Lemma ModeInfo_field_consumes dec : consumes (ModeInfo_field dec).
Proof. intros m num wt l buf m' rest. unfold ModeInfo_field. field_cases; [eauto with total..|discriminate]. Qed.
Lemma Multi_field_consumes dec : consumes (Multi_field dec).
Proof. intros [ba mis] num wt l buf m' rest. unfold Multi_field. field_cases; [eauto with total..|discriminate]. Qed.

Lemma ModeInfo_depth d1 d2 m bs :
  (length bs < d1)%nat -> (length bs < d2)%nat -> Z.of_nat (length bs) < 2 ^ 62 ->
  ModeInfo_decode d1 m bs = ModeInfo_decode d2 m bs.
Proof.
  revert d2 m bs. induction d1 as [|d1 IH]; intros [|d2] m bs H1 H2 H62; [lia..|]. cbn [ModeInfo_decode].
  apply unmarshal_ext; [apply ModeInfo_field_consumes|done|]. intros m' num wt rest Hr.
  unfold ModeInfo_field. field_cases; [done| |done]. apply get_msg_ext. intros bs1 Hb1.
  apply unmarshal_ext; [apply Multi_field_consumes|lia|]. intros [ba mis] num' wt' rest' Hr'.
  unfold Multi_field. field_cases; [done| |done]. apply get_msg_ext. intros bs2 Hb2. apply IH; lia.
Qed.

(* ------------------------------------------------------------------ *)
(** * Sizes are exact *)

(** The encoding [bs] fills a buffer of [n] bytes. *)
Definition sized (bs : bytes) (n : Z) : Prop := Z.of_nat (length bs) < 2 ^ 62 -> Z.of_nat (length bs) = n.

Lemma sized_eq bs n n' : sized bs n -> n = n' -> sized bs n'.
Proof. by intros H <-. Qed.
Lemma sized_nil : sized [] 0.
Proof. done. Qed.
Lemma sized_self bs : sized bs (Z.of_nat (length bs)).
Proof. done. Qed.
Lemma sized_keyed ks bs acc k n :
  sized bs k -> sized acc n ->
  sized (ks ++ encodeVarint (Z.of_nat (length bs)) ++ bs ++ acc) (msg_size (Z.of_nat (length ks)) k + n).
Proof.
  intros Hb Ha H62. rewrite !length_app, !Nat2Z.inj_add in *. rewrite <-Hb, <-Ha by lia.
  rewrite encodeVarint_length by (apply fits_uint64; unfold fits; lia). unfold msg_size. lia.
Qed.
Lemma sized_put_bytes tag bs acc k n : sized bs k -> sized acc n -> sized (put_bytes tag bs acc) (msg_size 1 k + n).
Proof. apply (sized_keyed [tag]). Qed.
Lemma sized_opt_bytes tag bs acc n : sized acc n -> sized (opt_bytes tag bs acc) (opt_bytes_size bs + n).
Proof.
  intros Ha. destruct bs as [|b bs]; [done|].
  eapply sized_eq; [by apply sized_put_bytes; [apply sized_self|exact Ha]|]. unfold msg_size, opt_bytes_size, bytes_size. lia.
Qed.
Lemma sized_opt_varint tag v acc n : is_uint64 v -> sized acc n -> sized (opt_varint tag v acc) (opt_varint_size v + n).
Proof.
  intros Hv Ha H62. rewrite opt_varint_length in * by done. rewrite Ha; [done|].
  pose proof (opt_varint_length tag v [] Hv). cbn [length] in *. lia.
Qed.
Lemma sized_opt_ptr tag p acc k n :
  match p, k with None, None => True | Some bs, Some k => sized bs k | _, _ => False end -> sized acc n ->
  sized (opt_ptr tag p acc) (opt_size 1 k + n).
Proof. destruct p, k; try done. apply sized_put_bytes. Qed.
Lemma sized_rep ks bss acc ns n :
  Forall2 sized bss ns -> sized acc n ->
  sized (rep_keyed ks bss acc) (sum_sizes (map (msg_size (Z.of_nat (length ks))) ns) + n).
Proof.
  intros Hall Ha. induction Hall as [|bs k bss ns Hb _ IH]; [done|].
  eapply sized_eq; [by apply (sized_keyed ks bs); [exact Hb|exact IH]|]. unfold sum_sizes. cbn [map foldr]. lia.
Qed.
Lemma sized_rep_bytes tag bss acc ns n :
  Forall2 sized bss ns -> sized acc n -> sized (rep_bytes tag bss acc) (sum_sizes (map (msg_size 1) ns) + n).
Proof. apply (sized_rep [tag]). Qed.
Lemma Forall2_sized_map {A} (enc : A -> bytes) size l :
  Forall (fun x => sized (enc x) (size x)) l -> Forall2 sized (map enc l) (map size l).
Proof. induction 1; constructor; auto. Qed.

(** The fields of an encoding, outermost first. *)
Ltac size_fields :=
  repeat first [apply sized_nil | apply sized_opt_bytes | apply sized_opt_varint; [assumption|]
               | apply sized_put_bytes; [apply sized_self|] | apply sized_self].

Lemma Any_sized {V} (a : Any V) : sized (Any_Marshal a) (Any_Size a).
Proof. eapply sized_eq; [unfold Any_Marshal; size_fields|unfold Any_Size; lia]. Qed.
Lemma Coin_sized c : sized (Coin_Marshal c) (Coin_Size c).
Proof. eapply sized_eq; [unfold Coin_Marshal; size_fields|unfold Coin_Size, bytes_size, msg_size; lia]. Qed.
Lemma CompactBitArray_sized b : is_uint32 (ExtraBitsStored b) -> sized (CompactBitArray_Marshal b) (CompactBitArray_Size b).
Proof.
  intros Hb. assert (is_uint64 (ExtraBitsStored b)).
  { unfold is_uint32, is_uint64 in *. change (2 ^ 32) with 4294967296 in Hb. change (2 ^ 64) with 18446744073709551616. lia. }
  eapply sized_eq; [unfold CompactBitArray_Marshal; size_fields|unfold CompactBitArray_Size; lia].
Qed.
Lemma anys_sized {V} (l : list (Any V)) : Forall2 sized (map Any_Marshal l) (map Any_Size l).
Proof. apply Forall2_sized_map, Forall_forall. intros a _. apply Any_sized. Qed.
Lemma ptr_sized {A} (enc : A -> bytes) size p :
  (forall x, p = Some x -> sized (enc x) (size x)) ->
  match enc <$> p, size <$> p with None, None => True | Some bs, Some k => sized bs k | _, _ => False end.
Proof. destruct p; cbn; auto. Qed.

Lemma Fee_sized f : fee_ok f -> sized (Fee_Marshal f) (Fee_Size f).
Proof.
  intros [_ Hg]. eapply sized_eq.
  - unfold Fee_Marshal. apply sized_rep_bytes; [|size_fields].
    apply (Forall2_sized_map Coin_Marshal Coin_Size), Forall_forall. intros c _. apply Coin_sized.
  - unfold Fee_Size. rewrite map_map. lia.
Qed.
Lemma ModeInfo_sized m : mode_ok m = true -> forall bs, ModeInfo_Marshal m = Ok bs -> sized bs (ModeInfo_Size m).
Proof.
  induction m as [| |mode|ba mis IH] using ModeInfo_nested_ind; cbn [mode_ok ModeInfo_Size].
  - discriminate.
  - intros _ bs [= <-]. apply sized_nil.
  - intros [H1%Z.leb_le H2%Z.ltb_lt]%andb_prop bs [= <-]. destruct (wrap_i32_u64 mode) as [Hu _]; [lia|].
    eapply sized_eq; [apply sized_put_bytes; [apply (sized_opt_varint _ _ [] 0)|]; done|]. by rewrite !Z.add_0_r.
  - intros [Hb Hm]%andb_prop bs. rewrite forallb_forall in Hm.
    assert (exists bss, Forall2 (fun mi bs => ModeInfo_Marshal mi = Ok bs) mis bss /\
      Forall2 sized bss (map ModeInfo_Size mis)) as (bss & Hbss & Hs).
    { clear Hb. induction IH as [|mi mis Hmi Hmis IH]; [by exists []; split|].
      destruct IH as (bss & ? & ?); [intros x Hx; apply Hm; by right|]. assert (mode_ok mi = true) as Hok by (apply Hm; by left).
      destruct (ModeInfo_decodes mi Hok) as (bs' & E & _).
      exists (bs' :: bss). split; constructor; auto. }
    rewrite (ModeInfo_Multi_Marshal ba mis bss Hbss). intros [= <-].
    eapply sized_eq; [apply sized_put_bytes; [|apply sized_nil]; apply sized_opt_ptr; [|by apply sized_rep_bytes; [exact Hs|apply sized_nil]]|].
    + apply (ptr_sized CompactBitArray_Marshal CompactBitArray_Size). intros b ->. apply CompactBitArray_sized.
      apply andb_prop in Hb as [H1%Z.leb_le H2%Z.ltb_lt]. by split.
    + rewrite map_map, !Z.add_0_r. done.
Qed.
Lemma SignerInfo_sized si bs : signer_ok si -> SignerInfo_Marshal si = Ok bs -> sized bs (SignerInfo_Size si).
Proof.
  destruct si as [key mode seq]. intros (_ & Hm & Hs). cbn [si_PublicKey si_ModeInfo si_Sequence] in *.
  unfold SignerInfo_Marshal. cbn [si_PublicKey si_ModeInfo si_Sequence]. intros H.
  apply bind_Ok in H as (mbs & Hmbs & [= <-]).
  eapply sized_eq.
  - apply sized_opt_ptr; [|apply sized_opt_ptr; [|size_fields]].
    + apply (ptr_sized Any_Marshal Any_Size). intros a _. apply Any_sized.
    + instantiate (1 := match mode with ModeInfo_ptr_nil => None | mi => Some (ModeInfo_Size mi) end).
      destruct Hm as [->|Hm]; [by injection Hmbs as <-|].
      destruct mode; [by injection Hmbs as <-|..]; apply bind_Ok in Hmbs as (b & Hb & [= <-]); by apply (ModeInfo_sized _ Hm).
  - unfold SignerInfo_Size. cbn [si_PublicKey si_ModeInfo si_Sequence]. destruct mode; lia.
Qed.
Lemma marshal_all_sized {A} (enc : A -> res bytes) size l bss :
  Forall (fun x => forall bs, enc x = Ok bs -> sized bs (size x)) l -> marshal_all enc l = Ok bss ->
  Forall2 sized bss (map size l).
Proof.
  intros Hl. revert bss. induction Hl as [|x l Hx _ IH]; intros bss; [by intros [= <-]|].
  unfold marshal_all. cbn [foldr]. intros H. apply bind_Ok in H as (b & Hb & H). apply bind_Ok in H as (bs & Hbs & [= <-]).
  constructor; auto.
Qed.
Lemma AuthInfo_sized m bs : auth_ok m -> AuthInfo_Marshal m = Ok bs -> sized bs (AuthInfo_Size m).
Proof.
  intros [Hi Hf] H. apply bind_Ok in H as (infos & Hinfos & [= <-]). eapply sized_eq.
  - apply sized_rep_bytes; [|apply sized_opt_ptr; [|apply sized_nil]].
    + eapply marshal_all_sized; [|exact Hinfos]. eapply Forall_impl; [exact Hi|]. intros si Hsi b. by apply SignerInfo_sized.
    + apply (ptr_sized Fee_Marshal Fee_Size). intros f E. by apply Fee_sized, Hf.
  - unfold AuthInfo_Size. rewrite map_map. lia.
Qed.
Lemma TxBody_sized {Msg} (m : TxBody Msg) : is_uint64 (TimeoutHeight m) -> sized (TxBody_Marshal m) (TxBody_Size m).
Proof.
  intros Hh. eapply sized_eq.
  - unfold TxBody_Marshal. rewrite !rep_bytes2_keyed. apply sized_rep_bytes; [apply anys_sized|].
    apply sized_opt_bytes, sized_opt_varint; [done|]. apply sized_rep; [apply anys_sized|].
    apply sized_rep; [apply anys_sized|apply sized_nil].
  - unfold TxBody_Size. rewrite !map_map. change (Z.of_nat (length [250; _])) with 2. lia.
Qed.

Lemma Tx_sized {Msg} (t : Tx Msg) bs : tx_ok t -> Tx_Marshal t = Ok bs -> sized bs (Tx_Size t).
Proof.
  intros [Hb Ha] H. apply bind_Ok in H as (abs & Habs & [= <-]). eapply sized_eq.
  - apply sized_opt_ptr; [|apply sized_opt_ptr; [|apply sized_rep_bytes; [|apply sized_nil]]].
    + apply (ptr_sized TxBody_Marshal TxBody_Size). intros b E. apply TxBody_sized, (Hb b E).
    + instantiate (1 := AuthInfo_Size <$> TxAuthInfo t). destruct (TxAuthInfo t) as [a|]; [|by injection Habs as <-].
      apply bind_Ok in Habs as (b & Hbs & [= <-]). cbn. apply AuthInfo_sized; [by apply Ha|done].
    + instantiate (1 := map (fun bs => Z.of_nat (length bs)) (TxSignatures t)).
      rewrite <-(map_id (TxSignatures t)) at 1. apply Forall2_sized_map, Forall_forall. intros s _. apply sized_self.
  - unfold Tx_Size. rewrite map_map, Z.add_0_r.
    assert (sum_sizes (map (fun bs => msg_size 1 (Z.of_nat (length bs))) (TxSignatures t)) = rep_bytes_size (TxSignatures t)) as ->; [|lia].
    induction (TxSignatures t) as [|s l IH]; [done|]. unfold sum_sizes, rep_bytes_size in *. cbn [map foldr].
    rewrite IH. unfold msg_size, bytes_size. lia.
Qed.

(* ------------------------------------------------------------------ *)
(** * Properties *)

(** A transaction and its raw form are interchangeable on the wire. *)
Section RawTx.
Context {Msg : Type}.

(** What a [TxRaw] decoder finds in an encoded [Tx]. *)
Definition raw_of (t : Tx Msg) (authBz : bytes) : TxRaw :=
  MkTxRaw (match Body t with None => [] | Some b => TxBody_Marshal b end) authBz (TxSignatures t).

Lemma TxRaw_of_Tx (t : Tx Msg) bs :
  Tx_Marshal t = Ok bs -> Z.of_nat (length bs) < 2 ^ 62 ->
  exists authBz, (match TxAuthInfo t with None => Ok [] | Some a => AuthInfo_Marshal a end) = Ok authBz /\
    TxRaw_Unmarshal (MkTxRaw [] [] []) bs = Ok (raw_of t authBz).
Proof.
  destruct t as [body auth sigs]. intros H H62. apply bind_Ok in H as (abs & Habs & [= <-]).
  cbn [Body TxAuthInfo TxSignatures] in *. exists (default [] abs).
  split; [destruct auth as [a|]; [by apply bind_Ok in Habs as (b & -> & [= <-])|by injection Habs as <-]|].
  unfold raw_of. cbn [Body TxSignatures]. apply Reads_unmarshal; [|done].
  apply (Reads_opt_ptr _ _ 10 1 _ (fun bs => MkTxRaw bs [] []) Ok TxBody_Marshal TxBody_Marshal); [read_field..|].
  replace (match body with None => MkTxRaw [] [] [] | Some b => _ end) with
    (MkTxRaw (match body with None => [] | Some b => TxBody_Marshal b end) [] []) by by destruct body.
  generalize (match body with None => [] | Some b => TxBody_Marshal b end). intros bb.
  replace (opt_ptr 18 abs) with (opt_ptr 18 (id <$> abs)) by by destruct abs.
  apply (Reads_opt_ptr _ _ 18 2 _ (fun bs => MkTxRaw bb bs []) Ok id id); [read_field..|].
  replace (match abs with None => MkTxRaw bb [] [] | Some b => _ end) with (MkTxRaw bb (default [] abs) []) by by destruct abs.
  apply (Reads_rep_bytes _ _ 26 3 (fun l => MkTxRaw bb (default [] abs) l) [] Ok _ sigs);
    [read_field..|apply Forall2_bytes|apply Reads_nil].
Qed.
End RawTx.
