(* ===== verification/Codec.v ===== *)
(** What the generated message types promise: [Marshal], [Size] and [Unmarshal]
    as an interface with its laws, the lemmas on fields that hold such messages,
    and the tactics that prove the laws of a message from those of its fields. *)
From S2P Require Import Prelude GoStrings SdkInt SdkDec CoinSet Coins BitArray Wire Decoding Keys Multisig TxTypes TxProto.

(** A generated message type; [codec_ok] says that the fields are within their
    types and that amounts are present. *)
Class Codec (A : Type) := {
  codec_empty : A;
  codec_Marshal : A -> bytes;
  codec_Size : A -> Z;
  codec_Unmarshal : A -> bytes -> res A;
  codec_ok : A -> Prop;
}.
(** Decoding what was encoded, into the empty message, gives the message, and
    the buffers of [Size] bytes are filled exactly. *)
Class CodecLaws (A : Type) `{Codec A} : Prop := {
  codec_decodes (x : A) : codec_ok x -> Z.of_nat (length (codec_Marshal x)) < 2 ^ 62 ->
    codec_Unmarshal codec_empty (codec_Marshal x) = Ok x;
  codec_sized (x : A) : codec_ok x -> sized (codec_Marshal x) (codec_Size x);
}.

Lemma codec_roundtrip `{CodecLaws A} (x : A) : codec_ok x -> Z.of_nat (length (codec_Marshal x)) < 2 ^ 62 ->
  codec_Unmarshal codec_empty (codec_Marshal x) = Ok x /\ Z.of_nat (length (codec_Marshal x)) = codec_Size x.
Proof. intros Hx H62. split; [by apply codec_decodes|by apply codec_sized]. Qed.

(** The messages of [types/coin.pb.go] and the decimals of [types/dec.go]. *)
#[export] Instance Coin_codec : Codec Coin := {|
  codec_empty := empty_Coin; codec_Marshal := Coin_Marshal; codec_Size := Coin_Size; codec_Unmarshal := Coin_Unmarshal;
  codec_ok := coin_ok |}.
#[export] Instance Coin_laws : CodecLaws Coin.
Proof.
  split; [|intros c _; apply Coin_sized]. intros [d a] (z & E & Hz) H62. cbn in E. subst a. by apply Coin_decodes.
Qed.

Definition dec_ok (d : Dec) : Prop := exists z, d = DecV z /\ int_range z.
Lemma Dec_decodes d z : int_range z -> Dec_Unmarshal d (Dec_Marshal (DecV z)) = Ok (DecV z).
Proof. intros Hz. by rewrite Dec_Unmarshal_Marshal, bool_decide_true. Qed.
#[export] Instance Dec_codec : Codec Dec := {|
  codec_empty := MkDec None; codec_Marshal := Dec_Marshal; codec_Size := Dec_Size; codec_Unmarshal := Dec_Unmarshal; codec_ok := dec_ok |}.
#[export] Instance Dec_laws : CodecLaws Dec.
Proof. split; [|intros d _; apply sized_self]. intros d (z & -> & Hz) _. by apply Dec_decodes. Qed.

Definition int_ok (i : Int) : Prop := exists z, i = IntV z /\ int_range z.
#[export] Instance Int_codec : Codec Int := {|
  codec_empty := MkInt None; codec_Marshal := Int_Marshal; codec_Size := Int_Size; codec_Unmarshal := Int_Unmarshal; codec_ok := int_ok |}.
#[export] Instance Int_laws : CodecLaws Int.
Proof.
  split; [|intros i _; apply sized_self]. intros i (z & -> & Hz) _. cbn.
  by rewrite Int_Unmarshal_Marshal, bool_decide_true.
Qed.

(** An [Any] that was not packed by this process holds no cached value. *)
Definition Any_ok {V} (a : Any V) : Prop := Any_unrecognized a = [] /\ cachedValue a = None.
#[export] Instance Any_codec V : Codec (Any V) := {|
  codec_empty := empty_Any; codec_Marshal := Any_Marshal; codec_Size := Any_Size; codec_Unmarshal := Any_Unmarshal; codec_ok := Any_ok |}.
#[export] Instance Any_laws V : CodecLaws (Any V).
Proof.
  split; [|intros a _; apply Any_sized]. intros a [Hu Hc] H62. etrans; [exact (Any_decodes a Hu H62)|].
  destruct a. cbn in *. by subst.
Qed.

(* ------------------------------------------------------------------ *)
(** * Numbers on the wire *)

(** [bool(v != 0)], and the [1] or [0] that is written for a [bool]. *)
Definition to_bool (v : Z) : bool := negb (v =? 0).
Definition bool_varint (b : bool) : Z := if b then 1 else 0.

Definition bool_size (b : bool) : Z := if b then 2 else 0.

Lemma to_bool_varint b : to_bool (bool_varint b) = b.
Proof. by destruct b. Qed.
Lemma bool_varint_uint64 b : is_uint64 (bool_varint b).
Proof. by destruct b. Qed.
Lemma uint32_uint64 z : is_uint32 z -> is_uint64 z.
Proof. unfold is_uint32, is_uint64. intros [H1 H2]. split; [done|]. eapply Z.lt_trans; [exact H2|done]. Qed.
Lemma wrap_u32_id z : is_uint32 z -> wrap_u32 z = z.
Proof. intros [H1 H2]. by apply Z.mod_small. Qed.
Lemma wrap_u64_uint64 z : is_uint64 (wrap_u64 z).
Proof. by apply Z.mod_pos_bound. Qed.
(** [int64] and [uint64] are the same 64 bits. *)
Lemma wrap_i64_u64 z : is_int64 z -> wrap_i64 (wrap_u64 z) = z.
Proof.
  unfold is_int64, wrap_i64, wrap_u64. intros Hz. change (2 ^ 63) with 9223372036854775808 in *. change (2 ^ 64) with 18446744073709551616.
  rewrite Zplus_mod_idemp_l, Z.mod_small; lia.
Qed.
Definition is_int32 (z : Z) : Prop := - 2 ^ 31 <= z < 2 ^ 31.
Lemma wrap_i32_wrap_u64 z : is_int32 z -> wrap_i32 (wrap_u64 z) = z.
Proof. intros Hz. by apply wrap_i32_u64. Qed.

(* ------------------------------------------------------------------ *)
(** * Fields *)
Section Fields.
Context {M : Type} (field : M -> Z -> Z -> Z -> bytes -> option (res (M * bytes))) (unknown : M -> bytes -> M).

(** A number that is stored by [set] after the conversion [conv]. *)
Lemma Reads_number {T} (conv : Z -> T) tag num m (set : T -> M) w v rest r :
  is_key [tag] num 0 -> (forall l buf, field m num 0 l buf = get_varint (fun z => set (conv z)) 0 buf) ->
  set (conv 0) = m -> is_uint64 w -> conv w = v ->
  Reads field unknown (set v) rest r -> Reads field unknown m (opt_varint tag w rest) r.
Proof. intros Hk Hf H0 Hw <- HR. by apply (Reads_opt_varint _ _ tag num m (fun z => set (conv z))). Qed.

Lemma Reads_raw tag num m (set : bytes -> M) bs rest r :
  is_key [tag] num 2 -> (forall l buf, field m num 2 l buf = get_bytes set 2 l buf) -> set [] = m ->
  Reads field unknown (set bs) rest r -> Reads field unknown m (opt_bytes tag bs rest) r.
Proof.
  intros Hk Hf H0 HR. by apply (Reads_opt_bytes _ _ tag num m set Ok bs bs); [done| |done|intros ->|].
Qed.

Lemma Reads_strings tag num (set : list string -> M) ss rest r :
  is_key [tag] num 2 ->
  (forall l s buf, field (set l) num 2 s buf = get_bytes (fun bs => set (l ++ [bytes_str bs])) 2 s buf) ->
  Reads field unknown (set ss) rest r -> Reads field unknown (set []) (rep_bytes tag (map to_bytes ss) rest) r.
Proof.
  intros Hk Hf HR. apply (Reads_rep_bytes _ _ tag num set [] (fun bs => Ok (bytes_str bs)) _ ss); [done| | |exact HR].
  - intros vs l buf. by rewrite Hf.
  - rewrite <-(map_id ss) at 2. apply (Forall2_map_dec to_bytes _ id), Forall_forall. intros s _ _. by rewrite bytes_str_to_bytes.
Qed.

Context {A : Type} `{CodecLaws A}.
Lemma Reads_codec tag num m (set : A -> M) x rest r :
  is_key [tag] num 2 -> (forall l buf, field m num 2 l buf = get_msg set (codec_Unmarshal codec_empty) 2 l buf) -> codec_ok x ->
  Reads field unknown (set x) rest r -> Reads field unknown m (put_bytes tag (codec_Marshal x) rest) r.
Proof.
  intros Hk Hf Hx HR. eapply (Reads_put_bytes _ _ tag num m set); [done|done| |done]. intros H62. by apply codec_decodes.
Qed.
Lemma Reads_codec_ptr tag num m (set : option A -> M) p rest r :
  is_key [tag] num 2 ->
  (forall l buf, field m num 2 l buf = get_msg (fun x => set (Some x)) (codec_Unmarshal codec_empty) 2 l buf) ->
  set None = m -> from_option codec_ok True p ->
  Reads field unknown (set p) rest r -> Reads field unknown m (opt_ptr tag (codec_Marshal <$> p) rest) r.
Proof.
  intros Hk Hf Hm Hx HR. apply (Reads_opt_ptr _ _ tag num m (fun x => set (Some x)) (codec_Unmarshal codec_empty) codec_Marshal id);
    [done|done| |].
  - intros x -> H62. by apply codec_decodes.
  - destruct p; [done|by rewrite <-Hm].
Qed.
Lemma Reads_codec_rep tag num (set : list A -> M) xs rest r :
  is_key [tag] num 2 ->
  (forall l s buf, field (set l) num 2 s buf = get_msg (fun x => set (l ++ [x])) (codec_Unmarshal codec_empty) 2 s buf) ->
  Forall codec_ok xs -> Reads field unknown (set xs) rest r ->
  Reads field unknown (set []) (rep_bytes tag (map codec_Marshal xs) rest) r.
Proof.
  intros Hk Hf Hx HR. apply (Reads_rep_bytes _ _ tag num set [] (codec_Unmarshal codec_empty) _ xs); [done|done| |done].
  rewrite <-(map_id xs) at 2. apply (Forall2_map_dec codec_Marshal _ id).
  eapply Forall_impl; [exact Hx|]. intros x Hok H62. by apply codec_decodes.
Qed.
End Fields.

Section Sizes.
Context {A : Type} `{CodecLaws A}.
Lemma sized_codec tag x acc n : codec_ok x -> sized acc n -> sized (put_bytes tag (codec_Marshal x) acc) (msg_size 1 (codec_Size x) + n).
Proof. intros Hx. apply sized_put_bytes. by apply codec_sized. Qed.
Lemma sized_codec_ptr tag p acc n : from_option codec_ok True p -> sized acc n ->
  sized (opt_ptr tag (codec_Marshal <$> p) acc) (opt_size 1 (codec_Size <$> p) + n).
Proof. intros Hx. apply sized_opt_ptr. destruct p; [by apply codec_sized|done]. Qed.
Lemma sized_codec_rep tag xs acc n : Forall codec_ok xs -> sized acc n ->
  sized (rep_bytes tag (map codec_Marshal xs) acc) (sum_sizes (map (fun x => msg_size 1 (codec_Size x)) xs) + n).
Proof.
  intros Hx Ha. rewrite <-(map_map codec_Size (msg_size 1)). apply sized_rep_bytes; [|done]. apply Forall2_sized_map.
  eapply Forall_impl; [exact Hx|]. apply codec_sized.
Qed.
End Sizes.
Lemma sized_bool tag b acc n : sized acc n -> sized (opt_varint tag (bool_varint b) acc) (bool_size b + n).
Proof. intros Ha. destruct b; [by apply (sized_opt_varint tag 1)|exact Ha]. Qed.
Lemma sized_strings tag ss acc n : sized acc n ->
  sized (rep_bytes tag (map to_bytes ss) acc) (sum_sizes (map (fun s => bytes_size (to_bytes s)) ss) + n).
Proof.
  intros Ha. eapply sized_eq; [apply sized_rep_bytes; [|exact Ha]|].
  - apply (Forall2_sized_map to_bytes (fun s => Z.of_nat (length (to_bytes s)))), Forall_forall. intros s _. apply sized_self.
  - rewrite map_map. reflexivity.
Qed.

(** ** Encodings are not much longer than what they hold *)
Lemma put_uvarint_short fuel x : (length (put_uvarint fuel x) <= S fuel)%nat.
Proof. revert x. induction fuel as [|fuel IH]; intros x; [done|]. cbn. destruct (x <? 128); cbn; [lia|]. pose proof (IH (Z.shiftr x 7)). lia. Qed.
Lemma encodeVarint_short x : (length (encodeVarint x) <= 10)%nat.
Proof. apply put_uvarint_short. Qed.
Lemma put_bytes_short tag bs acc : (length (put_bytes tag bs acc) <= 11 + length bs + length acc)%nat.
Proof. unfold put_bytes. cbn [length]. rewrite !length_app. pose proof (encodeVarint_short (Z.of_nat (length bs))). lia. Qed.
Lemma opt_bytes_short tag bs acc : (length (opt_bytes tag bs acc) <= 11 + length bs + length acc)%nat.
Proof. destruct bs; [cbn; lia|]. apply put_bytes_short. Qed.
Lemma opt_varint_short tag v acc : (length (opt_varint tag v acc) <= 11 + length acc)%nat.
Proof.
  unfold opt_varint, put_varint. destruct (v =? 0); [lia|]. cbn [length]. rewrite length_app. pose proof (encodeVarint_short v). lia.
Qed.

(* ------------------------------------------------------------------ *)
(** * Tactics *)

(** The function [set] with [s x = set (conv x)] for the function [s] that
    stores a decoded value in a message. *)
Ltac setter_of s conv :=
  lazymatch type of s with
  | ?A -> _ =>
      let g := constr:(fun x : A => ltac:(
        let b := eval cbv beta in (s x) in let c := eval cbv beta in (conv x) in
        lazymatch (eval pattern c in b) with ?g _ => exact g end)) in
      lazymatch g with fun _ => ?g => g end
  end.
(** How the field [num] of the message [m] is read. *)
Ltac field_reader F m num wt :=
  eval cbv beta iota zeta delta [F Z.eqb Pos.eqb] in (fun (l : Z) (buf : bytes) => F m num wt l buf).
Ltac field_setter F m num wt :=
  let rd := field_reader F m num wt in
  lazymatch rd with
  | fun l buf => get_msg ?s _ _ _ _ => s
  | fun l buf => get_bytes ?s _ _ _ => s
  | fun l buf => get_varint ?s _ _ => s
  end.
Ltac field_conv s :=
  lazymatch s with
  | context [wrap_u32] => wrap_u32 | context [wrap_i64] => wrap_i64 | context [wrap_i32] => wrap_i32
  | context [to_bool] => to_bool | _ => constr:(fun z : Z => z)
  end.
(** Reading the first field of an encoding. *)
Ltac number_ok := first [assumption | apply bool_varint_uint64 | apply uint32_uint64; assumption | apply wrap_u64_uint64].
Ltac number_conv := first [apply to_bool_varint | apply wrap_u32_id; assumption
  | apply wrap_i64_u64; assumption | apply wrap_i32_wrap_u64; assumption | reflexivity].
Ltac elem_type l :=
  lazymatch type of l with
  | list ?A => A | option ?A => A
  | ?T => let T' := eval hnf in T in lazymatch T' with list ?A => A end
  end.
Ltac read_step :=
  lazymatch goal with
  | |- Reads ?F _ ?m (opt_bytes ?t (to_bytes ?s) _) _ =>
      let n := eval vm_compute in (t / 8) in
      let st := field_setter F m n 2 in let set := setter_of st bytes_str in
      apply (Reads_opt_string F _ t n m set); [key|intros; reflexivity|reflexivity|cbv beta]
  | |- Reads ?F _ ?m (opt_bytes ?t _ _) _ =>
      let n := eval vm_compute in (t / 8) in let set := field_setter F m n 2 in
      apply (Reads_raw F _ t n m set); [key|intros; reflexivity|reflexivity|cbv beta]
  | |- Reads ?F _ ?m (opt_varint ?t _ _) _ =>
      let n := eval vm_compute in (t / 8) in
      let st := field_setter F m n 0 in let conv := field_conv st in let set := setter_of st conv in
      eapply (Reads_number F _ conv t n m set); [key|intros; reflexivity|reflexivity|number_ok|number_conv|cbv beta]
  | |- Reads ?F _ ?m (put_bytes ?t (_ ?x) _) _ =>
      let n := eval vm_compute in (t / 8) in let set := field_setter F m n 2 in
      let A := type of x in let L := constr:(fun M f u => @Reads_codec M f u A _ _) in
      apply (L _ F _ t n m set x); [key|intros; reflexivity|assumption|cbv beta]
  | |- Reads ?F _ ?m (opt_ptr ?t (_ <$> ?p) _) _ =>
      let A := elem_type p in
      let n := eval vm_compute in (t / 8) in
      let st := field_setter F m n 2 in let set := setter_of st (@Some A) in
      let L := constr:(fun M f u => @Reads_codec_ptr M f u A _ _) in
      apply (L _ F _ t n m set p); [key|intros; reflexivity|reflexivity|assumption|cbv beta]
  | |- Reads ?F _ ?m (rep_bytes ?t (map to_bytes ?l) _) _ =>
      let n := eval vm_compute in (t / 8) in
      let st := field_setter F m n 2 in let set := setter_of st (fun bs => @nil string ++ [bytes_str bs]) in
      apply (Reads_strings F _ t n set l); [key|intros; reflexivity|cbv beta]
  | |- Reads ?F _ ?m (rep_bytes ?t (map _ ?l) _) _ =>
      let A := elem_type l in
      let n := eval vm_compute in (t / 8) in
      let st := field_setter F m n 2 in let set := setter_of st (fun x => @nil A ++ [x]) in
      let L := constr:(fun M f u => @Reads_codec_rep M f u A _ _) in
      apply (L _ F _ t n set l); [key|intros; reflexivity|assumption|cbv beta]
  | |- Reads _ _ _ [] _ => apply Reads_nil
  end.
Ltac size_step :=
  lazymatch goal with
  | |- sized [] _ => apply sized_nil
  | |- sized (opt_bytes _ _ _) _ => apply sized_opt_bytes
  | |- sized (opt_varint _ (bool_varint _) _) _ => apply sized_bool
  | |- sized (opt_varint _ _ _) _ => apply sized_opt_varint; [number_ok|]
  | |- sized (put_bytes _ (_ ?x) _) _ =>
      let A := type of x in let L := constr:(@sized_codec A _ _) in apply (L _ x); [assumption|]
  | |- sized (opt_ptr _ (_ <$> ?p) _) _ =>
      let A := elem_type p in let L := constr:(@sized_codec_ptr A _ _) in apply (L _ p); [assumption|]
  | |- sized (rep_bytes _ (map to_bytes ?l) _) _ => apply sized_strings
  | |- sized (rep_bytes _ (map _ ?l) _) _ =>
      let A := elem_type l in let L := constr:(@sized_codec_rep A _ _) in apply (L _ l); [assumption|]
  end.
Ltac name_sizes :=
  repeat match goal with |- context [@codec_Size ?A ?c] =>
    let b := eval red in c in lazymatch b with {| codec_Size := ?s |} => change (@codec_Size A c) with s end end.

(** The laws of a message, from the laws of its fields.  The names of the
    operations are taken from the instance. *)
Ltac codec_laws :=
  lazymatch goal with
  | |- @CodecLaws ?A ?c =>
      let b := eval red in c in
      lazymatch b with
      | {| codec_empty := ?e; codec_Marshal := ?mar; codec_Size := ?siz; codec_Unmarshal := ?unm; codec_ok := ?ok |} =>
          split;
          [ change (forall x : A, ok x -> Z.of_nat (length (mar x)) < 2 ^ 62 -> unm e (mar x) = Ok x);
            let x := fresh "x" in let H := fresh "H" in let H62 := fresh "H62" in
            intros x H H62; apply Reads_unmarshal; [|exact H62]; clear H62; destruct x;
            cbv beta iota delta [ok] in H; cbv beta iota delta [mar e]; destruct_and? H; repeat read_step
          | change (forall x : A, ok x -> sized (mar x) (siz x));
            let x := fresh "x" in let H := fresh "H" in
            intros x H; destruct x; cbv beta iota delta [ok] in H; cbv beta iota delta [mar siz]; destruct_and? H;
            eapply sized_eq; [repeat size_step|name_sizes; lia] ]
      end
  end.
