(* ===== verification/Messages.v ===== *)
(** Checks on coins that the messages of several modules share. *)
From S2P Require Import Prelude GoStrings BigText SdkInt SdkDec CoinSet CoinText Coins BitArray Wire Decoding Keys Multisig Address TxTypes TxProto.

(** [Coin.Validate] of [types/coin.pb.go] *)
Definition Coin_Validate (coin : Coin) : res unit := validate (Denom coin) (Amount coin).

(** [coin.IsValid() && coin.Amount.IsPositive()] *)
Definition valid_positive (coin : Coin) : res bool :=
  valid ← Coin_IsValid coin;
  if negb valid then Ok false else Int_IsPositive (Amount coin).

Lemma Coin_Validate_spec c : coin_ok c -> Coin_Validate c = Ok tt <-> denom_ok c /\ 0 <= coin_val c.
Proof.
  intros (z & E & Hz). destruct c as [d a]. cbn in E. subst a. unfold Coin_Validate, validate, ValidateDenom, check, denom_ok, coin_val. cbn.
  destruct (is_denom d); cbn; [|naive_solver]. unfold Sign. rewrite (proj1 (proj2 (sgn_tests z))).
  destruct (Z.ltb_spec z 0); naive_solver lia.
Qed.

Lemma valid_positive_spec c : coin_ok c ->
  exists b, valid_positive c = Ok b /\ (b = true <-> denom_ok c /\ positive c).
Proof.
  intros (z & E & _). unfold valid_positive, Coin_IsValid, validate, ValidateDenom, check, Int_IsNegative, Int_IsPositive, positive, coin_val, denom_ok.
  rewrite E. cbn. destruct (is_denom (Denom c)); cbn; [|exists false; by split; [|split; [|intros []]]].
  unfold Sign. rewrite (proj1 (proj2 (sgn_tests z))), (proj2 (proj2 (sgn_tests z))).
  destruct (Z.ltb_spec z 0); cbn; [exists false|exists (0 <? z)]; (split; [done|]); destruct (Z.ltb_spec 0 z); split; try done; lia.
Qed.

(* ------------------------------------------------------------------ *)
(** * The steps of a validation *)
Section Steps.
Context `{Bech32Lib}.

Lemma check_nonempty s (e : string) (r : res unit) : (if bool_decide (s = "") then Err e else r) = Ok tt <-> s <> "" /\ r = Ok tt.
Proof. case_bool_decide; naive_solver. Qed.
Lemma checked (c : res unit) (r : res unit) (P : Prop) : (c = Ok tt <-> P) -> (_ ← c; r) = Ok tt <-> P /\ r = Ok tt.
Proof. intros <-. destruct c as [[]| |]; cbn; naive_solver. Qed.
Lemma ValidateAccAddress_spec s : ValidateAccAddress s = Ok tt <-> address_ok s.
Proof.
  unfold ValidateAccAddress, address_ok, AccAddressFromBech32. destruct (GetFromBech32 s _); cbn; naive_solver.
Qed.
Lemma checked_address s e (r : res unit) : (_ ← or_err (AccAddressFromBech32 s) e; r) = Ok tt <-> address_ok s /\ r = Ok tt.
Proof. unfold address_ok, or_err. destruct (AccAddressFromBech32 s); cbn; naive_solver. Qed.
Lemma no_address : ~ address_ok "".
Proof. intros [a E]. discriminate E. Qed.

(** The sender of a message: named, and an address. *)
Definition check_named (e owner : string) : res unit := if bool_decide (owner = "") then Err e else ValidateAccAddress owner.
Lemma check_named_spec e s : check_named e s = Ok tt <-> address_ok s.
Proof.
  unfold check_named. pose proof no_address.
  case_bool_decide; [subst s; naive_solver|apply ValidateAccAddress_spec].
Qed.
(** The only signer of a message whose owner is checked. *)
Definition owner_signs (owner : string) : res (list bytes) := a ← MustAccAddressFromBech32 owner; Ok [a].
Lemma owner_signs_ok owner : address_ok owner -> exists a, AccAddressFromBech32 owner = Ok a /\ owner_signs owner = Ok [a].
Proof. intros [a Ha]. exists a. unfold owner_signs, MustAccAddressFromBech32. by rewrite Ha. Qed.
End Steps.
