(* ===== verification/Grpc.v ===== *)
(** The unary calls of generated gRPC code.  The library and the network are
    [grpc_call], which carries the bytes of a request to a server and those of
    the answer back; the generated stubs and handlers are built from the
    definitions of this file. *)
From S2P Require Import Prelude GoStrings SdkInt SdkDec CoinSet Coins BitArray Wire Decoding Keys Multisig TxTypes TxProto Codec.

(** [ClientConn.Invoke] encodes the request, and decodes the answer into the
    message it is given, which the stubs have just allocated. *)
Definition Invoke {W Conn Req Resp} `{Codec Req, Codec Resp} (grpc_call : Conn -> string -> bytes -> ST W bytes)
    (cc : Conn) (FullMethod : string) (in_ : Req) : ST W Resp :=
  bz ← grpc_call cc FullMethod (codec_Marshal in_);
  lift (codec_Unmarshal codec_empty bz).

(** [grpc.UnaryServerInterceptor]: it is given the method, the handler and the request. *)
Definition Interceptor (W : Type) : Type := forall Req Resp : Type, string -> (Req -> ST W Resp) -> Req -> ST W Resp.

(** The body of a generated handler: decode the request, and call the method of
    the server, by way of the interceptor when there is one. *)
Definition unary_Handler {W Req Resp} `{Codec Req} (FullMethod : string) (method : Req -> ST W Resp)
    (dec : forall A, Codec A -> A -> res A) (interceptor : option (Interceptor W)) : ST W Resp :=
  in_ ← lift (dec Req _ codec_empty);
  match interceptor with
  | None => method in_
  | Some i => i Req Resp FullMethod method in_
  end.

(** A [grpc.MethodDesc]: the library decodes the request with [dec] and encodes
    the answer of the handler. *)
Record MethodDesc (W : Type) := MkMethodDesc {
  MethodName : string; Handler : (forall A, Codec A -> A -> res A) -> option (Interceptor W) -> ST W bytes }.
Arguments MkMethodDesc {_} _ _.
Arguments MethodName {_} _.
Arguments Handler {_} _.
Definition encoded {W Resp} `{Codec Resp} (h : ST W Resp) : ST W bytes := r ← h; mret (codec_Marshal r).

(** ** The library and the network

    What is relied on of the library, for a server that is registered with the
    methods [descs] of [service] and without an interceptor.  [reaches] says when a
    call gets through to the server and its answer back.  Then a call of a
    registered method is answered by its handler, unless that panics: with the
    bytes of its answer, or with a status error that has a text made from the
    handler's error; a call of any other path is an error, and the server is not
    run.  A call that does not get through is no success. *)
Definition desc_path {W} (service : string) (d : MethodDesc W) : string := "/" +:+ service +:+ "/" +:+ MethodName d.
Definition seen {A} (status : string -> string) (r : res A) : res A := match r with Err e => Err (status e) | r => r end.
Record connected {W Conn} (grpc_call : Conn -> string -> bytes -> ST W bytes) (reaches : Conn -> W -> Prop) (status : string -> string)
    (service : string) (descs : list (MethodDesc W)) : Prop := {
  call_registered cc d bz w r w' : reaches cc w -> In d descs ->
    Handler d (fun A _ m => codec_Unmarshal m bz) None w = (r, w') -> panics r = false ->
    grpc_call cc (desc_path service d) bz w = (seen status r, w');
  call_unregistered cc FullMethod bz w : reaches cc w -> (forall d, In d descs -> FullMethod <> desc_path service d) ->
    exists e, grpc_call cc FullMethod bz w = (Err e, w);
  call_success cc FullMethod bz w a w' : grpc_call cc FullMethod bz w = (Ok a, w') -> reaches cc w;
}.

(** A stub connected to a server answers what the server's method answers: the
    request that arrives is the one that was sent, and so is the answer. *)
Lemma Invoke_served {W Conn Req Resp} `{CodecLaws Req, CodecLaws Resp} (grpc_call : Conn -> string -> bytes -> ST W bytes)
    reaches status service descs cc d (method : Req -> ST W Resp) in_ w r w' :
  connected grpc_call reaches status service descs -> reaches cc w -> In d descs ->
  Handler d = (fun dec i => encoded (unary_Handler (desc_path service d) method dec i)) ->
  codec_ok in_ -> Z.of_nat (length (codec_Marshal in_)) < 2 ^ 62 ->
  method in_ w = (r, w') -> panics r = false ->
  (forall a, r = Ok a -> codec_ok a /\ Z.of_nat (length (codec_Marshal a)) < 2 ^ 62) ->
  Invoke grpc_call cc (desc_path service d) in_ w = (seen status r, w').
Proof.
  intros Hc Hrc Hd Ha Hin H62 Hm Hp Hr.
  assert (Handler d (fun A _ m => codec_Unmarshal m (codec_Marshal in_)) None w = (codec_Marshal <$> r, w')) as E.
  { rewrite Ha. unfold encoded, unary_Handler, lift, mbind, st_bind. rewrite codec_decodes by done. rewrite Hm.
    by destruct r. }
  unfold Invoke, mbind, st_bind, lift. rewrite (call_registered _ _ _ _ _ Hc _ _ _ _ _ _ Hrc Hd E) by by destruct r.
  destruct r as [a|e|p]; [|done..]. destruct (Hr a eq_refl). cbn. by rewrite codec_decodes.
Qed.

(** A stub that reports success has reached the server. *)
Lemma Invoke_success {W Conn Req Resp} `{Codec Req, Codec Resp} (grpc_call : Conn -> string -> bytes -> ST W bytes)
    reaches status service descs cc FullMethod (in_ : Req) w (a : Resp) w' :
  connected grpc_call reaches status service descs -> Invoke grpc_call cc FullMethod in_ w = (Ok a, w') -> reaches cc w.
Proof.
  intros Hc E. unfold Invoke in E. apply st_bind_Ok in E as (bz & w1 & E & _). by eapply call_success.
Qed.
