(* ===== verification/Pagination.v ===== *)
(** The page of a query and of its answer: [types/query/pagination.pb.go]. *)
From S2P Require Import Prelude GoStrings SdkInt Coins BitArray Wire Decoding Keys Multisig TxTypes TxProto Codec.

Record PageRequest := MkPageRequest {
  PageRequest_Key : bytes; PageRequest_Offset : Z; PageRequest_Limit : Z; PageRequest_CountTotal : bool }.
Definition PageRequest_Marshal (m : PageRequest) : bytes :=
  let '(MkPageRequest key offset limit ct) := m in opt_bytes 10 key (opt_varint 16 offset (opt_varint 24 limit (opt_varint 32
    (bool_varint ct) []))).
Definition PageRequest_Size (m : PageRequest) : Z :=
  let '(MkPageRequest key offset limit ct) := m in opt_bytes_size key + opt_varint_size offset + opt_varint_size limit +
    bool_size ct.
Definition PageRequest_field (m : PageRequest) (num wt l : Z) (buf : bytes) :=
  let '(MkPageRequest key offset limit ct) := m in
  if num =? 1 then get_bytes (fun bs => MkPageRequest bs offset limit ct) wt l buf
  else if num =? 2 then get_varint (fun v => MkPageRequest key v limit ct) wt buf
  else if num =? 3 then get_varint (fun v => MkPageRequest key offset v ct) wt buf
  else if num =? 4 then get_varint (fun v => MkPageRequest key offset limit (to_bool v)) wt buf
  else None.
Definition empty_PageRequest : PageRequest := MkPageRequest [] 0 0 false.
Definition PageRequest_Unmarshal (m : PageRequest) (dAtA : bytes) : res PageRequest := unmarshal PageRequest_field keep m dAtA.
Definition PageRequest_ok (m : PageRequest) : Prop :=
  let '(MkPageRequest key offset limit ct) := m in is_uint64 offset /\ is_uint64 limit.
#[export] Instance PageRequest_codec : Codec PageRequest := {|
  codec_empty := empty_PageRequest; codec_Marshal := PageRequest_Marshal; codec_Size := PageRequest_Size;
  codec_Unmarshal := PageRequest_Unmarshal; codec_ok := PageRequest_ok |}.
#[export] Instance PageRequest_laws : CodecLaws PageRequest.
Proof. codec_laws. Qed.

Record PageResponse := MkPageResponse { PageResponse_NextKey : bytes; PageResponse_Total : Z }.
Definition PageResponse_Marshal (m : PageResponse) : bytes :=
  let '(MkPageResponse nk total) := m in opt_bytes 10 nk (opt_varint 16 total []).
Definition PageResponse_Size (m : PageResponse) : Z :=
  let '(MkPageResponse nk total) := m in opt_bytes_size nk + opt_varint_size total.
Definition PageResponse_field (m : PageResponse) (num wt l : Z) (buf : bytes) :=
  let '(MkPageResponse nk total) := m in
  if num =? 1 then get_bytes (fun bs => MkPageResponse bs total) wt l buf
  else if num =? 2 then get_varint (fun v => MkPageResponse nk v) wt buf
  else None.
Definition empty_PageResponse : PageResponse := MkPageResponse [] 0.
Definition PageResponse_Unmarshal (m : PageResponse) (dAtA : bytes) : res PageResponse := unmarshal PageResponse_field keep m dAtA.
Definition PageResponse_ok (m : PageResponse) : Prop := let '(MkPageResponse nk total) := m in is_uint64 total.
#[export] Instance PageResponse_codec : Codec PageResponse := {|
  codec_empty := empty_PageResponse; codec_Marshal := PageResponse_Marshal; codec_Size := PageResponse_Size;
  codec_Unmarshal := PageResponse_Unmarshal; codec_ok := PageResponse_ok |}.
#[export] Instance PageResponse_laws : CodecLaws PageResponse.
Proof. codec_laws. Qed.

Lemma PageRequest_short m : (length (PageRequest_Marshal m) <= 44 + length (PageRequest_Key m))%nat.
Proof.
  destruct m as [key offset limit total]. cbn [PageRequest_Marshal PageRequest_Key].
  etrans; [apply opt_bytes_short|]. pose proof (opt_varint_short 16 offset (opt_varint 24 limit (opt_varint 32 (bool_varint total) []))).
  pose proof (opt_varint_short 24 limit (opt_varint 32 (bool_varint total) [])). pose proof (opt_varint_short 32 (bool_varint total) []).
  cbn [length] in *. lia.
Qed.
