(* ===== verification/Registry.v ===== *)
(** The interface registry ([codec/types/interface_registry.go]): which message
    types may be unpacked from an [Any] as which interface, and unpacking.

    [T] are the types of [reflect] and [V] the messages ([proto.Message]); what
    [reflect] and gogo protobuf say of them is the class [Messages]. *)
From S2P Require Import Prelude GoStrings Wire Decoding Keys TxTypes TxProto.

Class ProtoMessages (T V : Type) `{Countable T} := {
  messages_proto :: ProtoMessage V;
  (** [reflect.TypeOf], [Kind() == reflect.Interface] and [AssignableTo]. *)
  TypeOf : V -> T;
  is_interface : T -> bool;
  AssignableTo : T -> T -> bool;
  (** A new message of the type, read by [proto.Unmarshal]. *)
  proto_Unmarshal : T -> bytes -> res V;
  (** The [Any]s that the message's [UnpackInterfaces] unpacks, with the
      interfaces it asks for, and the message with these [Any]s replaced. *)
  packed : V -> list (T * Any V);
  repack : V -> list (Any V) -> V;
}.

Section Registry.
Context `{P : ProtoMessages T V}.

(** [interfaceNames] holds the interface itself instead of a pointer to it. *)
Record interfaceRegistry := MkRegistry {
  interfaceNames : gmap string T;
  interfaceImpls : gmap T (gmap string T);
  typeURLMap : gmap string T;
}.
Definition NewInterfaceRegistry : interfaceRegistry := MkRegistry ∅ ∅ ∅.

(* ------------------------------------------------------------------ *)
(** * Registration *)

Definition registerImpl (ityp : T) (typeURL : string) (impl : V) : ST interfaceRegistry unit := fun registry =>
  let imap := default ∅ (interfaceImpls registry !! ityp) in
  let implType := TypeOf impl in
  if negb (AssignableTo implType ityp) then (Panic "type %T doesn't actually implement interface %+v", registry)
  else if match imap !! typeURL with Some t => bool_decide (t <> implType) | None => false end
  then (Panic "concrete type %s has already been registered under typeURL %s", registry)
  else (Ok tt, MkRegistry (interfaceNames registry) (<[ityp := <[typeURL := implType]> imap]> (interfaceImpls registry))
                 (<[typeURL := implType]> (typeURLMap registry))).

Definition RegisterCustomTypeURL : T -> string -> V -> ST interfaceRegistry unit := registerImpl.
Fixpoint RegisterImplementations (iface : T) (impls : list V) : ST interfaceRegistry unit :=
  match impls with
  | [] => mret tt
  | impl :: impls => registerImpl iface ("/" +:+ MessageName impl) impl ≫= fun _ => RegisterImplementations iface impls
  end.
Definition RegisterInterface (protoName : string) (iface : T) (impls : list V) : ST interfaceRegistry unit := fun registry =>
  if negb (is_interface iface) then (Panic "%T is not an interface type", registry)
  else RegisterImplementations iface impls
         (MkRegistry (<[protoName := iface]> (interfaceNames registry)) (interfaceImpls registry) (typeURLMap registry)).

(** The order of a Go map's keys is not determined: [map_to_list]'s stands for
    any of them. *)
Definition ListAllInterfaces (registry : interfaceRegistry) : list string := (map_to_list (interfaceNames registry)).*1.
Definition ListImplementations (registry : interfaceRegistry) (ifaceName : string) : list string :=
  match interfaceNames registry !! ifaceName with
  | None => []
  | Some ityp => match interfaceImpls registry !! ityp with None => [] | Some imap => (map_to_list imap).*1 end
  end.

(** [Resolve]: the type of the message that is created. *)
Definition Resolve (registry : interfaceRegistry) (typeURL : string) : res T :=
  match typeURLMap registry !! typeURL with
  | None => Err "unable to resolve type URL %s"
  | Some typ => Ok typ
  end.

(* ------------------------------------------------------------------ *)
(** * Unpacking *)

Definition out_of_depth : string := "nested too deeply".

(** The [Any]s of a message in order; the first error ends the loop. *)
Fixpoint unpack_all (unpack : T -> Any V -> res (option V * Any V)) (l : list (T * Any V)) : res (list (Any V)) :=
  match l with
  | [] => Ok []
  | (rt, any) :: l => '(_, any) ← unpack rt any; anys ← unpack_all unpack l; Ok (any :: anys)
  end.

(** The cached value, when an [rt] variable can hold it. *)
Definition cached_as (rt : T) (any : Any V) : option V :=
  match cachedValue any with
  | Some v => if AssignableTo (TypeOf v) rt then Some v else None
  | None => None
  end.

(** The type that a new message for [any] has. *)
Definition registered_type (registry : interfaceRegistry) (rt : T) (typeURL : string) : res T :=
  match interfaceImpls registry !! rt with
  | None => Err "no registered implementations of type %+v"
  | Some imap =>
      match imap !! typeURL with
      | None => Err "no concrete type registered for type URL %s against interface %T"
      | Some typ => Ok typ
      end
  end.

(** [UnpackAny(any, &iface)] for an interface variable of type [rt]: the value
    assigned to it, if any, and the [Any] with its cached value.  [depth] bounds
    the nesting of [Any]s. *)
Fixpoint UnpackAny (depth : nat) (registry : interfaceRegistry) (rt : T) (any : Any V) : res (option V * Any V) :=
  if bool_decide (TypeUrl any = "") then Ok (None, any) else
  match cached_as rt any with
  | Some v => Ok (Some v, any)
  | None =>
      typ ← registered_type registry rt (TypeUrl any);
      match depth with
      | O => Err out_of_depth
      | S depth =>
          msg ← proto_Unmarshal typ (Value any);
          anys ← unpack_all (UnpackAny depth registry) (packed msg);
          let msg := repack msg anys in
          Ok (Some msg, MkAny (TypeUrl any) (Value any) (Any_unrecognized any) (Some msg))
      end
  end.
(** [UnpackInterfaces(x, registry)] *)
Definition UnpackInterfaces (depth : nat) (registry : interfaceRegistry) (msg : V) : res V :=
  anys ← unpack_all (UnpackAny depth registry) (packed msg); Ok (repack msg anys).
End Registry.

(* ------------------------------------------------------------------ *)
(** * Properties *)
Section Properties.
Context `{P : ProtoMessages T V}.
Implicit Types registry : @interfaceRegistry T _ _.

(** Every registered implementation implements its interface and can be
    resolved. *)
Definition registry_ok registry : Prop :=
  forall ityp imap url typ, interfaceImpls registry !! ityp = Some imap -> imap !! url = Some typ ->
    AssignableTo typ ityp = true /\ is_Some (typeURLMap registry !! url).

(** Entries are never lost. *)
Definition registry_le registry registry' : Prop :=
  forall ityp url typ, registered_type registry ityp url = Ok typ -> registered_type registry' ityp url = Ok typ.

Lemma registerImpl_spec ityp url impl registry r registry' :
  registerImpl ityp url impl registry = (r, registry') -> registry_ok registry ->
  registry_ok registry' /\ registry_le registry registry' /\
  (r = Ok tt -> registered_type registry' ityp url = Ok (TypeOf impl)).
Proof.
  unfold registerImpl. destruct (AssignableTo (TypeOf impl) ityp) eqn:Ha; cbn [negb];
    [|intros [= <- <-] Hok; split_and!; [done|by intros ? ? ?|discriminate]].
  set (imap := default ∅ (interfaceImpls registry !! ityp)).
  destruct (match imap !! url with Some t => _ | None => _ end) eqn:Hc; intros [= <- <-] Hok; [split_and!; [done|by intros ? ? ?|discriminate]|].
  split_and!.
  - intros ityp' imap' url' typ. cbn. rewrite lookup_insert_Some. intros [[<- <-]|[Hne Hl]].
    + rewrite lookup_insert_Some. intros [[<- <-]|[Hu Hl]]; [by rewrite lookup_insert_eq|].
      rewrite lookup_insert_ne by done. unfold imap in Hl.
      destruct (interfaceImpls registry !! ityp) as [im|] eqn:E; [|done]. by eapply Hok.
    + intros Hu. destruct (Hok _ _ _ _ Hl Hu) as [? ?]. split; [done|].
      destruct (decide (url = url')) as [<-|]; [by rewrite lookup_insert_eq|by rewrite lookup_insert_ne].
  - intros ityp' url' typ. unfold registered_type. cbn. destruct (decide (ityp = ityp')) as [<-|]; [|by rewrite lookup_insert_ne].
    rewrite lookup_insert_eq. unfold imap in *. destruct (interfaceImpls registry !! ityp) as [im|] eqn:E; [|done]. cbn in *.
    destruct (decide (url = url')) as [<-|]; [|by rewrite lookup_insert_ne]. rewrite lookup_insert_eq.
    destruct (im !! url) as [t|]; [|done]. apply bool_decide_eq_false in Hc. apply dec_stable in Hc. by subst.
  - intros _. unfold registered_type. cbn. by rewrite !lookup_insert_eq.
Qed.

Lemma registry_le_trans r1 r2 r3 : registry_le r1 r2 -> registry_le r2 r3 -> registry_le r1 r3.
Proof. intros H1 H2 ? ? ? ?. by apply H2, H1. Qed.

Lemma RegisterImplementations_spec iface impls registry r registry' :
  RegisterImplementations iface impls registry = (r, registry') -> registry_ok registry ->
  registry_ok registry' /\ registry_le registry registry' /\
  (r = Ok tt -> Forall (fun impl => registered_type registry' iface ("/" +:+ MessageName impl) = Ok (TypeOf impl)) impls).
Proof.
  revert registry. induction impls as [|impl impls IH]; intros registry.
  - intros [= <- <-] Hok. split_and!; [done|by intros ? ? ?|by constructor].
  - cbn [RegisterImplementations]. unfold mbind, st_bind. destruct (registerImpl _ _ _ registry) as [r1 registry1] eqn:E.
    intros Hr Hok. apply registerImpl_spec in E as (Hok1 & Hle1 & Hreg); [|done].
    destruct r1 as [[]|e|p]; [|injection Hr as <- <-; by split_and!; [..|discriminate]..].
    apply IH in Hr as (Hok2 & Hle2 & Hall); [|done]. split_and!; [done|by eapply registry_le_trans|].
    intros Hq. constructor; [|by apply Hall]. by apply Hle2, Hreg.
Qed.

(** The ways to register, and a sequence of them; a panic of one that is
    recovered leaves the registry as it was then. *)
Inductive registration :=
| Interface (protoName : string) (iface : T) (impls : list V)
| Implementations (iface : T) (impls : list V)
| CustomTypeURL (iface : T) (typeURL : string) (impl : V).
Definition register (op : registration) : ST interfaceRegistry unit :=
  match op with
  | Interface protoName iface impls => RegisterInterface protoName iface impls
  | Implementations iface impls => RegisterImplementations iface impls
  | CustomTypeURL iface typeURL impl => RegisterCustomTypeURL iface typeURL impl
  end.
Definition register_all (ops : list registration) (registry : interfaceRegistry) : interfaceRegistry :=
  foldl (fun registry op => snd (register op registry)) registry ops.

Lemma register_spec op registry r registry' :
  register op registry = (r, registry') -> registry_ok registry -> registry_ok registry' /\ registry_le registry registry'.
Proof.
  destruct op as [name iface impls|iface impls|iface url impl]; cbn [register]; intros Hr Hok.
  - unfold RegisterInterface in Hr. destruct (negb (is_interface iface)).
    { injection Hr as <- <-. split; [done|by intros ? ? ?]. }
    eapply (RegisterImplementations_spec _ _ (MkRegistry _ _ _)) in Hr as (? & ? & _); done.
  - by apply RegisterImplementations_spec in Hr as (? & ? & _).
  - by apply registerImpl_spec in Hr as (? & ? & _).
Qed.
Lemma register_all_ok ops registry : registry_ok registry -> registry_ok (register_all ops registry).
Proof.
  revert registry. induction ops as [|op ops IH]; intros registry Hok; [done|]. cbn. apply IH.
  destruct (register op registry) as [r registry'] eqn:E. by apply register_spec in E as [? _].
Qed.
Lemma registry_new_ok : registry_ok NewInterfaceRegistry.
Proof. intros ? ? ? ?. cbn. by rewrite lookup_empty. Qed.

(** What [reflect] and gogo protobuf guarantee: a new message has the type it
    was created with, replacing packed values keeps the type, and what is
    packed in a message is shorter than its encoding. *)
Record proto_laws : Prop := {
  Unmarshal_TypeOf : forall typ bs v, proto_Unmarshal typ bs = Ok v -> TypeOf v = typ;
  repack_TypeOf : forall v anys, TypeOf (repack v anys) = TypeOf v;
  packed_shorter : forall typ bs v, proto_Unmarshal typ bs = Ok v ->
    Forall (fun p : T * Any V => (length (Value p.2) < length bs)%nat) (packed v);
}.

Lemma registered_type_ok registry rt url typ :
  registry_ok registry -> registered_type registry rt url = Ok typ -> AssignableTo typ rt = true.
Proof.
  unfold registered_type. intros Hok. destruct (_ !! rt) as [imap|] eqn:E1; [|done].
  destruct (imap !! url) as [t|] eqn:E2; [|done]. intros [= <-]. by eapply Hok.
Qed.

(** C27: Unpacking is type safe.  Whatever was registered in whatever order,
    [UnpackAny] only assigns values that implement the interface asked for,
    and the [Any] keeps its type URL and bytes. *)
Theorem UnpackAny_typed (L : proto_laws) ops depth rt any v any' :
  UnpackAny depth (register_all ops NewInterfaceRegistry) rt any = Ok (Some v, any') ->
  AssignableTo (TypeOf v) rt = true /\ cachedValue any' = Some v /\ TypeUrl any' = TypeUrl any /\ Value any' = Value any.
Proof.
  pose proof (register_all_ok ops _ registry_new_ok) as Hok. intros Hu.
  destruct depth as [|depth]; cbn [UnpackAny] in Hu; destruct (bool_decide (TypeUrl any = "")); try discriminate.
  all: destruct (cached_as rt any) as [w|] eqn:Ec.
  1,3: injection Hu as -> <-; unfold cached_as in Ec; destruct (cachedValue any) as [w|]; [|discriminate];
       destruct (AssignableTo (TypeOf w) rt) eqn:Ea; [|discriminate]; by injection Ec as ->.
  - by apply bind_Ok in Hu as (typ & _ & Hu).
  - res_inv. split_and!; [|done..]. rewrite (repack_TypeOf L), (Unmarshal_TypeOf L _ _ _ Hr0).
    by eapply registered_type_ok.
Qed.

Lemma unpack_all_ext f g l :
  Forall (fun p : T * Any V => f p.1 p.2 = g p.1 p.2) l -> unpack_all f l = unpack_all g l.
Proof.
  induction 1 as [|[rt any] l Hp _ IH]; [done|]. cbn in *. rewrite Hp. destruct (g rt any) as [[w a]|e|p]; [|done..].
  cbn. by rewrite IH.
Qed.

(** Unpacking ends: a depth above the number of packed bytes gives the result. *)
Theorem UnpackAny_depth (L : proto_laws) registry d1 d2 rt any :
  (length (Value any) < d1)%nat -> (length (Value any) < d2)%nat ->
  UnpackAny d1 registry rt any = UnpackAny d2 registry rt any.
Proof.
  revert d2 rt any. induction d1 as [|d1 IH]; intros [|d2] rt any H1 H2; [lia..|]. cbn [UnpackAny].
  destruct (bool_decide _); [done|]. destruct (cached_as rt any); [done|].
  destruct (registered_type registry rt (TypeUrl any)) as [typ|e|p]; [|done..]. cbn [mbind res_bind].
  destruct (proto_Unmarshal typ (Value any)) as [msg|e|p] eqn:E; [|done..]. cbn [mbind res_bind].
  rewrite (unpack_all_ext _ (UnpackAny d2 registry)); [done|].
  eapply Forall_impl; [exact (packed_shorter L _ _ _ E)|]. intros [rt' any'] Hl. cbn in *. apply IH; lia.
Qed.

(** A message whose type, and the types of the messages packed in it, are
    registered for the interfaces they are unpacked as; reading its encoding
    gives it back with the packed messages still in their [Any]s. *)
Fixpoint packable (depth : nat) (registry : interfaceRegistry) (rt : T) (v : V) : Prop :=
  match depth with
  | O => False
  | S depth =>
      registered_type registry rt ("/" +:+ MessageName v) = Ok (TypeOf v) /\
      (exists bz raw, proto_Marshal v = Ok bz /\ proto_Unmarshal (TypeOf v) bz = Ok raw /\
         Forall2 (fun p q : T * Any V => p.1 = q.1 /\ p.2 = MkAny (TypeUrl q.2) (Value q.2) (Any_unrecognized q.2) None)
           (packed raw) (packed v) /\
         repack raw (packed v).*2 = v) /\
      Forall (fun p : T * Any V => exists w, NewAnyWithValue w = Ok p.2 /\ packable depth registry p.1 w) (packed v)
  end.

Lemma unpack_all_packed registry depth l k :
  Forall2 (fun p q : T * Any V => p.1 = q.1 /\ p.2 = MkAny (TypeUrl q.2) (Value q.2) (Any_unrecognized q.2) None) l k ->
  Forall (fun q : T * Any V => exists w, UnpackAny depth registry q.1
    (MkAny (TypeUrl q.2) (Value q.2) (Any_unrecognized q.2) None) = Ok (Some w, q.2)) k ->
  unpack_all (UnpackAny depth registry) l = Ok k.*2.
Proof.
  induction 1 as [|[rt a] [rt' a'] l k [E1 E2] _ IH]; intros HF; [done|]. cbn in E1, E2. subst.
  inversion_clear HF as [|? ? [w Hw] Hk]. cbn in *. rewrite Hw. cbn. by rewrite IH.
Qed.

(** What was packed is unpacked: the value itself, at every level of
    nesting, from the [Any] without its cached value. *)
Theorem Pack_UnpackAny depth registry rt v any :
  packable depth registry rt v -> NewAnyWithValue v = Ok any ->
  UnpackAny depth registry rt (MkAny (TypeUrl any) (Value any) (Any_unrecognized any) None) = Ok (Some v, any).
Proof.
  revert rt v any. induction depth as [|depth IH]; intros rt v any; [done|].
  intros (Hreg & (bz & raw & Hm & Hu & Hraw & Hre) & Hall) Ha. unfold NewAnyWithValue in Ha. rewrite Hm in Ha.
  injection Ha as <-. cbn [UnpackAny TypeUrl Value Any_unrecognized]. rewrite bool_decide_false by done.
  unfold cached_as. cbn [cachedValue]. rewrite Hreg. cbn [mbind res_bind]. rewrite Hu. cbn [mbind res_bind].
  rewrite (unpack_all_packed _ _ _ (packed v)); [cbn; by rewrite Hre|done|].
  eapply Forall_impl; [exact Hall|]. intros [rt' a'] (w & Hw & Hp). exists w. by apply IH.
Qed.

(** Two interfaces may register different types under one URL: no panic, and
    [Resolve] answers with the last one only. *)
Theorem Resolve_overwritten i1 i2 url v1 v2 registry registry1 registry2 :
  i1 <> i2 -> RegisterCustomTypeURL i1 url v1 registry = (Ok tt, registry1) ->
  RegisterCustomTypeURL i2 url v2 registry1 = (Ok tt, registry2) ->
  Resolve registry2 url = Ok (TypeOf v2) /\ registered_type registry2 i1 url = Ok (TypeOf v1).
Proof.
  unfold RegisterCustomTypeURL, registerImpl. intros Hne H1 H2.
  repeat case_match; try discriminate; injection H1 as <-; injection H2 as <-;
    (split; [unfold Resolve; cbn; by rewrite lookup_insert_eq|]);
    unfold registered_type; cbn; by rewrite lookup_insert_ne, !lookup_insert_eq.
Qed.
End Properties.

(* ------------------------------------------------------------------ *)
(** * A small set of messages

    Text and envelopes that hold another message; 0 is an interface that both
    implement, 1 one that only texts implement. *)
Inductive Letter := Text (bs : bytes) | Envelope (content : option (Any Letter)).

#[global] Instance Letter_proto : ProtoMessage Letter := {|
  MessageName v := match v with Text _ => "letter.Text" | Envelope _ => "letter.Envelope" end;
  proto_Marshal v := Ok match v with Text bs => bs | Envelope a => match a with None => [] | Some a => Any_Marshal a end end;
|}.
#[global] Instance Letter_messages : ProtoMessages nat Letter := {|
  TypeOf v := match v with Text _ => 2%nat | Envelope _ => 3%nat end;
  is_interface t := (t <? 2)%nat;
  AssignableTo t i := match i with 0%nat => true | 1%nat => (t =? 2)%nat | _ => (t =? i)%nat end;
  proto_Unmarshal t bs :=
    match t with
    | 2%nat => Ok (Text bs)
    | 3%nat => match bs with [] => Ok (Envelope None) | _ => a ← Any_Unmarshal empty_Any bs; Ok (Envelope (Some a)) end
    | _ => Err "unknown type"
    end;
  packed v := match v with Envelope (Some a) => [(0%nat, a)] | _ => [] end;
  repack v anys := match v, anys with Envelope (Some _), a :: _ => Envelope (Some a) | _, _ => v end;
|}.

Lemma Letter_laws : @proto_laws nat Letter _ _ _.
Proof.
  split.
  - intros [|[|[|[|typ]]]] bs v; cbn; try discriminate; [by intros [= <-]|].
    destruct bs; [by intros [= <-]|]. intros H. by apply bind_Ok in H as (a & _ & [= <-]).
  - by intros [bs|[a|]] [|a' anys].
  - intros [|[|[|[|typ]]]] bs v; cbn; try discriminate; [intros [= <-]; constructor|].
    destruct bs as [|b bs]; [intros [= <-]; constructor|]. intros H. apply bind_Ok in H as (a & Ha & [= <-]).
    constructor; [|constructor]. cbn. apply Any_Unmarshal_shorter in Ha as [->|Ha]; cbn in *; [lia|lia|done].
Qed.

Definition letter_ops : list (@registration nat Letter) :=
  [Interface "letter.Any" 0%nat [Text []; Envelope None]; Implementations 1%nat [Text []]].
Definition letter_registry : @interfaceRegistry nat _ _ := register_all letter_ops NewInterfaceRegistry.
(** An envelope in an envelope. *)
Definition pack (v : Letter) : Any Letter :=
  match NewAnyWithValue v with Ok a => a | _ => empty_Any end.
Definition parcel : Letter := Envelope (Some (pack (Envelope (Some (pack (Text [1; 2])))))).

Lemma UnpackAny_typed_witness :
  AssignableTo (TypeOf (Text [1; 2])) 1%nat = true.
Proof.
  apply (UnpackAny_typed Letter_laws letter_ops 5 1%nat (ClearCachedValue (pack (Text [1; 2]))) (Text [1; 2]) (pack (Text [1; 2]))).
  vm_compute. reflexivity.
Defined.

Lemma UnpackAny_depth_witness :
  UnpackAny 100 letter_registry 0%nat (ClearCachedValue (pack parcel)) =
  UnpackAny 200 letter_registry 0%nat (ClearCachedValue (pack parcel)).
Proof. apply (UnpackAny_depth Letter_laws); vm_compute; lia. Defined.

Lemma Pack_UnpackAny_witness :
  UnpackAny 3 letter_registry 0%nat (ClearCachedValue (pack parcel)) = Ok (Some parcel, pack parcel).
Proof.
  apply Pack_UnpackAny; [|reflexivity]. cbn [packable].
  split; [vm_compute; reflexivity|]. split.
  { eexists _, _. split; [reflexivity|]. split; [vm_compute; reflexivity|]. split; [repeat constructor|reflexivity]. }
  constructor; [|constructor]. eexists. split; [reflexivity|].
  split; [vm_compute; reflexivity|]. split.
  { eexists _, _. split; [reflexivity|]. split; [vm_compute; reflexivity|]. split; [repeat constructor|reflexivity]. }
  constructor; [|constructor]. eexists. split; [reflexivity|].
  split; [vm_compute; reflexivity|]. split; [|constructor].
  eexists _, _. split; [reflexivity|]. split; [vm_compute; reflexivity|]. split; [constructor|reflexivity].
Defined.

Lemma Resolve_overwritten_witness :
  exists registry, RegisterCustomTypeURL 1%nat "/x" (Text []) letter_registry = (Ok tt, registry) /\
  exists registry', RegisterCustomTypeURL 0%nat "/x" (Envelope None) registry = (Ok tt, registry') /\
  Resolve registry' "/x" = Ok 3%nat /\ registered_type registry' 1%nat "/x" = Ok 2%nat.
Proof.
  eexists. split; [reflexivity|]. eexists. split; [reflexivity|].
  exact (Resolve_overwritten 1%nat 0%nat "/x" (Text []) (Envelope None) letter_registry _ _ ltac:(done) eq_refl eq_refl).
Defined.
