(* ===== verification/UnknownProto.v ===== *)
(** Rejecting unknown fields ([codec/unknownproto/unknown_fields.go]): the walk
    over an encoded message along the descriptor of its type, through nested
    messages and [Any]s, with its three caches.

    [google.golang.org/protobuf/encoding/protowire] and the descriptors, which
    gogo protobuf reads from compressed data, are parameters. *)
From S2P Require Import Prelude GoStrings Wire Decoding Keys Multisig TxTypes TxProto.

(** [descriptor.FieldDescriptorProto_Type] *)
Inductive FieldType :=
| TYPE_DOUBLE | TYPE_FLOAT | TYPE_INT64 | TYPE_UINT64 | TYPE_INT32 | TYPE_FIXED64 | TYPE_FIXED32 | TYPE_BOOL
| TYPE_STRING | TYPE_GROUP | TYPE_MESSAGE | TYPE_BYTES | TYPE_UINT32 | TYPE_ENUM | TYPE_SFIXED32 | TYPE_SFIXED64
| TYPE_SINT32 | TYPE_SINT64.
#[global] Instance FieldType_eq : EqDecision FieldType.
Proof. solve_decision. Defined.

Record FieldDescriptorProto := MkField { Number : Z; GetType : FieldType; GetTypeName : string }.
Inductive DescriptorProto := MkDescriptorProto (Field : list FieldDescriptorProto) (NestedType : list DescriptorProto).
Definition desc_Field (d : DescriptorProto) : list FieldDescriptorProto := match d with MkDescriptorProto f _ => f end.
Definition desc_NestedType (d : DescriptorProto) : list DescriptorProto := match d with MkDescriptorProto _ n => n end.

(** [protowire]: a field number, a wire type and a length; lengths are negative
    when the bytes are malformed. *)
Class ProtoWire := {
  ConsumeTag : bytes -> Z * Z * Z;
  ConsumeFieldValue : Z -> Z -> bytes -> Z;
  ConsumeVarint : bytes -> Z * Z;
}.

(** Go types of messages and their descriptors: [None] for a type without a
    [Descriptor] method, else the compressed file descriptor and the indices of
    the message in it. *)
Class Descriptors (T : Type) `{Countable T} := {
  Descriptor : T -> option (bytes * list nat);
  read_file_descriptor : bytes -> res (list DescriptorProto);
  MessageType : string -> option T;
  implements_Message : T -> bool;
  AnyType : T;
  IsScalar : FieldDescriptorProto -> bool;
}.

(* ------------------------------------------------------------------ *)
(** * Wire types *)

(** The table [checks]. *)
Definition checks (wireType : Z) : list FieldType :=
  if wireType =? 0 then
    [TYPE_INT32; TYPE_INT64; TYPE_UINT32; TYPE_UINT64; TYPE_SINT32; TYPE_SINT64; TYPE_BOOL; TYPE_ENUM]
  else if wireType =? 1 then [TYPE_FIXED64; TYPE_SFIXED64; TYPE_DOUBLE]
  else if wireType =? 2 then
    [TYPE_STRING; TYPE_BYTES; TYPE_MESSAGE; TYPE_INT32; TYPE_INT64; TYPE_UINT32; TYPE_UINT64; TYPE_SINT32; TYPE_SINT64;
     TYPE_BOOL; TYPE_ENUM; TYPE_FIXED64; TYPE_SFIXED64; TYPE_DOUBLE]
  else if wireType =? 3 then [TYPE_GROUP]
  else if wireType =? 4 then [TYPE_GROUP]
  else if wireType =? 5 then [TYPE_FIXED32; TYPE_SFIXED32; TYPE_FLOAT]
  else [].
Definition len_checks : Z := 6.
Definition canEncodeType (wireType : Z) (descType : FieldType) : bool :=
  if (wireType <? 0) || (len_checks <=? wireType) then false else bool_decide (descType ∈ checks wireType).

Definition wireTypeToString (wt : Z) : string :=
  if wt =? 0 then "varint" else if wt =? 1 then "fixed64" else if wt =? 2 then "bytes"
  else if wt =? 3 then "start_group" else if wt =? 4 then "end_group" else if wt =? 5 then "fixed32"
  else "unknown type: %d".

(** The errors of the walk. *)
Inductive reject_error :=
| NoDescriptor
| BadDescriptor (e : string)
| InvalidLength
| MismatchedWireType (TagNum : Z) (GotWireType : Z)
| UnknownField (TagNum : Z) (WireType : Z)
| NoTypeName (typ : FieldType)
| BadAny (e : string)
| NoMessageType (e : string).
Definition reject_Error (e : reject_error) : string :=
  match e with
  | NoDescriptor => "%T does not have a Descriptor() method"
  | InvalidLength => "invalid length"
  | MismatchedWireType _ got => "Mismatched %q: {TagNum: %d, GotWireType: " +:+ wireTypeToString got +:+ " != WantWireType: %q}"
  | UnknownField _ wt => "errUnknownField %q: {TagNum: %d, WireType:" +:+ wireTypeToString wt +:+ "}"
  | NoTypeName _ => "failed to get typename for message of type %v, can only be TYPE_STRING or TYPE_BYTES"
  | BadDescriptor e | BadAny e | NoMessageType e => e
  end.

(** [1 << 10] *)
Definition bit11NonCritical : Z := 1024.

(** [bz[:n]] and [bz[n:]] *)
Definition slice_to (bz : bytes) (n : Z) : res bytes :=
  if (n <? 0) || (Z.of_nat (length bz) <? n) then Panic "slice bounds out of range" else Ok (take (Z.to_nat n) bz).
Definition slice_from (bz : bytes) (n : Z) : res bytes :=
  if (n <? 0) || (Z.of_nat (length bz) <? n) then Panic "slice bounds out of range" else Ok (drop (Z.to_nat n) bz).
(** [s[1:]] *)
Definition tail_from_1 (s : string) : res string :=
  match s with EmptyString => Panic "slice bounds out of range" | String _ s => Ok s end.

Section Reject.
Context `{D : Descriptors T} `{W : ProtoWire}.

(* ------------------------------------------------------------------ *)
(** * Descriptors and their caches *)

Record caches := MkCaches {
  protoMessageForTypeNameCache : gmap string T;
  protoFileToDesc : gmap bytes (list DescriptorProto);
  descprotoCache : gmap T (gmap Z FieldDescriptorProto);
}.

Definition protoMessageForTypeName (protoMessageName : string) : ST caches T := fun c =>
  match protoMessageForTypeNameCache c !! protoMessageName with
  | Some msg => (Ok msg, c)
  | None =>
      match MessageType protoMessageName with
      | None => (Err "failed to retrieve the message of type %q", c)
      | Some msg =>
          if negb (implements_Message msg) then (Err "%q does not implement proto.Message", c)
          else (Ok msg, MkCaches (<[protoMessageName := msg]> (protoMessageForTypeNameCache c)) (protoFileToDesc c) (descprotoCache c))
      end
  end.

Definition at_index {A} (l : list A) (i : nat) : res A :=
  match l !! i with Some a => Ok a | None => Panic index_out_of_range end.
Definition unnestDesc (mdescs : list DescriptorProto) (indices : list nat) : res DescriptorProto :=
  match indices with
  | [] => Panic index_out_of_range
  | i :: indices => d ← at_index mdescs i; for_each (fun d i => at_index (desc_NestedType d) i) d indices
  end.
Definition extractFileDescMessageDesc (desc : bytes * list nat) : ST caches DescriptorProto := fun c =>
  let '(gzippedPb, indices) := desc in
  match protoFileToDesc c !! gzippedPb with
  | Some cached => (unnestDesc cached indices, c)
  | None =>
      match read_file_descriptor gzippedPb with
      | Ok fdesc =>
          (unnestDesc fdesc indices,
           MkCaches (protoMessageForTypeNameCache c) (<[gzippedPb := fdesc]> (protoFileToDesc c)) (descprotoCache c))
      | Err e => (Err e, c)
      | Panic p => (Panic p, c)
      end
  end.

Definition index_fields (md : DescriptorProto) : gmap Z FieldDescriptorProto :=
  foldl (fun m field => <[Number field := field]> m) ∅ (desc_Field md).
Definition cache_fields (msg : T) (fields : gmap Z FieldDescriptorProto) : ST caches (gmap Z FieldDescriptorProto) := fun c =>
  (Ok fields, MkCaches (protoMessageForTypeNameCache c) (protoFileToDesc c) (<[msg := fields]> (descprotoCache c))).
Definition read_fields (desc : bytes * list nat) (msg : T) : ST caches (gmap Z FieldDescriptorProto) :=
  extractFileDescMessageDesc desc ≫= fun md => cache_fields msg (index_fields md).
Definition getDescriptorInfo (desc : bytes * list nat) (msg : T) : ST caches (gmap Z FieldDescriptorProto) := fun c =>
  match descprotoCache c !! msg with
  | Some got => (Ok got, c)
  | None => read_fields desc msg c
  end.

(* ------------------------------------------------------------------ *)
(** * The walk *)

(** [hasUnknownNonCriticals] and the error. *)
Definition verdict : Type := bool * option reject_error.

(** The start of a call: [walk] is the loop over the fields. *)
Definition enter (walk : gmap Z FieldDescriptorProto -> bytes -> ST caches verdict) (bz : bytes) (msg : T) : ST caches verdict :=
  match bz with
  | [] => mret (false, None)
  | _ =>
      match Descriptor msg with
      | None => mret (false, Some NoDescriptor)
      | Some desc =>
          fields ← attempt (getDescriptorInfo desc msg);
          match fields with
          | Ok fields => walk fields bz
          | Err e => mret (false, Some (BadDescriptor e))
          | Panic p => lift (Panic p)
          end
      end
  end.

(** What a key allows: a known field of the right wire type, or an unknown one
    that may be skipped; [has] is the flag after it. *)
Definition check_key (allow : bool) (fields : gmap Z FieldDescriptorProto) (tagNum wireType : Z) (has : bool)
    : verdict * option FieldDescriptorProto :=
  match fields !! tagNum with
  | Some fd =>
      if canEncodeType wireType (GetType fd) then ((has, None), Some fd)
      else ((has, Some (MismatchedWireType tagNum wireType)), Some fd)
  | None =>
      let isCriticalField := Z.land tagNum bit11NonCritical =? 0 in
      let has := has || negb isCriticalField in
      if isCriticalField || negb allow then ((has, Some (UnknownField tagNum wireType)), None) else ((has, None), None)
  end.

(** The body of the loop after the key for a field that is not skipped:
    [reject] is the recursive call on a nested message. *)
Definition check_nested (reject : bytes -> T -> ST caches verdict) (fd : FieldDescriptorProto) (fieldBytes : bytes) (has : bool)
    : ST caches verdict :=
  if bool_decide (GetTypeName fd = "") then
    match GetType fd with
    | TYPE_STRING | TYPE_BYTES => mret (has, None)
    | typ => mret (has, Some (NoTypeName typ))
    end
  else
    fieldBytes ← lift (slice_from fieldBytes (snd (ConsumeVarint fieldBytes)));
    '(has, err, name, fieldBytes) ←
      (if bool_decide (GetTypeName fd = ".google.protobuf.Any") then
         '(child, err) ← reject fieldBytes AnyType;
         let has := has || child in
         match err with
         | Some e => mret (has, Some e, "", [])
         | None =>
             any ← attempt (lift (@Any_Unmarshal unit empty_Any fieldBytes));
             match any with
             | Ok any => mret (has, None, TypeUrl any, Value any)
             | Err e => mret (has, Some (BadAny e), "", [])
             | Panic p => lift (Panic p)
             end
         end
       else mret (has, None, GetTypeName fd, fieldBytes));
    match err with
    | Some e => mret (has, Some e)
    | None =>
        name ← lift (tail_from_1 name);
        msg ← attempt (protoMessageForTypeName name);
        match msg with
        | Ok msg => '(child, err) ← reject fieldBytes msg; mret (has || child, err)
        | Err e => mret (has, Some (NoMessageType e))
        | Panic p => lift (Panic p)
        end
    end.

Definition out_of_fuel : string := "out of fuel".

(** The loop: [fuel] bounds the fields and the nesting together. *)
Fixpoint reject_loop (fuel : nat) (allow : bool) (fields : gmap Z FieldDescriptorProto) (has : bool) (bz : bytes)
    : ST caches verdict :=
  match bz with
  | [] => mret (has, None)
  | _ =>
      match fuel with
      | O => lift (Err out_of_fuel)
      | S fuel =>
          let '(tagNum, wireType, m) := ConsumeTag bz in
          if m <? 0 then mret (has, Some InvalidLength) else
          let '((has, err), fd) := check_key allow fields tagNum wireType has in
          match err with
          | Some e => mret (has, Some e)
          | None =>
              bz ← lift (slice_from bz m);
              let n := ConsumeFieldValue tagNum wireType bz in
              fieldBytes ← lift (slice_to bz n);
              bz ← lift (slice_from bz n);
              match fd with
              | None => reject_loop fuel allow fields has bz
              | Some fd =>
                  if IsScalar fd then reject_loop fuel allow fields has bz else
                  '(has, err) ← check_nested (fun bz msg => enter (fun fields bz => reject_loop fuel allow fields false bz) bz msg)
                                  fd fieldBytes has;
                  match err with
                  | Some e => mret (has, Some e)
                  | None => reject_loop fuel allow fields has bz
                  end
              end
          end
      end
  end.

Definition RejectUnknownFields (bz : bytes) (msg : T) (allow : bool) : ST caches verdict :=
  enter (fun fields bz => reject_loop (length bz) allow fields false bz) bz msg.
Definition RejectUnknownFieldsStrict (bz : bytes) (msg : T) : ST caches (option reject_error) :=
  '(_, err) ← RejectUnknownFields bz msg false; mret err.
End Reject.

(* ------------------------------------------------------------------ *)
(** * The caches are transparent *)
Section Caches.
Context `{D : Descriptors T} `{W : ProtoWire}.
Implicit Types c : @caches T _ _.

Definition no_caches : @caches T _ _ := MkCaches ∅ ∅ ∅.

(** What the caches stand for. *)
Definition message_of (name : string) : res T :=
  match MessageType name with
  | None => Err "failed to retrieve the message of type %q"
  | Some msg => if implements_Message msg then Ok msg else Err "%q does not implement proto.Message"
  end.
Definition fields_of (desc : bytes * list nat) : res (gmap Z FieldDescriptorProto) :=
  fdesc ← read_file_descriptor (fst desc); md ← unnestDesc fdesc (snd desc); Ok (index_fields md).

Record caches_ok c : Prop := {
  names_ok : forall name msg, protoMessageForTypeNameCache c !! name = Some msg -> message_of name = Ok msg;
  files_ok : forall gz fdesc, protoFileToDesc c !! gz = Some fdesc -> read_file_descriptor gz = Ok fdesc;
  descs_ok : forall msg fields desc, descprotoCache c !! msg = Some fields -> Descriptor msg = Some desc -> fields_of desc = Ok fields;
}.
Lemma no_caches_ok : caches_ok no_caches.
Proof. split; intros *; cbn; by rewrite lookup_empty. Qed.

(** A computation that gives [r] whatever is cached. *)
Definition gives {A} (m : ST (@caches T _ _) A) (r : res A) : Prop :=
  forall c, caches_ok c -> exists c', m c = (r, c') /\ caches_ok c'.
Definition cache_independent {A} (m : ST (@caches T _ _) A) : Prop := exists r, gives m r.

Lemma gives_ret {A} (r : res A) : gives (lift r) r.
Proof. intros c Hc. by exists c. Qed.
Lemma gives_bind {A B} (m : ST caches A) (f : A -> ST caches B) r g :
  gives m r -> (forall a, r = Ok a -> gives (f a) (g a)) -> gives (m ≫= f) (r ≫= g).
Proof.
  intros Hm Hf c Hc. destruct (Hm c Hc) as (c1 & E & Hc1). unfold mbind at 1, st_bind. rewrite E.
  destruct r as [a|e|p]; [by apply Hf|by exists c1..].
Qed.
Lemma independent_lift {A} (r : res A) : cache_independent (lift r).
Proof. exists r. apply gives_ret. Qed.
Lemma independent_ret {A} (a : A) : cache_independent (mret a).
Proof. exists (Ok a). apply gives_ret. Qed.
Lemma independent_bind {A B} (m : ST caches A) (f : A -> ST caches B) :
  cache_independent m -> (forall a, cache_independent (f a)) -> cache_independent (m ≫= f).
Proof.
  intros [r Hm] Hf. destruct r as [a|e|p].
  - destruct (Hf a) as [r' Hr']. exists r'. apply (gives_bind m f (Ok a) (fun _ => r')); [done|]. by intros ? [= <-].
  - exists (Err e). by apply (gives_bind m f (Err e) (fun _ => Err e)).
  - exists (Panic p). by apply (gives_bind m f (Panic p) (fun _ => Panic p)).
Qed.
Lemma gives_attempt {A} (m : ST caches A) r : gives m r -> gives (attempt m) (match r with Panic p => Panic p | r => Ok r end).
Proof.
  intros Hm c Hc. destruct (Hm c Hc) as (c1 & E & Hc1). exists c1. unfold attempt. rewrite E. by destruct r.
Qed.
Lemma independent_attempt {A} (m : ST caches A) : cache_independent m -> cache_independent (attempt m).
Proof. intros [r Hm]. eexists. by apply gives_attempt. Qed.

Lemma gives_name name : gives (protoMessageForTypeName name) (message_of name).
Proof.
  intros c Hc. unfold protoMessageForTypeName. destruct (_ !! name) as [msg|] eqn:E.
  { exists c. by rewrite (names_ok c Hc _ _ E). }
  unfold message_of. destruct (MessageType name) as [msg|] eqn:E1; [|by exists c].
  destruct (implements_Message msg) eqn:E2; [|by exists c]. eexists. split; [done|].
  split; cbn; [|apply Hc..]. intros name' msg'. destruct (decide (name = name')) as [<-|].
  - rewrite lookup_insert_eq. intros [= <-]. unfold message_of. by rewrite E1, E2.
  - rewrite lookup_insert_ne by done. apply Hc.
Qed.
Lemma gives_fields msg desc : Descriptor msg = Some desc -> gives (getDescriptorInfo desc msg) (fields_of desc).
Proof.
  intros Hd c Hc. unfold getDescriptorInfo. destruct (_ !! msg) as [fields|] eqn:E.
  { exists c. by rewrite (descs_ok c Hc _ _ _ E Hd). }
  assert (gives (read_fields desc msg) (fields_of desc)) as Hg; [|by apply Hg].
  unfold read_fields, fields_of. clear c Hc E. destruct desc as [gz indices]. cbn [fst snd].
  assert (gives (extractFileDescMessageDesc (gz, indices)) (fdesc ← read_file_descriptor gz; unnestDesc fdesc indices)) as Hx.
  { intros c Hc. unfold extractFileDescMessageDesc. destruct (_ !! gz) as [fdesc|] eqn:E.
    { exists c. by rewrite (files_ok c Hc _ _ E). }
    destruct (read_file_descriptor gz) as [fdesc|e|p] eqn:E1; [|by exists c..]. eexists. split; [done|].
    split; cbn; [apply Hc| |apply Hc]. intros gz' f'. destruct (decide (gz = gz')) as [<-|].
    - rewrite lookup_insert_eq. by intros [= <-].
    - rewrite lookup_insert_ne by done. apply Hc. }
  rewrite <-bind_assoc. apply gives_bind; [exact Hx|]. intros md Hmd c Hc. eexists. split; [done|].
  split; cbn; [apply Hc..|]. intros msg' fields' desc'. destruct (decide (msg = msg')) as [<-|].
  - rewrite lookup_insert_eq, Hd. intros [= <-] [= <-]. unfold fields_of. cbn [fst snd]. by rewrite <-bind_assoc, Hmd.
  - rewrite lookup_insert_ne by done. apply Hc.
Qed.

Lemma independent_enter walk bz msg :
  (forall fields, cache_independent (walk fields bz)) -> cache_independent (enter walk bz msg).
Proof.
  intros Hw. unfold enter. destruct bz; [apply independent_ret|].
  destruct (Descriptor msg) as [desc|] eqn:E; [|apply independent_ret].
  apply independent_bind; [apply independent_attempt; eexists; by apply gives_fields|].
  intros [fields|e|p]; [apply Hw|apply independent_ret|apply independent_lift].
Qed.
Lemma independent_nested reject fd fieldBytes has :
  (forall bz msg, cache_independent (reject bz msg)) -> cache_independent (check_nested reject fd fieldBytes has).
Proof.
  intros Hr. unfold check_nested. case_bool_decide; [destruct (GetType fd); apply independent_ret|].
  apply independent_bind; [apply independent_lift|]. intros fb. apply independent_bind.
  { case_bool_decide; [|apply independent_ret]. apply independent_bind; [apply Hr|].
    intros [child [e|]]; [apply independent_ret|].
    apply independent_bind; [apply independent_attempt, independent_lift|].
    intros [any|e|p]; [apply independent_ret..|apply independent_lift]. }
  intros [[[has' [e|]] name] fb']; [apply independent_ret|].
  apply independent_bind; [apply independent_lift|]. intros name'.
  apply independent_bind; [apply independent_attempt; eexists; apply gives_name|].
  intros [msg|e|p]; [|apply independent_ret|apply independent_lift].
  apply independent_bind; [apply Hr|]. intros [child err]. apply independent_ret.
Qed.
Lemma independent_loop fuel allow fields has bz : cache_independent (reject_loop fuel allow fields has bz).
Proof.
  revert fields has bz. induction fuel as [|fuel IH]; intros fields has [|b bz]; cbn [reject_loop];
    [apply independent_ret|apply independent_lift|apply independent_ret|].
  destruct (ConsumeTag (b :: bz)) as [[tagNum wt] m]. destruct (m <? 0); [apply independent_ret|].
  destruct (check_key allow fields tagNum wt has) as [[has' [e|]] fd]; [apply independent_ret|].
  do 3 (apply independent_bind; [apply independent_lift|]; intros ?).
  destruct fd as [fd|]; [|apply IH]. destruct (IsScalar fd); [apply IH|].
  apply independent_bind; [apply independent_nested; intros; by apply independent_enter|].
  intros [has2 [e|]]; [apply independent_ret|apply IH].
Qed.

(** The verdict without any cache. *)
Definition verdict_of (bz : bytes) (msg : T) (allow : bool) : res verdict := fst (RejectUnknownFields bz msg allow no_caches).

Lemma verdict_cached bz msg allow c :
  caches_ok c -> exists c', RejectUnknownFields bz msg allow c = (verdict_of bz msg allow, c') /\ caches_ok c'.
Proof.
  intros Hc. destruct (independent_enter (fun fields bz => reject_loop (length bz) allow fields false bz) bz msg) as [r Hr].
  { intros fields. apply independent_loop. }
  destruct (Hr no_caches no_caches_ok) as (c0 & E0 & _). destruct (Hr c Hc) as (c' & E & Hc').
  exists c'. unfold verdict_of, RejectUnknownFields. by rewrite E0, E.
Qed.

(** C31: The caches do not change a verdict: after any sequence of earlier
    calls, on any bytes and types, successful or not, the result is the one of
    a first call. *)
Theorem RejectUnknownFields_cached calls bz msg allow :
  fst (RejectUnknownFields bz msg allow
         (foldl (fun c '(bz, msg, allow) => snd (RejectUnknownFields bz msg allow c)) no_caches calls)) =
  verdict_of bz msg allow.
Proof.
  assert (forall c, caches_ok c -> caches_ok (foldl (fun c '(bz, msg, allow) => snd (RejectUnknownFields bz msg allow c)) c calls)) as Hok.
  { induction calls as [|[[bz' msg'] allow'] calls IH]; intros c Hc; [done|]. cbn. apply IH.
    by destruct (verdict_cached bz' msg' allow' c Hc) as (c' & -> & ?). }
  by destruct (verdict_cached bz msg allow _ (Hok _ no_caches_ok)) as (c' & -> & _).
Qed.
End Caches.

(* ------------------------------------------------------------------ *)
(** * What is accepted

    Acceptance without fuel, caches and early returns: [fine allow msg bz has]
    says that [bz] has only fields that the type [msg] knows, or that may be
    skipped, at every level of nesting; [has] tells whether some were skipped. *)
Section Accepted.
Context `{D : Descriptors T} `{W : ProtoWire}.

(** The next field of a message: number, wire type, value and what follows. *)
Definition next_field (bz : bytes) : res (Z * Z * bytes * bytes) :=
  let '(tagNum, wireType, m) := ConsumeTag bz in
  if m <? 0 then Err "invalid length" else
  bz ← slice_from bz m;
  value ← slice_to bz (ConsumeFieldValue tagNum wireType bz);
  rest ← slice_from bz (ConsumeFieldValue tagNum wireType bz);
  Ok (tagNum, wireType, value, rest).
(** A nested message behind its length. *)
Definition nested_body (value : bytes) : res bytes := slice_from value (snd (ConsumeVarint value)).
Definition named_message (name : string) : res T := name ← tail_from_1 name; message_of name.

Inductive fine (allow : bool) : T -> bytes -> bool -> Prop :=
| fine_empty msg : fine allow msg [] false
| fine_message msg bz desc fields has :
    bz <> [] -> Descriptor msg = Some desc -> fields_of desc = Ok fields -> fine_fields allow fields bz has ->
    fine allow msg bz has
with fine_fields (allow : bool) : gmap Z FieldDescriptorProto -> bytes -> bool -> Prop :=
| fine_done fields : fine_fields allow fields [] false
| fine_unknown fields bz tagNum wireType value rest has :
    bz <> [] -> next_field bz = Ok (tagNum, wireType, value, rest) -> fields !! tagNum = None ->
    allow = true -> Z.land tagNum bit11NonCritical <> 0 -> fine_fields allow fields rest has ->
    fine_fields allow fields bz true
| fine_known fields bz tagNum wireType value rest fd has has' :
    bz <> [] -> next_field bz = Ok (tagNum, wireType, value, rest) -> fields !! tagNum = Some fd ->
    canEncodeType wireType (GetType fd) = true -> fine_value allow fd value has -> fine_fields allow fields rest has' ->
    fine_fields allow fields bz (has || has')
with fine_value (allow : bool) : FieldDescriptorProto -> bytes -> bool -> Prop :=
| fine_scalar fd value : IsScalar fd = true -> fine_value allow fd value false
| fine_bytes fd value :
    IsScalar fd = false -> GetTypeName fd = "" -> GetType fd = TYPE_STRING \/ GetType fd = TYPE_BYTES ->
    fine_value allow fd value false
| fine_nested fd value body msg has :
    IsScalar fd = false -> GetTypeName fd <> "" -> GetTypeName fd <> ".google.protobuf.Any" ->
    nested_body value = Ok body -> named_message (GetTypeName fd) = Ok msg -> fine allow msg body has ->
    fine_value allow fd value has
| fine_any fd value body any msg has has' :
    IsScalar fd = false -> GetTypeName fd = ".google.protobuf.Any" ->
    nested_body value = Ok body -> fine allow AnyType body has -> @Any_Unmarshal unit empty_Any body = Ok any ->
    named_message (TypeUrl any) = Ok msg -> fine allow msg (Value any) has' ->
    fine_value allow fd value (has || has').

Scheme fine_mut := Minimality for fine Sort Prop
with fine_fields_mut := Minimality for fine_fields Sort Prop
with fine_value_mut := Minimality for fine_value Sort Prop.
Combined Scheme fine_mutual from fine_mut, fine_fields_mut, fine_value_mut.

(** Without skipping, nothing unknown is left. *)
Lemma fine_strict :
  (forall msg bz has, fine false msg bz has -> has = false) /\
  (forall fields bz has, fine_fields false fields bz has -> has = false) /\
  (forall fd value has, fine_value false fd value has -> has = false).
Proof. apply fine_mutual; intros; subst; naive_solver. Qed.

(* ------------------------------------------------------------------ *)
(** ** Soundness *)

Lemma independent_ok {A} (m : ST caches A) c r c' : cache_independent m -> caches_ok c -> m c = (r, c') -> caches_ok c'.
Proof. intros [r0 Hm] Hc E. destruct (Hm c Hc) as (c1 & E1 & Hc1). rewrite E in E1. by injection E1 as -> ->. Qed.

Lemma enter_sound walk allow bz msg c has c' :
  caches_ok c -> (forall fields, cache_independent (walk fields bz)) ->
  (forall fields c c', caches_ok c -> walk fields bz c = (Ok (has, None), c') -> fine_fields allow fields bz has) ->
  enter walk bz msg c = (Ok (has, None), c') -> fine allow msg bz has.
Proof.
  intros Hc Hi Hw. unfold enter. destruct bz as [|b bz]; [intros [= <- _]; constructor|].
  destruct (Descriptor msg) as [desc|] eqn:Ed; [|by intros [=]].
  intros He. apply st_bind_Ok in He as (fields & c1 & Hf & He).
  destruct (gives_attempt _ _ (gives_fields msg desc Ed) c Hc) as (c2 & E2 & Hc2). rewrite E2 in Hf. injection Hf as Hf <-.
  destruct (fields_of desc) as [fs|e|p] eqn:Ef; simplify_eq.
  eapply fine_message; [done..|]. by eapply Hw.
Qed.

Lemma check_nested_sound allow reject fd value has c has' c' :
  caches_ok c -> (forall bz msg, cache_independent (reject bz msg)) ->
  (forall bz msg c h c', caches_ok c -> reject bz msg c = (Ok (h, None), c') -> fine allow msg bz h) ->
  IsScalar fd = false -> check_nested reject fd value has c = (Ok (has', None), c') ->
  exists h, fine_value allow fd value h /\ has' = has || h.
Proof.
  intros Hc Hi Hr Hs. unfold check_nested. case_bool_decide as Hn.
  { destruct (GetType fd) eqn:Et; intros [= <- _]; exists false; rewrite orb_false_r; (split; [|done]); apply fine_bytes; auto. }
  intros He. apply st_bind_Ok in He as (body & c1 & Hb & He). apply lift_Ok in Hb as [Hb ->].
  apply st_bind_Ok in He as ([[[h1 err] name] body'] & c2 & Hx & He).
  assert (err = None) as -> by (destruct err; [injection He; done|done]).
  apply st_bind_Ok in He as (name' & c3 & Ht & He). apply lift_Ok in Ht as [Ht ->].
  assert (caches_ok c2) as Hc2.
  { refine (independent_ok _ _ _ _ _ Hc Hx). case_bool_decide; [|apply independent_ret].
    apply independent_bind; [apply Hi|]. intros [ch [e|]]; [apply independent_ret|].
    apply independent_bind; [apply independent_attempt, independent_lift|].
    intros [a|e|p]; [apply independent_ret..|apply independent_lift]. }
  apply st_bind_Ok in He as (msg & c3 & Hm & He).
  destruct (gives_attempt _ _ (gives_name name') c2 Hc2) as (c4 & E4 & Hc4). rewrite E4 in Hm. injection Hm as Hm <-.
  destruct (message_of name') as [msg'|e|p] eqn:Em; simplify_eq.
  apply st_bind_Ok in He as ([ch err] & c5 & Hrej & He). injection He as <- -> <-. apply Hr in Hrej; [|done].
  assert (named_message name = Ok msg') as Hnm by (unfold named_message; by rewrite Ht).
  case_bool_decide as Hany.
  - apply st_bind_Ok in Hx as ([ch1 err1] & c6 & Hr1 & Hx). destruct err1; [by injection Hx|].
    apply Hr in Hr1; [|done]. apply st_bind_Ok in Hx as (any & c7 & Ha & Hx).
    apply attempt_Ok in Ha as [Ha _]. injection Ha as Ha <-.
    destruct any as [any|e|p]; [injection Hx as <- <- <- <-|by injection Hx|done].
    exists (ch1 || ch). rewrite orb_assoc. split; [|done]. by eapply fine_any.
  - injection Hx as <- <- <- <-. exists ch. split; [|done]. by eapply fine_nested.
Qed.

Lemma reject_loop_sound fuel allow fields has bz c has' c' :
  caches_ok c -> reject_loop fuel allow fields has bz c = (Ok (has', None), c') ->
  exists h, fine_fields allow fields bz h /\ has' = has || h.
Proof.
  revert fields has bz c has' c'. induction fuel as [|fuel IH]; intros fields has [|b bz] c has' c' Hc; cbn [reject_loop].
  1,3: intros [= <- _]; exists false; rewrite orb_false_r; split; [constructor|done].
  { discriminate. }
  destruct (ConsumeTag (b :: bz)) as [[tagNum wt] m] eqn:Et. destruct (m <? 0) eqn:Em; [by intros [=]|].
  destruct (check_key allow fields tagNum wt has) as [[h1 [e|]] fd] eqn:Ek; [by intros [=]|]. intros He.
  apply st_bind_Ok in He as (bz1 & c1 & H1 & He). apply lift_Ok in H1 as [H1 ->].
  apply st_bind_Ok in He as (value & c1 & H2 & He). apply lift_Ok in H2 as [H2 ->].
  apply st_bind_Ok in He as (rest & c1 & H3 & He). apply lift_Ok in H3 as [H3 ->].
  assert (next_field (b :: bz) = Ok (tagNum, wt, value, rest)) as Hnf.
  { unfold next_field. rewrite Et, Em, H1. cbn [mbind res_bind]. by rewrite H2, H3. }
  unfold check_key in Ek. destruct (fields !! tagNum) as [fd'|] eqn:El.
  - destruct (canEncodeType wt (GetType fd')) eqn:Ec; [|discriminate]. injection Ek as Eh Ef. subst h1 fd.
    destruct (IsScalar fd') eqn:Es.
    { apply IH in He as (h & Hh & ->); [|done]. exists h. split; [|done].
      apply (fine_known allow fields _ tagNum wt value rest fd' false h); try done. by apply fine_scalar. }
    apply st_bind_Ok in He as ([h2 err] & c1 & Hn & He).
    destruct err as [e|]; [by injection He|].
    assert (forall bz msg, cache_independent (enter (fun fields bz => reject_loop fuel allow fields false bz) bz msg)) as Hi.
    { intros. apply independent_enter. intros. apply independent_loop. }
    assert (caches_ok c1) as Hc1 by (refine (independent_ok _ _ _ _ _ Hc Hn); by apply independent_nested).
    eapply (check_nested_sound allow) in Hn as (h3 & Hv & ->); [|done|exact Hi| |done].
    { apply IH in He as (h & Hh & ->); [|done]. exists (h3 || h). rewrite orb_assoc. split; [|done]. by eapply fine_known. }
    intros bz' msg' c2 h c3 Hc2 Hen. eapply enter_sound in Hen; [done|done|intros; apply independent_loop|].
    intros fields' c4 c5 Hc4 Hl. by apply IH in Hl as (h' & Hh & ->).
  - destruct (Z.eqb_spec (Z.land tagNum bit11NonCritical) 0) as [|Hcrit]; [by cbn in Ek|].
    destruct allow; [|by cbn in Ek]. cbn in Ek. rewrite orb_true_r in Ek. injection Ek as <- <-.
    apply IH in He as (h & Hh & ->); [|done]. exists true. cbn. rewrite orb_true_r. split; [|done].
    by eapply fine_unknown.
Qed.
End Accepted.

(* ------------------------------------------------------------------ *)
(** ** Completeness *)
Section Complete.
Context `{D : Descriptors T} `{W : ProtoWire}.

(** A key has at least one byte. *)
Definition tag_law : Prop := forall bz t w m, ConsumeTag bz = (t, w, m) -> 0 <= m -> 0 < m.
Context (Htag : tag_law) (allow : bool).

Lemma gives_bind_Ok {A B} (m : ST caches A) (f : A -> ST caches B) a r :
  gives m (Ok a) -> gives (f a) r -> gives (m ≫= f) r.
Proof. intros Hm Hf. apply (gives_bind m f (Ok a) (fun _ => r)); [done|]. by intros ? [= <-]. Qed.
Lemma gives_lift_bind {A B} (x : res A) (f : A -> ST caches B) a r :
  x = Ok a -> gives (f a) r -> gives (lift x ≫= f) r.
Proof. intros ->. apply gives_bind_Ok, gives_ret. Qed.
Lemma gives_attempt_Ok {A B} (m : ST caches A) (f : res A -> ST caches B) a r :
  gives m (Ok a) -> gives (f (Ok a)) r -> gives (attempt m ≫= f) r.
Proof. intros Hm. apply gives_bind_Ok. by apply (gives_attempt m (Ok a)). Qed.

Lemma slice_split bz n a b : slice_to bz n = Ok a -> slice_from bz n = Ok b -> bz = a ++ b.
Proof. unfold slice_to, slice_from. destruct (_ || _); [done|]. intros [= <-] [= <-]. by rewrite take_drop. Qed.
Lemma slice_from_length bz n b : slice_from bz n = Ok b -> Z.of_nat (length b) = Z.of_nat (length bz) - n.
Proof.
  unfold slice_from. destruct (Z.ltb_spec n 0), (Z.ltb_spec (Z.of_nat (length bz)) n); try discriminate.
  intros [= <-]. rewrite length_drop. lia.
Qed.
Lemma next_field_shorter bz t w value rest :
  next_field bz = Ok (t, w, value, rest) -> (length value + length rest < length bz)%nat.
Proof using Htag.
  unfold next_field. destruct (ConsumeTag bz) as [[t' w'] m] eqn:E. destruct (Z.ltb_spec m 0); [discriminate|].
  intros Hn. apply bind_Ok in Hn as (bz1 & H1 & Hn). apply bind_Ok in Hn as (v & H2 & Hn).
  apply bind_Ok in Hn as (r & H3 & [= -> -> -> ->]). pose proof (Htag _ _ _ _ E ltac:(lia)).
  apply slice_from_length in H1. rewrite (slice_split _ _ _ _ H2 H3), length_app in H1. lia.
Qed.

Definition walk_with (fuel : nat) (bz : bytes) (msg : T) : ST caches verdict :=
  enter (fun fields bz => reject_loop fuel allow fields false bz) bz msg.

Lemma gives_step fuel fields has bz t w value rest r :
  bz <> [] -> next_field bz = Ok (t, w, value, rest) ->
  (forall h fd, check_key allow fields t w has = ((h, None), fd) ->
     gives (match fd with
            | None => reject_loop fuel allow fields h rest
            | Some fd =>
                if IsScalar fd then reject_loop fuel allow fields h rest else
                '(has, err) ← check_nested (walk_with fuel) fd value h;
                match err with Some e => mret (has, Some e) | None => reject_loop fuel allow fields has rest end
            end) r) ->
  snd (fst (check_key allow fields t w has)) = None ->
  gives (reject_loop (S fuel) allow fields has bz) r.
Proof.
  intros Hne Hn Hr Hk. destruct bz as [|b bz]; [done|]. cbn [reject_loop]. unfold next_field in Hn.
  destruct (ConsumeTag (b :: bz)) as [[t' w'] m]. destruct (m <? 0); [discriminate|].
  apply bind_Ok in Hn as (bz1 & H1 & Hn). apply bind_Ok in Hn as (v & H2 & Hn).
  apply bind_Ok in Hn as (r' & H3 & [= -> -> -> ->]).
  destruct (check_key allow fields t w has) as [[h [e|]] fd]; [done|].
  eapply gives_lift_bind; [exact H1|]. eapply gives_lift_bind; [exact H2|]. eapply gives_lift_bind; [exact H3|].
  by apply Hr.
Qed.

Lemma nested_body_length value body : nested_body value = Ok body -> (length body <= length value)%nat.
Proof.
  unfold nested_body, slice_from. destruct (_ || _); [done|]. intros [= <-]. rewrite length_drop. lia.
Qed.
Lemma gives_name_bind {B} name name' msg (f : res T -> ST caches B) r :
  tail_from_1 name = Ok name' -> named_message name = Ok msg -> gives (f (Ok msg)) r ->
  gives (attempt (protoMessageForTypeName name') ≫= f) r.
Proof.
  unfold named_message. intros -> Hm. cbn [mbind res_bind] in Hm. apply gives_attempt_Ok. rewrite <-Hm. apply gives_name.
Qed.
Lemma named_tail name msg : named_message name = Ok msg -> exists name', tail_from_1 name = Ok name'.
Proof. unfold named_message. intros Hm. apply bind_Ok in Hm as (n & Hn & _). by exists n. Qed.

(** A nested message whose body is accepted. *)
Lemma gives_nested fuel fd value body msg has has0 :
  GetTypeName fd <> "" -> GetTypeName fd <> ".google.protobuf.Any" -> nested_body value = Ok body ->
  named_message (GetTypeName fd) = Ok msg -> gives (walk_with fuel body msg) (Ok (has, None)) ->
  gives (check_nested (walk_with fuel) fd value has0) (Ok (has0 || has, None)).
Proof.
  intros Hne Hna Hb Hm Hw. unfold check_nested. rewrite bool_decide_false by done.
  eapply gives_lift_bind; [exact Hb|]. rewrite bool_decide_false by done. eapply gives_bind_Ok; [apply (gives_ret (Ok _))|].
  destruct (named_tail _ _ Hm) as [name' Ht]. eapply gives_lift_bind; [exact Ht|].
  eapply gives_name_bind; [exact Ht|exact Hm|]. eapply gives_bind_Ok; [exact Hw|]. apply (gives_ret (Ok _)).
Qed.
Lemma gives_any fuel fd value body any msg h1 h2 has0 :
  GetTypeName fd = ".google.protobuf.Any" -> nested_body value = Ok body ->
  gives (walk_with fuel body AnyType) (Ok (h1, None)) -> @Any_Unmarshal unit empty_Any body = Ok any ->
  named_message (TypeUrl any) = Ok msg -> gives (walk_with fuel (Value any) msg) (Ok (h2, None)) ->
  gives (check_nested (walk_with fuel) fd value has0) (Ok (has0 || (h1 || h2), None)).
Proof.
  intros Hn Hb Hw1 Ha Hm Hw2. unfold check_nested. rewrite bool_decide_false by (by rewrite Hn).
  eapply gives_lift_bind; [exact Hb|]. rewrite bool_decide_true by done. eapply gives_bind_Ok.
  { eapply gives_bind_Ok; [exact Hw1|]. eapply gives_attempt_Ok; [rewrite Ha; apply gives_ret|]. apply (gives_ret (Ok _)). }
  destruct (named_tail _ _ Hm) as [name' Ht]. eapply gives_lift_bind; [exact Ht|].
  eapply gives_name_bind; [exact Ht|exact Hm|]. eapply gives_bind_Ok; [exact Hw2|].
  rewrite orb_assoc. apply (gives_ret (Ok _)).
Qed.

Lemma fine_complete :
  (forall msg bz has, fine allow msg bz has ->
     forall fuel, (length bz <= fuel)%nat -> gives (walk_with fuel bz msg) (Ok (has, None))) /\
  (forall fields bz has, fine_fields allow fields bz has ->
     forall fuel has0, (length bz <= fuel)%nat -> gives (reject_loop fuel allow fields has0 bz) (Ok (has0 || has, None))) /\
  (forall fd value has, fine_value allow fd value has ->
     forall fuel has0, (length value <= fuel)%nat -> IsScalar fd = false ->
     gives (check_nested (walk_with fuel) fd value has0) (Ok (has0 || has, None))).
Proof using Htag.
  apply fine_mutual.
  - intros msg fuel _. apply (gives_ret (Ok _)).
  - intros msg bz desc fields has Hne Hd Hf _ IH fuel Hl. unfold walk_with, enter. destruct bz as [|b bz]; [done|].
    rewrite Hd. eapply gives_attempt_Ok; [rewrite <-Hf; by apply gives_fields|]. by apply (IH fuel false).
  - intros fields fuel has0 _. rewrite orb_false_r. destruct fuel; apply (gives_ret (Ok _)).
  - intros fields bz t w value rest has Hne Hn Hnone Ha Hcrit _ IH [|fuel] has0 Hl; [by destruct bz; [|cbn in Hl; lia]|].
    pose proof (next_field_shorter _ _ _ _ _ Hn). apply Z.eqb_neq in Hcrit.
    apply (gives_step fuel fields has0 bz t w value rest); [done..| |]; unfold check_key; rewrite Hnone, Hcrit;
      replace (negb allow) with false by (by rewrite Ha); [|done].
    cbn. intros h fd [= <- <-]. rewrite !orb_true_r. apply (IH fuel true). lia.
  - intros fields bz t w value rest fd has has' Hne Hn Hsome Henc Hv IHv _ IH [|fuel] has0 Hl; [by destruct bz; [|cbn in Hl; lia]|].
    pose proof (next_field_shorter _ _ _ _ _ Hn).
    apply (gives_step fuel fields has0 bz t w value rest); [done..| |]; unfold check_key; rewrite Hsome, Henc; [|done].
    intros h fd' [= <- <-]. destruct (IsScalar fd) eqn:Es.
    + inversion Hv; subst; try congruence. rewrite orb_false_l. apply IH. lia.
    + eapply gives_bind_Ok; [apply IHv; [lia|done]|]. cbn. rewrite orb_assoc. apply IH. lia.
  - intros fd value Hs fuel has0 _ Hs'. congruence.
  - intros fd value Hs Hn Ht fuel has0 _ _. unfold check_nested. rewrite bool_decide_true, orb_false_r by done.
    destruct Ht as [-> | ->]; apply (gives_ret (Ok _)).
  - intros fd value body msg has Hs Hne Hna Hb Hm _ IH fuel has0 Hl _. apply nested_body_length in Hb as Hlb.
    eapply gives_nested; [done..|]. apply IH. lia.
  - intros fd value body any msg h1 h2 Hs Hn Hb _ IH1 Ha Hm _ IH2 fuel has0 Hl _. apply nested_body_length in Hb as Hlb.
    eapply gives_any; [done..|apply IH1; lia|done|done|]. apply IH2.
    apply Any_Unmarshal_shorter in Ha as [->|?]; [cbn; lia|lia|done].
Qed.

Lemma verdict_fine bz msg has : verdict_of bz msg allow = Ok (has, None) <-> fine allow msg bz has.
Proof using Htag.
  split.
  - intros Hv. unfold verdict_of, RejectUnknownFields in Hv.
    destruct (enter _ bz msg no_caches) as [r c'] eqn:E. cbn in Hv. subst r.
    eapply enter_sound in E; [done|apply no_caches_ok|intros; apply independent_loop|].
    intros fields c c1 Hc Hl. by apply reject_loop_sound in Hl as (h & Hh & ->).
  - intros Hf. destruct (proj1 fine_complete msg bz has Hf (length bz) (le_n _) no_caches no_caches_ok) as (c' & E & _).
    unfold verdict_of.
    assert (RejectUnknownFields bz msg allow = walk_with (length bz) bz msg) as -> by by destruct bz. by rewrite E.
Qed.

(** C6: A message is accepted exactly when all its fields are known to the
    type, or may be skipped, at every level of nesting, messages in [Any]s
    included; the flag says whether a field was skipped.  In strict mode none
    ever is. *)
Theorem RejectUnknownFields_accepts bz msg has :
  (verdict_of bz msg allow = Ok (has, None) <-> fine allow msg bz has) /\ (allow = false -> fine allow msg bz has -> has = false).
Proof using Htag.
  split; [apply verdict_fine|]. intros -> Hf. by apply fine_strict in Hf.
Qed.
End Complete.

(* ------------------------------------------------------------------ *)
(** ** Ending and panicking *)
Section Ends.
Context `{D : Descriptors T} `{W : ProtoWire} (Htag : tag_law).

(** The only Go error that is not part of a verdict is running out of fuel. *)
Definition no_err {A} (m : ST (@caches T _ _) A) : Prop := forall c e, fst (m c) <> Err e.
Lemma no_err_ret {A} (a : A) : no_err (mret a).
Proof. intros c e. discriminate. Qed.
Lemma no_err_bind {A B} (m : ST caches A) (f : A -> ST caches B) :
  no_err m -> (forall a c c', m c = (Ok a, c') -> no_err (f a)) -> no_err (m ≫= f).
Proof.
  intros Hm Hf c e. unfold mbind, st_bind. destruct (m c) as [[a|e'|p] c'] eqn:E; [|by specialize (Hm c e'); rewrite E in Hm|done].
  by eapply Hf.
Qed.
Lemma no_err_attempt {A} (m : ST caches A) : no_err (attempt m).
Proof. intros c e. unfold attempt. by destruct (m c) as [[a|e'|p] c']. Qed.
Lemma no_err_panic {A} p : no_err (lift (Panic p : res A)).
Proof. intros c e. discriminate. Qed.
Lemma no_err_slice_to bz n : no_err (lift (slice_to bz n)).
Proof. intros c e. unfold slice_to. cbn. by destruct (_ || _). Qed.
Lemma no_err_slice_from bz n : no_err (lift (slice_from bz n)).
Proof. intros c e. unfold slice_from. cbn. by destruct (_ || _). Qed.
Lemma no_err_tail s : no_err (lift (tail_from_1 s)).
Proof. intros c e. by destruct s. Qed.
Hint Resolve no_err_ret no_err_attempt no_err_panic no_err_slice_to no_err_slice_from no_err_tail : core.

Lemma no_err_enter walk bz msg : (forall fields, no_err (walk fields bz)) -> no_err (enter walk bz msg).
Proof.
  intros Hw. unfold enter. destruct bz; [done|]. destruct (Descriptor msg) as [desc|]; [|done].
  apply no_err_bind; [done|]. by intros [fields|e|p] c c' _.
Qed.
Lemma no_err_nested reject fd value has :
  (forall bz msg, (length bz <= length value)%nat -> no_err (reject bz msg)) -> no_err (check_nested reject fd value has).
Proof.
  intros Hr. unfold check_nested. case_bool_decide; [by destruct (GetType fd)|].
  apply no_err_bind; [done|]. intros body c0 c0' Hb. injection Hb as Hb _. apply nested_body_length in Hb.
  apply no_err_bind.
  { case_bool_decide; [|done]. apply no_err_bind; [by apply Hr|]. intros [child [e|]] c c' _; [done|].
    apply no_err_bind; [done|]. by intros [any|e|p] c1 c1' _. }
  intros [[[has' [e|]] name] body'] c1 c1' Hx; [done|].
  assert (length body' <= length body)%nat as Hlen.
  { revert Hx. case_bool_decide; [|by intros [= _ _ -> _]]. intros Hx.
    apply st_bind_Ok in Hx as ([child [e|]] & c2 & _ & Hx); [by injection Hx|].
    apply st_bind_Ok in Hx as (any & c3 & Ha & Hx). apply attempt_Ok in Ha as [Ha _]. injection Ha as Ha _.
    destruct any as [any|e|p]; [injection Hx as _ _ <- _|by injection Hx|done].
    apply Any_Unmarshal_shorter in Ha as [->|?]; [cbn; lia|lia|done]. }
  apply no_err_bind; [done|]. intros name' c2 c2' _. apply no_err_bind; [done|].
  intros [msg|e|p] c3 c3' _; [|done..]. apply no_err_bind; [apply Hr; lia|]. by intros [child err] c4 c4' _.
Qed.
Lemma no_err_loop fuel allow fields has bz : (length bz <= fuel)%nat -> no_err (reject_loop fuel allow fields has bz).
Proof using Htag.
  revert fields has bz. induction fuel as [|fuel IH]; intros fields has [|b bz] Hl; cbn [reject_loop]; try done.
  { cbn in Hl. lia. }
  destruct (ConsumeTag (b :: bz)) as [[t w] m] eqn:Et. destruct (Z.ltb_spec m 0) as [|Hm]; [done|].
  pose proof (Htag _ _ _ _ Et Hm) as Hpos.
  destruct (check_key allow fields t w has) as [[h [e|]] fd]; [done|].
  apply no_err_bind; [done|]. intros bz1 c c1 H1. injection H1 as H1 _. apply slice_from_length in H1. cbn [length] in *.
  apply no_err_bind; [done|]. intros value c2 c3 H2. injection H2 as H2 _.
  apply no_err_bind; [done|]. intros rest c4 c5 H3. injection H3 as H3 _.
  rewrite (slice_split _ _ _ _ H2 H3), length_app in H1.
  destruct fd as [fd|]; [|apply IH; lia]. destruct (IsScalar fd); [apply IH; lia|].
  apply no_err_bind; [|intros [has2 [e|]] c6 c7 _; [done|apply IH; lia]].
  apply no_err_nested. intros bz' msg' Hl'. apply no_err_enter. intros fields'. apply IH. lia.
Qed.

(** C30: The walk over arbitrary bytes ends: it returns a verdict, or it panics;
    the fuel, one unit for every byte, is never used up. *)
Theorem RejectUnknownFields_ends bz msg allow :
  (exists v, verdict_of bz msg allow = Ok v) \/ (exists p, verdict_of bz msg allow = Panic p).
Proof using Htag.
  assert (no_err (RejectUnknownFields bz msg allow)) as Hn.
  { apply no_err_enter. intros fields. by apply no_err_loop. }
  specialize (Hn no_caches). unfold verdict_of. destruct (fst _) as [v|e|p]; [by left; exists v|by destruct (Hn e)|by right; exists p].
Qed.

Lemma verdict_cut_off bz msg allow desc fields t w m h fd :
  bz <> [] -> Descriptor msg = Some desc -> fields_of desc = Ok fields ->
  ConsumeTag bz = (t, w, m) -> 0 <= m <= Z.of_nat (length bz) ->
  check_key allow fields t w false = ((h, None), fd) ->
  ConsumeFieldValue t w (drop (Z.to_nat m) bz) < 0 ->
  verdict_of bz msg allow = Panic "slice bounds out of range".
Proof.
  intros Hne Hd Hf Ht Hm Hk Hv. unfold verdict_of.
  assert (gives (RejectUnknownFields bz msg allow) (Panic "slice bounds out of range")) as Hg.
  { unfold RejectUnknownFields, enter. destruct bz as [|b bz]; [done|]. rewrite Hd.
    eapply gives_attempt_Ok; [rewrite <-Hf; by apply gives_fields|]. cbn [length reject_loop]. rewrite Ht.
    rewrite (proj2 (Z.ltb_ge m 0)), Hk by lia.
    eapply gives_lift_bind; [unfold slice_from; rewrite (proj2 (Z.ltb_ge m 0)), (proj2 (Z.ltb_ge _ m)) by lia; done|].
    unfold slice_to. rewrite (proj2 (Z.ltb_lt _ 0)) by exact Hv. intros c Hc. by exists c. }
  by destruct (Hg no_caches no_caches_ok) as (c' & -> & _).
Qed.

(** A field whose value is cut off panics: the negative length that
    [protowire.ConsumeFieldValue] reports is used to slice the message.  An
    [Any] without a type URL panics as well. *)
Theorem RejectUnknownFields_panics :
  (forall bz msg allow desc fields t w m h fd,
     bz <> [] -> Descriptor msg = Some desc -> fields_of desc = Ok fields ->
     ConsumeTag bz = (t, w, m) -> 0 <= m <= Z.of_nat (length bz) ->
     check_key allow fields t w false = ((h, None), fd) ->
     ConsumeFieldValue t w (drop (Z.to_nat m) bz) < 0 ->
     verdict_of bz msg allow = Panic "slice bounds out of range") /\
  (forall fuel allow fd value body any has h c,
     caches_ok c -> IsScalar fd = false -> GetTypeName fd = ".google.protobuf.Any" -> nested_body value = Ok body ->
     gives (walk_with allow fuel body AnyType) (Ok (h, None)) -> @Any_Unmarshal unit empty_Any body = Ok any -> TypeUrl any = "" ->
     fst (check_nested (walk_with allow fuel) fd value has c) = Panic "slice bounds out of range").
Proof.
  split.
  - apply verdict_cut_off.
  - intros fuel allow fd value body any has h c Hc Hs Hn Hb Hw Ha Hu.
    assert (gives (check_nested (walk_with allow fuel) fd value has) (Panic "slice bounds out of range")) as Hg.
    { unfold check_nested. rewrite bool_decide_false by (by rewrite Hn).
      eapply gives_lift_bind; [exact Hb|]. rewrite bool_decide_true by done. eapply gives_bind_Ok.
      { eapply gives_bind_Ok; [exact Hw|]. eapply gives_attempt_Ok; [rewrite Ha; apply gives_ret|]. apply (gives_ret (Ok _)). }
      rewrite Hu. intros c' Hc'. by exists c'. }
    by destruct (Hg c Hc) as (c' & -> & _).
Qed.
End Ends.
