(* ===== verification/Sigs.v ===== *)
(** Signatures as transactions carry them: [types/tx/sigs.go] and the
    descriptor conversions of [types/tx/signing/signature.go]. *)
From S2P Require Import Prelude BitArray Wire Keys Multisig TxTypes.

(** [SignatureV2]; the nil public key is [None]. *)
Record SignatureV2 := MkSignatureV2 {
  sv2_PubKey : option PubKey; sv2_Data : SignatureData; sv2_Sequence : Z; SkipSequenceCheck : bool
}.

(** [SignatureDescriptor_Data]: nil [Sum], or one of the cases of the oneof. *)
Inductive SignatureDescriptor_Data :=
| Descriptor_nil
| Descriptor_Single (Mode : Z) (Signature : bytes)
| Descriptor_Multi (Bitarray : option CompactBitArray) (Signatures : list SignatureDescriptor_Data).

(** Mapping a fallible function over a slice, stopping at the first failure. *)
Definition map_res {A B} (f : A -> res B) : list A -> res (list B) :=
  fix go l := match l with
              | [] => Ok []
              | x :: l => y ← f x; ys ← go l; Ok (y :: ys)
              end.

Fixpoint SignatureDataToProto (data : SignatureData) : res SignatureDescriptor_Data :=
  match data with
  | SingleSignatureData mode sig => Ok (Descriptor_Single mode sig)
  | MultiData ba sigs => descDatas ← map_res SignatureDataToProto sigs; Ok (Descriptor_Multi ba descDatas)
  | NilData => Panic "unexpected case %+v"
  end.

Fixpoint SignatureDataFromProto (descData : SignatureDescriptor_Data) : res SignatureData :=
  match descData with
  | Descriptor_Single mode sig => Ok (SingleSignatureData mode sig)
  | Descriptor_Multi ba sigs => datas ← map_res SignatureDataFromProto sigs; Ok (MultiData ba datas)
  | Descriptor_nil => Panic "unexpected case %+v"
  end.

(** The mode info and the raw bytes of signature data. *)
Fixpoint SignatureDataToModeInfoAndSig (data : SignatureData) : ModeInfo * bytes :=
  match data with
  | NilData => (ModeInfo_ptr_nil, [])
  | SingleSignatureData mode sig => (ModeInfo_Single_ mode, sig)
  | MultiData ba sigs =>
      let both := map SignatureDataToModeInfoAndSig sigs in
      (ModeInfo_Multi_ ba (map fst both), MultiSignature_Marshal (MkMultiSignature (map snd both) []))
  end.

Definition decodeMultisignatures (bz : bytes) : res (list bytes) :=
  multisig ← MultiSignature_Unmarshal (MkMultiSignature [] []) bz;
  if bool_decide (XXX_unrecognized multisig = []) then Ok (ms_Signatures multisig)
  else Err "rejecting unrecognized fields found in MultiSignature".

(** The loop over the mode infos; [sigs[i]] panics when there are fewer
    signatures, and signatures without a mode info leave nil entries. *)
Definition pair_sigs (f : ModeInfo -> bytes -> res SignatureData) : list ModeInfo -> list bytes -> res (list SignatureData) :=
  fix go mis sigs :=
    match mis, sigs with
    | [], _ => Ok (map (fun _ => NilData) sigs)
    | _ :: _, [] => Panic index_out_of_range
    | mi :: mis, sig :: sigs => d ← f mi sig; ds ← go mis sigs; Ok (d :: ds)
    end.

Fixpoint ModeInfoAndSigToSignatureData (modeInfo : ModeInfo) (sig : bytes) : res SignatureData :=
  match modeInfo with
  | ModeInfo_ptr_nil => Panic nil_deref
  | ModeInfo_Sum_nil => Panic "unexpected ModeInfo data type %T"
  | ModeInfo_Single_ mode => Ok (SingleSignatureData mode sig)
  | ModeInfo_Multi_ ba mis =>
      sigs ← decodeMultisignatures sig;
      sigv2s ← pair_sigs ModeInfoAndSigToSignatureData mis sigs;
      Ok (MultiData ba sigv2s)
  end.

(** [SignatureDescriptor]; [MarshalSignatureJSON] and [UnmarshalSignatureJSON]
    up to the JSON text of the descriptors, which the library writes. *)
Record SignatureDescriptor := MkDescriptor {
  desc_PublicKey : option (Any PubKey); desc_Data : SignatureDescriptor_Data; desc_Sequence : Z
}.
Definition MarshalSignatureJSON (sigs : list SignatureV2) : res (list SignatureDescriptor) :=
  map_res (fun sig =>
    any ← PubKeyToAny (sv2_PubKey sig);
    descData ← SignatureDataToProto (sv2_Data sig);
    Ok (MkDescriptor (Some any) descData 0)) sigs.
(** [desc.PublicKey.GetCachedValue().(crypto.PubKey)] with a failed assertion
    ignored; a nil [Any] is dereferenced. *)
Definition UnmarshalSignatureJSON (descs : list SignatureDescriptor) : res (list SignatureV2) :=
  map_res (fun desc =>
    any ← deref (desc_PublicKey desc);
    data ← SignatureDataFromProto (desc_Data desc);
    Ok (MkSignatureV2 (cachedValue any) data (desc_Sequence desc) false)) descs.

(* ------------------------------------------------------------------ *)
(** * Induction over nested data *)

Section SigInd.
Variable P : SignatureData -> Prop.
Hypothesis Hs : forall mode sig, P (SingleSignatureData mode sig).
Hypothesis Hm : forall ba sigs, Forall P sigs -> P (MultiData ba sigs).
Hypothesis Hn : P NilData.
Fixpoint SignatureData_nested_ind (s : SignatureData) : P s :=
  match s with
  | SingleSignatureData mode sig => Hs mode sig
  | MultiData ba sigs =>
      Hm ba sigs ((fix go sigs := match sigs return Forall P sigs with
                                  | [] => Forall_nil_2 _
                                  | s :: sigs => Forall_cons_2 _ _ _ (SignatureData_nested_ind s) (go sigs)
                                  end) sigs)
  | NilData => Hn
  end.
End SigInd.

(** No nil interface anywhere in the data. *)
Fixpoint no_nil (s : SignatureData) : bool :=
  match s with
  | NilData => false
  | SingleSignatureData _ _ => true
  | MultiData _ sigs => forallb no_nil sigs
  end.

Lemma forallb_Forall_true {A} (f : A -> bool) l : forallb f l = true <-> Forall (fun x => f x = true) l.
Proof. rewrite forallb_forall, Forall_forall. split; intros H x Hx; apply H; by apply list_elem_of_In. Qed.

Lemma map_res_cons {A B} (f : A -> res B) x l :
  map_res f (x :: l) = (y ← f x; ys ← map_res f l; Ok (y :: ys)).
Proof. done. Qed.

Lemma map_res_inverse {A B} (f : A -> res B) (g : B -> res A) l :
  Forall (fun x => exists y, f x = Ok y /\ g y = Ok x) l ->
  exists ys, map_res f l = Ok ys /\ map_res g ys = Ok l.
Proof.
  induction 1 as [|x l (y & Hf & Hg) _ (ys & IHf & IHg)]; [by exists []|].
  exists (y :: ys). unfold map_res in *. rewrite Hf. cbn [mbind res_bind]. rewrite IHf. split; [done|].
  rewrite Hg. cbn [mbind res_bind]. by rewrite IHg.
Qed.

Lemma proto_roundtrip d :
  no_nil d = true -> exists p, SignatureDataToProto d = Ok p /\ SignatureDataFromProto p = Ok d.
Proof.
  induction d as [mode sig|ba sigs IH|] using SignatureData_nested_ind; [by eexists| |done].
  cbn [no_nil]. rewrite forallb_Forall_true. intros Hn.
  destruct (map_res_inverse SignatureDataToProto SignatureDataFromProto sigs) as (ps & H1 & H2).
  { rewrite Forall_forall in IH, Hn |- *. intros x Hx. by apply IH, Hn. }
  exists (Descriptor_Multi ba ps). cbn [SignatureDataToProto SignatureDataFromProto].
  rewrite H1. cbn [mbind res_bind]. by rewrite H2.
Qed.

Lemma rep_bytes_elem_length tag bss bs :
  bs ∈ bss -> (length bs <= length (rep_bytes tag bss []))%nat.
Proof.
  induction bss as [|x bss IH]; [by intros ?%elem_of_nil|]. intros [->|Hin]%elem_of_cons; cbn [rep_bytes foldr];
    unfold put_bytes; cbn [length]; rewrite !length_app; [lia|]. specialize (IH Hin). unfold rep_bytes, put_bytes in IH. lia.
Qed.

Lemma mode_info_roundtrip d :
  no_nil d = true -> Z.of_nat (length (snd (SignatureDataToModeInfoAndSig d))) < 2 ^ 62 ->
  ModeInfoAndSigToSignatureData (fst (SignatureDataToModeInfoAndSig d)) (snd (SignatureDataToModeInfoAndSig d)) = Ok d.
Proof.
  induction d as [mode sig|ba sigs IH|] using SignatureData_nested_ind; [done| |done].
  cbn [no_nil SignatureDataToModeInfoAndSig fst snd ModeInfoAndSigToSignatureData].
  rewrite forallb_Forall_true. intros Hn H62. set (both := map SignatureDataToModeInfoAndSig sigs) in *.
  unfold decodeMultisignatures. rewrite MultiSignature_decodes by done.
  cbn [mbind res_bind XXX_unrecognized ms_Signatures]. rewrite bool_decide_true by done. cbn [mbind res_bind].
  assert (pair_sigs ModeInfoAndSigToSignatureData (map fst both) (map snd both) = Ok sigs) as ->; [|done].
  assert (Forall (fun bs => Z.of_nat (length bs) < 2 ^ 62) (map snd both)) as Hlen.
  { apply Forall_forall. intros bs Hbs. apply Z.le_lt_trans with (2 := H62).
    apply Nat2Z.inj_le, rep_bytes_elem_length, Hbs. }
  clear H62. unfold both in *. clear both. induction sigs as [|s sigs IHs]; [done|].
  apply Forall_cons in IH as [IH IHl], Hn as [Hn Hnl]. cbn [map] in Hlen |- *.
  apply Forall_cons in Hlen as [Hl Hlen]. unfold pair_sigs in *. rewrite IH by done. cbn [mbind res_bind].
  by rewrite IHs.
Qed.

(* ------------------------------------------------------------------ *)
(** * Properties *)

(** Signature data survives a transaction.  Splitting signature data of any
    nesting into a mode info and raw bytes and joining them again returns the
    data, bit arrays included, provided no part of it is nil and the raw bytes
    are of a length a machine holds; the descriptor conversion used for JSON is
    lossless under the same condition and panics on nil parts. *)
Theorem SignatureData_roundtrip d :
  (no_nil d = true -> Z.of_nat (length (snd (SignatureDataToModeInfoAndSig d))) < 2 ^ 62 ->
     ModeInfoAndSigToSignatureData (fst (SignatureDataToModeInfoAndSig d)) (snd (SignatureDataToModeInfoAndSig d)) = Ok d) /\
  (no_nil d = true -> exists p, SignatureDataToProto d = Ok p /\ SignatureDataFromProto p = Ok d) /\
  (no_nil d = false -> panics (SignatureDataToProto d) = true).
Proof.
  split; [apply mode_info_roundtrip|]. split; [apply proto_roundtrip|].
  induction d as [mode sig|ba sigs IH|] using SignatureData_nested_ind; [done| |done].
  cbn [no_nil SignatureDataToProto]. intros Hn.
  assert (panics (map_res SignatureDataToProto sigs) = true) as Hp; [|by destruct (map_res _ sigs)].
  induction IH as [|s sigs Hs _ IH]; [done|]. cbn [forallb] in Hn. rewrite map_res_cons.
  destruct (no_nil s) eqn:E.
  - destruct (proto_roundtrip s E) as (p & -> & _). cbn [mbind res_bind]. specialize (IH Hn).
    by destruct (map_res SignatureDataToProto sigs).
  - specialize (Hs eq_refl). by destruct (SignatureDataToProto s).
Qed.

Lemma SignatureData_roundtrip_witness :
  let d := MultiData (Some (MkBitArray 3 [160])) [SingleSignatureData 1 [7; 7]; MultiData None []] in
  ModeInfoAndSigToSignatureData (fst (SignatureDataToModeInfoAndSig d)) (snd (SignatureDataToModeInfoAndSig d)) = Ok d.
Proof.
  apply (proj1 (SignatureData_roundtrip (MultiData (Some (MkBitArray 3 [160])) [SingleSignatureData 1 [7; 7]; MultiData None []])));
    vm_compute; reflexivity.
Defined.

(** Raw signatures are checked against the mode infos only in part: unknown
    fields in the multisignature are refused, so extra bytes cannot be attached;
    signatures beyond the mode infos become nil entries, and mode infos beyond
    the signatures make the conversion panic instead of returning an error. *)
Theorem ModeInfo_mismatch ba mis sigs raw :
  (forall m, MultiSignature_Unmarshal (MkMultiSignature [] []) raw = Ok m -> XXX_unrecognized m <> [] ->
     exists e, ModeInfoAndSigToSignatureData (ModeInfo_Multi_ ba mis) raw = Err e) /\
  (Z.of_nat (length (MultiSignature_Marshal (MkMultiSignature sigs []))) < 2 ^ 62 ->
   let singles := map ModeInfo_Single_ (replicate (length mis) 1) in
   ModeInfoAndSigToSignatureData (ModeInfo_Multi_ ba singles) (MultiSignature_Marshal (MkMultiSignature sigs [])) =
   if (length sigs <? length mis)%nat then Panic index_out_of_range
   else Ok (MultiData ba (map (SingleSignatureData 1) (take (length mis) sigs) ++
                          replicate (length sigs - length mis) NilData))).
Proof.
  split.
  - intros m Hm Hu. cbn [ModeInfoAndSigToSignatureData]. unfold decodeMultisignatures. rewrite Hm. cbn [mbind res_bind].
    rewrite bool_decide_false by done. by eexists.
  - intros H62 singles. cbn [ModeInfoAndSigToSignatureData]. unfold decodeMultisignatures.
    rewrite MultiSignature_decodes by done. cbn [mbind res_bind XXX_unrecognized ms_Signatures].
    rewrite bool_decide_true by done. cbn [mbind res_bind]. clear H62. unfold singles. clear singles.
    assert (forall n l, pair_sigs ModeInfoAndSigToSignatureData (map ModeInfo_Single_ (replicate n 1)) l =
      if (length l <? n)%nat then Panic index_out_of_range
      else Ok (map (SingleSignatureData 1) (take n l) ++ replicate (length l - n) NilData)) as E.
    { unfold pair_sigs. induction n as [|n IH]; intros l; cbn [replicate map].
      - cbn. f_equal. rewrite Nat.sub_0_r. induction l as [|x l IHl]; [done|]. cbn. by rewrite IHl.
      - destruct l as [|x l]; [done|]. cbn [ModeInfoAndSigToSignatureData mbind res_bind]. rewrite IH.
        cbn [length]. change (S (length l) <? S n)%nat with (length l <? n)%nat. by destruct (length l <? n)%nat. }
    rewrite E. by destruct (length sigs <? length mis)%nat.
Qed.

Lemma ModeInfo_mismatch_witness :
  ModeInfoAndSigToSignatureData (ModeInfo_Multi_ None [ModeInfo_Single_ 1; ModeInfo_Single_ 1])
    (MultiSignature_Marshal (MkMultiSignature [[5]] [])) = Panic index_out_of_range.
Proof.
  apply (proj2 (ModeInfo_mismatch None [ModeInfo_Single_ 1; ModeInfo_Single_ 1] [[5]] [])). vm_compute. reflexivity.
Defined.

(** Signatures written as JSON lose their sequence number.  For signatures
    with keys and complete data, writing and reading return the same keys and
    data but the sequence number 0, because [MarshalSignatureJSON] does not fill
    the descriptor's sequence that [UnmarshalSignatureJSON] reads. *)
Theorem SignatureJSON_drops_sequence sigs :
  Forall (fun s => is_Some (sv2_PubKey s) /\ no_nil (sv2_Data s) = true) sigs ->
  (MarshalSignatureJSON sigs ≫= UnmarshalSignatureJSON) =
  Ok (map (fun s => MkSignatureV2 (sv2_PubKey s) (sv2_Data s) 0 false) sigs).
Proof.
  unfold MarshalSignatureJSON, UnmarshalSignatureJSON.
  induction 1 as [|[pk d seq sk] sigs [[k Hk] Hd] _ IH]; [done|]. cbn [sv2_PubKey sv2_Data] in *. subst pk. rewrite map_res_cons.
  cbn [PubKeyToAny sv2_PubKey sv2_Data NewAnyWithValue proto_Marshal PubKey_message mbind res_bind].
  destruct (proto_roundtrip d Hd) as (p & E1 & E2). rewrite E1. cbn [mbind res_bind]. revert IH.
  destruct (map_res _ sigs) as [descs|e|e]; cbn [mbind res_bind]; [|done|done].
  intros IH. rewrite map_res_cons. cbn [desc_PublicKey deref desc_Data desc_Sequence cachedValue mbind res_bind]. rewrite E2.
  cbn [mbind res_bind]. by rewrite IH.
Qed.

Lemma SignatureJSON_drops_sequence_witness :
  (MarshalSignatureJSON [MkSignatureV2 (Some (Ed25519Key [1])) (SingleSignatureData 1 [2]) 41 false]
     ≫= UnmarshalSignatureJSON) = Ok [MkSignatureV2 (Some (Ed25519Key [1])) (SingleSignatureData 1 [2]) 0 false].
Proof.
  apply (SignatureJSON_drops_sequence [MkSignatureV2 (Some (Ed25519Key [1])) (SingleSignatureData 1 [2]) 41 false]).
  repeat constructor. by eexists.
Defined.
