(* ===== verification/TxBuilder.v ===== *)
(** Building, encoding and signing transactions: the [wrapper] of
    [types/tx/builder.go] with its cached encodings, the checks of
    [types/tx/types.go], the encoder ([encoder.go]) and the sign mode handlers
    ([direct.go], [mode_handler.go], [types/handler_map.go]). *)
From S2P Require Import Prelude GoStrings SdkInt CoinSet Coins BitArray Wire Keys Multisig Address TxTypes Sigs.

(** What the builder asks of a message ([sdk.Msg]); [GetSigners] may panic. *)
Class MsgInterface (Msg : Type) := {
  msg_proto :: ProtoMessage Msg;
  msg_GetSigners : Msg -> res (list bytes);
}.

(** [MaxGasWanted] *)
Definition MaxGasWanted : Z := 2 ^ 63 - 1.

Definition SIGN_MODE_UNSPECIFIED : Z := 0.
Definition SIGN_MODE_DIRECT : Z := 1.
Definition SIGN_MODE_LEGACY_AMINO_JSON : Z := 127.

(* ------------------------------------------------------------------ *)
(** * Transactions *)
Section Tx.
Context `{MsgInterface Msg} `{B : Bech32Lib}.

(** [any.GetCachedValue().(sdk.Msg)] *)
Definition Tx_GetMsgs (t : Tx Msg) : res (list Msg) :=
  match Body t with
  | None => Ok []
  | Some body =>
      map_res (fun any => match cachedValue any with
                          | Some m => Ok m
                          | None => Panic "interface conversion: interface is nil, not types.Msg"
                          end) (Messages body)
  end.

(** The signers of the messages without repetitions: [seen] is the set of the
    texts of the signers so far. *)
Definition add_signer (st : list bytes * gset string) (addr : bytes) : res (list bytes * gset string) :=
  let '(signers, seen) := st in
  s ← Acc_String addr;
  if bool_decide (s ∈ seen) then Ok (signers, seen) else Ok (signers ++ [addr], {[ s ]} ∪ seen).
Definition Tx_GetSigners (t : Tx Msg) : res (list bytes) :=
  msgs ← Tx_GetMsgs t;
  '(signers, _) ← for_each (fun st msg => addrs ← msg_GetSigners msg; for_each add_signer st addrs) ([], ∅) msgs;
  Ok signers.

Definition Tx_ValidateBasic (t : Tx Msg) : res unit :=
  match Body t, TxAuthInfo t with
  | None, _ => Err "missing TxBody"
  | _, None => Err "missing AuthInfo"
  | _, Some authInfo =>
      match AuthFee authInfo with
      | None => Err "missing fee"
      | Some fee =>
          if MaxGasWanted <? GasLimit fee then Err "invalid gas supplied; %d > %d" else
          neg ← Coins_IsAnyNegative (fee_Amount fee);
          if (neg : bool) then Err "invalid fee provided: %s" else
          match TxSignatures t with
          | [] => Err "no signatures supplied"
          | sigs =>
              signers ← Tx_GetSigners t;
              check (length sigs =? length signers)%nat "wrong number of signers; expected %d, got %d"
          end
      end
  end.

(* ------------------------------------------------------------------ *)
(** * The builder *)

Record wrapper := MkWrapper {
  tx : Tx Msg;
  bodyBz : bytes;
  authInfoBz : bytes;
  txBodyHasUnknownNonCriticals : bool;
}.

Definition newBuilder : wrapper :=
  MkWrapper (MkTx (Some (MkTxBody [] "" 0 [] [])) (Some (MkAuthInfo [] (Some (MkFee [] 0 "" "")))) []) [] [] false.
Definition WrapTx (protoTx : Tx Msg) : wrapper := MkWrapper protoTx [] [] false.

Definition nil_message : string := "proto: Marshal called with nil".

(** The cached encodings, filled when empty. *)
Definition getBodyBytes (w : wrapper) : res (bytes * wrapper) :=
  match bodyBz w with
  | [] =>
      match Body (tx w) with
      | None => Panic nil_message
      | Some body =>
          let bz := TxBody_Marshal body in
          Ok (bz, MkWrapper (tx w) bz (authInfoBz w) (txBodyHasUnknownNonCriticals w))
      end
  | bz => Ok (bz, w)
  end.
Definition getAuthInfoBytes (w : wrapper) : res (bytes * wrapper) :=
  match authInfoBz w with
  | [] =>
      match TxAuthInfo (tx w) with
      | None => Panic nil_message
      | Some info =>
          bz ← AuthInfo_Marshal info;
          Ok (bz, MkWrapper (tx w) (bodyBz w) bz (txBodyHasUnknownNonCriticals w))
      end
  | bz => Ok (bz, w)
  end.

(** Assignments to a field of the body, of the auth info and of the fee: each
    drops the cached encoding. *)
Definition set_body (f : TxBody Msg -> TxBody Msg) (w : wrapper) : res wrapper :=
  body ← deref (Body (tx w));
  Ok (MkWrapper (MkTx (Some (f body)) (TxAuthInfo (tx w)) (TxSignatures (tx w))) [] (authInfoBz w)
        (txBodyHasUnknownNonCriticals w)).
Definition set_auth (f : AuthInfo -> AuthInfo) (w : wrapper) : res wrapper :=
  info ← deref (TxAuthInfo (tx w));
  Ok (MkWrapper (MkTx (Body (tx w)) (Some (f info)) (TxSignatures (tx w))) (bodyBz w) []
        (txBodyHasUnknownNonCriticals w)).
Definition set_fee (f : Fee -> Fee) : wrapper -> res wrapper :=
  set_auth (fun info => MkAuthInfo (SignerInfos info) (Some (f (default (MkFee [] 0 "" "") (AuthFee info))))).

Definition SetMsgs (msgs : list Msg) (w : wrapper) : res wrapper :=
  anys ← map_res NewAnyWithValue msgs;
  set_body (fun b => MkTxBody anys (Memo b) (TimeoutHeight b) (ExtensionOptions b) (NonCriticalExtensionOptions b)) w.
Definition SetTimeoutHeight (height : Z) : wrapper -> res wrapper :=
  set_body (fun b => MkTxBody (Messages b) (Memo b) height (ExtensionOptions b) (NonCriticalExtensionOptions b)).
Definition SetMemo (memo : string) : wrapper -> res wrapper :=
  set_body (fun b => MkTxBody (Messages b) memo (TimeoutHeight b) (ExtensionOptions b) (NonCriticalExtensionOptions b)).
Definition SetExtensionOptions (extOpts : list (Any Msg)) : wrapper -> res wrapper :=
  set_body (fun b => MkTxBody (Messages b) (Memo b) (TimeoutHeight b) extOpts (NonCriticalExtensionOptions b)).
Definition SetNonCriticalExtensionOptions (extOpts : list (Any Msg)) : wrapper -> res wrapper :=
  set_body (fun b => MkTxBody (Messages b) (Memo b) (TimeoutHeight b) (ExtensionOptions b) extOpts).
Definition SetGasLimit (limit : Z) : wrapper -> res wrapper :=
  set_fee (fun f => MkFee (fee_Amount f) limit (Payer f) (Granter f)).
Definition SetFeeAmount (coins : list Coin) : wrapper -> res wrapper :=
  set_fee (fun f => MkFee coins (GasLimit f) (Payer f) (Granter f)).
Definition SetFeePayer (feePayer : bytes) (w : wrapper) : res wrapper :=
  _ ← deref (TxAuthInfo (tx w));
  s ← Acc_String feePayer; set_fee (fun f => MkFee (fee_Amount f) (GasLimit f) s (Granter f)) w.
Definition SetFeeGranter (feeGranter : bytes) (w : wrapper) : res wrapper :=
  _ ← deref (TxAuthInfo (tx w));
  s ← Acc_String feeGranter; set_fee (fun f => MkFee (fee_Amount f) (GasLimit f) (Payer f) s) w.

Definition setSignerInfos (infos : list SignerInfo) : wrapper -> res wrapper :=
  set_auth (fun info => MkAuthInfo infos (AuthFee info)).
Definition setSignatures (sigs : list bytes) (w : wrapper) : wrapper :=
  MkWrapper (MkTx (Body (tx w)) (TxAuthInfo (tx w)) sigs) (bodyBz w) (authInfoBz w) (txBodyHasUnknownNonCriticals w).

Definition signer_info (sig : SignatureV2) : res (SignerInfo * bytes) :=
  let '(modeInfo, raw) := SignatureDataToModeInfoAndSig (sv2_Data sig) in
  any ← PubKeyToAny (sv2_PubKey sig);
  Ok (MkSignerInfo (Some any) modeInfo (sv2_Sequence sig), raw).
Definition SetSignatures (signatures : list SignatureV2) (w : wrapper) : res wrapper :=
  infos ← map_res signer_info signatures;
  w ← setSignerInfos (map fst infos) w;
  Ok (setSignatures (map snd infos) w).

(** Reading. *)
Definition GetPubKeys (w : wrapper) : res (list (option PubKey)) :=
  info ← deref (TxAuthInfo (tx w));
  Ok (map (fun si => match si_PublicKey si with None => None | Some any => cachedValue any end) (SignerInfos info)).

Fixpoint signatures_loop (infos : list SignerInfo) (pubKeys : list (option PubKey)) (sigs : list bytes)
    : res (list SignatureV2) :=
  match infos, pubKeys with
  | si :: infos, pk :: pubKeys =>
      r ← match si_ModeInfo si with
          | ModeInfo_ptr_nil => Ok (MkSignatureV2 pk NilData 0 false)
          | mi =>
              match sigs with
              | [] => Panic index_out_of_range
              | sig :: _ => sigData ← ModeInfoAndSigToSignatureData mi sig; Ok (MkSignatureV2 pk sigData (si_Sequence si) false)
              end
          end;
      rs ← signatures_loop infos pubKeys (tail sigs);
      Ok (r :: rs)
  | _, _ => Ok []
  end.
Definition GetSignaturesV2 (w : wrapper) : res (list SignatureV2) :=
  info ← deref (TxAuthInfo (tx w));
  pubKeys ← GetPubKeys w;
  signatures_loop (SignerInfos info) pubKeys (TxSignatures (tx w)).

Definition fee_of (w : wrapper) : res Fee := info ← deref (TxAuthInfo (tx w)); deref (AuthFee info).
Definition GetGas (w : wrapper) : res Z := f ← fee_of w; Ok (GasLimit f).
Definition GetFee (w : wrapper) : res (list Coin) := f ← fee_of w; Ok (fee_Amount f).
Definition GetMemo (w : wrapper) : res string := b ← deref (Body (tx w)); Ok (Memo b).
Definition GetTimeoutHeight (w : wrapper) : res Z := b ← deref (Body (tx w)); Ok (TimeoutHeight b).
Definition GetSigners (w : wrapper) : res (list bytes) := Tx_GetSigners (tx w).
Definition FeePayer (w : wrapper) : res bytes :=
  f ← fee_of w;
  if bool_decide (Payer f = "") then
    signers ← GetSigners w;
    match signers with [] => Panic index_out_of_range | s :: _ => Ok s end
  else must (AccAddressFromBech32 (Payer f)).
(** The nil address is [None]. *)
Definition FeeGranter (w : wrapper) : res (option bytes) :=
  f ← fee_of w;
  if bool_decide (Granter f = "") then Ok None else Some <$> must (AccAddressFromBech32 (Granter f)).

(* ------------------------------------------------------------------ *)
(** * Encoding and sign bytes *)

Definition DefaultTxEncoder (w : wrapper) : res (bytes * wrapper) :=
  '(body, w) ← getBodyBytes w;
  '(auth, w) ← getAuthInfoBytes w;
  Ok (TxRaw_Marshal (MkTxRaw body auth (TxSignatures (tx w))), w).

Definition DirectSignBytes (bodyBytes authInfoBytes : bytes) (chainID : string) (accnum : Z) : bytes :=
  SignDoc_Marshal (MkSignDoc bodyBytes authInfoBytes chainID accnum).

Record SignerData := MkSignerData { ChainID : string; AccountNumber : Z; sd_Sequence : Z }.

(** [SignModeHandler]s: the direct handler, and the nil interface. *)
Inductive SignModeHandler := DirectHandler | NilHandler.

Definition handler_Modes (h : SignModeHandler) : res (list Z) :=
  match h with DirectHandler => Ok [SIGN_MODE_DIRECT] | NilHandler => Panic nil_deref end.
Definition direct_GetSignBytes (mode : Z) (data : SignerData) (w : wrapper) : res (bytes * wrapper) :=
  if negb (mode =? SIGN_MODE_DIRECT) then Err "expected %s, got %s" else
  '(bodyBz, w) ← getBodyBytes w;
  '(authInfoBz, w) ← getAuthInfoBytes w;
  Ok (DirectSignBytes bodyBz authInfoBz (ChainID data) (AccountNumber data), w).
Definition handler_GetSignBytes (h : SignModeHandler) mode data w : res (bytes * wrapper) :=
  match h with DirectHandler => direct_GetSignBytes mode data w | NilHandler => Panic nil_deref end.

Record SignModeHandlerMap := MkHandlerMap {
  defaultMode : Z; modes : list Z; signModeHandlers : gmap Z SignModeHandler
}.

(** [NewSignModeHandlerMap]: the two nested loops. *)
Definition add_mode (h : SignModeHandler) (st : gmap Z SignModeHandler * list Z) (m : Z)
    : res (gmap Z SignModeHandler * list Z) :=
  let '(handlerMap, modes) := st in
  match handlerMap !! m with
  | Some _ => Panic "duplicate sign mode handler for mode %s"
  | None => Ok (<[m := h]> handlerMap, modes ++ [m])
  end.
Definition NewSignModeHandlerMap (defaultMode : Z) (handlers : list SignModeHandler) : res SignModeHandlerMap :=
  '(handlerMap, modes) ← for_each (fun st h => ms ← handler_Modes h; for_each (add_mode h) st ms) (∅, []) handlers;
  Ok (MkHandlerMap defaultMode modes handlerMap).

Definition MakeSignModeHandler (modes : list Z) : res SignModeHandlerMap :=
  match modes with
  | [] => Panic "no sign modes enabled"
  | m0 :: _ =>
      handlers ← map_res (fun mode =>
        if mode =? SIGN_MODE_DIRECT then Ok DirectHandler
        else if mode =? SIGN_MODE_LEGACY_AMINO_JSON then Ok NilHandler
        else Panic "unsupported sign mode %+v") modes;
      NewSignModeHandlerMap m0 handlers
  end.
Definition DefaultSignModes : list Z := [SIGN_MODE_DIRECT].

Definition map_GetSignBytes (h : SignModeHandlerMap) mode data w : res (bytes * wrapper) :=
  match signModeHandlers h !! mode with
  | None => Err "can't verify sign mode %s"
  | Some handler => handler_GetSignBytes handler mode data w
  end.
End Tx.
Arguments wrapper : clear implicits.

(* ------------------------------------------------------------------ *)
(** * The cached encodings *)
Section Cache.
Context `{MsgInterface Msg} `{B : Bech32Lib}.

(** The calls that change a builder. *)
Inductive builder_op :=
| OpMsgs (msgs : list Msg) | OpTimeoutHeight (height : Z) | OpMemo (memo : string)
| OpExtension (opts : list (Any Msg)) | OpNonCritical (opts : list (Any Msg))
| OpGasLimit (limit : Z) | OpFeeAmount (coins : list Coin) | OpFeePayer (a : bytes) | OpFeeGranter (a : bytes)
| OpSignatures (sigs : list SignatureV2)
| OpBodyBytes | OpAuthInfoBytes | OpEncode | OpSignBytes (mode : Z) (data : SignerData).

Definition run_op (op : builder_op) (w : wrapper Msg) : res (wrapper Msg) :=
  match op with
  | OpMsgs msgs => SetMsgs msgs w
  | OpTimeoutHeight h => SetTimeoutHeight h w
  | OpMemo m => SetMemo m w
  | OpExtension o => SetExtensionOptions o w
  | OpNonCritical o => SetNonCriticalExtensionOptions o w
  | OpGasLimit l => SetGasLimit l w
  | OpFeeAmount c => SetFeeAmount c w
  | OpFeePayer a => SetFeePayer a w
  | OpFeeGranter a => SetFeeGranter a w
  | OpSignatures s => SetSignatures s w
  | OpBodyBytes => snd <$> getBodyBytes w
  | OpAuthInfoBytes => snd <$> getAuthInfoBytes w
  | OpEncode => snd <$> DefaultTxEncoder w
  | OpSignBytes mode data => snd <$> direct_GetSignBytes mode data w
  end.

Inductive reachable : wrapper Msg -> Prop :=
| reach_new : reachable newBuilder
| reach_wrap t : reachable (WrapTx t)
| reach_step w op w' : reachable w -> run_op op w = Ok w' -> reachable w'.

(** A cache is empty or the encoding of what the transaction holds. *)
Record cache_ok (w : wrapper Msg) : Prop := {
  cache_body : bodyBz w = [] \/ exists b, Body (tx w) = Some b /\ bodyBz w = TxBody_Marshal b;
  cache_auth : authInfoBz w = [] \/ exists i, TxAuthInfo (tx w) = Some i /\ AuthInfo_Marshal i = Ok (authInfoBz w);
}.

Lemma getBodyBytes_cache w bz w' :
  cache_ok w -> getBodyBytes w = Ok (bz, w') ->
  (exists b, Body (tx w) = Some b /\ bz = TxBody_Marshal b) /\ tx w' = tx w /\ cache_ok w'.
Proof.
  intros [Hb Ha] E. unfold getBodyBytes in E. destruct (bodyBz w) as [|x l] eqn:Ebz.
  - destruct (Body (tx w)) as [b|] eqn:Eb; [|done]. injection E as <- <-. split; [by exists b|]. split; [done|].
    split; cbn; [|done]. right. by exists b.
  - injection E as <- <-. destruct Hb as [?|(b & Eb & Hb)]; [done|]. split; [by exists b|]. split; [done|].
    split; [|done]. right. exists b. by rewrite Ebz.
Qed.

Lemma getAuthInfoBytes_cache w bz w' :
  cache_ok w -> getAuthInfoBytes w = Ok (bz, w') ->
  (exists i, TxAuthInfo (tx w) = Some i /\ AuthInfo_Marshal i = Ok bz) /\ tx w' = tx w /\ cache_ok w'.
Proof.
  intros [Hb Ha] E. unfold getAuthInfoBytes in E. destruct (authInfoBz w) as [|x l] eqn:Ebz.
  - destruct (TxAuthInfo (tx w)) as [i|] eqn:Ei; [|done]. res_inv. split; [by exists i|]. split; [done|].
    split; cbn; [done|]. right. by exists i.
  - injection E as <- <-. destruct Ha as [?|(i & Ei & Ha)]; [done|]. split; [by exists i|]. split; [done|].
    split; [done|]. right. exists i. by rewrite Ebz.
Qed.

(** The encoder and the sign bytes read the same two encodings. *)
Lemma DefaultTxEncoder_cache w bz w' :
  cache_ok w -> DefaultTxEncoder w = Ok (bz, w') ->
  (exists b i auth, Body (tx w) = Some b /\ TxAuthInfo (tx w) = Some i /\ AuthInfo_Marshal i = Ok auth /\
     bz = TxRaw_Marshal (MkTxRaw (TxBody_Marshal b) auth (TxSignatures (tx w)))) /\
  tx w' = tx w /\ cache_ok w'.
Proof.
  intros Hc E. unfold DefaultTxEncoder in E. res_inv. destruct a as [body w1]. res_inv. destruct a as [auth w2]. res_inv.
  destruct (getBodyBytes_cache w body w1 Hc ltac:(done)) as ((b & Eb & ->) & Et1 & Hc1).
  destruct (getAuthInfoBytes_cache w1 auth w' Hc1 ltac:(done)) as ((i & Ei & Ea) & Et2 & Hc2).
  rewrite Et1 in Ei, Et2. split; [|by rewrite Et2]. exists b, i, auth. by rewrite Et2.
Qed.

Lemma direct_GetSignBytes_cache mode data w bz w' :
  cache_ok w -> direct_GetSignBytes mode data w = Ok (bz, w') ->
  mode = SIGN_MODE_DIRECT /\
  (exists b i auth, Body (tx w) = Some b /\ TxAuthInfo (tx w) = Some i /\ AuthInfo_Marshal i = Ok auth /\
     bz = SignDoc_Marshal (MkSignDoc (TxBody_Marshal b) auth (ChainID data) (AccountNumber data))) /\
  tx w' = tx w /\ cache_ok w'.
Proof.
  intros Hc E. unfold direct_GetSignBytes in E. destruct (Z.eqb_spec mode SIGN_MODE_DIRECT) as [->|]; [|done].
  cbn [negb] in E. res_inv. destruct a as [body w1]. res_inv. destruct a as [auth w2]. res_inv.
  destruct (getBodyBytes_cache w body w1 Hc ltac:(done)) as ((b & Eb & ->) & Et1 & Hc1).
  destruct (getAuthInfoBytes_cache w1 auth w' Hc1 ltac:(done)) as ((i & Ei & Ea) & Et2 & Hc2).
  rewrite Et1 in Ei, Et2. split; [done|]. split; [|done]. by exists b, i, auth.
Qed.

Lemma set_body_cache f w w' : cache_ok w -> set_body f w = Ok w' -> cache_ok w'.
Proof. intros [Hb Ha] E. unfold set_body in E. res_inv. split; cbn; [by left|done]. Qed.
Lemma set_auth_cache f w w' : cache_ok w -> set_auth f w = Ok w' -> cache_ok w'.
Proof. intros [Hb Ha] E. unfold set_auth in E. res_inv. split; cbn; [done|by left]. Qed.

Lemma SetSignatures_cache sigs w w' : cache_ok w -> SetSignatures sigs w = Ok w' -> cache_ok w'.
Proof.
  intros Hc E. unfold SetSignatures in E. res_inv.
  match goal with X : setSignerInfos _ _ = Ok _ |- _ => apply (set_auth_cache _ _ _ Hc) in X as [Hb Ha] end.
  split; [exact Hb|exact Ha].
Qed.

Lemma run_op_cache op w w' : cache_ok w -> run_op op w = Ok w' -> cache_ok w'.
Proof.
  assert (forall {A} (m : res (A * wrapper Msg)) w', snd <$> m = Ok w' -> exists a, m = Ok (a, w')) as Hsnd.
  { intros A [[a w1]|e|p] w1' E; try done. injection E as <-. by eexists. }
  intros Hc E. destruct op; cbn [run_op] in E;
    try (by eapply set_body_cache); try (by eapply set_auth_cache).
  - unfold SetMsgs in E. res_inv. by eapply set_body_cache.
  - unfold SetFeePayer in E. res_inv. by eapply set_auth_cache.
  - unfold SetFeeGranter in E. res_inv. by eapply set_auth_cache.
  - by eapply SetSignatures_cache.
  - apply Hsnd in E as [bz E]. by eapply getBodyBytes_cache.
  - apply Hsnd in E as [bz E]. by eapply getAuthInfoBytes_cache.
  - apply Hsnd in E as [bz E]. by eapply DefaultTxEncoder_cache.
  - apply Hsnd in E as [bz E]. by eapply direct_GetSignBytes_cache.
Qed.

Lemma reachable_cache w : reachable w -> cache_ok w.
Proof.
  induction 1 as [|t|w op w' _ IH E]; [by split; left|by split; left|by eapply run_op_cache].
Qed.
End Cache.

(* ------------------------------------------------------------------ *)
(** * Signatures and signers *)
Section Lemmas.
Context `{MsgInterface Msg} `{B : Bech32Lib}.

(** A signature whose data has no nil part, of a length a machine holds. *)
Definition sig_storable (s : SignatureV2) : Prop :=
  is_Some (sv2_PubKey s) /\ no_nil (sv2_Data s) = true /\
  Z.of_nat (length (snd (SignatureDataToModeInfoAndSig (sv2_Data s)))) < 2 ^ 62.

Lemma signer_infos_roundtrip sigs :
  Forall sig_storable sigs ->
  exists infos, map_res signer_info sigs = Ok infos /\
    signatures_loop (map fst infos)
      (map (fun si => match si_PublicKey si with None => None | Some any => cachedValue any end) (map fst infos))
      (map snd infos) =
    Ok (map (fun s => MkSignatureV2 (sv2_PubKey s) (sv2_Data s) (sv2_Sequence s) false) sigs).
Proof.
  induction 1 as [|[pk d seq sk] sigs ([k Hk] & Hn & Hl) _ (infos & E & IH)]; [by exists []|].
  cbn [sv2_PubKey sv2_Data sv2_Sequence] in *. subst pk. rewrite map_res_cons, E. unfold signer_info at 1.
  cbn [sv2_PubKey sv2_Data sv2_Sequence]. pose proof (mode_info_roundtrip d Hn Hl) as Hd.
  destruct (SignatureDataToModeInfoAndSig d) as [mi raw] eqn:Em. cbn [fst snd] in *.
  cbn [PubKeyToAny NewAnyWithValue proto_Marshal PubKey_message mbind res_bind].
  eexists. split; [reflexivity|]. cbn [map fst snd signatures_loop si_PublicKey cachedValue si_ModeInfo si_Sequence].
  assert (mi <> ModeInfo_ptr_nil) as Hmi by (intros ->; by destruct d).
  destruct mi; [done| | |]; rewrite Hd; cbn [mbind res_bind tail]; rewrite IH; done.
Qed.

(** The list of signers a list of addresses leaves: the first occurrences. *)
Definition first_occurrences (l : list bytes) : list bytes :=
  foldl (fun acc a => if decide (a ∈ acc) then acc else acc ++ [a]) [] l.

Lemma first_occurrences_spec l : NoDup (first_occurrences l) /\ forall a, a ∈ first_occurrences l <-> a ∈ l.
Proof.
  unfold first_occurrences.
  assert (forall acc : list bytes, NoDup acc ->
    let r := foldl (fun acc a => if decide (a ∈ acc) then acc else acc ++ [a]) acc l in
    NoDup r /\ forall a, a ∈ r <-> a ∈ acc \/ a ∈ l) as Hgen.
  { induction l as [|x l IH]; intros acc Hnd; cbn [foldl].
    - split; [done|]. intros a. rewrite elem_of_nil. tauto.
    - destruct (decide (x ∈ acc)) as [Hx|Hx].
      + destruct (IH acc Hnd) as [H1 H2]. split; [done|]. intros a. rewrite H2, elem_of_cons. naive_solver.
      + destruct (IH (acc ++ [x])) as [H1 H2].
        { apply NoDup_app. split; [done|]. split; [|apply NoDup_singleton]. intros y Hy ->%list_elem_of_singleton. done. }
        split; [done|]. intros a. rewrite H2, elem_of_app, !elem_of_cons, elem_of_nil. naive_solver. }
  destruct (Hgen [] ltac:(constructor)) as [H1 H2]. split; [done|]. intros a. rewrite H2, elem_of_nil. tauto.
Qed.

(** Addresses of bytes whose text bech32 can carry. *)
Definition addr_ok (a : bytes) : Prop :=
  Forall is_uint8 a /\ forall s, Acc_String a = Ok s -> (String.length s <= 90)%nat.

Context {BL : Bech32Laws}.

(** The set of texts stands for the set of addresses. *)
Definition seen_texts (signers : list bytes) (seen : gset string) : Prop :=
  Forall addr_ok signers /\ forall s, s ∈ seen <-> exists a, a ∈ signers /\ Acc_String a = Ok s.

Lemma add_signer_spec signers seen a :
  seen_texts signers seen -> addr_ok a ->
  exists seen', add_signer (signers, seen) a = Ok (if decide (a ∈ signers) then signers else signers ++ [a], seen') /\
    seen_texts (if decide (a ∈ signers) then signers else signers ++ [a]) seen'.
Proof.
  intros [Hok Hseen] [Ha Hl]. destruct (Acc_String_total a Ha) as [s Es]. unfold add_signer. rewrite Es.
  cbn [mbind res_bind]. destruct (decide (a ∈ signers)) as [Hin|Hin].
  - rewrite bool_decide_true by (apply Hseen; by exists a). exists seen. by split.
  - rewrite bool_decide_false.
    2: { intros (b & Hb & Eb)%Hseen. rewrite Forall_forall in Hok. destruct (Hok b Hb) as [Hbb _].
         apply Hin. by rewrite (Acc_String_inj a b s Ha Hbb Es Eb (Hl s Es)). }
    eexists. split; [done|]. split; [apply Forall_app; split; [done|constructor; [by split|constructor]]|].
    intros t. rewrite elem_of_union, elem_of_singleton, Hseen. split.
    + intros [->|(b & Hb & Eb)]; [exists a|exists b]; (split; [|done]); apply elem_of_app; [right; apply list_elem_of_here|by left].
    + intros (b & [Hb| ->%list_elem_of_singleton]%elem_of_app & Eb); [right; by exists b|left; congruence].
Qed.

Lemma add_signers_spec l signers seen :
  seen_texts signers seen -> Forall addr_ok l ->
  exists seen', for_each add_signer (signers, seen) l =
      Ok (foldl (fun acc a => if decide (a ∈ acc) then acc else acc ++ [a]) signers l, seen') /\
    seen_texts (foldl (fun acc a => if decide (a ∈ acc) then acc else acc ++ [a]) signers l) seen'.
Proof.
  intros Hs Hl. revert signers seen Hs. induction Hl as [|a l Ha _ IH]; intros signers seen Hs; [by exists seen|].
  destruct (add_signer_spec signers seen a Hs Ha) as (seen1 & E & Hs1). cbn [for_each foldl]. rewrite E. by apply IH.
Qed.

Lemma concat_map_res {A} (f : Msg -> res (list A)) l ls a : map_res f l = Ok ls ->
  a ∈ concat ls <-> exists m k, m ∈ l /\ f m = Ok k /\ a ∈ k.
Proof.
  revert ls. induction l as [|m l IH]; intros ls E.
  - injection E as <-. split; [by intros ?%elem_of_nil|]. by intros (m & k & ?%elem_of_nil & _).
  - rewrite map_res_cons in E. res_inv. cbn [concat]. rewrite elem_of_app, IH by done. split.
    + intros [Ha|(m' & k & Hm & Hk & Ha)]; [exists m|exists m']; eexists; split_and!; try done; by constructor.
    + intros (m' & k & Hm & Hk & Ha). apply elem_of_cons in Hm as [->|Hm]; [left; congruence|right; eauto].
Qed.

Lemma Tx_GetMsgs_packed (t : Tx Msg) (msgs : list Msg) body :
  Body t = Some body -> map cachedValue (Messages body) = map Some msgs -> Tx_GetMsgs t = Ok msgs.
Proof.
  intros Hb Hm. unfold Tx_GetMsgs. rewrite Hb. revert msgs Hm.
  induction (Messages body) as [|any anys IH]; intros [|m msgs] Hm; try done.
  cbn [map] in Hm. injection Hm as Hany Hm. rewrite map_res_cons, Hany. cbn [mbind res_bind]. by rewrite (IH msgs Hm).
Qed.

Lemma Tx_GetSigners_packed (t : Tx Msg) (msgs : list Msg) body addrs :
  Body t = Some body -> map cachedValue (Messages body) = map Some msgs ->
  map_res msg_GetSigners msgs = Ok addrs -> Forall addr_ok (concat addrs) ->
  Tx_GetSigners t = Ok (first_occurrences (concat addrs)).
Proof.
  intros Hb Hm Ha Hok. unfold Tx_GetSigners. rewrite (Tx_GetMsgs_packed t msgs body Hb Hm). cbn [mbind res_bind].
  assert (forall signers seen, seen_texts signers seen ->
    exists seen', for_each (fun st msg => addrs ← msg_GetSigners msg; for_each add_signer st addrs) (signers, seen) msgs =
      Ok (foldl (fun acc a => if decide (a ∈ acc) then acc else acc ++ [a]) signers (concat addrs), seen')) as Hgen.
  { clear -Hok Ha BL. revert addrs Ha Hok. induction msgs as [|m msgs IH]; intros addrs Ha Hok signers seen Hs.
    - injection Ha as <-. by exists seen.
    - rewrite map_res_cons in Ha. res_inv. cbn [concat] in Hok. apply Forall_app in Hok as [H1 H2].
      match goal with X : msg_GetSigners m = Ok ?l |- _ => destruct (add_signers_spec l _ _ Hs H1) as (seen1 & E & Hs1) end.
      cbn [for_each concat]. rewrite foldl_app.
      match goal with X : msg_GetSigners m = Ok _ |- _ => rewrite X end. cbn [mbind res_bind]. rewrite E. by apply IH. }
  destruct (Hgen [] ∅) as [seen' E].
  { split; [constructor|]. intros s. split; [by intros ?%not_elem_of_empty|]. by intros (a & ?%elem_of_nil & _). }
  by rewrite E.
Qed.
End Lemmas.

(* ------------------------------------------------------------------ *)
(** * Properties *)

(** C9: the builder never encodes or signs stale content.  In any builder
    reached by any sequence of setters, encodings and signings, the encoder
    writes the encodings of the current body and auth info with the current
    signatures, leaves the transaction as it was, and a decoder recovers those
    parts; the sign bytes for the direct mode are the sign document over exactly
    the same body and auth info bytes. *)
Theorem builder_encodes_current `{MsgInterface Msg} `{Bech32Lib} (w : wrapper Msg) bz w' :
  reachable w -> DefaultTxEncoder w = Ok (bz, w') ->
  exists b i auth, Body (tx w) = Some b /\ TxAuthInfo (tx w) = Some i /\ AuthInfo_Marshal i = Ok auth /\
    tx w' = tx w /\
    (Z.of_nat (length bz) < 2 ^ 62 ->
       TxRaw_Unmarshal (MkTxRaw [] [] []) bz = Ok (MkTxRaw (TxBody_Marshal b) auth (TxSignatures (tx w)))) /\
    (forall data sb w'', direct_GetSignBytes SIGN_MODE_DIRECT data w = Ok (sb, w'') ->
       sb = SignDoc_Marshal (MkSignDoc (TxBody_Marshal b) auth (ChainID data) (AccountNumber data))).
Proof.
  intros Hr E. apply reachable_cache in Hr.
  destruct (DefaultTxEncoder_cache w bz w' Hr E) as ((b & i & auth & Eb & Ei & Ea & ->) & Et & _).
  exists b, i, auth. split_and!; try done.
  - apply TxRaw_decodes.
  - intros data sb w'' Es.
    destruct (direct_GetSignBytes_cache _ _ _ _ _ Hr Es) as (_ & (b' & i' & auth' & Eb' & Ei' & Ea' & ->) & _). congruence.
Qed.

(** Messages as names of what they do with one signer each, to evaluate the
    definitions. *)
#[local] Instance toy_msg : MsgInterface (string * list bytes) := {|
  msg_proto := {| MessageName := fst; proto_Marshal m := Ok (concat (snd m)) |};
  msg_GetSigners m := Ok (snd m);
|}.

Lemma builder_encodes_current_witness :
  exists b i auth w (w' : wrapper (string * list bytes)),
    SetMemo "hi" newBuilder = Ok w /\
    DefaultTxEncoder w = Ok ([10; 4; 18; 2; 104; 105; 18; 2; 18; 0], w') /\
    Body (tx w) = Some b /\ TxAuthInfo (tx w) = Some i /\ AuthInfo_Marshal i = Ok auth /\ Memo b = "hi".
Proof.
  destruct (SetMemo "hi" (newBuilder (Msg := string * list bytes))) as [w|e|e] eqn:Ew; [|discriminate..].
  destruct (DefaultTxEncoder w) as [[bz w']|e|e] eqn:E; [|vm_compute in Ew; injection Ew as <-; discriminate..].
  destruct (builder_encodes_current (H0 := toy_bech32) w bz w') as (b & i & auth & Eb & Ei & Ea & _).
  - apply (reach_step newBuilder (OpMemo "hi")); [apply reach_new|exact Ew].
  - exact E.
  - exists b, i, auth, w, w'. vm_compute in Ew. injection Ew as <-. vm_compute in E. injection E as <- <-.
    split; [reflexivity|]. split; [reflexivity|]. split; [exact Eb|]. split; [exact Ei|]. split; [exact Ea|].
    injection Eb as <-. reflexivity.
Defined.

(** What is signed is what is read back.  Storing signatures with keys and
    complete data replaces all signer infos and raw signatures and keeps the
    rest of the transaction; reading them returns the same keys, data and
    sequence numbers in the same order. *)
Theorem SetSignatures_GetSignaturesV2 `{MsgInterface Msg} `{Bech32Lib} (w : wrapper Msg) info sigs :
  TxAuthInfo (tx w) = Some info -> Forall sig_storable sigs ->
  exists w', SetSignatures sigs w = Ok w' /\
    GetSignaturesV2 w' = Ok (map (fun s => MkSignatureV2 (sv2_PubKey s) (sv2_Data s) (sv2_Sequence s) false) sigs) /\
    Body (tx w') = Body (tx w) /\ AuthFee <$> TxAuthInfo (tx w') = Some (AuthFee info) /\
    length (TxSignatures (tx w')) = length sigs.
Proof.
  intros Hi Hs. destruct (signer_infos_roundtrip sigs Hs) as (infos & E & Hloop).
  unfold SetSignatures. rewrite E. cbn [mbind res_bind]. unfold setSignerInfos, set_auth. rewrite Hi. cbn [deref mbind res_bind].
  eexists. split; [reflexivity|]. cbn. split; [exact Hloop|]. split_and!; [done|done|]. rewrite length_map.
  clear -E. revert infos E. induction sigs as [|s sigs IH]; intros infos E; [by injection E as <-|].
  rewrite map_res_cons in E. res_inv. cbn [length]. f_equal. by apply IH.
Qed.

Lemma SetSignatures_GetSignaturesV2_witness :
  exists w' : wrapper (string * list bytes),
    SetSignatures [MkSignatureV2 (Some (Ed25519Key [1])) (SingleSignatureData 1 [2]) 41 true] newBuilder = Ok w' /\
    GetSignaturesV2 w' = Ok [MkSignatureV2 (Some (Ed25519Key [1])) (SingleSignatureData 1 [2]) 41 false].
Proof.
  destruct (SetSignatures_GetSignaturesV2 (H0 := toy_bech32) (newBuilder (Msg := string * list bytes))
      (MkAuthInfo [] (Some (MkFee [] 0 "" "")))
      [MkSignatureV2 (Some (Ed25519Key [1])) (SingleSignatureData 1 [2]) 41 true]) as (w' & E & Eg & _).
  - reflexivity.
  - constructor; [|constructor]. split; [by eexists|]. by split.
  - exists w'. split; [exact E|exact Eg].
Defined.

(** The signers of a transaction are the signers of its messages, each once,
    in the order of their first occurrence; without an explicit fee payer the
    first of them pays, and asking for the fee payer of a transaction without
    signers panics. *)
Theorem Tx_GetSigners_spec `{MsgInterface Msg} `{Bech32Laws} (w : wrapper Msg) body msgs addrs :
  Body (tx w) = Some body -> map cachedValue (Messages body) = map Some msgs ->
  map_res msg_GetSigners msgs = Ok addrs -> Forall addr_ok (concat addrs) ->
  exists signers, Tx_GetSigners (tx w) = Ok signers /\ NoDup signers /\ signers = first_occurrences (concat addrs) /\
    (forall a, a ∈ signers <-> exists m l, m ∈ msgs /\ msg_GetSigners m = Ok l /\ a ∈ l) /\
    (forall info fee, TxAuthInfo (tx w) = Some info -> AuthFee info = Some fee -> Payer fee = "" ->
       FeePayer w = match signers with s :: _ => Ok s | [] => Panic index_out_of_range end).
Proof.
  intros Hb Hm Ha Hok. pose proof (Tx_GetSigners_packed (tx w) msgs body addrs Hb Hm Ha Hok) as E.
  destruct (first_occurrences_spec (concat addrs)) as [Hnd Hin].
  eexists. split; [exact E|]. split; [done|]. split; [done|]. split.
  - intros a. rewrite Hin, (concat_map_res _ _ _ a Ha). done.
  - intros info fee Hi Hf Hp. unfold FeePayer, fee_of, GetSigners. rewrite Hi. cbn [deref mbind res_bind]. rewrite Hf.
    cbn [deref mbind res_bind]. rewrite bool_decide_true by done. rewrite E. cbn [mbind res_bind].
    by destruct (first_occurrences _).
Qed.

Lemma Tx_GetSigners_spec_witness :
  Tx_GetSigners (B := toy_bech32) (MkTx (Some (MkTxBody
    [MkAny "/a" [] [] (Some ("a", [[1]; [2]])); MkAny "/b" [] [] (Some ("b", [[2]; [3]; [1]]))] "" 0 [] [])) None []) =
  Ok [[1]; [2]; [3]].
Proof.
  match goal with |- Tx_GetSigners ?t = _ =>
    destruct (Tx_GetSigners_spec (H := toy_msg) (B := toy_bech32) (H0 := toy_bech32_laws) (MkWrapper t [] [] false)
      _ [("a", [[1]; [2]]); ("b", [[2]; [3]; [1]])] [[[1]; [2]]; [[2]; [3]; [1]]] eq_refl eq_refl eq_refl) as (signers & E & _ & -> & _)
  end.
  - assert (forall b, b = 1 \/ b = 2 \/ b = 3 -> addr_ok (B := toy_bech32) [b]) as Hb.
    { intros b Hb. split; [repeat constructor; destruct Hb as [->|[->| ->]]; by vm_compute|].
      intros s Es. destruct Hb as [->|[->| ->]]; vm_compute in Es; injection Es as <-; vm_compute; lia. }
    cbn. repeat (apply Forall_cons_2; [apply Hb; lia|]). apply Forall_nil_2.
  - exact E.
Defined.

(** Basic validation of a transaction.  It succeeds exactly when the body,
    the auth info and the fee are present, the gas limit fits a signed 64-bit
    integer, no fee amount is negative and there is one signature, at least one,
    for each signer. *)
Theorem Tx_ValidateBasic_spec `{MsgInterface Msg} `{Bech32Lib} (t : Tx Msg) :
  Tx_ValidateBasic t = Ok tt <->
  exists body info fee signers, Body t = Some body /\ TxAuthInfo t = Some info /\ AuthFee info = Some fee /\
    GasLimit fee <= 2 ^ 63 - 1 /\ Coins_IsAnyNegative (fee_Amount fee) = Ok false /\
    Tx_GetSigners t = Ok signers /\ length (TxSignatures t) = length signers /\ TxSignatures t <> [].
Proof.
  unfold Tx_ValidateBasic. split.
  - destruct (Body t) as [body|]; [|done]. destruct (TxAuthInfo t) as [info|]; [|done].
    destruct (AuthFee info) as [fee|] eqn:Ef; [|done]. destruct (Z.ltb_spec MaxGasWanted (GasLimit fee)) as [|Hg]; [done|].
    intros E. res_inv. destruct a; [done|]. destruct (TxSignatures t) as [|s sigs] eqn:Es; [done|]. res_inv.
    exists body, info, fee, a. split_and!; try done. by apply Nat.eqb_eq.
  - intros (body & info & fee & signers & -> & -> & -> & Hg & Hn & Hs & Hl & Hne).
    rewrite (proj2 (Z.ltb_ge _ _)) by exact Hg. rewrite Hn. cbn [mbind res_bind].
    destruct (TxSignatures t); [done|]. rewrite Hs. cbn [mbind res_bind]. rewrite Hl, Nat.eqb_refl. done.
Qed.

(** Sign mode handlers.  Only the direct mode can be enabled, and only once:
    any other non-empty list of modes makes [MakeSignModeHandler] panic, the
    amino mode its comment names included.  The handler made for the direct mode
    answers it as the direct handler and refuses every other mode. *)
Theorem MakeSignModeHandler_spec `{MsgInterface Msg} `{Bech32Lib} :
  (forall modes, modes <> DefaultSignModes -> panics (MakeSignModeHandler modes) = true) /\
  exists h, MakeSignModeHandler DefaultSignModes = Ok h /\ defaultMode h = SIGN_MODE_DIRECT /\
    forall mode data (w : wrapper Msg), map_GetSignBytes h mode data w =
      if mode =? SIGN_MODE_DIRECT then direct_GetSignBytes mode data w else Err "can't verify sign mode %s".
Proof.
  split.
  - intros [|m0 modes] Hne; [done|]. unfold MakeSignModeHandler.
    assert (forall hs, map_res (fun mode => if mode =? SIGN_MODE_DIRECT then Ok DirectHandler
        else if mode =? SIGN_MODE_LEGACY_AMINO_JSON then Ok NilHandler else Panic "unsupported sign mode %+v") (m0 :: modes) = Ok hs ->
      panics (NewSignModeHandlerMap m0 hs) = true) as Hok.
    { intros hs E. rewrite map_res_cons in E. res_inv. unfold NewSignModeHandlerMap. cbn [for_each].
      destruct (Z.eqb_spec m0 SIGN_MODE_DIRECT) as [->|].
      - injection Hr as <-. cbn [handler_Modes mbind res_bind for_each add_mode]. rewrite lookup_empty.
        destruct modes as [|m1 modes]; [done|]. rewrite map_res_cons in Hr0. res_inv. cbn [for_each].
        destruct (m1 =? SIGN_MODE_DIRECT); [injection Hr as <-|].
        + cbn [handler_Modes mbind res_bind for_each add_mode]. by rewrite lookup_insert_eq.
        + destruct (m1 =? SIGN_MODE_LEGACY_AMINO_JSON); [by injection Hr as <-|done].
      - destruct (m0 =? SIGN_MODE_LEGACY_AMINO_JSON); [by injection Hr as <-|done]. }
    destruct (map_res _ (m0 :: modes)) as [hs|e|e] eqn:E; cbn [mbind res_bind]; [by apply Hok| |done].
    exfalso. clear Hok Hne. revert E. generalize (m0 :: modes). intros l.
    induction l as [|m l IH]; [done|]. rewrite map_res_cons.
    destruct (m =? SIGN_MODE_DIRECT); [|destruct (m =? SIGN_MODE_LEGACY_AMINO_JSON)]; cbn [mbind res_bind]; try done;
      destruct (map_res _ l); done.
  - eexists. split; [reflexivity|]. split; [done|]. intros mode data w. unfold map_GetSignBytes. cbn.
    destruct (Z.eqb_spec mode SIGN_MODE_DIRECT) as [->|Hne]; [done|]. by rewrite lookup_insert_ne by done.
Qed.
