(* ===== verification/TxDecode.v ===== *)
(** Decoding transactions: [types/tx/decoder.go] over the checks of
    [UnknownProto.v], the decoders of [TxProto.v] and the unpacking of the
    messages ([UnpackInterfaces] of [types/tx/types.go] and
    [codec/proto_codec.go]). *)
From S2P Require Import Prelude GoStrings SdkInt CoinSet Coins BitArray Wire Decoding Keys Multisig Address TxTypes TxProto UnknownProto Sigs TxBuilder.

(** [AnyUnpacker]: unpacking an [Any] as a message. *)
Class AnyUnpacker (Msg : Type) := unpack_msg : Any Msg -> res (Any Msg).

Section Decoder.
Context {Msg : Type} `{AnyUnpacker Msg} `{D : Descriptors T} `{W : ProtoWire}.
(** The Go types of the messages that are decoded at the top level. *)
Variables TxRawType TxBodyType : T.

Definition TxBody_UnpackInterfaces (m : TxBody Msg) : res (TxBody Msg) :=
  msgs ← map_res unpack_msg (Messages m);
  Ok (MkTxBody msgs (Memo m) (TimeoutHeight m) (ExtensionOptions m) (NonCriticalExtensionOptions m)).
Definition Tx_UnpackInterfaces (t : Tx Msg) : res (Tx Msg) :=
  match Body t with
  | None => Ok t
  | Some b => b ← TxBody_UnpackInterfaces b; Ok (MkTx (Some b) (TxAuthInfo t) (TxSignatures t))
  end.

(** [cdc.UnmarshalBinaryBare(bz, &body)]; neither [TxRaw] nor [AuthInfo] has a
    method [UnpackInterfaces]. *)
Definition UnmarshalBinaryBare_TxBody (bz : bytes) : res (TxBody Msg) :=
  body ← TxBody_Unmarshal empty_TxBody bz; TxBody_UnpackInterfaces body.

(** [if err != nil { return nil, err }] after a check. *)
Definition no_reject (err : option reject_error) : res unit :=
  match err with None => Ok tt | Some e => Err (reject_Error e) end.

Definition DefaultTxDecoder (txBytes : bytes) : ST caches (wrapper Msg) :=
  err ← RejectUnknownFieldsStrict txBytes TxRawType;
  _ ← lift (no_reject err);
  raw ← lift (TxRaw_Unmarshal (MkTxRaw [] [] []) txBytes);
  '(txBodyHasUnknownNonCriticals, err) ← RejectUnknownFields (raw_BodyBytes raw) TxBodyType true;
  _ ← lift (no_reject err);
  body ← lift (UnmarshalBinaryBare_TxBody (raw_BodyBytes raw));
  authInfo ← lift (AuthInfo_Unmarshal empty_AuthInfo (raw_AuthInfoBytes raw));
  mret (MkWrapper (MkTx (Some body) (Some authInfo) (raw_Signatures raw))
          (raw_BodyBytes raw) (raw_AuthInfoBytes raw) txBodyHasUnknownNonCriticals).

(** [jsonpb.Unmarshal] is a parameter. *)
Variable jsonpb_Unmarshal : bytes -> res (Tx Msg).
Definition DefaultJSONTxDecoder (txBytes : bytes) : res (wrapper Msg) :=
  theTx ← jsonpb_Unmarshal txBytes;
  theTx ← Tx_UnpackInterfaces theTx;
  Ok (WrapTx theTx).
End Decoder.

(* ------------------------------------------------------------------ *)
(** * The descriptors of the transaction messages *)

Definition Any_descriptor : list FieldDescriptorProto := [MkField 1 TYPE_STRING ""; MkField 2 TYPE_BYTES ""].
Definition TxRaw_descriptor : list FieldDescriptorProto :=
  [MkField 1 TYPE_BYTES ""; MkField 2 TYPE_BYTES ""; MkField 3 TYPE_BYTES ""].
Definition any_type_name : string := ".google.protobuf.Any".
Definition TxBody_descriptor : list FieldDescriptorProto :=
  [MkField 1 TYPE_MESSAGE any_type_name; MkField 2 TYPE_STRING ""; MkField 3 TYPE_UINT64 "";
   MkField 1023 TYPE_MESSAGE any_type_name; MkField 2047 TYPE_MESSAGE any_type_name].

(* ------------------------------------------------------------------ *)
(** * What is written is accepted *)

(** [protowire] reads what the generated code writes. *)
Record wire_laws `{W : ProtoWire} : Prop := {
  law_tag : forall bz t w m, ConsumeTag bz = (t, w, m) -> 0 <= m -> 0 < m;
  law_ConsumeTag : forall num wt rest, 0 < num < 2 ^ 29 -> wt = 0 \/ wt = 2 ->
    ConsumeTag (encodeVarint (num * 8 + wt) ++ rest) = (num, wt, Z.of_nat (length (encodeVarint (num * 8 + wt))));
  law_varint : forall num v rest, is_uint64 v ->
    ConsumeFieldValue num 0 (encodeVarint v ++ rest) = Z.of_nat (length (encodeVarint v));
  law_bytes : forall num bs rest, Z.of_nat (length bs) < 2 ^ 62 ->
    ConsumeFieldValue num 2 (encodeVarint (Z.of_nat (length bs)) ++ bs ++ rest) =
    Z.of_nat (length (encodeVarint (Z.of_nat (length bs)) ++ bs));
  law_ConsumeVarint : forall v rest, is_uint64 v ->
    ConsumeVarint (encodeVarint v ++ rest) = (v, Z.of_nat (length (encodeVarint v)));
}.

Section Written.
Context `{D : Descriptors T} `{W : ProtoWire} (L : wire_laws) (allow : bool).

Lemma slice_app a b : slice_to (a ++ b) (Z.of_nat (length a)) = Ok a /\ slice_from (a ++ b) (Z.of_nat (length a)) = Ok b.
Proof.
  unfold slice_to, slice_from. rewrite length_app, Nat2Z.inj_add.
  rewrite (proj2 (Z.ltb_ge (Z.of_nat (length a)) 0)), (proj2 (Z.ltb_ge (_ + _) _)), Nat2Z.id by lia.
  by rewrite take_app_length, drop_app_length.
Qed.

(** A key and the value behind it. *)
Definition key_of (ks : bytes) (num wt : Z) : Prop := ks = encodeVarint (num * 8 + wt) /\ 0 < num < 2 ^ 29 /\ ks <> [].

Lemma next_written ks num wt value rest :
  key_of ks num wt -> wt = 0 \/ wt = 2 ->
  ConsumeFieldValue num wt (value ++ rest) = Z.of_nat (length value) ->
  next_field (ks ++ value ++ rest) = Ok (num, wt, value, rest).
Proof using L.
  intros (-> & Hn & _) Hw Hv. unfold next_field. rewrite (law_ConsumeTag L) by done.
  rewrite (proj2 (Z.ltb_ge _ 0)) by lia. rewrite (proj2 (slice_app _ _)). cbn [mbind res_bind].
  rewrite Hv, (proj1 (slice_app _ _)). cbn [mbind res_bind]. by rewrite (proj2 (slice_app _ _)).
Qed.
Lemma nested_written bs : Z.of_nat (length bs) < 2 ^ 62 -> nested_body (encodeVarint (Z.of_nat (length bs)) ++ bs) = Ok bs.
Proof using L.
  intros Hb. unfold nested_body. rewrite (law_ConsumeVarint L) by (apply fits_uint64; unfold fits; lia).
  apply (proj2 (slice_app _ _)).
Qed.

Lemma fine_written ks num fields fd bs rest h h' :
  key_of ks num 2 -> fields !! num = Some fd -> canEncodeType 2 (GetType fd) = true -> Z.of_nat (length bs) < 2 ^ 62 ->
  fine_value allow fd (encodeVarint (Z.of_nat (length bs)) ++ bs) h -> fine_fields allow fields rest h' ->
  fine_fields allow fields (ks ++ encodeVarint (Z.of_nat (length bs)) ++ bs ++ rest) (h || h').
Proof using L.
  intros Hk Hf Hc Hb Hv Hr. rewrite (app_assoc (encodeVarint _)).
  eapply fine_known; [destruct Hk as (_ & _ & Hk); by destruct ks|apply next_written; [done|by right|]|done..].
  rewrite <-app_assoc. by apply (law_bytes L).
Qed.
Lemma fine_written_varint ks num fields fd v rest h' :
  key_of ks num 0 -> fields !! num = Some fd -> canEncodeType 0 (GetType fd) = true -> is_uint64 v ->
  IsScalar fd = true -> fine_fields allow fields rest h' ->
  fine_fields allow fields (ks ++ encodeVarint v ++ rest) h'.
Proof using L.
  intros Hk Hf Hc Hv Hs Hr. change h' with (false || h').
  eapply fine_known; [destruct Hk as (_ & _ & Hk); by destruct ks|apply next_written; [done|by left|by apply (law_varint L)]|..];
    try done. by apply fine_scalar.
Qed.

(** The writers of [Wire.v]. *)
Lemma fine_opt_bytes tag num fields fd bs rest h' :
  key_of [tag] num 2 -> fields !! num = Some fd -> canEncodeType 2 (GetType fd) = true -> Z.of_nat (length bs) < 2 ^ 62 ->
  fine_value allow fd (encodeVarint (Z.of_nat (length bs)) ++ bs) false -> fine_fields allow fields rest h' ->
  fine_fields allow fields (opt_bytes tag bs rest) h'.
Proof using L.
  intros Hk Hf Hc Hb Hv Hr. destruct bs as [|b bs]; [done|]. by apply (fine_written [tag] num fields fd (b :: bs) rest false h').
Qed.
Lemma fine_opt_varint tag num fields fd v rest h' :
  key_of [tag] num 0 -> fields !! num = Some fd -> canEncodeType 0 (GetType fd) = true -> is_uint64 v ->
  IsScalar fd = true -> fine_fields allow fields rest h' -> fine_fields allow fields (opt_varint tag v rest) h'.
Proof using L.
  intros. unfold opt_varint. destruct (v =? 0); [done|]. by eapply (fine_written_varint [tag] num).
Qed.
Lemma fine_rep ks num fields fd bss rest hs h' :
  key_of ks num 2 -> fields !! num = Some fd -> canEncodeType 2 (GetType fd) = true ->
  Forall2 (fun bs h => Z.of_nat (length bs) < 2 ^ 62 /\ fine_value allow fd (encodeVarint (Z.of_nat (length bs)) ++ bs) h) bss hs ->
  fine_fields allow fields rest h' -> fine_fields allow fields (rep_keyed ks bss rest) (foldr orb h' hs).
Proof using L.
  intros Hk Hf Hc Hall Hr. induction Hall as [|bs h bss hs [Hb Hv] _ IH]; [done|].
  cbn [rep_keyed foldr]. by apply (fine_written ks num fields fd).
Qed.
End Written.

Section Trip.
Context `{MI : MsgInterface Msg} `{BL : Bech32Lib} `{AU : AnyUnpacker Msg} `{D : Descriptors T} `{W : ProtoWire}.
Variables TxRawType TxBodyType : T.

(** The descriptors of the types are those of the generated code. *)
Definition described (msg : T) (fields : list FieldDescriptorProto) : Prop :=
  exists desc, Descriptor msg = Some desc /\ fields_of desc = Ok (index_fields (MkDescriptorProto fields [])).
Record tx_types : Prop := {
  raw_described : described TxRawType TxRaw_descriptor;
  body_described : described TxBodyType TxBody_descriptor;
  any_described : described AnyType Any_descriptor;
  scalar_types : forall fd, IsScalar fd = match GetType fd with TYPE_STRING | TYPE_GROUP | TYPE_MESSAGE | TYPE_BYTES => false | _ => true end;
}.

(** The message in an [Any] is of a known type and holds no unknown field. *)
Definition known_any (a : Any Msg) : Prop :=
  exists msg, named_message (TypeUrl a) = Ok msg /\ fine true msg (Value a) false.

Context (L : wire_laws) (TT : tx_types).

Lemma fine_described allow msg fields bz has :
  described msg fields -> fine_fields allow (index_fields (MkDescriptorProto fields [])) bz has -> bz <> [] \/ has = false ->
  fine allow msg bz has.
Proof.
  intros (desc & Hd & Hf) Hw Hh. destruct bz as [|b bz]; [destruct Hh as [?| ->]; [done|constructor]|].
  by eapply fine_message.
Qed.
Ltac keyed := split_and!; [vm_compute; reflexivity|done|done|done].
Ltac raw_bytes := apply fine_bytes; [by rewrite (scalar_types TT)|done|by auto].

Lemma opt_bytes_bound tag bs acc :
  Z.of_nat (length (opt_bytes tag bs acc)) < 2 ^ 62 -> Z.of_nat (length bs) < 2 ^ 62 /\ Z.of_nat (length acc) < 2 ^ 62.
Proof. destruct bs as [|b bs]; [done|]. pose proof (put_bytes_longer tag (b :: bs) acc). cbn [opt_bytes]. lia. Qed.
Lemma rep_keyed_bound ks bss acc :
  Z.of_nat (length (rep_keyed ks bss acc)) < 2 ^ 62 ->
  Forall (fun bs => Z.of_nat (length bs) < 2 ^ 62) bss /\ Z.of_nat (length acc) < 2 ^ 62.
Proof.
  induction bss as [|bs bss IH]; cbn [rep_keyed foldr]; [done|]. rewrite !length_app. intros Hl.
  destruct IH as [? ?]; [unfold rep_keyed; lia|]. split; [constructor; [lia|done]|done].
Qed.

Lemma fine_TxRaw m : Z.of_nat (length (TxRaw_Marshal m)) < 2 ^ 62 -> fine false TxRawType (TxRaw_Marshal m) false.
Proof using L TT.
  destruct m as [body auth sigs]. unfold TxRaw_Marshal. cbn [raw_BodyBytes raw_AuthInfoBytes raw_Signatures]. intros H62.
  apply opt_bytes_bound in H62 as H1. destruct H1 as [Hb H1]. apply opt_bytes_bound in H1 as [Ha Hs].
  apply (rep_keyed_bound [26]) in Hs as [Hs _].
  eapply fine_described; [apply (raw_described TT)| |by right].
  eapply (fine_opt_bytes L _ 10 1); [keyed|done|done|done|raw_bytes|].
  eapply (fine_opt_bytes L _ 18 2); [keyed|done|done|done|raw_bytes|].
  assert (fine_fields false (index_fields (MkDescriptorProto TxRaw_descriptor [])) (rep_keyed [26] sigs [])
    (foldr orb false (map (fun _ => false) sigs))) as Hf.
  { eapply (fine_rep L _ [26] 3); [keyed|done|done| |constructor].
    clear -TT Hs. induction Hs as [|s l Hl _ IH]; constructor; [split; [done|raw_bytes]|done]. }
  replace (foldr orb false (map (fun _ => false) sigs)) with false in Hf; [done|].
  clear. induction sigs as [|s sigs IH]; [done|]. exact IH.
Qed.

Lemma fine_Any a :
  Any_unrecognized a = [] -> known_any a -> Z.of_nat (length (Any_Marshal a)) < 2 ^ 62 ->
  forall fd, GetTypeName fd = any_type_name -> IsScalar fd = false ->
  fine_value true fd (encodeVarint (Z.of_nat (length (Any_Marshal a))) ++ Any_Marshal a) false.
Proof using L TT.
  intros Hu (msg & Hm & Hf) H62 fd Hn Hs.
  destruct a as [url value u cached]. cbn [Any_unrecognized TypeUrl Value] in *. subst u.
  change (Any_Marshal (MkAny url value [] cached)) with (Any_Marshal (MkAny url value [] (@None unit))) in *.
  eapply (fine_any true fd _ _ (MkAny url value [] None) msg false false); [done|done|by apply nested_written| | |exact Hm|exact Hf].
  - unfold Any_Marshal in *. cbn [TypeUrl Value Any_unrecognized] in *. apply opt_bytes_bound in H62 as [H1 H2].
    apply opt_bytes_bound in H2 as [H2 _].
    eapply fine_described; [apply (any_described TT)| |by right].
    eapply (fine_opt_bytes L _ 10 1); [keyed|done|done|done|raw_bytes|].
    eapply (fine_opt_bytes L _ 18 2); [keyed|done|done|done|raw_bytes|]. constructor.
  - by apply (Any_decodes (MkAny url value [] (@None unit))).
Qed.

Lemma fine_anys ks num fields fd l rest :
  key_of ks num 2 -> fields !! num = Some fd -> GetType fd = TYPE_MESSAGE -> GetTypeName fd = any_type_name ->
  anys_ok l -> Forall known_any l -> Z.of_nat (length (rep_keyed ks (map Any_Marshal l) rest)) < 2 ^ 62 ->
  fine_fields true fields rest false -> fine_fields true fields (rep_keyed ks (map Any_Marshal l) rest) false.
Proof using L TT.
  intros Hk Hf Ht Hn Ho Hknown H62 Hr. apply rep_keyed_bound in H62 as [Hl _].
  assert (fine_fields true fields (rep_keyed ks (map Any_Marshal l) rest) (foldr orb false (map (fun _ => false) l))) as Hw.
  { eapply (fine_rep L); [done|done|by rewrite Ht|..|done].
    clear Hr. induction l as [|a l IH]; [constructor|]. inversion_clear Ho. inversion_clear Hknown. cbn [map] in *.
    inversion_clear Hl. constructor; [|by apply IH]. split; [done|]. apply fine_Any; try done.
    by rewrite (scalar_types TT), Ht. }
  replace (foldr orb false (map (fun _ => false) l)) with false in Hw; [done|].
  clear. induction l as [|a l IH]; [done|]. exact IH.
Qed.

Lemma fine_TxBody (b : TxBody Msg) :
  body_ok b -> Forall known_any (Messages b) -> Forall known_any (ExtensionOptions b) ->
  Forall known_any (NonCriticalExtensionOptions b) -> Z.of_nat (length (TxBody_Marshal b)) < 2 ^ 62 ->
  fine true TxBodyType (TxBody_Marshal b) false.
Proof using L TT.
  intros (Hm & Hh & He & Hn) Km Ke Kn H62. unfold TxBody_Marshal in *. rewrite !rep_bytes2_keyed in *.
  pose proof (rep_keyed_bound [10] _ _ H62) as [_ H1]. pose proof (opt_bytes_bound _ _ _ H1) as [Hmemo H2].
  assert (Z.of_nat (length (rep_keyed [250; 63] (map Any_Marshal (ExtensionOptions b))
    (rep_keyed [250; 127] (map Any_Marshal (NonCriticalExtensionOptions b)) []))) < 2 ^ 62) as H3.
  { unfold opt_varint, put_varint in H2. destruct (TimeoutHeight b =? 0); [done|]. cbn [length] in H2.
    rewrite length_app in H2. lia. }
  pose proof (rep_keyed_bound _ _ _ H3) as [_ H4].
  eapply fine_described; [apply (body_described TT)| |by right].
  eapply (fine_anys [10] 1); [keyed|done|done|done|done|done|exact H62|].
  eapply (fine_opt_bytes L _ 18 2); [keyed|done|done|done|raw_bytes|].
  eapply (fine_opt_varint L _ 24 3); [keyed|done|done|done|by rewrite (scalar_types TT)|].
  eapply (fine_anys [250; 63] 1023); [keyed|done|done|done|done|done|exact H3|].
  eapply (fine_anys [250; 127] 2047); [keyed|done|done|done|done|done|exact H4|]. constructor.
Qed.

(** What the decoder makes of a transaction. *)
Definition decoded (b : TxBody Msg) (i : AuthInfo) (sigs : list bytes) (authBz : bytes) : wrapper Msg :=
  MkWrapper
    (MkTx (Some (MkTxBody (Messages b) (Memo b) (TimeoutHeight b)
                   (map ClearCachedValue (ExtensionOptions b)) (map ClearCachedValue (NonCriticalExtensionOptions b))))
       (Some (clear_keys i)) sigs)
    (TxBody_Marshal b) authBz false.

Lemma map_res_unpack (l : list (Any Msg)) :
  Forall (fun a => unpack_msg (ClearCachedValue a) = Ok a) l -> map_res unpack_msg (map ClearCachedValue l) = Ok l.
Proof. induction 1 as [|a l Ha _ IH]; [done|]. cbn [map]. rewrite map_res_cons, Ha. cbn [mbind res_bind]. by rewrite IH. Qed.

Lemma clear_body_Marshal (b : TxBody Msg) :
  TxBody_Marshal (MkTxBody (Messages b) (Memo b) (TimeoutHeight b)
    (map ClearCachedValue (ExtensionOptions b)) (map ClearCachedValue (NonCriticalExtensionOptions b))) = TxBody_Marshal b.
Proof.
  unfold TxBody_Marshal. cbn [Messages Memo TimeoutHeight ExtensionOptions NonCriticalExtensionOptions]. by rewrite !map_map.
Qed.
Lemma clear_keys_Marshal i : AuthInfo_Marshal (clear_keys i) = AuthInfo_Marshal i.
Proof.
  destruct i as [infos fee]. unfold AuthInfo_Marshal, clear_keys. cbn [SignerInfos AuthFee].
  assert (marshal_all SignerInfo_Marshal (map clear_key infos) = marshal_all SignerInfo_Marshal infos) as ->; [|done].
  unfold marshal_all. induction infos as [|[key mode seq] infos IH]; [done|]. cbn [map foldr]. rewrite IH. by destruct key.
Qed.

(** The decoder reads a raw transaction whose parts are as the encoders write
    them. *)
Lemma decode_raw (b : TxBody Msg) i auth sigs c :
  body_ok b -> auth_ok i -> Forall (fun a => unpack_msg (ClearCachedValue a) = Ok a) (Messages b) ->
  Forall known_any (Messages b) -> Forall known_any (ExtensionOptions b) -> Forall known_any (NonCriticalExtensionOptions b) ->
  AuthInfo_Marshal i = Ok auth -> Z.of_nat (length (TxRaw_Marshal (MkTxRaw (TxBody_Marshal b) auth sigs))) < 2 ^ 62 -> caches_ok c ->
  exists c', DefaultTxDecoder TxRawType TxBodyType (TxRaw_Marshal (MkTxRaw (TxBody_Marshal b) auth sigs)) c =
    (Ok (decoded b i sigs auth), c') /\ caches_ok c'.
Proof using L TT.
  intros Hb Hi Hu Km Ke Kn Ea H62 Hc. set (raw := MkTxRaw (TxBody_Marshal b) auth sigs) in *.
  pose proof H62 as H1. unfold raw, TxRaw_Marshal in H1. cbn [raw_BodyBytes raw_AuthInfoBytes raw_Signatures] in H1.
  apply opt_bytes_bound in H1 as [Hbody H1]. apply opt_bytes_bound in H1 as [Hauth _].
  assert (tag_law) as Htag by exact (law_tag L).
  destruct (verdict_cached (TxRaw_Marshal raw) TxRawType false c Hc) as (c1 & E1 & Hc1).
  rewrite (proj2 (verdict_fine Htag _ _ _ _) (fine_TxRaw raw H62)) in E1.
  destruct (verdict_cached (TxBody_Marshal b) TxBodyType true c1 Hc1) as (c2 & E2 & Hc2).
  rewrite (proj2 (verdict_fine Htag _ _ _ _) (fine_TxBody b Hb Km Ke Kn Hbody)) in E2.
  destruct (AuthInfo_decodes i Hi) as (auth' & Ea' & Hd). rewrite Ea in Ea'. injection Ea' as <-.
  exists c2. unfold DefaultTxDecoder, RejectUnknownFieldsStrict. unfold mbind, st_bind, mret, st_ret, lift. rewrite E1.
  cbn [no_reject]. rewrite TxRaw_decodes by done. unfold raw. cbn [raw_BodyBytes raw_AuthInfoBytes raw_Signatures].
  rewrite E2. cbn [no_reject]. unfold UnmarshalBinaryBare_TxBody. rewrite TxBody_decodes by done. cbn [mbind res_bind].
  unfold TxBody_UnpackInterfaces, clear_body. cbn [Messages Memo TimeoutHeight ExtensionOptions NonCriticalExtensionOptions].
  rewrite map_res_unpack by done. cbn [mbind res_bind]. by rewrite Hd.
Qed.

(** C5: A transaction whose parts can be decoded survives the wire.  Take any
    transaction that a sequence of builder calls led to, under these conditions:
    every message is unpacked by the registry from its own bytes (for the messages
    of the modules this is [Sdk.modules_unpack]; a proposal with a content is not,
    [Sdk.proposals_not_unpacked], and its transaction is not decoded); the check
    for unknown fields knows the messages and extension options ([known_any]); the
    options, keys, mode infos, numbers and fee are within their types ([body_ok],
    [auth_ok]); and the bytes are fewer than [2^62].  Then decoding what the
    encoder wrote succeeds, with any content of the descriptor caches, and returns
    the same messages, memo, timeout, fee, mode infos, sequence numbers and
    signatures; only the values cached in extension options and public keys are
    gone.  Encoding it again gives the same bytes. *)
Theorem decode_encode (w w' : wrapper Msg) bz b i c :
  reachable w -> Body (tx w) = Some b -> TxAuthInfo (tx w) = Some i -> body_ok b -> auth_ok i ->
  Forall (fun a => unpack_msg (ClearCachedValue a) = Ok a) (Messages b) ->
  Forall known_any (Messages b) -> Forall known_any (ExtensionOptions b) -> Forall known_any (NonCriticalExtensionOptions b) ->
  DefaultTxEncoder w = Ok (bz, w') -> Z.of_nat (length bz) < 2 ^ 62 -> caches_ok c ->
  exists authBz c' w3, DefaultTxDecoder TxRawType TxBodyType bz c = (Ok (decoded b i (TxSignatures (tx w)) authBz), c') /\
    AuthInfo_Marshal i = Ok authBz /\ caches_ok c' /\
    Tx_GetMsgs (tx (decoded b i (TxSignatures (tx w)) authBz)) = Tx_GetMsgs (tx w) /\
    DefaultTxEncoder (decoded b i (TxSignatures (tx w)) authBz) = Ok (bz, w3).
Proof using L TT.
  intros Hr Eb Ei Hb Hi Hu Km Ke Kn E H62 Hc. apply reachable_cache in Hr.
  destruct (DefaultTxEncoder_cache w bz w' Hr E) as ((b' & i' & auth & Eb' & Ei' & Ea & ->) & _ & _).
  rewrite Eb in Eb'. injection Eb' as <-. rewrite Ei in Ei'. injection Ei' as <-.
  destruct (decode_raw b i auth (TxSignatures (tx w)) c Hb Hi Hu Km Ke Kn Ea H62 Hc) as (c2 & Hd & Hc2).
  set (raw := MkTxRaw (TxBody_Marshal b) auth (TxSignatures (tx w))) in *.
  assert (exists w3, DefaultTxEncoder (decoded b i (TxSignatures (tx w)) auth) = Ok (TxRaw_Marshal raw, w3)) as [w3 Hw3].
  { unfold DefaultTxEncoder, getBodyBytes, getAuthInfoBytes, decoded. cbn [bodyBz tx Body TxAuthInfo].
    rewrite clear_body_Marshal. unfold raw. pose proof (clear_keys_Marshal i) as Ek. rewrite Ea in Ek.
    destruct (TxBody_Marshal b), auth; cbn -[TxRaw_Marshal AuthInfo_Marshal]; rewrite ?Ek; eexists; reflexivity. }
  exists auth, c2, w3. split_and!; try done. unfold Tx_GetMsgs. cbn [decoded tx Body Messages]. by rewrite Eb.
Qed.
End Trip.

(* ------------------------------------------------------------------ *)
(** * What decoding loses and where it panics *)

(** No public key that was read holds a value. *)
Definition key_unpacked (si : SignerInfo) : Prop := forall a, si_PublicKey si = Some a -> cachedValue a = None.

Lemma Any_Unmarshal_cached {V} (m a : Any V) bs :
  cachedValue m = None -> Any_Unmarshal m bs = Ok a -> cachedValue a = None.
Proof.
  intros Hm. apply (unmarshal_loop_invariant _ _ (fun a => cachedValue a = None)); [apply Any_field_consumes| |done|done].
  intros m' num wt rest m2 rest' _ Hm'. unfold Any_field. field_cases; [..|discriminate];
    intros (bs' & v & _ & ->)%(get_msg_inv _ Ok); exact Hm'.
Qed.
Lemma SignerInfo_field_consumes : consumes SignerInfo_field.
Proof. intros [key mode seq] num wt l buf m' rest. unfold SignerInfo_field. field_cases; [eauto with total..|discriminate]. Qed.
Lemma AuthInfo_field_consumes : consumes AuthInfo_field.
Proof. intros [infos fee] num wt l buf m' rest. unfold AuthInfo_field. field_cases; [eauto with total..|discriminate]. Qed.

Lemma SignerInfo_Unmarshal_key m si bs : key_unpacked m -> SignerInfo_Unmarshal m bs = Ok si -> key_unpacked si.
Proof.
  intros Hm. apply (unmarshal_loop_invariant _ _ key_unpacked); [apply SignerInfo_field_consumes| |done|done].
  intros [key mode seq] num wt rest m2 rest' _ Hm'. unfold SignerInfo_field. field_cases; [..|discriminate].
  - intros (bs' & v & Hv & ->)%get_msg_inv a [= <-]. revert Hv. apply Any_Unmarshal_cached.
    destruct key as [a|]; [by apply (Hm' a)|done].
  - intros (bs' & v & Hv & ->)%get_msg_inv. exact Hm'.
  - intros (v & ->)%get_varint_inv. exact Hm'.
Qed.
Lemma AuthInfo_Unmarshal_keys m i bs :
  Forall key_unpacked (SignerInfos m) -> AuthInfo_Unmarshal m bs = Ok i -> Forall key_unpacked (SignerInfos i).
Proof.
  intros Hm. apply (unmarshal_loop_invariant _ _ (fun i => Forall key_unpacked (SignerInfos i))); [apply AuthInfo_field_consumes| |done|done].
  intros [infos fee] num wt rest m2 rest' _ Hm'. cbn in Hm'. unfold AuthInfo_field. field_cases; [..|discriminate].
  - intros (bs' & si & Hv & ->)%get_msg_inv. cbn. apply Forall_app. split; [done|]. constructor; [|done].
    revert Hv. by apply SignerInfo_Unmarshal_key.
  - intros (bs' & v & Hv & ->)%get_msg_inv. exact Hm'.
Qed.

Section Lost.
Context {Msg : Type} `{AU : AnyUnpacker Msg} `{D : Descriptors T} `{W : ProtoWire}.
Variables TxRawType TxBodyType : T.

(** C32: A decoded transaction has no public keys: nothing unpacks the [Any]s of
    its signer infos, so [GetPubKeys] returns nil for every signer and the
    signatures come without keys, whatever was encoded. *)
Theorem decoded_keys_nil bz c (w : wrapper Msg) c' :
  DefaultTxDecoder TxRawType TxBodyType bz c = (Ok w, c') ->
  exists i, TxAuthInfo (tx w) = Some i /\ GetPubKeys w = Ok (map (fun _ => None) (SignerInfos i)) /\
    forall sigs, GetSignaturesV2 w = Ok sigs -> Forall (fun s => sv2_PubKey s = None) sigs.
Proof.
  intros E. unfold DefaultTxDecoder in E. apply st_bind_Ok in E as (err & c1 & _ & E).
  apply st_bind_Ok in E as (u & c2 & _ & E). apply st_bind_Ok in E as (raw & c3 & _ & E).
  apply st_bind_Ok in E as ([has err'] & c4 & _ & E). apply st_bind_Ok in E as (u' & c5 & _ & E).
  apply st_bind_Ok in E as (body & c6 & _ & E). apply st_bind_Ok in E as (i & c7 & Hi & E).
  injection E as <- _. apply lift_Ok in Hi as [Hi _]. exists i. split; [done|].
  apply AuthInfo_Unmarshal_keys in Hi; [|constructor].
  assert (GetPubKeys (MkWrapper (MkTx (Some body) (Some i) (raw_Signatures raw)) (raw_BodyBytes raw) (raw_AuthInfoBytes raw) has) =
    Ok (map (fun _ => None) (SignerInfos i))) as Hk.
  { unfold GetPubKeys. cbn [tx TxAuthInfo deref mbind res_bind]. f_equal. induction Hi as [|si l Hsi _ IH]; [done|].
    cbn [map]. rewrite IH. f_equal. destruct (si_PublicKey si) as [a|] eqn:Ea; [by apply Hsi|done]. }
  split; [exact Hk|]. intros sigs Hs. unfold GetSignaturesV2 in Hs. cbn [tx TxAuthInfo deref mbind res_bind] in Hs.
  rewrite Hk in Hs. cbn [mbind res_bind tx TxSignatures] in Hs. clear -Hs. revert sigs Hs.
  generalize (raw_Signatures raw). induction (SignerInfos i) as [|si l IH]; intros raws sigs; cbn [map signatures_loop]; [by intros [= <-]|].
  intros Hs. apply bind_Ok in Hs as (r & Hr & Hs). apply bind_Ok in Hs as (rs & Hrs & [= <-]).
  constructor; [|by eapply IH]. destruct (si_ModeInfo si); [by injection Hr as <-|..];
    destruct raws; try discriminate; apply bind_Ok in Hr as (d & _ & [= <-]); done.
Qed.

(** A transaction that is cut off inside its first field makes the decoder
    panic instead of returning an error: two bytes are enough. *)
Theorem DefaultTxDecoder_cut_off (L : wire_laws) n bs c :
  described TxRawType TxRaw_descriptor -> caches_ok c -> is_uint64 n ->
  ConsumeFieldValue 1 2 (encodeVarint n ++ bs) < 0 ->
  fst (DefaultTxDecoder (Msg := Msg) TxRawType TxBodyType (10 :: encodeVarint n ++ bs) c) = Panic "slice bounds out of range".
Proof.
  intros (desc & Hd & Hf) Hc Hn Hv.
  pose proof (law_ConsumeTag L 1 2 (encodeVarint n ++ bs) ltac:(done) ltac:(by right)) as Ht.
  change (encodeVarint (1 * 8 + 2)) with [10] in Ht. cbn [app length] in Ht.
  assert (verdict_of (10 :: encodeVarint n ++ bs) TxRawType false = Panic "slice bounds out of range") as Hp.
  { eapply verdict_cut_off; [done|exact Hd|exact Hf|exact Ht|cbn [length]; lia| |exact Hv]. reflexivity. }
  destruct (verdict_cached (10 :: encodeVarint n ++ bs) TxRawType false c Hc) as (c1 & E1 & _). rewrite Hp in E1.
  unfold DefaultTxDecoder, RejectUnknownFieldsStrict. unfold mbind, st_bind. by rewrite E1.
Qed.
End Lost.
