(* ===== verification/DecodeRuns.v ===== *)
(** The decoder at work: a reference [protowire], a small set of message types
    with their descriptors, and the theorems of [UnknownProto.v] and
    [TxDecode.v] applied to them. *)
From S2P Require Import Prelude GoStrings SdkInt CoinSet Coins BitArray Wire Decoding Keys Multisig Address TxTypes TxProto UnknownProto Sigs TxBuilder TxDecode.

(* ------------------------------------------------------------------ *)
(** * A reference [protowire] *)

Definition ref_ConsumeVarint (bz : bytes) : Z * Z :=
  match read_varint bz with
  | Ok (v, rest) => (v, Z.of_nat (length bz) - Z.of_nat (length rest))
  | _ => (0, -1)
  end.
#[global] Instance ref_wire : ProtoWire := {|
  ConsumeTag bz := let '(w, m) := ref_ConsumeVarint bz in
    if Z.shiftr w 3 <=? 0 then (0, 0, -1) else (Z.shiftr w 3, Z.land w 7, m);
  ConsumeFieldValue num wt bz :=
    let left := Z.of_nat (length bz) in
    if wt =? 0 then snd (ref_ConsumeVarint bz)
    else if wt =? 1 then if left <? 8 then -1 else 8
    else if wt =? 2 then
      let '(n, m) := ref_ConsumeVarint bz in if (m <? 0) || (left <? m + n) then -1 else m + n
    else if wt =? 5 then if left <? 4 then -1 else 4
    else -1;
  ConsumeVarint := ref_ConsumeVarint;
|}.

#[local] Arguments ref_ConsumeVarint : simpl never.
#[local] Arguments encodeVarint : simpl never.
Lemma ref_ConsumeVarint_encode v rest :
  is_uint64 v -> ref_ConsumeVarint (encodeVarint v ++ rest) = (v, Z.of_nat (length (encodeVarint v))).
Proof.
  intros Hv. unfold ref_ConsumeVarint. rewrite read_varint_encode by done. rewrite length_app. f_equal. lia.
Qed.

Lemma ref_laws : @wire_laws ref_wire.
Proof.
  split.
  - intros bz t w m. cbn. unfold ref_ConsumeVarint. destruct (read_varint bz) as [[v rest]|e|p] eqn:E; cbn.
    + apply read_varint_shorter in E. destruct (_ <=? 0); intros [= <- <- <-] Hm; lia.
    + by intros [= <- <- <-].
    + by intros [= <- <- <-].
  - intros num wt rest Hn Hw. cbn.
    assert (is_uint64 (num * 8 + wt)) as Hu.
    { unfold is_uint64. change (2 ^ 29) with 536870912 in Hn. change (2 ^ 64) with 18446744073709551616. lia. }
    rewrite ref_ConsumeVarint_encode by done.
    assert (Z.shiftr (num * 8 + wt) 3 = num) as ->.
    { rewrite Z.shiftr_div_pow2 by lia. change (2 ^ 3) with 8. symmetry. apply Z.div_unique_pos with wt; lia. }
    assert (Z.land (num * 8 + wt) 7 = wt) as ->.
    { change 7 with (Z.ones 3). rewrite Z.land_ones by lia. change (2 ^ 3) with 8. symmetry. apply Z.mod_unique_pos with num; lia. }
    by rewrite (proj2 (Z.leb_gt num 0)) by lia.
  - intros num v rest Hv. cbn. by rewrite ref_ConsumeVarint_encode.
  - intros num bs rest Hb. cbn. rewrite ref_ConsumeVarint_encode by (apply fits_uint64; unfold fits; lia).
    rewrite !length_app. rewrite (proj2 (Z.ltb_ge _ 0)), (proj2 (Z.ltb_ge _ _)) by lia. cbn. lia.
  - intros v rest Hv. cbn. by rewrite ref_ConsumeVarint_encode.
Qed.

(* ------------------------------------------------------------------ *)
(** * Types

    0 is [Any], 1 [TxRaw], 2 [TxBody], 3 a message that names its signer and
    may hold a message of type 4; the file descriptor of a type is its number. *)
Definition ref_descriptor (t : nat) : option (list FieldDescriptorProto) :=
  match t with
  | 0%nat => Some Any_descriptor
  | 1%nat => Some TxRaw_descriptor
  | 2%nat => Some TxBody_descriptor
  | 3%nat => Some [MkField 1 TYPE_STRING ""; MkField 2 TYPE_MESSAGE ".toy.Note"]
  | 4%nat => Some [MkField 1 TYPE_UINT64 ""]
  | _ => None
  end.
#[global] Instance ref_types : Descriptors nat := {|
  Descriptor t := match ref_descriptor t with Some _ => Some ([Z.of_nat t], [0%nat]) | None => None end;
  read_file_descriptor bz :=
    match bz with
    | [t] => match ref_descriptor (Z.to_nat t) with Some f => Ok [MkDescriptorProto f []] | None => Err "gzip: invalid header" end
    | _ => Err "gzip: invalid header"
    end;
  MessageType name :=
    if bool_decide (name = "toy.Send") then Some 3%nat else if bool_decide (name = "toy.Note") then Some 4%nat else None;
  implements_Message t := true;
  AnyType := 0%nat;
  IsScalar fd := match GetType fd with TYPE_STRING | TYPE_GROUP | TYPE_MESSAGE | TYPE_BYTES => false | _ => true end;
|}.
Lemma ref_tx_types : tx_types 1%nat 2%nat.
Proof. split; [by eexists|by eexists|by eexists|done]. Qed.

(** A message: its signer and, behind it, whatever bytes follow. *)
Record Send := MkSend { from : string; more : bytes }.
Definition Send_Marshal (m : Send) : bytes := opt_bytes 10 (to_bytes (from m)) (more m).
Definition Send_field (m : Send) (num wt l : Z) (buf : bytes) :=
  if num =? 1 then get_bytes (fun bs => MkSend (bytes_str bs) (more m)) wt l buf else None.
#[global] Instance Send_msg : MsgInterface Send := {|
  msg_proto := {| MessageName _ := "toy.Send"; proto_Marshal m := Ok (Send_Marshal m) |};
  msg_GetSigners m := Ok [to_bytes (from m)];
|}.
#[global] Instance Send_unpacker : AnyUnpacker Send := fun a =>
  if bool_decide (TypeUrl a = "/toy.Send") then
    m ← unmarshal Send_field (fun m bs => MkSend (from m) (more m ++ bs)) (MkSend "" []) (Value a);
    Ok (MkAny (TypeUrl a) (Value a) (Any_unrecognized a) (Some m))
  else Err "no concrete type registered for type URL %s against interface %T".
(** A note with the number 5, then an unknown field 1029 that may be skipped. *)
Definition note_5 : bytes := [18; 2; 8; 5].
Definition skippable : bytes := [170; 64; 1; 7].
Definition send : Send := MkSend "alice" note_5.

#[local] Existing Instance toy_bech32.

(** A builder with a message, a memo, a fee and a signature. *)
Definition ops : list builder_op :=
  [OpMsgs [send]; OpMemo "hello"; OpTimeoutHeight 9; OpGasLimit 200; OpFeeAmount [coinV "plug" 3];
   OpExtension []; OpSignatures [MkSignatureV2 (Some (Secp256k1Key [2; 3])) (SingleSignatureData 1 [7; 7]) 4 false]].
Definition run_ops (ops : list (builder_op (Msg := Send))) (w : res (wrapper Send)) : res (wrapper Send) :=
  foldl (fun w op => w ≫= run_op op) w ops.

Definition built : wrapper Send := match run_ops ops (Ok newBuilder) with Ok w => w | _ => newBuilder end.
Definition encoded : bytes := match DefaultTxEncoder built with Ok (bz, _) => bz | _ => [] end.
Definition built_body : TxBody Send := default empty_TxBody (Body (tx built)).
Definition built_auth : AuthInfo := default empty_AuthInfo (TxAuthInfo (tx built)).

Lemma run_ops_reachable l (w0 w : wrapper Send) : reachable w0 -> run_ops l (Ok w0) = Ok w -> reachable w.
Proof.
  revert w0. induction l as [|op l IH]; intros w0 Hw0; [by intros [= <-]|]. unfold run_ops. cbn [foldl mbind res_bind].
  destruct (run_op op w0) as [w1|e|p] eqn:E.
  - apply IH. by eapply reach_step.
  - intros Hr. exfalso. clear -Hr. induction l; [done|]. by apply IHl.
  - intros Hr. exfalso. clear -Hr. induction l; [done|]. by apply IHl.
Qed.
Lemma built_ok : run_ops ops (Ok newBuilder) = Ok built.
Proof. vm_compute. reflexivity. Qed.
Lemma built_reachable : reachable built.
Proof. eapply run_ops_reachable; [apply reach_new|apply built_ok]. Qed.

(** The message is accepted: its note is known. *)
Lemma ref_accepts bz t has : verdict_of bz t true = Ok (has, None) -> fine true t bz has.
Proof. apply verdict_fine. exact (law_tag ref_laws). Qed.
Lemma send_known : Forall known_any (Messages built_body).
Proof.
  constructor; [|constructor]. exists 3%nat. split; [vm_compute; reflexivity|]. apply ref_accepts. vm_compute. reflexivity.
Qed.
Lemma built_body_ok : body_ok built_body.
Proof. split_and!; [by repeat constructor|by vm_compute|constructor..]. Qed.
Lemma built_auth_ok : auth_ok built_auth.
Proof.
  split.
  - constructor; [|constructor]. split_and!; [by intros a [= <-]|right; vm_compute; reflexivity|by vm_compute].
  - intros f [= <-]. split; [|by vm_compute]. constructor; [|constructor]. exists 3. split; [done|]. by vm_compute.
Qed.

Lemma decode_encode_witness :
  exists w2 c', DefaultTxDecoder 1%nat 2%nat encoded no_caches = (Ok w2, c') /\ Tx_GetMsgs (tx w2) = Ok [send] /\
    GetMemo w2 = Ok "hello" /\ GetPubKeys w2 = Ok [None].
Proof.
  destruct (DefaultTxEncoder built) as [[bz w']|e|p] eqn:E; [|exfalso; vm_compute in E; discriminate E..].
  assert (encoded = bz) as Eb by (unfold encoded; by rewrite E).
  destruct (decode_encode 1%nat 2%nat ref_laws ref_tx_types built w' bz built_body built_auth no_caches) as (authBz & c' & w3 & Hd & _ & _ & Hm & _).
  - apply built_reachable.
  - reflexivity.
  - reflexivity.
  - apply built_body_ok.
  - apply built_auth_ok.
  - constructor; [vm_compute; reflexivity|constructor].
  - apply send_known.
  - constructor.
  - constructor.
  - exact E.
  - rewrite <-Eb. vm_compute. reflexivity.
  - apply no_caches_ok.
  - rewrite Eb. eexists _, c'. split; [exact Hd|]. split; [exact Hm|]. split; reflexivity.
Defined.

(** The unknown field 1029 may be skipped, and a note is checked inside the
    message; strictly, neither the field nor a wrong type passes. *)
Lemma RejectUnknownFields_accepts_witness :
  fine true 3%nat (Send_Marshal send ++ skippable) true /\ ~ (exists has, fine false 3%nat (Send_Marshal send ++ skippable) has) /\
  ~ (exists has, fine true 3%nat [18; 5; 13; 0; 0; 0; 0] has).
Proof.
  split; [|split].
  - apply (RejectUnknownFields_accepts (law_tag ref_laws) true). vm_compute. reflexivity.
  - intros [has Hf]. apply (proj1 (RejectUnknownFields_accepts (law_tag ref_laws) false _ _ _)) in Hf. vm_compute in Hf. discriminate Hf.
  - intros [has Hf]. apply (proj1 (RejectUnknownFields_accepts (law_tag ref_laws) true _ _ _)) in Hf. vm_compute in Hf. discriminate Hf.
Defined.

Lemma RejectUnknownFields_ends_witness :
  (exists v, verdict_of (Send_Marshal send) 3%nat true = Ok v) \/ (exists p, verdict_of (Send_Marshal send) 3%nat true = Panic p).
Proof. apply RejectUnknownFields_ends. exact (law_tag ref_laws). Defined.

Lemma decoded_keys_nil_witness :
  exists w c', DefaultTxDecoder (Msg := Send) 1%nat 2%nat encoded no_caches = (Ok w, c') /\
    exists i, TxAuthInfo (tx w) = Some i /\ GetPubKeys w = Ok (map (fun _ => None) (SignerInfos i)).
Proof.
  assert (is_ok (fst (DefaultTxDecoder (Msg := Send) 1%nat 2%nat encoded no_caches)) = true) as Hok by (vm_compute; reflexivity).
  destruct (DefaultTxDecoder (Msg := Send) 1%nat 2%nat encoded no_caches) as [[w|e|p] c'] eqn:E; [|discriminate Hok..].
  exists w, c'. split; [reflexivity|]. destruct (decoded_keys_nil 1%nat 2%nat encoded no_caches w c' E) as (i & Hi & Hk & _).
  exists i. split; [exact Hi|exact Hk].
Defined.

Lemma DefaultTxDecoder_cut_off_witness :
  fst (DefaultTxDecoder (Msg := Send) 1%nat 2%nat [10; 5] no_caches) = Panic "slice bounds out of range".
Proof.
  apply (DefaultTxDecoder_cut_off 1%nat 2%nat ref_laws 5 [] no_caches);
    [exact (raw_described 1%nat 2%nat ref_tx_types)|apply no_caches_ok|by vm_compute|vm_compute; reflexivity].
Defined.
