(* ===== verification/Bank.v ===== *)
(** The messages of the bank module: [modules/bank/types.go] and their
    encodings ([modules/bank/tx.pb.go], [modules/bank/bank.pb.go]). *)
From S2P Require Import Prelude GoStrings SdkInt CoinSet Coins BitArray Wire Decoding Keys Multisig Address TxTypes TxProto Sigs TxBuilder.

(* ------------------------------------------------------------------ *)
(** * Data *)

Record MsgSend := MkMsgSend { FromAddress : string; ToAddress : string; send_Amount : Coins }.
Record Input := MkInput { in_Address : string; in_Coins : Coins }.
Record Output := MkOutput { out_Address : string; out_Coins : Coins }.
Record MsgMultiSend := MkMsgMultiSend { Inputs : list Input; Outputs : list Output }.

Definition bank_ModuleName : string := "bank".
Definition TypeMsgSend : string := "send".
Definition TypeMsgMultiSend : string := "multisend".

(* ------------------------------------------------------------------ *)
(** * Operations *)
Section Operations.
Context `{B : Bech32Lib}.

Definition NewMsgSend (fromAddr toAddr : bytes) (amount : Coins) : res MsgSend :=
  from ← Acc_String fromAddr; to ← Acc_String toAddr; Ok (MkMsgSend from to amount).
Definition NewMsgMultiSend (ins : list Input) (outs : list Output) : MsgMultiSend := MkMsgMultiSend ins outs.
Definition NewInput (addr : bytes) (coins : Coins) : res Input := s ← Acc_String addr; Ok (MkInput s coins).
Definition NewOutput (addr : bytes) (coins : Coins) : res Output := s ← Acc_String addr; Ok (MkOutput s coins).

Definition MsgSend_ValidateBasic (msg : MsgSend) : res unit :=
  _ ← or_err (AccAddressFromBech32 (FromAddress msg)) "invalid sender address";
  _ ← or_err (AccAddressFromBech32 (ToAddress msg)) "invalid recipient address";
  valid ← Coins_IsValid (send_Amount msg);
  if negb valid then Err "invalid coins" else
  pos ← Coins_IsAllPositive (send_Amount msg);
  if negb pos then Err "invalid coins" else Ok tt.
Definition MsgSend_GetSigners (msg : MsgSend) : res (list bytes) :=
  from ← must (AccAddressFromBech32 (FromAddress msg)); Ok [from].

(** The checks on the coins that inputs and outputs share. *)
Definition validate_coins (coins : Coins) : res unit :=
  if Coins_Empty coins then Err "empty input coins" else
  valid ← Coins_IsValid coins;
  if negb valid then Err "invalid input coins [%s]" else
  pos ← Coins_IsAllPositive coins;
  if negb pos then Err "invalid input coins [%s]" else Ok tt.
Definition Input_ValidateBasic (i : Input) : res unit :=
  _ ← AccAddressFromBech32 (in_Address i); validate_coins (in_Coins i).
Definition Output_ValidateBasic (o : Output) : res unit :=
  _ ← or_err (AccAddressFromBech32 (out_Address o)) "invalid output address (%s)"; validate_coins (out_Coins o).

(** The loops that validate and add up; [Add] leaves the arrays of validated
    coins alone ([Coins_Add_spec]). *)
Definition add_input (totalIn : Coins) (i : Input) : res Coins :=
  _ ← Input_ValidateBasic i; '(s, _, _) ← Coins_Add totalIn (in_Coins i); Ok s.
Definition add_output (totalOut : Coins) (o : Output) : res Coins :=
  _ ← Output_ValidateBasic o; '(s, _, _) ← Coins_Add totalOut (out_Coins o); Ok s.
Definition match_totals (inputs : list Input) (outputs : list Output) (mismatch : string) : res unit :=
  totalIn ← for_each add_input [] inputs;
  totalOut ← for_each add_output [] outputs;
  equal ← snd (Coins_IsEqual totalIn totalOut);
  if negb equal then Err mismatch else Ok tt.

Definition MsgMultiSend_ValidateBasic (msg : MsgMultiSend) : res unit :=
  match Inputs msg, Outputs msg with
  | [], _ => Err "invalid input coins"
  | _, [] => Err "invalid output coins"
  | ins, outs => match_totals ins outs "inputs and outputs don't match"
  end.
Definition ValidateInputsOutputs (inputs : list Input) (outputs : list Output) : res unit :=
  match_totals inputs outputs "sum inputs != sum outputs".

(** The errors are dropped: an address that cannot be decoded is nil. *)
Definition MsgMultiSend_GetSigners (msg : MsgMultiSend) : res (list bytes) :=
  map_res (fun i => match AccAddressFromBech32 (in_Address i) with Ok addr => Ok addr | Err _ => Ok [] | Panic p => Panic p end)
    (Inputs msg).
End Operations.

(* ------------------------------------------------------------------ *)
(** * Encodings *)

Definition MsgSend_Marshal (m : MsgSend) : bytes :=
  opt_bytes 10 (to_bytes (FromAddress m)) (opt_bytes 18 (to_bytes (ToAddress m))
    (rep_bytes 26 (map Coin_Marshal (send_Amount m)) [])).
Definition Input_Marshal (m : Input) : bytes :=
  opt_bytes 10 (to_bytes (in_Address m)) (rep_bytes 18 (map Coin_Marshal (in_Coins m)) []).
Definition Output_Marshal (m : Output) : bytes :=
  opt_bytes 10 (to_bytes (out_Address m)) (rep_bytes 18 (map Coin_Marshal (out_Coins m)) []).
Definition MsgMultiSend_Marshal (m : MsgMultiSend) : bytes :=
  rep_bytes 10 (map Input_Marshal (Inputs m)) (rep_bytes 18 (map Output_Marshal (Outputs m)) []).

Definition coins_size (k : Z) (coins : Coins) : Z := sum_sizes (map (fun c => msg_size k (Coin_Size c)) coins).
Definition MsgSend_Size (m : MsgSend) : Z :=
  opt_bytes_size (to_bytes (FromAddress m)) + opt_bytes_size (to_bytes (ToAddress m)) + coins_size 1 (send_Amount m).
Definition Input_Size (m : Input) : Z := opt_bytes_size (to_bytes (in_Address m)) + coins_size 1 (in_Coins m).
Definition Output_Size (m : Output) : Z := opt_bytes_size (to_bytes (out_Address m)) + coins_size 1 (out_Coins m).
Definition MsgMultiSend_Size (m : MsgMultiSend) : Z :=
  sum_sizes (map (fun i => msg_size 1 (Input_Size i)) (Inputs m)) +
  sum_sizes (map (fun o => msg_size 1 (Output_Size o)) (Outputs m)).

Definition MsgSend_field (m : MsgSend) (num wt l : Z) (buf : bytes) :=
  let '(MkMsgSend from to amount) := m in
  if num =? 1 then get_bytes (fun bs => MkMsgSend (bytes_str bs) to amount) wt l buf
  else if num =? 2 then get_bytes (fun bs => MkMsgSend from (bytes_str bs) amount) wt l buf
  else if num =? 3 then get_msg (fun c => MkMsgSend from to (amount ++ [c])) (Coin_Unmarshal empty_Coin) wt l buf
  else None.
Definition empty_MsgSend : MsgSend := MkMsgSend "" "" [].
Definition MsgSend_Unmarshal (m : MsgSend) (dAtA : bytes) : res MsgSend := unmarshal MsgSend_field keep m dAtA.

Definition Input_field (m : Input) (num wt l : Z) (buf : bytes) :=
  let '(MkInput address coins) := m in
  if num =? 1 then get_bytes (fun bs => MkInput (bytes_str bs) coins) wt l buf
  else if num =? 2 then get_msg (fun c => MkInput address (coins ++ [c])) (Coin_Unmarshal empty_Coin) wt l buf
  else None.
Definition empty_Input : Input := MkInput "" [].
Definition Input_Unmarshal (m : Input) (dAtA : bytes) : res Input := unmarshal Input_field keep m dAtA.

Definition Output_field (m : Output) (num wt l : Z) (buf : bytes) :=
  let '(MkOutput address coins) := m in
  if num =? 1 then get_bytes (fun bs => MkOutput (bytes_str bs) coins) wt l buf
  else if num =? 2 then get_msg (fun c => MkOutput address (coins ++ [c])) (Coin_Unmarshal empty_Coin) wt l buf
  else None.
Definition empty_Output : Output := MkOutput "" [].
Definition Output_Unmarshal (m : Output) (dAtA : bytes) : res Output := unmarshal Output_field keep m dAtA.

Definition MsgMultiSend_field (m : MsgMultiSend) (num wt l : Z) (buf : bytes) :=
  let '(MkMsgMultiSend ins outs) := m in
  if num =? 1 then get_msg (fun i => MkMsgMultiSend (ins ++ [i]) outs) (Input_Unmarshal empty_Input) wt l buf
  else if num =? 2 then get_msg (fun o => MkMsgMultiSend ins (outs ++ [o])) (Output_Unmarshal empty_Output) wt l buf
  else None.
Definition empty_MsgMultiSend : MsgMultiSend := MkMsgMultiSend [] [].
Definition MsgMultiSend_Unmarshal (m : MsgMultiSend) (dAtA : bytes) : res MsgMultiSend :=
  unmarshal MsgMultiSend_field keep m dAtA.

(** The module's messages as messages of a transaction. *)
Inductive BankMsg := BankSend (m : MsgSend) | BankMultiSend (m : MsgMultiSend).
Definition BankMsg_ValidateBasic `{Bech32Lib} (m : BankMsg) : res unit :=
  match m with BankSend m => MsgSend_ValidateBasic m | BankMultiSend m => MsgMultiSend_ValidateBasic m end.
#[export] Instance BankMsg_msg `{Bech32Lib} : MsgInterface BankMsg := {|
  msg_proto := {|
    MessageName m := match m with BankSend _ => "cosmos.bank.v1beta1.MsgSend" | BankMultiSend _ => "cosmos.bank.v1beta1.MsgMultiSend" end;
    proto_Marshal m := Ok (match m with BankSend m => MsgSend_Marshal m | BankMultiSend m => MsgMultiSend_Marshal m end) |};
  msg_GetSigners m := match m with BankSend m => MsgSend_GetSigners m | BankMultiSend m => MsgMultiSend_GetSigners m end;
|}.

(* ------------------------------------------------------------------ *)
(** * Round trips *)
#[local] Arguments unmarshal : simpl never.

Lemma MsgSend_decodes m : Coins_wf (send_Amount m) ->
  Z.of_nat (length (MsgSend_Marshal m)) < 2 ^ 62 -> MsgSend_Unmarshal empty_MsgSend (MsgSend_Marshal m) = Ok m.
Proof.
  destruct m as [from to amount]. intros Hc H62. apply Reads_unmarshal; [|done].
  apply (Reads_opt_string _ _ 10 1 _ (fun s => MkMsgSend s "" [])); [read_field..|].
  apply (Reads_opt_string _ _ 18 2 _ (fun s => MkMsgSend from s [])); [read_field..|].
  apply (Reads_rep_coins _ _ 26 3 (MkMsgSend from to)); [read_field..|apply Reads_nil].
Qed.
Lemma Input_decodes m : Coins_wf (in_Coins m) ->
  Z.of_nat (length (Input_Marshal m)) < 2 ^ 62 -> Input_Unmarshal empty_Input (Input_Marshal m) = Ok m.
Proof.
  destruct m as [addr coins]. intros Hc H62. apply Reads_unmarshal; [|done].
  apply (Reads_opt_string _ _ 10 1 _ (fun s => MkInput s [])); [read_field..|].
  apply (Reads_rep_coins _ _ 18 2 (MkInput addr)); [read_field..|apply Reads_nil].
Qed.
Lemma Output_decodes m : Coins_wf (out_Coins m) ->
  Z.of_nat (length (Output_Marshal m)) < 2 ^ 62 -> Output_Unmarshal empty_Output (Output_Marshal m) = Ok m.
Proof.
  destruct m as [addr coins]. intros Hc H62. apply Reads_unmarshal; [|done].
  apply (Reads_opt_string _ _ 10 1 _ (fun s => MkOutput s [])); [read_field..|].
  apply (Reads_rep_coins _ _ 18 2 (MkOutput addr)); [read_field..|apply Reads_nil].
Qed.

(** Messages whose amounts are present and in range. *)
Definition BankMsg_wf (m : BankMsg) : Prop :=
  match m with
  | BankSend m => Coins_wf (send_Amount m)
  | BankMultiSend m => Forall (fun i => Coins_wf (in_Coins i)) (Inputs m) /\ Forall (fun o => Coins_wf (out_Coins o)) (Outputs m)
  end.
Lemma MsgMultiSend_decodes m : BankMsg_wf (BankMultiSend m) ->
  Z.of_nat (length (MsgMultiSend_Marshal m)) < 2 ^ 62 ->
  MsgMultiSend_Unmarshal empty_MsgMultiSend (MsgMultiSend_Marshal m) = Ok m.
Proof.
  destruct m as [ins outs]. intros [Hi Ho] H62. apply Reads_unmarshal; [|done].
  apply (Reads_rep_bytes _ _ 10 1 (fun l => MkMsgMultiSend l []) [] (Input_Unmarshal empty_Input) _ ins); [read_field..| |].
  { rewrite <-(map_id ins) at 2. apply Forall2_map_dec. eapply Forall_impl; [exact Hi|]. intros i. apply Input_decodes. }
  apply (Reads_rep_bytes _ _ 18 2 (MkMsgMultiSend ins) [] (Output_Unmarshal empty_Output) _ outs); [read_field..| |apply Reads_nil].
  rewrite <-(map_id outs) at 2. apply Forall2_map_dec. eapply Forall_impl; [exact Ho|]. intros o. apply Output_decodes.
Qed.

(* ------------------------------------------------------------------ *)
(** * Sums of validated coins *)
Section Totals.
Context {P : Type} (validate : P -> res unit) (coins : P -> Coins).
Hypothesis validate_coins_ok : forall p, Coins_wf (coins p) -> validate p = Ok tt -> sorted_coins (coins p) /\ Forall positive (coins p).

Definition add_party (t : Coins) (p : P) : res Coins := _ ← validate p; '(s, _, _) ← Coins_Add t (coins p); Ok s.
(** The total of a denomination over all parties. *)
Definition party_total (l : list P) (denom : string) : Z := foldr (fun p n => total (coins p) denom + n) 0 l.
(** A running total. *)
Definition running (t : Coins) : Prop := canonical t /\ Coins_wf t /\ Forall positive t.

Lemma running_nil : running [].
Proof. repeat split; constructor. Qed.
Lemma total_range t denom : running t -> int_range (total t denom).
Proof.
  intros (Hc & Hw & Hp). destruct (decide (total t denom = 0)) as [->|Hz]; [by vm_compute|].
  apply total_nonzero_elem in Hz as (c & Hc' & <-). rewrite total_sorted by (done || apply Hc).
  unfold Coins_wf in Hw. rewrite Forall_forall in Hw. destruct (Hw c Hc') as (z & E & Hz). unfold coin_val. by rewrite E.
Qed.
Lemma party_total_nonneg l denom :
  Forall (fun p => Coins_wf (coins p)) l -> Forall (fun p => validate p = Ok tt) l -> 0 <= party_total l denom.
Proof using validate_coins_ok.
  intros Hw. induction Hw as [|p l Hp _ IH]; intros Hv; [done|]. apply Forall_cons in Hv as [Hvp Hv]. cbn [party_total foldr].
  destruct (validate_coins_ok p Hp Hvp) as [_ Hpos]. pose proof (total_nonneg (coins p) denom Hpos).
  specialize (IH Hv). unfold party_total in IH. lia.
Qed.

Lemma add_party_Ok t p s : running t -> Coins_wf (coins p) -> add_party t p = Ok s ->
  validate p = Ok tt /\ running s /\ (forall denom, total s denom = total t denom + total (coins p) denom).
Proof using validate_coins_ok.
  intros (Hc & Hw & Hp) Hwp E. unfold add_party in E. apply bind_Ok in E as ([] & Hv & E).
  destruct (validate_coins_ok p Hwp Hv) as [Hs Hpos].
  destruct (Coins_Add t (coins p)) as [[[s' arrA] arrB]|e|e] eqn:Ea; [|done..]. injection E as ->.
  destruct (add_result_canonical t (coins p) s) as [Hcs Ht].
  - done.
  - split_and!; [done|by apply Coins_wf_has_val|]. eapply Forall_impl; [exact Hpos|]. unfold positive, nonzero. lia.
  - unfold add_result. by rewrite Ea.
  - split; [done|]. split; [|done]. split; [done|]. split; [by eapply Coins_Add_wf; [exact Hw|exact Hwp|apply Hc|exact Hs|exact Ea]|].
    apply canonical_positive; [done|]. intros denom. rewrite Ht.
    pose proof (total_nonneg t denom Hp). pose proof (total_nonneg (coins p) denom Hpos). lia.
Qed.
Lemma add_party_total t p : running t -> Coins_wf (coins p) -> validate p = Ok tt ->
  (exists s, add_party t p = Ok s) \/ exists denom, ~ int_range (total t denom + total (coins p) denom).
Proof using validate_coins_ok.
  intros (Hc & Hw & Hp) Hwp Hv. destruct (validate_coins_ok p Hwp Hv) as [Hs Hpos]. unfold add_party. rewrite Hv. cbn [mbind res_bind].
  destruct (safe_add_spec denom_mismatch t (coins p) (Coins_wf_has_val t Hw) (Coins_wf_has_val _ Hwp))
    as [(s & arrA & arrB & E & _)|[E Ho]]; unfold Coins_Add, Coins_safeAdd; rewrite E; [left; eexists; reflexivity|right].
  destruct (overflow_pair_total _ _ (proj1 Hc) Hs Ho) as (denom & Hd). exists denom. unfold int_range.
  cbn [am_bits Int_amount_laws] in Hd. lia.
Qed.

(** The loop succeeds exactly when every party is valid and no total leaves the
    range of [Int]. *)
Lemma add_parties_spec t l : running t -> Forall (fun p => Coins_wf (coins p)) l ->
  (forall s, for_each add_party t l = Ok s ->
     Forall (fun p => validate p = Ok tt) l /\ running s /\ (forall denom, total s denom = total t denom + party_total l denom)) /\
  (Forall (fun p => validate p = Ok tt) l -> (forall denom, int_range (total t denom + party_total l denom)) ->
     exists s, for_each add_party t l = Ok s).
Proof using validate_coins_ok.
  intros Ht Hl. revert t Ht. induction Hl as [|p l Hp Hl IH]; intros t Ht.
  - split; [|intros _ _; by exists t]. intros s [= <-]. split; [constructor|]. split; [done|]. intros denom. cbn. lia.
  - cbn [for_each party_total foldr]. split.
    + intros s E. apply bind_Ok in E as (t1 & E1 & E). destruct (add_party_Ok _ _ _ Ht Hp E1) as (Hv & Ht1 & Htot).
      destruct (proj1 (IH t1 Ht1) s E) as (Hvl & Hs & Hst). split; [by constructor|]. split; [done|].
      intros denom. rewrite Hst, Htot. unfold party_total. lia.
    + intros [Hv Hvl]%Forall_cons Hr. destruct (add_party_total t p Ht Hp Hv) as [(t1 & E1)|(denom & Hd)].
      * rewrite E1. cbn [mbind res_bind]. destruct (add_party_Ok _ _ _ Ht Hp E1) as (_ & Ht1 & Htot).
        apply (proj2 (IH t1 Ht1)); [done|]. intros denom. rewrite Htot. specialize (Hr denom). unfold party_total. by rewrite <-Z.add_assoc.
      * destruct Hd. specialize (Hr denom). pose proof (party_total_nonneg l denom Hl Hvl) as Hn. unfold party_total in Hn.
        destruct Ht as (_ & _ & Hpt). pose proof (total_nonneg t denom Hpt).
        destruct (validate_coins_ok p Hp Hv) as [_ Hpos]. pose proof (total_nonneg (coins p) denom Hpos).
        unfold int_range in *. lia.
Qed.
End Totals.

Section Validation.
Context `{B : Bech32Lib}.

Lemma validate_coins_spec coins : Coins_wf coins -> validate_coins coins = Ok tt <-> coins <> [] /\ valid_coins coins.
Proof.
  intros Hw. pose proof (Coins_wf_has_val _ Hw) as Hv. unfold validate_coins, Coins_IsValid, Coins_IsAllPositive.
  destruct (IsValid_spec coins Hv) as (b & -> & Hb). destruct (allPositive_spec coins Hv) as (p & Hp & Hps).
  destruct coins as [|c l]; [naive_solver|]. cbn [Coins_Empty Empty mbind res_bind IsAllPositive]. rewrite Hp.
  destruct b; cbn [negb]; [|naive_solver].
  assert (p = true) as -> by (apply Hps, Hb; done). naive_solver.
Qed.

(** A valid party: its address can be decoded and its coins are valid. *)
Definition party_ok (address : string) (coins : Coins) : Prop :=
  (exists a, AccAddressFromBech32 address = Ok a) /\ coins <> [] /\ valid_coins coins.
Lemma Input_ValidateBasic_spec i : Coins_wf (in_Coins i) -> Input_ValidateBasic i = Ok tt <-> party_ok (in_Address i) (in_Coins i).
Proof.
  intros Hw. unfold Input_ValidateBasic, party_ok. rewrite <-(validate_coins_spec _ Hw).
  destruct (AccAddressFromBech32 (in_Address i)); naive_solver.
Qed.
Lemma Output_ValidateBasic_spec o : Coins_wf (out_Coins o) -> Output_ValidateBasic o = Ok tt <-> party_ok (out_Address o) (out_Coins o).
Proof.
  intros Hw. unfold Output_ValidateBasic, party_ok. rewrite <-(validate_coins_spec _ Hw).
  destruct (AccAddressFromBech32 (out_Address o)); naive_solver.
Qed.

Definition in_total (ins : list Input) : string -> Z := party_total in_Coins ins.
Definition out_total (outs : list Output) : string -> Z := party_total out_Coins outs.
Definition inputs_ok (ins : list Input) : Prop := Forall (fun i => party_ok (in_Address i) (in_Coins i)) ins.
Definition outputs_ok (outs : list Output) : Prop := Forall (fun o => party_ok (out_Address o) (out_Coins o)) outs.

(** The inner checks: valid parties, totals in range, and equal. *)
Lemma match_totals_spec ins outs e :
  Forall (fun i => Coins_wf (in_Coins i)) ins -> Forall (fun o => Coins_wf (out_Coins o)) outs ->
  match_totals ins outs e = Ok tt <->
  inputs_ok ins /\ outputs_ok outs /\ (forall denom, int_range (in_total ins denom)) /\
  (forall denom, in_total ins denom = out_total outs denom).
Proof.
  intros Wi Wo.
  assert (inputs_ok ins <-> Forall (fun i => Input_ValidateBasic i = Ok tt) ins) as Hi.
  { unfold inputs_ok. rewrite !Forall_forall in *. split; intros H i Hin; specialize (H i Hin); by apply Input_ValidateBasic_spec; auto. }
  assert (outputs_ok outs <-> Forall (fun o => Output_ValidateBasic o = Ok tt) outs) as Ho.
  { unfold outputs_ok. rewrite !Forall_forall in *. split; intros H o Hin; specialize (H o Hin); by apply Output_ValidateBasic_spec; auto. }
  rewrite Hi, Ho.
  destruct (add_parties_spec Input_ValidateBasic in_Coins) with (t := @nil Coin) (l := ins) as [I1 I2]; [|apply running_nil|done|].
  { intros p Hp (_ & _ & ? & ? & _)%Input_ValidateBasic_spec; done. }
  destruct (add_parties_spec Output_ValidateBasic out_Coins) with (t := @nil Coin) (l := outs) as [O1 O2]; [|apply running_nil|done|].
  { intros p Hp (_ & _ & ? & ? & _)%Output_ValidateBasic_spec; done. }
  unfold match_totals. change add_input with (add_party Input_ValidateBasic in_Coins).
  change add_output with (add_party Output_ValidateBasic out_Coins). split.
  - intros E. apply bind_Ok in E as (ti & Ei & E). apply bind_Ok in E as (to & Eo & E). apply bind_Ok in E as (b & Eb & E).
    destruct b; [|done]. destruct (I1 ti Ei) as (Hvi & Ri & Ti). destruct (O1 to Eo) as (Hvo & Ro & To).
    apply Coins_IsEqual_true in Eb as <-; [|apply Ri|apply Ro|apply Ri|apply Ro]. split_and!; [done|done|..]; intros denom.
    + specialize (Ti denom). cbn [total] in Ti. rewrite Z.add_0_l in Ti. unfold in_total. rewrite <-Ti. by apply total_range.
    + specialize (Ti denom). specialize (To denom). cbn [total] in Ti, To. unfold in_total, out_total. lia.
  - intros (Hvi & Hvo & Hr & Heq). destruct (I2 Hvi Hr) as [ti Ei].
    destruct (O2 Hvo) as [to Eo]. { intros denom. specialize (Heq denom). specialize (Hr denom). unfold in_total, out_total in *. cbn [total]. rewrite Z.add_0_l, <-Heq. exact Hr. }
    rewrite Ei, Eo. cbn [mbind res_bind]. destruct (I1 ti Ei) as (_ & Ri & Ti). destruct (O1 to Eo) as (_ & Ro & To).
    assert (ti = to) as <-.
    { apply canonical_ext; [apply Ri|apply Ro|]. intros denom. rewrite Ti, To. cbn [total]. specialize (Heq denom).
      unfold in_total, out_total in Heq. lia. }
    rewrite (proj2 (Coins_IsEqual_true ti ti (proj1 (proj2 Ri)) (proj1 (proj2 Ri)) (proj1 (proj1 Ri)) (proj1 (proj1 Ri))) eq_refl). done.
Qed.
End Validation.

(* ------------------------------------------------------------------ *)
(** * Properties *)

(** C20: A transfer with many parties is accepted exactly when it moves money without
    making or losing any: there are inputs and outputs, every one has a decodable
    address and a valid non-empty list of positive coins, and for every
    denomination the total of the inputs is within the range of [Int] and equals
    the total of the outputs.  [ValidateInputsOutputs] accepts the same except
    that it does not ask for parties. *)
Theorem MsgMultiSend_balanced `{Bech32Lib} (msg : MsgMultiSend) :
  BankMsg_wf (BankMultiSend msg) ->
  let balanced := inputs_ok (Inputs msg) /\ outputs_ok (Outputs msg) /\ (forall denom, int_range (in_total (Inputs msg) denom)) /\
    (forall denom, in_total (Inputs msg) denom = out_total (Outputs msg) denom) in
  (MsgMultiSend_ValidateBasic msg = Ok tt <-> Inputs msg <> [] /\ Outputs msg <> [] /\ balanced) /\
  (ValidateInputsOutputs (Inputs msg) (Outputs msg) = Ok tt <-> balanced).
Proof.
  intros [Wi Wo] balanced. split; [|by apply match_totals_spec].
  unfold MsgMultiSend_ValidateBasic. destruct (Inputs msg) as [|i ins] eqn:Ei; [naive_solver|].
  destruct (Outputs msg) as [|o outs] eqn:Eo; [naive_solver|]. unfold balanced. rewrite <-(match_totals_spec _ _ "inputs and outputs don't match" Wi Wo).
  naive_solver.
Qed.

(** Two transfers of one coin each whose denominations differ make the check of
    the totals panic instead of reporting an error. *)
Theorem MsgMultiSend_panics `{Bech32Lib} a1 a2 d1 d2 x1 x2 :
  (exists a, AccAddressFromBech32 a1 = Ok a) -> (exists a, AccAddressFromBech32 a2 = Ok a) -> d1 <> d2 ->
  is_denom d1 = true -> is_denom d2 = true -> 0 < x1 -> 0 < x2 -> int_range x1 -> int_range x2 ->
  MsgMultiSend_ValidateBasic (MkMsgMultiSend [MkInput a1 [coinV d1 x1]] [MkOutput a2 [coinV d2 x2]]) = Panic denom_mismatch.
Proof.
  intros [b1 H1] [b2 H2] Hne D1 D2 P1 P2 R1 R2. cbn [MsgMultiSend_ValidateBasic Inputs Outputs]. unfold match_totals.
  assert (forall d x, 0 < x -> canonical [coinV d x]) as Hcan by (intros d x Hx; apply canonical_one; lia).
  assert (forall d x, 0 < x -> int_range x -> is_denom d = true ->
    validate_coins [coinV d x] = Ok tt /\ exists a b, Coins_Add [] [coinV d x] = Ok ([coinV d x], a, b)) as Hone.
  { intros d x Hx Hr Hd. split.
    - apply validate_coins_spec; [constructor; [by eexists|constructor]|]. split; [done|].
      split_and!; [apply (Hcan d x Hx)|constructor; [exact Hx|constructor]|done|constructor].
    - pose proof (safe_add_snoc denom_mismatch [] (coinV d x) (Hcan d x Hx)) as E. unfold Coins_Add, Coins_safeAdd. rewrite E. eauto. }
  destruct (Hone d1 x1 P1 R1 D1) as (V1 & u1 & w1 & E1). destruct (Hone d2 x2 P2 R2 D2) as (V2 & u2 & w2 & E2).
  cbn [for_each]. unfold add_input, add_output, Input_ValidateBasic, Output_ValidateBasic. cbn [in_Address in_Coins out_Address out_Coins].
  rewrite H1, V1. cbn [mbind res_bind or_err]. rewrite E1, H2. cbn [mbind res_bind or_err]. rewrite V2. cbn [mbind res_bind]. rewrite E2.
  cbn [mbind res_bind]. unfold Coins_IsEqual, coins_eq. cbn [length Nat.eqb negb snd].
  rewrite !Sort_id by (repeat constructor). cbn [coins_eq_loop]. unfold coin_eq. cbn [Denom]. by rewrite decide_False.
Qed.

(** Messages of the bank module are decoded to themselves, and their sizes are
    exact. *)
Theorem BankMsg_roundtrip (m : BankMsg) : BankMsg_wf m ->
  match m with
  | BankSend m => Z.of_nat (length (MsgSend_Marshal m)) < 2 ^ 62 ->
      MsgSend_Unmarshal empty_MsgSend (MsgSend_Marshal m) = Ok m /\ Z.of_nat (length (MsgSend_Marshal m)) = MsgSend_Size m
  | BankMultiSend m => Z.of_nat (length (MsgMultiSend_Marshal m)) < 2 ^ 62 ->
      MsgMultiSend_Unmarshal empty_MsgMultiSend (MsgMultiSend_Marshal m) = Ok m /\
      Z.of_nat (length (MsgMultiSend_Marshal m)) = MsgMultiSend_Size m
  end.
Proof.
  assert (forall l, Forall2 sized (map Coin_Marshal l) (map Coin_Size l)) as Hc.
  { intros l. apply Forall2_sized_map, Forall_forall. intros c _. apply Coin_sized. }
  destruct m as [[from to amount]|[ins outs]]; intros Hw H62.
  - split; [by apply MsgSend_decodes|]. revert H62. eapply sized_eq.
    + unfold MsgSend_Marshal. apply sized_opt_bytes, sized_opt_bytes, sized_rep_bytes; [apply Hc|apply sized_nil].
    + unfold MsgSend_Size, coins_size. rewrite map_map. cbn. lia.
  - split; [by apply MsgMultiSend_decodes|]. revert H62. eapply sized_eq.
    + unfold MsgMultiSend_Marshal. apply sized_rep_bytes; [|apply sized_rep_bytes; [|apply sized_nil]];
        [apply (Forall2_sized_map Input_Marshal Input_Size)|apply (Forall2_sized_map Output_Marshal Output_Size)];
        apply Forall_forall; intros [a l] _; (eapply sized_eq;
          [unfold Input_Marshal, Output_Marshal; apply sized_opt_bytes, sized_rep_bytes; [apply Hc|apply sized_nil]|]);
        unfold Input_Size, Output_Size, coins_size; rewrite map_map; cbn; lia.
    + unfold MsgMultiSend_Size. rewrite !map_map. cbn. lia.
Qed.

(* ------------------------------------------------------------------ *)
(** * Witnesses *)
#[local] Existing Instance toy_bech32.
Definition toy_multi : MsgMultiSend :=
  MkMsgMultiSend [MkInput some_address [coinV "abc" 3]; MkInput some_address [coinV "abc" 1; coinV "bcd" 2]]
    [MkOutput some_address [coinV "abc" 4; coinV "bcd" 2]].

Lemma toy_multi_wf : BankMsg_wf (BankMultiSend toy_multi).
Proof. split; repeat (apply Forall_cons; split); try apply Forall_nil_2; cbn; wf_coins. Qed.

Lemma MsgMultiSend_balanced_witness :
  in_total (Inputs toy_multi) "abc" = out_total (Outputs toy_multi) "abc" /\ out_total (Outputs toy_multi) "abc" = 4.
Proof.
  split; [|vm_compute; reflexivity].
  apply (proj1 (proj1 (MsgMultiSend_balanced toy_multi toy_multi_wf))). vm_compute. reflexivity.
Defined.

Lemma MsgMultiSend_panics_witness :
  MsgMultiSend_ValidateBasic (MkMsgMultiSend [MkInput some_address [coinV "abc" 3]] [MkOutput some_address [coinV "bcd" 3]]) =
  Panic denom_mismatch.
Proof.
  apply (MsgMultiSend_panics some_address some_address "abc" "bcd" 3 3); try (vm_compute; reflexivity); try discriminate;
    exists [18; 255]; vm_compute; reflexivity.
Defined.

Lemma BankMsg_roundtrip_witness :
  MsgMultiSend_Unmarshal empty_MsgMultiSend (MsgMultiSend_Marshal toy_multi) = Ok toy_multi /\ MsgMultiSend_Size toy_multi = 83.
Proof.
  destruct (BankMsg_roundtrip (BankMultiSend toy_multi) toy_multi_wf) as [E _]; [vm_compute; reflexivity|].
  split; [exact E|vm_compute; reflexivity].
Defined.
