(* ===== verification/Coinswap.v ===== *)
(** The messages of the coinswap module: [modules/coinswap/types.go] and their
    encodings ([modules/coinswap/tx.pb.go]).  The prices are in [SwapPrices.v]. *)
From S2P Require Import Prelude GoStrings BigText SdkInt SdkDec CoinSet CoinText Coins CoinType BitArray Wire Decoding Keys Multisig Address TxTypes TxProto Sigs TxBuilder Codec Messages.

(* ------------------------------------------------------------------ *)
(** * Data *)

Record MsgCreatePool := MkMsgCreatePool { PoolCreatorAddress : string; PoolTypeId : Z; pool_DepositCoins : Coins }.
Record MsgDepositWithinBatch := MkMsgDepositWithinBatch { DepositorAddress : string; dep_PoolId : Z; dep_DepositCoins : Coins }.
Record MsgWithdrawWithinBatch := MkMsgWithdrawWithinBatch { WithdrawerAddress : string; wd_PoolId : Z; PoolCoin : Coin }.
Record MsgSwapWithinBatch := MkMsgSwapWithinBatch {
  SwapRequesterAddress : string; swap_PoolId : Z; SwapTypeId : Z; OfferCoin : Coin; DemandCoinDenom : string;
  OfferCoinFee : Coin; OrderPrice : Dec }.

(* ------------------------------------------------------------------ *)
(** * Operations *)
Section Operations.
Context `{B : Bech32Lib}.

(** [==] on coins compares the names and the pointers to the amounts;
    [same_amount] tells whether the pointers are equal. *)
Variable same_amount : Int -> Int -> bool.
Definition coin_identical (c d : Coin) : bool := bool_decide (Denom c = Denom d) && same_amount (Amount c) (Amount d).

(** The check of the two deposited coins that two messages share. *)
Definition check_deposit (DepositCoins : Coins) : res unit :=
  _ ← or_err (Coins_Validate DepositCoins) "invalid DepositCoins: %s";
  match DepositCoins with
  | c0 :: c1 :: _ => if coin_identical c0 c1 then Err "identical MaxToken: %s" else Ok tt
  | _ => Panic index_out_of_range
  end.

Definition MsgCreatePool_ValidateBasic (msg : MsgCreatePool) : res unit :=
  _ ← check_deposit (pool_DepositCoins msg);
  _ ← AccAddressFromBech32 (PoolCreatorAddress msg); Ok tt.
Definition MsgCreatePool_GetSigners (msg : MsgCreatePool) : res (list bytes) :=
  a ← MustAccAddressFromBech32 (PoolCreatorAddress msg); Ok [a].

Definition MsgDepositWithinBatch_ValidateBasic (msg : MsgDepositWithinBatch) : res unit :=
  _ ← check_deposit (dep_DepositCoins msg);
  pos ← Coins_IsAllPositive (dep_DepositCoins msg);
  if negb pos then Err "IsNotPositive DepositCoins: %s" else
  _ ← AccAddressFromBech32 (DepositorAddress msg); Ok tt.
Definition MsgDepositWithinBatch_GetSigners (msg : MsgDepositWithinBatch) : res (list bytes) :=
  a ← MustAccAddressFromBech32 (DepositorAddress msg); Ok [a].

Definition MsgSwapWithinBatch_ValidateBasic (msg : MsgSwapWithinBatch) : res unit :=
  _ ← or_err (AccAddressFromBech32 (SwapRequesterAddress msg)) "invalid pool swap requester address ,err:%s";
  _ ← Coin_Validate (OfferCoin msg);
  pos ← Coin_IsPositive (OfferCoin msg);
  if negb pos then Err "invalid offer coin amount" else
  pos ← Dec_IsPositive (OrderPrice msg);
  if negb pos then Err "invalid order price" else
  enough ← Int_GTE (Amount (OfferCoin msg)) (NewInt 100);
  if negb enough then Err "offer amount should be over 100 micro" else Ok tt.
Definition MsgSwapWithinBatch_GetSigners (msg : MsgSwapWithinBatch) : res (list bytes) :=
  a ← must (AccAddressFromBech32 (SwapRequesterAddress msg)); Ok [a].

Definition MsgWithdrawWithinBatch_ValidateBasic (msg : MsgWithdrawWithinBatch) : res unit :=
  _ ← or_err (AccAddressFromBech32 (WithdrawerAddress msg)) "invalid pool withdrawer address";
  _ ← Coin_Validate (PoolCoin msg);
  pos ← Coin_IsPositive (PoolCoin msg);
  if negb pos then Err "invalid pool coin amount" else Ok tt.
Definition MsgWithdrawWithinBatch_GetSigners (msg : MsgWithdrawWithinBatch) : res (list bytes) :=
  a ← must (AccAddressFromBech32 (WithdrawerAddress msg)); Ok [a].
End Operations.

(* ------------------------------------------------------------------ *)
(** * Encodings *)

Definition MsgCreatePool_Marshal (m : MsgCreatePool) : bytes :=
  let '(MkMsgCreatePool pca pti dc) := m in opt_bytes 10 (to_bytes pca) (opt_varint 16 pti (rep_bytes 34 (map Coin_Marshal dc)
    [])).
Definition MsgCreatePool_Size (m : MsgCreatePool) : Z :=
  let '(MkMsgCreatePool pca pti dc) := m in opt_bytes_size (to_bytes pca) + opt_varint_size pti + sum_sizes (map (fun x =>
    msg_size 1 (Coin_Size x)) dc).
Definition MsgCreatePool_field (m : MsgCreatePool) (num wt l : Z) (buf : bytes) :=
  let '(MkMsgCreatePool pca pti dc) := m in
  if num =? 1 then get_bytes (fun bs => MkMsgCreatePool (bytes_str bs) pti dc) wt l buf
  else if num =? 2 then get_varint (fun v => MkMsgCreatePool pca (wrap_u32 v) dc) wt buf
  else if num =? 4 then get_msg (fun x => MkMsgCreatePool pca pti (dc ++ [x])) (Coin_Unmarshal empty_Coin) wt l buf
  else None.
Definition empty_MsgCreatePool : MsgCreatePool := MkMsgCreatePool "" 0 [].
Definition MsgCreatePool_Unmarshal (m : MsgCreatePool) (dAtA : bytes) : res MsgCreatePool := unmarshal MsgCreatePool_field keep m dAtA.
Definition MsgCreatePool_ok (m : MsgCreatePool) : Prop :=
  let '(MkMsgCreatePool pca pti dc) := m in is_uint32 pti /\ Forall coin_ok dc.
#[export] Instance MsgCreatePool_codec : Codec MsgCreatePool := {|
  codec_empty := empty_MsgCreatePool; codec_Marshal := MsgCreatePool_Marshal; codec_Size := MsgCreatePool_Size;
  codec_Unmarshal := MsgCreatePool_Unmarshal; codec_ok := MsgCreatePool_ok |}.
#[export] Instance MsgCreatePool_laws : CodecLaws MsgCreatePool.
Proof. codec_laws. Qed.

Definition MsgDepositWithinBatch_Marshal (m : MsgDepositWithinBatch) : bytes :=
  let '(MkMsgDepositWithinBatch da pi dc) := m in opt_bytes 10 (to_bytes da) (opt_varint 16 pi (rep_bytes 26 (map Coin_Marshal
    dc) [])).
Definition MsgDepositWithinBatch_Size (m : MsgDepositWithinBatch) : Z :=
  let '(MkMsgDepositWithinBatch da pi dc) := m in opt_bytes_size (to_bytes da) + opt_varint_size pi + sum_sizes (map (fun x =>
    msg_size 1 (Coin_Size x)) dc).
Definition MsgDepositWithinBatch_field (m : MsgDepositWithinBatch) (num wt l : Z) (buf : bytes) :=
  let '(MkMsgDepositWithinBatch da pi dc) := m in
  if num =? 1 then get_bytes (fun bs => MkMsgDepositWithinBatch (bytes_str bs) pi dc) wt l buf
  else if num =? 2 then get_varint (fun v => MkMsgDepositWithinBatch da v dc) wt buf
  else if num =? 3 then get_msg (fun x => MkMsgDepositWithinBatch da pi (dc ++ [x])) (Coin_Unmarshal empty_Coin) wt l buf
  else None.
Definition empty_MsgDepositWithinBatch : MsgDepositWithinBatch := MkMsgDepositWithinBatch "" 0 [].
Definition MsgDepositWithinBatch_Unmarshal (m : MsgDepositWithinBatch) (dAtA : bytes) : res MsgDepositWithinBatch := unmarshal MsgDepositWithinBatch_field keep m dAtA.
Definition MsgDepositWithinBatch_ok (m : MsgDepositWithinBatch) : Prop :=
  let '(MkMsgDepositWithinBatch da pi dc) := m in is_uint64 pi /\ Forall coin_ok dc.
#[export] Instance MsgDepositWithinBatch_codec : Codec MsgDepositWithinBatch := {|
  codec_empty := empty_MsgDepositWithinBatch; codec_Marshal := MsgDepositWithinBatch_Marshal; codec_Size := MsgDepositWithinBatch_Size;
  codec_Unmarshal := MsgDepositWithinBatch_Unmarshal; codec_ok := MsgDepositWithinBatch_ok |}.
#[export] Instance MsgDepositWithinBatch_laws : CodecLaws MsgDepositWithinBatch.
Proof. codec_laws. Qed.

Definition MsgWithdrawWithinBatch_Marshal (m : MsgWithdrawWithinBatch) : bytes :=
  let '(MkMsgWithdrawWithinBatch wa pi pc) := m in opt_bytes 10 (to_bytes wa) (opt_varint 16 pi (put_bytes 26 (Coin_Marshal pc)
    [])).
Definition MsgWithdrawWithinBatch_Size (m : MsgWithdrawWithinBatch) : Z :=
  let '(MkMsgWithdrawWithinBatch wa pi pc) := m in opt_bytes_size (to_bytes wa) + opt_varint_size pi + msg_size 1 (Coin_Size
    pc).
Definition MsgWithdrawWithinBatch_field (m : MsgWithdrawWithinBatch) (num wt l : Z) (buf : bytes) :=
  let '(MkMsgWithdrawWithinBatch wa pi pc) := m in
  if num =? 1 then get_bytes (fun bs => MkMsgWithdrawWithinBatch (bytes_str bs) pi pc) wt l buf
  else if num =? 2 then get_varint (fun v => MkMsgWithdrawWithinBatch wa v pc) wt buf
  else if num =? 3 then get_msg (fun x => MkMsgWithdrawWithinBatch wa pi x) (Coin_Unmarshal pc) wt l buf
  else None.
Definition empty_MsgWithdrawWithinBatch : MsgWithdrawWithinBatch := MkMsgWithdrawWithinBatch "" 0 empty_Coin.
Definition MsgWithdrawWithinBatch_Unmarshal (m : MsgWithdrawWithinBatch) (dAtA : bytes) : res MsgWithdrawWithinBatch := unmarshal MsgWithdrawWithinBatch_field keep m dAtA.
Definition MsgWithdrawWithinBatch_ok (m : MsgWithdrawWithinBatch) : Prop :=
  let '(MkMsgWithdrawWithinBatch wa pi pc) := m in is_uint64 pi /\ coin_ok pc.
#[export] Instance MsgWithdrawWithinBatch_codec : Codec MsgWithdrawWithinBatch := {|
  codec_empty := empty_MsgWithdrawWithinBatch; codec_Marshal := MsgWithdrawWithinBatch_Marshal; codec_Size := MsgWithdrawWithinBatch_Size;
  codec_Unmarshal := MsgWithdrawWithinBatch_Unmarshal; codec_ok := MsgWithdrawWithinBatch_ok |}.
#[export] Instance MsgWithdrawWithinBatch_laws : CodecLaws MsgWithdrawWithinBatch.
Proof. codec_laws. Qed.

Definition MsgSwapWithinBatch_Marshal (m : MsgSwapWithinBatch) : bytes :=
  let '(MkMsgSwapWithinBatch sra pi sti oc dcd ocf op) := m in opt_bytes 10 (to_bytes sra) (opt_varint 16 pi (opt_varint 24 sti
    (put_bytes 34 (Coin_Marshal oc) (opt_bytes 42 (to_bytes dcd) (put_bytes 50 (Coin_Marshal ocf) (put_bytes 58 (Dec_Marshal
    op) [])))))).
Definition MsgSwapWithinBatch_Size (m : MsgSwapWithinBatch) : Z :=
  let '(MkMsgSwapWithinBatch sra pi sti oc dcd ocf op) := m in opt_bytes_size (to_bytes sra) + opt_varint_size pi +
    opt_varint_size sti + msg_size 1 (Coin_Size oc) + opt_bytes_size (to_bytes dcd) + msg_size 1 (Coin_Size ocf) + msg_size 1
    (Dec_Size op).
Definition MsgSwapWithinBatch_field (m : MsgSwapWithinBatch) (num wt l : Z) (buf : bytes) :=
  let '(MkMsgSwapWithinBatch sra pi sti oc dcd ocf op) := m in
  if num =? 1 then get_bytes (fun bs => MkMsgSwapWithinBatch (bytes_str bs) pi sti oc dcd ocf op) wt l buf
  else if num =? 2 then get_varint (fun v => MkMsgSwapWithinBatch sra v sti oc dcd ocf op) wt buf
  else if num =? 3 then get_varint (fun v => MkMsgSwapWithinBatch sra pi (wrap_u32 v) oc dcd ocf op) wt buf
  else if num =? 4 then get_msg (fun x => MkMsgSwapWithinBatch sra pi sti x dcd ocf op) (Coin_Unmarshal oc) wt l buf
  else if num =? 5 then get_bytes (fun bs => MkMsgSwapWithinBatch sra pi sti oc (bytes_str bs) ocf op) wt l buf
  else if num =? 6 then get_msg (fun x => MkMsgSwapWithinBatch sra pi sti oc dcd x op) (Coin_Unmarshal ocf) wt l buf
  else if num =? 7 then get_msg (fun x => MkMsgSwapWithinBatch sra pi sti oc dcd ocf x) (Dec_Unmarshal op) wt l buf
  else None.
Definition empty_MsgSwapWithinBatch : MsgSwapWithinBatch := MkMsgSwapWithinBatch "" 0 0 empty_Coin "" empty_Coin (MkDec None).
Definition MsgSwapWithinBatch_Unmarshal (m : MsgSwapWithinBatch) (dAtA : bytes) : res MsgSwapWithinBatch := unmarshal MsgSwapWithinBatch_field keep m dAtA.
Definition MsgSwapWithinBatch_ok (m : MsgSwapWithinBatch) : Prop :=
  let '(MkMsgSwapWithinBatch sra pi sti oc dcd ocf op) := m in is_uint64 pi /\ is_uint32 sti /\ coin_ok oc /\ coin_ok ocf /\
    dec_ok op.
#[export] Instance MsgSwapWithinBatch_codec : Codec MsgSwapWithinBatch := {|
  codec_empty := empty_MsgSwapWithinBatch; codec_Marshal := MsgSwapWithinBatch_Marshal; codec_Size := MsgSwapWithinBatch_Size;
  codec_Unmarshal := MsgSwapWithinBatch_Unmarshal; codec_ok := MsgSwapWithinBatch_ok |}.
#[export] Instance MsgSwapWithinBatch_laws : CodecLaws MsgSwapWithinBatch.
Proof. codec_laws. Qed.

(** The module's messages as messages of a transaction. *)
Inductive SwapMsg :=
  | CreatePool (m : MsgCreatePool) | DepositBatch (m : MsgDepositWithinBatch)
  | WithdrawBatch (m : MsgWithdrawWithinBatch) | SwapBatch (m : MsgSwapWithinBatch).
Definition SwapMsg_ValidateBasic `{Bech32Lib} (same_amount : Int -> Int -> bool) (m : SwapMsg) : res unit :=
  match m with
  | CreatePool m => MsgCreatePool_ValidateBasic same_amount m
  | DepositBatch m => MsgDepositWithinBatch_ValidateBasic same_amount m
  | WithdrawBatch m => MsgWithdrawWithinBatch_ValidateBasic m
  | SwapBatch m => MsgSwapWithinBatch_ValidateBasic m
  end.
Definition SwapMsg_Marshal (m : SwapMsg) : bytes :=
  match m with CreatePool m => MsgCreatePool_Marshal m | DepositBatch m => MsgDepositWithinBatch_Marshal m
  | WithdrawBatch m => MsgWithdrawWithinBatch_Marshal m | SwapBatch m => MsgSwapWithinBatch_Marshal m end.
Definition SwapMsg_Size (m : SwapMsg) : Z :=
  match m with CreatePool m => MsgCreatePool_Size m | DepositBatch m => MsgDepositWithinBatch_Size m
  | WithdrawBatch m => MsgWithdrawWithinBatch_Size m | SwapBatch m => MsgSwapWithinBatch_Size m end.
#[export] Instance SwapMsg_msg `{Bech32Lib} : MsgInterface SwapMsg := {|
  msg_proto := {|
    MessageName m := "tendermint.liquidity.v1beta1." +:+
      match m with CreatePool _ => "MsgCreatePool" | DepositBatch _ => "MsgDepositWithinBatch"
      | WithdrawBatch _ => "MsgWithdrawWithinBatch" | SwapBatch _ => "MsgSwapWithinBatch" end;
    proto_Marshal m := Ok (SwapMsg_Marshal m) |};
  msg_GetSigners m :=
    match m with CreatePool m => MsgCreatePool_GetSigners m | DepositBatch m => MsgDepositWithinBatch_GetSigners m
    | WithdrawBatch m => MsgWithdrawWithinBatch_GetSigners m | SwapBatch m => MsgSwapWithinBatch_GetSigners m end;
|}.

(* ------------------------------------------------------------------ *)
(** * Round trips *)
(** Messages whose fields are within their types, with amounts that are present. *)
Definition SwapMsg_wf (m : SwapMsg) : Prop :=
  match m with
  | CreatePool m => is_uint32 (PoolTypeId m) /\ Coins_wf (pool_DepositCoins m)
  | DepositBatch m => is_uint64 (dep_PoolId m) /\ Coins_wf (dep_DepositCoins m)
  | WithdrawBatch m => is_uint64 (wd_PoolId m) /\ coin_ok (PoolCoin m)
  | SwapBatch m => is_uint64 (swap_PoolId m) /\ is_uint32 (SwapTypeId m) /\ coin_ok (OfferCoin m) /\
      coin_ok (OfferCoinFee m) /\ dec_ok (OrderPrice m)
  end.

(** Decoding [dAtA] into the empty message. *)
Definition SwapMsg_decodes_to (m : SwapMsg) (dAtA : bytes) : Prop :=
  match m with
  | CreatePool m => MsgCreatePool_Unmarshal empty_MsgCreatePool dAtA = Ok m
  | DepositBatch m => MsgDepositWithinBatch_Unmarshal empty_MsgDepositWithinBatch dAtA = Ok m
  | WithdrawBatch m => MsgWithdrawWithinBatch_Unmarshal empty_MsgWithdrawWithinBatch dAtA = Ok m
  | SwapBatch m => MsgSwapWithinBatch_Unmarshal empty_MsgSwapWithinBatch dAtA = Ok m
  end.
Lemma SwapMsg_decodes m : SwapMsg_wf m -> Z.of_nat (length (SwapMsg_Marshal m)) < 2 ^ 62 -> SwapMsg_decodes_to m (SwapMsg_Marshal m).
Proof.
  destruct m as [[]|[]|[]|[]]; intros Hw;
    [exact (codec_decodes (MkMsgCreatePool _ _ _) Hw)|exact (codec_decodes (MkMsgDepositWithinBatch _ _ _) Hw)
    |exact (codec_decodes (MkMsgWithdrawWithinBatch _ _ _) Hw)|exact (codec_decodes (MkMsgSwapWithinBatch _ _ _ _ _ _ _) Hw)].
Qed.
Lemma SwapMsg_sized m : SwapMsg_wf m -> sized (SwapMsg_Marshal m) (SwapMsg_Size m).
Proof.
  destruct m as [[]|[]|[]|[]]; intros Hw;
    [exact (codec_sized (MkMsgCreatePool _ _ _) Hw)|exact (codec_sized (MkMsgDepositWithinBatch _ _ _) Hw)
    |exact (codec_sized (MkMsgWithdrawWithinBatch _ _ _) Hw)|exact (codec_sized (MkMsgSwapWithinBatch _ _ _ _ _ _ _) Hw)].
Qed.

(** Messages of the coinswap module are decoded to themselves, and their sizes
    are exact. *)
Theorem SwapMsg_roundtrip (m : SwapMsg) : SwapMsg_wf m -> Z.of_nat (length (SwapMsg_Marshal m)) < 2 ^ 62 ->
  SwapMsg_decodes_to m (SwapMsg_Marshal m) /\ Z.of_nat (length (SwapMsg_Marshal m)) = SwapMsg_Size m.
Proof. intros Hw H62. split; [by apply SwapMsg_decodes|by apply SwapMsg_sized]. Qed.

(* ------------------------------------------------------------------ *)
(** * Validation *)

Section Validation.
Context `{Bech32Lib}.

Definition valid_deposit (coins : Coins) : Prop := sorted_coins coins /\ Forall positive coins /\ Forall denom_ok coins.

(** The check of a deposit: the coins must be valid, and there must be two of
    them.  The comparison of the first two never succeeds, whatever [==] is on
    amounts, because the names of valid coins differ. *)
Lemma check_deposit_spec same coins : Coins_wf coins ->
  (check_deposit same coins = Ok tt <-> valid_deposit coins /\ (2 <= length coins)%nat) /\
  (valid_deposit coins -> (length coins < 2)%nat -> check_deposit same coins = Panic index_out_of_range) /\
  (~ valid_deposit coins -> check_deposit same coins = Err "invalid DepositCoins: %s").
Proof.
  intros Hw. destruct (Coins_Validate_spec coins (Coins_wf_has_val _ Hw)) as [Hnp Hv]. unfold check_deposit.
  destruct (Coins_Validate coins) as [[]|e|p] eqn:E; [|cbn|by destruct (Hnp p)].
  2:{ assert (~ valid_deposit coins) as Hn by (intros Hd; by apply Hv in Hd). naive_solver. }
  cbn [or_err mbind res_bind]. assert (valid_deposit coins) as Hd by by apply Hv.
  destruct coins as [|c0 [|c1 l]]; cbn [length]; [split_and!; try done; intros; naive_solver lia..|].
  assert (coin_identical same c0 c1 = false) as ->.
  { unfold coin_identical. rewrite bool_decide_false; [done|]. destruct Hd as [[_ [Hlt _]%Forall_cons]%StronglySorted_inv _].
    assert (slt (Denom c0) (Denom c1)) as Hs by exact Hlt. intros E2. rewrite E2 in Hs. by apply slt_irrefl in Hs. }
  split_and!; [split; [split; [done|lia]|done]|lia|done].
Qed.

Lemma valid_deposit_positive coins : Coins_wf coins -> valid_deposit coins -> Coins_IsAllPositive coins = Ok (negb (bool_decide (coins = []))).
Proof.
  intros Hw (_ & Hp & _). destruct (allPositive_spec coins (Coins_wf_has_val _ Hw)) as (b & Hb & Hbs).
  unfold Coins_IsAllPositive. destruct coins as [|c l]; [done|]. cbn [IsAllPositive]. rewrite Hb. by rewrite (proj2 Hbs Hp).
Qed.
(** What the messages for pools require.  A pool, or a deposit, is accepted
    exactly when its coins are at least two valid ones and the address can be
    decoded; with valid coins that are fewer than two the validation panics.  A
    swap needs a named coin of at least 100 units and a positive price, a
    withdrawal a positive named coin. *)
Theorem SwapMsg_validation same (m : SwapMsg) : SwapMsg_wf m ->
  match m with
  | CreatePool m =>
      (MsgCreatePool_ValidateBasic same m = Ok tt <->
       valid_deposit (pool_DepositCoins m) /\ (2 <= length (pool_DepositCoins m))%nat /\ address_ok (PoolCreatorAddress m)) /\
      (valid_deposit (pool_DepositCoins m) -> (length (pool_DepositCoins m) < 2)%nat ->
       MsgCreatePool_ValidateBasic same m = Panic index_out_of_range)
  | DepositBatch m =>
      (MsgDepositWithinBatch_ValidateBasic same m = Ok tt <->
       valid_deposit (dep_DepositCoins m) /\ (2 <= length (dep_DepositCoins m))%nat /\ address_ok (DepositorAddress m)) /\
      (valid_deposit (dep_DepositCoins m) -> (length (dep_DepositCoins m) < 2)%nat ->
       MsgDepositWithinBatch_ValidateBasic same m = Panic index_out_of_range)
  | WithdrawBatch m =>
      MsgWithdrawWithinBatch_ValidateBasic m = Ok tt <->
      address_ok (WithdrawerAddress m) /\ denom_ok (PoolCoin m) /\ positive (PoolCoin m)
  | SwapBatch m =>
      MsgSwapWithinBatch_ValidateBasic m = Ok tt <->
      address_ok (SwapRequesterAddress m) /\ denom_ok (OfferCoin m) /\ 100 <= coin_val (OfferCoin m) /\
      exists z, OrderPrice m = DecV z /\ 0 < z
  end.
Proof.
  assert (forall c, coin_ok c -> Coin_IsPositive c = Ok (0 <? coin_val c)) as Hpos.
  { intros c (z & E & _). apply c_IsPositive_val. destruct c as [d a]. cbn in E. subst a. by exists z. }
  destruct m as [[creator typ coins]|[depositor pool coins]|[withdrawer pool coin]|[requester pool typ offer demand fee price]];
    cbn [SwapMsg_wf]; intros Hw.
  - destruct Hw as [_ Hw]. cbn in Hw. destruct (check_deposit_spec same coins Hw) as (C1 & C2 & _).
    unfold MsgCreatePool_ValidateBasic, address_ok. cbn. split; [|by intros H1 H2; rewrite (C2 H1 H2)].
    destruct (check_deposit same coins) as [[]|e|p]; cbn; [|split; [done|intros (? & ? & _); exfalso; naive_solver]..].
    destruct (proj1 C1 eq_refl) as [Hd Hl]. destruct (AccAddressFromBech32 creator); cbn; naive_solver.
  - destruct Hw as [_ Hw]. cbn in Hw. destruct (check_deposit_spec same coins Hw) as (C1 & C2 & _).
    unfold MsgDepositWithinBatch_ValidateBasic, address_ok. cbn. split; [|intros H1 H2; by rewrite (C2 H1 H2)].
    destruct (check_deposit same coins) as [[]|e|p]; cbn; [|split; [done|intros (? & ? & _); exfalso; naive_solver]..].
    destruct (proj1 C1 eq_refl) as [Hd Hl]. rewrite (valid_deposit_positive coins Hw Hd).
    destruct coins; [cbn in Hl; lia|]. cbn. destruct (AccAddressFromBech32 depositor); cbn; naive_solver.
  - destruct Hw as [_ Hw]. cbn in Hw. unfold MsgWithdrawWithinBatch_ValidateBasic, address_ok. cbn [WithdrawerAddress PoolCoin].
    destruct (AccAddressFromBech32 withdrawer); cbn [or_err mbind res_bind]; [|naive_solver..].
    pose proof (Coin_Validate_spec coin Hw) as Hv. destruct (Coin_Validate coin) as [[]| |]; cbn [mbind res_bind]; [|unfold positive; naive_solver lia..].
    rewrite (Hpos coin Hw). cbn [mbind res_bind]. unfold positive. destruct (Z.ltb_spec 0 (coin_val coin)); cbn [negb]; naive_solver lia.
  - destruct Hw as (_ & _ & Hw & _ & (z & Ez & _)). cbn in Hw, Ez. subst price. unfold MsgSwapWithinBatch_ValidateBasic, address_ok.
    cbn [SwapRequesterAddress OfferCoin OrderPrice].
    destruct (AccAddressFromBech32 requester); cbn [or_err mbind res_bind]; [|naive_solver..].
    pose proof (Coin_Validate_spec offer Hw) as Hv. destruct (Coin_Validate offer) as [[]| |]; cbn [mbind res_bind]; [|naive_solver lia..].
    rewrite (Hpos offer Hw). destruct Hw as (x & Ex & _). unfold coin_val in *. rewrite Ex in *. clear Hpos. cbn in *.
    destruct (Z.ltb_spec 0 x); cbn [negb]; [|naive_solver lia].
    unfold Dec_IsPositive, Sign. cbn. rewrite (proj2 (proj2 (sgn_tests z))).
    destruct (Z.ltb_spec 0 z); cbn; [|split; [done|]; intros (_ & _ & _ & z' & [= ->] & ?); lia].
    pose proof (Cmp_spec x 100). destruct (Z.leb_spec 0 (Cmp x 100)); cbn; naive_solver lia.
Qed.
End Validation.

(* ------------------------------------------------------------------ *)
(** * Witnesses *)
#[local] Existing Instance toy_bech32.
Definition toy_pool : MsgCreatePool := MkMsgCreatePool some_address 1 [coinV "abc" 3; coinV "bcd" 2].
Definition toy_swap : MsgSwapWithinBatch :=
  MkMsgSwapWithinBatch some_address 7 1 (coinV "abc" 1000) "bcd" (coinV "abc" 1) (DecV 5).

Lemma toy_pool_wf : SwapMsg_wf (CreatePool toy_pool).
Proof. split; [by vm_compute|cbn; wf_coins]. Qed.
Lemma toy_swap_wf : SwapMsg_wf (SwapBatch toy_swap).
Proof. split_and!; [by vm_compute..|eexists; split; [reflexivity|by vm_compute]|eexists; split; [reflexivity|by vm_compute]|eexists; split; [reflexivity|by vm_compute]]. Qed.

Lemma SwapMsg_roundtrip_witness :
  MsgSwapWithinBatch_Unmarshal empty_MsgSwapWithinBatch (MsgSwapWithinBatch_Marshal toy_swap) = Ok toy_swap /\ MsgSwapWithinBatch_Size toy_swap = 44.
Proof.
  destruct (SwapMsg_roundtrip (SwapBatch toy_swap) toy_swap_wf) as [E _]; [vm_compute; reflexivity|].
  split; [exact E|vm_compute; reflexivity].
Defined.

Lemma SwapMsg_validation_witness :
  MsgCreatePool_ValidateBasic (fun _ _ => true) toy_pool = Ok tt /\ valid_deposit (pool_DepositCoins toy_pool).
Proof.
  assert (MsgCreatePool_ValidateBasic (fun _ _ => true) toy_pool = Ok tt) as E by (vm_compute; reflexivity).
  split; [exact E|]. exact (proj1 (proj1 (proj1 (SwapMsg_validation (fun _ _ => true) (CreatePool toy_pool) toy_pool_wf)) E)).
Defined.
