(* ===== verification/SwapProto.v ===== *)
(** What the coinswap module stores: the messages of
    [modules/coinswap/coinswap.pb.go] and their encodings. *)
From S2P Require Import Prelude GoStrings SdkInt SdkDec CoinSet Coins BitArray Wire Decoding Keys Multisig TxTypes TxProto Codec Messages Coinswap.

Record PoolType := MkPoolType {
  PoolType_Id : Z; PoolType_Name : string; PoolType_MinReserveCoinNum : Z; PoolType_MaxReserveCoinNum : Z; PoolType_Description
    : string }.
Definition PoolType_Marshal (m : PoolType) : bytes :=
  let '(MkPoolType id name mrcn mrcn' descr) := m in opt_varint 8 id (opt_bytes 18 (to_bytes name) (opt_varint 24 mrcn
    (opt_varint 32 mrcn' (opt_bytes 42 (to_bytes descr) [])))).
Definition PoolType_Size (m : PoolType) : Z :=
  let '(MkPoolType id name mrcn mrcn' descr) := m in opt_varint_size id + opt_bytes_size (to_bytes name) + opt_varint_size mrcn
    + opt_varint_size mrcn' + opt_bytes_size (to_bytes descr).
Definition PoolType_field (m : PoolType) (num wt l : Z) (buf : bytes) :=
  let '(MkPoolType id name mrcn mrcn' descr) := m in
  if num =? 1 then get_varint (fun v => MkPoolType (wrap_u32 v) name mrcn mrcn' descr) wt buf
  else if num =? 2 then get_bytes (fun bs => MkPoolType id (bytes_str bs) mrcn mrcn' descr) wt l buf
  else if num =? 3 then get_varint (fun v => MkPoolType id name (wrap_u32 v) mrcn' descr) wt buf
  else if num =? 4 then get_varint (fun v => MkPoolType id name mrcn (wrap_u32 v) descr) wt buf
  else if num =? 5 then get_bytes (fun bs => MkPoolType id name mrcn mrcn' (bytes_str bs)) wt l buf
  else None.
Definition empty_PoolType : PoolType := MkPoolType 0 "" 0 0 "".
Definition PoolType_Unmarshal (m : PoolType) (dAtA : bytes) : res PoolType := unmarshal PoolType_field keep m dAtA.
Definition PoolType_ok (m : PoolType) : Prop :=
  let '(MkPoolType id name mrcn mrcn' descr) := m in is_uint32 id /\ is_uint32 mrcn /\ is_uint32 mrcn'.
#[export] Instance PoolType_codec : Codec PoolType := {|
  codec_empty := empty_PoolType; codec_Marshal := PoolType_Marshal; codec_Size := PoolType_Size;
  codec_Unmarshal := PoolType_Unmarshal; codec_ok := PoolType_ok |}.
#[export] Instance PoolType_laws : CodecLaws PoolType.
Proof. codec_laws. Qed.

Record SwapParams := MkSwapParams {
  SwapParams_PoolTypes : list PoolType; SwapParams_MinInitDepositAmount : Int; SwapParams_InitPoolCoinMintAmount : Int;
    SwapParams_MaxReserveCoinAmount : Int; SwapParams_PoolCreationFee : list Coin; SwapParams_SwapFeeRate : Dec;
    SwapParams_WithdrawFeeRate : Dec; SwapParams_MaxOrderAmountRatio : Dec; SwapParams_UnitBatchHeight : Z;
    SwapParams_CircuitBreakerEnabled : bool }.
Definition SwapParams_Marshal (m : SwapParams) : bytes :=
  let '(MkSwapParams pt mida ipcma mrca pcf sfr wfr moar ubh cbe) := m in rep_bytes 10 (map PoolType_Marshal pt) (put_bytes 18
    (Int_Marshal mida) (put_bytes 26 (Int_Marshal ipcma) (put_bytes 34 (Int_Marshal mrca) (rep_bytes 42 (map Coin_Marshal pcf)
    (put_bytes 50 (Dec_Marshal sfr) (put_bytes 58 (Dec_Marshal wfr) (put_bytes 66 (Dec_Marshal moar) (opt_varint 72 ubh
    (opt_varint 80 (bool_varint cbe) []))))))))).
Definition SwapParams_Size (m : SwapParams) : Z :=
  let '(MkSwapParams pt mida ipcma mrca pcf sfr wfr moar ubh cbe) := m in sum_sizes (map (fun x => msg_size 1 (PoolType_Size
    x)) pt) + msg_size 1 (Int_Size mida) + msg_size 1 (Int_Size ipcma) + msg_size 1 (Int_Size mrca) + sum_sizes (map (fun x =>
    msg_size 1 (Coin_Size x)) pcf) + msg_size 1 (Dec_Size sfr) + msg_size 1 (Dec_Size wfr) + msg_size 1 (Dec_Size moar) +
    opt_varint_size ubh + bool_size cbe.
Definition SwapParams_field (m : SwapParams) (num wt l : Z) (buf : bytes) :=
  let '(MkSwapParams pt mida ipcma mrca pcf sfr wfr moar ubh cbe) := m in
  if num =? 1 then get_msg (fun x => MkSwapParams (pt ++ [x]) mida ipcma mrca pcf sfr wfr moar ubh cbe) (PoolType_Unmarshal
      empty_PoolType) wt l buf
  else if num =? 2 then get_msg (fun x => MkSwapParams pt x ipcma mrca pcf sfr wfr moar ubh cbe) (Int_Unmarshal mida) wt l buf
  else if num =? 3 then get_msg (fun x => MkSwapParams pt mida x mrca pcf sfr wfr moar ubh cbe) (Int_Unmarshal ipcma) wt l buf
  else if num =? 4 then get_msg (fun x => MkSwapParams pt mida ipcma x pcf sfr wfr moar ubh cbe) (Int_Unmarshal mrca) wt l buf
  else if num =? 5 then get_msg (fun x => MkSwapParams pt mida ipcma mrca (pcf ++ [x]) sfr wfr moar ubh cbe) (Coin_Unmarshal
      empty_Coin) wt l buf
  else if num =? 6 then get_msg (fun x => MkSwapParams pt mida ipcma mrca pcf x wfr moar ubh cbe) (Dec_Unmarshal sfr) wt l buf
  else if num =? 7 then get_msg (fun x => MkSwapParams pt mida ipcma mrca pcf sfr x moar ubh cbe) (Dec_Unmarshal wfr) wt l buf
  else if num =? 8 then get_msg (fun x => MkSwapParams pt mida ipcma mrca pcf sfr wfr x ubh cbe) (Dec_Unmarshal moar) wt l buf
  else if num =? 9 then get_varint (fun v => MkSwapParams pt mida ipcma mrca pcf sfr wfr moar (wrap_u32 v) cbe) wt buf
  else if num =? 10 then get_varint (fun v => MkSwapParams pt mida ipcma mrca pcf sfr wfr moar ubh (to_bool v)) wt buf
  else None.
Definition empty_SwapParams : SwapParams := MkSwapParams [] (MkInt None) (MkInt None) (MkInt None) [] (MkDec None) (MkDec None) (MkDec None) 0 false.
Definition SwapParams_Unmarshal (m : SwapParams) (dAtA : bytes) : res SwapParams := unmarshal SwapParams_field keep m dAtA.
Definition SwapParams_ok (m : SwapParams) : Prop :=
  let '(MkSwapParams pt mida ipcma mrca pcf sfr wfr moar ubh cbe) := m in Forall PoolType_ok pt /\ int_ok mida /\ int_ok ipcma
    /\ int_ok mrca /\ Forall coin_ok pcf /\ dec_ok sfr /\ dec_ok wfr /\ dec_ok moar /\ is_uint32 ubh.
#[export] Instance SwapParams_codec : Codec SwapParams := {|
  codec_empty := empty_SwapParams; codec_Marshal := SwapParams_Marshal; codec_Size := SwapParams_Size;
  codec_Unmarshal := SwapParams_Unmarshal; codec_ok := SwapParams_ok |}.
#[export] Instance SwapParams_laws : CodecLaws SwapParams.
Proof. codec_laws. Qed.

Record Pool := MkPool {
  Pool_Id : Z; Pool_TypeId : Z; Pool_ReserveCoinDenoms : list string; Pool_ReserveAccountAddress : string; Pool_PoolCoinDenom :
    string }.
Definition Pool_Marshal (m : Pool) : bytes :=
  let '(MkPool id ti rcd raa pcd) := m in opt_varint 8 id (opt_varint 16 ti (rep_bytes 26 (map to_bytes rcd) (opt_bytes 34
    (to_bytes raa) (opt_bytes 42 (to_bytes pcd) [])))).
Definition Pool_Size (m : Pool) : Z :=
  let '(MkPool id ti rcd raa pcd) := m in opt_varint_size id + opt_varint_size ti + sum_sizes (map (fun s => bytes_size
    (to_bytes s)) rcd) + opt_bytes_size (to_bytes raa) + opt_bytes_size (to_bytes pcd).
Definition Pool_field (m : Pool) (num wt l : Z) (buf : bytes) :=
  let '(MkPool id ti rcd raa pcd) := m in
  if num =? 1 then get_varint (fun v => MkPool v ti rcd raa pcd) wt buf
  else if num =? 2 then get_varint (fun v => MkPool id (wrap_u32 v) rcd raa pcd) wt buf
  else if num =? 3 then get_bytes (fun bs => MkPool id ti (rcd ++ [bytes_str bs]) raa pcd) wt l buf
  else if num =? 4 then get_bytes (fun bs => MkPool id ti rcd (bytes_str bs) pcd) wt l buf
  else if num =? 5 then get_bytes (fun bs => MkPool id ti rcd raa (bytes_str bs)) wt l buf
  else None.
Definition empty_Pool : Pool := MkPool 0 0 [] "" "".
Definition Pool_Unmarshal (m : Pool) (dAtA : bytes) : res Pool := unmarshal Pool_field keep m dAtA.
Definition Pool_ok (m : Pool) : Prop := let '(MkPool id ti rcd raa pcd) := m in is_uint64 id /\ is_uint32 ti.
#[export] Instance Pool_codec : Codec Pool := {|
  codec_empty := empty_Pool; codec_Marshal := Pool_Marshal; codec_Size := Pool_Size;
  codec_Unmarshal := Pool_Unmarshal; codec_ok := Pool_ok |}.
#[export] Instance Pool_laws : CodecLaws Pool.
Proof. codec_laws. Qed.

Record PoolMetadata := MkPoolMetadata {
  PoolMetadata_PoolId : Z; PoolMetadata_PoolCoinTotalSupply : Coin; PoolMetadata_ReserveCoins : list Coin }.
Definition PoolMetadata_Marshal (m : PoolMetadata) : bytes :=
  let '(MkPoolMetadata pi pcts rc) := m in opt_varint 8 pi (put_bytes 18 (Coin_Marshal pcts) (rep_bytes 26 (map Coin_Marshal
    rc) [])).
Definition PoolMetadata_Size (m : PoolMetadata) : Z :=
  let '(MkPoolMetadata pi pcts rc) := m in opt_varint_size pi + msg_size 1 (Coin_Size pcts) + sum_sizes (map (fun x => msg_size
    1 (Coin_Size x)) rc).
Definition PoolMetadata_field (m : PoolMetadata) (num wt l : Z) (buf : bytes) :=
  let '(MkPoolMetadata pi pcts rc) := m in
  if num =? 1 then get_varint (fun v => MkPoolMetadata v pcts rc) wt buf
  else if num =? 2 then get_msg (fun x => MkPoolMetadata pi x rc) (Coin_Unmarshal pcts) wt l buf
  else if num =? 3 then get_msg (fun x => MkPoolMetadata pi pcts (rc ++ [x])) (Coin_Unmarshal empty_Coin) wt l buf
  else None.
Definition empty_PoolMetadata : PoolMetadata := MkPoolMetadata 0 empty_Coin [].
Definition PoolMetadata_Unmarshal (m : PoolMetadata) (dAtA : bytes) : res PoolMetadata := unmarshal PoolMetadata_field keep m dAtA.
Definition PoolMetadata_ok (m : PoolMetadata) : Prop :=
  let '(MkPoolMetadata pi pcts rc) := m in is_uint64 pi /\ coin_ok pcts /\ Forall coin_ok rc.
#[export] Instance PoolMetadata_codec : Codec PoolMetadata := {|
  codec_empty := empty_PoolMetadata; codec_Marshal := PoolMetadata_Marshal; codec_Size := PoolMetadata_Size;
  codec_Unmarshal := PoolMetadata_Unmarshal; codec_ok := PoolMetadata_ok |}.
#[export] Instance PoolMetadata_laws : CodecLaws PoolMetadata.
Proof. codec_laws. Qed.

Record PoolBatch := MkPoolBatch {
  PoolBatch_PoolId : Z; PoolBatch_Index : Z; PoolBatch_BeginHeight : Z; PoolBatch_DepositMsgIndex : Z;
    PoolBatch_WithdrawMsgIndex : Z; PoolBatch_SwapMsgIndex : Z; PoolBatch_Executed : bool }.
Definition PoolBatch_Marshal (m : PoolBatch) : bytes :=
  let '(MkPoolBatch pi index bh dmi wmi smi executed) := m in opt_varint 8 pi (opt_varint 16 index (opt_varint 24 (wrap_u64 bh)
    (opt_varint 32 dmi (opt_varint 40 wmi (opt_varint 48 smi (opt_varint 56 (bool_varint executed) [])))))).
Definition PoolBatch_Size (m : PoolBatch) : Z :=
  let '(MkPoolBatch pi index bh dmi wmi smi executed) := m in opt_varint_size pi + opt_varint_size index + opt_varint_size
    (wrap_u64 bh) + opt_varint_size dmi + opt_varint_size wmi + opt_varint_size smi + bool_size executed.
Definition PoolBatch_field (m : PoolBatch) (num wt l : Z) (buf : bytes) :=
  let '(MkPoolBatch pi index bh dmi wmi smi executed) := m in
  if num =? 1 then get_varint (fun v => MkPoolBatch v index bh dmi wmi smi executed) wt buf
  else if num =? 2 then get_varint (fun v => MkPoolBatch pi v bh dmi wmi smi executed) wt buf
  else if num =? 3 then get_varint (fun v => MkPoolBatch pi index (wrap_i64 v) dmi wmi smi executed) wt buf
  else if num =? 4 then get_varint (fun v => MkPoolBatch pi index bh v wmi smi executed) wt buf
  else if num =? 5 then get_varint (fun v => MkPoolBatch pi index bh dmi v smi executed) wt buf
  else if num =? 6 then get_varint (fun v => MkPoolBatch pi index bh dmi wmi v executed) wt buf
  else if num =? 7 then get_varint (fun v => MkPoolBatch pi index bh dmi wmi smi (to_bool v)) wt buf
  else None.
Definition empty_PoolBatch : PoolBatch := MkPoolBatch 0 0 0 0 0 0 false.
Definition PoolBatch_Unmarshal (m : PoolBatch) (dAtA : bytes) : res PoolBatch := unmarshal PoolBatch_field keep m dAtA.
Definition PoolBatch_ok (m : PoolBatch) : Prop :=
  let '(MkPoolBatch pi index bh dmi wmi smi executed) := m in is_uint64 pi /\ is_uint64 index /\ is_int64 bh /\ is_uint64 dmi
    /\ is_uint64 wmi /\ is_uint64 smi.
#[export] Instance PoolBatch_codec : Codec PoolBatch := {|
  codec_empty := empty_PoolBatch; codec_Marshal := PoolBatch_Marshal; codec_Size := PoolBatch_Size;
  codec_Unmarshal := PoolBatch_Unmarshal; codec_ok := PoolBatch_ok |}.
#[export] Instance PoolBatch_laws : CodecLaws PoolBatch.
Proof. codec_laws. Qed.

Record DepositMsgState := MkDepositMsgState {
  DepositMsgState_MsgHeight : Z; DepositMsgState_MsgIndex : Z; DepositMsgState_Executed : bool; DepositMsgState_Succeeded :
    bool; DepositMsgState_ToBeDeleted : bool; DepositMsgState_Msg : option MsgDepositWithinBatch }.
Definition DepositMsgState_Marshal (m : DepositMsgState) : bytes :=
  let '(MkDepositMsgState mh mi executed succe tbd msg) := m in opt_varint 8 (wrap_u64 mh) (opt_varint 16 mi (opt_varint 24
    (bool_varint executed) (opt_varint 32 (bool_varint succe) (opt_varint 40 (bool_varint tbd) (opt_ptr 50
    (MsgDepositWithinBatch_Marshal <$> msg) []))))).
Definition DepositMsgState_Size (m : DepositMsgState) : Z :=
  let '(MkDepositMsgState mh mi executed succe tbd msg) := m in opt_varint_size (wrap_u64 mh) + opt_varint_size mi + bool_size
    executed + bool_size succe + bool_size tbd + opt_size 1 (MsgDepositWithinBatch_Size <$> msg).
Definition DepositMsgState_field (m : DepositMsgState) (num wt l : Z) (buf : bytes) :=
  let '(MkDepositMsgState mh mi executed succe tbd msg) := m in
  if num =? 1 then get_varint (fun v => MkDepositMsgState (wrap_i64 v) mi executed succe tbd msg) wt buf
  else if num =? 2 then get_varint (fun v => MkDepositMsgState mh v executed succe tbd msg) wt buf
  else if num =? 3 then get_varint (fun v => MkDepositMsgState mh mi (to_bool v) succe tbd msg) wt buf
  else if num =? 4 then get_varint (fun v => MkDepositMsgState mh mi executed (to_bool v) tbd msg) wt buf
  else if num =? 5 then get_varint (fun v => MkDepositMsgState mh mi executed succe (to_bool v) msg) wt buf
  else if num =? 6 then get_msg (fun x => MkDepositMsgState mh mi executed succe tbd (Some x)) (MsgDepositWithinBatch_Unmarshal
      (default empty_MsgDepositWithinBatch msg)) wt l buf
  else None.
Definition empty_DepositMsgState : DepositMsgState := MkDepositMsgState 0 0 false false false None.
Definition DepositMsgState_Unmarshal (m : DepositMsgState) (dAtA : bytes) : res DepositMsgState := unmarshal DepositMsgState_field keep m dAtA.
Definition DepositMsgState_ok (m : DepositMsgState) : Prop :=
  let '(MkDepositMsgState mh mi executed succe tbd msg) := m in is_int64 mh /\ is_uint64 mi /\ from_option
    MsgDepositWithinBatch_ok True msg.
#[export] Instance DepositMsgState_codec : Codec DepositMsgState := {|
  codec_empty := empty_DepositMsgState; codec_Marshal := DepositMsgState_Marshal; codec_Size := DepositMsgState_Size;
  codec_Unmarshal := DepositMsgState_Unmarshal; codec_ok := DepositMsgState_ok |}.
#[export] Instance DepositMsgState_laws : CodecLaws DepositMsgState.
Proof. codec_laws. Qed.

Record WithdrawMsgState := MkWithdrawMsgState {
  WithdrawMsgState_MsgHeight : Z; WithdrawMsgState_MsgIndex : Z; WithdrawMsgState_Executed : bool; WithdrawMsgState_Succeeded :
    bool; WithdrawMsgState_ToBeDeleted : bool; WithdrawMsgState_Msg : option MsgWithdrawWithinBatch }.
Definition WithdrawMsgState_Marshal (m : WithdrawMsgState) : bytes :=
  let '(MkWithdrawMsgState mh mi executed succe tbd msg) := m in opt_varint 8 (wrap_u64 mh) (opt_varint 16 mi (opt_varint 24
    (bool_varint executed) (opt_varint 32 (bool_varint succe) (opt_varint 40 (bool_varint tbd) (opt_ptr 50
    (MsgWithdrawWithinBatch_Marshal <$> msg) []))))).
Definition WithdrawMsgState_Size (m : WithdrawMsgState) : Z :=
  let '(MkWithdrawMsgState mh mi executed succe tbd msg) := m in opt_varint_size (wrap_u64 mh) + opt_varint_size mi + bool_size
    executed + bool_size succe + bool_size tbd + opt_size 1 (MsgWithdrawWithinBatch_Size <$> msg).
Definition WithdrawMsgState_field (m : WithdrawMsgState) (num wt l : Z) (buf : bytes) :=
  let '(MkWithdrawMsgState mh mi executed succe tbd msg) := m in
  if num =? 1 then get_varint (fun v => MkWithdrawMsgState (wrap_i64 v) mi executed succe tbd msg) wt buf
  else if num =? 2 then get_varint (fun v => MkWithdrawMsgState mh v executed succe tbd msg) wt buf
  else if num =? 3 then get_varint (fun v => MkWithdrawMsgState mh mi (to_bool v) succe tbd msg) wt buf
  else if num =? 4 then get_varint (fun v => MkWithdrawMsgState mh mi executed (to_bool v) tbd msg) wt buf
  else if num =? 5 then get_varint (fun v => MkWithdrawMsgState mh mi executed succe (to_bool v) msg) wt buf
  else if num =? 6 then get_msg (fun x => MkWithdrawMsgState mh mi executed succe tbd (Some x))
      (MsgWithdrawWithinBatch_Unmarshal (default empty_MsgWithdrawWithinBatch msg)) wt l buf
  else None.
Definition empty_WithdrawMsgState : WithdrawMsgState := MkWithdrawMsgState 0 0 false false false None.
Definition WithdrawMsgState_Unmarshal (m : WithdrawMsgState) (dAtA : bytes) : res WithdrawMsgState := unmarshal WithdrawMsgState_field keep m dAtA.
Definition WithdrawMsgState_ok (m : WithdrawMsgState) : Prop :=
  let '(MkWithdrawMsgState mh mi executed succe tbd msg) := m in is_int64 mh /\ is_uint64 mi /\ from_option
    MsgWithdrawWithinBatch_ok True msg.
#[export] Instance WithdrawMsgState_codec : Codec WithdrawMsgState := {|
  codec_empty := empty_WithdrawMsgState; codec_Marshal := WithdrawMsgState_Marshal; codec_Size := WithdrawMsgState_Size;
  codec_Unmarshal := WithdrawMsgState_Unmarshal; codec_ok := WithdrawMsgState_ok |}.
#[export] Instance WithdrawMsgState_laws : CodecLaws WithdrawMsgState.
Proof. codec_laws. Qed.

Record SwapMsgState := MkSwapMsgState {
  SwapMsgState_MsgHeight : Z; SwapMsgState_MsgIndex : Z; SwapMsgState_Executed : bool; SwapMsgState_Succeeded : bool;
    SwapMsgState_ToBeDeleted : bool; SwapMsgState_OrderExpiryHeight : Z; SwapMsgState_ExchangedOfferCoin : Coin;
    SwapMsgState_RemainingOfferCoin : Coin; SwapMsgState_ReservedOfferCoinFee : Coin; SwapMsgState_Msg : option
    MsgSwapWithinBatch }.
Definition SwapMsgState_Marshal (m : SwapMsgState) : bytes :=
  let '(MkSwapMsgState mh mi executed succe tbd oeh eoc roc rocf msg) := m in opt_varint 8 (wrap_u64 mh) (opt_varint 16 mi
    (opt_varint 24 (bool_varint executed) (opt_varint 32 (bool_varint succe) (opt_varint 40 (bool_varint tbd) (opt_varint 48
    (wrap_u64 oeh) (put_bytes 58 (Coin_Marshal eoc) (put_bytes 66 (Coin_Marshal roc) (put_bytes 74 (Coin_Marshal rocf) (opt_ptr
    82 (MsgSwapWithinBatch_Marshal <$> msg) []))))))))).
Definition SwapMsgState_Size (m : SwapMsgState) : Z :=
  let '(MkSwapMsgState mh mi executed succe tbd oeh eoc roc rocf msg) := m in opt_varint_size (wrap_u64 mh) + opt_varint_size
    mi + bool_size executed + bool_size succe + bool_size tbd + opt_varint_size (wrap_u64 oeh) + msg_size 1 (Coin_Size eoc) +
    msg_size 1 (Coin_Size roc) + msg_size 1 (Coin_Size rocf) + opt_size 1 (MsgSwapWithinBatch_Size <$> msg).
Definition SwapMsgState_field (m : SwapMsgState) (num wt l : Z) (buf : bytes) :=
  let '(MkSwapMsgState mh mi executed succe tbd oeh eoc roc rocf msg) := m in
  if num =? 1 then get_varint (fun v => MkSwapMsgState (wrap_i64 v) mi executed succe tbd oeh eoc roc rocf msg) wt buf
  else if num =? 2 then get_varint (fun v => MkSwapMsgState mh v executed succe tbd oeh eoc roc rocf msg) wt buf
  else if num =? 3 then get_varint (fun v => MkSwapMsgState mh mi (to_bool v) succe tbd oeh eoc roc rocf msg) wt buf
  else if num =? 4 then get_varint (fun v => MkSwapMsgState mh mi executed (to_bool v) tbd oeh eoc roc rocf msg) wt buf
  else if num =? 5 then get_varint (fun v => MkSwapMsgState mh mi executed succe (to_bool v) oeh eoc roc rocf msg) wt buf
  else if num =? 6 then get_varint (fun v => MkSwapMsgState mh mi executed succe tbd (wrap_i64 v) eoc roc rocf msg) wt buf
  else if num =? 7 then get_msg (fun x => MkSwapMsgState mh mi executed succe tbd oeh x roc rocf msg) (Coin_Unmarshal eoc) wt l
      buf
  else if num =? 8 then get_msg (fun x => MkSwapMsgState mh mi executed succe tbd oeh eoc x rocf msg) (Coin_Unmarshal roc) wt l
      buf
  else if num =? 9 then get_msg (fun x => MkSwapMsgState mh mi executed succe tbd oeh eoc roc x msg) (Coin_Unmarshal rocf) wt l
      buf
  else if num =? 10 then get_msg (fun x => MkSwapMsgState mh mi executed succe tbd oeh eoc roc rocf (Some x))
      (MsgSwapWithinBatch_Unmarshal (default empty_MsgSwapWithinBatch msg)) wt l buf
  else None.
Definition empty_SwapMsgState : SwapMsgState := MkSwapMsgState 0 0 false false false 0 empty_Coin empty_Coin empty_Coin None.
Definition SwapMsgState_Unmarshal (m : SwapMsgState) (dAtA : bytes) : res SwapMsgState := unmarshal SwapMsgState_field keep m dAtA.
Definition SwapMsgState_ok (m : SwapMsgState) : Prop :=
  let '(MkSwapMsgState mh mi executed succe tbd oeh eoc roc rocf msg) := m in is_int64 mh /\ is_uint64 mi /\ is_int64 oeh /\
    coin_ok eoc /\ coin_ok roc /\ coin_ok rocf /\ from_option MsgSwapWithinBatch_ok True msg.
#[export] Instance SwapMsgState_codec : Codec SwapMsgState := {|
  codec_empty := empty_SwapMsgState; codec_Marshal := SwapMsgState_Marshal; codec_Size := SwapMsgState_Size;
  codec_Unmarshal := SwapMsgState_Unmarshal; codec_ok := SwapMsgState_ok |}.
#[export] Instance SwapMsgState_laws : CodecLaws SwapMsgState.
Proof. codec_laws. Qed.

Record SwapSuccessMsg := MkSwapSuccessMsg {
  SwapSuccessMsg_MsgHeight : Z; SwapSuccessMsg_MsgIndex : Z; SwapSuccessMsg_ExchangedOfferCoin : Coin;
    SwapSuccessMsg_RemainingOfferCoin : Coin; SwapSuccessMsg_ReservedOfferCoinFee : Coin; SwapSuccessMsg_SwapPrice : Dec;
    SwapSuccessMsg_GetCoin : Coin; SwapSuccessMsg_Msg : option MsgSwapWithinBatch }.
Definition SwapSuccessMsg_Marshal (m : SwapSuccessMsg) : bytes :=
  let '(MkSwapSuccessMsg mh mi eoc roc rocf sp gc msg) := m in opt_varint 8 (wrap_u64 mh) (opt_varint 16 mi (put_bytes 26
    (Coin_Marshal eoc) (put_bytes 34 (Coin_Marshal roc) (put_bytes 42 (Coin_Marshal rocf) (put_bytes 50 (Dec_Marshal sp)
    (put_bytes 58 (Coin_Marshal gc) (opt_ptr 66 (MsgSwapWithinBatch_Marshal <$> msg) []))))))).
Definition SwapSuccessMsg_Size (m : SwapSuccessMsg) : Z :=
  let '(MkSwapSuccessMsg mh mi eoc roc rocf sp gc msg) := m in opt_varint_size (wrap_u64 mh) + opt_varint_size mi + msg_size 1
    (Coin_Size eoc) + msg_size 1 (Coin_Size roc) + msg_size 1 (Coin_Size rocf) + msg_size 1 (Dec_Size sp) + msg_size 1
    (Coin_Size gc) + opt_size 1 (MsgSwapWithinBatch_Size <$> msg).
Definition SwapSuccessMsg_field (m : SwapSuccessMsg) (num wt l : Z) (buf : bytes) :=
  let '(MkSwapSuccessMsg mh mi eoc roc rocf sp gc msg) := m in
  if num =? 1 then get_varint (fun v => MkSwapSuccessMsg (wrap_i64 v) mi eoc roc rocf sp gc msg) wt buf
  else if num =? 2 then get_varint (fun v => MkSwapSuccessMsg mh v eoc roc rocf sp gc msg) wt buf
  else if num =? 3 then get_msg (fun x => MkSwapSuccessMsg mh mi x roc rocf sp gc msg) (Coin_Unmarshal eoc) wt l buf
  else if num =? 4 then get_msg (fun x => MkSwapSuccessMsg mh mi eoc x rocf sp gc msg) (Coin_Unmarshal roc) wt l buf
  else if num =? 5 then get_msg (fun x => MkSwapSuccessMsg mh mi eoc roc x sp gc msg) (Coin_Unmarshal rocf) wt l buf
  else if num =? 6 then get_msg (fun x => MkSwapSuccessMsg mh mi eoc roc rocf x gc msg) (Dec_Unmarshal sp) wt l buf
  else if num =? 7 then get_msg (fun x => MkSwapSuccessMsg mh mi eoc roc rocf sp x msg) (Coin_Unmarshal gc) wt l buf
  else if num =? 8 then get_msg (fun x => MkSwapSuccessMsg mh mi eoc roc rocf sp gc (Some x)) (MsgSwapWithinBatch_Unmarshal
      (default empty_MsgSwapWithinBatch msg)) wt l buf
  else None.
Definition empty_SwapSuccessMsg : SwapSuccessMsg := MkSwapSuccessMsg 0 0 empty_Coin empty_Coin empty_Coin (MkDec None) empty_Coin None.
Definition SwapSuccessMsg_Unmarshal (m : SwapSuccessMsg) (dAtA : bytes) : res SwapSuccessMsg := unmarshal SwapSuccessMsg_field keep m dAtA.
Definition SwapSuccessMsg_ok (m : SwapSuccessMsg) : Prop :=
  let '(MkSwapSuccessMsg mh mi eoc roc rocf sp gc msg) := m in is_int64 mh /\ is_uint64 mi /\ coin_ok eoc /\ coin_ok roc /\
    coin_ok rocf /\ dec_ok sp /\ coin_ok gc /\ from_option MsgSwapWithinBatch_ok True msg.
#[export] Instance SwapSuccessMsg_codec : Codec SwapSuccessMsg := {|
  codec_empty := empty_SwapSuccessMsg; codec_Marshal := SwapSuccessMsg_Marshal; codec_Size := SwapSuccessMsg_Size;
  codec_Unmarshal := SwapSuccessMsg_Unmarshal; codec_ok := SwapSuccessMsg_ok |}.
#[export] Instance SwapSuccessMsg_laws : CodecLaws SwapSuccessMsg.
Proof. codec_laws. Qed.

Record DepositSuccessMsg := MkDepositSuccessMsg {
  DepositSuccessMsg_MsgHeight : Z; DepositSuccessMsg_DepositorAddress : string; DepositSuccessMsg_PoolId : Z;
    DepositSuccessMsg_MsgIndex : Z; DepositSuccessMsg_DepositCoins : list Coin; DepositSuccessMsg_InputCoins : list Coin;
    DepositSuccessMsg_OutputCoins : list Coin }.
Definition DepositSuccessMsg_Marshal (m : DepositSuccessMsg) : bytes :=
  let '(MkDepositSuccessMsg mh da pi mi dc ic oc) := m in opt_varint 8 (wrap_u64 mh) (opt_bytes 18 (to_bytes da) (opt_varint 24
    pi (opt_varint 32 mi (rep_bytes 42 (map Coin_Marshal dc) (rep_bytes 50 (map Coin_Marshal ic) (rep_bytes 58 (map
    Coin_Marshal oc) [])))))).
Definition DepositSuccessMsg_Size (m : DepositSuccessMsg) : Z :=
  let '(MkDepositSuccessMsg mh da pi mi dc ic oc) := m in opt_varint_size (wrap_u64 mh) + opt_bytes_size (to_bytes da) +
    opt_varint_size pi + opt_varint_size mi + sum_sizes (map (fun x => msg_size 1 (Coin_Size x)) dc) + sum_sizes (map (fun x =>
    msg_size 1 (Coin_Size x)) ic) + sum_sizes (map (fun x => msg_size 1 (Coin_Size x)) oc).
Definition DepositSuccessMsg_field (m : DepositSuccessMsg) (num wt l : Z) (buf : bytes) :=
  let '(MkDepositSuccessMsg mh da pi mi dc ic oc) := m in
  if num =? 1 then get_varint (fun v => MkDepositSuccessMsg (wrap_i64 v) da pi mi dc ic oc) wt buf
  else if num =? 2 then get_bytes (fun bs => MkDepositSuccessMsg mh (bytes_str bs) pi mi dc ic oc) wt l buf
  else if num =? 3 then get_varint (fun v => MkDepositSuccessMsg mh da v mi dc ic oc) wt buf
  else if num =? 4 then get_varint (fun v => MkDepositSuccessMsg mh da pi v dc ic oc) wt buf
  else if num =? 5 then get_msg (fun x => MkDepositSuccessMsg mh da pi mi (dc ++ [x]) ic oc) (Coin_Unmarshal empty_Coin) wt l buf
  else if num =? 6 then get_msg (fun x => MkDepositSuccessMsg mh da pi mi dc (ic ++ [x]) oc) (Coin_Unmarshal empty_Coin) wt l buf
  else if num =? 7 then get_msg (fun x => MkDepositSuccessMsg mh da pi mi dc ic (oc ++ [x])) (Coin_Unmarshal empty_Coin) wt l buf
  else None.
Definition empty_DepositSuccessMsg : DepositSuccessMsg := MkDepositSuccessMsg 0 "" 0 0 [] [] [].
Definition DepositSuccessMsg_Unmarshal (m : DepositSuccessMsg) (dAtA : bytes) : res DepositSuccessMsg := unmarshal DepositSuccessMsg_field keep m dAtA.
Definition DepositSuccessMsg_ok (m : DepositSuccessMsg) : Prop :=
  let '(MkDepositSuccessMsg mh da pi mi dc ic oc) := m in is_int64 mh /\ is_uint64 pi /\ is_uint64 mi /\ Forall coin_ok dc /\
    Forall coin_ok ic /\ Forall coin_ok oc.
#[export] Instance DepositSuccessMsg_codec : Codec DepositSuccessMsg := {|
  codec_empty := empty_DepositSuccessMsg; codec_Marshal := DepositSuccessMsg_Marshal; codec_Size := DepositSuccessMsg_Size;
  codec_Unmarshal := DepositSuccessMsg_Unmarshal; codec_ok := DepositSuccessMsg_ok |}.
#[export] Instance DepositSuccessMsg_laws : CodecLaws DepositSuccessMsg.
Proof. codec_laws. Qed.

Record WithdrawSuccessMsg := MkWithdrawSuccessMsg {
  WithdrawSuccessMsg_MsgHeight : Z; WithdrawSuccessMsg_MsgIndex : Z; WithdrawSuccessMsg_WithdrawCoins : list Coin;
    WithdrawSuccessMsg_WithdrawFeeCoins : list Coin; WithdrawSuccessMsg_Msg : option MsgWithdrawWithinBatch }.
Definition WithdrawSuccessMsg_Marshal (m : WithdrawSuccessMsg) : bytes :=
  let '(MkWithdrawSuccessMsg mh mi wc wfc msg) := m in opt_varint 8 (wrap_u64 mh) (opt_varint 16 mi (rep_bytes 26 (map
    Coin_Marshal wc) (rep_bytes 34 (map Coin_Marshal wfc) (opt_ptr 42 (MsgWithdrawWithinBatch_Marshal <$> msg) [])))).
Definition WithdrawSuccessMsg_Size (m : WithdrawSuccessMsg) : Z :=
  let '(MkWithdrawSuccessMsg mh mi wc wfc msg) := m in opt_varint_size (wrap_u64 mh) + opt_varint_size mi + sum_sizes (map (fun
    x => msg_size 1 (Coin_Size x)) wc) + sum_sizes (map (fun x => msg_size 1 (Coin_Size x)) wfc) + opt_size 1
    (MsgWithdrawWithinBatch_Size <$> msg).
Definition WithdrawSuccessMsg_field (m : WithdrawSuccessMsg) (num wt l : Z) (buf : bytes) :=
  let '(MkWithdrawSuccessMsg mh mi wc wfc msg) := m in
  if num =? 1 then get_varint (fun v => MkWithdrawSuccessMsg (wrap_i64 v) mi wc wfc msg) wt buf
  else if num =? 2 then get_varint (fun v => MkWithdrawSuccessMsg mh v wc wfc msg) wt buf
  else if num =? 3 then get_msg (fun x => MkWithdrawSuccessMsg mh mi (wc ++ [x]) wfc msg) (Coin_Unmarshal empty_Coin) wt l buf
  else if num =? 4 then get_msg (fun x => MkWithdrawSuccessMsg mh mi wc (wfc ++ [x]) msg) (Coin_Unmarshal empty_Coin) wt l buf
  else if num =? 5 then get_msg (fun x => MkWithdrawSuccessMsg mh mi wc wfc (Some x)) (MsgWithdrawWithinBatch_Unmarshal
      (default empty_MsgWithdrawWithinBatch msg)) wt l buf
  else None.
Definition empty_WithdrawSuccessMsg : WithdrawSuccessMsg := MkWithdrawSuccessMsg 0 0 [] [] None.
Definition WithdrawSuccessMsg_Unmarshal (m : WithdrawSuccessMsg) (dAtA : bytes) : res WithdrawSuccessMsg := unmarshal WithdrawSuccessMsg_field keep m dAtA.
Definition WithdrawSuccessMsg_ok (m : WithdrawSuccessMsg) : Prop :=
  let '(MkWithdrawSuccessMsg mh mi wc wfc msg) := m in is_int64 mh /\ is_uint64 mi /\ Forall coin_ok wc /\ Forall coin_ok wfc
    /\ from_option MsgWithdrawWithinBatch_ok True msg.
#[export] Instance WithdrawSuccessMsg_codec : Codec WithdrawSuccessMsg := {|
  codec_empty := empty_WithdrawSuccessMsg; codec_Marshal := WithdrawSuccessMsg_Marshal; codec_Size := WithdrawSuccessMsg_Size;
  codec_Unmarshal := WithdrawSuccessMsg_Unmarshal; codec_ok := WithdrawSuccessMsg_ok |}.
#[export] Instance WithdrawSuccessMsg_laws : CodecLaws WithdrawSuccessMsg.
Proof. codec_laws. Qed.
