(* ===== verification/SwapQuery.v ===== *)
(** The queries of the coinswap module and their answers: the messages of
    [modules/coinswap/query.pd.go] and their encodings. *)
From S2P Require Import Prelude GoStrings SdkInt SdkDec CoinSet Coins BitArray Wire Decoding Keys Multisig TxTypes TxProto Codec Messages Pagination Coinswap SwapProto.

Record QueryPoolWithdrawSuccessMsgsRequest := MkQueryPoolWithdrawSuccessMsgsRequest {
  QueryPoolWithdrawSuccessMsgsRequest_PoolId : Z; QueryPoolWithdrawSuccessMsgsRequest_WithdrawAddress : string;
    QueryPoolWithdrawSuccessMsgsRequest_Pagination : option PageRequest }.
Definition QueryPoolWithdrawSuccessMsgsRequest_Marshal (m : QueryPoolWithdrawSuccessMsgsRequest) : bytes :=
  let '(MkQueryPoolWithdrawSuccessMsgsRequest pi wa pagin) := m in opt_varint 8 pi (opt_bytes 18 (to_bytes wa) (opt_ptr 26
    (PageRequest_Marshal <$> pagin) [])).
Definition QueryPoolWithdrawSuccessMsgsRequest_Size (m : QueryPoolWithdrawSuccessMsgsRequest) : Z :=
  let '(MkQueryPoolWithdrawSuccessMsgsRequest pi wa pagin) := m in opt_varint_size pi + opt_bytes_size (to_bytes wa) + opt_size
    1 (PageRequest_Size <$> pagin).
Definition QueryPoolWithdrawSuccessMsgsRequest_field (m : QueryPoolWithdrawSuccessMsgsRequest) (num wt l : Z) (buf : bytes) :=
  let '(MkQueryPoolWithdrawSuccessMsgsRequest pi wa pagin) := m in
  if num =? 1 then get_varint (fun v => MkQueryPoolWithdrawSuccessMsgsRequest v wa pagin) wt buf
  else if num =? 2 then get_bytes (fun bs => MkQueryPoolWithdrawSuccessMsgsRequest pi (bytes_str bs) pagin) wt l buf
  else if num =? 3 then get_msg (fun x => MkQueryPoolWithdrawSuccessMsgsRequest pi wa (Some x)) (PageRequest_Unmarshal (default
      empty_PageRequest pagin)) wt l buf
  else None.
Definition empty_QueryPoolWithdrawSuccessMsgsRequest : QueryPoolWithdrawSuccessMsgsRequest := MkQueryPoolWithdrawSuccessMsgsRequest 0 "" None.
Definition QueryPoolWithdrawSuccessMsgsRequest_Unmarshal (m : QueryPoolWithdrawSuccessMsgsRequest) (dAtA : bytes) : res QueryPoolWithdrawSuccessMsgsRequest := unmarshal QueryPoolWithdrawSuccessMsgsRequest_field keep m dAtA.
Definition QueryPoolWithdrawSuccessMsgsRequest_ok (m : QueryPoolWithdrawSuccessMsgsRequest) : Prop :=
  let '(MkQueryPoolWithdrawSuccessMsgsRequest pi wa pagin) := m in is_uint64 pi /\ from_option PageRequest_ok True pagin.
#[export] Instance QueryPoolWithdrawSuccessMsgsRequest_codec : Codec QueryPoolWithdrawSuccessMsgsRequest := {|
  codec_empty := empty_QueryPoolWithdrawSuccessMsgsRequest; codec_Marshal := QueryPoolWithdrawSuccessMsgsRequest_Marshal; codec_Size := QueryPoolWithdrawSuccessMsgsRequest_Size;
  codec_Unmarshal := QueryPoolWithdrawSuccessMsgsRequest_Unmarshal; codec_ok := QueryPoolWithdrawSuccessMsgsRequest_ok |}.
#[export] Instance QueryPoolWithdrawSuccessMsgsRequest_laws : CodecLaws QueryPoolWithdrawSuccessMsgsRequest.
Proof. codec_laws. Qed.

Record QueryPoolWithdrawSuccessMsgRequest := MkQueryPoolWithdrawSuccessMsgRequest {
  QueryPoolWithdrawSuccessMsgRequest_PoolId : Z; QueryPoolWithdrawSuccessMsgRequest_MsgIndex : Z }.
Definition QueryPoolWithdrawSuccessMsgRequest_Marshal (m : QueryPoolWithdrawSuccessMsgRequest) : bytes :=
  let '(MkQueryPoolWithdrawSuccessMsgRequest pi mi) := m in opt_varint 8 pi (opt_varint 16 mi []).
Definition QueryPoolWithdrawSuccessMsgRequest_Size (m : QueryPoolWithdrawSuccessMsgRequest) : Z :=
  let '(MkQueryPoolWithdrawSuccessMsgRequest pi mi) := m in opt_varint_size pi + opt_varint_size mi.
Definition QueryPoolWithdrawSuccessMsgRequest_field (m : QueryPoolWithdrawSuccessMsgRequest) (num wt l : Z) (buf : bytes) :=
  let '(MkQueryPoolWithdrawSuccessMsgRequest pi mi) := m in
  if num =? 1 then get_varint (fun v => MkQueryPoolWithdrawSuccessMsgRequest v mi) wt buf
  else if num =? 2 then get_varint (fun v => MkQueryPoolWithdrawSuccessMsgRequest pi v) wt buf
  else None.
Definition empty_QueryPoolWithdrawSuccessMsgRequest : QueryPoolWithdrawSuccessMsgRequest := MkQueryPoolWithdrawSuccessMsgRequest 0 0.
Definition QueryPoolWithdrawSuccessMsgRequest_Unmarshal (m : QueryPoolWithdrawSuccessMsgRequest) (dAtA : bytes) : res QueryPoolWithdrawSuccessMsgRequest := unmarshal QueryPoolWithdrawSuccessMsgRequest_field keep m dAtA.
Definition QueryPoolWithdrawSuccessMsgRequest_ok (m : QueryPoolWithdrawSuccessMsgRequest) : Prop :=
  let '(MkQueryPoolWithdrawSuccessMsgRequest pi mi) := m in is_uint64 pi /\ is_uint64 mi.
#[export] Instance QueryPoolWithdrawSuccessMsgRequest_codec : Codec QueryPoolWithdrawSuccessMsgRequest := {|
  codec_empty := empty_QueryPoolWithdrawSuccessMsgRequest; codec_Marshal := QueryPoolWithdrawSuccessMsgRequest_Marshal; codec_Size := QueryPoolWithdrawSuccessMsgRequest_Size;
  codec_Unmarshal := QueryPoolWithdrawSuccessMsgRequest_Unmarshal; codec_ok := QueryPoolWithdrawSuccessMsgRequest_ok |}.
#[export] Instance QueryPoolWithdrawSuccessMsgRequest_laws : CodecLaws QueryPoolWithdrawSuccessMsgRequest.
Proof. codec_laws. Qed.

Record QueryPoolWithdrawSuccessMsgsResponse := MkQueryPoolWithdrawSuccessMsgsResponse {
  QueryPoolWithdrawSuccessMsgsResponse_Withdraws : list WithdrawSuccessMsg; QueryPoolWithdrawSuccessMsgsResponse_Pagination :
    option PageResponse }.
Definition QueryPoolWithdrawSuccessMsgsResponse_Marshal (m : QueryPoolWithdrawSuccessMsgsResponse) : bytes :=
  let '(MkQueryPoolWithdrawSuccessMsgsResponse withd pagin) := m in rep_bytes 10 (map WithdrawSuccessMsg_Marshal withd)
    (opt_ptr 18 (PageResponse_Marshal <$> pagin) []).
Definition QueryPoolWithdrawSuccessMsgsResponse_Size (m : QueryPoolWithdrawSuccessMsgsResponse) : Z :=
  let '(MkQueryPoolWithdrawSuccessMsgsResponse withd pagin) := m in sum_sizes (map (fun x => msg_size 1
    (WithdrawSuccessMsg_Size x)) withd) + opt_size 1 (PageResponse_Size <$> pagin).
Definition QueryPoolWithdrawSuccessMsgsResponse_field (m : QueryPoolWithdrawSuccessMsgsResponse) (num wt l : Z) (buf : bytes) :=
  let '(MkQueryPoolWithdrawSuccessMsgsResponse withd pagin) := m in
  if num =? 1 then get_msg (fun x => MkQueryPoolWithdrawSuccessMsgsResponse (withd ++ [x]) pagin) (WithdrawSuccessMsg_Unmarshal
      empty_WithdrawSuccessMsg) wt l buf
  else if num =? 2 then get_msg (fun x => MkQueryPoolWithdrawSuccessMsgsResponse withd (Some x)) (PageResponse_Unmarshal
      (default empty_PageResponse pagin)) wt l buf
  else None.
Definition empty_QueryPoolWithdrawSuccessMsgsResponse : QueryPoolWithdrawSuccessMsgsResponse := MkQueryPoolWithdrawSuccessMsgsResponse [] None.
Definition QueryPoolWithdrawSuccessMsgsResponse_Unmarshal (m : QueryPoolWithdrawSuccessMsgsResponse) (dAtA : bytes) : res QueryPoolWithdrawSuccessMsgsResponse := unmarshal QueryPoolWithdrawSuccessMsgsResponse_field keep m dAtA.
Definition QueryPoolWithdrawSuccessMsgsResponse_ok (m : QueryPoolWithdrawSuccessMsgsResponse) : Prop :=
  let '(MkQueryPoolWithdrawSuccessMsgsResponse withd pagin) := m in Forall WithdrawSuccessMsg_ok withd /\ from_option
    PageResponse_ok True pagin.
#[export] Instance QueryPoolWithdrawSuccessMsgsResponse_codec : Codec QueryPoolWithdrawSuccessMsgsResponse := {|
  codec_empty := empty_QueryPoolWithdrawSuccessMsgsResponse; codec_Marshal := QueryPoolWithdrawSuccessMsgsResponse_Marshal; codec_Size := QueryPoolWithdrawSuccessMsgsResponse_Size;
  codec_Unmarshal := QueryPoolWithdrawSuccessMsgsResponse_Unmarshal; codec_ok := QueryPoolWithdrawSuccessMsgsResponse_ok |}.
#[export] Instance QueryPoolWithdrawSuccessMsgsResponse_laws : CodecLaws QueryPoolWithdrawSuccessMsgsResponse.
Proof. codec_laws. Qed.

Record QueryPoolWithdrawSuccessMsgResponse := MkQueryPoolWithdrawSuccessMsgResponse {
  QueryPoolWithdrawSuccessMsgResponse_Withdraw : WithdrawSuccessMsg }.
Definition QueryPoolWithdrawSuccessMsgResponse_Marshal (m : QueryPoolWithdrawSuccessMsgResponse) : bytes :=
  let '(MkQueryPoolWithdrawSuccessMsgResponse withdraw) := m in put_bytes 10 (WithdrawSuccessMsg_Marshal withdraw) [].
Definition QueryPoolWithdrawSuccessMsgResponse_Size (m : QueryPoolWithdrawSuccessMsgResponse) : Z :=
  let '(MkQueryPoolWithdrawSuccessMsgResponse withdraw) := m in msg_size 1 (WithdrawSuccessMsg_Size withdraw).
Definition QueryPoolWithdrawSuccessMsgResponse_field (m : QueryPoolWithdrawSuccessMsgResponse) (num wt l : Z) (buf : bytes) :=
  let '(MkQueryPoolWithdrawSuccessMsgResponse withdraw) := m in
  if num =? 1 then get_msg (fun x => MkQueryPoolWithdrawSuccessMsgResponse x) (WithdrawSuccessMsg_Unmarshal withdraw) wt l buf
  else None.
Definition empty_QueryPoolWithdrawSuccessMsgResponse : QueryPoolWithdrawSuccessMsgResponse := MkQueryPoolWithdrawSuccessMsgResponse empty_WithdrawSuccessMsg.
Definition QueryPoolWithdrawSuccessMsgResponse_Unmarshal (m : QueryPoolWithdrawSuccessMsgResponse) (dAtA : bytes) : res QueryPoolWithdrawSuccessMsgResponse := unmarshal QueryPoolWithdrawSuccessMsgResponse_field keep m dAtA.
Definition QueryPoolWithdrawSuccessMsgResponse_ok (m : QueryPoolWithdrawSuccessMsgResponse) : Prop :=
  let '(MkQueryPoolWithdrawSuccessMsgResponse withdraw) := m in WithdrawSuccessMsg_ok withdraw.
#[export] Instance QueryPoolWithdrawSuccessMsgResponse_codec : Codec QueryPoolWithdrawSuccessMsgResponse := {|
  codec_empty := empty_QueryPoolWithdrawSuccessMsgResponse; codec_Marshal := QueryPoolWithdrawSuccessMsgResponse_Marshal; codec_Size := QueryPoolWithdrawSuccessMsgResponse_Size;
  codec_Unmarshal := QueryPoolWithdrawSuccessMsgResponse_Unmarshal; codec_ok := QueryPoolWithdrawSuccessMsgResponse_ok |}.
#[export] Instance QueryPoolWithdrawSuccessMsgResponse_laws : CodecLaws QueryPoolWithdrawSuccessMsgResponse.
Proof. codec_laws. Qed.

Record QueryPoolSwapSuccessMsgsRequest := MkQueryPoolSwapSuccessMsgsRequest {
  QueryPoolSwapSuccessMsgsRequest_PoolId : Z; QueryPoolSwapSuccessMsgsRequest_SwapAddress : string;
    QueryPoolSwapSuccessMsgsRequest_Pagination : option PageRequest }.
Definition QueryPoolSwapSuccessMsgsRequest_Marshal (m : QueryPoolSwapSuccessMsgsRequest) : bytes :=
  let '(MkQueryPoolSwapSuccessMsgsRequest pi sa pagin) := m in opt_varint 8 pi (opt_bytes 18 (to_bytes sa) (opt_ptr 26
    (PageRequest_Marshal <$> pagin) [])).
Definition QueryPoolSwapSuccessMsgsRequest_Size (m : QueryPoolSwapSuccessMsgsRequest) : Z :=
  let '(MkQueryPoolSwapSuccessMsgsRequest pi sa pagin) := m in opt_varint_size pi + opt_bytes_size (to_bytes sa) + opt_size 1
    (PageRequest_Size <$> pagin).
Definition QueryPoolSwapSuccessMsgsRequest_field (m : QueryPoolSwapSuccessMsgsRequest) (num wt l : Z) (buf : bytes) :=
  let '(MkQueryPoolSwapSuccessMsgsRequest pi sa pagin) := m in
  if num =? 1 then get_varint (fun v => MkQueryPoolSwapSuccessMsgsRequest v sa pagin) wt buf
  else if num =? 2 then get_bytes (fun bs => MkQueryPoolSwapSuccessMsgsRequest pi (bytes_str bs) pagin) wt l buf
  else if num =? 3 then get_msg (fun x => MkQueryPoolSwapSuccessMsgsRequest pi sa (Some x)) (PageRequest_Unmarshal (default
      empty_PageRequest pagin)) wt l buf
  else None.
Definition empty_QueryPoolSwapSuccessMsgsRequest : QueryPoolSwapSuccessMsgsRequest := MkQueryPoolSwapSuccessMsgsRequest 0 "" None.
Definition QueryPoolSwapSuccessMsgsRequest_Unmarshal (m : QueryPoolSwapSuccessMsgsRequest) (dAtA : bytes) : res QueryPoolSwapSuccessMsgsRequest := unmarshal QueryPoolSwapSuccessMsgsRequest_field keep m dAtA.
Definition QueryPoolSwapSuccessMsgsRequest_ok (m : QueryPoolSwapSuccessMsgsRequest) : Prop :=
  let '(MkQueryPoolSwapSuccessMsgsRequest pi sa pagin) := m in is_uint64 pi /\ from_option PageRequest_ok True pagin.
#[export] Instance QueryPoolSwapSuccessMsgsRequest_codec : Codec QueryPoolSwapSuccessMsgsRequest := {|
  codec_empty := empty_QueryPoolSwapSuccessMsgsRequest; codec_Marshal := QueryPoolSwapSuccessMsgsRequest_Marshal; codec_Size := QueryPoolSwapSuccessMsgsRequest_Size;
  codec_Unmarshal := QueryPoolSwapSuccessMsgsRequest_Unmarshal; codec_ok := QueryPoolSwapSuccessMsgsRequest_ok |}.
#[export] Instance QueryPoolSwapSuccessMsgsRequest_laws : CodecLaws QueryPoolSwapSuccessMsgsRequest.
Proof. codec_laws. Qed.

Record QueryPoolSwapSuccessMsgRequest := MkQueryPoolSwapSuccessMsgRequest {
  QueryPoolSwapSuccessMsgRequest_PoolId : Z; QueryPoolSwapSuccessMsgRequest_MsgIndex : Z }.
Definition QueryPoolSwapSuccessMsgRequest_Marshal (m : QueryPoolSwapSuccessMsgRequest) : bytes :=
  let '(MkQueryPoolSwapSuccessMsgRequest pi mi) := m in opt_varint 8 pi (opt_varint 16 mi []).
Definition QueryPoolSwapSuccessMsgRequest_Size (m : QueryPoolSwapSuccessMsgRequest) : Z :=
  let '(MkQueryPoolSwapSuccessMsgRequest pi mi) := m in opt_varint_size pi + opt_varint_size mi.
Definition QueryPoolSwapSuccessMsgRequest_field (m : QueryPoolSwapSuccessMsgRequest) (num wt l : Z) (buf : bytes) :=
  let '(MkQueryPoolSwapSuccessMsgRequest pi mi) := m in
  if num =? 1 then get_varint (fun v => MkQueryPoolSwapSuccessMsgRequest v mi) wt buf
  else if num =? 2 then get_varint (fun v => MkQueryPoolSwapSuccessMsgRequest pi v) wt buf
  else None.
Definition empty_QueryPoolSwapSuccessMsgRequest : QueryPoolSwapSuccessMsgRequest := MkQueryPoolSwapSuccessMsgRequest 0 0.
Definition QueryPoolSwapSuccessMsgRequest_Unmarshal (m : QueryPoolSwapSuccessMsgRequest) (dAtA : bytes) : res QueryPoolSwapSuccessMsgRequest := unmarshal QueryPoolSwapSuccessMsgRequest_field keep m dAtA.
Definition QueryPoolSwapSuccessMsgRequest_ok (m : QueryPoolSwapSuccessMsgRequest) : Prop :=
  let '(MkQueryPoolSwapSuccessMsgRequest pi mi) := m in is_uint64 pi /\ is_uint64 mi.
#[export] Instance QueryPoolSwapSuccessMsgRequest_codec : Codec QueryPoolSwapSuccessMsgRequest := {|
  codec_empty := empty_QueryPoolSwapSuccessMsgRequest; codec_Marshal := QueryPoolSwapSuccessMsgRequest_Marshal; codec_Size := QueryPoolSwapSuccessMsgRequest_Size;
  codec_Unmarshal := QueryPoolSwapSuccessMsgRequest_Unmarshal; codec_ok := QueryPoolSwapSuccessMsgRequest_ok |}.
#[export] Instance QueryPoolSwapSuccessMsgRequest_laws : CodecLaws QueryPoolSwapSuccessMsgRequest.
Proof. codec_laws. Qed.

Record QueryPoolSwapSuccessMsgsResponse := MkQueryPoolSwapSuccessMsgsResponse {
  QueryPoolSwapSuccessMsgsResponse_Swaps : list SwapSuccessMsg; QueryPoolSwapSuccessMsgsResponse_Pagination : option
    PageResponse }.
Definition QueryPoolSwapSuccessMsgsResponse_Marshal (m : QueryPoolSwapSuccessMsgsResponse) : bytes :=
  let '(MkQueryPoolSwapSuccessMsgsResponse swaps pagin) := m in rep_bytes 10 (map SwapSuccessMsg_Marshal swaps) (opt_ptr 18
    (PageResponse_Marshal <$> pagin) []).
Definition QueryPoolSwapSuccessMsgsResponse_Size (m : QueryPoolSwapSuccessMsgsResponse) : Z :=
  let '(MkQueryPoolSwapSuccessMsgsResponse swaps pagin) := m in sum_sizes (map (fun x => msg_size 1 (SwapSuccessMsg_Size x))
    swaps) + opt_size 1 (PageResponse_Size <$> pagin).
Definition QueryPoolSwapSuccessMsgsResponse_field (m : QueryPoolSwapSuccessMsgsResponse) (num wt l : Z) (buf : bytes) :=
  let '(MkQueryPoolSwapSuccessMsgsResponse swaps pagin) := m in
  if num =? 1 then get_msg (fun x => MkQueryPoolSwapSuccessMsgsResponse (swaps ++ [x]) pagin) (SwapSuccessMsg_Unmarshal
      empty_SwapSuccessMsg) wt l buf
  else if num =? 2 then get_msg (fun x => MkQueryPoolSwapSuccessMsgsResponse swaps (Some x)) (PageResponse_Unmarshal (default
      empty_PageResponse pagin)) wt l buf
  else None.
Definition empty_QueryPoolSwapSuccessMsgsResponse : QueryPoolSwapSuccessMsgsResponse := MkQueryPoolSwapSuccessMsgsResponse [] None.
Definition QueryPoolSwapSuccessMsgsResponse_Unmarshal (m : QueryPoolSwapSuccessMsgsResponse) (dAtA : bytes) : res QueryPoolSwapSuccessMsgsResponse := unmarshal QueryPoolSwapSuccessMsgsResponse_field keep m dAtA.
Definition QueryPoolSwapSuccessMsgsResponse_ok (m : QueryPoolSwapSuccessMsgsResponse) : Prop :=
  let '(MkQueryPoolSwapSuccessMsgsResponse swaps pagin) := m in Forall SwapSuccessMsg_ok swaps /\ from_option PageResponse_ok
    True pagin.
#[export] Instance QueryPoolSwapSuccessMsgsResponse_codec : Codec QueryPoolSwapSuccessMsgsResponse := {|
  codec_empty := empty_QueryPoolSwapSuccessMsgsResponse; codec_Marshal := QueryPoolSwapSuccessMsgsResponse_Marshal; codec_Size := QueryPoolSwapSuccessMsgsResponse_Size;
  codec_Unmarshal := QueryPoolSwapSuccessMsgsResponse_Unmarshal; codec_ok := QueryPoolSwapSuccessMsgsResponse_ok |}.
#[export] Instance QueryPoolSwapSuccessMsgsResponse_laws : CodecLaws QueryPoolSwapSuccessMsgsResponse.
Proof. codec_laws. Qed.

Record QueryPoolSwapSuccessMsgResponse := MkQueryPoolSwapSuccessMsgResponse {
  QueryPoolSwapSuccessMsgResponse_Swap : SwapSuccessMsg }.
Definition QueryPoolSwapSuccessMsgResponse_Marshal (m : QueryPoolSwapSuccessMsgResponse) : bytes :=
  let '(MkQueryPoolSwapSuccessMsgResponse swap) := m in put_bytes 10 (SwapSuccessMsg_Marshal swap) [].
Definition QueryPoolSwapSuccessMsgResponse_Size (m : QueryPoolSwapSuccessMsgResponse) : Z :=
  let '(MkQueryPoolSwapSuccessMsgResponse swap) := m in msg_size 1 (SwapSuccessMsg_Size swap).
Definition QueryPoolSwapSuccessMsgResponse_field (m : QueryPoolSwapSuccessMsgResponse) (num wt l : Z) (buf : bytes) :=
  let '(MkQueryPoolSwapSuccessMsgResponse swap) := m in
  if num =? 1 then get_msg (fun x => MkQueryPoolSwapSuccessMsgResponse x) (SwapSuccessMsg_Unmarshal swap) wt l buf
  else None.
Definition empty_QueryPoolSwapSuccessMsgResponse : QueryPoolSwapSuccessMsgResponse := MkQueryPoolSwapSuccessMsgResponse empty_SwapSuccessMsg.
Definition QueryPoolSwapSuccessMsgResponse_Unmarshal (m : QueryPoolSwapSuccessMsgResponse) (dAtA : bytes) : res QueryPoolSwapSuccessMsgResponse := unmarshal QueryPoolSwapSuccessMsgResponse_field keep m dAtA.
Definition QueryPoolSwapSuccessMsgResponse_ok (m : QueryPoolSwapSuccessMsgResponse) : Prop :=
  let '(MkQueryPoolSwapSuccessMsgResponse swap) := m in SwapSuccessMsg_ok swap.
#[export] Instance QueryPoolSwapSuccessMsgResponse_codec : Codec QueryPoolSwapSuccessMsgResponse := {|
  codec_empty := empty_QueryPoolSwapSuccessMsgResponse; codec_Marshal := QueryPoolSwapSuccessMsgResponse_Marshal; codec_Size := QueryPoolSwapSuccessMsgResponse_Size;
  codec_Unmarshal := QueryPoolSwapSuccessMsgResponse_Unmarshal; codec_ok := QueryPoolSwapSuccessMsgResponse_ok |}.
#[export] Instance QueryPoolSwapSuccessMsgResponse_laws : CodecLaws QueryPoolSwapSuccessMsgResponse.
Proof. codec_laws. Qed.

Record QueryPoolDepositSuccessMsgsRequest := MkQueryPoolDepositSuccessMsgsRequest {
  QueryPoolDepositSuccessMsgsRequest_PoolId : Z; QueryPoolDepositSuccessMsgsRequest_DepositorAddress : string;
    QueryPoolDepositSuccessMsgsRequest_Pagination : option PageRequest }.
Definition QueryPoolDepositSuccessMsgsRequest_Marshal (m : QueryPoolDepositSuccessMsgsRequest) : bytes :=
  let '(MkQueryPoolDepositSuccessMsgsRequest pi da pagin) := m in opt_varint 8 pi (opt_bytes 18 (to_bytes da) (opt_ptr 26
    (PageRequest_Marshal <$> pagin) [])).
Definition QueryPoolDepositSuccessMsgsRequest_Size (m : QueryPoolDepositSuccessMsgsRequest) : Z :=
  let '(MkQueryPoolDepositSuccessMsgsRequest pi da pagin) := m in opt_varint_size pi + opt_bytes_size (to_bytes da) + opt_size
    1 (PageRequest_Size <$> pagin).
Definition QueryPoolDepositSuccessMsgsRequest_field (m : QueryPoolDepositSuccessMsgsRequest) (num wt l : Z) (buf : bytes) :=
  let '(MkQueryPoolDepositSuccessMsgsRequest pi da pagin) := m in
  if num =? 1 then get_varint (fun v => MkQueryPoolDepositSuccessMsgsRequest v da pagin) wt buf
  else if num =? 2 then get_bytes (fun bs => MkQueryPoolDepositSuccessMsgsRequest pi (bytes_str bs) pagin) wt l buf
  else if num =? 3 then get_msg (fun x => MkQueryPoolDepositSuccessMsgsRequest pi da (Some x)) (PageRequest_Unmarshal (default
      empty_PageRequest pagin)) wt l buf
  else None.
Definition empty_QueryPoolDepositSuccessMsgsRequest : QueryPoolDepositSuccessMsgsRequest := MkQueryPoolDepositSuccessMsgsRequest 0 "" None.
Definition QueryPoolDepositSuccessMsgsRequest_Unmarshal (m : QueryPoolDepositSuccessMsgsRequest) (dAtA : bytes) : res QueryPoolDepositSuccessMsgsRequest := unmarshal QueryPoolDepositSuccessMsgsRequest_field keep m dAtA.
Definition QueryPoolDepositSuccessMsgsRequest_ok (m : QueryPoolDepositSuccessMsgsRequest) : Prop :=
  let '(MkQueryPoolDepositSuccessMsgsRequest pi da pagin) := m in is_uint64 pi /\ from_option PageRequest_ok True pagin.
#[export] Instance QueryPoolDepositSuccessMsgsRequest_codec : Codec QueryPoolDepositSuccessMsgsRequest := {|
  codec_empty := empty_QueryPoolDepositSuccessMsgsRequest; codec_Marshal := QueryPoolDepositSuccessMsgsRequest_Marshal; codec_Size := QueryPoolDepositSuccessMsgsRequest_Size;
  codec_Unmarshal := QueryPoolDepositSuccessMsgsRequest_Unmarshal; codec_ok := QueryPoolDepositSuccessMsgsRequest_ok |}.
#[export] Instance QueryPoolDepositSuccessMsgsRequest_laws : CodecLaws QueryPoolDepositSuccessMsgsRequest.
Proof. codec_laws. Qed.

Record QueryPoolDepositSuccessMsgRequest := MkQueryPoolDepositSuccessMsgRequest {
  QueryPoolDepositSuccessMsgRequest_PoolId : Z; QueryPoolDepositSuccessMsgRequest_MsgIndex : Z }.
Definition QueryPoolDepositSuccessMsgRequest_Marshal (m : QueryPoolDepositSuccessMsgRequest) : bytes :=
  let '(MkQueryPoolDepositSuccessMsgRequest pi mi) := m in opt_varint 8 pi (opt_varint 16 mi []).
Definition QueryPoolDepositSuccessMsgRequest_Size (m : QueryPoolDepositSuccessMsgRequest) : Z :=
  let '(MkQueryPoolDepositSuccessMsgRequest pi mi) := m in opt_varint_size pi + opt_varint_size mi.
Definition QueryPoolDepositSuccessMsgRequest_field (m : QueryPoolDepositSuccessMsgRequest) (num wt l : Z) (buf : bytes) :=
  let '(MkQueryPoolDepositSuccessMsgRequest pi mi) := m in
  if num =? 1 then get_varint (fun v => MkQueryPoolDepositSuccessMsgRequest v mi) wt buf
  else if num =? 2 then get_varint (fun v => MkQueryPoolDepositSuccessMsgRequest pi v) wt buf
  else None.
Definition empty_QueryPoolDepositSuccessMsgRequest : QueryPoolDepositSuccessMsgRequest := MkQueryPoolDepositSuccessMsgRequest 0 0.
Definition QueryPoolDepositSuccessMsgRequest_Unmarshal (m : QueryPoolDepositSuccessMsgRequest) (dAtA : bytes) : res QueryPoolDepositSuccessMsgRequest := unmarshal QueryPoolDepositSuccessMsgRequest_field keep m dAtA.
Definition QueryPoolDepositSuccessMsgRequest_ok (m : QueryPoolDepositSuccessMsgRequest) : Prop :=
  let '(MkQueryPoolDepositSuccessMsgRequest pi mi) := m in is_uint64 pi /\ is_uint64 mi.
#[export] Instance QueryPoolDepositSuccessMsgRequest_codec : Codec QueryPoolDepositSuccessMsgRequest := {|
  codec_empty := empty_QueryPoolDepositSuccessMsgRequest; codec_Marshal := QueryPoolDepositSuccessMsgRequest_Marshal; codec_Size := QueryPoolDepositSuccessMsgRequest_Size;
  codec_Unmarshal := QueryPoolDepositSuccessMsgRequest_Unmarshal; codec_ok := QueryPoolDepositSuccessMsgRequest_ok |}.
#[export] Instance QueryPoolDepositSuccessMsgRequest_laws : CodecLaws QueryPoolDepositSuccessMsgRequest.
Proof. codec_laws. Qed.

Record QueryPoolDepositSuccessMsgsResponse := MkQueryPoolDepositSuccessMsgsResponse {
  QueryPoolDepositSuccessMsgsResponse_Deposits : list DepositSuccessMsg; QueryPoolDepositSuccessMsgsResponse_Pagination :
    option PageResponse }.
Definition QueryPoolDepositSuccessMsgsResponse_Marshal (m : QueryPoolDepositSuccessMsgsResponse) : bytes :=
  let '(MkQueryPoolDepositSuccessMsgsResponse deposits pagin) := m in rep_bytes 10 (map DepositSuccessMsg_Marshal deposits)
    (opt_ptr 18 (PageResponse_Marshal <$> pagin) []).
Definition QueryPoolDepositSuccessMsgsResponse_Size (m : QueryPoolDepositSuccessMsgsResponse) : Z :=
  let '(MkQueryPoolDepositSuccessMsgsResponse deposits pagin) := m in sum_sizes (map (fun x => msg_size 1
    (DepositSuccessMsg_Size x)) deposits) + opt_size 1 (PageResponse_Size <$> pagin).
Definition QueryPoolDepositSuccessMsgsResponse_field (m : QueryPoolDepositSuccessMsgsResponse) (num wt l : Z) (buf : bytes) :=
  let '(MkQueryPoolDepositSuccessMsgsResponse deposits pagin) := m in
  if num =? 1 then get_msg (fun x => MkQueryPoolDepositSuccessMsgsResponse (deposits ++ [x]) pagin)
      (DepositSuccessMsg_Unmarshal empty_DepositSuccessMsg) wt l buf
  else if num =? 2 then get_msg (fun x => MkQueryPoolDepositSuccessMsgsResponse deposits (Some x)) (PageResponse_Unmarshal
      (default empty_PageResponse pagin)) wt l buf
  else None.
Definition empty_QueryPoolDepositSuccessMsgsResponse : QueryPoolDepositSuccessMsgsResponse := MkQueryPoolDepositSuccessMsgsResponse [] None.
Definition QueryPoolDepositSuccessMsgsResponse_Unmarshal (m : QueryPoolDepositSuccessMsgsResponse) (dAtA : bytes) : res QueryPoolDepositSuccessMsgsResponse := unmarshal QueryPoolDepositSuccessMsgsResponse_field keep m dAtA.
Definition QueryPoolDepositSuccessMsgsResponse_ok (m : QueryPoolDepositSuccessMsgsResponse) : Prop :=
  let '(MkQueryPoolDepositSuccessMsgsResponse deposits pagin) := m in Forall DepositSuccessMsg_ok deposits /\ from_option
    PageResponse_ok True pagin.
#[export] Instance QueryPoolDepositSuccessMsgsResponse_codec : Codec QueryPoolDepositSuccessMsgsResponse := {|
  codec_empty := empty_QueryPoolDepositSuccessMsgsResponse; codec_Marshal := QueryPoolDepositSuccessMsgsResponse_Marshal; codec_Size := QueryPoolDepositSuccessMsgsResponse_Size;
  codec_Unmarshal := QueryPoolDepositSuccessMsgsResponse_Unmarshal; codec_ok := QueryPoolDepositSuccessMsgsResponse_ok |}.
#[export] Instance QueryPoolDepositSuccessMsgsResponse_laws : CodecLaws QueryPoolDepositSuccessMsgsResponse.
Proof. codec_laws. Qed.

Record QueryPoolDepositSuccessMsgResponse := MkQueryPoolDepositSuccessMsgResponse {
  QueryPoolDepositSuccessMsgResponse_Deposit : DepositSuccessMsg }.
Definition QueryPoolDepositSuccessMsgResponse_Marshal (m : QueryPoolDepositSuccessMsgResponse) : bytes :=
  let '(MkQueryPoolDepositSuccessMsgResponse deposit) := m in put_bytes 10 (DepositSuccessMsg_Marshal deposit) [].
Definition QueryPoolDepositSuccessMsgResponse_Size (m : QueryPoolDepositSuccessMsgResponse) : Z :=
  let '(MkQueryPoolDepositSuccessMsgResponse deposit) := m in msg_size 1 (DepositSuccessMsg_Size deposit).
Definition QueryPoolDepositSuccessMsgResponse_field (m : QueryPoolDepositSuccessMsgResponse) (num wt l : Z) (buf : bytes) :=
  let '(MkQueryPoolDepositSuccessMsgResponse deposit) := m in
  if num =? 1 then get_msg (fun x => MkQueryPoolDepositSuccessMsgResponse x) (DepositSuccessMsg_Unmarshal deposit) wt l buf
  else None.
Definition empty_QueryPoolDepositSuccessMsgResponse : QueryPoolDepositSuccessMsgResponse := MkQueryPoolDepositSuccessMsgResponse empty_DepositSuccessMsg.
Definition QueryPoolDepositSuccessMsgResponse_Unmarshal (m : QueryPoolDepositSuccessMsgResponse) (dAtA : bytes) : res QueryPoolDepositSuccessMsgResponse := unmarshal QueryPoolDepositSuccessMsgResponse_field keep m dAtA.
Definition QueryPoolDepositSuccessMsgResponse_ok (m : QueryPoolDepositSuccessMsgResponse) : Prop :=
  let '(MkQueryPoolDepositSuccessMsgResponse deposit) := m in DepositSuccessMsg_ok deposit.
#[export] Instance QueryPoolDepositSuccessMsgResponse_codec : Codec QueryPoolDepositSuccessMsgResponse := {|
  codec_empty := empty_QueryPoolDepositSuccessMsgResponse; codec_Marshal := QueryPoolDepositSuccessMsgResponse_Marshal; codec_Size := QueryPoolDepositSuccessMsgResponse_Size;
  codec_Unmarshal := QueryPoolDepositSuccessMsgResponse_Unmarshal; codec_ok := QueryPoolDepositSuccessMsgResponse_ok |}.
#[export] Instance QueryPoolDepositSuccessMsgResponse_laws : CodecLaws QueryPoolDepositSuccessMsgResponse.
Proof. codec_laws. Qed.

Record QueryLiquidityPoolRequest := MkQueryLiquidityPoolRequest { QueryLiquidityPoolRequest_PoolId : Z }.
Definition QueryLiquidityPoolRequest_Marshal (m : QueryLiquidityPoolRequest) : bytes :=
  let '(MkQueryLiquidityPoolRequest pi) := m in opt_varint 8 pi [].
Definition QueryLiquidityPoolRequest_Size (m : QueryLiquidityPoolRequest) : Z :=
  let '(MkQueryLiquidityPoolRequest pi) := m in opt_varint_size pi.
Definition QueryLiquidityPoolRequest_field (m : QueryLiquidityPoolRequest) (num wt l : Z) (buf : bytes) :=
  let '(MkQueryLiquidityPoolRequest pi) := m in
  if num =? 1 then get_varint (fun v => MkQueryLiquidityPoolRequest v) wt buf
  else None.
Definition empty_QueryLiquidityPoolRequest : QueryLiquidityPoolRequest := MkQueryLiquidityPoolRequest 0.
Definition QueryLiquidityPoolRequest_Unmarshal (m : QueryLiquidityPoolRequest) (dAtA : bytes) : res QueryLiquidityPoolRequest := unmarshal QueryLiquidityPoolRequest_field keep m dAtA.
Definition QueryLiquidityPoolRequest_ok (m : QueryLiquidityPoolRequest) : Prop :=
  let '(MkQueryLiquidityPoolRequest pi) := m in is_uint64 pi.
#[export] Instance QueryLiquidityPoolRequest_codec : Codec QueryLiquidityPoolRequest := {|
  codec_empty := empty_QueryLiquidityPoolRequest; codec_Marshal := QueryLiquidityPoolRequest_Marshal; codec_Size := QueryLiquidityPoolRequest_Size;
  codec_Unmarshal := QueryLiquidityPoolRequest_Unmarshal; codec_ok := QueryLiquidityPoolRequest_ok |}.
#[export] Instance QueryLiquidityPoolRequest_laws : CodecLaws QueryLiquidityPoolRequest.
Proof. codec_laws. Qed.

Record QueryLiquidityPoolResponse := MkQueryLiquidityPoolResponse { QueryLiquidityPoolResponse_Pool : Pool }.
Definition QueryLiquidityPoolResponse_Marshal (m : QueryLiquidityPoolResponse) : bytes :=
  let '(MkQueryLiquidityPoolResponse pool) := m in put_bytes 10 (Pool_Marshal pool) [].
Definition QueryLiquidityPoolResponse_Size (m : QueryLiquidityPoolResponse) : Z :=
  let '(MkQueryLiquidityPoolResponse pool) := m in msg_size 1 (Pool_Size pool).
Definition QueryLiquidityPoolResponse_field (m : QueryLiquidityPoolResponse) (num wt l : Z) (buf : bytes) :=
  let '(MkQueryLiquidityPoolResponse pool) := m in
  if num =? 1 then get_msg (fun x => MkQueryLiquidityPoolResponse x) (Pool_Unmarshal pool) wt l buf
  else None.
Definition empty_QueryLiquidityPoolResponse : QueryLiquidityPoolResponse := MkQueryLiquidityPoolResponse empty_Pool.
Definition QueryLiquidityPoolResponse_Unmarshal (m : QueryLiquidityPoolResponse) (dAtA : bytes) : res QueryLiquidityPoolResponse := unmarshal QueryLiquidityPoolResponse_field keep m dAtA.
Definition QueryLiquidityPoolResponse_ok (m : QueryLiquidityPoolResponse) : Prop :=
  let '(MkQueryLiquidityPoolResponse pool) := m in Pool_ok pool.
#[export] Instance QueryLiquidityPoolResponse_codec : Codec QueryLiquidityPoolResponse := {|
  codec_empty := empty_QueryLiquidityPoolResponse; codec_Marshal := QueryLiquidityPoolResponse_Marshal; codec_Size := QueryLiquidityPoolResponse_Size;
  codec_Unmarshal := QueryLiquidityPoolResponse_Unmarshal; codec_ok := QueryLiquidityPoolResponse_ok |}.
#[export] Instance QueryLiquidityPoolResponse_laws : CodecLaws QueryLiquidityPoolResponse.
Proof. codec_laws. Qed.

Record QueryLiquidityPoolByPoolCoinDenomRequest := MkQueryLiquidityPoolByPoolCoinDenomRequest {
  QueryLiquidityPoolByPoolCoinDenomRequest_PoolCoinDenom : string }.
Definition QueryLiquidityPoolByPoolCoinDenomRequest_Marshal (m : QueryLiquidityPoolByPoolCoinDenomRequest) : bytes :=
  let '(MkQueryLiquidityPoolByPoolCoinDenomRequest pcd) := m in opt_bytes 10 (to_bytes pcd) [].
Definition QueryLiquidityPoolByPoolCoinDenomRequest_Size (m : QueryLiquidityPoolByPoolCoinDenomRequest) : Z :=
  let '(MkQueryLiquidityPoolByPoolCoinDenomRequest pcd) := m in opt_bytes_size (to_bytes pcd).
Definition QueryLiquidityPoolByPoolCoinDenomRequest_field (m : QueryLiquidityPoolByPoolCoinDenomRequest) (num wt l : Z) (buf :
      bytes) :=
  let '(MkQueryLiquidityPoolByPoolCoinDenomRequest pcd) := m in
  if num =? 1 then get_bytes (fun bs => MkQueryLiquidityPoolByPoolCoinDenomRequest (bytes_str bs)) wt l buf
  else None.
Definition empty_QueryLiquidityPoolByPoolCoinDenomRequest : QueryLiquidityPoolByPoolCoinDenomRequest := MkQueryLiquidityPoolByPoolCoinDenomRequest "".
Definition QueryLiquidityPoolByPoolCoinDenomRequest_Unmarshal (m : QueryLiquidityPoolByPoolCoinDenomRequest) (dAtA : bytes) : res QueryLiquidityPoolByPoolCoinDenomRequest := unmarshal QueryLiquidityPoolByPoolCoinDenomRequest_field keep m dAtA.
Definition QueryLiquidityPoolByPoolCoinDenomRequest_ok (m : QueryLiquidityPoolByPoolCoinDenomRequest) : Prop :=
  let '(MkQueryLiquidityPoolByPoolCoinDenomRequest pcd) := m in True.
#[export] Instance QueryLiquidityPoolByPoolCoinDenomRequest_codec : Codec QueryLiquidityPoolByPoolCoinDenomRequest := {|
  codec_empty := empty_QueryLiquidityPoolByPoolCoinDenomRequest; codec_Marshal := QueryLiquidityPoolByPoolCoinDenomRequest_Marshal; codec_Size := QueryLiquidityPoolByPoolCoinDenomRequest_Size;
  codec_Unmarshal := QueryLiquidityPoolByPoolCoinDenomRequest_Unmarshal; codec_ok := QueryLiquidityPoolByPoolCoinDenomRequest_ok |}.
#[export] Instance QueryLiquidityPoolByPoolCoinDenomRequest_laws : CodecLaws QueryLiquidityPoolByPoolCoinDenomRequest.
Proof. codec_laws. Qed.

Record QueryLiquidityPoolByReserveAccRequest := MkQueryLiquidityPoolByReserveAccRequest {
  QueryLiquidityPoolByReserveAccRequest_ReserveAcc : string }.
Definition QueryLiquidityPoolByReserveAccRequest_Marshal (m : QueryLiquidityPoolByReserveAccRequest) : bytes :=
  let '(MkQueryLiquidityPoolByReserveAccRequest ra) := m in opt_bytes 10 (to_bytes ra) [].
Definition QueryLiquidityPoolByReserveAccRequest_Size (m : QueryLiquidityPoolByReserveAccRequest) : Z :=
  let '(MkQueryLiquidityPoolByReserveAccRequest ra) := m in opt_bytes_size (to_bytes ra).
Definition QueryLiquidityPoolByReserveAccRequest_field (m : QueryLiquidityPoolByReserveAccRequest) (num wt l : Z) (buf : bytes) :=
  let '(MkQueryLiquidityPoolByReserveAccRequest ra) := m in
  if num =? 1 then get_bytes (fun bs => MkQueryLiquidityPoolByReserveAccRequest (bytes_str bs)) wt l buf
  else None.
Definition empty_QueryLiquidityPoolByReserveAccRequest : QueryLiquidityPoolByReserveAccRequest := MkQueryLiquidityPoolByReserveAccRequest "".
Definition QueryLiquidityPoolByReserveAccRequest_Unmarshal (m : QueryLiquidityPoolByReserveAccRequest) (dAtA : bytes) : res QueryLiquidityPoolByReserveAccRequest := unmarshal QueryLiquidityPoolByReserveAccRequest_field keep m dAtA.
Definition QueryLiquidityPoolByReserveAccRequest_ok (m : QueryLiquidityPoolByReserveAccRequest) : Prop :=
  let '(MkQueryLiquidityPoolByReserveAccRequest ra) := m in True.
#[export] Instance QueryLiquidityPoolByReserveAccRequest_codec : Codec QueryLiquidityPoolByReserveAccRequest := {|
  codec_empty := empty_QueryLiquidityPoolByReserveAccRequest; codec_Marshal := QueryLiquidityPoolByReserveAccRequest_Marshal; codec_Size := QueryLiquidityPoolByReserveAccRequest_Size;
  codec_Unmarshal := QueryLiquidityPoolByReserveAccRequest_Unmarshal; codec_ok := QueryLiquidityPoolByReserveAccRequest_ok |}.
#[export] Instance QueryLiquidityPoolByReserveAccRequest_laws : CodecLaws QueryLiquidityPoolByReserveAccRequest.
Proof. codec_laws. Qed.

Record QueryLiquidityPoolBatchRequest := MkQueryLiquidityPoolBatchRequest { QueryLiquidityPoolBatchRequest_PoolId : Z }.
Definition QueryLiquidityPoolBatchRequest_Marshal (m : QueryLiquidityPoolBatchRequest) : bytes :=
  let '(MkQueryLiquidityPoolBatchRequest pi) := m in opt_varint 8 pi [].
Definition QueryLiquidityPoolBatchRequest_Size (m : QueryLiquidityPoolBatchRequest) : Z :=
  let '(MkQueryLiquidityPoolBatchRequest pi) := m in opt_varint_size pi.
Definition QueryLiquidityPoolBatchRequest_field (m : QueryLiquidityPoolBatchRequest) (num wt l : Z) (buf : bytes) :=
  let '(MkQueryLiquidityPoolBatchRequest pi) := m in
  if num =? 1 then get_varint (fun v => MkQueryLiquidityPoolBatchRequest v) wt buf
  else None.
Definition empty_QueryLiquidityPoolBatchRequest : QueryLiquidityPoolBatchRequest := MkQueryLiquidityPoolBatchRequest 0.
Definition QueryLiquidityPoolBatchRequest_Unmarshal (m : QueryLiquidityPoolBatchRequest) (dAtA : bytes) : res QueryLiquidityPoolBatchRequest := unmarshal QueryLiquidityPoolBatchRequest_field keep m dAtA.
Definition QueryLiquidityPoolBatchRequest_ok (m : QueryLiquidityPoolBatchRequest) : Prop :=
  let '(MkQueryLiquidityPoolBatchRequest pi) := m in is_uint64 pi.
#[export] Instance QueryLiquidityPoolBatchRequest_codec : Codec QueryLiquidityPoolBatchRequest := {|
  codec_empty := empty_QueryLiquidityPoolBatchRequest; codec_Marshal := QueryLiquidityPoolBatchRequest_Marshal; codec_Size := QueryLiquidityPoolBatchRequest_Size;
  codec_Unmarshal := QueryLiquidityPoolBatchRequest_Unmarshal; codec_ok := QueryLiquidityPoolBatchRequest_ok |}.
#[export] Instance QueryLiquidityPoolBatchRequest_laws : CodecLaws QueryLiquidityPoolBatchRequest.
Proof. codec_laws. Qed.

Record QueryLiquidityPoolBatchResponse := MkQueryLiquidityPoolBatchResponse { QueryLiquidityPoolBatchResponse_Batch : PoolBatch }.
Definition QueryLiquidityPoolBatchResponse_Marshal (m : QueryLiquidityPoolBatchResponse) : bytes :=
  let '(MkQueryLiquidityPoolBatchResponse batch) := m in put_bytes 10 (PoolBatch_Marshal batch) [].
Definition QueryLiquidityPoolBatchResponse_Size (m : QueryLiquidityPoolBatchResponse) : Z :=
  let '(MkQueryLiquidityPoolBatchResponse batch) := m in msg_size 1 (PoolBatch_Size batch).
Definition QueryLiquidityPoolBatchResponse_field (m : QueryLiquidityPoolBatchResponse) (num wt l : Z) (buf : bytes) :=
  let '(MkQueryLiquidityPoolBatchResponse batch) := m in
  if num =? 1 then get_msg (fun x => MkQueryLiquidityPoolBatchResponse x) (PoolBatch_Unmarshal batch) wt l buf
  else None.
Definition empty_QueryLiquidityPoolBatchResponse : QueryLiquidityPoolBatchResponse := MkQueryLiquidityPoolBatchResponse empty_PoolBatch.
Definition QueryLiquidityPoolBatchResponse_Unmarshal (m : QueryLiquidityPoolBatchResponse) (dAtA : bytes) : res QueryLiquidityPoolBatchResponse := unmarshal QueryLiquidityPoolBatchResponse_field keep m dAtA.
Definition QueryLiquidityPoolBatchResponse_ok (m : QueryLiquidityPoolBatchResponse) : Prop :=
  let '(MkQueryLiquidityPoolBatchResponse batch) := m in PoolBatch_ok batch.
#[export] Instance QueryLiquidityPoolBatchResponse_codec : Codec QueryLiquidityPoolBatchResponse := {|
  codec_empty := empty_QueryLiquidityPoolBatchResponse; codec_Marshal := QueryLiquidityPoolBatchResponse_Marshal; codec_Size := QueryLiquidityPoolBatchResponse_Size;
  codec_Unmarshal := QueryLiquidityPoolBatchResponse_Unmarshal; codec_ok := QueryLiquidityPoolBatchResponse_ok |}.
#[export] Instance QueryLiquidityPoolBatchResponse_laws : CodecLaws QueryLiquidityPoolBatchResponse.
Proof. codec_laws. Qed.

Record QueryLiquidityPoolsRequest := MkQueryLiquidityPoolsRequest { QueryLiquidityPoolsRequest_Pagination : option PageRequest }.
Definition QueryLiquidityPoolsRequest_Marshal (m : QueryLiquidityPoolsRequest) : bytes :=
  let '(MkQueryLiquidityPoolsRequest pagin) := m in opt_ptr 10 (PageRequest_Marshal <$> pagin) [].
Definition QueryLiquidityPoolsRequest_Size (m : QueryLiquidityPoolsRequest) : Z :=
  let '(MkQueryLiquidityPoolsRequest pagin) := m in opt_size 1 (PageRequest_Size <$> pagin).
Definition QueryLiquidityPoolsRequest_field (m : QueryLiquidityPoolsRequest) (num wt l : Z) (buf : bytes) :=
  let '(MkQueryLiquidityPoolsRequest pagin) := m in
  if num =? 1 then get_msg (fun x => MkQueryLiquidityPoolsRequest (Some x)) (PageRequest_Unmarshal (default empty_PageRequest
      pagin)) wt l buf
  else None.
Definition empty_QueryLiquidityPoolsRequest : QueryLiquidityPoolsRequest := MkQueryLiquidityPoolsRequest None.
Definition QueryLiquidityPoolsRequest_Unmarshal (m : QueryLiquidityPoolsRequest) (dAtA : bytes) : res QueryLiquidityPoolsRequest := unmarshal QueryLiquidityPoolsRequest_field keep m dAtA.
Definition QueryLiquidityPoolsRequest_ok (m : QueryLiquidityPoolsRequest) : Prop :=
  let '(MkQueryLiquidityPoolsRequest pagin) := m in from_option PageRequest_ok True pagin.
#[export] Instance QueryLiquidityPoolsRequest_codec : Codec QueryLiquidityPoolsRequest := {|
  codec_empty := empty_QueryLiquidityPoolsRequest; codec_Marshal := QueryLiquidityPoolsRequest_Marshal; codec_Size := QueryLiquidityPoolsRequest_Size;
  codec_Unmarshal := QueryLiquidityPoolsRequest_Unmarshal; codec_ok := QueryLiquidityPoolsRequest_ok |}.
#[export] Instance QueryLiquidityPoolsRequest_laws : CodecLaws QueryLiquidityPoolsRequest.
Proof. codec_laws. Qed.

Record QueryLiquidityPoolsResponse := MkQueryLiquidityPoolsResponse {
  QueryLiquidityPoolsResponse_Pools : list Pool; QueryLiquidityPoolsResponse_Pagination : option PageResponse }.
Definition QueryLiquidityPoolsResponse_Marshal (m : QueryLiquidityPoolsResponse) : bytes :=
  let '(MkQueryLiquidityPoolsResponse pools pagin) := m in rep_bytes 10 (map Pool_Marshal pools) (opt_ptr 18
    (PageResponse_Marshal <$> pagin) []).
Definition QueryLiquidityPoolsResponse_Size (m : QueryLiquidityPoolsResponse) : Z :=
  let '(MkQueryLiquidityPoolsResponse pools pagin) := m in sum_sizes (map (fun x => msg_size 1 (Pool_Size x)) pools) + opt_size
    1 (PageResponse_Size <$> pagin).
Definition QueryLiquidityPoolsResponse_field (m : QueryLiquidityPoolsResponse) (num wt l : Z) (buf : bytes) :=
  let '(MkQueryLiquidityPoolsResponse pools pagin) := m in
  if num =? 1 then get_msg (fun x => MkQueryLiquidityPoolsResponse (pools ++ [x]) pagin) (Pool_Unmarshal empty_Pool) wt l buf
  else if num =? 2 then get_msg (fun x => MkQueryLiquidityPoolsResponse pools (Some x)) (PageResponse_Unmarshal (default
      empty_PageResponse pagin)) wt l buf
  else None.
Definition empty_QueryLiquidityPoolsResponse : QueryLiquidityPoolsResponse := MkQueryLiquidityPoolsResponse [] None.
Definition QueryLiquidityPoolsResponse_Unmarshal (m : QueryLiquidityPoolsResponse) (dAtA : bytes) : res QueryLiquidityPoolsResponse := unmarshal QueryLiquidityPoolsResponse_field keep m dAtA.
Definition QueryLiquidityPoolsResponse_ok (m : QueryLiquidityPoolsResponse) : Prop :=
  let '(MkQueryLiquidityPoolsResponse pools pagin) := m in Forall Pool_ok pools /\ from_option PageResponse_ok True pagin.
#[export] Instance QueryLiquidityPoolsResponse_codec : Codec QueryLiquidityPoolsResponse := {|
  codec_empty := empty_QueryLiquidityPoolsResponse; codec_Marshal := QueryLiquidityPoolsResponse_Marshal; codec_Size := QueryLiquidityPoolsResponse_Size;
  codec_Unmarshal := QueryLiquidityPoolsResponse_Unmarshal; codec_ok := QueryLiquidityPoolsResponse_ok |}.
#[export] Instance QueryLiquidityPoolsResponse_laws : CodecLaws QueryLiquidityPoolsResponse.
Proof. codec_laws. Qed.

Record QueryParamsRequest := MkQueryParamsRequest {}.
Definition QueryParamsRequest_Marshal (m : QueryParamsRequest) : bytes := let '(MkQueryParamsRequest) := m in [].
Definition QueryParamsRequest_Size (m : QueryParamsRequest) : Z := let '(MkQueryParamsRequest) := m in 0.
Definition QueryParamsRequest_field (m : QueryParamsRequest) (num wt l : Z) (buf : bytes) : option (res (QueryParamsRequest *
      bytes)) := None.
Definition empty_QueryParamsRequest : QueryParamsRequest := MkQueryParamsRequest.
Definition QueryParamsRequest_Unmarshal (m : QueryParamsRequest) (dAtA : bytes) : res QueryParamsRequest := unmarshal QueryParamsRequest_field keep m dAtA.
Definition QueryParamsRequest_ok (m : QueryParamsRequest) : Prop := let '(MkQueryParamsRequest) := m in True.
#[export] Instance QueryParamsRequest_codec : Codec QueryParamsRequest := {|
  codec_empty := empty_QueryParamsRequest; codec_Marshal := QueryParamsRequest_Marshal; codec_Size := QueryParamsRequest_Size;
  codec_Unmarshal := QueryParamsRequest_Unmarshal; codec_ok := QueryParamsRequest_ok |}.
#[export] Instance QueryParamsRequest_laws : CodecLaws QueryParamsRequest.
Proof. codec_laws. Qed.

Record QueryParamsResponse := MkQueryParamsResponse { QueryParamsResponse_Params : SwapParams }.
Definition QueryParamsResponse_Marshal (m : QueryParamsResponse) : bytes :=
  let '(MkQueryParamsResponse params) := m in put_bytes 10 (SwapParams_Marshal params) [].
Definition QueryParamsResponse_Size (m : QueryParamsResponse) : Z :=
  let '(MkQueryParamsResponse params) := m in msg_size 1 (SwapParams_Size params).
Definition QueryParamsResponse_field (m : QueryParamsResponse) (num wt l : Z) (buf : bytes) :=
  let '(MkQueryParamsResponse params) := m in
  if num =? 1 then get_msg (fun x => MkQueryParamsResponse x) (SwapParams_Unmarshal params) wt l buf
  else None.
Definition empty_QueryParamsResponse : QueryParamsResponse := MkQueryParamsResponse empty_SwapParams.
Definition QueryParamsResponse_Unmarshal (m : QueryParamsResponse) (dAtA : bytes) : res QueryParamsResponse := unmarshal QueryParamsResponse_field keep m dAtA.
Definition QueryParamsResponse_ok (m : QueryParamsResponse) : Prop :=
  let '(MkQueryParamsResponse params) := m in SwapParams_ok params.
#[export] Instance QueryParamsResponse_codec : Codec QueryParamsResponse := {|
  codec_empty := empty_QueryParamsResponse; codec_Marshal := QueryParamsResponse_Marshal; codec_Size := QueryParamsResponse_Size;
  codec_Unmarshal := QueryParamsResponse_Unmarshal; codec_ok := QueryParamsResponse_ok |}.
#[export] Instance QueryParamsResponse_laws : CodecLaws QueryParamsResponse.
Proof. codec_laws. Qed.

Record QueryPoolBatchSwapMsgsRequest := MkQueryPoolBatchSwapMsgsRequest {
  QueryPoolBatchSwapMsgsRequest_PoolId : Z; QueryPoolBatchSwapMsgsRequest_Pagination : option PageRequest }.
Definition QueryPoolBatchSwapMsgsRequest_Marshal (m : QueryPoolBatchSwapMsgsRequest) : bytes :=
  let '(MkQueryPoolBatchSwapMsgsRequest pi pagin) := m in opt_varint 8 pi (opt_ptr 18 (PageRequest_Marshal <$> pagin) []).
Definition QueryPoolBatchSwapMsgsRequest_Size (m : QueryPoolBatchSwapMsgsRequest) : Z :=
  let '(MkQueryPoolBatchSwapMsgsRequest pi pagin) := m in opt_varint_size pi + opt_size 1 (PageRequest_Size <$> pagin).
Definition QueryPoolBatchSwapMsgsRequest_field (m : QueryPoolBatchSwapMsgsRequest) (num wt l : Z) (buf : bytes) :=
  let '(MkQueryPoolBatchSwapMsgsRequest pi pagin) := m in
  if num =? 1 then get_varint (fun v => MkQueryPoolBatchSwapMsgsRequest v pagin) wt buf
  else if num =? 2 then get_msg (fun x => MkQueryPoolBatchSwapMsgsRequest pi (Some x)) (PageRequest_Unmarshal (default
      empty_PageRequest pagin)) wt l buf
  else None.
Definition empty_QueryPoolBatchSwapMsgsRequest : QueryPoolBatchSwapMsgsRequest := MkQueryPoolBatchSwapMsgsRequest 0 None.
Definition QueryPoolBatchSwapMsgsRequest_Unmarshal (m : QueryPoolBatchSwapMsgsRequest) (dAtA : bytes) : res QueryPoolBatchSwapMsgsRequest := unmarshal QueryPoolBatchSwapMsgsRequest_field keep m dAtA.
Definition QueryPoolBatchSwapMsgsRequest_ok (m : QueryPoolBatchSwapMsgsRequest) : Prop :=
  let '(MkQueryPoolBatchSwapMsgsRequest pi pagin) := m in is_uint64 pi /\ from_option PageRequest_ok True pagin.
#[export] Instance QueryPoolBatchSwapMsgsRequest_codec : Codec QueryPoolBatchSwapMsgsRequest := {|
  codec_empty := empty_QueryPoolBatchSwapMsgsRequest; codec_Marshal := QueryPoolBatchSwapMsgsRequest_Marshal; codec_Size := QueryPoolBatchSwapMsgsRequest_Size;
  codec_Unmarshal := QueryPoolBatchSwapMsgsRequest_Unmarshal; codec_ok := QueryPoolBatchSwapMsgsRequest_ok |}.
#[export] Instance QueryPoolBatchSwapMsgsRequest_laws : CodecLaws QueryPoolBatchSwapMsgsRequest.
Proof. codec_laws. Qed.

Record QueryPoolBatchSwapMsgRequest := MkQueryPoolBatchSwapMsgRequest {
  QueryPoolBatchSwapMsgRequest_PoolId : Z; QueryPoolBatchSwapMsgRequest_MsgIndex : Z }.
Definition QueryPoolBatchSwapMsgRequest_Marshal (m : QueryPoolBatchSwapMsgRequest) : bytes :=
  let '(MkQueryPoolBatchSwapMsgRequest pi mi) := m in opt_varint 8 pi (opt_varint 16 mi []).
Definition QueryPoolBatchSwapMsgRequest_Size (m : QueryPoolBatchSwapMsgRequest) : Z :=
  let '(MkQueryPoolBatchSwapMsgRequest pi mi) := m in opt_varint_size pi + opt_varint_size mi.
Definition QueryPoolBatchSwapMsgRequest_field (m : QueryPoolBatchSwapMsgRequest) (num wt l : Z) (buf : bytes) :=
  let '(MkQueryPoolBatchSwapMsgRequest pi mi) := m in
  if num =? 1 then get_varint (fun v => MkQueryPoolBatchSwapMsgRequest v mi) wt buf
  else if num =? 2 then get_varint (fun v => MkQueryPoolBatchSwapMsgRequest pi v) wt buf
  else None.
Definition empty_QueryPoolBatchSwapMsgRequest : QueryPoolBatchSwapMsgRequest := MkQueryPoolBatchSwapMsgRequest 0 0.
Definition QueryPoolBatchSwapMsgRequest_Unmarshal (m : QueryPoolBatchSwapMsgRequest) (dAtA : bytes) : res QueryPoolBatchSwapMsgRequest := unmarshal QueryPoolBatchSwapMsgRequest_field keep m dAtA.
Definition QueryPoolBatchSwapMsgRequest_ok (m : QueryPoolBatchSwapMsgRequest) : Prop :=
  let '(MkQueryPoolBatchSwapMsgRequest pi mi) := m in is_uint64 pi /\ is_uint64 mi.
#[export] Instance QueryPoolBatchSwapMsgRequest_codec : Codec QueryPoolBatchSwapMsgRequest := {|
  codec_empty := empty_QueryPoolBatchSwapMsgRequest; codec_Marshal := QueryPoolBatchSwapMsgRequest_Marshal; codec_Size := QueryPoolBatchSwapMsgRequest_Size;
  codec_Unmarshal := QueryPoolBatchSwapMsgRequest_Unmarshal; codec_ok := QueryPoolBatchSwapMsgRequest_ok |}.
#[export] Instance QueryPoolBatchSwapMsgRequest_laws : CodecLaws QueryPoolBatchSwapMsgRequest.
Proof. codec_laws. Qed.

Record QueryPoolBatchSwapMsgsResponse := MkQueryPoolBatchSwapMsgsResponse {
  QueryPoolBatchSwapMsgsResponse_Swaps : list SwapMsgState; QueryPoolBatchSwapMsgsResponse_Pagination : option PageResponse }.
Definition QueryPoolBatchSwapMsgsResponse_Marshal (m : QueryPoolBatchSwapMsgsResponse) : bytes :=
  let '(MkQueryPoolBatchSwapMsgsResponse swaps pagin) := m in rep_bytes 10 (map SwapMsgState_Marshal swaps) (opt_ptr 18
    (PageResponse_Marshal <$> pagin) []).
Definition QueryPoolBatchSwapMsgsResponse_Size (m : QueryPoolBatchSwapMsgsResponse) : Z :=
  let '(MkQueryPoolBatchSwapMsgsResponse swaps pagin) := m in sum_sizes (map (fun x => msg_size 1 (SwapMsgState_Size x)) swaps)
    + opt_size 1 (PageResponse_Size <$> pagin).
Definition QueryPoolBatchSwapMsgsResponse_field (m : QueryPoolBatchSwapMsgsResponse) (num wt l : Z) (buf : bytes) :=
  let '(MkQueryPoolBatchSwapMsgsResponse swaps pagin) := m in
  if num =? 1 then get_msg (fun x => MkQueryPoolBatchSwapMsgsResponse (swaps ++ [x]) pagin) (SwapMsgState_Unmarshal
      empty_SwapMsgState) wt l buf
  else if num =? 2 then get_msg (fun x => MkQueryPoolBatchSwapMsgsResponse swaps (Some x)) (PageResponse_Unmarshal (default
      empty_PageResponse pagin)) wt l buf
  else None.
Definition empty_QueryPoolBatchSwapMsgsResponse : QueryPoolBatchSwapMsgsResponse := MkQueryPoolBatchSwapMsgsResponse [] None.
Definition QueryPoolBatchSwapMsgsResponse_Unmarshal (m : QueryPoolBatchSwapMsgsResponse) (dAtA : bytes) : res QueryPoolBatchSwapMsgsResponse := unmarshal QueryPoolBatchSwapMsgsResponse_field keep m dAtA.
Definition QueryPoolBatchSwapMsgsResponse_ok (m : QueryPoolBatchSwapMsgsResponse) : Prop :=
  let '(MkQueryPoolBatchSwapMsgsResponse swaps pagin) := m in Forall SwapMsgState_ok swaps /\ from_option PageResponse_ok True
    pagin.
#[export] Instance QueryPoolBatchSwapMsgsResponse_codec : Codec QueryPoolBatchSwapMsgsResponse := {|
  codec_empty := empty_QueryPoolBatchSwapMsgsResponse; codec_Marshal := QueryPoolBatchSwapMsgsResponse_Marshal; codec_Size := QueryPoolBatchSwapMsgsResponse_Size;
  codec_Unmarshal := QueryPoolBatchSwapMsgsResponse_Unmarshal; codec_ok := QueryPoolBatchSwapMsgsResponse_ok |}.
#[export] Instance QueryPoolBatchSwapMsgsResponse_laws : CodecLaws QueryPoolBatchSwapMsgsResponse.
Proof. codec_laws. Qed.

Record QueryPoolBatchSwapMsgResponse := MkQueryPoolBatchSwapMsgResponse { QueryPoolBatchSwapMsgResponse_Swap : SwapMsgState }.
Definition QueryPoolBatchSwapMsgResponse_Marshal (m : QueryPoolBatchSwapMsgResponse) : bytes :=
  let '(MkQueryPoolBatchSwapMsgResponse swap) := m in put_bytes 10 (SwapMsgState_Marshal swap) [].
Definition QueryPoolBatchSwapMsgResponse_Size (m : QueryPoolBatchSwapMsgResponse) : Z :=
  let '(MkQueryPoolBatchSwapMsgResponse swap) := m in msg_size 1 (SwapMsgState_Size swap).
Definition QueryPoolBatchSwapMsgResponse_field (m : QueryPoolBatchSwapMsgResponse) (num wt l : Z) (buf : bytes) :=
  let '(MkQueryPoolBatchSwapMsgResponse swap) := m in
  if num =? 1 then get_msg (fun x => MkQueryPoolBatchSwapMsgResponse x) (SwapMsgState_Unmarshal swap) wt l buf
  else None.
Definition empty_QueryPoolBatchSwapMsgResponse : QueryPoolBatchSwapMsgResponse := MkQueryPoolBatchSwapMsgResponse empty_SwapMsgState.
Definition QueryPoolBatchSwapMsgResponse_Unmarshal (m : QueryPoolBatchSwapMsgResponse) (dAtA : bytes) : res QueryPoolBatchSwapMsgResponse := unmarshal QueryPoolBatchSwapMsgResponse_field keep m dAtA.
Definition QueryPoolBatchSwapMsgResponse_ok (m : QueryPoolBatchSwapMsgResponse) : Prop :=
  let '(MkQueryPoolBatchSwapMsgResponse swap) := m in SwapMsgState_ok swap.
#[export] Instance QueryPoolBatchSwapMsgResponse_codec : Codec QueryPoolBatchSwapMsgResponse := {|
  codec_empty := empty_QueryPoolBatchSwapMsgResponse; codec_Marshal := QueryPoolBatchSwapMsgResponse_Marshal; codec_Size := QueryPoolBatchSwapMsgResponse_Size;
  codec_Unmarshal := QueryPoolBatchSwapMsgResponse_Unmarshal; codec_ok := QueryPoolBatchSwapMsgResponse_ok |}.
#[export] Instance QueryPoolBatchSwapMsgResponse_laws : CodecLaws QueryPoolBatchSwapMsgResponse.
Proof. codec_laws. Qed.

Record QueryPoolBatchDepositMsgsRequest := MkQueryPoolBatchDepositMsgsRequest {
  QueryPoolBatchDepositMsgsRequest_PoolId : Z; QueryPoolBatchDepositMsgsRequest_Pagination : option PageRequest }.
Definition QueryPoolBatchDepositMsgsRequest_Marshal (m : QueryPoolBatchDepositMsgsRequest) : bytes :=
  let '(MkQueryPoolBatchDepositMsgsRequest pi pagin) := m in opt_varint 8 pi (opt_ptr 18 (PageRequest_Marshal <$> pagin) []).
Definition QueryPoolBatchDepositMsgsRequest_Size (m : QueryPoolBatchDepositMsgsRequest) : Z :=
  let '(MkQueryPoolBatchDepositMsgsRequest pi pagin) := m in opt_varint_size pi + opt_size 1 (PageRequest_Size <$> pagin).
Definition QueryPoolBatchDepositMsgsRequest_field (m : QueryPoolBatchDepositMsgsRequest) (num wt l : Z) (buf : bytes) :=
  let '(MkQueryPoolBatchDepositMsgsRequest pi pagin) := m in
  if num =? 1 then get_varint (fun v => MkQueryPoolBatchDepositMsgsRequest v pagin) wt buf
  else if num =? 2 then get_msg (fun x => MkQueryPoolBatchDepositMsgsRequest pi (Some x)) (PageRequest_Unmarshal (default
      empty_PageRequest pagin)) wt l buf
  else None.
Definition empty_QueryPoolBatchDepositMsgsRequest : QueryPoolBatchDepositMsgsRequest := MkQueryPoolBatchDepositMsgsRequest 0 None.
Definition QueryPoolBatchDepositMsgsRequest_Unmarshal (m : QueryPoolBatchDepositMsgsRequest) (dAtA : bytes) : res QueryPoolBatchDepositMsgsRequest := unmarshal QueryPoolBatchDepositMsgsRequest_field keep m dAtA.
Definition QueryPoolBatchDepositMsgsRequest_ok (m : QueryPoolBatchDepositMsgsRequest) : Prop :=
  let '(MkQueryPoolBatchDepositMsgsRequest pi pagin) := m in is_uint64 pi /\ from_option PageRequest_ok True pagin.
#[export] Instance QueryPoolBatchDepositMsgsRequest_codec : Codec QueryPoolBatchDepositMsgsRequest := {|
  codec_empty := empty_QueryPoolBatchDepositMsgsRequest; codec_Marshal := QueryPoolBatchDepositMsgsRequest_Marshal; codec_Size := QueryPoolBatchDepositMsgsRequest_Size;
  codec_Unmarshal := QueryPoolBatchDepositMsgsRequest_Unmarshal; codec_ok := QueryPoolBatchDepositMsgsRequest_ok |}.
#[export] Instance QueryPoolBatchDepositMsgsRequest_laws : CodecLaws QueryPoolBatchDepositMsgsRequest.
Proof. codec_laws. Qed.

Record QueryPoolBatchDepositMsgRequest := MkQueryPoolBatchDepositMsgRequest {
  QueryPoolBatchDepositMsgRequest_PoolId : Z; QueryPoolBatchDepositMsgRequest_MsgIndex : Z }.
Definition QueryPoolBatchDepositMsgRequest_Marshal (m : QueryPoolBatchDepositMsgRequest) : bytes :=
  let '(MkQueryPoolBatchDepositMsgRequest pi mi) := m in opt_varint 8 pi (opt_varint 16 mi []).
Definition QueryPoolBatchDepositMsgRequest_Size (m : QueryPoolBatchDepositMsgRequest) : Z :=
  let '(MkQueryPoolBatchDepositMsgRequest pi mi) := m in opt_varint_size pi + opt_varint_size mi.
Definition QueryPoolBatchDepositMsgRequest_field (m : QueryPoolBatchDepositMsgRequest) (num wt l : Z) (buf : bytes) :=
  let '(MkQueryPoolBatchDepositMsgRequest pi mi) := m in
  if num =? 1 then get_varint (fun v => MkQueryPoolBatchDepositMsgRequest v mi) wt buf
  else if num =? 2 then get_varint (fun v => MkQueryPoolBatchDepositMsgRequest pi v) wt buf
  else None.
Definition empty_QueryPoolBatchDepositMsgRequest : QueryPoolBatchDepositMsgRequest := MkQueryPoolBatchDepositMsgRequest 0 0.
Definition QueryPoolBatchDepositMsgRequest_Unmarshal (m : QueryPoolBatchDepositMsgRequest) (dAtA : bytes) : res QueryPoolBatchDepositMsgRequest := unmarshal QueryPoolBatchDepositMsgRequest_field keep m dAtA.
Definition QueryPoolBatchDepositMsgRequest_ok (m : QueryPoolBatchDepositMsgRequest) : Prop :=
  let '(MkQueryPoolBatchDepositMsgRequest pi mi) := m in is_uint64 pi /\ is_uint64 mi.
#[export] Instance QueryPoolBatchDepositMsgRequest_codec : Codec QueryPoolBatchDepositMsgRequest := {|
  codec_empty := empty_QueryPoolBatchDepositMsgRequest; codec_Marshal := QueryPoolBatchDepositMsgRequest_Marshal; codec_Size := QueryPoolBatchDepositMsgRequest_Size;
  codec_Unmarshal := QueryPoolBatchDepositMsgRequest_Unmarshal; codec_ok := QueryPoolBatchDepositMsgRequest_ok |}.
#[export] Instance QueryPoolBatchDepositMsgRequest_laws : CodecLaws QueryPoolBatchDepositMsgRequest.
Proof. codec_laws. Qed.

Record QueryPoolBatchDepositMsgsResponse := MkQueryPoolBatchDepositMsgsResponse {
  QueryPoolBatchDepositMsgsResponse_Deposits : list DepositMsgState; QueryPoolBatchDepositMsgsResponse_Pagination : option
    PageResponse }.
Definition QueryPoolBatchDepositMsgsResponse_Marshal (m : QueryPoolBatchDepositMsgsResponse) : bytes :=
  let '(MkQueryPoolBatchDepositMsgsResponse deposits pagin) := m in rep_bytes 10 (map DepositMsgState_Marshal deposits)
    (opt_ptr 18 (PageResponse_Marshal <$> pagin) []).
Definition QueryPoolBatchDepositMsgsResponse_Size (m : QueryPoolBatchDepositMsgsResponse) : Z :=
  let '(MkQueryPoolBatchDepositMsgsResponse deposits pagin) := m in sum_sizes (map (fun x => msg_size 1 (DepositMsgState_Size
    x)) deposits) + opt_size 1 (PageResponse_Size <$> pagin).
Definition QueryPoolBatchDepositMsgsResponse_field (m : QueryPoolBatchDepositMsgsResponse) (num wt l : Z) (buf : bytes) :=
  let '(MkQueryPoolBatchDepositMsgsResponse deposits pagin) := m in
  if num =? 1 then get_msg (fun x => MkQueryPoolBatchDepositMsgsResponse (deposits ++ [x]) pagin) (DepositMsgState_Unmarshal
      empty_DepositMsgState) wt l buf
  else if num =? 2 then get_msg (fun x => MkQueryPoolBatchDepositMsgsResponse deposits (Some x)) (PageResponse_Unmarshal
      (default empty_PageResponse pagin)) wt l buf
  else None.
Definition empty_QueryPoolBatchDepositMsgsResponse : QueryPoolBatchDepositMsgsResponse := MkQueryPoolBatchDepositMsgsResponse [] None.
Definition QueryPoolBatchDepositMsgsResponse_Unmarshal (m : QueryPoolBatchDepositMsgsResponse) (dAtA : bytes) : res QueryPoolBatchDepositMsgsResponse := unmarshal QueryPoolBatchDepositMsgsResponse_field keep m dAtA.
Definition QueryPoolBatchDepositMsgsResponse_ok (m : QueryPoolBatchDepositMsgsResponse) : Prop :=
  let '(MkQueryPoolBatchDepositMsgsResponse deposits pagin) := m in Forall DepositMsgState_ok deposits /\ from_option
    PageResponse_ok True pagin.
#[export] Instance QueryPoolBatchDepositMsgsResponse_codec : Codec QueryPoolBatchDepositMsgsResponse := {|
  codec_empty := empty_QueryPoolBatchDepositMsgsResponse; codec_Marshal := QueryPoolBatchDepositMsgsResponse_Marshal; codec_Size := QueryPoolBatchDepositMsgsResponse_Size;
  codec_Unmarshal := QueryPoolBatchDepositMsgsResponse_Unmarshal; codec_ok := QueryPoolBatchDepositMsgsResponse_ok |}.
#[export] Instance QueryPoolBatchDepositMsgsResponse_laws : CodecLaws QueryPoolBatchDepositMsgsResponse.
Proof. codec_laws. Qed.

Record QueryPoolBatchDepositMsgResponse := MkQueryPoolBatchDepositMsgResponse {
  QueryPoolBatchDepositMsgResponse_Deposit : DepositMsgState }.
Definition QueryPoolBatchDepositMsgResponse_Marshal (m : QueryPoolBatchDepositMsgResponse) : bytes :=
  let '(MkQueryPoolBatchDepositMsgResponse deposit) := m in put_bytes 10 (DepositMsgState_Marshal deposit) [].
Definition QueryPoolBatchDepositMsgResponse_Size (m : QueryPoolBatchDepositMsgResponse) : Z :=
  let '(MkQueryPoolBatchDepositMsgResponse deposit) := m in msg_size 1 (DepositMsgState_Size deposit).
Definition QueryPoolBatchDepositMsgResponse_field (m : QueryPoolBatchDepositMsgResponse) (num wt l : Z) (buf : bytes) :=
  let '(MkQueryPoolBatchDepositMsgResponse deposit) := m in
  if num =? 1 then get_msg (fun x => MkQueryPoolBatchDepositMsgResponse x) (DepositMsgState_Unmarshal deposit) wt l buf
  else None.
Definition empty_QueryPoolBatchDepositMsgResponse : QueryPoolBatchDepositMsgResponse := MkQueryPoolBatchDepositMsgResponse empty_DepositMsgState.
Definition QueryPoolBatchDepositMsgResponse_Unmarshal (m : QueryPoolBatchDepositMsgResponse) (dAtA : bytes) : res QueryPoolBatchDepositMsgResponse := unmarshal QueryPoolBatchDepositMsgResponse_field keep m dAtA.
Definition QueryPoolBatchDepositMsgResponse_ok (m : QueryPoolBatchDepositMsgResponse) : Prop :=
  let '(MkQueryPoolBatchDepositMsgResponse deposit) := m in DepositMsgState_ok deposit.
#[export] Instance QueryPoolBatchDepositMsgResponse_codec : Codec QueryPoolBatchDepositMsgResponse := {|
  codec_empty := empty_QueryPoolBatchDepositMsgResponse; codec_Marshal := QueryPoolBatchDepositMsgResponse_Marshal; codec_Size := QueryPoolBatchDepositMsgResponse_Size;
  codec_Unmarshal := QueryPoolBatchDepositMsgResponse_Unmarshal; codec_ok := QueryPoolBatchDepositMsgResponse_ok |}.
#[export] Instance QueryPoolBatchDepositMsgResponse_laws : CodecLaws QueryPoolBatchDepositMsgResponse.
Proof. codec_laws. Qed.

Record QueryPoolBatchWithdrawMsgsRequest := MkQueryPoolBatchWithdrawMsgsRequest {
  QueryPoolBatchWithdrawMsgsRequest_PoolId : Z; QueryPoolBatchWithdrawMsgsRequest_Pagination : option PageRequest }.
Definition QueryPoolBatchWithdrawMsgsRequest_Marshal (m : QueryPoolBatchWithdrawMsgsRequest) : bytes :=
  let '(MkQueryPoolBatchWithdrawMsgsRequest pi pagin) := m in opt_varint 8 pi (opt_ptr 18 (PageRequest_Marshal <$> pagin) []).
Definition QueryPoolBatchWithdrawMsgsRequest_Size (m : QueryPoolBatchWithdrawMsgsRequest) : Z :=
  let '(MkQueryPoolBatchWithdrawMsgsRequest pi pagin) := m in opt_varint_size pi + opt_size 1 (PageRequest_Size <$> pagin).
Definition QueryPoolBatchWithdrawMsgsRequest_field (m : QueryPoolBatchWithdrawMsgsRequest) (num wt l : Z) (buf : bytes) :=
  let '(MkQueryPoolBatchWithdrawMsgsRequest pi pagin) := m in
  if num =? 1 then get_varint (fun v => MkQueryPoolBatchWithdrawMsgsRequest v pagin) wt buf
  else if num =? 2 then get_msg (fun x => MkQueryPoolBatchWithdrawMsgsRequest pi (Some x)) (PageRequest_Unmarshal (default
      empty_PageRequest pagin)) wt l buf
  else None.
Definition empty_QueryPoolBatchWithdrawMsgsRequest : QueryPoolBatchWithdrawMsgsRequest := MkQueryPoolBatchWithdrawMsgsRequest 0 None.
Definition QueryPoolBatchWithdrawMsgsRequest_Unmarshal (m : QueryPoolBatchWithdrawMsgsRequest) (dAtA : bytes) : res QueryPoolBatchWithdrawMsgsRequest := unmarshal QueryPoolBatchWithdrawMsgsRequest_field keep m dAtA.
Definition QueryPoolBatchWithdrawMsgsRequest_ok (m : QueryPoolBatchWithdrawMsgsRequest) : Prop :=
  let '(MkQueryPoolBatchWithdrawMsgsRequest pi pagin) := m in is_uint64 pi /\ from_option PageRequest_ok True pagin.
#[export] Instance QueryPoolBatchWithdrawMsgsRequest_codec : Codec QueryPoolBatchWithdrawMsgsRequest := {|
  codec_empty := empty_QueryPoolBatchWithdrawMsgsRequest; codec_Marshal := QueryPoolBatchWithdrawMsgsRequest_Marshal; codec_Size := QueryPoolBatchWithdrawMsgsRequest_Size;
  codec_Unmarshal := QueryPoolBatchWithdrawMsgsRequest_Unmarshal; codec_ok := QueryPoolBatchWithdrawMsgsRequest_ok |}.
#[export] Instance QueryPoolBatchWithdrawMsgsRequest_laws : CodecLaws QueryPoolBatchWithdrawMsgsRequest.
Proof. codec_laws. Qed.

Record QueryPoolBatchWithdrawMsgRequest := MkQueryPoolBatchWithdrawMsgRequest {
  QueryPoolBatchWithdrawMsgRequest_PoolId : Z; QueryPoolBatchWithdrawMsgRequest_MsgIndex : Z }.
Definition QueryPoolBatchWithdrawMsgRequest_Marshal (m : QueryPoolBatchWithdrawMsgRequest) : bytes :=
  let '(MkQueryPoolBatchWithdrawMsgRequest pi mi) := m in opt_varint 8 pi (opt_varint 16 mi []).
Definition QueryPoolBatchWithdrawMsgRequest_Size (m : QueryPoolBatchWithdrawMsgRequest) : Z :=
  let '(MkQueryPoolBatchWithdrawMsgRequest pi mi) := m in opt_varint_size pi + opt_varint_size mi.
Definition QueryPoolBatchWithdrawMsgRequest_field (m : QueryPoolBatchWithdrawMsgRequest) (num wt l : Z) (buf : bytes) :=
  let '(MkQueryPoolBatchWithdrawMsgRequest pi mi) := m in
  if num =? 1 then get_varint (fun v => MkQueryPoolBatchWithdrawMsgRequest v mi) wt buf
  else if num =? 2 then get_varint (fun v => MkQueryPoolBatchWithdrawMsgRequest pi v) wt buf
  else None.
Definition empty_QueryPoolBatchWithdrawMsgRequest : QueryPoolBatchWithdrawMsgRequest := MkQueryPoolBatchWithdrawMsgRequest 0 0.
Definition QueryPoolBatchWithdrawMsgRequest_Unmarshal (m : QueryPoolBatchWithdrawMsgRequest) (dAtA : bytes) : res QueryPoolBatchWithdrawMsgRequest := unmarshal QueryPoolBatchWithdrawMsgRequest_field keep m dAtA.
Definition QueryPoolBatchWithdrawMsgRequest_ok (m : QueryPoolBatchWithdrawMsgRequest) : Prop :=
  let '(MkQueryPoolBatchWithdrawMsgRequest pi mi) := m in is_uint64 pi /\ is_uint64 mi.
#[export] Instance QueryPoolBatchWithdrawMsgRequest_codec : Codec QueryPoolBatchWithdrawMsgRequest := {|
  codec_empty := empty_QueryPoolBatchWithdrawMsgRequest; codec_Marshal := QueryPoolBatchWithdrawMsgRequest_Marshal; codec_Size := QueryPoolBatchWithdrawMsgRequest_Size;
  codec_Unmarshal := QueryPoolBatchWithdrawMsgRequest_Unmarshal; codec_ok := QueryPoolBatchWithdrawMsgRequest_ok |}.
#[export] Instance QueryPoolBatchWithdrawMsgRequest_laws : CodecLaws QueryPoolBatchWithdrawMsgRequest.
Proof. codec_laws. Qed.

Record QueryPoolBatchWithdrawMsgsResponse := MkQueryPoolBatchWithdrawMsgsResponse {
  QueryPoolBatchWithdrawMsgsResponse_Withdraws : list WithdrawMsgState; QueryPoolBatchWithdrawMsgsResponse_Pagination : option
    PageResponse }.
Definition QueryPoolBatchWithdrawMsgsResponse_Marshal (m : QueryPoolBatchWithdrawMsgsResponse) : bytes :=
  let '(MkQueryPoolBatchWithdrawMsgsResponse withd pagin) := m in rep_bytes 10 (map WithdrawMsgState_Marshal withd) (opt_ptr 18
    (PageResponse_Marshal <$> pagin) []).
Definition QueryPoolBatchWithdrawMsgsResponse_Size (m : QueryPoolBatchWithdrawMsgsResponse) : Z :=
  let '(MkQueryPoolBatchWithdrawMsgsResponse withd pagin) := m in sum_sizes (map (fun x => msg_size 1 (WithdrawMsgState_Size
    x)) withd) + opt_size 1 (PageResponse_Size <$> pagin).
Definition QueryPoolBatchWithdrawMsgsResponse_field (m : QueryPoolBatchWithdrawMsgsResponse) (num wt l : Z) (buf : bytes) :=
  let '(MkQueryPoolBatchWithdrawMsgsResponse withd pagin) := m in
  if num =? 1 then get_msg (fun x => MkQueryPoolBatchWithdrawMsgsResponse (withd ++ [x]) pagin) (WithdrawMsgState_Unmarshal
      empty_WithdrawMsgState) wt l buf
  else if num =? 2 then get_msg (fun x => MkQueryPoolBatchWithdrawMsgsResponse withd (Some x)) (PageResponse_Unmarshal (default
      empty_PageResponse pagin)) wt l buf
  else None.
Definition empty_QueryPoolBatchWithdrawMsgsResponse : QueryPoolBatchWithdrawMsgsResponse := MkQueryPoolBatchWithdrawMsgsResponse [] None.
Definition QueryPoolBatchWithdrawMsgsResponse_Unmarshal (m : QueryPoolBatchWithdrawMsgsResponse) (dAtA : bytes) : res QueryPoolBatchWithdrawMsgsResponse := unmarshal QueryPoolBatchWithdrawMsgsResponse_field keep m dAtA.
Definition QueryPoolBatchWithdrawMsgsResponse_ok (m : QueryPoolBatchWithdrawMsgsResponse) : Prop :=
  let '(MkQueryPoolBatchWithdrawMsgsResponse withd pagin) := m in Forall WithdrawMsgState_ok withd /\ from_option
    PageResponse_ok True pagin.
#[export] Instance QueryPoolBatchWithdrawMsgsResponse_codec : Codec QueryPoolBatchWithdrawMsgsResponse := {|
  codec_empty := empty_QueryPoolBatchWithdrawMsgsResponse; codec_Marshal := QueryPoolBatchWithdrawMsgsResponse_Marshal; codec_Size := QueryPoolBatchWithdrawMsgsResponse_Size;
  codec_Unmarshal := QueryPoolBatchWithdrawMsgsResponse_Unmarshal; codec_ok := QueryPoolBatchWithdrawMsgsResponse_ok |}.
#[export] Instance QueryPoolBatchWithdrawMsgsResponse_laws : CodecLaws QueryPoolBatchWithdrawMsgsResponse.
Proof. codec_laws. Qed.

Record QueryPoolBatchWithdrawMsgResponse := MkQueryPoolBatchWithdrawMsgResponse {
  QueryPoolBatchWithdrawMsgResponse_Withdraw : WithdrawMsgState }.
Definition QueryPoolBatchWithdrawMsgResponse_Marshal (m : QueryPoolBatchWithdrawMsgResponse) : bytes :=
  let '(MkQueryPoolBatchWithdrawMsgResponse withdraw) := m in put_bytes 10 (WithdrawMsgState_Marshal withdraw) [].
Definition QueryPoolBatchWithdrawMsgResponse_Size (m : QueryPoolBatchWithdrawMsgResponse) : Z :=
  let '(MkQueryPoolBatchWithdrawMsgResponse withdraw) := m in msg_size 1 (WithdrawMsgState_Size withdraw).
Definition QueryPoolBatchWithdrawMsgResponse_field (m : QueryPoolBatchWithdrawMsgResponse) (num wt l : Z) (buf : bytes) :=
  let '(MkQueryPoolBatchWithdrawMsgResponse withdraw) := m in
  if num =? 1 then get_msg (fun x => MkQueryPoolBatchWithdrawMsgResponse x) (WithdrawMsgState_Unmarshal withdraw) wt l buf
  else None.
Definition empty_QueryPoolBatchWithdrawMsgResponse : QueryPoolBatchWithdrawMsgResponse := MkQueryPoolBatchWithdrawMsgResponse empty_WithdrawMsgState.
Definition QueryPoolBatchWithdrawMsgResponse_Unmarshal (m : QueryPoolBatchWithdrawMsgResponse) (dAtA : bytes) : res QueryPoolBatchWithdrawMsgResponse := unmarshal QueryPoolBatchWithdrawMsgResponse_field keep m dAtA.
Definition QueryPoolBatchWithdrawMsgResponse_ok (m : QueryPoolBatchWithdrawMsgResponse) : Prop :=
  let '(MkQueryPoolBatchWithdrawMsgResponse withdraw) := m in WithdrawMsgState_ok withdraw.
#[export] Instance QueryPoolBatchWithdrawMsgResponse_codec : Codec QueryPoolBatchWithdrawMsgResponse := {|
  codec_empty := empty_QueryPoolBatchWithdrawMsgResponse; codec_Marshal := QueryPoolBatchWithdrawMsgResponse_Marshal; codec_Size := QueryPoolBatchWithdrawMsgResponse_Size;
  codec_Unmarshal := QueryPoolBatchWithdrawMsgResponse_Unmarshal; codec_ok := QueryPoolBatchWithdrawMsgResponse_ok |}.
#[export] Instance QueryPoolBatchWithdrawMsgResponse_laws : CodecLaws QueryPoolBatchWithdrawMsgResponse.
Proof. codec_laws. Qed.
