(* ===== verification/SwapGrpc.v ===== *)
(** The query service of the coinswap module: the stubs, the handlers and the
    service description of [modules/coinswap/query.pd.go]. *)
From S2P Require Import Prelude GoStrings SdkInt SdkDec CoinSet Coins BitArray Wire Decoding Keys Multisig TxTypes TxProto Codec Messages Grpc Pagination Coinswap SwapProto SwapQuery.

Definition service : string := "tendermint.liquidity.v1beta1.Query".

(** [QueryServer] *)
Record QueryServer (W : Type) := MkQueryServer {
  srv_LiquidityPools : QueryLiquidityPoolsRequest -> ST W QueryLiquidityPoolsResponse;
  srv_LiquidityPool : QueryLiquidityPoolRequest -> ST W QueryLiquidityPoolResponse;
  srv_LiquidityPoolByPoolCoinDenom : QueryLiquidityPoolByPoolCoinDenomRequest -> ST W QueryLiquidityPoolResponse;
  srv_LiquidityPoolByReserveAcc : QueryLiquidityPoolByReserveAccRequest -> ST W QueryLiquidityPoolResponse;
  srv_LiquidityPoolBatch : QueryLiquidityPoolBatchRequest -> ST W QueryLiquidityPoolBatchResponse;
  srv_PoolBatchSwapMsgs : QueryPoolBatchSwapMsgsRequest -> ST W QueryPoolBatchSwapMsgsResponse;
  srv_PoolBatchSwapMsg : QueryPoolBatchSwapMsgRequest -> ST W QueryPoolBatchSwapMsgResponse;
  srv_PoolBatchDepositMsgs : QueryPoolBatchDepositMsgsRequest -> ST W QueryPoolBatchDepositMsgsResponse;
  srv_PoolBatchDepositMsg : QueryPoolBatchDepositMsgRequest -> ST W QueryPoolBatchDepositMsgResponse;
  srv_PoolBatchWithdrawMsgs : QueryPoolBatchWithdrawMsgsRequest -> ST W QueryPoolBatchWithdrawMsgsResponse;
  srv_PoolBatchWithdrawMsg : QueryPoolBatchWithdrawMsgRequest -> ST W QueryPoolBatchWithdrawMsgResponse;
  srv_Params : QueryParamsRequest -> ST W QueryParamsResponse;
  srv_PoolDepositSuccessMsg : QueryPoolDepositSuccessMsgRequest -> ST W QueryPoolDepositSuccessMsgResponse;
  srv_PoolDepositSuccessMsgs : QueryPoolDepositSuccessMsgsRequest -> ST W QueryPoolDepositSuccessMsgsResponse;
  srv_PoolSwapSuccessMsg : QueryPoolSwapSuccessMsgRequest -> ST W QueryPoolSwapSuccessMsgResponse;
  srv_PoolSwapSuccessMsgs : QueryPoolSwapSuccessMsgsRequest -> ST W QueryPoolSwapSuccessMsgsResponse;
  srv_PoolWithdrawSuccessMsg : QueryPoolWithdrawSuccessMsgRequest -> ST W QueryPoolWithdrawSuccessMsgResponse;
  srv_PoolWithdrawSuccessMsgs : QueryPoolWithdrawSuccessMsgsRequest -> ST W QueryPoolWithdrawSuccessMsgsResponse }.
Arguments srv_LiquidityPools {_} _ _.
Arguments srv_LiquidityPool {_} _ _.
Arguments srv_LiquidityPoolByPoolCoinDenom {_} _ _.
Arguments srv_LiquidityPoolByReserveAcc {_} _ _.
Arguments srv_LiquidityPoolBatch {_} _ _.
Arguments srv_PoolBatchSwapMsgs {_} _ _.
Arguments srv_PoolBatchSwapMsg {_} _ _.
Arguments srv_PoolBatchDepositMsgs {_} _ _.
Arguments srv_PoolBatchDepositMsg {_} _ _.
Arguments srv_PoolBatchWithdrawMsgs {_} _ _.
Arguments srv_PoolBatchWithdrawMsg {_} _ _.
Arguments srv_Params {_} _ _.
Arguments srv_PoolDepositSuccessMsg {_} _ _.
Arguments srv_PoolDepositSuccessMsgs {_} _ _.
Arguments srv_PoolSwapSuccessMsg {_} _ _.
Arguments srv_PoolSwapSuccessMsgs {_} _ _.
Arguments srv_PoolWithdrawSuccessMsg {_} _ _.
Arguments srv_PoolWithdrawSuccessMsgs {_} _ _.

(** The stubs. *)
Section Stubs.
Context {W Conn : Type}.
Variable grpc_call : Conn -> string -> bytes -> ST W bytes.
Definition queryClient_LiquidityPools (cc : Conn) (in_ : QueryLiquidityPoolsRequest) : ST W QueryLiquidityPoolsResponse :=
  Invoke grpc_call cc "/tendermint.liquidity.v1beta1.Query/LiquidityPools" in_.
Definition queryClient_LiquidityPool (cc : Conn) (in_ : QueryLiquidityPoolRequest) : ST W QueryLiquidityPoolResponse :=
  Invoke grpc_call cc "/tendermint.liquidity.v1beta1.Query/LiquidityPool" in_.
Definition queryClient_LiquidityPoolByPoolCoinDenom (cc : Conn) (in_ : QueryLiquidityPoolByPoolCoinDenomRequest) : ST W QueryLiquidityPoolResponse :=
  Invoke grpc_call cc "/tendermint.liquidity.v1beta1.Query/LiquidityPoolByPoolCoinDenom" in_.
Definition queryClient_LiquidityPoolByReserveAcc (cc : Conn) (in_ : QueryLiquidityPoolByReserveAccRequest) : ST W QueryLiquidityPoolResponse :=
  Invoke grpc_call cc "/tendermint.liquidity.v1beta1.Query/LiquidityPoolByReserveAcc" in_.
Definition queryClient_LiquidityPoolBatch (cc : Conn) (in_ : QueryLiquidityPoolBatchRequest) : ST W QueryLiquidityPoolBatchResponse :=
  Invoke grpc_call cc "/tendermint.liquidity.v1beta1.Query/LiquidityPoolBatch" in_.
Definition queryClient_PoolBatchSwapMsgs (cc : Conn) (in_ : QueryPoolBatchSwapMsgsRequest) : ST W QueryPoolBatchSwapMsgsResponse :=
  Invoke grpc_call cc "/tendermint.liquidity.v1beta1.Query/PoolBatchSwapMsgs" in_.
Definition queryClient_PoolBatchSwapMsg (cc : Conn) (in_ : QueryPoolBatchSwapMsgRequest) : ST W QueryPoolBatchSwapMsgResponse :=
  Invoke grpc_call cc "/tendermint.liquidity.v1beta1.Query/PoolBatchSwapMsg" in_.
Definition queryClient_PoolBatchDepositMsgs (cc : Conn) (in_ : QueryPoolBatchDepositMsgsRequest) : ST W QueryPoolBatchDepositMsgsResponse :=
  Invoke grpc_call cc "/tendermint.liquidity.v1beta1.Query/PoolBatchDepositMsgs" in_.
Definition queryClient_PoolBatchDepositMsg (cc : Conn) (in_ : QueryPoolBatchDepositMsgRequest) : ST W QueryPoolBatchDepositMsgResponse :=
  Invoke grpc_call cc "/tendermint.liquidity.v1beta1.Query/PoolBatchDepositMsg" in_.
Definition queryClient_PoolBatchWithdrawMsgs (cc : Conn) (in_ : QueryPoolBatchWithdrawMsgsRequest) : ST W QueryPoolBatchWithdrawMsgsResponse :=
  Invoke grpc_call cc "/tendermint.liquidity.v1beta1.Query/PoolBatchWithdrawMsgs" in_.
Definition queryClient_PoolBatchWithdrawMsg (cc : Conn) (in_ : QueryPoolBatchWithdrawMsgRequest) : ST W QueryPoolBatchWithdrawMsgResponse :=
  Invoke grpc_call cc "/tendermint.liquidity.v1beta1.Query/PoolBatchWithdrawMsg" in_.
Definition queryClient_Params (cc : Conn) (in_ : QueryParamsRequest) : ST W QueryParamsResponse :=
  Invoke grpc_call cc "/tendermint.liquidity.v1beta1.Query/Params" in_.
Definition queryClient_PoolDepositSuccessMsg (cc : Conn) (in_ : QueryPoolDepositSuccessMsgRequest) : ST W QueryPoolDepositSuccessMsgResponse :=
  Invoke grpc_call cc "/tendermint.liquidity.v1beta1.Query/PoolDepositSuccessMsg" in_.
Definition queryClient_PoolDepositSuccessMsgs (cc : Conn) (in_ : QueryPoolDepositSuccessMsgsRequest) : ST W QueryPoolDepositSuccessMsgsResponse :=
  Invoke grpc_call cc "/tendermint.liquidity.v1beta1.Query/PoolDepositSuccessMsgs" in_.
Definition queryClient_PoolSwapSuccessMsg (cc : Conn) (in_ : QueryPoolSwapSuccessMsgRequest) : ST W QueryPoolSwapSuccessMsgResponse :=
  Invoke grpc_call cc "/tendermint.liquidity.v1beta1.Query/PoolSwapSuccessMsg" in_.
Definition queryClient_PoolSwapSuccessMsgs (cc : Conn) (in_ : QueryPoolSwapSuccessMsgsRequest) : ST W QueryPoolSwapSuccessMsgsResponse :=
  Invoke grpc_call cc "/tendermint.liquidity.v1beta1.Query/PoolSwapSuccessMsgs" in_.
Definition queryClient_PoolWithdrawSuccessMsg (cc : Conn) (in_ : QueryPoolWithdrawSuccessMsgRequest) : ST W QueryPoolWithdrawSuccessMsgResponse :=
  Invoke grpc_call cc "/tendermint.liquidity.v1beta1.Query/PoolWithdrawSuccessMsg" in_.
Definition queryClient_PoolWithdrawSuccessMsgs (cc : Conn) (in_ : QueryPoolWithdrawSuccessMsgsRequest) : ST W QueryPoolWithdrawSuccessMsgsResponse :=
  Invoke grpc_call cc "/tendermint.liquidity.v1beta1.Query/PoolWithdrawSuccessMsgs" in_.
End Stubs.

(** The handlers. *)
Section Handlers.
Context {W : Type}.
Variable srv : QueryServer W.
Variable dec : forall A, Codec A -> A -> res A.
Variable interceptor : option (Interceptor W).
Definition _Query_LiquidityPools_Handler : ST W QueryLiquidityPoolsResponse :=
  unary_Handler "/tendermint.liquidity.v1beta1.Query/LiquidityPools" (srv_LiquidityPools srv) dec interceptor.
Definition _Query_LiquidityPool_Handler : ST W QueryLiquidityPoolResponse :=
  unary_Handler "/tendermint.liquidity.v1beta1.Query/LiquidityPool" (srv_LiquidityPool srv) dec interceptor.
Definition _Query_LiquidityPoolByPoolCoinDenom_Handler : ST W QueryLiquidityPoolResponse :=
  unary_Handler "/tendermint.liquidity.v1beta1.Query/LiquidityPoolByPoolCoinDenom" (srv_LiquidityPoolByPoolCoinDenom srv) dec interceptor.
Definition _Query_LiquidityPoolByReserveAcc_Handler : ST W QueryLiquidityPoolResponse :=
  unary_Handler "/tendermint.liquidity.v1beta1.Query/LiquidityPoolByReserveAcc" (srv_LiquidityPoolByReserveAcc srv) dec interceptor.
Definition _Query_LiquidityPoolBatch_Handler : ST W QueryLiquidityPoolBatchResponse :=
  unary_Handler "/tendermint.liquidity.v1beta1.Query/LiquidityPoolBatch" (srv_LiquidityPoolBatch srv) dec interceptor.
Definition _Query_PoolBatchSwapMsgs_Handler : ST W QueryPoolBatchSwapMsgsResponse :=
  unary_Handler "/tendermint.liquidity.v1beta1.Query/PoolBatchSwapMsgs" (srv_PoolBatchSwapMsgs srv) dec interceptor.
Definition _Query_PoolBatchSwapMsg_Handler : ST W QueryPoolBatchSwapMsgResponse :=
  unary_Handler "/tendermint.liquidity.v1beta1.Query/PoolBatchSwapMsg" (srv_PoolBatchSwapMsg srv) dec interceptor.
Definition _Query_PoolBatchDepositMsgs_Handler : ST W QueryPoolBatchDepositMsgsResponse :=
  unary_Handler "/tendermint.liquidity.v1beta1.Query/PoolBatchDepositMsgs" (srv_PoolBatchDepositMsgs srv) dec interceptor.
Definition _Query_PoolBatchDepositMsg_Handler : ST W QueryPoolBatchDepositMsgResponse :=
  unary_Handler "/tendermint.liquidity.v1beta1.Query/PoolBatchDepositMsg" (srv_PoolBatchDepositMsg srv) dec interceptor.
Definition _Query_PoolBatchWithdrawMsgs_Handler : ST W QueryPoolBatchWithdrawMsgsResponse :=
  unary_Handler "/tendermint.liquidity.v1beta1.Query/PoolBatchWithdrawMsgs" (srv_PoolBatchWithdrawMsgs srv) dec interceptor.
Definition _Query_PoolBatchWithdrawMsg_Handler : ST W QueryPoolBatchWithdrawMsgResponse :=
  unary_Handler "/tendermint.liquidity.v1beta1.Query/PoolBatchWithdrawMsg" (srv_PoolBatchWithdrawMsg srv) dec interceptor.
Definition _Query_Params_Handler : ST W QueryParamsResponse :=
  unary_Handler "/tendermint.liquidity.v1beta1.Query/Params" (srv_Params srv) dec interceptor.
Definition _Query_PoolDepositSuccessMsg_Handler : ST W QueryPoolDepositSuccessMsgResponse :=
  unary_Handler "/tendermint.liquidity.v1beta1.Query/PoolDepositSuccessMsg" (srv_PoolDepositSuccessMsg srv) dec interceptor.
Definition _Query_PoolDepositSuccessMsgs_Handler : ST W QueryPoolDepositSuccessMsgsResponse :=
  unary_Handler "/tendermint.liquidity.v1beta1.Query/PoolDepositSuccessMsgs" (srv_PoolDepositSuccessMsgs srv) dec interceptor.
Definition _Query_PoolSwapSuccessMsg_Handler : ST W QueryPoolSwapSuccessMsgResponse :=
  unary_Handler "/tendermint.liquidity.v1beta1.Query/PoolSwapSuccessMsg" (srv_PoolSwapSuccessMsg srv) dec interceptor.
Definition _Query_PoolSwapSuccessMsgs_Handler : ST W QueryPoolSwapSuccessMsgsResponse :=
  unary_Handler "/tendermint.liquidity.v1beta1.Query/PoolSwapSuccessMsgs" (srv_PoolSwapSuccessMsgs srv) dec interceptor.
Definition _Query_PoolWithdrawSuccessMsg_Handler : ST W QueryPoolWithdrawSuccessMsgResponse :=
  unary_Handler "/tendermint.liquidity.v1beta1.Query/PoolWithdrawSuccessMsg" (srv_PoolWithdrawSuccessMsg srv) dec interceptor.
Definition _Query_PoolWithdrawSuccessMsgs_Handler : ST W QueryPoolWithdrawSuccessMsgsResponse :=
  unary_Handler "/tendermint.liquidity.v1beta1.Query/PoolWithdrawSuccessMsgs" (srv_PoolWithdrawSuccessMsgs srv) dec interceptor.
End Handlers.

Definition _Query_serviceDesc {W} (srv : QueryServer W) : list (MethodDesc W) :=
  [MkMethodDesc "LiquidityPools" (fun dec i => encoded (_Query_LiquidityPools_Handler srv dec i));
   MkMethodDesc "LiquidityPool" (fun dec i => encoded (_Query_LiquidityPool_Handler srv dec i));
   MkMethodDesc "LiquidityPoolByPoolCoinDenom" (fun dec i => encoded (_Query_LiquidityPoolByPoolCoinDenom_Handler srv dec i));
   MkMethodDesc "LiquidityPoolByReserveAcc" (fun dec i => encoded (_Query_LiquidityPoolByReserveAcc_Handler srv dec i));
   MkMethodDesc "LiquidityPoolBatch" (fun dec i => encoded (_Query_LiquidityPoolBatch_Handler srv dec i));
   MkMethodDesc "PoolBatchSwapMsgs" (fun dec i => encoded (_Query_PoolBatchSwapMsgs_Handler srv dec i));
   MkMethodDesc "PoolBatchSwapMsg" (fun dec i => encoded (_Query_PoolBatchSwapMsg_Handler srv dec i));
   MkMethodDesc "PoolBatchDepositMsgs" (fun dec i => encoded (_Query_PoolBatchDepositMsgs_Handler srv dec i));
   MkMethodDesc "PoolBatchDepositMsg" (fun dec i => encoded (_Query_PoolBatchDepositMsg_Handler srv dec i));
   MkMethodDesc "PoolBatchWithdrawMsgs" (fun dec i => encoded (_Query_PoolBatchWithdrawMsgs_Handler srv dec i));
   MkMethodDesc "PoolBatchWithdrawMsg" (fun dec i => encoded (_Query_PoolBatchWithdrawMsg_Handler srv dec i));
   MkMethodDesc "Params" (fun dec i => encoded (_Query_Params_Handler srv dec i));
   MkMethodDesc "PoolDepositSuccessMsg" (fun dec i => encoded (_Query_PoolDepositSuccessMsg_Handler srv dec i));
   MkMethodDesc "PoolDepositSuccessMsgs" (fun dec i => encoded (_Query_PoolDepositSuccessMsgs_Handler srv dec i));
   MkMethodDesc "PoolSwapSuccessMsg" (fun dec i => encoded (_Query_PoolSwapSuccessMsg_Handler srv dec i));
   MkMethodDesc "PoolSwapSuccessMsgs" (fun dec i => encoded (_Query_PoolSwapSuccessMsgs_Handler srv dec i));
   MkMethodDesc "PoolWithdrawSuccessMsg" (fun dec i => encoded (_Query_PoolWithdrawSuccessMsg_Handler srv dec i));
   MkMethodDesc "PoolWithdrawSuccessMsgs" (fun dec i => encoded (_Query_PoolWithdrawSuccessMsgs_Handler srv dec i))].

(** [UnimplementedQueryServer]: every method is an error. *)
Definition Unimplemented {W A B} (method : string) (req : A) : ST W B := lift (Err ("method " +:+ method +:+ " not implemented")).
Definition UnimplementedQueryServer (W : Type) : QueryServer W := {|
  srv_LiquidityPools := Unimplemented "LiquidityPools";
  srv_LiquidityPool := Unimplemented "LiquidityPool";
  srv_LiquidityPoolByPoolCoinDenom := Unimplemented "LiquidityPoolByPoolCoinDenom";
  srv_LiquidityPoolByReserveAcc := Unimplemented "LiquidityPoolByReserveAcc";
  srv_LiquidityPoolBatch := Unimplemented "LiquidityPoolBatch";
  srv_PoolBatchSwapMsgs := Unimplemented "PoolBatchSwapMsgs";
  srv_PoolBatchSwapMsg := Unimplemented "PoolBatchSwapMsg";
  srv_PoolBatchDepositMsgs := Unimplemented "PoolBatchDepositMsgs";
  srv_PoolBatchDepositMsg := Unimplemented "PoolBatchDepositMsg";
  srv_PoolBatchWithdrawMsgs := Unimplemented "PoolBatchWithdrawMsgs";
  srv_PoolBatchWithdrawMsg := Unimplemented "PoolBatchWithdrawMsg";
  srv_Params := Unimplemented "Params";
  srv_PoolDepositSuccessMsg := Unimplemented "PoolDepositSuccessMsg";
  srv_PoolDepositSuccessMsgs := Unimplemented "PoolDepositSuccessMsgs";
  srv_PoolSwapSuccessMsg := Unimplemented "PoolSwapSuccessMsg";
  srv_PoolSwapSuccessMsgs := Unimplemented "PoolSwapSuccessMsgs";
  srv_PoolWithdrawSuccessMsg := Unimplemented "PoolWithdrawSuccessMsg";
  srv_PoolWithdrawSuccessMsgs := Unimplemented "PoolWithdrawSuccessMsgs" |}.

(** The methods of the service, with their requests and answers. *)
Inductive method :=
  | M_LiquidityPools
  | M_LiquidityPool
  | M_LiquidityPoolByPoolCoinDenom
  | M_LiquidityPoolByReserveAcc
  | M_LiquidityPoolBatch
  | M_PoolBatchSwapMsgs
  | M_PoolBatchSwapMsg
  | M_PoolBatchDepositMsgs
  | M_PoolBatchDepositMsg
  | M_PoolBatchWithdrawMsgs
  | M_PoolBatchWithdrawMsg
  | M_Params
  | M_PoolDepositSuccessMsg
  | M_PoolDepositSuccessMsgs
  | M_PoolSwapSuccessMsg
  | M_PoolSwapSuccessMsgs
  | M_PoolWithdrawSuccessMsg
  | M_PoolWithdrawSuccessMsgs.
Definition all_methods : list method := [M_LiquidityPools; M_LiquidityPool; M_LiquidityPoolByPoolCoinDenom; M_LiquidityPoolByReserveAcc; M_LiquidityPoolBatch; M_PoolBatchSwapMsgs; M_PoolBatchSwapMsg; M_PoolBatchDepositMsgs; M_PoolBatchDepositMsg; M_PoolBatchWithdrawMsgs; M_PoolBatchWithdrawMsg; M_Params; M_PoolDepositSuccessMsg; M_PoolDepositSuccessMsgs; M_PoolSwapSuccessMsg; M_PoolSwapSuccessMsgs; M_PoolWithdrawSuccessMsg; M_PoolWithdrawSuccessMsgs].
(** The paths of the stubs. *)
Definition method_path (m : method) : string := "/" +:+ service +:+ "/" +:+
  match m with
  | M_LiquidityPools => "LiquidityPools"
  | M_LiquidityPool => "LiquidityPool"
  | M_LiquidityPoolByPoolCoinDenom => "LiquidityPoolByPoolCoinDenom"
  | M_LiquidityPoolByReserveAcc => "LiquidityPoolByReserveAcc"
  | M_LiquidityPoolBatch => "LiquidityPoolBatch"
  | M_PoolBatchSwapMsgs => "PoolBatchSwapMsgs"
  | M_PoolBatchSwapMsg => "PoolBatchSwapMsg"
  | M_PoolBatchDepositMsgs => "PoolBatchDepositMsgs"
  | M_PoolBatchDepositMsg => "PoolBatchDepositMsg"
  | M_PoolBatchWithdrawMsgs => "PoolBatchWithdrawMsgs"
  | M_PoolBatchWithdrawMsg => "PoolBatchWithdrawMsg"
  | M_Params => "Params"
  | M_PoolDepositSuccessMsg => "PoolDepositSuccessMsg"
  | M_PoolDepositSuccessMsgs => "PoolDepositSuccessMsgs"
  | M_PoolSwapSuccessMsg => "PoolSwapSuccessMsg"
  | M_PoolSwapSuccessMsgs => "PoolSwapSuccessMsgs"
  | M_PoolWithdrawSuccessMsg => "PoolWithdrawSuccessMsg"
  | M_PoolWithdrawSuccessMsgs => "PoolWithdrawSuccessMsgs"
  end.
Definition request (m : method) : Type :=
  match m with
  | M_LiquidityPools => QueryLiquidityPoolsRequest
  | M_LiquidityPool => QueryLiquidityPoolRequest
  | M_LiquidityPoolByPoolCoinDenom => QueryLiquidityPoolByPoolCoinDenomRequest
  | M_LiquidityPoolByReserveAcc => QueryLiquidityPoolByReserveAccRequest
  | M_LiquidityPoolBatch => QueryLiquidityPoolBatchRequest
  | M_PoolBatchSwapMsgs => QueryPoolBatchSwapMsgsRequest
  | M_PoolBatchSwapMsg => QueryPoolBatchSwapMsgRequest
  | M_PoolBatchDepositMsgs => QueryPoolBatchDepositMsgsRequest
  | M_PoolBatchDepositMsg => QueryPoolBatchDepositMsgRequest
  | M_PoolBatchWithdrawMsgs => QueryPoolBatchWithdrawMsgsRequest
  | M_PoolBatchWithdrawMsg => QueryPoolBatchWithdrawMsgRequest
  | M_Params => QueryParamsRequest
  | M_PoolDepositSuccessMsg => QueryPoolDepositSuccessMsgRequest
  | M_PoolDepositSuccessMsgs => QueryPoolDepositSuccessMsgsRequest
  | M_PoolSwapSuccessMsg => QueryPoolSwapSuccessMsgRequest
  | M_PoolSwapSuccessMsgs => QueryPoolSwapSuccessMsgsRequest
  | M_PoolWithdrawSuccessMsg => QueryPoolWithdrawSuccessMsgRequest
  | M_PoolWithdrawSuccessMsgs => QueryPoolWithdrawSuccessMsgsRequest
  end.
#[export] Instance request_codec m : Codec (request m) := match m with
  | M_LiquidityPools => QueryLiquidityPoolsRequest_codec
  | M_LiquidityPool => QueryLiquidityPoolRequest_codec
  | M_LiquidityPoolByPoolCoinDenom => QueryLiquidityPoolByPoolCoinDenomRequest_codec
  | M_LiquidityPoolByReserveAcc => QueryLiquidityPoolByReserveAccRequest_codec
  | M_LiquidityPoolBatch => QueryLiquidityPoolBatchRequest_codec
  | M_PoolBatchSwapMsgs => QueryPoolBatchSwapMsgsRequest_codec
  | M_PoolBatchSwapMsg => QueryPoolBatchSwapMsgRequest_codec
  | M_PoolBatchDepositMsgs => QueryPoolBatchDepositMsgsRequest_codec
  | M_PoolBatchDepositMsg => QueryPoolBatchDepositMsgRequest_codec
  | M_PoolBatchWithdrawMsgs => QueryPoolBatchWithdrawMsgsRequest_codec
  | M_PoolBatchWithdrawMsg => QueryPoolBatchWithdrawMsgRequest_codec
  | M_Params => QueryParamsRequest_codec
  | M_PoolDepositSuccessMsg => QueryPoolDepositSuccessMsgRequest_codec
  | M_PoolDepositSuccessMsgs => QueryPoolDepositSuccessMsgsRequest_codec
  | M_PoolSwapSuccessMsg => QueryPoolSwapSuccessMsgRequest_codec
  | M_PoolSwapSuccessMsgs => QueryPoolSwapSuccessMsgsRequest_codec
  | M_PoolWithdrawSuccessMsg => QueryPoolWithdrawSuccessMsgRequest_codec
  | M_PoolWithdrawSuccessMsgs => QueryPoolWithdrawSuccessMsgsRequest_codec
  end.
#[export] Instance request_laws m : CodecLaws (request m).
Proof. destruct m; exact _. Qed.
Definition response (m : method) : Type :=
  match m with
  | M_LiquidityPools => QueryLiquidityPoolsResponse
  | M_LiquidityPool => QueryLiquidityPoolResponse
  | M_LiquidityPoolByPoolCoinDenom => QueryLiquidityPoolResponse
  | M_LiquidityPoolByReserveAcc => QueryLiquidityPoolResponse
  | M_LiquidityPoolBatch => QueryLiquidityPoolBatchResponse
  | M_PoolBatchSwapMsgs => QueryPoolBatchSwapMsgsResponse
  | M_PoolBatchSwapMsg => QueryPoolBatchSwapMsgResponse
  | M_PoolBatchDepositMsgs => QueryPoolBatchDepositMsgsResponse
  | M_PoolBatchDepositMsg => QueryPoolBatchDepositMsgResponse
  | M_PoolBatchWithdrawMsgs => QueryPoolBatchWithdrawMsgsResponse
  | M_PoolBatchWithdrawMsg => QueryPoolBatchWithdrawMsgResponse
  | M_Params => QueryParamsResponse
  | M_PoolDepositSuccessMsg => QueryPoolDepositSuccessMsgResponse
  | M_PoolDepositSuccessMsgs => QueryPoolDepositSuccessMsgsResponse
  | M_PoolSwapSuccessMsg => QueryPoolSwapSuccessMsgResponse
  | M_PoolSwapSuccessMsgs => QueryPoolSwapSuccessMsgsResponse
  | M_PoolWithdrawSuccessMsg => QueryPoolWithdrawSuccessMsgResponse
  | M_PoolWithdrawSuccessMsgs => QueryPoolWithdrawSuccessMsgsResponse
  end.
#[export] Instance response_codec m : Codec (response m) := match m with
  | M_LiquidityPools => QueryLiquidityPoolsResponse_codec
  | M_LiquidityPool => QueryLiquidityPoolResponse_codec
  | M_LiquidityPoolByPoolCoinDenom => QueryLiquidityPoolResponse_codec
  | M_LiquidityPoolByReserveAcc => QueryLiquidityPoolResponse_codec
  | M_LiquidityPoolBatch => QueryLiquidityPoolBatchResponse_codec
  | M_PoolBatchSwapMsgs => QueryPoolBatchSwapMsgsResponse_codec
  | M_PoolBatchSwapMsg => QueryPoolBatchSwapMsgResponse_codec
  | M_PoolBatchDepositMsgs => QueryPoolBatchDepositMsgsResponse_codec
  | M_PoolBatchDepositMsg => QueryPoolBatchDepositMsgResponse_codec
  | M_PoolBatchWithdrawMsgs => QueryPoolBatchWithdrawMsgsResponse_codec
  | M_PoolBatchWithdrawMsg => QueryPoolBatchWithdrawMsgResponse_codec
  | M_Params => QueryParamsResponse_codec
  | M_PoolDepositSuccessMsg => QueryPoolDepositSuccessMsgResponse_codec
  | M_PoolDepositSuccessMsgs => QueryPoolDepositSuccessMsgsResponse_codec
  | M_PoolSwapSuccessMsg => QueryPoolSwapSuccessMsgResponse_codec
  | M_PoolSwapSuccessMsgs => QueryPoolSwapSuccessMsgsResponse_codec
  | M_PoolWithdrawSuccessMsg => QueryPoolWithdrawSuccessMsgResponse_codec
  | M_PoolWithdrawSuccessMsgs => QueryPoolWithdrawSuccessMsgsResponse_codec
  end.
#[export] Instance response_laws m : CodecLaws (response m).
Proof. destruct m; exact _. Qed.
Definition stub {W Conn} (grpc_call : Conn -> string -> bytes -> ST W bytes) (m : method) : Conn -> request m -> ST W (response m) :=
  match m with
  | M_LiquidityPools => queryClient_LiquidityPools grpc_call
  | M_LiquidityPool => queryClient_LiquidityPool grpc_call
  | M_LiquidityPoolByPoolCoinDenom => queryClient_LiquidityPoolByPoolCoinDenom grpc_call
  | M_LiquidityPoolByReserveAcc => queryClient_LiquidityPoolByReserveAcc grpc_call
  | M_LiquidityPoolBatch => queryClient_LiquidityPoolBatch grpc_call
  | M_PoolBatchSwapMsgs => queryClient_PoolBatchSwapMsgs grpc_call
  | M_PoolBatchSwapMsg => queryClient_PoolBatchSwapMsg grpc_call
  | M_PoolBatchDepositMsgs => queryClient_PoolBatchDepositMsgs grpc_call
  | M_PoolBatchDepositMsg => queryClient_PoolBatchDepositMsg grpc_call
  | M_PoolBatchWithdrawMsgs => queryClient_PoolBatchWithdrawMsgs grpc_call
  | M_PoolBatchWithdrawMsg => queryClient_PoolBatchWithdrawMsg grpc_call
  | M_Params => queryClient_Params grpc_call
  | M_PoolDepositSuccessMsg => queryClient_PoolDepositSuccessMsg grpc_call
  | M_PoolDepositSuccessMsgs => queryClient_PoolDepositSuccessMsgs grpc_call
  | M_PoolSwapSuccessMsg => queryClient_PoolSwapSuccessMsg grpc_call
  | M_PoolSwapSuccessMsgs => queryClient_PoolSwapSuccessMsgs grpc_call
  | M_PoolWithdrawSuccessMsg => queryClient_PoolWithdrawSuccessMsg grpc_call
  | M_PoolWithdrawSuccessMsgs => queryClient_PoolWithdrawSuccessMsgs grpc_call
  end.
Definition serve {W} (srv : QueryServer W) (m : method) : request m -> ST W (response m) :=
  match m with
  | M_LiquidityPools => srv_LiquidityPools srv
  | M_LiquidityPool => srv_LiquidityPool srv
  | M_LiquidityPoolByPoolCoinDenom => srv_LiquidityPoolByPoolCoinDenom srv
  | M_LiquidityPoolByReserveAcc => srv_LiquidityPoolByReserveAcc srv
  | M_LiquidityPoolBatch => srv_LiquidityPoolBatch srv
  | M_PoolBatchSwapMsgs => srv_PoolBatchSwapMsgs srv
  | M_PoolBatchSwapMsg => srv_PoolBatchSwapMsg srv
  | M_PoolBatchDepositMsgs => srv_PoolBatchDepositMsgs srv
  | M_PoolBatchDepositMsg => srv_PoolBatchDepositMsg srv
  | M_PoolBatchWithdrawMsgs => srv_PoolBatchWithdrawMsgs srv
  | M_PoolBatchWithdrawMsg => srv_PoolBatchWithdrawMsg srv
  | M_Params => srv_Params srv
  | M_PoolDepositSuccessMsg => srv_PoolDepositSuccessMsg srv
  | M_PoolDepositSuccessMsgs => srv_PoolDepositSuccessMsgs srv
  | M_PoolSwapSuccessMsg => srv_PoolSwapSuccessMsg srv
  | M_PoolSwapSuccessMsgs => srv_PoolSwapSuccessMsgs srv
  | M_PoolWithdrawSuccessMsg => srv_PoolWithdrawSuccessMsg srv
  | M_PoolWithdrawSuccessMsgs => srv_PoolWithdrawSuccessMsgs srv
  end.

(* ------------------------------------------------------------------ *)
(** * Calls *)

Lemma service_paths {W} (srv : QueryServer W) d : In d (_Query_serviceDesc srv) ->
  exists m, desc_path service d = method_path m.
Proof.
  intros Hd. assert (map (desc_path service) (_Query_serviceDesc srv) = map method_path all_methods) as E by reflexivity.
  apply (List.in_map (desc_path service)) in Hd. rewrite E in Hd.
  apply List.in_map_iff in Hd as (m & Hm & _). eauto.
Qed.

Section Served.
Context {W Conn : Type} (grpc_call : Conn -> string -> bytes -> ST W bytes) (reaches : Conn -> W -> Prop) (status : string -> string).
Variable srv : QueryServer W.
Hypothesis node : connected grpc_call reaches status service (_Query_serviceDesc srv).

Lemma stub_served cc (m : method) (in_ : request m) w r w' :
  reaches cc w -> codec_ok in_ -> Z.of_nat (length (codec_Marshal in_)) < 2 ^ 62 ->
  serve srv m in_ w = (r, w') -> panics r = false ->
  (forall a, r = Ok a -> codec_ok a /\ Z.of_nat (length (codec_Marshal a)) < 2 ^ 62) ->
  stub grpc_call m cc in_ w = (seen status r, w').
Proof using node.
  intros Hrc Hin H62 Hm Hp Hr.
  assert (forall n d, nth_error (_Query_serviceDesc srv) n = Some d -> In d (_Query_serviceDesc srv)) as Hnth
    by (intros n d; apply nth_error_In).
  set (go n := fun d (E : nth_error (_Query_serviceDesc srv) n = Some d) H =>
    Invoke_served grpc_call reaches status service (_Query_serviceDesc srv) cc d (serve srv m) in_ w r w' node Hrc (Hnth n d E) H Hin H62 Hm Hp Hr).
  destruct m;
    [exact (go 0%nat _ eq_refl eq_refl)|exact (go 1%nat _ eq_refl eq_refl)|exact (go 2%nat _ eq_refl eq_refl)
    |exact (go 3%nat _ eq_refl eq_refl)|exact (go 4%nat _ eq_refl eq_refl)|exact (go 5%nat _ eq_refl eq_refl)
    |exact (go 6%nat _ eq_refl eq_refl)|exact (go 7%nat _ eq_refl eq_refl)|exact (go 8%nat _ eq_refl eq_refl)
    |exact (go 9%nat _ eq_refl eq_refl)|exact (go 10%nat _ eq_refl eq_refl)|exact (go 11%nat _ eq_refl eq_refl)
    |exact (go 12%nat _ eq_refl eq_refl)|exact (go 13%nat _ eq_refl eq_refl)|exact (go 14%nat _ eq_refl eq_refl)
    |exact (go 15%nat _ eq_refl eq_refl)|exact (go 16%nat _ eq_refl eq_refl)|exact (go 17%nat _ eq_refl eq_refl)].
Qed.

(** A stub that reports success has reached the server. *)
Lemma stub_success cc (m : method) (in_ : request m) w a w' : stub grpc_call m cc in_ w = (Ok a, w') -> reaches cc w.
Proof using node. destruct m; intros E; exact (Invoke_success grpc_call reaches status service _ cc _ in_ w a w' node E). Qed.

(** C22: Every query of the coinswap module that reaches the server runs the method
    of the same name there, with the request that was made, and returns what that
    method gave, its answer or, as a status, its error: the stubs of the client
    together with the handlers of the server and the encodings in between are the
    server's methods.  What is relied on of the gRPC library and the network is
    [Grpc.connected]; the requests and answers are within their types and shorter
    than [2^62] bytes, and the server's method does not panic.  A stub that reports success returns the server's answer,
    whatever the network does; and a call of any path that is not one of the stubs'
    never succeeds. *)
Theorem queries_served cc w :
  (forall (m : method) (in_ : request m) r w',
    reaches cc w -> codec_ok in_ -> Z.of_nat (length (codec_Marshal in_)) < 2 ^ 62 ->
    serve srv m in_ w = (r, w') -> panics r = false ->
    (forall a, r = Ok a -> codec_ok a /\ Z.of_nat (length (codec_Marshal a)) < 2 ^ 62) ->
    stub grpc_call m cc in_ w = (seen status r, w')) /\
  (forall (m : method) (in_ : request m) a w',
    codec_ok in_ -> Z.of_nat (length (codec_Marshal in_)) < 2 ^ 62 -> panics (serve srv m in_ w).1 = false ->
    (forall a, (serve srv m in_ w).1 = Ok a -> codec_ok a /\ Z.of_nat (length (codec_Marshal a)) < 2 ^ 62) ->
    stub grpc_call m cc in_ w = (Ok a, w') -> serve srv m in_ w = (Ok a, w')) /\
  (forall FullMethod bz, (forall m, FullMethod <> method_path m) ->
    (reaches cc w -> exists e, grpc_call cc FullMethod bz w = (Err e, w)) /\ is_ok (grpc_call cc FullMethod bz w).1 = false).
Proof using All.
  split_and!; [intros; by apply stub_served|..].
  - intros m in_ a w' Hin H62 Hp Hr E. pose proof (stub_success cc m in_ w a w' E) as Hrc.
    destruct (serve srv m in_ w) as [r w1] eqn:Em. rewrite (stub_served cc m in_ w r w1 Hrc Hin H62 Em Hp Hr) in E.
    destruct r; cbn in E; by simplify_eq.
  - intros FullMethod bz Hno. assert (reaches cc w -> exists e, grpc_call cc FullMethod bz w = (Err e, w)) as Herr.
    { intros Hrc. apply (call_unregistered _ _ _ _ _ node); [done|]. intros d Hd ->. destruct (service_paths srv d Hd) as [m Hm]. by apply (Hno m). }
    split; [exact Herr|]. destruct (grpc_call cc FullMethod bz w) as [[a|e|e] w1] eqn:E; [|done..].
    destruct Herr as [e He]; [by eapply call_success|]. simplify_eq.
Qed.
End Served.

(** C25: The requests and answers of every query are decoded to themselves, and
    their sizes are exact. *)
Theorem query_messages_roundtrip (m : method) (in_ : request m) (out : response m) :
  (codec_ok in_ -> Z.of_nat (length (codec_Marshal in_)) < 2 ^ 62 ->
   codec_Unmarshal codec_empty (codec_Marshal in_) = Ok in_ /\ Z.of_nat (length (codec_Marshal in_)) = codec_Size in_) /\
  (codec_ok out -> Z.of_nat (length (codec_Marshal out)) < 2 ^ 62 ->
   codec_Unmarshal codec_empty (codec_Marshal out) = Ok out /\ Z.of_nat (length (codec_Marshal out)) = codec_Size out).
Proof. split; apply codec_roundtrip. Qed.

(** A node with one pool that implements a single query. *)
Definition toy_page : QueryLiquidityPoolsRequest := MkQueryLiquidityPoolsRequest (Some (MkPageRequest [] 0 100 true)).
Definition toy_pools : QueryLiquidityPoolsResponse :=
  MkQueryLiquidityPoolsResponse [MkPool 1 1 ["abc"; "bcd"] "gx1pool" "poolabc"] (Some (MkPageResponse [] 1)).
Definition toy_server : QueryServer nat :=
  match UnimplementedQueryServer nat with
  | MkQueryServer _ _ b c d e f g h i j k l m n o p q r =>
      MkQueryServer _ (fun req w =>
          match QueryLiquidityPoolsRequest_Pagination req with
          | Some p => if PageRequest_Limit p =? 100 then (Ok toy_pools, S w) else (Err "unexpected", w)
          | None => (Err "unexpected", w)
          end)
        b c d e f g h i j k l m n o p q r
  end.
(** A network that loses the calls of the worlds from [10] on. *)
Definition toy_reaches (cc : unit) (w : nat) : Prop := (w < 10)%nat.
Definition toy_status (e : string) : string := "rpc error: code = Unknown desc = " +:+ e.
Definition toy_net (cc : unit) (FullMethod : string) (bz : bytes) : ST nat bytes := fun w =>
  if bool_decide (w < 10)%nat then
    match find (fun d => bool_decide (FullMethod = desc_path service d)) (_Query_serviceDesc toy_server) with
    | Some d => let '(r, w') := Handler d (fun A _ m => codec_Unmarshal m bz) None w in (seen toy_status r, w')
    | None => (Err "rpc error: code = Unimplemented", w)
    end
  else (Err "rpc error: code = Unavailable", w).
Lemma toy_connected : connected toy_net toy_reaches toy_status service (_Query_serviceDesc toy_server).
Proof.
  split.
  - intros cc d bz w r w' Hw Hd E _. unfold toy_net. rewrite bool_decide_true by exact Hw.
    assert (find (fun d' => bool_decide (desc_path service d = desc_path service d')) (_Query_serviceDesc toy_server) = Some d) as ->.
    { clear E. cbn [_Query_serviceDesc In] in Hd. repeat (destruct Hd as [Hd|Hd]; [subst d; reflexivity|]). destruct Hd. }
    by rewrite E.
  - intros cc FullMethod bz w Hw Hno. unfold toy_net. rewrite bool_decide_true by exact Hw.
    destruct (find _ _) as [d|] eqn:E; [|by eexists]. apply List.find_some in E as [Hin Hb%bool_decide_eq_true]. by destruct (Hno d Hin).
  - intros cc FullMethod bz w a w' E. unfold toy_net in E. by case_bool_decide.
Qed.
Lemma queries_served_witness :
  queryClient_LiquidityPools toy_net tt toy_page 7%nat = (Ok toy_pools, 8%nat) /\
  queryClient_Params toy_net tt MkQueryParamsRequest 7%nat = (Err (toy_status "method Params not implemented"), 7%nat) /\
  is_ok (queryClient_Params toy_net tt MkQueryParamsRequest 12%nat).1 = false.
Proof.
  pose proof (queries_served toy_net toy_reaches toy_status toy_server toy_connected tt) as Hq.
  assert (7 < 10)%nat as H7 by lia.
  split; [|split].
  - apply (proj1 (Hq 7%nat) M_LiquidityPools toy_page (Ok toy_pools)); [exact H7|done|done|done|done|]. intros a [= <-]. split; [|done]. by repeat constructor.
  - by apply (proj1 (Hq 7%nat) M_Params MkQueryParamsRequest (Err "method Params not implemented")).
  - reflexivity.
Defined.

Lemma query_messages_roundtrip_witness :
  QueryLiquidityPoolsRequest_Unmarshal empty_QueryLiquidityPoolsRequest (QueryLiquidityPoolsRequest_Marshal toy_page) = Ok toy_page /\
  QueryLiquidityPoolsResponse_Unmarshal empty_QueryLiquidityPoolsResponse (QueryLiquidityPoolsResponse_Marshal toy_pools) = Ok toy_pools.
Proof.
  destruct (query_messages_roundtrip M_LiquidityPools toy_page toy_pools) as [Hq Ha]. split.
  - by apply Hq.
  - apply Ha; [|done]. by repeat constructor.
Defined.
