(* ===== verification/SwapPrices.v ===== *)
(** The arithmetic of the coinswap module: [getInputPrice], [getOutputPrice] and
    the names of liquidity tokens ([modules/coinswap/coinswap.go]), and the fee
    of a swap ([types/utils.go], defined in [CoinType.v]). *)
From S2P Require Import Prelude GoStrings BigText SdkInt SdkDec CoinSet CoinText Coins CoinType.

(** * Denominations of liquidity tokens *)
Definition GetLiquidityDenomFrom (denom : string) : res string :=
  if bool_decide (denom = BaseDenom) then Err "should not be base denom : %s" else Ok ("swap" +:+ denom).
Definition GetTokenDenomFrom (liquidityDenom : string) : res string :=
  match strip_prefix "swap" liquidityDenom with None => Err "wrong liquidity denom : %s" | Some r => Ok r end.

(** * Prices *)
Definition getInputPrice (inputAmt inputReserve outputReserve : Int) (fee : Dec) : res Int :=
  deltaFee ← Dec_Sub OneDec fee;
  d ← NewIntFromBigInt (Dec_BigInt deltaFee);
  inputAmtWithFee ← Int_Mul inputAmt d;
  numerator ← Int_Mul inputAmtWithFee outputReserve;
  one ← NewIntWithDecimal 1 Precision;
  scaled ← Int_Mul inputReserve one;
  denominator ← Int_Add scaled inputAmtWithFee;
  Int_Quo numerator denominator.
Definition getOutputPrice (outputAmt inputReserve outputReserve : Int) (fee : Dec) : res Int :=
  deltaFee ← Dec_Sub OneDec fee;
  product ← Int_Mul inputReserve outputAmt;
  one ← NewIntWithDecimal 1 Precision;
  numerator ← Int_Mul product one;
  rest ← Int_Sub outputReserve outputAmt;
  d ← NewIntFromBigInt (Dec_BigInt deltaFee);
  denominator ← Int_Mul rest d;
  q ← Int_Quo numerator denominator;
  Int_Add q OneInt.

(* ------------------------------------------------------------------ *)
(** * Evaluation *)

(** The factor [1 - fee], scaled by [10^18]. *)
Definition kept (f : Z) : Z := precisionReuse - f.

Lemma NewInt_ok z : int_range z -> NewIntFromBigInt (Some z) = Ok (IntV z).
Proof. intros Hz. unfold NewIntFromBigInt. cbn. by rewrite overflow_if, bool_decide_true. Qed.
Lemma delta_fee f : 0 <= f <= precisionReuse ->
  Dec_Sub OneDec (DecV f) = Ok (DecV (kept f)) /\ NewIntFromBigInt (Dec_BigInt (DecV (kept f))) = Ok (IntV (kept f)) /\ int_range (kept f).
Proof.
  rewrite precisionReuse_val. intros Hf. assert (int_range (kept f)) as Hr.
  { unfold int_range, kept. rewrite precisionReuse_val. apply (Z.le_lt_trans _ (2 ^ 64)); [|done]. change (2 ^ 64) with 18446744073709551616. lia. }
  split_and!; [|by apply NewInt_ok|done]. unfold Dec_Sub, OneDec. cbn [Dec_i deref mbind res_bind].
  apply (Dec_checked_range (kept f)). unfold int_range, dec_range in *. eapply Z.lt_trans; [exact Hr|]. by apply Z.pow_lt_mono_r.
Qed.
Lemma ten18 : NewIntWithDecimal 1 Precision = Ok (IntV precisionReuse).
Proof. reflexivity. Qed.
Lemma ten18_range : int_range precisionReuse.
Proof. by vm_compute. Qed.

(** A product or a sum of non-negative numbers bounds its parts. *)
Lemma range_mul_l a b : 0 <= a -> 0 < b -> int_range (a * b) -> int_range a.
Proof. unfold int_range. intros. rewrite Z.abs_mul in *. nia. Qed.
Lemma range_le a b : 0 <= a <= b -> int_range b -> int_range a.
Proof. unfold int_range. lia. Qed.

Lemma Int_Mul_ok a b : int_range a -> int_range b -> int_range (a * b) -> Int_Mul (IntV a) (IntV b) = Ok (IntV (a * b)).
Proof. intros. by rewrite Int_Mul_exact, bool_decide_true. Qed.
Lemma Int_Add_ok a b : int_range (a + b) -> Int_Add (IntV a) (IntV b) = Ok (IntV (a + b)).
Proof. intros. unfold Int_Add. cbn. by rewrite overflow_if, bool_decide_true. Qed.
Lemma Int_Sub_ok a b : int_range (a - b) -> Int_Sub (IntV a) (IntV b) = Ok (IntV (a - b)).
Proof. intros. unfold Int_Sub. cbn. by rewrite overflow_if, bool_decide_true. Qed.
Lemma Int_Quo_ok a b : 0 <= a -> 0 < b -> Int_Quo (IntV a) (IntV b) = Ok (IntV (a / b)).
Proof.
  intros Ha Hb. unfold Int_Quo, int_div, big_Quo, Sign. cbn [Int_i deref mbind res_bind].
  rewrite !(proj2 (Z.eqb_neq _ _)) by lia. cbn. by rewrite Z.quot_div_nonneg by lia.
Qed.

(** [getInputPrice] with every intermediate result: all of them must be in
    range, and otherwise it panics. *)
Lemma getInputPrice_eq a x y f :
  int_range a -> int_range x -> int_range y -> 0 <= a -> 0 <= x -> 0 <= y -> 0 <= f <= precisionReuse ->
  0 < x * precisionReuse + a * kept f ->
  getInputPrice (IntV a) (IntV x) (IntV y) (DecV f) =
  if bool_decide (int_range (a * kept f * y) /\ int_range (x * precisionReuse + a * kept f))
  then Ok (IntV (a * kept f * y / (x * precisionReuse + a * kept f))) else Panic "Int overflow".
Proof.
  intros Ra Rx Ry Ha Hx Hy Hf Hd. destruct (delta_fee f Hf) as (E1 & E2 & Rk). unfold getInputPrice.
  rewrite E1. cbn [mbind res_bind]. rewrite E2. cbn [mbind res_bind].
  assert (0 <= kept f) as Hk by (unfold kept; lia). assert (0 < precisionReuse) as Hp by (by rewrite precisionReuse_val).
  rewrite Int_Mul_exact by done. case_bool_decide as R1; cbn [mbind res_bind].
  2:{ rewrite bool_decide_false; [done|]. intros [_ R]. apply R1. eapply range_le; [|exact R]. nia. }
  rewrite Int_Mul_exact by done. case_bool_decide as R2; cbn [mbind res_bind].
  2:{ rewrite bool_decide_false; [done|]. by intros [? _]. }
  rewrite ten18. cbn [mbind res_bind]. rewrite Int_Mul_exact by (done || apply ten18_range).
  case_bool_decide as R3; cbn [mbind res_bind].
  2:{ rewrite bool_decide_false; [done|]. intros [_ R]. apply R3. eapply range_le; [|exact R]. nia. }
  unfold Int_Add. cbn [Int_i int_add deref mbind res_bind]. rewrite overflow_if. case_bool_decide as R4; cbn [mbind res_bind].
  - rewrite bool_decide_true by done. apply Int_Quo_ok; [nia|done].
  - rewrite bool_decide_false; [done|]. by intros [_ ?].
Qed.

(** The same for [getOutputPrice]. *)
Lemma getOutputPrice_eq o x y f :
  int_range o -> int_range x -> int_range y -> 0 <= o < y -> 0 <= x -> 0 <= f < precisionReuse ->
  getOutputPrice (IntV o) (IntV x) (IntV y) (DecV f) =
  if bool_decide (int_range (x * o * precisionReuse) /\ int_range ((y - o) * kept f) /\
                  int_range (x * o * precisionReuse / ((y - o) * kept f) + 1))
  then Ok (IntV (x * o * precisionReuse / ((y - o) * kept f) + 1)) else Panic "Int overflow".
Proof.
  intros Ro Rx Ry Ho Hx Hf. destruct (delta_fee f) as (E1 & E2 & Rk); [lia|]. unfold getOutputPrice.
  rewrite E1. cbn [mbind res_bind]. assert (0 < kept f) as Hk by (unfold kept; lia).
  assert (0 < precisionReuse) as Hp by (by rewrite precisionReuse_val).
  rewrite Int_Mul_exact by done. case_bool_decide as R1; cbn [mbind res_bind].
  2:{ rewrite bool_decide_false; [done|]. intros (R & _). apply R1. eapply range_le; [|exact R]. nia. }
  rewrite ten18. cbn [mbind res_bind]. rewrite Int_Mul_exact by (done || apply ten18_range).
  case_bool_decide as R2; cbn [mbind res_bind]; [|rewrite bool_decide_false; [done|by intros (? & _)]].
  assert (int_range (y - o)) as R3 by (eapply range_le; [|exact Ry]; lia).
  rewrite Int_Sub_ok by done. cbn [mbind res_bind]. rewrite E2. cbn [mbind res_bind].
  rewrite Int_Mul_exact by done. case_bool_decide as R4; cbn [mbind res_bind]; [|rewrite bool_decide_false; [done|by intros (_ & ? & _)]].
  rewrite Int_Quo_ok by nia. cbn [mbind res_bind]. unfold Int_Add, OneInt. cbn [Int_i int_add deref mbind res_bind].
  rewrite overflow_if. case_bool_decide as R5; [rewrite bool_decide_true by done|rewrite bool_decide_false; [|intros (_ & _ & ?)]]; done.
Qed.

Lemma strip_prefix_app p s : strip_prefix p (p +:+ s) = Some s.
Proof. induction p as [|c p IH]; [done|]. change (strip_prefix (String c p) (String c (p +:+ s)) = Some s). cbn [strip_prefix]. destruct (decide (c = c)); [exact IH|done]. Qed.
Lemma strip_prefix_Some p s r : strip_prefix p s = Some r -> s = p +:+ r.
Proof.
  revert s. induction p as [|c p IH]; intros s; [by intros [= ->]|]. destruct s as [|d s]; [done|]. cbn [strip_prefix].
  destruct (decide (c = d)) as [->|]; [|done]. intros E. change (String d p +:+ r) with (String d (p +:+ r)). f_equal. by apply IH.
Qed.

Lemma Int_Mul_inv a b r : Int_Mul (IntV a) (IntV b) = Ok r -> r = IntV (a * b).
Proof.
  unfold Int_Mul. cbn. destruct (maxBitLen <? BitLen a + BitLen b - 1); [done|]. cbn.
  destruct (maxBitLen <? BitLen (a * b)); [done|]. by intros [= <-].
Qed.

(** ** Facts about the quotients *)
Lemma quot_neg_le n d : 0 <= n -> d < 0 -> Z.quot n d <= 0.
Proof. intros. rewrite <-(Z.opp_involutive d), Z.quot_opp_r by lia. pose proof (Z.quot_pos n (- d)). lia. Qed.
Lemma input_quotient_bounds a x y d p : 0 < p -> 0 <= a -> 0 <= d -> d <= p -> 0 < x -> 0 <= y ->
  let out := a * d * y / (x * p + a * d) in
  0 <= out <= y /\ (0 < y -> out < y) /\ x * y <= (x + a) * (y - out) /\
  (forall out', 0 <= out' -> x * p * y <= (x * p + a * d) * (y - out') <-> out' <= out).
Proof.
  intros Hp Ha Hd Hdp Hx Hy out. assert (0 < x * p + a * d) as Hden by nia.
  pose proof (Z.mul_div_le (a * d * y) (x * p + a * d) Hden) as Hle.
  pose proof (Z.mul_succ_div_gt (a * d * y) (x * p + a * d) Hden) as Hgt.
  fold out in Hle, Hgt. assert (0 <= out) as H0 by (apply Z.div_pos; nia).
  assert (out <= y) as H1 by (apply Z.div_le_upper_bound; nia).
  split_and!; [done|done|intros; apply Z.div_lt_upper_bound; nia| |].
  - assert (p * (x * y) <= p * ((x + a) * (y - out))); [|nia].
    assert (a * d * (y - out) <= a * p * (y - out)) by (apply Z.mul_le_mono_nonneg_r; nia). nia.
  - intros out' Hout. split; [|nia]. intros Hp'. destruct (Z.le_gt_cases out' out) as [?|Hlt]; [done|]. nia.
Qed.

Lemma output_quotient_covers o x y d p : 0 < p -> 0 < d -> 0 < x -> 0 <= o < y ->
  let paid := x * o * p / ((y - o) * d) + 1 in
  o <= paid * d * y / (x * p + paid * d) /\
  (forall less, 0 <= less -> less + 1 < paid -> less * d * y / (x * p + less * d) < o).
Proof.
  intros Hp Hd Hx Ho paid. assert (0 < (y - o) * d) as Hden by nia.
  pose proof (Z.mul_div_le (x * o * p) ((y - o) * d) Hden) as Hle.
  pose proof (Z.mul_succ_div_gt (x * o * p) ((y - o) * d) Hden) as Hgt.
  assert (0 <= x * o * p / ((y - o) * d)) by (apply Z.div_pos; nia).
  split.
  - apply Z.div_le_lower_bound; unfold paid; nia.
  - intros less H0 H1. apply Z.div_lt_upper_bound; [nia|]. unfold paid in H1.
    assert ((y - o) * d * (less + 1) <= (y - o) * d * (x * o * p / ((y - o) * d))) by (apply Z.mul_le_mono_nonneg_l; lia). nia.
Qed.

(* ------------------------------------------------------------------ *)
(** * Properties *)

(** C26: The price of a sale is that of a constant-product pool: with
    reserves [x] and [y] and the fee [f] (of [10^18]), selling [a] gives the largest
    amount for which the product of the reserves, with the fee taken off what is
    paid in, does not shrink.  It never exceeds the reserve, never takes all
    of it, and the product of the whole reserves does not shrink either.  The only
    failure is a product beyond 255 bits, which panics. *)
Theorem getInputPrice_product a x y f :
  int_range a -> int_range x -> int_range y -> 0 <= a -> 0 < x -> 0 <= y -> 0 <= f <= precisionReuse ->
  if bool_decide (int_range (a * kept f * y) /\ int_range (x * precisionReuse + a * kept f))
  then exists out, getInputPrice (IntV a) (IntV x) (IntV y) (DecV f) = Ok (IntV out) /\
    0 <= out <= y /\ (0 < y -> out < y) /\ x * y <= (x + a) * (y - out) /\
    (forall out', 0 <= out' -> x * precisionReuse * y <= (x * precisionReuse + a * kept f) * (y - out') <-> out' <= out)
  else getInputPrice (IntV a) (IntV x) (IntV y) (DecV f) = Panic "Int overflow".
Proof.
  intros Ra Rx Ry Ha Hx Hy Hf. assert (0 < precisionReuse) as Hp by (by rewrite precisionReuse_val).
  assert (0 <= kept f <= precisionReuse) as Hk by (unfold kept; lia). assert (0 < x * precisionReuse + a * kept f) as Hd by nia.
  rewrite (getInputPrice_eq a x y f Ra Rx Ry Ha (Z.lt_le_incl _ _ Hx) Hy Hf Hd). case_bool_decide; [|done].
  eexists. split; [done|]. apply (input_quotient_bounds a x y (kept f) precisionReuse); lia || done.
Qed.

(** The price of a purchase pays for it: whoever sells the amount that
    [getOutputPrice] asks for [o] receives at least [o] by [getInputPrice], and
    whoever sells two units less receives less than [o]. *)
Theorem getOutputPrice_covers o x y f paid out :
  int_range o -> int_range x -> int_range y -> 0 <= o < y -> 0 < x -> 0 <= f < precisionReuse ->
  getOutputPrice (IntV o) (IntV x) (IntV y) (DecV f) = Ok (IntV paid) ->
  (getInputPrice (IntV paid) (IntV x) (IntV y) (DecV f) = Ok (IntV out) -> o <= out) /\
  (forall less out', 0 <= less -> less + 1 < paid ->
     getInputPrice (IntV less) (IntV x) (IntV y) (DecV f) = Ok (IntV out') -> out' < o).
Proof.
  intros Ro Rx Ry Ho Hx Hf. assert (0 < precisionReuse) as Hp by (by rewrite precisionReuse_val).
  assert (0 < kept f) as Hk by (unfold kept; lia).
  rewrite getOutputPrice_eq by (done || lia). case_bool_decide as R; [|done]. intros [= <-]. destruct R as (_ & _ & Rp).
  assert (0 <= x * o * precisionReuse / ((y - o) * kept f)) as Hq by (apply Z.div_pos; nia).
  destruct (output_quotient_covers o x y (kept f) precisionReuse) as [H1 H2]; [lia..|]. split.
  - rewrite getInputPrice_eq by (done || nia). case_bool_decide; [|done]. by intros [= <-].
  - intros less out' H0 Hl. rewrite getInputPrice_eq; [|by eapply range_le; [|exact Rp]; lia|done|done|lia..|apply Z.add_pos_nonneg; nia].
    case_bool_decide; [|done]. intros [= <-]. by apply H2.
Qed.

(** Beyond the reserve there is no price, but only a purchase of exactly the
    reserve is refused (by a division by zero); for more than the reserve the
    answer is at most one unit, whatever is bought. *)
Theorem getOutputPrice_beyond o x y f paid :
  int_range o -> int_range x -> int_range y -> 0 <= y <= o -> 0 <= x -> 0 <= f < precisionReuse ->
  getOutputPrice (IntV o) (IntV x) (IntV y) (DecV f) = Ok (IntV paid) -> y < o /\ paid <= 1.
Proof.
  intros Ro Rx Ry Ho Hx Hf E. destruct (delta_fee f) as (E1 & E2 & Rk); [lia|]. unfold getOutputPrice in E.
  rewrite E1 in E. cbn [mbind res_bind] in E. assert (0 < kept f) as Hk by (unfold kept; lia).
  apply bind_Ok in E as (p & ->%Int_Mul_inv & E). rewrite ten18 in E. cbn [mbind res_bind] in E.
  apply bind_Ok in E as (n & ->%Int_Mul_inv & E). apply bind_Ok in E as (r & Er & E).
  unfold Int_Sub in Er. cbn [Int_i int_sub deref mbind res_bind] in Er. rewrite overflow_if in Er. case_bool_decide; [|done].
  injection Er as <-. rewrite E2 in E. cbn [mbind res_bind] in E. apply bind_Ok in E as (d & ->%Int_Mul_inv & E).
  apply bind_Ok in E as (q & Eq & E). unfold Int_Quo, int_div, big_Quo, Sign in Eq. cbn [Int_i deref mbind res_bind] in Eq.
  destruct (Z.eqb_spec (Z.sgn ((y - o) * kept f)) 0) as [|Hne]; [done|].
  assert ((y - o) * kept f <> 0) as Hnz by (intros Hz; by rewrite Hz in Hne).
  rewrite (proj2 (Z.eqb_neq _ _) Hnz) in Eq. injection Eq as <-.
  unfold Int_Add, OneInt in E. cbn [Int_i int_add deref mbind res_bind] in E. rewrite overflow_if in E. case_bool_decide; [|done].
  injection E as <-. assert (0 < precisionReuse) as Hp by (by rewrite precisionReuse_val).
  assert (y < o) as Hlt by nia. split; [done|].
  assert (Z.quot (x * o * precisionReuse) ((y - o) * kept f) <= 0) as Hq; [|lia].
  apply quot_neg_le; [repeat apply Z.mul_nonneg_nonneg; lia|nia].
Qed.

(** The name of a liquidity token determines that of the token, and every name
    but the base token's has one. *)
Theorem LiquidityDenom_roundtrip denom l :
  (GetLiquidityDenomFrom denom = Ok l -> GetTokenDenomFrom l = Ok denom) /\
  (GetTokenDenomFrom l = Ok denom -> denom <> BaseDenom -> GetLiquidityDenomFrom denom = Ok l).
Proof.
  unfold GetLiquidityDenomFrom, GetTokenDenomFrom. split.
  - case_bool_decide; [done|]. intros [= <-]. by rewrite strip_prefix_app.
  - destruct (strip_prefix "swap" l) as [r|] eqn:E; [|done]. intros [= <-] Hne. apply strip_prefix_Some in E as ->.
    by rewrite bool_decide_false.
Qed.

(** The fee of a swap is half of the rate, of the whole amount, cut off below
    one unit.  The rate is halved first, so an odd last digit of the rate is lost: the fee is
    less than one unit and [a / (2 * 10^18)] below the exact one. *)
Theorem GetOfferCoinFee_spec denom a r :
  is_denom denom = true -> 0 <= a -> int_range a -> 0 <= r <= precisionReuse ->
  exists fee, GetOfferCoinFee (coinV denom a) (DecV r) = Ok (coinV denom fee) /\
    fee = a * (r / 2) / precisionReuse /\ 0 <= fee /\ 2 * fee <= a /\
    2 * precisionReuse * fee <= a * r < 2 * precisionReuse * (fee + 1) + a.
Proof.
  intros Hd Ha Ra Hr. rewrite precisionReuse_val in *. unfold GetOfferCoinFee.
  change (Int_ToDec (Amount (coinV denom a))) with (Ok (DecV (a * precisionReuse))). cbn [mbind res_bind].
  unfold Dec_QuoInt64, big_Quo. cbn [Dec_i deref mbind res_bind Z.eqb]. rewrite Z.quot_div_nonneg by lia.
  assert (0 <= a * (r / 2) < 2 ^ 255 * 2 ^ 59) as Hb.
  { unfold int_range in Ra. change (2 ^ maxBitLen) with (2 ^ 255) in Ra. assert (0 <= r / 2 < 2 ^ 59).
    { split; [apply Z.div_pos; lia|]. apply Z.div_lt_upper_bound; [lia|]. change (2 * 2 ^ 59) with 1152921504606846976. lia. }
    split; [nia|]. apply Z.mul_lt_mono_nonneg; lia. }
  unfold Dec_Mul. cbn [Dec_i deref mbind res_bind]. replace (a * precisionReuse * (r / 2)) with (a * (r / 2) * precisionReuse) by ring.
  rewrite chop_round_multiple, Dec_checked_range; cbn [mbind res_bind].
  2:{ unfold dec_range. rewrite Z.abs_eq by lia. eapply Z.lt_le_trans; [apply Hb|]. by vm_compute. }
  unfold Dec_TruncateInt, chopPrecisionAndTruncateNonMutative, chopPrecisionAndTruncate. cbn [Dec_i deref mbind res_bind].
  rewrite Z.quot_div_nonneg by (rewrite ?precisionReuse_val; lia). rewrite precisionReuse_val.
  set (P := 1000000000000000000) in *. pose proof (Z.mul_div_le (a * (r / 2)) P ltac:(done)) as H1.
  pose proof (Z.mul_succ_div_gt (a * (r / 2)) P ltac:(done)) as H2. pose proof (Z.mul_div_le r 2 ltac:(done)) as H3.
  pose proof (Z.mul_succ_div_gt r 2 ltac:(done)) as H4. assert (0 <= r / 2) as H5 by (apply Z.div_pos; lia).
  set (h := r / 2) in *. set (fee := a * h / P) in *. assert (0 <= fee) as H6 by (apply Z.div_pos; [nia|done]).
  assert (P * (2 * fee) <= P * a) as H7 by nia. assert (2 * fee <= a) as H8 by (unfold P in H7; lia).
  rewrite NewInt_ok by (eapply range_le; [|exact Ra]; lia). cbn [mbind res_bind].
  exists fee. split; [|split_and!; [done|done|done|nia|nia]].
  unfold NewCoin, validate, ValidateDenom, Int_IsNegative, Sign. cbn [Denom]. rewrite Hd. cbn [check Int_i deref mbind res_bind].
  rewrite (proj1 (proj2 (sgn_tests fee))), (proj2 (Z.ltb_ge fee 0)) by done. done.
Qed.

(* ------------------------------------------------------------------ *)
(** * Witnesses *)

Definition three_permille : Dec := DecV 3000000000000000.
Lemma getInputPrice_product_witness :
  getInputPrice (IntV 1000) (IntV 1000000) (IntV 2000000) three_permille = Ok (IntV 1992) /\
  1000000 * 2000000 <= (1000000 + 1000) * (2000000 - 1992).
Proof.
  pose proof (getInputPrice_product 1000 1000000 2000000 3000000000000000 ltac:(by vm_compute) ltac:(by vm_compute) ltac:(by vm_compute)
    ltac:(lia) ltac:(lia) ltac:(lia) ltac:(rewrite precisionReuse_val; lia)) as H.
  rewrite bool_decide_true in H by (split; by vm_compute). destruct H as (out & E & _ & _ & H & _).
  assert (out = 1992) as ->. { vm_compute in E. injection E as <-. reflexivity. }
  split; [exact E|exact H].
Defined.
Lemma three_permille_range : 0 <= 3000000000000000 < precisionReuse.
Proof. rewrite precisionReuse_val. lia. Qed.
Lemma getOutputPrice_covers_witness :
  getInputPrice (IntV 1005) (IntV 1000000) (IntV 2000000) three_permille = Ok (IntV 2001) /\ 2000 <= 2001.
Proof.
  assert (getInputPrice (IntV 1005) (IntV 1000000) (IntV 2000000) three_permille = Ok (IntV 2001)) as E by (vm_compute; reflexivity).
  split; [exact E|].
  refine (proj1 (getOutputPrice_covers 2000 1000000 2000000 3000000000000000 1005 2001 _ _ _ _ _ three_permille_range _) E);
    [by vm_compute..|lia|lia|vm_compute; reflexivity].
Defined.
Lemma getOutputPrice_beyond_witness :
  getOutputPrice (IntV 3000000) (IntV 1000000) (IntV 2000000) three_permille = Ok (IntV (-3009026)) /\ -3009026 <= 1.
Proof.
  assert (getOutputPrice (IntV 3000000) (IntV 1000000) (IntV 2000000) three_permille = Ok (IntV (-3009026))) as E by (vm_compute; reflexivity).
  split; [exact E|].
  refine (proj2 (getOutputPrice_beyond 3000000 1000000 2000000 3000000000000000 (-3009026) _ _ _ _ _ three_permille_range E));
    [by vm_compute..|lia|lia].
Defined.
Lemma LiquidityDenom_roundtrip_witness : GetLiquidityDenomFrom "abc" = Ok "swapabc" /\ GetTokenDenomFrom "swapabc" = Ok "abc".
Proof. split; [reflexivity|]. apply (LiquidityDenom_roundtrip "abc" "swapabc"). reflexivity. Defined.
Lemma GetOfferCoinFee_spec_witness :
  exists fee, GetOfferCoinFee (coinV "abc" 1000) three_permille = Ok (coinV "abc" fee) /\ fee = 1.
Proof.
  destruct (GetOfferCoinFee_spec "abc" 1000 3000000000000000) as (fee & E & H & _);
    [reflexivity|lia|by vm_compute|rewrite precisionReuse_val; lia|].
  exists fee. split; [exact E|]. rewrite H. vm_compute. reflexivity.
Defined.
