(* ===== verification/Nft.v ===== *)
(** The messages of the NFT module: [modules/nft/types.go] and their encodings
    ([modules/nft/tx.pb.go], [nft.pb.go]). *)
From S2P Require Import Prelude GoStrings BigText SdkInt SdkDec CoinSet CoinText Coins BitArray Wire Decoding Keys Multisig Address TxTypes TxProto Sigs TxBuilder Codec Messages.

Record NFT := MkNFT { NFT_ID : string; NFT_Name : string; NFT_URI : string; NFT_Data : string; NFT_Owner : string }.
Definition NFT_Marshal (m : NFT) : bytes :=
  let '(MkNFT id name uri data owner) := m in opt_bytes 10 (to_bytes id) (opt_bytes 18 (to_bytes name) (opt_bytes 26 (to_bytes
    uri) (opt_bytes 34 (to_bytes data) (opt_bytes 42 (to_bytes owner) [])))).
Definition NFT_Size (m : NFT) : Z :=
  let '(MkNFT id name uri data owner) := m in opt_bytes_size (to_bytes id) + opt_bytes_size (to_bytes name) + opt_bytes_size
    (to_bytes uri) + opt_bytes_size (to_bytes data) + opt_bytes_size (to_bytes owner).
Definition NFT_field (m : NFT) (num wt l : Z) (buf : bytes) :=
  let '(MkNFT id name uri data owner) := m in
  if num =? 1 then get_bytes (fun bs => MkNFT (bytes_str bs) name uri data owner) wt l buf
  else if num =? 2 then get_bytes (fun bs => MkNFT id (bytes_str bs) uri data owner) wt l buf
  else if num =? 3 then get_bytes (fun bs => MkNFT id name (bytes_str bs) data owner) wt l buf
  else if num =? 4 then get_bytes (fun bs => MkNFT id name uri (bytes_str bs) owner) wt l buf
  else if num =? 5 then get_bytes (fun bs => MkNFT id name uri data (bytes_str bs)) wt l buf
  else None.
Definition empty_NFT : NFT := MkNFT "" "" "" "" "".
Definition NFT_Unmarshal (m : NFT) (dAtA : bytes) : res NFT := unmarshal NFT_field keep m dAtA.
Definition NFT_ok (m : NFT) : Prop := let '(MkNFT id name uri data owner) := m in True.
#[export] Instance NFT_codec : Codec NFT := {|
  codec_empty := empty_NFT; codec_Marshal := NFT_Marshal; codec_Size := NFT_Size;
  codec_Unmarshal := NFT_Unmarshal; codec_ok := NFT_ok |}.
#[export] Instance NFT_laws : CodecLaws NFT.
Proof. codec_laws. Qed.

Record Class := MkClass {
  Class_ID : string; Class_Name : string; Class_Schema : string; Class_Symbol : string; Class_Owner : string;
    Class_MintRestricted : bool; Class_EditRestricted : bool }.
Definition Class_Marshal (m : Class) : bytes :=
  let '(MkClass id name schema symbol owner mr er) := m in opt_bytes 10 (to_bytes id) (opt_bytes 18 (to_bytes name) (opt_bytes
    26 (to_bytes schema) (opt_bytes 34 (to_bytes symbol) (opt_bytes 42 (to_bytes owner) (opt_varint 48 (bool_varint mr)
    (opt_varint 56 (bool_varint er) [])))))).
Definition Class_Size (m : Class) : Z :=
  let '(MkClass id name schema symbol owner mr er) := m in opt_bytes_size (to_bytes id) + opt_bytes_size (to_bytes name) +
    opt_bytes_size (to_bytes schema) + opt_bytes_size (to_bytes symbol) + opt_bytes_size (to_bytes owner) + bool_size mr +
    bool_size er.
Definition Class_field (m : Class) (num wt l : Z) (buf : bytes) :=
  let '(MkClass id name schema symbol owner mr er) := m in
  if num =? 1 then get_bytes (fun bs => MkClass (bytes_str bs) name schema symbol owner mr er) wt l buf
  else if num =? 2 then get_bytes (fun bs => MkClass id (bytes_str bs) schema symbol owner mr er) wt l buf
  else if num =? 3 then get_bytes (fun bs => MkClass id name (bytes_str bs) symbol owner mr er) wt l buf
  else if num =? 4 then get_bytes (fun bs => MkClass id name schema (bytes_str bs) owner mr er) wt l buf
  else if num =? 5 then get_bytes (fun bs => MkClass id name schema symbol (bytes_str bs) mr er) wt l buf
  else if num =? 6 then get_varint (fun v => MkClass id name schema symbol owner (to_bool v) er) wt buf
  else if num =? 7 then get_varint (fun v => MkClass id name schema symbol owner mr (to_bool v)) wt buf
  else None.
Definition empty_Class : Class := MkClass "" "" "" "" "" false false.
Definition Class_Unmarshal (m : Class) (dAtA : bytes) : res Class := unmarshal Class_field keep m dAtA.
Definition Class_ok (m : Class) : Prop := let '(MkClass id name schema symbol owner mr er) := m in True.
#[export] Instance Class_codec : Codec Class := {|
  codec_empty := empty_Class; codec_Marshal := Class_Marshal; codec_Size := Class_Size;
  codec_Unmarshal := Class_Unmarshal; codec_ok := Class_ok |}.
#[export] Instance Class_laws : CodecLaws Class.
Proof. codec_laws. Qed.

Record Collection := MkCollection { Collection_Class : Class; Collection_NFTs : list NFT }.
Definition Collection_Marshal (m : Collection) : bytes :=
  let '(MkCollection class nft) := m in put_bytes 10 (Class_Marshal class) (rep_bytes 18 (map NFT_Marshal nft) []).
Definition Collection_Size (m : Collection) : Z :=
  let '(MkCollection class nft) := m in msg_size 1 (Class_Size class) + sum_sizes (map (fun x => msg_size 1 (NFT_Size x)) nft).
Definition Collection_field (m : Collection) (num wt l : Z) (buf : bytes) :=
  let '(MkCollection class nft) := m in
  if num =? 1 then get_msg (fun x => MkCollection x nft) (Class_Unmarshal class) wt l buf
  else if num =? 2 then get_msg (fun x => MkCollection class (nft ++ [x])) (NFT_Unmarshal empty_NFT) wt l buf
  else None.
Definition empty_Collection : Collection := MkCollection empty_Class [].
Definition Collection_Unmarshal (m : Collection) (dAtA : bytes) : res Collection := unmarshal Collection_field keep m dAtA.
Definition Collection_ok (m : Collection) : Prop := let '(MkCollection class nft) := m in Class_ok class /\ Forall NFT_ok nft.
#[export] Instance Collection_codec : Codec Collection := {|
  codec_empty := empty_Collection; codec_Marshal := Collection_Marshal; codec_Size := Collection_Size;
  codec_Unmarshal := Collection_Unmarshal; codec_ok := Collection_ok |}.
#[export] Instance Collection_laws : CodecLaws Collection.
Proof. codec_laws. Qed.

Record CollectionID := MkCollectionID { CollectionID_ClassID : string; CollectionID_NFTIDs : list string }.
Definition CollectionID_Marshal (m : CollectionID) : bytes :=
  let '(MkCollectionID cid nftid) := m in opt_bytes 10 (to_bytes cid) (rep_bytes 18 (map to_bytes nftid) []).
Definition CollectionID_Size (m : CollectionID) : Z :=
  let '(MkCollectionID cid nftid) := m in opt_bytes_size (to_bytes cid) + sum_sizes (map (fun s => bytes_size (to_bytes s))
    nftid).
Definition CollectionID_field (m : CollectionID) (num wt l : Z) (buf : bytes) :=
  let '(MkCollectionID cid nftid) := m in
  if num =? 1 then get_bytes (fun bs => MkCollectionID (bytes_str bs) nftid) wt l buf
  else if num =? 2 then get_bytes (fun bs => MkCollectionID cid (nftid ++ [bytes_str bs])) wt l buf
  else None.
Definition empty_CollectionID : CollectionID := MkCollectionID "" [].
Definition CollectionID_Unmarshal (m : CollectionID) (dAtA : bytes) : res CollectionID := unmarshal CollectionID_field keep m dAtA.
Definition CollectionID_ok (m : CollectionID) : Prop := let '(MkCollectionID cid nftid) := m in True.
#[export] Instance CollectionID_codec : Codec CollectionID := {|
  codec_empty := empty_CollectionID; codec_Marshal := CollectionID_Marshal; codec_Size := CollectionID_Size;
  codec_Unmarshal := CollectionID_Unmarshal; codec_ok := CollectionID_ok |}.
#[export] Instance CollectionID_laws : CodecLaws CollectionID.
Proof. codec_laws. Qed.

Record Owner := MkOwner { Owner_Address : string; Owner_CollectionIDs : list CollectionID }.
Definition Owner_Marshal (m : Owner) : bytes :=
  let '(MkOwner address cid) := m in opt_bytes 10 (to_bytes address) (rep_bytes 18 (map CollectionID_Marshal cid) []).
Definition Owner_Size (m : Owner) : Z :=
  let '(MkOwner address cid) := m in opt_bytes_size (to_bytes address) + sum_sizes (map (fun x => msg_size 1 (CollectionID_Size
    x)) cid).
Definition Owner_field (m : Owner) (num wt l : Z) (buf : bytes) :=
  let '(MkOwner address cid) := m in
  if num =? 1 then get_bytes (fun bs => MkOwner (bytes_str bs) cid) wt l buf
  else if num =? 2 then get_msg (fun x => MkOwner address (cid ++ [x])) (CollectionID_Unmarshal empty_CollectionID) wt l buf
  else None.
Definition empty_Owner : Owner := MkOwner "" [].
Definition Owner_Unmarshal (m : Owner) (dAtA : bytes) : res Owner := unmarshal Owner_field keep m dAtA.
Definition Owner_ok (m : Owner) : Prop := let '(MkOwner address cid) := m in Forall CollectionID_ok cid.
#[export] Instance Owner_codec : Codec Owner := {|
  codec_empty := empty_Owner; codec_Marshal := Owner_Marshal; codec_Size := Owner_Size;
  codec_Unmarshal := Owner_Unmarshal; codec_ok := Owner_ok |}.
#[export] Instance Owner_laws : CodecLaws Owner.
Proof. codec_laws. Qed.

Record MsgIssueClass := MkMsgIssueClass {
  MsgIssueClass_ID : string; MsgIssueClass_Name : string; MsgIssueClass_Schema : string; MsgIssueClass_Owner : string;
    MsgIssueClass_Symbol : string; MsgIssueClass_MintRestricted : bool; MsgIssueClass_EditRestricted : bool }.
Definition MsgIssueClass_Marshal (m : MsgIssueClass) : bytes :=
  let '(MkMsgIssueClass id name schema owner symbol mr er) := m in opt_bytes 10 (to_bytes id) (opt_bytes 18 (to_bytes name)
    (opt_bytes 26 (to_bytes schema) (opt_bytes 34 (to_bytes owner) (opt_bytes 42 (to_bytes symbol) (opt_varint 48 (bool_varint
    mr) (opt_varint 56 (bool_varint er) [])))))).
Definition MsgIssueClass_Size (m : MsgIssueClass) : Z :=
  let '(MkMsgIssueClass id name schema owner symbol mr er) := m in opt_bytes_size (to_bytes id) + opt_bytes_size (to_bytes
    name) + opt_bytes_size (to_bytes schema) + opt_bytes_size (to_bytes owner) + opt_bytes_size (to_bytes symbol) + bool_size
    mr + bool_size er.
Definition MsgIssueClass_field (m : MsgIssueClass) (num wt l : Z) (buf : bytes) :=
  let '(MkMsgIssueClass id name schema owner symbol mr er) := m in
  if num =? 1 then get_bytes (fun bs => MkMsgIssueClass (bytes_str bs) name schema owner symbol mr er) wt l buf
  else if num =? 2 then get_bytes (fun bs => MkMsgIssueClass id (bytes_str bs) schema owner symbol mr er) wt l buf
  else if num =? 3 then get_bytes (fun bs => MkMsgIssueClass id name (bytes_str bs) owner symbol mr er) wt l buf
  else if num =? 4 then get_bytes (fun bs => MkMsgIssueClass id name schema (bytes_str bs) symbol mr er) wt l buf
  else if num =? 5 then get_bytes (fun bs => MkMsgIssueClass id name schema owner (bytes_str bs) mr er) wt l buf
  else if num =? 6 then get_varint (fun v => MkMsgIssueClass id name schema owner symbol (to_bool v) er) wt buf
  else if num =? 7 then get_varint (fun v => MkMsgIssueClass id name schema owner symbol mr (to_bool v)) wt buf
  else None.
Definition empty_MsgIssueClass : MsgIssueClass := MkMsgIssueClass "" "" "" "" "" false false.
Definition MsgIssueClass_Unmarshal (m : MsgIssueClass) (dAtA : bytes) : res MsgIssueClass := unmarshal MsgIssueClass_field keep m dAtA.
Definition MsgIssueClass_ok (m : MsgIssueClass) : Prop := let '(MkMsgIssueClass id name schema owner symbol mr er) := m in True.
#[export] Instance MsgIssueClass_codec : Codec MsgIssueClass := {|
  codec_empty := empty_MsgIssueClass; codec_Marshal := MsgIssueClass_Marshal; codec_Size := MsgIssueClass_Size;
  codec_Unmarshal := MsgIssueClass_Unmarshal; codec_ok := MsgIssueClass_ok |}.
#[export] Instance MsgIssueClass_laws : CodecLaws MsgIssueClass.
Proof. codec_laws. Qed.

Record MsgIssueNFT := MkMsgIssueNFT {
  MsgIssueNFT_ID : string; MsgIssueNFT_ClassID : string; MsgIssueNFT_Name : string; MsgIssueNFT_URI : string; MsgIssueNFT_Data
    : string; MsgIssueNFT_Owner : string; MsgIssueNFT_Recipient : string }.
Definition MsgIssueNFT_Marshal (m : MsgIssueNFT) : bytes :=
  let '(MkMsgIssueNFT id cid name uri data owner recip) := m in opt_bytes 10 (to_bytes id) (opt_bytes 18 (to_bytes cid)
    (opt_bytes 26 (to_bytes name) (opt_bytes 34 (to_bytes uri) (opt_bytes 42 (to_bytes data) (opt_bytes 50 (to_bytes owner)
    (opt_bytes 58 (to_bytes recip) [])))))).
Definition MsgIssueNFT_Size (m : MsgIssueNFT) : Z :=
  let '(MkMsgIssueNFT id cid name uri data owner recip) := m in opt_bytes_size (to_bytes id) + opt_bytes_size (to_bytes cid) +
    opt_bytes_size (to_bytes name) + opt_bytes_size (to_bytes uri) + opt_bytes_size (to_bytes data) + opt_bytes_size (to_bytes
    owner) + opt_bytes_size (to_bytes recip).
Definition MsgIssueNFT_field (m : MsgIssueNFT) (num wt l : Z) (buf : bytes) :=
  let '(MkMsgIssueNFT id cid name uri data owner recip) := m in
  if num =? 1 then get_bytes (fun bs => MkMsgIssueNFT (bytes_str bs) cid name uri data owner recip) wt l buf
  else if num =? 2 then get_bytes (fun bs => MkMsgIssueNFT id (bytes_str bs) name uri data owner recip) wt l buf
  else if num =? 3 then get_bytes (fun bs => MkMsgIssueNFT id cid (bytes_str bs) uri data owner recip) wt l buf
  else if num =? 4 then get_bytes (fun bs => MkMsgIssueNFT id cid name (bytes_str bs) data owner recip) wt l buf
  else if num =? 5 then get_bytes (fun bs => MkMsgIssueNFT id cid name uri (bytes_str bs) owner recip) wt l buf
  else if num =? 6 then get_bytes (fun bs => MkMsgIssueNFT id cid name uri data (bytes_str bs) recip) wt l buf
  else if num =? 7 then get_bytes (fun bs => MkMsgIssueNFT id cid name uri data owner (bytes_str bs)) wt l buf
  else None.
Definition empty_MsgIssueNFT : MsgIssueNFT := MkMsgIssueNFT "" "" "" "" "" "" "".
Definition MsgIssueNFT_Unmarshal (m : MsgIssueNFT) (dAtA : bytes) : res MsgIssueNFT := unmarshal MsgIssueNFT_field keep m dAtA.
Definition MsgIssueNFT_ok (m : MsgIssueNFT) : Prop := let '(MkMsgIssueNFT id cid name uri data owner recip) := m in True.
#[export] Instance MsgIssueNFT_codec : Codec MsgIssueNFT := {|
  codec_empty := empty_MsgIssueNFT; codec_Marshal := MsgIssueNFT_Marshal; codec_Size := MsgIssueNFT_Size;
  codec_Unmarshal := MsgIssueNFT_Unmarshal; codec_ok := MsgIssueNFT_ok |}.
#[export] Instance MsgIssueNFT_laws : CodecLaws MsgIssueNFT.
Proof. codec_laws. Qed.

Record MsgEditNFT := MkMsgEditNFT {
  MsgEditNFT_ID : string; MsgEditNFT_ClassID : string; MsgEditNFT_Name : string; MsgEditNFT_URI : string; MsgEditNFT_Data :
    string; MsgEditNFT_Owner : string }.
Definition MsgEditNFT_Marshal (m : MsgEditNFT) : bytes :=
  let '(MkMsgEditNFT id cid name uri data owner) := m in opt_bytes 10 (to_bytes id) (opt_bytes 18 (to_bytes cid) (opt_bytes 26
    (to_bytes name) (opt_bytes 34 (to_bytes uri) (opt_bytes 42 (to_bytes data) (opt_bytes 50 (to_bytes owner) []))))).
Definition MsgEditNFT_Size (m : MsgEditNFT) : Z :=
  let '(MkMsgEditNFT id cid name uri data owner) := m in opt_bytes_size (to_bytes id) + opt_bytes_size (to_bytes cid) +
    opt_bytes_size (to_bytes name) + opt_bytes_size (to_bytes uri) + opt_bytes_size (to_bytes data) + opt_bytes_size (to_bytes
    owner).
Definition MsgEditNFT_field (m : MsgEditNFT) (num wt l : Z) (buf : bytes) :=
  let '(MkMsgEditNFT id cid name uri data owner) := m in
  if num =? 1 then get_bytes (fun bs => MkMsgEditNFT (bytes_str bs) cid name uri data owner) wt l buf
  else if num =? 2 then get_bytes (fun bs => MkMsgEditNFT id (bytes_str bs) name uri data owner) wt l buf
  else if num =? 3 then get_bytes (fun bs => MkMsgEditNFT id cid (bytes_str bs) uri data owner) wt l buf
  else if num =? 4 then get_bytes (fun bs => MkMsgEditNFT id cid name (bytes_str bs) data owner) wt l buf
  else if num =? 5 then get_bytes (fun bs => MkMsgEditNFT id cid name uri (bytes_str bs) owner) wt l buf
  else if num =? 6 then get_bytes (fun bs => MkMsgEditNFT id cid name uri data (bytes_str bs)) wt l buf
  else None.
Definition empty_MsgEditNFT : MsgEditNFT := MkMsgEditNFT "" "" "" "" "" "".
Definition MsgEditNFT_Unmarshal (m : MsgEditNFT) (dAtA : bytes) : res MsgEditNFT := unmarshal MsgEditNFT_field keep m dAtA.
Definition MsgEditNFT_ok (m : MsgEditNFT) : Prop := let '(MkMsgEditNFT id cid name uri data owner) := m in True.
#[export] Instance MsgEditNFT_codec : Codec MsgEditNFT := {|
  codec_empty := empty_MsgEditNFT; codec_Marshal := MsgEditNFT_Marshal; codec_Size := MsgEditNFT_Size;
  codec_Unmarshal := MsgEditNFT_Unmarshal; codec_ok := MsgEditNFT_ok |}.
#[export] Instance MsgEditNFT_laws : CodecLaws MsgEditNFT.
Proof. codec_laws. Qed.

Record MsgBurnNFT := MkMsgBurnNFT { MsgBurnNFT_ID : string; MsgBurnNFT_ClassID : string; MsgBurnNFT_Owner : string }.
Definition MsgBurnNFT_Marshal (m : MsgBurnNFT) : bytes :=
  let '(MkMsgBurnNFT id cid owner) := m in opt_bytes 10 (to_bytes id) (opt_bytes 18 (to_bytes cid) (opt_bytes 26 (to_bytes
    owner) [])).
Definition MsgBurnNFT_Size (m : MsgBurnNFT) : Z :=
  let '(MkMsgBurnNFT id cid owner) := m in opt_bytes_size (to_bytes id) + opt_bytes_size (to_bytes cid) + opt_bytes_size
    (to_bytes owner).
Definition MsgBurnNFT_field (m : MsgBurnNFT) (num wt l : Z) (buf : bytes) :=
  let '(MkMsgBurnNFT id cid owner) := m in
  if num =? 1 then get_bytes (fun bs => MkMsgBurnNFT (bytes_str bs) cid owner) wt l buf
  else if num =? 2 then get_bytes (fun bs => MkMsgBurnNFT id (bytes_str bs) owner) wt l buf
  else if num =? 3 then get_bytes (fun bs => MkMsgBurnNFT id cid (bytes_str bs)) wt l buf
  else None.
Definition empty_MsgBurnNFT : MsgBurnNFT := MkMsgBurnNFT "" "" "".
Definition MsgBurnNFT_Unmarshal (m : MsgBurnNFT) (dAtA : bytes) : res MsgBurnNFT := unmarshal MsgBurnNFT_field keep m dAtA.
Definition MsgBurnNFT_ok (m : MsgBurnNFT) : Prop := let '(MkMsgBurnNFT id cid owner) := m in True.
#[export] Instance MsgBurnNFT_codec : Codec MsgBurnNFT := {|
  codec_empty := empty_MsgBurnNFT; codec_Marshal := MsgBurnNFT_Marshal; codec_Size := MsgBurnNFT_Size;
  codec_Unmarshal := MsgBurnNFT_Unmarshal; codec_ok := MsgBurnNFT_ok |}.
#[export] Instance MsgBurnNFT_laws : CodecLaws MsgBurnNFT.
Proof. codec_laws. Qed.

Record MsgTransferNFT := MkMsgTransferNFT {
  MsgTransferNFT_ID : string; MsgTransferNFT_ClassID : string; MsgTransferNFT_Recipient : string; MsgTransferNFT_Owner : string
    }.
Definition MsgTransferNFT_Marshal (m : MsgTransferNFT) : bytes :=
  let '(MkMsgTransferNFT id cid recip owner) := m in opt_bytes 10 (to_bytes id) (opt_bytes 18 (to_bytes cid) (opt_bytes 26
    (to_bytes recip) (opt_bytes 34 (to_bytes owner) []))).
Definition MsgTransferNFT_Size (m : MsgTransferNFT) : Z :=
  let '(MkMsgTransferNFT id cid recip owner) := m in opt_bytes_size (to_bytes id) + opt_bytes_size (to_bytes cid) +
    opt_bytes_size (to_bytes recip) + opt_bytes_size (to_bytes owner).
Definition MsgTransferNFT_field (m : MsgTransferNFT) (num wt l : Z) (buf : bytes) :=
  let '(MkMsgTransferNFT id cid recip owner) := m in
  if num =? 1 then get_bytes (fun bs => MkMsgTransferNFT (bytes_str bs) cid recip owner) wt l buf
  else if num =? 2 then get_bytes (fun bs => MkMsgTransferNFT id (bytes_str bs) recip owner) wt l buf
  else if num =? 3 then get_bytes (fun bs => MkMsgTransferNFT id cid (bytes_str bs) owner) wt l buf
  else if num =? 4 then get_bytes (fun bs => MkMsgTransferNFT id cid recip (bytes_str bs)) wt l buf
  else None.
Definition empty_MsgTransferNFT : MsgTransferNFT := MkMsgTransferNFT "" "" "" "".
Definition MsgTransferNFT_Unmarshal (m : MsgTransferNFT) (dAtA : bytes) : res MsgTransferNFT := unmarshal MsgTransferNFT_field keep m dAtA.
Definition MsgTransferNFT_ok (m : MsgTransferNFT) : Prop := let '(MkMsgTransferNFT id cid recip owner) := m in True.
#[export] Instance MsgTransferNFT_codec : Codec MsgTransferNFT := {|
  codec_empty := empty_MsgTransferNFT; codec_Marshal := MsgTransferNFT_Marshal; codec_Size := MsgTransferNFT_Size;
  codec_Unmarshal := MsgTransferNFT_Unmarshal; codec_ok := MsgTransferNFT_ok |}.
#[export] Instance MsgTransferNFT_laws : CodecLaws MsgTransferNFT.
Proof. codec_laws. Qed.

Record MsgTransferClass := MkMsgTransferClass {
  MsgTransferClass_ID : string; MsgTransferClass_Owner : string; MsgTransferClass_Recipient : string }.
Definition MsgTransferClass_Marshal (m : MsgTransferClass) : bytes :=
  let '(MkMsgTransferClass id owner recip) := m in opt_bytes 10 (to_bytes id) (opt_bytes 18 (to_bytes owner) (opt_bytes 26
    (to_bytes recip) [])).
Definition MsgTransferClass_Size (m : MsgTransferClass) : Z :=
  let '(MkMsgTransferClass id owner recip) := m in opt_bytes_size (to_bytes id) + opt_bytes_size (to_bytes owner) +
    opt_bytes_size (to_bytes recip).
Definition MsgTransferClass_field (m : MsgTransferClass) (num wt l : Z) (buf : bytes) :=
  let '(MkMsgTransferClass id owner recip) := m in
  if num =? 1 then get_bytes (fun bs => MkMsgTransferClass (bytes_str bs) owner recip) wt l buf
  else if num =? 2 then get_bytes (fun bs => MkMsgTransferClass id (bytes_str bs) recip) wt l buf
  else if num =? 3 then get_bytes (fun bs => MkMsgTransferClass id owner (bytes_str bs)) wt l buf
  else None.
Definition empty_MsgTransferClass : MsgTransferClass := MkMsgTransferClass "" "" "".
Definition MsgTransferClass_Unmarshal (m : MsgTransferClass) (dAtA : bytes) : res MsgTransferClass := unmarshal MsgTransferClass_field keep m dAtA.
Definition MsgTransferClass_ok (m : MsgTransferClass) : Prop := let '(MkMsgTransferClass id owner recip) := m in True.
#[export] Instance MsgTransferClass_codec : Codec MsgTransferClass := {|
  codec_empty := empty_MsgTransferClass; codec_Marshal := MsgTransferClass_Marshal; codec_Size := MsgTransferClass_Size;
  codec_Unmarshal := MsgTransferClass_Unmarshal; codec_ok := MsgTransferClass_ok |}.
#[export] Instance MsgTransferClass_laws : CodecLaws MsgTransferClass.
Proof. codec_laws. Qed.

(* ------------------------------------------------------------------ *)
(** * Identifiers *)

Definition MinClassLen : Z := 3.
Definition MaxClassLen : Z := 64.
Definition MaxNFTURILen : Z := 256.
Abbreviation len s := (Z.of_nat (String.length s)).

(** The regular expressions [^[a-z0-9]+$], [^[a-z].*], [^(ibc|plug).*] and
    [^(http://|https://).*]. *)
Definition RegexAlphaNumeric (s : string) : bool := negb (bool_decide (s = "")) && str_forall (fun c => is_lower c || is_digit c) s.
Definition RegexAlphaTop (s : string) : bool := match s with String c _ => is_lower c | "" => false end.
Definition regexpKeyword (s : string) : bool := String.prefix "ibc" s || String.prefix "plug" s.
Definition regexpURI (s : string) : bool := String.prefix "http://" s || String.prefix "https://" s.

Definition ValidateNFTID (nftID : string) : res unit :=
  if (len nftID <? MinClassLen) || (MaxClassLen <? len nftID) then Err "invalid nft ID" else
  if negb (RegexAlphaNumeric nftID) || negb (RegexAlphaTop nftID) then Err "invalid nft ID" else Ok tt.
Definition ValidateKeywords (classID : string) : res unit :=
  if regexpKeyword classID then Err "invalid denom" else Ok tt.
Definition ValidateClassID (classID : string) : res unit :=
  if (len classID <? MinClassLen) || (MaxClassLen <? len classID) then Err "invalid denom" else
  if negb (RegexAlphaNumeric classID) || negb (RegexAlphaTop classID) then Err "invalid denom" else ValidateKeywords classID.
Definition ValidateNFTURI (uri : string) : res unit :=
  if MaxNFTURILen <? len uri then Err "invalid nft uri" else
  if negb (regexpURI uri) then Err "invalid nft uri" else Ok tt.

(* ------------------------------------------------------------------ *)
(** * Operations *)
Section Operations.
Context `{B : Bech32Lib}.

(** The owner of a message. *)
Definition check_owner (owner : string) : res unit := check_named "missing sender address" owner.

Definition MsgIssueClass_ValidateBasic (m : MsgIssueClass) : res unit :=
  _ ← check_owner (MsgIssueClass_Owner m);
  if bool_decide (TrimSpace (MsgIssueClass_ID m) = "") then Err "missing id" else Ok tt.
Definition MsgTransferNFT_ValidateBasic (m : MsgTransferNFT) : res unit :=
  _ ← check_owner (MsgTransferNFT_Owner m);
  _ ← or_err (AccAddressFromBech32 (MsgTransferNFT_Recipient m)) "invalid recipient address (%s)";
  _ ← or_err (AccAddressFromBech32 (MsgTransferNFT_Owner m)) "invalid sender address (%s)";
  ValidateNFTID (MsgTransferNFT_ID m).
Definition MsgTransferClass_ValidateBasic (m : MsgTransferClass) : res unit :=
  _ ← check_owner (MsgTransferClass_Owner m);
  _ ← or_err (AccAddressFromBech32 (MsgTransferClass_Owner m)) "invalid sender address (%s)";
  ValidateNFTID (MsgTransferClass_ID m).
Definition MsgEditNFT_ValidateBasic (m : MsgEditNFT) : res unit :=
  _ ← check_owner (MsgEditNFT_Owner m);
  _ ← ValidateClassID (MsgEditNFT_ClassID m);
  _ ← ValidateNFTID (MsgEditNFT_ID m);
  ValidateNFTURI (MsgEditNFT_URI m).
Definition MsgIssueNFT_ValidateBasic (m : MsgIssueNFT) : res unit :=
  _ ← check_owner (MsgIssueNFT_Owner m);
  _ ← ValidateAccAddress (MsgIssueNFT_Recipient m);
  _ ← ValidateClassID (MsgIssueNFT_ClassID m);
  _ ← ValidateNFTID (MsgIssueNFT_ID m);
  ValidateNFTURI (MsgIssueNFT_URI m).
Definition MsgBurnNFT_ValidateBasic (m : MsgBurnNFT) : res unit :=
  _ ← check_owner (MsgBurnNFT_Owner m);
  _ ← ValidateClassID (MsgBurnNFT_ClassID m);
  ValidateNFTID (MsgBurnNFT_ID m).

Definition MsgIssueClass_GetSigners (m : MsgIssueClass) : res (list bytes) := owner_signs (MsgIssueClass_Owner m).
Definition MsgTransferNFT_GetSigners (m : MsgTransferNFT) : res (list bytes) := owner_signs (MsgTransferNFT_Owner m).
Definition MsgTransferClass_GetSigners (m : MsgTransferClass) : res (list bytes) := owner_signs (MsgTransferClass_Owner m).
Definition MsgEditNFT_GetSigners (m : MsgEditNFT) : res (list bytes) := owner_signs (MsgEditNFT_Owner m).
Definition MsgIssueNFT_GetSigners (m : MsgIssueNFT) : res (list bytes) := owner_signs (MsgIssueNFT_Owner m).
Definition MsgBurnNFT_GetSigners (m : MsgBurnNFT) : res (list bytes) := owner_signs (MsgBurnNFT_Owner m).
End Operations.

(** The module's messages as messages of a transaction. *)
Inductive NftMsg :=
  | IssueClassMsg (m : MsgIssueClass) | IssueNFTMsg (m : MsgIssueNFT) | EditNFTMsg (m : MsgEditNFT) | BurnNFTMsg (m : MsgBurnNFT)
  | TransferNFTMsg (m : MsgTransferNFT) | TransferClassMsg (m : MsgTransferClass).
Definition NftMsg_Marshal (m : NftMsg) : bytes :=
  match m with
  | IssueClassMsg m => codec_Marshal m | IssueNFTMsg m => codec_Marshal m | EditNFTMsg m => codec_Marshal m
  | BurnNFTMsg m => codec_Marshal m | TransferNFTMsg m => codec_Marshal m | TransferClassMsg m => codec_Marshal m
  end.
Definition NftMsg_Owner (m : NftMsg) : string :=
  match m with
  | IssueClassMsg m => MsgIssueClass_Owner m | IssueNFTMsg m => MsgIssueNFT_Owner m | EditNFTMsg m => MsgEditNFT_Owner m
  | BurnNFTMsg m => MsgBurnNFT_Owner m | TransferNFTMsg m => MsgTransferNFT_Owner m | TransferClassMsg m => MsgTransferClass_Owner m
  end.
Definition NftMsg_GetSigners `{Bech32Lib} (m : NftMsg) : res (list bytes) :=
  match m with
  | IssueClassMsg m => MsgIssueClass_GetSigners m | IssueNFTMsg m => MsgIssueNFT_GetSigners m | EditNFTMsg m => MsgEditNFT_GetSigners m
  | BurnNFTMsg m => MsgBurnNFT_GetSigners m | TransferNFTMsg m => MsgTransferNFT_GetSigners m
  | TransferClassMsg m => MsgTransferClass_GetSigners m
  end.
Definition NftMsg_ValidateBasic `{Bech32Lib} (m : NftMsg) : res unit :=
  match m with
  | IssueClassMsg m => MsgIssueClass_ValidateBasic m | IssueNFTMsg m => MsgIssueNFT_ValidateBasic m
  | EditNFTMsg m => MsgEditNFT_ValidateBasic m | BurnNFTMsg m => MsgBurnNFT_ValidateBasic m
  | TransferNFTMsg m => MsgTransferNFT_ValidateBasic m | TransferClassMsg m => MsgTransferClass_ValidateBasic m
  end.
#[export] Instance NftMsg_msg `{Bech32Lib} : MsgInterface NftMsg := {|
  msg_proto := {|
    MessageName m := "plugchain.nft." +:+
      match m with
      | IssueClassMsg _ => "MsgIssueClass" | IssueNFTMsg _ => "MsgIssueNFT" | EditNFTMsg _ => "MsgEditNFT" | BurnNFTMsg _ => "MsgBurnNFT"
      | TransferNFTMsg _ => "MsgTransferNFT" | TransferClassMsg _ => "MsgTransferClass"
      end;
    proto_Marshal m := Ok (NftMsg_Marshal m) |};
  msg_GetSigners := NftMsg_GetSigners;
|}.
(** Decoding [dAtA] into the empty message. *)
Definition NftMsg_decodes_to (m : NftMsg) (dAtA : bytes) : Prop :=
  match m with
  | IssueClassMsg m => MsgIssueClass_Unmarshal empty_MsgIssueClass dAtA = Ok m
  | IssueNFTMsg m => MsgIssueNFT_Unmarshal empty_MsgIssueNFT dAtA = Ok m
  | EditNFTMsg m => MsgEditNFT_Unmarshal empty_MsgEditNFT dAtA = Ok m
  | BurnNFTMsg m => MsgBurnNFT_Unmarshal empty_MsgBurnNFT dAtA = Ok m
  | TransferNFTMsg m => MsgTransferNFT_Unmarshal empty_MsgTransferNFT dAtA = Ok m
  | TransferClassMsg m => MsgTransferClass_Unmarshal empty_MsgTransferClass dAtA = Ok m
  end.
Lemma NftMsg_decodes m : Z.of_nat (length (NftMsg_Marshal m)) < 2 ^ 62 -> NftMsg_decodes_to m (NftMsg_Marshal m).
Proof. destruct m as [m|m|m|m|m|m]; intros H; refine (codec_decodes m _ H); by destruct m. Qed.

(* ------------------------------------------------------------------ *)
(** * Answers *)

Record IDC := MkIDC { idc_Denom : string; TokenIDs : list string }.
Record QueryOwnerResp := MkQueryOwnerResp { qo_Address : string; IDCs : list IDC }.
Record QueryNFTResp := MkQueryNFTResp { qn_ID : string; qn_Name : string; qn_URI : string; qn_Data : string; qn_Creator : string }.
Record QueryDenomResp := MkQueryDenomResp {
  qdn_ID : string; qdn_Name : string; qdn_Schema : string; qdn_Symbol : string; qdn_Owner : string; qdn_MintRestricted : bool;
  qdn_EditRestricted : bool }.
Record QueryCollectionResp := MkQueryCollectionResp { qc_Denom : QueryDenomResp; qc_NFTs : list QueryNFTResp }.

Definition Owner_Convert (o : Owner) : QueryOwnerResp :=
  MkQueryOwnerResp (Owner_Address o) (map (fun idc => MkIDC (CollectionID_ClassID idc) (CollectionID_NFTIDs idc)) (Owner_CollectionIDs o)).
(** The owner is handed on as the creator. *)
Definition NFT_Convert (n : NFT) : QueryNFTResp := MkQueryNFTResp (NFT_ID n) (NFT_Name n) (NFT_URI n) (NFT_Data n) (NFT_Owner n).
Definition Class_Convert (c : Class) : QueryDenomResp :=
  MkQueryDenomResp (Class_ID c) (Class_Name c) (Class_Schema c) (Class_Symbol c) (Class_Owner c) (Class_MintRestricted c)
    (Class_EditRestricted c).
Definition denoms_Convert (l : list Class) : list QueryDenomResp := map Class_Convert l.
Definition Collection_Convert (c : Collection) : QueryCollectionResp :=
  MkQueryCollectionResp (Class_Convert (Collection_Class c))
    (map (fun nft => MkQueryNFTResp (NFT_ID nft) (NFT_Name nft) (NFT_URI nft) (NFT_Data nft) (NFT_Owner nft)) (Collection_NFTs c)).

(* ------------------------------------------------------------------ *)
(** * Validation *)

(** Identifiers have 3 to 64 characters, lower case letters and digits, the
    first of which is a letter; those of classes do not begin with a keyword. *)
Definition nft_id (s : string) : Prop :=
  exists c t, s = String c t /\ is_lower c = true /\ str_forall (fun c => is_lower c || is_digit c) t = true /\ 2 <= len t <= 63.
Definition class_id (s : string) : Prop := nft_id s /\ forall t, s <> "ibc" +:+ t /\ s <> "plug" +:+ t.
Definition nft_uri (s : string) : Prop := len s <= 256 /\ exists t, s = "http://" +:+ t \/ s = "https://" +:+ t.

Lemma prefix_spec p s : String.prefix p s = true <-> exists t, s = p +:+ t.
Proof.
  revert s. induction p as [|c p IH]; intros s; [split; [by exists s|intros _; by destruct s]|]. destruct s as [|d s]; [naive_solver|]. cbn.
  destruct (Ascii.ascii_dec c d) as [->|Hc].
  - rewrite IH. split; intros [t E]; exists t; [by rewrite E|by injection E].
  - split; [done|]. intros [t E]. by injection E as -> _.
Qed.
Lemma id_test s : (len s <? MinClassLen) || (MaxClassLen <? len s) = false /\ negb (RegexAlphaNumeric s) || negb (RegexAlphaTop s) = false <->
  nft_id s.
Proof.
  unfold nft_id, RegexAlphaNumeric, RegexAlphaTop, MinClassLen, MaxClassLen.
  rewrite !orb_false_iff, !negb_false_iff, !Z.ltb_ge. destruct s as [|c t]; [naive_solver|].
  rewrite bool_decide_false by done. cbn [negb andb str_forall String.length]. rewrite andb_true_iff, orb_true_iff, Nat2Z.inj_succ.
  split.
  - intros ([H1 H2] & [Hc Ht] & Hl). exists c, t. split_and!; [done|done|exact Ht|lia|lia].
  - intros (c' & t' & [= <- <-] & Hc & Ht & Hl). rewrite Hc, Ht. split_and!; [lia|lia|by left|done|done].
Qed.
Lemma ValidateNFTID_spec s : ValidateNFTID s = Ok tt <-> nft_id s.
Proof. rewrite <-id_test. unfold ValidateNFTID. repeat case_match; naive_solver. Qed.
Lemma ValidateClassID_spec s : ValidateClassID s = Ok tt <-> class_id s.
Proof.
  unfold class_id. rewrite <-id_test. unfold ValidateClassID, ValidateKeywords, regexpKeyword.
  destruct (_ || _) eqn:E1; [naive_solver|]. destruct (_ || _) eqn:E2 in |- *; [naive_solver|].
  pose proof (prefix_spec "ibc" s) as Hi. pose proof (prefix_spec "plug" s) as Hp.
  destruct (String.prefix "ibc" s), (String.prefix "plug" s); cbn; naive_solver.
Qed.
Lemma ValidateNFTURI_spec s : ValidateNFTURI s = Ok tt <-> nft_uri s.
Proof.
  unfold nft_uri, ValidateNFTURI, regexpURI, MaxNFTURILen. pose proof (prefix_spec "http://" s) as H1.
  pose proof (prefix_spec "https://" s) as H2.
  destruct (Z.ltb_spec 256 (len s)); [split; [done|intros []; lia]|].
  destruct (String.prefix "http://" s), (String.prefix "https://" s); cbn; naive_solver.
Qed.

Section Validation.
Context `{Bech32Lib}.

(** What the messages require: an address as owner; identifiers of 3 to 64 lower
    case letters and digits that begin with a letter, those of classes not with
    a keyword; an HTTP address as URI.  A class that is issued only needs some
    identifier, a transferred NFT any class and a transferred class any
    recipient.  The owner signs. *)
Theorem NftMsg_validation (m : NftMsg) :
  (NftMsg_ValidateBasic m = Ok tt <-> address_ok (NftMsg_Owner m) /\
    match m with
    | IssueClassMsg m => TrimSpace (MsgIssueClass_ID m) <> ""
    | IssueNFTMsg m => address_ok (MsgIssueNFT_Recipient m) /\ class_id (MsgIssueNFT_ClassID m) /\ nft_id (MsgIssueNFT_ID m) /\
        nft_uri (MsgIssueNFT_URI m)
    | EditNFTMsg m => class_id (MsgEditNFT_ClassID m) /\ nft_id (MsgEditNFT_ID m) /\ nft_uri (MsgEditNFT_URI m)
    | BurnNFTMsg m => class_id (MsgBurnNFT_ClassID m) /\ nft_id (MsgBurnNFT_ID m)
    | TransferNFTMsg m => address_ok (MsgTransferNFT_Recipient m) /\ nft_id (MsgTransferNFT_ID m)
    | TransferClassMsg m => nft_id (MsgTransferClass_ID m)
    end) /\
  (NftMsg_ValidateBasic m = Ok tt ->
    exists a, AccAddressFromBech32 (NftMsg_Owner m) = Ok a /\ NftMsg_GetSigners m = Ok [a]).
Proof.
  assert (NftMsg_GetSigners m = owner_signs (NftMsg_Owner m)) as -> by (by destruct m).
  match goal with |- (?A <-> ?B) /\ _ => assert (A <-> B) as Hv end.
  { destruct m as [m|m|m|m|m|m]; cbn; unfold MsgIssueClass_ValidateBasic, MsgIssueNFT_ValidateBasic, MsgEditNFT_ValidateBasic,
      MsgBurnNFT_ValidateBasic, MsgTransferNFT_ValidateBasic, MsgTransferClass_ValidateBasic, check_owner;
    rewrite (checked _ _ _ (check_named_spec _ _)), ?(checked _ _ _ (ValidateAccAddress_spec _)), ?checked_address,
      ?(checked _ _ _ (ValidateClassID_spec _)), ?(checked _ _ _ (ValidateNFTID_spec _)), ?ValidateNFTID_spec, ?ValidateNFTURI_spec;
    [case_bool_decide; naive_solver|naive_solver..]. }
  split; [exact Hv|]. intros [[a Ha] _]%Hv. apply owner_signs_ok. by exists a.
Qed.
End Validation.

#[local] Existing Instance toy_bech32.
(** A class may be issued into which nothing can be minted. *)
Definition toy_class : MsgIssueClass := MkMsgIssueClass "Plug" "" "" some_address "" false false.
Lemma NftMsg_validation_witness :
  NftMsg_GetSigners (IssueClassMsg toy_class) = Ok [[18; 255]] /\
  NftMsg_ValidateBasic (BurnNFTMsg (MkMsgBurnNFT "abc" "Plug" some_address)) <> Ok tt.
Proof.
  split.
  - assert (NftMsg_ValidateBasic (IssueClassMsg toy_class) = Ok tt) as Hv by (vm_compute; reflexivity).
    destruct (proj2 (NftMsg_validation (IssueClassMsg toy_class)) Hv) as (a & Ha & Hs).
    rewrite Hs. vm_compute in Ha. injection Ha as <-. reflexivity.
  - intros (_ & ((c & t & E & Hc & _) & _) & _)%(proj1 (NftMsg_validation _)). injection E as <- _. discriminate Hc.
Defined.
