(* ===== verification/TokenMsgs.v ===== *)
(** The messages of the token module: [modules/token/types.go] and their
    encodings ([modules/token/tx.pb.go], [token.pb.go]). *)
From S2P Require Import Prelude GoStrings BigText SdkInt SdkDec CoinSet CoinText Coins CoinType BitArray Wire Decoding Keys Multisig Address TxTypes TxProto Sigs TxBuilder Codec Messages.

Record PbToken := MkPbToken {
  PbToken_Symbol : string; PbToken_Name : string; PbToken_Scale : Z; PbToken_MinUnit : string; PbToken_InitialSupply : Z;
    PbToken_MaxSupply : Z; PbToken_Mintable : bool; PbToken_Owner : string }.
Definition PbToken_Marshal (m : PbToken) : bytes :=
  let '(MkPbToken symbol name scale mu is_ ms mintable owner) := m in opt_bytes 10 (to_bytes symbol) (opt_bytes 18 (to_bytes
    name) (opt_varint 24 scale (opt_bytes 34 (to_bytes mu) (opt_varint 40 is_ (opt_varint 48 ms (opt_varint 56 (bool_varint
    mintable) (opt_bytes 66 (to_bytes owner) []))))))).
Definition PbToken_Size (m : PbToken) : Z :=
  let '(MkPbToken symbol name scale mu is_ ms mintable owner) := m in opt_bytes_size (to_bytes symbol) + opt_bytes_size
    (to_bytes name) + opt_varint_size scale + opt_bytes_size (to_bytes mu) + opt_varint_size is_ + opt_varint_size ms +
    bool_size mintable + opt_bytes_size (to_bytes owner).
Definition PbToken_field (m : PbToken) (num wt l : Z) (buf : bytes) :=
  let '(MkPbToken symbol name scale mu is_ ms mintable owner) := m in
  if num =? 1 then get_bytes (fun bs => MkPbToken (bytes_str bs) name scale mu is_ ms mintable owner) wt l buf
  else if num =? 2 then get_bytes (fun bs => MkPbToken symbol (bytes_str bs) scale mu is_ ms mintable owner) wt l buf
  else if num =? 3 then get_varint (fun v => MkPbToken symbol name (wrap_u32 v) mu is_ ms mintable owner) wt buf
  else if num =? 4 then get_bytes (fun bs => MkPbToken symbol name scale (bytes_str bs) is_ ms mintable owner) wt l buf
  else if num =? 5 then get_varint (fun v => MkPbToken symbol name scale mu v ms mintable owner) wt buf
  else if num =? 6 then get_varint (fun v => MkPbToken symbol name scale mu is_ v mintable owner) wt buf
  else if num =? 7 then get_varint (fun v => MkPbToken symbol name scale mu is_ ms (to_bool v) owner) wt buf
  else if num =? 8 then get_bytes (fun bs => MkPbToken symbol name scale mu is_ ms mintable (bytes_str bs)) wt l buf
  else None.
Definition empty_PbToken : PbToken := MkPbToken "" "" 0 "" 0 0 false "".
Definition PbToken_Unmarshal (m : PbToken) (dAtA : bytes) : res PbToken := unmarshal PbToken_field keep m dAtA.
Definition PbToken_ok (m : PbToken) : Prop :=
  let '(MkPbToken symbol name scale mu is_ ms mintable owner) := m in is_uint32 scale /\ is_uint64 is_ /\ is_uint64 ms.
#[export] Instance PbToken_codec : Codec PbToken := {|
  codec_empty := empty_PbToken; codec_Marshal := PbToken_Marshal; codec_Size := PbToken_Size;
  codec_Unmarshal := PbToken_Unmarshal; codec_ok := PbToken_ok |}.
#[export] Instance PbToken_laws : CodecLaws PbToken.
Proof. codec_laws. Qed.

Record TokenParams := MkTokenParams { TokenParams_IssueTokenBaseFee : Coin; TokenParams_OperateTokenFeeRatio : Dec }.
Definition TokenParams_Marshal (m : TokenParams) : bytes :=
  let '(MkTokenParams itbf otfr) := m in put_bytes 10 (Coin_Marshal itbf) (put_bytes 18 (Dec_Marshal otfr) []).
Definition TokenParams_Size (m : TokenParams) : Z :=
  let '(MkTokenParams itbf otfr) := m in msg_size 1 (Coin_Size itbf) + msg_size 1 (Dec_Size otfr).
Definition TokenParams_field (m : TokenParams) (num wt l : Z) (buf : bytes) :=
  let '(MkTokenParams itbf otfr) := m in
  if num =? 1 then get_msg (fun x => MkTokenParams x otfr) (Coin_Unmarshal itbf) wt l buf
  else if num =? 2 then get_msg (fun x => MkTokenParams itbf x) (Dec_Unmarshal otfr) wt l buf
  else None.
Definition empty_TokenParams : TokenParams := MkTokenParams empty_Coin (MkDec None).
Definition TokenParams_Unmarshal (m : TokenParams) (dAtA : bytes) : res TokenParams := unmarshal TokenParams_field keep m dAtA.
Definition TokenParams_ok (m : TokenParams) : Prop := let '(MkTokenParams itbf otfr) := m in coin_ok itbf /\ dec_ok otfr.
#[export] Instance TokenParams_codec : Codec TokenParams := {|
  codec_empty := empty_TokenParams; codec_Marshal := TokenParams_Marshal; codec_Size := TokenParams_Size;
  codec_Unmarshal := TokenParams_Unmarshal; codec_ok := TokenParams_ok |}.
#[export] Instance TokenParams_laws : CodecLaws TokenParams.
Proof. codec_laws. Qed.

Record MsgIssueToken := MkMsgIssueToken {
  MsgIssueToken_Symbol : string; MsgIssueToken_Name : string; MsgIssueToken_Scale : Z; MsgIssueToken_MinUnit : string;
    MsgIssueToken_InitialSupply : Z; MsgIssueToken_MaxSupply : Z; MsgIssueToken_Mintable : bool; MsgIssueToken_Owner : string
    }.
Definition MsgIssueToken_Marshal (m : MsgIssueToken) : bytes :=
  let '(MkMsgIssueToken symbol name scale mu is_ ms mintable owner) := m in opt_bytes 10 (to_bytes symbol) (opt_bytes 18
    (to_bytes name) (opt_varint 24 scale (opt_bytes 34 (to_bytes mu) (opt_varint 40 is_ (opt_varint 48 ms (opt_varint 56
    (bool_varint mintable) (opt_bytes 66 (to_bytes owner) []))))))).
Definition MsgIssueToken_Size (m : MsgIssueToken) : Z :=
  let '(MkMsgIssueToken symbol name scale mu is_ ms mintable owner) := m in opt_bytes_size (to_bytes symbol) + opt_bytes_size
    (to_bytes name) + opt_varint_size scale + opt_bytes_size (to_bytes mu) + opt_varint_size is_ + opt_varint_size ms +
    bool_size mintable + opt_bytes_size (to_bytes owner).
Definition MsgIssueToken_field (m : MsgIssueToken) (num wt l : Z) (buf : bytes) :=
  let '(MkMsgIssueToken symbol name scale mu is_ ms mintable owner) := m in
  if num =? 1 then get_bytes (fun bs => MkMsgIssueToken (bytes_str bs) name scale mu is_ ms mintable owner) wt l buf
  else if num =? 2 then get_bytes (fun bs => MkMsgIssueToken symbol (bytes_str bs) scale mu is_ ms mintable owner) wt l buf
  else if num =? 3 then get_varint (fun v => MkMsgIssueToken symbol name (wrap_u32 v) mu is_ ms mintable owner) wt buf
  else if num =? 4 then get_bytes (fun bs => MkMsgIssueToken symbol name scale (bytes_str bs) is_ ms mintable owner) wt l buf
  else if num =? 5 then get_varint (fun v => MkMsgIssueToken symbol name scale mu v ms mintable owner) wt buf
  else if num =? 6 then get_varint (fun v => MkMsgIssueToken symbol name scale mu is_ v mintable owner) wt buf
  else if num =? 7 then get_varint (fun v => MkMsgIssueToken symbol name scale mu is_ ms (to_bool v) owner) wt buf
  else if num =? 8 then get_bytes (fun bs => MkMsgIssueToken symbol name scale mu is_ ms mintable (bytes_str bs)) wt l buf
  else None.
Definition empty_MsgIssueToken : MsgIssueToken := MkMsgIssueToken "" "" 0 "" 0 0 false "".
Definition MsgIssueToken_Unmarshal (m : MsgIssueToken) (dAtA : bytes) : res MsgIssueToken := unmarshal MsgIssueToken_field keep m dAtA.
Definition MsgIssueToken_ok (m : MsgIssueToken) : Prop :=
  let '(MkMsgIssueToken symbol name scale mu is_ ms mintable owner) := m in is_uint32 scale /\ is_uint64 is_ /\ is_uint64 ms.
#[export] Instance MsgIssueToken_codec : Codec MsgIssueToken := {|
  codec_empty := empty_MsgIssueToken; codec_Marshal := MsgIssueToken_Marshal; codec_Size := MsgIssueToken_Size;
  codec_Unmarshal := MsgIssueToken_Unmarshal; codec_ok := MsgIssueToken_ok |}.
#[export] Instance MsgIssueToken_laws : CodecLaws MsgIssueToken.
Proof. codec_laws. Qed.

Record MsgTransferOwnerToken := MkMsgTransferOwnerToken {
  MsgTransferOwnerToken_Symbol : string; MsgTransferOwnerToken_Owner : string; MsgTransferOwnerToken_To : string }.
Definition MsgTransferOwnerToken_Marshal (m : MsgTransferOwnerToken) : bytes :=
  let '(MkMsgTransferOwnerToken symbol owner to) := m in opt_bytes 10 (to_bytes symbol) (opt_bytes 18 (to_bytes owner)
    (opt_bytes 26 (to_bytes to) [])).
Definition MsgTransferOwnerToken_Size (m : MsgTransferOwnerToken) : Z :=
  let '(MkMsgTransferOwnerToken symbol owner to) := m in opt_bytes_size (to_bytes symbol) + opt_bytes_size (to_bytes owner) +
    opt_bytes_size (to_bytes to).
Definition MsgTransferOwnerToken_field (m : MsgTransferOwnerToken) (num wt l : Z) (buf : bytes) :=
  let '(MkMsgTransferOwnerToken symbol owner to) := m in
  if num =? 1 then get_bytes (fun bs => MkMsgTransferOwnerToken (bytes_str bs) owner to) wt l buf
  else if num =? 2 then get_bytes (fun bs => MkMsgTransferOwnerToken symbol (bytes_str bs) to) wt l buf
  else if num =? 3 then get_bytes (fun bs => MkMsgTransferOwnerToken symbol owner (bytes_str bs)) wt l buf
  else None.
Definition empty_MsgTransferOwnerToken : MsgTransferOwnerToken := MkMsgTransferOwnerToken "" "" "".
Definition MsgTransferOwnerToken_Unmarshal (m : MsgTransferOwnerToken) (dAtA : bytes) : res MsgTransferOwnerToken := unmarshal MsgTransferOwnerToken_field keep m dAtA.
Definition MsgTransferOwnerToken_ok (m : MsgTransferOwnerToken) : Prop :=
  let '(MkMsgTransferOwnerToken symbol owner to) := m in True.
#[export] Instance MsgTransferOwnerToken_codec : Codec MsgTransferOwnerToken := {|
  codec_empty := empty_MsgTransferOwnerToken; codec_Marshal := MsgTransferOwnerToken_Marshal; codec_Size := MsgTransferOwnerToken_Size;
  codec_Unmarshal := MsgTransferOwnerToken_Unmarshal; codec_ok := MsgTransferOwnerToken_ok |}.
#[export] Instance MsgTransferOwnerToken_laws : CodecLaws MsgTransferOwnerToken.
Proof. codec_laws. Qed.

Record MsgEditToken := MkMsgEditToken {
  MsgEditToken_Symbol : string; MsgEditToken_Name : string; MsgEditToken_MaxSupply : Z; MsgEditToken_Owner : string }.
Definition MsgEditToken_Marshal (m : MsgEditToken) : bytes :=
  let '(MkMsgEditToken symbol name ms owner) := m in opt_bytes 10 (to_bytes symbol) (opt_bytes 18 (to_bytes name) (opt_varint
    24 ms (opt_bytes 34 (to_bytes owner) []))).
Definition MsgEditToken_Size (m : MsgEditToken) : Z :=
  let '(MkMsgEditToken symbol name ms owner) := m in opt_bytes_size (to_bytes symbol) + opt_bytes_size (to_bytes name) +
    opt_varint_size ms + opt_bytes_size (to_bytes owner).
Definition MsgEditToken_field (m : MsgEditToken) (num wt l : Z) (buf : bytes) :=
  let '(MkMsgEditToken symbol name ms owner) := m in
  if num =? 1 then get_bytes (fun bs => MkMsgEditToken (bytes_str bs) name ms owner) wt l buf
  else if num =? 2 then get_bytes (fun bs => MkMsgEditToken symbol (bytes_str bs) ms owner) wt l buf
  else if num =? 3 then get_varint (fun v => MkMsgEditToken symbol name v owner) wt buf
  else if num =? 4 then get_bytes (fun bs => MkMsgEditToken symbol name ms (bytes_str bs)) wt l buf
  else None.
Definition empty_MsgEditToken : MsgEditToken := MkMsgEditToken "" "" 0 "".
Definition MsgEditToken_Unmarshal (m : MsgEditToken) (dAtA : bytes) : res MsgEditToken := unmarshal MsgEditToken_field keep m dAtA.
Definition MsgEditToken_ok (m : MsgEditToken) : Prop := let '(MkMsgEditToken symbol name ms owner) := m in is_uint64 ms.
#[export] Instance MsgEditToken_codec : Codec MsgEditToken := {|
  codec_empty := empty_MsgEditToken; codec_Marshal := MsgEditToken_Marshal; codec_Size := MsgEditToken_Size;
  codec_Unmarshal := MsgEditToken_Unmarshal; codec_ok := MsgEditToken_ok |}.
#[export] Instance MsgEditToken_laws : CodecLaws MsgEditToken.
Proof. codec_laws. Qed.

Record MsgMintToken := MkMsgMintToken {
  MsgMintToken_Symbol : string; MsgMintToken_To : string; MsgMintToken_Amount : Z; MsgMintToken_Owner : string }.
Definition MsgMintToken_Marshal (m : MsgMintToken) : bytes :=
  let '(MkMsgMintToken symbol to amount owner) := m in opt_bytes 10 (to_bytes symbol) (opt_bytes 18 (to_bytes to) (opt_varint
    24 amount (opt_bytes 34 (to_bytes owner) []))).
Definition MsgMintToken_Size (m : MsgMintToken) : Z :=
  let '(MkMsgMintToken symbol to amount owner) := m in opt_bytes_size (to_bytes symbol) + opt_bytes_size (to_bytes to) +
    opt_varint_size amount + opt_bytes_size (to_bytes owner).
Definition MsgMintToken_field (m : MsgMintToken) (num wt l : Z) (buf : bytes) :=
  let '(MkMsgMintToken symbol to amount owner) := m in
  if num =? 1 then get_bytes (fun bs => MkMsgMintToken (bytes_str bs) to amount owner) wt l buf
  else if num =? 2 then get_bytes (fun bs => MkMsgMintToken symbol (bytes_str bs) amount owner) wt l buf
  else if num =? 3 then get_varint (fun v => MkMsgMintToken symbol to v owner) wt buf
  else if num =? 4 then get_bytes (fun bs => MkMsgMintToken symbol to amount (bytes_str bs)) wt l buf
  else None.
Definition empty_MsgMintToken : MsgMintToken := MkMsgMintToken "" "" 0 "".
Definition MsgMintToken_Unmarshal (m : MsgMintToken) (dAtA : bytes) : res MsgMintToken := unmarshal MsgMintToken_field keep m dAtA.
Definition MsgMintToken_ok (m : MsgMintToken) : Prop := let '(MkMsgMintToken symbol to amount owner) := m in is_uint64 amount.
#[export] Instance MsgMintToken_codec : Codec MsgMintToken := {|
  codec_empty := empty_MsgMintToken; codec_Marshal := MsgMintToken_Marshal; codec_Size := MsgMintToken_Size;
  codec_Unmarshal := MsgMintToken_Unmarshal; codec_ok := MsgMintToken_ok |}.
#[export] Instance MsgMintToken_laws : CodecLaws MsgMintToken.
Proof. codec_laws. Qed.

(* ------------------------------------------------------------------ *)
(** * Operations *)

(** [Bool], a text; an unreadable one counts as false. *)
Definition Bool_Marshal (b : string) : bytes := to_bytes b.
Definition Bool_Unmarshal (data : bytes) : string := bytes_str data.
Definition ParseBool (str : string) : res bool :=
  if decide (str ∈ ["1"; "t"; "T"; "true"; "TRUE"; "True"]) then Ok true
  else if decide (str ∈ ["0"; "f"; "F"; "false"; "FALSE"; "False"]) then Ok false else Err "invalid syntax".
Definition ToBool (b : string) : bool :=
  if bool_decide (b = "") then false else match ParseBool b with Ok result => result | _ => false end.

Section Operations.
Context `{B : Bech32Lib}.

Definition not_empty (e s : string) : res unit := if bool_decide (s = "") then Err e else Ok tt.
Definition check_token_owner (owner : string) : res unit := check_named "owner must be not empty" owner.

Definition MsgIssueToken_ValidateBasic (msg : MsgIssueToken) : res unit :=
  _ ← check_token_owner (MsgIssueToken_Owner msg);
  _ ← not_empty "symbol must be not empty" (MsgIssueToken_Symbol msg);
  _ ← not_empty "name must be not empty" (MsgIssueToken_Name msg);
  not_empty "minUnit must be not empty" (MsgIssueToken_MinUnit msg).
Definition MsgTransferOwnerToken_ValidateBasic (msg : MsgTransferOwnerToken) : res unit :=
  _ ← check_named "srcOwner must be not empty" (MsgTransferOwnerToken_Owner msg);
  _ ← check_named "dstOwner must be not empty" (MsgTransferOwnerToken_To msg);
  not_empty "symbol must be not empty" (MsgTransferOwnerToken_Symbol msg).
Definition MsgEditToken_ValidateBasic (msg : MsgEditToken) : res unit :=
  _ ← check_token_owner (MsgEditToken_Owner msg);
  not_empty "symbol must be not empty" (MsgEditToken_Symbol msg).
Definition MsgMintToken_ValidateBasic (msg : MsgMintToken) : res unit :=
  _ ← check_token_owner (MsgMintToken_Owner msg);
  not_empty "symbol must be not empty" (MsgMintToken_Symbol msg).

Definition MsgIssueToken_GetSigners (msg : MsgIssueToken) : res (list bytes) := owner_signs (MsgIssueToken_Owner msg).
Definition MsgTransferOwnerToken_GetSigners (msg : MsgTransferOwnerToken) : res (list bytes) := owner_signs (MsgTransferOwnerToken_Owner msg).
Definition MsgEditToken_GetSigners (msg : MsgEditToken) : res (list bytes) := owner_signs (MsgEditToken_Owner msg).
Definition MsgMintToken_GetSigners (msg : MsgMintToken) : res (list bytes) := owner_signs (MsgMintToken_Owner msg).

(** Tokens as the client hands them on.  A single one keeps its owner's text;
    in a list every owner is decoded and written again, which panics for a text
    that is no address. *)
Definition GetOwner (t : PbToken) : res bytes := MustAccAddressFromBech32 (PbToken_Owner t).
Definition Token_Convert (t : PbToken) : Token :=
  MkToken (PbToken_Symbol t) (PbToken_Name t) (PbToken_Scale t) (PbToken_MinUnit t) (PbToken_InitialSupply t) (PbToken_MaxSupply t)
    (PbToken_Mintable t) (PbToken_Owner t).
Definition Tokens_Convert (ts : list PbToken) : res (list Token) :=
  map_res (fun t =>
    a ← GetOwner t; owner ← Acc_String a;
    Ok (MkToken (PbToken_Symbol t) (PbToken_Name t) (PbToken_Scale t) (PbToken_MinUnit t) (PbToken_InitialSupply t) (PbToken_MaxSupply t)
      (PbToken_Mintable t) owner)) ts.

Record TokenParamsResp := MkTokenParamsResp { IssueTokenBaseFee : string; OperateTokenFeeRatio : string }.
Record QueryFeesResp := MkQueryFeesResp { qf_Exist : bool; qf_IssueFee : Coin; qf_MintFee : Coin }.
Definition TokenParams_Convert (p : TokenParams) : TokenParamsResp :=
  MkTokenParamsResp (Coin_String (TokenParams_IssueTokenBaseFee p)) (Dec_String (TokenParams_OperateTokenFeeRatio p)).
End Operations.

(** The module's messages as messages of a transaction. *)
Inductive TokenMsg :=
  | IssueTokenMsg (m : MsgIssueToken) | TransferOwnerMsg (m : MsgTransferOwnerToken) | EditTokenMsg (m : MsgEditToken)
  | MintTokenMsg (m : MsgMintToken).
Definition TokenMsg_Marshal (m : TokenMsg) : bytes :=
  match m with
  | IssueTokenMsg m => codec_Marshal m | TransferOwnerMsg m => codec_Marshal m | EditTokenMsg m => codec_Marshal m
  | MintTokenMsg m => codec_Marshal m
  end.
Definition TokenMsg_Owner (m : TokenMsg) : string :=
  match m with
  | IssueTokenMsg m => MsgIssueToken_Owner m | TransferOwnerMsg m => MsgTransferOwnerToken_Owner m | EditTokenMsg m => MsgEditToken_Owner m
  | MintTokenMsg m => MsgMintToken_Owner m
  end.
Definition TokenMsg_GetSigners `{Bech32Lib} (m : TokenMsg) : res (list bytes) :=
  match m with
  | IssueTokenMsg m => MsgIssueToken_GetSigners m | TransferOwnerMsg m => MsgTransferOwnerToken_GetSigners m
  | EditTokenMsg m => MsgEditToken_GetSigners m | MintTokenMsg m => MsgMintToken_GetSigners m
  end.
Definition TokenMsg_ValidateBasic `{Bech32Lib} (m : TokenMsg) : res unit :=
  match m with
  | IssueTokenMsg m => MsgIssueToken_ValidateBasic m | TransferOwnerMsg m => MsgTransferOwnerToken_ValidateBasic m
  | EditTokenMsg m => MsgEditToken_ValidateBasic m | MintTokenMsg m => MsgMintToken_ValidateBasic m
  end.
#[export] Instance TokenMsg_msg `{Bech32Lib} : MsgInterface TokenMsg := {|
  msg_proto := {|
    MessageName m := "plugchain.token." +:+
      match m with
      | IssueTokenMsg _ => "MsgIssueToken" | TransferOwnerMsg _ => "MsgTransferOwnerToken" | EditTokenMsg _ => "MsgEditToken"
      | MintTokenMsg _ => "MsgMintToken"
      end;
    proto_Marshal m := Ok (TokenMsg_Marshal m) |};
  msg_GetSigners := TokenMsg_GetSigners;
|}.
Definition TokenMsg_wf (m : TokenMsg) : Prop :=
  match m with
  | IssueTokenMsg m => codec_ok m | TransferOwnerMsg m => codec_ok m | EditTokenMsg m => codec_ok m | MintTokenMsg m => codec_ok m
  end.
(** Decoding [dAtA] into the empty message. *)
Definition TokenMsg_decodes_to (m : TokenMsg) (dAtA : bytes) : Prop :=
  match m with
  | IssueTokenMsg m => MsgIssueToken_Unmarshal empty_MsgIssueToken dAtA = Ok m
  | TransferOwnerMsg m => MsgTransferOwnerToken_Unmarshal empty_MsgTransferOwnerToken dAtA = Ok m
  | EditTokenMsg m => MsgEditToken_Unmarshal empty_MsgEditToken dAtA = Ok m
  | MintTokenMsg m => MsgMintToken_Unmarshal empty_MsgMintToken dAtA = Ok m
  end.
Lemma TokenMsg_decodes m : TokenMsg_wf m -> Z.of_nat (length (TokenMsg_Marshal m)) < 2 ^ 62 ->
  TokenMsg_decodes_to m (TokenMsg_Marshal m).
Proof. destruct m as [m|m|m|m]; intros Hw H; exact (codec_decodes m Hw H). Qed.

(* ------------------------------------------------------------------ *)
(** * Properties *)
Section Validation.
Context `{Bech32Laws}.

Lemma not_empty_spec e s : not_empty e s = Ok tt <-> s <> "".
Proof. unfold not_empty. case_bool_decide; naive_solver. Qed.

(** What the messages require: an address as owner, a symbol, and what a token
    cannot be issued or handed over without.  The receiver of minted tokens is
    not looked at.  The owner signs. *)
Theorem TokenMsg_validation (m : TokenMsg) :
  (TokenMsg_ValidateBasic m = Ok tt <-> address_ok (TokenMsg_Owner m) /\
    match m with
    | IssueTokenMsg m => MsgIssueToken_Symbol m <> "" /\ MsgIssueToken_Name m <> "" /\ MsgIssueToken_MinUnit m <> ""
    | TransferOwnerMsg m => address_ok (MsgTransferOwnerToken_To m) /\ MsgTransferOwnerToken_Symbol m <> ""
    | EditTokenMsg m => MsgEditToken_Symbol m <> ""
    | MintTokenMsg m => MsgMintToken_Symbol m <> ""
    end) /\
  (TokenMsg_ValidateBasic m = Ok tt ->
    exists a, AccAddressFromBech32 (TokenMsg_Owner m) = Ok a /\ TokenMsg_GetSigners m = Ok [a]).
Proof.
  assert (TokenMsg_GetSigners m = owner_signs (TokenMsg_Owner m)) as -> by (by destruct m).
  match goal with |- (?A <-> ?B) /\ _ => assert (A <-> B) as Hv end.
  { destruct m as [m|m|m|m]; cbn; unfold MsgIssueToken_ValidateBasic, MsgTransferOwnerToken_ValidateBasic, MsgEditToken_ValidateBasic,
      MsgMintToken_ValidateBasic, check_token_owner;
    rewrite ?(checked _ _ _ (check_named_spec _ _)), ?(checked _ _ _ (not_empty_spec _ _)), ?not_empty_spec; done. }
  split; [exact Hv|]. intros [Ha _]%Hv. by apply owner_signs_ok.
Qed.

(** A list of tokens is converted as its tokens are one by one, provided that
    the owners are addresses in the text the client itself writes; otherwise
    the conversion panics, where the one of a single token succeeds. *)
Theorem Tokens_Convert_spec ts :
  (Forall (fun t => exists a, addr_ok a /\ a <> [] /\ Acc_String a = Ok (PbToken_Owner t)) ts ->
    Tokens_Convert ts = Ok (map Token_Convert ts)) /\
  (forall t, t ∈ ts -> ~ address_ok (PbToken_Owner t) -> is_ok (Tokens_Convert ts) = false).
Proof.
  split.
  - induction 1 as [|t ts (a & [Ha Hl] & Hne & Hs) _ IH]; [done|]. unfold Tokens_Convert in *. rewrite map_res_cons, IH.
    unfold GetOwner, MustAccAddressFromBech32, AccAddressFromBech32.
    destruct (Acc_String_read a _ Ha Hne Hs (Hl _ Hs)) as [_ Hr]. rewrite Hr, bool_decide_true by done. cbn. by rewrite Hs.
  - intros t Ht Hn. unfold Tokens_Convert. induction ts as [|u ts IH]; [by apply elem_of_nil in Ht|]. rewrite map_res_cons.
    apply elem_of_cons in Ht as [<-|Ht].
    + unfold GetOwner, MustAccAddressFromBech32. destruct (AccAddressFromBech32 (PbToken_Owner t)) eqn:E; [|done..].
      destruct Hn. by eexists.
    + specialize (IH Ht). match goal with |- is_ok (?m ≫= _) = _ => destruct m end; [|done..]. cbn.
      match type of IH with is_ok ?m = _ => destruct m end; done.
Qed.
End Validation.

#[local] Existing Instance toy_bech32.
Lemma TokenMsg_validation_witness :
  TokenMsg_ValidateBasic (MintTokenMsg (MkMsgMintToken "abc" "nobody" 5 some_address)) = Ok tt /\
  TokenMsg_GetSigners (MintTokenMsg (MkMsgMintToken "abc" "nobody" 5 some_address)) = Ok [[18; 255]].
Proof.
  split.
  - apply TokenMsg_validation. split; [exists [18; 255]; vm_compute; reflexivity|discriminate].
  - assert (TokenMsg_ValidateBasic (MintTokenMsg (MkMsgMintToken "abc" "nobody" 5 some_address)) = Ok tt) as Hv by (vm_compute; reflexivity).
    destruct (proj2 (TokenMsg_validation _) Hv) as (a & Ha & Hs). rewrite Hs. vm_compute in Ha. by injection Ha as <-.
Defined.
