(* ===== verification/Gov.v ===== *)
(** The messages of the governance module and its proposals:
    [modules/gov/types.go], [proposal.go], [content.go], and their encodings
    ([modules/gov/tx.pb.go], [gov.pb.go]). *)
From S2P Require Import Prelude GoStrings BigText SdkInt SdkDec CoinSet CoinText Coins DecCoins BitArray Wire Decoding Keys Multisig Address TxTypes TxProto Sigs TxBuilder Codec Messages.

Record TextProposal := MkTextProposal { TextProposal_Title : string; TextProposal_Description : string }.
Definition TextProposal_Marshal (m : TextProposal) : bytes :=
  let '(MkTextProposal title descr) := m in opt_bytes 10 (to_bytes title) (opt_bytes 18 (to_bytes descr) []).
Definition TextProposal_Size (m : TextProposal) : Z :=
  let '(MkTextProposal title descr) := m in opt_bytes_size (to_bytes title) + opt_bytes_size (to_bytes descr).
Definition TextProposal_field (m : TextProposal) (num wt l : Z) (buf : bytes) :=
  let '(MkTextProposal title descr) := m in
  if num =? 1 then get_bytes (fun bs => MkTextProposal (bytes_str bs) descr) wt l buf
  else if num =? 2 then get_bytes (fun bs => MkTextProposal title (bytes_str bs)) wt l buf
  else None.
Definition empty_TextProposal : TextProposal := MkTextProposal "" "".
Definition TextProposal_Unmarshal (m : TextProposal) (dAtA : bytes) : res TextProposal := unmarshal TextProposal_field keep m dAtA.
Definition TextProposal_ok (m : TextProposal) : Prop := let '(MkTextProposal title descr) := m in True.
#[export] Instance TextProposal_codec : Codec TextProposal := {|
  codec_empty := empty_TextProposal; codec_Marshal := TextProposal_Marshal; codec_Size := TextProposal_Size;
  codec_Unmarshal := TextProposal_Unmarshal; codec_ok := TextProposal_ok |}.
#[export] Instance TextProposal_laws : CodecLaws TextProposal.
Proof. codec_laws. Qed.

Record GovDeposit := MkGovDeposit { GovDeposit_ProposalId : Z; GovDeposit_Depositor : string; GovDeposit_Amount : list Coin }.
Definition GovDeposit_Marshal (m : GovDeposit) : bytes :=
  let '(MkGovDeposit pi depos amount) := m in opt_varint 8 pi (opt_bytes 18 (to_bytes depos) (rep_bytes 26 (map Coin_Marshal
    amount) [])).
Definition GovDeposit_Size (m : GovDeposit) : Z :=
  let '(MkGovDeposit pi depos amount) := m in opt_varint_size pi + opt_bytes_size (to_bytes depos) + sum_sizes (map (fun x =>
    msg_size 1 (Coin_Size x)) amount).
Definition GovDeposit_field (m : GovDeposit) (num wt l : Z) (buf : bytes) :=
  let '(MkGovDeposit pi depos amount) := m in
  if num =? 1 then get_varint (fun v => MkGovDeposit v depos amount) wt buf
  else if num =? 2 then get_bytes (fun bs => MkGovDeposit pi (bytes_str bs) amount) wt l buf
  else if num =? 3 then get_msg (fun x => MkGovDeposit pi depos (amount ++ [x])) (Coin_Unmarshal empty_Coin) wt l buf
  else None.
Definition empty_GovDeposit : GovDeposit := MkGovDeposit 0 "" [].
Definition GovDeposit_Unmarshal (m : GovDeposit) (dAtA : bytes) : res GovDeposit := unmarshal GovDeposit_field keep m dAtA.
Definition GovDeposit_ok (m : GovDeposit) : Prop :=
  let '(MkGovDeposit pi depos amount) := m in is_uint64 pi /\ Forall coin_ok amount.
#[export] Instance GovDeposit_codec : Codec GovDeposit := {|
  codec_empty := empty_GovDeposit; codec_Marshal := GovDeposit_Marshal; codec_Size := GovDeposit_Size;
  codec_Unmarshal := GovDeposit_Unmarshal; codec_ok := GovDeposit_ok |}.
#[export] Instance GovDeposit_laws : CodecLaws GovDeposit.
Proof. codec_laws. Qed.

Record TallyResult := MkTallyResult {
  TallyResult_Yes : Int; TallyResult_Abstain : Int; TallyResult_No : Int; TallyResult_NoWithVeto : Int }.
Definition TallyResult_Marshal (m : TallyResult) : bytes :=
  let '(MkTallyResult yes abstain no nwv) := m in put_bytes 10 (Int_Marshal yes) (put_bytes 18 (Int_Marshal abstain) (put_bytes
    26 (Int_Marshal no) (put_bytes 34 (Int_Marshal nwv) []))).
Definition TallyResult_Size (m : TallyResult) : Z :=
  let '(MkTallyResult yes abstain no nwv) := m in msg_size 1 (Int_Size yes) + msg_size 1 (Int_Size abstain) + msg_size 1
    (Int_Size no) + msg_size 1 (Int_Size nwv).
Definition TallyResult_field (m : TallyResult) (num wt l : Z) (buf : bytes) :=
  let '(MkTallyResult yes abstain no nwv) := m in
  if num =? 1 then get_msg (fun x => MkTallyResult x abstain no nwv) (Int_Unmarshal yes) wt l buf
  else if num =? 2 then get_msg (fun x => MkTallyResult yes x no nwv) (Int_Unmarshal abstain) wt l buf
  else if num =? 3 then get_msg (fun x => MkTallyResult yes abstain x nwv) (Int_Unmarshal no) wt l buf
  else if num =? 4 then get_msg (fun x => MkTallyResult yes abstain no x) (Int_Unmarshal nwv) wt l buf
  else None.
Definition empty_TallyResult : TallyResult := MkTallyResult (MkInt None) (MkInt None) (MkInt None) (MkInt None).
Definition TallyResult_Unmarshal (m : TallyResult) (dAtA : bytes) : res TallyResult := unmarshal TallyResult_field keep m dAtA.
Definition TallyResult_ok (m : TallyResult) : Prop :=
  let '(MkTallyResult yes abstain no nwv) := m in int_ok yes /\ int_ok abstain /\ int_ok no /\ int_ok nwv.
#[export] Instance TallyResult_codec : Codec TallyResult := {|
  codec_empty := empty_TallyResult; codec_Marshal := TallyResult_Marshal; codec_Size := TallyResult_Size;
  codec_Unmarshal := TallyResult_Unmarshal; codec_ok := TallyResult_ok |}.
#[export] Instance TallyResult_laws : CodecLaws TallyResult.
Proof. codec_laws. Qed.

Record Vote := MkVote { Vote_ProposalId : Z; Vote_Voter : string; Vote_Option : Z }.
Definition Vote_Marshal (m : Vote) : bytes :=
  let '(MkVote pi voter option) := m in opt_varint 8 pi (opt_bytes 18 (to_bytes voter) (opt_varint 24 (wrap_u64 option) [])).
Definition Vote_Size (m : Vote) : Z :=
  let '(MkVote pi voter option) := m in opt_varint_size pi + opt_bytes_size (to_bytes voter) + opt_varint_size (wrap_u64
    option).
Definition Vote_field (m : Vote) (num wt l : Z) (buf : bytes) :=
  let '(MkVote pi voter option) := m in
  if num =? 1 then get_varint (fun v => MkVote v voter option) wt buf
  else if num =? 2 then get_bytes (fun bs => MkVote pi (bytes_str bs) option) wt l buf
  else if num =? 3 then get_varint (fun v => MkVote pi voter (wrap_i32 v)) wt buf
  else None.
Definition empty_Vote : Vote := MkVote 0 "" 0.
Definition Vote_Unmarshal (m : Vote) (dAtA : bytes) : res Vote := unmarshal Vote_field keep m dAtA.
Definition Vote_ok (m : Vote) : Prop := let '(MkVote pi voter option) := m in is_uint64 pi /\ is_int32 option.
#[export] Instance Vote_codec : Codec Vote := {|
  codec_empty := empty_Vote; codec_Marshal := Vote_Marshal; codec_Size := Vote_Size;
  codec_Unmarshal := Vote_Unmarshal; codec_ok := Vote_ok |}.
#[export] Instance Vote_laws : CodecLaws Vote.
Proof. codec_laws. Qed.

Record MsgSubmitProposal := MkMsgSubmitProposal {
  MsgSubmitProposal_Content : option (Any TextProposal); MsgSubmitProposal_InitialDeposit : list Coin;
    MsgSubmitProposal_Proposer : string }.
Definition MsgSubmitProposal_Marshal (m : MsgSubmitProposal) : bytes :=
  let '(MkMsgSubmitProposal content id proposer) := m in opt_ptr 10 (Any_Marshal <$> content) (rep_bytes 18 (map Coin_Marshal
    id) (opt_bytes 26 (to_bytes proposer) [])).
Definition MsgSubmitProposal_Size (m : MsgSubmitProposal) : Z :=
  let '(MkMsgSubmitProposal content id proposer) := m in opt_size 1 (Any_Size <$> content) + sum_sizes (map (fun x => msg_size
    1 (Coin_Size x)) id) + opt_bytes_size (to_bytes proposer).
Definition MsgSubmitProposal_field (m : MsgSubmitProposal) (num wt l : Z) (buf : bytes) :=
  let '(MkMsgSubmitProposal content id proposer) := m in
  if num =? 1 then get_msg (fun x => MkMsgSubmitProposal (Some x) id proposer) (Any_Unmarshal (default empty_Any content)) wt l
      buf
  else if num =? 2 then get_msg (fun x => MkMsgSubmitProposal content (id ++ [x]) proposer) (Coin_Unmarshal empty_Coin) wt l buf
  else if num =? 3 then get_bytes (fun bs => MkMsgSubmitProposal content id (bytes_str bs)) wt l buf
  else None.
Definition empty_MsgSubmitProposal : MsgSubmitProposal := MkMsgSubmitProposal None [] "".
Definition MsgSubmitProposal_Unmarshal (m : MsgSubmitProposal) (dAtA : bytes) : res MsgSubmitProposal := unmarshal MsgSubmitProposal_field keep m dAtA.
Definition MsgSubmitProposal_ok (m : MsgSubmitProposal) : Prop :=
  let '(MkMsgSubmitProposal content id proposer) := m in from_option Any_ok True content /\ Forall coin_ok id.
#[export] Instance MsgSubmitProposal_codec : Codec MsgSubmitProposal := {|
  codec_empty := empty_MsgSubmitProposal; codec_Marshal := MsgSubmitProposal_Marshal; codec_Size := MsgSubmitProposal_Size;
  codec_Unmarshal := MsgSubmitProposal_Unmarshal; codec_ok := MsgSubmitProposal_ok |}.
#[export] Instance MsgSubmitProposal_laws : CodecLaws MsgSubmitProposal.
Proof. codec_laws. Qed.

Record MsgVote := MkMsgVote { MsgVote_ProposalId : Z; MsgVote_Voter : string; MsgVote_Option : Z }.
Definition MsgVote_Marshal (m : MsgVote) : bytes :=
  let '(MkMsgVote pi voter option) := m in opt_varint 8 pi (opt_bytes 18 (to_bytes voter) (opt_varint 24 (wrap_u64 option)
    [])).
Definition MsgVote_Size (m : MsgVote) : Z :=
  let '(MkMsgVote pi voter option) := m in opt_varint_size pi + opt_bytes_size (to_bytes voter) + opt_varint_size (wrap_u64
    option).
Definition MsgVote_field (m : MsgVote) (num wt l : Z) (buf : bytes) :=
  let '(MkMsgVote pi voter option) := m in
  if num =? 1 then get_varint (fun v => MkMsgVote v voter option) wt buf
  else if num =? 2 then get_bytes (fun bs => MkMsgVote pi (bytes_str bs) option) wt l buf
  else if num =? 3 then get_varint (fun v => MkMsgVote pi voter (wrap_i32 v)) wt buf
  else None.
Definition empty_MsgVote : MsgVote := MkMsgVote 0 "" 0.
Definition MsgVote_Unmarshal (m : MsgVote) (dAtA : bytes) : res MsgVote := unmarshal MsgVote_field keep m dAtA.
Definition MsgVote_ok (m : MsgVote) : Prop := let '(MkMsgVote pi voter option) := m in is_uint64 pi /\ is_int32 option.
#[export] Instance MsgVote_codec : Codec MsgVote := {|
  codec_empty := empty_MsgVote; codec_Marshal := MsgVote_Marshal; codec_Size := MsgVote_Size;
  codec_Unmarshal := MsgVote_Unmarshal; codec_ok := MsgVote_ok |}.
#[export] Instance MsgVote_laws : CodecLaws MsgVote.
Proof. codec_laws. Qed.

Record MsgDeposit := MkMsgDeposit { MsgDeposit_ProposalId : Z; MsgDeposit_Depositor : string; MsgDeposit_Amount : list Coin }.
Definition MsgDeposit_Marshal (m : MsgDeposit) : bytes :=
  let '(MkMsgDeposit pi depos amount) := m in opt_varint 8 pi (opt_bytes 18 (to_bytes depos) (rep_bytes 26 (map Coin_Marshal
    amount) [])).
Definition MsgDeposit_Size (m : MsgDeposit) : Z :=
  let '(MkMsgDeposit pi depos amount) := m in opt_varint_size pi + opt_bytes_size (to_bytes depos) + sum_sizes (map (fun x =>
    msg_size 1 (Coin_Size x)) amount).
Definition MsgDeposit_field (m : MsgDeposit) (num wt l : Z) (buf : bytes) :=
  let '(MkMsgDeposit pi depos amount) := m in
  if num =? 1 then get_varint (fun v => MkMsgDeposit v depos amount) wt buf
  else if num =? 2 then get_bytes (fun bs => MkMsgDeposit pi (bytes_str bs) amount) wt l buf
  else if num =? 3 then get_msg (fun x => MkMsgDeposit pi depos (amount ++ [x])) (Coin_Unmarshal empty_Coin) wt l buf
  else None.
Definition empty_MsgDeposit : MsgDeposit := MkMsgDeposit 0 "" [].
Definition MsgDeposit_Unmarshal (m : MsgDeposit) (dAtA : bytes) : res MsgDeposit := unmarshal MsgDeposit_field keep m dAtA.
Definition MsgDeposit_ok (m : MsgDeposit) : Prop :=
  let '(MkMsgDeposit pi depos amount) := m in is_uint64 pi /\ Forall coin_ok amount.
#[export] Instance MsgDeposit_codec : Codec MsgDeposit := {|
  codec_empty := empty_MsgDeposit; codec_Marshal := MsgDeposit_Marshal; codec_Size := MsgDeposit_Size;
  codec_Unmarshal := MsgDeposit_Unmarshal; codec_ok := MsgDeposit_ok |}.
#[export] Instance MsgDeposit_laws : CodecLaws MsgDeposit.
Proof. codec_laws. Qed.

(* ------------------------------------------------------------------ *)
(** * Enumerations *)

(** The tables of [gov.pb.go]; a name that is missing counts as 0, a number as
    the empty text. *)
Definition VoteOption_table : list (Z * string) :=
  [(0, "VOTE_OPTION_UNSPECIFIED"); (1, "VOTE_OPTION_YES"); (2, "VOTE_OPTION_ABSTAIN"); (3, "VOTE_OPTION_NO"); (4, "VOTE_OPTION_NO_WITH_VETO")].
Definition ProposalStatus_table : list (Z * string) :=
  [(0, "PROPOSAL_STATUS_UNSPECIFIED"); (1, "PROPOSAL_STATUS_DEPOSIT_PERIOD"); (2, "PROPOSAL_STATUS_VOTING_PERIOD");
   (3, "PROPOSAL_STATUS_PASSED"); (4, "PROPOSAL_STATUS_REJECTED"); (5, "PROPOSAL_STATUS_FAILED")].
Definition name_of (table : list (Z * string)) (n : Z) : option string := snd <$> List.find (fun p => fst p =? n) table.
Definition value_of (table : list (Z * string)) (s : string) : option Z := fst <$> List.find (fun p => bool_decide (snd p = s)) table.
Definition VoteOption_name (n : Z) : string := default "" (name_of VoteOption_table n).
Definition VoteOption_value (s : string) : Z := default 0 (value_of VoteOption_table s).
Definition ProposalStatus_name (n : Z) : string := default "" (name_of ProposalStatus_table n).
Definition ProposalStatus_value (s : string) : option Z := value_of ProposalStatus_table s.

(* ------------------------------------------------------------------ *)
(** * Proposals *)

(** [Content]; [TextProposal] is the only implementation.  The nil interface is
    [None]. *)
Abbreviation Content := (option TextProposal).
#[export] Instance TextProposal_message : ProtoMessage TextProposal := {|
  MessageName _ := "cosmos.gov.v1beta1.TextProposal"; proto_Marshal m := Ok (TextProposal_Marshal m) |}.

Definition MaxDescriptionLength : Z := 5000.
Definition MaxTitleLength : Z := 140.
Abbreviation len s := (Z.of_nat (String.length s)).

Definition NewTextProposal (title description : string) : Content := Some (MkTextProposal title description).
Definition TextProposal_ValidateBasic (tp : TextProposal) : res unit :=
  let title := TextProposal_Title tp in
  if bool_decide (TrimSpace title = "") then Err "proposal title cannot be blank" else
  if MaxTitleLength <? len title then Err "proposal title is longer than max length of %d" else
  let description := TextProposal_Description tp in
  if bool_decide (description = "") then Err "proposal description cannot be blank" else
  if MaxDescriptionLength <? len description then Err "proposal description is longer than max length of %d" else Ok tt.

(** [validProposalTypes], a variable of the package. *)
Definition initialProposalTypes : gset string := {[ "Text" ]}.
Definition RegisterProposalType (ty : string) : ST (gset string) unit := fun types =>
  if bool_decide (ty ∈ types) then (Panic "already registered proposal type: %s", types) else (Ok tt, {[ ty ]} ∪ types).
Definition IsValidProposalType (ty : string) (types : gset string) : bool := bool_decide (ty ∈ types).
Definition ContentFromProposalType (title desc ty : string) : Content :=
  if bool_decide (ty = "Text") then NewTextProposal title desc else None.

(** Times are numbers of nanoseconds since the zero time. *)
Definition Time : Type := Z.
Record Proposal := MkProposal {
  prop_ProposalId : Z; prop_Content : option (Any TextProposal); prop_Status : Z; prop_FinalTallyResult : TallyResult;
  prop_SubmitTime : Time; prop_DepositEndTime : Time; prop_TotalDeposit : Coins; prop_VotingStartTime : Time; prop_VotingEndTime : Time }.
Definition time_zero : Time := 0.

(** [content.(proto.Message)] fails on the nil interface. *)
Definition NewProposal (content : Content) (id : Z) (submitTime depositEndTime : Time) : res Proposal :=
  match content with
  | None => Err "%T does not implement proto.Message"
  | Some msg =>
      a ← NewAnyWithValue msg;
      Ok (MkProposal id (Some a) 1 (MkTallyResult (IntV 0) (IntV 0) (IntV 0) (IntV 0)) submitTime depositEndTime [] time_zero time_zero)
  end.
(** [GetCachedValue] panics on the nil [Any]. *)
Definition content_of (any : option (Any TextProposal)) : res Content := a ← deref any; Ok (cachedValue a).
Definition Proposal_GetContent (p : Proposal) : res Content := content_of (prop_Content p).
Definition of_content (f : TextProposal -> string) (p : Proposal) : res string :=
  content ← Proposal_GetContent p; Ok (match content with None => "" | Some c => f c end).
Definition ProposalType (p : Proposal) : res string := of_content (fun _ => "Text") p.
Definition ProposalRoute (p : Proposal) : res string := of_content (fun _ => "gov") p.
Definition GetTitle (p : Proposal) : res string := of_content TextProposal_Title p.

Definition ProposalStatusFromString (str : string) : res Z :=
  match ProposalStatus_value str with Some num => Ok num | None => Err "'%s' is not a valid proposal status" end.
Definition ValidProposalStatus (status : Z) : bool := bool_decide (status ∈ [1; 2; 3; 4; 5]).
Definition ProposalStatus_Marshal (status : Z) : bytes := [status mod 256].
Definition ProposalStatus_Unmarshal (data : bytes) : res Z := match data with b :: _ => Ok b | [] => Panic index_out_of_range end.

(* ------------------------------------------------------------------ *)
(** * Messages *)

Definition SetContent (m : MsgSubmitProposal) (content : Content) : res MsgSubmitProposal :=
  match content with
  | None => Err "can't proto marshal %T"
  | Some msg =>
      a ← NewAnyWithValue msg;
      Ok (MkMsgSubmitProposal (Some a) (MsgSubmitProposal_InitialDeposit m) (MsgSubmitProposal_Proposer m))
  end.
Definition GetContent (m : MsgSubmitProposal) : res Content := content_of (MsgSubmitProposal_Content m).
Definition GetInitialDeposit (m : MsgSubmitProposal) : Coins := MsgSubmitProposal_InitialDeposit m.
Definition ValidVoteOption (option : Z) : bool := bool_decide (option ∈ [1; 2; 3; 4]).

(** A valid list of coins without negative amounts. *)
Definition check_deposit (coins : Coins) : res unit :=
  valid ← Coins_IsValid coins;
  if negb valid then Err "invalidCoins coins, %s" else
  negative ← Coins_IsAnyNegative coins;
  if negative : bool then Err "invalidCoins coins, %s" else Ok tt.
Definition MsgSubmitProposal_ValidateBasic (m : MsgSubmitProposal) : res unit :=
  if bool_decide (MsgSubmitProposal_Proposer m = "") then Err "missing Proposer" else
  _ ← check_deposit (MsgSubmitProposal_InitialDeposit m);
  content ← GetContent m;
  match content with None => Err "missing content" | Some content => TextProposal_ValidateBasic content end.
Definition MsgDeposit_ValidateBasic (msg : MsgDeposit) : res unit :=
  if bool_decide (MsgDeposit_Depositor msg = "") then Err "missing Proposer" else check_deposit (MsgDeposit_Amount msg).
Definition MsgVote_ValidateBasic (msg : MsgVote) : res unit :=
  if bool_decide (MsgVote_Voter msg = "") then Err "missing Proposer" else
  if negb (ValidVoteOption (MsgVote_Option msg)) then Err "invalid vote option %s" else Ok tt.

Section Signers.
Context `{B : Bech32Lib}.
Definition NewMsgSubmitProposal (content : Content) (initialDeposit : Coins) (proposer : bytes) : res MsgSubmitProposal :=
  text ← Acc_String proposer; SetContent (MkMsgSubmitProposal None initialDeposit text) content.
(** The error of decoding the address is dropped; the empty address remains. *)
Definition address_or_nil (s : string) : res bytes := match AccAddressFromBech32 s with Err _ => Ok [] | r => r end.
Definition GetProposer (m : MsgSubmitProposal) : res bytes := address_or_nil (MsgSubmitProposal_Proposer m).
Definition one_signer (s : string) : res (list bytes) := a ← address_or_nil s; Ok [a].
Definition MsgSubmitProposal_GetSigners (m : MsgSubmitProposal) : res (list bytes) := one_signer (MsgSubmitProposal_Proposer m).
Definition MsgDeposit_GetSigners (msg : MsgDeposit) : res (list bytes) := one_signer (MsgDeposit_Depositor msg).
Definition MsgVote_GetSigners (msg : MsgVote) : res (list bytes) := one_signer (MsgVote_Voter msg).
End Signers.

(** The module's messages as messages of a transaction. *)
Inductive GovMsg := SubmitProposalMsg (m : MsgSubmitProposal) | DepositMsg (m : MsgDeposit) | VoteMsg (m : MsgVote).
Definition GovMsg_Marshal (m : GovMsg) : bytes :=
  match m with SubmitProposalMsg m => codec_Marshal m | DepositMsg m => codec_Marshal m | VoteMsg m => codec_Marshal m end.
Definition GovMsg_Sender (m : GovMsg) : string :=
  match m with
  | SubmitProposalMsg m => MsgSubmitProposal_Proposer m | DepositMsg m => MsgDeposit_Depositor m | VoteMsg m => MsgVote_Voter m
  end.
Definition GovMsg_GetSigners `{Bech32Lib} (m : GovMsg) : res (list bytes) :=
  match m with
  | SubmitProposalMsg m => MsgSubmitProposal_GetSigners m | DepositMsg m => MsgDeposit_GetSigners m | VoteMsg m => MsgVote_GetSigners m
  end.
Definition GovMsg_ValidateBasic (m : GovMsg) : res unit :=
  match m with
  | SubmitProposalMsg m => MsgSubmitProposal_ValidateBasic m | DepositMsg m => MsgDeposit_ValidateBasic m
  | VoteMsg m => MsgVote_ValidateBasic m
  end.
#[export] Instance GovMsg_msg `{Bech32Lib} : MsgInterface GovMsg := {|
  msg_proto := {|
    MessageName m := "cosmos.gov.v1beta1." +:+
      match m with SubmitProposalMsg _ => "MsgSubmitProposal" | DepositMsg _ => "MsgDeposit" | VoteMsg _ => "MsgVote" end;
    proto_Marshal m := Ok (GovMsg_Marshal m) |};
  msg_GetSigners := GovMsg_GetSigners;
|}.

(** The content as another process sees it: without the value that was packed. *)
Definition clear_content (m : MsgSubmitProposal) : MsgSubmitProposal :=
  let '(MkMsgSubmitProposal c d p) := m in MkMsgSubmitProposal (ClearCachedValue <$> c) d p.
Definition GovMsg_wf (m : GovMsg) : Prop :=
  match m with SubmitProposalMsg m => codec_ok (clear_content m) | DepositMsg m => codec_ok m | VoteMsg m => codec_ok m end.
(** Decoding [dAtA] into the empty message. *)
Definition GovMsg_decodes_to (m : GovMsg) (dAtA : bytes) : Prop :=
  match m with
  | SubmitProposalMsg m => MsgSubmitProposal_Unmarshal empty_MsgSubmitProposal dAtA = Ok (clear_content m)
  | DepositMsg m => MsgDeposit_Unmarshal empty_MsgDeposit dAtA = Ok m
  | VoteMsg m => MsgVote_Unmarshal empty_MsgVote dAtA = Ok m
  end.
Lemma Marshal_clear_content m : MsgSubmitProposal_Marshal (clear_content m) = MsgSubmitProposal_Marshal m.
Proof. by destruct m as [[[]|] ? ?]. Qed.
Lemma GovMsg_decodes m : GovMsg_wf m -> Z.of_nat (length (GovMsg_Marshal m)) < 2 ^ 62 -> GovMsg_decodes_to m (GovMsg_Marshal m).
Proof.
  destruct m as [m|m|m]; intros Hw H62; try exact (codec_decodes m Hw H62).
  cbn in *. rewrite <-Marshal_clear_content in *. exact (codec_decodes (clear_content m) Hw H62).
Qed.

(* ------------------------------------------------------------------ *)
(** * Answers *)

Record VotingParams := MkVotingParams { vp_VotingPeriod : Z }.
Record DepositParams := MkDepositParams { dp_MinDeposit : Coins; dp_MaxDepositPeriod : Z }.
Record TallyParams := MkTallyParams { tp_Quorum : Dec; tp_Threshold : Dec; tp_VetoThreshold : Dec }.

Record QueryTallyResultResp := MkQueryTallyResultResp { qt_Yes : Int; qt_Abstain : Int; qt_No : Int; qt_NoWithVeto : Int }.
Record QueryProposalResp := MkQueryProposalResp {
  qp_ProposalId : Z; qp_Content : Content; qp_Status : string; qp_FinalTallyResult : QueryTallyResultResp; qp_SubmitTime : Time;
  qp_DepositEndTime : Time; qp_TotalDeposit : Coins; qp_VotingStartTime : Time; qp_VotingEndTime : Time }.
Record QueryVoteResp := MkQueryVoteResp { qv_ProposalId : Z; qv_Voter : string; qv_Option : Z }.
(** The parameters, in the records of the module and in those of the client,
    which have the same fields. *)
Record GovParamsResp := MkGovParamsResp { gp_VotingParams : VotingParams; gp_DepositParams : DepositParams; gp_TallyParams : TallyParams }.
Record QueryDepositResp := MkQueryDepositResp { qd_ProposalId : Z; qd_Depositor : string; qd_Amount : Coins }.

Definition TallyResult_Convert (t : TallyResult) : QueryTallyResultResp :=
  MkQueryTallyResultResp (TallyResult_Yes t) (TallyResult_Abstain t) (TallyResult_No t) (TallyResult_NoWithVeto t).
(** The content is not handed on. *)
Definition Proposal_Convert (q : Proposal) : QueryProposalResp :=
  MkQueryProposalResp (prop_ProposalId q) None (ProposalStatus_name (prop_Status q)) (TallyResult_Convert (prop_FinalTallyResult q))
    (prop_SubmitTime q) (prop_DepositEndTime q) (prop_TotalDeposit q) (prop_VotingStartTime q) (prop_VotingEndTime q).
Definition Proposals_Convert (qs : list Proposal) : list QueryProposalResp := map Proposal_Convert qs.
Definition Vote_Convert (v : Vote) : QueryVoteResp := MkQueryVoteResp (Vote_ProposalId v) (Vote_Voter v) (Vote_Option v).
Definition Votes_Convert (vs : list Vote) : list QueryVoteResp := map Vote_Convert vs.
Definition GovParams_Convert (p : VotingParams * DepositParams * TallyParams) : GovParamsResp :=
  let '(v, d, t) := p in
  MkGovParamsResp (MkVotingParams (vp_VotingPeriod v)) (MkDepositParams (dp_MinDeposit d) (dp_MaxDepositPeriod d))
    (MkTallyParams (tp_Quorum t) (tp_Threshold t) (tp_VetoThreshold t)).
Definition GovDeposit_Convert (d : GovDeposit) : QueryDepositResp :=
  MkQueryDepositResp (GovDeposit_ProposalId d) (GovDeposit_Depositor d) (GovDeposit_Amount d).
Definition GovDeposits_Convert (ds : list GovDeposit) : list QueryDepositResp := map GovDeposit_Convert ds.

(* ------------------------------------------------------------------ *)
(** * Properties *)

(** The names of the options, and those of the statuses, are in bijection with
    the numbers. *)
Lemma table_roundtrip table n s : NoDup table.*1 -> NoDup table.*2 ->
  name_of table n = Some s <-> value_of table s = Some n.
Proof.
  intros H1 H2. unfold name_of, value_of. induction table as [|[m t] table IH]; [done|]. cbn in *.
  apply NoDup_cons in H1 as [Hm H1]. apply NoDup_cons in H2 as [Ht H2]. specialize (IH H1 H2).
  assert (forall k, snd <$> List.find (fun p => fst p =? k) table = Some t -> False) as Nt.
  { intros k E. apply Ht. apply fmap_Some in E as (x & E & ->). apply find_some in E as [E _].
    apply list_elem_of_In in E. by apply list_elem_of_fmap_2. }
  assert (forall k, fst <$> List.find (fun p => bool_decide (snd p = k)) table = Some m -> False) as Nm.
  { intros k E. apply Hm. apply fmap_Some in E as (x & E & ->). apply find_some in E as [E _].
    apply list_elem_of_In in E. by apply list_elem_of_fmap_2. }
  destruct (Z.eqb_spec m n) as [->|Hn], (bool_decide_reflect (t = s)) as [->|Hs]; cbn.
  - done.
  - split; [by intros [= ->]|]. intros E. by destruct (Nm _ E).
  - split; [|by intros [= ->]]. intros E. by destruct (Nt _ E).
  - exact IH.
Qed.

Definition text_ok (tp : TextProposal) : Prop :=
  TrimSpace (TextProposal_Title tp) <> "" /\ len (TextProposal_Title tp) <= 140 /\
  TextProposal_Description tp <> "" /\ len (TextProposal_Description tp) <= 5000.
Lemma TextProposal_ValidateBasic_spec tp : TextProposal_ValidateBasic tp = Ok tt <-> text_ok tp.
Proof.
  unfold text_ok, TextProposal_ValidateBasic, MaxTitleLength, MaxDescriptionLength. rewrite check_nonempty.
  destruct (Z.ltb_spec 140 (len (TextProposal_Title tp))); [naive_solver lia|]. rewrite check_nonempty.
  destruct (Z.ltb_spec 5000 (len (TextProposal_Description tp))); naive_solver lia.
Qed.
Lemma gov_check_deposit_spec coins : Coins_wf coins -> panics (check_deposit coins) = false /\ (check_deposit coins = Ok tt <-> valid_coins coins).
Proof.
  intros Hw. pose proof (Coins_wf_has_val coins Hw) as Hv. unfold check_deposit. destruct (IsValid_spec coins Hv) as (b & Eb & Hb).
  unfold Coins_IsValid. rewrite Eb. cbn [mbind res_bind]. destruct b; cbn [negb].
  2: { split; [done|]. split; [done|]. intros Hc%Hb. done. }
  unfold Coins_IsAnyNegative. rewrite (IsAnyNegative_spec coins Hv). cbn [mbind res_bind].
  pose proof (proj1 Hb eq_refl) as Hvc. rewrite bool_decide_false; [by split|].
  intros (c & Hc & Hn)%Exists_exists. destruct Hvc as (_ & Hp & _). rewrite Forall_forall in Hp.
  specialize (Hp c Hc). unfold positive in Hp. lia.
Qed.

Section Validation.
Context `{Bech32Lib}.

(** What the messages require: a sender, which need not be an address; a valid
    list of coins; a proposal with a title of at most 140 bytes that is not blank
    and a description of at most 5000; one of the four options.  A proposal
    without an [Any] makes the validation panic.  Whatever the sender, there is
    one signer: the address, or the empty one when the text cannot be decoded. *)
Theorem GovMsg_validation (m : GovMsg) :
  match m with
  | SubmitProposalMsg m' => Coins_wf (MsgSubmitProposal_InitialDeposit m') ->
      (GovMsg_ValidateBasic m = Ok tt <-> MsgSubmitProposal_Proposer m' <> "" /\ valid_coins (MsgSubmitProposal_InitialDeposit m') /\
        exists a tp, MsgSubmitProposal_Content m' = Some a /\ cachedValue a = Some tp /\ text_ok tp) /\
      (MsgSubmitProposal_Proposer m' <> "" -> valid_coins (MsgSubmitProposal_InitialDeposit m') -> MsgSubmitProposal_Content m' = None ->
        GovMsg_ValidateBasic m = Panic nil_deref)
  | DepositMsg m' => Coins_wf (MsgDeposit_Amount m') ->
      GovMsg_ValidateBasic m = Ok tt <-> MsgDeposit_Depositor m' <> "" /\ valid_coins (MsgDeposit_Amount m')
  | VoteMsg m' => GovMsg_ValidateBasic m = Ok tt <-> MsgVote_Voter m' <> "" /\ 1 <= MsgVote_Option m' <= 4
  end /\
  (forall a, AccAddressFromBech32 (GovMsg_Sender m) = Ok a -> GovMsg_GetSigners m = Ok [a]) /\
  (forall e, AccAddressFromBech32 (GovMsg_Sender m) = Err e -> GovMsg_GetSigners m = Ok [[]]).
Proof.
  split.
  2: { assert (GovMsg_GetSigners m = one_signer (GovMsg_Sender m)) as -> by (by destruct m).
       unfold one_signer, address_or_nil. by split; intros ? ->. }
  destruct m as [[c d p]|[i s a]|[i s o]]; cbn.
  - intros Hw. destruct (gov_check_deposit_spec d Hw) as [Hp Hd]. unfold MsgSubmitProposal_ValidateBasic, GetContent, content_of. cbn.
    split.
    + rewrite check_nonempty, (checked _ _ _ Hd). destruct c as [a|]; cbn; [|naive_solver].
      destruct (cachedValue a) as [tp|] eqn:Ec; cbn; [rewrite TextProposal_ValidateBasic_spec|]; naive_solver.
    + intros Hs Hv ->. rewrite bool_decide_false by done. rewrite (proj2 Hd Hv). done.
  - intros Hw. destruct (gov_check_deposit_spec a Hw) as [Hp Hd]. unfold MsgDeposit_ValidateBasic. cbn. by rewrite check_nonempty, Hd.
  - unfold MsgVote_ValidateBasic, ValidVoteOption. cbn. rewrite check_nonempty.
    assert (o ∈ [1; 2; 3; 4] <-> 1 <= o <= 4) as Ho by (rewrite !elem_of_cons, elem_of_nil; lia).
    case_bool_decide; cbn; naive_solver.
Qed.
End Validation.

#[local] Existing Instance toy_bech32.
Definition toy_proposal : MsgSubmitProposal :=
  MkMsgSubmitProposal (Some (MkAny "/x" [] [] (Some (MkTextProposal "title" "text")))) [coinV "plug" 5] "nobody".
Lemma GovMsg_validation_witness :
  GovMsg_ValidateBasic (SubmitProposalMsg toy_proposal) = Ok tt /\ GovMsg_GetSigners (SubmitProposalMsg toy_proposal) = Ok [[]].
Proof.
  assert (exists e, AccAddressFromBech32 "nobody" = Err e) as [e E] by (eexists; vm_compute; reflexivity).
  destruct (GovMsg_validation (SubmitProposalMsg toy_proposal)) as [Hv [_ Hs]]. split; [|exact (Hs e E)].
  apply Hv; [wf_coins|]. split_and!; [done| |].
  - split; [constructor; constructor|split; by repeat constructor].
  - eexists _, _. split; [reflexivity|split; [reflexivity|]].
    split_and!; [done|vm_compute; discriminate|done|vm_compute; discriminate].
Defined.
