(* ===== verification/Staking.v ===== *)
(** The messages of the staking module: [modules/staking/types.go] and their
    encodings ([modules/staking/tx.pb.go], [staking.pb.go]). *)
From S2P Require Import Prelude GoStrings BigText SdkInt SdkDec CoinSet CoinText Coins BitArray Wire Decoding Keys Multisig Address TxTypes TxProto Sigs TxBuilder Codec Messages.

Record CommissionRates := MkCommissionRates {
  CommissionRates_Rate : Dec; CommissionRates_MaxRate : Dec; CommissionRates_MaxChangeRate : Dec }.
Definition CommissionRates_Marshal (m : CommissionRates) : bytes :=
  let '(MkCommissionRates rate mr mcr) := m in put_bytes 10 (Dec_Marshal rate) (put_bytes 18 (Dec_Marshal mr) (put_bytes 26
    (Dec_Marshal mcr) [])).
Definition CommissionRates_Size (m : CommissionRates) : Z :=
  let '(MkCommissionRates rate mr mcr) := m in msg_size 1 (Dec_Size rate) + msg_size 1 (Dec_Size mr) + msg_size 1 (Dec_Size
    mcr).
Definition CommissionRates_field (m : CommissionRates) (num wt l : Z) (buf : bytes) :=
  let '(MkCommissionRates rate mr mcr) := m in
  if num =? 1 then get_msg (fun x => MkCommissionRates x mr mcr) (Dec_Unmarshal rate) wt l buf
  else if num =? 2 then get_msg (fun x => MkCommissionRates rate x mcr) (Dec_Unmarshal mr) wt l buf
  else if num =? 3 then get_msg (fun x => MkCommissionRates rate mr x) (Dec_Unmarshal mcr) wt l buf
  else None.
Definition empty_CommissionRates : CommissionRates := MkCommissionRates (MkDec None) (MkDec None) (MkDec None).
Definition CommissionRates_Unmarshal (m : CommissionRates) (dAtA : bytes) : res CommissionRates := unmarshal CommissionRates_field keep m dAtA.
Definition CommissionRates_ok (m : CommissionRates) : Prop :=
  let '(MkCommissionRates rate mr mcr) := m in dec_ok rate /\ dec_ok mr /\ dec_ok mcr.
#[export] Instance CommissionRates_codec : Codec CommissionRates := {|
  codec_empty := empty_CommissionRates; codec_Marshal := CommissionRates_Marshal; codec_Size := CommissionRates_Size;
  codec_Unmarshal := CommissionRates_Unmarshal; codec_ok := CommissionRates_ok |}.
#[export] Instance CommissionRates_laws : CodecLaws CommissionRates.
Proof. codec_laws. Qed.

Record Description := MkDescription {
  Description_Moniker : string; Description_Identity : string; Description_Website : string; Description_SecurityContact :
    string; Description_Details : string }.
Definition Description_Marshal (m : Description) : bytes :=
  let '(MkDescription moniker identity website sc details) := m in opt_bytes 10 (to_bytes moniker) (opt_bytes 18 (to_bytes
    identity) (opt_bytes 26 (to_bytes website) (opt_bytes 34 (to_bytes sc) (opt_bytes 42 (to_bytes details) [])))).
Definition Description_Size (m : Description) : Z :=
  let '(MkDescription moniker identity website sc details) := m in opt_bytes_size (to_bytes moniker) + opt_bytes_size (to_bytes
    identity) + opt_bytes_size (to_bytes website) + opt_bytes_size (to_bytes sc) + opt_bytes_size (to_bytes details).
Definition Description_field (m : Description) (num wt l : Z) (buf : bytes) :=
  let '(MkDescription moniker identity website sc details) := m in
  if num =? 1 then get_bytes (fun bs => MkDescription (bytes_str bs) identity website sc details) wt l buf
  else if num =? 2 then get_bytes (fun bs => MkDescription moniker (bytes_str bs) website sc details) wt l buf
  else if num =? 3 then get_bytes (fun bs => MkDescription moniker identity (bytes_str bs) sc details) wt l buf
  else if num =? 4 then get_bytes (fun bs => MkDescription moniker identity website (bytes_str bs) details) wt l buf
  else if num =? 5 then get_bytes (fun bs => MkDescription moniker identity website sc (bytes_str bs)) wt l buf
  else None.
Definition empty_Description : Description := MkDescription "" "" "" "" "".
Definition Description_Unmarshal (m : Description) (dAtA : bytes) : res Description := unmarshal Description_field keep m dAtA.
Definition Description_ok (m : Description) : Prop := let '(MkDescription moniker identity website sc details) := m in True.
#[export] Instance Description_codec : Codec Description := {|
  codec_empty := empty_Description; codec_Marshal := Description_Marshal; codec_Size := Description_Size;
  codec_Unmarshal := Description_Unmarshal; codec_ok := Description_ok |}.
#[export] Instance Description_laws : CodecLaws Description.
Proof. codec_laws. Qed.

Record MsgCreateValidator := MkMsgCreateValidator {
  MsgCreateValidator_Description : Description; MsgCreateValidator_Commission : CommissionRates;
    MsgCreateValidator_MinSelfDelegation : Int; MsgCreateValidator_DelegatorAddress : string;
    MsgCreateValidator_ValidatorAddress : string; MsgCreateValidator_Pubkey : option (Any PubKey); MsgCreateValidator_Value :
    Coin }.
Definition MsgCreateValidator_Marshal (m : MsgCreateValidator) : bytes :=
  let '(MkMsgCreateValidator descr commi msd da va pubkey value) := m in put_bytes 10 (Description_Marshal descr) (put_bytes 18
    (CommissionRates_Marshal commi) (put_bytes 26 (Int_Marshal msd) (opt_bytes 34 (to_bytes da) (opt_bytes 42 (to_bytes va)
    (opt_ptr 50 (Any_Marshal <$> pubkey) (put_bytes 58 (Coin_Marshal value) [])))))).
Definition MsgCreateValidator_Size (m : MsgCreateValidator) : Z :=
  let '(MkMsgCreateValidator descr commi msd da va pubkey value) := m in msg_size 1 (Description_Size descr) + msg_size 1
    (CommissionRates_Size commi) + msg_size 1 (Int_Size msd) + opt_bytes_size (to_bytes da) + opt_bytes_size (to_bytes va) +
    opt_size 1 (Any_Size <$> pubkey) + msg_size 1 (Coin_Size value).
Definition MsgCreateValidator_field (m : MsgCreateValidator) (num wt l : Z) (buf : bytes) :=
  let '(MkMsgCreateValidator descr commi msd da va pubkey value) := m in
  if num =? 1 then get_msg (fun x => MkMsgCreateValidator x commi msd da va pubkey value) (Description_Unmarshal descr) wt l buf
  else if num =? 2 then get_msg (fun x => MkMsgCreateValidator descr x msd da va pubkey value) (CommissionRates_Unmarshal
      commi) wt l buf
  else if num =? 3 then get_msg (fun x => MkMsgCreateValidator descr commi x da va pubkey value) (Int_Unmarshal msd) wt l buf
  else if num =? 4 then get_bytes (fun bs => MkMsgCreateValidator descr commi msd (bytes_str bs) va pubkey value) wt l buf
  else if num =? 5 then get_bytes (fun bs => MkMsgCreateValidator descr commi msd da (bytes_str bs) pubkey value) wt l buf
  else if num =? 6 then get_msg (fun x => MkMsgCreateValidator descr commi msd da va (Some x) value) (Any_Unmarshal (default
      empty_Any pubkey)) wt l buf
  else if num =? 7 then get_msg (fun x => MkMsgCreateValidator descr commi msd da va pubkey x) (Coin_Unmarshal value) wt l buf
  else None.
Definition empty_MsgCreateValidator : MsgCreateValidator := MkMsgCreateValidator empty_Description empty_CommissionRates (MkInt None) "" "" None empty_Coin.
Definition MsgCreateValidator_Unmarshal (m : MsgCreateValidator) (dAtA : bytes) : res MsgCreateValidator := unmarshal MsgCreateValidator_field keep m dAtA.
Definition MsgCreateValidator_ok (m : MsgCreateValidator) : Prop :=
  let '(MkMsgCreateValidator descr commi msd da va pubkey value) := m in Description_ok descr /\ CommissionRates_ok commi /\
    int_ok msd /\ from_option Any_ok True pubkey /\ coin_ok value.
#[export] Instance MsgCreateValidator_codec : Codec MsgCreateValidator := {|
  codec_empty := empty_MsgCreateValidator; codec_Marshal := MsgCreateValidator_Marshal; codec_Size := MsgCreateValidator_Size;
  codec_Unmarshal := MsgCreateValidator_Unmarshal; codec_ok := MsgCreateValidator_ok |}.
#[export] Instance MsgCreateValidator_laws : CodecLaws MsgCreateValidator.
Proof. codec_laws. Qed.

Record MsgEditValidator := MkMsgEditValidator {
  MsgEditValidator_Description : Description; MsgEditValidator_ValidatorAddress : string; MsgEditValidator_CommissionRate :
    option Dec; MsgEditValidator_MinSelfDelegation : option Int }.
Definition MsgEditValidator_Marshal (m : MsgEditValidator) : bytes :=
  let '(MkMsgEditValidator descr va cr msd) := m in put_bytes 10 (Description_Marshal descr) (opt_bytes 18 (to_bytes va)
    (opt_ptr 26 (Dec_Marshal <$> cr) (opt_ptr 34 (Int_Marshal <$> msd) []))).
Definition MsgEditValidator_Size (m : MsgEditValidator) : Z :=
  let '(MkMsgEditValidator descr va cr msd) := m in msg_size 1 (Description_Size descr) + opt_bytes_size (to_bytes va) +
    opt_size 1 (Dec_Size <$> cr) + opt_size 1 (Int_Size <$> msd).
Definition MsgEditValidator_field (m : MsgEditValidator) (num wt l : Z) (buf : bytes) :=
  let '(MkMsgEditValidator descr va cr msd) := m in
  if num =? 1 then get_msg (fun x => MkMsgEditValidator x va cr msd) (Description_Unmarshal descr) wt l buf
  else if num =? 2 then get_bytes (fun bs => MkMsgEditValidator descr (bytes_str bs) cr msd) wt l buf
  else if num =? 3 then get_msg (fun x => MkMsgEditValidator descr va (Some x) msd) (Dec_Unmarshal (MkDec None)) wt l buf
  else if num =? 4 then get_msg (fun x => MkMsgEditValidator descr va cr (Some x)) (Int_Unmarshal (MkInt None)) wt l buf
  else None.
Definition empty_MsgEditValidator : MsgEditValidator := MkMsgEditValidator empty_Description "" None None.
Definition MsgEditValidator_Unmarshal (m : MsgEditValidator) (dAtA : bytes) : res MsgEditValidator := unmarshal MsgEditValidator_field keep m dAtA.
Definition MsgEditValidator_ok (m : MsgEditValidator) : Prop :=
  let '(MkMsgEditValidator descr va cr msd) := m in Description_ok descr /\ from_option dec_ok True cr /\ from_option int_ok
    True msd.
#[export] Instance MsgEditValidator_codec : Codec MsgEditValidator := {|
  codec_empty := empty_MsgEditValidator; codec_Marshal := MsgEditValidator_Marshal; codec_Size := MsgEditValidator_Size;
  codec_Unmarshal := MsgEditValidator_Unmarshal; codec_ok := MsgEditValidator_ok |}.
#[export] Instance MsgEditValidator_laws : CodecLaws MsgEditValidator.
Proof. codec_laws. Qed.

Record MsgDelegate := MkMsgDelegate {
  MsgDelegate_DelegatorAddress : string; MsgDelegate_ValidatorAddress : string; MsgDelegate_Amount : Coin }.
Definition MsgDelegate_Marshal (m : MsgDelegate) : bytes :=
  let '(MkMsgDelegate da va amount) := m in opt_bytes 10 (to_bytes da) (opt_bytes 18 (to_bytes va) (put_bytes 26 (Coin_Marshal
    amount) [])).
Definition MsgDelegate_Size (m : MsgDelegate) : Z :=
  let '(MkMsgDelegate da va amount) := m in opt_bytes_size (to_bytes da) + opt_bytes_size (to_bytes va) + msg_size 1 (Coin_Size
    amount).
Definition MsgDelegate_field (m : MsgDelegate) (num wt l : Z) (buf : bytes) :=
  let '(MkMsgDelegate da va amount) := m in
  if num =? 1 then get_bytes (fun bs => MkMsgDelegate (bytes_str bs) va amount) wt l buf
  else if num =? 2 then get_bytes (fun bs => MkMsgDelegate da (bytes_str bs) amount) wt l buf
  else if num =? 3 then get_msg (fun x => MkMsgDelegate da va x) (Coin_Unmarshal amount) wt l buf
  else None.
Definition empty_MsgDelegate : MsgDelegate := MkMsgDelegate "" "" empty_Coin.
Definition MsgDelegate_Unmarshal (m : MsgDelegate) (dAtA : bytes) : res MsgDelegate := unmarshal MsgDelegate_field keep m dAtA.
Definition MsgDelegate_ok (m : MsgDelegate) : Prop := let '(MkMsgDelegate da va amount) := m in coin_ok amount.
#[export] Instance MsgDelegate_codec : Codec MsgDelegate := {|
  codec_empty := empty_MsgDelegate; codec_Marshal := MsgDelegate_Marshal; codec_Size := MsgDelegate_Size;
  codec_Unmarshal := MsgDelegate_Unmarshal; codec_ok := MsgDelegate_ok |}.
#[export] Instance MsgDelegate_laws : CodecLaws MsgDelegate.
Proof. codec_laws. Qed.

Record MsgBeginRedelegate := MkMsgBeginRedelegate {
  MsgBeginRedelegate_DelegatorAddress : string; MsgBeginRedelegate_ValidatorSrcAddress : string;
    MsgBeginRedelegate_ValidatorDstAddress : string; MsgBeginRedelegate_Amount : Coin }.
Definition MsgBeginRedelegate_Marshal (m : MsgBeginRedelegate) : bytes :=
  let '(MkMsgBeginRedelegate da vsa vda amount) := m in opt_bytes 10 (to_bytes da) (opt_bytes 18 (to_bytes vsa) (opt_bytes 26
    (to_bytes vda) (put_bytes 34 (Coin_Marshal amount) []))).
Definition MsgBeginRedelegate_Size (m : MsgBeginRedelegate) : Z :=
  let '(MkMsgBeginRedelegate da vsa vda amount) := m in opt_bytes_size (to_bytes da) + opt_bytes_size (to_bytes vsa) +
    opt_bytes_size (to_bytes vda) + msg_size 1 (Coin_Size amount).
Definition MsgBeginRedelegate_field (m : MsgBeginRedelegate) (num wt l : Z) (buf : bytes) :=
  let '(MkMsgBeginRedelegate da vsa vda amount) := m in
  if num =? 1 then get_bytes (fun bs => MkMsgBeginRedelegate (bytes_str bs) vsa vda amount) wt l buf
  else if num =? 2 then get_bytes (fun bs => MkMsgBeginRedelegate da (bytes_str bs) vda amount) wt l buf
  else if num =? 3 then get_bytes (fun bs => MkMsgBeginRedelegate da vsa (bytes_str bs) amount) wt l buf
  else if num =? 4 then get_msg (fun x => MkMsgBeginRedelegate da vsa vda x) (Coin_Unmarshal amount) wt l buf
  else None.
Definition empty_MsgBeginRedelegate : MsgBeginRedelegate := MkMsgBeginRedelegate "" "" "" empty_Coin.
Definition MsgBeginRedelegate_Unmarshal (m : MsgBeginRedelegate) (dAtA : bytes) : res MsgBeginRedelegate := unmarshal MsgBeginRedelegate_field keep m dAtA.
Definition MsgBeginRedelegate_ok (m : MsgBeginRedelegate) : Prop :=
  let '(MkMsgBeginRedelegate da vsa vda amount) := m in coin_ok amount.
#[export] Instance MsgBeginRedelegate_codec : Codec MsgBeginRedelegate := {|
  codec_empty := empty_MsgBeginRedelegate; codec_Marshal := MsgBeginRedelegate_Marshal; codec_Size := MsgBeginRedelegate_Size;
  codec_Unmarshal := MsgBeginRedelegate_Unmarshal; codec_ok := MsgBeginRedelegate_ok |}.
#[export] Instance MsgBeginRedelegate_laws : CodecLaws MsgBeginRedelegate.
Proof. codec_laws. Qed.

Record MsgUndelegate := MkMsgUndelegate {
  MsgUndelegate_DelegatorAddress : string; MsgUndelegate_ValidatorAddress : string; MsgUndelegate_Amount : Coin }.
Definition MsgUndelegate_Marshal (m : MsgUndelegate) : bytes :=
  let '(MkMsgUndelegate da va amount) := m in opt_bytes 10 (to_bytes da) (opt_bytes 18 (to_bytes va) (put_bytes 26
    (Coin_Marshal amount) [])).
Definition MsgUndelegate_Size (m : MsgUndelegate) : Z :=
  let '(MkMsgUndelegate da va amount) := m in opt_bytes_size (to_bytes da) + opt_bytes_size (to_bytes va) + msg_size 1
    (Coin_Size amount).
Definition MsgUndelegate_field (m : MsgUndelegate) (num wt l : Z) (buf : bytes) :=
  let '(MkMsgUndelegate da va amount) := m in
  if num =? 1 then get_bytes (fun bs => MkMsgUndelegate (bytes_str bs) va amount) wt l buf
  else if num =? 2 then get_bytes (fun bs => MkMsgUndelegate da (bytes_str bs) amount) wt l buf
  else if num =? 3 then get_msg (fun x => MkMsgUndelegate da va x) (Coin_Unmarshal amount) wt l buf
  else None.
Definition empty_MsgUndelegate : MsgUndelegate := MkMsgUndelegate "" "" empty_Coin.
Definition MsgUndelegate_Unmarshal (m : MsgUndelegate) (dAtA : bytes) : res MsgUndelegate := unmarshal MsgUndelegate_field keep m dAtA.
Definition MsgUndelegate_ok (m : MsgUndelegate) : Prop := let '(MkMsgUndelegate da va amount) := m in coin_ok amount.
#[export] Instance MsgUndelegate_codec : Codec MsgUndelegate := {|
  codec_empty := empty_MsgUndelegate; codec_Marshal := MsgUndelegate_Marshal; codec_Size := MsgUndelegate_Size;
  codec_Unmarshal := MsgUndelegate_Unmarshal; codec_ok := MsgUndelegate_ok |}.
#[export] Instance MsgUndelegate_laws : CodecLaws MsgUndelegate.
Proof. codec_laws. Qed.

(* ------------------------------------------------------------------ *)
(** * Operations *)
Section Operations.
Context `{B : Bech32Lib}.

(** [== (Description{})] compares the texts, [== (CommissionRates{})] the
    pointers of the decimals, which are nil in the empty value. *)
Definition Description_is_empty (d : Description) : bool :=
  let '(MkDescription moniker identity website contact details) := d in
  forallb (fun s => bool_decide (s = "")) [moniker; identity; website; contact; details].
Definition CommissionRates_is_empty (c : CommissionRates) : bool :=
  let '(MkCommissionRates rate max change) := c in
  forallb (fun d => match Dec_i d with None => true | Some _ => false end) [rate; max; change].

Definition MsgCreateValidator_GetSigners (msg : MsgCreateValidator) : res (list bytes) :=
  delAddr ← must (AccAddressFromBech32 (MsgCreateValidator_DelegatorAddress msg));
  addr ← must (ValAddressFromBech32 (MsgCreateValidator_ValidatorAddress msg));
  Ok (if bytes_Equal delAddr addr then [delAddr] else [delAddr; addr]).
Definition MsgCreateValidator_ValidateBasic (msg : MsgCreateValidator) : res unit :=
  delAddr ← AccAddressFromBech32 (MsgCreateValidator_DelegatorAddress msg);
  if Acc_Empty delAddr then Err "missing delegatorAddr" else
  if bool_decide (MsgCreateValidator_ValidatorAddress msg = "") then Err "missing validatorAddr" else
  valAddr ← ValAddressFromBech32 (MsgCreateValidator_ValidatorAddress msg);
  if negb (Acc_Equals valAddr delAddr)
  then Err "validatorAddr must equal delegatorAddr, validatorAddr:[%s], delegatorAddr:[%s]" else
  match MsgCreateValidator_Pubkey msg with
  | None => Err "missing validatorPubKey"
  | Some _ =>
      if Description_is_empty (MsgCreateValidator_Description msg) then Err "missing description" else
      if CommissionRates_is_empty (MsgCreateValidator_Commission msg) then Err "missing commission" else
      pos ← Int_IsPositive (MsgCreateValidator_MinSelfDelegation msg);
      if negb pos then Err "minSelfDelegation isn't positive" else Ok tt
  end.

Definition MsgEditValidator_GetSigners (msg : MsgEditValidator) : res (list bytes) :=
  valAddr ← must (ValAddressFromBech32 (MsgEditValidator_ValidatorAddress msg)); Ok [valAddr].
Definition MsgEditValidator_ValidateBasic (msg : MsgEditValidator) : res unit :=
  if bool_decide (MsgEditValidator_ValidatorAddress msg = "") then Err "missing validatorAddress" else
  if Description_is_empty (MsgEditValidator_Description msg) then Err "missing description" else
  match MsgEditValidator_MinSelfDelegation msg with
  | None => Ok tt
  | Some i => pos ← Int_IsPositive i; if negb pos then Err "minSelfDelegation isn't positive" else Ok tt
  end.

Definition not_positive {A} : res A := Err "amount isn't positive or valid".
Definition MsgDelegate_GetSigners (msg : MsgDelegate) : res (list bytes) :=
  delAddr ← must (AccAddressFromBech32 (MsgDelegate_DelegatorAddress msg)); Ok [delAddr].
Definition MsgDelegate_ValidateBasic (msg : MsgDelegate) : res unit :=
  if bool_decide (MsgDelegate_DelegatorAddress msg = "") then Err "missing delegatorAddress" else
  if bool_decide (MsgDelegate_ValidatorAddress msg = "") then Err "missing errEmptyValidatorAddr" else
  ok ← valid_positive (MsgDelegate_Amount msg); if negb ok then not_positive else Ok tt.

Definition MsgBeginRedelegate_GetSigners (msg : MsgBeginRedelegate) : res (list bytes) :=
  delAddr ← must (AccAddressFromBech32 (MsgBeginRedelegate_DelegatorAddress msg)); Ok [delAddr].
Definition MsgBeginRedelegate_ValidateBasic (msg : MsgBeginRedelegate) : res unit :=
  if bool_decide (MsgBeginRedelegate_DelegatorAddress msg = "") then Err "missing delegatorAddress" else
  if bool_decide (MsgBeginRedelegate_ValidatorSrcAddress msg = "") then Err "missing validatorSrcAddress" else
  if bool_decide (MsgBeginRedelegate_ValidatorDstAddress msg = "") then Err "missing validatorDstAddress" else
  ok ← valid_positive (MsgBeginRedelegate_Amount msg); if negb ok then not_positive else Ok tt.

Definition MsgUndelegate_GetSigners (msg : MsgUndelegate) : res (list bytes) :=
  delAddr ← must (AccAddressFromBech32 (MsgUndelegate_DelegatorAddress msg)); Ok [delAddr].
Definition MsgUndelegate_ValidateBasic (msg : MsgUndelegate) : res unit :=
  if bool_decide (MsgUndelegate_DelegatorAddress msg = "") then Err "missing delegatorAddr" else
  if bool_decide (MsgUndelegate_ValidatorAddress msg = "") then Err "missing validatorAddress" else
  ok ← valid_positive (MsgUndelegate_Amount msg); if negb ok then not_positive else Ok tt.
End Operations.

(** The module's messages as messages of a transaction. *)
Inductive StakingMsg :=
  | CreateValidatorMsg (m : MsgCreateValidator) | EditValidatorMsg (m : MsgEditValidator) | DelegateMsg (m : MsgDelegate)
  | BeginRedelegateMsg (m : MsgBeginRedelegate) | UndelegateMsg (m : MsgUndelegate).
Definition StakingMsg_Marshal (m : StakingMsg) : bytes :=
  match m with
  | CreateValidatorMsg m => codec_Marshal m | EditValidatorMsg m => codec_Marshal m | DelegateMsg m => codec_Marshal m
  | BeginRedelegateMsg m => codec_Marshal m | UndelegateMsg m => codec_Marshal m
  end.
Definition StakingMsg_GetSigners `{Bech32Lib} (m : StakingMsg) : res (list bytes) :=
  match m with
  | CreateValidatorMsg m => MsgCreateValidator_GetSigners m | EditValidatorMsg m => MsgEditValidator_GetSigners m
  | DelegateMsg m => MsgDelegate_GetSigners m | BeginRedelegateMsg m => MsgBeginRedelegate_GetSigners m
  | UndelegateMsg m => MsgUndelegate_GetSigners m
  end.
Definition StakingMsg_ValidateBasic `{Bech32Lib} (m : StakingMsg) : res unit :=
  match m with
  | CreateValidatorMsg m => MsgCreateValidator_ValidateBasic m | EditValidatorMsg m => MsgEditValidator_ValidateBasic m
  | DelegateMsg m => MsgDelegate_ValidateBasic m | BeginRedelegateMsg m => MsgBeginRedelegate_ValidateBasic m
  | UndelegateMsg m => MsgUndelegate_ValidateBasic m
  end.
#[export] Instance StakingMsg_msg `{Bech32Lib} : MsgInterface StakingMsg := {|
  msg_proto := {|
    MessageName m := "cosmos.staking.v1beta1." +:+
      match m with
      | CreateValidatorMsg _ => "MsgCreateValidator" | EditValidatorMsg _ => "MsgEditValidator" | DelegateMsg _ => "MsgDelegate"
      | BeginRedelegateMsg _ => "MsgBeginRedelegate" | UndelegateMsg _ => "MsgUndelegate"
      end;
    proto_Marshal m := Ok (StakingMsg_Marshal m) |};
  msg_GetSigners := StakingMsg_GetSigners;
|}.

(* ------------------------------------------------------------------ *)
(** * Encodings *)

(** The key of a new validator as another process sees it: without the value
    that was packed. *)
Definition clear_pubkey (m : MsgCreateValidator) : MsgCreateValidator :=
  let '(MkMsgCreateValidator d c msd da va p v) := m in MkMsgCreateValidator d c msd da va (ClearCachedValue <$> p) v.
(** Messages whose fields are within their types, with amounts that are present. *)
Definition StakingMsg_wf (m : StakingMsg) : Prop :=
  match m with
  | CreateValidatorMsg m => codec_ok (clear_pubkey m) | EditValidatorMsg m => codec_ok m | DelegateMsg m => codec_ok m
  | BeginRedelegateMsg m => codec_ok m | UndelegateMsg m => codec_ok m
  end.
(** Decoding [dAtA] into the empty message. *)
Definition StakingMsg_decodes_to (m : StakingMsg) (dAtA : bytes) : Prop :=
  match m with
  | CreateValidatorMsg m => MsgCreateValidator_Unmarshal empty_MsgCreateValidator dAtA = Ok (clear_pubkey m)
  | EditValidatorMsg m => MsgEditValidator_Unmarshal empty_MsgEditValidator dAtA = Ok m
  | DelegateMsg m => MsgDelegate_Unmarshal empty_MsgDelegate dAtA = Ok m
  | BeginRedelegateMsg m => MsgBeginRedelegate_Unmarshal empty_MsgBeginRedelegate dAtA = Ok m
  | UndelegateMsg m => MsgUndelegate_Unmarshal empty_MsgUndelegate dAtA = Ok m
  end.

Lemma Marshal_clear_pubkey m : MsgCreateValidator_Marshal (clear_pubkey m) = MsgCreateValidator_Marshal m.
Proof. by destruct m as [? ? ? ? ? [[]|] ?]. Qed.

(** The messages are decoded to themselves; only the value cached with the key
    of a new validator stays behind. *)
Lemma StakingMsg_decodes m : StakingMsg_wf m -> Z.of_nat (length (StakingMsg_Marshal m)) < 2 ^ 62 ->
  StakingMsg_decodes_to m (StakingMsg_Marshal m).
Proof.
  destruct m as [m|m|m|m|m]; intros Hw H62; try exact (codec_decodes m Hw H62).
  cbn in *. rewrite <-Marshal_clear_pubkey in *. exact (codec_decodes (clear_pubkey m) Hw H62).
Qed.

(* ------------------------------------------------------------------ *)
(** * Validation *)
Section Validation.
Context `{Bech32Lib}.

Lemma check_amount c : coin_ok c ->
  (ok ← valid_positive c; if negb ok then not_positive else Ok tt) = Ok tt <-> denom_ok c /\ positive c.
Proof. intros Hc. destruct (valid_positive_spec c Hc) as ([] & -> & Hb); cbn; unfold not_positive; naive_solver. Qed.
Lemma check_int i (e : string) : int_ok i ->
  (pos ← Int_IsPositive i; if negb pos then Err e else Ok tt) = Ok tt <-> exists z, i = IntV z /\ 0 < z.
Proof.
  intros (z & -> & _). unfold Int_IsPositive, Sign. cbn. rewrite (proj2 (proj2 (sgn_tests z))).
  destruct (Z.ltb_spec 0 z); cbn; naive_solver lia.
Qed.
Lemma Description_is_empty_spec d : Description_is_empty d = true <-> d = empty_Description.
Proof.
  destruct d as [a b c d e]. cbn. rewrite !andb_true_iff, !bool_decide_eq_true. unfold empty_Description. naive_solver.
Qed.
Lemma check_description d (e : string) (r : res unit) :
  (if Description_is_empty d then Err e else r) = Ok tt <-> d <> empty_Description /\ r = Ok tt.
Proof. pose proof (Description_is_empty_spec d). destruct (Description_is_empty d); naive_solver. Qed.
Lemma commission_present c : CommissionRates_ok c -> CommissionRates_is_empty c = false.
Proof. destruct c as [rate max change]. intros ((z & -> & _) & _). done. Qed.
(** Account and validator addresses have the same prefix. *)
Lemma Val_Acc s : ValAddressFromBech32 s = AccAddressFromBech32 s.
Proof. done. Qed.

(** One address of the account kind signs; a text that is none makes
    [GetSigners] panic. *)
Definition signs (m : StakingMsg) (address : string) : Prop :=
  StakingMsg_GetSigners m = (a ← must (AccAddressFromBech32 address); Ok [a]).

(** What the messages require, and who signs them.  A new validator needs an
    account address that is its own operator address, a key, a description and a
    positive minimal self delegation; an edited one a description.  Delegations
    need non-empty addresses, which need not be addresses at all, and a positive
    amount.  One account has to sign: of a valid message for a new validator its
    delegator, of the others the address they name, and [GetSigners] panics when
    it cannot be decoded. *)
Theorem StakingMsg_validation (m : StakingMsg) : StakingMsg_wf m ->
  match m with
  | CreateValidatorMsg m' =>
      (StakingMsg_ValidateBasic m = Ok tt <->
        exists a, AccAddressFromBech32 (MsgCreateValidator_DelegatorAddress m') = Ok a /\ a <> [] /\
        ValAddressFromBech32 (MsgCreateValidator_ValidatorAddress m') = Ok a /\ MsgCreateValidator_Pubkey m' <> None /\
        MsgCreateValidator_Description m' <> empty_Description /\
        exists z, MsgCreateValidator_MinSelfDelegation m' = IntV z /\ 0 < z) /\
      (StakingMsg_ValidateBasic m = Ok tt -> signs m (MsgCreateValidator_DelegatorAddress m'))
  | EditValidatorMsg m' =>
      (StakingMsg_ValidateBasic m = Ok tt <->
        MsgEditValidator_ValidatorAddress m' <> "" /\ MsgEditValidator_Description m' <> empty_Description /\
        (MsgEditValidator_MinSelfDelegation m' = None \/
         exists z, MsgEditValidator_MinSelfDelegation m' = Some (IntV z) /\ 0 < z)) /\
      signs m (MsgEditValidator_ValidatorAddress m')
  | DelegateMsg m' =>
      (StakingMsg_ValidateBasic m = Ok tt <->
        MsgDelegate_DelegatorAddress m' <> "" /\ MsgDelegate_ValidatorAddress m' <> "" /\
        denom_ok (MsgDelegate_Amount m') /\ positive (MsgDelegate_Amount m')) /\
      signs m (MsgDelegate_DelegatorAddress m')
  | BeginRedelegateMsg m' =>
      (StakingMsg_ValidateBasic m = Ok tt <->
        MsgBeginRedelegate_DelegatorAddress m' <> "" /\ MsgBeginRedelegate_ValidatorSrcAddress m' <> "" /\
        MsgBeginRedelegate_ValidatorDstAddress m' <> "" /\
        denom_ok (MsgBeginRedelegate_Amount m') /\ positive (MsgBeginRedelegate_Amount m')) /\
      signs m (MsgBeginRedelegate_DelegatorAddress m')
  | UndelegateMsg m' =>
      (StakingMsg_ValidateBasic m = Ok tt <->
        MsgUndelegate_DelegatorAddress m' <> "" /\ MsgUndelegate_ValidatorAddress m' <> "" /\
        denom_ok (MsgUndelegate_Amount m') /\ positive (MsgUndelegate_Amount m')) /\
      signs m (MsgUndelegate_DelegatorAddress m')
  end.
Proof.
  destruct m as [[d c msd da va p v]|[d va cr msd]|[da va am]|[da vs vd am]|[da va am]]; cbn [StakingMsg_wf]; intros Hw;
    (split; [|try exact eq_refl]).
  - unfold StakingMsg_ValidateBasic, MsgCreateValidator_ValidateBasic. cbn. cbn in Hw. destruct Hw as (_ & Hc & Hi & _).
    rewrite (commission_present c Hc). rewrite Val_Acc. destruct (AccAddressFromBech32 da) as [a| |]; cbn; [|naive_solver..].
    unfold Acc_Empty, bytes_Equal. case_bool_decide as Ha; cbn; [naive_solver|]. rewrite check_nonempty.
    destruct (AccAddressFromBech32 va) as [a'| |] eqn:Ev; cbn; [|naive_solver..].
    unfold Acc_Equals, Acc_Empty, bytes_Equal. rewrite (bool_decide_false _ Ha), andb_false_r.
    case_bool_decide as Haa; cbn; [|naive_solver]. destruct p; [|naive_solver]. rewrite check_description, check_int by done.
    assert (va <> "") by (intros ->; discriminate Ev). naive_solver.
  - unfold StakingMsg_ValidateBasic, MsgCreateValidator_ValidateBasic, signs. cbn. unfold MsgCreateValidator_GetSigners. cbn.
    rewrite !Val_Acc. destruct (AccAddressFromBech32 da) as [a| |]; cbn; [|done..].
    unfold Acc_Empty, bytes_Equal. case_bool_decide as Ha; cbn; [done|]. rewrite check_nonempty. intros [_ Hv]. revert Hv.
    destruct (AccAddressFromBech32 va) as [a'| |] eqn:Ev; cbn; [|done..].
    unfold Acc_Equals, Acc_Empty, bytes_Equal. rewrite (bool_decide_false _ Ha), andb_false_r.
    case_bool_decide as Haa; cbn; [|done]. subst a'. by rewrite bool_decide_true.
  - unfold StakingMsg_ValidateBasic, MsgEditValidator_ValidateBasic. cbn. rewrite check_nonempty, check_description.
    destruct msd as [i|]; [|naive_solver]. cbn in Hw. rewrite check_int by apply Hw. naive_solver.
  - unfold StakingMsg_ValidateBasic, MsgDelegate_ValidateBasic. cbn. by rewrite !check_nonempty, check_amount.
  - unfold StakingMsg_ValidateBasic, MsgBeginRedelegate_ValidateBasic. cbn. by rewrite !check_nonempty, check_amount.
  - unfold StakingMsg_ValidateBasic, MsgUndelegate_ValidateBasic. cbn. by rewrite !check_nonempty, check_amount.
Qed.
End Validation.

#[local] Existing Instance toy_bech32.
Definition toy_delegate : MsgDelegate := MkMsgDelegate some_address "nobody" (coinV "plug" 5).
Lemma StakingMsg_validation_witness :
  StakingMsg_ValidateBasic (DelegateMsg toy_delegate) = Ok tt /\
  StakingMsg_GetSigners (DelegateMsg toy_delegate) = Ok [[18; 255]].
Proof.
  destruct (StakingMsg_validation (DelegateMsg toy_delegate)) as [Hv Hs]; [exists 5; split; [done|by vm_compute]|]. split.
  - by apply Hv.
  - rewrite Hs. vm_compute. reflexivity.
Defined.

