(* ===== verification/Delegations.v ===== *)
(** Delegations and their entries: [modules/staking/delegation.go], and the
    messages of [modules/staking/staking.pb.go] it works on. *)
From S2P Require Import Prelude GoStrings SdkInt SdkDec CoinSet Coins BitArray Wire Decoding Keys Multisig Address TxTypes TxProto Codec.

Record Delegation := MkDelegation {
  Delegation_DelegatorAddress : string; Delegation_ValidatorAddress : string; Delegation_Shares : Dec }.
Definition Delegation_Marshal (m : Delegation) : bytes :=
  let '(MkDelegation da va shares) := m in opt_bytes 10 (to_bytes da) (opt_bytes 18 (to_bytes va) (put_bytes 26 (Dec_Marshal
    shares) [])).
Definition Delegation_Size (m : Delegation) : Z :=
  let '(MkDelegation da va shares) := m in opt_bytes_size (to_bytes da) + opt_bytes_size (to_bytes va) + msg_size 1 (Dec_Size
    shares).
Definition Delegation_field (m : Delegation) (num wt l : Z) (buf : bytes) :=
  let '(MkDelegation da va shares) := m in
  if num =? 1 then get_bytes (fun bs => MkDelegation (bytes_str bs) va shares) wt l buf
  else if num =? 2 then get_bytes (fun bs => MkDelegation da (bytes_str bs) shares) wt l buf
  else if num =? 3 then get_msg (fun x => MkDelegation da va x) (Dec_Unmarshal shares) wt l buf
  else None.
Definition empty_Delegation : Delegation := MkDelegation "" "" (MkDec None).
Definition Delegation_Unmarshal (m : Delegation) (dAtA : bytes) : res Delegation := unmarshal Delegation_field keep m dAtA.
Definition Delegation_ok (m : Delegation) : Prop := let '(MkDelegation da va shares) := m in dec_ok shares.
#[export] Instance Delegation_codec : Codec Delegation := {|
  codec_empty := empty_Delegation; codec_Marshal := Delegation_Marshal; codec_Size := Delegation_Size;
  codec_Unmarshal := Delegation_Unmarshal; codec_ok := Delegation_ok |}.
#[export] Instance Delegation_laws : CodecLaws Delegation.
Proof. codec_laws. Qed.

Record DelegationResponse := MkDelegationResponse {
  DelegationResponse_Delegation : Delegation; DelegationResponse_Balance : Coin }.
Definition DelegationResponse_Marshal (m : DelegationResponse) : bytes :=
  let '(MkDelegationResponse deleg balance) := m in put_bytes 10 (Delegation_Marshal deleg) (put_bytes 18 (Coin_Marshal
    balance) []).
Definition DelegationResponse_Size (m : DelegationResponse) : Z :=
  let '(MkDelegationResponse deleg balance) := m in msg_size 1 (Delegation_Size deleg) + msg_size 1 (Coin_Size balance).
Definition DelegationResponse_field (m : DelegationResponse) (num wt l : Z) (buf : bytes) :=
  let '(MkDelegationResponse deleg balance) := m in
  if num =? 1 then get_msg (fun x => MkDelegationResponse x balance) (Delegation_Unmarshal deleg) wt l buf
  else if num =? 2 then get_msg (fun x => MkDelegationResponse deleg x) (Coin_Unmarshal balance) wt l buf
  else None.
Definition empty_DelegationResponse : DelegationResponse := MkDelegationResponse empty_Delegation empty_Coin.
Definition DelegationResponse_Unmarshal (m : DelegationResponse) (dAtA : bytes) : res DelegationResponse := unmarshal DelegationResponse_field keep m dAtA.
Definition DelegationResponse_ok (m : DelegationResponse) : Prop :=
  let '(MkDelegationResponse deleg balance) := m in Delegation_ok deleg /\ coin_ok balance.
#[export] Instance DelegationResponse_codec : Codec DelegationResponse := {|
  codec_empty := empty_DelegationResponse; codec_Marshal := DelegationResponse_Marshal; codec_Size := DelegationResponse_Size;
  codec_Unmarshal := DelegationResponse_Unmarshal; codec_ok := DelegationResponse_ok |}.
#[export] Instance DelegationResponse_laws : CodecLaws DelegationResponse.
Proof. codec_laws. Qed.

Record StakingPool := MkStakingPool { StakingPool_NotBondedTokens : Int; StakingPool_BondedTokens : Int }.
Definition StakingPool_Marshal (m : StakingPool) : bytes :=
  let '(MkStakingPool nbt bt) := m in put_bytes 10 (Int_Marshal nbt) (put_bytes 18 (Int_Marshal bt) []).
Definition StakingPool_Size (m : StakingPool) : Z :=
  let '(MkStakingPool nbt bt) := m in msg_size 1 (Int_Size nbt) + msg_size 1 (Int_Size bt).
Definition StakingPool_field (m : StakingPool) (num wt l : Z) (buf : bytes) :=
  let '(MkStakingPool nbt bt) := m in
  if num =? 1 then get_msg (fun x => MkStakingPool x bt) (Int_Unmarshal nbt) wt l buf
  else if num =? 2 then get_msg (fun x => MkStakingPool nbt x) (Int_Unmarshal bt) wt l buf
  else None.
Definition empty_StakingPool : StakingPool := MkStakingPool (MkInt None) (MkInt None).
Definition StakingPool_Unmarshal (m : StakingPool) (dAtA : bytes) : res StakingPool := unmarshal StakingPool_field keep m dAtA.
Definition StakingPool_ok (m : StakingPool) : Prop := let '(MkStakingPool nbt bt) := m in int_ok nbt /\ int_ok bt.
#[export] Instance StakingPool_codec : Codec StakingPool := {|
  codec_empty := empty_StakingPool; codec_Marshal := StakingPool_Marshal; codec_Size := StakingPool_Size;
  codec_Unmarshal := StakingPool_Unmarshal; codec_ok := StakingPool_ok |}.
#[export] Instance StakingPool_laws : CodecLaws StakingPool.
Proof. codec_laws. Qed.

(* ------------------------------------------------------------------ *)
(** * Data with times *)

(** [time.Time] and [time.Duration], in nanoseconds. *)
Definition Time : Type := Z.

Record UnbondingDelegationEntry := MkUBE { ube_CreationHeight : Z; ube_CompletionTime : Time; ube_InitialBalance : Int; ube_Balance : Int }.
Record UnbondingDelegation := MkUBD { ubd_DelegatorAddress : string; ubd_ValidatorAddress : string; ubd_Entries : list UnbondingDelegationEntry }.
Record RedelegationEntry := MkREDE { rede_CreationHeight : Z; rede_CompletionTime : Time; rede_InitialBalance : Int; rede_SharesDst : Dec }.
Record Redelegation := MkRED {
  red_DelegatorAddress : string; red_ValidatorSrcAddress : string; red_ValidatorDstAddress : string; red_Entries : list RedelegationEntry }.
Record RedelegationEntryResponse := MkREDER { reder_RedelegationEntry : RedelegationEntry; reder_Balance : Int }.
Record RedelegationResponse := MkREDR { redr_Redelegation : Redelegation; redr_Entries : list RedelegationEntryResponse }.

(* ------------------------------------------------------------------ *)
(** * Operations *)
Section Operations.
Context `{B : Bech32Lib}.

Definition NewDelegation (delegatorAddr validatorAddr : bytes) (shares : Dec) : res Delegation :=
  d ← Acc_String delegatorAddr; v ← Val_String validatorAddr; Ok (MkDelegation d v shares).
Definition GetDelegatorAddr (d : Delegation) : res bytes := must (AccAddressFromBech32 (Delegation_DelegatorAddress d)).
Definition GetValidatorAddr (d : Delegation) : res bytes := must (ValAddressFromBech32 (Delegation_ValidatorAddress d)).
Definition NewDelegationResp (delegatorAddr validatorAddr : bytes) (shares : Dec) (balance : Coin) : res DelegationResponse :=
  d ← NewDelegation delegatorAddr validatorAddr shares; Ok (MkDelegationResponse d balance).

Definition NewUnbondingDelegationEntry (creationHeight : Z) (completionTime : Time) (balance : Int) : UnbondingDelegationEntry :=
  MkUBE creationHeight completionTime balance balance.
Definition NewUnbondingDelegation (delegatorAddr validatorAddr : bytes) (creationHeight : Z) (minTime : Time) (balance : Int)
    : res UnbondingDelegation :=
  d ← Acc_String delegatorAddr; v ← Val_String validatorAddr;
  Ok (MkUBD d v [NewUnbondingDelegationEntry creationHeight minTime balance]).
Definition NewRedelegationEntry (creationHeight : Z) (completionTime : Time) (balance : Int) (sharesDst : Dec) : RedelegationEntry :=
  MkREDE creationHeight completionTime balance sharesDst.
Definition NewRedelegation (delegatorAddr validatorSrcAddr validatorDstAddr : bytes) (creationHeight : Z) (minTime : Time)
    (balance : Int) (sharesDst : Dec) : res Redelegation :=
  d ← Acc_String delegatorAddr; s ← Val_String validatorSrcAddr; v ← Val_String validatorDstAddr;
  Ok (MkRED d s v [NewRedelegationEntry creationHeight minTime balance sharesDst]).
Definition NewRedelegationResponse (delegatorAddr validatorSrc validatorDst : bytes) (entries : list RedelegationEntryResponse)
    : res RedelegationResponse :=
  d ← Acc_String delegatorAddr; s ← Val_String validatorSrc; v ← Val_String validatorDst;
  Ok (MkREDR (MkRED d s v []) entries).
Definition NewRedelegationEntryResponse (creationHeight : Z) (completionTime : Time) (sharesDst : Dec) (initialBalance balance : Int)
    : RedelegationEntryResponse :=
  MkREDER (NewRedelegationEntry creationHeight completionTime initialBalance sharesDst) balance.
End Operations.

(** [!e.CompletionTime.After(currentTime)] *)
Definition UBE_IsMature (e : UnbondingDelegationEntry) (currentTime : Time) : bool := negb (currentTime <? ube_CompletionTime e).
Definition REDE_IsMature (e : RedelegationEntry) (currentTime : Time) : bool := negb (currentTime <? rede_CompletionTime e).

Definition UBD_AddEntry (ubd : UnbondingDelegation) (creationHeight : Z) (minTime : Time) (balance : Int) : UnbondingDelegation :=
  MkUBD (ubd_DelegatorAddress ubd) (ubd_ValidatorAddress ubd) (ubd_Entries ubd ++ [NewUnbondingDelegationEntry creationHeight minTime balance]).
Definition RED_AddEntry (red : Redelegation) (creationHeight : Z) (minTime : Time) (balance : Int) (sharesDst : Dec) : Redelegation :=
  MkRED (red_DelegatorAddress red) (red_ValidatorSrcAddress red) (red_ValidatorDstAddress red)
    (red_Entries red ++ [NewRedelegationEntry creationHeight minTime balance sharesDst]).

(** [append(s[:i], s[i+1:]...)]: the slice that is returned, and what the slice
    [s] holds afterwards, since the elements are moved within its array.  [i+1]
    wraps, and slicing beyond the length panics. *)
Definition remove_index {A} (s : list A) (i : Z) : res (list A * list A) :=
  let j := wrap_i64 (i + 1) in
  if (i <? 0) || (j <? 0) || (Z.of_nat (length s) <? j) then Panic "slice bounds out of range"
  else Ok (take (Z.to_nat i) s ++ drop (Z.to_nat j) s, slice_remove s (Z.to_nat i) (length s)).
Definition UBD_RemoveEntry (ubd : UnbondingDelegation) (i : Z) : res (UnbondingDelegation * list UnbondingDelegationEntry) :=
  '(entries, before) ← remove_index (ubd_Entries ubd) i;
  Ok (MkUBD (ubd_DelegatorAddress ubd) (ubd_ValidatorAddress ubd) entries, before).
Definition RED_RemoveEntry (red : Redelegation) (i : Z) : res (Redelegation * list RedelegationEntry) :=
  '(entries, before) ← remove_index (red_Entries red) i;
  Ok (MkRED (red_DelegatorAddress red) (red_ValidatorSrcAddress red) (red_ValidatorDstAddress red) entries, before).

(* ------------------------------------------------------------------ *)
(** * Properties *)

Section RemoveIndex.
Context {A : Type}.
Implicit Types (s : list A) (i : Z).

(** Removing inside the bounds deletes one element and keeps the order of the
    others; the caller's slice sees them moved, with the last one twice. *)
Lemma remove_index_in s i : 0 <= i < Z.of_nat (length s) -> Z.of_nat (length s) < 2 ^ 63 ->
  remove_index s i = Ok (delete (Z.to_nat i) s, delete (Z.to_nat i) s ++ drop (length s - 1) s).
Proof.
  intros Hi Hs. unfold remove_index. rewrite wrap_i64_id by (unfold is_int64; change (2 ^ 63) with 9223372036854775808 in *; lia).
  rewrite (proj2 (Z.ltb_ge i 0)), (proj2 (Z.ltb_ge (i + 1) 0)), (proj2 (Z.ltb_ge _ (i + 1))) by lia. cbn [orb].
  replace (Z.to_nat (i + 1)) with (S (Z.to_nat i)) by lia. rewrite delete_take_drop. unfold slice_remove.
  rewrite (take_ge (drop (S (Z.to_nat i)) s)) by (rewrite length_drop; lia). by rewrite app_assoc.
Qed.
Lemma remove_index_out s i : is_int64 i -> Z.of_nat (length s) < 2 ^ 63 ->
  i < 0 \/ Z.of_nat (length s) <= i -> remove_index s i = Panic "slice bounds out of range".
Proof.
  intros Hi Hs Ho. unfold remove_index. destruct (Z.ltb_spec i 0); [done|].
  destruct (Z.eq_dec i (2 ^ 63 - 1)) as [->|Hne]; [done|].
  rewrite wrap_i64_id by (unfold is_int64 in *; change (2 ^ 63) with 9223372036854775808 in *; lia).
  rewrite (proj2 (Z.ltb_lt (Z.of_nat (length s)) (i + 1))) by lia. by rewrite orb_true_r.
Qed.
Lemma remove_index_last s x : Z.of_nat (length s) < 2 ^ 63 - 1 ->
  remove_index (s ++ [x]) (Z.of_nat (length s)) = Ok (s, s ++ [x]).
Proof.
  intros Hs. rewrite remove_index_in by (rewrite length_app; cbn; lia). rewrite Nat2Z.id.
  assert (delete (length s) (s ++ [x]) = s) as Hd.
  { rewrite delete_take_drop, take_app_length, drop_ge by (rewrite length_app; cbn; lia). apply app_nil_r. }
  rewrite Hd. rewrite length_app. cbn [length]. replace (length s + 1 - 1)%nat with (length s) by lia. by rewrite drop_app_length.
Qed.
End RemoveIndex.

(** The entries of an unbonding delegation (those of a redelegation are kept by
    the same code).  An entry that was added last is taken off again by removing
    at the old length.  Removing inside the bounds deletes that entry, keeps the
    order of the others, and moves them within the array, so that a copy of the
    slice made before holds the last entry twice; outside of the bounds it
    panics.  An entry is mature from its completion time on. *)
Theorem unbonding_entries (ubd : UnbondingDelegation) i height time balance now :
  is_int64 i -> Z.of_nat (length (ubd_Entries ubd)) < 2 ^ 63 - 1 ->
  (exists before, UBD_RemoveEntry (UBD_AddEntry ubd height time balance) (Z.of_nat (length (ubd_Entries ubd))) = Ok (ubd, before)) /\
  (0 <= i < Z.of_nat (length (ubd_Entries ubd)) ->
   UBD_RemoveEntry ubd i =
     Ok (MkUBD (ubd_DelegatorAddress ubd) (ubd_ValidatorAddress ubd) (delete (Z.to_nat i) (ubd_Entries ubd)),
         delete (Z.to_nat i) (ubd_Entries ubd) ++ drop (length (ubd_Entries ubd) - 1) (ubd_Entries ubd))) /\
  (i < 0 \/ Z.of_nat (length (ubd_Entries ubd)) <= i -> UBD_RemoveEntry ubd i = Panic "slice bounds out of range") /\
  (UBE_IsMature (NewUnbondingDelegationEntry height time balance) now = true <-> time <= now).
Proof.
  intros Hi Hl. unfold UBD_RemoveEntry, UBD_AddEntry. cbn [ubd_Entries ubd_DelegatorAddress ubd_ValidatorAddress]. split_and!.
  - rewrite remove_index_last by done. cbn. eexists. f_equal. f_equal. by destruct ubd.
  - intros Hin. by rewrite remove_index_in by lia.
  - intros Ho. by rewrite remove_index_out by (done || lia).
  - unfold UBE_IsMature. cbn. destruct (Z.ltb_spec now time); cbn; split; try done; lia.
Qed.

Definition toy_unbonding : UnbondingDelegation :=
  MkUBD "gx1d" "gx1v" [MkUBE 1 100 (IntV 5) (IntV 5); MkUBE 2 200 (IntV 6) (IntV 6); MkUBE 3 300 (IntV 7) (IntV 7)].
Lemma unbonding_entries_witness :
  UBD_RemoveEntry toy_unbonding 0 =
    Ok (MkUBD "gx1d" "gx1v" [MkUBE 2 200 (IntV 6) (IntV 6); MkUBE 3 300 (IntV 7) (IntV 7)],
        [MkUBE 2 200 (IntV 6) (IntV 6); MkUBE 3 300 (IntV 7) (IntV 7); MkUBE 3 300 (IntV 7) (IntV 7)]).
Proof. apply (unbonding_entries toy_unbonding 0 1 1 (IntV 1) 1); [done|done|by vm_compute]. Defined.
