(* ===== verification/StakingAnswers.v ===== *)
(** The answers of the staking module's queries and their conversion:
    [modules/staking/types.go], [export.go]. *)
From S2P Require Import Prelude GoStrings SdkInt SdkDec CoinSet Coins BitArray Wire Decoding Keys Multisig Address TxTypes TxProto Sigs Codec Pagination Messages Staking Delegations.

(* ------------------------------------------------------------------ *)
(** * Answers of the node *)

Record Commission := MkCommission { com_CommissionRates : CommissionRates; com_UpdateTime : Time }.
Record Validator := MkValidator {
  val_OperatorAddress : string; val_ConsensusPubkey : option (Any PubKey); val_Jailed : bool; val_Status : Z; val_Tokens : Int;
  val_DelegatorShares : Dec; val_Description : Description; val_UnbondingHeight : Z; val_UnbondingTime : Time;
  val_Commission : Commission; val_MinSelfDelegation : Int }.
Record StakingParams := MkStakingParams {
  sp_UnbondingTime : Time; sp_MaxValidators : Z; sp_MaxEntries : Z; sp_HistoricalEntries : Z; sp_BondDenom : string }.
(** The parts of a block header; [BlockID] is the hash of the block and its parts. *)
Record PartSetHeader := MkPartSetHeader { psh_Total : Z; psh_Hash : bytes }.
Record BlockID := MkBlockID { bid_Hash : bytes; bid_PartSetHeader : PartSetHeader }.
Record Header := MkHeader {
  hdr_Version : Z * Z; hdr_ChainID : string; hdr_Height : Z; hdr_Time : Time; hdr_LastBlockID : BlockID;
  hdr_LastCommitHash : bytes; hdr_DataHash : bytes; hdr_ValidatorsHash : bytes; hdr_NextValidatorsHash : bytes;
  hdr_ConsensusHash : bytes; hdr_AppHash : bytes; hdr_LastResultsHash : bytes; hdr_EvidenceHash : bytes; hdr_ProposerAddress : bytes }.
Record HistoricalInfo := MkHistoricalInfo { hist_Header : Header; hist_Valset : list Validator }.

(** A list of answers with its page; nil is [None]. *)
Record Listed (A : Type) := MkListed { listed : list A; l_Pagination : option PageResponse }.
Arguments MkListed {_} _ _.
Arguments listed {_} _.
Arguments l_Pagination {_} _.

(* ------------------------------------------------------------------ *)
(** * Converted answers *)

Record description := Mk_description {
  d_Moniker : string; d_Identity : string; d_Website : string; d_SecurityContact : string; d_Details : string }.
Record commissionRates := Mk_commissionRates { cr_Rate : Dec; cr_MaxRate : Dec; cr_MaxChangeRate : Dec }.
Record commission := Mk_commission { c_commissionRates : commissionRates; c_UpdateTime : Time }.
Record QueryValidatorResp := MkQueryValidatorResp {
  vr_OperatorAddress : string; vr_ConsensusPubkey : string; vr_Jailed : bool; vr_Status : string; vr_Tokens : Int;
  vr_DelegatorShares : Dec; vr_Description : description; vr_UnbondingHeight : Z; vr_UnbondingTime : Time;
  vr_Commission : commission; vr_MinSelfDelegation : Int }.
(** The answers that are a list and a total. *)
Record Totalled (A : Type) := MkTotalled { resps : list A; Total : Z }.
Arguments MkTotalled {_} _ _.
Arguments resps {_} _.
Arguments Total {_} _.
Record delegation := Mk_delegation { dl_DelegatorAddress : string; dl_Shares : Dec; dl_ValidatorAddress : string }.
Record QueryDelegationResp := MkQueryDelegationResp { qd_Delegation : delegation; qd_Balance : Coin }.
Record unbondingDelegationEntry := Mk_ube { e_CreationHeight : Z; e_CompletionTime : Time; e_InitialBalance : Int; e_Balance : Int }.
Record QueryUnbondingDelegationResp := MkQueryUBD {
  qu_DelegatorAddress : string; qu_ValidatorAddress : string; qu_Entries : list unbondingDelegationEntry }.
Record redelegationEntry := Mk_rede { re_CreationHeight : Z; re_CompletionTime : Time; re_InitialBalance : Int; re_SharesDst : Dec }.
Record redelegationEntryResponse := Mk_reder { rer_RedelegationEntry : redelegationEntry; rer_Balance : Int }.
Record redelegation := Mk_redelegation {
  r_DelegatorAddress : string; r_ValidatorSrcAddress : string; r_ValidatorDstAddress : string; r_Entries : list redelegationEntry }.
Record RedelegationResp := MkRedelegationResp { rr_Redelegation : redelegation; rr_Entries : list redelegationEntryResponse }.
Record QueryHistoricalInfoResp := MkQueryHistoricalInfoResp { qh_Header : Header; qh_Valset : list QueryValidatorResp }.
Record QueryPoolResp := MkQueryPoolResp { qp_NotBondedTokens : Int; qp_BondedTokens : Int }.
Record QueryParamsResp := MkQueryParamsResp {
  qpr_UnbondingTime : Time; qpr_MaxValidators : Z; qpr_MaxEntries : Z; qpr_HistoricalEntries : Z; qpr_BondDenom : string }.

(** [BondStatus_name]; other numbers have no name. *)
Definition BondStatus_name (status : Z) : string :=
  if status =? 0 then "BOND_STATUS_UNSPECIFIED" else if status =? 1 then "BOND_STATUS_UNBONDED"
  else if status =? 2 then "BOND_STATUS_UNBONDING" else if status =? 3 then "BOND_STATUS_BONDED" else "".

(* ------------------------------------------------------------------ *)
(** * Conversions *)
Section Convert.
(** The unpacker of the codec, and the text of a key. *)
Variable UnpackAny : Any PubKey -> res PubKey.
Variable PubKey_text : PubKey -> string.

(** [q.Pagination.Total]: there may be no page. *)
Definition page_total {A} (q : Listed A) : res Z := p ← deref (l_Pagination q); Ok (PageResponse_Total p).

(** The error of unpacking is dropped; [String] of the nil key panics. *)
Definition Validator_GetPubKey (v : Validator) : res (option PubKey) :=
  match val_ConsensusPubkey v with None => Ok None | Some a => pk ← UnpackAny a; Ok (Some pk) end.
Definition Validator_Convert (v : Validator) : res QueryValidatorResp :=
  let pubKey := match Validator_GetPubKey v with Ok pk => Ok pk | Err _ => Ok None | Panic p => Panic p end in
  pubKey ← pubKey;
  pk ← deref pubKey;
  let d := val_Description v in
  let c := com_CommissionRates (val_Commission v) in
  Ok (MkQueryValidatorResp (val_OperatorAddress v) (PubKey_text pk) (val_Jailed v) (BondStatus_name (val_Status v)) (val_Tokens v)
    (val_DelegatorShares v)
    (Mk_description (Description_Moniker d) (Description_Identity d) (Description_Website d) (Description_SecurityContact d) (Description_Details d))
    (val_UnbondingHeight v) (val_UnbondingTime v)
    (Mk_commission (Mk_commissionRates (CommissionRates_Rate c) (CommissionRates_MaxRate c) (CommissionRates_MaxChangeRate c))
      (com_UpdateTime (val_Commission v)))
    (val_MinSelfDelegation v)).
Definition QueryValidatorsResponse_Convert (q : Listed Validator) : res (Totalled QueryValidatorResp) :=
  vs ← map_res Validator_Convert (listed q); total ← page_total q; Ok (MkTotalled vs total).
Definition QueryDelegatorValidatorsResponse_Convert (q : Listed Validator) : res (Totalled QueryValidatorResp) :=
  vs ← map_res Validator_Convert (listed q); total ← page_total q; Ok (MkTotalled vs total).

Definition DelegationResponse_Convert (d : DelegationResponse) : QueryDelegationResp :=
  let dl := DelegationResponse_Delegation d in
  MkQueryDelegationResp (Mk_delegation (Delegation_DelegatorAddress dl) (Delegation_Shares dl) (Delegation_ValidatorAddress dl))
    (MkCoin (Denom (DelegationResponse_Balance d)) (Amount (DelegationResponse_Balance d))).
Definition QueryValidatorDelegationsResponse_Convert (q : Listed DelegationResponse) : res (Totalled QueryDelegationResp) :=
  total ← page_total q; Ok (MkTotalled (map DelegationResponse_Convert (listed q)) total).
(** The total of this answer is always 0. *)
Definition QueryDelegatorDelegationsResponse_Convert (q : Listed DelegationResponse) : res (Totalled QueryDelegationResp) :=
  Ok (MkTotalled (map DelegationResponse_Convert (listed q)) 0).

Definition UnbondingDelegationEntry_Convert (u : UnbondingDelegationEntry) : unbondingDelegationEntry :=
  Mk_ube (ube_CreationHeight u) (ube_CompletionTime u) (ube_InitialBalance u) (ube_Balance u).
Definition UnbondingDelegation_Convert (u : UnbondingDelegation) : QueryUnbondingDelegationResp :=
  MkQueryUBD (ubd_DelegatorAddress u) (ubd_ValidatorAddress u) (map UnbondingDelegationEntry_Convert (ubd_Entries u)).
Definition QueryValidatorUnbondingDelegationsResponse_Convert (q : Listed UnbondingDelegation) : res (Totalled QueryUnbondingDelegationResp) :=
  total ← page_total q; Ok (MkTotalled (map UnbondingDelegation_Convert (listed q)) total).
Definition QueryDelegatorUnbondingDelegationsResponse_Convert (q : Listed UnbondingDelegation) : res (Totalled QueryUnbondingDelegationResp) :=
  total ← page_total q; Ok (MkTotalled (map UnbondingDelegation_Convert (listed q)) total).

Definition RedelegationEntry_Convert (r : RedelegationEntry) : redelegationEntry :=
  Mk_rede (rede_CreationHeight r) (rede_CompletionTime r) (rede_InitialBalance r) (rede_SharesDst r).
Definition RedelegationEntryResponse_Convert (r : RedelegationEntryResponse) : redelegationEntryResponse :=
  let e := reder_RedelegationEntry r in
  Mk_reder (Mk_rede (rede_CreationHeight e) (rede_CompletionTime e) (rede_InitialBalance e) (rede_SharesDst e)) (reder_Balance r).
Definition RedelegationResponse_Convert (r : RedelegationResponse) : RedelegationResp :=
  let red := redr_Redelegation r in
  MkRedelegationResp
    (Mk_redelegation (red_DelegatorAddress red) (red_ValidatorSrcAddress red) (red_ValidatorDstAddress red)
      (map RedelegationEntry_Convert (red_Entries red)))
    (map RedelegationEntryResponse_Convert (redr_Entries r)).
Definition QueryRedelegationsResponse_Convert (q : Listed RedelegationResponse) : res (Totalled RedelegationResp) :=
  total ← page_total q; Ok (MkTotalled (map RedelegationResponse_Convert (listed q)) total).

(** The hash of the last block's parts takes the place of the block's hash. *)
Definition QueryHistoricalInfoResponse_Convert (hist : option HistoricalInfo) : res QueryHistoricalInfoResp :=
  h ← deref hist;
  valset ← map_res Validator_Convert (hist_Valset h);
  let header := hist_Header h in
  let lastBlockId := bid_PartSetHeader (hdr_LastBlockID header) in
  let partSetHeader := bid_PartSetHeader (hdr_LastBlockID header) in
  Ok (MkQueryHistoricalInfoResp
    (MkHeader (hdr_Version header) (hdr_ChainID header) (hdr_Height header) (hdr_Time header)
      (MkBlockID (psh_Hash lastBlockId) (MkPartSetHeader (psh_Total partSetHeader) (psh_Hash partSetHeader)))
      (hdr_LastCommitHash header) (hdr_DataHash header) (hdr_ValidatorsHash header) (hdr_NextValidatorsHash header)
      (hdr_ConsensusHash header) (hdr_AppHash header) (hdr_LastResultsHash header) (hdr_EvidenceHash header)
      (hdr_ProposerAddress header)) valset).
Definition QueryParamsResponse_Convert (p : StakingParams) : QueryParamsResp :=
  MkQueryParamsResp (sp_UnbondingTime p) (sp_MaxValidators p) (sp_MaxEntries p) (sp_HistoricalEntries p) (sp_BondDenom p).

(* ------------------------------------------------------------------ *)
(** * Properties *)

(** What the conversions lose or refuse.  An answer without a page, and a
    validator without a key or with one that is not registered, make the client
    panic; the number of a delegator's delegations is not passed on; the hash of
    the last block is replaced by that of its parts. *)
Theorem staking_conversions_lossy :
  (forall vs, Forall (fun v => is_ok (Validator_Convert v) = true) vs ->
     QueryValidatorsResponse_Convert (MkListed vs None) = Panic nil_deref) /\
  (forall v, (val_ConsensusPubkey v = None \/ exists a e, val_ConsensusPubkey v = Some a /\ UnpackAny a = Err e) ->
     Validator_Convert v = Panic nil_deref) /\
  (forall q r, QueryDelegatorDelegationsResponse_Convert q = Ok r -> Total r = 0) /\
  (forall h r, QueryHistoricalInfoResponse_Convert (Some h) = Ok r ->
     bid_Hash (hdr_LastBlockID (qh_Header r)) = psh_Hash (bid_PartSetHeader (hdr_LastBlockID (hist_Header h)))).
Proof.
  split_and!.
  - intros vs Hvs. unfold QueryValidatorsResponse_Convert. cbn [listed].
    assert (exists ys, map_res Validator_Convert vs = Ok ys) as [ys ->]; [|done].
    induction Hvs as [|v vs Hv _ [ys IH]]; [by exists []|]. rewrite map_res_cons.
    destruct (Validator_Convert v); [|done..]. cbn. rewrite IH. by eexists.
  - intros v Hv. unfold Validator_Convert, Validator_GetPubKey. destruct Hv as [->|(a & e & -> & E)]; [done|]. cbn. by rewrite E.
  - by intros q r [= <-].
  - intros h r E. cbn in E. apply bind_Ok in E as (vs & _ & [= <-]). done.
Qed.
End Convert.
