(* ===== verification/Sdk.v ===== *)
(** The application's client ([client.go]): the messages of all modules, the
    registry they are registered in ([codec.go] of the modules,
    [crypto/codec/proto.go], [types/tx/types.go]) and the module manager. *)
From S2P Require Import Prelude GoStrings BigText SdkInt SdkDec CoinSet CoinText Coins BitArray Wire Decoding Keys Multisig Address TxTypes TxProto Sigs TxBuilder Codec Messages Registry Bank Coinswap Staking Nft TokenMsgs Gov.

Record SecpKeyMsg := MkSecpKeyMsg { SecpKeyMsg_Key : bytes }.
Definition SecpKeyMsg_Marshal (m : SecpKeyMsg) : bytes := let '(MkSecpKeyMsg key) := m in opt_bytes 10 key [].
Definition SecpKeyMsg_Size (m : SecpKeyMsg) : Z := let '(MkSecpKeyMsg key) := m in opt_bytes_size key.
Definition SecpKeyMsg_field (m : SecpKeyMsg) (num wt l : Z) (buf : bytes) :=
  let '(MkSecpKeyMsg key) := m in
  if num =? 1 then get_bytes (fun bs => MkSecpKeyMsg bs) wt l buf
  else None.
Definition empty_SecpKeyMsg : SecpKeyMsg := MkSecpKeyMsg [].
Definition SecpKeyMsg_Unmarshal (m : SecpKeyMsg) (dAtA : bytes) : res SecpKeyMsg := unmarshal SecpKeyMsg_field keep m dAtA.
Definition SecpKeyMsg_ok (m : SecpKeyMsg) : Prop := let '(MkSecpKeyMsg key) := m in True.
#[export] Instance SecpKeyMsg_codec : Codec SecpKeyMsg := {|
  codec_empty := empty_SecpKeyMsg; codec_Marshal := SecpKeyMsg_Marshal; codec_Size := SecpKeyMsg_Size;
  codec_Unmarshal := SecpKeyMsg_Unmarshal; codec_ok := SecpKeyMsg_ok |}.
#[export] Instance SecpKeyMsg_laws : CodecLaws SecpKeyMsg.
Proof. codec_laws. Qed.

Record EdKeyMsg := MkEdKeyMsg { EdKeyMsg_Key : bytes }.
Definition EdKeyMsg_Marshal (m : EdKeyMsg) : bytes := let '(MkEdKeyMsg key) := m in opt_bytes 10 key [].
Definition EdKeyMsg_Size (m : EdKeyMsg) : Z := let '(MkEdKeyMsg key) := m in opt_bytes_size key.
Definition EdKeyMsg_field (m : EdKeyMsg) (num wt l : Z) (buf : bytes) :=
  let '(MkEdKeyMsg key) := m in
  if num =? 1 then get_bytes (fun bs => MkEdKeyMsg bs) wt l buf
  else None.
Definition empty_EdKeyMsg : EdKeyMsg := MkEdKeyMsg [].
Definition EdKeyMsg_Unmarshal (m : EdKeyMsg) (dAtA : bytes) : res EdKeyMsg := unmarshal EdKeyMsg_field keep m dAtA.
Definition EdKeyMsg_ok (m : EdKeyMsg) : Prop := let '(MkEdKeyMsg key) := m in True.
#[export] Instance EdKeyMsg_codec : Codec EdKeyMsg := {|
  codec_empty := empty_EdKeyMsg; codec_Marshal := EdKeyMsg_Marshal; codec_Size := EdKeyMsg_Size;
  codec_Unmarshal := EdKeyMsg_Unmarshal; codec_ok := EdKeyMsg_ok |}.
#[export] Instance EdKeyMsg_laws : CodecLaws EdKeyMsg.
Proof. codec_laws. Qed.

Record PbAccount := MkPbAccount {
  PbAccount_Address : string; PbAccount_PubKey : option (Any PubKey); PbAccount_AccountNumber : Z; PbAccount_Sequence : Z }.
Definition PbAccount_Marshal (m : PbAccount) : bytes :=
  let '(MkPbAccount address pk an sequence) := m in opt_bytes 10 (to_bytes address) (opt_ptr 18 (Any_Marshal <$> pk)
    (opt_varint 24 an (opt_varint 32 sequence []))).
Definition PbAccount_Size (m : PbAccount) : Z :=
  let '(MkPbAccount address pk an sequence) := m in opt_bytes_size (to_bytes address) + opt_size 1 (Any_Size <$> pk) +
    opt_varint_size an + opt_varint_size sequence.
Definition PbAccount_field (m : PbAccount) (num wt l : Z) (buf : bytes) :=
  let '(MkPbAccount address pk an sequence) := m in
  if num =? 1 then get_bytes (fun bs => MkPbAccount (bytes_str bs) pk an sequence) wt l buf
  else if num =? 2 then get_msg (fun x => MkPbAccount address (Some x) an sequence) (Any_Unmarshal (default empty_Any pk)) wt l
      buf
  else if num =? 3 then get_varint (fun v => MkPbAccount address pk v sequence) wt buf
  else if num =? 4 then get_varint (fun v => MkPbAccount address pk an v) wt buf
  else None.
Definition empty_PbAccount : PbAccount := MkPbAccount "" None 0 0.
Definition PbAccount_Unmarshal (m : PbAccount) (dAtA : bytes) : res PbAccount := unmarshal PbAccount_field keep m dAtA.
Definition PbAccount_ok (m : PbAccount) : Prop :=
  let '(MkPbAccount address pk an sequence) := m in from_option Any_ok True pk /\ is_uint64 an /\ is_uint64 sequence.
#[export] Instance PbAccount_codec : Codec PbAccount := {|
  codec_empty := empty_PbAccount; codec_Marshal := PbAccount_Marshal; codec_Size := PbAccount_Size;
  codec_Unmarshal := PbAccount_Unmarshal; codec_ok := PbAccount_ok |}.
#[export] Instance PbAccount_laws : CodecLaws PbAccount.
Proof. codec_laws. Qed.

(** [LegacyAminoPubKey] as it is decoded: with the [Any]s of its keys. *)
Record LegacyKeyMsg (V : Type) := MkLegacyKeyMsg { lk_Threshold : Z; lk_PubKeys : list (Any V) }.
Arguments MkLegacyKeyMsg {_} _ _.
Arguments lk_Threshold {_} _.
Arguments lk_PubKeys {_} _.
Definition LegacyKeyMsg_field {V} (m : LegacyKeyMsg V) (num wt l : Z) (buf : bytes) :=
  let '(MkLegacyKeyMsg t ks) := m in
  if num =? 1 then get_varint (fun v => MkLegacyKeyMsg (wrap_u32 v) ks) wt buf
  else if num =? 2 then get_msg (fun x => MkLegacyKeyMsg t (ks ++ [x])) (Any_Unmarshal empty_Any) wt l buf
  else None.
Definition LegacyKeyMsg_Unmarshal {V} (m : LegacyKeyMsg V) (dAtA : bytes) : res (LegacyKeyMsg V) := unmarshal LegacyKeyMsg_field keep m dAtA.

(* ------------------------------------------------------------------ *)
(** * The messages and types of the application *)

(** The messages that the registry knows. *)
Inductive Message :=
  | BankM (m : BankMsg) | SwapM (m : SwapMsg) | TokenM (m : TokenMsg) | StakingM (m : StakingMsg) | NftM (m : NftMsg) | GovM (m : GovMsg)
  | TextM (m : TextProposal) | AccountM (m : PbAccount) | PbTokenM (m : PbToken) | KeyM (m : PubKey) | LegacyKeyM (m : LegacyKeyMsg Message)
  | TxM (m : Tx Message).

(** Interfaces, by their names in Go, and pointers to messages, by the names of
    the messages. *)
Inductive GoType := GoInterface (name : string) | GoPointer (message : string).
#[export] Instance GoType_eq_dec : EqDecision GoType.
Proof. solve_decision. Defined.
#[export] Instance GoType_countable : Countable GoType.
Proof.
  refine (inj_countable' (fun t => match t with GoInterface n => inl n | GoPointer n => inr n end)
    (fun t => match t with inl n => GoInterface n | inr n => GoPointer n end) _). by intros [].
Defined.
Definition MsgI := GoInterface "types.Msg".
Definition TxI := GoInterface "types.Tx".
Definition AccountI := GoInterface "auth.Account".
Definition TokenI := GoInterface "token.TokenInterface".
Definition ContentI := GoInterface "gov.Content".
Definition TmPubKeyI := GoInterface "crypto.PubKey".
Definition PubKeyI := GoInterface "cryptotypes.PubKey".

(** A module's message in an application message. *)
Definition text_of (m : Message) : option TextProposal := match m with TextM t => Some t | _ => None end.
Fixpoint key_of (m : Message) : option PubKey :=
  match m with
  | KeyM k => Some k
  | LegacyKeyM l =>
      ks ← (fix go (l : list (Any Message)) : option (list PubKey) :=
              match l with
              | [] => Some []
              | a :: l => match cachedValue a with Some v => k ← key_of v; ks ← go l; Some (k :: ks) | None => None end
              end) (lk_PubKeys l);
      Some (LegacyAminoPubKey (lk_Threshold l) ks)
  | _ => None
  end.
Definition any_map {A B} (f : A -> option B) (a : Any A) : Any B :=
  MkAny (TypeUrl a) (Value a) (Any_unrecognized a) (cachedValue a ≫= f).

Section App.
Context `{Bech32Lib}.

Definition App_name (m : Message) : string :=
  match m with
  | BankM m => MessageName m | SwapM m => MessageName m | TokenM m => MessageName m | StakingM m => MessageName m
  | NftM m => MessageName m | GovM m => MessageName m | TextM m => MessageName m | KeyM m => MessageName m
  | AccountM _ => "cosmos.auth.v1beta1.BaseAccount" | PbTokenM _ => "plugchain.token.Token"
  | LegacyKeyM _ => "cosmos.crypto.multisig.LegacyAminoPubKey" | TxM _ => "cosmos.tx.v1beta1.Tx"
  end.
Definition App_Marshal (m : Message) : res bytes :=
  match m with
  | BankM m => proto_Marshal m | SwapM m => proto_Marshal m | TokenM m => proto_Marshal m | StakingM m => proto_Marshal m
  | NftM m => proto_Marshal m | GovM m => proto_Marshal m | TextM m => proto_Marshal m | KeyM m => proto_Marshal m
  | AccountM m => Ok (PbAccount_Marshal m) | PbTokenM m => Ok (PbToken_Marshal m)
  | LegacyKeyM m => Ok (opt_varint 8 (lk_Threshold m) (rep_bytes 18 (map Any_Marshal (lk_PubKeys m)) []))
  | TxM m => Tx_Marshal m
  end.

(** Messages by their names: how each is decoded.  The first part are the
    implementations of [types.Msg]. *)
Definition msg_decoders : list (string * (bytes -> res Message)) :=
  [("cosmos.bank.v1beta1.MsgSend", fun bs => m ← MsgSend_Unmarshal empty_MsgSend bs; Ok (BankM (BankSend m)));
   ("cosmos.bank.v1beta1.MsgMultiSend", fun bs => m ← MsgMultiSend_Unmarshal empty_MsgMultiSend bs; Ok (BankM (BankMultiSend m)));
   ("plugchain.token.MsgIssueToken", fun bs => m ← MsgIssueToken_Unmarshal empty_MsgIssueToken bs; Ok (TokenM (IssueTokenMsg m)));
   ("plugchain.token.MsgTransferOwnerToken",
     fun bs => m ← MsgTransferOwnerToken_Unmarshal empty_MsgTransferOwnerToken bs; Ok (TokenM (TransferOwnerMsg m)));
   ("plugchain.token.MsgEditToken", fun bs => m ← MsgEditToken_Unmarshal empty_MsgEditToken bs; Ok (TokenM (EditTokenMsg m)));
   ("plugchain.token.MsgMintToken", fun bs => m ← MsgMintToken_Unmarshal empty_MsgMintToken bs; Ok (TokenM (MintTokenMsg m)));
   ("cosmos.staking.v1beta1.MsgCreateValidator",
     fun bs => m ← MsgCreateValidator_Unmarshal empty_MsgCreateValidator bs; Ok (StakingM (CreateValidatorMsg m)));
   ("cosmos.staking.v1beta1.MsgEditValidator",
     fun bs => m ← MsgEditValidator_Unmarshal empty_MsgEditValidator bs; Ok (StakingM (EditValidatorMsg m)));
   ("cosmos.staking.v1beta1.MsgDelegate", fun bs => m ← MsgDelegate_Unmarshal empty_MsgDelegate bs; Ok (StakingM (DelegateMsg m)));
   ("cosmos.staking.v1beta1.MsgBeginRedelegate",
     fun bs => m ← MsgBeginRedelegate_Unmarshal empty_MsgBeginRedelegate bs; Ok (StakingM (BeginRedelegateMsg m)));
   ("cosmos.staking.v1beta1.MsgUndelegate", fun bs => m ← MsgUndelegate_Unmarshal empty_MsgUndelegate bs; Ok (StakingM (UndelegateMsg m)));
   ("cosmos.gov.v1beta1.MsgSubmitProposal",
     fun bs => m ← MsgSubmitProposal_Unmarshal empty_MsgSubmitProposal bs; Ok (GovM (SubmitProposalMsg m)));
   ("cosmos.gov.v1beta1.MsgDeposit", fun bs => m ← MsgDeposit_Unmarshal empty_MsgDeposit bs; Ok (GovM (DepositMsg m)));
   ("cosmos.gov.v1beta1.MsgVote", fun bs => m ← MsgVote_Unmarshal empty_MsgVote bs; Ok (GovM (VoteMsg m)));
   ("plugchain.nft.MsgIssueClass", fun bs => m ← MsgIssueClass_Unmarshal empty_MsgIssueClass bs; Ok (NftM (IssueClassMsg m)));
   ("plugchain.nft.MsgIssueNFT", fun bs => m ← MsgIssueNFT_Unmarshal empty_MsgIssueNFT bs; Ok (NftM (IssueNFTMsg m)));
   ("plugchain.nft.MsgEditNFT", fun bs => m ← MsgEditNFT_Unmarshal empty_MsgEditNFT bs; Ok (NftM (EditNFTMsg m)));
   ("plugchain.nft.MsgBurnNFT", fun bs => m ← MsgBurnNFT_Unmarshal empty_MsgBurnNFT bs; Ok (NftM (BurnNFTMsg m)));
   ("plugchain.nft.MsgTransferNFT", fun bs => m ← MsgTransferNFT_Unmarshal empty_MsgTransferNFT bs; Ok (NftM (TransferNFTMsg m)));
   ("plugchain.nft.MsgTransferClass", fun bs => m ← MsgTransferClass_Unmarshal empty_MsgTransferClass bs; Ok (NftM (TransferClassMsg m)));
   ("tendermint.liquidity.v1beta1.MsgCreatePool", fun bs => m ← MsgCreatePool_Unmarshal empty_MsgCreatePool bs; Ok (SwapM (CreatePool m)));
   ("tendermint.liquidity.v1beta1.MsgDepositWithinBatch",
     fun bs => m ← MsgDepositWithinBatch_Unmarshal empty_MsgDepositWithinBatch bs; Ok (SwapM (DepositBatch m)));
   ("tendermint.liquidity.v1beta1.MsgWithdrawWithinBatch",
     fun bs => m ← MsgWithdrawWithinBatch_Unmarshal empty_MsgWithdrawWithinBatch bs; Ok (SwapM (WithdrawBatch m)));
   ("tendermint.liquidity.v1beta1.MsgSwapWithinBatch",
     fun bs => m ← MsgSwapWithinBatch_Unmarshal empty_MsgSwapWithinBatch bs; Ok (SwapM (SwapBatch m)))].
Definition key_decoders : list (string * (bytes -> res Message)) :=
  [("cosmos.crypto.secp256k1.PubKey", fun bs => m ← SecpKeyMsg_Unmarshal empty_SecpKeyMsg bs; Ok (KeyM (Secp256k1Key (SecpKeyMsg_Key m))));
   ("cosmos.crypto.ed25519.PubKey", fun bs => m ← EdKeyMsg_Unmarshal empty_EdKeyMsg bs; Ok (KeyM (Ed25519Key (EdKeyMsg_Key m))));
   ("cosmos.crypto.multisig.LegacyAminoPubKey", fun bs => m ← LegacyKeyMsg_Unmarshal (MkLegacyKeyMsg 0 []) bs; Ok (LegacyKeyM m))].
Definition other_decoders : list (string * (bytes -> res Message)) :=
  [("cosmos.gov.v1beta1.TextProposal", fun bs => m ← TextProposal_Unmarshal empty_TextProposal bs; Ok (TextM m));
   ("cosmos.auth.v1beta1.BaseAccount", fun bs => m ← PbAccount_Unmarshal empty_PbAccount bs; Ok (AccountM m));
   ("plugchain.token.Token", fun bs => m ← PbToken_Unmarshal empty_PbToken bs; Ok (PbTokenM m));
   ("cosmos.tx.v1beta1.Tx", fun bs => m ← Tx_Unmarshal empty_Tx bs; Ok (TxM m))].
Definition decoder_in (l : list (string * (bytes -> res Message))) (name : string) : option (bytes -> res Message) :=
  snd <$> List.find (fun p => String.eqb (fst p) name) l.
Definition App_Unmarshal (t : GoType) (bs : bytes) : res Message :=
  match t with
  | GoInterface _ => Panic "reflect: New(interface)"
  | GoPointer name =>
      match decoder_in (msg_decoders ++ key_decoders ++ other_decoders) name with
      | Some decode => decode bs
      | None => Err "unknown message"
      end
  end.

(** The interfaces that the pointers to the messages implement. *)
Definition App_AssignableTo (t i : GoType) : bool :=
  match t with
  | GoInterface _ => bool_decide (t = i)
  | GoPointer name =>
      let among l := bool_decide (name ∈ l) in
      if bool_decide (i = MsgI) then among (msg_decoders.*1)
      else if bool_decide (i = TmPubKeyI) || bool_decide (i = PubKeyI) then among (key_decoders.*1)
      else if bool_decide (i = AccountI) then among ["cosmos.auth.v1beta1.BaseAccount"]
      else if bool_decide (i = TokenI) then among ["plugchain.token.Token"]
      else if bool_decide (i = ContentI) then among ["cosmos.gov.v1beta1.TextProposal"]
      else if bool_decide (i = TxI) then among ["cosmos.tx.v1beta1.Tx"]
      else bool_decide (t = i)
  end.

(** What the methods [UnpackInterfaces] of the messages unpack.  Of the messages
    of the modules two have one; [AuthInfo] and [BaseAccount] have none. *)
Definition one_any {A} (i : GoType) (inj : A -> Message) (a : option (Any A)) : list (GoType * Any Message) :=
  match a with Some a => [(i, any_map (fun v => Some (inj v)) a)] | None => [] end.
Definition App_packed (m : Message) : list (GoType * Any Message) :=
  match m with
  | StakingM (CreateValidatorMsg m) => one_any PubKeyI KeyM (MsgCreateValidator_Pubkey m)
  | GovM (SubmitProposalMsg m) => one_any ContentI TextM (MsgSubmitProposal_Content m)
  | LegacyKeyM m => map (pair PubKeyI) (lk_PubKeys m)
  | TxM m => match Body m with Some b => map (pair MsgI) (Messages b) | None => [] end
  | _ => []
  end.
Definition App_repack (m : Message) (anys : list (Any Message)) : Message :=
  match m, anys with
  | StakingM (CreateValidatorMsg (MkMsgCreateValidator d c msd da va _ v)), [a] =>
      StakingM (CreateValidatorMsg (MkMsgCreateValidator d c msd da va (Some (any_map key_of a)) v))
  | GovM (SubmitProposalMsg (MkMsgSubmitProposal _ d p)), [a] => GovM (SubmitProposalMsg (MkMsgSubmitProposal (Some (any_map text_of a)) d p))
  | LegacyKeyM (MkLegacyKeyMsg t _), _ => LegacyKeyM (MkLegacyKeyMsg t anys)
  | TxM (MkTx (Some (MkTxBody _ memo h e n)) auth sigs), _ => TxM (MkTx (Some (MkTxBody anys memo h e n)) auth sigs)
  | _, _ => m
  end.

#[export] Instance App_messages : ProtoMessages GoType Message := {|
  messages_proto := {| MessageName := App_name; proto_Marshal := App_Marshal |};
  TypeOf m := GoPointer (App_name m);
  is_interface t := match t with GoInterface _ => true | GoPointer _ => false end;
  AssignableTo := App_AssignableTo;
  proto_Unmarshal := App_Unmarshal;
  packed := App_packed;
  repack := App_repack;
|}.
End App.

(* ------------------------------------------------------------------ *)
(** * Registration *)
Section Client.
Context `{Bech32Lib}.
Abbreviation registry := (@interfaceRegistry GoType _ _).

(** [RegisterInterfaces] of the modules, of transactions and of keys; only the
    types of the registered values matter. *)
Definition bank_RegisterInterfaces : ST registry unit :=
  _ ← RegisterImplementations MsgI [BankM (BankSend empty_MsgSend); BankM (BankMultiSend empty_MsgMultiSend)];
  RegisterImplementations AccountI [AccountM empty_PbAccount].
Definition token_RegisterInterfaces : ST registry unit :=
  _ ← RegisterImplementations MsgI (map TokenM
    [IssueTokenMsg empty_MsgIssueToken; EditTokenMsg empty_MsgEditToken; MintTokenMsg empty_MsgMintToken;
     TransferOwnerMsg empty_MsgTransferOwnerToken]);
  RegisterInterface "plugchain.token.TokenI" TokenI [PbTokenM empty_PbToken].
Definition staking_RegisterInterfaces : ST registry unit :=
  RegisterImplementations MsgI (map StakingM
    [CreateValidatorMsg empty_MsgCreateValidator; EditValidatorMsg empty_MsgEditValidator; DelegateMsg empty_MsgDelegate;
     UndelegateMsg empty_MsgUndelegate; BeginRedelegateMsg empty_MsgBeginRedelegate]).
Definition gov_RegisterInterfaces : ST registry unit :=
  RegisterImplementations MsgI (map GovM [SubmitProposalMsg empty_MsgSubmitProposal; DepositMsg empty_MsgDeposit; VoteMsg empty_MsgVote]).
Definition nft_RegisterInterfaces : ST registry unit :=
  RegisterImplementations MsgI (map NftM
    [IssueClassMsg empty_MsgIssueClass; IssueNFTMsg empty_MsgIssueNFT; EditNFTMsg empty_MsgEditNFT; TransferNFTMsg empty_MsgTransferNFT;
     BurnNFTMsg empty_MsgBurnNFT; TransferClassMsg empty_MsgTransferClass]).
Definition coinswap_RegisterInterfaces : ST registry unit :=
  RegisterImplementations MsgI (map SwapM
    [CreatePool empty_MsgCreatePool; DepositBatch empty_MsgDepositWithinBatch; SwapBatch empty_MsgSwapWithinBatch;
     WithdrawBatch empty_MsgWithdrawWithinBatch]).
Definition tx_RegisterInterfaces : ST registry unit :=
  _ ← RegisterInterface "cosmos.tx.v1beta1.Tx" TxI []; RegisterImplementations TxI [TxM empty_Tx].
Definition crypto_RegisterInterfaces : ST registry unit :=
  let keys := [KeyM (Ed25519Key []); KeyM (Secp256k1Key []); LegacyKeyM (MkLegacyKeyMsg 0 [])] in
  _ ← RegisterInterface "tendermint.crypto.Pubkey" TmPubKeyI [];
  _ ← RegisterImplementations TmPubKeyI (take 1 keys);
  _ ← RegisterImplementations TmPubKeyI (take 1 (drop 1 keys));
  _ ← RegisterImplementations TmPubKeyI (drop 2 keys);
  _ ← RegisterInterface "cosmos.crypto.Pubkey" PubKeyI [];
  _ ← RegisterImplementations PubKeyI (take 1 keys);
  _ ← RegisterImplementations PubKeyI (take 1 (drop 1 keys));
  RegisterImplementations PubKeyI (drop 2 keys).
Definition RegisterInterfaces : ST registry unit :=
  _ ← RegisterInterface "cosmos.v1beta1.Msg" MsgI []; _ ← tx_RegisterInterfaces; crypto_RegisterInterfaces.

(** [types.Module]: a name and how its types are registered. *)
Record Module_ := MkModule { Name : string; RegisterInterfaceTypes : ST registry unit }.
Definition bankClient : Module_ := MkModule "bank" bank_RegisterInterfaces.
Definition tokenClient : Module_ := MkModule "token" token_RegisterInterfaces.
Definition stakingClient : Module_ := MkModule "staking" staking_RegisterInterfaces.
Definition govClient : Module_ := MkModule "gov" gov_RegisterInterfaces.
Definition nftClient : Module_ := MkModule "nft" nft_RegisterInterfaces.
Definition coinswapClient : Module_ := MkModule "coinswap" coinswap_RegisterInterfaces.

(** The part of [PLUGCHAINClient] that registration changes. *)
Record PLUGCHAINClient := MkPLUGCHAINClient { moduleManager : gmap string Module_; interfaceRegistry_ : registry }.
Definition in_registry (m : ST registry unit) : ST PLUGCHAINClient unit := fun c =>
  let '(r, reg) := m (interfaceRegistry_ c) in (r, MkPLUGCHAINClient (moduleManager c) reg).
Fixpoint RegisterModule (ms : list Module_) : ST PLUGCHAINClient unit :=
  match ms with
  | [] => mret tt
  | m :: ms => fun client =>
      if bool_decide (is_Some (moduleManager client !! Name m)) then (Panic "%s has register", client) else
      (_ ← in_registry (RegisterInterfaceTypes m);
       _ ← (fun client => (Ok tt, MkPLUGCHAINClient (<[Name m := m]> (moduleManager client)) (interfaceRegistry_ client)));
       RegisterModule ms) client
  end.
Definition Module (client : PLUGCHAINClient) (name : string) : option Module_ := moduleManager client !! name.
Definition NewPLUGCHAINClient : res unit * PLUGCHAINClient :=
  (_ ← in_registry RegisterInterfaces;
   RegisterModule [bankClient; tokenClient; stakingClient; govClient; nftClient; coinswapClient])
    (MkPLUGCHAINClient ∅ NewInterfaceRegistry).
Definition app_registry : registry := interfaceRegistry_ (snd NewPLUGCHAINClient).

(* ------------------------------------------------------------------ *)
(** * Properties *)

Lemma created : fst NewPLUGCHAINClient = Ok tt.
Proof. vm_compute. reflexivity. Qed.
Lemma all_registered :
  Forall (fun name => registered_type app_registry MsgI ("/" +:+ name) = Ok (GoPointer name)) (msg_decoders.*1) /\
  Forall (fun name => registered_type app_registry PubKeyI ("/" +:+ name) = Ok (GoPointer name)) (key_decoders.*1) /\
  interfaceImpls app_registry !! ContentI = None.
Proof. split_and!; [| |vm_compute; reflexivity]; repeat (constructor; [vm_compute; reflexivity|]); constructor. Qed.

(** The client is created without a panic, with its six modules; registering a
    module under one of their names again panics and changes nothing. *)
Theorem client_modules : exists client, NewPLUGCHAINClient = (Ok tt, client) /\
  (forall name m, Module client name = Some m -> Name m = name) /\
  (forall name, is_Some (Module client name) <-> name ∈ ["bank"; "token"; "staking"; "gov"; "nft"; "coinswap"]) /\
  (forall m ms, Name m ∈ ["bank"; "token"; "staking"; "gov"; "nft"; "coinswap"] ->
    RegisterModule (m :: ms) client = (Panic "%s has register", client)).
Proof.
  exists (snd NewPLUGCHAINClient). split; [by rewrite <-created; destruct NewPLUGCHAINClient|].
  set (mods := [coinswapClient; nftClient; govClient; stakingClient; tokenClient; bankClient]).
  assert (moduleManager (snd NewPLUGCHAINClient) = list_to_map (map (fun m => (Name m, m)) mods)) as Em by reflexivity.
  unfold Module. cbn [RegisterModule]. rewrite Em.
  assert (forall name, is_Some ((list_to_map (map (fun m => (Name m, m)) mods) : gmap string Module_) !! name) <->
    name ∈ ["bank"; "token"; "staking"; "gov"; "nft"; "coinswap"]) as Hs.
  { intros name. rewrite <-not_eq_None_Some, <-not_elem_of_list_to_map. cbn. rewrite !elem_of_cons, elem_of_nil. split; [|tauto].
    intros Hn. apply dec_stable. intros Hno. apply Hn. tauto. }
  split_and!; [|exact Hs|].
  - intros name m E%elem_of_list_to_map_2. apply list_elem_of_fmap in E as (m' & [= -> ->] & _). done.
  - intros m ms Hm. by rewrite bool_decide_true by (by apply Hs).
Qed.

(** ** The messages of the modules can be unpacked *)

(** A key that is packed as [PackAny] leaves it; threshold keys are left out. *)
Definition packed_key (a : Any PubKey) : Prop :=
  exists k, a = MkAny ("/" +:+ MessageName k) (PubKey_Marshal k) [] (Some k) /\
    match k with LegacyAminoPubKey _ _ => False | _ => True end /\ Z.of_nat (length (PubKey_Marshal k)) < 2 ^ 62.
(** Messages of the modules whose fields are within their types.  A proposal has
    no content here. *)
Definition module_message (m : Message) : Prop :=
  match m with
  | BankM m => BankMsg_wf m | SwapM m => SwapMsg_wf m | TokenM m => TokenMsg_wf m | NftM _ => True
  | StakingM m => StakingMsg_wf m /\
      match m with CreateValidatorMsg m => from_option packed_key True (MsgCreateValidator_Pubkey m) | _ => True end
  | GovM m => GovMsg_wf m /\ match m with SubmitProposalMsg m => MsgSubmitProposal_Content m = None | _ => True end
  | _ => False
  end.

Definition cleared (m : Message) : Message :=
  match m with
  | StakingM (CreateValidatorMsg m) => StakingM (CreateValidatorMsg (clear_pubkey m))
  | GovM (SubmitProposalMsg m) => GovM (SubmitProposalMsg (clear_content m))
  | m => m
  end.
Lemma decoded {A} (u : res A) (f : A -> res Message) x r : u = Ok x -> f x = r -> u ≫= f = r.
Proof. by intros -> <-. Qed.
(** Decoding gives the message, without the values that were packed. *)
Lemma App_decodes m bs : module_message m -> App_Marshal m = Ok bs -> Z.of_nat (length bs) < 2 ^ 62 ->
  App_Unmarshal (GoPointer (App_name m)) bs = Ok (cleared m).
Proof.
  destruct m as [m|m|m|m|m|m| | | | | | ]; [..|done|done|done|done|done|done]; intros Hm [= <-] H62.
  - destruct m as [m|m]; cbn; (eapply decoded; [|reflexivity]); [by apply MsgSend_decodes|by apply MsgMultiSend_decodes].
  - pose proof (SwapMsg_decodes m Hm H62) as Hd. destruct m; (cbn; eapply decoded; [exact Hd|reflexivity]).
  - pose proof (TokenMsg_decodes m Hm H62) as Hd. destruct m; (cbn; eapply decoded; [exact Hd|reflexivity]).
  - pose proof (StakingMsg_decodes m (proj1 Hm) H62) as Hd. destruct m as [m| | | |]; [|cbn; (eapply decoded; [exact Hd|reflexivity])..].
    cbn. eapply decoded; [exact Hd|reflexivity].
  - pose proof (NftMsg_decodes m H62) as Hd. destruct m; (cbn; eapply decoded; [exact Hd|reflexivity]).
  - pose proof (GovMsg_decodes m (proj1 Hm) H62) as Hd. destruct m as [m| |]; [|cbn; (eapply decoded; [exact Hd|reflexivity])..].
    cbn. eapply decoded; [exact Hd|reflexivity].
Qed.
Ltac is_listed := match goal with |- ?P => apply (bool_decide_unpack P); vm_compute; exact I end.
Lemma App_registered m : module_message m ->
  registered_type app_registry MsgI ("/" +:+ App_name m) = Ok (GoPointer (App_name m)).
Proof.
  intros Hm. apply (proj1 (Forall_forall _ _) (proj1 all_registered)).
  destruct m as [m|m|m|m|m|m| | | | | | ]; try done; destruct m; is_listed.
Qed.
Lemma packed_key_packable n a k : packed_key a -> cachedValue a = Some k ->
  packable (S n) app_registry PubKeyI (KeyM k) /\ NewAnyWithValue (KeyM k) = Ok (any_map (fun v => Some (KeyM v)) a).
Proof.
  intros (k' & -> & Hk & H62) [= ->]. split; [|by destruct k].
  assert (App_Unmarshal (GoPointer (MessageName k)) (PubKey_Marshal k) = Ok (KeyM k)) as Hd.
  { destruct k as [k|k|]; [| |done]; cbn.
    - exact (decoded _ _ (MkSecpKeyMsg k) _ (codec_decodes (MkSecpKeyMsg k) I H62) eq_refl).
    - exact (decoded _ _ (MkEdKeyMsg k) _ (codec_decodes (MkEdKeyMsg k) I H62) eq_refl). }
  destruct all_registered as (_ & Hr & _). rewrite Forall_forall in Hr. split_and!.
  - apply Hr. destruct k; [is_listed..|done].
  - by exists (PubKey_Marshal k), (KeyM k).
  - constructor.
Qed.

(** Only the message that creates a validator holds another message. *)
Lemma module_message_cases m : module_message m ->
  (cleared m = m /\ App_packed m = [] /\ App_repack m [] = m) \/
  exists d c msd da va a v, m = StakingM (CreateValidatorMsg (MkMsgCreateValidator d c msd da va (Some a) v)) /\ packed_key a.
Proof.
  destruct m as [m|m|m|m|m|m| | | | | | ]; [..|done|done|done|done|done|done]; intros Hm; [by left..| |by left|].
  - destruct m as [[d c msd da va [a|] v]| | | |]; [right|by left..].
    exists d, c, msd, da, va, a, v. by destruct Hm as [_ Hm].
  - destruct m as [[ct d p]| |]; [|by left..]. destruct Hm as [_ E]. cbn in E. subst. by left.
Qed.

(** C24: The messages of the modules that are within their types
    ([module_message]) are unpacked by the client's registry from the bytes of the
    [Any] they were packed in, the secp256k1 or ed25519 key of a new validator
    included.  Left out are a proposal with a content, which is packed but not
    unpacked ([proposals_not_unpacked]), and a validator with a threshold key. *)
Theorem modules_unpack n m any : module_message m -> NewAnyWithValue m = Ok any -> Z.of_nat (length (Value any)) < 2 ^ 62 ->
  UnpackAny (S (S n)) app_registry MsgI (MkAny (TypeUrl any) (Value any) (Any_unrecognized any) None) = Ok (Some m, any).
Proof.
  intros Hm Ha H62. apply Pack_UnpackAny; [|done].
  unfold NewAnyWithValue in Ha. destruct (proto_Marshal m) as [bs|e|e] eqn:E; [|done..].
  assert (Value any = bs) as Ev by (by injection Ha as <-). rewrite Ev in H62.
  pose proof (App_decodes m bs Hm E H62) as Hd.
  split; [by apply App_registered|]. change (@packed _ _ _ _ _) with App_packed. change (@repack _ _ _ _ _) with App_repack.
  destruct (module_message_cases m Hm) as [(Ec & Ep & Er)|(d & c & msd & da & va & a & v & -> & Hk)].
  - rewrite Ep. split; [|constructor]. exists bs, (cleared m). rewrite Ec, Ep. split_and!; [done|by rewrite <-Ec at 2|constructor|done].
  - split; [exists bs; eexists; split_and!; [done|exact Hd| |]|].
    + constructor; [|constructor]. by destruct a.
    + destruct Hk as (k & -> & _). done.
    + constructor; [|constructor]. destruct (id Hk) as (k & Ea & _). exists (KeyM k). cbn [snd fst].
      assert (cachedValue a = Some k) as Eca by (by rewrite Ea).
      by destruct (packed_key_packable n a k Hk Eca).
Qed.

(** A proposal with a content is packed but not unpacked: no implementation of
    [Content] is registered. *)
Theorem proposals_not_unpacked n m a any :
  GovMsg_wf (SubmitProposalMsg m) -> MsgSubmitProposal_Content m = Some a -> TypeUrl a <> "" ->
  NewAnyWithValue (GovM (SubmitProposalMsg m)) = Ok any -> Z.of_nat (length (Value any)) < 2 ^ 62 ->
  UnpackAny (S (S n)) app_registry MsgI (MkAny (TypeUrl any) (Value any) (Any_unrecognized any) None) =
    Err "no registered implementations of type %+v".
Proof.
  intros Hw Ea Hu [= <-] H62. pose proof (GovMsg_decodes _ Hw H62) as Hd.
  destruct all_registered as (Hr & _ & Hc). rewrite Forall_forall in Hr.
  cbn [UnpackAny TypeUrl Value Any_unrecognized]. rewrite bool_decide_false by done. unfold cached_as at 1. cbn [cachedValue].
  rewrite Hr by is_listed. cbn [mbind res_bind proto_Unmarshal App_messages].
  match goal with |- context [App_Unmarshal ?t ?bs] => assert (App_Unmarshal t bs = Ok (GovM (SubmitProposalMsg (clear_content m)))) as -> end.
  { cbn. eapply decoded; [exact Hd|reflexivity]. }
  destruct m as [c d p]. cbn in Ea. subst c. cbn. rewrite bool_decide_false by done.
  unfold registered_type. by rewrite Hc.
Qed.
End Client.

#[local] Existing Instance toy_bech32.
Definition toy_key : PubKey := Secp256k1Key [2; 7].
Definition toy_validator : Message :=
  StakingM (CreateValidatorMsg (MkMsgCreateValidator (MkDescription "a" "" "" "" "") (MkCommissionRates (DecV 1) (DecV 2) (DecV 3))
    (IntV 1) some_address "v" (Some (MkAny ("/" +:+ MessageName toy_key) (PubKey_Marshal toy_key) [] (Some toy_key))) (coinV "plug" 5))).
Lemma modules_unpack_witness : exists any, NewAnyWithValue toy_validator = Ok any /\ Value any <> [] /\
  UnpackAny 5 app_registry MsgI (MkAny (TypeUrl any) (Value any) (Any_unrecognized any) None) = Ok (Some toy_validator, any).
Proof.
  eexists. split; [reflexivity|]. split; [vm_compute; discriminate|].
  apply (modules_unpack 3 toy_validator); [|reflexivity|by vm_compute].
  split; [|by exists toy_key]. cbn. split_and!; try done; eexists; (split; [reflexivity|]); vm_compute; (split; discriminate || reflexivity).
Defined.
Definition toy_content : Any TextProposal :=
  MkAny "/cosmos.gov.v1beta1.TextProposal" (TextProposal_Marshal (MkTextProposal "t" "d")) [] (Some (MkTextProposal "t" "d")).
Lemma proposals_not_unpacked_witness :
  let m := MkMsgSubmitProposal (Some toy_content) [] some_address in
  exists any, NewAnyWithValue (GovM (SubmitProposalMsg m)) = Ok any /\
  UnpackAny 5 app_registry MsgI (MkAny (TypeUrl any) (Value any) (Any_unrecognized any) None) = Err "no registered implementations of type %+v".
Proof.
  intros m. eexists. split; [reflexivity|].
  apply (proposals_not_unpacked 3 m toy_content); [|done|done|reflexivity|by vm_compute].
  cbn. done.
Defined.
