(* ===== verification/SignBytes.v ===== *)
(** How the messages of the modules name themselves and what is signed of them in
    the legacy mode: the methods [Route], [Type] and [GetSignBytes] of their
    [types.go]; and the methods of accounts ([modules/auth/types.go]).

    The JSON of amino is a parameter.  No module registers its messages with amino,
    so their JSON is that of their fields. *)
From S2P Require Import Prelude GoStrings BigText SdkInt SdkDec CoinSet CoinText Coins BitArray Wire Decoding Keys Multisig Address TxTypes TxProto Sigs TxBuilder Codec Messages Registry Bank Coinswap Staking Nft TokenMsgs Gov Sdk.

(* ------------------------------------------------------------------ *)
(** * Names *)

Definition MsgSend_Route (m : MsgSend) : string := "bank".
Definition MsgSend_Type (m : MsgSend) : string := "send".
Definition MsgMultiSend_Route (m : MsgMultiSend) : string := "bank".
Definition MsgMultiSend_Type (m : MsgMultiSend) : string := "multisend".
Definition MsgCreatePool_Route (m : MsgCreatePool) : string := "coinswap".
Definition MsgCreatePool_Type (m : MsgCreatePool) : string := "add_liquidity".
Definition MsgDepositWithinBatch_Route (m : MsgDepositWithinBatch) : string := "coinswap".
Definition MsgDepositWithinBatch_Type (m : MsgDepositWithinBatch) : string := "Within_liquidity".
Definition MsgWithdrawWithinBatch_Route (m : MsgWithdrawWithinBatch) : string := "coinswap".
Definition MsgWithdrawWithinBatch_Type (m : MsgWithdrawWithinBatch) : string := "withdraw_within".
Definition MsgSwapWithinBatch_Route (m : MsgSwapWithinBatch) : string := "coinswap".
Definition MsgSwapWithinBatch_Type (m : MsgSwapWithinBatch) : string := "swap_order".
Definition MsgIssueToken_Route (m : MsgIssueToken) : string := "token".
Definition MsgIssueToken_Type (m : MsgIssueToken) : string := "issue_token".
Definition MsgTransferOwnerToken_Route (m : MsgTransferOwnerToken) : string := "token".
Definition MsgTransferOwnerToken_Type (m : MsgTransferOwnerToken) : string := "transfer_token_owner".
Definition MsgEditToken_Route (m : MsgEditToken) : string := "token".
Definition MsgEditToken_Type (m : MsgEditToken) : string := "edit_token".
Definition MsgMintToken_Route (m : MsgMintToken) : string := "token".
Definition MsgMintToken_Type (m : MsgMintToken) : string := "mint_token".
Definition MsgCreateValidator_Route (m : MsgCreateValidator) : string := "staking".
Definition MsgCreateValidator_Type (m : MsgCreateValidator) : string := "create_validator".
Definition MsgEditValidator_Route (m : MsgEditValidator) : string := "staking".
Definition MsgEditValidator_Type (m : MsgEditValidator) : string := "edit_validator".
Definition MsgDelegate_Route (m : MsgDelegate) : string := "staking".
Definition MsgDelegate_Type (m : MsgDelegate) : string := "delegate".
Definition MsgBeginRedelegate_Route (m : MsgBeginRedelegate) : string := "staking".
Definition MsgBeginRedelegate_Type (m : MsgBeginRedelegate) : string := "begin_redelegate".
Definition MsgUndelegate_Route (m : MsgUndelegate) : string := "staking".
Definition MsgUndelegate_Type (m : MsgUndelegate) : string := "begin_unbonding".
Definition MsgIssueClass_Route (m : MsgIssueClass) : string := "nft".
Definition MsgIssueClass_Type (m : MsgIssueClass) : string := "issue_class".
Definition MsgIssueNFT_Route (m : MsgIssueNFT) : string := "nft".
Definition MsgIssueNFT_Type (m : MsgIssueNFT) : string := "issue_nft".
Definition MsgEditNFT_Route (m : MsgEditNFT) : string := "nft".
Definition MsgEditNFT_Type (m : MsgEditNFT) : string := "edit_nft".
Definition MsgBurnNFT_Route (m : MsgBurnNFT) : string := "nft".
Definition MsgBurnNFT_Type (m : MsgBurnNFT) : string := "burn_nft".
Definition MsgTransferNFT_Route (m : MsgTransferNFT) : string := "nft".
Definition MsgTransferNFT_Type (m : MsgTransferNFT) : string := "transfer_nft".
Definition MsgTransferClass_Route (m : MsgTransferClass) : string := "nft".
Definition MsgTransferClass_Type (m : MsgTransferClass) : string := "transfer_class".
Definition MsgSubmitProposal_Route (m : MsgSubmitProposal) : string := "gov".
Definition MsgSubmitProposal_Type (m : MsgSubmitProposal) : string := "submit_proposal".
Definition MsgDeposit_Route (m : MsgDeposit) : string := "gov".
Definition MsgDeposit_Type (m : MsgDeposit) : string := "deposit".
Definition MsgVote_Route (m : MsgVote) : string := "gov".
Definition MsgVote_Type (m : MsgVote) : string := "vote".

Definition Message_Route (m : Message) : option string :=
  match m with
  | BankM (BankSend m) => Some (MsgSend_Route m)
  | BankM (BankMultiSend m) => Some (MsgMultiSend_Route m)
  | SwapM (CreatePool m) => Some (MsgCreatePool_Route m)
  | SwapM (DepositBatch m) => Some (MsgDepositWithinBatch_Route m)
  | SwapM (WithdrawBatch m) => Some (MsgWithdrawWithinBatch_Route m)
  | SwapM (SwapBatch m) => Some (MsgSwapWithinBatch_Route m)
  | TokenM (IssueTokenMsg m) => Some (MsgIssueToken_Route m)
  | TokenM (TransferOwnerMsg m) => Some (MsgTransferOwnerToken_Route m)
  | TokenM (EditTokenMsg m) => Some (MsgEditToken_Route m)
  | TokenM (MintTokenMsg m) => Some (MsgMintToken_Route m)
  | StakingM (CreateValidatorMsg m) => Some (MsgCreateValidator_Route m)
  | StakingM (EditValidatorMsg m) => Some (MsgEditValidator_Route m)
  | StakingM (DelegateMsg m) => Some (MsgDelegate_Route m)
  | StakingM (BeginRedelegateMsg m) => Some (MsgBeginRedelegate_Route m)
  | StakingM (UndelegateMsg m) => Some (MsgUndelegate_Route m)
  | NftM (IssueClassMsg m) => Some (MsgIssueClass_Route m)
  | NftM (IssueNFTMsg m) => Some (MsgIssueNFT_Route m)
  | NftM (EditNFTMsg m) => Some (MsgEditNFT_Route m)
  | NftM (BurnNFTMsg m) => Some (MsgBurnNFT_Route m)
  | NftM (TransferNFTMsg m) => Some (MsgTransferNFT_Route m)
  | NftM (TransferClassMsg m) => Some (MsgTransferClass_Route m)
  | GovM (SubmitProposalMsg m) => Some (MsgSubmitProposal_Route m)
  | GovM (DepositMsg m) => Some (MsgDeposit_Route m)
  | GovM (VoteMsg m) => Some (MsgVote_Route m)
  | _ => None
  end.

Definition Message_Type (m : Message) : option string :=
  match m with
  | BankM (BankSend m) => Some (MsgSend_Type m)
  | BankM (BankMultiSend m) => Some (MsgMultiSend_Type m)
  | SwapM (CreatePool m) => Some (MsgCreatePool_Type m)
  | SwapM (DepositBatch m) => Some (MsgDepositWithinBatch_Type m)
  | SwapM (WithdrawBatch m) => Some (MsgWithdrawWithinBatch_Type m)
  | SwapM (SwapBatch m) => Some (MsgSwapWithinBatch_Type m)
  | TokenM (IssueTokenMsg m) => Some (MsgIssueToken_Type m)
  | TokenM (TransferOwnerMsg m) => Some (MsgTransferOwnerToken_Type m)
  | TokenM (EditTokenMsg m) => Some (MsgEditToken_Type m)
  | TokenM (MintTokenMsg m) => Some (MsgMintToken_Type m)
  | StakingM (CreateValidatorMsg m) => Some (MsgCreateValidator_Type m)
  | StakingM (EditValidatorMsg m) => Some (MsgEditValidator_Type m)
  | StakingM (DelegateMsg m) => Some (MsgDelegate_Type m)
  | StakingM (BeginRedelegateMsg m) => Some (MsgBeginRedelegate_Type m)
  | StakingM (UndelegateMsg m) => Some (MsgUndelegate_Type m)
  | NftM (IssueClassMsg m) => Some (MsgIssueClass_Type m)
  | NftM (IssueNFTMsg m) => Some (MsgIssueNFT_Type m)
  | NftM (EditNFTMsg m) => Some (MsgEditNFT_Type m)
  | NftM (BurnNFTMsg m) => Some (MsgBurnNFT_Type m)
  | NftM (TransferNFTMsg m) => Some (MsgTransferNFT_Type m)
  | NftM (TransferClassMsg m) => Some (MsgTransferClass_Type m)
  | GovM (SubmitProposalMsg m) => Some (MsgSubmitProposal_Type m)
  | GovM (DepositMsg m) => Some (MsgDeposit_Type m)
  | GovM (VoteMsg m) => Some (MsgVote_Type m)
  | _ => None
  end.

(* ------------------------------------------------------------------ *)
(** * Bytes to sign

    [ModuleCdc.MarshalJSON] and [SortJSON]; the errors of both become panics. *)
Section SignBytes.
Variable amino_JSON : Message -> res bytes.
Variable SortJSON : bytes -> res bytes.
Definition MustSortJSON (bz : bytes) : res bytes := must (SortJSON bz).
Definition sign_bytes (m : Message) : res bytes := bz ← must (amino_JSON m); MustSortJSON bz.

Definition MsgSend_GetSignBytes (m : MsgSend) : res bytes := sign_bytes (BankM (BankSend m)).
Definition MsgMultiSend_GetSignBytes (m : MsgMultiSend) : res bytes := sign_bytes (BankM (BankMultiSend m)).
Definition MsgCreatePool_GetSignBytes (m : MsgCreatePool) : res bytes := sign_bytes (SwapM (CreatePool m)).
Definition MsgDepositWithinBatch_GetSignBytes (m : MsgDepositWithinBatch) : res bytes := sign_bytes (SwapM (DepositBatch m)).
Definition MsgWithdrawWithinBatch_GetSignBytes (m : MsgWithdrawWithinBatch) : res bytes := sign_bytes (SwapM (WithdrawBatch m)).
Definition MsgSwapWithinBatch_GetSignBytes (m : MsgSwapWithinBatch) : res bytes := sign_bytes (SwapM (SwapBatch m)).
Definition MsgIssueToken_GetSignBytes (m : MsgIssueToken) : res bytes := sign_bytes (TokenM (IssueTokenMsg m)).
Definition MsgTransferOwnerToken_GetSignBytes (m : MsgTransferOwnerToken) : res bytes := sign_bytes (TokenM (TransferOwnerMsg m)).
Definition MsgEditToken_GetSignBytes (m : MsgEditToken) : res bytes := sign_bytes (TokenM (EditTokenMsg m)).
Definition MsgMintToken_GetSignBytes (m : MsgMintToken) : res bytes := sign_bytes (TokenM (MintTokenMsg m)).
Definition MsgCreateValidator_GetSignBytes (m : MsgCreateValidator) : res bytes := sign_bytes (StakingM (CreateValidatorMsg m)).
Definition MsgEditValidator_GetSignBytes (m : MsgEditValidator) : res bytes := sign_bytes (StakingM (EditValidatorMsg m)).
Definition MsgDelegate_GetSignBytes (m : MsgDelegate) : res bytes := sign_bytes (StakingM (DelegateMsg m)).
Definition MsgBeginRedelegate_GetSignBytes (m : MsgBeginRedelegate) : res bytes := sign_bytes (StakingM (BeginRedelegateMsg m)).
Definition MsgUndelegate_GetSignBytes (m : MsgUndelegate) : res bytes := sign_bytes (StakingM (UndelegateMsg m)).
Definition MsgIssueClass_GetSignBytes (m : MsgIssueClass) : res bytes := sign_bytes (NftM (IssueClassMsg m)).
Definition MsgIssueNFT_GetSignBytes (m : MsgIssueNFT) : res bytes := sign_bytes (NftM (IssueNFTMsg m)).
Definition MsgEditNFT_GetSignBytes (m : MsgEditNFT) : res bytes := sign_bytes (NftM (EditNFTMsg m)).
Definition MsgBurnNFT_GetSignBytes (m : MsgBurnNFT) : res bytes := sign_bytes (NftM (BurnNFTMsg m)).
Definition MsgTransferNFT_GetSignBytes (m : MsgTransferNFT) : res bytes := sign_bytes (NftM (TransferNFTMsg m)).
Definition MsgTransferClass_GetSignBytes (m : MsgTransferClass) : res bytes := sign_bytes (NftM (TransferClassMsg m)).
Definition MsgSubmitProposal_GetSignBytes (m : MsgSubmitProposal) : res bytes := sign_bytes (GovM (SubmitProposalMsg m)).
Definition MsgDeposit_GetSignBytes (m : MsgDeposit) : res bytes := sign_bytes (GovM (DepositMsg m)).
Definition MsgVote_GetSignBytes (m : MsgVote) : res bytes := sign_bytes (GovM (VoteMsg m)).
End SignBytes.

(** The fields of two messages of staking with their JSON names; empty fields that
    are marked so are left out by amino. *)
Inductive field := TextField (name : string) (omitempty : bool) (s : string) | CoinField (name : string) (c : Coin).
Definition MsgDelegate_fields (m : MsgDelegate) : list field :=
  [TextField "delegator_address" true (MsgDelegate_DelegatorAddress m);
   TextField "validator_address" true (MsgDelegate_ValidatorAddress m); CoinField "amount" (MsgDelegate_Amount m)].
Definition MsgUndelegate_fields (m : MsgUndelegate) : list field :=
  [TextField "delegator_address" true (MsgUndelegate_DelegatorAddress m);
   TextField "validator_address" true (MsgUndelegate_ValidatorAddress m); CoinField "amount" (MsgUndelegate_Amount m)].

(* ------------------------------------------------------------------ *)
(** * Properties *)
Section Properties.
Context `{Bech32Lib}.

(** The messages of the application are told apart by their routes and types,
    exactly as by their protobuf names. *)
Theorem message_names (m m' : Message) : is_Some (Message_Route m) -> is_Some (Message_Route m') ->
  Message_Route m = Message_Route m' /\ Message_Type m = Message_Type m' <-> App_name m = App_name m'.
Proof.
  intros [r Hr] [r' Hr'].
  destruct m as [[]|[]|[]|[]|[]|[]| | | | | | ]; try done; destruct m' as [[]|[]|[]|[]|[]|[]| | | | | | ]; try done;
    (split; [by intros [[=] [=]]|by intros [=]]).
Qed.

(** A message is routed to the module that registers it. *)
Theorem message_routes (m : Message) r : Message_Route m = Some r ->
  exists md, md ∈ [bankClient; tokenClient; stakingClient; govClient; nftClient; coinswapClient] /\ Name md = r /\
    registered_type (snd (RegisterInterfaceTypes md NewInterfaceRegistry)) MsgI ("/" +:+ App_name m) = Ok (GoPointer (App_name m)).
Proof.
  intros Hr. destruct m as [[]|[]|[]|[]|[]|[]| | | | | | ]; try done; injection Hr as <-.
  1-2: exists bankClient. 3-6: exists coinswapClient. 7-10: exists tokenClient. 11-15: exists stakingClient. 16-21: exists nftClient. 22-24: exists govClient.
  all: split_and!; [set_solver|done|vm_compute; reflexivity].
Qed.

(** Since amino only sees the fields of messages that are not registered, the
    bytes that are signed of a delegation are also those of its withdrawal. *)
Theorem delegate_undelegate amino_JSON SortJSON (object : list field -> res bytes) :
  (forall m, amino_JSON (StakingM (DelegateMsg m)) = object (MsgDelegate_fields m)) ->
  (forall m, amino_JSON (StakingM (UndelegateMsg m)) = object (MsgUndelegate_fields m)) ->
  forall delegator validator amount,
    MsgDelegate_GetSignBytes amino_JSON SortJSON (MkMsgDelegate delegator validator amount) =
    MsgUndelegate_GetSignBytes amino_JSON SortJSON (MkMsgUndelegate delegator validator amount).
Proof. intros Hd Hu d v a. unfold MsgDelegate_GetSignBytes, MsgUndelegate_GetSignBytes, sign_bytes. by rewrite Hd, Hu. Qed.
End Properties.

(* ------------------------------------------------------------------ *)
(** * Accounts

    The methods of [BaseAccount] in [modules/auth/types.go]. *)

Section Account.
Context `{Bech32Lib}.
Implicit Types acc : PbAccount.

(** The error of an address that cannot be decoded is dropped. *)
Definition GetAddress acc : res bytes :=
  match AccAddressFromBech32 (PbAccount_Address acc) with Err _ => Ok [] | r => r end.
Definition SetAddress (addr : bytes) : ST PbAccount unit := fun acc =>
  if negb (bool_decide (PbAccount_Address acc = "")) then (Err "cannot override BaseAccount address", acc) else
  match Acc_String addr with
  | Ok s => (Ok tt, MkPbAccount s (PbAccount_PubKey acc) (PbAccount_AccountNumber acc) (PbAccount_Sequence acc))
  | Err e => (Err e, acc)
  | Panic p => (Panic p, acc)
  end.

(** The value that is cached in the [Any], nil when there is none. *)
Definition acc_GetPubKey acc : option PubKey := PbAccount_PubKey acc ≫= cachedValue.
Definition set_key (k : option (Any PubKey)) acc : PbAccount :=
  MkPbAccount (PbAccount_Address acc) k (PbAccount_AccountNumber acc) (PbAccount_Sequence acc).
Definition SetPubKey (pubKey : option PubKey) : ST PbAccount unit := fun acc =>
  match pubKey with
  | None => (Ok tt, set_key None acc)
  | Some k => match NewAnyWithValue k with
              | Ok any => (Ok tt, set_key (Some any) acc)
              | Err e => (Err e, acc)
              | Panic p => (Panic p, acc)
              end
  end.
Definition GetAccountNumber acc : Z := PbAccount_AccountNumber acc.
Definition SetAccountNumber (accNumber : Z) : ST PbAccount unit := fun acc =>
  (Ok tt, MkPbAccount (PbAccount_Address acc) (PbAccount_PubKey acc) accNumber (PbAccount_Sequence acc)).
Definition GetSequence acc : Z := PbAccount_Sequence acc.
Definition SetSequence (seq : Z) : ST PbAccount unit := fun acc =>
  (Ok tt, MkPbAccount (PbAccount_Address acc) (PbAccount_PubKey acc) (PbAccount_AccountNumber acc) seq).

(** A new account with everything set. *)
Definition make_account (addr : bytes) (key : PubKey) (number seq : Z) : ST PbAccount unit :=
  _ ← SetAddress addr; _ ← SetPubKey (Some key); _ ← SetAccountNumber number; SetSequence seq.
End Account.

Section AccountProperties.
Context `{Bech32Laws}.

Lemma key_marshals (k : PubKey) : exists bz, NewAnyWithValue k = Ok (MkAny ("/" +:+ MessageName k) bz [] (Some k)).
Proof. eexists. reflexivity. Qed.

(** An account is what was set.  Its address can be set only once; reading the
    account from its encoding gives everything but the public key, which is never
    unpacked, since [BaseAccount] has no method [UnpackInterfaces]. *)
Theorem make_account_spec addr key number seq r acc s :
  Forall is_uint8 addr -> addr <> [] -> Acc_String addr = Ok s -> (String.length s <= 90)%nat -> is_uint64 number -> is_uint64 seq ->
  make_account addr key number seq empty_PbAccount = (r, acc) ->
  r = Ok tt /\ GetAddress acc = Ok addr /\ acc_GetPubKey acc = Some key /\ GetAccountNumber acc = number /\ GetSequence acc = seq /\
  (forall addr', SetAddress addr' acc = (Err "cannot override BaseAccount address", acc)) /\
  (Z.of_nat (length (PbAccount_Marshal acc)) < 2 ^ 62 ->
   exists acc', PbAccount_Unmarshal empty_PbAccount (PbAccount_Marshal acc) = Ok acc' /\
     GetAddress acc' = Ok addr /\ GetAccountNumber acc' = number /\ GetSequence acc' = seq /\ acc_GetPubKey acc' = None).
Proof.
  intros Ha Hne Hs Hl Hn Hq E. destruct (Acc_String_read addr s Ha Hne Hs Hl) as [Hs0 Hr]. destruct (key_marshals key) as [bz Ek].
  unfold make_account, mbind, st_bind, SetAddress in E. cbn [PbAccount_Address empty_PbAccount] in E.
  rewrite bool_decide_true in E by done. cbn [negb] in E. rewrite Hs in E. unfold SetPubKey in E. rewrite Ek in E.
  cbn [set_key SetAccountNumber SetSequence] in E. injection E as <- <-.
  assert (forall k, GetAddress (MkPbAccount s k number seq) = Ok addr) as Hg.
  { intros k. unfold GetAddress, AccAddressFromBech32. cbn [PbAccount_Address]. by rewrite Hr. }
  split_and!; [done|apply Hg|done..| |].
  - intros addr'. unfold SetAddress. cbn [PbAccount_Address]. by rewrite bool_decide_false.
  - intros H62. set (any0 := MkAny ("/" +:+ MessageName key) bz [] None : Any PubKey).
    exists (MkPbAccount s (Some any0) number seq). split_and!; [|apply Hg|done..].
    match goal with |- PbAccount_Unmarshal _ (PbAccount_Marshal ?m) = _ =>
      change (PbAccount_Marshal m) with (PbAccount_Marshal (MkPbAccount s (Some any0) number seq)) in * end.
    refine (codec_decodes (MkPbAccount s (Some any0) number seq) _ H62). by split_and!.
Qed.
End AccountProperties.
