(* ===== verification/AminoCompat.v ===== *)
(** Messages with packed values in amino: [codec/types/compat.go],
    [codec/amino.go], [codec/amino_codec.go].

    Amino knows nothing of the values that are packed in an [Any]: before it
    writes a message, the packers put the encoding of every packed value next to
    it, at every level of nesting; after it has read one, the unpackers decode
    these encodings and pack the values again. *)
From S2P Require Import Prelude GoStrings Wire Keys TxTypes TxProto Registry.

(** [anyCompat], and an [Any] with its field [compat]. *)
Record anyCompat := MkAnyCompat { aminoBz : bytes; jsonBz : bytes; compat_err : option string }.
Record CAny (V : Type) := MkCAny { c_any : Any V; compat : option anyCompat }.
Arguments MkCAny {_} _ _.
Arguments c_any {_} _.
Arguments compat {_} _.

(** How amino writes a message. *)
Inductive encoding := Bare | LengthPrefixed | JSON.
Definition is_JSON (e : encoding) : bool := match e with JSON => true | _ => false end.
(** How the packers write packed values. *)
Definition inner (json : bool) : encoding := if json then JSON else Bare.

(** The types [V] of the messages and amino's codec; [I] are the variables that
    values are read into.  [parts] are the pointers to [Any]s that the message's
    [UnpackInterfaces] visits, with these variables; there are none in a message
    without this method. *)
Class AminoMessages (I V : Type) := {
  amino_proto :: ProtoMessage V;
  is_proto : V -> bool;
  parts : V -> list (I * option (CAny V));
  with_parts : V -> list (option (CAny V)) -> V;
  amino_Marshal : encoding -> option V -> res bytes;
  amino_Unmarshal : encoding -> I -> bytes -> res V;
  amino_MarshalJSONIndent : option V -> string -> string -> res bytes;
  json_Indent : bytes -> string -> string -> res bytes;
}.

Definition anyCompatError : string := "%s marshaling error for %+v, this is likely because amino is being used directly".

(* ------------------------------------------------------------------ *)
(** * What amino calls *)
Section Methods.
Context {V : Type}.

Definition compat_bytes (json : bool) (ac : anyCompat) : bytes := if json then jsonBz ac else aminoBz ac.
Definition compat_res (json : bool) (ac : anyCompat) : res bytes :=
  match compat_err ac with None => Ok (compat_bytes json ac) | Some e => Err e end.
Definition MarshalAmino (a : CAny V) : res bytes :=
  match compat a with None => Err anyCompatError | Some ac => compat_res false ac end.
Definition Any_MarshalJSON (a : CAny V) : res bytes :=
  match compat a with None => Err anyCompatError | Some ac => compat_res true ac end.
Definition UnmarshalAmino (bz : bytes) (a : CAny V) : CAny V := MkCAny (c_any a) (Some (MkAnyCompat bz [] None)).
Definition Any_UnmarshalJSON (bz : bytes) (a : CAny V) : CAny V := MkCAny (c_any a) (Some (MkAnyCompat [] bz None)).

Definition compat_Marshal (json : bool) : CAny V -> res bytes := if json then Any_MarshalJSON else MarshalAmino.
Definition compat_Unmarshal (json : bool) : bytes -> CAny V -> CAny V := if json then Any_UnmarshalJSON else UnmarshalAmino.
End Methods.

(* ------------------------------------------------------------------ *)
(** * Packers and unpackers *)
Section Packers.
Context {I V : Type} `{A : AminoMessages I V}.

(** A loop over pointers that stops at the first error; what was changed before
    stays changed. *)
Fixpoint visit (f : option (CAny V) -> res unit * option (CAny V)) (ps : list (option (CAny V))) : res unit * list (option (CAny V)) :=
  match ps with
  | [] => (Ok tt, [])
  | p :: ps => match f p with
               | (Ok _, p) => let '(r, ps) := visit f ps in (r, p :: ps)
               | (r, p) => (r, p :: ps)
               end
  end.
Definition with_cached (a : Any V) (v : option V) : Any V := MkAny (TypeUrl a) (Value a) (Any_unrecognized a) v.
(** [UnpackInterfaces(x, packer)]: what it does to the message. *)
Definition visit_parts (f : option (CAny V) -> res unit * option (CAny V)) : ST V unit := fun v =>
  let '(r, ps) := visit f (parts v).*2 in (r, with_parts v ps).
(** [UnpackInterfaces] of a cached value that may be nil. *)
Definition visit_cached (f : option (CAny V) -> res unit * option (CAny V)) (v : option V) : res unit * option V :=
  match v with None => (Ok tt, None) | Some v => let '(r, v) := visit_parts f v in (r, Some v) end.

(** [&anyCompat{aminoBz: bz, err: err}], with [json] the other field. *)
Definition compat_of (json : bool) (bz : bytes) (err : option string) : anyCompat :=
  if json then MkAnyCompat [] bz err else MkAnyCompat bz [] err.

(** [AminoPacker.UnpackAny], and [AminoJSONPacker.UnpackAny] with [json]. *)
Fixpoint pack_any (depth : nat) (json : bool) (p : option (CAny V)) : res unit * option (CAny V) :=
  match p with
  | None => (Panic nil_deref, None)
  | Some any =>
      match depth with
      | O => (Err out_of_depth, p)
      | S depth =>
          let '(r, v) := visit_cached (pack_any depth json) (cachedValue (c_any any)) in
          let a := with_cached (c_any any) v in
          match r with
          | Ok _ =>
              match amino_Marshal (inner json) v with
              | Ok bz => (Ok tt, Some (MkCAny a (Some (compat_of json bz None))))
              | Err e => (Err e, Some (MkCAny a (Some (compat_of json [] (Some e)))))
              | Panic e => (Panic e, Some (MkCAny a (compat any)))
              end
          | r => (r, Some (MkCAny a (compat any)))
          end
      end
  end.

(** [any.Pack(m)] for a message, [any.cachedValue = val] for another value. *)
Definition repack_val (a : Any V) (val : V) : res (Any V) :=
  if is_proto val then bz ← proto_Marshal val; Ok (MkAny ("/" +:+ MessageName val) bz (Any_unrecognized a) (Some val))
  else Ok (with_cached a (Some val)).

Fixpoint unpack_parts (f : I -> option (CAny V) -> res (CAny V)) (l : list (I * option (CAny V))) : res (list (option (CAny V))) :=
  match l with
  | [] => Ok []
  | (i, p) :: l => a ← f i p; ps ← unpack_parts f l; Ok (Some a :: ps)
  end.
(** [AminoUnpacker.UnpackAny] and [AminoJSONUnpacker.UnpackAny]. *)
Fixpoint unpack_any (depth : nat) (json : bool) (iface : I) (p : option (CAny V)) : res (CAny V) :=
  any ← deref p;
  match compat any with
  | None => Err anyCompatError
  | Some ac =>
      match depth with
      | O => Err out_of_depth
      | S depth =>
          val ← amino_Unmarshal (inner json) iface (compat_bytes json ac);
          ps ← unpack_parts (unpack_any depth json) (parts val);
          a ← repack_val (c_any any) (with_parts val ps);
          Ok (MkCAny a None)
      end
  end.

(* ------------------------------------------------------------------ *)
(** * LegacyAmino

    The state of the operations that write is the message, whose [Any]s they
    change. *)
Definition packAnys (depth : nat) (json : bool) : ST V unit := visit_parts (pack_any depth json).
Definition unpackAnys (depth : nat) (json : bool) (v : V) : res V :=
  ps ← unpack_parts (unpack_any depth json) (parts v); Ok (with_parts v ps).
Definition marshalAnys (depth : nat) : ST V unit := packAnys depth false.
Definition jsonMarshalAnys (depth : nat) : ST V unit := packAnys depth true.
Definition unmarshalAnys (depth : nat) : V -> res V := unpackAnys depth false.
Definition jsonUnmarshalAnys (depth : nat) : V -> res V := unpackAnys depth true.

(** What the methods that write, and those that read, have in common. *)
Definition legacy_Marshal (depth : nat) (e : encoding) : ST V bytes :=
  _ ← packAnys depth (is_JSON e); query (fun o => amino_Marshal e (Some o)).
Definition legacy_Unmarshal (depth : nat) (e : encoding) (ptr : I) (bz : bytes) : res V :=
  v ← amino_Unmarshal e ptr bz; unpackAnys depth (is_JSON e) v.
Definition must_st {S B} (m : ST S B) : ST S B := fun s => let '(r, s) := m s in (must r, s).

Definition amino_MarshalBinaryBare (depth : nat) : ST V bytes := legacy_Marshal depth Bare.
Definition amino_MustMarshalBinaryBare (depth : nat) : ST V bytes := must_st (amino_MarshalBinaryBare depth).
Definition amino_MarshalBinaryLengthPrefixed (depth : nat) : ST V bytes := legacy_Marshal depth LengthPrefixed.
Definition amino_MustMarshalBinaryLengthPrefixed (depth : nat) : ST V bytes := must_st (amino_MarshalBinaryLengthPrefixed depth).
Definition amino_MarshalJSON (depth : nat) : ST V bytes := legacy_Marshal depth JSON.
Definition amino_MustMarshalJSON (depth : nat) : ST V bytes := must_st (amino_MarshalJSON depth).
Definition amino_UnmarshalBinaryBare (depth : nat) (ptr : I) (bz : bytes) : res V := legacy_Unmarshal depth Bare ptr bz.
Definition amino_MustUnmarshalBinaryBare (depth : nat) (ptr : I) (bz : bytes) : res V := must (amino_UnmarshalBinaryBare depth ptr bz).
Definition amino_UnmarshalBinaryLengthPrefixed (depth : nat) (ptr : I) (bz : bytes) : res V := legacy_Unmarshal depth LengthPrefixed ptr bz.
Definition amino_MustUnmarshalBinaryLengthPrefixed (depth : nat) (ptr : I) (bz : bytes) : res V :=
  must (amino_UnmarshalBinaryLengthPrefixed depth ptr bz).
Definition amino_UnmarshalJSON (depth : nat) (ptr : I) (bz : bytes) : res V := legacy_Unmarshal depth JSON ptr bz.
Definition amino_MustUnmarshalJSON (depth : nat) (ptr : I) (bz : bytes) : res V := must (amino_UnmarshalJSON depth ptr bz).

(** The function [MarshalJSONIndent], and the method, which panics. *)
Definition MarshalJSONIndent (depth : nat) : ST V bytes := fun o =>
  let '(r, o) := amino_MarshalJSON depth o in (bz ← r; json_Indent bz "" "  ", o).
Definition MustMarshalJSONIndent (depth : nat) : ST V bytes := fun o =>
  let '(r, o) := MarshalJSONIndent depth o in
  (match r with Err _ => Panic "failed to marshal JSON: %s" | r => r end, o).
Definition amino_method_MarshalJSONIndent (depth : nat) (prefix indent : string) : ST V bytes :=
  _ ← must_st (jsonMarshalAnys depth); query (fun o => amino_MarshalJSONIndent (Some o) prefix indent).

(** It cannot unpack an [Any] for protobuf. *)
Definition amino_UnpackAny : res unit := Err "AminoCodec can't handle unpack protobuf Any's".

(** [AminoCodec] calls the methods of its [LegacyAmino]. *)
Definition AminoCodec_MarshalBinaryBare (depth : nat) : ST V bytes := amino_MarshalBinaryBare depth.
Definition AminoCodec_MustMarshalBinaryBare (depth : nat) : ST V bytes := amino_MustMarshalBinaryBare depth.
Definition AminoCodec_MarshalBinaryLengthPrefixed (depth : nat) : ST V bytes := amino_MarshalBinaryLengthPrefixed depth.
Definition AminoCodec_MustMarshalBinaryLengthPrefixed (depth : nat) : ST V bytes := amino_MustMarshalBinaryLengthPrefixed depth.
Definition AminoCodec_UnmarshalBinaryBare (depth : nat) : I -> bytes -> res V := amino_UnmarshalBinaryBare depth.
Definition AminoCodec_MustUnmarshalBinaryBare (depth : nat) : I -> bytes -> res V := amino_MustUnmarshalBinaryBare depth.
Definition AminoCodec_UnmarshalBinaryLengthPrefixed (depth : nat) : I -> bytes -> res V := amino_UnmarshalBinaryLengthPrefixed depth.
Definition AminoCodec_MustUnmarshalBinaryLengthPrefixed (depth : nat) : I -> bytes -> res V := amino_MustUnmarshalBinaryLengthPrefixed depth.
Definition AminoCodec_MarshalJSON (depth : nat) : ST V bytes := amino_MarshalJSON depth.
Definition AminoCodec_MustMarshalJSON (depth : nat) : ST V bytes := amino_MustMarshalJSON depth.
Definition AminoCodec_UnmarshalJSON (depth : nat) : I -> bytes -> res V := amino_UnmarshalJSON depth.
Definition AminoCodec_MustUnmarshalJSON (depth : nat) : I -> bytes -> res V := amino_MustUnmarshalJSON depth.
End Packers.

(* ------------------------------------------------------------------ *)
(** * Properties *)
Section Properties.
Context {I V : Type} `{A : AminoMessages I V}.

(** An [Any] as it is read: what was written for it, and nothing else. *)
Definition received (json : bool) (bz : bytes) : option (CAny V) := Some (compat_Unmarshal json bz (MkCAny empty_Any None)).
Lemma received_compat json bz : received json bz = Some (MkCAny empty_Any (Some (compat_of json bz None))).
Proof. by destruct json. Qed.

(** What amino documents: a value [v] of a type that was registered and fits a
    variable [i] is read as it was written; for an [Any] amino writes what its
    method gives and hands the same bytes to the method of a new [Any].  And
    [UnpackInterfaces] of a message visits the same fields whatever they hold. *)
Record amino_laws (fits : I -> V -> Prop) : Prop := {
  amino_reads : forall e i v bs bz, fits i v ->
    Forall2 (fun p b => exists a, p = Some a /\ compat_Marshal (is_JSON e) a = Ok b) (parts v).*2 bs ->
    amino_Marshal e (Some v) = Ok bz -> amino_Unmarshal e i bz = Ok (with_parts v (map (received (is_JSON e)) bs));
  parts_with : forall v ps, length ps = length (parts v) -> parts (with_parts v ps) = zip (parts v).*1 ps;
  with_with : forall v ps qs, length ps = length (parts v) -> length qs = length (parts v) -> with_parts (with_parts v ps) qs = with_parts v qs;
  with_same : forall v, with_parts v (parts v).*2 = v;
  fits_with : forall i v ps, fits i v -> length ps = length (parts v) -> fits i (with_parts v ps);
}.

(** [v] holds the same values as [w], where [w] is a value as it is read: every
    [Any], on every level, is packed with its value and nothing else, and the
    values fit the variables that they are read into. *)
Definition packed_with (a : Any V) (y : V) : Prop := repack_val empty_Any y = Ok a.
Definition same_part (same : I -> V -> V -> Prop) (p q : I * option (CAny V)) : Prop :=
  p.1 = q.1 /\ exists a x y c, packed_with a y /\ p.2 = Some (MkCAny (with_cached a (Some x)) c) /\
    q.2 = Some (MkCAny a None) /\ same p.1 x y.
Fixpoint same_values (fits : I -> V -> Prop) (depth : nat) (i : I) (v w : V) : Prop :=
  match depth with
  | O => False
  | S depth => fits i w /\ v = with_parts w (parts v).*2 /\ Forall2 (same_part (same_values fits depth)) (parts v) (parts w)
  end.

(** What [bs] is for the pointers [ps]: what amino gets from the [Any]s. *)
Definition rendered (json : bool) (ps : list (option (CAny V))) (bs : list bytes) : Prop :=
  Forall2 (fun p b => exists a, p = Some a /\ compat_Marshal json a = Ok b) ps bs.
(** And from it the values of [k] are unpacked, whatever the depth above [d]. *)
Definition restores (json : bool) (d : nat) (k : list (I * option (CAny V))) (bs : list bytes) : Prop :=
  Forall2 (fun q b => exists a, q.2 = Some a /\ forall n, (d <= n)%nat -> unpack_any n json q.1 (received json b) = Ok a) k bs.
(** Packing only fails with an error of amino. *)
Definition amino_fails (r : res unit) : Prop :=
  match r with
  | Ok _ => True
  | Err x => exists e u, amino_Marshal e (Some u) = Err x
  | Panic x => exists e u, amino_Marshal e (Some u) = Panic x
  end.

Section Laws.
Context (fits : I -> V -> Prop) (L : amino_laws fits).
Abbreviation same_values := (same_values fits).

Lemma same_lengths same l k : Forall2 (same_part same) l k -> length l = length k /\ l.*1 = k.*1.
Proof. induction 1 as [|p q l k [Hp _] _ [IH1 IH2]]; [done|]. cbn. by rewrite IH1, IH2, Hp. Qed.

Lemma unpack_parts_restores json d k bs n : restores json d k bs -> (d <= n)%nat ->
  unpack_parts (unpack_any n json) (zip k.*1 (map (received json) bs)) = Ok k.*2.
Proof.
  intros Hr Hn. induction Hr as [|[i q] b k bs (a & Hq & Ha) _ IH]; [done|]. cbn in Hq, Ha |- *. subst q. rewrite Ha by done.
  cbn [mbind res_bind]. by rewrite IH.
Qed.

(** Reading what was written for a value whose [Any]s were packed. *)
Lemma unpackAnys_same json d i v w bs n : same_values (S d) i v w -> restores json d (parts w) bs -> (d <= n)%nat ->
  unpackAnys n json (with_parts v (map (received json) bs)) = Ok w.
Proof.
  intros (_ & Ev & Hp) Hr Hn. apply same_lengths in Hp as [Hl H1]. pose proof (Forall2_length _ _ _ Hr) as Hb.
  assert (length (map (received json) bs) = length (parts v)) as Hm by by rewrite length_map, <-Hb.
  unfold unpackAnys. rewrite (parts_with _ L), H1, (unpack_parts_restores _ d) by done. cbn [mbind res_bind].
  rewrite (with_with _ L), Ev by (done || by rewrite length_fmap).
  by rewrite (with_with _ L), (with_same _ L) by (by rewrite length_fmap).
Qed.
Lemma same_fits d i v w : same_values d i v w -> fits i v.
Proof.
  destruct d; [done|]. intros (Hf & Ev & Hp). rewrite Ev. apply (fits_with _ L); [done|].
  rewrite length_fmap. by apply same_lengths in Hp as [].
Qed.

Definition packs (d : nat) : Prop := forall n json i v w r v', (d <= n)%nat -> same_values (S d) i v w -> packAnys n json v = (r, v') ->
  same_values (S d) i v' w /\ amino_fails r /\ (is_ok r = true -> exists bs, rendered json (parts v').*2 bs /\ restores json d (parts w) bs).

Lemma compat_of_bytes json bz err : compat_bytes json (compat_of json bz err) = bz.
Proof. by destruct json. Qed.
Lemma compat_Marshal_of json (a : Any V) bz : compat_Marshal json (MkCAny a (Some (compat_of json bz None))) = Ok bz.
Proof. by destruct json. Qed.

(** One [Any]: it is packed again, and what was put next to it restores it. *)
Lemma pack_any_same d (IH : forall d', d = S d' -> packs d') n json p q r p' : (d <= n)%nat ->
  same_part (same_values d) p q -> pack_any n json p.2 = (r, p') ->
  same_part (same_values d) (p.1, p') q /\ amino_fails r /\
  (is_ok r = true -> exists b, rendered json [p'] [b] /\ restores json d [q] [b]).
Proof.
  intros Hn (Hi & a & x & y & c & Ha & Hp & Hq & Hs) E. rewrite Hp in E. destruct d as [|d]; [done|]. destruct n as [|n]; [lia|].
  cbn [pack_any c_any with_cached cachedValue visit_cached] in E. fold (packAnys n json) in E.
  destruct (packAnys n json x) as [rx x'] eqn:Ex. eapply (IH d eq_refl) in Ex as (Hs' & Hf & Hok); [|lia|done].
  assert (forall c', same_part (same_values (S d)) (p.1, Some (MkCAny (with_cached a (Some x')) c')) q) as Hsame.
  { intros c'. split; [done|]. by exists a, x', y, c'. }
  change (with_cached (with_cached a (Some x)) (Some x')) with (with_cached a (Some x')) in E.
  destruct rx as [[]|e|e]; [|by injection E as <- <-..].
  destruct (amino_Marshal (inner json) (Some x')) as [bz|e|e] eqn:Em; injection E as <- <-; (split; [apply Hsame|]);
    [|by split; [eexists _, _|]..].
  split; [done|]. intros _. destruct (Hok eq_refl) as (bs & Hb & Hr). exists bz. split.
  { constructor; [|constructor]. eexists. split; [done|]. apply compat_Marshal_of. }
  constructor; [|constructor]. eexists. split; [exact Hq|]. intros m Hm. destruct m as [|m]; [lia|].
  rewrite received_compat. cbn [unpack_any deref compat mbind res_bind c_any]. rewrite compat_of_bytes.
  assert (is_JSON (inner json) = json) as Hj by by destruct json.
  assert (fits q.1 x') as Hfx by (rewrite <-Hi; by eapply same_fits).
  rewrite (amino_reads _ L (inner json) q.1 x' bs bz Hfx) by (rewrite ?Hj; done). rewrite Hj. cbn [mbind res_bind]. rewrite <-Hi in *.
  pose proof (unpackAnys_same json d p.1 x' y bs m Hs' Hr ltac:(lia)) as Hu. unfold unpackAnys in Hu.
  apply bind_Ok in Hu as (ps & Eps & Hu). rewrite Eps. cbn [mbind res_bind]. injection Hu as ->. unfold packed_with in Ha. by rewrite Ha.
Qed.

Lemma pack_list_same d (IH : forall d', d = S d' -> packs d') n json l k r ps : (d <= n)%nat ->
  Forall2 (same_part (same_values d)) l k -> visit (pack_any n json) l.*2 = (r, ps) ->
  length ps = length l /\ Forall2 (same_part (same_values d)) (zip l.*1 ps) k /\ amino_fails r /\
  (is_ok r = true -> exists bs, rendered json ps bs /\ restores json d k bs).
Proof.
  intros Hn Hl. revert r ps. induction Hl as [|p q l k Hp Hl IHl]; intros r ps E.
  { injection E as <- <-. split_and!; [done|constructor|done|]. exists []. by split; constructor. }
  cbn [visit fmap list_fmap] in E. destruct (pack_any n json p.2) as [rp p'] eqn:Ep.
  eapply (pack_any_same d IH) in Ep as (Hp' & Hf & Hok); [|done..].
  assert (zip l.*1 l.*2 = l) as Hz by by rewrite zip_fst_snd.
  destruct rp as [[]|e|e]; [|injection E as <- <-; cbn; rewrite length_fmap, Hz; by split_and!; [|constructor|..]..].
  destruct (visit (pack_any n json) l.*2) as [rl ps'] eqn:El. injection E as <- <-.
  destruct (IHl _ _ eq_refl) as (Hlen & Hall & Hfl & Hokl). cbn. split_and!; [by rewrite Hlen|by constructor|done|].
  intros Hr. destruct (Hok eq_refl) as (b & Hb & Hrb), (Hokl Hr) as (bs & Hbs & Hrbs). exists (b :: bs).
  split; [inversion_clear Hb|inversion_clear Hrb]; by constructor.
Qed.

Lemma packs_all d : packs d.
Proof.
  induction d as [d IHd] using lt_wf_ind. intros n json i v w r v' Hn (Hf & Ev & Hp) E. unfold packAnys, visit_parts in E.
  destruct (visit (pack_any n json) (parts v).*2) as [r' ps] eqn:Ep. injection E as <- <-.
  eapply (pack_list_same d) in Ep as (Hl & Hall & Hfail & Hok); [|intros d' ->; apply IHd; lia|done..].
  assert (length ps = length (parts w)) as Hw by (rewrite Hl; by apply same_lengths in Hp as []).
  rewrite (parts_with _ L) in * by done. rewrite snd_zip by (rewrite length_fmap; lia).
  split_and!; [|done|exact Hok]. cbn [same_values]. rewrite (parts_with _ L) by done. rewrite snd_zip by (rewrite length_fmap; lia).
  split_and!; [done| |done]. rewrite Ev at 1. apply same_lengths in Hp as [Hp _]. by rewrite (with_with _ L) by (rewrite ?length_fmap; done).
Qed.
End Laws.

(** C28: What amino writes, it reads.  For a message whose packed values are there
    on every level of nesting: writing it, with any of the three methods, changes
    nothing but the encodings that are kept next to the [Any]s, so that it can be
    written again with any of them, and fails only with an error of amino for one
    of the values; and reading what was written gives the message as it was
    packed, with every packed value and nothing kept. *)
Theorem legacy_roundtrip fits (L : amino_laws fits) depth n e i v w r v' : (depth <= n)%nat ->
  same_values fits (S depth) i v w -> legacy_Marshal n e v = (r, v') ->
  same_values fits (S depth) i v' w /\
  match r with
  | Ok bz => legacy_Unmarshal n e i bz = Ok w
  | Err x => exists e' u, amino_Marshal e' (Some u) = Err x
  | Panic x => exists e' u, amino_Marshal e' (Some u) = Panic x
  end.
Proof.
  intros Hn Hs E. unfold legacy_Marshal, mbind, st_bind in E. destruct (packAnys n (is_JSON e) v) as [rp vp] eqn:Ep.
  eapply (packs_all fits L) in Ep as (Hs' & Hf & Hok); [|done..].
  destruct rp as [[]|x|x]; [|by injection E as <- <-..]. unfold query in E. injection E as <- <-. split; [done|].
  destruct (amino_Marshal e (Some vp)) as [bz|x|x] eqn:Em; [|by eexists _, _..].
  destruct (Hok eq_refl) as (bs & Hb & Hr). unfold legacy_Unmarshal.
  rewrite (amino_reads _ L e i vp bs bz) by (done || by eapply same_fits). by eapply unpackAnys_same.
Qed.
End Properties.

(* ------------------------------------------------------------------ *)
(** * A small set of messages

    Plain notes, and folders of one more note, which only amino knows. *)
Inductive Note := Plain (bs : bytes) | Folder (content : option (CAny Note)).
#[local] Instance Note_proto : ProtoMessage Note := {|
  MessageName _ := "note.Plain";
  proto_Marshal v := match v with Plain bs => Ok bs | Folder _ => Err "not a message" end;
|}.
#[local] Instance Note_amino : AminoMessages unit Note := {|
  is_proto v := match v with Plain _ => true | Folder _ => false end;
  parts v := match v with Plain _ => [] | Folder p => [(tt, p)] end;
  with_parts v ps := match v, ps with Folder _, p :: _ => Folder p | _, _ => v end;
  amino_Marshal e v :=
    match v with
    | None => Err "nil"
    | Some (Plain bs) => Ok (0 :: bs)
    | Some (Folder None) => Ok [1]
    | Some (Folder (Some a)) => b ← compat_Marshal (is_JSON e) a; Ok (2 :: b)
    end;
  amino_Unmarshal e _ bz :=
    match bz with
    | 0 :: bs => Ok (Plain bs)
    | 1 :: _ => Ok (Folder None)
    | 2 :: b => Ok (Folder (received (is_JSON e) b))
    | _ => Err "unknown prefix"
    end;
  amino_MarshalJSONIndent v _ _ := match v with Some (Plain bs) => Ok bs | _ => Err "not a text" end;
  json_Indent bz _ _ := Ok bz;
|}.
Lemma Note_laws : amino_laws (fun (_ : unit) (_ : Note) => True).
Proof.
  split; try done.
  - intros e i [bs|p] bs' bz _ Hb Em; cbn in *; [by injection Em as <-|]. inversion Hb as [|? b ? bs'' (a & -> & Hc) Hn]; subst.
    inversion Hn; subst. cbn in Em. rewrite Hc in Em. by injection Em as <-.
  - by intros [bs|p] [|q [|]].
  - by intros [bs|p] [|q [|]] [|q' [|]].
  - by intros [bs|p].
Qed.
(** A folder with a folder that holds a plain note, after it was written once,
    and what is read. *)
Definition note_any (v : Note) : Any Note := match repack_val empty_Any v with Ok a => a | _ => empty_Any end.
Definition inner_folder : Note := Folder (Some (MkCAny (note_any (Plain [7])) None)).
Definition filed : Note := Folder (Some (MkCAny (note_any inner_folder) None)).
Lemma same_folder d v : same_values (fun _ _ => True) d tt v v ->
  same_values (fun _ _ => True) (S d) tt (Folder (Some (MkCAny (note_any v) None))) (Folder (Some (MkCAny (note_any v) None))).
Proof.
  intros Hv. split_and!; [done|done|]. constructor; [|constructor]. split; [done|].
  exists (note_any v), v, v, None. split_and!; [by destruct v|by destruct v|done|done].
Qed.
Lemma filed_same : same_values (fun _ _ => True) 3 tt filed filed.
Proof. apply (same_folder 2), (same_folder 1). split_and!; [done|done|constructor]. Qed.
Lemma legacy_roundtrip_witness : exists bz v', legacy_Marshal 2 JSON filed = (Ok bz, v') /\ v' <> filed /\ legacy_Unmarshal 2 JSON tt bz = Ok filed.
Proof.
  destruct (legacy_Marshal 2 JSON filed) as [r v'] eqn:E.
  pose proof (legacy_roundtrip _ Note_laws 2 2 JSON tt filed filed r v' ltac:(done) filed_same E) as [_ H].
  vm_compute in E. injection E as <- <-. eexists _, _. split; [reflexivity|]. split; [by intros [=]|exact H].
Defined.
