(* ===== verification/ProtoCodec.v ===== *)
(** The protobuf codec: [codec/proto_codec.go], [codec/json.go] and the packer for
    its JSON, [ProtoJSONPacker] of [codec/types/compat.go]. *)
From S2P Require Import Prelude GoStrings SdkInt CoinSet Coins BitArray Wire Decoding Keys Multisig TxTypes TxProto Registry AminoCompat Codec.

(* ------------------------------------------------------------------ *)
(** * Binary

    [A] is a generated message; [unpack] is [UnpackInterfaces(ptr, pc.anyUnpacker)]. *)
Section Binary.
Context {A : Type}.
Variables (o_Marshal : A -> res bytes) (o_Size : A -> Z) (o_Unmarshal : A -> bytes -> res A) (unpack : A -> res A).

Definition proto_MarshalBinaryBare (o : A) : res bytes := o_Marshal o.
Definition proto_MustMarshalBinaryBare (o : A) : res bytes := must (proto_MarshalBinaryBare o).
Definition proto_MarshalBinaryLengthPrefixed (o : A) : res bytes :=
  bz ← proto_MarshalBinaryBare o; Ok (PutUvarint (wrap_u64 (o_Size o)) ++ bz).
Definition proto_MustMarshalBinaryLengthPrefixed (o : A) : res bytes := must (proto_MarshalBinaryLengthPrefixed o).
Definition proto_UnmarshalBinaryBare (bz : bytes) (ptr : A) : res A := v ← o_Unmarshal ptr bz; unpack v.
Definition proto_MustUnmarshalBinaryBare (bz : bytes) (ptr : A) : res A := must (proto_UnmarshalBinaryBare bz ptr).
Definition proto_UnmarshalBinaryLengthPrefixed (bz : bytes) (ptr : A) : res A :=
  let '(size, n) := Uvarint bz in
  if n <? 0 then Err "invalid number of bytes read from length-prefixed encoding: %d" else
  let rest := wrap_u64 (Z.of_nat (length bz) - n) in
  if rest <? size then Err "not enough bytes to read; want: %v, got: %v" else
  if size <? rest then Err "too many bytes to read; want: %v, got: %v" else
  proto_UnmarshalBinaryBare (drop (Z.to_nat n) bz) ptr.
Definition proto_MustUnmarshalBinaryLengthPrefixed (bz : bytes) (ptr : A) : res A := must (proto_UnmarshalBinaryLengthPrefixed bz ptr).
End Binary.

(* ------------------------------------------------------------------ *)
(** * JSON

    The encoder of gogo protobuf for messages and for an [Any], of which it calls
    [MarshalJSON], is a parameter, and so is its decoder. *)
Section JSON.
Context {I V : Type} `{AminoMessages I V}.
Variable jsonpb_MarshalToString : CAny V -> res bytes.
Variable jsonpb_Marshal : V -> res bytes.
Variable jsonpb_Unmarshal : bytes -> V -> res V.
(** [o.(ProtoMarshaler)] succeeds; [UnpackInterfaces(ptr, pc.anyUnpacker)]. *)
Variable is_marshaler : V -> bool.
Variable unpack : V -> res V.

(** [ProtoJSONPacker.UnpackAny]: nil pointers and [Any]s that hold no value are
    fine. *)
Fixpoint json_pack_any (depth : nat) (p : option (CAny V)) : res unit * option (CAny V) :=
  match p with
  | None => (Ok tt, None)
  | Some any =>
      match depth with
      | O => (Err out_of_depth, p)
      | S depth =>
          let '(r, v) := visit_cached (json_pack_any depth) (cachedValue (c_any any)) in
          let a := with_cached (c_any any) v in
          match r with
          | Ok _ =>
              match jsonpb_MarshalToString (MkCAny a (compat any)) with
              | Ok bz => (Ok tt, Some (MkCAny a (Some (MkAnyCompat [] bz None))))
              | Err e => (Err e, Some (MkCAny a (Some (MkAnyCompat [] [] (Some e)))))
              | Panic e => (Panic e, Some (MkCAny a (compat any)))
              end
          | r => (r, Some (MkCAny a (compat any)))
          end
      end
  end.
Definition ProtoMarshalJSON (depth : nat) : ST V bytes :=
  _ ← visit_parts (json_pack_any depth); query jsonpb_Marshal.

Definition proto_MarshalJSON (depth : nat) : ST V bytes := fun o =>
  if is_marshaler o then ProtoMarshalJSON depth o else (Err "cannot protobuf JSON encode unsupported type: %T", o).
Definition proto_MustMarshalJSON (depth : nat) : ST V bytes := must_st (proto_MarshalJSON depth).
Definition proto_UnmarshalJSON (bz : bytes) (ptr : V) : res V :=
  if is_marshaler ptr then v ← jsonpb_Unmarshal bz ptr; unpack v
  else Err "cannot protobuf JSON decode unsupported type: %T".
Definition proto_MustUnmarshalJSON (bz : bytes) (ptr : V) : res V := must (proto_UnmarshalJSON bz ptr).
End JSON.

(* ------------------------------------------------------------------ *)
(** * Properties *)

(** A length that is cut off has only bytes that announce another one. *)
Lemma uvarint_cut fuel i s acc x k : 0 <= i -> i + Z.of_nat fuel <= 9 -> 0 <= x ->
  (k < length (put_uvarint fuel x))%nat -> uvarint i s acc (take k (put_uvarint fuel x)) = (0, 0).
Proof.
  revert i s acc x k. induction fuel as [|fuel IH]; intros i s acc x k Hi Hf Hx Hk.
  - cbn in Hk. replace k with O by lia. done.
  - destruct k as [|k]; [done|]. cbn [put_uvarint] in *. destruct (Z.ltb_spec x 128) as [|Hl]; [cbn in Hk; lia|].
    cbn [take uvarint length] in *. rewrite (proj2 (Z.eqb_neq i 10)) by lia.
    pose proof (Z.mod_pos_bound x 128 ltac:(lia)) as Hm. rewrite (proj2 (Z.ltb_ge _ 128)) by (rewrite lor_128; lia).
    apply IH; [lia|lia| |lia]. rewrite shiftr7. apply Z.div_pos; lia.
Qed.
Lemma Uvarint_cut x k : 0 <= x -> (k < length (PutUvarint x))%nat -> Uvarint (take k (PutUvarint x)) = (0, 0).
Proof. intros Hx Hk. by apply uvarint_cut. Qed.

Section LengthPrefixed.
Context {A : Type} (o_Unmarshal : A -> bytes -> res A) (unpack : A -> res A).
Abbreviation read := (proto_UnmarshalBinaryLengthPrefixed o_Unmarshal unpack).

(** A length and a body of another length. *)
Lemma read_mismatch size body ptr : is_uint64 size -> Z.of_nat (length body) < 2 ^ 62 -> size <> Z.of_nat (length body) ->
  exists e, read (PutUvarint size ++ body) ptr = Err e.
Proof.
  intros Hs Hb Hne. unfold read. rewrite Uvarint_Put by done. rewrite (proj2 (Z.ltb_ge _ 0)) by lia.
  rewrite length_app, Nat2Z.inj_add, Z.add_simpl_l, wrap_u64_id by (split; lia).
  destruct (Z.ltb_spec (Z.of_nat (length body)) size); [by eexists|].
  destruct (Z.ltb_spec size (Z.of_nat (length body))); [by eexists|lia].
Qed.
Lemma read_match body ptr : Z.of_nat (length body) < 2 ^ 62 ->
  read (PutUvarint (Z.of_nat (length body)) ++ body) ptr = proto_UnmarshalBinaryBare o_Unmarshal unpack body ptr.
Proof.
  intros Hb. unfold read. rewrite Uvarint_Put by (split; lia). rewrite (proj2 (Z.ltb_ge _ 0)) by lia.
  rewrite length_app, Nat2Z.inj_add, Z.add_simpl_l, wrap_u64_id by (split; lia). by rewrite !Z.ltb_irrefl, Nat2Z.id, drop_app_length.
Qed.
Lemma read_cut_length size k ptr : 0 <= size -> (0 < k < length (PutUvarint size))%nat ->
  exists e, read (take k (PutUvarint size)) ptr = Err e.
Proof.
  intros Hs Hk. unfold read. rewrite Uvarint_cut by lia. cbn [Z.ltb Z.compare]. rewrite Z.sub_0_r, length_take, wrap_u64_id.
  - rewrite (proj2 (Z.ltb_ge _ 0)), (proj2 (Z.ltb_lt 0 _)) by lia. by eexists.
  - pose proof (put_uvarint_short 9 size). unfold PutUvarint in *. split; lia.
Qed.

End LengthPrefixed.

(** C29: Messages with a length before them can be told apart.  For every generated
    message: what is written is read as the message with its packed values
    unpacked; what is cut off anywhere, if only anything is left, and what is
    followed by anything is refused with an error.  Only the empty buffer, which
    holds no length, is accepted as well, as the empty message. *)
Theorem LengthPrefixed_exact `{CodecLaws A} (unpack : A -> res A) (o : A) : codec_ok o -> Z.of_nat (length (codec_Marshal o)) < 2 ^ 61 ->
  let read := proto_UnmarshalBinaryLengthPrefixed codec_Unmarshal unpack in
  exists bz, proto_MarshalBinaryLengthPrefixed (fun o => Ok (codec_Marshal o)) codec_Size o = Ok bz /\
    read bz codec_empty = unpack o /\
    (forall k ptr, (0 < k < length bz)%nat -> exists e, read (take k bz) ptr = Err e) /\
    (forall b rest ptr, Z.of_nat (length rest) < 2 ^ 61 -> exists e, read (bz ++ b :: rest) ptr = Err e) /\
    (forall ptr, read [] ptr = proto_UnmarshalBinaryBare codec_Unmarshal unpack [] ptr).
Proof.
  intros Ho H61 read. destruct (codec_roundtrip o Ho ltac:(lia)) as [Hu Hsz].  set (body := codec_Marshal o) in *.
  assert (is_uint64 (Z.of_nat (length body))) as H64 by (split; lia).
  exists (PutUvarint (Z.of_nat (length body)) ++ body). split_and!.
  - unfold proto_MarshalBinaryLengthPrefixed, proto_MarshalBinaryBare. cbn [mbind res_bind]. fold body. by rewrite <-Hsz, wrap_u64_id.
  - unfold read. rewrite read_match by lia. unfold proto_UnmarshalBinaryBare. by rewrite Hu.
  - intros k ptr Hk. rewrite length_app in Hk. destruct (decide (k < length (PutUvarint (Z.of_nat (length body))))%nat) as [Hc|Hc].
    + rewrite take_app_le by lia. apply read_cut_length; lia.
    + rewrite take_app_ge by lia. apply read_mismatch; [done|rewrite length_take; lia|rewrite length_take; lia].
  - intros b rest ptr Hr. rewrite <-app_assoc. apply read_mismatch; [done|rewrite length_app; cbn; lia..].
  - done.
Qed.

(** A coin. *)
Lemma LengthPrefixed_exact_witness :
  let read := proto_UnmarshalBinaryLengthPrefixed Coin_Unmarshal Ok in
  exists bz, proto_MarshalBinaryLengthPrefixed (fun c => Ok (Coin_Marshal c)) Coin_Size (MkCoin "plug" (IntV 7)) = Ok bz /\
    read bz empty_Coin = Ok (MkCoin "plug" (IntV 7)) /\ exists e, read (take 3 bz) empty_Coin = Err e.
Proof.
  destruct (LengthPrefixed_exact Ok (MkCoin "plug" (IntV 7))) as (bz & E & Hr & Hc & _).
  - exists 7. split; [done|by vm_compute].
  - by vm_compute.
  - exists bz. split; [exact E|]. split; [exact Hr|]. apply Hc. vm_compute in E. injection E as <-. cbn. lia.
Defined.

(** A message with a nil pointer to an [Any] can be written as JSON, but makes
    the amino codec panic. *)
Theorem nil_Any_packers {I V} `{AminoMessages I V} to_string marshal n e (v : V) (i : I) : parts v = [(i, None)] ->
  snd (legacy_Marshal n e v) = with_parts v [None] /\ fst (legacy_Marshal n e v) = Panic nil_deref /\
  fst (ProtoMarshalJSON to_string marshal n v) = marshal (with_parts v [None]).
Proof.
  intros Hv. unfold legacy_Marshal, ProtoMarshalJSON, packAnys, visit_parts, mbind, st_bind. rewrite Hv. cbn [fmap list_fmap snd visit].
  by destruct n.
Qed.
