(* ===== verification/StdTx.v ===== *)
(** The legacy transactions of [types/stdtx.go], which blocks are decoded to.

    The bytes a message is signed as, and [encoding/json] with [MustSortJSON]
    for the document that is signed, are parameters. *)
From S2P Require Import Prelude GoStrings CoinSet Coins Keys Multisig Address TxTypes Sigs TxBuilder.

Record StdFee := MkStdFee { std_Amount : list Coin; std_Gas : Z }.
Definition NewStdFee (gas : Z) (amount : list Coin) : StdFee := MkStdFee amount gas.
(** [StdFee.Bytes] is a stub: nil. *)
Definition StdFee_Bytes (fee : StdFee) : option bytes := None.

Record StdSignature := MkStdSignature { std_PubKey : bytes; std_Signature : bytes }.

Definition maxGasWanted : Z := 2 ^ 63 - 1.

Section StdTx.
Context {Msg : Type} `{MsgInterface Msg} `{Bech32Lib}.
Variable GetSignBytes : Msg -> res bytes.

Record StdSignMsg := MkStdSignMsg {
  sm_ChainID : string; sm_AccountNumber : Z; sm_Sequence : Z; sm_Fee : StdFee; sm_Msgs : list Msg; sm_Memo : string }.
(** The raw messages of the document; a nil [json.RawMessage] is [None]. *)
Record StdSignDoc := MkStdSignDoc {
  sd_AccountNumber : Z; sd_ChainID : string; sd_Fee : option bytes; sd_Memo : string; sd_Msgs : list (option bytes); sd_Sequence : Z }.
Variable json_SignDoc : StdSignDoc -> res bytes.
Variable MustSortJSON : bytes -> res bytes.

Definition StdSignMsg_Bytes (msg : StdSignMsg) : res bytes :=
  msgsBytes ← for_each (fun l m => bz ← GetSignBytes m; Ok (l ++ [Some bz])) [] (sm_Msgs msg);
  bz ← must (json_SignDoc (MkStdSignDoc (sm_AccountNumber msg) (sm_ChainID msg) (StdFee_Bytes (sm_Fee msg)) (sm_Memo msg) msgsBytes (sm_Sequence msg)));
  MustSortJSON bz.

Record StdTx := MkStdTx { std_Msgs : list Msg; std_Fee : StdFee; std_Signatures : list StdSignature; std_Memo : string }.
Definition NewStdTx (msgs : list Msg) (fee : StdFee) (sigs : list StdSignature) (memo : string) : StdTx := MkStdTx msgs fee sigs memo.
Definition StdTx_GetMsgs (tx : StdTx) : list Msg := std_Msgs tx.
Definition StdTx_GetMemo (tx : StdTx) : string := std_Memo tx.
Definition StdTx_GetSignatures (tx : StdTx) : list StdSignature := std_Signatures tx.
Definition StdTx_GetSignBytes (tx : StdTx) : res (list string) :=
  for_each (fun bz msg => b ← GetSignBytes msg; Ok (bz ++ [bytes_str b])) [] (std_Msgs tx).

(** The loop is that of [Tx.GetSigners]. *)
Definition StdTx_GetSigners (tx : StdTx) : res (list bytes) :=
  '(signers, _) ← for_each (fun st msg => addrs ← msg_GetSigners msg; for_each add_signer st addrs) ([], ∅) (StdTx_GetMsgs tx);
  Ok signers.

Definition StdTx_ValidateBasic (tx : StdTx) : res unit :=
  let stdSigs := StdTx_GetSignatures tx in
  if maxGasWanted <? std_Gas (std_Fee tx) then Err "invalid gas supplied; %d > %d" else
  neg ← Coins_IsAnyNegative (std_Amount (std_Fee tx));
  if (neg : bool) then Err "invalid fee %s amount provided" else
  if (length stdSigs =? 0)%nat then Err "no signers" else
  signers ← StdTx_GetSigners tx;
  if negb (length stdSigs =? length signers)%nat then Err "wrong number of signers" else
  signers ← StdTx_GetSigners tx;
  check (length stdSigs =? length signers)%nat "wrong number of signers; expected %d, got %d".
End StdTx.
Arguments StdTx : clear implicits.
Arguments StdSignMsg : clear implicits.

(* ------------------------------------------------------------------ *)
(** * Properties *)
Section Properties.
Context {Msg : Type} `{MsgInterface Msg} `{Bech32Lib}.

(** A transaction and its legacy form: the same messages, fee and number of
    signatures. *)
Definition same_tx (std : StdTx Msg) (t : Tx Msg) : Prop :=
  Tx_GetMsgs t = Ok (std_Msgs std) /\ length (TxSignatures t) = length (std_Signatures std) /\ is_Some (Body t) /\
  exists info fee, TxAuthInfo t = Some info /\ AuthFee info = Some fee /\
    fee_Amount fee = std_Amount (std_Fee std) /\ GasLimit fee = std_Gas (std_Fee std).

(** C36: The legacy transactions agree with the current ones: the transaction
    with the same messages, fee and number of signatures has the same signers in
    the same order, is accepted by [ValidateBasic] exactly when the other is, and
    panics exactly when the other does. *)
Theorem StdTx_agrees std t : same_tx std t ->
  StdTx_GetSigners std = Tx_GetSigners t /\
  (StdTx_ValidateBasic std = Ok tt <-> Tx_ValidateBasic t = Ok tt) /\
  panics (StdTx_ValidateBasic std) = panics (Tx_ValidateBasic t).
Proof.
  intros (Hm & Hl & [body Hb] & info & fee & Hi & Hf & Ha & Hg).
  assert (StdTx_GetSigners std = Tx_GetSigners t) as Hs by (unfold Tx_GetSigners; by rewrite Hm).
  split; [exact Hs|]. unfold StdTx_ValidateBasic, Tx_ValidateBasic, StdTx_GetSignatures.
  rewrite Hs, Hb, Hi, Hf, Ha, Hg. change MaxGasWanted with maxGasWanted.
  destruct (maxGasWanted <? _); [done|]. destruct (Coins_IsAnyNegative _) as [[]|e|p]; [done| |done..].
  cbn [mbind res_bind]. rewrite <-Hl. destruct (TxSignatures t) as [|s sigs]; [done|].
  change (length (s :: sigs) =? 0)%nat with false. cbn iota.
  destruct (Tx_GetSigners t) as [signers|e|p]; [|done..]. cbn [mbind res_bind].
  by destruct (length (s :: sigs) =? length signers)%nat.
Qed.

(** The fee is not part of what is signed. *)
Theorem sign_bytes_fee sign json sort (msg : StdSignMsg Msg) fee :
  StdSignMsg_Bytes sign json sort msg =
  StdSignMsg_Bytes sign json sort (MkStdSignMsg (sm_ChainID msg) (sm_AccountNumber msg) (sm_Sequence msg) fee (sm_Msgs msg) (sm_Memo msg)).
Proof. done. Qed.
End Properties.

(** A message with two signers, in both forms. *)
#[local] Existing Instances toy_msg toy_bech32.
Definition toy_std : StdTx (string * list bytes) :=
  NewStdTx [("m", [[1]; [2]; [1]])] (NewStdFee 7 [MkCoin "plug" (SdkInt.IntV 3)]) [MkStdSignature [] [9]; MkStdSignature [] [8]] "memo".
Definition toy_tx : Tx (string * list bytes) :=
  MkTx (Some (MkTxBody [MkAny "/m" [] [] (Some ("m", [[1]; [2]; [1]]))] "memo" 0 [] []))
    (Some (MkAuthInfo [] (Some (MkFee [MkCoin "plug" (SdkInt.IntV 3)] 7 "" "")))) [[9]; [8]].
Lemma StdTx_agrees_witness : StdTx_GetSigners toy_std = Ok [[1]; [2]] /\ StdTx_ValidateBasic toy_std = Ok tt.
Proof.
  assert (same_tx toy_std toy_tx) as Hs.
  { split_and!; [reflexivity|reflexivity|by eexists|]. eexists _, _. split_and!; reflexivity. }
  destruct (StdTx_agrees toy_std toy_tx Hs) as (E & Hv & _).
  split; [rewrite E; vm_compute; reflexivity|apply Hv; vm_compute; reflexivity].
Defined.
