(* ===== verification/Factory.v ===== *)
(** [client/tx/factory.go]: the context in which transactions are built and
    signed.

    [gasAdjustment] (a float) and [queryFunc] are stored for the base client and
    not read here; they are left out. *)
From S2P Require Import Prelude GoStrings SdkInt SdkDec CoinSet Coins DecCoins BitArray Wire Keys Multisig Address TxTypes Sigs TxBuilder.

(** The [KeyManager] the factory signs with ([Find] and [Sign]). *)
Record KeyManager := MkKeyManager {
  km_Find : string -> string -> res (PubKey * bytes);
  km_Sign : string -> string -> bytes -> res (bytes * PubKey);
}.

(** [Factory].  The transaction config is represented by its sign mode handler,
    the only part of it that varies; nil interfaces are [None]. *)
Record Factory := MkFactory {
  f_address : string;
  f_chainID : string;
  f_memo : string;
  f_password : string;
  f_accountNumber : Z;
  f_sequence : Z;
  f_gas : Z;
  f_simulateAndExecute : bool;
  f_fees : list Coin;
  f_gasPrices : DecCoins;
  f_mode : string;
  f_signMode : Z;
  f_signModeHandler : option SignModeHandlerMap;
  f_keyManager : KeyManager;
  f_txConfig : option SignModeHandlerMap
}.

Definition NewFactory : Factory :=
  MkFactory "" "" "" "" 0 0 0 false [] [] "" SIGN_MODE_UNSPECIFIED None
    (MkKeyManager (fun _ _ => Panic nil_deref) (fun _ _ _ => Panic nil_deref)) None.

Definition WithChainID (chainID : string) (f : Factory) : Factory :=
  MkFactory (f_address f) chainID (f_memo f) (f_password f) (f_accountNumber f) (f_sequence f)
    (f_gas f) (f_simulateAndExecute f) (f_fees f) (f_gasPrices f) (f_mode f) (f_signMode f)
    (f_signModeHandler f) (f_keyManager f) (f_txConfig f).
Definition WithGas (gas : Z) (f : Factory) : Factory :=
  MkFactory (f_address f) (f_chainID f) (f_memo f) (f_password f) (f_accountNumber f) (f_sequence f)
    gas (f_simulateAndExecute f) (f_fees f) (f_gasPrices f) (f_mode f) (f_signMode f)
    (f_signModeHandler f) (f_keyManager f) (f_txConfig f).
Definition WithFee (fees : list Coin) (f : Factory) : Factory :=
  MkFactory (f_address f) (f_chainID f) (f_memo f) (f_password f) (f_accountNumber f) (f_sequence f)
    (f_gas f) (f_simulateAndExecute f) fees (f_gasPrices f) (f_mode f) (f_signMode f)
    (f_signModeHandler f) (f_keyManager f) (f_txConfig f).
Definition WithSequence (sequence : Z) (f : Factory) : Factory :=
  MkFactory (f_address f) (f_chainID f) (f_memo f) (f_password f) (f_accountNumber f) sequence
    (f_gas f) (f_simulateAndExecute f) (f_fees f) (f_gasPrices f) (f_mode f) (f_signMode f)
    (f_signModeHandler f) (f_keyManager f) (f_txConfig f).
Definition WithMemo (memo : string) (f : Factory) : Factory :=
  MkFactory (f_address f) (f_chainID f) memo (f_password f) (f_accountNumber f) (f_sequence f)
    (f_gas f) (f_simulateAndExecute f) (f_fees f) (f_gasPrices f) (f_mode f) (f_signMode f)
    (f_signModeHandler f) (f_keyManager f) (f_txConfig f).
Definition WithAccountNumber (accountNumber : Z) (f : Factory) : Factory :=
  MkFactory (f_address f) (f_chainID f) (f_memo f) (f_password f) accountNumber (f_sequence f)
    (f_gas f) (f_simulateAndExecute f) (f_fees f) (f_gasPrices f) (f_mode f) (f_signMode f)
    (f_signModeHandler f) (f_keyManager f) (f_txConfig f).
Definition WithKeyManager (keyManager : KeyManager) (f : Factory) : Factory :=
  MkFactory (f_address f) (f_chainID f) (f_memo f) (f_password f) (f_accountNumber f) (f_sequence f)
    (f_gas f) (f_simulateAndExecute f) (f_fees f) (f_gasPrices f) (f_mode f) (f_signMode f)
    (f_signModeHandler f) keyManager (f_txConfig f).
Definition WithMode (mode : string) (f : Factory) : Factory :=
  MkFactory (f_address f) (f_chainID f) (f_memo f) (f_password f) (f_accountNumber f) (f_sequence f)
    (f_gas f) (f_simulateAndExecute f) (f_fees f) (f_gasPrices f) mode (f_signMode f)
    (f_signModeHandler f) (f_keyManager f) (f_txConfig f).
Definition WithSimulateAndExecute (simulateAndExecute : bool) (f : Factory) : Factory :=
  MkFactory (f_address f) (f_chainID f) (f_memo f) (f_password f) (f_accountNumber f) (f_sequence f)
    (f_gas f) simulateAndExecute (f_fees f) (f_gasPrices f) (f_mode f) (f_signMode f)
    (f_signModeHandler f) (f_keyManager f) (f_txConfig f).
Definition WithPassword (password : string) (f : Factory) : Factory :=
  MkFactory (f_address f) (f_chainID f) (f_memo f) password (f_accountNumber f) (f_sequence f)
    (f_gas f) (f_simulateAndExecute f) (f_fees f) (f_gasPrices f) (f_mode f) (f_signMode f)
    (f_signModeHandler f) (f_keyManager f) (f_txConfig f).
Definition WithAddress (address : string) (f : Factory) : Factory :=
  MkFactory address (f_chainID f) (f_memo f) (f_password f) (f_accountNumber f) (f_sequence f)
    (f_gas f) (f_simulateAndExecute f) (f_fees f) (f_gasPrices f) (f_mode f) (f_signMode f)
    (f_signModeHandler f) (f_keyManager f) (f_txConfig f).
Definition WithTxConfig (txConfig : option SignModeHandlerMap) (f : Factory) : Factory :=
  MkFactory (f_address f) (f_chainID f) (f_memo f) (f_password f) (f_accountNumber f) (f_sequence f)
    (f_gas f) (f_simulateAndExecute f) (f_fees f) (f_gasPrices f) (f_mode f) (f_signMode f)
    (f_signModeHandler f) (f_keyManager f) txConfig.
Definition WithSignModeHandler (signModeHandler : option SignModeHandlerMap) (f : Factory) : Factory :=
  MkFactory (f_address f) (f_chainID f) (f_memo f) (f_password f) (f_accountNumber f) (f_sequence f)
    (f_gas f) (f_simulateAndExecute f) (f_fees f) (f_gasPrices f) (f_mode f) (f_signMode f)
    signModeHandler (f_keyManager f) (f_txConfig f).

(* ------------------------------------------------------------------ *)
(** * Building and signing *)
Section Factory.
Context `{MsgInterface Msg}.

(** The fees for the gas prices: [ceil(gasPrice * gasLimit)] each. *)
Definition fee_for (glDec : Dec) (gp : DecCoin) : res Coin :=
  fee ← Dec_Mul (Amount gp) glDec;
  c ← Dec_Ceil fee;
  i ← Dec_RoundInt c;
  NewCoin (Denom gp) i.

Definition BuildUnsignedTx (msgs : list Msg) (f : Factory) : res (wrapper Msg) :=
  if bool_decide (f_chainID f = "") then Err "chain ID required but not specified" else
  no_prices ← DecCoins_IsZero (f_gasPrices f);
  fees ← (if negb no_prices then
            no_fees ← Coins_IsZero (f_fees f);
            if negb no_fees then Err "cannot provide both fees and gas prices"
            else
              glDec ← NewDec (wrap_i64 (f_gas f));
              map_res (fee_for glDec) (f_gasPrices f)
          else Ok (f_fees f));
  _ ← deref (f_txConfig f);
  w ← SetMsgs msgs newBuilder;
  w ← SetMemo (f_memo f) w;
  w ← SetFeeAmount fees w;
  SetGasLimit (f_gas f) w.

Definition Sign (name : string) (f : Factory) (txBuilder : wrapper Msg) : res (wrapper Msg) :=
  signMode ← (if f_signMode f =? SIGN_MODE_UNSPECIFIED
              then h ← deref (f_txConfig f); Ok (defaultMode h)
              else Ok (f_signMode f));
  let signerData := MkSignerData (f_chainID f) (f_accountNumber f) (f_sequence f) in
  '(pubkey, _) ← km_Find (f_keyManager f) name (f_password f);
  let sig sigBytes := MkSignatureV2 (Some pubkey) (SingleSignatureData signMode sigBytes) (f_sequence f) false in
  txBuilder ← SetSignatures [sig []] txBuilder;
  h ← deref (f_signModeHandler f);
  '(signBytes, txBuilder) ← map_GetSignBytes h signMode signerData txBuilder;
  '(sigBytes, _) ← km_Sign (f_keyManager f) name (f_password f) signBytes;
  SetSignatures [sig sigBytes] txBuilder.

(** The JSON encoder is the library's [jsonpb]. *)
Variable TxJSONEncoder : Tx Msg -> res bytes.

Definition BuildAndSign (name : string) (msgs : list Msg) (json : bool) (f : Factory) : res bytes :=
  w ← BuildUnsignedTx msgs f;
  w ← Sign name f w;
  if json then TxJSONEncoder (tx w)
  else '(txBytes, _) ← DefaultTxEncoder w; Ok txBytes.
End Factory.

(* ------------------------------------------------------------------ *)
(** * Lemmas *)
Section Lemmas.
Context `{MsgInterface Msg}.

(** The only handler that can be made. *)
Definition direct_handlers : SignModeHandlerMap :=
  MkHandlerMap SIGN_MODE_DIRECT [SIGN_MODE_DIRECT] {[ SIGN_MODE_DIRECT := DirectHandler ]}.

Lemma MakeSignModeHandler_direct : MakeSignModeHandler DefaultSignModes = Ok direct_handlers.
Proof. reflexivity. Qed.

Lemma BuildUnsignedTx_fixed (msgs : list Msg) f w :
  f_gasPrices f = [] -> BuildUnsignedTx msgs f = Ok w ->
  exists anys, map_res NewAnyWithValue msgs = Ok anys /\
    w = MkWrapper (MkTx (Some (MkTxBody anys (f_memo f) 0 [] []))
                     (Some (MkAuthInfo [] (Some (MkFee (f_fees f) (f_gas f) "" "")))) []) [] [] false.
Proof.
  intros Hp E. unfold BuildUnsignedTx in E. destruct (bool_decide _); [done|]. rewrite Hp in E.
  change (DecCoins_IsZero []) with (@Ok bool true) in E. cbn [mbind res_bind negb] in E.
  destruct (f_txConfig f); [|done]. cbn [deref mbind res_bind] in E. unfold SetMsgs in E.
  destruct (map_res NewAnyWithValue msgs) as [anys|e|e]; [|done..]. exists anys. split; [done|].
  cbn in E. by injection E as <-.
Qed.

(** The signer info of a factory's signature, and the auth info it makes. *)
Definition signed_info (pk : PubKey) (f : Factory) (fee : option Fee) : AuthInfo :=
  MkAuthInfo [MkSignerInfo (Some (MkAny ("/" +:+ MessageName pk) (PubKey_Marshal pk) [] (Some pk)))
                (ModeInfo_Single_ SIGN_MODE_DIRECT) (f_sequence f)] fee.

Lemma SetSignatures_one pk mode raw seq sk (w w' : wrapper Msg) :
  SetSignatures [MkSignatureV2 (Some pk) (SingleSignatureData mode raw) seq sk] w = Ok w' ->
  exists i, TxAuthInfo (tx w) = Some i /\
    w' = MkWrapper (MkTx (Body (tx w))
           (Some (MkAuthInfo [MkSignerInfo (Some (MkAny ("/" +:+ MessageName pk) (PubKey_Marshal pk) [] (Some pk)))
                                (ModeInfo_Single_ mode) seq] (AuthFee i))) [raw])
           (bodyBz w) [] (txBodyHasUnknownNonCriticals w).
Proof.
  intros E. unfold SetSignatures, setSignerInfos, set_auth in E. cbn in E. res_inv.
  destruct (TxAuthInfo (tx w)) as [i|]; [|done]. exists i. split; [done|]. cbn in *. by simplify_eq.
Qed.

Lemma Sign_spec name f (w w' : wrapper Msg) :
  cache_ok w -> f_txConfig f = Some direct_handlers -> f_signModeHandler f = Some direct_handlers ->
  Sign name f w = Ok w' ->
  exists pk a b i auth sigBytes p,
    km_Find (f_keyManager f) name (f_password f) = Ok (pk, a) /\
    Body (tx w) = Some b /\ TxAuthInfo (tx w) = Some i /\
    AuthInfo_Marshal (signed_info pk f (AuthFee i)) = Ok auth /\
    km_Sign (f_keyManager f) name (f_password f)
      (SignDoc_Marshal (MkSignDoc (TxBody_Marshal b) auth (f_chainID f) (f_accountNumber f))) = Ok (sigBytes, p) /\
    tx w' = MkTx (Some b) (Some (signed_info pk f (AuthFee i))) [sigBytes] /\ cache_ok w'.
Proof.
  intros Hc Hcfg Hh E. unfold Sign in E. res_inv. destruct a0 as [pk addr]. res_inv. destruct a2 as [signBytes w2].
  res_inv. destruct a2 as [sigBytes p]. rewrite Hh in *. cbn [deref] in *. simplify_eq.
  match goal with X : map_GetSignBytes _ _ _ _ = _ |- _ => rename X into Hsb end.
  unfold map_GetSignBytes in Hsb. cbn [signModeHandlers direct_handlers] in Hsb.
  destruct (decide (a = SIGN_MODE_DIRECT)) as [->|Hne]; [|by rewrite lookup_singleton_ne in Hsb].
  rewrite lookup_singleton_eq in Hsb. cbn [handler_GetSignBytes] in Hsb.
  match goal with X : SetSignatures _ w = Ok _ |- _ => pose proof (SetSignatures_cache _ _ _ Hc X) as Hc1;
    apply SetSignatures_one in X as (i & Hi & ->) end.
  destruct (direct_GetSignBytes_cache _ _ _ _ _ Hc1 Hsb) as (_ & (b & i' & auth & Eb & Ei & Ea & ->) & Et & Hc2).
  pose proof (SetSignatures_cache _ _ _ Hc2 E) as Hc3.
  apply SetSignatures_one in E as (i2 & Hi2 & ->). rewrite Et in *. cbn [tx Body TxAuthInfo] in *. simplify_eq.
  exists pk, addr, b, i, auth, sigBytes, p. split_and!; try done. by rewrite Eb.
Qed.
End Lemmas.

Lemma NewDec_val g : NewDec g = Ok (DecV (g * precisionReuse)).
Proof. reflexivity. Qed.

Lemma fee_for_ceil d x g :
  is_denom d = true -> 0 <= x -> 0 <= g -> dec_range (x * g) -> int_range (dec_ceil (x * g)) ->
  fee_for (DecV (g * precisionReuse)) (decV d x) = Ok (MkCoin d (IntV (dec_ceil (x * g)))).
Proof.
  intros Hd Hx Hg Hr Hi. unfold fee_for, Dec_Mul. cbn [Amount Denom Dec_i deref mbind res_bind].
  replace (x * (g * precisionReuse)) with (x * g * precisionReuse) by lia.
  rewrite chop_round_multiple, Dec_checked_range by done. cbn [mbind res_bind]. rewrite Dec_Ceil_val.
  cbn [mbind res_bind]. unfold Dec_RoundInt, NewIntFromBigInt. cbn [Dec_i deref mbind res_bind].
  change (chopPrecisionAndRoundNonMutative (dec_ceil (x * g) * precisionReuse))
    with (chopPrecisionAndRound (dec_ceil (x * g) * precisionReuse)).
  rewrite chop_round_multiple, overflow_if, bool_decide_true by done. cbn [mbind res_bind].
  unfold NewCoin, validate, ValidateDenom, Int_IsNegative. rewrite Hd. cbn [check Int_i deref mbind res_bind].
  assert (0 <= dec_ceil (x * g)) as H0.
  { unfold dec_ceil. assert (- (x * g) / precisionReuse <= 0); [|lia].
    apply Z.div_le_upper_bound; [done|]. rewrite precisionReuse_val. nia. }
  unfold Prelude.Sign. rewrite (proj2 (Z.eqb_neq _ (-1))) by lia. done.
Qed.

(** What [BuildAndSign] returns for fixed fees, if the key manager's signatures
    verify. *)
Lemma BuildAndSign_signed `{MsgInterface Msg} `{CryptoLib} (json : Tx Msg -> res bytes) name (msgs : list Msg) f bz :
  (forall pk a data sig p, km_Find (f_keyManager f) name (f_password f) = Ok (pk, a) ->
     km_Sign (f_keyManager f) name (f_password f) data = Ok (sig, p) -> VerifySignature pk data sig = Ok true) ->
  f_gasPrices f = [] -> f_txConfig f = Some direct_handlers -> f_signModeHandler f = Some direct_handlers ->
  BuildAndSign json name msgs false f = Ok bz -> Z.of_nat (length bz) < 2 ^ 62 ->
  exists body auth sig pk a anys,
    TxRaw_Unmarshal (MkTxRaw [] [] []) bz = Ok (MkTxRaw body auth [sig]) /\
    km_Find (f_keyManager f) name (f_password f) = Ok (pk, a) /\
    VerifySignature pk (SignDoc_Marshal (MkSignDoc body auth (f_chainID f) (f_accountNumber f))) sig = Ok true /\
    map_res NewAnyWithValue msgs = Ok anys /\ body = TxBody_Marshal (MkTxBody anys (f_memo f) 0 [] []) /\
    AuthInfo_Marshal (signed_info pk f (Some (MkFee (f_fees f) (f_gas f) "" ""))) = Ok auth.
Proof.
  intros Hkm Hp Hcfg Hh E H62. unfold BuildAndSign in E. res_inv. destruct a1 as [bz' w']. res_inv.
  match goal with X : BuildUnsignedTx _ _ = _ |- _ => destruct (BuildUnsignedTx_fixed _ _ _ Hp X) as (anys & Hany & ->) end.
  match goal with X : Sign _ _ _ = _ |- _ => eapply Sign_spec in X
    as (pk & addr & b & i & auth & sig & p & Hf & Eb & Ei & Ea & Es & Et & Hc); [|by split; left|done|done] end.
  cbn [tx Body TxAuthInfo] in Eb, Ei. simplify_eq. cbn [AuthFee] in *.
  match goal with X : DefaultTxEncoder _ = _ |- _ => destruct (DefaultTxEncoder_cache _ _ _ Hc X)
    as ((b' & i' & auth' & Eb' & Ei' & Ea' & ->) & _ & _) end.
  rewrite Et in *. cbn [Body TxAuthInfo TxSignatures] in *. simplify_eq. rewrite Ea in Ea'. injection Ea' as <-.
  eexists _, auth, sig, pk, addr, anys. split_and!; [by apply TxRaw_decodes|done|by eapply Hkm|done|done|done].
Qed.

(** What is returned are the bytes of a raw transaction. *)
Lemma BuildAndSign_bytes `{MsgInterface Msg} `{CryptoLib} (json : Tx Msg -> res bytes) name (msgs : list Msg) f bz raw :
  BuildAndSign json name msgs false f = Ok bz -> Z.of_nat (length bz) < 2 ^ 62 ->
  TxRaw_Unmarshal (MkTxRaw [] [] []) bz = Ok raw -> bz = TxRaw_Marshal raw.
Proof.
  intros E H62 Hd. unfold BuildAndSign in E. apply bind_Ok in E as (w & _ & E). apply bind_Ok in E as (w1 & _ & E).
  apply bind_Ok in E as ([bz' w2] & Ee & [= ->]). unfold DefaultTxEncoder in Ee.
  apply bind_Ok in Ee as ([body w3] & _ & Ee). apply bind_Ok in Ee as ([auth w4] & _ & [= <- _]).
  rewrite TxRaw_decodes in Hd by done. by injection Hd as <-.
Qed.

(* ------------------------------------------------------------------ *)
(** * Properties *)

(** C7: a built transaction carries a valid signature over its own content.  If
    the key manager's signatures verify under the key it finds, then whatever
    [BuildAndSign] returns for the given messages, memo and fixed fees decodes
    to a raw transaction with exactly one signature; that signature verifies
    under the key found for the name, over the sign document made of the body and
    auth info bytes in that transaction, the factory's chain id and account
    number; the body holds the packed messages and the memo, and the auth info
    the key, the direct mode, the sequence number, the fees and the gas. *)
Theorem BuildAndSign_verifies `{MsgInterface Msg} `{CryptoLib} (json : Tx Msg -> res bytes) name (msgs : list Msg) f bz :
  (forall pk a data sig p, km_Find (f_keyManager f) name (f_password f) = Ok (pk, a) ->
     km_Sign (f_keyManager f) name (f_password f) data = Ok (sig, p) -> VerifySignature pk data sig = Ok true) ->
  f_gasPrices f = [] -> f_txConfig f = Some direct_handlers -> f_signModeHandler f = Some direct_handlers ->
  BuildAndSign json name msgs false f = Ok bz -> Z.of_nat (length bz) < 2 ^ 62 ->
  exists body auth sig pk a anys,
    TxRaw_Unmarshal (MkTxRaw [] [] []) bz = Ok (MkTxRaw body auth [sig]) /\
    km_Find (f_keyManager f) name (f_password f) = Ok (pk, a) /\
    VerifySignature pk (SignDoc_Marshal (MkSignDoc body auth (f_chainID f) (f_accountNumber f))) sig = Ok true /\
    map_res NewAnyWithValue msgs = Ok anys /\ body = TxBody_Marshal (MkTxBody anys (f_memo f) 0 [] []) /\
    AuthInfo_Marshal (signed_info pk f (Some (MkFee (f_fees f) (f_gas f) "" ""))) = Ok auth.
Proof. apply BuildAndSign_signed. Qed.

(** Fees from gas prices are [ceil(gasPrice * gasLimit)].  With a chain id,
    gas prices and no fees, every price [x] (in units of [10^-18]) of a valid
    denomination contributes the least integer amount not below [x * gas], as
    long as the products stay within the bounds of the number types. *)
Theorem BuildUnsignedTx_fees `{MsgInterface Msg} (msgs : list Msg) f (w : wrapper Msg) :
  f_chainID f <> "" -> f_gasPrices f <> [] -> f_fees f = [] -> 0 <= f_gas f < 2 ^ 63 ->
  Forall (fun gp => exists d x, gp = decV d x /\ is_denom d = true /\ 0 < x /\
    dec_range (x * f_gas f) /\ int_range (dec_ceil (x * f_gas f))) (f_gasPrices f) ->
  BuildUnsignedTx msgs f = Ok w ->
  GetFee w = Ok (map (fun gp => MkCoin (Denom gp) (IntV (dec_ceil (coin_val gp * f_gas f)))) (f_gasPrices f)).
Proof.
  intros Hch Hne Hfe Hg Hall E. unfold BuildUnsignedTx in E. rewrite bool_decide_false, Hfe in E by done.
  change (Coins_IsZero []) with (@Ok bool true) in E.
  assert (DecCoins_IsZero (f_gasPrices f) = Ok false) as Hz.
  { destruct Hall as [|gp gps (d & x & -> & _ & Hx & _) _]; [done|].
    unfold DecCoins_IsZero. cbn [IsZero]. rewrite c_IsZero_val by (by eexists). cbn [mbind res_bind].
    change (coin_val (decV d x)) with x. by rewrite (proj2 (Z.eqb_neq x 0)) by lia. }
  rewrite Hz in E. cbn [mbind res_bind negb] in E. rewrite wrap_i64_id in E by (unfold is_int64; lia).
  rewrite NewDec_val in E. cbn [mbind res_bind] in E.
  assert (map_res (fee_for (DecV (f_gas f * precisionReuse))) (f_gasPrices f) =
    Ok (map (fun gp => MkCoin (Denom gp) (IntV (dec_ceil (coin_val gp * f_gas f)))) (f_gasPrices f))) as Hm.
  { clear -Hall Hg. induction Hall as [|gp gps (d & x & -> & Hd & Hx & Hr & Hi) _ IH]; [done|].
    rewrite map_res_cons, fee_for_ceil by (done || lia). cbn [mbind res_bind]. by rewrite IH. }
  rewrite Hm in E. cbn [mbind res_bind] in E.
  destruct (f_txConfig f); [|done]. cbn [deref mbind res_bind] in E. unfold SetMsgs in E.
  destruct (map_res NewAnyWithValue msgs) as [anys|e|e]; [|done..]. cbn in E. by injection E as <-.
Qed.

(** What the factory refuses.  Without a chain id nothing is built, and fees
    together with gas prices are an error; a gas limit of [2^63] or more is
    negative after the conversion to [int64], so fees from gas prices make the
    construction panic instead of returning an error. *)
Theorem BuildUnsignedTx_refuses `{MsgInterface Msg} (msgs : list Msg) f :
  (f_chainID f = "" -> BuildUnsignedTx msgs f = Err "chain ID required but not specified") /\
  (f_chainID f <> "" -> DecCoins_IsZero (f_gasPrices f) = Ok false -> Coins_IsZero (f_fees f) = Ok false ->
     BuildUnsignedTx msgs f = Err "cannot provide both fees and gas prices") /\
  (forall d, f_chainID f <> "" -> f_gasPrices f = [decV d precisionReuse] -> f_fees f = [] -> is_denom d = true ->
     f_gas f = 2 ^ 63 -> BuildUnsignedTx msgs f = Panic "negative coin amount: %v").
Proof.
  split_and!.
  - intros Hc. unfold BuildUnsignedTx. by rewrite bool_decide_true.
  - intros Hc Hp Hf. unfold BuildUnsignedTx. rewrite bool_decide_false, Hp, Hf by done. done.
  - intros d Hc Hp Hf Hd Hg. unfold BuildUnsignedTx. rewrite bool_decide_false, Hp, Hf, Hg by done.
    change (Coins_IsZero []) with (@Ok bool true). change (wrap_i64 (2 ^ 63)) with (- 2 ^ 63).
    change (DecCoins_IsZero [decV d precisionReuse]) with (@Ok bool false). cbn [mbind res_bind negb].
    rewrite NewDec_val. cbn [mbind res_bind map_res]. unfold fee_for. cbn [Amount Denom].
    change (Dec_Mul (DecV precisionReuse) (DecV (- 2 ^ 63 * precisionReuse))) with (Ok (DecV (- 2 ^ 63 * precisionReuse))).
    cbn [mbind res_bind]. change (Dec_Ceil (DecV (- 2 ^ 63 * precisionReuse))) with (Ok (DecV (- 2 ^ 63 * precisionReuse))).
    cbn [mbind res_bind]. change (Dec_RoundInt (DecV (- 2 ^ 63 * precisionReuse))) with (Ok (IntV (- 2 ^ 63))).
    cbn [mbind res_bind]. unfold NewCoin, validate, ValidateDenom. rewrite Hd. done.
Qed.

(** A factory with a key manager over the toy library, to evaluate. *)
Definition toy_sig : bytes := zeros 31 ++ [4] ++ zeros 31 ++ [1].
Definition toy_factory : Factory :=
  WithTxConfig (Some direct_handlers) (WithSignModeHandler (Some direct_handlers)
    (WithKeyManager (MkKeyManager (fun _ _ => Ok (Secp256k1Key [3; 1], [])) (fun _ _ _ => Ok (toy_sig, Secp256k1Key [3; 1])))
      (WithMemo "memo" (WithGas 7 (WithFee [MkCoin "plug" (IntV 12)] (WithAccountNumber 5 (WithSequence 2
        (WithChainID "plug-1" NewFactory)))))))).

Lemma BuildAndSign_verifies_witness :
  exists body auth sig,
    VerifySignature (L := toy_lib) (Secp256k1Key [3; 1]) (SignDoc_Marshal (MkSignDoc body auth "plug-1" 5)) sig = Ok true /\
    body = TxBody_Marshal (Msg := string * list bytes) (MkTxBody [] "memo" 0 [] []).
Proof.
  destruct (BuildAndSign (H := toy_msg) (fun _ => Ok []) "alice" [] false toy_factory) as [bz|e|e] eqn:E; [|discriminate..].
  destruct (BuildAndSign_verifies (H := toy_msg) (H0 := toy_lib) (fun _ => Ok []) "alice" [] toy_factory bz)
    as (body & auth & sig & pk & a & anys & _ & Hf & Hv & Hany & Hb & _).
  - intros pk a data sig p Hf Hs. cbn in Hf, Hs. injection Hf as <- <-. injection Hs as <- <-. vm_compute. reflexivity.
  - reflexivity.
  - reflexivity.
  - reflexivity.
  - exact E.
  - vm_compute in E. injection E as <-. vm_compute. reflexivity.
  - exists body, auth, sig. cbn in Hany. injection Hany as <-. injection Hf as <- <-. split; [exact Hv|exact Hb].
Defined.

Definition priced_factory : Factory :=
  let f := WithFee [] toy_factory in
  MkFactory (f_address f) (f_chainID f) (f_memo f) (f_password f) (f_accountNumber f) (f_sequence f)
    (f_gas f) (f_simulateAndExecute f) (f_fees f) [decV "plug" (precisionReuse / 4)] (f_mode f) (f_signMode f)
    (f_signModeHandler f) (f_keyManager f) (f_txConfig f).

Lemma BuildUnsignedTx_fees_witness :
  exists w, BuildUnsignedTx (H := toy_msg) [] priced_factory = Ok w /\ GetFee w = Ok [MkCoin "plug" (IntV 2)].
Proof.
  assert (is_ok (BuildUnsignedTx (H := toy_msg) [] priced_factory) = true) as Hok by (vm_compute; reflexivity).
  destruct (BuildUnsignedTx (H := toy_msg) [] priced_factory) as [w|e|e] eqn:E; [|discriminate Hok..].
  exists w. split; [reflexivity|].
  apply (BuildUnsignedTx_fees (H := toy_msg) [] priced_factory w).
  - discriminate.
  - discriminate.
  - reflexivity.
  - split; vm_compute; [discriminate|reflexivity].
  - repeat constructor. exists "plug", (precisionReuse / 4). split; [reflexivity|]. split; [reflexivity|].
    split; [vm_compute; reflexivity|]. split; vm_compute; reflexivity.
  - exact E.
Defined.

Lemma BuildUnsignedTx_refuses_witness :
  BuildUnsignedTx (H := toy_msg) [] (WithChainID "" toy_factory) = Err "chain ID required but not specified".
Proof. apply (proj1 (BuildUnsignedTx_refuses (H := toy_msg) [] (WithChainID "" toy_factory))). reflexivity. Defined.
