(* ===== verification/TxConfig.v ===== *)
(** The configuration of transactions ([types/tx/config.go]): which encoders,
    decoders and sign modes the client works with, and the encoders' behaviour on
    all the Go types that are transactions ([types/tx/encoder.go]); the ways to pack
    a value ([codec/types/any.go]), and the methods of the transaction builder that
    hand out what it holds ([types/tx/builder.go]). *)
From S2P Require Import Prelude GoStrings SdkInt CoinSet Coins BitArray Wire Decoding Keys Multisig Address TxTypes TxProto Registry AminoCompat Codec ProtoCodec UnknownProto Sigs TxBuilder TxDecode Factory.

(* ------------------------------------------------------------------ *)
(** * The configuration *)

(** A value of the interface [sdk.Tx]: a pointer to a wrapper, a pointer to a
    generated [Tx], or another type. *)
Inductive SdkTx (Msg : Type) := WrapperTx (w : wrapper Msg) | ProtoTx (t : Tx Msg) | OtherTx.
Arguments WrapperTx {_} _.
Arguments ProtoTx {_} _.
Arguments OtherTx {_}.

Section Config.
Context `{MI : MsgInterface Msg} `{B : Bech32Lib} `{AU : AnyUnpacker Msg} `{D : Descriptors T} `{W : ProtoWire} {IName : Type} `{AM : !AminoMessages IName (Tx Msg)}.
Variables TxRawType TxBodyType : T.
(** gogo protobuf's JSON, as in [ProtoCodec]. *)
Variables (jsonpb_MarshalToString : CAny (Tx Msg) -> res bytes) (jsonpb_Marshal : Tx Msg -> res bytes) (jsonpb_Unmarshal : bytes -> res (Tx Msg)).
Variable depth : nat.

Definition expected_tx : string := "expected %T, got %T".

(** The encoders fill the caches of the transaction they are given. *)
Definition TxEncoder_any : ST (SdkTx Msg) bytes := fun tx0 =>
  match tx0 with
  | WrapperTx w =>
      match getBodyBytes w with
      | Ok (body, w) =>
          match getAuthInfoBytes w with
          | Ok (auth, w) => (Ok (TxRaw_Marshal (MkTxRaw body auth (TxSignatures (tx w)))), WrapperTx w)
          | Err e => (Err e, WrapperTx w)
          | Panic p => (Panic p, WrapperTx w)
          end
      | Err e => (Err e, tx0)
      | Panic p => (Panic p, tx0)
      end
  | _ => (Err expected_tx, tx0)
  end.
Definition DefaultJSONTxEncoder : ST (SdkTx Msg) bytes := fun tx0 =>
  match tx0 with
  | WrapperTx w =>
      let '(r, t) := ProtoMarshalJSON jsonpb_MarshalToString jsonpb_Marshal depth (tx w) in
      (r, WrapperTx (MkWrapper t (bodyBz w) (authInfoBz w) (txBodyHasUnknownNonCriticals w)))
  | ProtoTx t => let '(r, t) := ProtoMarshalJSON jsonpb_MarshalToString jsonpb_Marshal depth t in (r, ProtoTx t)
  | OtherTx => (Err expected_tx, tx0)
  end.

Record config := MkConfig {
  handler : SignModeHandlerMap;
  decoder : bytes -> ST (caches (T := T)) (wrapper Msg); encoder : ST (SdkTx Msg) bytes;
  jsonDecoder : bytes -> res (wrapper Msg); jsonEncoder : ST (SdkTx Msg) bytes
}.
Definition NewTxConfig (enabledSignModes : list Z) : res config :=
  h ← MakeSignModeHandler enabledSignModes;
  Ok (MkConfig h (DefaultTxDecoder TxRawType TxBodyType) TxEncoder_any (DefaultJSONTxDecoder jsonpb_Unmarshal) DefaultJSONTxEncoder).

Definition config_NewTxBuilder (g : config) : wrapper Msg := newBuilder.
Definition config_WrapTxBuilder (g : config) (newTx : SdkTx Msg) : res (wrapper Msg) :=
  match newTx with WrapperTx w => Ok w | _ => Err expected_tx end.
Definition config_SignModeHandler (g : config) : SignModeHandlerMap := handler g.
Definition config_TxEncoder (g : config) : ST (SdkTx Msg) bytes := encoder g.
Definition config_TxDecoder (g : config) : bytes -> ST (caches (T := T)) (wrapper Msg) := decoder g.
Definition config_TxJSONEncoder (g : config) : ST (SdkTx Msg) bytes := jsonEncoder g.
Definition config_TxJSONDecoder (g : config) : bytes -> res (wrapper Msg) := jsonDecoder g.

(* ------------------------------------------------------------------ *)
(** * Properties *)

(** There is one configuration, that of the default sign modes; every other list of
    modes makes [NewTxConfig] panic.  A builder is wrapped as itself; its encoder
    fills the caches of the builder, and the empty transaction of a new builder is
    written as its empty fee.  A generated [Tx] can be written as JSON, like the
    wrapper that holds it, but not encoded. *)
Theorem NewTxConfig_spec :
  (forall modes, modes <> DefaultSignModes -> panics (NewTxConfig modes) = true) /\
  exists g, NewTxConfig DefaultSignModes = Ok g /\
  config_SignModeHandler g = direct_handlers /\
  (forall w, config_WrapTxBuilder g (WrapperTx w) = Ok w) /\
  (forall t, config_WrapTxBuilder g (ProtoTx t) = Err expected_tx /\ config_TxEncoder g (ProtoTx t) = (Err expected_tx, ProtoTx t)) /\
  (forall w bz w', DefaultTxEncoder w = Ok (bz, w') <-> config_TxEncoder g (WrapperTx w) = (Ok bz, WrapperTx w')) /\
  (forall t, fst (config_TxJSONEncoder g (ProtoTx t)) = fst (config_TxJSONEncoder g (WrapperTx (WrapTx t)))) /\
  (forall t w, config_TxJSONDecoder g t = Ok w -> bodyBz w = [] /\ authInfoBz w = []) /\
  fst (config_TxEncoder g (WrapperTx (config_NewTxBuilder g))) = Ok [18; 2; 18; 0].
Proof.
  split.
  { intros modes Hne. apply (proj1 MakeSignModeHandler_spec) in Hne. unfold NewTxConfig. by destruct (MakeSignModeHandler modes). }
  eexists. split; [unfold NewTxConfig; rewrite MakeSignModeHandler_direct; reflexivity|]. split_and!; try done.
  - intros w bz w'. unfold config_TxEncoder. cbn. unfold DefaultTxEncoder.
    destruct (getBodyBytes w) as [[body w1]| |]; cbn [mbind res_bind]; [|split; congruence..].
    destruct (getAuthInfoBytes w1) as [[auth w2]| |]; cbn [mbind res_bind]; split; congruence.
  - intros t. cbn. by destruct (ProtoMarshalJSON _ _ _ t).
  - intros t w E. cbn in E. unfold DefaultJSONTxDecoder in E. res_inv. done.
Qed.
End Config.

(* ------------------------------------------------------------------ *)
(** * Packing

    [V] is a type of Go values; [is_proto] says which are protobuf messages and
    [as_any] what [AsAny] answers for those that have it. *)
Section Packing.
Context `{PM : ProtoMessage V}.
Variables (is_proto : V -> bool) (as_any : V -> option (res (Any V))).

(** The type URL is set even when the value cannot be encoded. *)
Definition Pack (x : V) : ST (Any V) unit := fun any =>
  let any := MkAny ("/" +:+ MessageName x) (Value any) (Any_unrecognized any) (cachedValue any) in
  match proto_Marshal x with
  | Ok bz => (Ok tt, MkAny (TypeUrl any) bz (Any_unrecognized any) (Some x))
  | Err e => (Err e, any)
  | Panic p => (Panic p, any)
  end.
Definition GetCachedValue (any : Any V) : option V := cachedValue any.

(** [x] is a value of the empty interface: [None] is nil. *)
Definition UnsafePackAny (x : option V) : res (Any V) :=
  let unpacked := Ok (MkAny "" [] [] x) in
  match x with
  | Some msg =>
      if is_proto msg then
        match NewAnyWithValue msg with Ok any => Ok any | Err _ => unpacked | Panic p => Panic p end
      else unpacked
  | None => unpacked
  end.
Definition PackAny (x : option V) : res (option (Any V)) :=
  match x with
  | None => Ok None
  | Some v =>
      match as_any v with
      | Some any => a ← any; Ok (Some a)
      | None =>
          if negb (is_proto v) then Err "Expecting %T to implement proto.Message"
          else a ← NewAnyWithValue v; Ok (Some a)
      end
  end.
End Packing.

(* ------------------------------------------------------------------ *)
(** * The builder *)
Section Builder.
Context `{MI : MsgInterface Msg} `{B : Bech32Lib} `{PM : ProtoMessage (Tx Msg)}.

Definition wrapper_GetMsgs (w : wrapper Msg) : res (list Msg) := Tx_GetMsgs (tx w).
Definition wrapper_ValidateBasic (w : wrapper Msg) : res unit := Tx_ValidateBasic (tx w).
Definition wrapper_GetSignatures (w : wrapper Msg) : list bytes := TxSignatures (tx w).
Definition wrapper_GetTx (w : wrapper Msg) : wrapper Msg := w.
(** A generated [Tx] is a protobuf message. *)
Definition wrapper_AsAny (w : wrapper Msg) : res (Any (Tx Msg)) := UnsafePackAny (fun _ => true) (Some (tx w)).
Definition GetExtensionOptions (w : wrapper Msg) : res (list (Any Msg)) := b ← deref (Body (tx w)); Ok (ExtensionOptions b).
Definition GetNonCriticalExtensionOptions (w : wrapper Msg) : res (list (Any Msg)) :=
  b ← deref (Body (tx w)); Ok (NonCriticalExtensionOptions b).
End Builder.

(* ------------------------------------------------------------------ *)
(** * Properties *)

(** The three ways to pack a protobuf message agree when it can be encoded: each
    gives the [Any] with its name, bytes and value.  When it cannot, [PackAny]
    reports it, [UnsafePackAny] answers an [Any] without a name, and [Pack] leaves
    one with the name of the value and the bytes of another. *)
Theorem packing_agrees `{ProtoMessage V} is_proto as_any (v : V) :
  is_proto v = true -> as_any v = None ->
  (forall bz, proto_Marshal v = Ok bz ->
     NewAnyWithValue v = Ok (MkAny ("/" +:+ MessageName v) bz [] (Some v)) /\
     UnsafePackAny is_proto (Some v) = NewAnyWithValue v /\
     PackAny is_proto as_any (Some v) = Some <$> NewAnyWithValue v /\
     (forall any, Any_unrecognized any = [] -> Pack v any = (Ok tt, MkAny ("/" +:+ MessageName v) bz [] (Some v)))) /\
  (forall e, proto_Marshal v = Err e ->
     UnsafePackAny is_proto (Some v) = Ok (MkAny "" [] [] (Some v)) /\
     PackAny is_proto as_any (Some v) = Err e /\
     (forall any, Pack v any = (Err e, MkAny ("/" +:+ MessageName v) (Value any) (Any_unrecognized any) (cachedValue any)))).
Proof.
  intros Hp Ha. unfold UnsafePackAny, PackAny, Pack, NewAnyWithValue. rewrite Hp, Ha. split.
  - intros bz ->. split_and!; [done..|]. by intros any ->.
  - by intros e ->.
Qed.

(** What was stored as extension options is what is read, whatever the caches. *)
Theorem extension_options_read `{MsgInterface Msg} opts (w w1 : wrapper Msg) :
  SetExtensionOptions opts w = Ok w1 -> GetExtensionOptions w1 = Ok opts /\
    GetNonCriticalExtensionOptions w1 = GetNonCriticalExtensionOptions w /\ wrapper_GetMsgs w1 = wrapper_GetMsgs w /\
    wrapper_GetSignatures w1 = wrapper_GetSignatures w.
Proof.
  unfold SetExtensionOptions, set_body. intros E. destruct (Body (tx w)) as [b|] eqn:Eb; [|done].
  cbn in E. injection E as <-. unfold GetExtensionOptions, GetNonCriticalExtensionOptions, wrapper_GetMsgs, wrapper_GetSignatures, Tx_GetMsgs.
  cbn. by rewrite Eb.
Qed.
