(* ===== verification/Locker.v ===== *)
(** The sharded lock of [modules/base_client.go]: a lock per account, made of a
    fixed number of channels with room for one element; accounts are assigned to
    channels by a hash.

    [Lock] sends to a channel and [Unlock] receives from it; both block when the
    channel is full or empty.  Concurrent callers are a step relation. *)
From stdpp Require Import relations.
From S2P Require Import Prelude GoStrings.

(** A [chan int] of capacity one is the number of elements in its buffer. *)
Record locker := MkLocker { shards : list Z; size : Z }.

Definition chan_cap : Z := 1.

Definition NewLocker (size : Z) : res locker :=
  if size <? 0 then Panic "makeslice: len out of range"
  else Ok (MkLocker (replicate (Z.to_nat size) 0) size).

Definition prime32 : Z := 16777619.

Definition hash_byte (hash b : Z) : Z := Z.lxor (wrap_u32 (hash * prime32)) b.
Definition indexFor (key : string) : Z := foldl hash_byte 2166136261 (to_bytes key).

(** The index of the channel of a key. *)
Definition shard_index (l : locker) (key : string) : res nat :=
  if wrap_u64 (size l) =? 0 then Panic "integer divide by zero"
  else
    let index := indexFor key mod wrap_u64 (size l) in
    if Z.of_nat (length (shards l)) <=? index then Panic "index out of range" else Ok (Z.to_nat index).

(** The contents of a key's channel, with its index. *)
Definition getShard (l : locker) (key : string) : res (nat * Z) :=
  i ← shard_index l key;
  match shards l !! i with Some c => Ok (i, c) | None => Panic "index out of range" end.

(** [Lock] and [Unlock]; [None] when the channel operation blocks. *)
Definition Lock (key : string) (l : locker) : res (option locker) :=
  '(i, ch) ← getShard l key;
  Ok (if ch <? chan_cap then Some (MkLocker (<[i := ch + 1]> (shards l)) (size l)) else None).
Definition Unlock (key : string) (l : locker) : res (option locker) :=
  '(i, ch) ← getShard l key;
  Ok (if 0 <? ch then Some (MkLocker (<[i := ch - 1]> (shards l)) (size l)) else None).

(* ------------------------------------------------------------------ *)
(** * Concurrent callers *)

(** A goroutine calls [SendBatch] for an account, waits for its lock, holds it,
    and releases it when [SendBatch] returns. *)
Inductive thread := Idle | Waiting (key : string) | Holding (key : string).

Definition config : Type := locker * list thread.

Inductive step : config -> config -> Prop :=
| step_call l ts i key :
    ts !! i = Some Idle -> step (l, ts) (l, <[i := Waiting key]> ts)
| step_lock l l' ts i key :
    ts !! i = Some (Waiting key) -> Lock key l = Ok (Some l') -> step (l, ts) (l', <[i := Holding key]> ts)
| step_unlock l l' ts i key :
    ts !! i = Some (Holding key) -> Unlock key l = Ok (Some l') -> step (l, ts) (l', <[i := Idle]> ts).

(** [n] goroutines and a new lock. *)
Definition initial (n : nat) (size : Z) (c : config) : Prop :=
  exists l, NewLocker size = Ok l /\ c = (l, replicate n Idle).

(* ------------------------------------------------------------------ *)
(** * Lemmas *)

Lemma hash_byte_range h b : is_uint8 b -> is_uint32 (hash_byte h b).
Proof.
  intros Hb. unfold hash_byte, is_uint32, is_uint8, wrap_u32 in *.
  pose proof (Z.mod_pos_bound (h * prime32) (2 ^ 32) ltac:(lia)) as Hm.
  revert Hm. generalize ((h * prime32) mod 2 ^ 32) as m. intros m Hm.
  split; [apply Z.lxor_nonneg; lia|].
  destruct (Z.eq_dec (Z.lxor m b) 0) as [->|Hne]; [lia|].
  assert (0 <= Z.lxor m b) by (apply Z.lxor_nonneg; lia).
  apply Z.log2_lt_pow2; [lia|]. eapply Z.le_lt_trans; [apply Z.log2_lxor; lia|].
  apply Z.max_lub_lt.
  - destruct (Z.eq_dec m 0) as [->|]; [by compute|]. apply Z.log2_lt_pow2; lia.
  - destruct (Z.eq_dec b 0) as [->|]; [by compute|]. apply Z.log2_lt_pow2; lia.
Qed.

Lemma indexFor_range key : is_uint32 (indexFor key).
Proof.
  unfold indexFor. pose proof (to_bytes_uint8 key) as Hb. revert Hb. generalize (to_bytes key) as bz.
  assert (is_uint32 2166136261) as H0 by (unfold is_uint32; lia). revert H0. generalize 2166136261 as h.
  intros h Hh bz Hb. revert h Hh. induction Hb as [|b bz Hb _ IH]; intros h Hh; [done|]. apply IH. by apply hash_byte_range.
Qed.

(** A lock whose number of channels is its size. *)
Definition locker_wf (l : locker) : Prop := 0 < size l < 2 ^ 63 /\ length (shards l) = Z.to_nat (size l).

Definition index_of (n : Z) (key : string) : nat := Z.to_nat (indexFor key mod n).

Lemma shard_index_wf l key : locker_wf l ->
  shard_index l key = Ok (index_of (size l) key) /\ (index_of (size l) key < length (shards l))%nat.
Proof.
  intros [Hs Hl]. unfold shard_index, index_of. rewrite wrap_u64_id by (unfold is_uint64; lia).
  rewrite (proj2 (Z.eqb_neq _ 0)) by lia. pose proof (Z.mod_pos_bound (indexFor key) (size l) ltac:(lia)).
  rewrite (proj2 (Z.leb_gt _ _)) by lia. split; [done|lia].
Qed.

Lemma getShard_wf l key : locker_wf l ->
  exists c, shards l !! index_of (size l) key = Some c /\ getShard l key = Ok (index_of (size l) key, c).
Proof.
  intros Hl. destruct (shard_index_wf l key Hl) as [E Hi]. destruct (lookup_lt_is_Some_2 _ _ Hi) as [c Hc].
  exists c. split; [done|]. unfold getShard. rewrite E. cbn [mbind res_bind]. by rewrite Hc.
Qed.

(** The threads that hold channel [s], when there are [n] channels. *)
Definition holds (n : Z) (s : nat) (t : thread) : bool :=
  match t with Holding key => Nat.eqb (index_of n key) s | _ => false end.
Definition holders (n : Z) (s : nat) (ts : list thread) : Z := Z.of_nat (length (List.filter (holds n s) ts)).

Lemma holders_insert n s ts i t t' : ts !! i = Some t ->
  holders n s (<[i := t']> ts) = holders n s ts - Z.b2z (holds n s t) + Z.b2z (holds n s t').
Proof.
  intros Ht. unfold holders. rewrite <-(take_drop_middle ts i t Ht) at 2.
  rewrite insert_take_drop by by eapply lookup_lt_Some. rewrite !List.filter_app. cbn [List.filter]. rewrite !length_app.
  destruct (holds n s t), (holds n s t'); cbn [length Z.b2z]; lia.
Qed.

(** The invariant: each channel holds as many elements as threads hold it. *)
Definition inv (c : config) : Prop :=
  let '(l, ts) := c in
  locker_wf l /\ forall s ch, shards l !! s = Some ch -> ch = holders (size l) s ts /\ 0 <= ch <= chan_cap.

Lemma insert_shard l i c ts ts' : locker_wf l -> (i < length (shards l))%nat ->
  (forall s ch, shards l !! s = Some ch -> ch = holders (size l) s ts /\ 0 <= ch <= chan_cap) ->
  0 <= c <= chan_cap -> c = holders (size l) i ts' -> (forall s, s <> i -> holders (size l) s ts' = holders (size l) s ts) ->
  inv (MkLocker (<[i := c]> (shards l)) (size l), ts').
Proof.
  intros Hl Hi H Hc Ei Es. split; [split; [apply Hl|cbn [shards size]; rewrite length_insert; apply Hl]|]. cbn [shards size].
  intros s ch. rewrite list_lookup_insert_Some. intros [(<- & <- & _)|[Hne Hs]]; [done|].
  rewrite Es by done. by apply H.
Qed.

Lemma inv_initial n sz c : 0 < sz < 2 ^ 63 -> initial n sz c -> inv c.
Proof.
  intros Hs (l & E & ->). unfold NewLocker in E. rewrite (proj2 (Z.ltb_ge _ _)) in E by lia. injection E as <-.
  split; [split; [done|apply length_replicate]|]. intros s ch. cbn [shards size].
  intros [-> _]%lookup_replicate. assert (holders sz s (replicate n Idle) = 0) as ->; [|unfold chan_cap; lia].
  unfold holders. assert (List.filter (holds sz s) (replicate n Idle) = []) as ->; [by induction n|done].
Qed.

Lemma holds_index n s key : holds n s (Holding key) = true <-> s = index_of n key.
Proof. cbn. rewrite Nat.eqb_eq. naive_solver. Qed.

Lemma inv_step c c' : inv c -> step c c' -> inv c'.
Proof.
  intros Hinv Hs. destruct Hs as [l ts i key Ht|l l' ts i key Ht E|l l' ts i key Ht E]; destruct Hinv as [Hl H].
  - split; [done|]. intros s ch Hc. rewrite (holders_insert _ _ _ _ Idle) by done. cbn. destruct (H s ch Hc). lia.
  - unfold Lock in E. destruct (getShard_wf l key Hl) as (c & Hc & Eg). rewrite Eg in E. cbn [mbind res_bind] in E.
    destruct (Z.ltb_spec c chan_cap); [|done]. injection E as <-. destruct (H _ _ Hc) as [Ec Hb].
    apply (insert_shard l _ _ ts); [done|by eapply lookup_lt_Some|done|lia|..].
    + rewrite (holders_insert _ _ _ _ (Waiting key)) by done. rewrite (proj2 (holds_index _ _ _)) by done. cbn. lia.
    + intros s Hne. rewrite (holders_insert _ _ _ _ (Waiting key)) by done. cbn.
      rewrite (proj2 (Nat.eqb_neq _ _)) by done. cbn. lia.
  - unfold Unlock in E. destruct (getShard_wf l key Hl) as (c & Hc & Eg). rewrite Eg in E. cbn [mbind res_bind] in E.
    destruct (Z.ltb_spec 0 c); [|done]. injection E as <-. destruct (H _ _ Hc) as [Ec Hb].
    apply (insert_shard l _ _ ts); [done|by eapply lookup_lt_Some|done|lia|..].
    + rewrite (holders_insert _ _ _ _ (Holding key)) by done. rewrite (proj2 (holds_index _ _ _)) by done. cbn. lia.
    + intros s Hne. rewrite (holders_insert _ _ _ _ (Holding key)) by done. cbn.
      rewrite (proj2 (Nat.eqb_neq _ _)) by done. cbn. lia.
Qed.

Lemma inv_reachable n sz c0 c : 0 < sz < 2 ^ 63 -> initial n sz c0 -> rtc step c0 c -> inv c.
Proof.
  intros Hs H0 Hr. pose proof (inv_initial _ _ _ Hs H0) as Hi. clear H0. induction Hr as [|c1 c2 c3 H1 _ IH]; [done|].
  apply IH. by eapply inv_step.
Qed.

Lemma holders_two n s ts i j t t' : i <> j -> ts !! i = Some t -> ts !! j = Some t' -> holds n s t = true -> holds n s t' = true ->
  2 <= holders n s ts.
Proof.
  intros Hij Hi Hj Ht Ht'.
  pose proof (holders_insert n s ts i t Idle Hi) as E1. rewrite Ht in E1.
  pose proof (holders_insert n s (<[i := Idle]> ts) j t' Idle) as E2. rewrite Ht', list_lookup_insert_ne in E2 by done.
  specialize (E2 Hj). cbn in E1, E2. unfold holders in *. lia.
Qed.

Lemma holders_pos n s ts : 0 < holders n s ts -> exists i key, ts !! i = Some (Holding key) /\ index_of n key = s.
Proof.
  unfold holders. intros H. destruct (List.filter (holds n s) ts) as [|t l] eqn:E; [cbn in H; lia|].
  assert (In t (List.filter (holds n s) ts)) as Hin by (rewrite E; by left).
  apply List.filter_In in Hin as [Hin Ht]. apply list_elem_of_In, list_elem_of_lookup in Hin as [i Hi].
  destruct t as [| |key]; try done. exists i, key. split; [done|]. by apply Nat.eqb_eq.
Qed.

(* ------------------------------------------------------------------ *)
(** * Properties *)

(** C13: The lock excludes and does not deadlock.  In every reachable state of
    any number of concurrent callers with a new lock of positive size, at most
    one caller holds the channel of an account, so two callers never both hold
    the lock of the same account; a holder can always release; and a caller that
    waits can take the lock unless another caller holds its channel.  Neither
    [Lock] nor [Unlock] panics. *)
Theorem locker_excludes n sz c0 l ts :
  0 < sz < 2 ^ 63 -> initial n sz c0 -> rtc step c0 (l, ts) ->
  (forall i j k k', i <> j -> ts !! i = Some (Holding k) -> ts !! j = Some (Holding k') ->
     k <> k' /\ index_of (size l) k <> index_of (size l) k') /\
  (forall i k, ts !! i = Some (Holding k) -> exists l', Unlock k l = Ok (Some l')) /\
  (forall i k, ts !! i = Some (Waiting k) ->
     (exists l', Lock k l = Ok (Some l')) \/
     Lock k l = Ok None /\ exists j k', ts !! j = Some (Holding k') /\ index_of (size l) k' = index_of (size l) k).
Proof.
  intros Hs H0 Hr. destruct (inv_reachable _ _ _ _ Hs H0 Hr) as [Hl H]. split_and!.
  - intros i j k k' Hij Hi Hj. assert (index_of (size l) k <> index_of (size l) k') as Hne; [|by split; [intros ->|]].
    intros E. destruct (getShard_wf l k Hl) as (c & Hc & _). destruct (H _ _ Hc) as [Ec Hb].
    pose proof (holders_two (size l) (index_of (size l) k) ts i j _ _ Hij Hi Hj) as H2.
    rewrite !holds_index in H2. specialize (H2 eq_refl E). unfold chan_cap in Hb. lia.
  - intros i k Hi. destruct (getShard_wf l k Hl) as (c & Hc & Eg). destruct (H _ _ Hc) as [Ec Hb].
    unfold Unlock. rewrite Eg. cbn [mbind res_bind].
    pose proof (holders_insert (size l) (index_of (size l) k) ts i _ Idle Hi) as Eh.
    rewrite (proj2 (holds_index _ _ _)) in Eh by done. cbn in Eh.
    rewrite (proj2 (Z.ltb_lt 0 c)); [by eexists|]. unfold holders in *. lia.
  - intros i k Hi. destruct (getShard_wf l k Hl) as (c & Hc & Eg). destruct (H _ _ Hc) as [Ec Hb].
    unfold Lock. rewrite Eg. cbn [mbind res_bind]. destruct (Z.ltb_spec c chan_cap); [left; by eexists|right].
    split; [done|]. apply holders_pos. unfold chan_cap in *. lia.
Qed.

(** Locks of different accounts are not independent: with the size the client
    uses, accounts are assigned to 16 channels, and a caller for one account
    blocks callers for another. *)
Definition new16 : locker := MkLocker (replicate 16 0) 16.

Theorem locker_shares_channels :
  (forall l key, locker_wf l -> exists i, shard_index l key = Ok i /\ Z.of_nat i < size l) /\
  NewLocker 16 = Ok new16 /\
  exists k k' l, k <> k' /\ Lock k new16 = Ok (Some l) /\ Lock k' l = Ok None.
Proof.
  split; [|split; [reflexivity|]].
  - intros l key Hl. destruct (shard_index_wf l key Hl) as [E Hi]. eexists. split; [exact E|]. destruct Hl. lia.
  - exists "a", "q", (MkLocker (<[14%nat := 1]> (replicate 16 0)) 16). split; [done|]. split; vm_compute; reflexivity.
Qed.

(* ------------------------------------------------------------------ *)
(** * Witnesses *)

Definition held16 : locker := MkLocker (<[2%nat := 1]> (replicate 16 0)) 16.

Lemma toy_run : rtc step (new16, replicate 2 Idle) (held16, [Holding "gx1a"; Idle]).
Proof.
  eapply rtc_l; [exact (step_call new16 [Idle; Idle] 0 "gx1a" eq_refl)|].
  eapply rtc_l; [|apply rtc_refl].
  apply (step_lock new16 held16 [Waiting "gx1a"; Idle] 0 "gx1a"); [reflexivity|vm_compute; reflexivity].
Qed.

Lemma locker_excludes_witness : exists l, Unlock "gx1a" held16 = Ok (Some l).
Proof.
  apply (proj1 (proj2 (locker_excludes 2 16 (new16, replicate 2 Idle) held16 [Holding "gx1a"; Idle]
    (conj eq_refl eq_refl) (ex_intro _ new16 (conj eq_refl eq_refl)) toy_run)) 0%nat).
  reflexivity.
Defined.
