(* ===== verification/Client.v ===== *)
(** The client: [modules/base_client.go], [account.go], [token.go] and the
    sending part of [tx.go].

    The node, reached over gRPC and RPC, is the interface [Node]; its state [W]
    is the world outside of the client.  The state of the client is its cache,
    its lock and the world; an operation returns a value, an error or a panic,
    together with the state afterwards.  Logging is left out. *)
From Stdlib Require Import SpecFloat.
From S2P Require Import Prelude GoStrings BigText SdkInt SdkDec CoinSet CoinText Coins DecCoins CoinType BitArray Wire Keys Multisig Address Armor TxTypes Sigs TxBuilder Factory Events Errors Config Cache Locker.

(* ------------------------------------------------------------------ *)
(** * Data *)

Record accountInfo := MkAccountInfo { info_N : Z; info_S : Z }.

(** The values that are cached under one cache. *)
Inductive cached :=
| CachedAddress (s : string)
| CachedAccount (i : accountInfo)
| CachedToken (t : Token).

(** [sdk.BaseAccount] *)
Record BaseAccount := MkBaseAccount {
  acc_Address : string; acc_Coins : list Coin; acc_PubKey : string; acc_AccountNumber : Z; acc_Sequence : Z }.
(** [auth.BaseAccount]; the key is an encoded [Any]. *)
Record AuthAccount := MkAuthAccount {
  auth_Address : string; auth_PubKey : option bytes; auth_AccountNumber : Z; auth_Sequence : Z }.

Record BaseTx := MkBaseTx {
  From : string; Password : string; btx_Gas : Z; btx_Fee : DecCoins; btx_Memo : string; btx_Mode : string;
  btx_Simulate : bool; btx_AccountNumber : Z; btx_Sequence : Z }.

Record ResultTx := MkResultTx {
  GasWanted : Z; GasUsed : Z; res_Events : list StringEvent; res_Hash : string; res_Height : Z }.
Definition ResultTx_zero : ResultTx := MkResultTx 0 0 [] "" 0.

(** The responses of the node: [ResponseCheckTx] and [ResponseDeliverTx],
    [ResultBroadcastTxCommit], [ResultBroadcastTx]. *)
Record TxResponse := MkTxResponse {
  r_Code : Z; r_Codespace : string; r_Log : string; r_GasWanted : Z; r_GasUsed : Z; r_Events : list Event }.
Definition IsOK (r : TxResponse) : bool := r_Code r =? 0.
Record CommitResponse := MkCommit { CheckTx : TxResponse; DeliverTx : TxResponse; c_Hash : bytes; c_Height : Z }.
Record BroadcastResponse := MkBroadcast { b_Code : Z; b_Log : string; b_Hash : bytes }.

(** The node.  [conn_Close] may be called on a nil connection. *)
Class Node (W : Type) := {
  Conn : Type;
  GenConn : ST W Conn;
  conn_Close : option Conn -> ST W unit;
  grpc_Account : Conn -> string -> ST W bytes;
  grpc_AllBalances : Conn -> string -> ST W (list Coin);
  grpc_Token : Conn -> string -> ST W bytes;
  ABCIQuery : string -> bytes -> ST W bytes;
  node_BroadcastTxCommit : bytes -> ST W CommitResponse;
  node_BroadcastTxSync : bytes -> ST W BroadcastResponse;
  node_BroadcastTxAsync : bytes -> ST W BroadcastResponse;
}.

(** Decoding of responses: the interface registry ([None] is an account that is
    not a [*auth.BaseAccount]), and [jsonpb] for the gas used. *)
Class ClientCodec := {
  UnpackAccount : bytes -> res (option AuthAccount);
  UnpackPubKey : bytes -> res PubKey;
  UnpackToken : bytes -> res Token;
  jsonpb_GasUsed : bytes -> res Z;
}.

(** The state of a client. *)
Record client (W C : Type) := MkClient { cl_cache : LRU C; cl_locker : locker; cl_world : W }.
Arguments MkClient {_ _} _ _ _.
Arguments cl_cache {_ _} _.
Arguments cl_locker {_ _} _.
Arguments cl_world {_ _} _.

Definition cacheCapacity : Z := 100.
Definition concurrency : Z := 16.
Definition maxBatch : Z := 100.
Definition tryThreshold : nat := 3.
(** One minute, in nanoseconds. *)
Definition cacheExpirePeriod : Z := 60000000000.

(* ------------------------------------------------------------------ *)
(** * Floating point: the gas estimate *)

(** [float64(n)] and the product of two [float64]s. *)
Definition float64 (n : Z) : spec_float := binary_normalize 53 1024 n 0 false.
Definition float64_mul (x y : spec_float) : spec_float := SFmul 53 1024 x y.

(** [uint64(f)] truncates towards zero; the result is left to the
    implementation ([impl]) when the value does not fit. *)
Definition float_to_uint64 (impl : spec_float -> Z) (f : spec_float) : Z :=
  match f with
  | S754_zero _ => 0
  | S754_finite s m e =>
      let v := if 0 <=? e then Zpos m * 2 ^ e else Zpos m / 2 ^ (- e) in
      let v := if s then - v else v in
      if (0 <=? v) && (v <? 2 ^ 64) then v else impl f
  | _ => impl f
  end.

Definition adjustGasEstimate (impl : spec_float -> Z) (estimate : Z) (adjustment : spec_float) : Z :=
  float_to_uint64 impl (float64_mul adjustment (float64 estimate)).

(** [if err != nil { panic(err) }] for code with state, and a loop that appends
    the results of its body. *)
Definition panic_on_error {S A} (m : ST S A) : ST S A := fun s =>
  match m s with (Err e, s) => (Panic e, s) | r => r end.
Fixpoint collect {S A B} (body : A -> ST S B) (l : list A) (dst : list B) : ST S (list B) :=
  match l with
  | [] => mret dst
  | x :: l => y ← body x; collect body l (dst ++ [y])
  end.

(* ------------------------------------------------------------------ *)
(** * The operations *)
Section Client.
Context {W C D Msg : Type} `{Node W, GCache cached C, MsgInterface Msg, CryptoLib, AminoLib, Bech32Lib, ClientCodec}.
(** The configuration, the key manager, the transaction config, [ValidateBasic]
    of the messages, the JSON encoder, and the conversion of large floats. *)
Variable cfg : ClientConfig D.
Variable km : KeyManager.
Variable txConfig : option SignModeHandlerMap.
Variable ValidateBasic : Msg -> res unit.
Variable TxJSONEncoder : Tx Msg -> res bytes.
Variable impl : spec_float -> Z.

Abbreviation M := (ST (client W C)).

Definition NewBaseClient (w : W) : res (client W C) :=
  l ← NewLocker concurrency;
  Ok (MkClient (NewCache (V := cached) cacheCapacity (Cached cfg)) l w).

(** Calls to the world and to the cache. *)
Definition remote {A} (m : ST W A) : M A := fun s =>
  let '(r, w) := m (cl_world s) in (r, MkClient (cl_cache s) (cl_locker s) w).
Definition cache_Get (key : string) : M (option cached) := fun s =>
  let '(r, c) := lru_Get key (cl_cache s) in (Ok r, MkClient c (cl_locker s) (cl_world s)).
Definition cache_SetWithExpire (key : string) (v : cached) (t : Z) : M unit := fun s =>
  (Ok tt, MkClient (lru_SetWithExpire key v t (cl_cache s)) (cl_locker s) (cl_world s)).
Definition cache_Set (key : string) (v : cached) : M unit := fun s =>
  (Ok tt, MkClient (lru_Set key v (cl_cache s)) (cl_locker s) (cl_world s)).
Definition cache_Remove (key : string) : M bool := fun s =>
  let '(b, c) := lru_Remove (V := cached) key (cl_cache s) in (Ok b, MkClient c (cl_locker s) (cl_world s)).

(** The type assertions [v.(string)], [v.(accountInfo)], [v.(sdk.Token)]. *)
Definition as_string (v : cached) : res string :=
  match v with CachedAddress s => Ok s | _ => Panic "interface conversion" end.
Definition as_account (v : cached) : res accountInfo :=
  match v with CachedAccount i => Ok i | _ => Panic "interface conversion" end.
Definition as_token (v : cached) : res Token :=
  match v with CachedToken t => Ok t | _ => Panic "interface conversion" end.

(** [conn, err := GenConn(); defer conn.Close()] followed by the check of [err]:
    the deferred call runs on every path, and its panic replaces the result. *)
Definition with_conn {A} (body : Conn -> M A) : M A := fun s =>
  let '(conn, s) := remote GenConn s in
  match conn with
  | Panic p => (Panic p, s)
  | _ =>
      let '(r, s) := match conn with Ok conn => body conn s | Err e => (Err e, s) | Panic p => (Panic p, s) end in
      let '(rc, s) := remote (conn_Close (match conn with Ok conn => Some conn | _ => None end)) s in
      match rc with Panic p => (Panic p, s) | _ => (r, s) end
  end.

(* ------------------------------------------------------------------ *)
(** ** [account.go] *)

Definition account_prefixKey (address : string) : string := "account:" +:+ address.

(** [auth.BaseAccount.ConvertAccount]; a key that cannot be unpacked makes the
    account empty. *)
Definition ConvertAccount (acc : AuthAccount) : res BaseAccount :=
  let account := MkBaseAccount (auth_Address acc) [] "" (auth_AccountNumber acc) (auth_Sequence acc) in
  match auth_PubKey acc with
  | None => Ok account
  | Some any =>
      match UnpackPubKey any with
      | Err _ => Ok (MkBaseAccount "" [] "" 0 0)
      | Panic p => Panic p
      | Ok pk =>
          pkStr ← must (Bech32ifyPubKey "accpub" (PubKey_Bytes pk));
          Ok (MkBaseAccount (auth_Address acc) [] pkStr (auth_AccountNumber acc) (auth_Sequence acc))
      end
  end.

Definition QueryAccount (address : string) : M BaseAccount :=
  with_conn (fun conn =>
    response ← remote (grpc_Account conn address);
    baseAccount ← lift (UnpackAccount response);
    baseAccount ← lift (match baseAccount with Some a => Ok a | None => Panic "interface conversion" end);
    account ← lift (ConvertAccount baseAccount);
    balances ← remote (grpc_AllBalances conn address);
    mret (MkBaseAccount (acc_Address account) balances (acc_PubKey account) (acc_AccountNumber account) (acc_Sequence account))).

Definition saveAccount (account : BaseAccount) : M unit :=
  cache_SetWithExpire (account_prefixKey (acc_Address account))
    (CachedAccount (MkAccountInfo (acc_AccountNumber account) (acc_Sequence account))) cacheExpirePeriod.

Definition refresh (address : string) : M BaseAccount :=
  account ← QueryAccount address;
  _ ← saveAccount account;
  mret account.

Definition QueryAndRefreshAccount (address : string) : M BaseAccount :=
  account ← cache_Get (account_prefixKey address);
  match account with
  | None => refresh address
  | Some account =>
      acc ← lift (as_account account);
      let baseAcc := MkBaseAccount address [] "" (info_N acc) (wrap_u64 (info_S acc + 1)) in
      _ ← saveAccount baseAcc;
      mret baseAcc
  end.

Definition QueryAddress (name password : string) : M bytes :=
  let find : M bytes :=
    '(_, address) ← lift (km_Find km name password);
    text ← lift (Acc_String address);
    _ ← cache_SetWithExpire (account_prefixKey name) (CachedAddress text) cacheExpirePeriod;
    mret address in
  addr ← cache_Get (account_prefixKey name);
  match addr with
  | None => find
  | Some addr =>
      text ← lift (as_string addr);
      match AccAddressFromBech32 text with
      | Ok address => mret address
      | Err _ => _ ← cache_Remove (account_prefixKey name); find
      | Panic p => lift (Panic p)
      end
  end.

Definition removeCache (address : string) : M bool := cache_Remove (account_prefixKey address).

(* ------------------------------------------------------------------ *)
(** ** [token.go] *)

Definition token_prefixKey (symbol : string) : string := "token:" +:+ symbol.

(** The zero value [sdk.Token{}]. *)
Definition Token_zero : Token := MkToken "" "" 0 "" 0 0 false "".

Fixpoint SaveTokens (tokens : list Token) : M unit :=
  match tokens with
  | [] => mret tt
  | t :: tokens =>
      _ ← cache_Set (token_prefixKey (Token_Symbol t)) (CachedToken t);
      _ ← cache_Set (token_prefixKey (Token_MinUnit t)) (CachedToken t);
      SaveTokens tokens
  end.

(** A failed query counts as an unknown token. *)
Definition QueryToken (denom : string) : M Token :=
  let denom := ToLower denom in
  t ← cache_Get (token_prefixKey denom);
  match t with
  | Some t => lift (as_token t)
  | None =>
      with_conn (fun conn =>
        response ← attempt (remote (grpc_Token conn denom));
        match response with
        | Ok response =>
            token ← lift (UnpackToken response);
            _ ← SaveTokens [token];
            mret token
        | _ => mret Token_zero
        end)
  end.

Definition ToMinCoin (coins : list DecCoin) : M (list Coin) :=
  dstCoins ← collect (fun coin =>
    token ← QueryToken (Denom coin);
    lift (ConvertToMinCoin (GetCoinType token) coin)) coins [];
  mret (Coins_Sort dstCoins).

Definition ToMainCoin (coins : list Coin) : M (list DecCoin) :=
  dstCoins ← collect (fun coin =>
    token ← QueryToken (Denom coin);
    lift (ConvertToMainCoin (GetCoinType token) coin)) coins [];
  mret (DecCoins_Sort dstCoins).

(* ------------------------------------------------------------------ *)
(** ** Preparing and building *)

(** What [prepare] and [prepareTemp] do first and last. *)
Definition prepare_factory (baseTx : BaseTx) : res Factory :=
  h ← MakeSignModeHandler DefaultSignModes;
  Ok (WithTxConfig txConfig (WithSignModeHandler (Some h) (WithGas (Gas cfg)
       (WithSimulateAndExecute (btx_Simulate baseTx) (WithMode (cfg_Mode cfg) (WithKeyManager km
       (WithChainID (ChainId cfg) NewFactory))))))).

Definition prepare_rest (baseTx : BaseTx) (factory : Factory) : M Factory :=
  valid ← lift (if DecCoins_Empty (btx_Fee baseTx) then Ok false else DecCoins_IsValid (btx_Fee baseTx));
  fees ← (if (valid : bool) then ToMinCoin (btx_Fee baseTx) else panic_on_error (ToMinCoin (cfg_Fee cfg)));
  let factory := WithFee fees factory in
  let factory := if bool_decide (btx_Mode baseTx = "") then factory else WithMode (btx_Mode baseTx) factory in
  let factory := if 0 <? btx_Gas baseTx then WithGas (btx_Gas baseTx) factory else factory in
  let factory := if bool_decide (btx_Memo baseTx = "") then factory else WithMemo (btx_Memo baseTx) factory in
  mret factory.

Definition prepareTemp (addr : string) (accountNumber sequence : Z) (baseTx : BaseTx) : M Factory :=
  factory ← lift (prepare_factory baseTx);
  prepare_rest baseTx (WithPassword (Password baseTx) (WithSequence sequence (WithAccountNumber accountNumber
    (WithAddress addr factory)))).

Definition prepare (baseTx : BaseTx) : M Factory :=
  factory ← lift (prepare_factory baseTx);
  addr ← QueryAddress (From baseTx) (Password baseTx);
  text ← lift (Acc_String addr);
  let factory := WithAddress text factory in
  factory ← (if negb (btx_AccountNumber baseTx =? 0) && negb (btx_Sequence baseTx =? 0) then
               mret (WithPassword (Password baseTx) (WithSequence (btx_Sequence baseTx)
                 (WithAccountNumber (btx_AccountNumber baseTx) factory)))
             else
               account ← QueryAndRefreshAccount text;
               mret (WithPassword (Password baseTx) (WithSequence (acc_Sequence account)
                 (WithAccountNumber (acc_AccountNumber account) factory))));
  prepare_rest baseTx factory.

Definition buildTx (msgs : list Msg) (baseTx : BaseTx) : M (bytes * Factory) :=
  builder ← prepare baseTx;
  txByte ← lift (BuildAndSign TxJSONEncoder (From baseTx) msgs false builder);
  mret (txByte, builder).

Definition buildTxWithAccount (addr : string) (accountNumber sequence : Z) (msgs : list Msg) (baseTx : BaseTx) : M (bytes * Factory) :=
  builder ← prepareTemp addr accountNumber sequence baseTx;
  txByte ← lift (BuildAndSign TxJSONEncoder (From baseTx) msgs false builder);
  mret (txByte, builder).

(** [strings.ToUpper(hex.EncodeToString(tmhash.Sum(txByte)))], a SHA-256 hash. *)
Definition BuildTxHash (msg : list Msg) (baseTx : BaseTx) : M string :=
  '(txByte, _) ← buildTx msg baseTx;
  mret (hex_upper (Sha256 txByte)).

Definition base_BuildAndSign (msg : list Msg) (baseTx : BaseTx) : M bytes :=
  builder ← prepare baseTx;
  lift (BuildAndSign TxJSONEncoder (From baseTx) msg true builder).

(* ------------------------------------------------------------------ *)
(** ** Broadcasting ([tx.go]) *)

Definition EstimateTxGas (txBytes : bytes) : M Z :=
  value ← remote (ABCIQuery "/app/simulate" txBytes);
  gasUsed ← lift (jsonpb_GasUsed value);
  mret (adjustGasEstimate impl gasUsed (GasAdjustment cfg)).

(** An error of the SDK, by its text. *)
Definition fail_with {A} (e : res sdkError) : M A := lift (e ← e; Err (desc e)).

Definition broadcastTxCommit (tx : bytes) : M ResultTx :=
  r ← remote (node_BroadcastTxCommit tx);
  if negb (IsOK (CheckTx r)) then fail_with (GetError (r_Codespace (CheckTx r)) (r_Code (CheckTx r)) [r_Log (CheckTx r)])
  else if negb (IsOK (DeliverTx r)) then fail_with (GetError (r_Codespace (DeliverTx r)) (r_Code (DeliverTx r)) [r_Log (DeliverTx r)])
  else mret (MkResultTx (r_GasWanted (DeliverTx r)) (r_GasUsed (DeliverTx r)) (StringifyEvents (r_Events (DeliverTx r)))
               (hex_upper (c_Hash r)) (c_Height r)).

Definition broadcastTxSync (tx : bytes) : M ResultTx :=
  r ← remote (node_BroadcastTxSync tx);
  if negb (b_Code r =? 0) then fail_with (GetError RootCodespace (b_Code r) [b_Log r])
  else mret (MkResultTx 0 0 [] (hex_upper (b_Hash r)) 0).

Definition broadcastTxAsync (tx : bytes) : M ResultTx :=
  r ← remote (node_BroadcastTxAsync tx);
  mret (MkResultTx 0 0 [] (hex_upper (b_Hash r)) 0).

Definition broadcastTx (txBytes : bytes) (mode : string) (simulate : bool) : M ResultTx :=
  if simulate then
    estimateGas ← EstimateTxGas txBytes;
    mret (MkResultTx (wrap_i64 estimateGas) 0 [] "" 0)
  else if bool_decide (mode = Commit) then broadcastTxCommit txBytes
  else if bool_decide (mode = Async) then broadcastTxAsync txBytes
  else if bool_decide (mode = Sync) then broadcastTxSync txBytes
  else lift (Err "commit mode(%s) not supported").

(** [ValidateTxSize] is a stub. *)
Definition ValidateTxSize (txSize : Z) (msgs : list Msg) : option string := None.
Definition check_size (txSize : Z) (msgs : list Msg) : M unit :=
  match ValidateTxSize txSize msgs with None => mret tt | Some e => lift (Err e) end.

Definition BuildAndSend (msg : list Msg) (baseTx : BaseTx) : M ResultTx :=
  '(txByte, ctx) ← buildTx msg baseTx;
  _ ← check_size (Z.of_nat (length txByte)) msg;
  r ← attempt (broadcastTx txByte (f_mode ctx) (btx_Simulate baseTx));
  match r with
  | Err e => _ ← (if Cached cfg then removeCache (f_address ctx) else mret false); lift (Err e)
  | r => lift r
  end.

Definition BuildAndSendWithAccount (addr : string) (accountNumber sequence : Z) (msg : list Msg) (baseTx : BaseTx) : M ResultTx :=
  '(txByte, ctx) ← buildTxWithAccount addr accountNumber sequence msg baseTx;
  _ ← check_size (Z.of_nat (length txByte)) msg;
  broadcastTx txByte (f_mode ctx) (btx_Simulate baseTx).

(* ------------------------------------------------------------------ *)
(** ** [SendBatch] *)

(** The named result [rs] is part of the state, since it is what the caller gets
    when the function panics. *)
Abbreviation MB := (ST (client W C * list ResultTx)).
Definition in_batch {A} (m : M A) : MB A := fun '(s, rs) => let '(r, s) := m s in (r, (s, rs)).
Definition append_result (r : ResultTx) : MB unit := fun '(s, rs) => (Ok tt, (s, rs ++ [r])).

(** The end of the [retry] block: sent, or too large. *)
Inductive sending := Sent (r : ResultTx) | TooLarge (address : string).

(** The block [retry]: [k] is [tryThreshold - tryCnt].  Returns [k] afterwards. *)
Fixpoint retry (k : nat) (mss : list Msg) (baseTx : BaseTx) : M (sending * nat) :=
  '(txByte, ctx) ← buildTx mss baseTx;
  match ValidateTxSize (Z.of_nat (length txByte)) mss with
  | Some _ => mret (TooLarge (f_address ctx), k)
  | None =>
      r ← attempt (broadcastTx txByte (f_mode ctx) (btx_Simulate baseTx));
      match r with
      | Err e =>
          if Cached cfg then
            _ ← removeCache (f_address ctx);
            match k with
            | S (S _ as k') => retry k' mss baseTx
            | _ => lift (Err e)
            end
          else lift (Err e)
      | Ok res => mret (Sent res, k)
      | Panic p => lift (Panic p)
      end
  end.

(** The loop over the batches: [None] when all are sent, otherwise the index of
    the batch that is too large and the address whose cache entry is removed. *)
Fixpoint send_segments (k : nat) (i : Z) (segments : list (list Msg)) (baseTx : BaseTx) : MB (option (Z * string) * nat) :=
  match segments with
  | [] => mret (None, k)
  | mss :: segments =>
      '(r, k) ← in_batch (retry k mss baseTx);
      match r with
      | Sent res => _ ← append_result res; send_segments k (i + 1) segments baseTx
      | TooLarge address => mret (Some (i, address), k)
      end
  end.

(** The block [resize]; halving the batch ends in a division by zero, so the
    fuel [S batch] is enough. *)
Fixpoint resize (fuel : nat) (k : nat) (batch : Z) (msgs : list Msg) (baseTx : BaseTx) : MB unit :=
  segments ← lift (SubArray batch msgs);
  '(r, k) ← send_segments k 0 segments baseTx;
  match r with
  | None => mret tt
  | Some (i, address) =>
      _ ← in_batch (removeCache address);
      match fuel with
      | O => lift (Panic "integer divide by zero")
      | S fuel => resize fuel k (Z.quot batch 2) (drop (Z.to_nat (i * batch)) msgs) baseTx
      end
  end.

Definition send_all (msgs : list Msg) (baseTx : BaseTx) : MB unit :=
  resize (S (Z.to_nat maxBatch)) tryThreshold maxBatch msgs baseTx.

(** [SendBatch]: the results and the error; a panic after the deferred
    [CatchPanic] is recovered and the error stays nil.  The outer [None] is a
    lock that is not available. *)
Definition SendBatch (msgs : list Msg) (baseTx : BaseTx) (s : client W C) : option (list ResultTx * option string * client W C) :=
  match msgs with
  | [] => Some ([], Some "must have at least one message in list", s)
  | _ =>
      match for_each (fun _ m => ValidateBasic m) tt msgs with
      | Err e => Some ([], Some e, s)
      | Panic _ => Some ([], None, s)
      | Ok _ =>
          match Lock (From baseTx) (cl_locker s) with
          | Ok (Some l) =>
              let '(r, (s, rs)) := send_all msgs baseTx (MkClient (cl_cache s) l (cl_world s), []) in
              match Unlock (From baseTx) (cl_locker s) with
              | Ok (Some l) => Some (rs, err_of r, MkClient (cl_cache s) l (cl_world s))
              | Ok None => None
              | _ => Some (rs, err_of r, s)
              end
          | Ok None => None
          | _ => Some ([], None, s)
          end
      end
  end.
End Client.

(* ------------------------------------------------------------------ *)
(** * Relations between the states before and after

    [respects R m]: whatever the outcome, [m] relates the states before and
    after by [R].  For a preorder this is closed under the ways in which the
    operations are composed. *)
Definition respects {S A} (R : S -> S -> Prop) (m : ST S A) : Prop := forall s r s', m s = (r, s') -> R s s'.

Section Respects.
Context {S : Type} (R : S -> S -> Prop) `{!PreOrder R}.

Lemma respects_bind {A B} (m : ST S A) (f : A -> ST S B) :
  respects R m -> (forall a, respects R (f a)) -> respects R (m ≫= f).
Proof.
  intros Hm Hf s r s' E. unfold mbind, st_bind in E. destruct (m s) as [[a|e|p] s1] eqn:Em.
  - transitivity s1; [by eapply Hm|by eapply Hf].
  - injection E as <- <-. by eapply Hm.
  - injection E as <- <-. by eapply Hm.
Qed.
Lemma respects_ret {A} (a : A) : respects R (mret a : ST S A).
Proof. intros s r s' [= <- <-]. reflexivity. Qed.
Lemma respects_lift {A} (m : res A) : respects R (lift m : ST S A).
Proof. intros s r s' [= <- <-]. reflexivity. Qed.
Lemma respects_attempt {A} (m : ST S A) : respects R m -> respects R (attempt m).
Proof.
  intros Hm s r s' E. unfold attempt in E. destruct (m s) as [[a|e|p] s1] eqn:Em; injection E as <- <-; by eapply Hm.
Qed.
Lemma respects_panic {A} (m : ST S A) : respects R m -> respects R (panic_on_error m).
Proof.
  intros Hm s r s' E. unfold panic_on_error in E.
  destruct (m s) as [[a|e|p] s1] eqn:Em; injection E as <- <-; by eapply Hm.
Qed.
Lemma respects_collect {A B} (body : A -> ST S B) l dst : (forall x, respects R (body x)) -> respects R (collect body l dst).
Proof.
  intros Hb. revert dst. induction l as [|x l IH]; intros dst; [apply respects_ret|].
  apply respects_bind; [apply Hb|]. intros y. apply IH.
Qed.
End Respects.

Create HintDb respects.
#[export] Hint Resolve respects_bind respects_ret respects_lift respects_attempt respects_panic respects_collect : respects.
