(* ===== verification/ClientLemmas.v ===== *)
(** Lemmas on the operations of the client: which parts of the state they leave
    alone, the outcomes of the account queries, and the fields of the factory
    that [prepare] returns. *)
From Stdlib Require Import SpecFloat.
From S2P Require Import Prelude GoStrings BigText SdkInt SdkDec CoinSet CoinText Coins DecCoins CoinType BitArray Wire Keys Multisig Address Armor TxTypes Sigs TxBuilder Factory Events Errors Config Cache Locker Client.

(** The calls to the node that ask and do not broadcast. *)
Inductive node_query {W} `{Node W} : forall {A}, ST W A -> Prop :=
| q_GenConn : node_query GenConn
| q_Close c : node_query (conn_Close c)
| q_Account c a : node_query (grpc_Account c a)
| q_AllBalances c a : node_query (grpc_AllBalances c a)
| q_Token c d : node_query (grpc_Token c d)
| q_ABCIQuery p d : node_query (ABCIQuery p d).

(** The calls that broadcast a transaction. *)
Inductive node_broadcast {W} `{Node W} (tx : bytes) : forall {A}, ST W A -> Prop :=
| b_Commit : node_broadcast tx (node_BroadcastTxCommit tx)
| b_Sync : node_broadcast tx (node_BroadcastTxSync tx)
| b_Async : node_broadcast tx (node_BroadcastTxAsync tx).

(** [frame] follows the structure of an operation. *)
Ltac frame :=
  repeat first
    [ solve [eauto 2 with respects] | apply respects_bind; [exact _| |intros ?] | apply respects_collect; [exact _|intros ?]
    | apply respects_ret; exact _ | apply respects_lift; exact _ | apply respects_attempt | apply respects_panic
    | match goal with
      | |- respects _ (let '(_, _) := ?x in _) => destruct x
      | |- respects _ (match ?x with _ => _ end) => destruct x
      | |- respects _ (if ?x then _ else _) => destruct x
      end ].

(** A relation that does not look at the cache is respected by its uses. *)
Section CacheFrames.
Context {W C : Type} `{GCache cached C}.
Variable R : client W C -> client W C -> Prop.
Hypothesis Rcache : forall s c, R s (MkClient c (cl_locker s) (cl_world s)).

Lemma respects_cache_Get k : respects R (cache_Get k).
Proof. intros s r s' E. unfold cache_Get in E. destruct (lru_Get _ _). injection E as <- <-. apply Rcache. Qed.
Lemma respects_cache_SetWithExpire k v t : respects R (cache_SetWithExpire k v t).
Proof. intros s r s' [= <- <-]. apply Rcache. Qed.
Lemma respects_cache_Set k v : respects R (cache_Set k v).
Proof. intros s r s' [= <- <-]. apply Rcache. Qed.
Lemma respects_cache_Remove k : respects R (cache_Remove k).
Proof. intros s r s' E. unfold cache_Remove in E. destruct (lru_Remove _ _). injection E as <- <-. apply Rcache. Qed.
End CacheFrames.

Section Frames.
Context {W C D Msg : Type} `{Node W, GCache cached C, MsgInterface Msg, CryptoLib, AminoLib, Bech32Lib, ClientCodec}.
Variable cfg : ClientConfig D.
Variable km : KeyManager.
Variable txConfig : option SignModeHandlerMap.
Variable TxJSONEncoder : Tx Msg -> res bytes.
Variable impl : spec_float -> Z.

(** A preorder that the queries and the uses of the cache respect. *)
Variable R : client W C -> client W C -> Prop.
Context `{!PreOrder R}.
Hypothesis Rquery : forall A (m : ST W A), node_query m -> respects R (remote m).
Hypothesis Rget : forall k, respects R (cache_Get k).
Hypothesis Rtoken : forall k t, respects R (cache_Set (token_prefixKey k) (CachedToken t)).
Hypothesis Rsave : forall k v t, respects R (cache_SetWithExpire (account_prefixKey k) v t).
Hypothesis Rdrop : forall k, respects R (cache_Remove (account_prefixKey k)).

Lemma respects_with_conn {A} (body : Conn -> ST (client W C) A) :
  (forall c, respects R (body c)) -> respects R (with_conn body).
Proof.
  intros Hb s r s' E. unfold with_conn in E. destruct (remote GenConn s) as [conn s1] eqn:E1.
  assert (R s s1) as Hs1 by (eapply Rquery; [apply q_GenConn|exact E1]).
  destruct conn as [c|e|p]; [| |by injection E as <- <-].
  - destruct (body c s1) as [r2 s2] eqn:E2. destruct (remote (conn_Close (Some c)) s2) as [rc s3] eqn:E3.
    assert (s' = s3) as -> by (destruct rc; by injection E).
    transitivity s1; [done|]. transitivity s2; [by eapply Hb|]. eapply Rquery; [apply q_Close|exact E3].
  - destruct (remote (conn_Close None) s1) as [rc s3] eqn:E3. assert (s' = s3) as -> by (destruct rc; by injection E).
    transitivity s1; [done|]. eapply Rquery; [apply q_Close|exact E3].
Qed.

#[local] Hint Resolve Rquery Rget Rtoken Rsave Rdrop : respects.
#[local] Hint Constructors node_query : respects.

Lemma respects_QueryAccount a : respects R (QueryAccount a).
Proof. unfold QueryAccount. apply respects_with_conn. intros c. frame. Qed.
Lemma respects_QueryAndRefreshAccount a : respects R (QueryAndRefreshAccount a).
Proof. unfold QueryAndRefreshAccount, refresh, saveAccount. pose proof respects_QueryAccount. frame. Qed.
Lemma respects_QueryAddress n p : respects R (QueryAddress km n p).
Proof. unfold QueryAddress. frame. Qed.
Lemma respects_SaveTokens ts : respects R (SaveTokens ts).
Proof. induction ts as [|t ts IH]; cbn [SaveTokens]; frame. Qed.
Lemma respects_QueryToken d : respects R (QueryToken d).
Proof. unfold QueryToken. pose proof respects_SaveTokens. pose proof @respects_with_conn. frame. apply respects_with_conn. intros c. frame.
Qed.
Lemma respects_ToMinCoin l : respects R (ToMinCoin l).
Proof. unfold ToMinCoin. pose proof respects_QueryToken. frame. Qed.
Lemma respects_ToMainCoin l : respects R (ToMainCoin l).
Proof. unfold ToMainCoin. pose proof respects_QueryToken. frame. Qed.
Lemma respects_prepare_rest b f : respects R (prepare_rest cfg b f).
Proof. unfold prepare_rest. pose proof respects_ToMinCoin. frame. Qed.
Lemma respects_prepare b : respects R (prepare cfg km txConfig b).
Proof.
  unfold prepare. pose proof respects_QueryAddress. pose proof respects_QueryAndRefreshAccount.
  pose proof respects_prepare_rest. frame.
Qed.
End Frames.

(** What an operation that prepares transactions respects. *)
Section Sending.
Context {W C D Msg : Type} `{Node W, GCache cached C, MsgInterface Msg, CryptoLib, AminoLib, Bech32Lib, ClientCodec}.
Variable cfg : ClientConfig D.
Variable km : KeyManager.
Variable txConfig : option SignModeHandlerMap.
Variable ValidateBasic : Msg -> res unit.
Variable TxJSONEncoder : Tx Msg -> res bytes.
Variable impl : spec_float -> Z.
Variable b : BaseTx.
Variable R : client W C -> client W C -> Prop.
Context `{!PreOrder R}.
Hypothesis Rprepare : respects R (prepare cfg km txConfig b).
Hypothesis Rquery : forall A (m : ST W A), node_query m -> respects R (remote m).
Hypothesis Rdrop : forall k, respects R (cache_Remove (account_prefixKey k)).
Hypothesis Rbroadcast : forall tx A (m : ST W A), node_broadcast tx m -> respects R (remote m).
Hint Resolve Rprepare Rquery Rdrop Rbroadcast : respects.
Hint Constructors node_query node_broadcast : respects.

Lemma respects_buildTx ms : respects R (buildTx cfg km txConfig TxJSONEncoder ms b).
Proof. unfold buildTx. frame. Qed.
Lemma respects_BuildTxHash ms : respects R (BuildTxHash cfg km txConfig TxJSONEncoder ms b).
Proof. unfold BuildTxHash. pose proof respects_buildTx. frame. Qed.
Lemma respects_base_BuildAndSign ms : respects R (base_BuildAndSign cfg km txConfig TxJSONEncoder ms b).
Proof. unfold base_BuildAndSign. frame. Qed.
Lemma respects_EstimateTxGas bz : respects R (EstimateTxGas cfg impl bz).
Proof. unfold EstimateTxGas. frame. Qed.
Lemma respects_removeCache a : respects R (removeCache a).
Proof. apply Rdrop. Qed.

Lemma respects_broadcastTx tx mode sim : respects R (broadcastTx cfg impl tx mode sim).
Proof.
  unfold broadcastTx, broadcastTxCommit, broadcastTxSync, broadcastTxAsync, fail_with.
  pose proof respects_EstimateTxGas. frame.
Qed.

Lemma respects_BuildAndSend ms : respects R (BuildAndSend cfg km txConfig TxJSONEncoder impl ms b).
Proof.
  unfold BuildAndSend, check_size. pose proof respects_buildTx. pose proof respects_broadcastTx. pose proof respects_removeCache.
  frame.
Qed.

Lemma respects_BuildAndSendWithAccount addr n q ms : (forall f, respects R (prepare_rest cfg b f)) ->
  respects R (BuildAndSendWithAccount cfg km txConfig TxJSONEncoder impl addr n q ms b).
Proof.
  intros Hrest. unfold BuildAndSendWithAccount, buildTxWithAccount, prepareTemp, check_size. pose proof respects_broadcastTx. frame.
Qed.

Lemma respects_retry k ms : respects R (retry cfg km txConfig TxJSONEncoder impl k ms b).
Proof.
  pose proof respects_buildTx. pose proof respects_broadcastTx. pose proof respects_removeCache.
  induction k as [|k IH]; cbn [retry]; frame.
Qed.

(** The same for the batches, whose state also holds the results. *)
Definition on_client (s s' : client W C * list ResultTx) : Prop := R (fst s) (fst s').
#[local] Instance on_client_preorder : PreOrder on_client.
Proof. split; [intros s; by unfold on_client|]. intros s1 s2 s3. unfold on_client. by transitivity (fst s2). Qed.

Lemma respects_in_batch {A} (m : ST (client W C) A) : respects R m -> respects on_client (in_batch m).
Proof.
  intros Hm [s rs] r [s' rs'] E. unfold in_batch in E. destruct (m s) as [r1 s1] eqn:E1. injection E as <- <- <-. by eapply Hm.
Qed.
Lemma respects_append r : respects on_client (append_result r).
Proof. intros [s rs] r' [s' rs'] [= <- <- <-]. unfold on_client. reflexivity. Qed.

Lemma respects_send_segments k i segs : respects on_client (send_segments cfg km txConfig TxJSONEncoder impl k i segs b).
Proof.
  pose proof @respects_in_batch. pose proof respects_retry. pose proof respects_append.
  revert k i. induction segs as [|ms segs IH]; intros k i; cbn [send_segments]; frame.
Qed.
Lemma respects_resize fuel k batch ms : respects on_client (resize cfg km txConfig TxJSONEncoder impl fuel k batch ms b).
Proof.
  pose proof @respects_in_batch. pose proof respects_send_segments. pose proof respects_removeCache.
  revert k batch ms. induction fuel as [|fuel IH]; intros k batch ms; cbn [resize]; frame.
Qed.
Lemma respects_send_all ms : respects on_client (send_all cfg km txConfig TxJSONEncoder impl ms b).
Proof. apply respects_resize. Qed.

(** [SendBatch] also takes and releases the lock. *)
Hypothesis Rlock : forall s l, R s (MkClient (cl_cache s) l (cl_world s)).
Lemma respects_SendBatch ms s rs e s' :
  SendBatch cfg km txConfig ValidateBasic TxJSONEncoder impl ms b s = Some (rs, e, s') -> R s s'.
Proof.
  intros E. unfold SendBatch in E. destruct ms as [|m ms]; [by simplify_eq|].
  destruct (for_each _ _ _) as [?|?|?]; [|by simplify_eq..].
  destruct (Lock _ _) as [[l|]|?|?]; [|by simplify_eq..].
  destruct (send_all _ _ _ _ _ _ _ _) as [r [s1 rs1]] eqn:Es.
  apply respects_send_all in Es. unfold on_client in Es. cbn [fst] in Es.
  assert (R s s1) as Hs by (transitivity (MkClient (cl_cache s) l (cl_world s)); [apply Rlock|exact Es]).
  destruct (Unlock _ _) as [[l'|]|?|?]; simplify_eq; [|done..]. transitivity s1; [done|apply Rlock].
Qed.
End Sending.

(* ------------------------------------------------------------------ *)
(** * What [prepare] returns *)

(** Two factories that sign alike. *)
Definition signs_like (f f' : Factory) : Prop :=
  f_keyManager f' = f_keyManager f /\ f_password f' = f_password f /\ f_txConfig f' = f_txConfig f /\
  f_signModeHandler f' = f_signModeHandler f /\ f_chainID f' = f_chainID f /\
  f_accountNumber f' = f_accountNumber f /\ f_sequence f' = f_sequence f /\ f_address f' = f_address f /\
  f_gasPrices f' = f_gasPrices f.

(** The caller gives the account number and the sequence number. *)
Definition numbers_given (b : BaseTx) : bool := negb (btx_AccountNumber b =? 0) && negb (btx_Sequence b =? 0).

Section Prepare.
Context {W C D Msg : Type} `{Node W, GCache cached C, MsgInterface Msg, CryptoLib, AminoLib, Bech32Lib, ClientCodec}.
Variable cfg : ClientConfig D.
Variable km : KeyManager.
Variable txConfig : option SignModeHandlerMap.

Lemma prepare_rest_fields b f (s : client W C) f' s' : prepare_rest cfg b f s = (Ok f', s') ->
  signs_like f f' /\ f_memo f' = (if bool_decide (btx_Memo b = "") then f_memo f else btx_Memo b) /\
  f_gas f' = (if 0 <? btx_Gas b then btx_Gas b else f_gas f) /\
  f_mode f' = (if bool_decide (btx_Mode b = "") then f_mode f else btx_Mode b).
Proof.
  intros E. unfold prepare_rest in E. st_inv. unfold signs_like.
  repeat case_bool_decide; destruct (0 <? btx_Gas b); by split_and!.
Qed.

Lemma prepare_factory_fields b f : prepare_factory cfg km txConfig b = Ok f ->
  f_keyManager f = km /\ f_txConfig f = txConfig /\ f_signModeHandler f = Some direct_handlers /\ f_chainID f = ChainId cfg /\
  f_gasPrices f = [] /\ f_memo f = "" /\ f_gas f = Gas cfg /\ f_mode f = cfg_Mode cfg.
Proof. intros E. unfold prepare_factory in E. rewrite MakeSignModeHandler_direct in E. by injection E as <-. Qed.

Lemma prepare_fields b (s : client W C) f s' : prepare cfg km txConfig b s = (Ok f, s') ->
  exists addr text s1,
    QueryAddress km (From b) (Password b) s = (Ok addr, s1) /\ Acc_String addr = Ok text /\
    f_keyManager f = km /\ f_password f = Password b /\ f_txConfig f = txConfig /\
    f_signModeHandler f = Some direct_handlers /\ f_chainID f = ChainId cfg /\ f_gasPrices f = [] /\ f_address f = text /\
    f_memo f = btx_Memo b /\ f_gas f = (if 0 <? btx_Gas b then btx_Gas b else Gas cfg) /\
    (if numbers_given b then f_accountNumber f = btx_AccountNumber b /\ f_sequence f = btx_Sequence b
     else exists acc s2, QueryAndRefreshAccount text s1 = (Ok acc, s2) /\
            f_accountNumber f = acc_AccountNumber acc /\ f_sequence f = acc_Sequence acc).
Proof.
  intros E. unfold prepare in E. st_inv.
  match goal with X : prepare_factory _ _ _ _ = Ok ?f0 |- _ =>
    destruct (prepare_factory_fields _ _ X) as (K1 & K2 & K3 & K4 & K5 & K6 & K7 & K8); clear X end.
  apply prepare_rest_fields in E as ((L1 & L2 & L3 & L4 & L5 & L6 & L7 & L8 & L9) & Lm & Lg & _).
  match goal with X : QueryAddress _ _ _ _ = (Ok ?a, ?s1), Y : Acc_String ?a = Ok ?t |- _ => exists a, t, s1; split; [done|split; [done|]] end.
  unfold numbers_given. destruct (negb _ && negb _).
  - st_inv. cbn in *. rewrite Lm, Lg, K6, K7. split_and!; try congruence. by case_bool_decide.
  - st_inv. cbn in *. rewrite Lm, Lg, K6, K7. split_and!; try congruence; [by case_bool_decide|eauto].
Qed.

(** The steps of [prepare] when the node is to be asked for the numbers. *)
Lemma prepare_steps b (s : client W C) f s' : prepare cfg km txConfig b s = (Ok f, s') -> numbers_given b = false ->
  exists addr s1 acc s2 f0,
    QueryAddress km (From b) (Password b) s = (Ok addr, s1) /\ Acc_String addr = Ok (f_address f) /\
    QueryAndRefreshAccount (f_address f) s1 = (Ok acc, s2) /\ prepare_rest cfg b f0 s2 = (Ok f, s') /\
    f_accountNumber f = acc_AccountNumber acc /\ f_sequence f = acc_Sequence acc.
Proof.
  intros E Hn. unfold prepare in E. unfold numbers_given in Hn. rewrite Hn in E. st_inv.
  match goal with X : prepare_rest _ _ _ _ = _ |- _ => pose proof X as Hr; apply prepare_rest_fields in Hr as ((_ & _ & _ & _ & _ & La & Ls & Lx & _) & _) end.
  cbn in La, Ls, Lx. rewrite Lx. eauto 12.
Qed.

(** The mode of broadcasting. *)
Definition mode_of (b : BaseTx) : string := if bool_decide (btx_Mode b = "") then cfg_Mode cfg else btx_Mode b.
Lemma prepare_mode b (s : client W C) f s' : prepare cfg km txConfig b s = (Ok f, s') -> f_mode f = mode_of b.
Proof.
  intros E. unfold prepare in E. st_inv.
  match goal with X : prepare_factory _ _ _ _ = Ok ?f0 |- _ => destruct (prepare_factory_fields _ _ X) as (_ & _ & _ & _ & _ & _ & _ & K); clear X end.
  match goal with X : prepare_rest _ _ _ _ = _ |- _ => apply prepare_rest_fields in X as (_ & _ & _ & Lm) end.
  rewrite Lm. unfold mode_of. case_bool_decide; [|done]. destruct (negb _ && negb _); st_inv; done.
Qed.
End Prepare.
