(* ===== verification/Results.v ===== *)
(** Responses for display: [types/result.go]; and raw queries of the node's stores:
    [Query], [QueryWithResponse] and [QueryStore] of [modules/base_client.go].

    Tendermint's results are given by the fields that the code reads; the decoder
    of logs ([encoding/json]) and the printer of logs (amino) are parameters. *)
From Stdlib Require Import Ascii SpecFloat.
From S2P Require Import Prelude GoStrings BigText SdkInt CoinSet Coins Wire Keys Multisig Armor TxTypes TxProto Events Client.

Record ABCIMessageLog := MkABCIMessageLog { log_MsgIndex : Z; log_Log : string; log_Events : list StringEvent }.
(** [abci.ResponseCheckTx] and [abci.ResponseDeliverTx]. *)
Record ABCIResult := MkABCIResult {
  ar_Code : Z; ar_Codespace : string; ar_Data : bytes; ar_Log : string; ar_Info : string; ar_GasWanted : Z; ar_GasUsed : Z }.
(** [ctypes.ResultTx], [ctypes.ResultBroadcastTxCommit] and [ctypes.ResultBroadcastTx]. *)
Record TmTx := MkTmTx { tt_Hash : bytes; tt_Height : Z; tt_TxResult : ABCIResult }.
Record TmCommit := MkTmCommit { tc_CheckTx : ABCIResult; tc_DeliverTx : ABCIResult; tc_Hash : bytes; tc_Height : Z }.
Record TmBroadcast := MkTmBroadcast { tb_Code : Z; tb_Codespace : string; tb_Data : bytes; tb_Log : string; tb_Hash : bytes }.

(** [TxResponse]; nil and empty lists of logs are not the same. *)
Record TxResponse (V : Type) := MkTxResponse {
  rsp_Height : Z; rsp_TxHash : string; rsp_Codespace : string; rsp_Code : Z; rsp_Data : string; rsp_RawLog : string;
  rsp_Logs : option (list ABCIMessageLog); rsp_Info : string; rsp_GasWanted : Z; rsp_GasUsed : Z; rsp_Tx : option (Any V);
  rsp_Timestamp : string }.
Arguments MkTxResponse {_} _ _ _ _ _ _ _ _ _ _ _ _.
Arguments rsp_Height {_} _.
Arguments rsp_TxHash {_} _.
Arguments rsp_Codespace {_} _.
Arguments rsp_Code {_} _.
Arguments rsp_Data {_} _.
Arguments rsp_RawLog {_} _.
Arguments rsp_Logs {_} _.
Arguments rsp_Info {_} _.
Arguments rsp_GasWanted {_} _.
Arguments rsp_GasUsed {_} _.
Arguments rsp_Tx {_} _.
Arguments rsp_Timestamp {_} _.
Record SearchTxsResult (V : Type) := MkSearchTxsResult {
  str_TotalCount : Z; str_Count : Z; str_PageNumber : Z; str_PageTotal : Z; str_Limit : Z; str_Txs : list (option (TxResponse V)) }.
Arguments MkSearchTxsResult {_} _ _ _ _ _ _.
Arguments str_TotalCount {_} _.
Arguments str_Count {_} _.
Arguments str_PageNumber {_} _.
Arguments str_PageTotal {_} _.
Arguments str_Limit {_} _.
Arguments str_Txs {_} _.

Definition NewABCIMessageLog (i : Z) (log : string) (events : list Event) : ABCIMessageLog :=
  MkABCIMessageLog i log (StringifyEvents (ToABCIEvents events)).
Definition GetEvents (events : list Event) : list Event := map (fun e => MkEvent (ev_Type e) (ev_Attributes e)) events.

Section Responses.
Context {V : Type}.
(** [json.Unmarshal] into a list of logs: the logs, also those read before an
    error, which is dropped; [cdc.MarshalJSON] of a list of logs. *)
Variable json_Logs : string -> option (list ABCIMessageLog).
Variable amino_Logs : list ABCIMessageLog -> res string.
Abbreviation response := (TxResponse V).

Definition NewResponseResultTx (r : option TmTx) (anyTx : option (Any V)) (timestamp : string) : option response :=
  match r with
  | None => None
  | Some (MkTmTx hash height t) =>
      Some (MkTxResponse height (hex_upper hash) (ar_Codespace t) (ar_Code t) (hex_upper (ar_Data t)) (ar_Log t) (json_Logs (ar_Log t))
              (ar_Info t) (ar_GasWanted t) (ar_GasUsed t) anyTx timestamp)
  end.
(** The hash of nil is the empty text, like that of no bytes. *)
Definition of_result (r : TmCommit) (t : ABCIResult) : response :=
  MkTxResponse (tc_Height r) (hex_upper (tc_Hash r)) (ar_Codespace t) (ar_Code t) (hex_upper (ar_Data t)) (ar_Log t) (json_Logs (ar_Log t))
    (ar_Info t) (ar_GasWanted t) (ar_GasUsed t) None "".
Definition newTxResponseCheckTx (r : option TmCommit) : option response := r ← r; Some (of_result r (tc_CheckTx r)).
Definition newTxResponseDeliverTx (r : option TmCommit) : option response := r ← r; Some (of_result r (tc_DeliverTx r)).
Definition NewResponseFormatBroadcastTxCommit (r : option TmCommit) : option response :=
  match r with
  | None => None
  | Some c => if negb (ar_Code (tc_CheckTx c) =? 0) then newTxResponseCheckTx r else newTxResponseDeliverTx r
  end.
Definition NewResponseFormatBroadcastTx (r : option TmBroadcast) : option response :=
  match r with
  | None => None
  | Some b => Some (MkTxResponse 0 (hex_upper (tb_Hash b)) (tb_Codespace b) (tb_Code b) (hex_upper (tb_Data b)) (tb_Log b) (json_Logs (tb_Log b))
                      "" 0 0 None "")
  end.

(** [ABCIMessageLogs.String] *)
Definition Logs_String (logs : option (list ABCIMessageLog)) : string :=
  match logs with None => "" | Some l => match amino_Logs l with Ok s => s | _ => "" end end.
Definition newline : string := String "010"%char "".
Definition line (label value : string) : string := "  " +:+ label +:+ ": " +:+ value +:+ newline.
Definition num_line (cond : bool) (label : string) (n : Z) : string := if cond then line label (big_text n) else "".
Definition text_line (label value : string) : string := if bool_decide (value = "") then "" else line label value.
Definition TxResponse_String (r : response) : string :=
  TrimSpace (foldr String.append "" [
    "Response:" +:+ newline;
    num_line (0 <? rsp_Height r) "Height" (rsp_Height r);
    text_line "TxHash" (rsp_TxHash r);
    num_line (0 <? rsp_Code r) "Code" (rsp_Code r);
    text_line "Data" (rsp_Data r);
    text_line "Raw Log" (rsp_RawLog r);
    match rsp_Logs r with Some _ => line "Logs" (Logs_String (rsp_Logs r)) | None => "" end;
    text_line "Info" (rsp_Info r);
    num_line (negb (rsp_GasWanted r =? 0)) "GasWanted" (rsp_GasWanted r);
    num_line (negb (rsp_GasUsed r =? 0)) "GasUsed" (rsp_GasUsed r);
    text_line "Codespace" (rsp_Codespace r);
    text_line "Timestamp" (rsp_Timestamp r)]).
Definition TxResponse_Empty (r : response) : bool := bool_decide (rsp_TxHash r = "") && negb (if rsp_Logs r is Some _ then true else false).

(** [math.Ceil(float64(totalCount) / float64(limit))] as a [uint64]; [impl] is what
    the processor makes of values that do not fit. *)
Definition float_Ceil (f : spec_float) : spec_float :=
  match f with
  | S754_finite s m e =>
      if 0 <=? e then f
      else let v := if s then - (Zpos m / 2 ^ (- e)) else - (- Zpos m / 2 ^ (- e)) in
           if v =? 0 then S754_zero s else binary_normalize 53 1024 v 0 s
  | f => f
  end.
Definition search_page_total (impl : spec_float -> Z) (totalCount limit : Z) : Z :=
  float_to_uint64 impl (float_Ceil (SFdiv 53 1024 (float64 totalCount) (float64 limit))).
Definition NewSearchTxsResult (impl : spec_float -> Z) (totalCount count page limit : Z) (txs : list (option response)) : SearchTxsResult V :=
  MkSearchTxsResult totalCount count page (search_page_total impl totalCount limit) limit txs.

(** [UnpackInterfaces] with an unpacker, which leaves the value that it unpacks in
    the [Any]; a nil response in a list is dereferenced. *)
Variable UnpackAny : Any V -> res (Any V).
Definition TxResponse_UnpackInterfaces (r : response) : res response :=
  match rsp_Tx r with
  | None => Ok r
  | Some a => a ← UnpackAny a;
      Ok (MkTxResponse (rsp_Height r) (rsp_TxHash r) (rsp_Codespace r) (rsp_Code r) (rsp_Data r) (rsp_RawLog r) (rsp_Logs r) (rsp_Info r)
            (rsp_GasWanted r) (rsp_GasUsed r) (Some a) (rsp_Timestamp r))
  end.
Definition SearchTxsResult_UnpackInterfaces (s : SearchTxsResult V) : res (SearchTxsResult V) :=
  txs ← for_each (fun l r => r ← deref r; r ← TxResponse_UnpackInterfaces r; Ok (l ++ [Some r])) [] (str_Txs s);
  Ok (MkSearchTxsResult (str_TotalCount s) (str_Count s) (str_PageNumber s) (str_PageTotal s) (str_Limit s) txs).
(** The cached value of the [Any], if it is a transaction; a response without a
    transaction is dereferenced. *)
Variable as_tx : V -> option V.
Definition GetTx (r : response) : res (option V) := a ← deref (rsp_Tx r); Ok (cachedValue a ≫= as_tx).
End Responses.

(* ------------------------------------------------------------------ *)
(** * Properties *)

(** The response to a transaction that was broadcast and waited for: that of the
    check if the check failed, otherwise that of the execution, always with the
    hash and the height of the result; logs that cannot be read are left out
    without an error. *)
Theorem commit_response {V} json_Logs (c : TmCommit) :
  exists t r, NewResponseFormatBroadcastTxCommit (V := V) json_Logs (Some c) = Some r /\
    (t = tc_CheckTx c /\ ar_Code t <> 0 \/ t = tc_DeliverTx c /\ ar_Code (tc_CheckTx c) = 0) /\
    rsp_TxHash r = hex_upper (tc_Hash c) /\ rsp_Height r = tc_Height c /\ rsp_Code r = ar_Code t /\
    rsp_RawLog r = ar_Log t /\ rsp_Logs r = json_Logs (ar_Log t) /\ rsp_GasUsed r = ar_GasUsed t.
Proof.
  unfold NewResponseFormatBroadcastTxCommit. destruct (Z.eqb_spec (ar_Code (tc_CheckTx c)) 0) as [Hc|Hc]; cbn.
  - exists (tc_DeliverTx c). eexists. split; [reflexivity|]. split; [by right|done].
  - exists (tc_CheckTx c). eexists. split; [reflexivity|]. split; [by left|done].
Qed.

(** The number of pages is computed with floating point: it is wrong for counts
    that a [float64] does not hold, and left to the processor for a limit of 0. *)
Theorem search_page_total_float impl :
  search_page_total impl 101 10 = 11 /\ search_page_total impl 100 10 = 10 /\ search_page_total impl (2 ^ 53 + 1) 1 = 2 ^ 53 /\
  search_page_total impl 1 0 = impl (S754_infinity false) /\ search_page_total impl 0 0 = impl S754_nan.
Proof. split_and!; vm_compute; reflexivity. Qed.

(** A transaction that was unpacked is found, one that was not is not, and a
    response without one makes [GetTx] panic. *)
Theorem GetTx_spec {V} UnpackAny as_tx (r r' : TxResponse V) a v : rsp_Tx r = Some a ->
  UnpackAny a = Ok (MkAny (TypeUrl a) (Value a) (Any_unrecognized a) (Some v)) -> TxResponse_UnpackInterfaces UnpackAny r = Ok r' ->
  GetTx as_tx r' = Ok (as_tx v) /\ (cachedValue a = None -> GetTx as_tx r = Ok None) /\
  (forall r0 : TxResponse V, rsp_Tx r0 = None -> TxResponse_UnpackInterfaces UnpackAny r0 = Ok r0 /\ GetTx as_tx r0 = Panic nil_deref).
Proof.
  intros Ea Eu E. unfold TxResponse_UnpackInterfaces in *. rewrite Ea, Eu in E. injection E as <-. split_and!; [done| |].
  - intros Hc. unfold GetTx. rewrite Ea. cbn. by rewrite Hc.
  - intros r0 E0. unfold GetTx. by rewrite E0.
Qed.

(* ------------------------------------------------------------------ *)
(** * Store queries *)

(** The fields of [abci.ResponseQuery] that the code reads, and
    [ABCIQueryWithOptions], with the path, the data, the height and whether a proof
    is asked for. *)
Record ResponseQuery := MkResponseQuery { rq_Code : Z; rq_Log : string; rq_Key : bytes; rq_Value : bytes; rq_Height : Z }.
Class ABCINode (W : Type) := ABCIQueryWithOptions : string -> bytes -> Z -> bool -> ST W ResponseQuery.
(** [IsOK] *)
Definition response_IsOK (r : ResponseQuery) : bool := rq_Code r =? 0.

Section Queries.
Context `{ABCINode W} {V : Type}.
(** The JSON of the client's protobuf codec; reading changes the message that is
    given. *)
Variable MarshalJSON : V -> res bytes.
Variable UnmarshalJSON : bytes -> V -> res V.

(** [data] is nil or a message. *)
Definition Query (path : string) (data : option V) : ST W bytes :=
  bz ← lift (match data with Some m => MarshalJSON m | None => Ok [] end);
  resp ← ABCIQueryWithOptions path bz 0 false;
  if negb (response_IsOK resp) then lift (Err (rq_Log resp)) else mret (rq_Value resp).
Definition QueryWithResponse (path : string) (data : option V) (result : V) : ST W V :=
  bz ← Query path data; lift (UnmarshalJSON bz result).
Definition QueryStore (key : bytes) (storeName : string) (height : Z) (prove : bool) : ST W ResponseQuery :=
  let path := "/store/" +:+ storeName +:+ "/key" in
  resp ← ABCIQueryWithOptions path key height prove;
  if negb (response_IsOK resp) then lift (Err (rq_Log resp)) else mret resp.

(** A query that succeeds asked the node once, at its latest height and without a
    proof, and reads the value of an answer with the code 0; an answer with another
    code is an error with its log. *)
Theorem QueryWithResponse_spec path data result w r w' : QueryWithResponse path data result w = (Ok r, w') <->
  exists bz resp, match data with Some m => MarshalJSON m | None => Ok [] end = Ok bz /\
    ABCIQueryWithOptions path bz 0 false w = (Ok resp, w') /\ rq_Code resp = 0 /\ UnmarshalJSON (rq_Value resp) result = Ok r.
Proof.
  unfold QueryWithResponse, Query, response_IsOK. split.
  - intros E. apply st_bind_Ok in E as (bz & w1 & E & Eu). apply lift_Ok in Eu as [Eu ->].
    apply st_bind_Ok in E as (q & w2 & E1 & E). apply lift_Ok in E1 as [E1 ->].
    apply st_bind_Ok in E as (resp & w3 & E2 & E). destruct (Z.eqb_spec (rq_Code resp) 0) as [Hc|]; [|done].
    injection E as <- <-. eauto 6.
  - intros (bz & resp & E1 & E2 & Hc & Eu). apply st_bind_Ok. exists (rq_Value resp), w'. split; [|by apply lift_Ok].
    apply st_bind_Ok. exists bz, w. split; [by apply lift_Ok|]. apply st_bind_Ok. exists resp, w'. split; [done|].
    by rewrite Hc.
Qed.
Theorem QueryStore_spec key storeName height prove w r w' : QueryStore key storeName height prove w = (Ok r, w') <->
  ABCIQueryWithOptions ("/store/" +:+ storeName +:+ "/key") key height prove w = (Ok r, w') /\ rq_Code r = 0.
Proof.
  unfold QueryStore, response_IsOK. split.
  - intros E. apply st_bind_Ok in E as (resp & w3 & E2 & E). destruct (Z.eqb_spec (rq_Code resp) 0) as [Hc|]; [|done].
    by injection E as <- <-.
  - intros [E Hc]. apply st_bind_Ok. exists r, w'. split; [done|]. by rewrite Hc.
Qed.
End Queries.
