(* ===== verification/TextForms.v ===== *)
(** Text and stored forms: hexadecimal ([types/tm_types.go]), events
    ([types/events.go]), and delegations as they are stored and printed
    ([modules/staking/delegation.go]). *)
From Stdlib Require Import Ascii.
From S2P Require Import Prelude GoStrings BigText SdkInt SdkDec CoinSet CoinText Coins BitArray Wire Decoding Keys Multisig Address TxTypes TxProto Events Armor Codec ProtoCodec Results Delegations.

(* ------------------------------------------------------------------ *)
(** * Hexadecimal *)

(** What [hex.DecodeString] returns besides its error: the bytes before the first
    character that is not valid. *)
Fixpoint hex_decoded (s : string) : bytes :=
  match s with
  | String a (String b s) =>
      match hex_val a, hex_val b with Some x, Some y => x * 16 + y :: hex_decoded s | _, _ => [] end
  | _ => []
  end.
Definition hex_lower_digit (n : Z) : ascii := if n <? 10 then chr (48 + n) else chr (87 + n).
Fixpoint hex_EncodeToString (bz : bytes) : string :=
  match bz with
  | [] => ""
  | b :: bz => String (hex_lower_digit (b / 16)) (String (hex_lower_digit (b mod 16)) (hex_EncodeToString bz))
  end.
(** [strings.ToUpper] on ASCII text. *)
Definition upper_chr (c : ascii) : ascii := if in_range "a" "z" c then chr (code c - 32) else c.
Fixpoint ToUpper (s : string) : string :=
  match s with EmptyString => "" | String c s => String (upper_chr c) (ToUpper s) end.

Definition MustHexBytesFrom (hexStr : string) : bytes := hex_decoded hexStr.
Definition HexBytesFrom (hexStr : string) : res bytes := hex_DecodeString hexStr.
Definition HexStringFrom (bz : bytes) : string := ToUpper (hex_EncodeToString bz).

(* ------------------------------------------------------------------ *)
(** * Events *)

(** A value given to [toBytes]: the two types it knows, and any other. *)
Inductive GoValue := GoBytes (bz : bytes) | GoString (s : string) | GoOther.
Definition toBytes (i : GoValue) : res bytes :=
  match i with GoBytes x => Ok x | GoString x => Ok (to_bytes x) | GoOther => Panic "%v" end.

Definition tab : string := String "009"%char "".
Fixpoint concat_map {A} (f : A -> string) (l : list A) : string :=
  match l with [] => "" | x :: l => f x +:+ concat_map f l end.
(** [strings.TrimRight(s, "\n")] *)
Definition TrimRight_newlines (s : string) : string :=
  str_rev (trim_left [newline] (String.length s) (str_rev s)).
Definition StringEvents_String (se : list StringEvent) : string :=
  TrimRight_newlines (concat_map (fun e =>
    tab +:+ tab +:+ "- " +:+ se_Type e +:+ newline +:+
    concat_map (fun attr => tab +:+ tab +:+ tab +:+ "- " +:+ attr_String attr +:+ newline) (se_Attributes e)) se).

(* ------------------------------------------------------------------ *)
(** * Delegations *)

(** In the store, with the protobuf codec; a delegation holds no [Any]. *)
Definition MustMarshalDelegation (delegation : Delegation) : res bytes :=
  proto_MustMarshalBinaryBare (fun d => Ok (Delegation_Marshal d)) delegation.
Definition UnmarshalDelegation (value : bytes) : res Delegation :=
  proto_UnmarshalBinaryBare Delegation_Unmarshal (fun d => Ok d) value empty_Delegation.
Definition MustUnmarshalDelegation (value : bytes) : res Delegation := must (UnmarshalDelegation value).
Definition GetShares (d : Delegation) : Dec := Delegation_Shares d.

(** As text.  [yaml.Marshal] of a delegation and the text of a time are
    parameters. *)
Section Text.
Variables (yaml_Delegation : Delegation -> string) (time_String : Time -> string).

Definition Delegation_String (d : Delegation) : string := yaml_Delegation d.
Definition lines {A} (f : A -> string) (l : list A) : string := TrimSpace (concat_map (fun x => f x +:+ newline) l).
Definition Delegations_String (d : list Delegation) : string := lines Delegation_String d.

Definition ubd_entry_text (i : Z) (entry : UnbondingDelegationEntry) : string :=
  "    Unbonding Delegation " +:+ big_text i +:+ ":" +:+ newline +:+
  "      Creation Height:           " +:+ big_text (ube_CreationHeight entry) +:+ newline +:+
  "      Min time to unbond (unix): " +:+ time_String (ube_CompletionTime entry) +:+ newline +:+
  "      Expected balance:          " +:+ Int_String (ube_Balance entry).
(** [for i, entry := range] with the text so far. *)
Fixpoint number_from {A} (f : Z -> A -> string) (i : Z) (l : list A) : string :=
  match l with [] => "" | x :: l => f i x +:+ number_from f (i + 1) l end.
Definition UnbondingDelegation_String (ubd : UnbondingDelegation) : string :=
  "Unbonding Delegations between:" +:+ newline +:+
  "  Delegator:                 " +:+ ubd_DelegatorAddress ubd +:+ newline +:+
  "  Validator:                 " +:+ ubd_ValidatorAddress ubd +:+ newline +:+
  tab +:+ "Entries:" +:+ number_from ubd_entry_text 0 (ubd_Entries ubd).
Definition UnbondingDelegations_String (ubds : list UnbondingDelegation) : string := lines UnbondingDelegation_String ubds.

Definition red_entry_text (i : Z) (entry : RedelegationEntry) : string :=
  "    Redelegation Entry #" +:+ big_text i +:+ ":" +:+ newline +:+
  "      Creation height:           " +:+ big_text (rede_CreationHeight entry) +:+ newline +:+
  "      Min time to unbond (unix): " +:+ time_String (rede_CompletionTime entry) +:+ newline +:+
  "      Dest Shares:               " +:+ Dec_String (rede_SharesDst entry) +:+ newline.
Definition Redelegation_String (red : Redelegation) : string :=
  TrimRight_newlines ("Redelegations between:" +:+ newline +:+
    "  Delegator:                 " +:+ red_DelegatorAddress red +:+ newline +:+
    "  Source Validator:          " +:+ red_ValidatorSrcAddress red +:+ newline +:+
    "  Destination Validator:     " +:+ red_ValidatorDstAddress red +:+ newline +:+
    "  Entries:" +:+ newline +:+ number_from red_entry_text 0 (red_Entries red)).
Definition Redelegations_String (d : list Redelegation) : string := lines Redelegation_String d.

Definition DelegationResponse_String (d : DelegationResponse) : string :=
  Delegation_String (DelegationResponse_Delegation d) +:+ newline +:+ "  Balance:   " +:+ Coin_String (DelegationResponse_Balance d).
Definition DelegationResponses_String (d : list DelegationResponse) : string := lines DelegationResponse_String d.
End Text.

(* ------------------------------------------------------------------ *)
(** * Properties *)

Lemma hex_digits_upper n : 0 <= n < 16 -> upper_chr (hex_lower_digit n) = hex_digit n.
Proof.
  intros Hn. assert (Forall (fun k => upper_chr (hex_lower_digit (Z.of_nat k)) = hex_digit (Z.of_nat k)) (seq 0 16)) as H.
  { by repeat constructor. }
  rewrite Forall_forall in H. specialize (H (Z.to_nat n)). rewrite Z2Nat.id in H by lia. apply H, elem_of_seq. lia.
Qed.

Lemma HexStringFrom_upper bz : Forall is_uint8 bz -> HexStringFrom bz = hex_upper bz.
Proof.
  unfold HexStringFrom. induction 1 as [|b bz Hb _ IH]; [done|]. destruct (nibbles b Hb). cbn.
  by rewrite !hex_digits_upper, IH by done.
Qed.

Lemma hex_decoded_ok : forall s v, hex_DecodeString s = Ok v -> hex_decoded s = v.
Proof.
  fix IH 1. intros [|a [|b s]] v E; cbn in E |- *; [congruence|by destruct (hex_val a)|].
  destruct (hex_val a), (hex_val b); try done. res_inv. f_equal. by apply IH.
Qed.

(** Hexadecimal.  What [HexStringFrom] writes [HexBytesFrom] reads; [MustHexBytesFrom]
    agrees with it on every valid text, but on others it does not panic, as its name
    says: it answers the bytes before the mistake. *)
Theorem hex_texts :
  (forall bz, Forall is_uint8 bz -> HexBytesFrom (HexStringFrom bz) = Ok bz) /\
  (forall s v, HexBytesFrom s = Ok v -> MustHexBytesFrom s = v) /\
  (exists s, is_ok (HexBytesFrom s) = false /\ MustHexBytesFrom s = [171]).
Proof.
  split_and!.
  - intros bz Hbz. rewrite HexStringFrom_upper by done. by apply hex_upper_roundtrip.
  - apply hex_decoded_ok.
  - by exists "abx"%string.
Qed.

(** A delegation that is stored is read back, and an entry that cannot be read
    is an error of [UnmarshalDelegation] and a panic of [MustUnmarshalDelegation]. *)
Theorem delegation_stored :
  (forall d, Delegation_ok d -> Z.of_nat (length (Delegation_Marshal d)) < 2 ^ 62 ->
     exists bz, MustMarshalDelegation d = Ok bz /\ UnmarshalDelegation bz = Ok d /\ MustUnmarshalDelegation bz = Ok d) /\
  (forall value, is_ok (UnmarshalDelegation value) = negb (panics (MustUnmarshalDelegation value))).
Proof.
  split.
  - intros d Hd Hl. exists (Delegation_Marshal d). split; [done|].
    assert (UnmarshalDelegation (Delegation_Marshal d) = Ok d) as E.
    { unfold UnmarshalDelegation, proto_UnmarshalBinaryBare. change ((x ← codec_Unmarshal codec_empty (codec_Marshal d); Ok x) = Ok d). by rewrite codec_decodes. }
    unfold MustUnmarshalDelegation. by rewrite E.
  - intros value. unfold MustUnmarshalDelegation. by destruct (UnmarshalDelegation value).
Qed.

(** The entries of an unbonding delegation are written without a line break before,
    between or after them. *)
Theorem unbonding_text (time_String : Time -> string) d v e1 e2 :
  UnbondingDelegation_String time_String (MkUBD d v [e1; e2]) =
    UnbondingDelegation_String time_String (MkUBD d v []) +:+ ubd_entry_text time_String 0 e1 +:+ ubd_entry_text time_String 1 e2.
Proof. unfold UnbondingDelegation_String. cbn [ubd_DelegatorAddress ubd_ValidatorAddress ubd_Entries number_from]. by rewrite !str_app_nil_r, <- !str_app_assoc. Qed.
