(* ===== verification/Blocks.v ===== *)
(** Blocks and their results: [types/block.go] and the results of
    transactions in [types/event.go] and [types/stdtx.go].

    Headers, evidence, commits and keys are Tendermint's: the class
    [Tendermint]; so is the decoding of amino. *)
From Stdlib Require Import Ascii.
From S2P Require Import Prelude GoStrings SdkInt CoinSet Coins Wire Keys Multisig Address Armor TxTypes Sigs TxBuilder StdTx Events Client.

Class Tendermint := {
  TmHeader : Type; TmEvidence : Type; TmCommit : Type; TmBlockID : Type; TmProtoKey : Type; TmKey : Type;
  (** [header.Time.Format(time.RFC3339)] *)
  header_RFC3339 : TmHeader -> string;
  (** [encoding.PubKeyFromProto]; the key is nil when there is an error. *)
  PubKeyFromProto : TmProtoKey -> option TmKey;
  key_Type : TmKey -> string;
  key_Bytes : TmKey -> bytes;
  (** Amino's JSON of a key. *)
  key_MarshalJSON : TmKey -> option bytes;
}.

(* ------------------------------------------------------------------ *)
(** * [base64.StdEncoding.EncodeToString] *)

Definition b64_char (n : Z) : ascii :=
  chr (if n <? 26 then 65 + n else if n <? 52 then 71 + n else if n <? 62 then n - 4 else if n =? 62 then 43 else 47).
Fixpoint base64 (bz : bytes) : string :=
  match bz with
  | [] => ""
  | [a] => String (b64_char (a / 4)) (String (b64_char (a mod 4 * 16)) "==")
  | [a; b] => String (b64_char (a / 4)) (String (b64_char (a mod 4 * 16 + b / 16)) (String (b64_char (b mod 16 * 4)) "="))
  | a :: b :: c :: bz =>
      String (b64_char (a / 4)) (String (b64_char (a mod 4 * 16 + b / 16))
        (String (b64_char (b mod 16 * 4 + c / 64)) (String (b64_char (c mod 64)) (base64 bz))))
  end.

(* ------------------------------------------------------------------ *)
(** * Data *)

(** The SDK's forms. *)
Record TxResult := MkTxResult { tr_Code : Z; tr_Log : string; tr_GasWanted : Z; tr_GasUsed : Z; tr_Events : list StringEvent }.
Record PubKeyText := MkPubKeyText { pk_Type : string; pk_Value : string }.
Record ValidatorUpdate := MkValidatorUpdate { vu_PubKey : PubKeyText; vu_Power : Z }.
Record ResultBeginBlock := MkResultBeginBlock { bb_Events : list StringEvent }.
Record ResultEndBlock := MkResultEndBlock { eb_Events : list StringEvent; eb_ValidatorUpdates : list ValidatorUpdate }.
Record ABCIResponses := MkABCIResponses { rs_DeliverTx : list TxResult; rs_EndBlock : ResultEndBlock; rs_BeginBlock : ResultBeginBlock }.
Record BlockResult := MkBlockResult { br_Height : Z; br_Results : ABCIResponses }.
Record ValidatorText := MkValidatorText {
  vt_Bech32Address : string; vt_Bech32PubKey : string; vt_Address : string; vt_PubKey : PubKeyText;
  vt_VotingPower : Z; vt_ProposerPriority : Z }.

Section Data.
Context `{Tendermint}.
(** Tendermint's [Block], [ResultBlockResults] and [Validator]. *)
Record TmBlock := MkTmBlock { tb_Header : TmHeader; tb_Txs : list bytes; tb_Evidence : TmEvidence; tb_LastCommit : option TmCommit }.
Record TmBlockResults := MkTmBlockResults {
  tbr_Height : Z; tbr_TxsResults : list TxResponse; tbr_BeginBlockEvents : list Event; tbr_EndBlockEvents : list Event;
  tbr_ValidatorUpdates : list (TmProtoKey * Z) }.
Record TmValidator := MkTmValidator { tv_Address : bytes; tv_PubKey : TmKey; tv_VotingPower : Z; tv_ProposerPriority : Z }.

Record Block (Msg : Type) := MkBlock {
  blk_Header : TmHeader; blk_Txs : list (StdTx Msg); blk_Evidence : TmEvidence; blk_LastCommit : option TmCommit }.
Record BlockDetail (Msg : Type) := MkBlockDetail { bd_BlockID : TmBlockID; bd_Block : Block Msg; bd_BlockResult : BlockResult }.
End Data.
Arguments MkBlock {_ _} _ _ _ _.
Arguments blk_Header {_ _} _.
Arguments blk_Txs {_ _} _.
Arguments blk_Evidence {_ _} _.
Arguments blk_LastCommit {_ _} _.
Arguments MkBlockDetail {_ _} _ _ _.
Arguments bd_BlockID {_ _} _.
Arguments bd_Block {_ _} _.
Arguments bd_BlockResult {_ _} _.

(* ------------------------------------------------------------------ *)
(** * Conversions *)
Section Blocks.
Context `{TM : Tendermint} `{Bech32Lib} {Msg : Type}.
(** [cdc.UnmarshalBinaryBare(tx, &stdTx)] and [cdc.UnmarshalJSON(bz, &pubKey)]:
    what is in the variable afterwards. *)
Variable unmarshal_StdTx : bytes -> res (StdTx Msg).
Variable unmarshal_PubKey : bytes -> PubKeyText.

(** Transactions that cannot be decoded are left out. *)
Definition ParseBlock (block : option TmBlock) : res (Block Msg) :=
  block ← deref block;
  txs ← for_each (fun txs tx => match unmarshal_StdTx tx with
                               | Ok stdTx => Ok (txs ++ [stdTx])
                               | Err _ => Ok txs
                               | Panic p => Panic p
                               end) [] (tb_Txs block);
  Ok (MkBlock (tb_Header block) txs (tb_Evidence block) (tb_LastCommit block)).

(** The body of the loop; a key that cannot be converted is a nil interface. *)
Definition parse_update (v : TmProtoKey * Z) : res ValidatorUpdate :=
  pubkey ← deref (PubKeyFromProto (fst v));
  Ok (MkValidatorUpdate (MkPubKeyText (key_Type pubkey) (base64 (key_Bytes pubkey))) (snd v)).
Definition ParseValidatorUpdate (updates : list (TmProtoKey * Z)) : res (list ValidatorUpdate) :=
  for_each (fun vUpdates v => u ← parse_update v; Ok (vUpdates ++ [u])) [] updates.

Definition ParseTxResult (r : TxResponse) : TxResult :=
  MkTxResult (r_Code r) (r_Log r) (r_GasWanted r) (r_GasUsed r) (StringifyEvents (r_Events r)).
Definition ParseBlockResult (r : TmBlockResults) : res BlockResult :=
  updates ← ParseValidatorUpdate (tbr_ValidatorUpdates r);
  Ok (MkBlockResult (tbr_Height r)
    (MkABCIResponses (map ParseTxResult (tbr_TxsResults r))
      (MkResultEndBlock (StringifyEvents (tbr_EndBlockEvents r)) updates)
      (MkResultBeginBlock (StringifyEvents (tbr_BeginBlockEvents r))))).

(** The errors of the address and of the key's text are dropped. *)
Definition ParseValidator (v : TmValidator) : res ValidatorText :=
  let bech32Addr := match ConsAddressFromHex (hex_upper (tv_Address v)) with Ok a => a | _ => [] end in
  bech32PubKey ← match Bech32ifyPubKey "conspub" (key_Bytes (tv_PubKey v)) with Err _ => Ok "" | r => r end;
  let pubKey := match key_MarshalJSON (tv_PubKey v) with Some bz => unmarshal_PubKey bz | None => MkPubKeyText "" "" end in
  address ← Cons_String bech32Addr;
  Ok (MkValidatorText address bech32PubKey (hex_upper (tv_Address v)) pubKey (tv_VotingPower v) (tv_ProposerPriority v)).
Definition ParseValidators (vs : list TmValidator) : res (list ValidatorText) := map_res ParseValidator vs.
End Blocks.

(* ------------------------------------------------------------------ *)
(** * Lemmas *)

Lemma for_each_append {A B} (f : A -> res B) l acc r :
  for_each (fun acc x => y ← f x; Ok (acc ++ [y])) acc l = Ok r <-> exists ys, r = acc ++ ys /\ Forall2 (fun x y => f x = Ok y) l ys.
Proof.
  revert acc. induction l as [|x l IH]; intros acc; cbn [for_each].
  - split; [intros [= <-]; exists []; split; [by rewrite app_nil_r|constructor]|].
    intros (ys & -> & Hys). inversion Hys. by rewrite app_nil_r.
  - rewrite bind_Ok. setoid_rewrite bind_Ok. split.
    + intros (acc' & (y & Hy & [= <-]) & Hr). apply IH in Hr as (ys & -> & Hys). exists (y :: ys).
      split; [by rewrite <-app_assoc|by constructor].
    + intros (ys & -> & Hys). inversion Hys as [|? y ? ys' Hy Hys']; subst. eexists. split; [by exists y|].
      apply IH. exists ys'. split; [by rewrite <-app_assoc|done].
Qed.
Lemma for_each_append_panics {A B} (f : A -> res B) l acc : (forall x, err_of (f x) = None) ->
  panics (for_each (fun acc x => y ← f x; Ok (acc ++ [y])) acc l) = true <-> Exists (fun x => panics (f x) = true) l.
Proof.
  intros Hf. revert acc. induction l as [|x l IH]; intros acc; cbn [for_each]; [split; [done|by intros ?%Exists_nil]|].
  rewrite Exists_cons. specialize (Hf x). destruct (f x); cbn in *; [|done|naive_solver].
  rewrite IH. naive_solver.
Qed.

(* ------------------------------------------------------------------ *)
(** * Properties *)
Section Properties.
Context `{TM : Tendermint} `{Bech32Lib} {Msg : Type}.
Implicit Types unmarshal_StdTx : bytes -> res (StdTx Msg).

(** A block keeps exactly the transactions that amino decodes, in order; it says
    nothing of the others, so a block of transactions of which none is encoded
    with amino is the same as an empty block. *)
Theorem ParseBlock_drops unmarshal_StdTx block b : ParseBlock unmarshal_StdTx (Some block) = Ok b ->
  blk_Header b = tb_Header block /\
  blk_Txs b = omap (fun tx => match unmarshal_StdTx tx with Ok t => Some t | _ => None end) (tb_Txs block) /\
  (Forall (fun tx => is_ok (unmarshal_StdTx tx) = false) (tb_Txs block) -> blk_Txs b = []).
Proof.
  intros E. unfold ParseBlock in E. cbn [deref mbind res_bind] in E. apply bind_Ok in E as (txs & E & [= <-]). cbn.
  assert (forall l acc, for_each (fun txs tx => match unmarshal_StdTx tx with Ok stdTx => Ok (txs ++ [stdTx]) | Err _ => Ok txs
    | Panic p => Panic p end) acc l = Ok txs -> txs = acc ++ omap (fun tx => match unmarshal_StdTx tx with Ok t => Some t | _ => None end) l) as Hl.
  { induction l as [|tx l IH]; intros acc; cbn [for_each]; [intros [= ->]; by rewrite app_nil_r|].
    cbn. destruct (unmarshal_StdTx tx) as [t|e|p]; cbn [mbind res_bind]; [|apply IH|done].
    intros Ht. apply IH in Ht. by rewrite <-app_assoc in Ht. }
  apply Hl in E. cbn [app] in E. split_and!; [done|done|]. intros Hn. rewrite E. clear -Hn.
  induction Hn as [|tx l Htx _ IH]; [done|]. cbn. destruct (unmarshal_StdTx tx); [discriminate|done..].
Qed.

(** The updates of validators are converted one by one; one key of a kind that
    Tendermint does not know makes the conversion of the whole block panic. *)
Theorem ParseValidatorUpdate_spec updates :
  (forall r, ParseValidatorUpdate updates = Ok r <->
     Forall2 (fun v u => exists k, PubKeyFromProto (fst v) = Some k /\
       u = MkValidatorUpdate (MkPubKeyText (key_Type k) (base64 (key_Bytes k))) (snd v)) updates r) /\
  (panics (ParseValidatorUpdate updates) = true <-> Exists (fun v => PubKeyFromProto (fst v) = None) updates).
Proof.
  unfold ParseValidatorUpdate. split.
  - intros r. rewrite for_each_append. split.
    + intros (ys & -> & Hys). eapply Forall2_impl; [exact Hys|]. intros v u Hv.
      apply bind_Ok in Hv as (k & Hk & [= <-]). apply deref_Ok in Hk. eauto.
    + intros Hys. exists r. split; [done|]. eapply Forall2_impl; [exact Hys|]. intros v u (k & Hk & ->).
      unfold parse_update. by rewrite Hk.
  - rewrite for_each_append_panics.
    + split; intros He; (eapply Exists_impl; [exact He|]); intros v; unfold parse_update; by destruct (PubKeyFromProto (fst v)).
    + intros v. unfold parse_update. by destruct (PubKeyFromProto (fst v)).
Qed.
End Properties.
