(* ===== verification/TxQueries.v ===== *)
(** Queries for transactions and blocks: the reading part of [modules/tx.go].

    The state is the world behind the client and the caches of the transaction
    decoder; the cache and the lock of the client are not touched. *)
From S2P Require Import Prelude GoStrings SdkInt CoinSet Coins Wire Keys Multisig Address Armor TxTypes Sigs TxBuilder StdTx Events Client Blocks.

Section Data.
Context `{Tendermint}.
(** [ctypes.ResultTx], [ResultTxSearch] and [ResultBlock]; a block that the node
    does not have is nil. *)
Record TmResultTx := MkTmResultTx { rt_Hash : bytes; rt_Height : Z; rt_Index : Z; rt_TxResult : TxResponse; rt_Tx : bytes }.
Record TmResultTxSearch := MkTmResultTxSearch { ts_Txs : list TmResultTx; ts_TotalCount : Z }.
Record TmResultBlock := MkTmResultBlock { rb_BlockID : TmBlockID; rb_Block : option TmBlock }.
End Data.

(** The part of Tendermint's RPC client that is used here. *)
Class TxNode (W : Type) `{Tendermint} := {
  rpc_Tx : bytes -> bool -> ST W TmResultTx;
  rpc_TxSearch : string -> bool -> option Z -> option Z -> string -> ST W TmResultTxSearch;
  rpc_Block : option Z -> ST W TmResultBlock;
  rpc_BlockResults : option Z -> ST W TmBlockResults;
}.

Section Queries.
Context {W K : Type} `{TN : TxNode W} `{Bech32Lib} {Msg : Type}.
(** [TxConfig.TxDecoder()], with its state. *)
Variable TxDecoder : bytes -> ST K (wrapper Msg).

(** [sdk.ResultQueryTx] and [sdk.ResultSearchTxs]. *)
Record ResultQueryTx := MkResultQueryTx {
  rq_Hash : string; rq_Height : Z; rq_Tx : wrapper Msg; rq_Result : TxResult; rq_Timestamp : string }.
Record ResultSearchTxs := MkResultSearchTxs { rs_Total : Z; rs_Txs : list ResultQueryTx }.

Abbreviation M := (ST (W * K)).
Definition node {A} (m : ST W A) : M A := fun '(w, k) => let '(r, w) := m w in (r, (w, k)).
Definition decoding {A} (m : ST K A) : M A := fun '(w, k) => let '(r, k) := m k in (r, (w, k)).

(** The blocks of the transactions, each asked for once. *)
Fixpoint get_blocks (resBlocks : gmap Z TmResultBlock) (resTxs : list TmResultTx) : M (gmap Z TmResultBlock) :=
  match resTxs with
  | [] => mret resBlocks
  | resTx :: resTxs =>
      match resBlocks !! rt_Height resTx with
      | Some _ => get_blocks resBlocks resTxs
      | None => resBlock ← node (rpc_Block (Some (rt_Height resTx)));
                get_blocks (<[rt_Height resTx := resBlock]> resBlocks) resTxs
      end
  end.
Definition getResultBlocks (resTxs : list TmResultTx) : M (gmap Z TmResultBlock) := get_blocks ∅ resTxs.

Definition parseTxResult (r : TmResultTx) (resBlock : option TmResultBlock) : M ResultQueryTx :=
  tx ← decoding (TxDecoder (rt_Tx r));
  resBlock ← lift (deref resBlock);
  block ← lift (deref (rb_Block resBlock));
  mret (MkResultQueryTx (hex_upper (rt_Hash r)) (rt_Height r) tx (ParseTxResult (rt_TxResult r)) (header_RFC3339 (tb_Header block))).

Definition QueryTx (hash : string) : M ResultQueryTx :=
  tx ← lift (hex_DecodeString hash);
  r ← node (rpc_Tx tx true);
  resBlocks ← getResultBlocks [r];
  parseTxResult r (resBlocks !! rt_Height r).

Definition QueryTxs (builder : option EventQueryBuilder) (page size : option Z) : M ResultSearchTxs :=
  builder ← lift (deref builder);
  let query := Build builder in
  if bool_decide (query = "") then lift (Err "must declare at least one tag to search") else
  r ← node (rpc_TxSearch query true page size "asc");
  resBlocks ← getResultBlocks (ts_Txs r);
  txs ← collect (fun tx => parseTxResult tx (resBlocks !! rt_Height tx)) (ts_Txs r) [];
  mret (MkResultSearchTxs (ts_TotalCount r) txs).

(* ------------------------------------------------------------------ *)
(** * The blocks that are asked for *)

(** The heights that are not in [seen], in the order of their first occurrence,
    and the requests for their blocks. *)
Fixpoint new_heights (seen : gset Z) (l : list Z) : list Z :=
  match l with
  | [] => []
  | h :: l => if bool_decide (h ∈ seen) then new_heights seen l else h :: new_heights ({[h]} ∪ seen) l
  end.
Fixpoint fetch (l : list Z) : ST W (list (Z * TmResultBlock)) :=
  match l with
  | [] => mret []
  | h :: l => b ← rpc_Block (Some h); bs ← fetch l; mret ((h, b) :: bs)
  end.

Lemma new_heights_spec seen l :
  NoDup (new_heights seen l) /\ forall h, h ∈ new_heights seen l <-> h ∈ l /\ h ∉ seen.
Proof.
  revert seen. induction l as [|h l IH]; intros seen; [split; [constructor|set_solver]|]. cbn [new_heights].
  case_bool_decide as Hh.
  - destruct (IH seen) as [Hn Hi]. split; [done|]. intros h'. rewrite Hi. set_solver.
  - destruct (IH ({[h]} ∪ seen)) as [Hn Hi]. split; [constructor; [rewrite Hi; set_solver|done]|].
    intros h'. rewrite elem_of_cons, Hi. destruct (decide (h' = h)); set_solver.
Qed.

Lemma get_blocks_fetch resTxs m w k r w' k' : get_blocks m resTxs (w, k) = (r, (w', k')) ->
  k' = k /\
  match fetch (new_heights (dom m) (map rt_Height resTxs)) w with
  | (Ok bs, w1) => w' = w1 /\ bs.*1 = new_heights (dom m) (map rt_Height resTxs) /\
      exists m', r = Ok m' /\ forall h, m' !! h = match m !! h with Some b => Some b | None => (list_to_map bs : gmap Z TmResultBlock) !! h end
  | (Err e, w1) => w' = w1 /\ r = Err e
  | (Panic p, w1) => w' = w1 /\ r = Panic p
  end.
Proof.
  revert m w. induction resTxs as [|t l IH]; intros m w; cbn [get_blocks map new_heights].
  - intros [= <- <- <-]. cbn. split_and!; [done..|]. exists m. split; [done|]. intros h. by destruct (m !! h).
  - destruct (m !! rt_Height t) as [b|] eqn:Em.
    + rewrite bool_decide_true by (apply elem_of_dom; by eexists). apply IH.
    + rewrite bool_decide_false by (by apply not_elem_of_dom). intros E. unfold mbind, st_bind, node in E. cbn [fetch].
      unfold mbind, st_bind. destruct (rpc_Block (Some (rt_Height t)) w) as [[b|e|p] w1]; [|by injection E as <- <- <-..].
      apply IH in E as [-> E]. split; [done|]. rewrite dom_insert_L in E. destruct (fetch _ w1) as [[bs|e|p] w2]; [|done..].
      destruct E as (-> & Eb & m' & -> & Hm'). cbn. split; [done|]. split; [by rewrite Eb|]. exists m'. split; [done|].
      intros h. rewrite Hm'. destruct (decide (rt_Height t = h)) as [<-|Hne].
      * by rewrite lookup_insert_eq, Em, lookup_insert_eq.
      * rewrite lookup_insert_ne by done. destruct (m !! h); [done|]. by rewrite lookup_insert_ne.
Qed.
Lemma getResultBlocks_fetch resTxs w k m w' k' : getResultBlocks resTxs (w, k) = (Ok m, (w', k')) ->
  k' = k /\ exists bs, fetch (new_heights ∅ (map rt_Height resTxs)) w = (Ok bs, w') /\
    bs.*1 = new_heights ∅ (map rt_Height resTxs) /\ m = list_to_map bs.
Proof.
  intros E. apply get_blocks_fetch in E as [-> E]. rewrite dom_empty_L in E. split; [done|].
  destruct (fetch _ w) as [[bs|e|p] w1]; [|by destruct E..]. destruct E as (-> & Eb & m' & [= <-] & Hm).
  exists bs. split_and!; [done|done|]. apply map_eq. intros h. by rewrite Hm, lookup_empty.
Qed.

(* ------------------------------------------------------------------ *)
(** * Answers *)

(** What is told of a transaction: its own hash, height and result, the
    transaction the decoder makes of its bytes, and the time of the block at its
    height. *)
Definition tells (blocks : list (Z * TmResultBlock)) (t : TmResultTx) (info : ResultQueryTx) : Prop :=
  rq_Hash info = hex_upper (rt_Hash t) /\ rq_Height info = rt_Height t /\ rq_Result info = ParseTxResult (rt_TxResult t) /\
  (exists k k', TxDecoder (rt_Tx t) k = (Ok (rq_Tx info), k')) /\
  exists rb block, (rt_Height t, rb) ∈ blocks /\ rb_Block rb = Some block /\ rq_Timestamp info = header_RFC3339 (tb_Header block).

Lemma parseTxResult_tells (blocks : list (Z * TmResultBlock)) t w k info w' k' :
  parseTxResult t ((list_to_map blocks : gmap Z TmResultBlock) !! rt_Height t) (w, k) = (Ok info, (w', k')) ->
  w' = w /\ tells blocks t info.
Proof.
  intros E. unfold parseTxResult in E. unfold mbind, st_bind, decoding in E.
  destruct (TxDecoder (rt_Tx t) k) as [[tx|e|p] k1] eqn:Ed; [|done..].
  unfold lift in E. destruct (_ !! rt_Height t) as [rb|] eqn:Er; [|done]. cbn [deref] in E.
  destruct (rb_Block rb) as [block|] eqn:Eb; [|done]. cbn [deref] in E. injection E as <- <- <-.
  split; [done|]. split_and!; [done|done|done|by eauto|]. exists rb, block. split_and!; [|done|done].
  by apply elem_of_list_to_map_2.
Qed.
Lemma collect_tells blocks l dst w k r w' k' :
  collect (fun t => parseTxResult t ((list_to_map blocks : gmap Z TmResultBlock) !! rt_Height t)) l dst (w, k) = (Ok r, (w', k')) ->
  w' = w /\ exists infos, r = dst ++ infos /\ Forall2 (tells blocks) l infos.
Proof.
  revert dst k. induction l as [|t l IH]; intros dst k; cbn [collect].
  - intros [= <- <- <-]. split; [done|]. exists []. split; [by rewrite app_nil_r|constructor].
  - intros E. apply st_bind_Ok in E as (info & [w1 k1] & E1 & E). apply parseTxResult_tells in E1 as [-> Ht].
    apply IH in E as (-> & infos & -> & Hi). split; [done|]. exists (info :: infos). split; [by rewrite <-app_assoc|by constructor].
Qed.

(** C12: A search answers what the node found.  When [QueryTxs] succeeds, the
    query was not empty, the node was searched once, and then asked once for each
    block that holds one of the transactions, in the order in which their heights
    first occur, and for nothing else; the answers are those transactions in the
    node's order, each with its own hash, height and result, decoded from its
    own bytes, and with the time of the block at its height. *)
Theorem QueryTxs_answers builder page size w k r w' k' :
  QueryTxs (Some builder) page size (w, k) = (Ok r, (w', k')) ->
  exists found w1 blocks, Build builder <> "" /\
    rpc_TxSearch (Build builder) true page size "asc" w = (Ok found, w1) /\
    fetch (new_heights ∅ (map rt_Height (ts_Txs found))) w1 = (Ok blocks, w') /\
    NoDup blocks.*1 /\ (forall h, h ∈ blocks.*1 <-> h ∈ map rt_Height (ts_Txs found)) /\
    rs_Total r = ts_TotalCount found /\ Forall2 (tells blocks) (ts_Txs found) (rs_Txs r).
Proof.
  intros E. unfold QueryTxs in E. change (lift (deref (Some builder))) with (mret builder : M EventQueryBuilder) in E.
  apply st_bind_Ok in E as (b & s1 & [= <- <-] & E). case_bool_decide as Hb; [done|].
  apply st_bind_Ok in E as (found & [w1 k1] & E1 & E). unfold node in E1.
  destruct (rpc_TxSearch _ _ _ _ _ w) as [rf w1'] eqn:Es. injection E1 as -> -> ->.
  apply st_bind_Ok in E as (m & [w2 k2] & E2 & E). apply getResultBlocks_fetch in E2 as (-> & blocks & Ef & Ek & ->).
  apply st_bind_Ok in E as (txs & [w3 k3] & E3 & [= <- <- <-]). apply collect_tells in E3 as (-> & infos & -> & Ht).
  exists found, w1, blocks. rewrite Ek. destruct (new_heights_spec ∅ (map rt_Height (ts_Txs found))) as [Hn Hi].
  split_and!; try done. intros h. rewrite Hi. set_solver.
Qed.
End Queries.
Arguments ResultQueryTx : clear implicits.
Arguments ResultSearchTxs : clear implicits.

(** Blocks are decoded with amino. *)
Definition QueryBlock `{TxNode W, Bech32Lib} {Msg} (unmarshal_StdTx : bytes -> res (StdTx Msg)) (height : Z) : ST W (BlockDetail Msg) :=
  block ← rpc_Block (Some height);
  blockResult ← rpc_BlockResults (Some height);
  b ← lift (ParseBlock unmarshal_StdTx (rb_Block block));
  result ← lift (ParseBlockResult blockResult);
  mret (MkBlockDetail (rb_BlockID block) b result).

(** A transaction whose block the node no longer has: instead of an error,
    [QueryTx] panics. *)
Theorem QueryTx_pruned `{TxNode W, Bech32Lib} {K Msg} (decoder : bytes -> ST K (wrapper Msg)) hash h w k t w1 b w2 tx k' :
  hex_DecodeString hash = Ok h -> rpc_Tx h true w = (Ok t, w1) -> rpc_Block (Some (rt_Height t)) w1 = (Ok b, w2) -> rb_Block b = None ->
  decoder (rt_Tx t) k = (Ok tx, k') -> QueryTx decoder hash (w, k) = (Panic nil_deref, (w2, k')).
Proof.
  intros Eh Et Eb Hb Ed. unfold QueryTx, mbind, st_bind, lift. rewrite Eh. unfold node. rewrite Et. unfold getResultBlocks, get_blocks.
  rewrite lookup_empty. unfold mbind, st_bind, node. rewrite Eb. cbn [mret st_ret].
  unfold parseTxResult, mbind, st_bind, decoding. rewrite Ed. unfold lift. rewrite lookup_insert_eq. cbn [deref]. by rewrite Hb.
Qed.
