(* ===== verification/Subscriptions.v ===== *)
(** Subscriptions: [modules/rpc_client.go] and [SubscribeSendTx] of
    [modules/bank/bank.go].

    The events come from Tendermint's client ([TmRPC]); each is handled by a
    goroutine of its own, so the handlers of one subscription interleave: the step
    relation [mstep]. *)
From stdpp Require Import relations.
From S2P Require Import Prelude GoStrings SdkInt CoinSet Coins Wire Keys Multisig Address Armor TxTypes Sigs TxBuilder Bank StdTx Events Uuid Client Blocks.

Section Data.
Context `{Tendermint} {Msg : Type}.
(** Tendermint's events; [EvOther] is data of any other type. *)
Inductive TmEventData :=
| EvTx (height index : Z) (tx : bytes) (r : TxResponse)
| EvNewBlock (block : option TmBlock) (begin : list Event) (endEvents : list Event) (updates : list (TmProtoKey * Z))
| EvNewBlockHeader (header : TmHeader) (begin : list Event) (endEvents : list Event) (updates : list (TmProtoKey * Z))
| EvValidatorSetUpdates (validators : list TmValidator)
| EvOther (tag : Z).

Record EventDataTx := MkEventDataTx { dt_Hash : string; dt_Height : Z; dt_Index : Z; dt_Tx : option (wrapper Msg); dt_Result : TxResult }.
Record EventDataNewBlock := MkEventDataNewBlock { db_Block : Block Msg; db_Begin : ResultBeginBlock; db_End : ResultEndBlock }.
Record EventDataNewBlockHeader := MkEventDataNewBlockHeader { dh_Header : TmHeader; dh_Begin : ResultBeginBlock; dh_End : ResultEndBlock }.
Record EventDataValidatorSetUpdates := MkEventDataValidatorSetUpdates { dv_Updates : list ValidatorText }.

(** What a handler is given ([sdk.EventData]). *)
Inductive EventData :=
| DataTx (d : EventDataTx)
| DataNewBlock (d : EventDataNewBlock)
| DataNewBlockHeader (d : EventDataNewBlockHeader)
| DataValidatorSetUpdates (d : EventDataValidatorSetUpdates)
| DataRaw (d : TmEventData).
End Data.
Arguments EventDataTx : clear implicits.
Arguments EventDataNewBlock {_} Msg.
Arguments EventData {_} Msg.

Definition EventDataTx_zero {Msg} : EventDataTx Msg := MkEventDataTx "" 0 0 None (MkTxResult 0 "" 0 0 []).

(** [sdk.Subscription]; the context is the background context. *)
Record Subscription := MkSubscription { sub_Query : string; sub_ID : string }.

(** The state behind the client [W]: Tendermint's client subscribes and
    unsubscribes a subscriber; [QueryForEvent] is [tmtypes.QueryForEvent]. *)
Class TmRPC (W : Type) := {
  rpc_Subscribe : string -> string -> ST W unit;
  rpc_Unsubscribe : string -> string -> ST W unit;
  QueryForEvent : string -> string;
}.

(* ------------------------------------------------------------------ *)
(** * Parsing events *)
Section Parse.
Context `{TM : Tendermint} `{CryptoLib} `{Bech32Lib} {Msg K : Type}.
Variable txDecoder : bytes -> ST K (wrapper Msg).
Variable unmarshal_StdTx : bytes -> res (StdTx Msg).
Variable unmarshal_PubKey : bytes -> PubKeyText.

(** A transaction that cannot be decoded gives the zero value. *)
Definition parseTx (height index : Z) (tx : bytes) (r : TxResponse) : ST K (EventDataTx Msg) :=
  t ← attempt (txDecoder tx);
  match t with
  | Ok t => mret (MkEventDataTx (hex_upper (Sha256 tx)) height index (Some t) (ParseTxResult r))
  | _ => mret EventDataTx_zero
  end.
Definition parseResults (begin endEvents : list Event) (updates : list (TmProtoKey * Z)) : res (ResultBeginBlock * ResultEndBlock) :=
  u ← ParseValidatorUpdate updates;
  Ok (MkResultBeginBlock (StringifyEvents begin), MkResultEndBlock (StringifyEvents endEvents) u).
Definition parseNewBlock (block : option TmBlock) (begin endEvents : list Event) (updates : list (TmProtoKey * Z)) : res (EventDataNewBlock Msg) :=
  b ← ParseBlock unmarshal_StdTx block;
  '(rb, re) ← parseResults begin endEvents updates;
  Ok (MkEventDataNewBlock b rb re).
Definition parseNewBlockHeader (header : TmHeader) (begin endEvents : list Event) (updates : list (TmProtoKey * Z)) : res EventDataNewBlockHeader :=
  '(rb, re) ← parseResults begin endEvents updates;
  Ok (MkEventDataNewBlockHeader header rb re).
Definition parseValidatorSetUpdates (validators : list TmValidator) : res EventDataValidatorSetUpdates :=
  vs ← ParseValidators unmarshal_PubKey validators; Ok (MkEventDataValidatorSetUpdates vs).

(** What is made of an event before the handler is called. *)
Definition parse_event (data : TmEventData) : ST K (EventData Msg) :=
  match data with
  | EvTx height index tx r => d ← parseTx height index tx r; mret (DataTx d)
  | EvNewBlock block begin endEvents updates => d ← lift (parseNewBlock block begin endEvents updates); mret (DataNewBlock d)
  | EvNewBlockHeader header begin endEvents updates =>
      d ← lift (parseNewBlockHeader header begin endEvents updates); mret (DataNewBlockHeader d)
  | EvValidatorSetUpdates validators => d ← lift (parseValidatorSetUpdates validators); mret (DataValidatorSetUpdates d)
  | data => mret (DataRaw data)
  end.
End Parse.

(* ------------------------------------------------------------------ *)
(** * Programs of goroutines

    A goroutine that shares the state [S] with others is a program of steps, each
    of which writes the state and goes on with what it has read of it; between two
    steps other goroutines may run.  A program ends or panics. *)
Inductive Prog (S : Type) := Done | Panics (p : string) | Act (write : S -> S) (next : S -> Prog S).
Arguments Done {_}.
Arguments Panics {_} _.
Arguments Act {_} _ _.

Section Programs.
Context {S : Type}.
Fixpoint pseq (p q : Prog S) : Prog S :=
  match p with Done => q | Panics e => Panics e | Act write next => Act write (fun s => pseq (next s) q) end.
(** Going on with the result of a computation that has no errors of its own. *)
Definition with_res {A} (r : res A) (k : A -> Prog S) : Prog S :=
  match r with Ok a => k a | Err e => Panics e | Panic p => Panics p end.
(** A program that runs in one step, for instance under a lock. *)
Definition atomic (m : ST S unit) : Prog S :=
  Act (fun s => snd (m s)) (fun s => match fst (m s) with Panic p => Panics p | _ => Done end).

(** What is left of a program after some of its steps, whatever the state was. *)
Inductive residue (p : Prog S) : Prog S -> Prop :=
| residue_start : residue p p
| residue_act write next s : residue p (Act write next) -> residue p (next s).
(** The programs that may be next. *)
Inductive pstep : Prog S -> Prog S -> Prop :=
| pstep_act write next s : pstep (Act write next) (next s).
End Programs.

(* ------------------------------------------------------------------ *)
(** * Handlers

    A handler of the application is a program on its state [S]. *)
Section Handlers.
Context `{TM : Tendermint} {Msg S : Type}.

(** The closures of [SubscribeTx] and its sisters: a type assertion, then the
    application's handler. *)
Definition failed_assertion : Prog S := Panics "interface conversion".
Definition on_tx (handler : EventDataTx Msg -> Prog S) (data : EventData Msg) : Prog S :=
  match data with DataTx d => handler d | _ => failed_assertion end.
Definition on_block (handler : EventDataNewBlock Msg -> Prog S) (data : EventData Msg) : Prog S :=
  match data with DataNewBlock d => handler d | _ => failed_assertion end.
Definition on_header (handler : EventDataNewBlockHeader -> Prog S) (data : EventData Msg) : Prog S :=
  match data with DataNewBlockHeader d => handler d | _ => failed_assertion end.
Definition on_validators (handler : EventDataValidatorSetUpdates -> Prog S) (data : EventData Msg) : Prog S :=
  match data with DataValidatorSetUpdates d => handler d | _ => failed_assertion end.

(** [EventDataMsgSend] and the handler of [SubscribeSendTx]; [as_send] is the
    type assertion to [*MsgSend]. *)
Record EventDataMsgSend := MkEventDataMsgSend { es_Height : Z; es_Hash : string; es_From : string; es_To : string; es_Amount : list Coin }.
Variable as_send : Msg -> option MsgSend.
Definition send_event (d : EventDataTx Msg) (m : MsgSend) : EventDataMsgSend :=
  MkEventDataMsgSend (dt_Height d) (dt_Hash d) (FromAddress m) (ToAddress m) (send_Amount m).
Fixpoint call_all {A} (callback : A -> Prog S) (l : list A) : Prog S :=
  match l with [] => Done | x :: l => pseq (callback x) (call_all callback l) end.
Definition on_send (callback : EventDataMsgSend -> Prog S) (d : EventDataTx Msg) : Prog S :=
  with_res (t ← deref (dt_Tx d); Tx_GetMsgs (tx t))
    (call_all (fun msg => match as_send msg with Some m => callback (send_event d m) | None => Done end)).
End Handlers.

(* ------------------------------------------------------------------ *)
(** * Subscribing *)
Section Subscribe.
Context {V W : Type} `{Host V, TmRPC W}.

Definition subscriber_of (id : UUID) : string := "plugchain-sdk-go-" +:+ UUID_String id.
(** Without an identifier all subscribers have the same name. *)
Definition getSubscriber : ST (rfc4122Generator V) string :=
  id ← attempt NewV1;
  match id with Ok id => mret (subscriber_of id) | _ => mret "plugchain-sdk-go" end.

Abbreviation M := (ST (rfc4122Generator V * W)).
Definition by_generator {A} (m : ST (rfc4122Generator V) A) : M A := fun '(g, w) => let '(r, g) := m g in (r, (g, w)).
Definition by_client {A} (m : ST W A) : M A := fun '(g, w) => let '(r, w) := m w in (r, (g, w)).

(** [SubscribeAny] up to the start of the goroutine that receives the events. *)
Definition SubscribeAny (query : string) : M Subscription :=
  subscriber ← by_generator getSubscriber;
  _ ← by_client (rpc_Subscribe subscriber query);
  mret (MkSubscription query subscriber).
Definition Resubscribe (subscription : Subscription) : M unit := _ ← SubscribeAny (sub_Query subscription); mret tt.
Definition rpc_client_Unsubscribe (subscription : Subscription) : M unit := by_client (rpc_Unsubscribe (sub_ID subscription) (sub_Query subscription)).

(** The builder of the caller, a pointer, gets one more condition: the first
    result is the caller's builder afterwards. *)
Definition add_type (builder : option EventQueryBuilder) (event : string) : EventQueryBuilder :=
  MkBuilder (conditions (default NewEventQueryBuilder builder) ++ [cond_String (cond_EQ (StringValue event) (Cond "tm.event"))]).
Definition subscribe_type (builder : option EventQueryBuilder) (event : string) : option EventQueryBuilder * M Subscription :=
  let b := add_type builder event in (builder ≫= fun _ => Some b, SubscribeAny (Build b)).
Definition SubscribeNewBlock (builder : option EventQueryBuilder) := subscribe_type builder "NewBlock".
Definition SubscribeTx (builder : option EventQueryBuilder) := subscribe_type builder "Tx".
Definition SubscribeNewBlockHeader : M Subscription := SubscribeAny (QueryForEvent "NewBlockHeader").
Definition SubscribeValidatorSetUpdates : M Subscription := SubscribeAny (QueryForEvent "ValidatorSetUpdates").

(** [SubscribeSendTx]: its query, and the subscription, whose error is dropped. *)
Definition send_builder (from to : string) : EventQueryBuilder :=
  let builder := NewEventQueryBuilder in
  let from := TrimSpace from in
  let builder := if bool_decide (from = "") then builder
    else MkBuilder (conditions builder ++ [cond_String (cond_EQ (StringValue from) (NewCond "message" "sender"))]) in
  let to := TrimSpace to in
  if bool_decide (to = "") then builder
  else MkBuilder (conditions builder ++ [cond_String (cond_EQ (StringValue to) (Cond "transfer.recipient"))]).
Definition SubscribeSendTx (from to : string) : M Subscription :=
  r ← attempt (snd (SubscribeTx (Some (send_builder from to))));
  match r with Ok subscription => mret subscription | _ => mret (MkSubscription "" "") end.
End Subscribe.

(* ------------------------------------------------------------------ *)
(** * Receiving

    The goroutine of a subscription receives events from the channel and starts
    a goroutine for each, which parses the event and then runs the handler.
    Nothing is locked: the steps of all of them interleave.  Parsing is one step:
    the only state it shares are the caches of descriptors
    ([protoMessageForTypeNameMu], [descprotoCacheMu], [protoFileToDescMu]), whose
    accesses are behind locks and whose content does not change what is read
    ([UnknownProto.RejectUnknownFields_cached]).
    [CatchPanic] is given a function that calls a method of the nil [err], so a
    panic of a goroutine ends the whole program. *)
Section Machine.
Context `{TM : Tendermint} `{CryptoLib} `{Bech32Lib} {Msg K S : Type}.
Variable txDecoder : bytes -> ST K (wrapper Msg).
Variable unmarshal_StdTx : bytes -> res (StdTx Msg).
Variable unmarshal_PubKey : bytes -> PubKeyText.
Variable handler : EventData Msg -> Prog S.

(** Where a goroutine is: before parsing, or in the handler, which was called
    with [data] and has [p] left to do. *)
Inductive phase := Parsing | Handling (data : EventData Msg) (p : Prog S).

(** The events that arrived and that are in the channel; the goroutines that run;
    the events that have been handled, with what the handler was called with;
    whether the program has crashed, and the state. *)
Record machine := MkMachine {
  m_arrived : list TmEventData; m_chan : list TmEventData; m_running : list (TmEventData * phase);
  m_done : list (TmEventData * EventData Msg); m_crashed : bool; m_state : K * S }.
Definition started (k : K) (s : S) : machine := MkMachine [] [] [] [] false (k, s).

Abbreviation parse := (parse_event txDecoder unmarshal_StdTx unmarshal_PubKey).

Inductive mstep : machine -> machine -> Prop :=
| step_arrive a c r d st e :
    mstep (MkMachine a c r d false st) (MkMachine (a ++ [e]) (c ++ [e]) r d false st)
| step_receive a c r d st e :
    mstep (MkMachine a (e :: c) r d false st) (MkMachine a c (r ++ [(e, Parsing)]) d false st)
| step_parse a c r d k s i e data k' :
    r !! i = Some (e, Parsing) -> parse e k = (Ok data, k') ->
    mstep (MkMachine a c r d false (k, s)) (MkMachine a c (<[i := (e, Handling data (handler data))]> r) d false (k', s))
| step_parse_panic a c r d k s i e rp k' :
    r !! i = Some (e, Parsing) -> parse e k = (rp, k') -> is_ok rp = false ->
    mstep (MkMachine a c r d false (k, s)) (MkMachine a c r d true (k', s))
| step_act a c r d k s i e data write next :
    r !! i = Some (e, Handling data (Act write next)) ->
    mstep (MkMachine a c r d false (k, s)) (MkMachine a c (<[i := (e, Handling data (next s))]> r) d false (k, write s))
| step_done a c r d st i e data :
    r !! i = Some (e, Handling data Done) ->
    mstep (MkMachine a c r d false st) (MkMachine a c (delete i r) (d ++ [(e, data)]) false st)
| step_panic a c r d st i e data p :
    r !! i = Some (e, Handling data (Panics p)) ->
    mstep (MkMachine a c r d false st) (MkMachine a c r d true st).

(** A step other than the arrival of an event. *)
Definition own_step (m m' : machine) : Prop := mstep m m' /\ m_arrived m' = m_arrived m.

(** A goroutine is in the handler that was called with its own event, parsed, and
    has taken some of the handler's steps. *)
Definition parses (e : TmEventData) (data : EventData Msg) : Prop := exists k k', parse e k = (Ok data, k').
Definition on_course (g : TmEventData * phase) : Prop :=
  match snd g with Parsing => True | Handling data p => parses (fst g) data /\ residue (handler data) p end.
Definition completed (g : TmEventData * EventData Msg) : Prop :=
  parses (fst g) (snd g) /\ residue (handler (snd g)) Done.
End Machine.
Arguments phase {_} _ _.
Arguments machine {_} _ _ _.
Arguments Parsing {_ _ _}.
Arguments Handling {_ _ _} _ _.
Arguments MkMachine {_ _ _ _} _ _ _ _ _ _.

(* ------------------------------------------------------------------ *)
(** * Properties: receiving *)
Section Received.
Context `{TM : Tendermint} `{CryptoLib} `{Bech32Lib} {Msg K S : Type}.
Variable txDecoder : bytes -> ST K (wrapper Msg).
Variable unmarshal_StdTx : bytes -> res (StdTx Msg).
Variable unmarshal_PubKey : bytes -> PubKeyText.
Variable handler : EventData Msg -> Prog S.
Abbreviation mstep := (mstep txDecoder unmarshal_StdTx unmarshal_PubKey handler).
Abbreviation own_step := (own_step txDecoder unmarshal_StdTx unmarshal_PubKey handler).
Abbreviation parses := (parses (K := K) txDecoder unmarshal_StdTx unmarshal_PubKey).
Abbreviation on_course := (on_course (K := K) txDecoder unmarshal_StdTx unmarshal_PubKey handler).
Abbreviation completed := (completed (K := K) txDecoder unmarshal_StdTx unmarshal_PubKey handler).
Implicit Types m : machine Msg K S.

(** ** Nothing is lost, and every goroutine is on its course *)
Definition minv m : Prop :=
  m_chan m ++ (m_running m).*1 ++ (m_done m).*1 ≡ₚ m_arrived m /\
  Forall on_course (m_running m) /\ Forall completed (m_done m).

Lemma same_event {A B} (r : list (A * B)) i e b b' : r !! i = Some (e, b) -> (<[i := (e, b')]> r).*1 = r.*1.
Proof. intros Hi. rewrite list_fmap_insert. apply list_insert_id. by rewrite list_lookup_fmap, Hi. Qed.

Lemma mstep_inv m m' : mstep m m' -> minv m -> minv m'.
Proof.
  unfold minv. intros Hm (Hp & Hr & Hd).
  destruct Hm as [a c r d st e|a c r d st e|a c r d k s i e data k' Hi Hk|?|a c r d k s i e data w n Hi|a c r d st i e data Hi|?]; cbn in *;
    try done.
  - split_and!; [|done..]. rewrite <-Hp, <-!app_assoc. apply Permutation_app_head. rewrite Permutation_app_comm, <-app_assoc. done.
  - rewrite fmap_app. split_and!; [|apply Forall_app; split; [done|by constructor]|done].
    rewrite <-Hp, <-app_assoc. cbn. rewrite <-!Permutation_middle. done.
  - rewrite (same_event _ _ _ _ _ Hi). split_and!; [done| |done]. apply Forall_insert; [done|].
    split; [by eexists _, _|constructor].
  - rewrite (same_event _ _ _ _ _ Hi). split_and!; [done| |done]. pose proof (Forall_lookup_1 _ _ _ _ Hr Hi) as [He Hres].
    apply Forall_insert; [done|]. split; [done|]. by eapply residue_act.
  - pose proof (Forall_lookup_1 _ _ _ _ Hr Hi) as Hc. split_and!.
    + rewrite <-Hp. apply Permutation_app_head. rewrite fmap_app. cbn. rewrite <-Permutation_cons_append, <-Permutation_middle.
      pose proof (fmap_Permutation fst _ _ (delete_Permutation r i _ Hi)) as Hperm. symmetry. exact (Permutation_app_tail _ Hperm).
    + by apply Forall_delete.
    + apply Forall_app. split; [done|]. by constructor.
Qed.

(** ** The work ends

    [gstep]: a goroutine goes on or ends. *)
Inductive glt : TmEventData * phase Msg S -> TmEventData * phase Msg S -> Prop :=
| glt_parse e data p : glt (e, Parsing) (e, Handling data p)
| glt_act e data p q : pstep p q -> glt (e, Handling data p) (e, Handling data q).
Inductive gstep : list (TmEventData * phase Msg S) -> list (TmEventData * phase Msg S) -> Prop :=
| gstep_end x r : gstep (x :: r) r
| gstep_on x x' r : glt x x' -> gstep (x :: r) (x' :: r)
| gstep_other x r r' : gstep r r' -> gstep (x :: r) (x :: r').

Lemma glt_ends x : Acc (flip glt) x.
Proof.
  assert (forall e data p, Acc (flip glt) (e, Handling data p)) as Hh.
  { intros e data p. induction p as [| |write next IH]; constructor; intros y Hy; inversion Hy as [|? ? ? ? Hs]; subst;
      inversion Hs; subst. apply IH. }
  destruct x as [e [|data p]]; [|apply Hh]. constructor. intros y Hy. inversion Hy; subst. apply Hh.
Qed.
Lemma gstep_ends r : Acc (flip gstep) r.
Proof.
  induction r as [|x r IH]; [constructor; intros y Hy; inversion Hy|].
  revert r IH. induction (glt_ends x) as [x _ IHx]. intros r Hr. induction Hr as [r Hr IHr].
  constructor. intros y Hy. inversion Hy as [|? x' ? Hx|? ? r' Hr']; subst.
  - by constructor.
  - apply IHx; [done|]. by constructor.
  - by apply IHr.
Qed.
Lemma gstep_insert r i x x' : r !! i = Some x -> glt x x' -> gstep r (<[i := x']> r).
Proof.
  revert i. induction r as [|y r IH]; intros [|i] Hi Hx; try done.
  - injection Hi as ->. by constructor.
  - constructor. by apply IH.
Qed.
Lemma gstep_delete r i x : r !! i = Some x -> gstep r (delete i r).
Proof. revert i. induction r as [|y r IH]; intros [|i] Hi; try done; constructor. by apply IH. Qed.

Lemma own_steps_end m : Acc (flip own_step) m.
Proof.
  assert (forall a c r d st, Acc (flip own_step) (MkMachine a c r d true st)) as Hcr.
  { intros. constructor. intros m' [Hs _]. inversion Hs. }
  assert (forall c r a d b st, Acc (flip own_step) (MkMachine a c r d b st)) as Ha; [|destruct m; apply Ha].
  induction c as [|e0 c IHc]; intros r; induction (gstep_ends r) as [r _ IHr]; intros a d [] st; try apply Hcr;
    constructor; intros m' [Hs Harr]; inversion Hs; subst; cbn in Harr; try apply Hcr;
    try (apply (f_equal length) in Harr; rewrite length_app in Harr; cbn in Harr; lia);
    first [apply IHc | apply IHr].
  all: first [by eapply gstep_delete | eapply gstep_insert; [eassumption|]; by repeat constructor].
Qed.

Lemma goes_on m : m_crashed m = false -> (forall m', ~ own_step m m') -> m_chan m = [] /\ m_running m = [].
Proof.
  destruct m as [a c r d b [k s]]. cbn. intros -> Hno.
  destruct c as [|e c]; [|exfalso; eapply Hno; split; [apply step_receive|done]].
  split; [done|]. destruct r as [|[e [|data [|p|write next]]] r]; [done| | | |]; exfalso.
  - destruct (parse_event txDecoder unmarshal_StdTx unmarshal_PubKey e k) as [rp k'] eqn:E.
    destruct rp as [data|err|pa].
    + eapply Hno. split; [eapply (step_parse _ _ _ _ _ _ _ _ _ _ 0); [done|exact E]|done].
    + eapply Hno. split; [eapply (step_parse_panic _ _ _ _ _ _ _ _ _ _ 0); [done|exact E|done]|done].
    + eapply Hno. split; [eapply (step_parse_panic _ _ _ _ _ _ _ _ _ _ 0); [done|exact E|done]|done].
  - eapply Hno. split; [by eapply (step_done _ _ _ _ _ _ _ _ _ 0)|done].
  - eapply Hno. split; [by eapply (step_panic _ _ _ _ _ _ _ _ _ 0)|done].
  - eapply Hno. split; [by eapply (step_act _ _ _ _ _ _ _ _ _ _ 0)|done].
Qed.

(** C11: Every event of a subscription is handled exactly once.  The goroutines
    that parse and handle the events share the application's state without a
    lock, and the steps of the handlers interleave in any way.  In every state
    that is reached, the events that wait, that goroutines work on and that are
    done are those that arrived, each once; every goroutine runs the handler called
    once, with its own event as it was parsed, and has taken the handler's steps in
    order, to its end for the events that are done.  From there on, whatever runs
    next, the work ends when no more events arrive (a handler is a program that
    ends or panics on every course of its reads), and when it has ended without a
    crash every event that arrived is done.  Nothing is said of the state that the
    handlers leave: [updates_lost] is a run in which two of them interfere. *)
Theorem events_handled k s m : rtc mstep (started k s) m ->
  m_chan m ++ (m_running m).*1 ++ (m_done m).*1 ≡ₚ m_arrived m /\
  Forall on_course (m_running m) /\ Forall completed (m_done m) /\
  Acc (flip own_step) m /\
  (forall m', rtc own_step m m' -> m_crashed m' = false -> (forall m'', ~ own_step m' m'') ->
     m_arrived m' = m_arrived m /\ (m_done m').*1 ≡ₚ m_arrived m).
Proof.
  intros Hr. assert (forall m1 m2, rtc mstep m1 m2 -> minv m1 -> minv m2) as Hinv.
  { induction 1; [done|]. intros. by eauto using mstep_inv. }
  assert (minv m) as Hm by (by apply (Hinv _ _ Hr)).
  destruct Hm as (Hp & Hrun & Hd). split_and!; [done..|apply own_steps_end|]. intros m' Hr' Hc' Hno.
  assert (m_arrived m' = m_arrived m) as Ea. { clear -Hr'. induction Hr' as [|x y z [_ E] _ IH]; congruence. }
  split; [done|]. destruct (goes_on m' Hc' Hno) as [Ec Er]. rewrite <-Ea.
  assert (minv m') as (Hp' & _). { apply (Hinv m); [|done]. clear -Hr'. induction Hr' as [|x y z [Hs _] _ IH]; [done|by eapply rtc_l]. }
  by rewrite Ec, Er in Hp'.
Qed.
End Received.

(** The handlers of two events interfere: each reads a counter and then writes it
    one higher, and one of the two updates is lost, although both events are
    handled. *)
Definition count `{Tendermint} {Msg} (_ : EventData Msg) : Prog Z := Act id (fun n => Act (fun _ => n + 1) (fun _ => Done)).
Theorem updates_lost `{TM : Tendermint} `{CryptoLib} `{Bech32Lib} {Msg K : Type} (txDecoder : bytes -> ST K (wrapper Msg))
    unmarshal_StdTx unmarshal_PubKey k :
  exists data, rtc (mstep txDecoder unmarshal_StdTx unmarshal_PubKey count) (started k 0)
    (MkMachine [EvOther 1; EvOther 2] [] [] data false (k, 1)) /\ data.*1 = [EvOther 1; EvOther 2].
Proof.
  exists [(EvOther 1, DataRaw (EvOther 1)); (EvOther 2, DataRaw (EvOther 2))]. split; [|done].
  eapply rtc_l; [apply (step_arrive _ _ _ _ [] [] [] [] _ (EvOther 1))|].
  eapply rtc_l; [apply (step_arrive _ _ _ _ [EvOther 1] [EvOther 1] [] [] _ (EvOther 2))|].
  cbn. eapply rtc_l; [apply step_receive|]. eapply rtc_l; [apply step_receive|]. cbn.
  eapply rtc_l; [by eapply (step_parse _ _ _ _ _ _ _ _ _ _ 0)|]. eapply rtc_l; [by eapply (step_parse _ _ _ _ _ _ _ _ _ _ 1)|]. cbn.
  unfold count. eapply rtc_l; [by eapply (step_act _ _ _ _ _ _ _ _ _ _ 0)|]. eapply rtc_l; [by eapply (step_act _ _ _ _ _ _ _ _ _ _ 1)|]. cbn.
  eapply rtc_l; [by eapply (step_act _ _ _ _ _ _ _ _ _ _ 0)|]. eapply rtc_l; [by eapply (step_act _ _ _ _ _ _ _ _ _ _ 1)|]. cbn.
  eapply rtc_l; [by eapply (step_done _ _ _ _ _ _ _ _ _ 0)|]. cbn. eapply rtc_l; [by eapply (step_done _ _ _ _ _ _ _ _ _ 0)|]. apply rtc_refl.
Qed.

(* ------------------------------------------------------------------ *)
(** * Properties: transfers *)
Section Transfers.
Context `{TM : Tendermint} `{CryptoLib} `{Bech32Lib} {Msg K S : Type}.
Variable as_send : Msg -> option MsgSend.

(** The callback of [SubscribeSendTx] is called for the transfers of the
    transaction, in their order, and for nothing else; each is told with the hash
    and the height of the transaction. *)
Theorem on_send_transfers (callback : EventDataMsgSend -> Prog S) d t msgs :
  dt_Tx d = Some t -> Tx_GetMsgs (tx t) = Ok msgs ->
  on_send as_send callback d = call_all callback (map (send_event d) (omap as_send msgs)).
Proof.
  intros Et Em. unfold on_send. rewrite Et. cbn [deref mbind res_bind]. rewrite Em. cbn [with_res]. clear Em.
  induction msgs as [|m msgs IH]; [done|]. cbn [call_all omap list_omap]. destruct (as_send m) as [x|]; cbn; by rewrite IH.
Qed.

(** A transaction that matches the subscription but that this client cannot
    decode, for instance because it also holds a message of a module that the SDK
    does not know, makes the program crash. *)
Theorem undecodable_crashes txDecoder unmarshal_StdTx unmarshal_PubKey (callback : EventDataMsgSend -> Prog S)
    a c r d (k k' : K) (s : S) i height index bz result e :
  r !! i = Some (EvTx height index bz result, Parsing) -> txDecoder bz k = (Err e, k') ->
  exists r', rtc (mstep txDecoder unmarshal_StdTx unmarshal_PubKey (on_tx (on_send as_send callback)))
    (MkMachine a c r d false (k, s)) (MkMachine a c r' d true (k', s)).
Proof.
  intros Hi Ed. eexists. eapply rtc_l.
  - eapply (step_parse _ _ _ _ _ _ _ _ _ _ i _ (DataTx EventDataTx_zero) k'); [exact Hi|].
    unfold parse_event, parseTx, mbind, st_bind, attempt. by rewrite Ed.
  - eapply rtc_once, step_panic. apply list_lookup_insert_eq. by eapply lookup_lt_Some.
Qed.
End Transfers.

(* ------------------------------------------------------------------ *)
(** * Properties: subscribing *)
Section Subscribers.
Context {V W : Type} `{Host V, TmRPC W}.
Implicit Types g : rfc4122Generator V.

Fixpoint getSubscribers (n : nat) : ST (rfc4122Generator V) (list string) :=
  match n with O => mret [] | S n => s ← getSubscriber; ss ← getSubscribers n; mret (s :: ss) end.

Lemma subscriber_of_inj u v : uuid_ok u -> uuid_ok v -> subscriber_of u = subscriber_of v -> u = v.
Proof. intros Hu Hv E. apply UUID_String_inj; [done..|]. unfold subscriber_of in E. by apply (inj (String.append _)) in E. Qed.

(** C14: Subscriptions do not share a subscriber.  On a host whose clock and
    random numbers are as they should be, up to [2^14] subscriptions in a row for
    which identifiers can be made have distinct subscriber names, however the
    clock runs. *)
Theorem subscribers_distinct n g us g' : host_ok (W := V) -> hw_ok (W := V) -> 0 <= clockSequence g < 2 ^ 16 ->
  Forall is_uint8 (hardwareAddr g) -> Z.of_nat n <= 2 ^ 14 -> newV1s n g = (Ok us, g') ->
  getSubscribers n g = (Ok (map subscriber_of us), g') /\ NoDup (map subscriber_of us).
Proof.
  intros Hh Hw Hg Ha Hn E. split.
  - clear -E. revert g us E. induction n as [|n IH]; intros g us E; cbn [newV1s] in E; [by injection E as <- <-|].
    apply st_bind_Ok in E as (u & g1 & E1 & E). apply st_bind_Ok in E as (us' & g2 & E2 & [= <- <-]).
    cbn [getSubscribers]. unfold getSubscriber, mbind, st_bind, attempt. rewrite E1. cbn [mret st_ret]. by rewrite (IH _ _ E2).
  - pose proof (newV1s_distinct n g us g' Hh Hg Hn E) as Hd. pose proof (newV1s_bytes n g us g' Hh Hw Ha E) as Hb.
    clear -Hd Hb. induction Hd as [|u us Hu _ IH]; [constructor|]. apply Forall_cons in Hb as [Hub Hb]. cbn. constructor; [|by apply IH].
    intros (v & Ev & Hv)%list_elem_of_fmap. rewrite Forall_forall in Hb. apply subscriber_of_inj in Ev as ->; [done|done|by apply Hb].
Qed.

(** A builder that is used again: subscribing changes the caller's builder, so
    the second query also asks for the first one's kind of event, and no event
    is of two kinds. *)
Theorem shared_builder (b : EventQueryBuilder) : conditions b = [] ->
  exists b', fst (SubscribeNewBlock (V := V) (W := W) (Some b)) = Some b' /\
    snd (SubscribeTx (V := V) (W := W) (Some b')) = SubscribeAny "tm.event='NewBlock' AND tm.event='Tx'".
Proof. destruct b as [l]. cbn. intros ->. eexists. split; reflexivity. Qed.

(** The query of [SubscribeSendTx] for a sender and a recipient. *)
Theorem send_query from to : TrimSpace from <> "" -> TrimSpace to <> "" ->
  Build (add_type (Some (send_builder from to)) "Tx") =
    "message.sender='" +:+ TrimSpace from +:+ "' AND transfer.recipient='" +:+ TrimSpace to +:+ "' AND tm.event='Tx'".
Proof.
  intros Hf Ht. unfold send_builder. rewrite !bool_decide_false by done. unfold add_type.
  rewrite (proj1 (Build_spec _)) by (repeat constructor; discriminate).
  cbn [default conditions from_option id app Join NewEventQueryBuilder].
  unfold cond_String, cond_EQ, fill, NewCond, Cond. cbn [cond_key cond_op cond_value]. rewrite !bool_decide_false by done.
  cbn [orb]. by rewrite <-!str_app_assoc.
Qed.
End Subscribers.
