(* ===== verification/Accounts.v ===== *)
(** What the client promises about accounts: the types of the values in its
    cache, the sequence numbers it hands out, and the transactions it builds with
    a key of the key store. *)
From Stdlib Require Import SpecFloat.
From stdpp Require Import relations.
From S2P Require Import Prelude GoStrings BigText SdkInt SdkDec CoinSet CoinText Coins DecCoins CoinType BitArray Wire Keys HDPath Multisig Address Armor KeyStore TxTypes Sigs TxBuilder Factory Events Errors Config Cache Locker Client ClientLemmas.

(** A record of the transactions handed to the node. *)
Class NodeJournal {W} `{Node W} (sent : W -> list bytes) : Prop := {
  query_sends A (m : ST W A) w r w' : node_query m -> m w = (r, w') -> sent w' = sent w;
  broadcast_sends tx A (m : ST W A) w r w' : node_broadcast tx m -> m w = (r, w') -> sent w' = sent w ++ [tx];
}.

(* ------------------------------------------------------------------ *)
(** * Lemmas *)

Lemma prefix_disjoint a t : account_prefixKey a <> token_prefixKey t.
Proof. done. Qed.
#[export] Instance account_prefixKey_inj : Inj (=) (=) account_prefixKey.
Proof. intros a b E. unfold account_prefixKey in E. by simplify_eq. Qed.

Section Cache.
Context {W C : Type} {contents : C -> gmap string cached} `{GCacheLaws cached C contents}.

(** What the client's cache may answer. *)
Definition cache_answers (s : client W C) : gmap string cached := visible (contents := contents) (cl_cache s).

Lemma cache_Get_answers k (s : client W C) r s' : cache_Get k s = (r, s') ->
  cl_world s' = cl_world s /\ cl_locker s' = cl_locker s /\ cache_answers s' ⊆ cache_answers s /\
  exists o, r = Ok o /\ forall v, o = Some v -> cache_answers s !! k = Some v.
Proof.
  unfold cache_Get. destruct (lru_Get k (cl_cache s)) as [o c] eqn:E. intros [= <- <-].
  destruct (lru_get_visible _ _ _ _ E) as (Hv & Ho & _). split_and!; [done..|]. by exists o.
Qed.
Lemma cache_save_answers k v t (s : client W C) r s' : cache_SetWithExpire k v t s = (r, s') ->
  cl_world s' = cl_world s /\ cache_answers s' ⊆ <[k := v]> (cache_answers s).
Proof. intros [= <- <-]. split; [done|]. apply lru_set_visible. Qed.
Lemma cache_Set_answers k v (s : client W C) r s' : cache_Set k v s = (r, s') -> cache_answers s' ⊆ <[k := v]> (cache_answers s).
Proof. intros [= <- <-]. apply (lru_set_visible k v 0). Qed.
Lemma cache_Remove_answers k (s : client W C) r s' : cache_Remove k s = (r, s') -> cache_answers s' ⊆ cache_answers s.
Proof.
  unfold cache_Remove. destruct (lru_Remove k (cl_cache s)) as [o c] eqn:E. intros [= <- <-].
  destruct (lru_remove_visible _ _ _ _ E) as [Hv _]. etransitivity; [exact Hv|]. apply delete_subseteq.
Qed.

(** Relations between the cache_answers before and after. *)
Definition fewer_answers (s s' : client W C) : Prop := cache_answers s' ⊆ cache_answers s.
#[global] Instance fewer_answers_preorder : PreOrder fewer_answers.
Proof. split; [intros s; by unfold fewer_answers|]. intros s1 s2 s3. unfold fewer_answers. by intros -> ->. Qed.
End Cache.

Lemma remote_cache {W C A} (m : ST W A) : respects (fun s s' : client W C => cl_cache s' = cl_cache s) (remote m).
Proof. intros s r s' E. unfold remote in E. destruct (m _). by injection E as <- <-. Qed.
#[export] Instance same_cache_preorder {W C} : PreOrder (fun s s' : client W C => cl_cache s' = cl_cache s).
Proof. split; [done|]. intros s1 s2 s3. congruence. Qed.

Section Accounts.
Context {W C D Msg : Type} {contents : C -> gmap string cached}.
Context `{Node W, GCacheLaws cached C contents, MsgInterface Msg, CryptoLib, AminoLib, Bech32Lib, ClientCodec}.
Abbreviation answers := (cache_answers (contents := contents)).
Abbreviation fewer_answers := (fewer_answers (contents := contents)).

Lemma QueryAccount_cache a (s : client W C) r s' : QueryAccount a s = (r, s') -> cl_cache s' = cl_cache s.
Proof.
  apply (respects_QueryAccount (fun s s' : client W C => cl_cache s' = cl_cache s)). intros A m _. apply remote_cache.
Qed.

(** The entry an account is saved as. *)
Definition saved (acc : BaseAccount) : cached := CachedAccount (MkAccountInfo (acc_AccountNumber acc) (acc_Sequence acc)).

(** The two ways of answering: the entry of the cache, or the node. *)
Lemma QueryAndRefreshAccount_cases a (s : client W C) acc s' : QueryAndRefreshAccount a s = (Ok acc, s') ->
  forall r s0, cache_Get (account_prefixKey a) s = (r, s0) ->
  (exists i, r = Ok (Some (CachedAccount i)) /\ answers s !! account_prefixKey a = Some (CachedAccount i) /\
      acc = MkBaseAccount a [] "" (info_N i) (wrap_u64 (info_S i + 1)) /\ cl_world s' = cl_world s) \/
  (r = Ok None /\
   exists c (s1 : client W C), QueryAccount a (MkClient c (cl_locker s) (cl_world s)) = (Ok acc, s1) /\ cl_world s' = cl_world s1).
Proof.
  intros E r s0 Eg. unfold QueryAndRefreshAccount in E. apply st_bind_Ok in E as (o & s0' & Eg' & E).
  rewrite Eg' in Eg. injection Eg as <- <-. apply cache_Get_answers in Eg' as (Hw & Hl & _ & o' & Ho & Hg). injection Ho as <-.
  destruct o as [v|]; [left|right; split; [done|]].
  - apply st_bind_Ok in E as (i & s2 & X & E). apply lift_Ok in X as [X ->].
    destruct v as [t|i'|t]; cbn [as_account] in X; [done|injection X as ->|done]. exists i. split; [done|]. split; [by apply Hg|]. st_inv.
    match goal with X : saveAccount _ _ = _ |- _ => unfold saveAccount in X; apply cache_save_answers in X as [Hw2 _] end.
    split; [done|congruence].
  - unfold refresh in E. st_inv.
    match goal with X : saveAccount _ _ = _ |- _ => unfold saveAccount in X; apply cache_save_answers in X as [Hw2 _] end.
    match goal with X : QueryAccount a _ = (_, ?s2) |- _ => exists (cl_cache s0'), s2; rename X into Eq end.
    rewrite <-Hw, <-Hl. split; [|done]. etransitivity; [|exact Eq]. by destruct s0'.
Qed.
(** What is cached afterwards. *)
Lemma QueryAndRefreshAccount_inv a (s : client W C) acc s' : QueryAndRefreshAccount a s = (Ok acc, s') ->
  answers s' ⊆ <[account_prefixKey (acc_Address acc) := saved acc]> (answers s) /\
  ((exists i, answers s !! account_prefixKey a = Some (CachedAccount i) /\
      acc = MkBaseAccount a [] "" (info_N i) (wrap_u64 (info_S i + 1)) /\ cl_world s' = cl_world s) \/
   (exists c (s1 : client W C), QueryAccount a (MkClient c (cl_locker s) (cl_world s)) = (Ok acc, s1) /\ cl_world s' = cl_world s1)).
Proof.
  intros E. unfold QueryAndRefreshAccount in E. st_inv.
  match goal with X : cache_Get _ _ = _ |- _ => apply cache_Get_answers in X as (Hw & Hl & Hv & o & Ho & Hg) end.
  injection Ho as ->. destruct o as [v|].
  - st_inv. destruct v as [t|i|t]; cbn [as_account] in *; simplify_eq.
    match goal with X : saveAccount _ _ = _ |- _ => unfold saveAccount in X; apply cache_save_answers in X as [Hw2 Hv2] end.
    cbn [acc_Address acc_AccountNumber acc_Sequence] in *. split.
    + etransitivity; [exact Hv2|]. by apply insert_mono.
    + left. eexists. split_and!; [by apply Hg|done|congruence].
  - unfold refresh in E. st_inv.
    pose proof (QueryAccount_cache _ _ _ _ Hs) as Hc.
    match goal with X : saveAccount _ _ = _ |- _ => unfold saveAccount in X; apply cache_save_answers in X as [Hw2 Hv2] end.
    split.
    + etransitivity; [exact Hv2|]. apply insert_mono. unfold cache_answers in *. by rewrite Hc.
    + right. exists (cl_cache s0), s1. rewrite <-Hw, <-Hl. split; [|done].
      etransitivity; [|exact Hs]. by destruct s0.
Qed.
End Accounts.

(** ** What is handed to the node *)
Section Sends.
Context {W C D Msg : Type} {sent : W -> list bytes}.
Context `{NodeJournal W sent, GCache cached C, MsgInterface Msg, CryptoLib, AminoLib, Bech32Lib, ClientCodec}.
Variable cfg : ClientConfig D.

Definition same_sent (s s' : client W C) : Prop := sent (cl_world s') = sent (cl_world s).
#[global] Instance same_sent_preorder : PreOrder same_sent.
Proof. split; [by intros s|]. intros s1 s2 s3. unfold same_sent. congruence. Qed.

Lemma same_sent_query A (m : ST W A) : node_query m -> respects same_sent (remote m).
Proof.
  intros Hq s r s' E. unfold remote in E. destruct (m _) eqn:Em. injection E as <- <-. unfold same_sent. cbn. by eapply query_sends.
Qed.
Lemma same_sent_cache s c : same_sent s (MkClient c (cl_locker s) (cl_world s)).
Proof. done. Qed.

Lemma prepare_sends km txConfig b : respects same_sent (prepare cfg km txConfig b).
Proof.
  apply (respects_prepare cfg km txConfig same_sent).
  - apply same_sent_query.
  - intros. apply respects_cache_Get, same_sent_cache.
  - intros. apply respects_cache_Set, same_sent_cache.
  - intros. apply respects_cache_SetWithExpire, same_sent_cache.
  - intros. apply respects_cache_Remove, same_sent_cache.
Qed.

Lemma simulate_frame impl tx mode (s : client W C) r s' : broadcastTx cfg impl tx mode true s = (r, s') ->
  cl_cache s' = cl_cache s /\ sent (cl_world s') = sent (cl_world s).
Proof.
  intros E. unfold broadcastTx in E. split.
  - revert E. apply (respects_bind (fun s s' : client W C => cl_cache s' = cl_cache s)).
    + apply respects_EstimateTxGas; [exact _|]. intros. apply remote_cache.
    + intros g. apply respects_ret, _.
  - revert E. apply (respects_bind same_sent).
    + apply respects_EstimateTxGas; [exact _|]. apply same_sent_query.
    + intros g. apply respects_ret, _.
Qed.
End Sends.

(* ------------------------------------------------------------------ *)
(** * The types of the cached values *)
Section Types.
Context {W C D Msg : Type} {contents : C -> gmap string cached}.
Context `{Node W, GCacheLaws cached C contents, MsgInterface Msg, CryptoLib, AminoLib, Bech32Lib, ClientCodec}.
Variable cfg : ClientConfig D.
Variable km : KeyManager.
Variable txConfig : option SignModeHandlerMap.
Variable ValidateBasic : Msg -> res unit.
Variable TxJSONEncoder : Tx Msg -> res bytes.
Variable impl : spec_float -> Z.
Abbreviation answers := (cache_answers (contents := contents)).

(** The texts of addresses. *)
Definition is_addr (t : string) : Prop := t = "" \/ exists a, Acc_String a = Ok t.

(** Asked for the account of an address, the node answers one whose address is
    an address.  (Decoding an account does not check this: any text is accepted.) *)
Definition node_addresses : Prop :=
  forall c a w bz w' acc, is_addr a -> grpc_Account c a w = (Ok bz, w') -> UnpackAccount bz = Ok (Some acc) -> is_addr (auth_Address acc).
Hypothesis node_ok : node_addresses.

(** The text of the address that the key manager finds for a name. *)
Definition found (n t : string) : Prop := exists pw pk a, km_Find km n pw = Ok (pk, a) /\ Acc_String a = Ok t.

(** An entry that fits its key. *)
Definition fits (k : string) (v : cached) : Prop :=
  match v with
  | CachedAddress t => exists n, k = account_prefixKey n /\ ~ is_addr n /\ found n t
  | CachedAccount _ => exists a, k = account_prefixKey a /\ is_addr a
  | CachedToken _ => exists t, k = token_prefixKey t
  end.
Definition typed (s : client W C) : Prop := map_Forall fits (answers s).

(** Keeping the types, as a relation. *)
Definition keeps_typed (s s' : client W C) : Prop := typed s -> typed s'.
#[global] Instance keeps_typed_preorder : PreOrder keeps_typed.
Proof. split; [by intros s Hs|]. intros s1 s2 s3. unfold keeps_typed. auto. Qed.

Lemma typed_fewer s s' : answers s' ⊆ answers s -> typed s -> typed s'.
Proof. intros Hs Ht k v Hv. apply Ht. by eapply lookup_weaken. Qed.
Lemma typed_insert k v s s' : fits k v -> answers s' ⊆ <[k := v]> (answers s) -> typed s -> typed s'.
Proof.
  intros Hf Hs Ht k' v' Hv. apply (lookup_weaken _ _ _ _ Hv) in Hs.
  apply lookup_insert_Some in Hs as [[<- <-]|[_ Hs]]; [done|by apply Ht].
Qed.

Lemma typed_query A (m : ST W A) : node_query m -> respects keeps_typed (remote m).
Proof. intros _ s r s' E Ht. apply remote_cache in E. unfold typed, cache_answers in *. by rewrite E. Qed.
Lemma typed_broadcast tx A (m : ST W A) : node_broadcast tx m -> respects keeps_typed (remote m).
Proof. intros _ s r s' E Ht. apply remote_cache in E. unfold typed, cache_answers in *. by rewrite E. Qed.
Lemma typed_Get k : respects keeps_typed (cache_Get k).
Proof. intros s r s' E Ht. apply cache_Get_answers in E as (_ & _ & Hs & _). by eapply typed_fewer. Qed.
Lemma typed_Remove k : respects keeps_typed (cache_Remove k).
Proof. intros s r s' E Ht. apply cache_Remove_answers in E. by eapply typed_fewer. Qed.
Lemma typed_token k t : respects keeps_typed (cache_Set (token_prefixKey k) (CachedToken t)).
Proof. intros s r s' E Ht. apply cache_Set_answers in E. by eapply typed_insert; [|exact E|exact Ht]; eexists. Qed.

Lemma typed_QueryAddress n p : ~ is_addr n -> respects keeps_typed (QueryAddress km n p).
Proof.
  intros Hn. pose proof typed_Get. pose proof typed_Remove.
  assert (respects keeps_typed ('(_, address) ← lift (km_Find km n p);
    text ← lift (Acc_String address);
    _ ← cache_SetWithExpire (account_prefixKey n) (CachedAddress text) cacheExpirePeriod;
    mret address : ST (client W C) bytes)) as Hfind.
  { intros s r s' E Ht. unfold mbind, st_bind, lift in E. destruct (km_Find km n p) as [[pk a]|e|e] eqn:Ef; [|by simplify_eq..].
    destruct (Acc_String a) as [text|e|e] eqn:Ea; [|by simplify_eq..].
    destruct (cache_SetWithExpire _ _ _ s) as [rs s1] eqn:Es. apply cache_save_answers in Es as [_ Es].
    assert (s' = s1) as -> by (destruct rs; by injection E as _ ->). eapply typed_insert; [|exact Es|exact Ht].
    exists n. split_and!; [done..|]. by exists p, pk, a. }
  unfold QueryAddress. frame.
Qed.

(** What [QueryAddress] answers is an address that the key manager finds for the
    name, or is read from its text. *)
Lemma QueryAddress_found n p (s : client W C) a s' : typed s -> QueryAddress km n p s = (Ok a, s') ->
  (exists pk t, km_Find km n p = Ok (pk, a) /\ Acc_String a = Ok t) \/
  (exists t, found n t /\ AccAddressFromBech32 t = Ok a).
Proof.
  intros Ht E. assert (forall (s s' : client W C), ('(_, address) ← lift (km_Find km n p);
    text ← lift (Acc_String address);
    _ ← cache_SetWithExpire (account_prefixKey n) (CachedAddress text) cacheExpirePeriod;
    mret address : ST (client W C) bytes) s = (Ok a, s') -> exists pk t, km_Find km n p = Ok (pk, a) /\ Acc_String a = Ok t) as Hfind.
  { clear. intros s s' E. apply st_bind_Ok in E as ([pk a'] & s1 & X & E). apply lift_Ok in X as [X _]. st_inv. eauto. }
  unfold QueryAddress in E. apply st_bind_Ok in E as (o & s1 & Eg & E).
  apply cache_Get_answers in Eg as (_ & _ & _ & o' & Ho & Hg). injection Ho as <-.
  destruct o as [v|]; [|left; by eapply Hfind]. specialize (Ht _ _ (Hg v eq_refl)).
  apply st_bind_Ok in E as (text & s2 & X & E). apply lift_Ok in X as [X ->].
  destruct v as [t|i|t]; cbn [as_string] in X; [injection X as ->|done..].
  destruct (AccAddressFromBech32 text) as [ad|e|e] eqn:Ead; [|left|by apply lift_Ok in E as [? _]].
  - injection E as -> _. right. exists text. split; [|done]. destruct Ht as (n' & En & _ & Hf).
    apply (inj account_prefixKey) in En as ->. exact Hf.
  - apply st_bind_Ok in E as (rm & s3 & _ & E). by eapply Hfind.
Qed.

Lemma ConvertAccount_addr acc account : is_addr (auth_Address acc) -> ConvertAccount acc = Ok account ->
  is_addr (acc_Address account).
Proof.
  intros Hu E. unfold ConvertAccount in E. destruct (auth_PubKey acc); [|by injection E as <-].
  destruct (UnpackPubKey _); [|injection E as <-; by left|done]. by res_inv.
Qed.

Lemma with_conn_Ok {A} (body : Conn -> ST (client W C) A) s a s' : with_conn body s = (Ok a, s') ->
  exists c s1 s2, remote GenConn s = (Ok c, s1) /\ body c s1 = (Ok a, s2) /\
    exists r, remote (conn_Close (Some c)) s2 = (r, s') /\ panics r = false.
Proof.
  unfold with_conn. intros E. destruct (remote GenConn s) as [[c|e|p] s1]; [| |done].
  2: { match type of E with (let '(_, _) := ?x in _) = _ => destruct x as [[] ?] end; done. }
  destruct (body c s1) as [r s2] eqn:Eb. destruct (remote (conn_Close (Some c)) s2) as [rc s3] eqn:Ec.
  exists c, s1, s2. destruct rc; simplify_eq; (split_and!; [done..|]); by eexists.
Qed.

Lemma QueryAccount_addr a (s : client W C) acc s' : is_addr a -> QueryAccount a s = (Ok acc, s') -> is_addr (acc_Address acc).
Proof using node_ok.
  intros Ha E. unfold QueryAccount in E. apply with_conn_Ok in E as (c & s1 & s2 & _ & E & _). st_inv.
  cbn [acc_Address]. match goal with X : remote (grpc_Account _ _) _ = _ |- _ =>
    unfold remote in X; destruct (grpc_Account _ _ _) as [rb w'] eqn:Eg; injection X as -> <- end.
  destruct a1 as [u|]; [|done]. simplify_eq. eapply ConvertAccount_addr; [|eassumption]. by eapply node_ok.
Qed.

Lemma typed_QueryAndRefreshAccount a : is_addr a -> respects keeps_typed (QueryAndRefreshAccount a).
Proof.
  intros Ha. unfold QueryAndRefreshAccount. apply respects_bind; [exact _|apply typed_Get|]. intros [v|].
  - apply respects_bind; [exact _|apply respects_lift; exact _|]. intros i. apply respects_bind; [exact _| |intros ?; by frame].
    intros s r s' E Ht. unfold saveAccount in E. apply cache_save_answers in E as [_ E].
    eapply typed_insert; [|exact E|exact Ht]. by eexists.
  - intros s r s' E Ht. unfold refresh in E. unfold mbind, st_bind in E. destruct (QueryAccount a s) as [[acc|e|p] s1] eqn:Eq;
      pose proof (QueryAccount_cache _ _ _ _ Eq) as Hc;
      (assert (typed s1) as Ht1 by (unfold typed, cache_answers in *; by rewrite Hc)); [|by simplify_eq..].
    destruct (saveAccount acc s1) as [r2 s2] eqn:Es. assert (s' = s2) as -> by (destruct r2; by injection E as _ ->).
    apply cache_save_answers in Es as [_ Es]. eapply typed_insert; [|exact Es|exact Ht1].
    eexists. split; [done|]. by eapply QueryAccount_addr.
Qed.

Lemma typed_prepare b : ~ is_addr (From b) -> respects keeps_typed (prepare cfg km txConfig b).
Proof.
  intros Hb. pose proof (typed_QueryAddress (From b) (Password b) Hb).
  pose proof (respects_prepare_rest cfg keeps_typed typed_query typed_Get typed_token) as Hr.
  intros s r s' E. revert E. unfold prepare. revert s r s'.
  apply respects_bind; [exact _|apply respects_lift; exact _|]. intros f.
  apply respects_bind; [exact _|done|]. intros addr s r s'. unfold mbind at 1, st_bind at 1, lift at 1.
  destruct (Acc_String addr) as [text|e|p] eqn:Et; [|by intros [= <- <-]..]. revert s r s'.
  apply respects_bind; [exact _| |by intros]. destruct (_ && _); [by frame|].
  apply respects_bind; [exact _| |intros ?; by frame]. apply typed_QueryAndRefreshAccount. right. by eexists.
Qed.
End Types.

(* ------------------------------------------------------------------ *)
(** * Properties *)
Section Calls.
Context {W C D Msg : Type} {contents : C -> gmap string cached}.
Context `{Node W, GCacheLaws cached C contents, MsgInterface Msg, CryptoLib, AminoLib, Bech32Lib, ClientCodec}.
Variable cfg : ClientConfig D.
Variable km : KeyManager.
Variable txConfig : option SignModeHandlerMap.
Variable ValidateBasic : Msg -> res unit.
Variable TxJSONEncoder : Tx Msg -> res bytes.
Variable impl : spec_float -> Z.
Hypothesis node_ok : node_addresses (W := W).

(** What may happen to a client: calls of its methods, for key names that are
    not the text of an address, with any outcome; the pieces that [prepare] is
    made of; and the world and the locks changing, and cached values expiring,
    in between. *)
Inductive call : client W C -> client W C -> Prop :=
| call_QueryAddress n p s r s' : ~ is_addr n -> QueryAddress km n p s = (r, s') -> call s s'
| call_QueryAndRefreshAccount a s r s' : is_addr a -> QueryAndRefreshAccount a s = (r, s') -> call s s'
| call_QueryAccount a s r s' : QueryAccount a s = (r, s') -> call s s'
| call_QueryToken d s r s' : QueryToken d s = (r, s') -> call s s'
| call_ToMinCoin cs s r s' : ToMinCoin cs s = (r, s') -> call s s'
| call_ToMainCoin cs s r s' : ToMainCoin cs s = (r, s') -> call s s'
| call_prepare b s r s' : ~ is_addr (From b) -> prepare cfg km txConfig b s = (r, s') -> call s s'
| call_BuildTxHash ms b s r s' : ~ is_addr (From b) -> BuildTxHash cfg km txConfig TxJSONEncoder ms b s = (r, s') -> call s s'
| call_BuildAndSend ms b s r s' : ~ is_addr (From b) ->
    BuildAndSend cfg km txConfig TxJSONEncoder impl ms b s = (r, s') -> call s s'
| call_BuildAndSign ms b s r s' : ~ is_addr (From b) ->
    base_BuildAndSign cfg km txConfig TxJSONEncoder ms b s = (r, s') -> call s s'
| call_BuildAndSendWithAccount addr n q ms b s r s' :
    BuildAndSendWithAccount cfg km txConfig TxJSONEncoder impl addr n q ms b s = (r, s') -> call s s'
| call_SendBatch ms b s rs e s' : ~ is_addr (From b) ->
    SendBatch cfg km txConfig ValidateBasic TxJSONEncoder impl ms b s = Some (rs, e, s') -> call s s'
| call_world s w l : call s (MkClient (cl_cache s) l w)
| call_expire s c : visible (contents := contents) c ⊆ visible (contents := contents) (cl_cache s) ->
    call s (MkClient c (cl_locker s) (cl_world s)).

Lemma call_typed s s' : call s s' -> typed (contents := contents) km s -> typed (contents := contents) km s'.
Proof using All.
  set (R := keeps_typed (W := W) (contents := contents) km).
  assert (forall A (m : ST W A), node_query m -> respects R (remote m)) as Tq by (intros; by apply typed_query).
  assert (forall tx A (m : ST W A), node_broadcast tx m -> respects R (remote m)) as Tb by (intros; by eapply typed_broadcast).
  assert (forall k, respects R (cache_Get k)) as Tg by apply typed_Get.
  assert (forall k, respects R (cache_Remove (account_prefixKey k))) as Tr by (intros; apply typed_Remove).
  assert (forall k t, respects R (cache_Set (token_prefixKey k) (CachedToken t))) as Tt by apply typed_token.
  assert (forall b, ~ is_addr (From b) -> respects R (prepare cfg km txConfig b)) as Tp by (intros; by apply typed_prepare).
  destruct 1 as [n p s r s' Hn E|a s r s' Ha E|a s r s' E|d s r s' E|cs s r s' E|cs s r s' E|b s r s' Hb E|ms b s r s' Hb E|ms b s r s' Hb E|
    ms b s r s' Hb E|addr n q ms b s r s' E|ms b s rs e s' Hb E|s w l|s c Hc].
  - by apply (typed_QueryAddress km n p Hn) in E.
  - by apply (typed_QueryAndRefreshAccount km node_ok a Ha) in E.
  - exact (respects_QueryAccount R Tq a _ _ _ E).
  - exact (respects_QueryToken R Tq Tg Tt d _ _ _ E).
  - exact (respects_ToMinCoin R Tq Tg Tt cs _ _ _ E).
  - exact (respects_ToMainCoin R Tq Tg Tt cs _ _ _ E).
  - exact (Tp b Hb _ _ _ E).
  - exact (respects_BuildTxHash cfg km txConfig TxJSONEncoder b R (Tp b Hb) ms _ _ _ E).
  - exact (respects_BuildAndSend cfg km txConfig TxJSONEncoder impl b R (Tp b Hb) Tq Tr Tb ms _ _ _ E).
  - exact (respects_base_BuildAndSign cfg km txConfig TxJSONEncoder b R (Tp b Hb) ms _ _ _ E).
  - exact (respects_BuildAndSendWithAccount cfg km txConfig TxJSONEncoder impl b R Tq Tb addr n q ms
      (fun f => respects_prepare_rest cfg R Tq Tg Tt b f) _ _ _ E).
  - exact (respects_SendBatch cfg km txConfig ValidateBasic TxJSONEncoder impl b R (Tp b Hb) Tq Tr Tb (fun _ _ Ht => Ht) ms _ _ _ _ E).
  - done.
  - by apply typed_fewer.
Qed.

Lemma client_typed w s0 s : NewBaseClient cfg w = Ok s0 -> rtc call s0 s -> typed (contents := contents) km s.
Proof using All.
  intros E Hr. assert (typed (contents := contents) km s0) as H0'.
  { unfold NewBaseClient in E. cbn in E. injection E as <-. intros k v. unfold cache_answers. cbn [cl_cache].
    by rewrite lru_new_visible. }
  clear E. induction Hr as [|s1 s2 s3 H12 _ IH]; [done|]. apply IH. by eapply call_typed.
Qed.

(** C15: The type assertions on cached values never fail.  Names of keys and
    addresses share the prefix of their cache keys.  Assume that the node, asked
    for the account of an address, answers an account whose address is an address
    ([node_addresses]; the client saves it under the address in the answer and does
    not check it), and that keys are named neither like the text of an address nor
    by the empty text.  Then after any sequence of calls on a new client, which
    asks for the accounts of addresses only, with any outcome and any eviction, what the cache answers for a name is the text of an
    address that the key manager finds for that name, for an address the account,
    and for a symbol a token. *)
Theorem cache_types w s0 s :
  NewBaseClient cfg w = Ok s0 -> rtc call s0 s ->
  (forall n v s', ~ is_addr n -> cache_Get (account_prefixKey n) s = (Ok (Some v), s') ->
     exists t, as_string v = Ok t /\ found km n t) /\
  (forall a v s', is_addr a -> cache_Get (account_prefixKey a) s = (Ok (Some v), s') -> exists i, as_account v = Ok i) /\
  (forall d v s', cache_Get (token_prefixKey d) s = (Ok (Some v), s') -> exists t, as_token v = Ok t).
Proof using All.
  intros E Hr. pose proof (client_typed _ _ _ E Hr) as Ht.
  assert (forall k v s', cache_Get k s = (Ok (Some v), s') -> fits km k v) as Hg.
  { intros k v s' Eg. apply cache_Get_answers in Eg as (_ & _ & _ & o & Ho & Hv). injection Ho as <-. by apply Ht, Hv. }
  split_and!.
  - intros n v s' Hn Eg. apply Hg in Eg. destruct v as [t|i|t]; cbn in Eg.
    + destruct Eg as (n' & En & _ & Hf). apply (inj account_prefixKey) in En as ->. by exists t.
    + destruct Eg as (a & En & Ha). apply (inj account_prefixKey) in En as ->. done.
    + destruct Eg as (t' & En). by apply prefix_disjoint in En.
  - intros a v s' Ha Eg. apply Hg in Eg. destruct v as [t|i|t]; [|by eexists|]; cbn in Eg.
    + destruct Eg as (n & En & Hn & _). apply (inj account_prefixKey) in En as ->. done.
    + destruct Eg as (t' & En). by apply prefix_disjoint in En.
  - intros d v s' Eg. apply Hg in Eg. destruct v as [t|i|t]; [| |by eexists]; cbn in Eg;
      destruct Eg as (n & En & _); symmetry in En; by apply prefix_disjoint in En.
Qed.

End Calls.

(* ------------------------------------------------------------------ *)
(** * Between two evictions *)
Section Keeping.
Context {W C D Msg : Type} {contents : C -> gmap string cached} {sent : W -> list bytes}.
Context `{NodeJournal W sent, GCacheLaws cached C contents, !KeepsEntries contents, MsgInterface Msg, CryptoLib, AminoLib, Bech32Lib, ClientCodec}.
Variable cfg : ClientConfig D.
Variable km : KeyManager.
Variable txConfig : option SignModeHandlerMap.
Variable TxJSONEncoder : Tx Msg -> res bytes.
Variable impl : spec_float -> Z.
Abbreviation answers := (cache_answers (contents := contents)).

Lemma cache_Get_kept k (s : client W C) : enabled (cl_cache s) = true ->
  exists c, enabled c = true /\ visible (contents := contents) c = answers s /\
    cache_Get k s = (Ok (answers s !! k), MkClient c (cl_locker s) (cl_world s)).
Proof.
  intros He. destruct s as [[c en] l w]. cbn in He. subst en. exists (MkLRU (snd (gc_Get k c)) true).
  unfold cache_Get, lru_Get, cache_answers, visible. cbn [cl_cache cl_locker cl_world enabled lru_cache negb].
  rewrite <-(keeps_get k c), keeps_get_contents. split_and!; [done..|]. by destruct (gc_Get k c).
Qed.
Lemma cache_save_kept k v t (s : client W C) : enabled (cl_cache s) = true ->
  exists c, enabled c = true /\ visible (contents := contents) c = <[k := v]> (answers s) /\
    cache_SetWithExpire k v t s = (Ok tt, MkClient c (cl_locker s) (cl_world s)).
Proof.
  intros He. destruct s as [[c en] l w]. cbn in He. subst en. exists (MkLRU (gc_SetWithExpire k v t c) true).
  unfold cache_SetWithExpire, lru_SetWithExpire, cache_answers, visible. cbn. by rewrite keeps_set_expire.
Qed.

(** A key that is named as its own address cannot be used while the cache is
    enabled and keeps its entries: the address cached under the name is taken
    for the account, and [prepare] panics.  The node is not asked. *)
Theorem key_named_as_address (s : client W C) b pk addr :
  enabled (cl_cache s) = true -> answers s !! account_prefixKey (From b) = None ->
  km_Find km (From b) (Password b) = Ok (pk, addr) -> Acc_String addr = Ok (From b) -> numbers_given b = false ->
  exists s', prepare cfg km txConfig b s = (Panic "interface conversion", s') /\ cl_world s' = cl_world s.
Proof.
  intros He Ha Hf Hs Hn. unfold prepare. unfold numbers_given in Hn. rewrite Hn.
  destruct (cache_Get_kept (account_prefixKey (From b)) s He) as (c1 & He1 & Hv1 & E1). rewrite Ha in E1.
  destruct (cache_save_kept (account_prefixKey (From b)) (CachedAddress (From b)) cacheExpirePeriod
    (MkClient c1 (cl_locker s) (cl_world s)) He1) as (c2 & He2 & Hv2 & E2). cbn [cl_locker cl_world] in E2.
  destruct (cache_Get_kept (account_prefixKey (From b)) (MkClient c2 (cl_locker s) (cl_world s)) He2) as (c3 & _ & _ & E3).
  cbn [cl_locker cl_world] in E3.
  replace (answers (MkClient c2 (cl_locker s) (cl_world s))) with (visible (contents := contents) c2) in E3 by done.
  rewrite Hv2, lookup_insert_eq in E3. exists (MkClient c3 (cl_locker s) (cl_world s)). split; [|done].
  assert (QueryAddress km (From b) (Password b) s = (Ok addr, MkClient c2 (cl_locker s) (cl_world s))) as Eq.
  { unfold QueryAddress, mbind, st_bind, lift. rewrite E1, Hf, Hs. by rewrite E2. }
  unfold mbind, st_bind, lift. unfold prepare_factory. rewrite MakeSignModeHandler_direct.
  cbn [mbind res_bind]. rewrite Eq, Hs.
  unfold QueryAndRefreshAccount, mbind, st_bind, lift. by rewrite E3.
Qed.

(** The node answers with the account that was asked for, and its key can be
    unpacked. *)
Definition account_answers : Prop :=
  forall c a w bz w' acc, grpc_Account c a w = (Ok bz, w') -> UnpackAccount bz = Ok (Some acc) ->
    auth_Address acc = a /\ forall key e, auth_PubKey acc = Some key -> UnpackPubKey key <> Err e.

Lemma QueryAccount_asked a (s : client W C) acc s' : account_answers -> QueryAccount a s = (Ok acc, s') -> acc_Address acc = a.
Proof.
  intros Hacc E. unfold QueryAccount in E. apply with_conn_Ok in E as (c & s1 & s2 & _ & E & _). st_inv. cbn [acc_Address].
  match goal with X : remote (grpc_Account _ _) _ = _ |- _ => unfold remote in X; destruct (grpc_Account _ _ _) as [rb w'] eqn:Eg; injection X as -> <- end.
  destruct a1 as [u|]; [|done]. simplify_eq. rename a2 into u. destruct (Hacc _ _ _ _ _ _ Eg Hs0) as [Ha Hk].
  unfold ConvertAccount in Hs2. destruct (auth_PubKey u) as [key|]; [|injection Hs2 as <-; done].
  destruct (UnpackPubKey key) as [pk|e|e] eqn:Ek; [|by destruct (Hk key e)|done]. by res_inv.
Qed.

(** Leaving the entries of the accounts as they are. *)
Definition same_accounts (s s' : client W C) : Prop :=
  enabled (cl_cache s') = enabled (cl_cache s) /\
  (enabled (cl_cache s) = true -> forall a, answers s' !! account_prefixKey a = answers s !! account_prefixKey a).
#[global] Instance same_accounts_preorder : PreOrder same_accounts.
Proof.
  split; [by intros s|]. intros s1 s2 s3 [He Ha] [He' Ha']. split; [congruence|]. intros E a. rewrite Ha', Ha by congruence. done.
Qed.

Lemma same_accounts_query A (m : ST W A) : node_query m -> respects same_accounts (remote m).
Proof. intros _ s r s' E. apply remote_cache in E. unfold same_accounts, cache_answers. by rewrite E. Qed.
Lemma same_accounts_get k : respects same_accounts (cache_Get k).
Proof.
  intros s r s' E. unfold cache_Get, lru_Get in E. destruct s as [[c en] l w]. cbn in E.
  destruct en; cbn in E; [|by injection E as <- <-]. destruct (gc_Get k c) as [o c'] eqn:Eg. injection E as <- <-.
  split; [done|]. intros _ a. unfold cache_answers, visible. cbn. f_equal.
  pose proof (keeps_get_contents (contents := contents) k c) as Hk. by rewrite Eg in Hk.
Qed.
Lemma same_accounts_token k t : respects same_accounts (cache_Set (token_prefixKey k) (CachedToken t)).
Proof.
  intros s r s' [= <- <-]. unfold same_accounts, cache_answers, visible, lru_Set. destruct s as [[c en] l w]. cbn.
  destruct en; cbn; [|done]. split; [done|]. intros _ a. rewrite keeps_set, lookup_insert_ne; [done|].
  intros Hx. symmetry in Hx. by apply prefix_disjoint in Hx.
Qed.

Lemma QueryAndRefreshAccount_saved a (s : client W C) acc s' : enabled (cl_cache s) = true ->
  QueryAndRefreshAccount a s = (Ok acc, s') ->
  enabled (cl_cache s') = true /\ answers s' !! account_prefixKey (acc_Address acc) = Some (saved acc) /\
  forall i, answers s !! account_prefixKey a = Some (CachedAccount i) ->
    acc = MkBaseAccount a [] "" (info_N i) (wrap_u64 (info_S i + 1)).
Proof.
  intros He E. unfold QueryAndRefreshAccount in E.
  destruct (cache_Get_kept (account_prefixKey a) s He) as (c1 & He1 & Hv1 & E1).
  unfold mbind, st_bind in E. rewrite E1 in E. destruct (answers s !! account_prefixKey a) as [v|] eqn:Ev.
  - change ((lift (as_account v) ≫= (fun acc0 => saveAccount (MkBaseAccount a [] "" (info_N acc0) (wrap_u64 (info_S acc0 + 1))) ≫=
      (fun _ => mret (MkBaseAccount a [] "" (info_N acc0) (wrap_u64 (info_S acc0 + 1)))))) (MkClient c1 (cl_locker s) (cl_world s)) = (Ok acc, s')) in E.
    st_inv. destruct v as [t|i|t]; cbn [as_account] in *; simplify_eq.
    match goal with X : saveAccount _ _ = _ |- _ => unfold saveAccount in X; cbn [acc_Address acc_AccountNumber acc_Sequence] in X end.
    match goal with X : cache_SetWithExpire ?k ?v ?t ?s0 = _ |- _ => destruct (cache_save_kept k v t s0 He1) as (c2 & He2 & Hv2 & E2); rewrite E2 in X; injection X as _ <- end.
    cbn [cl_cache acc_Address]. split_and!; [done..| |by intros i [= <-]].
    unfold cache_answers at 1. cbn [cl_cache]. by rewrite Hv2, lookup_insert_eq.
  - change (refresh a (MkClient c1 (cl_locker s) (cl_world s)) = (Ok acc, s')) in E. unfold refresh in E. st_inv.
    match goal with X : QueryAccount _ _ = _ |- _ => pose proof (QueryAccount_cache _ _ _ _ X) as Hc end.
    match goal with X : saveAccount _ ?s0 = _ |- _ => unfold saveAccount in X; rename s0 into s2 end.
    assert (enabled (cl_cache s2) = true) as He2 by (by rewrite Hc).
    match goal with X : cache_SetWithExpire ?k ?v ?t ?s0 = _ |- _ => destruct (cache_save_kept k v t s0 He2) as (c2 & He2' & Hv2 & E2); rewrite E2 in X; injection X as _ <- end.
    cbn [cl_cache]. split_and!; [done..| |done]. unfold cache_answers at 1. cbn [cl_cache]. by rewrite Hv2, lookup_insert_eq.
Qed.

Lemma QueryAndRefreshAccount_asked a (s : client W C) acc s' : account_answers -> QueryAndRefreshAccount a s = (Ok acc, s') ->
  acc_Address acc = a.
Proof.
  intros Hacc E. apply QueryAndRefreshAccount_inv in E as [_ [(i & _ & -> & _)|(c & s1 & E & _)]]; [done|].
  by eapply QueryAccount_asked.
Qed.
Lemma QueryAndRefreshAccount_kept a (s : client W C) acc s' : account_answers -> enabled (cl_cache s) = true ->
  QueryAndRefreshAccount a s = (Ok acc, s') ->
  acc_Address acc = a /\ enabled (cl_cache s') = true /\ answers s' !! account_prefixKey a = Some (saved acc) /\
  forall i, answers s !! account_prefixKey a = Some (CachedAccount i) ->
    acc = MkBaseAccount a [] "" (info_N i) (wrap_u64 (info_S i + 1)).
Proof.
  intros Hacc He E. pose proof (QueryAndRefreshAccount_asked _ _ _ _ Hacc E) as Ha.
  destruct (QueryAndRefreshAccount_saved _ _ _ _ He E) as (He' & Hsv & Hi). rewrite Ha in Hsv. done.
Qed.

Lemma QueryAddress_other n p (s : client W C) addr s' a : enabled (cl_cache s) = true ->
  QueryAddress km n p s = (Ok addr, s') ->
  enabled (cl_cache s') = true /\
  forall i, answers s !! account_prefixKey a = Some (CachedAccount i) -> answers s' !! account_prefixKey a = Some (CachedAccount i).
Proof.
  intros He E. unfold QueryAddress in E. destruct (cache_Get_kept (account_prefixKey n) s He) as (c1 & He1 & Hv1 & E1).
  assert (forall (s0 : client W C) addr s1, enabled (cl_cache s0) = true ->
    (lift (km_Find km n p) ≫= (fun '(_, address) => lift (Acc_String address) ≫= (fun text =>
       cache_SetWithExpire (account_prefixKey n) (CachedAddress text) cacheExpirePeriod ≫= (fun _ => mret address)))) s0 = (Ok addr, s1) ->
    exists text, answers s1 = <[account_prefixKey n := CachedAddress text]> (answers s0) /\ enabled (cl_cache s1) = true) as Hfind.
  { clear dependent s. clear addr s'. intros s0 addr s1 He E. apply st_bind_Ok in E as ([pk a'] & s2 & X & E). apply lift_Ok in X as [_ ->]. st_inv.
    match goal with X : cache_SetWithExpire ?k ?v ?t ?s0 = _ |- _ => destruct (cache_save_kept k v t s0 He) as (c2 & He2 & Hv2 & E2); rewrite E2 in X; injection X as _ <- end.
    eexists. split; [exact Hv2|done]. }
  unfold mbind at 1, st_bind at 1 in E. rewrite E1 in E.
  destruct (answers s !! account_prefixKey n) as [v|] eqn:Ev.
  - apply st_bind_Ok in E as (text & s2 & X & E). apply lift_Ok in X as [X ->].
    destruct v as [t|i|t]; cbn [as_string] in X; [injection X as ->|done..].
    destruct (AccAddressFromBech32 text) as [ad|e|e]; [| |done].
    + st_inv. cbn [cl_cache]. split; [done|]. unfold cache_answers at 2. cbn [cl_cache]. by rewrite Hv1.
    + unfold mbind at 1, st_bind at 1, cache_Remove, lru_Remove in E. cbn [cl_cache] in E. rewrite He1 in E. cbn [negb] in E.
      pose proof (keeps_remove (contents := contents) (account_prefixKey n) (lru_cache c1)) as Hr.
      destruct (gc_Remove _ _) as [rb c'] eqn:Eg. cbn [snd] in Hr. apply Hfind in E as (text' & Ht & He'); [|done]. split; [done|].
      intros i Hi. rewrite Ht. assert (a <> n) as Hne by congruence.
      rewrite lookup_insert_ne by (intros Hx; by apply (inj account_prefixKey) in Hx).
      unfold cache_answers, visible. cbn [cl_cache enabled lru_cache]. rewrite Hr, lookup_delete_ne by (intros Hx; by apply (inj account_prefixKey) in Hx).
      unfold visible in Hv1. rewrite He1 in Hv1. by rewrite Hv1.
  - apply Hfind in E as (text' & Ht & He'); [|done]. split; [done|]. intros i Hi. rewrite Ht.
    assert (a <> n) as Hne by congruence. rewrite lookup_insert_ne by (intros Hx; by apply (inj account_prefixKey) in Hx).
    unfold cache_answers at 1. cbn [cl_cache]. by rewrite Hv1.
Qed.

(** Preparing twice for an address. *)
Lemma prepare_next b b' (s s1 s1' s2 : client W C) f f' :
  account_answers -> enabled (cl_cache s) = true -> numbers_given b = false -> numbers_given b' = false ->
  prepare cfg km txConfig b s = (Ok f, s1) -> cl_cache s1' = cl_cache s1 ->
  prepare cfg km txConfig b' s1' = (Ok f', s2) -> f_address f' = f_address f ->
  f_accountNumber f' = f_accountNumber f /\ f_sequence f' = wrap_u64 (f_sequence f + 1).
Proof.
  intros Hacc He Hn Hn' E Ec E' Hadr.
  destruct (prepare_steps _ _ _ _ _ _ _ E Hn) as (ad & s3 & acc & s4 & f0 & Eq & _ & Ea & Er & -> & ->).
  destruct (prepare_steps _ _ _ _ _ _ _ E' Hn') as (ad' & s3' & acc' & s4' & f0' & Eq' & _ & Ea' & _ & -> & ->).
  destruct (QueryAddress_other _ _ _ _ _ "" He Eq) as [He3 _].
  destruct (QueryAndRefreshAccount_kept _ _ _ _ Hacc He3 Ea) as (_ & He4 & Hsv & _).
  destruct (respects_prepare_rest cfg same_accounts same_accounts_query same_accounts_get same_accounts_token _ _ _ _ _ Er) as [Hen Hsame].
  assert (answers s1' !! account_prefixKey (f_address f) = Some (saved acc)) as Hsv1.
  { unfold cache_answers. rewrite Ec. change (answers s1 !! account_prefixKey (f_address f) = Some (saved acc)). by rewrite Hsame. }
  assert (enabled (cl_cache s1') = true) as He1' by (rewrite Ec; congruence).
  destruct (QueryAddress_other _ _ _ _ _ (f_address f) He1' Eq') as [He3' Hkeep].
  destruct (QueryAndRefreshAccount_kept _ _ _ _ Hacc He3' Ea') as (_ & _ & _ & Hnext).
  rewrite Hadr in Hnext. rewrite (Hnext _ (Hkeep _ Hsv1)). done.
Qed.

(** A dry run consumes a sequence number.  [BuildTxHash], [BuildAndSign] and
    the simulation of a transaction hand nothing to the node for inclusion, but
    while the account stays cached the next transaction for the address is
    prepared with the sequence number after the one of the dry run, which no
    transaction on the chain has used. *)
Theorem dry_runs_consume ms b (s s1 : client W C) :
  account_answers -> enabled (cl_cache s) = true -> numbers_given b = false ->
  ((exists h, BuildTxHash cfg km txConfig TxJSONEncoder ms b s = (Ok h, s1)) \/
   (exists bz, base_BuildAndSign cfg km txConfig TxJSONEncoder ms b s = (Ok bz, s1)) \/
   (btx_Simulate b = true /\ exists r, BuildAndSend cfg km txConfig TxJSONEncoder impl ms b s = (Ok r, s1))) ->
  sent (cl_world s1) = sent (cl_world s) /\
  exists f s0, prepare cfg km txConfig b s = (Ok f, s0) /\
    forall b' f' s2, numbers_given b' = false -> prepare cfg km txConfig b' s1 = (Ok f', s2) -> f_address f' = f_address f ->
      f_accountNumber f' = f_accountNumber f /\ f_sequence f' = wrap_u64 (f_sequence f + 1).
Proof.
  intros Hacc He Hn Hdry.
  assert (exists f s0, prepare cfg km txConfig b s = (Ok f, s0) /\ cl_cache s1 = cl_cache s0 /\ sent (cl_world s1) = sent (cl_world s0))
    as (f & s0 & E & Hc & Hw).
  { destruct Hdry as [[h E]|[[bz E]|[Hsim [r E]]]].
    - unfold BuildTxHash in E. apply st_bind_Ok in E as ([tx f] & s2 & E & X). unfold buildTx in E. st_inv. eauto 6.
    - unfold base_BuildAndSign in E. st_inv. eauto 6.
    - unfold BuildAndSend in E. apply st_bind_Ok in E as ([tx f] & s2 & E & X). unfold buildTx in E. st_inv.
      match goal with Y : check_size _ _ _ = _ |- _ => injection Y as _ <- end.
      rewrite Hsim in *. exists f, s2. split; [done|].
      match goal with Y : broadcastTx _ _ _ _ _ _ = (?ro, ?s3) |- _ => apply simulate_frame in Y as [Hc Hw]; rename ro into ro' end.
      destruct ro'; [|by destruct (Cached cfg); st_inv|done]. st_inv. done. }
  split.
  { rewrite Hw. exact (prepare_sends cfg km txConfig b _ _ _ E). }
  exists f, s0. split; [done|]. intros b' f' s2 Hn' E' Hadr. by eapply (prepare_next b b' s s0 s1 s2).
Qed.
End Keeping.

(** ** Sequence numbers *)
Section Sequence.
Context {W C : Type} {contents : C -> gmap string cached}.
Context `{Node W, GCacheLaws cached C contents, CryptoLib, AminoLib, Bech32Lib, ClientCodec}.
Abbreviation answers := (cache_answers (contents := contents)).

(** C16: Sequence numbers are handed out in order.  [QueryAndRefreshAccount] has
    answered for an account, with the address it was asked for, and is asked for it
    again when nothing else has been cached for the account.  If the cache still has the entry, the second answer
    has the same account number and the next sequence number, modulo [2^64], and
    the node is not asked; if it has not, the second answer is the answer of the
    node at that time.  With a cache that is enabled and keeps its entries, the
    entry is there: as long as it is not removed, the second answer is the next
    number. *)
Theorem next_sequence a (s s1 s2 s3 : client W C) acc acc2 :
  QueryAndRefreshAccount a s = (Ok acc, s1) -> acc_Address acc = a ->
  (forall v, answers s2 !! account_prefixKey a = Some v -> answers s1 !! account_prefixKey a = Some v) ->
  QueryAndRefreshAccount a s2 = (Ok acc2, s3) ->
  let next := acc_Address acc2 = a /\ acc_AccountNumber acc2 = acc_AccountNumber acc /\
    acc_Sequence acc2 = wrap_u64 (acc_Sequence acc + 1) /\ cl_world s3 = cl_world s2 in
  match fst (cache_Get (account_prefixKey a) s2) with
  | Ok (Some _) => next
  | _ => exists c (s' : client W C), QueryAccount a (MkClient c (cl_locker s2) (cl_world s2)) = (Ok acc2, s') /\
           cl_world s3 = cl_world s'
  end /\
  (KeepsEntries contents -> enabled (cl_cache s) = true -> enabled (cl_cache s2) = true ->
   answers s2 !! account_prefixKey a = answers s1 !! account_prefixKey a -> next).
Proof.
  intros E1 Ha Hs E2 next. apply QueryAndRefreshAccount_inv in E1 as HV. destruct HV as [Hv _].
  assert (match fst (cache_Get (account_prefixKey a) s2) with
    | Ok (Some _) => next
    | _ => exists c (s' : client W C), QueryAccount a (MkClient c (cl_locker s2) (cl_world s2)) = (Ok acc2, s') /\
             cl_world s3 = cl_world s' end) as Hmain.
  { destruct (cache_Get (account_prefixKey a) s2) as [o s0] eqn:Eg. cbn [fst].
    destruct (QueryAndRefreshAccount_cases _ _ _ _ E2 _ _ Eg) as [(i & -> & Hi & -> & Hw)|(-> & Hq)]; [|exact Hq].
    apply Hs in Hi. apply (lookup_weaken _ _ _ _ Hi) in Hv. rewrite Ha, lookup_insert_eq in Hv. by injection Hv as <-. }
  split; [exact Hmain|]. intros Hk He He2 Hsame.
  destruct (QueryAndRefreshAccount_saved _ _ _ _ He E1) as (_ & Hsv & _). rewrite Ha in Hsv.
  destruct (cache_Get_kept (account_prefixKey a) s2 He2) as (c & _ & _ & Eg). rewrite Eg, Hsame, Hsv in Hmain. exact Hmain.
Qed.
End Sequence.

(* ------------------------------------------------------------------ *)
(** * Transactions signed with a stored key *)
Section Stored.
Context {W C D Msg : Type}.
Context `{Node W, GCache cached C, KeyDAOLaws D storable, MsgInterface Msg, CryptoLaws, HDLib, AminoLaws, ArmorLib, Bech32Lib, ClientCodec}.
Variable cfg : ClientConfig D.
Variable TxJSONEncoder : Tx Msg -> res bytes.

(** The key manager of a client whose keys are in the store [d]. *)
Definition store_manager (d : D) : KeyManager :=
  MkKeyManager (fun name pw => ks_Find name pw d) (fun name pw data => ks_Sign name pw data d).

Lemma buildTx_signed d priv address ms b (s s' : client W C) bz f :
  holds_key d (From b) (Password b) priv address -> secp_usable priv ->
  buildTx cfg (store_manager d) (Some direct_handlers) TxJSONEncoder ms b s = (Ok (bz, f), s') -> Z.of_nat (length bz) < 2 ^ 62 ->
  (exists body auth sig pk anys gas,
    TxRaw_Unmarshal (MkTxRaw [] [] []) bz = Ok (MkTxRaw body auth [sig]) /\ priv_PubKey priv = Ok pk /\
    VerifySignature pk (SignDoc_Marshal (MkSignDoc body auth (ChainId cfg) (f_accountNumber f))) sig = Ok true /\
    map_res NewAnyWithValue ms = Ok anys /\ body = TxBody_Marshal (MkTxBody anys (btx_Memo b) 0 [] []) /\
    gas = (if 0 <? btx_Gas b then btx_Gas b else Gas cfg) /\
    AuthInfo_Marshal (signed_info pk f (Some (MkFee (f_fees f) gas "" ""))) = Ok auth) /\
  (if numbers_given b then f_accountNumber f = btx_AccountNumber b /\ f_sequence f = btx_Sequence b
   else exists (s1 s2 : client W C) acc, QueryAndRefreshAccount (f_address f) s1 = (Ok acc, s2) /\
          f_accountNumber f = acc_AccountNumber acc /\ f_sequence f = acc_Sequence acc).
Proof.
  intros Hk Hs E H62. unfold buildTx in E. st_inv.
  match goal with X : prepare _ _ _ _ _ = _ |- _ => apply prepare_fields in X as
    (addr & text & s1 & _ & _ & Kk & Kp & Kt & Kh & Kc & Kg & Ka & Km & Kgas & Kn) end.
  match goal with X : BuildAndSign _ _ _ _ _ = _ |- _ => rename X into Hb end.
  split.
  - destruct (BuildAndSign_signed _ _ _ _ _ (fun pk a data sig p Hf Hsg =>
      proj2 (holds_key_signs d (From b) (Password b) priv address Hk Hs pk a data sig p
        ltac:(rewrite Kk, Kp in Hf; exact Hf) ltac:(rewrite Kk, Kp in Hsg; exact Hsg))) Kg Kt Kh Hb H62)
      as (body & auth & sig & pk & a & anys & Ed & Ef & Ev & Ea & Eb & Ei).
    destruct Hk as (pk' & a' & Hpk & Hf & _). rewrite Kk, Kp in Ef. cbn in Ef. rewrite Hf in Ef. injection Ef as -> ->.
    exists body, auth, sig, pk, anys, (f_gas f). rewrite Kc in Ev. rewrite Km in Eb. done.
  - destruct (numbers_given b); [done|]. destruct Kn as (acc & s2 & Eq & H1' & H2'). rewrite Ka. eauto 6.
Qed.

(** C1: What a client sends is signed by the key it names.  For a secp256k1 key
    (a number between 1 and the group order minus 1, [secp_usable]) held in the key
    store under the name and password of the request, whatever the node answers
    and the cache holds: when [buildTx] returns bytes they
    decode to a raw transaction with one signature, which verifies under the
    public key of the stored private key over the sign document made of the body
    and auth info in that transaction, the configured chain id and the account
    number of the factory; the body holds the messages and the memo of the
    request and the auth info the key, the sequence number and the gas; and the
    numbers are those of the request if it gives both, otherwise those that
    [QueryAndRefreshAccount] answered for the address. *)
Theorem buildTx_verifies d priv address ms b (s s' : client W C) bz f :
  holds_key d (From b) (Password b) priv address -> secp_usable priv ->
  buildTx cfg (store_manager d) (Some direct_handlers) TxJSONEncoder ms b s = (Ok (bz, f), s') -> Z.of_nat (length bz) < 2 ^ 62 ->
  (exists body auth sig pk anys gas,
    TxRaw_Unmarshal (MkTxRaw [] [] []) bz = Ok (MkTxRaw body auth [sig]) /\ priv_PubKey priv = Ok pk /\
    VerifySignature pk (SignDoc_Marshal (MkSignDoc body auth (ChainId cfg) (f_accountNumber f))) sig = Ok true /\
    map_res NewAnyWithValue ms = Ok anys /\ body = TxBody_Marshal (MkTxBody anys (btx_Memo b) 0 [] []) /\
    gas = (if 0 <? btx_Gas b then btx_Gas b else Gas cfg) /\
    AuthInfo_Marshal (signed_info pk f (Some (MkFee (f_fees f) gas "" ""))) = Ok auth) /\
  (if numbers_given b then f_accountNumber f = btx_AccountNumber b /\ f_sequence f = btx_Sequence b
   else exists (s1 s2 : client W C) acc, QueryAndRefreshAccount (f_address f) s1 = (Ok acc, s2) /\
          f_accountNumber f = acc_AccountNumber acc /\ f_sequence f = acc_Sequence acc).
Proof. apply buildTx_signed. Qed.
End Stored.

(* ------------------------------------------------------------------ *)
(** * Amounts in units of tokens *)
Section Units.
Context {W C : Type} `{Node W, GCache cached C, ClientCodec}.

(** An amount in the main unit when the token cannot be queried.  The failed
    query counts as a token without units, so the amount is not converted but
    its fraction is cut off, and no error is reported: with six decimals,
    [1.5plug] becomes [1plug] and not [1500000uplug]. *)
Theorem ToMinCoin_unavailable (s : client W C) d x conn w1 e w2 w3 :
  enabled (cl_cache s) = false -> TrimSpace d <> "" -> 0 <= x -> int_range (x / precisionReuse) ->
  GenConn (cl_world s) = (Ok conn, w1) -> grpc_Token conn (ToLower d) w1 = (Err e, w2) -> conn_Close (Some conn) w2 = (Ok tt, w3) ->
  ToMinCoin [decV d x] s = (Ok [MkCoin d (IntV (x / precisionReuse))], MkClient (cl_cache s) (cl_locker s) w3).
Proof.
  intros He Hd Hx Hr Ec Et Ecl. destruct s as [[c en] l w]. cbn [cl_cache cl_locker cl_world enabled] in *. subst en.
  assert (QueryToken d (MkClient (MkLRU c false) l w) = (Ok Token_zero, MkClient (MkLRU c false) l w3)) as Eq.
  { unfold QueryToken, cache_Get, lru_Get, mbind, st_bind. cbn [cl_cache enabled negb]. unfold with_conn, remote, attempt.
    cbn [cl_cache cl_locker cl_world]. rewrite Ec. cbn [cl_cache cl_locker cl_world]. rewrite Et. cbn [cl_cache cl_locker cl_world mret st_ret].
    by rewrite Ecl. }
  unfold ToMinCoin. cbn [collect]. unfold mbind, st_bind. cbn [Denom]. rewrite Eq. unfold lift at 1, ConvertToMinCoin. cbn [Denom].
  assert (hasUnit (GetCoinType Token_zero) d = false) as ->.
  { unfold hasUnit, isMainUnit, isMinUnit. cbn [MainUnit MinUnit GetCoinType Token_zero Unit_Denom Token_Symbol Token_MinUnit].
    by rewrite !bool_decide_false by congruence. }
  cbn [negb Amount]. unfold Dec_TruncateInt, NewIntFromBigInt. cbn [Dec_i deref mbind res_bind].
  unfold chopPrecisionAndTruncateNonMutative, chopPrecisionAndTruncate. rewrite Z.quot_div_nonneg by done.
  rewrite overflow_if, bool_decide_true by done. reflexivity.
Qed.
End Units.
