(* ===== verification/ReadBack.v ===== *)
(** Sending and reading together: a transaction that [BuildAndSend] reports as
    committed is found again by [QueryTx] under the hash that was reported, and
    decodes to the messages that were given. *)
From Stdlib Require Import SpecFloat.
From S2P Require Import Prelude GoStrings BigText SdkInt SdkDec CoinSet CoinText Coins DecCoins CoinType BitArray Wire Decoding Keys HDPath Multisig Address Armor KeyStore TxTypes TxProto UnknownProto Sigs TxBuilder TxDecode StdTx Factory Events Errors Config Cache Locker Client ClientLemmas Blocks TxQueries Accounts.

(** The node keeps what it has committed: it answers the transaction under its
    hash, at the height it told, and has the block of that height. *)
Class KeepsCommitted (W : Type) `{Node W, TxNode W} : Prop := kept tx w r w' :
  node_BroadcastTxCommit tx w = (Ok r, w') -> IsOK (CheckTx r) = true -> IsOK (DeliverTx r) = true ->
  Forall is_uint8 (c_Hash r) /\
  exists t w1 b block w2, rpc_Tx (c_Hash r) true w' = (Ok t, w1) /\ rt_Tx t = tx /\ rt_Hash t = c_Hash r /\ rt_Height t = c_Height r /\
    rpc_Block (Some (c_Height r)) w1 = (Ok b, w2) /\ rb_Block b = Some block.

Section ReadBack.
Context {W C D Msg T : Type}.
Context `{KeepsCommitted W, GCache cached C, KeyDAOLaws D storable, MsgInterface Msg, CryptoLaws, HDLib, AminoLaws, ArmorLib, Bech32Lib, ClientCodec}.
Context `{AnyUnpacker Msg, Descriptors T, ProtoWire}.
Variable cfg : ClientConfig D.
Variable TxJSONEncoder : Tx Msg -> res bytes.
Variable impl : spec_float -> Z.
Variables TxRawType TxBodyType : T.

Lemma QueryTx_found {K} (decoder : bytes -> ST K (wrapper Msg)) h w c t w1 b block w2 tx c' :
  Forall is_uint8 h -> rpc_Tx h true w = (Ok t, w1) -> rpc_Block (Some (rt_Height t)) w1 = (Ok b, w2) -> rb_Block b = Some block ->
  decoder (rt_Tx t) c = (Ok tx, c') ->
  QueryTx decoder (hex_upper h) (w, c) =
    (Ok (MkResultQueryTx (hex_upper (rt_Hash t)) (rt_Height t) tx (ParseTxResult (rt_TxResult t)) (header_RFC3339 (tb_Header block))), (w2, c')).
Proof.
  intros Hh Et Eb Hb Ed. unfold QueryTx. rewrite hex_upper_roundtrip by done.
  unfold mbind, st_bind, lift, node. rewrite Et. unfold getResultBlocks, get_blocks. rewrite lookup_empty.
  unfold mbind, st_bind, node. rewrite Eb. cbn [mret st_ret]. unfold parseTxResult, mbind, st_bind, decoding. rewrite Ed.
  unfold lift. rewrite lookup_insert_eq. cbn [deref]. by rewrite Hb.
Qed.

(** A sending that reports success in the mode [commit]. *)
Lemma BuildAndSend_committed km txConfig ms b (s s' : client W C) r : btx_Simulate b = false -> mode_of cfg b = Commit ->
  BuildAndSend cfg km txConfig TxJSONEncoder impl ms b s = (Ok r, s') ->
  exists bz f s1 a, buildTx cfg km txConfig TxJSONEncoder ms b s = (Ok (bz, f), s1) /\
    node_BroadcastTxCommit bz (cl_world s1) = (Ok a, cl_world s') /\ IsOK (CheckTx a) = true /\ IsOK (DeliverTx a) = true /\
    res_Hash r = hex_upper (c_Hash a) /\ res_Height r = c_Height a.
Proof.
  intros Hsim Hmode E. unfold BuildAndSend in E. apply st_bind_Ok in E as ([bz f] & s1 & Eb & E).
  assert (f_mode f = Commit) as Hf.
  { unfold buildTx in Eb. st_inv. match goal with X : prepare _ _ _ _ _ = _ |- _ => apply prepare_mode in X; by rewrite X end. }
  exists bz, f, s1. apply st_bind_Ok in E as ([] & s2 & [= <-] & E). apply st_bind_Ok in E as (ro & s3 & Er & E).
  apply attempt_Ok in Er as [Er _]. rewrite Hsim, Hf in Er. destruct ro as [ok|e|p]; [|by destruct (Cached cfg); st_inv|by st_inv].
  apply lift_Ok in E as [[= ->] ->]. unfold broadcastTx in Er. rewrite bool_decide_true in Er by done.
  unfold broadcastTxCommit in Er. apply st_bind_Ok in Er as (a & s4 & Ea & Er). exists a.
  unfold remote in Ea. destruct (node_BroadcastTxCommit bz (cl_world s1)) as [ra w'] eqn:Ew. injection Ea as -> <-.
  destruct (IsOK (CheckTx a)); cbn [negb] in Er; [|unfold fail_with in Er; by st_inv].
  destruct (IsOK (DeliverTx a)); cbn [negb] in Er; [|unfold fail_with in Er; by st_inv].
  injection Er as <- <-. done.
Qed.

Lemma packed_cached (ms : list Msg) anys : map_res NewAnyWithValue ms = Ok anys ->
  map cachedValue anys = map Some ms /\ anys_ok anys /\ Forall (fun a => exists m, m ∈ ms /\ NewAnyWithValue m = Ok a) anys.
Proof.
  revert anys. induction ms as [|m ms IH]; intros anys E; [injection E as <-; by repeat constructor|].
  rewrite map_res_cons in E. apply bind_Ok in E as (a & Ea & E). apply bind_Ok in E as (as' & E & [= <-]).
  destruct (IH _ E) as (Hc & Ho & Hf). assert (cachedValue a = Some m /\ Any_unrecognized a = []) as [H1' H2'].
  { unfold NewAnyWithValue in Ea. apply bind_Ok in Ea as (bz & _ & [= <-]). done. }
  split_and!; [cbn; by rewrite H1', Hc|by constructor|]. constructor; [exists m; split; [by left|done]|].
  eapply Forall_impl; [exact Hf|]. intros a' (m' & Hm' & Ha'). exists m'. split; [by right|done].
Qed.

(** C4: What was sent can be read, if its messages can.  The messages given are
    ones that are unpacked from their own encodings and that the check for unknown
    fields knows; [Sdk.modules_unpack] shows the first for the messages of the
    modules, but not for a proposal with a content, which the client sends and its
    decoder refuses ([Sdk.proposals_not_unpacked]).  For such messages, a secp256k1
    key of the group in the key store, and gas, fees, sequence and size within
    their ranges: when [BuildAndSend] in the mode [commit] reports the transaction
    as included by a node that keeps what it commits, [QueryTx] of the hash in the
    result succeeds, with any content of the decoder's caches, and answers the
    messages and the memo that were given, under that hash and at the height in
    the result. *)
Theorem committed_read_back (WL : wire_laws) (TT : tx_types TxRawType TxBodyType) d priv address ms b (s s' : client W C) r c :
  holds_key d (From b) (Password b) priv address -> secp_usable priv ->
  btx_Simulate b = false -> mode_of cfg b = Commit -> is_uint64 (btx_Gas b) -> is_uint64 (Gas cfg) ->
  (forall m a, m ∈ ms -> NewAnyWithValue m = Ok a -> unpack_msg (ClearCachedValue a) = Ok a /\ known_any a) ->
  (forall bz f s1, buildTx cfg (store_manager d) (Some direct_handlers) TxJSONEncoder ms b s = (Ok (bz, f), s1) ->
     Z.of_nat (length bz) < 2 ^ 62 /\ Forall coin_ok (f_fees f) /\ is_uint64 (f_sequence f)) ->
  BuildAndSend cfg (store_manager d) (Some direct_handlers) TxJSONEncoder impl ms b s = (Ok r, s') -> caches_ok c ->
  exists info w c', QueryTx (DefaultTxDecoder TxRawType TxBodyType) (res_Hash r) (cl_world s', c) = (Ok info, (w, c')) /\
    caches_ok c' /\ Tx_GetMsgs (tx (rq_Tx info)) = Ok ms /\ GetMemo (rq_Tx info) = Ok (btx_Memo b) /\
    rq_Hash info = res_Hash r /\ rq_Height info = res_Height r.
Proof using All.
  intros Hk Hs Hsim Hmode Hgas Hcfg Hms Hf E Hc.
  destruct (BuildAndSend_committed _ _ _ _ _ _ _ Hsim Hmode E) as (bz & f & s1 & a & Eb & Ea & Hok1 & Hok2 & Eh & Eht).
  destruct (Hf _ _ _ Eb) as (H62 & Hfees & Hseq).
  destruct (buildTx_signed cfg TxJSONEncoder d priv address ms b _ _ _ _ Hk Hs Eb H62)
    as ((body & auth & sig & pk & anys & gas & Ed & _ & _ & Eany & -> & -> & Eauth) & _).
  assert (bz = TxRaw_Marshal (MkTxRaw (TxBody_Marshal (MkTxBody anys (btx_Memo b) 0 [] [])) auth [sig])) as ->.
  { unfold buildTx in Eb. st_inv. match goal with X : BuildAndSign _ _ _ _ _ = _ |- _ => by eapply BuildAndSign_bytes end. }
  destruct (packed_cached _ _ Eany) as (Hcached & Hanys & Hfrom). rewrite Forall_forall in Hfrom.
  match type of Eauth with AuthInfo_Marshal ?i = _ => set (info := i) in * end.
  destruct (decode_raw TxRawType TxBodyType WL TT (MkTxBody anys (btx_Memo b) 0 [] []) info auth [sig] c) as (c' & Hd & Hc').
  - split_and!; [done|by vm_compute|constructor..].
  - split; [constructor; [split_and!; [by intros ? [= <-]|right; vm_compute; reflexivity|done]|constructor]|].
    intros fe [= <-]. split; [done|]. cbn. by destruct (0 <? btx_Gas b).
  - apply Forall_forall. intros x Hx. destruct (Hfrom x Hx) as (m & Hm & Hx'). by destruct (Hms m x Hm Hx').
  - apply Forall_forall. intros x Hx. destruct (Hfrom x Hx) as (m & Hm & Hx'). by destruct (Hms m x Hm Hx').
  - constructor.
  - constructor.
  - done.
  - done.
  - done.
  - destruct (kept _ _ _ _ Ea Hok1 Hok2) as (Hh & t & w1 & rb & block & w2 & Et & Etx & Ehash & Ehe & Eblk & Hblk).
    rewrite <-Ehe in Eblk. rewrite <-Etx in Hd.
    rewrite Eh, (QueryTx_found _ _ _ _ _ _ _ _ _ _ _ Hh Et Eblk Hblk Hd). eexists _, w2, c'. split; [reflexivity|].
    cbn [rq_Tx rq_Hash rq_Height]. split_and!; [done| |done|by rewrite Ehash|by rewrite Ehe].
    eapply Tx_GetMsgs_packed; [reflexivity|]. exact Hcached.
Qed.
End ReadBack.
