(* ===== verification/Batches.v ===== *)
(** What [SendBatch] of [modules/base_client.go] promises: the messages go out in
    order and in segments, failures are retried a bounded number of times, and
    the lock of the account is released on every path. *)
From Stdlib Require Import SpecFloat.
From S2P Require Import Prelude GoStrings BigText SdkInt SdkDec CoinSet CoinText Coins DecCoins CoinType BitArray Wire Keys Multisig Address Armor TxTypes Sigs TxBuilder Factory Events Errors Config Cache Locker Client ClientLemmas Accounts.

Section Batches.
Context {W C D Msg : Type} {sent : W -> list bytes}.
Context `{NodeJournal W sent, GCache cached C, MsgInterface Msg, CryptoLib, AminoLib, Bech32Lib, ClientCodec}.
Variable cfg : ClientConfig D.
Variable km : KeyManager.
Variable txConfig : option SignModeHandlerMap.
Variable ValidateBasic : Msg -> res unit.
Variable TxJSONEncoder : Tx Msg -> res bytes.
Variable impl : spec_float -> Z.
Abbreviation journal s := (sent (cl_world (s : client W C))).

(* ------------------------------------------------------------------ *)
(** * Lemmas *)

(** A transaction built from messages for the request [b]. *)
Definition built (b : BaseTx) (ms : list Msg) (tx : bytes) : Prop :=
  exists (s : client W C) f s', buildTx cfg km txConfig TxJSONEncoder ms b s = (Ok (tx, f), s').

Lemma build_sends ms b : respects (same_sent (sent := sent)) (buildTx (W := W) (C := C) cfg km txConfig TxJSONEncoder ms b).
Proof. apply (respects_buildTx cfg km txConfig TxJSONEncoder b same_sent), prepare_sends. Qed.

Lemma broadcast_journal tx mode (s : client W C) r s' : broadcastTx cfg impl tx mode false s = (r, s') ->
  (journal s' = journal s ++ [tx]) \/ (journal s' = journal s /\ exists e, r = Err e).
Proof.
  intros E. assert (forall A (m : ST W A) ra s1, node_broadcast tx m -> remote m s = (ra, s1) -> journal s1 = journal s ++ [tx]) as Hb.
  { intros A m ra s1 Hm Em. unfold remote in Em. destruct (m _) eqn:Ew. injection Em as <- <-. cbn. by eapply broadcast_sends. }
  assert (forall A B (m : ST W A) (f : A -> ST (client W C) B) ra s1, node_broadcast tx m ->
    (forall a u rb u', f a u = (rb, u') -> u' = u) -> (remote m ≫= f) s = (ra, s1) -> journal s1 = journal s ++ [tx]) as Hbind.
  { intros A B m f ra s1 Hm Hf Em. unfold mbind, st_bind in Em. destruct (remote m s) as [[a|e|p] s2] eqn:Er.
    - apply Hf in Em as ->. by eapply Hb.
    - injection Em as <- <-. by eapply Hb.
    - injection Em as <- <-. by eapply Hb. }
  unfold broadcastTx, broadcastTxCommit, broadcastTxSync, broadcastTxAsync in E.
  repeat case_bool_decide; [..|right; injection E as <- <-; split; [done|by eexists]]; left;
    (eapply Hbind; [constructor| |exact E]); intros a u rb u' Eu; unfold fail_with in Eu.
  - repeat match type of Eu with (if ?c then _ else _) _ = _ => destruct c end; by injection Eu.
  - by injection Eu.
  - destruct (negb _); by injection Eu.
Qed.

(** The retries of one segment. *)
Lemma retry_journal k ms b (s : client W C) r s' : btx_Simulate b = false -> (1 <= k)%nat ->
  retry cfg km txConfig TxJSONEncoder impl k ms b s = (r, s') ->
  exists txs, journal s' = journal s ++ txs /\ Forall (built b ms) txs /\
    match r with
    | Ok (Sent _, k') => (1 <= k' <= k)%nat /\ txs <> [] /\ (length txs + k' <= k + 1)%nat
    | Ok (TooLarge _, _) => False
    | _ => (length txs <= k)%nat
    end.
Proof.
  intros Hsim. revert s r s'. induction k as [|k IH]; intros s r s' Hk E; [lia|].
  cbn [retry] in E. unfold mbind at 1, st_bind at 1 in E.
  destruct (buildTx _ _ _ _ _ _ s) as [[[tx f]|e|p] s1] eqn:Eb; pose proof (build_sends _ _ _ _ _ Eb) as Hj;
    unfold same_sent in Hj; [|injection E as <- <-; exists []; rewrite app_nil_r; (split; [done|split; [done|cbn; lia]])..].
  unfold ValidateTxSize in E. unfold mbind at 1, st_bind at 1, attempt in E. rewrite Hsim in E.
  destruct (broadcastTx _ _ _ _ _ s1) as [r2 s2] eqn:Er.
  assert (built b ms tx) as Hbt by (by exists s, f, s1).
  assert (exists t, journal s2 = journal s ++ t /\ Forall (built b ms) t /\ (length t <= 1)%nat /\ (forall a, r2 = Ok a -> t = [tx])) as (t & Ht & Hbl & Hl & Hok).
  { destruct (broadcast_journal _ _ _ _ _ Er) as [Hw|[Hw [e ->]]]; rewrite Hw, Hj.
    - exists [tx]. split_and!; [done|by constructor|done|done].
    - exists []. rewrite app_nil_r. split_and!; [done|done|cbn; lia|done]. }
  destruct r2 as [res|e|p].
  - injection E as <- <-. exists t. rewrite (Hok _ eq_refl) in *. split_and!; [done|done|lia|lia|done|cbn; lia].
  - destruct (Cached cfg).
    + unfold mbind at 1, st_bind at 1, removeCache, cache_Remove in E. destruct (lru_Remove _ _) as [rb c].
      destruct k as [|k]; [injection E as <- <-; exists t; split_and!; [done|done|lia]|].
      destruct (IH _ _ _ ltac:(lia) E) as (t' & Ht' & Hbl' & Hm). cbn [cl_world] in Ht'. exists (t ++ t').
      rewrite Ht', Ht, app_assoc. split; [done|]. split; [by apply Forall_app|]. rewrite length_app.
      destruct r as [[[res|a] k']|e'|p']; [|done|lia..]. destruct Hm as (? & ? & ?). split_and!; [lia|lia|by destruct t|lia].
    + injection E as <- <-. exists t. split_and!; [done|done|lia].
  - injection E as <- <-. exists t. split_and!; [done|done|lia].
Qed.

(** The transactions of [groups] go out for the segments [segs] in order, and
    those of [last] for the segment after them. *)
Definition sent_for (b : BaseTx) (segs : list (list Msg)) (groups : list (list bytes)) (last : list bytes) : Prop :=
  (length groups <= length segs)%nat /\
  Forall2 (fun ms txs => txs <> [] /\ Forall (built b ms) txs) (take (length groups) segs) groups /\
  match segs !! length groups with Some ms => Forall (built b ms) last | None => last = [] end.

Lemma segments_journal k i segs b (s : client W C) rs r s' rs' : btx_Simulate b = false -> (1 <= k)%nat ->
  send_segments cfg km txConfig TxJSONEncoder impl k i segs b (s, rs) = (r, (s', rs')) ->
  exists done groups last, rs' = rs ++ done /\ length done = length groups /\ journal s' = journal s ++ concat groups ++ last /\
    sent_for b segs groups last /\ (length (concat groups ++ last) <= length groups + k)%nat /\
    match r with
    | Ok (None, _) => length groups = length segs
    | Ok (Some _, _) => False
    | _ => (length groups < length segs)%nat
    end.
Proof.
  intros Hsim. revert k i s rs. induction segs as [|ms segs IH]; intros k i s rs Hk E; cbn [send_segments] in E.
  - injection E as <- <- <-. exists [], [], []. unfold sent_for. cbn. rewrite !app_nil_r. split_and!; try done; lia.
  - unfold mbind at 1, st_bind at 1, in_batch in E.
    destruct (retry _ _ _ _ _ _ _ _ s) as [r1 s1] eqn:Er. apply retry_journal in Er as (txs & Hj & Hb & Hr); [|done|done].
    destruct r1 as [[[res|a] k']|e|p]; [|done|..].
    2,3: injection E as <- <- <-; exists [], [], txs; unfold sent_for; cbn; rewrite app_nil_r; split_and!; try done; lia.
    destruct Hr as (Hk' & Hne & Hl). unfold mbind at 1, st_bind at 1, append_result in E.
    apply IH in E as (dn & groups & last & -> & Hd & Hj2 & (Hle & Hall & Hm) & Hlen & Hr2); [|lia].
    exists (res :: dn), (txs :: groups), last. rewrite <-(assoc_L _ rs), Hj2, Hj, <-!(assoc_L _ (journal s)). cbn [concat].
    rewrite <-(assoc_L _ txs). split_and!; [done|cbn; lia|done| | |].
    + split_and!; [cbn; lia|by constructor|done].
    + cbn [length]. rewrite !length_app in *. lia.
    + destruct r as [[[?|] ?]|?|?]; [done|cbn; lia|cbn; lia..].
Qed.

(** The outcome of all batches; [ValidateTxSize] refuses nothing, so the batches
    are never resized. *)
Lemma send_all_journal msgs b (s : client W C) r s' rs' : btx_Simulate b = false ->
  send_all cfg km txConfig TxJSONEncoder impl msgs b (s, []) = (r, (s', rs')) ->
  exists segs groups last, SubArray maxBatch msgs = Ok segs /\ length rs' = length groups /\
    journal s' = journal s ++ concat groups ++ last /\ sent_for b segs groups last /\
    (length (concat groups ++ last) <= length groups + tryThreshold)%nat /\
    match r with Ok _ => length groups = length segs | _ => (length groups < length segs)%nat end.
Proof.
  intros Hsim E. unfold send_all in E. cbn [resize] in E. destruct (SubArray_segments maxBatch msgs) as (segs & Es & _); [done|].
  unfold mbind at 1, st_bind at 1, lift at 1 in E. rewrite Es in E. unfold mbind at 1, st_bind at 1 in E.
  destruct (send_segments _ _ _ _ _ _ _ _ _ _) as [r1 [s1 rs1]] eqn:E1.
  apply segments_journal in E1 as (dn & groups & last & -> & Hd & Hj & Hf & Hl & Hr); [|done|unfold tryThreshold; lia].
  exists segs, groups, last. destruct r1 as [[[x|] k']|e|p]; [done|injection E as <- <- <-..]; done.
Qed.

Lemma all_valid msgs : (forall m, In m msgs -> ValidateBasic m = Ok tt) -> for_each (fun _ m => ValidateBasic m) tt msgs = Ok tt.
Proof.
  induction msgs as [|x l IH]; intros Hv; [done|]. cbn [for_each]. rewrite Hv by (by left). cbn [mbind res_bind].
  apply IH. intros y Hy. apply Hv. by right.
Qed.

(** The lock. *)
Definition same_locker (s s' : client W C) : Prop := cl_locker s' = cl_locker s.
#[local] Instance same_locker_preorder : PreOrder same_locker.
Proof. split; [by intros s|]. intros s1 s2 s3. unfold same_locker. congruence. Qed.

Lemma remote_locker {A} (m : ST W A) : respects same_locker (remote m).
Proof. intros s r s' E. unfold remote in E. destruct (m _). by injection E as <- <-. Qed.

Lemma send_all_locker msgs b (s : client W C) rs r s' rs' :
  send_all cfg km txConfig TxJSONEncoder impl msgs b (s, rs) = (r, (s', rs')) -> cl_locker s' = cl_locker s.
Proof.
  assert (forall (s : client W C) c, same_locker s (MkClient c (cl_locker s) (cl_world s))) as Hc by done.
  assert (respects same_locker (prepare cfg km txConfig b)) as Hp.
  { apply (respects_prepare cfg km txConfig same_locker); [intros; apply remote_locker|..]; intros;
      first [apply respects_cache_Get|apply respects_cache_Set|apply respects_cache_SetWithExpire|apply respects_cache_Remove]; done. }
  intros E. apply (respects_send_all cfg km txConfig TxJSONEncoder impl b same_locker Hp) in E; [done|..];
    intros; first [apply remote_locker|by apply respects_cache_Remove].
Qed.

Lemma Lock_Unlock key l : locker_wf l -> shards l !! index_of (size l) key = Some 0 ->
  exists l', Lock key l = Ok (Some l') /\ Unlock key l' = Ok (Some l).
Proof.
  intros Hl Hi. destruct (getShard_wf l key Hl) as (c & Hc & Eg). rewrite Hi in Hc. injection Hc as <-.
  destruct (shard_index_wf l key Hl) as [_ Hlt].
  set (l' := MkLocker (<[index_of (size l) key := 1]> (shards l)) (size l)).
  exists l'. split; [unfold Lock; by rewrite Eg|].
  assert (locker_wf l') as Hl' by (split; [apply Hl|cbn; rewrite length_insert; apply Hl]).
  destruct (getShard_wf l' key Hl') as (c & Hc & Eg'). cbn [shards size l'] in Hc, Eg'.
  rewrite list_lookup_insert_eq in Hc by done. injection Hc as <-. unfold Unlock. rewrite Eg'. cbn [mbind res_bind l' shards size].
  change (0 <? 1) with true. cbn. rewrite list_insert_insert_eq, list_insert_id by done. by destruct l.
Qed.

(** The transactions of a whole call. *)
Lemma SendBatch_journal msgs b (s : client W C) rs e s' : btx_Simulate b = false ->
  SendBatch cfg km txConfig ValidateBasic TxJSONEncoder impl msgs b s = Some (rs, e, s') ->
  exists segs groups last, SubArray maxBatch msgs = Ok segs /\ concat segs = msgs /\
    Forall (fun ms => Z.of_nat (length ms) <= 100) segs /\
    journal s' = journal s ++ concat groups ++ last /\ length rs = length groups /\ sent_for b segs groups last /\
    (length (concat groups ++ last) <= length rs + 3)%nat /\
    (length rs = length segs -> e = None /\ last = []) /\ (e <> None -> (length rs < length segs)%nat).
Proof.
  intros Hsim E. destruct (SubArray_segments maxBatch msgs) as (segs & Es & Ec & Hl & Hn); [done|].
  assert (length segs <> 0%nat) as Hne by lia.
  assert (exists groups last, journal s = journal s ++ concat groups ++ last /\ 0%nat = length groups /\
    sent_for b segs groups last /\ (length (concat groups ++ last) <= 0 + 3)%nat /\
    (0%nat = length segs -> e = None /\ last = []) /\ (e <> None -> (0 < length segs)%nat)) as (gs0 & l0 & Hnone).
  { exists [], []. unfold sent_for. cbn. rewrite app_nil_r. split_and!; try done; try lia. by destruct (segs !! 0%nat). }
  unfold SendBatch in E. destruct msgs as [|m ms]; [|destruct (for_each _ _ _) as [?|?|?]; [destruct (Lock _ _) as [[l|]|?|?]|..]];
    try (injection E as <- <- <-; exists segs, gs0, l0; cbn [length]; tauto); [|done].
  destruct (send_all _ _ _ _ _ _ _ _) as [r [s1 rs1]] eqn:Ea.
  assert (rs = rs1 /\ e = err_of r /\ journal s' = journal s1) as (-> & -> & ->)
    by (destruct (Unlock _ _) as [[l'|]|?|?]; [|done|..]; injection E as <- <- <-; done).
  apply send_all_journal in Ea as (segs' & groups & last & Es' & Hrs & Hj & Hf & Hlen & Hr); [|done].
  rewrite Es in Es'. injection Es' as <-. exists segs, groups, last. rewrite Hrs. split_and!; try done.
  - intros Heq. destruct r as [[]|?|?]; [|lia..]. split; [done|]. destruct Hf as (_ & _ & Hm). rewrite Heq in Hm.
    by rewrite lookup_ge_None_2 in Hm.
  - intros He. destruct r as [[]|?|?]; [done|lia..].
Qed.

(* ------------------------------------------------------------------ *)
(** * Properties *)


(** C10: [SendBatch] takes the lock of the account and gives it back on every
    path.  When the channel of the account is free it returns, with results, an
    error or a panic inside recovered, and leaves the locks as they were; when
    the channel is taken and the messages are valid it blocks. *)
Theorem SendBatch_unlocks msgs b (s : client W C) c : locker_wf (cl_locker s) ->
  shards (cl_locker s) !! index_of (size (cl_locker s)) (From b) = Some c ->
  (c = 0 -> exists rs e s', SendBatch cfg km txConfig ValidateBasic TxJSONEncoder impl msgs b s = Some (rs, e, s') /\
     cl_locker s' = cl_locker s) /\
  (chan_cap <= c -> msgs <> [] -> (forall m, In m msgs -> ValidateBasic m = Ok tt) ->
     SendBatch cfg km txConfig ValidateBasic TxJSONEncoder impl msgs b s = None).
Proof.
  intros Hl Hi. split.
  - intros ->. destruct (Lock_Unlock _ _ Hl Hi) as (l' & E1 & E2). unfold SendBatch.
    destruct msgs as [|m ms]; [by eauto 6|]. destruct (for_each _ _ _); [|by eauto 6..]. rewrite E1.
    destruct (send_all _ _ _ _ _ _ _ _) as [r [s1 rs1]] eqn:Ea. apply send_all_locker in Ea. cbn [cl_locker] in Ea.
    rewrite Ea, E2. eexists _, _, _. done.
  - intros Hc Hne Hv. unfold SendBatch. destruct msgs as [|m ms]; [done|].
    assert (for_each (fun _ m => ValidateBasic m) tt (m :: ms) = Ok tt) as -> by by apply all_valid.
    destruct (getShard_wf _ (From b) Hl) as (c' & Hc' & Eg). rewrite Hi in Hc'. injection Hc' as <-.
    unfold Lock. rewrite Eg. cbn [mbind res_bind]. by rewrite (proj2 (Z.ltb_ge _ _)).
Qed.

(** With explicit numbers the batches collide.  When the request gives the
    account and the sequence number, every transaction that [SendBatch] hands to
    the node carries that same sequence number, however many batches the
    messages need; a chain includes at most one of them. *)
Theorem SendBatch_given_numbers msgs b (s : client W C) rs e s' : btx_Simulate b = false -> numbers_given b = true ->
  SendBatch cfg km txConfig ValidateBasic TxJSONEncoder impl msgs b s = Some (rs, e, s') ->
  exists txs, journal s' = journal s ++ txs /\ (length rs <= length txs)%nat /\
    Forall (fun tx => exists ms f, BuildAndSign TxJSONEncoder (From b) ms false f = Ok tx /\
      f_accountNumber f = btx_AccountNumber b /\ f_sequence f = btx_Sequence b) txs.
Proof.
  intros Hsim Hn E. apply SendBatch_journal in E as (segs & groups & last & _ & _ & _ & Hj & Hrs & (_ & Hg & Hl) & _); [|done].
  exists (concat groups ++ last). split; [done|].
  assert (forall ms tx, built b ms tx -> exists ms f, BuildAndSign TxJSONEncoder (From b) ms false f = Ok tx /\
      f_accountNumber f = btx_AccountNumber b /\ f_sequence f = btx_Sequence b) as Hb.
  { intros ms tx (s0 & f & s1 & Eb). unfold buildTx in Eb. st_inv. exists ms, f. split; [done|].
    match goal with X : prepare _ _ _ _ _ = _ |- _ => apply prepare_fields in X as
      (addr & text & s2 & Kn) end. rewrite Hn in Kn. tauto. }
  rewrite Hrs. split.
  - rewrite length_app. clear Hrs Hj Hl. remember (take (length groups) segs) as ss eqn:Es. clear Es.
    induction Hg as [|ms txs ss gs [Hne _] _ IH]; [cbn; lia|]. cbn [concat length] in *. rewrite length_app. destruct txs; [done|cbn [length]; lia].
  - apply Forall_app. split.
    + clear Hrs Hj Hl. remember (take (length groups) segs) as ss eqn:Es. clear Es.
      induction Hg as [|ms txs ss gs [_ Ht] _ IH]; [constructor|]. cbn [concat]. apply Forall_app. split; [|done].
      eapply Forall_impl; [exact Ht|]. intros tx. apply Hb.
    + destruct (segs !! length groups) as [ms|]; [|rewrite Hl; constructor]. eapply Forall_impl; [exact Hl|]. intros tx. apply Hb.
Qed.

(** [SendBatch] reports success when it has panicked.  An account of another
    type than [BaseAccount], such as a vesting or module account, makes the query
    of the account panic; [SendBatch] recovers, and returns no result and no
    error though no transaction has been sent. *)
Theorem SendBatch_swallows_panics msgs b (s : client W C) pk addr text conn bz w1 w2 w3 :
  msgs <> [] -> (forall m, In m msgs -> ValidateBasic m = Ok tt) -> locker_wf (cl_locker s) ->
  shards (cl_locker s) !! index_of (size (cl_locker s)) (From b) = Some 0 -> enabled (cl_cache s) = false ->
  numbers_given b = false -> km_Find km (From b) (Password b) = Ok (pk, addr) -> Acc_String addr = Ok text ->
  GenConn (cl_world s) = (Ok conn, w1) -> grpc_Account conn text w1 = (Ok bz, w2) -> UnpackAccount bz = Ok None ->
  conn_Close (Some conn) w2 = (Ok tt, w3) ->
  SendBatch cfg km txConfig ValidateBasic TxJSONEncoder impl msgs b s = Some ([], None, MkClient (cl_cache s) (cl_locker s) w3) /\
  sent w3 = sent (cl_world s).
Proof.
  intros Hne Hv Hl Hi He Hn Hf Ht Ec Eg Eu Ecl. destruct (Lock_Unlock _ _ Hl Hi) as (l' & E1 & E2).
  assert (forall l, prepare cfg km txConfig b (MkClient (cl_cache s) l (cl_world s)) =
    (Panic "interface conversion", MkClient (cl_cache s) l w3)) as Ep.
  { intros l. destruct s as [[c en] lk w]. cbn [cl_cache cl_world enabled] in *. subst en.
    unfold prepare, prepare_factory. rewrite MakeSignModeHandler_direct. unfold mbind, st_bind. unfold lift at 1. cbn [mbind res_bind].
    unfold QueryAddress at 1, cache_Get at 1, lru_Get at 1, mbind, st_bind. cbn [cl_cache enabled negb]. rewrite Hf. unfold lift at 1.
    rewrite Ht. unfold lift at 1. unfold cache_SetWithExpire at 1, lru_SetWithExpire at 1. cbn [cl_cache enabled negb mret st_ret].
    rewrite Ht. unfold lift at 1. unfold numbers_given in Hn. rewrite Hn.
    unfold QueryAndRefreshAccount, cache_Get, lru_Get, mbind, st_bind. cbn [cl_cache enabled negb]. unfold refresh, QueryAccount, with_conn, mbind, st_bind.
    unfold remote at 1. cbn [cl_cache cl_locker cl_world]. rewrite Ec. unfold remote at 1. cbn [cl_cache cl_locker cl_world]. rewrite Eg.
    unfold lift at 1. rewrite Eu. unfold lift. unfold remote. cbn [cl_cache cl_locker cl_world]. by rewrite Ecl. }
  split.
  - unfold SendBatch. destruct msgs as [|m ms]; [done|].
    assert (for_each (fun _ m => ValidateBasic m) tt (m :: ms) = Ok tt) as -> by by apply all_valid.
    rewrite E1. unfold send_all. cbn [resize]. destruct (SubArray_segments maxBatch (m :: ms)) as (segs & Es & Econ & _); [done|].
    unfold mbind at 1, st_bind at 1, lift at 1. rewrite Es. destruct segs as [|ms0 segs]; [done|].
    unfold mbind at 1, st_bind at 1. cbn [send_segments]. unfold mbind at 1, st_bind at 1, in_batch at 1.
    assert (retry cfg km txConfig TxJSONEncoder impl tryThreshold ms0 b (MkClient (cl_cache s) l' (cl_world s)) =
      (Panic "interface conversion", MkClient (cl_cache s) l' w3)) as ->.
    { unfold tryThreshold. cbn [retry]. unfold mbind, st_bind, buildTx, mbind, st_bind. by rewrite Ep. }
    cbn [cl_cache cl_locker cl_world].
    rewrite E2. done.
  - pose proof (query_sends _ _ _ _ _ q_GenConn Ec) as J1. pose proof (query_sends _ _ _ _ _ (q_Account conn text) Eg) as J2.
    pose proof (query_sends _ _ _ _ _ (q_Close (Some conn)) Ecl) as J3. congruence.
Qed.
End Batches.
