(* ===== verification/SendOne.v ===== *)
(** A client that sends one message: what the node receives when an operation
    that builds a message and hands it to [BuildAndSend] reports success.  The
    clients of the modules are all of this form. *)
From Stdlib Require Import SpecFloat.
From S2P Require Import Prelude GoStrings BigText SdkInt SdkDec CoinSet CoinText Coins DecCoins CoinType BitArray Wire Decoding Keys HDPath Multisig Address Armor KeyStore TxTypes TxProto Sigs TxBuilder Factory Events Errors Config Cache Locker Client ClientLemmas Accounts Batches.

(** [sdk.PageRequest] *)
Record SdkPageRequest := MkSdkPageRequest { Key : bytes; Offset : Z; Limit : Z; CountTotal : bool }.

(** What the clients of the modules have in common. *)
Section Common.
Context {W C : Type} `{Node W, GCache cached C, Bech32Lib, ClientCodec}.
Abbreviation M := (ST (client W C)).

(** The text of the sender's address. *)
Definition sender_text (km : KeyManager) (baseTx : BaseTx) : M string :=
  a ← QueryAddress km (From baseTx) (Password baseTx); lift (Acc_String a).
(** One call, and the conversion of its answer. *)
Definition asking {A R} (call : Conn -> ST W A) (convert : A -> res R) : M R :=
  with_conn (fun conn => res ← remote (call conn); lift (convert res)).

(** A query that is one call: the connection is opened, the call made, the
    connection closed; the cache and the lock stay as they were. *)
Lemma with_conn_call {A} (call : Conn -> ST W A) (s : client W C) conn w1 r w2 rc w3 :
  GenConn (cl_world s) = (Ok conn, w1) -> call conn w1 = (r, w2) ->
  conn_Close (Some conn) w2 = (rc, w3) -> panics rc = false ->
  with_conn (fun conn => remote (call conn)) s = (r, MkClient (cl_cache s) (cl_locker s) w3).
Proof.
  intros Eg Ec Ed Hp. unfold with_conn, remote. rewrite Eg. cbn. rewrite Ec. cbn. rewrite Ed. by destruct rc.
Qed.
End Common.

(** Finding the sender and converting amounts send nothing. *)
Section Silent.
Context {W C : Type} {sent : W -> list bytes}.
Context `{NodeJournal W sent, GCache cached C, Bech32Lib, ClientCodec}.

Lemma QueryAddress_sends km n p : respects (same_sent (C := C) (sent := sent)) (QueryAddress km n p).
Proof.
  apply (respects_QueryAddress km same_sent); intros; [apply respects_cache_Get, same_sent_cache|
    apply respects_cache_SetWithExpire, same_sent_cache|apply respects_cache_Remove, same_sent_cache].
Qed.
Lemma sender_text_sends km b : respects (same_sent (C := C) (sent := sent)) (sender_text km b).
Proof. unfold sender_text. pose proof (QueryAddress_sends km (From b) (Password b)). frame. Qed.
Lemma ToMinCoin_sends l : respects (same_sent (C := C) (sent := sent)) (ToMinCoin l).
Proof.
  apply (respects_ToMinCoin same_sent); [apply same_sent_query|intros; apply respects_cache_Get, same_sent_cache|
    intros; apply respects_cache_Set, same_sent_cache].
Qed.
End Silent.

(** The text of an account's address is decoded to it. *)
Lemma sender_read `{Bech32Laws} sender from : addr_ok sender -> sender <> [] -> Acc_String sender = Ok from ->
  AccAddressFromBech32 from = Ok sender.
Proof.
  intros [Ha Hl] Hne Ef. unfold AccAddressFromBech32.
  destruct (Acc_String_read sender from Ha Hne Ef (Hl from Ef)) as [_ Hr]. by rewrite Hr, bool_decide_true.
Qed.

Section SendOne.
Context {W C D Msg : Type} {sent : W -> list bytes}.
Context `{NodeJournal W sent, GCache cached C, KeyDAOLaws D storable, MsgInterface Msg, CryptoLaws, HDLib, AminoLaws, ArmorLib, Bech32Lib, ClientCodec}.
Variable cfg : ClientConfig D.
Variable TxJSONEncoder : Tx Msg -> res bytes.
Variable impl : spec_float -> Z.

Lemma BuildAndSend_journal km txConfig ms b (s : client W C) r s' : btx_Simulate b = false ->
  BuildAndSend cfg km txConfig TxJSONEncoder impl ms b s = (Ok r, s') ->
  exists bz f s1, buildTx cfg km txConfig TxJSONEncoder ms b s = (Ok (bz, f), s1) /\
    sent (cl_world s') = sent (cl_world s) ++ [bz].
Proof.
  intros Hsim E. unfold BuildAndSend in E. apply st_bind_Ok in E as ([bz f] & s1 & Eb & E). exists bz, f, s1. split; [done|].
  st_inv. match goal with X : check_size _ _ _ = _ |- _ => injection X as _ <- end.
  match goal with X : broadcastTx _ _ _ _ _ _ = _ |- _ => rename X into Er end. rewrite Hsim in Er.
  pose proof (build_sends cfg km txConfig TxJSONEncoder ms b _ _ _ Eb) as Hj. unfold same_sent in Hj.
  match type of Er with _ = (?ra, _) => destruct ra as [ok|er|pa] end; [|by destruct (Cached cfg); st_inv|by st_inv].
  st_inv. destruct (broadcast_journal cfg impl _ _ _ _ _ Er) as [Hw|[_ [e ?]]]; [|done]. by rewrite Hw, Hj.
Qed.

(** A transaction with one message of the given type and encoding, and one
    signature that verifies under the public key of [priv]. *)
Definition carries_one (priv : PrivKey) (memo url : string) (value bz : bytes) : Prop :=
  Z.of_nat (length bz) < 2 ^ 62 -> exists body auth sig pk n,
    TxRaw_Unmarshal (MkTxRaw [] [] []) bz = Ok (MkTxRaw body auth [sig]) /\ priv_PubKey priv = Ok pk /\
    VerifySignature pk (SignDoc_Marshal (MkSignDoc body auth (ChainId cfg) n)) sig = Ok true /\
    TxBody_Unmarshal (Msg := Msg) empty_TxBody body = Ok (MkTxBody [MkAny url value [] None] memo 0 [] []).

Lemma BuildAndSend_one d priv address msg value b (s s' : client W C) r :
  holds_key d (From b) (Password b) priv address -> secp_usable priv -> btx_Simulate b = false ->
  proto_Marshal msg = Ok value ->
  BuildAndSend cfg (store_manager d) (Some direct_handlers) TxJSONEncoder impl [msg] b s = (Ok r, s') ->
  exists bz, sent (cl_world s') = sent (cl_world s) ++ [bz] /\
    carries_one priv (btx_Memo b) ("/" +:+ MessageName msg) value bz.
Proof using All.
  intros Hk Hs Hsim Hp E. destruct (BuildAndSend_journal _ _ _ _ _ _ _ Hsim E) as (bz & f & s1 & Eb & Hj).
  exists bz. split; [done|]. intros H62.
  destruct (proj1 (buildTx_signed cfg TxJSONEncoder d priv address _ b _ _ _ _ Hk Hs Eb H62))
    as (body & auth & sig & pk & anys & gas & Ed & Ek & Ev & Ea & Ebd & _).
  exists body, auth, sig, pk, (f_accountNumber f). split_and!; try done.
  pose proof (TxRaw_body_shorter _ _ Ed) as Hlen. cbn [raw_BodyBytes] in Hlen.
  rewrite map_res_cons in Ea. unfold NewAnyWithValue in Ea. rewrite Hp in Ea. cbn [mbind res_bind map_res] in Ea. injection Ea as <-.
  rewrite Ebd in *. rewrite TxBody_decodes; [done| |lia]. split_and!; [by repeat constructor|by vm_compute|constructor..].
Qed.

(** An operation that builds a message and sends it. *)
Lemma built_and_sent {A} d priv address (mk : ST (client W C) A) (inj : A -> Msg) b (s s' : client W C) r :
  holds_key d (From b) (Password b) priv address -> secp_usable priv -> btx_Simulate b = false ->
  (forall m, exists value, proto_Marshal (inj m) = Ok value) -> respects (same_sent (sent := sent)) mk ->
  (m ← mk; BuildAndSend cfg (store_manager d) (Some direct_handlers) TxJSONEncoder impl [inj m] b) s = (Ok r, s') ->
  exists bz m s1 value, mk s = (Ok m, s1) /\ proto_Marshal (inj m) = Ok value /\
    sent (cl_world s') = sent (cl_world s) ++ [bz] /\
    carries_one priv (btx_Memo b) ("/" +:+ MessageName (inj m)) value bz.
Proof using All.
  intros Hk Hs Hsim Hp Hq E. apply st_bind_Ok in E as (m & s1 & Em & E). destruct (Hp m) as (value & Ev).
  destruct (BuildAndSend_one d priv address _ value b _ _ _ Hk Hs Hsim Ev E) as (bz & Hj & Hc).
  exists bz, m, s1, value. split_and!; try done. pose proof (Hq _ _ _ Em) as Hs1. unfold same_sent in Hs1. by rewrite Hj, Hs1.
Qed.

(** The same for the messages of a module, which the application's messages carry. *)
Lemma module_sends {A} `{MsgInterface A} d priv address (mk : ST (client W C) A) (carry : A -> Msg) b (s s' : client W C) r :
  (forall m, MessageName (carry m) = MessageName m /\ proto_Marshal (carry m) = proto_Marshal m) ->
  (forall m : A, exists value, proto_Marshal m = Ok value) -> respects (same_sent (sent := sent)) mk ->
  holds_key d (From b) (Password b) priv address -> secp_usable priv -> btx_Simulate b = false ->
  (m ← mk; BuildAndSend cfg (store_manager d) (Some direct_handlers) TxJSONEncoder impl [carry m] b) s = (Ok r, s') ->
  exists bz m s1 value, mk s = (Ok m, s1) /\ proto_Marshal m = Ok value /\
    sent (cl_world s') = sent (cl_world s) ++ [bz] /\ carries_one priv (btx_Memo b) ("/" +:+ MessageName m) value bz.
Proof using All.
  intros Hcar Hp Hq Hk Hs Hsim E.
  assert (forall m, exists value, proto_Marshal (carry m) = Ok value) as Hv by (intros m; rewrite (proj2 (Hcar m)); apply Hp).
  destruct (built_and_sent d priv address mk carry b s s' r Hk Hs Hsim Hv Hq E) as (bz & m & s1 & value & Em & Ev & Hj & Hc).
  destruct (Hcar m) as [Hn Hm]. rewrite Hm in Ev. rewrite Hn in Hc. by exists bz, m, s1, value.
Qed.
End SendOne.
