(* ===== verification/BankClient.v ===== *)
(** The client of the bank module: [modules/bank/bank.go] over the client of
    [Client.v].  Its messages reach the transaction pipeline through [bank_msg],
    since [sdk.Msg] is an interface. *)
From Stdlib Require Import SpecFloat.
From S2P Require Import Prelude GoStrings BigText SdkInt SdkDec CoinSet CoinText Coins DecCoins CoinType BitArray Wire Decoding Keys HDPath Multisig Address Armor KeyStore TxTypes TxProto Sigs TxBuilder Bank Factory Events Errors Config Cache Locker Client ClientLemmas Accounts Batches SendOne.

(** [if err != nil { return sdk.Wrapf(e) }] for code with state. *)
Definition st_or_err {S A} (m : ST S A) (e : string) : ST S A := fun s => let '(r, s) := m s in (or_err r e, s).

Record Receipt := MkReceipt { rcpt_Address : string; rcpt_Amount : DecCoins }.
(** [MultiSendRequest]: its receipts; [Len] and [Sub] are those of a list. *)
Definition MultiSendRequest : Type := list Receipt.

Definition maxMsgLen : Z := 5.

Section BankClient.
Context {W C D Msg : Type} `{Node W, GCache cached C, MsgInterface Msg, CryptoLib, AminoLib, Bech32Lib, ClientCodec}.
Variable cfg : ClientConfig D.
Variable km : KeyManager.
Variable txConfig : option SignModeHandlerMap.
Variable ValidateBasic : Msg -> res unit.
Variable TxJSONEncoder : Tx Msg -> res bytes.
Variable impl : spec_float -> Z.
Variable bank_msg : BankMsg -> Msg.

Abbreviation M := (ST (client W C)).

(** [TotalSupply]: the call to the node is a parameter. *)
Definition TotalSupply (grpc_TotalSupply : Conn -> ST W Coins) : M Coins :=
  with_conn (fun conn => remote (grpc_TotalSupply conn)).

Definition bank_sender (baseTx : BaseTx) : M bytes := st_or_err (QueryAddress km (From baseTx) (Password baseTx)) "%s not found".

(** What [Send] and [SendWitchSpecAccountInfo] do before they send. *)
Definition send_message (to : string) (amount : DecCoins) (baseTx : BaseTx) : M (bytes * Msg) :=
  sender ← bank_sender baseTx;
  amt ← ToMinCoin amount;
  outAddr ← lift (or_err (AccAddressFromBech32 to) "%s invalid address");
  msg ← lift (NewMsgSend sender outAddr amt);
  mret (sender, bank_msg (BankSend msg)).

Definition bank_Send (to : string) (amount : DecCoins) (baseTx : BaseTx) : M ResultTx :=
  '(_, msg) ← send_message to amount baseTx;
  BuildAndSend cfg km txConfig TxJSONEncoder impl [msg] baseTx.

Definition SendWitchSpecAccountInfo (to : string) (sequence accountNumber : Z) (amount : DecCoins) (baseTx : BaseTx) : M ResultTx :=
  '(sender, msg) ← send_message to amount baseTx;
  text ← lift (Acc_String sender);
  BuildAndSendWithAccount cfg km txConfig TxJSONEncoder impl text accountNumber sequence [msg] baseTx.

(** The loop over the receipts; an input and its output share their coins. *)
Definition transfer (sender : bytes) (receipt : Receipt) : M (Input * Output) :=
  amt ← ToMinCoin (rcpt_Amount receipt);
  outAddr ← lift (or_err (AccAddressFromBech32 (rcpt_Address receipt)) "%s invalid address");
  i ← lift (NewInput sender amt);
  o ← lift (NewOutput outAddr amt);
  mret (i, o).
Definition multi_message (sender : bytes) (receipts : list Receipt) : M MsgMultiSend :=
  ios ← collect (transfer sender) receipts [];
  mret (NewMsgMultiSend ios.*1 ios.*2).

Definition batch_messages (sender : bytes) (request : MultiSendRequest) : M (list MsgMultiSend) :=
  batchReceipts ← lift (SubArray maxMsgLen request);
  collect (multi_message sender) batchReceipts [].

(** The results, the error and the state; the outer [None] is a lock that is not
    available. *)
Definition outcome : Type := option (res (list ResultTx * option string) * client W C).

(** An operation without the lock: its error is returned. *)
Definition returned {A} (m : M A) (k : A -> client W C -> outcome) (s : client W C) : outcome :=
  match m s with
  | (Ok a, s) => k a s
  | (Err e, s) => Some (Ok ([], Some e), s)
  | (Panic p, s) => Some (Panic p, s)
  end.

Definition bank_SendBatch (sender : bytes) (request : MultiSendRequest) (baseTx : BaseTx) : client W C -> outcome :=
  returned (batch_messages sender request) (fun msgs s =>
    '(rs, e, s) ← SendBatch cfg km txConfig ValidateBasic TxJSONEncoder impl (map (fun m => bank_msg (BankMultiSend m)) msgs) baseTx s;
    Some (Ok (rs, e), s)).

Definition MultiSend (request : MultiSendRequest) (baseTx : BaseTx) : client W C -> outcome :=
  returned (bank_sender baseTx) (fun sender =>
    if maxMsgLen <? Z.of_nat (length request) then bank_SendBatch sender request baseTx
    else returned
      (msg ← multi_message sender request;
       BuildAndSend cfg km txConfig TxJSONEncoder impl [bank_msg (BankMultiSend msg)] baseTx)
      (fun r s => Some (Ok ([r], None), s))).

End BankClient.

(* ------------------------------------------------------------------ *)
(** * What the messages hold *)
Section Messages.
Context {W C : Type} `{Node W, GCache cached C, Bech32Lib, ClientCodec}.
Abbreviation M := (ST (client W C)).

(** A receipt turned into a transfer from [sender], with the amount that
    [ToMinCoin] answered in some state. *)
Definition transfers (sender : bytes) (receipt : Receipt) (io : Input * Output) : Prop :=
  exists (s s' : client W C) amt addr from to, ToMinCoin (rcpt_Amount receipt) s = (Ok amt, s') /\
    AccAddressFromBech32 (rcpt_Address receipt) = Ok addr /\ Acc_String sender = Ok from /\ Acc_String addr = Ok to /\
    io = (MkInput from amt, MkOutput to amt).

Lemma or_err_Ok {A} (m : res A) e a : or_err m e = Ok a <-> m = Ok a.
Proof. by destruct m. Qed.

Lemma transfer_Ok sender receipt (s : client W C) io s' : transfer sender receipt s = (Ok io, s') -> transfers sender receipt io.
Proof.
  intros E. unfold transfer, NewInput, NewOutput in E. st_inv. res_inv.
  match goal with X : or_err _ _ = Ok _ |- _ => apply or_err_Ok in X end. unfold transfers. eauto 12.
Qed.

(** A loop that appends the results of its body. *)
Lemma collect_Forall2 {A B} (body : A -> M B) (R : A -> B -> Prop) l dst (s : client W C) r s' :
  (forall x s y s', body x s = (Ok y, s') -> R x y) -> collect body l dst s = (Ok r, s') ->
  exists ys, r = dst ++ ys /\ Forall2 R l ys.
Proof.
  intros Hb. revert dst s. induction l as [|x l IH]; intros dst s E; cbn [collect] in E.
  - injection E as <- <-. exists []. by rewrite app_nil_r.
  - apply st_bind_Ok in E as (y & s1 & Ey & E). apply IH in E as (ys & -> & Hys). exists (y :: ys).
    rewrite <-app_assoc. split; [done|]. constructor; [by eapply Hb|done].
Qed.

(** One message: a transfer for every receipt, in order. *)
Definition pays (sender : bytes) (receipts : list Receipt) (msg : MsgMultiSend) : Prop :=
  exists ios, msg = MkMsgMultiSend ios.*1 ios.*2 /\ Forall2 (transfers sender) receipts ios.
Lemma multi_message_pays sender receipts (s : client W C) msg s' :
  multi_message sender receipts s = (Ok msg, s') -> pays sender receipts msg.
Proof.
  intros E. unfold multi_message in E. apply st_bind_Ok in E as (ios & s1 & E & Em). injection Em as <- <-.
  apply (collect_Forall2 _ (transfers sender)) in E as (ys & -> & Hys); [|intros x s0 y s0'; apply transfer_Ok].
  by exists ys.
Qed.

(** What a message that pays holds: every input is the sender's and every
    amount goes from the sender to one receiver. *)
Lemma pays_sender sender receipts msg from : pays sender receipts msg -> Acc_String sender = Ok from ->
  Forall (fun i => in_Address i = from) (Inputs msg).
Proof.
  intros (ios & -> & Hall) Hf. cbn [Inputs]. induction Hall as [|r io rs ios Ht _ IH]; [constructor|].
  destruct Ht as (s & s' & amt & addr & from' & to & _ & _ & Hs & _ & ->). cbn. constructor; [|done]. cbn. congruence.
Qed.
Lemma pays_coins sender receipts msg : pays sender receipts msg -> map in_Coins (Inputs msg) = map out_Coins (Outputs msg).
Proof.
  intros (ios & -> & Hall). cbn [Inputs Outputs]. induction Hall as [|r io rs ios Ht _ IH]; [done|].
  destruct Ht as (s & s' & amt & addr & from' & to & _ & _ & _ & _ & ->). cbn. f_equal. exact IH.
Qed.
Lemma pays_length sender receipts msg : pays sender receipts msg ->
  length (Inputs msg) = length receipts /\ length (Outputs msg) = length receipts.
Proof. intros (ios & -> & Hall). cbn [Inputs Outputs]. rewrite !length_fmap. by rewrite (Forall2_length _ _ _ Hall). Qed.
Lemma same_coins_total ins outs denom : map in_Coins ins = map out_Coins outs -> in_total ins denom = out_total outs denom.
Proof.
  revert outs. induction ins as [|i ins IH]; intros [|o outs] E; try done. cbn [map] in E. injection E as E1 E2.
  unfold in_total, out_total, party_total in *. cbn [foldr]. rewrite E1. f_equal. by apply IH.
Qed.
End Messages.

(** ** Amounts *)
Lemma NewIntFromBigInt_ok i a : NewIntFromBigInt i = Ok a -> exists z, a = IntV z /\ int_range z.
Proof.
  unfold NewIntFromBigInt. intros E. destruct i as [z|]; [|done]. cbn [deref mbind res_bind] in E. rewrite overflow_if in E.
  case_bool_decide; [|done]. injection E as <-. by exists z.
Qed.
Lemma Dec_TruncateInt_ok d a : Dec_TruncateInt d = Ok a -> exists z, a = IntV z /\ int_range z.
Proof. unfold Dec_TruncateInt. intros E. res_inv. by eapply NewIntFromBigInt_ok. Qed.
Lemma NewCoin_inv d a c : NewCoin d a = Ok c -> c = MkCoin d a.
Proof. unfold NewCoin. by destruct (validate d a); intros [= <-]. Qed.

Lemma ConvertToMinCoin_ok ct c r : ConvertToMinCoin ct c = Ok r -> coin_ok r.
Proof.
  unfold ConvertToMinCoin. intros E. destruct (negb _).
  - res_inv. by eapply Dec_TruncateInt_ok.
  - destruct (isMinUnit _ _).
    + res_inv. match goal with X : DecCoin_TruncateDecimal _ = _ |- _ => unfold DecCoin_TruncateDecimal in X end. res_inv.
      match goal with X : NewCoin _ _ = _ |- _ => apply NewCoin_inv in X as -> end. by eapply Dec_TruncateInt_ok.
    + res_inv. match goal with X : NewCoin _ _ = _ |- _ => apply NewCoin_inv in X as -> end.
      match goal with X : Dec_RoundInt _ = _ |- _ => unfold Dec_RoundInt in X end. res_inv. by eapply NewIntFromBigInt_ok.
Qed.

Section Amounts.
Context {W C : Type} `{Node W, GCache cached C, ClientCodec}.

Lemma ToMinCoin_wf l (s : client W C) coins s' : ToMinCoin l s = (Ok coins, s') -> Coins_wf coins.
Proof.
  intros E. unfold ToMinCoin in E. apply st_bind_Ok in E as (dst & s1 & E & Em). injection Em as <- <-.
  apply (collect_Forall2 _ (fun _ c => coin_ok c)) in E as (ys & -> & Hys).
  - unfold Coins_wf, Coins_Sort. rewrite Sort_perm. cbn [app]. clear -Hys. induction Hys; by constructor.
  - intros x s0 y s0' Ey. st_inv. by eapply ConvertToMinCoin_ok.
Qed.
End Amounts.

(* ------------------------------------------------------------------ *)
(** * Properties *)

(** The message of a multi-send is balanced by construction.  It has one input
    and one output for every receipt, all inputs are the sender's, so the sender
    alone signs it, and basic validation cannot fail on the totals: it accepts
    the message as soon as there are receipts, every amount is a valid list of
    positive coins for a decodable address and no total leaves the range. *)
Theorem multi_message_balanced {W C} `{Node W, GCache cached C, Bech32Laws, ClientCodec}
    sender receipts (s : client W C) msg s' :
  addr_ok sender -> sender <> [] -> multi_message sender receipts s = (Ok msg, s') ->
  length (Inputs msg) = length receipts /\ length (Outputs msg) = length receipts /\
  MsgMultiSend_GetSigners msg = Ok (replicate (length receipts) sender) /\
  (MsgMultiSend_ValidateBasic msg = Ok tt <->
   receipts <> [] /\ outputs_ok (Outputs msg) /\ forall denom, int_range (out_total (Outputs msg) denom)).
Proof.
  intros [Ha Hl] Hne E. apply multi_message_pays in E as Hp. destruct (pays_length _ _ _ Hp) as [Hi Ho].
  destruct (Acc_String_total sender Ha) as [from Ef]. pose proof (pays_sender _ _ _ _ Hp Ef) as Hfrom.
  pose proof (pays_coins _ _ _ Hp) as Hc.
  pose proof (sender_read sender from (conj Ha Hl) Hne Ef) as Hread.
  split; [done|]. split; [done|]. split.
  - unfold MsgMultiSend_GetSigners. rewrite <-Hi. clear -Hfrom Hread.
    induction Hfrom as [|i ins Hi _ IH]; [done|]. rewrite map_res_cons, Hi, Hread. cbn [mbind res_bind]. by rewrite IH.
  - assert (BankMsg_wf (BankMultiSend msg)) as [Wi Wo].
    { destruct Hp as (ios & -> & Hall). cbn [BankMsg_wf Inputs Outputs].
      assert (Forall (fun io => Coins_wf (in_Coins io.1) /\ Coins_wf (out_Coins io.2)) ios) as Hw.
      { clear -Hall. induction Hall as [|r io rs ios Ht _ IH]; constructor; [|done].
        destruct Ht as (s0 & s1 & amt & addr & from' & to & Hm & _ & _ & _ & ->). apply ToMinCoin_wf in Hm. by split. }
      split; apply Forall_fmap; (eapply Forall_impl; [exact Hw|]); by intros io []. }
    assert (inputs_ok (Inputs msg) <-> Forall (fun c => c <> [] /\ valid_coins c) (map in_Coins (Inputs msg))) as HI.
    { unfold inputs_ok. rewrite Forall_map, !Forall_forall. rewrite Forall_forall in Hfrom.
      split; intros Hx i Hin; destruct (Hx i Hin); [done|]. split; [|done]. exists sender. by rewrite (Hfrom i Hin). }
    destruct (match_totals_spec (Inputs msg) (Outputs msg) "inputs and outputs don't match" Wi Wo) as [M1 M2].
    assert (outputs_ok (Outputs msg) -> inputs_ok (Inputs msg)) as HO.
    { intros Hout. apply HI. rewrite Hc, Forall_map. eapply Forall_impl; [exact Hout|]. intros o (_ & ? & ?). done. }
    unfold MsgMultiSend_ValidateBasic. destruct receipts as [|r rs]; [destruct (Inputs msg); [split; [done|by intros []]|done]|].
    destruct (Inputs msg) as [|i ins] eqn:Ei; [done|]. destruct (Outputs msg) as [|o outs] eqn:Eo; [done|].
    pose proof (fun d => same_coins_total (i :: ins) (o :: outs) d Hc) as Ht. split.
    + intros (_ & Hout & Hr & _)%M1. split; [done|]. split; [done|]. intros d. rewrite <-Ht. apply Hr.
    + intros (_ & Hout & Hr). apply M2. split_and!; [by apply HO|done| |done]. intros d. rewrite Ht. apply Hr.
Qed.

(** A large multi-send pays every receipt once and in order: the messages of a
    batch are made from consecutive segments of at most five receipts. *)
Theorem batch_messages_all {W C} `{Node W, GCache cached C, Bech32Lib, ClientCodec}
    sender (request : MultiSendRequest) (s : client W C) msgs s' :
  batch_messages sender request s = (Ok msgs, s') ->
  exists segs, concat segs = request /\ Forall2 (pays (W := W) (C := C) sender) segs msgs /\
    Forall (fun m => Z.of_nat (length (Outputs m)) <= maxMsgLen) msgs /\
    Z.of_nat (length msgs) = Z.max 1 ((Z.of_nat (length request) + maxMsgLen - 1) / maxMsgLen).
Proof.
  intros E. destruct (SubArray_segments maxMsgLen request) as (segs & Es & Hc & Hl & Hn); [done|].
  unfold batch_messages in E. rewrite Es in E. apply st_bind_Ok in E as (segs' & s1 & [X ->]%lift_Ok & E). injection X as <-.
  apply (collect_Forall2 _ (pays (W := W) (C := C) sender)) in E as (ms & -> & Hall); [|intros x s0 y s0'; apply multi_message_pays].
  exists segs. cbn [app]. split_and!; [done|done| |by rewrite <-(Forall2_length _ _ _ Hall)].
  clear -Hall Hl. induction Hall as [|seg m segs ms Hp _ IH]; [constructor|]. apply Forall_cons in Hl as [Hl1 Hl].
  constructor; [|by apply IH]. by rewrite (proj2 (pays_length _ _ _ Hp)).
Qed.

(** How the application's messages carry those of the bank module. *)
Definition carries {Msg} `{MsgInterface Msg} `{Bech32Lib} (bank_msg : BankMsg -> Msg) : Prop :=
  forall m, MessageName (bank_msg m) = MessageName m /\ proto_Marshal (bank_msg m) = proto_Marshal m.

Section Transfer.
Context {W C D Msg : Type} {sent : W -> list bytes} {contents : C -> gmap string cached}.
Context `{NodeJournal W sent, GCacheLaws cached C contents, KeyDAOLaws D storable, MsgInterface Msg, CryptoLaws, HDLib, AminoLaws, ArmorLib, Bech32Lib, ClientCodec}.
Variable cfg : ClientConfig D.
Variable ValidateBasic : Msg -> res unit.
Variable TxJSONEncoder : Tx Msg -> res bytes.
Variable impl : spec_float -> Z.
Variable bank_msg : BankMsg -> Msg.
Hypothesis carried : carries bank_msg.

(** The sender of a client over the store [d] is the address of the stored key,
    also when it comes from the cache. *)
Lemma sender_is_key d priv address a name pw (s : client W C) sender s' :
  typed (contents := contents) (store_manager d) s -> holds_key d name pw priv address -> one_key d name ->
  Acc_String a = Ok address -> AccAddressFromBech32 address = Ok a ->
  QueryAddress (store_manager d) name pw s = (Ok sender, s') -> Acc_String sender = Ok address.
Proof using All.
  intros Ht (pk & a' & _ & Hf & Ha' & _) Hone Ha Hread E.
  destruct (QueryAddress_found _ _ _ _ _ _ Ht E) as [(pk' & t & Hf' & _)|(t & (pw' & pk' & a2 & Hf' & Ht') & Hr)]; cbn in Hf'.
  - rewrite Hf in Hf'. by injection Hf' as <- <-.
  - pose proof (Hone _ _ _ _ Hf Hf') as [= <- <-]. rewrite Ha' in Ht'. injection Ht' as <-. rewrite Hread in Hr. by injection Hr as <-.
Qed.

End Transfer.
