(* ===== verification/SwapClient.v ===== *)
(** The client of the coinswap module: [modules/coinswap/coinswap.go] over the
    client of [Client.v]. *)
From Stdlib Require Import SpecFloat.
From S2P Require Import Prelude GoStrings BigText SdkInt SdkDec CoinSet CoinText Coins DecCoins CoinType BitArray Wire Decoding Keys HDPath Multisig Address Armor KeyStore TxTypes TxProto Sigs TxBuilder Codec Messages Grpc Pagination Coinswap SwapProto SwapQuery SwapGrpc SwapPrices Factory Events Errors Config Cache Locker Client ClientLemmas Accounts Batches SendOne.

(* ------------------------------------------------------------------ *)
(** * Requests and answers *)

Record AddLiquidityRequest := MkAddLiquidity { al_BaseToken : Coin; al_Token : Coin }.
Record DepositWithinBatchRequest := MkDepositRequest { dr_PoolId : Z; dr_BaseToken : Coin; dr_Token : Coin }.
Record WithdrawWithinRequest := MkWithdrawRequest { wr_PoolId : Z; wr_PoolCoin : Coin }.
Record SwapCoinRequest := MkSwapRequest {
  sr_PoolId : Z; sr_OfferCoin : Coin; sr_DemandCoinDenom : string; SwapFeeRate : string; sr_OrderPrice : string }.

(** [sdk.PoolInfo] *)
Record PoolInfo := MkPoolInfo {
  pi_Id : Z; pi_TypeId : Z; pi_ReserveCoinDenoms : list string; pi_ReserveAccountAddress : string; pi_PoolCoinDenom : string }.
Definition _loadPoolInfo (info : Pool) : PoolInfo :=
  MkPoolInfo (Pool_Id info) (Pool_TypeId info) (Pool_ReserveCoinDenoms info) (Pool_ReserveAccountAddress info) (Pool_PoolCoinDenom info).
Definition _loadPools (pools : list Pool) : list PoolInfo := map _loadPoolInfo pools.
Record QueryAllPoolsResponse := MkQueryAllPoolsResponse { Pools : list PoolInfo; Pagination : option PageResponse }.
Definition QueryLiquidityPoolResponse_Convert (m : QueryLiquidityPoolResponse) : PoolInfo :=
  _loadPoolInfo (QueryLiquidityPoolResponse_Pool m).
Definition QueryLiquidityPoolsResponse_Convert (m : QueryLiquidityPoolsResponse) : QueryAllPoolsResponse :=
  MkQueryAllPoolsResponse (_loadPools (QueryLiquidityPoolsResponse_Pools m)) (QueryLiquidityPoolsResponse_Pagination m).

(* ------------------------------------------------------------------ *)
(** * Operations *)
Section SwapClient.
Context {W C D Msg : Type} `{Node W, GCache cached C, MsgInterface Msg, CryptoLib, AminoLib, Bech32Lib, ClientCodec}.
Variable cfg : ClientConfig D.
Variable km : KeyManager.
Variable txConfig : option SignModeHandlerMap.
Variable TxJSONEncoder : Tx Msg -> res bytes.
Variable impl : spec_float -> Z.
Variable swap_msg : SwapMsg -> Msg.
Abbreviation M := (ST (client W C)).
Abbreviation send m b := (BuildAndSend cfg km txConfig TxJSONEncoder impl [swap_msg m] b).

Abbreviation creator := (sender_text km).

(** What each operation does before it sends. *)
Definition AddLiquidity_message (request : AddLiquidityRequest) (baseTx : BaseTx) : M SwapMsg :=
  c ← creator baseTx; mret (CreatePool (MkMsgCreatePool c 1 [al_BaseToken request; al_Token request])).
Definition DepositWithinBatch_message (request : DepositWithinBatchRequest) (baseTx : BaseTx) : M SwapMsg :=
  c ← creator baseTx;
  mret (DepositBatch (MkMsgDepositWithinBatch c (dr_PoolId request) [dr_BaseToken request; dr_Token request])).
Definition SwapCoin_message (request : SwapCoinRequest) (baseTx : BaseTx) : M SwapMsg :=
  a ← QueryAddress km (From baseTx) (Password baseTx);
  orderPrice ← lift (NewDecFromStr (sr_OrderPrice request));
  swapFeeRate ← lift (NewDecFromStr (SwapFeeRate request));
  c ← lift (Acc_String a);
  fee ← lift (GetOfferCoinFee (sr_OfferCoin request) swapFeeRate);
  mret (SwapBatch (MkMsgSwapWithinBatch c (sr_PoolId request) 1 (sr_OfferCoin request) (sr_DemandCoinDenom request) fee orderPrice)).
Definition WithdrawWithin_message (request : WithdrawWithinRequest) (baseTx : BaseTx) : M SwapMsg :=
  c ← creator baseTx; mret (WithdrawBatch (MkMsgWithdrawWithinBatch c (wr_PoolId request) (wr_PoolCoin request))).

Definition AddLiquidity (request : AddLiquidityRequest) (baseTx : BaseTx) : M ResultTx :=
  msg ← AddLiquidity_message request baseTx; send msg baseTx.
Definition DepositWithinBatch (request : DepositWithinBatchRequest) (baseTx : BaseTx) : M ResultTx :=
  msg ← DepositWithinBatch_message request baseTx; send msg baseTx.
Definition SwapCoin (request : SwapCoinRequest) (baseTx : BaseTx) : M ResultTx :=
  msg ← SwapCoin_message request baseTx; send msg baseTx.
Definition WithdrawWithin (request : WithdrawWithinRequest) (baseTx : BaseTx) : M ResultTx :=
  msg ← WithdrawWithin_message request baseTx; send msg baseTx.

(** The queries, over the connection that [GenConn] opens. *)
Variable grpc_call : Conn -> string -> bytes -> ST W bytes.
Definition WithdrawWithinBatch (PoolId : Z) : M QueryLiquidityPoolBatchResponse :=
  with_conn (fun conn => remote (queryClient_LiquidityPoolBatch grpc_call conn (MkQueryLiquidityPoolBatchRequest PoolId))).
Definition PoolBatchDeposit (PoolId MsgIndex : Z) : M QueryPoolBatchDepositMsgResponse :=
  with_conn (fun conn => remote (queryClient_PoolBatchDepositMsg grpc_call conn (MkQueryPoolBatchDepositMsgRequest PoolId MsgIndex))).
Definition QueryAllPools (req : SdkPageRequest) : M QueryLiquidityPoolsResponse :=
  with_conn (fun conn => remote (queryClient_LiquidityPools grpc_call conn
    (MkQueryLiquidityPoolsRequest (Some (MkPageRequest (Key req) (Offset req) (Limit req) (CountTotal req)))))).
End SwapClient.

(* ------------------------------------------------------------------ *)
(** * What the queries answer *)
Section Queries.
Context {W C : Type} `{Node W, GCache cached C}.
Variable grpc_call : Conn -> string -> bytes -> ST W bytes.
Context (reaches : Conn -> W -> Prop) (status : string -> string).
Variable srv : QueryServer W.
(** The node answers with the methods of [srv]. *)
Hypothesis node : connected grpc_call reaches status service (_Query_serviceDesc srv).

Definition good {A} `{Codec A} (r : res A) : Prop :=
  panics r = false /\ forall a, r = Ok a -> codec_ok a /\ Z.of_nat (length (codec_Marshal a)) < 2 ^ 62.

(** The queries of the client return what the methods of the node answer to the
    request that was made, page included; the answer is not converted.  They
    leave the cache and the lock as they were. *)
Theorem swap_queries_answer (s : client W C) conn w1 w2 rc w3 :
  GenConn (cl_world s) = (Ok conn, w1) -> reaches conn w1 -> conn_Close (Some conn) w2 = (rc, w3) -> panics rc = false ->
  (forall PoolId r, is_uint64 PoolId -> srv_LiquidityPoolBatch srv (MkQueryLiquidityPoolBatchRequest PoolId) w1 = (r, w2) ->
   good r -> WithdrawWithinBatch grpc_call PoolId s = (seen status r, MkClient (cl_cache s) (cl_locker s) w3)) /\
  (forall PoolId MsgIndex r, is_uint64 PoolId -> is_uint64 MsgIndex ->
   srv_PoolBatchDepositMsg srv (MkQueryPoolBatchDepositMsgRequest PoolId MsgIndex) w1 = (r, w2) ->
   good r -> PoolBatchDeposit grpc_call PoolId MsgIndex s = (seen status r, MkClient (cl_cache s) (cl_locker s) w3)) /\
  (forall req r, is_uint64 (Offset req) -> is_uint64 (Limit req) -> Z.of_nat (length (Key req)) < 2 ^ 60 ->
   srv_LiquidityPools srv (MkQueryLiquidityPoolsRequest (Some (MkPageRequest (Key req) (Offset req) (Limit req) (CountTotal req)))) w1
     = (r, w2) ->
   good r -> QueryAllPools grpc_call req s = (seen status r, MkClient (cl_cache s) (cl_locker s) w3)).
Proof using All.
  intros Hg Hrc Hc Hp.
  assert (forall (m : method) (in_ : request m) r, codec_ok in_ -> Z.of_nat (length (codec_Marshal in_)) < 2 ^ 62 ->
    serve srv m in_ w1 = (r, w2) -> good r ->
    with_conn (fun conn => remote (stub grpc_call m conn in_)) s = (seen status r, MkClient (cl_cache s) (cl_locker s) w3)) as Hq.
  { intros m in_ r Hok H62 Hm [Hr Ha]. eapply with_conn_call; [exact Hg| |exact Hc|exact Hp]. by apply (stub_served grpc_call reaches status srv). }
  split_and!.
  - intros PoolId r HP Hm. apply (Hq M_LiquidityPoolBatch (MkQueryLiquidityPoolBatchRequest PoolId)); [exact HP| |exact Hm].
    cbn. pose proof (opt_varint_short 8 PoolId []). cbn in *. lia.
  - intros PoolId MsgIndex r HP HI Hm.
    apply (Hq M_PoolBatchDepositMsg (MkQueryPoolBatchDepositMsgRequest PoolId MsgIndex)); [done| |exact Hm].
    cbn. pose proof (opt_varint_short 8 PoolId (opt_varint 16 MsgIndex [])). pose proof (opt_varint_short 16 MsgIndex []). cbn in *. lia.
  - intros [key offset limit total] r HO HL HK Hm.
    apply (Hq M_LiquidityPools (MkQueryLiquidityPoolsRequest (Some (MkPageRequest key offset limit total)))); [done| |exact Hm].
    change (codec_Marshal _) with (put_bytes 10 (PageRequest_Marshal (MkPageRequest key offset limit total)) []).
    pose proof (put_bytes_short 10 (PageRequest_Marshal (MkPageRequest key offset limit total)) []).
    pose proof (PageRequest_short (MkPageRequest key offset limit total)). cbn in HK. cbn [PageRequest_Key length] in *. lia.
Qed.
End Queries.

(* ------------------------------------------------------------------ *)
(** * What the operations send *)

(** The operations that send, and the message each is asked for. *)
Inductive SwapOp :=
  | OpAddLiquidity (r : AddLiquidityRequest) | OpDeposit (r : DepositWithinBatchRequest)
  | OpSwap (r : SwapCoinRequest) | OpWithdraw (r : WithdrawWithinRequest).
Definition asked (op : SwapOp) (from : string) (m : SwapMsg) : Prop :=
  match op with
  | OpAddLiquidity r => m = CreatePool (MkMsgCreatePool from 1 [al_BaseToken r; al_Token r])
  | OpDeposit r => m = DepositBatch (MkMsgDepositWithinBatch from (dr_PoolId r) [dr_BaseToken r; dr_Token r])
  | OpWithdraw r => m = WithdrawBatch (MkMsgWithdrawWithinBatch from (wr_PoolId r) (wr_PoolCoin r))
  | OpSwap r => exists price rate fee, NewDecFromStr (sr_OrderPrice r) = Ok price /\ NewDecFromStr (SwapFeeRate r) = Ok rate /\
      GetOfferCoinFee (sr_OfferCoin r) rate = Ok fee /\
      m = SwapBatch (MkMsgSwapWithinBatch from (sr_PoolId r) 1 (sr_OfferCoin r) (sr_DemandCoinDenom r) fee price)
  end.

Lemma swap_asked_signers `{Bech32Laws} op sender from m : addr_ok sender -> sender <> [] -> Acc_String sender = Ok from ->
  asked op from m -> msg_GetSigners m = Ok [sender].
Proof.
  intros Ha Hne Ef Hm. pose proof (sender_read sender from Ha Hne Ef) as Hr.
  destruct op; cbn in Hm; [| |destruct Hm as (? & ? & ? & _ & _ & _ & Hm)|]; subst m; cbn;
    unfold MsgCreatePool_GetSigners, MsgDepositWithinBatch_GetSigners, MsgSwapWithinBatch_GetSigners,
      MsgWithdrawWithinBatch_GetSigners, MustAccAddressFromBech32; cbn; by rewrite Hr.
Qed.

Section Sends.
Context {W C D Msg : Type} {sent : W -> list bytes}.
Context `{NodeJournal W sent, GCache cached C, KeyDAOLaws D storable, MsgInterface Msg, CryptoLaws, HDLib, AminoLaws, ArmorLib, Bech32Laws, ClientCodec}.
Variable cfg : ClientConfig D.
Variable TxJSONEncoder : Tx Msg -> res bytes.
Variable impl : spec_float -> Z.
Variable swap_msg : SwapMsg -> Msg.
(** How the application's messages carry those of the module. *)
Hypothesis carried : forall m, MessageName (swap_msg m) = MessageName m /\ proto_Marshal (swap_msg m) = proto_Marshal m.

Definition op_message (km : KeyManager) (op : SwapOp) (b : BaseTx) : ST (client W C) SwapMsg :=
  match op with
  | OpAddLiquidity r => AddLiquidity_message km r b
  | OpDeposit r => DepositWithinBatch_message km r b
  | OpSwap r => SwapCoin_message km r b
  | OpWithdraw r => WithdrawWithin_message km r b
  end.
Definition run_op (km : KeyManager) (txConfig : option SignModeHandlerMap) (op : SwapOp) (b : BaseTx) : ST (client W C) ResultTx :=
  match op with
  | OpAddLiquidity r => AddLiquidity cfg km txConfig TxJSONEncoder impl swap_msg r b
  | OpDeposit r => DepositWithinBatch cfg km txConfig TxJSONEncoder impl swap_msg r b
  | OpSwap r => SwapCoin cfg km txConfig TxJSONEncoder impl swap_msg r b
  | OpWithdraw r => WithdrawWithin cfg km txConfig TxJSONEncoder impl swap_msg r b
  end.

Lemma swap_op_message_sends km op b : respects (same_sent (C := C) (sent := sent)) (op_message km op b).
Proof.
  destruct op; cbn; unfold AddLiquidity_message, DepositWithinBatch_message, SwapCoin_message, WithdrawWithin_message, sender_text;
    pose proof (QueryAddress_sends (C := C) (sent := sent) km (From b) (Password b)) as Hq; frame.
Qed.
Lemma swap_op_message_asked km op b (s s' : client W C) m : op_message km op b s = (Ok m, s') ->
  exists sender from s1, QueryAddress km (From b) (Password b) s = (Ok sender, s1) /\ Acc_String sender = Ok from /\ asked op from m.
Proof.
  destruct op; cbn; unfold AddLiquidity_message, DepositWithinBatch_message, SwapCoin_message, WithdrawWithin_message, sender_text; intros E.
  - st_inv. eauto 10.
  - st_inv. eauto 10.
  - st_inv. eauto 20.
  - st_inv. eauto 10.
Qed.

End Sends.

(** Pools and deposits are sent with the two coins in the order of the request,
    without validation.  The message is valid exactly when the name of the base
    token comes first in the alphabet: the same request with the tokens exchanged
    is sent as well, and refused by the message's own validation. *)
Theorem AddLiquidity_unsorted `{Bech32Lib} same from (base token : Coin) :
  address_ok from -> Coins_wf [base; token] -> positive base -> positive token -> denom_ok base -> denom_ok token ->
  forall m, asked (OpAddLiquidity (MkAddLiquidity base token)) from m ->
  (slt (Denom base) (Denom token) -> SwapMsg_ValidateBasic same m = Ok tt) /\
  (~ slt (Denom base) (Denom token) -> SwapMsg_ValidateBasic same m = Err "invalid DepositCoins: %s").
Proof.
  intros Ha Hw Pb Pt Db Dt m ->. cbn [SwapMsg_ValidateBasic al_BaseToken al_Token].
  destruct (check_deposit_spec same [base; token] Hw) as (C1 & _ & C3).
  assert (valid_deposit [base; token] <-> slt (Denom base) (Denom token)) as Hv.
  { split.
    - intros [[_ [Hlt _]%Forall_cons]%StronglySorted_inv _]. exact Hlt.
    - intros Hlt. split_and!; [|by repeat constructor..]. constructor; [by repeat constructor|]. by repeat constructor. }
  unfold MsgCreatePool_ValidateBasic. cbn [pool_DepositCoins PoolCreatorAddress]. split; intros Hs.
  - rewrite (proj2 C1) by (split; [by apply Hv|done]). destruct Ha as (a & ->). done.
  - rewrite C3; [done|]. by rewrite Hv.
Qed.
#[local] Existing Instance toy_bech32.
Lemma AddLiquidity_unsorted_witness :
  SwapMsg_ValidateBasic (fun _ _ => false)
    (CreatePool (MkMsgCreatePool some_address 1 [coinV "plug" 5; coinV "abc" 5])) = Err "invalid DepositCoins: %s".
Proof.
  refine (proj2 (AddLiquidity_unsorted (fun _ _ => false) some_address (coinV "plug" 5) (coinV "abc" 5) _ _ _ _ _ _ _ eq_refl) _);
    [exists [18; 255]; vm_compute; reflexivity|wf_coins|reflexivity|reflexivity|reflexivity|reflexivity|by rewrite <-sltb_slt].
Defined.
