(* ===== verification/StakingClient.v ===== *)
(** The client of the staking module: [modules/staking/staking.go] over the
    client of [Client.v]. *)
From Stdlib Require Import SpecFloat.
From S2P Require Import Prelude GoStrings BigText SdkInt SdkDec CoinSet CoinText Coins DecCoins CoinType BitArray Wire Decoding Keys HDPath Multisig Address Armor KeyStore TxTypes TxProto Sigs TxBuilder Codec Pagination Messages Staking Delegations StakingAnswers Factory Events Errors Config Cache Locker Client ClientLemmas Accounts Batches SendOne BankClient.

(* ------------------------------------------------------------------ *)
(** * Requests *)

Record CreateValidatorRequest := MkCreateValidatorRequest {
  cv_Moniker : string; cv_Rate : Dec; cv_MaxRate : Dec; cv_MaxChangeRate : Dec; cv_MinSelfDelegation : Int; cv_Pubkey : string;
  cv_Value : DecCoin }.
Record EditValidatorRequest := MkEditValidatorRequest {
  ev_Moniker : string; ev_Identity : string; ev_Website : string; ev_SecurityContact : string; ev_Details : string;
  ev_CommissionRate : Dec; ev_MinSelfDelegation : Int }.
Record DelegateRequest := MkDelegateRequest { del_ValidatorAddr : string; del_Amount : DecCoin }.
Record UndelegateRequest := MkUndelegateRequest { und_ValidatorAddr : string; und_Amount : DecCoin }.
Record BeginRedelegateRequest := MkBeginRedelegateRequest {
  br_ValidatorSrcAddress : string; br_ValidatorDstAddress : string; br_Amount : DecCoin }.
Record QueryRedelegationsReq := MkQueryRedelegationsReq {
  qr_DelegatorAddr : string; qr_SrcValidatorAddr : string; qr_DstValidatorAddr : string; qr_Page : Z; qr_Size : Z }.

(** The query service of the node. *)
Class StakingNode (W : Type) `{Node W} := {
  grpc_Validators : Conn -> string -> PageRequest -> ST W (Listed Validator);
  grpc_Validator : Conn -> string -> ST W Validator;
  grpc_ValidatorDelegations : Conn -> string -> PageRequest -> ST W (Listed DelegationResponse);
  grpc_ValidatorUnbondingDelegations : Conn -> string -> PageRequest -> ST W (Listed UnbondingDelegation);
  grpc_Delegation : Conn -> string -> string -> ST W (option DelegationResponse);
  grpc_UnbondingDelegation : Conn -> string -> string -> ST W UnbondingDelegation;
  grpc_DelegatorDelegations : Conn -> string -> PageRequest -> ST W (Listed DelegationResponse);
  grpc_DelegatorUnbondingDelegations : Conn -> string -> PageRequest -> ST W (Listed UnbondingDelegation);
  grpc_Redelegations : Conn -> string -> string -> string -> PageRequest -> ST W (Listed RedelegationResponse);
  grpc_DelegatorValidators : Conn -> string -> PageRequest -> ST W (Listed Validator);
  grpc_DelegatorValidator : Conn -> string -> string -> ST W Validator;
  grpc_HistoricalInfo : Conn -> Z -> ST W (option HistoricalInfo);
  grpc_StakingPool : Conn -> ST W StakingPool;
  grpc_StakingParams : Conn -> ST W StakingParams;
}.

(* ------------------------------------------------------------------ *)
(** * Operations *)
Section StakingClient.
Context {W C D Msg : Type} `{Node W, GCache cached C, MsgInterface Msg, CryptoLib, AminoLib, Bech32Lib, ClientCodec}.
Variable cfg : ClientConfig D.
Variable km : KeyManager.
Variable txConfig : option SignModeHandlerMap.
Variable TxJSONEncoder : Tx Msg -> res bytes.
Variable impl : spec_float -> Z.
Variable staking_msg : StakingMsg -> Msg.
Abbreviation M := (ST (client W C)).
Abbreviation send m b := (BuildAndSend cfg km txConfig TxJSONEncoder impl [staking_msg m] b).

(** [coins[0]] *)
Definition first_coin (coins : list Coin) : res Coin := match coins with c :: _ => Ok c | [] => Panic index_out_of_range end.

(** What each operation does before it sends. *)
Definition CreateValidator_message (request : CreateValidatorRequest) (baseTx : BaseTx) : M StakingMsg :=
  delegatorAddr ← QueryAddress km (From baseTx) (Password baseTx);
  text ← lift (Acc_String delegatorAddr);
  valAddr ← lift (ValAddressFromBech32 text);
  values ← ToMinCoin [cv_Value request];
  pk ← lift (GetPubKeyFromBech32 PubKeyFromBytes "conspub" (cv_Pubkey request));
  pkAny ← lift (NewAnyWithValue pk);
  val ← lift (Val_String valAddr);
  value ← lift (first_coin values);
  mret (CreateValidatorMsg (MkMsgCreateValidator (MkDescription (cv_Moniker request) "" "" "" "")
    (MkCommissionRates (cv_Rate request) (cv_MaxRate request) (cv_MaxChangeRate request))
    (cv_MinSelfDelegation request) text val (Some pkAny) value)).
Definition EditValidator_message (request : EditValidatorRequest) (baseTx : BaseTx) : M StakingMsg :=
  delegatorAddr ← QueryAddress km (From baseTx) (Password baseTx);
  text ← lift (Acc_String delegatorAddr);
  valAddr ← lift (ValAddressFromBech32 text);
  val ← lift (Val_String valAddr);
  mret (EditValidatorMsg (MkMsgEditValidator
    (MkDescription (ev_Moniker request) (ev_Identity request) (ev_Website request) (ev_SecurityContact request) (ev_Details request))
    val (Some (ev_CommissionRate request)) (Some (ev_MinSelfDelegation request)))).
(** The sender and the amount of the three operations on delegations. *)
Definition delegator_amount (amount : DecCoin) (baseTx : BaseTx) : M (string * Coin) :=
  delegatorAddr ← QueryAddress km (From baseTx) (Password baseTx);
  coins ← ToMinCoin [amount];
  text ← lift (Acc_String delegatorAddr);
  coin ← lift (first_coin coins);
  mret (text, coin).
Definition Delegate_message (request : DelegateRequest) (baseTx : BaseTx) : M StakingMsg :=
  '(text, coin) ← delegator_amount (del_Amount request) baseTx;
  mret (DelegateMsg (MkMsgDelegate text (del_ValidatorAddr request) coin)).
Definition Undelegate_message (request : UndelegateRequest) (baseTx : BaseTx) : M StakingMsg :=
  '(text, coin) ← delegator_amount (und_Amount request) baseTx;
  mret (UndelegateMsg (MkMsgUndelegate text (und_ValidatorAddr request) coin)).
Definition BeginRedelegate_message (request : BeginRedelegateRequest) (baseTx : BaseTx) : M StakingMsg :=
  '(text, coin) ← delegator_amount (br_Amount request) baseTx;
  mret (BeginRedelegateMsg (MkMsgBeginRedelegate text (br_ValidatorSrcAddress request) (br_ValidatorDstAddress request) coin)).

Definition CreateValidator (request : CreateValidatorRequest) (baseTx : BaseTx) : M ResultTx :=
  msg ← CreateValidator_message request baseTx; send msg baseTx.
Definition EditValidator (request : EditValidatorRequest) (baseTx : BaseTx) : M ResultTx :=
  msg ← EditValidator_message request baseTx; send msg baseTx.
Definition Delegate (request : DelegateRequest) (baseTx : BaseTx) : M ResultTx :=
  msg ← Delegate_message request baseTx; send msg baseTx.
Definition Undelegate (request : UndelegateRequest) (baseTx : BaseTx) : M ResultTx :=
  msg ← Undelegate_message request baseTx; send msg baseTx.
Definition BeginRedelegate (request : BeginRedelegateRequest) (baseTx : BaseTx) : M ResultTx :=
  msg ← BeginRedelegate_message request baseTx; send msg baseTx.
End StakingClient.

(** What an edit of the description alone sends: fields of the request that are
    not set are the nil number, which is written as 0. *)
Lemma unset_number_text : Dec_Marshal (MkDec None) = Dec_Marshal (DecV 0) /\ Int_Marshal (MkInt None) = Int_Marshal (IntV 0).
Proof. by split. Qed.

(** The request has no way to leave the commission rate and the minimal
    self-delegation alone: with both unset, the chain reads the rate 0 and the
    minimal self-delegation 0, for which the validation of the message fails. *)
Theorem EditValidator_resets `{Node W, GCache cached C, Bech32Lib} km r b (s s' : client W C) m :
  ev_CommissionRate r = MkDec None -> ev_MinSelfDelegation r = MkInt None ->
  EditValidator_message km r b s = (Ok m, s') -> Z.of_nat (length (StakingMsg_Marshal m)) < 2 ^ 62 ->
  exists m', StakingMsg_Marshal m = MsgEditValidator_Marshal m' /\ MsgEditValidator_Unmarshal empty_MsgEditValidator (StakingMsg_Marshal m) = Ok m' /\
    MsgEditValidator_CommissionRate m' = Some (DecV 0) /\ MsgEditValidator_MinSelfDelegation m' = Some (IntV 0) /\
    MsgEditValidator_ValidateBasic m' <> Ok tt.
Proof.
  intros Er Em E H62. unfold EditValidator_message in E. st_inv. rewrite Er, Em in *.
  match goal with |- context [EditValidatorMsg (MkMsgEditValidator ?d ?v _ _)] =>
    exists (MkMsgEditValidator d v (Some (DecV 0)) (Some (IntV 0))) end.
  cbn [StakingMsg_Marshal codec_Marshal MsgEditValidator_codec] in *.
  match goal with |- MsgEditValidator_Marshal ?m = MsgEditValidator_Marshal ?m' /\ _ =>
    assert (MsgEditValidator_Marshal m = MsgEditValidator_Marshal m') as Eq by done end.
  rewrite Eq in *. split_and!; try done.
  - refine (codec_decodes (A := MsgEditValidator) _ _ H62). cbn [codec_ok MsgEditValidator_codec MsgEditValidator_ok from_option].
    split_and!; [done|by exists 0|by exists 0].
  - unfold MsgEditValidator_ValidateBasic. cbn. repeat case_match; done.
Qed.

(* ------------------------------------------------------------------ *)
(** * Queries *)
Section Queries.
Context {W C : Type} `{StakingNode W, GCache cached C}.
Variable UnpackAny : Any PubKey -> res PubKey.
Variable PubKey_text : PubKey -> string.
Abbreviation M := (ST (client W C)).

Definition page_request (page size : Z) : PageRequest := let '(offset, limit) := ParsePage page size in MkPageRequest [] offset limit true.

Definition QueryValidators (status : string) (page size : Z) : M (Totalled QueryValidatorResp) :=
  asking (fun conn => grpc_Validators conn status (page_request page size)) (QueryValidatorsResponse_Convert UnpackAny PubKey_text).
Definition QueryValidator (validatorAddr : string) : M QueryValidatorResp :=
  asking (fun conn => grpc_Validator conn validatorAddr) (Validator_Convert UnpackAny PubKey_text).
Definition QueryValidatorDelegations (validatorAddr : string) (page size : Z) : M (Totalled QueryDelegationResp) :=
  asking (fun conn => grpc_ValidatorDelegations conn validatorAddr (page_request page size)) QueryValidatorDelegationsResponse_Convert.
Definition QueryValidatorUnbondingDelegations (validatorAddr : string) (page size : Z) : M (Totalled QueryUnbondingDelegationResp) :=
  asking (fun conn => grpc_ValidatorUnbondingDelegations conn validatorAddr (page_request page size))
    QueryValidatorUnbondingDelegationsResponse_Convert.
Definition QueryDelegation (delegatorAddr validatorAddr : string) : M QueryDelegationResp :=
  asking (fun conn => grpc_Delegation conn delegatorAddr validatorAddr) (fun r => d ← deref r; Ok (DelegationResponse_Convert d)).
Definition QueryUnbondingDelegation (delegatorAddr validatorAddr : string) : M QueryUnbondingDelegationResp :=
  asking (fun conn => grpc_UnbondingDelegation conn delegatorAddr validatorAddr) (fun u => Ok (UnbondingDelegation_Convert u)).
Definition QueryDelegatorDelegations (delegatorAddr : string) (page size : Z) : M (Totalled QueryDelegationResp) :=
  asking (fun conn => grpc_DelegatorDelegations conn delegatorAddr (page_request page size)) QueryDelegatorDelegationsResponse_Convert.
Definition QueryDelegatorUnbondingDelegations (delegatorAddr : string) (page size : Z) : M (Totalled QueryUnbondingDelegationResp) :=
  asking (fun conn => grpc_DelegatorUnbondingDelegations conn delegatorAddr (page_request page size))
    QueryDelegatorUnbondingDelegationsResponse_Convert.
Definition QueryRedelegations (request : QueryRedelegationsReq) : M (Totalled RedelegationResp) :=
  asking (fun conn => grpc_Redelegations conn (qr_DelegatorAddr request) (qr_SrcValidatorAddr request) (qr_DstValidatorAddr request)
    (page_request (qr_Page request) (qr_Size request))) QueryRedelegationsResponse_Convert.
Definition QueryDelegatorValidators (delegatorAddr : string) (page size : Z) : M (Totalled QueryValidatorResp) :=
  asking (fun conn => grpc_DelegatorValidators conn delegatorAddr (page_request page size))
    (QueryDelegatorValidatorsResponse_Convert UnpackAny PubKey_text).
Definition QueryDelegatorValidator (delegatorAddr validatorAddr : string) : M QueryValidatorResp :=
  asking (fun conn => grpc_DelegatorValidator conn delegatorAddr validatorAddr) (Validator_Convert UnpackAny PubKey_text).
Definition QueryHistoricalInfo (height : Z) : M QueryHistoricalInfoResp :=
  asking (fun conn => grpc_HistoricalInfo conn height) (QueryHistoricalInfoResponse_Convert UnpackAny PubKey_text).
Definition QueryStakingPool : M QueryPoolResp :=
  asking grpc_StakingPool (fun p => Ok (MkQueryPoolResp (StakingPool_NotBondedTokens p) (StakingPool_BondedTokens p))).
Definition QueryStakingParams : M QueryParamsResp := asking grpc_StakingParams (fun p => Ok (QueryParamsResponse_Convert p)).
End Queries.

(* ------------------------------------------------------------------ *)
(** * Pages *)
Section Pages.
Context {W C : Type} `{StakingNode W, GCache cached C}.
Variable UnpackAny : Any PubKey -> res PubKey.
Variable PubKey_text : PubKey -> string.
Variables (status : string) (vs : list Validator) (rs : list QueryValidatorResp).

(** What a node that holds [vs] answers for a page. *)
Definition page_of (vs : list Validator) (req : PageRequest) : Listed Validator :=
  MkListed (take (Z.to_nat (PageRequest_Limit req)) (drop (Z.to_nat (PageRequest_Offset req)) vs))
    (Some (MkPageResponse [] (Z.of_nat (length vs)))).
Hypothesis converted : map_res (Validator_Convert UnpackAny PubKey_text) vs = Ok rs.
Hypothesis serves : forall conn req (w : W), grpc_Validators conn status req w = (Ok (page_of vs req), w).
Hypothesis connects : forall w : W, exists conn rc, GenConn w = (Ok conn, w) /\ conn_Close (Some conn) w = (rc, w) /\ panics rc = false.

Abbreviation query := (QueryValidators UnpackAny PubKey_text status).
(** The first [n] pages, one after the other. *)
Fixpoint query_pages (n : nat) (size : Z) : ST (client W C) (list QueryValidatorResp) :=
  match n with
  | O => mret []
  | S k => l ← query_pages k size; p ← query (Z.of_nat n) size; mret (l ++ resps p)
  end.

Lemma map_res_slice k d : map_res (Validator_Convert UnpackAny PubKey_text) (take k (drop d vs)) = Ok (take k (drop d rs)).
Proof using converted.
  clear serves connects. revert rs converted k d. induction vs as [|v l IH]; intros rs' E k d.
  - injection E as <-. by rewrite !drop_nil, !take_nil.
  - rewrite map_res_cons in E. apply bind_Ok in E as (r & Er & E). apply bind_Ok in E as (l' & El & [= <-]).
    specialize (IH _ El). destruct d as [|d]; [|exact (IH k d)]. destruct k as [|k]; [done|]. cbn [drop take].
    rewrite map_res_cons, Er. specialize (IH k 0%nat). rewrite !drop_0 in IH. cbn. by rewrite IH.
Qed.

Lemma query_slice page size (s : client W C) : 0 < page -> 0 < size -> page * size < 2 ^ 64 ->
  query page size s = (Ok (MkTotalled (take (Z.to_nat size) (drop (Z.to_nat ((page - 1) * size)) rs)) (Z.of_nat (length vs))), s).
Proof using All.
  intros Hp Hs Hb. unfold QueryValidators, asking, page_request, ParsePage.
  rewrite (proj2 (Z.eqb_neq page 0)), (proj2 (Z.eqb_neq size 0)) by lia.
  destruct (connects (cl_world s)) as (conn & rc & Hg & Hc & Hrc). destruct s as [c l w]. cbn [cl_world] in *.
  unfold with_conn, remote. cbn [cl_world]. rewrite Hg. unfold mbind, st_bind, mret, lift.
  cbn. rewrite serves. cbn. unfold page_of. cbn.
  assert (page - 1 < page * size /\ 0 <= (page - 1) * size <= page * size) by nia.
  rewrite !wrap_u64_id by (unfold is_uint64; rewrite ?wrap_u64_id; unfold is_uint64; lia).
  unfold QueryValidatorsResponse_Convert. cbn [listed l_Pagination]. rewrite map_res_slice. cbn. rewrite Hc. by destruct rc.
Qed.

(** The pages of a node that serves slices of its validators, put together, are
    its validators, without a gap or an overlap; page 0 is page 1 and the size 0
    stands for 10. *)
Theorem validators_pages n size (s : client W C) : 0 < size -> Z.of_nat n * size < 2 ^ 64 ->
  query_pages n size s = (Ok (take (n * Z.to_nat size) rs), s) /\
  (forall page, query page 0 s = query page 10 s) /\ (forall size, query 0 size s = query 1 size s).
Proof using All.
  intros Hs. split; [|done]. revert s. induction n as [|n IH]; intros s; [done|]. cbn [query_pages].
  unfold mbind, st_bind. rewrite IH by nia. rewrite query_slice by nia. cbn. unfold mret, st_ret.
  do 2 f_equal. replace (Z.to_nat ((Z.of_nat (S n) - 1) * size)) with (n * Z.to_nat size)%nat by nia.
  rewrite (Nat.add_comm (Z.to_nat size)), <-take_take_drop. done.
Qed.
End Pages.

(* ------------------------------------------------------------------ *)
(** * What the operations send *)

(** The operations that send, and the message each is asked for; [value] is
    what [ToMinCoin] makes of the amount of the request. *)
Inductive StakingOp :=
  | OpCreateValidator (r : CreateValidatorRequest) | OpEditValidator (r : EditValidatorRequest) | OpDelegate (r : DelegateRequest)
  | OpUndelegate (r : UndelegateRequest) | OpBeginRedelegate (r : BeginRedelegateRequest).
Definition op_amount (op : StakingOp) : option DecCoin :=
  match op with
  | OpCreateValidator r => Some (cv_Value r) | OpEditValidator _ => None | OpDelegate r => Some (del_Amount r)
  | OpUndelegate r => Some (und_Amount r) | OpBeginRedelegate r => Some (br_Amount r)
  end.
Definition asked `{Bech32Lib} `{AminoLib} (op : StakingOp) (from : string) (value : Coin) (m : StakingMsg) : Prop :=
  match op with
  | OpCreateValidator r => exists key, GetPubKeyFromBech32 PubKeyFromBytes "conspub" (cv_Pubkey r) = Ok key /\
      m = CreateValidatorMsg (MkMsgCreateValidator (MkDescription (cv_Moniker r) "" "" "" "")
        (MkCommissionRates (cv_Rate r) (cv_MaxRate r) (cv_MaxChangeRate r)) (cv_MinSelfDelegation r) from from
        (Some (MkAny ("/" +:+ MessageName key) (PubKey_Marshal key) [] (Some key))) value)
  | OpEditValidator r => m = EditValidatorMsg (MkMsgEditValidator
        (MkDescription (ev_Moniker r) (ev_Identity r) (ev_Website r) (ev_SecurityContact r) (ev_Details r))
        from (Some (ev_CommissionRate r)) (Some (ev_MinSelfDelegation r)))
  | OpDelegate r => m = DelegateMsg (MkMsgDelegate from (del_ValidatorAddr r) value)
  | OpUndelegate r => m = UndelegateMsg (MkMsgUndelegate from (und_ValidatorAddr r) value)
  | OpBeginRedelegate r => m = BeginRedelegateMsg (MkMsgBeginRedelegate from (br_ValidatorSrcAddress r) (br_ValidatorDstAddress r) value)
  end.

(** The text of an account is also the text of its operator. *)
Lemma operator_text `{Bech32Laws} sender from v t : addr_ok sender -> sender <> [] -> Acc_String sender = Ok from ->
  ValAddressFromBech32 from = Ok v -> Val_String v = Ok t -> v = sender /\ t = from.
Proof.
  intros Ha Hne Ef Hv Ht. rewrite Val_Acc, (sender_read sender from Ha Hne Ef) in Hv. injection Hv as <-. split; [done|].
  unfold Acc_String, Acc_Empty, bytes_Equal in Ef. rewrite bool_decide_false in Ef by done.
  unfold Val_String in Ht. change GetBech32ValidatorAddrPrefix with GetBech32AccountAddrPrefix in Ht. congruence.
Qed.

Section Sends.
Context {W C D Msg : Type} {sent : W -> list bytes}.
Context `{NodeJournal W sent, GCache cached C, KeyDAOLaws D storable, MsgInterface Msg, CryptoLaws, HDLib, AminoLaws, ArmorLib, Bech32Laws, ClientCodec}.
Variable cfg : ClientConfig D.
Variable TxJSONEncoder : Tx Msg -> res bytes.
Variable impl : spec_float -> Z.
Variable staking_msg : StakingMsg -> Msg.
(** How the application's messages carry those of the module. *)
Hypothesis carried : forall m, MessageName (staking_msg m) = MessageName m /\ proto_Marshal (staking_msg m) = proto_Marshal m.

Definition op_message (km : KeyManager) (op : StakingOp) (b : BaseTx) : ST (client W C) StakingMsg :=
  match op with
  | OpCreateValidator r => CreateValidator_message km r b
  | OpEditValidator r => EditValidator_message km r b
  | OpDelegate r => Delegate_message km r b
  | OpUndelegate r => Undelegate_message km r b
  | OpBeginRedelegate r => BeginRedelegate_message km r b
  end.
Definition run_op (km : KeyManager) (txConfig : option SignModeHandlerMap) (op : StakingOp) (b : BaseTx) : ST (client W C) ResultTx :=
  match op with
  | OpCreateValidator r => CreateValidator cfg km txConfig TxJSONEncoder impl staking_msg r b
  | OpEditValidator r => EditValidator cfg km txConfig TxJSONEncoder impl staking_msg r b
  | OpDelegate r => Delegate cfg km txConfig TxJSONEncoder impl staking_msg r b
  | OpUndelegate r => Undelegate cfg km txConfig TxJSONEncoder impl staking_msg r b
  | OpBeginRedelegate r => BeginRedelegate cfg km txConfig TxJSONEncoder impl staking_msg r b
  end.

Lemma staking_op_message_sends km op b : respects (same_sent (C := C) (sent := sent)) (op_message km op b).
Proof.
  pose proof (QueryAddress_sends (C := C) (sent := sent) km (From b) (Password b)) as Hq.
  pose proof (ToMinCoin_sends (C := C) (sent := sent)) as Ht.
  destruct op; cbn; unfold CreateValidator_message, EditValidator_message, Delegate_message, Undelegate_message,
    BeginRedelegate_message, delegator_amount; frame.
Qed.

Lemma delegator_amount_Ok km amount b (s s' : client W C) text coin : delegator_amount km amount b s = (Ok (text, coin), s') ->
  exists sender coins s1, QueryAddress km (From b) (Password b) s = (Ok sender, s1) /\ ToMinCoin [amount] s1 = (Ok (coin :: coins), s') /\
    Acc_String sender = Ok text.
Proof.
  unfold delegator_amount. intros E. st_inv. match goal with X : first_coin ?l = Ok _ |- _ => destruct l; [done|injection X as ->] end.
  eauto 10.
Qed.

(** The message is the one asked for, up to the text of the operator, which is
    the sender's for addresses that can be written and read. *)
Lemma staking_op_message_asked km op b (s s' : client W C) m : op_message km op b s = (Ok m, s') ->
  exists sender from value s1, QueryAddress km (From b) (Password b) s = (Ok sender, s1) /\ Acc_String sender = Ok from /\
    (forall amount, op_amount op = Some amount -> exists coins s2, ToMinCoin [amount] s1 = (Ok (value :: coins), s2)) /\
    (addr_ok sender -> sender <> [] -> asked op from value m).
Proof.
  destruct op as [r|r|r|r|r]; cbn [op_message op_amount asked]; intros E.
  - unfold CreateValidator_message in E. st_inv.
    match goal with X : first_coin ?l = Ok ?c |- _ => destruct l as [|c' l]; [done|]; injection X as ->; rename c into value end.
    match goal with X : NewAnyWithValue _ = Ok _ |- _ => injection X as <- end.
    eexists _, _, value, _. split_and!; [eassumption|eassumption| |].
    + intros amount [= <-]. eauto.
    + intros Ha Hne. eexists. split; [eassumption|].
      match goal with Hf : Acc_String _ = Ok _, Hv : ValAddressFromBech32 _ = Ok _, Ht : Val_String _ = Ok _ |- _ =>
        destruct (operator_text _ _ _ _ Ha Hne Hf Hv Ht) as [_ ->] end. done.
  - unfold EditValidator_message in E. st_inv. eexists _, _, (MkCoin "" (MkInt None)), _. split_and!; [eassumption|eassumption|done|].
    intros Ha Hne.
    match goal with Hf : Acc_String _ = Ok _, Hv : ValAddressFromBech32 _ = Ok _, Ht : Val_String _ = Ok _ |- _ =>
      destruct (operator_text _ _ _ _ Ha Hne Hf Hv Ht) as [_ ->] end. done.
  - unfold Delegate_message in E. apply st_bind_Ok in E as ([text coin] & s1 & E1 & E). st_inv.
    destruct (delegator_amount_Ok _ _ _ _ _ _ _ E1) as (sender & coins & s2 & Hq & Ht & Hf). exists sender, text, coin, s2.
    split_and!; [done|done| |done]. intros ? [= <-]. eauto.
  - unfold Undelegate_message in E. apply st_bind_Ok in E as ([text coin] & s1 & E1 & E). st_inv.
    destruct (delegator_amount_Ok _ _ _ _ _ _ _ E1) as (sender & coins & s2 & Hq & Ht & Hf). exists sender, text, coin, s2.
    split_and!; [done|done| |done]. intros ? [= <-]. eauto.
  - unfold BeginRedelegate_message in E. apply st_bind_Ok in E as ([text coin] & s1 & E1 & E). st_inv.
    destruct (delegator_amount_Ok _ _ _ _ _ _ _ E1) as (sender & coins & s2 & Hq & Ht & Hf). exists sender, text, coin, s2.
    split_and!; [done|done| |done]. intros ? [= <-]. eauto.
Qed.

Lemma staking_asked_signers op sender from value m : addr_ok sender -> sender <> [] -> Acc_String sender = Ok from ->
  asked op from value m -> msg_GetSigners m = Ok [sender].
Proof using All.
  intros Ha Hne Ef Hm. pose proof (sender_read sender from Ha Hne Ef) as Hr.
  destruct op; cbn in Hm; [destruct Hm as (key & _ & Hm)|..]; subst m; cbn;
    unfold MsgCreateValidator_GetSigners, MsgEditValidator_GetSigners, MsgDelegate_GetSigners, MsgUndelegate_GetSigners,
      MsgBeginRedelegate_GetSigners; cbn; rewrite ?Val_Acc, Hr; cbn; [|done..]. unfold bytes_Equal. by rewrite bool_decide_true.
Qed.

(** C23: Every operation of the staking client that sends and reports success for
    a valid secp256k1 key has handed exactly one transaction to the node.  It carries one message, the one the
    request asks for, with the sender as delegator (or operator) and the amount
    converted to the minimal unit, in an encoding that is decoded to the message,
    and one signature, which verifies; the sender alone has to sign.  (The encoding
    is decoded if the numbers of the message are within their types; the sender is
    read back from its text if it is not empty and fits bech32.) *)
Theorem staking_operations_send d priv address op b (s s' : client W C) r :
  holds_key d (From b) (Password b) priv address -> secp_usable priv -> btx_Simulate b = false ->
  run_op (store_manager d) (Some direct_handlers) op b s = (Ok r, s') ->
  exists bz m sender from value s1, sent (cl_world s') = sent (cl_world s) ++ [bz] /\
    QueryAddress (store_manager d) (From b) (Password b) s = (Ok sender, s1) /\ Acc_String sender = Ok from /\
    (forall amount, op_amount op = Some amount -> exists coins s2, ToMinCoin [amount] s1 = (Ok (value :: coins), s2)) /\
    carries_one (Msg := Msg) cfg priv (btx_Memo b) ("/" +:+ MessageName m) (StakingMsg_Marshal m) bz /\
    (StakingMsg_wf m -> Z.of_nat (length (StakingMsg_Marshal m)) < 2 ^ 62 -> StakingMsg_decodes_to m (StakingMsg_Marshal m)) /\
    (addr_ok sender -> sender <> [] -> asked op from value m /\ msg_GetSigners m = Ok [sender]).
Proof using All.
  intros Hk Hs Hsim E.
  assert ((m ← op_message (store_manager d) op b;
    BuildAndSend cfg (store_manager d) (Some direct_handlers) TxJSONEncoder impl [staking_msg m] b) s = (Ok r, s')) as E' by (by destruct op).
  destruct (module_sends cfg TxJSONEncoder impl d priv address _ staking_msg b s s' r carried (fun m => ex_intro _ _ eq_refl)
    (staking_op_message_sends _ op b) Hk Hs Hsim E') as (bz & m & s1 & v & Em & [= <-] & Hj & Hc).
  destruct (staking_op_message_asked _ _ _ _ _ _ Em) as (sender & from & value & s2 & Hq & Hf & Ht & Ha).
  exists bz, m, sender, from, value, s2. split_and!; try done; [apply StakingMsg_decodes|].
  intros Hok Hne. split; [by apply Ha|]. eapply staking_asked_signers; eauto.
Qed.
End Sends.
