(* ===== verification/TokenClient.v ===== *)
(** The client of the token module: [modules/token/token.go] over the client of
    [Client.v]. *)
From Stdlib Require Import SpecFloat.
From S2P Require Import Prelude GoStrings BigText SdkInt SdkDec CoinSet CoinText Coins DecCoins CoinType BitArray Wire Decoding Keys HDPath Multisig Address Armor KeyStore TxTypes TxProto Sigs TxBuilder Codec Messages TokenMsgs Factory Events Errors Config Cache Locker Client ClientLemmas Accounts Batches SendOne.

(* ------------------------------------------------------------------ *)
(** * Requests *)

Record IssueTokenRequest := MkIssueTokenRequest {
  it_Symbol : string; it_Name : string; it_Scale : Z; it_MinUnit : string; it_InitialSupply : Z; it_MaxSupply : Z; it_Mintable : bool }.
Record EditTokenRequest := MkEditTokenRequest { et_Symbol : string; et_Name : string; et_MaxSupply : Z }.

(** The query service of the node. *)
Class TokenNode (W : Type) `{Node W} := {
  grpc_Tokens : Conn -> string -> ST W (list (Any PbToken));
  grpc_Fees : Conn -> string -> ST W QueryFeesResp;
  grpc_TokenParams : Conn -> ST W TokenParams;
}.

(* ------------------------------------------------------------------ *)
(** * Operations *)
Section TokenClient.
Context {W C D Msg : Type} `{Node W, GCache cached C, MsgInterface Msg, CryptoLib, AminoLib, Bech32Lib, ClientCodec}.
Variable cfg : ClientConfig D.
Variable km : KeyManager.
Variable txConfig : option SignModeHandlerMap.
Variable TxJSONEncoder : Tx Msg -> res bytes.
Variable impl : spec_float -> Z.
Variable token_msg : TokenMsg -> Msg.
Abbreviation M := (ST (client W C)).
Abbreviation send m b := (BuildAndSend cfg km txConfig TxJSONEncoder impl [token_msg m] b).

(** What each operation does before it sends. *)
Definition IssueToken_message (req : IssueTokenRequest) (baseTx : BaseTx) : M TokenMsg :=
  owner ← sender_text km baseTx;
  mret (IssueTokenMsg (MkMsgIssueToken (it_Symbol req) (it_Name req) (it_Scale req) (it_MinUnit req) (it_InitialSupply req)
    (it_MaxSupply req) (it_Mintable req) owner)).
Definition EditToken_message (req : EditTokenRequest) (baseTx : BaseTx) : M TokenMsg :=
  owner ← sender_text km baseTx; mret (EditTokenMsg (MkMsgEditToken (et_Symbol req) (et_Name req) (et_MaxSupply req) owner)).
Definition TransferToken_message (to symbol : string) (baseTx : BaseTx) : M TokenMsg :=
  owner ← QueryAddress km (From baseTx) (Password baseTx);
  _ ← lift (ValidateAccAddress to);
  owner ← lift (Acc_String owner);
  mret (TransferOwnerMsg (MkMsgTransferOwnerToken symbol owner to)).
Definition MintToken_message (symbol : string) (amount : Z) (to : string) (baseTx : BaseTx) : M TokenMsg :=
  owner ← sender_text km baseTx;
  receipt ← (if bool_decide (to = "") then mret owner else _ ← lift (ValidateAccAddress to); mret to);
  mret (MintTokenMsg (MkMsgMintToken symbol receipt amount owner)).

Definition IssueToken (req : IssueTokenRequest) (baseTx : BaseTx) : M ResultTx :=
  msg ← IssueToken_message req baseTx; send msg baseTx.
Definition EditToken (req : EditTokenRequest) (baseTx : BaseTx) : M ResultTx :=
  msg ← EditToken_message req baseTx; send msg baseTx.
Definition TransferToken (to symbol : string) (baseTx : BaseTx) : M ResultTx :=
  msg ← TransferToken_message to symbol baseTx; send msg baseTx.
Definition MintToken (symbol : string) (amount : Z) (to : string) (baseTx : BaseTx) : M ResultTx :=
  msg ← MintToken_message symbol amount to baseTx; send msg baseTx.
End TokenClient.

(* ------------------------------------------------------------------ *)
(** * Queries *)
Section Queries.
Context {W C : Type} `{TokenNode W, GCache cached C, Bech32Lib, ClientCodec}.
(** The unpacker of the codec, for a variable of the interface [TokenInterface];
    it stays nil for an empty [Any]. *)
Variable UnpackAny : Any PbToken -> res (option PbToken).
Abbreviation M := (ST (client W C)).

(** [evi.( *Token )] panics on the nil interface. *)
Definition unpack_token (eviAny : Any PbToken) : res PbToken :=
  evi ← UnpackAny eviAny; match evi with Some t => Ok t | None => Panic "interface conversion" end.
Definition QueryTokens (owner : string) : M (list Token) :=
  _ ← (if bool_decide (owner = "") then mret tt else lift (ValidateAccAddress owner));
  with_conn (fun conn =>
    res ← remote (grpc_Tokens conn owner);
    tokens ← lift (map_res unpack_token res);
    ts ← lift (Tokens_Convert tokens);
    _ ← SaveTokens ts;
    mret ts).
Definition token_QueryToken (denom : string) : M Token := QueryToken denom.
Definition QueryFees (symbol : string) : M QueryFeesResp := asking (fun conn => grpc_Fees conn symbol) Ok.
Definition QueryTokenParams : M TokenParamsResp := asking grpc_TokenParams (fun p => Ok (TokenParams_Convert p)).
End Queries.

(* ------------------------------------------------------------------ *)
(** * The tokens of a query are cached *)
Section Cached.
Context {W C : Type} {contents : C -> gmap string cached}.
Context `{TokenNode W, GCacheLaws cached C contents, !KeepsEntries contents, Bech32Lib, ClientCodec}.
Variable UnpackAny : Any PbToken -> res (option PbToken).
Abbreviation answers := (cache_answers (W := W) (contents := contents)).

(** The last token that has the symbol or the minimal unit [d]. *)
Definition last_token (ts : list Token) (d : string) : option Token :=
  last (filter (fun t => Token_Symbol t = d \/ Token_MinUnit t = d) ts).

Lemma token_prefixKey_inj a b : token_prefixKey a = token_prefixKey b -> a = b.
Proof. unfold token_prefixKey. intros E. by simplify_eq. Qed.
Lemma cache_Set_kept k v (s : client W C) : enabled (cl_cache s) = true ->
  exists s', cache_Set k v s = (Ok tt, s') /\ enabled (cl_cache s') = true /\ cl_world s' = cl_world s /\ answers s' = <[k := v]> (answers s).
Proof using All.
  intros He. eexists. split; [done|]. destruct s as [[c en] l w]. cbn in He. subst en.
  unfold cache_answers, visible, lru_Set. cbn. by rewrite keeps_set.
Qed.
Lemma SaveTokens_kept ts (s : client W C) : enabled (cl_cache s) = true ->
  exists s', SaveTokens ts s = (Ok tt, s') /\ enabled (cl_cache s') = true /\ cl_world s' = cl_world s /\
    forall d, answers s' !! token_prefixKey d =
      match last_token ts d with Some t => Some (CachedToken t) | None => answers s !! token_prefixKey d end.
Proof using All.
  revert s. induction ts as [|t ts IH]; intros s He; [by exists s|]. cbn [SaveTokens].
  destruct (cache_Set_kept (token_prefixKey (Token_Symbol t)) (CachedToken t) s He) as (s1 & E1 & He1 & Hw1 & Ha1).
  destruct (cache_Set_kept (token_prefixKey (Token_MinUnit t)) (CachedToken t) s1 He1) as (s2 & E2 & He2 & Hw2 & Ha2).
  destruct (IH s2 He2) as (s' & E & He' & Hw & Ha). exists s'. unfold mbind, st_bind. rewrite E1, E2. split; [exact E|].
  split_and!; [done|congruence|]. intros d. rewrite Ha, Ha2, Ha1. unfold last_token. rewrite filter_cons.
  destruct (decide (Token_Symbol t = d \/ Token_MinUnit t = d)) as [Hd|Hd].
  - rewrite last_cons. destruct (last (filter _ ts)); [done|]. destruct Hd as [-> | ->].
    + destruct (decide (Token_MinUnit t = d)) as [->|Hm]; [by rewrite lookup_insert_eq|].
      rewrite lookup_insert_ne by (intros Ek%token_prefixKey_inj; done). by rewrite lookup_insert_eq.
    + by rewrite lookup_insert_eq.
  - destruct (last (filter _ ts)); [done|]. rewrite !lookup_insert_ne; [done|..]; intros Ek%token_prefixKey_inj; naive_solver.
Qed.

Lemma QueryToken_kept d t (s : client W C) : enabled (cl_cache s) = true -> answers s !! token_prefixKey (ToLower d) = Some (CachedToken t) ->
  exists s', QueryToken d s = (Ok t, s') /\ cl_world s' = cl_world s.
Proof using All.
  intros He Ha. destruct (cache_Get_kept (token_prefixKey (ToLower d)) s He) as (c & _ & _ & E). rewrite Ha in E.
  exists (MkClient c (cl_locker s) (cl_world s)). split; [|done]. unfold QueryToken, mbind, st_bind. by rewrite E.
Qed.

(** While the cache is enabled and keeps its entries, the tokens that
    [QueryTokens] answers are known to the client afterwards: [QueryToken], which
    the conversions of amounts use, answers the last token of the list whose
    symbol or minimal unit is the name asked for in lower case, without asking
    the node. *)
Theorem QueryTokens_cached owner (s s' : client W C) ts : enabled (cl_cache s) = true ->
  QueryTokens UnpackAny owner s = (Ok ts, s') ->
  forall d t, last_token ts (ToLower d) = Some t ->
    exists s2, QueryToken d s' = (Ok t, s2) /\ cl_world s2 = cl_world s'.
Proof using All.
  intros He E d t Hd. unfold QueryTokens in E. apply st_bind_Ok in E as ([] & s0 & E0 & E).
  assert (s0 = s) as -> by (destruct (bool_decide _); by st_inv).
  apply with_conn_Ok in E as (conn & s1 & s2 & Hc & E & Hcl).
  st_inv. destruct Hcl as (r & Er & _).
  match goal with X : remote (grpc_Tokens _ _) _ = _, Y : SaveTokens _ _ = _ |- _ => pose proof (remote_cache _ _ _ _ X) as K2; rename Y into Es end.
  pose proof (remote_cache _ _ _ _ Hc) as K1. pose proof (remote_cache _ _ _ _ Er) as K3. cbn beta in K1, K2, K3.
  match type of Es with SaveTokens _ ?s0 = _ => destruct (SaveTokens_kept ts s0) as (s3 & Es' & He3 & _ & Ha); [congruence|] end.
  rewrite Es' in Es. injection Es as _ <-. specialize (Ha (ToLower d)). rewrite Hd in Ha.
  apply QueryToken_kept; [congruence|]. unfold cache_answers in *. by rewrite K3.
Qed.
End Cached.

Lemma ToLower_idem s : ToLower (ToLower s) = ToLower s.
Proof.
  induction s as [|c s IH]; [done|]. cbn. rewrite IH. f_equal. unfold lower_chr. destruct (is_upper c) eqn:E; [|by rewrite E].
  destruct c as [b0 b1 b2 b3 b4 b5 b6 b7]. destruct b0, b1, b2, b3, b4, b5, b6, b7; vm_compute in E; try done; by vm_compute.
Qed.
(** A name with an upper case letter is stored as it is written and looked up in
    lower case, so such a token is not found by this name. *)
Lemma last_token_upper ts d : (forall t, t ∈ ts -> ToLower (Token_Symbol t) <> Token_Symbol t /\ ToLower (Token_MinUnit t) <> Token_MinUnit t) ->
  last_token ts (ToLower d) = None.
Proof.
  intros Hu. unfold last_token. apply last_None. destruct (filter _ ts) as [|t l] eqn:E; [done|].
  assert (t ∈ filter (fun t => Token_Symbol t = ToLower d \/ Token_MinUnit t = ToLower d) ts) as [Ht Hin]%list_elem_of_filter
    by (rewrite E; apply list_elem_of_here).
  destruct (Hu t Hin) as [H1 H2]. destruct Ht as [Ht | Ht]; rewrite Ht, ToLower_idem in *; done.
Qed.

(* ------------------------------------------------------------------ *)
(** * What the operations send *)

Inductive TokenOp :=
  | OpIssueToken (r : IssueTokenRequest) | OpEditToken (r : EditTokenRequest) | OpTransferToken (to symbol : string)
  | OpMintToken (symbol : string) (amount : Z) (to : string).
(** The message an operation is asked for, from the sender's text; minted tokens
    go to the sender unless a receiver is named. *)
Definition asked `{Bech32Lib} (op : TokenOp) (from : string) (m : TokenMsg) : Prop :=
  match op with
  | OpIssueToken r => m = IssueTokenMsg (MkMsgIssueToken (it_Symbol r) (it_Name r) (it_Scale r) (it_MinUnit r) (it_InitialSupply r)
      (it_MaxSupply r) (it_Mintable r) from)
  | OpEditToken r => m = EditTokenMsg (MkMsgEditToken (et_Symbol r) (et_Name r) (et_MaxSupply r) from)
  | OpTransferToken to symbol => address_ok to /\ m = TransferOwnerMsg (MkMsgTransferOwnerToken symbol from to)
  | OpMintToken symbol amount to => exists receiver, (to = "" /\ receiver = from \/ address_ok to /\ receiver = to) /\
      m = MintTokenMsg (MkMsgMintToken symbol receiver amount from)
  end.
Lemma token_asked_owner `{Bech32Lib} op from m : asked op from m -> TokenMsg_Owner m = from.
Proof. destruct op; cbn; [intros ->; done..|intros [_ ->]; done|intros (? & _ & ->); done]. Qed.

Section Sends.
Context {W C D Msg : Type} {sent : W -> list bytes}.
Context `{NodeJournal W sent, GCache cached C, KeyDAOLaws D storable, MsgInterface Msg, CryptoLaws, HDLib, AminoLaws, ArmorLib, Bech32Laws, ClientCodec}.
Variable cfg : ClientConfig D.
Variable TxJSONEncoder : Tx Msg -> res bytes.
Variable impl : spec_float -> Z.
Variable token_msg : TokenMsg -> Msg.
(** How the application's messages carry those of the module. *)
Hypothesis carried : forall m, MessageName (token_msg m) = MessageName m /\ proto_Marshal (token_msg m) = proto_Marshal m.

Definition op_message (km : KeyManager) (op : TokenOp) (b : BaseTx) : ST (client W C) TokenMsg :=
  match op with
  | OpIssueToken r => IssueToken_message km r b
  | OpEditToken r => EditToken_message km r b
  | OpTransferToken to symbol => TransferToken_message km to symbol b
  | OpMintToken symbol amount to => MintToken_message km symbol amount to b
  end.
Definition run_op (km : KeyManager) (txConfig : option SignModeHandlerMap) (op : TokenOp) (b : BaseTx) : ST (client W C) ResultTx :=
  match op with
  | OpIssueToken r => IssueToken cfg km txConfig TxJSONEncoder impl token_msg r b
  | OpEditToken r => EditToken cfg km txConfig TxJSONEncoder impl token_msg r b
  | OpTransferToken to symbol => TransferToken cfg km txConfig TxJSONEncoder impl token_msg to symbol b
  | OpMintToken symbol amount to => MintToken cfg km txConfig TxJSONEncoder impl token_msg symbol amount to b
  end.

Lemma token_op_message_sends km op b : respects (same_sent (C := C) (sent := sent)) (op_message km op b).
Proof.
  pose proof (QueryAddress_sends (C := C) (sent := sent) km (From b) (Password b)). pose proof (sender_text_sends (C := C) (sent := sent) km b).
  destruct op; cbn; unfold IssueToken_message, EditToken_message, TransferToken_message, MintToken_message; frame.
Qed.
Lemma token_op_message_asked km op b (s s' : client W C) m : op_message km op b s = (Ok m, s') ->
  exists sender from s1, QueryAddress km (From b) (Password b) s = (Ok sender, s1) /\ Acc_String sender = Ok from /\ asked op from m.
Proof.
  destruct op as [r|r|to symbol|symbol amount to]; cbn; unfold IssueToken_message, EditToken_message, TransferToken_message,
    MintToken_message, sender_text; intros E.
  - st_inv. eauto 10.
  - st_inv. eauto 10.
  - st_inv. match goal with X : ValidateAccAddress _ = Ok ?u |- _ => destruct u; apply ValidateAccAddress_spec in X end. eauto 10.
  - case_bool_decide; st_inv; [by eauto 15|].
    match goal with X : ValidateAccAddress _ = Ok ?u |- _ => destruct u; apply ValidateAccAddress_spec in X end. eauto 15.
Qed.

(** Every operation of the token client that reports success has handed exactly
    one transaction to the node.  It carries one message, the one the request
    asks for with the sender as owner, in an encoding that is decoded to the
    message, and one signature, which verifies; the sender alone has to sign.  A
    new owner, and a receiver of minted tokens, is an address. *)
Theorem token_operations_send d priv address op b (s s' : client W C) r :
  holds_key d (From b) (Password b) priv address -> secp_usable priv -> btx_Simulate b = false ->
  run_op (store_manager d) (Some direct_handlers) op b s = (Ok r, s') ->
  exists bz m sender from s1, sent (cl_world s') = sent (cl_world s) ++ [bz] /\
    QueryAddress (store_manager d) (From b) (Password b) s = (Ok sender, s1) /\ Acc_String sender = Ok from /\ asked op from m /\
    carries_one (Msg := Msg) cfg priv (btx_Memo b) ("/" +:+ MessageName m) (TokenMsg_Marshal m) bz /\
    (TokenMsg_wf m -> Z.of_nat (length (TokenMsg_Marshal m)) < 2 ^ 62 -> TokenMsg_decodes_to m (TokenMsg_Marshal m)) /\
    (addr_ok sender -> sender <> [] -> msg_GetSigners m = Ok [sender]).
Proof using All.
  intros Hk Hs Hsim E.
  assert ((m ← op_message (store_manager d) op b; BuildAndSend cfg (store_manager d) (Some direct_handlers) TxJSONEncoder impl [token_msg m] b) s
          = (Ok r, s')) as E' by (by destruct op).
  destruct (module_sends cfg TxJSONEncoder impl d priv address _ token_msg b s s' r carried (fun m => ex_intro _ _ eq_refl)
    (token_op_message_sends _ op b) Hk Hs Hsim E') as (bz & m & s1 & value & Em & [= <-] & Hj & Hc).
  destruct (token_op_message_asked _ _ _ _ _ _ Em) as (sender & from & s2 & Hq & Hf & Ha).
  exists bz, m, sender, from, s2. split_and!; try done; [apply TokenMsg_decodes|]. intros Hok Hne.
  assert (msg_GetSigners m = owner_signs (TokenMsg_Owner m)) as -> by (by destruct m).
  rewrite (token_asked_owner _ _ _ Ha). unfold owner_signs, MustAccAddressFromBech32. by rewrite (sender_read sender from Hok Hne Hf).
Qed.
End Sends.
