(* ===== verification/NftClient.v ===== *)
(** The client of the NFT module: [modules/nft/nft.go] over the client of
    [Client.v]. *)
From Stdlib Require Import SpecFloat.
From S2P Require Import Prelude GoStrings BigText SdkInt SdkDec CoinSet CoinText Coins DecCoins CoinType BitArray Wire Decoding Keys HDPath Multisig Address Armor KeyStore TxTypes TxProto Sigs TxBuilder Codec Pagination Messages Nft Factory Events Errors Config Cache Locker Client ClientLemmas Accounts Batches SendOne.

(* ------------------------------------------------------------------ *)
(** * Requests *)

Record IssueDenomRequest := MkIssueDenomRequest {
  id_ID : string; id_Name : string; id_Schema : string; id_Symbol : string; id_MintRestricted : bool; id_EditRestricted : bool }.
Record MintNFTRequest := MkMintNFTRequest {
  mn_ID : string; mn_ClassID : string; mn_Name : string; mn_URI : string; mn_Data : string; mn_Recipient : string }.
Record EditNFTRequest := MkEditNFTRequest { en_ID : string; en_ClassID : string; en_Name : string; en_URI : string; en_Data : string }.
Record TransferClassRequest := MkTransferClassRequest { tc_ID : string; tc_Recipient : string }.
Record TransferNFTRequest := MkTransferNFTRequest { tn_ID : string; tn_ClassID : string; tn_Recipient : string }.
Record BurnNFTRequest := MkBurnNFTRequest { bn_ClassID : string; bn_ID : string }.

(** The query service of the node; an answer may lack its object. *)
Class NftNode (W : Type) `{Node W} := {
  grpc_Supply : Conn -> string -> ST W Z;
  grpc_Owner : Conn -> string -> string -> PageRequest -> ST W (option Owner);
  grpc_Collection : Conn -> string -> PageRequest -> ST W (option Collection);
  grpc_Classes : Conn -> PageRequest -> ST W (list Class);
  grpc_Class : Conn -> string -> ST W (option Class);
  grpc_NFT : Conn -> string -> string -> ST W (option NFT);
}.

(* ------------------------------------------------------------------ *)
(** * Operations *)
Section NftClient.
Context {W C D Msg : Type} `{Node W, GCache cached C, MsgInterface Msg, CryptoLib, AminoLib, Bech32Lib, ClientCodec}.
Variable cfg : ClientConfig D.
Variable km : KeyManager.
Variable txConfig : option SignModeHandlerMap.
Variable TxJSONEncoder : Tx Msg -> res bytes.
Variable impl : spec_float -> Z.
Variable nft_msg : NftMsg -> Msg.
Abbreviation M := (ST (client W C)).
Abbreviation send m b := (BuildAndSend cfg km txConfig TxJSONEncoder impl [nft_msg m] b).

(** What each operation does before it sends. *)
Definition IssueDenom_message (request : IssueDenomRequest) (baseTx : BaseTx) : M NftMsg :=
  sender ← sender_text km baseTx;
  mret (IssueClassMsg (MkMsgIssueClass (id_ID request) (id_Name request) (id_Schema request) sender (id_Symbol request)
    (id_MintRestricted request) (id_EditRestricted request))).
Definition MintNFT_message (request : MintNFTRequest) (baseTx : BaseTx) : M NftMsg :=
  sender ← sender_text km baseTx;
  recipient ← (if bool_decide (mn_Recipient request = "") then mret sender
               else _ ← lift (ValidateAccAddress (mn_Recipient request)); mret (mn_Recipient request));
  mret (IssueNFTMsg (MkMsgIssueNFT (mn_ID request) (mn_ClassID request) (mn_Name request) (mn_URI request) (mn_Data request)
    sender recipient)).
Definition EditNFT_message (request : EditNFTRequest) (baseTx : BaseTx) : M NftMsg :=
  sender ← sender_text km baseTx;
  mret (EditNFTMsg (MkMsgEditNFT (en_ID request) (en_ClassID request) (en_Name request) (en_URI request) (en_Data request) sender)).
Definition TransferNFT_message (request : TransferNFTRequest) (baseTx : BaseTx) : M NftMsg :=
  sender ← QueryAddress km (From baseTx) (Password baseTx);
  _ ← lift (ValidateAccAddress (tn_Recipient request));
  sender ← lift (Acc_String sender);
  mret (TransferNFTMsg (MkMsgTransferNFT (tn_ID request) (tn_ClassID request) (tn_Recipient request) sender)).
Definition TransferClass_message (request : TransferClassRequest) (baseTx : BaseTx) : M NftMsg :=
  sender ← QueryAddress km (From baseTx) (Password baseTx);
  _ ← lift (ValidateAccAddress (tc_Recipient request));
  sender ← lift (Acc_String sender);
  mret (TransferClassMsg (MkMsgTransferClass (tc_ID request) sender (tc_Recipient request))).
Definition BurnNFT_message (request : BurnNFTRequest) (baseTx : BaseTx) : M NftMsg :=
  sender ← sender_text km baseTx; mret (BurnNFTMsg (MkMsgBurnNFT (bn_ID request) (bn_ClassID request) sender)).

Definition IssueDenom (request : IssueDenomRequest) (baseTx : BaseTx) : M ResultTx :=
  msg ← IssueDenom_message request baseTx; send msg baseTx.
Definition MintNFT (request : MintNFTRequest) (baseTx : BaseTx) : M ResultTx :=
  msg ← MintNFT_message request baseTx; send msg baseTx.
Definition EditNFT (request : EditNFTRequest) (baseTx : BaseTx) : M ResultTx :=
  msg ← EditNFT_message request baseTx; send msg baseTx.
Definition TransferNFT (request : TransferNFTRequest) (baseTx : BaseTx) : M ResultTx :=
  msg ← TransferNFT_message request baseTx; send msg baseTx.
Definition TransferClass (request : TransferClassRequest) (baseTx : BaseTx) : M ResultTx :=
  msg ← TransferClass_message request baseTx; send msg baseTx.
Definition BurnNFT (request : BurnNFTRequest) (baseTx : BaseTx) : M ResultTx :=
  msg ← BurnNFT_message request baseTx; send msg baseTx.
End NftClient.

(* ------------------------------------------------------------------ *)
(** * Queries *)
Section Queries.
Context {W C : Type} `{NftNode W, GCache cached C, Bech32Lib}.
Abbreviation M := (ST (client W C)).

Definition required {A} (text e : string) (m : M A) : M A := if bool_decide (text = "") then lift (Err e) else m.
Definition nft_page (req : SdkPageRequest) : PageRequest := MkPageRequest (Key req) (Offset req) (Limit req) (CountTotal req).
(** [res.X.Convert()] for a pointer [X]. *)
Definition present {A R} (convert : A -> R) (x : option A) : res R := x ← deref x; Ok (convert x).

Definition QuerySupply (denom : string) : M Z :=
  required denom "denom is required" (asking (fun conn => grpc_Supply conn denom) Ok).
Definition QueryOwner (creator denom : string) (req : SdkPageRequest) : M QueryOwnerResp :=
  required denom "denom is required" (
    _ ← lift (ValidateAccAddress creator);
    asking (fun conn => grpc_Owner conn creator denom (nft_page req)) (present Owner_Convert)).
Definition QueryCollection (denom : string) (req : SdkPageRequest) : M QueryCollectionResp :=
  required denom "denom is required" (asking (fun conn => grpc_Collection conn denom (nft_page req)) (present Collection_Convert)).
Definition QueryDenoms (req : SdkPageRequest) : M (list QueryDenomResp) :=
  asking (fun conn => grpc_Classes conn (nft_page req)) (fun l => Ok (denoms_Convert l)).
Definition QueryDenom (denom : string) : M QueryDenomResp := asking (fun conn => grpc_Class conn denom) (present Class_Convert).
Definition QueryNFT (denom ID : string) : M QueryNFTResp :=
  required denom "denom is required" (required ID "ID is required" (asking (fun conn => grpc_NFT conn denom ID) (present NFT_Convert))).
End Queries.

(* ------------------------------------------------------------------ *)
(** * What the operations send *)

Inductive NftOp :=
  | OpIssueDenom (r : IssueDenomRequest) | OpMintNFT (r : MintNFTRequest) | OpEditNFT (r : EditNFTRequest)
  | OpTransferNFT (r : TransferNFTRequest) | OpTransferClass (r : TransferClassRequest) | OpBurnNFT (r : BurnNFTRequest).
(** The message an operation is asked for, from the sender's text; what is
    minted goes to the sender unless a recipient is named. *)
Definition asked `{Bech32Lib} (op : NftOp) (from : string) (m : NftMsg) : Prop :=
  match op with
  | OpIssueDenom r => m = IssueClassMsg (MkMsgIssueClass (id_ID r) (id_Name r) (id_Schema r) from (id_Symbol r) (id_MintRestricted r)
      (id_EditRestricted r))
  | OpMintNFT r => exists recipient,
      (mn_Recipient r = "" /\ recipient = from \/ address_ok (mn_Recipient r) /\ recipient = mn_Recipient r) /\
      m = IssueNFTMsg (MkMsgIssueNFT (mn_ID r) (mn_ClassID r) (mn_Name r) (mn_URI r) (mn_Data r) from recipient)
  | OpEditNFT r => m = EditNFTMsg (MkMsgEditNFT (en_ID r) (en_ClassID r) (en_Name r) (en_URI r) (en_Data r) from)
  | OpTransferNFT r => address_ok (tn_Recipient r) /\ m = TransferNFTMsg (MkMsgTransferNFT (tn_ID r) (tn_ClassID r) (tn_Recipient r) from)
  | OpTransferClass r => address_ok (tc_Recipient r) /\ m = TransferClassMsg (MkMsgTransferClass (tc_ID r) from (tc_Recipient r))
  | OpBurnNFT r => m = BurnNFTMsg (MkMsgBurnNFT (bn_ID r) (bn_ClassID r) from)
  end.
Lemma nft_asked_owner `{Bech32Lib} op from m : asked op from m -> NftMsg_Owner m = from.
Proof. destruct op; cbn; [intros ->; done|intros (? & _ & ->); done|intros ->; done|intros [_ ->]; done..|intros ->; done]. Qed.

Section Sends.
Context {W C D Msg : Type} {sent : W -> list bytes}.
Context `{NodeJournal W sent, GCache cached C, KeyDAOLaws D storable, MsgInterface Msg, CryptoLaws, HDLib, AminoLaws, ArmorLib, Bech32Laws, ClientCodec}.
Variable cfg : ClientConfig D.
Variable TxJSONEncoder : Tx Msg -> res bytes.
Variable impl : spec_float -> Z.
Variable nft_msg : NftMsg -> Msg.
(** How the application's messages carry those of the module. *)
Hypothesis carried : forall m, MessageName (nft_msg m) = MessageName m /\ proto_Marshal (nft_msg m) = proto_Marshal m.

Definition op_message (km : KeyManager) (op : NftOp) (b : BaseTx) : ST (client W C) NftMsg :=
  match op with
  | OpIssueDenom r => IssueDenom_message km r b
  | OpMintNFT r => MintNFT_message km r b
  | OpEditNFT r => EditNFT_message km r b
  | OpTransferNFT r => TransferNFT_message km r b
  | OpTransferClass r => TransferClass_message km r b
  | OpBurnNFT r => BurnNFT_message km r b
  end.
Definition run_op (km : KeyManager) (txConfig : option SignModeHandlerMap) (op : NftOp) (b : BaseTx) : ST (client W C) ResultTx :=
  match op with
  | OpIssueDenom r => IssueDenom cfg km txConfig TxJSONEncoder impl nft_msg r b
  | OpMintNFT r => MintNFT cfg km txConfig TxJSONEncoder impl nft_msg r b
  | OpEditNFT r => EditNFT cfg km txConfig TxJSONEncoder impl nft_msg r b
  | OpTransferNFT r => TransferNFT cfg km txConfig TxJSONEncoder impl nft_msg r b
  | OpTransferClass r => TransferClass cfg km txConfig TxJSONEncoder impl nft_msg r b
  | OpBurnNFT r => BurnNFT cfg km txConfig TxJSONEncoder impl nft_msg r b
  end.

Lemma nft_op_message_sends km op b : respects (same_sent (C := C) (sent := sent)) (op_message km op b).
Proof.
  pose proof (QueryAddress_sends (C := C) (sent := sent) km (From b) (Password b)). pose proof (sender_text_sends (C := C) (sent := sent) km b).
  destruct op; cbn; unfold IssueDenom_message, MintNFT_message, EditNFT_message, TransferNFT_message, TransferClass_message,
    BurnNFT_message; frame.
Qed.
Lemma nft_op_message_asked km op b (s s' : client W C) m : op_message km op b s = (Ok m, s') ->
  exists sender from s1, QueryAddress km (From b) (Password b) s = (Ok sender, s1) /\ Acc_String sender = Ok from /\ asked op from m.
Proof.
  destruct op as [r|r|r|r|r|r]; cbn; unfold IssueDenom_message, MintNFT_message, EditNFT_message, TransferNFT_message,
    TransferClass_message, BurnNFT_message, sender_text; intros E.
  2: case_bool_decide.
  all: st_inv; try match goal with X : ValidateAccAddress _ = Ok ?u |- _ => destruct u; apply ValidateAccAddress_spec in X end; eauto 15.
Qed.

(** Every operation of the NFT client that reports success has handed exactly
    one transaction to the node.  It carries one message, the one the request
    asks for with the sender as owner, in an encoding that is decoded to the
    message, and one signature, which verifies; the sender alone has to sign. *)
Theorem nft_operations_send d priv address op b (s s' : client W C) r :
  holds_key d (From b) (Password b) priv address -> secp_usable priv -> btx_Simulate b = false ->
  run_op (store_manager d) (Some direct_handlers) op b s = (Ok r, s') ->
  exists bz m sender from s1, sent (cl_world s') = sent (cl_world s) ++ [bz] /\
    QueryAddress (store_manager d) (From b) (Password b) s = (Ok sender, s1) /\ Acc_String sender = Ok from /\ asked op from m /\
    carries_one (Msg := Msg) cfg priv (btx_Memo b) ("/" +:+ MessageName m) (NftMsg_Marshal m) bz /\
    (Z.of_nat (length (NftMsg_Marshal m)) < 2 ^ 62 -> NftMsg_decodes_to m (NftMsg_Marshal m)) /\
    (addr_ok sender -> sender <> [] -> msg_GetSigners m = Ok [sender]).
Proof using All.
  intros Hk Hs Hsim E.
  assert ((m ← op_message (store_manager d) op b; BuildAndSend cfg (store_manager d) (Some direct_handlers) TxJSONEncoder impl [nft_msg m] b) s
          = (Ok r, s')) as E' by (by destruct op).
  destruct (module_sends cfg TxJSONEncoder impl d priv address _ nft_msg b s s' r carried (fun m => ex_intro _ _ eq_refl)
    (nft_op_message_sends _ op b) Hk Hs Hsim E') as (bz & m & s1 & value & Em & [= <-] & Hj & Hc).
  destruct (nft_op_message_asked _ _ _ _ _ _ Em) as (sender & from & s2 & Hq & Hf & Ha).
  exists bz, m, sender, from, s2. split_and!; try done; [apply NftMsg_decodes|]. intros Hok Hne.
  assert (msg_GetSigners m = owner_signs (NftMsg_Owner m)) as -> by (by destruct m).
  rewrite (nft_asked_owner _ _ _ Ha). unfold owner_signs, MustAccAddressFromBech32. by rewrite (sender_read sender from Hok Hne Hf).
Qed.
End Sends.
