(* ===== verification/GovClient.v ===== *)
(** The client of the governance module: [modules/gov/gov.go] over the client of
    [Client.v]. *)
From Stdlib Require Import SpecFloat.
From S2P Require Import Prelude GoStrings BigText SdkInt SdkDec CoinSet CoinText Coins DecCoins CoinType BitArray Wire Decoding Keys HDPath Multisig Address Armor KeyStore TxTypes TxProto Sigs TxBuilder Codec Pagination Messages Gov Factory Events Errors Config Cache Locker Client ClientLemmas Accounts Batches SendOne.

(* ------------------------------------------------------------------ *)
(** * Requests *)

Record SubmitProposalRequest := MkSubmitProposalRequest {
  sp_Title : string; sp_Description : string; sp_Type : string; sp_InitialDeposit : DecCoins }.
Record DepositRequest := MkDepositRequest { dep_ProposalId : Z; dep_Amount : DecCoins }.
Record VoteRequest := MkVoteRequest { vote_ProposalId : Z; vote_Option : string }.

(** The query service of the node. *)
Class GovNode (W : Type) `{Node W} := {
  grpc_Proposal : Conn -> Z -> ST W Proposal;
  grpc_Proposals : Conn -> Z -> PageRequest -> ST W (list Proposal);
  grpc_Vote : Conn -> Z -> string -> ST W Vote;
  grpc_Votes : Conn -> Z -> PageRequest -> ST W (list Vote);
  grpc_GovParams : Conn -> string -> ST W (VotingParams * DepositParams * TallyParams);
  grpc_Deposit : Conn -> Z -> string -> ST W GovDeposit;
  grpc_Deposits : Conn -> Z -> PageRequest -> ST W (list GovDeposit);
  grpc_TallyResult : Conn -> Z -> ST W TallyResult;
}.

(** [strconv.Atoi], for 64-bit [int]. *)
Definition Atoi (s : string) : res Z :=
  let '(neg, digits) := match s with
    | String c t => if bool_decide (String c "" = "-") then (true, t) else if bool_decide (String c "" = "+") then (false, t) else (false, s)
    | "" => (false, s) end in
  n ← ParseUint 64 digits;
  if neg then (if 2 ^ 63 <? n then Err "value out of range" else Ok (- n))
  else if 2 ^ 63 <=? n then Err "value out of range" else Ok n.

(* ------------------------------------------------------------------ *)
(** * Operations *)
Section GovClient.
Context {W C D Msg : Type} `{Node W, GCache cached C, MsgInterface Msg, CryptoLib, AminoLib, Bech32Lib, ClientCodec}.
Variable cfg : ClientConfig D.
Variable km : KeyManager.
Variable txConfig : option SignModeHandlerMap.
Variable TxJSONEncoder : Tx Msg -> res bytes.
Variable impl : spec_float -> Z.
Variable gov_msg : GovMsg -> Msg.
Abbreviation M := (ST (client W C)).
Abbreviation send m b := (BuildAndSend cfg km txConfig TxJSONEncoder impl [gov_msg m] b).

(** What each operation does before it sends. *)
Definition SubmitProposal_message (request : SubmitProposalRequest) (baseTx : BaseTx) : M GovMsg :=
  proposer ← QueryAddress km (From baseTx) (Password baseTx);
  deposit ← ToMinCoin (sp_InitialDeposit request);
  let content := ContentFromProposalType (sp_Title request) (sp_Description request) (sp_Type request) in
  msg ← lift (NewMsgSubmitProposal content deposit proposer);
  mret (SubmitProposalMsg msg).
Definition Deposit_message (request : DepositRequest) (baseTx : BaseTx) : M GovMsg :=
  depositor ← QueryAddress km (From baseTx) (Password baseTx);
  amount ← ToMinCoin (dep_Amount request);
  text ← lift (Acc_String depositor);
  mret (DepositMsg (MkMsgDeposit (dep_ProposalId request) text amount)).
Definition Vote_message (request : VoteRequest) (baseTx : BaseTx) : M GovMsg :=
  voter ← sender_text km baseTx;
  mret (VoteMsg (MkMsgVote (vote_ProposalId request) voter (VoteOption_value (vote_Option request)))).

(** The number of the proposal is read from the events of the result.  When
    that fails, the result is returned with the error; [None] is the nil error. *)
Definition read_proposal_id (result : ResultTx) : res (Z * ResultTx * option string) :=
  match GetValue (res_Events result) "submit_proposal" "proposal_id" with
  | Err e => Ok (0, result, Some e)
  | Panic p => Panic p
  | Ok proposalIdStr =>
      match Atoi proposalIdStr with
      | Err e => Ok (0, result, Some e)
      | Panic p => Panic p
      | Ok proposalId => Ok (wrap_u64 proposalId, result, None)
      end
  end.
Definition SubmitProposal (request : SubmitProposalRequest) (baseTx : BaseTx) : M (Z * ResultTx * option string) :=
  msg ← SubmitProposal_message request baseTx; result ← send msg baseTx; lift (read_proposal_id result).
Definition Deposit (request : DepositRequest) (baseTx : BaseTx) : M ResultTx :=
  msg ← Deposit_message request baseTx; send msg baseTx.
Definition Vote_ (request : VoteRequest) (baseTx : BaseTx) : M ResultTx :=
  msg ← Vote_message request baseTx; send msg baseTx.
End GovClient.

(* ------------------------------------------------------------------ *)
(** * Queries *)
Section Queries.
Context {W C : Type} `{GovNode W, GCache cached C}.
Abbreviation M := (ST (client W C)).

(** The first hundred of a list. *)
Definition first_100 : PageRequest := MkPageRequest [] 0 100 true.
Definition QueryProposal (proposalId : Z) : M QueryProposalResp :=
  asking (fun conn => grpc_Proposal conn proposalId) (fun p => Ok (Proposal_Convert p)).
(** The name of the status is looked up among the vote options. *)
Definition proposal_status (proposalStatus : string) : Z := VoteOption_value proposalStatus.
Definition QueryProposals (proposalStatus : string) : M (list QueryProposalResp) :=
  asking (fun conn => grpc_Proposals conn (proposal_status proposalStatus) first_100) (fun l => Ok (Proposals_Convert l)).
Definition QueryVote (proposalId : Z) (voter : string) : M QueryVoteResp :=
  asking (fun conn => grpc_Vote conn proposalId voter) (fun v => Ok (Vote_Convert v)).
Definition QueryVotes (proposalId : Z) : M (list QueryVoteResp) :=
  asking (fun conn => grpc_Votes conn proposalId first_100) (fun l => Ok (Votes_Convert l)).
Definition QueryGovParams (paramsType : string) : M GovParamsResp :=
  asking (fun conn => grpc_GovParams conn paramsType) (fun p => Ok (GovParams_Convert p)).
Definition QueryDeposit (proposalId : Z) (depositor : string) : M QueryDepositResp :=
  asking (fun conn => grpc_Deposit conn proposalId depositor) (fun d => Ok (GovDeposit_Convert d)).
Definition QueryDeposits (proposalId : Z) : M (list QueryDepositResp) :=
  asking (fun conn => grpc_Deposits conn proposalId first_100) (fun l => Ok (GovDeposits_Convert l)).
Definition QueryTallyResult (proposalId : Z) : M QueryTallyResultResp :=
  asking (fun conn => grpc_TallyResult conn proposalId) (fun t => Ok (TallyResult_Convert t)).
End Queries.

(** [QueryProposals] cannot filter: the name of every status is sent as the
    number 0, which stands for all of them, and the names that are sent as another
    number are those of vote options; the names of the options are sent, and read
    back, as they should be by [Vote_]. *)
Theorem QueryProposals_filter :
  (forall status n, ProposalStatus_value status = Some n -> proposal_status status = 0) /\
  (forall status n, proposal_status status = n -> n <> 0 -> VoteOption_name n = status /\ ProposalStatus_value status = None) /\
  (forall n, 1 <= n <= 4 -> VoteOption_value (VoteOption_name n) = n).
Proof.
  assert (forall n s, name_of VoteOption_table n = Some s <-> value_of VoteOption_table s = Some n) as Hv.
  { intros n s. apply table_roundtrip; vm_compute; repeat constructor; set_solver. }
  assert (forall status n, ProposalStatus_value status = Some n -> proposal_status status = 0) as H1.
  { intros status n Hs. unfold ProposalStatus_value, value_of, ProposalStatus_table in Hs. cbn [List.find snd] in Hs.
    repeat (case_bool_decide; [subst status; reflexivity|]). done. }
  split_and!; [exact H1| |].
  - intros status n Hs Hn. split.
    + unfold proposal_status, VoteOption_value in Hs. destruct (value_of VoteOption_table status) as [m|] eqn:E; cbn in Hs; [|lia].
      subst m. apply Hv in E. unfold VoteOption_name. by rewrite E.
    + destruct (ProposalStatus_value status) as [m|] eqn:E; [|done]. apply H1 in E. lia.
  - intros n Hn. assert (n = 1 \/ n = 2 \/ n = 3 \/ n = 4) as [-> | [-> | [-> | ->]]] by lia; reflexivity.
Qed.
Lemma QueryProposals_filter_witness : proposal_status "PROPOSAL_STATUS_PASSED" = 0 /\ VoteOption_value "VOTE_OPTION_NO" = 3.
Proof.
  split; [apply (proj1 QueryProposals_filter _ 3); reflexivity|].
  apply (proj2 (proj2 QueryProposals_filter) 3). lia.
Defined.

(* ------------------------------------------------------------------ *)
(** * What the operations send *)

Inductive GovOp := OpSubmitProposal (r : SubmitProposalRequest) | OpDeposit (r : DepositRequest) | OpVote (r : VoteRequest).
Definition op_amount (op : GovOp) : DecCoins :=
  match op with OpSubmitProposal r => sp_InitialDeposit r | OpDeposit r => dep_Amount r | OpVote _ => [] end.
(** The message an operation is asked for, from the sender's text and the amount
    in minimal units.  Only proposals of the type [Text] can be submitted. *)
Definition asked (op : GovOp) (from : string) (amount : Coins) (m : GovMsg) : Prop :=
  match op with
  | OpSubmitProposal r => sp_Type r = "Text" /\
      let content := MkTextProposal (sp_Title r) (sp_Description r) in
      m = SubmitProposalMsg (MkMsgSubmitProposal
        (Some (MkAny "/cosmos.gov.v1beta1.TextProposal" (TextProposal_Marshal content) [] (Some content))) amount from)
  | OpDeposit r => m = DepositMsg (MkMsgDeposit (dep_ProposalId r) from amount)
  | OpVote r => m = VoteMsg (MkMsgVote (vote_ProposalId r) from (VoteOption_value (vote_Option r)))
  end.
Lemma asked_sender op from amount m : asked op from amount m -> GovMsg_Sender m = from.
Proof. destruct op; cbn; [intros [_ ->]|intros ->..]; done. Qed.

Section Sends.
Context {W C D Msg : Type} {sent : W -> list bytes}.
Context `{NodeJournal W sent, GCache cached C, KeyDAOLaws D storable, MsgInterface Msg, CryptoLaws, HDLib, AminoLaws, ArmorLib, Bech32Laws, ClientCodec}.
Variable cfg : ClientConfig D.
Variable TxJSONEncoder : Tx Msg -> res bytes.
Variable impl : spec_float -> Z.
Variable gov_msg : GovMsg -> Msg.
(** How the application's messages carry those of the module. *)
Hypothesis carried : forall m, MessageName (gov_msg m) = MessageName m /\ proto_Marshal (gov_msg m) = proto_Marshal m.

Definition op_message (km : KeyManager) (op : GovOp) (b : BaseTx) : ST (client W C) GovMsg :=
  match op with
  | OpSubmitProposal r => SubmitProposal_message km r b | OpDeposit r => Deposit_message km r b | OpVote r => Vote_message km r b
  end.
(** The result of each operation; that of a proposal may come with an error. *)
Definition run_op (km : KeyManager) (txConfig : option SignModeHandlerMap) (op : GovOp) (b : BaseTx) : ST (client W C) ResultTx :=
  match op with
  | OpSubmitProposal r => '(_, result, _) ← SubmitProposal cfg km txConfig TxJSONEncoder impl gov_msg r b; mret result
  | OpDeposit r => Deposit cfg km txConfig TxJSONEncoder impl gov_msg r b
  | OpVote r => Vote_ cfg km txConfig TxJSONEncoder impl gov_msg r b
  end.

Lemma gov_op_message_sends km op b : respects (same_sent (C := C) (sent := sent)) (op_message km op b).
Proof.
  pose proof (QueryAddress_sends (C := C) (sent := sent) km (From b) (Password b)). pose proof (sender_text_sends (C := C) (sent := sent) km b).
  pose proof (ToMinCoin_sends (C := C) (sent := sent)).
  destruct op; cbn; unfold SubmitProposal_message, Deposit_message, Vote_message; frame.
Qed.
Lemma gov_op_message_asked km op b (s s' : client W C) m : op_message km op b s = (Ok m, s') ->
  exists sender from amount s1 s2, QueryAddress km (From b) (Password b) s = (Ok sender, s1) /\ Acc_String sender = Ok from /\
    (op_amount op <> [] -> ToMinCoin (op_amount op) s1 = (Ok amount, s2)) /\ asked op from amount m.
Proof.
  destruct op as [r|r|r]; cbn [op_message op_amount asked]; unfold SubmitProposal_message, Deposit_message, Vote_message, sender_text; intros E.
  - st_inv. match goal with X : NewMsgSubmitProposal _ _ _ = Ok _ |- _ => rename X into Em end.
    unfold NewMsgSubmitProposal in Em. apply bind_Ok in Em as (text & Ef & Em). unfold ContentFromProposalType in Em.
    case_bool_decide as Ht; [|done]. injection Em as <-. eexists _, _, _, _, _. split; [eassumption|]. split; [eassumption|]. split; [by intros _|]. done.
  - st_inv. eexists _, _, _, _, _. split; [eassumption|]. split; [eassumption|]. split; [by intros _|]. done.
  - st_inv. eexists _, _, [], _, s. split; [eassumption|]. split; [eassumption|]. done.
Qed.
Lemma run_op_sends km txConfig op b (s s' : client W C) r : run_op km txConfig op b s = (Ok r, s') ->
  (m ← op_message km op b; BuildAndSend cfg km txConfig TxJSONEncoder impl [gov_msg m] b) s = (Ok r, s').
Proof.
  destruct op as [q|q|q]; intros E; [|exact E..]. cbn in E. apply st_bind_Ok in E as ([[id result] e] & s1 & E & Er). injection Er as <- <-.
  unfold SubmitProposal in E. cbn [op_message]. unfold mbind, st_bind in E |- *.
  destruct (SubmitProposal_message km q b s) as [[m|?|?] s2]; [|done..].
  destruct (BuildAndSend cfg km txConfig TxJSONEncoder impl [gov_msg m] b s2) as [[r'|?|?] s3]; [|done..].
  unfold lift, read_proposal_id in E. destruct (GetValue _ _ _); [destruct (Atoi _)|..]; by simplify_eq.
Qed.

(** Every operation of the governance client that reports a result has handed
    exactly one transaction to the node, also when a proposal's number cannot be
    read and an error is reported with the result.  It carries one message, the
    one the request asks for with the sender's address and the amount in minimal
    units, in an encoding that is decoded to the message, and one signature, which
    verifies; the sender alone has to sign. *)
Theorem gov_operations_send d priv address op b (s s' : client W C) r :
  holds_key d (From b) (Password b) priv address -> secp_usable priv -> btx_Simulate b = false ->
  run_op (store_manager d) (Some direct_handlers) op b s = (Ok r, s') ->
  exists bz m sender from amount s1 s2, sent (cl_world s') = sent (cl_world s) ++ [bz] /\
    QueryAddress (store_manager d) (From b) (Password b) s = (Ok sender, s1) /\ Acc_String sender = Ok from /\
    (op_amount op <> [] -> ToMinCoin (op_amount op) s1 = (Ok amount, s2)) /\ asked op from amount m /\
    carries_one (Msg := Msg) cfg priv (btx_Memo b) ("/" +:+ MessageName m) (GovMsg_Marshal m) bz /\
    (GovMsg_wf m -> Z.of_nat (length (GovMsg_Marshal m)) < 2 ^ 62 -> GovMsg_decodes_to m (GovMsg_Marshal m)) /\
    (addr_ok sender -> sender <> [] -> msg_GetSigners m = Ok [sender]).
Proof using All.
  intros Hk Hs Hsim E%run_op_sends.
  destruct (module_sends cfg TxJSONEncoder impl d priv address _ gov_msg b s s' r carried (fun m => ex_intro _ _ eq_refl)
    (gov_op_message_sends _ op b) Hk Hs Hsim E) as (bz & m & s1 & value & Em & [= <-] & Hj & Hc).
  destruct (gov_op_message_asked _ _ _ _ _ _ Em) as (sender & from & amount & s2 & s3 & Hq & Hf & Ht & Ha).
  exists bz, m, sender, from, amount, s2, s3. split_and!; try done; [apply GovMsg_decodes|]. intros Hok Hne.
  assert (msg_GetSigners m = one_signer (GovMsg_Sender m)) as -> by (by destruct m).
  rewrite (asked_sender _ _ _ _ Ha). unfold one_signer, address_or_nil. by rewrite (sender_read sender from Hok Hne Hf).
Qed.

Lemma unconfirmed_events km txConfig ms b (s s' : client W C) r : btx_Simulate b = true \/ mode_of cfg b <> Commit ->
  BuildAndSend cfg km txConfig TxJSONEncoder impl ms b s = (Ok r, s') -> res_Events r = [].
Proof.
  intros Hm E. unfold BuildAndSend in E. apply st_bind_Ok in E as ([bz f] & s1 & Eb & E). unfold buildTx in Eb. st_inv.
  match goal with X : prepare _ _ _ _ _ = _ |- _ => apply prepare_mode in X; rename X into Ep end.
  match goal with X : broadcastTx _ _ _ _ _ _ = (?ra, _) |- _ => rename X into Er; destruct ra as [ok|er|pa] end;
    [|by destruct (Cached cfg); st_inv|by st_inv].
  st_inv. unfold broadcastTx in Er. destruct (btx_Simulate b); [by st_inv|]. rewrite Ep in Er. destruct Hm as [|Hm]; [done|].
  rewrite (bool_decide_false _ Hm) in Er. case_bool_decide; [by unfold broadcastTxAsync in Er; st_inv|].
  case_bool_decide; [|done]. unfold broadcastTxSync in Er. st_inv. destruct (negb _); [|by st_inv].
  unfold fail_with in Er. st_inv.
Qed.

(** Unless the transaction is broadcast in the mode [commit], which is not the
    default, submitting a proposal never reports its number: the result has no
    events, and the caller gets an error although the transaction was sent. *)
Theorem SubmitProposal_unconfirmed km txConfig request b (s s' : client W C) id r e : btx_Simulate b = true \/ mode_of cfg b <> Commit ->
  SubmitProposal cfg km txConfig TxJSONEncoder impl gov_msg request b s = (Ok (id, r, e), s') ->
  id = 0 /\ e = Some "not found type:%s key:%s".
Proof.
  intros Hm E. unfold SubmitProposal in E. st_inv.
  match goal with X : BuildAndSend _ _ _ _ _ _ _ _ = _ |- _ => apply (unconfirmed_events _ _ _ _ _ _ _ Hm) in X as Hev end.
  match goal with X : read_proposal_id _ = _ |- _ => unfold read_proposal_id in X; rewrite Hev in X; by injection X as <- _ <- end.
Qed.
End Sends.
