(* ===== verification/ClientRuns.v ===== *)
(** A node that keeps the sequence number of an account and a journal, and runs
    of the client against it: the theorems on the client at concrete inputs. *)
From Stdlib Require Import SpecFloat.
From stdpp Require Import relations.
From S2P Require Import Prelude GoStrings BigText SdkInt SdkDec CoinSet CoinText Coins DecCoins CoinType BitArray Wire Keys HDPath Multisig Address Armor KeyStore TxTypes Sigs TxBuilder Factory Events Errors Config Cache Locker Client ClientLemmas Accounts Batches.

#[local] Existing Instances toy_msg toy_lib33 toy_amino toy_armor toy_hd toy_bech32.

(** The node: the sequence number on the chain and the transactions received.
    An account is answered with number 7; one at [gx1bg] is no
    [BaseAccount]. *)
Record toy_world := MkWorld { chain_sequence : Z; received : list bytes }.

Definition toy_include (tx : bytes) (w : toy_world) : toy_world :=
  MkWorld (chain_sequence w + 1) (received w ++ [tx]).
Definition toy_ok : TxResponse := MkTxResponse 0 "" "" 0 0 [].

#[local] Instance toy_node : Node toy_world := {|
  Conn := unit;
  GenConn w := (Ok tt, w);
  conn_Close _ w := (Ok tt, w);
  grpc_Account _ a w := (Ok (if bool_decide (a = "gx1bg") then [] else chain_sequence w :: to_bytes a), w);
  grpc_AllBalances _ _ w := (Ok [], w);
  grpc_Token _ _ w := (Err "unavailable", w);
  ABCIQuery _ _ w := (Ok [5], w);
  node_BroadcastTxCommit tx w := (Ok (MkCommit toy_ok toy_ok tx 1), toy_include tx w);
  node_BroadcastTxSync tx w := (Ok (MkBroadcast 0 "" tx), toy_include tx w);
  node_BroadcastTxAsync tx w := (Ok (MkBroadcast 0 "" tx), toy_include tx w);
|}.
#[local] Instance toy_codec : ClientCodec := {|
  UnpackAccount bz :=
    match bz with
    | [] => Ok None
    | s :: a => Ok (Some (MkAuthAccount (bytes_str a) None 7 s))
    end;
  UnpackPubKey _ := Err "no key";
  UnpackToken _ := Err "no token";
  jsonpb_GasUsed bz := match bz with g :: _ => Ok g | [] => Err "EOF" end;
|}.

#[local] Instance toy_journal : NodeJournal received.
Proof.
  split.
  - intros A m w r w' Hq E. destruct Hq; by injection E as _ <-.
  - intros tx A m w r w' Hb E. destruct Hb; by injection E as _ <-.
Qed.
Lemma toy_account_answers : account_answers (W := toy_world).
Proof.
  intros c a w bz w' acc E Eu. cbn in E, Eu. injection E as <- <-. case_bool_decide; [done|]. injection Eu as <-. cbn.
  by rewrite bytes_str_to_bytes.
Qed.
Lemma toy_node_addresses : node_addresses (W := toy_world).
Proof. intros c a w bz w' acc Ha E Eu. by destruct (toy_account_answers c a w bz w' acc E Eu) as [-> _]. Qed.

(** A store with one key, and its address. *)
Definition toy_priv : PrivKey := Secp256k1Priv (zeros 31 ++ [5]).
Definition toy_pub : PubKey := Secp256k1Key (2 :: zeros 31 ++ [5]).
Definition toy_store : MemoryDAO :=
  MkMemory {[ "alice" := MkKeyInfo "alice" (1 :: 2 :: zeros 31 ++ [5]) (bytes_str (1 :: zeros 31 ++ [5])) "secp256k1" ]} AES.
Definition toy_addr : bytes := Eval vm_compute in match PubKey_Address toy_pub with Ok a => a | _ => [] end.
Definition toy_text : string := Eval vm_compute in match Acc_String toy_addr with Ok t => t | _ => "" end.

Definition toy_config (on : bool) : ClientConfig MemoryDAO :=
  MkConfig "" "" "plug-1" 200000 [] (Some toy_store) "secp256k1" Commit 10 "info" (S754_zero false) on.
Definition toy_km : KeyManager := store_manager toy_store.
Definition toy_json_tx (t : Tx (string * list bytes)) : res bytes := Ok [].
Definition toy_request : BaseTx := MkBaseTx "alice" "pw" 0 [] "hi" "" false 0 0.
Definition toy_client (on : bool) : client toy_world (gmap string cached) :=
  MkClient (MkLRU ∅ on) (MkLocker (replicate 16 0) 16) (MkWorld 3 []).

Lemma toy_is_addr t : is_addr t -> t = "" \/ take 3 (to_bytes t) = [103; 120; 49].
Proof.
  intros [->|[a Ha]]; [by left|]. unfold Acc_String in Ha. destruct (Acc_Empty a); [left; by injection Ha as <-|right].
  change (GetBech32AccountAddrPrefix) with "gx" in Ha. cbn in Ha. by injection Ha as <-.
Qed.
Lemma toy_name : ~ is_addr "alice".
Proof. by intros [|]%toy_is_addr. Qed.

(* ------------------------------------------------------------------ *)
(** * Witnesses *)

Abbreviation toy_prepare on := (prepare (toy_config on) toy_km (Some direct_handlers)).
Abbreviation toy_next on := (snd (toy_prepare on toy_request (toy_client on))).

(** The outcome of a run, from its result. *)
Lemma run_ok {S A} (m : ST S A) s r : fst (m s) = r -> m s = (r, snd (m s)).
Proof. intros <-. apply surjective_pairing. Qed.

Lemma cache_types_witness : exists t, fst (cache_Get (account_prefixKey "alice") (toy_next true)) = Ok (Some (CachedAddress t)) /\
  as_string (CachedAddress t) = Ok t /\ found toy_km "alice" t.
Proof.
  assert (fst (cache_Get (account_prefixKey "alice") (toy_next true)) = Ok (Some (CachedAddress toy_text))) as E by (vm_compute; reflexivity).
  destruct (proj1 (cache_types (contents := id) (H1 := map_cache_laws) (toy_config true) toy_km (Some direct_handlers)
      (fun _ => Ok tt) toy_json_tx (fun _ => 0) toy_node_addresses (MkWorld 3 []) (toy_client true) (toy_next true) eq_refl
      (rtc_once _ _ (call_prepare _ _ _ _ _ _ toy_request _ _ _ toy_name (surjective_pairing _))))
    "alice" _ _ toy_name (run_ok _ _ _ E)) as (t & Ht & Hf).
  injection Ht as <-. exists toy_text. split; [exact E|]. split; [reflexivity|exact Hf].
Defined.

Definition toy_account (n : Z) : BaseAccount := MkBaseAccount toy_text [] "" 7 n.
Definition toy_after : client toy_world (gmap string cached) := snd (QueryAndRefreshAccount toy_text (toy_client true)).

Lemma next_sequence_witness : exists acc,
  fst (QueryAndRefreshAccount toy_text toy_after) = Ok acc /\ acc_Sequence acc = 4.
Proof.
  assert (fst (QueryAndRefreshAccount toy_text (toy_client true)) = Ok (toy_account 3)) as E1 by (vm_compute; reflexivity).
  assert (fst (QueryAndRefreshAccount toy_text toy_after) = Ok (toy_account 4)) as E2 by (vm_compute; reflexivity).
  exists (toy_account 4). split; [exact E2|].
  apply (proj2 (next_sequence (contents := id) (H1 := map_cache_laws) toy_text (toy_client true) toy_after toy_after _ _ _
    (run_ok _ _ _ E1) eq_refl (fun v Hv => Hv) (run_ok _ _ _ E2)) map_cache_keeps eq_refl); reflexivity.
Defined.

Definition toy_self : KeyManager := MkKeyManager (fun _ _ => Ok (toy_pub, toy_addr)) (fun _ _ _ => Err "").
Definition toy_self_request : BaseTx := MkBaseTx toy_text "" 0 [] "" "" false 0 0.

Lemma key_named_as_address_witness :
  exists s', prepare (toy_config true) toy_self (Some direct_handlers) toy_self_request (toy_client true) =
    (Panic "interface conversion", s').
Proof.
  destruct (key_named_as_address (contents := id) (KeepsEntries0 := map_cache_keeps) (toy_config true) toy_self (Some direct_handlers)
    (toy_client true) toy_self_request toy_pub toy_addr) as (s' & E & _).
  - reflexivity.
  - exact (lookup_empty _).
  - reflexivity.
  - vm_compute. reflexivity.
  - reflexivity.
  - exists s'. exact E.
Defined.

Definition toy_dry : client toy_world (gmap string cached) :=
  snd (BuildTxHash (toy_config true) toy_km (Some direct_handlers) toy_json_tx [] toy_request (toy_client true)).

Lemma dry_runs_consume_witness :
  received (cl_world toy_dry) = [] /\ exists f, f_sequence f = 3 /\
    forall f' s2, toy_prepare true toy_request toy_dry = (Ok f', s2) -> f_address f' = f_address f -> f_sequence f' = 4.
Proof.
  assert (fst (BuildTxHash (toy_config true) toy_km (Some direct_handlers) toy_json_tx [] toy_request (toy_client true)) =
    Ok (hex_upper (zeros 32))) as E by (vm_compute; reflexivity).
  destruct (dry_runs_consume (contents := id) (H2 := map_cache_laws) (KeepsEntries0 := map_cache_keeps) (toy_config true) toy_km (Some direct_handlers)
    toy_json_tx (fun _ => 0) [] toy_request (toy_client true) toy_dry toy_account_answers eq_refl eq_refl
    (or_introl (ex_intro _ _ (run_ok _ _ _ E)))) as (Hs & f & s0 & Ep & Hn).
  assert (fst (toy_prepare true toy_request (toy_client true)) = Ok f) as Ef by (rewrite Ep; reflexivity).
  assert (f_sequence f = 3) as E3.
  { destruct (toy_prepare true toy_request (toy_client true)) as [[f1|e|e] s1] eqn:E1; [|discriminate Ef..].
    cbn in Ef. injection Ef as <-. change f1 with (match Ok f1 with Ok f => f | _ => f1 end).
    assert (option_map f_sequence (match fst (toy_prepare true toy_request (toy_client true)) with Ok f => Some f | _ => None end) = Some 3)
      as E2 by (vm_compute; reflexivity).
    rewrite E1 in E2. cbn in E2. injection E2 as E2. exact E2. }
  split; [exact Hs|]. exists f. split; [exact E3|]. intros f' s2 E' Ha.
  destruct (Hn toy_request f' s2 eq_refl E' Ha) as [_ Eq]. rewrite Eq, E3. reflexivity.
Defined.

Lemma toy_holds : holds_key toy_store "alice" "pw" toy_priv toy_text.
Proof. exists toy_pub, toy_addr. split_and!; [vm_compute; reflexivity..|]. intros data. reflexivity. Qed.

Lemma toy_usable : secp_usable toy_priv.
Proof. eexists. split; [reflexivity|]. split; vm_compute; reflexivity. Qed.

(** The bytes of the transaction that is built. *)
Definition toy_built : res (bytes * Factory) :=
  fst (buildTx (toy_config true) toy_km (Some direct_handlers) toy_json_tx [] toy_request (toy_client true)).

Lemma buildTx_verifies_witness :
  exists bz body auth sig, (fst <$> toy_built) = Ok bz /\ TxRaw_Unmarshal (MkTxRaw [] [] []) bz = Ok (MkTxRaw body auth [sig]) /\
    VerifySignature toy_pub (SignDoc_Marshal (MkSignDoc body auth "plug-1" 7)) sig = Ok true.
Proof.
  assert ((fun '(bz, f) => (Z.of_nat (length bz) <? 2 ^ 62, f_accountNumber f)) <$> toy_built = Ok (true, 7)) as El by (vm_compute; reflexivity).
  destruct toy_built as [[bz f]|e|e] eqn:E; [|discriminate El..]. cbn in El. injection El as El Ef. apply Z.ltb_lt in El.
  destruct (buildTx_verifies (toy_config true) (H4 := toy_laws33) toy_json_tx toy_store toy_priv toy_text [] toy_request (toy_client true) _ bz f
    toy_holds toy_usable (run_ok _ _ _ E) El) as [(body & auth & sig & pk & anys & gas & Ed & Ek & Ev & _) _].
  exists bz, body, auth, sig. split; [reflexivity|]. split; [exact Ed|].
  injection Ek as <-. rewrite Ef in Ev. exact Ev.
Defined.

(** A batch of 150 messages. *)
Definition toy_msgs : list (string * list bytes) := replicate 150 ("m", []).
Definition toy_valid (m : string * list bytes) : res unit := Ok tt.
Definition toy_impl (f : spec_float) : Z := 0.
Abbreviation toy_batch b :=
  (SendBatch (toy_config true) toy_km (Some direct_handlers) toy_valid toy_json_tx toy_impl toy_msgs b (toy_client true)).
Definition batch_size (o : option (list ResultTx * option string * client toy_world (gmap string cached))) : option (nat * nat) :=
  match o with Some (rs, None, s) => Some (length rs, length (received (cl_world s))) | _ => None end.
Definition toy_given : BaseTx := MkBaseTx "alice" "pw" 0 [] "hi" "" false 7 3.


Lemma SendBatch_unlocks_witness : exists rs e s', toy_batch toy_request = Some (rs, e, s') /\ cl_locker s' = cl_locker (toy_client true).
Proof.
  apply (proj1 (SendBatch_unlocks (toy_config true) toy_km (Some direct_handlers) toy_valid toy_json_tx toy_impl
    toy_msgs toy_request (toy_client true) 0 (conj (conj eq_refl eq_refl) eq_refl) eq_refl) eq_refl).
Defined.

Lemma SendBatch_given_numbers_witness : exists rs s' txs, toy_batch toy_given = Some (rs, None, s') /\ length rs = 2%nat /\
  received (cl_world s') = txs /\
  Forall (fun tx => exists ms f, BuildAndSign toy_json_tx "alice" ms false f = Ok tx /\ f_sequence f = 3) txs.
Proof.
  assert (batch_size (toy_batch toy_given) = Some (2%nat, 2%nat)) as El by (vm_compute; reflexivity).
  destruct (toy_batch toy_given) as [[[rs [e|]] s']|] eqn:E; [discriminate El| |discriminate El]. cbn in El. injection El as El _.
  destruct (SendBatch_given_numbers (H0 := toy_journal) (toy_config true) toy_km (Some direct_handlers) toy_valid toy_json_tx toy_impl
    toy_msgs toy_given (toy_client true) rs None s' eq_refl eq_refl E) as (txs & Ej & _ & Hf).
  exists rs, s', txs. split; [reflexivity|]. split; [exact El|]. split; [exact Ej|].
  eapply Forall_impl; [exact Hf|]. intros tx (ms & f & Hb & _ & Hs). exists ms, f. split; [exact Hb|exact Hs].
Defined.

(** The address that is no [BaseAccount]. *)
Definition toy_vesting : KeyManager := MkKeyManager (fun _ _ => Ok (toy_pub, [22])) (fun _ _ _ => Err "").

Lemma SendBatch_swallows_panics_witness : exists s',
  SendBatch (toy_config false) toy_vesting (Some direct_handlers) toy_valid toy_json_tx toy_impl toy_msgs toy_request
    (toy_client false) = Some ([], None, s') /\ received (cl_world s') = [].
Proof.
  destruct (SendBatch_swallows_panics (H0 := toy_journal) (toy_config false) toy_vesting (Some direct_handlers) toy_valid toy_json_tx
    toy_impl toy_msgs toy_request (toy_client false) toy_pub [22] "gx1bg" tt [] (MkWorld 3 []) (MkWorld 3 []) (MkWorld 3 []))
    as [E Es].
  - discriminate.
  - reflexivity.
  - split; [split; reflexivity|reflexivity].
  - reflexivity.
  - reflexivity.
  - reflexivity.
  - reflexivity.
  - vm_compute. reflexivity.
  - reflexivity.
  - reflexivity.
  - reflexivity.
  - reflexivity.
  - eexists. split; [exact E|exact Es].
Defined.

Lemma ToMinCoin_unavailable_witness :
  fst (ToMinCoin [decV "plug" (3 * precisionReuse / 2)] (toy_client false)) = Ok [MkCoin "plug" (IntV 1)].
Proof.
  rewrite (@ToMinCoin_unavailable toy_world (gmap string cached) toy_node map_cache toy_codec (toy_client false) "plug" (3 * precisionReuse / 2) tt (MkWorld 3 []) "unavailable" (MkWorld 3 []) (MkWorld 3 [])).
  - vm_compute. reflexivity.
  - reflexivity.
  - discriminate.
  - vm_compute. discriminate.
  - vm_compute. reflexivity.
  - reflexivity.
  - reflexivity.
  - reflexivity.
Defined.
