(* ===== verification/ReadRuns.v ===== *)
(** Sending and reading at work: a node that keeps what it commits, and runs of
    the queries against it. *)
From Stdlib Require Import SpecFloat.
From stdpp Require Import relations.
From S2P Require Import Prelude GoStrings BigText SdkInt SdkDec CoinSet CoinText Coins DecCoins CoinType BitArray Wire Decoding Keys HDPath Multisig Address Armor KeyStore TxTypes TxProto UnknownProto Sigs TxBuilder TxDecode DecodeRuns StdTx Factory Events Errors Config Cache Locker Client ClientLemmas Blocks TxQueries Uuid Subscriptions Accounts ReadBack ClientRuns.

#[local] Existing Instances toy_lib33 toy_amino toy_armor toy_hd toy_bech32 toy_codec toy_laws33 toy_amino_laws MemoryDAO_laws Send_msg toy_host.

(** Headers are times; keys are their bytes. *)
#[export] Instance toy_tendermint : Tendermint := {|
  TmHeader := string; TmEvidence := unit; TmCommit := unit; TmBlockID := Z; TmProtoKey := option bytes; TmKey := bytes;
  header_RFC3339 t := t; PubKeyFromProto k := k; key_Type _ := "ed25519"; key_Bytes k := k; key_MarshalJSON k := Some k;
|}.

(** The hash of a transaction is its number in unary; two transactions share a
    block. *)
Definition toy_hash (i : nat) : bytes := zeros i.
Definition toy_height (i : nat) : Z := Z.of_nat i / 2 + 1.
#[export] Instance keeping_node : Node toy_world := {|
  Conn := unit;
  GenConn w := (Ok tt, w);
  conn_Close _ w := (Ok tt, w);
  grpc_Account _ a w := (Ok (chain_sequence w :: to_bytes a), w);
  grpc_AllBalances _ _ w := (Ok [], w);
  grpc_Token _ _ w := (Err "unavailable", w);
  ABCIQuery _ _ w := (Ok [5], w);
  node_BroadcastTxCommit tx w :=
    (Ok (MkCommit toy_ok toy_ok (toy_hash (length (received w))) (toy_height (length (received w)))), toy_include tx w);
  node_BroadcastTxSync tx w := (Err "down", w);
  node_BroadcastTxAsync tx w := (Err "down", w);
|}.
Definition toy_result (i : nat) (tx : bytes) : TmResultTx := MkTmResultTx (toy_hash i) (toy_height i) 0 toy_ok tx.
#[export] Instance keeping_txs : TxNode toy_world := {|
  rpc_Tx h _ w := (match received w !! length h with Some tx => Ok (toy_result (length h) tx) | None => Err "not found" end, w);
  rpc_TxSearch _ _ _ _ _ w := (Ok (MkTmResultTxSearch (imap toy_result (received w)) (Z.of_nat (length (received w)))), w);
  rpc_Block h w := (Ok (MkTmResultBlock (default 0 h) (Some (MkTmBlock (big_text (default 0 h)) [] tt None))), w);
  rpc_BlockResults h w := (Ok (MkTmBlockResults (default 0 h) [] [] [] []), w);
|}.
#[export] Instance keeping_kept : KeepsCommitted toy_world.
Proof.
  intros tx w r w' [= <- <-] _ _. cbn [c_Hash c_Height]. split; [apply Forall_replicate; by vm_compute|].
  exists (toy_result (length (received w)) tx). do 4 eexists. split_and!; [|reflexivity..].
  cbn. unfold toy_hash, zeros. rewrite length_replicate, lookup_app_r, Nat.sub_diag by lia. reflexivity.
Qed.

Definition no_json_send (t : Tx Send) : res bytes := Ok [].
Definition commit_request : BaseTx := MkBaseTx "alice" "pw" 0 [] "hi" "commit" false 0 0.
Abbreviation sending := (BuildAndSend (toy_config true) toy_km (Some direct_handlers) no_json_send (fun _ => 0) [send] commit_request (toy_client true)).
Definition sent_client : client toy_world (gmap string cached) := snd sending.

Lemma committed_read_back_witness : exists r info w c', fst sending = Ok r /\
  QueryTx (DefaultTxDecoder 1%nat 2%nat) (res_Hash r) (cl_world sent_client, no_caches) = (Ok info, (w, c')) /\
  Tx_GetMsgs (tx (rq_Tx info)) = Ok [send] /\ rq_Height info = 1.
Proof.
  assert (is_ok (fst sending) = true) as Hok by (vm_compute; reflexivity).
  unfold sent_client. destruct sending as [[r|e|p] s'] eqn:E; [|discriminate Hok..]. exists r.
  assert ((res_Height <$> fst sending) = Ok 1) as Hh by (vm_compute; reflexivity). rewrite E in Hh. injection Hh as Hh.
  destruct (committed_read_back (toy_config true) no_json_send (fun _ => 0) 1%nat 2%nat ref_laws ref_tx_types toy_store toy_priv toy_text
    [send] commit_request (toy_client true) s' r no_caches) as (info & w & c' & Eq & _ & Em & _ & _ & Eh).
  - exact toy_holds.
  - exact toy_usable.
  - reflexivity.
  - reflexivity.
  - vm_compute. split; [discriminate|reflexivity].
  - vm_compute. split; [discriminate|reflexivity].
  - intros m a Hm%list_elem_of_singleton Ha. subst m. injection Ha as <-. split; [vm_compute; reflexivity|].
    exists 3%nat. split; [vm_compute; reflexivity|]. apply ref_accepts. vm_compute. reflexivity.
  - intros bz f s1 Eb.
    assert ((fun '(bz, f) => (Z.of_nat (length bz) <? 2 ^ 62, f_fees f, f_sequence f)) <$>
      fst (buildTx (toy_config true) (store_manager toy_store) (Some direct_handlers) no_json_send [send] commit_request (toy_client true)) =
      Ok (true, [], 3)) as Ev by (vm_compute; reflexivity).
    rewrite Eb in Ev. injection Ev as H1 H2 H3. rewrite H2, H3.
    split; [by apply Z.ltb_lt|]. split; [constructor|]. vm_compute. split; [discriminate|reflexivity].
  - exact E.
  - apply no_caches_ok.
  - exists info, w, c'. split; [reflexivity|]. split; [exact Eq|]. split; [exact Em|]. by rewrite Eh, Hh.
Defined.

(** Three transactions in two blocks. *)
Definition toy_search : res (ResultSearchTxs Send) * (toy_world * caches (T := nat)) :=
  QueryTxs (DefaultTxDecoder 1%nat 2%nat) (Some (MkBuilder ["tx.height=1"])) None None (MkWorld 0 [encoded; encoded; encoded], no_caches).
Lemma QueryTxs_answers_witness : exists r s', toy_search = (Ok r, s') /\ rs_Total r = 3 /\ map rq_Timestamp (rs_Txs r) = ["1"; "1"; "2"].
Proof.
  assert ((fun r => map rq_Timestamp (rs_Txs r)) <$> fst toy_search = Ok ["1"; "1"; "2"]) as El by (vm_compute; reflexivity).
  unfold toy_search in *. destruct (QueryTxs _ _ _ _ _) as [[r|e|p] [w' k']] eqn:E; [|discriminate El..].
  exists r, (w', k'). split; [reflexivity|].
  apply QueryTxs_answers in E as (found & w1 & blocks & _ & Es & _ & _ & _ & Et & _).
  injection Es as <- <-. split; [exact Et|]. by injection El.
Defined.

(* ------------------------------------------------------------------ *)
(** * Subscriptions *)

(** An application that remembers the heights of the transactions it is told
    of: it reads its list and then writes it. *)
Definition heights_handler : EventData Send -> Prog (list Z) :=
  on_tx (fun d => Act id (fun l => Act (fun _ => l ++ [dt_Height d]) (fun _ => Done))).
Definition any_decoder (bz : bytes) : ST unit (wrapper Send) := mret newBuilder.
Definition no_std (bz : bytes) : res (StdTx Send) := Err "amino".
Definition no_key (bz : bytes) : PubKeyText := MkPubKeyText "" "".
Definition tx_event (height : Z) : TmEventData := EvTx height 0 [] toy_ok.
Definition tx_data (height : Z) : EventData Send :=
  DataTx (MkEventDataTx (hex_upper (zeros 32)) height 0 (Some newBuilder) (ParseTxResult toy_ok)).
Abbreviation toy_step := (mstep any_decoder no_std no_key heights_handler).

(** The second of two events is parsed and handled while the first one waits in
    its handler, between reading and writing. *)
Definition first_waits : machine Send unit (list Z) :=
  MkMachine [tx_event 1; tx_event 2] [] [(tx_event 1, Handling (tx_data 1) (Act (fun _ => [1]) (fun _ => Done)))]
    [(tx_event 2, tx_data 2)] false (tt, [2]).
Lemma first_waits_reached : rtc toy_step (started tt []) first_waits.
Proof.
  eapply rtc_l; [apply (step_arrive _ _ _ _ [] [] [] [] _ (tx_event 1))|].
  eapply rtc_l; [apply (step_arrive _ _ _ _ [tx_event 1] [tx_event 1] [] [] _ (tx_event 2))|].
  cbn. eapply rtc_l; [apply step_receive|]. eapply rtc_l; [apply step_receive|]. cbn.
  eapply rtc_l; [by apply (step_parse _ _ _ _ _ _ _ _ _ _ 0 (tx_event 1) (tx_data 1) tt)|].
  eapply rtc_l; [by apply (step_parse _ _ _ _ _ _ _ _ _ _ 1 (tx_event 2) (tx_data 2) tt)|]. cbn.
  eapply rtc_l; [by eapply (step_act _ _ _ _ _ _ _ _ _ _ 0)|]. eapply rtc_l; [by eapply (step_act _ _ _ _ _ _ _ _ _ _ 1)|]. cbn.
  eapply rtc_l; [by eapply (step_act _ _ _ _ _ _ _ _ _ _ 1)|]. cbn.
  eapply rtc_l; [by eapply (step_done _ _ _ _ _ _ _ _ _ 1)|]. apply rtc_refl.
Qed.

Lemma events_handled_witness : exists m, rtc toy_step (started tt []) m /\
  Forall (completed (K := unit) any_decoder no_std no_key heights_handler) (m_done m) /\ (m_done m).*1 = [tx_event 2] /\
  Acc (flip (own_step any_decoder no_std no_key heights_handler)) m.
Proof.
  exists first_waits. destruct (events_handled any_decoder no_std no_key heights_handler tt [] first_waits first_waits_reached)
    as (_ & _ & Hd & He & _).
  split; [exact first_waits_reached|]. split; [exact Hd|]. split; [reflexivity|exact He].
Defined.

Lemma toy_hw_ok : hw_ok (W := nat).
Proof. by intros w a w' [=]. Qed.
Lemma subscribers_distinct_witness : exists us g', newV1s 3 (newRFC4122Generator 0%nat) = (Ok us, g') /\
  getSubscribers 3 (newRFC4122Generator 0%nat) = (Ok (map subscriber_of us), g') /\ NoDup (map subscriber_of us).
Proof.
  destruct (newV1s 3 (newRFC4122Generator 0%nat)) as [[us|e|p] g'] eqn:E; [|vm_compute in E; discriminate E..].
  exists us, g'. split; [reflexivity|]. apply (subscribers_distinct 3); [apply toy_host_ok|apply toy_hw_ok|by vm_compute| |by vm_compute|exact E].
  apply Forall_replicate. by vm_compute.
Defined.
