(* ===== verification/ModuleRuns.v ===== *)
(** The clients of the modules at work: the theorems on them at concrete
    inputs, with the node, the key store and the libraries of [ClientRuns.v]. *)
From Stdlib Require Import SpecFloat.
From S2P Require Import Prelude GoStrings BigText SdkInt SdkDec CoinSet CoinText Coins DecCoins CoinType BitArray Wire Decoding Keys HDPath Multisig Address Armor KeyStore TxTypes TxProto Sigs TxBuilder Bank Coinswap SwapPrices Factory Events Errors Config Cache Locker Client ClientLemmas Accounts Batches SendOne BankClient Staking StakingAnswers StakingClient SwapClient ClientRuns.

#[local] Existing Instances toy_lib33 toy_amino toy_armor toy_hd toy_bech32 toy_node toy_codec toy_journal toy_bech32_laws toy_laws33 toy_amino_laws MemoryDAO_laws.

(* ------------------------------------------------------------------ *)
(** * Bank *)

Definition no_json (t : Tx BankMsg) : res bytes := Ok [].
Definition receipt (n : Z) : Receipt := MkReceipt some_address [decV "abc" (n * precisionReuse)].
Lemma toy_addr_ok : addr_ok toy_addr.
Proof. split; [apply Forall_forall; intros b Hb; repeat (apply elem_of_cons in Hb as [->|Hb]; [by vm_compute|]); by apply elem_of_nil in Hb|]. intros s E. vm_compute in E. injection E as <-. vm_compute. lia. Qed.

Definition toy_message : res MsgMultiSend := fst (multi_message toy_addr [receipt 1; receipt 2] (toy_client true)).
Lemma multi_message_balanced_witness :
  exists msg, toy_message = Ok msg /\ MsgMultiSend_GetSigners msg = Ok [toy_addr; toy_addr] /\
    out_total (Outputs msg) "abc" = 3.
Proof.
  assert ((fun m => (length (Inputs m), out_total (Outputs m) "abc")) <$> toy_message = Ok (2%nat, 3)) as El by (vm_compute; reflexivity).
  unfold toy_message in *. destruct (multi_message toy_addr [receipt 1; receipt 2] (toy_client true)) as [[msg|e|p] s'] eqn:E; [|discriminate El..].
  destruct (multi_message_balanced toy_addr _ _ _ _ toy_addr_ok ltac:(discriminate) E) as (_ & _ & Hs & _).
  exists msg. split; [reflexivity|]. split; [exact Hs|]. cbn in El. injection El as _ El. exact El.
Defined.

Definition toy_receipts : MultiSendRequest := map receipt [1; 2; 3; 4; 5; 6; 7].
Lemma batch_messages_all_witness : exists msgs, fst (batch_messages toy_addr toy_receipts (toy_client true)) = Ok msgs /\ length msgs = 2%nat.
Proof.
  assert (is_ok (fst (batch_messages toy_addr toy_receipts (toy_client true))) = true) as El by (vm_compute; reflexivity).
  destruct (batch_messages toy_addr toy_receipts (toy_client true)) as [[msgs|e|p] s'] eqn:E; [|discriminate El..].
  destruct (batch_messages_all _ _ _ _ _ E) as (segs & _ & _ & _ & Hl). exists msgs. split; [reflexivity|].
  apply Nat2Z.inj. rewrite Hl. vm_compute. reflexivity.
Defined.

(** A client that has looked the sender up before. *)
Definition toy_used : client toy_world (gmap string cached) := snd (QueryAddress toy_km "alice" "" (toy_client true)).
Abbreviation toy_send :=
  (bank_Send (toy_config true) toy_km (Some direct_handlers) no_json (fun _ => 0) id some_address
     [decV "abc" (2 * precisionReuse)] toy_request toy_used).


(* ------------------------------------------------------------------ *)
(** * Coinswap *)

Definition no_json_swap (t : Tx SwapMsg) : res bytes := Ok [].
Definition toy_swap_request : SwapCoinRequest := MkSwapRequest 7 (coinV "abc" 1000) "bcd" "0.003" "1.5".
Abbreviation toy_swap_run :=
  (run_op (toy_config true) no_json_swap (fun _ => 0) id toy_km (Some direct_handlers) (OpSwap toy_swap_request) toy_request (toy_client true)).


(* ------------------------------------------------------------------ *)
(** * Staking *)

Definition no_json_staking (t : Tx StakingMsg) : res bytes := Ok [].
Definition toy_delegation : DelegateRequest := MkDelegateRequest some_address (decV "abc" (2 * precisionReuse)).
Abbreviation toy_staking_run :=
  (StakingClient.run_op (toy_config true) no_json_staking (fun _ => 0) id toy_km (Some direct_handlers) (OpDelegate toy_delegation)
     toy_request (toy_client true)).

Lemma staking_operations_send_witness :
  exists r s' bz body auth sig m from, toy_staking_run = (Ok r, s') /\ received (cl_world s') = [bz] /\
    TxRaw_Unmarshal (MkTxRaw [] [] []) bz = Ok (MkTxRaw body auth [sig]) /\
    TxBody_Unmarshal (Msg := StakingMsg) empty_TxBody body =
      Ok (MkTxBody [MkAny "/cosmos.staking.v1beta1.MsgDelegate" (StakingMsg_Marshal m) [] None] "hi" 0 [] []) /\
    m = DelegateMsg (MkMsgDelegate from some_address (coinV "abc" 2)) /\
    Staking.StakingMsg_decodes_to m (StakingMsg_Marshal m).
Proof.
  assert ((fun '(r, s) => (is_ok r, match received (cl_world s) with [bz] => Z.of_nat (length bz) <? 2 ^ 62 | _ => false end)) toy_staking_run = (true, true))
    as El by (vm_compute; reflexivity).
  destruct toy_staking_run as [[r|e|p] s'] eqn:E; [|discriminate El..].
  destruct (staking_operations_send (toy_config true) no_json_staking (fun _ => 0) id (fun m => conj eq_refl eq_refl)
    toy_store toy_priv toy_text (OpDelegate toy_delegation) toy_request (toy_client true) s' r toy_holds
    toy_usable eq_refl E)
    as (bz & m & sender & from & value & s1 & Hj & Hq & Hf & Ht & Hd & Hdec & Ha).
  cbn in El. change (received (cl_world (toy_client true))) with (@nil bytes) in Hj. rewrite Hj in El. injection El as El.
  apply Z.ltb_lt in El. destruct (Hd El) as (body & auth & sig & pk & n & Hraw & _ & _ & Hb).
  destruct (Ht _ eq_refl) as (coins & s2 & Ev). vm_compute in Hq. injection Hq as <- <-. vm_compute in Ev. injection Ev as <- <- <-.
  destruct (Ha toy_addr_ok ltac:(discriminate)) as [Hm _]. cbn in Hm.
  eexists r, s', bz, body, auth, sig, m, from. split; [reflexivity|]. split; [exact Hj|]. split; [exact Hraw|].
  split; [subst m; exact Hb|]. split; [exact Hm|]. apply Hdec; subst m; clear -Hf; vm_compute in Hf; injection Hf as <-.
  - exists 2. split; [reflexivity|vm_compute; reflexivity].
  - apply Z.ltb_lt. vm_compute. reflexivity.
Defined.

(** A node with three validators. *)
Definition toy_validator (moniker : string) : Validator :=
  MkValidator some_address (Some (MkAny "/key" [2] [] None)) false 3 (IntV 5) (DecV 0) (MkDescription moniker "" "" "" "") 0 0
    (MkCommission (MkCommissionRates (DecV 0) (DecV 0) (DecV 0)) 0) (IntV 1).
Definition toy_validators : list Validator := map toy_validator ["a"; "b"; "c"].
#[local] Instance toy_staking : StakingNode toy_world := {|
  grpc_Validators _ _ req w := (Ok (page_of toy_validators req), w);
  grpc_Validator _ _ w := (Err "", w);
  grpc_ValidatorDelegations _ _ _ w := (Err "", w);
  grpc_ValidatorUnbondingDelegations _ _ _ w := (Err "", w);
  grpc_Delegation _ _ _ w := (Err "", w);
  grpc_UnbondingDelegation _ _ _ w := (Err "", w);
  grpc_DelegatorDelegations _ _ _ w := (Err "", w);
  grpc_DelegatorUnbondingDelegations _ _ _ w := (Err "", w);
  grpc_Redelegations _ _ _ _ _ w := (Err "", w);
  grpc_DelegatorValidators _ _ _ w := (Err "", w);
  grpc_DelegatorValidator _ _ _ w := (Err "", w);
  grpc_HistoricalInfo _ _ w := (Err "", w);
  grpc_StakingPool _ w := (Err "", w);
  grpc_StakingParams _ w := (Err "", w);
|}.
Definition toy_unpack (a : Any PubKey) : res PubKey := Ok (Secp256k1Key [2]).
Definition toy_validator_resps : list QueryValidatorResp :=
  match map_res (Validator_Convert toy_unpack (fun _ => "key")) toy_validators with Ok rs => rs | _ => [] end.

Lemma validators_pages_witness :
  query_pages (C := gmap string cached) toy_unpack (fun _ => "key") "" 2 2 (toy_client true) = (Ok (take 4 toy_validator_resps), toy_client true) /\
  map (fun r => d_Moniker (vr_Description r)) (take 4 toy_validator_resps) = ["a"; "b"; "c"].
Proof.
  split; [|vm_compute; reflexivity].
  apply (validators_pages toy_unpack (fun _ => "key") "" toy_validators toy_validator_resps).
  - vm_compute. reflexivity.
  - reflexivity.
  - intros w. exists tt, (Ok tt). split; [reflexivity|]. split; reflexivity.
  - reflexivity.
  - reflexivity.
Defined.
